(* ===== verification/_CoqProject ===== *)
-Q . S2P
Prelude.v
Text.v
Json.v
Ids.v
ScmTypes.v
ScmSchema.v
ControlEvents.v
EventSchema.v
EventCode.v
JsonText.v
ControlState.v
EventRead.v
ControlReducer.v
ScmReducer.v
ControlApply.v
ControlFrame.v
AttemptLife.v
TaskLife.v
SessionLife.v
CommandLife.v
RunLife.v
ScmLife.v
ControlInvariant.v
Activity.v
SteeringSchema.v
SteeringReducer.v
SteeringSnapshot.v
SteeringWf.v
SteeringRestore.v
SteeringStep.v
SteeringApply.v
SteeringHistory.v
SteeringAgreement.v
SteeringCompare.v
CommandIds.v
SchedulerEvents.v
Scheduler.v
SchedulerLife.v
SchedulerDecisions.v
SchedulerHistory.v
Domain.v
Dag.v
Effects.v
Lists.v
Money.v
Stringify.v
Attest.v
LedgerRecords.v
Ledger.v
LedgerLog.v
LedgerFacts.v
LedgerAccounts.v
LedgerQuiet.v
LedgerSample.v
Store.v
StoreAppend.v
GitTransaction.v
Verification.v
Integration.v
IntegrationDriver.v
IntegrationSaga.v
Publication.v
RunPlan.v
Canonical.v
CanonicalProjection.v
Journal.v
Orchestration.v
OrchestrationFacts.v
Sample.v
IntegrationSample.v
OrchestrationSample.v
ControlProperties.v
StoreProperties.v
LedgerProperties.v
IntegrationProperties.v
OrchestrationProperties.v
SteeringProperties.v
SchedulerProperties.v
GraphProperties.v
EventProperties.v
