(* ===== verification/Prelude.v ===== *)
(** RelayForge: verification library.

    RelayForge (src/) runs coding agents as child processes and keeps everything
    it decides in an append-only, digest-chained history of control events. The
    durable state is a fold over that history; services read the fold, decide,
    and append the next event against the version they saw. This library models
    the folds, the events they consume and the pure decisions around them, and
    proves what makes them trustworthy: that a history which is accepted has the
    promised shape, whoever wrote it and however it was replayed.

    ** The program and the files that model it

    Values and host.
    - Prelude: thrown errors ([result], [fold_result]), plain JavaScript objects
      ([obj], [obj_get] with the members inherited from Object.prototype), sorting
      by a comparator, UTF-16 texts, and the parameters of the host: [Digest]
      (SHA-256 of node:crypto) and [Collation] (localeCompare).
    - Text, Ids: the String, Date and regular-expression operations the
      schemas use (src/ids.ts, src/control/events.ts).
    - Json: [canonicalJson] of src/control/events.ts; its injective encodings are in EventCode.
      JsonText: [JSON.parse] of the standard library, and the class [JsonReads] of
      types that are read back as they were printed.

    Control events (src/control/events.ts, src/scm/types.ts, src/scm/schema.ts).
    - ScmTypes, ScmSchema: source-control facts, their closed schemas, branch refs,
      hosts and URLs (the URL parser is the parameter [UrlApi]).
    - ControlEvents, EventSchema, EventCode: payloads of the run, task, message,
      runtime, attempt, steering and scm families, the envelope, digests,
      aggregates, and the check of persisted events.
    - EventRead: the closed schemas as readers of JSON, for events and for the
      facts of the projection, with [JsonReads] for each.

    The control projection (src/control/reducer.ts).
    - ControlState: the facts. ControlReducer, ScmReducer: one definition per
      case of [applyControlEvent], guards in the order of the code. ControlApply:
      the function itself and [reduceControlEvents].
    - ControlFrame, AttemptLife, TaskLife, SessionLife, CommandLife, RunLife,
      ScmLife: per fact, an abstract machine or an invariant, and
      that every handler implements or preserves it. ControlInvariant joins them.
    - Activity: [deriveActivity] of the reducer and
      [deriveSteeringActivity] of src/steering/activity.ts.

    The control store (src/control/store.ts).
    - Store: the tables of the database with their constraints, the rows and their
      checks, the fences, the transaction of [commitParsed] with the projection
      rows each event writes and the consumer cursors, and the calls that append
      and read. SQLite, the clock, the file checks and the injected faults are the
      class [StoreHost], whose every operation may throw. Then [holds], what it is
      for tables to hold a log, and the calculus [ends] of the store's commands; a
      host that does not fail is the class [QuietHost]. StoreAppend: the log machine [log_append], that every call
      implements it or changes nothing, and what the reading calls return.

    Steering (src/steering/types.ts, schema.ts, reducer.ts).
    - SteeringSchema, SteeringSnapshot, SteeringReducer: data, schemas, body
      normalisation, the snapshot check, and the reducer with its error codes.
    - SteeringWf, SteeringRestore, SteeringStep, SteeringApply,
      SteeringHistory, SteeringAgreement, SteeringCompare,
      CommandIds: its invariant, histories, prompt binding, the agreement with the
      control reducer, the comparison of commands and the generated identifiers.

    The money ledger (src/money.ts, attest.ts, scope.ts, ledger.ts).
    - Money: exact amounts in nano-dollars. Stringify: UTF-8 and [JSON.stringify],
      for texts that are written to files and read back.
    - Attest: the payload of an attestation, its one encoding, its tag
      (HMAC-SHA256 is the parameter [Hmac]), and the identities of scopes.
    - LedgerRecords: the records of the journal with their checks, the hash chain
      and the accounts folded from them. Ledger: class LedgerHandle over the two
      files, the journal and the write-ahead log: the folds of both, the
      transaction (intent, publication, commit, poison), and every operation of
      the interface. The host is the class [LedgerHost]; its steps may fail, or be
      the last thing the process does. What a generation was opened with (epoch,
      genesis, run, key) is the class [Generation].
    - LedgerLog, LedgerFacts: what of a file that was cut short is still read, and
      the calculus [does] of what an operation leaves on the disk wherever it
      ends; the histories of calls with losses of power, and what explains them.
      LedgerAccounts: spending, budgets and authority over such histories.
      LedgerQuiet: the calls on a host that does not fail ([QuietLedger]).
      LedgerSample: a host that follows a script.

    Multi-repository runs (src/multirepo/).
    - SchedulerEvents (events.ts), Scheduler (scheduler.ts): the scheduler's own
      event fold, the reconciliation choice with ageing, the admission decision
      and the decision on expired leases. SchedulerLife: the lease machine
      [phase_next] and the invariant. SchedulerDecisions, SchedulerHistory: leases
      counted, decisions followed into the fold, histories governed by admission.
    - Domain (domain.ts): the repository registry, node:path on POSIX paths,
      repository sets and their digest. Dag (dag.ts): the layered order of a task
      graph, loop by loop, and what it is.
    - Effects: commands over a world that may throw, and the calculus [after] of
      what holds when they have run. Lists: vectors updated by key.
    - GitTransaction (git-transaction.ts): candidates and compare-and-swap of refs
      over the class [GitHost], and what they do given git's documented behaviour
      ([GitRefs]). Verification (verification.ts, receipt.ts): the combined
      verification and its receipts.
    - Integration (integration.ts): plan, events, reducer and driver; the
      transitions and the invariant. IntegrationDriver: what a call moves and which
      event it returns. IntegrationSaga: durable events, lost calls and other
      writers as one machine, and the measure.
    - Publication (publication.ts): the facts of a publication, its reducer and its
      driver; the invariant and the order of the remote effects. The adapter is the
      class [PublicationAdapter].
    - RunPlan (materializeMultiRepositoryRunPlan of orchestration.ts,
      validateProvisionSpecs of src/provision.ts): the request of a run and the
      checks that authorise it.
    - Canonical, CanonicalProjection (orchestration.ts): the durable facts of a run,
      their schema and their projection, composed of the folds of Scheduler,
      Integration and Publication; what an accepted fact passed.
    - Journal (readCanonical, appendCanonical): the class of the journal a run
      appends to, with replay and compare. Orchestration: the plans and events the
      run builds, scheduling, leases, and runIntegration and runPublication, with
      their loops, over the journal. OrchestrationFacts: what these leave behind,
      for a journal that keeps the contract [JournalContract], and that the loop of
      an integration ends.

    The interfaces between the parts are classes: [GitHost] with [GitRefs],
    [VerificationHost], [PublicationAdapter], [StoreHost] with [QuietHost],
    [LedgerHost] with [HostTexts] and [QuietLedger], and [CanonicalJournal] with
    [JournalContract]. A client's theorems are proved against them, and
    IntegrationSample, OrchestrationSample and LedgerSample discharge them with a
    small git, a small journal and a scripted file system.

    Sample holds a concrete host and a history of a whole run on which the
    witnesses are evaluated; IntegrationSample and OrchestrationSample add
    repositories, a journal and a run of one task up to its integration. The
    theorems stand in ControlProperties, StoreProperties, LedgerProperties,
    IntegrationProperties, OrchestrationProperties, SteeringProperties, SchedulerProperties,
    GraphProperties and EventProperties.

    ** What the theorems show

    - Events (EventProperties): the text a digest is taken of identifies the event
      and is read back as it; keys, refs and URLs cannot be forged by concatenation.
    - Control (ControlProperties): attempts, tasks, sessions, commands, runs and
      publications follow their machines; outcomes are final; the version fence;
      polls, observations and reactions are exclusive and backed; an attempt can
      always be ended.
      The activity of a session: the two derivations agree, capture needs a proven
      boundary, and the derivation returns on every reachable projection.
    - The store (StoreProperties): whatever fails and whoever else writes, the
      tables hold an append-only log whose replay the projection tables are, fact by
      fact; a call is one atomic append or changes nothing; reading returns the
      replay and the exact pages of the log; a batch may be sent again.
    - The money ledger (LedgerProperties): whatever fails, stops or loses power, the
      files are one list of records that the calls extended one at a time, or refuse
      every use; spending stays within the budget, and money is credited for a
      kernel's mint alone; what calls do when nothing fails; an attestation binds
      every member of its payload; amounts are exact.
    - Steering (SteeringProperties): resuming from a snapshot equals replaying from
      the start; inclusion is bound to one prompt and atomic; the two reducers agree;
      identifiers sort by time; bodies and identifiers keep their bounds.
    - Scheduler (SchedulerProperties): refinement of the lease machine; concurrency
      limits and dependency order hold in every history whose grants were decided
      by [decideSchedulerAdmission]; decisions are accepted events; the choice is
      fair; every event counts once.
    - Graphs (GraphProperties): repositories are separate and sets bind their policy;
      the order is topological and the layers are the depths; a graph is ordered if
      and only if it has no cycle and no chain of more than 256 edges.
    - Integrations (IntegrationProperties): however often a call is lost and whatever
      other writers do, a transaction is applied in all repositories or in none,
      unless someone else moved a ref; the state of a transaction is backed by its
      entries; swaps are compare-and-swap; a receipt certifies a whole
      verification.
    - The orchestration (OrchestrationProperties): a run over its journal keeps all or
      nothing across restarts, and its loop ends; the durable projection is the
      composition of the parts' folds and registers, and leaves no fact out; every durable fact was fenced, and nothing is published that is
      not integrated; an append takes effect at most once; a plan that materializes
      is authorised; the states of a publication are backed, and its remote effects
      come in order.

    ** How the model abstracts

    Identifiers, digests, host names and locators, which the schemas confine to
    ASCII, are [string]; free text is a [text] of UTF-16 code units. Numbers are
    [Z], and the schemas' safe-integer bounds are checked where the code checks
    them. An error is the constructor or code of what is thrown; message texts
    are dropped. Frozen or cloned objects are values: the reducers work on a
    private clone, so no aliasing is observable. [Date.parse] is modelled on the
    ISO profile the schemas admit. Shape checks of zod (unknown keys, types) are the
    Rocq types; every other refinement is a boolean function.

    The ledger's records are the JSON values ([json]) they were parsed from or will
    be printed from, with exact integers for numbers, since its checks are made on
    parsed values member by member. The checks of paths, inodes, owners, locks and
    descriptors are steps of the host that may fail. A loss of power leaves of each
    file what was synced last, or a prefix of what was written since.

    Loops are structural ([fold_result], recursion on lists) except the layers of a
    task graph ([layered]), whose fuel is the number of tasks: [layered_spec] shows
    that it ends because nothing is ready, never for want of fuel; and the loops of
    an integration and of a publication ([drive_integration], [drive_publication]),
    whose fuel is the code's own bound of transitions, 512: [drive_integration_ends]
    shows that 3n + 6 are enough for the integration of n repositories, unless two
    event ids, which are truncated digests, collide; and an append retries after at
    most 16 conflicts, the code's bound, and then throws. Digests are
    compared through [Digest] without assuming it injective; where collisions
    matter the theorem speaks of the digested texts or takes the absence of a
    collision on the texts at hand as a hypothesis.

    ** Not modelled, and why

    The observation.* and multirepo.* families of src/control/events.ts, their
    handlers in src/control/reducer.ts, and the rows of the control room the reducer
    refreshes for display: their payloads are the states of transcript ingestion
    and of the orchestration's journal, so the control projection of this library
    is the one of a run without them, and [validateObservationBatch] of the store,
    which checks such events only, has no counterpart. Of the store, snapshots, the
    verification and rebuild of the projection, [verifyIntegrity], and [open] with
    its checks of the schema and of the file are left out: they compare what
    [store_reads_exact] shows to be equal, or rest on the file system; so are the
    wake-ups of subscribers, which the store sends after the commit and whose errors
    it drops. Of the ledger, opening and creating a generation with its manifest
    and key, the migration of old journals, the walk of the path, and the kernel of
    src/settlement-kernel.ts that reads the transcripts a mint is asked for, are
    left out; reconcile, which an operator calls, is defined but not part of the
    histories. Of src/multirepo/orchestration.ts the parts that create worktrees or
    run workers in them (executeTask, finishIntegratedTask,
    runMultiRepositoryOrchestration) are left out, since they rest on worktrees.ts.
    The server and clients of the store, provider adapters, worktrees, tmux,
    sandboxing, configuration, the dashboard and the orchestrator's main loop are
    input and output around the modelled folds: they run processes, sockets and the
    file system, and have no model here. *)
From Stdlib Require Export ZArith Lia.
From stdpp Require Export prelude gmap strings pretty sorting.

#[export] Set Default Goal Selector "!".
#[global] Open Scope Z_scope.

(** * Results: a computation of the program either returns or throws. *)

Inductive result (E A : Type) : Type :=
| Ok (a : A)
| Err (e : E).
Arguments Ok {E A} a.
Arguments Err {E A} e.

#[global] Instance result_ret {E} : MRet (result E) := fun A a => Ok a.
#[global] Instance result_bind {E} : MBind (result E) := fun A B k c =>
  match c with Ok a => k a | Err e => Err e end.

(** [if (!b) throw e;] *)
Definition ensure {E} (b : bool) (e : E) : result E unit :=
  if b then Ok tt else Err e.

(** [catch]: the program rethrows a foreign error under its own error type. *)
Definition map_err {E F A} (f : E -> F) (c : result E A) : result F A :=
  match c with Ok a => Ok a | Err e => Err (f e) end.

Definition is_ok {E A} (c : result E A) : bool :=
  match c with Ok _ => true | Err _ => false end.

(** Fold a fallible step over a list, left to right (a [for ... of] loop whose
    body may throw). *)
Fixpoint fold_result {E A B} (f : A -> B -> result E A) (a : A) (l : list B) : result E A :=
  match l with
  | [] => Ok a
  | b :: l' => a' ← f a b; fold_result f a' l'
  end.

Fixpoint map_result {E A B} (f : A -> result E B) (l : list A) : result E (list B) :=
  match l with
  | [] => Ok []
  | a :: l' => b ← f a; bs ← map_result f l'; Ok (b :: bs)
  end.

Lemma bind_Ok {E A B} (c : result E A) (k : A -> result E B) b :
  (c ≫= k) = Ok b <-> exists a, c = Ok a /\ k a = Ok b.
Proof.
  destruct c as [a|e]; cbn; split; intros H.
  - eauto.
  - destruct H as (a' & [= ->] & H); exact H.
  - discriminate.
  - destruct H as (? & [=] & _).
Qed.

Lemma bind_Err {E A B} (c : result E A) (k : A -> result E B) e :
  (c ≫= k) = Err e <-> c = Err e \/ exists a, c = Ok a /\ k a = Err e.
Proof.
  destruct c as [a|e']; cbn; split; intros H.
  - eauto.
  - destruct H as [[=]|(a' & [= ->] & H)]; exact H.
  - left; congruence.
  - destruct H as [[= ->]|(a' & [=] & _)]; reflexivity.
Qed.

Lemma ensure_Ok {E} b (e : E) u : ensure b e = Ok u <-> b = true.
Proof. destruct b, u; cbn; split; congruence. Qed.

Lemma ensure_Err {E} b (e e' : E) : ensure b e = Err e' <-> b = false /\ e' = e.
Proof. destruct b; cbn; intuition congruence. Qed.

Lemma map_err_Ok {E F A} (f : E -> F) (c : result E A) a :
  map_err f c = Ok a <-> c = Ok a.
Proof. destruct c; cbn; split; congruence. Qed.

Lemma fold_result_app {E A B} (f : A -> B -> result E A) a l1 l2 :
  fold_result f a (l1 ++ l2) = (a' ← fold_result f a l1; fold_result f a' l2).
Proof.
  revert a; induction l1 as [|b l1 IH]; intros a; cbn; [done|].
  destruct (f a b); cbn; auto.
Qed.

(** Invariant rule for a fallible fold. *)
Lemma fold_result_ind {E A B} (f : A -> B -> result E A) (P : A -> Prop) l a a' :
  P a ->
  (forall x b x', b ∈ l -> P x -> f x b = Ok x' -> P x') ->
  fold_result f a l = Ok a' -> P a'.
Proof.
  revert a; induction l as [|b l IH]; intros a Ha Hstep; cbn.
  - intros [= <-]; exact Ha.
  - rewrite bind_Ok; intros (x & Hx & Hl).
    eapply (IH x); [|intros; eapply Hstep; eauto; by apply list_elem_of_further|exact Hl].
    eapply Hstep; eauto; apply list_elem_of_here.
Qed.

Lemma map_result_Ok {E A B} (f : A -> result E B) l bs :
  map_result f l = Ok bs <-> Forall2 (fun a b => f a = Ok b) l bs.
Proof.
  revert bs; induction l as [|a l IH]; intros bs; cbn.
  - split; [intros [= <-]; constructor|inversion 1; done].
  - rewrite bind_Ok; split.
    + intros (b & Hb & H). apply bind_Ok in H as (bs' & H & [= <-]).
      constructor; [done|]. by apply IH.
    + inversion 1 as [|? b ? bs' Hb Hbs]; subst.
      exists b; split; [done|]. apply bind_Ok. exists bs'; split; [|done]. by apply IH.
Qed.

(** * Boolean guards *)

Create Rewrite HintDb guards.
#[export] Hint Rewrite @andb_true_iff @orb_true_iff @negb_true_iff @bool_decide_eq_true
  @bool_decide_eq_false @andb_false_iff @orb_false_iff @negb_false_iff
  Z.eqb_eq Z.eqb_neq Z.leb_le Z.ltb_lt Z.leb_gt Z.ltb_ge : guards.

(** Turn every guard [b = true] / [b = false] in the context into a
    proposition, and split the conjunctions. *)
Ltac guards := autorewrite with guards in * |-; destruct_and?; simplify_eq.

(** Decompose a successful run: each [x ← c; k] gives the equation of [c] and
    goes on with [k]; each [ensure b e] gives the proposition [b] states. *)
Ltac run_step H :=
  lazymatch type of H with
  | (mbind _ ?c) = Ok _ =>
      let a := fresh "a" in let Ha := fresh "Hrun" in
      apply bind_Ok in H as (a & Ha & H)
  | ensure _ _ = Ok _ => apply ensure_Ok in H
  | map_err _ _ = Ok _ => apply map_err_Ok in H
  | Ok _ = Ok _ => injection H as H
  | Err _ = Ok _ => discriminate H
  | (match ?x with _ => _ end) = Ok _ =>
      let Hx := fresh "Hcase" in destruct x eqn:Hx
  end.

Ltac run :=
  repeat match goal with
  | H : @eq (result _ _) ?c ?r |- _ =>
      lazymatch r with Ok _ => run_step H end
  | a : unit |- _ => destruct a
  | H : Err _ = Ok _ |- _ => discriminate H
  end.

(** * JavaScript objects used as maps

    A plain object holds its own properties and inherits those of
    [Object.prototype]: [o[k]] for an absent own key [k] is [undefined] unless
    [k] names an inherited member, in which case it is a (truthy) function
    none of whose properties the program reads is defined. *)

Abbreviation obj V := (gmap string V).

Inductive slot (V : Type) : Type :=
| Absent
| Inherited
| Own (v : V).
Arguments Absent {V}.
Arguments Inherited {V}.
Arguments Own {V} v.

Definition objectPrototypeKeys : list string :=
  ["constructor"; "__defineGetter__"; "__defineSetter__"; "hasOwnProperty";
   "__lookupGetter__"; "__lookupSetter__"; "isPrototypeOf";
   "propertyIsEnumerable"; "toString"; "valueOf"; "__proto__"; "toLocaleString"].

Definition obj_get {V} (o : obj V) (k : string) : slot V :=
  match o !! k with
  | Some v => Own v
  | None => if bool_decide (k ∈ objectPrototypeKeys) then Inherited else Absent
  end.

(** [o[k]] is truthy (every own value the program stores is an object). *)
Definition present {V} (s : slot V) : bool :=
  match s with Absent => false | _ => true end.

Definition own {V} (s : slot V) : option V :=
  match s with Own v => Some v | _ => None end.

(** [Object.values(o)]; the theorems show where the order is immaterial. *)
Definition obj_values {V} (o : obj V) : list V := (map_to_list o).*2.

Lemma obj_get_Own {V} (o : obj V) k v : obj_get o k = Own v <-> o !! k = Some v.
Proof.
  unfold obj_get. destruct (o !! k); [split; congruence|].
  case_bool_decide; split; congruence.
Qed.

Lemma obj_get_Absent {V} (o : obj V) k : obj_get o k = Absent -> o !! k = None.
Proof. unfold obj_get. destruct (o !! k); congruence. Qed.

Lemma present_false {V} (o : obj V) k :
  present (obj_get o k) = false <-> o !! k = None /\ k ∉ objectPrototypeKeys.
Proof.
  unfold obj_get. destruct (o !! k); [cbn; intuition congruence|].
  case_bool_decide; cbn; intuition congruence.
Qed.

Lemma own_get {V} (o : obj V) k : own (obj_get o k) = o !! k.
Proof. unfold obj_get. destruct (o !! k); [done|]. by case_bool_decide. Qed.

Lemma elem_of_obj_values {V} (o : obj V) v : v ∈ obj_values o <-> exists k, o !! k = Some v.
Proof.
  unfold obj_values. rewrite list_elem_of_fmap. split.
  - intros ([k v'] & -> & H). exists k. by apply elem_of_map_to_list.
  - intros (k & H). exists (k, v). split; [done|]. by apply elem_of_map_to_list.
Qed.

Lemma existsb_obj_values {V} (p : V -> bool) (o : obj V) :
  existsb p (obj_values o) = true <-> exists k v, o !! k = Some v /\ p v = true.
Proof.
  rewrite existsb_exists. split.
  - intros (v & Hv & Hp). rewrite <- list_elem_of_In in Hv.
    apply elem_of_obj_values in Hv as [k Hk]. eauto.
  - intros (k & v & Hk & Hp). exists v. split; [|done].
    rewrite <- list_elem_of_In. apply elem_of_obj_values. eauto.
Qed.

Lemma existsb_obj_values_false {V} (p : V -> bool) (o : obj V) :
  existsb p (obj_values o) = false <-> forall k v, o !! k = Some v -> p v = false.
Proof.
  split.
  - intros H k v Hk. destruct (p v) eqn:Hp; [|done].
    assert (existsb p (obj_values o) = true) by (apply existsb_obj_values; eauto). congruence.
  - intros H. destruct (existsb p (obj_values o)) eqn:E; [|done].
    apply existsb_obj_values in E as (k & v & Hk & Hp). rewrite (H k v Hk) in Hp. congruence.
Qed.

(** * Sorting with a comparator

    [Array.prototype.sort] is stable; on a consistent comparator the stable
    sorted permutation is unique, and insertion sort computes it. *)

Fixpoint sort_insert {A} (cmp : A -> A -> Z) (x : A) (l : list A) : list A :=
  match l with
  | [] => [x]
  | y :: l' => if cmp x y <=? 0 then x :: l else y :: sort_insert cmp x l'
  end.

Fixpoint js_sort {A} (cmp : A -> A -> Z) (l : list A) : list A :=
  match l with
  | [] => []
  | x :: l' => sort_insert cmp x (js_sort cmp l')
  end.

Lemma sort_insert_Permutation {A} (cmp : A -> A -> Z) x l : sort_insert cmp x l ≡ₚ x :: l.
Proof.
  induction l as [|y l IH]; cbn; [done|].
  destruct (cmp x y <=? 0); [done|]. rewrite IH. constructor.
Qed.

Lemma js_sort_Permutation {A} (cmp : A -> A -> Z) l : js_sort cmp l ≡ₚ l.
Proof.
  induction l as [|x l IH]; cbn; [done|]. by rewrite sort_insert_Permutation, IH.
Qed.

Lemma elem_of_js_sort {A} (cmp : A -> A -> Z) l x : x ∈ js_sort cmp l <-> x ∈ l.
Proof. by rewrite js_sort_Permutation. Qed.

Lemma length_js_sort {A} (cmp : A -> A -> Z) l : length (js_sort cmp l) = length l.
Proof. by rewrite js_sort_Permutation. Qed.

(** What ECMAScript calls a consistent comparator. *)
Class Comparator {A} (cmp : A -> A -> Z) : Prop := {
  cmp_total : forall x y, 0 < cmp x y -> cmp y x <= 0;
  cmp_trans : forall x y z, cmp x y <= 0 -> cmp y z <= 0 -> cmp x z <= 0
}.

Section comparator.
Context {A} (cmp : A -> A -> Z) `{!Comparator cmp}.
Let le x y := cmp x y <= 0.

Lemma sort_insert_StronglySorted x l : StronglySorted le l -> StronglySorted le (sort_insert cmp x l).
Proof using Type*.
  induction 1 as [|y l Hl IH Hy]; cbn.
  - repeat constructor.
  - destruct (Z.leb_spec (cmp x y) 0) as [Hxy|Hxy].
    + constructor; [by constructor|]. constructor; [done|].
      eapply Forall_impl; [exact Hy|]. intros z. by apply cmp_trans.
    + constructor; [done|]. rewrite sort_insert_Permutation. constructor; [|done].
      by apply cmp_total.
Qed.

Lemma js_sort_StronglySorted l : StronglySorted le (js_sort cmp l).
Proof using Type*.
  induction l as [|x l IH]; cbn; [constructor|]. by apply sort_insert_StronglySorted.
Qed.

(** The first element of a sorted array is a least one. *)
Lemma js_sort_head l x r :
  js_sort cmp l = x :: r -> x ∈ l /\ forall y, y ∈ l -> y = x \/ cmp x y <= 0.
Proof using Type*.
  intros Hs. pose proof (js_sort_StronglySorted l) as Hl. rewrite Hs in Hl.
  apply StronglySorted_inv in Hl as [_ Hx]. rewrite Forall_forall in Hx.
  setoid_rewrite <-(elem_of_js_sort cmp l). rewrite Hs. split; [apply list_elem_of_here|].
  intros y [->|Hy]%elem_of_cons; [by left|]. right. by apply Hx.
Qed.

Lemma sort_insert_sorted x l : Forall (le x) l -> sort_insert cmp x l = x :: l.
Proof using Type*.
  destruct 1 as [|y l Hy _]; cbn; [done|].
  by rewrite (proj2 (Z.leb_le _ _) Hy).
Qed.

(** Sorting leaves a sorted array alone. *)
Lemma js_sort_sorted l : StronglySorted le l -> js_sort cmp l = l.
Proof using Type*.
  induction 1 as [|x l Hl IH Hx]; cbn; [done|]. rewrite IH. by apply sort_insert_sorted.
Qed.
End comparator.

Lemma js_sort_nil {A} (cmp : A -> A -> Z) l : js_sort cmp l = [] <-> l = [].
Proof.
  split; [|by intros ->]. intros H. apply length_zero_iff_nil.
  by rewrite <-(length_js_sort cmp), H.
Qed.

(** * Text and the host environment

    A JavaScript string is a sequence of UTF-16 code units. Identifiers,
    digests and timestamps are ASCII by their schemas and are kept as
    [string]; free text is kept as its code units. *)

Abbreviation text := (list Z).

Fixpoint text_of_string (s : string) : text :=
  match s with
  | EmptyString => []
  | String c s' => Z.of_N (Ascii.N_of_ascii c) :: text_of_string s'
  end.

Lemma text_of_string_app s1 s2 :
  text_of_string (s1 +:+ s2) = text_of_string s1 ++ text_of_string s2.
Proof. induction s1 as [|c s1 IH]; [done|]. change (text_of_string (String c s1 +:+ s2)) with (Z.of_N (Ascii.N_of_ascii c) :: text_of_string (s1 +:+ s2)). by rewrite IH. Qed.

Lemma text_of_string_inj s1 s2 : text_of_string s1 = text_of_string s2 -> s1 = s2.
Proof.
  revert s2; induction s1 as [|c1 s1 IH]; intros [|c2 s2]; cbn; try congruence.
  intros [= Hc Hs]. apply IH in Hs as ->. f_equal.
  rewrite <-(Ascii.ascii_N_embedding c1), <-(Ascii.ascii_N_embedding c2). f_equal. lia.
Qed.

(** [String.prototype.localeCompare] depends on the host's ICU locale. What the
    program relies on is that it is a consistent comparator. *)
Class Collation := {
  localeCompare : string -> string -> Z;
  #[export] localeCompare_comparator :: Comparator localeCompare
}.

(** [createHash("sha256")...digest("hex")] of node:crypto, on the UTF-8
    encoding of a text. *)
Class Digest := sha256Text : text -> string.

(** Number.MAX_SAFE_INTEGER *)
Definition MAX_SAFE_INTEGER : Z := 2 ^ 53 - 1.
Definition isSafeInteger (n : Z) : bool := (- MAX_SAFE_INTEGER <=? n) && (n <=? MAX_SAFE_INTEGER).

(** A JavaScript number used as a count, printed by a template literal. *)
Definition num_to_string (n : Z) : string := pretty n.

Lemma num_to_string_inj n m : num_to_string n = num_to_string m -> n = m.
Proof. apply pretty_Z_inj. Qed.
