(* ===== verification/Text.v ===== *)
(** Text: the String, Date and regular-expression operations of the source, on
    texts of UTF-16 code units; ISO timestamps on the profile the schemas admit. *)
From Stdlib Require Import Ascii.
From S2P Require Import Prelude.

(** [t.startsWith(p)] *)
Fixpoint startsWith (p t : text) : bool :=
  match p, t with
  | [], _ => true
  | c :: p', d :: t' => (c =? d) && startsWith p' t'
  | _ :: _, [] => false
  end.

(** [t.endsWith(p)] *)
Definition endsWith (p t : text) : bool := startsWith (reverse p) (reverse t).

(** [t.includes(p)] *)
Fixpoint includes (p t : text) : bool :=
  startsWith p t || match t with [] => false | _ :: t' => includes p t' end.

(** [t.split(c)] for a one-unit separator: at least one part. *)
Fixpoint split (sep : Z) (t : text) : list text :=
  match t with
  | [] => [[]]
  | c :: t' =>
      if c =? sep then [] :: split sep t'
      else match split sep t' with
           | part :: parts => (c :: part) :: parts
           | [] => [[c]]
           end
  end.

(** The parts with the separator between them. *)
Fixpoint unsplit (sep : Z) (parts : list text) : text :=
  match parts with
  | [] => []
  | [part] => part
  | part :: parts' => part ++ sep :: unsplit sep parts'
  end.

(** The whitespace [String.prototype.trim] removes. *)
Definition js_whitespace (c : Z) : bool :=
  ((9 <=? c) && (c <=? 13)) || (c =? 32) || (c =? 160) || (c =? 5760) || ((8192 <=? c) && (c <=? 8202))
  || (c =? 8232) || (c =? 8233) || (c =? 8239) || (c =? 8287) || (c =? 12288) || (c =? 65279).

(** [value === value.trim()] *)
Definition unpadded (t : text) : bool :=
  match t with
  | [] => true
  | c :: _ => negb (js_whitespace c) && negb (js_whitespace (List.last t c))
  end.

(** * Facts *)

Lemma startsWith_spec p t : startsWith p t = true <-> exists r, t = p ++ r.
Proof.
  revert t; induction p as [|c p IH]; intros t; cbn; [split; [eauto|done]|].
  destruct t as [|d t]; [split; [done|by intros [r ?]]|].
  rewrite andb_true_iff, IH, Z.eqb_eq. split.
  - intros [-> [r ->]]. by exists r.
  - intros [r [= -> ->]]. split; [done|by exists r].
Qed.

Lemma endsWith_spec p t : endsWith p t = true <-> exists r, t = r ++ p.
Proof.
  unfold endsWith. rewrite startsWith_spec. split.
  - intros [r H]. exists (reverse r). rewrite <-(reverse_involutive t), H, reverse_app, reverse_involutive. done.
  - intros [r ->]. exists (reverse r). by rewrite reverse_app.
Qed.

Lemma includes_spec p t : includes p t = true <-> exists a b, t = a ++ p ++ b.
Proof.
  induction t as [|c t IH].
  - cbn. rewrite orb_false_r, startsWith_spec. split.
    + intros [r Hr]. exists [], r. exact Hr.
    + intros (a & b & H). symmetry in H. apply app_eq_nil in H as [_ [-> _]%app_eq_nil]. by exists [].
  - change (includes p (c :: t)) with (startsWith p (c :: t) || includes p t).
    rewrite orb_true_iff, IH, startsWith_spec. split.
    + intros [[r ->]|(a & b & ->)]; [by exists [], r|by exists (c :: a), b].
    + intros ([|d a] & b & H); [left; by exists b|]. injection H as -> ->. right. eauto.
Qed.

Lemma split_nonempty sep t : split sep t <> [].
Proof. destruct t as [|c t]; cbn; [done|]. repeat case_match; done. Qed.

Lemma unsplit_cons sep part parts :
  parts <> [] -> unsplit sep (part :: parts) = part ++ sep :: unsplit sep parts.
Proof. by destruct parts. Qed.

Lemma unsplit_head sep c part parts : unsplit sep ((c :: part) :: parts) = c :: unsplit sep (part :: parts).
Proof. by destruct parts. Qed.

(** Splitting loses nothing, and no part contains the separator. *)
Lemma unsplit_split sep t : unsplit sep (split sep t) = t.
Proof.
  induction t as [|c t IH]; [done|]. cbn [split]. destruct (Z.eqb_spec c sep) as [->|].
  - rewrite unsplit_cons by apply split_nonempty. by rewrite IH.
  - destruct (split sep t) as [|p ps] eqn:E; [by apply split_nonempty in E|]. by rewrite unsplit_head, IH.
Qed.

Lemma split_parts sep t part : part ∈ split sep t -> sep ∉ part.
Proof.
  revert part; induction t as [|c t IH]; intros part; cbn.
  - intros ->%list_elem_of_singleton. apply not_elem_of_nil.
  - destruct (Z.eqb_spec c sep) as [->|Hne].
    + intros [->|H]%elem_of_cons; [apply not_elem_of_nil|by apply IH].
    + destruct (split sep t) as [|p ps] eqn:E; [by apply split_nonempty in E|].
      intros [->|H]%elem_of_cons; [|apply IH; by apply list_elem_of_further].
      rewrite not_elem_of_cons. split; [done|]. apply IH, list_elem_of_here.
Qed.

Lemma split_app_sep sep part t : sep ∉ part -> split sep (part ++ sep :: t) = part :: split sep t.
Proof.
  induction part as [|c part IH]; cbn.
  - by rewrite Z.eqb_refl.
  - intros [Hc Hp]%not_elem_of_cons. destruct (Z.eqb_spec c sep); [congruence|]. by rewrite IH.
Qed.

Lemma split_single sep part : sep ∉ part -> split sep part = [part].
Proof.
  induction part as [|c part IH]; cbn; [done|].
  intros [Hc Hp]%not_elem_of_cons. destruct (Z.eqb_spec c sep); [congruence|]. by rewrite IH.
Qed.

Lemma split_unsplit sep parts :
  parts <> [] -> (forall part, part ∈ parts -> sep ∉ part) -> split sep (unsplit sep parts) = parts.
Proof.
  induction parts as [|p ps IH]; intros Hne Hp; [done|].
  destruct ps as [|q qs]; [apply split_single, Hp, list_elem_of_here|].
  rewrite unsplit_cons by done. rewrite split_app_sep by apply Hp, list_elem_of_here.
  rewrite IH; [done|done|]. intros r Hr. by apply Hp, list_elem_of_further.
Qed.

(** A unit of the whole is the separator or a unit of one part. *)
Lemma elem_of_unsplit sep parts c : c ∈ unsplit sep parts -> c = sep \/ exists part, part ∈ parts /\ c ∈ part.
Proof.
  induction parts as [|p ps IH]; [by intros ?%not_elem_of_nil|].
  destruct ps as [|q qs]; [intros H; right; exists p; split; [apply list_elem_of_here|exact H]|].
  rewrite unsplit_cons by done. intros [H|[->|H]%elem_of_cons]%elem_of_app.
  - right. exists p. split; [apply list_elem_of_here|done].
  - by left.
  - destruct (IH H) as [->|(part & Hp & Hc)]; [by left|]. right. exists part. split; [by apply list_elem_of_further|done].
Qed.

Lemma part_elem_unsplit sep parts part c : part ∈ parts -> c ∈ part -> c ∈ unsplit sep parts.
Proof.
  induction parts as [|p ps IH]; [by intros ?%not_elem_of_nil|].
  destruct ps as [|q qs]; [by intros ->%list_elem_of_singleton|].
  rewrite unsplit_cons by done. intros [->|H]%elem_of_cons Hc; apply elem_of_app; [by left|].
  right. apply list_elem_of_further. by apply IH.
Qed.

(** ** Where a separator or an infix falls *)

Lemma split_app sep a b : split sep (a ++ sep :: b) = split sep a ++ split sep b.
Proof.
  induction a as [|c a IH]; cbn.
  - by rewrite Z.eqb_refl.
  - destruct (c =? sep); [by rewrite IH|]. rewrite IH.
    destruct (split sep a) as [|p ps] eqn:E; [by apply split_nonempty in E|]. done.
Qed.

Lemma split_app_part sep m b :
  sep ∉ m -> exists p ps, split sep b = p :: ps /\ split sep (m ++ b) = (m ++ p) :: ps.
Proof.
  destruct (split sep b) as [|p ps] eqn:E; [by apply split_nonempty in E|].
  intros Hm. exists p, ps. split; [done|]. induction m as [|c m IH]; [done|].
  apply not_elem_of_cons in Hm as [Hc Hm]. change ((c :: m) ++ b) with (c :: m ++ b). cbn [split].
  destruct (Z.eqb_spec c sep); [congruence|]. by rewrite (IH Hm).
Qed.

(** An infix without separator lies inside one part. *)
Lemma split_infix sep a m b :
  sep ∉ m -> exists part x y, part ∈ split sep (a ++ m ++ b) /\ part = x ++ m ++ y.
Proof.
  intros Hm. induction a as [|c a (part & x & y & Hin & ->)].
  - destruct (split_app_part sep m b Hm) as (p & ps & _ & E). exists (m ++ p), [], p.
    split; [|done]. change (m ++ p ∈ split sep (m ++ b)). rewrite E. apply list_elem_of_here.
  - change ((c :: a) ++ m ++ b) with (c :: a ++ m ++ b). cbn [split].
    destruct (c =? sep); [exists (x ++ m ++ y), x, y; split; [by apply list_elem_of_further|done]|].
    destruct (split sep (a ++ m ++ b)) as [|p ps]; [by apply not_elem_of_nil in Hin|].
    apply elem_of_cons in Hin as [<-|Hin].
    + exists (c :: x ++ m ++ y), (c :: x), y. split; [apply list_elem_of_here|done].
    + exists (x ++ m ++ y), x, y. split; [by apply list_elem_of_further|done].
Qed.

Lemma split_snoc sep r c : c <> sep -> exists ps p, split sep (r ++ [c]) = ps ++ [p ++ [c]].
Proof.
  intros Hc. induction r as [|d r (ps & p & IH)]; cbn.
  - destruct (Z.eqb_spec c sep); [congruence|]. by exists [], [].
  - destruct (d =? sep); rewrite IH; [by exists ([] :: ps), p|].
    destruct ps as [|q qs]; cbn; [by exists [], (d :: p)|by exists ((d :: q) :: qs), p].
Qed.

Lemma part_infix sep parts part : part ∈ parts -> exists a b, unsplit sep parts = a ++ part ++ b.
Proof.
  induction parts as [|p ps IH]; [by intros ?%not_elem_of_nil|].
  destruct ps as [|q qs]; [intros ->%list_elem_of_singleton; exists [], []; by rewrite app_nil_r|].
  rewrite unsplit_cons by done. intros [->|H]%elem_of_cons; [by exists [], (sep :: unsplit sep (q :: qs))|].
  destruct (IH H) as (a & b & ->). exists (p ++ sep :: a), b. by rewrite <-app_assoc.
Qed.

(** * Texts of single-byte units as strings *)

Definition char_of (c : Z) : Ascii.ascii := Ascii.ascii_of_N (Z.to_N c).
Definition string_of_text (t : text) : string := fold_right (fun c s => String (char_of c) s) EmptyString t.

Lemma string_of_text_of_string s : string_of_text (text_of_string s) = s.
Proof.
  induction s as [|c s IH]; [done|]. unfold string_of_text in *. cbn [text_of_string fold_right]. rewrite IH. f_equal.
  unfold char_of. by rewrite N2Z.id, Ascii.ascii_N_embedding.
Qed.

Definition digit_of (c : Ascii.ascii) : option Z :=
  let n := Z.of_N (Ascii.N_of_ascii c) in
  if (48 <=? n) && (n <=? 57) then Some (n - 48) else None.

(** Exactly [n] decimal digits. *)
Fixpoint read_digits (n : nat) (acc : Z) (s : string) : option (Z * string) :=
  match n with
  | O => Some (acc, s)
  | S n' =>
      match s with
      | String c s' => d ← digit_of c; read_digits n' (10 * acc + d) s'
      | EmptyString => None
      end
  end.

(** One literal character. *)
Definition read_char (c : Ascii.ascii) (s : string) : option string :=
  match s with
  | String c' s' => if Ascii.eqb c c' then Some s' else None
  | EmptyString => None
  end.

Fixpoint skip_digits (s : string) : string :=
  match s with
  | String c s' => match digit_of c with Some _ => skip_digits s' | None => s end
  | EmptyString => EmptyString
  end.

(** The fraction of a second: at least one digit, the first three count. *)
Definition read_fraction (s : string) : option (Z * string) :=
  match read_digits 3 0 s with
  | Some (ms, s') => Some (ms, skip_digits s')
  | None =>
      match read_digits 2 0 s with
      | Some (cs, s') => Some (10 * cs, s')
      | None => '(ds, s') ← read_digits 1 0 s; Some (100 * ds, s')
      end
  end.

Definition read_seconds (s : string) : option (Z * Z * string) :=
  match read_char ":"%char s with
  | None => Some (0, 0, s)
  | Some s1 =>
      '(ss, s2) ← read_digits 2 0 s1;
      match read_char "."%char s2 with
      | None => Some (ss, 0, s2)
      | Some s3 => '(ms, s4) ← read_fraction s3; Some (ss, ms, s4)
      end
  end.

(** Offset from UTC in minutes; nothing may follow it. *)
Definition read_offset (s : string) : option Z :=
  match s with
  | "Z"%string => Some 0
  | String sign s1 =>
      sg ← (if Ascii.eqb sign "+"%char then Some 1 else if Ascii.eqb sign "-"%char then Some (-1) else None);
      '(hh, s2) ← read_digits 2 0 s1;
      s3 ← read_char ":"%char s2;
      '(mm, s4) ← read_digits 2 0 s3;
      if (hh <=? 23) && (mm <=? 59) && bool_decide (s4 = EmptyString)
      then Some (sg * (60 * hh + mm)) else None
  | EmptyString => None
  end.

Definition leap_year (y : Z) : bool :=
  (y mod 4 =? 0) && (negb (y mod 100 =? 0) || (y mod 400 =? 0)).

Definition days_in_month (y m : Z) : Z :=
  if m =? 2 then (if leap_year y then 29 else 28)
  else if (m =? 4) || (m =? 6) || (m =? 9) || (m =? 11) then 30 else 31.

(** Days since 1970-01-01 in the proleptic Gregorian calendar. *)
Definition days_from_civil (y m d : Z) : Z :=
  let y' := if m <=? 2 then y - 1 else y in
  let era := y' / 400 in
  let yoe := y' mod 400 in
  let mp := if m <=? 2 then m + 9 else m - 3 in
  let doy := (153 * mp + 2) / 5 + d - 1 in
  let doe := yoe * 365 + yoe / 4 - yoe / 100 + doy in
  era * 146097 + doe - 719468.

Definition civil_from_days (z0 : Z) : Z * Z * Z :=
  let z := z0 + 719468 in
  let era := z / 146097 in
  let doe := z mod 146097 in
  let yoe := (doe - doe / 1460 + doe / 36524 - doe / 146096) / 365 in
  let doy := doe - (365 * yoe + yoe / 4 - yoe / 100) in
  let mp := (5 * doy + 2) / 153 in
  let d := doy - (153 * mp + 2) / 5 + 1 in
  let m := if mp <? 10 then mp + 3 else mp - 9 in
  let y := yoe + era * 400 + (if m <=? 2 then 1 else 0) in
  (y, m, d).

(** [YYYY], or the expanded [+YYYYYY] / [-YYYYYY] of ECMAScript. *)
Definition read_year (s : string) : option (Z * string) :=
  match s with
  | String "+"%char s' => read_digits 6 0 s'
  | String "-"%char s' => '(y, r) ← read_digits 6 0 s'; if y =? 0 then None else Some (- y, r)
  | _ => read_digits 4 0 s
  end.

Definition Date_parse (s : string) : option Z :=
  '(y, s1) ← read_year s; s2 ← read_char "-"%char s1;
  '(mo, s3) ← read_digits 2 0 s2; s4 ← read_char "-"%char s3;
  '(d, s5) ← read_digits 2 0 s4; s6 ← read_char "T"%char s5;
  '(hh, s7) ← read_digits 2 0 s6; s8 ← read_char ":"%char s7;
  '(mm, s9) ← read_digits 2 0 s8;
  '(ss, ms, s10) ← read_seconds s9;
  off ← read_offset s10;
  if (1 <=? mo) && (mo <=? 12) && (1 <=? d) && (d <=? days_in_month y mo)
     && (hh <=? 23) && (mm <=? 59) && (ss <=? 59)
  then Some (86400000 * days_from_civil y mo d + 3600000 * hh + 60000 * mm + 1000 * ss + ms - 60000 * off)
  else None.

(** Comparisons of two [Date.parse] results: false as soon as one is NaN. *)
#[global] Arguments Date_parse : simpl never.

Definition time_le (a b : option Z) : bool :=
  match a, b with Some x, Some y => x <=? y | _, _ => false end.
Definition time_lt (a b : option Z) : bool :=
  match a, b with Some x, Some y => x <? y | _, _ => false end.

Definition digit_char (d : Z) : Ascii.ascii := Ascii.ascii_of_N (Z.to_N (48 + d)).

(** Decimal digits of [n], padded with zeros to [w] places. *)
Fixpoint pad_digits (w : nat) (n : Z) (acc : string) : string :=
  match w with
  | O => acc
  | S w' => pad_digits w' (n / 10) (String (digit_char (n mod 10)) acc)
  end.

Definition toISOString (t : Z) : string :=
  let days := t / 86400000 in
  let ms := t mod 86400000 in
  let '(y, m, d) := civil_from_days days in
  let year :=
    if (0 <=? y) && (y <=? 9999) then pad_digits 4 y ""
    else (if 0 <=? y then "+" else "-") +:+ pad_digits 6 (Z.abs y) "" in
  year +:+ "-" +:+ pad_digits 2 m "" +:+ "-" +:+ pad_digits 2 d "" +:+ "T" +:+
  pad_digits 2 (ms / 3600000) "" +:+ ":" +:+ pad_digits 2 (ms / 60000 mod 60) "" +:+ ":" +:+
  pad_digits 2 (ms / 1000 mod 60) "" +:+ "." +:+ pad_digits 3 (ms mod 1000) "" +:+ "Z".

Example Date_parse_epoch : Date_parse "1970-01-01T00:00:00.000Z" = Some 0.
Proof. reflexivity. Qed.

Example Date_parse_offset :
  Date_parse "2026-02-28T23:59:59.5+05:30" = Some 1772303399500.
Proof. reflexivity. Qed.

Example Date_parse_nan : Date_parse "2025-02-29T00:00:00Z" = None.
Proof. reflexivity. Qed.

Example toISOString_roundtrip :
  toISOString 1772303399500 = "2026-02-28T18:29:59.500Z".
Proof. vm_compute. reflexivity. Qed.

Lemma time_lt_le a b : time_lt a b = true -> time_le a b = true.
Proof. destruct a, b; cbn; try done. lia. Qed.

(** Where both instants are known, [a <= b] and [b < a] exclude each other. *)
Lemma time_lt_not_le a b : time_lt a b = true -> time_le b a = false.
Proof. destruct a, b; cbn; try done. lia. Qed.

Lemma time_le_false a b x y :
  a = Some x -> b = Some y -> time_le a b = false -> time_lt b a = true.
Proof. intros -> ->; cbn; lia. Qed.
