(* ===== verification/Json.v ===== *)
(** Json: the deterministic JSON of src/control/events.ts ([canonicalJson]) on
    which every digest of the control plane is computed. *)
From S2P Require Import Prelude.

Set Warnings "-register-all".

(** A JavaScript value as [canonicalJson] sees it. [JNumber None] is a number
    that is not an integer (NaN and the infinities included); a field that is
    absent or explicitly undefined is [JUndefined]. *)
Inductive json : Type :=
| JNull
| JUndefined
| JBoolean (b : bool)
| JNumber (n : option Z)
| JString (t : text)
| JArray (l : list json)
| JObject (kvs : list (text * json)).

Inductive CanonicalJsonError := NotSafeInteger | UnsupportedValue.

Definition is_undefined (v : json) : bool := match v with JUndefined => true | _ => false end.

Definition chr (c : Ascii.ascii) : Z := Z.of_N (Ascii.N_of_ascii c).

(** ** [JSON.stringify] of a string (well-formed variant, ES2019) *)

Definition hex_digit (d : Z) : Z := if d <? 10 then 48 + d else 87 + d.

Definition unicode_escape (c : Z) : text :=
  [92; 117; hex_digit (c / 4096 mod 16); hex_digit (c / 256 mod 16);
   hex_digit (c / 16 mod 16); hex_digit (c mod 16)].

Definition is_high (c : Z) : bool := (55296 <=? c) && (c <=? 56319).
Definition is_low (c : Z) : bool := (56320 <=? c) && (c <=? 57343).

Definition escape_unit (c : Z) : text :=
  if c =? 34 then [92; 34]
  else if c =? 92 then [92; 92]
  else if c =? 8 then [92; 98]
  else if c =? 9 then [92; 116]
  else if c =? 10 then [92; 110]
  else if c =? 12 then [92; 102]
  else if c =? 13 then [92; 114]
  else if (0 <=? c) && (c <? 32) then unicode_escape c
  else [c].

(** A surrogate pair is copied, a lone surrogate is escaped; [paired] says that
    the previous unit was a high surrogate already copied as half of a pair. *)
Fixpoint escape_units (paired : bool) (t : text) : text :=
  match t with
  | [] => []
  | c :: t' =>
      if paired then c :: escape_units false t'
      else if is_high c then
        match t' with
        | d :: _ => if is_low d then c :: escape_units true t' else unicode_escape c ++ escape_units false t'
        | [] => unicode_escape c
        end
      else if is_low c then unicode_escape c ++ escape_units false t'
      else escape_unit c ++ escape_units false t'
  end.

Definition json_quote (t : text) : text := [34] ++ escape_units false t ++ [34].

(** Default [Array.prototype.sort] order on strings: by UTF-16 code units. *)
Fixpoint text_compare (a b : text) : Z :=
  match a, b with
  | [], [] => 0
  | [], _ :: _ => -1
  | _ :: _, [] => 1
  | x :: a', y :: b' => if x =? y then text_compare a' b' else x - y
  end.

Definition utf16_compare (a b : string) : Z := text_compare (text_of_string a) (text_of_string b).

Fixpoint join (sep : text) (l : list text) : text :=
  match l with
  | [] => []
  | [t] => t
  | t :: l' => t ++ sep ++ join sep l'
  end.

Definition entry_compare {V} (a b : text * V) : Z := text_compare a.1 b.1.

(** The entries of an object that are not undefined, in key order. *)
Definition sorted_entries {V} (undefined : V -> bool) (kvs : list (text * V)) : list (text * V) :=
  js_sort entry_compare (List.filter (fun kv => negb (undefined kv.2)) kvs).

(** [canonicalJson(value)]. The recursive calls are made on every entry; the
    entries are then filtered, sorted and concatenated, so the first error in
    key order is the one raised. *)
Fixpoint canonicalJson (v : json) : result CanonicalJsonError text :=
  match v with
  | JNull => Ok (text_of_string "null")
  | JUndefined => Err UnsupportedValue
  | JBoolean b => Ok (text_of_string (if b then "true" else "false"))
  | JNumber (Some n) =>
      if isSafeInteger n then Ok (text_of_string (num_to_string n)) else Err NotSafeInteger
  | JNumber None => Err NotSafeInteger
  | JString t => Ok (json_quote t)
  | JArray l => items ← map_result id (List.map canonicalJson l); Ok ([91] ++ join [44] items ++ [93])
  | JObject kvs =>
      let rendered := List.map (fun kv => (kv.1, (is_undefined kv.2, canonicalJson kv.2))) kvs in
      entries ← map_result (fun e => t ← e.2.2; Ok (json_quote e.1 ++ [58] ++ t))
                  (sorted_entries fst rendered);
      Ok ([123] ++ join [44] entries ++ [125])
  end.

Example canonicalJson_ex :
  canonicalJson (JObject [(text_of_string "b", JArray [JNumber (Some 1); JNull]);
                          (text_of_string "c", JUndefined);
                          (text_of_string "a", JString [34; 10; 55357; 56832; 56832; 97])])
  = Ok (text_of_string "{" ++ json_quote (text_of_string "a") ++ text_of_string ":"
        ++ [34; 92; 34; 92; 110; 55357; 56832; 92; 117; 100; 101; 48; 48; 97; 34]
        ++ text_of_string "," ++ json_quote (text_of_string "b") ++ text_of_string ":[1,null]}").
Proof. vm_compute. reflexivity. Qed.

(** ** What a printed value determines *)

(** The value up to the order and the undefined fields [canonicalJson] ignores. *)
Fixpoint canonical (v : json) : json :=
  match v with
  | JArray l => JArray (List.map canonical l)
  | JObject kvs =>
      JObject (sorted_entries is_undefined (List.map (fun kv => (kv.1, canonical kv.2)) kvs))
  | _ => v
  end.

Fixpoint render (v : json) : text :=
  match v with
  | JNull => text_of_string "null"
  | JUndefined | JNumber None => []
  | JBoolean b => text_of_string (if b then "true" else "false")
  | JNumber (Some n) => text_of_string (num_to_string n)
  | JString t => json_quote t
  | JArray l => [91] ++ join [44] (List.map render l) ++ [93]
  | JObject kvs => [123] ++ join [44] (List.map (fun kv => json_quote kv.1 ++ [58] ++ render kv.2) kvs) ++ [125]
  end.

Inductive printable : json -> Prop :=
| p_null : printable JNull
| p_boolean b : printable (JBoolean b)
| p_number n : printable (JNumber (Some n))
| p_string t : printable (JString t)
| p_array l : Forall printable l -> printable (JArray l)
| p_object kvs : Forall (fun kv => printable kv.2) kvs -> printable (JObject kvs).

Section json_induction.
Variable P : json -> Prop.
Hypothesis Pnull : P JNull.
Hypothesis Pundefined : P JUndefined.
Hypothesis Pboolean : forall b, P (JBoolean b).
Hypothesis Pnumber : forall n, P (JNumber n).
Hypothesis Pstring : forall t, P (JString t).
Hypothesis Parray : forall l, Forall P l -> P (JArray l).
Hypothesis Pobject : forall kvs, Forall (fun kv : text * json => P kv.2) kvs -> P (JObject kvs).

Fixpoint json_nested_ind (v : json) : P v :=
  match v with
  | JNull => Pnull
  | JUndefined => Pundefined
  | JBoolean b => Pboolean b
  | JNumber n => Pnumber n
  | JString t => Pstring t
  | JArray l =>
      Parray l ((fix go l := match l return Forall P l with
                             | [] => Forall_nil_2 P
                             | v :: l' => Forall_cons_2 P v l' (json_nested_ind v) (go l')
                             end) l)
  | JObject kvs =>
      Pobject kvs ((fix go l := match l return Forall (fun kv : text * json => P kv.2) l with
                                | [] => Forall_nil_2 _
                                | kv :: l' => Forall_cons_2 _ kv l' (json_nested_ind kv.2) (go l')
                                end) kvs)
  end.
End json_induction.

(** Mapping the values of an object commutes with filtering and sorting it. *)
Lemma sort_insert_map {V W} (f : V -> W) (x : text * V) l :
  sort_insert entry_compare (x.1, f x.2) (List.map (fun kv => (kv.1, f kv.2)) l)
  = List.map (fun kv => (kv.1, f kv.2)) (sort_insert entry_compare x l).
Proof.
  induction l as [|y l IH]; cbn; [done|].
  unfold entry_compare; cbn. destruct (text_compare x.1 y.1 <=? 0); cbn; [done|].
  f_equal. exact IH.
Qed.

Lemma sorted_entries_map {V W} (u : V -> bool) (u' : W -> bool) (f : V -> W) kvs :
  (forall v, u' (f v) = u v) ->
  sorted_entries u' (List.map (fun kv => (kv.1, f kv.2)) kvs)
  = List.map (fun kv => (kv.1, f kv.2)) (sorted_entries u kvs).
Proof.
  intros Hu. unfold sorted_entries.
  induction kvs as [|kv kvs IH]; cbn; [done|]. rewrite Hu.
  destruct (u kv.2); cbn; [done|]. by rewrite IH, sort_insert_map.
Qed.

Lemma elem_of_sorted_entries {V} (u : V -> bool) kvs kv :
  kv ∈ sorted_entries u kvs <-> kv ∈ kvs /\ u kv.2 = false.
Proof.
  unfold sorted_entries. rewrite elem_of_js_sort, !list_elem_of_In, filter_In.
  by rewrite negb_true_iff.
Qed.

Lemma is_undefined_canonical v : is_undefined (canonical v) = is_undefined v.
Proof. by destruct v. Qed.

Lemma canonical_object kvs :
  canonical (JObject kvs)
  = JObject (List.map (fun kv => (kv.1, canonical kv.2)) (sorted_entries is_undefined kvs)).
Proof. cbn. f_equal. apply sorted_entries_map, is_undefined_canonical. Qed.

(** [canonicalJson] prints the canonical value, and only succeeds on values
    JSON can represent. *)
Lemma canonicalJson_render v t :
  canonicalJson v = Ok t -> t = render (canonical v) /\ printable (canonical v).
Proof.
  revert t; induction v as [| |b|[n|]|s|l IH|kvs IH] using json_nested_ind; intros t H.
  - cbn in *; simplify_eq; split; [done|constructor].
  - done.
  - cbn in *; simplify_eq; split; [done|constructor].
  - cbn in *; case_match; simplify_eq; split; [done|constructor].
  - done.
  - cbn in *; simplify_eq; split; [done|constructor].
  - cbn in H. apply bind_Ok in H as (ts & Hts & [= <-]).
    apply map_result_Ok in Hts. rewrite Forall2_fmap_l in Hts.
    assert (ts = List.map render (List.map canonical l) /\ Forall printable (List.map canonical l)) as [-> Hp].
    { clear -IH Hts. induction Hts as [|v t l ts Hv Hts IH']; cbn; [done|].
      apply Forall_cons in IH as [Hv' IH]. destruct (Hv' t Hv) as [-> ?].
      destruct (IH' IH) as [-> ?]. split; [done|by constructor]. }
    split; [done|by constructor].
  - rewrite canonical_object. cbn in H. apply bind_Ok in H as (ts & Hts & [= <-]).
    apply map_result_Ok in Hts.
    rewrite (sorted_entries_map is_undefined fst (fun v => (is_undefined v, canonicalJson v))) in Hts by done.
    rewrite Forall2_fmap_l in Hts.
    assert (Forall (fun kv : text * json => forall t, canonicalJson kv.2 = Ok t ->
      t = render (canonical kv.2) /\ printable (canonical kv.2)) (sorted_entries is_undefined kvs)) as IH'.
    { rewrite Forall_forall in IH |- *. intros kv [Hkv _]%elem_of_sorted_entries. by apply IH. }
    clear IH. revert ts Hts IH'. generalize (sorted_entries is_undefined kvs). intros es ts Hts IH.
    assert (ts = List.map (fun kv => json_quote kv.1 ++ [58] ++ render kv.2) (List.map (fun kv => (kv.1, canonical kv.2)) es)
      /\ Forall (fun kv => printable kv.2) (List.map (fun kv => (kv.1, canonical kv.2)) es)) as [-> Hp].
    { induction Hts as [|kv t es ts Hkv Hts IH']; cbn; [done|].
      apply Forall_cons in IH as [Hkv' IH]. apply bind_Ok in Hkv as (t' & Ht' & [= <-]).
      destruct (Hkv' t' Ht') as [-> ?]. destruct (IH' IH) as [-> ?].
      split; [done|by constructor]. }
    split; [done|by constructor].
Qed.

(** *** Strings: reading back the escapes *)

Definition unhex (d : Z) : Z := if d <=? 57 then d - 48 else d - 87.

Definition unescape (e : Z) : Z :=
  if e =? 98 then 8 else if e =? 116 then 9 else if e =? 110 then 10
  else if e =? 102 then 12 else if e =? 114 then 13 else e.

(** Read up to the closing quote. *)
Fixpoint unquote (l : text) : option (text * text) :=
  match l with
  | [] => None
  | c :: l1 =>
      if c =? 34 then Some ([], l1)
      else if c =? 92 then
        match l1 with
        | [] => None
        | e :: l2 =>
            if e =? 117 then
              match l2 with
              | h3 :: h2 :: h1 :: h0 :: l3 =>
                  '(t, r) ← unquote l3;
                  Some (4096 * unhex h3 + 256 * unhex h2 + 16 * unhex h1 + unhex h0 :: t, r)
              | _ => None
              end
            else '(t, r) ← unquote l2; Some (unescape e :: t, r)
        end
      else '(t, r) ← unquote l1; Some (c :: t, r)
  end.

Lemma unhex_hex d : 0 <= d < 16 -> unhex (hex_digit d) = d.
Proof. unfold unhex, hex_digit. intros. destruct (d <? 10) eqn:E; case_match; lia. Qed.

Lemma unquote_unicode_escape c l t r :
  0 <= c < 65536 -> unquote l = Some (t, r) ->
  unquote (unicode_escape c ++ l) = Some (c :: t, r).
Proof.
  intros Hc Hl. cbn -[hex_digit unhex Z.div Z.modulo]. rewrite Hl. cbn -[hex_digit unhex Z.div Z.modulo].
  rewrite !unhex_hex by (apply Z.mod_pos_bound; lia). do 3 f_equal.
  Z.div_mod_to_equations. lia.
Qed.

Lemma unquote_raw c l t r :
  c <> 34 -> c <> 92 -> unquote l = Some (t, r) -> unquote (c :: l) = Some (c :: t, r).
Proof. intros ?%Z.eqb_neq ?%Z.eqb_neq Hl. cbn. by rewrite H, H0, Hl. Qed.

Lemma unquote_escape_unit c l t r :
  unquote l = Some (t, r) -> unquote (escape_unit c ++ l) = Some (c :: t, r).
Proof.
  intros Hl. unfold escape_unit.
  repeat case_match; guards; try (cbn; by rewrite Hl).
  - apply unquote_unicode_escape; [lia|done].
  - by apply unquote_raw.
Qed.

Lemma unquote_escape_units t p r :
  (p = true -> exists d t', t = d :: t' /\ is_low d = true) ->
  unquote (escape_units p t ++ 34 :: r) = Some (t, r).
Proof.
  revert p; induction t as [|c t IH]; intros p Hp; [done|].
  cbn [escape_units]. unfold is_high, is_low in *. destruct p.
  - destruct (Hp eq_refl) as (d & t' & [= <- <-] & Hd). guards.
    apply unquote_raw; [lia..|]. by apply IH.
  - clear Hp. destruct ((55296 <=? c) && (c <=? 56319)) eqn:Hhi; guards.
    + destruct t as [|d t].
      * apply (unquote_unicode_escape c (34 :: r)); [lia|done].
      * destruct ((56320 <=? d) && (d <=? 57343)) eqn:Hlo.
        -- apply unquote_raw; [lia..|]. apply IH. eauto.
        -- rewrite <-app_assoc. apply unquote_unicode_escape; [lia|]. by apply IH.
    + case_match; rewrite <-app_assoc; guards.
      * apply unquote_unicode_escape; [lia|]. by apply IH.
      * apply unquote_escape_unit. by apply IH.
Qed.

Lemma json_quote_inj t t' r r' :
  json_quote t ++ r = json_quote t' ++ r' -> t = t' /\ r = r'.
Proof.
  unfold json_quote. rewrite <-!app_assoc. cbn. intros [= H].
  assert (Some (t, r) = Some (t', r')) as [= -> ->]; [|done].
  rewrite <-(unquote_escape_units t false r), <-(unquote_escape_units t' false r') by done.
  by rewrite H.
Qed.

(** *** Numbers: a maximal run of digits *)

Definition is_digit (c : Z) : Prop := 48 <= c <= 57.
Definition number_unit (c : Z) : Prop := is_digit c \/ c = 45.
Definition stops (r : text) : Prop := match r with c :: _ => ~ number_unit c | [] => True end.

Lemma maximal_run (P : Z -> Prop) u v r s :
  Forall P u -> Forall P v ->
  (forall c r', r = c :: r' -> ~ P c) -> (forall c s', s = c :: s' -> ~ P c) ->
  u ++ r = v ++ s -> u = v /\ r = s.
Proof.
  intros Hu; revert v; induction Hu as [|c u Hc Hu IH]; intros v Hv Hr Hs.
  - destruct Hv as [|d v Hd Hv]; cbn; intros ->; [done|]. by destruct (Hr d (v ++ s)).
  - destruct Hv as [|d v Hd Hv]; cbn.
    + intros <-. by destruct (Hs c (u ++ r)).
    + intros [= -> H]. by destruct (IH v Hv Hr Hs H) as [-> ->].
Qed.

Lemma pretty_N_char_digit n : is_digit (chr (pretty_N_char n)).
Proof. unfold pretty_N_char, is_digit. repeat case_match; vm_compute; split; discriminate. Qed.

Lemma pretty_N_go_digits n s :
  Forall number_unit (text_of_string s) -> Forall number_unit (text_of_string (pretty_N_go n s)).
Proof.
  revert s; induction (N.lt_wf_0 n) as [n _ IH]; intros s Hs.
  destruct (decide (n = 0)%N) as [->|Hn]; [done|].
  rewrite pretty_N_go_step by lia. apply IH; [apply N.div_lt; lia|].
  constructor; [left; apply pretty_N_char_digit|done].
Qed.

Lemma num_to_string_units n : Forall number_unit (text_of_string (num_to_string n)).
Proof.
  assert (forall m : N, Forall number_unit (text_of_string (pretty m))) as HN.
  { intros m. unfold pretty, pretty_N. case_decide.
    - repeat constructor; vm_compute; discriminate.
    - apply pretty_N_go_digits. constructor. }
  unfold num_to_string, pretty, pretty_Z. destruct n; [repeat constructor; vm_compute; discriminate|apply HN|].
  constructor; [by right|apply HN].
Qed.

Lemma pretty_N_go_nonempty m s : s <> EmptyString -> pretty_N_go m s <> EmptyString.
Proof.
  revert s; induction (N.lt_wf_0 m) as [m _ IH]; intros s Hs.
  destruct (decide (m = 0)%N) as [->|Hm]; [done|].
  rewrite pretty_N_go_step by lia. apply IH; [apply N.div_lt; lia|done].
Qed.

Lemma num_to_string_nonempty n : num_to_string n <> EmptyString.
Proof.
  assert (forall m : N, pretty m <> EmptyString) as HN.
  { intros m. unfold pretty, pretty_N. case_decide as Hm; [done|].
    rewrite pretty_N_go_step by lia. by apply pretty_N_go_nonempty. }
  destruct n; [done|apply HN|done].
Qed.

(** The first unit of a number is a digit or a minus sign. *)
Lemma num_to_string_head n : exists c t, text_of_string (num_to_string n) = c :: t /\ number_unit c.
Proof.
  pose proof (num_to_string_units n) as H.
  pose proof (num_to_string_nonempty n) as Hne.
  destruct (num_to_string n) as [|c s]; [done|]. eexists _, _. split; [done|]. by inversion H.
Qed.

(** *** Values *)

Lemma join_cons sep t l : join sep (t :: l) = t ++ concat (List.map (app sep) l).
Proof.
  revert t; induction l as [|u l IH]; intros t; [by rewrite app_nil_r|].
  change (join sep (t :: u :: l)) with (t ++ sep ++ join sep (u :: l)).
  rewrite IH. cbn. by rewrite <-app_assoc.
Qed.

Section separated.
Context {A : Type} (pr : A -> text) (close : Z).
Hypothesis Hclose : close <> 44 /\ ~ number_unit close.

(** Printed elements are told apart when something that is not a digit follows. *)
Definition told_apart (x y : A) : Prop :=
  forall r s, stops r -> stops s -> pr x ++ r = pr y ++ s -> x = y /\ r = s.
Definition not_closing (x : A) : Prop := forall u v, pr x ++ u <> close :: v.

Lemma stops_close r : stops (close :: r).
Proof using Hclose. apply Hclose. Qed.

Lemma stops_comma r : stops (44 :: r).
Proof using. cbn. unfold number_unit, is_digit. lia. Qed.

Lemma rest_inj l l' r s :
  (forall x y, x ∈ l -> y ∈ l' -> told_apart x y) ->
  concat (List.map (app [44]) (List.map pr l)) ++ close :: r
  = concat (List.map (app [44]) (List.map pr l')) ++ close :: s ->
  l = l' /\ r = s.
Proof using Hclose.
  revert l'; induction l as [|x l IH]; intros [|y l'] Happ; cbn; rewrite <-?app_assoc.
  - by intros [= ->].
  - intros [= ? _]. by destruct Hclose.
  - intros [= ? _]. by destruct Hclose.
  - assert (forall l, stops (concat (List.map (app [44]) (List.map pr l)) ++ close :: r) /\
      stops (concat (List.map (app [44]) (List.map pr l)) ++ close :: s)) as Hs.
    { intros [|? ?]; split; first [apply stops_comma|apply stops_close]. }
    intros [= H]. apply Happ in H as [-> H]; [|apply list_elem_of_here..|apply Hs|apply Hs].
    apply IH in H as [-> ->]; [done|]. intros; apply Happ; by apply list_elem_of_further.
Qed.

Lemma join_inj l l' r s :
  (forall x y, x ∈ l -> y ∈ l' -> told_apart x y) ->
  (forall x, x ∈ l -> not_closing x) -> (forall y, y ∈ l' -> not_closing y) ->
  join [44] (List.map pr l) ++ close :: r = join [44] (List.map pr l') ++ close :: s ->
  l = l' /\ r = s.
Proof using Hclose.
  intros Happ Hl Hl'. destruct l as [|x l], l' as [|y l']; cbn [List.map];
    rewrite ?join_cons, <-?app_assoc; cbn [join app].
  - by intros [= ->].
  - intros H; symmetry in H. by apply Hl' in H; [|apply list_elem_of_here].
  - intros H. by apply Hl in H; [|apply list_elem_of_here].
  - intros H. apply Happ in H as [-> H]; [|apply list_elem_of_here..| |].
    + apply rest_inj in H as [-> ->]; [done|]. intros; apply Happ; by apply list_elem_of_further.
    + destruct l; first [apply stops_comma|apply stops_close].
    + destruct l'; first [apply stops_comma|apply stops_close].
Qed.
End separated.

(** What the first unit of a printed value can be. *)
Lemma render_head v :
  printable v -> exists c t, render v = c :: t /\ c <> 93 /\ c <> 125.
Proof.
  destruct 1 as [|[]|n|t|l|kvs]; cbn [render];
    try (eexists _, _; split; [reflexivity|split; vm_compute; discriminate]).
  destruct (num_to_string_head n) as (c & t & -> & Hc). eexists _, _. split; [reflexivity|].
  unfold number_unit, is_digit in Hc. lia.
Qed.

Ltac head_clash :=
  repeat match goal with
  | |- context [num_to_string ?n] =>
      let c := fresh "c" in let t := fresh "t" in let Hc := fresh "Hc" in
      destruct (num_to_string_head n) as (c & t & -> & Hc)
  | b : bool |- _ => destruct b
  end;
  cbn; first [discriminate | intros [= -> _]; match goal with Hc : number_unit _ |- _ => unfold number_unit, is_digit in Hc; lia end
             | intros [= <- _]; match goal with Hc : number_unit _ |- _ => unfold number_unit, is_digit in Hc; lia end].

Lemma render_inj v w :
  printable v -> printable w -> told_apart render v w.
Proof.
  intros Hv; revert w; induction v as [| |b|[n|]|t|l IH|kvs IH] using json_nested_ind;
    inversion Hv; subst; intros w Hw r s Hr Hs; destruct Hw as [|b'|m|t'|l' Hl'|kvs' Hkvs']; cbn [render];
    try head_clash.
  - intros H%app_inv_head. done.
  - destruct b, b'; try head_clash; by intros H%app_inv_head.
  - intros H. apply (maximal_run number_unit) in H as [H%text_of_string_inj%num_to_string_inj ->];
      [by subst|apply num_to_string_units..| |].
    + intros c r' ->. exact Hr.
    + intros c s' ->. exact Hs.
  - intros H%json_quote_inj. by destruct H as [-> ->].
  - rewrite <-!app_assoc. cbn. intros [= H].
    apply (join_inj render 93) in H as [-> ->]; [done|unfold number_unit, is_digit; lia| | |].
    + intros x y Hx Hy. rewrite Forall_forall in IH, H0, Hl'. apply IH; auto.
    + intros x Hx u v. rewrite Forall_forall in H0. destruct (render_head x) as (c & t & -> & ?); [auto|].
      cbn. intros [= -> _]. lia.
    + intros x Hx u v. rewrite Forall_forall in Hl'. destruct (render_head x) as (c & t & -> & ?); [auto|].
      cbn. intros [= -> _]. lia.
  - rewrite <-!app_assoc. cbn. intros [= H].
    apply (join_inj (fun kv => json_quote kv.1 ++ [58] ++ render kv.2) 125) in H as [-> ->];
      [done|unfold number_unit, is_digit; lia| | |].
    + intros [k x] [k' y] Hx Hy u v Hu Hv'. cbn [fst snd]. rewrite <-!app_assoc.
      intros H'. apply (json_quote_inj k k' (58 :: render x ++ u) (58 :: render y ++ v)) in H' as [-> [= H']].
      rewrite Forall_forall in IH, H0, Hkvs'.
      destruct (IH _ Hx (H0 _ Hx) _ (Hkvs' _ Hy) u v Hu Hv' H') as [Hxy ->]. cbn in Hxy. by subst.
    + intros x Hx u v. cbn. discriminate.
    + intros x Hx u v. cbn. discriminate.
Qed.

(** *** The two facts the digests rest on *)

(** Two values with the same canonical text are equal up to key order and
    undefined fields. *)
Lemma canonicalJson_inj v w t :
  canonicalJson v = Ok t -> canonicalJson w = Ok t -> canonical v = canonical w.
Proof.
  intros [-> Hv]%canonicalJson_render [H Hw]%canonicalJson_render.
  apply (render_inj _ _ Hv Hw [] []); [done..|]. by rewrite !app_nil_r.
Qed.

#[export] Instance text_compare_comparator : Comparator text_compare.
Proof.
  split.
  - intros x; induction x as [|c x IH]; intros [|d y]; cbn; try lia.
    rewrite (Z.eqb_sym d c). destruct (Z.eqb_spec c d); [apply IH|lia].
  - intros x; induction x as [|c x IH]; intros [|d y] [|e z]; cbn; try lia.
    destruct (Z.eqb_spec c d), (Z.eqb_spec d e), (Z.eqb_spec c e); subst; try lia. apply IH.
Qed.

Lemma text_compare_eq a b : text_compare a b = 0 -> a = b.
Proof.
  revert b; induction a as [|c a IH]; intros [|d b]; cbn; try done.
  destruct (Z.eqb_spec c d); [intros ?%IH; congruence|lia].
Qed.

#[export] Instance entry_compare_comparator {V} : Comparator (@entry_compare V).
Proof.
  split; unfold entry_compare; intros *.
  - apply (cmp_total (cmp := text_compare)).
  - apply (cmp_trans (cmp := text_compare)).
Qed.

(** Sorting entries with distinct keys forgets the order they came in. *)
Lemma sorted_entries_Permutation {V} (u : V -> bool) kvs kvs' :
  NoDup kvs.*1 -> kvs ≡ₚ kvs' -> sorted_entries u kvs = sorted_entries u kvs'.
Proof.
  intros Hnd Hperm. unfold sorted_entries.
  apply (StronglySorted_unique_strong (fun x y => entry_compare x y <= 0)).
  - intros x y Hx Hy Hxy Hyx. rewrite elem_of_js_sort, list_elem_of_In, filter_In in Hx, Hy.
    destruct Hx as [Hx _], Hy as [Hy _]. rewrite <-list_elem_of_In in Hx, Hy. rewrite <-Hperm in Hy.
    assert (x.1 = y.1) as Hk.
    { apply text_compare_eq. unfold entry_compare in *.
      clear -Hxy Hyx. revert Hxy Hyx. generalize y.1. generalize x.1. intros a.
      induction a as [|c a IH]; intros [|d b]; cbn; try lia.
      rewrite (Z.eqb_sym d c). destruct (Z.eqb_spec c d); [apply IH|lia]. }
    clear -Hnd Hx Hy Hk. induction kvs as [|kv kvs IH]; [by apply not_elem_of_nil in Hx|].
    cbn in Hnd. apply NoDup_cons in Hnd as [Hkv Hnd].
    apply elem_of_cons in Hx as [->|Hx], Hy as [->|Hy]; [done| | |by apply IH].
    + destruct Hkv. rewrite Hk. apply list_elem_of_fmap. eauto.
    + destruct Hkv. rewrite <-Hk. apply list_elem_of_fmap. eauto.
  - apply js_sort_StronglySorted, _.
  - apply js_sort_StronglySorted, _.
  - rewrite !js_sort_Permutation. clear -Hperm. induction Hperm; cbn.
    + done.
    + destruct (negb (u x.2)); [by constructor|done].
    + destruct (negb (u x.2)), (negb (u y.2)); try done. constructor.
    + etrans; eauto.
Qed.

(** The canonical text does not depend on the order fields were written in. *)
Lemma canonicalJson_object_order kvs kvs' :
  NoDup kvs.*1 -> kvs ≡ₚ kvs' -> canonicalJson (JObject kvs) = canonicalJson (JObject kvs').
Proof.
  intros Hnd Hp. cbn. erewrite sorted_entries_Permutation; [reflexivity| |by apply Permutation_map].
  enough ((List.map (fun kv => (kv.1, (is_undefined kv.2, canonicalJson kv.2))) kvs).*1 = kvs.*1) as -> by done.
  clear. induction kvs; cbn; congruence.
Qed.
