(* ===== verification/Ids.v ===== *)
(** Ids: the identifier, digest and text classes the schemas are built from
    (src/ids.ts, and the scalar schemas at the top of src/control/events.ts and
    src/steering/schema.ts). *)
From S2P Require Import Prelude Text.

(** ** Character classes *)

Definition code (c : Ascii.ascii) : Z := Z.of_N (Ascii.N_of_ascii c).
Definition between (lo hi n : Z) : bool := (lo <=? n) && (n <=? hi).

Definition is_alnum (c : Ascii.ascii) : bool :=
  between 65 90 (code c) || between 97 122 (code c) || between 48 57 (code c).
(** [._-] *)
Definition is_id_char (c : Ascii.ascii) : bool :=
  is_alnum c || (code c =? 46) || (code c =? 95) || (code c =? 45).
(** [._:-] *)
Definition is_bounded_char (c : Ascii.ascii) : bool := is_id_char c || (code c =? 58).
Definition is_hex (c : Ascii.ascii) : bool := between 97 102 (code c) || between 48 57 (code c).
Definition is_decimal (c : Ascii.ascii) : bool := between 48 57 (code c).
Definition is_control (c : Ascii.ascii) : bool := between 0 31 (code c) || (code c =? 127).

Fixpoint all_chars (p : Ascii.ascii -> bool) (s : string) : bool :=
  match s with
  | EmptyString => true
  | String c s' => p c && all_chars p s'
  end.

Definition strlen (s : string) : Z := Z.of_nat (String.length s).

(** [s.includes("..")] *)
Fixpoint includes_dotdot (s : string) : bool :=
  match s with
  | String c s' =>
      match s' with
      | String d _ => ((code c =? 46) && (code d =? 46)) || includes_dotdot s'
      | EmptyString => false
      end
  | EmptyString => false
  end.

Definition starts_with (p : Ascii.ascii -> bool) (s : string) : bool :=
  match s with String c _ => p c | EmptyString => false end.

(** ** src/ids.ts *)

Definition ID_PATTERN (s : string) : bool :=
  starts_with is_alnum s && all_chars is_id_char s && (strlen s <=? 64).

Definition isValidId (value : string) : bool :=
  if bool_decide (value = "."%string) || bool_decide (value = ".."%string) then false
  else if includes_dotdot value then false
  else if negb (all_chars (fun c => negb (is_control c)) value) then false
  else ID_PATTERN value.

Inductive IdKind := Id_run | Id_project | Id_role | Id_namespace | Id_task | Id_loop | Id_session.

Definition assertId (kind : IdKind) (value : string) : result (IdKind * string) string :=
  if isValidId value then Ok value else Err (kind, value).

(** ** Scalar schemas of src/control/events.ts *)

Definition boundedId (s : string) : bool :=
  (1 <=? strlen s) && (strlen s <=? 128) && starts_with is_alnum s && all_chars is_bounded_char s.

Definition digest (s : string) : bool := (strlen s =? 64) && all_chars is_hex s.
(** [/^(?:[a-f0-9]{40}|[a-f0-9]{64})$/] *)
Definition gitOid (s : string) : bool :=
  ((strlen s =? 40) || (strlen s =? 64)) && all_chars is_hex s.

Definition nonNegative (n : Z) : bool := between 0 MAX_SAFE_INTEGER n.
Definition positive (n : Z) : bool := between 1 MAX_SAFE_INTEGER n.
(** [z.string().datetime({ offset: true })]: the year has four digits. *)
Definition timestamp (s : string) : bool :=
  starts_with is_decimal s && match Date_parse s with Some _ => true | None => false end.

Definition textlen (t : text) : Z := Z.of_nat (length t).
Definition shortText (t : text) : bool := textlen t <=? 4096.
Definition bodyText (t : text) : bool := between 1 16384 (textlen t).

Definition optional {A} (p : A -> bool) (o : option A) : bool :=
  match o with Some a => p a | None => true end.
Definition at_most {A} (n : Z) (l : list A) : bool := Z.of_nat (length l) <=? n.
(** [new Set(l).size === l.length] *)
Definition unique {A} `{EqDecision A} (l : list A) : bool := bool_decide (NoDup l).

(** ** UTF-16 and UTF-8 lengths *)

(** The Unicode scalar values (or lone surrogates) iterating a string yields. *)
Fixpoint code_points (t : text) : list Z :=
  match t with
  | [] => []
  | c :: t' =>
      match t' with
      | d :: t'' =>
          if between 55296 56319 c && between 56320 57343 d
          then 65536 + (c - 55296) * 1024 + (d - 56320) :: code_points t''
          else c :: code_points t'
      | [] => [c]
      end
  end.

Definition utf8_width (cp : Z) : Z :=
  if cp <? 128 then 1 else if cp <? 2048 then 2 else if cp <? 65536 then 3 else 4.

(** [Buffer.byteLength(value, "utf8")]; a lone surrogate is written as the
    three bytes of U+FFFD. *)
Definition utf8_length (t : text) : Z := foldr (fun cp n => utf8_width cp + n) 0 (code_points t).

Definition STEERING_BODY_MAX_SCALARS : Z := 8192.
Definition STEERING_BODY_MAX_BYTES : Z := 16 * 1024.

Definition steeringBodyText (t : text) : bool :=
  (1 <=? textlen t) && (Z.of_nat (length (code_points t)) <=? 8192)
  && (utf8_length t <=? 16 * 1024).

(** ** Facts *)

Lemma all_chars_impl (p q : Ascii.ascii -> bool) s :
  (forall c, p c = true -> q c = true) -> all_chars p s = true -> all_chars q s = true.
Proof.
  intros Hpq. induction s as [|c s IH]; cbn; [done|]. rewrite !andb_true_iff. intuition.
Qed.

Lemma all_chars_app p s1 s2 : all_chars p (s1 +:+ s2) = all_chars p s1 && all_chars p s2.
Proof.
  induction s1 as [|c s1 IH]; [done|].
  change (p c && all_chars p (s1 +:+ s2) = p c && all_chars p s1 && all_chars p s2).
  by rewrite IH, andb_assoc.
Qed.

(** Every canonical identifier is a bounded identifier. *)
Lemma isValidId_boundedId s : isValidId s = true -> boundedId s = true.
Proof.
  unfold isValidId, ID_PATTERN, boundedId. repeat case_match; try done.
  intros H'. guards. rewrite !andb_true_iff, !Z.leb_le. repeat split; try lia.
  - destruct s; [discriminate|]. unfold strlen; cbn; lia.
  - done.
  - eapply all_chars_impl; [|done]. unfold is_bounded_char. intros c ->. done.
Qed.

(** An accepted identifier is safe as a path segment: no separator, no
    parent-directory segment, no leading dot or dash. *)
Lemma isValidId_safe s :
  isValidId s = true ->
  includes_dotdot s = false /\ all_chars is_id_char s = true /\
  starts_with is_alnum s = true /\ 1 <= strlen s <= 64.
Proof.
  unfold isValidId, ID_PATTERN. repeat case_match; try done.
  intros H'. guards. repeat split; try done. destruct s; [discriminate|]. unfold strlen; cbn; lia.
Qed.

Lemma nonNegative_spec n : nonNegative n = true <-> 0 <= n <= MAX_SAFE_INTEGER.
Proof. unfold nonNegative, between. rewrite andb_true_iff, !Z.leb_le. done. Qed.
Lemma positive_spec n : positive n = true <-> 1 <= n <= MAX_SAFE_INTEGER.
Proof. unfold positive, between. rewrite andb_true_iff, !Z.leb_le. done. Qed.
