(* ===== verification/ScmTypes.v ===== *)
(** ScmTypes: the provider-neutral source-control contracts of
    src/scm/types.ts and the JSON each value is digested as. The literal field
    [schemaVersion: 1] is left implicit in the records and present in the JSON;
    an optional field is an [option]; an enumeration is an inductive type with
    the source's members, [E_name] giving the member's string. *)
From S2P Require Import Prelude Json.

(** JSON images: strings, counts, optional ([undefined]) and nullable fields. *)
Definition jstr (s : string) : json := JString (text_of_string s).
Definition jnum (n : Z) : json := JNumber (Some n).
Definition jopt {A} (f : A -> json) (o : option A) : json := match o with Some a => f a | None => JUndefined end.
Definition jnull {A} (f : A -> json) (o : option A) : json := match o with Some a => f a | None => JNull end.
Definition jlist {A} (f : A -> json) (l : list A) : json := JArray (List.map f l).
Definition jobj (fields : list (string * json)) : json :=
  JObject (List.map (fun f => (text_of_string f.1, f.2)) fields).

Inductive ScmProviderKind :=
| provider_github.
Definition ScmProviderKind_name (x : ScmProviderKind) : string :=
  match x with
  | provider_github => "github"
  end.
#[export] Instance ScmProviderKind_eq_dec : EqDecision ScmProviderKind. Proof. solve_decision. Defined.

Inductive ScmPublicationState :=
| pub_unpublished
| pub_push_intent
| pub_push_ambiguous
| pub_branch_published
| pub_pr_intent
| pub_pr_ambiguous
| pub_published
| pub_superseded
| pub_refused.
Definition ScmPublicationState_name (x : ScmPublicationState) : string :=
  match x with
  | pub_unpublished => "unpublished"
  | pub_push_intent => "push_intent"
  | pub_push_ambiguous => "push_ambiguous"
  | pub_branch_published => "branch_published"
  | pub_pr_intent => "pr_intent"
  | pub_pr_ambiguous => "pr_ambiguous"
  | pub_published => "published"
  | pub_superseded => "superseded"
  | pub_refused => "refused"
  end.
#[export] Instance ScmPublicationState_eq_dec : EqDecision ScmPublicationState. Proof. solve_decision. Defined.

Inductive ScmCiState :=
| ci_unknown
| ci_pending
| ci_passing
| ci_failing.
Definition ScmCiState_name (x : ScmCiState) : string :=
  match x with
  | ci_unknown => "unknown"
  | ci_pending => "pending"
  | ci_passing => "passing"
  | ci_failing => "failing"
  end.
#[export] Instance ScmCiState_eq_dec : EqDecision ScmCiState. Proof. solve_decision. Defined.

Inductive ScmCheckBucket :=
| check_unknown
| check_pending
| check_passing
| check_failing
| check_skipping
| check_cancelled.
Definition ScmCheckBucket_name (x : ScmCheckBucket) : string :=
  match x with
  | check_unknown => "unknown"
  | check_pending => "pending"
  | check_passing => "passing"
  | check_failing => "failing"
  | check_skipping => "skipping"
  | check_cancelled => "cancelled"
  end.
#[export] Instance ScmCheckBucket_eq_dec : EqDecision ScmCheckBucket. Proof. solve_decision. Defined.

Inductive ScmReviewDecision :=
| decision_unknown
| decision_pending
| decision_approved
| decision_changes_requested
| decision_dismissed.
Definition ScmReviewDecision_name (x : ScmReviewDecision) : string :=
  match x with
  | decision_unknown => "unknown"
  | decision_pending => "pending"
  | decision_approved => "approved"
  | decision_changes_requested => "changes_requested"
  | decision_dismissed => "dismissed"
  end.
#[export] Instance ScmReviewDecision_eq_dec : EqDecision ScmReviewDecision. Proof. solve_decision. Defined.

Inductive ScmMergeabilityState :=
| merge_unknown
| merge_mergeable
| merge_conflicting
| merge_blocked
| merge_unstable.
Definition ScmMergeabilityState_name (x : ScmMergeabilityState) : string :=
  match x with
  | merge_unknown => "unknown"
  | merge_mergeable => "mergeable"
  | merge_conflicting => "conflicting"
  | merge_blocked => "blocked"
  | merge_unstable => "unstable"
  end.
#[export] Instance ScmMergeabilityState_eq_dec : EqDecision ScmMergeabilityState. Proof. solve_decision. Defined.

Inductive ScmCompleteness :=
| completeness_complete
| completeness_partial.
Definition ScmCompleteness_name (x : ScmCompleteness) : string :=
  match x with
  | completeness_complete => "complete"
  | completeness_partial => "partial"
  end.
#[export] Instance ScmCompleteness_eq_dec : EqDecision ScmCompleteness. Proof. solve_decision. Defined.

Record ScmRepositoryIdV1 := {
  repo_provider : ScmProviderKind;
  repo_canonicalHost : string;
  repo_owner : string;
  repo_name : string
}.
Definition ScmRepositoryIdV1_fields (x : ScmRepositoryIdV1) : list (string * json) :=
  [("schemaVersion", jnum 1);
   ("provider", (fun x => jstr (ScmProviderKind_name x)) (x.(repo_provider)));
   ("canonicalHost", jstr (x.(repo_canonicalHost)));
   ("owner", jstr (x.(repo_owner)));
   ("name", jstr (x.(repo_name)))].
Definition ScmRepositoryIdV1_json (x : ScmRepositoryIdV1) : json := jobj (ScmRepositoryIdV1_fields x).

Inductive ScmRemoteExpectationV1 :=
| remote_absent
| remote_oid (oid : string).
Definition ScmRemoteExpectationV1_json (x : ScmRemoteExpectationV1) : json :=
  match x with
  | remote_absent => jobj [("kind", jstr "absent")]
  | remote_oid oid => jobj [("kind", jstr "oid"); ("oid", jstr oid)]
  end.

Record ScmPublicationIntentV1 := {
  intent_publicationId : string;
  intent_publicationGeneration : Z;
  intent_attempt : Z;
  intent_runId : string;
  intent_runEpoch : string;
  intent_repository : ScmRepositoryIdV1;
  intent_integrationRef : string;
  intent_integrationOid : string;
  intent_localExpectedOid : string;
  intent_remoteName : string;
  intent_remoteRef : string;
  intent_expectedRemote : ScmRemoteExpectationV1;
  intent_baseRepository : ScmRepositoryIdV1;
  intent_baseRef : string;
  intent_titleSha256 : string;
  intent_bodySha256 : string;
  intent_draft : bool;
  intent_createdAt : string
}.
Definition ScmPublicationIntentV1_fields (x : ScmPublicationIntentV1) : list (string * json) :=
  [("schemaVersion", jnum 1);
   ("publicationId", jstr (x.(intent_publicationId)));
   ("publicationGeneration", jnum (x.(intent_publicationGeneration)));
   ("attempt", jnum (x.(intent_attempt)));
   ("runId", jstr (x.(intent_runId)));
   ("runEpoch", jstr (x.(intent_runEpoch)));
   ("repository", ScmRepositoryIdV1_json (x.(intent_repository)));
   ("integrationRef", jstr (x.(intent_integrationRef)));
   ("integrationOid", jstr (x.(intent_integrationOid)));
   ("localExpectedOid", jstr (x.(intent_localExpectedOid)));
   ("remoteName", jstr (x.(intent_remoteName)));
   ("remoteRef", jstr (x.(intent_remoteRef)));
   ("expectedRemote", ScmRemoteExpectationV1_json (x.(intent_expectedRemote)));
   ("baseRepository", ScmRepositoryIdV1_json (x.(intent_baseRepository)));
   ("baseRef", jstr (x.(intent_baseRef)));
   ("titleSha256", jstr (x.(intent_titleSha256)));
   ("bodySha256", jstr (x.(intent_bodySha256)));
   ("draft", JBoolean (x.(intent_draft)));
   ("createdAt", jstr (x.(intent_createdAt)))].
Definition ScmPublicationIntentV1_json (x : ScmPublicationIntentV1) : json := jobj (ScmPublicationIntentV1_fields x).

Record ScmPullRequestIdentityV1 := {
  pull_providerId : string;
  pull_number : Z;
  pull_url : string;
  pull_repository : ScmRepositoryIdV1;
  pull_headRepository : ScmRepositoryIdV1;
  pull_headRef : string;
  pull_headSha : string;
  pull_baseRepository : ScmRepositoryIdV1;
  pull_baseRef : string;
  pull_baseSha : string
}.
Definition ScmPullRequestIdentityV1_fields (x : ScmPullRequestIdentityV1) : list (string * json) :=
  [("providerId", jstr (x.(pull_providerId)));
   ("number", jnum (x.(pull_number)));
   ("url", jstr (x.(pull_url)));
   ("repository", ScmRepositoryIdV1_json (x.(pull_repository)));
   ("headRepository", ScmRepositoryIdV1_json (x.(pull_headRepository)));
   ("headRef", jstr (x.(pull_headRef)));
   ("headSha", jstr (x.(pull_headSha)));
   ("baseRepository", ScmRepositoryIdV1_json (x.(pull_baseRepository)));
   ("baseRef", jstr (x.(pull_baseRef)));
   ("baseSha", jstr (x.(pull_baseSha)))].
Definition ScmPullRequestIdentityV1_json (x : ScmPullRequestIdentityV1) : json := jobj (ScmPullRequestIdentityV1_fields x).

Inductive ScmPullLifecycle :=
| lifecycle_open
| lifecycle_closed
| lifecycle_merged.
Definition ScmPullLifecycle_name (x : ScmPullLifecycle) : string :=
  match x with
  | lifecycle_open => "open"
  | lifecycle_closed => "closed"
  | lifecycle_merged => "merged"
  end.
#[export] Instance ScmPullLifecycle_eq_dec : EqDecision ScmPullLifecycle. Proof. solve_decision. Defined.

(** [ScmPullRequestIdentityV1 & { lifecycle, draft, resourceVersion? }] *)
Record ScmPullRequestFactV1 := {
  pull_identity : ScmPullRequestIdentityV1;
  pull_lifecycle : ScmPullLifecycle;
  pull_draft : bool;
  pull_resourceVersion : option string
}.
Definition ScmPullRequestFactV1_json (x : ScmPullRequestFactV1) : json :=
  jobj (ScmPullRequestIdentityV1_fields x.(pull_identity) ++
        [("lifecycle", jstr (ScmPullLifecycle_name x.(pull_lifecycle)));
         ("draft", JBoolean x.(pull_draft));
         ("resourceVersion", jopt jstr x.(pull_resourceVersion))]).

Record ScmNormalizedCheckV1 := {
  check_key : string;
  check_providerCheckId : string;
  check_providerRunId : string;
  check_name : text;
  check_workflow : option text;
  check_event : option text;
  check_required : bool;
  check_bucket : ScmCheckBucket;
  check_status : text;
  check_conclusion : option text;
  check_attempt : Z;
  check_startedAt : string;
  check_completedAt : option string;
  check_url : option string;
  check_detail : option text
}.
Definition ScmNormalizedCheckV1_fields (x : ScmNormalizedCheckV1) : list (string * json) :=
  [("key", jstr (x.(check_key)));
   ("providerCheckId", jstr (x.(check_providerCheckId)));
   ("providerRunId", jstr (x.(check_providerRunId)));
   ("name", JString (x.(check_name)));
   ("workflow", (jopt JString) (x.(check_workflow)));
   ("event", (jopt JString) (x.(check_event)));
   ("required", JBoolean (x.(check_required)));
   ("bucket", (fun x => jstr (ScmCheckBucket_name x)) (x.(check_bucket)));
   ("status", JString (x.(check_status)));
   ("conclusion", (jopt JString) (x.(check_conclusion)));
   ("attempt", jnum (x.(check_attempt)));
   ("startedAt", jstr (x.(check_startedAt)));
   ("completedAt", (jopt jstr) (x.(check_completedAt)));
   ("url", (jopt jstr) (x.(check_url)));
   ("detail", (jopt JString) (x.(check_detail)))].
Definition ScmNormalizedCheckV1_json (x : ScmNormalizedCheckV1) : json := jobj (ScmNormalizedCheckV1_fields x).

Record ScmCiFactV1 := {
  ci_state : ScmCiState;
  ci_checks : list (ScmNormalizedCheckV1);
  ci_requiredCheckCount : Z;
  ci_failureFingerprint : option string;
  ci_conflicts : list string
}.
Definition ScmCiFactV1_fields (x : ScmCiFactV1) : list (string * json) :=
  [("state", (fun x => jstr (ScmCiState_name x)) (x.(ci_state)));
   ("checks", (jlist ScmNormalizedCheckV1_json) (x.(ci_checks)));
   ("requiredCheckCount", jnum (x.(ci_requiredCheckCount)));
   ("failureFingerprint", (jopt jstr) (x.(ci_failureFingerprint)));
   ("conflicts", (jlist jstr) (x.(ci_conflicts)))].
Definition ScmCiFactV1_json (x : ScmCiFactV1) : json := jobj (ScmCiFactV1_fields x).

Inductive ScmEvidenceKind :=
| evidence_review_body
| evidence_review_thread
| evidence_inline_comment
| evidence_issue_comment
| evidence_check_log.
Definition ScmEvidenceKind_name (x : ScmEvidenceKind) : string :=
  match x with
  | evidence_review_body => "review_body"
  | evidence_review_thread => "review_thread"
  | evidence_inline_comment => "inline_comment"
  | evidence_issue_comment => "issue_comment"
  | evidence_check_log => "check_log"
  end.
#[export] Instance ScmEvidenceKind_eq_dec : EqDecision ScmEvidenceKind. Proof. solve_decision. Defined.

Inductive ScmAuthorKind :=
| author_human
| author_bot
| author_unknown.
Definition ScmAuthorKind_name (x : ScmAuthorKind) : string :=
  match x with
  | author_human => "human"
  | author_bot => "bot"
  | author_unknown => "unknown"
  end.
#[export] Instance ScmAuthorKind_eq_dec : EqDecision ScmAuthorKind. Proof. solve_decision. Defined.

Record ScmEvidenceV1 := {
  evidence_evidenceId : string;
  evidence_providerEvidenceId : string;
  evidence_kind : ScmEvidenceKind;
  evidence_authorKind : ScmAuthorKind;
  evidence_authorId : string;
  evidence_createdAt : string;
  evidence_updatedAt : string;
  evidence_resolved : bool;
  evidence_selected : bool;
  evidence_body : text;
  evidence_bodySha256 : string;
  evidence_originalBytes : Z;
  evidence_retainedBytes : Z;
  evidence_truncated : bool;
  evidence_sanitized : bool;
  evidence_url : option string
}.
Definition ScmEvidenceV1_fields (x : ScmEvidenceV1) : list (string * json) :=
  [("evidenceId", jstr (x.(evidence_evidenceId)));
   ("providerEvidenceId", jstr (x.(evidence_providerEvidenceId)));
   ("kind", (fun x => jstr (ScmEvidenceKind_name x)) (x.(evidence_kind)));
   ("authorKind", (fun x => jstr (ScmAuthorKind_name x)) (x.(evidence_authorKind)));
   ("authorId", jstr (x.(evidence_authorId)));
   ("createdAt", jstr (x.(evidence_createdAt)));
   ("updatedAt", jstr (x.(evidence_updatedAt)));
   ("resolved", JBoolean (x.(evidence_resolved)));
   ("selected", JBoolean (x.(evidence_selected)));
   ("body", JString (x.(evidence_body)));
   ("bodySha256", jstr (x.(evidence_bodySha256)));
   ("originalBytes", jnum (x.(evidence_originalBytes)));
   ("retainedBytes", jnum (x.(evidence_retainedBytes)));
   ("truncated", JBoolean (x.(evidence_truncated)));
   ("sanitized", JBoolean (x.(evidence_sanitized)));
   ("url", (jopt jstr) (x.(evidence_url)))].
Definition ScmEvidenceV1_json (x : ScmEvidenceV1) : json := jobj (ScmEvidenceV1_fields x).

Record ScmReviewFactV1 := {
  review_decision : ScmReviewDecision;
  review_humanApprovals : Z;
  review_evidence : list (ScmEvidenceV1);
  review_unresolvedSelectedEvidenceIds : list string;
  review_conflicts : list string
}.
Definition ScmReviewFactV1_fields (x : ScmReviewFactV1) : list (string * json) :=
  [("decision", (fun x => jstr (ScmReviewDecision_name x)) (x.(review_decision)));
   ("humanApprovals", jnum (x.(review_humanApprovals)));
   ("evidence", (jlist ScmEvidenceV1_json) (x.(review_evidence)));
   ("unresolvedSelectedEvidenceIds", (jlist jstr) (x.(review_unresolvedSelectedEvidenceIds)));
   ("conflicts", (jlist jstr) (x.(review_conflicts)))].
Definition ScmReviewFactV1_json (x : ScmReviewFactV1) : json := jobj (ScmReviewFactV1_fields x).

Record ScmMergeabilityFactV1 := {
  mergeability_state : ScmMergeabilityState;
  mergeability_blockers : list string
}.
Definition ScmMergeabilityFactV1_fields (x : ScmMergeabilityFactV1) : list (string * json) :=
  [("state", (fun x => jstr (ScmMergeabilityState_name x)) (x.(mergeability_state)));
   ("blockers", (jlist jstr) (x.(mergeability_blockers)))].
Definition ScmMergeabilityFactV1_json (x : ScmMergeabilityFactV1) : json := jobj (ScmMergeabilityFactV1_fields x).

Record ScmBucketMetaV1 := {
  meta_completeness : ScmCompleteness;
  meta_observedHeadSha : string;
  meta_observedAt : string;
  meta_freshUntil : string;
  meta_semanticHash : string;
  meta_guard : option text;
  meta_cursor : option text
}.
Definition ScmBucketMetaV1_fields (x : ScmBucketMetaV1) : list (string * json) :=
  [("completeness", (fun x => jstr (ScmCompleteness_name x)) (x.(meta_completeness)));
   ("observedHeadSha", jstr (x.(meta_observedHeadSha)));
   ("observedAt", jstr (x.(meta_observedAt)));
   ("freshUntil", jstr (x.(meta_freshUntil)));
   ("semanticHash", jstr (x.(meta_semanticHash)));
   ("guard", (jopt JString) (x.(meta_guard)));
   ("cursor", (jopt JString) (x.(meta_cursor)))].
Definition ScmBucketMetaV1_json (x : ScmBucketMetaV1) : json := jobj (ScmBucketMetaV1_fields x).

Record ScmFactBucketV1 (T : Type) := {
  bucket_meta : ScmBucketMetaV1;
  bucket_facts : T
}.
Arguments bucket_meta {T}.
Arguments bucket_facts {T}.
Definition ScmFactBucketV1_json {T} (f : T -> json) (x : ScmFactBucketV1 T) : json :=
  jobj [("meta", ScmBucketMetaV1_json x.(bucket_meta)); ("facts", f x.(bucket_facts))].

Inductive ScmProviderFailureKind :=
| failure_cancelled
| failure_timeout
| failure_network
| failure_rate_limited
| failure_auth
| failure_permission
| failure_schema
| failure_pagination
| failure_budget_exceeded
| failure_provider.
Definition ScmProviderFailureKind_name (x : ScmProviderFailureKind) : string :=
  match x with
  | failure_cancelled => "cancelled"
  | failure_timeout => "timeout"
  | failure_network => "network"
  | failure_rate_limited => "rate_limited"
  | failure_auth => "auth"
  | failure_permission => "permission"
  | failure_schema => "schema"
  | failure_pagination => "pagination"
  | failure_budget_exceeded => "budget_exceeded"
  | failure_provider => "provider"
  end.
#[export] Instance ScmProviderFailureKind_eq_dec : EqDecision ScmProviderFailureKind. Proof. solve_decision. Defined.

Record ScmProviderFailureV1 := {
  failure_kind : ScmProviderFailureKind;
  failure_retryable : bool;
  failure_code : string;
  failure_diagnostic : text;
  failure_nextEligibleAt : option string
}.
Definition ScmProviderFailureV1_fields (x : ScmProviderFailureV1) : list (string * json) :=
  [("kind", (fun x => jstr (ScmProviderFailureKind_name x)) (x.(failure_kind)));
   ("retryable", JBoolean (x.(failure_retryable)));
   ("code", jstr (x.(failure_code)));
   ("diagnostic", JString (x.(failure_diagnostic)));
   ("nextEligibleAt", (jopt jstr) (x.(failure_nextEligibleAt)))].
Definition ScmProviderFailureV1_json (x : ScmProviderFailureV1) : json := jobj (ScmProviderFailureV1_fields x).

Record ScmProviderLimitsV1 := {
  limits_requestTimeoutMs : Z;
  limits_maxPagesPerEndpoint : Z;
  limits_maxItemsPerPage : Z;
  limits_maxItemsPerEndpoint : Z;
  limits_maxDecodedBytesPerRequest : Z;
  limits_maxDecodedBytesPerPoll : Z;
  limits_maxEvidenceBodyBytes : Z;
  limits_maxEvidencePreviewBytes : Z;
  limits_maxFailureLogBytes : Z;
  limits_maxFailureLogsBytes : Z;
  limits_maxConcurrentPerRepository : Z;
  limits_maxConcurrentPerRun : Z
}.
Definition ScmProviderLimitsV1_fields (x : ScmProviderLimitsV1) : list (string * json) :=
  [("requestTimeoutMs", jnum (x.(limits_requestTimeoutMs)));
   ("maxPagesPerEndpoint", jnum (x.(limits_maxPagesPerEndpoint)));
   ("maxItemsPerPage", jnum (x.(limits_maxItemsPerPage)));
   ("maxItemsPerEndpoint", jnum (x.(limits_maxItemsPerEndpoint)));
   ("maxDecodedBytesPerRequest", jnum (x.(limits_maxDecodedBytesPerRequest)));
   ("maxDecodedBytesPerPoll", jnum (x.(limits_maxDecodedBytesPerPoll)));
   ("maxEvidenceBodyBytes", jnum (x.(limits_maxEvidenceBodyBytes)));
   ("maxEvidencePreviewBytes", jnum (x.(limits_maxEvidencePreviewBytes)));
   ("maxFailureLogBytes", jnum (x.(limits_maxFailureLogBytes)));
   ("maxFailureLogsBytes", jnum (x.(limits_maxFailureLogsBytes)));
   ("maxConcurrentPerRepository", jnum (x.(limits_maxConcurrentPerRepository)));
   ("maxConcurrentPerRun", jnum (x.(limits_maxConcurrentPerRun)))].
Definition ScmProviderLimitsV1_json (x : ScmProviderLimitsV1) : json := jobj (ScmProviderLimitsV1_fields x).

Definition SCM_PROVIDER_LIMITS : ScmProviderLimitsV1 := {|
  limits_requestTimeoutMs := 30000;
  limits_maxPagesPerEndpoint := 20;
  limits_maxItemsPerPage := 100;
  limits_maxItemsPerEndpoint := 2000;
  limits_maxDecodedBytesPerRequest := 4 * 1024 * 1024;
  limits_maxDecodedBytesPerPoll := 16 * 1024 * 1024;
  limits_maxEvidenceBodyBytes := 64 * 1024;
  limits_maxEvidencePreviewBytes := 256 * 1024;
  limits_maxFailureLogBytes := 64 * 1024;
  limits_maxFailureLogsBytes := 256 * 1024;
  limits_maxConcurrentPerRepository := 4;
  limits_maxConcurrentPerRun := 8
|}.

Record ScmObservationGuardsV1 := {
  guards_pullRequest : option text;
  guards_checks : option text;
  guards_reviews : option text;
  guards_mergeability : option text
}.
Definition ScmObservationGuardsV1_fields (x : ScmObservationGuardsV1) : list (string * json) :=
  [("pullRequest", (jopt JString) (x.(guards_pullRequest)));
   ("checks", (jopt JString) (x.(guards_checks)));
   ("reviews", (jopt JString) (x.(guards_reviews)));
   ("mergeability", (jopt JString) (x.(guards_mergeability)))].
Definition ScmObservationGuardsV1_json (x : ScmObservationGuardsV1) : json := jobj (ScmObservationGuardsV1_fields x).
