(* ===== verification/ScmSchema.v ===== *)
(** ScmSchema: the closed validators of src/scm/schema.ts as decidable
    predicates on the parsed values, with the canonical host, branch and URL
    forms they are built from. Then what the canonical branch, URL and repository forms of
    src/scm/schema.ts guarantee. *)
From S2P Require Import Prelude Text Json Ids ScmTypes.

(** * The host's URL parser

    [new URL(value)]: the components the program reads, or the TypeError. *)
Record Url := {
  url_protocol : text;
  url_username : text;
  url_password : text;
  url_host : text;
  url_hostname : text;
  url_port : text;
  url_pathname : text;
  url_search : text;
  url_hash : text
}.
Class UrlApi := new_URL : text -> option Url.

(** * Patterns *)

Definition is_lower_alnum (c : Z) : bool := between 97 122 c || between 48 57 c.

(** [/^[a-z0-9](?:M{0,n}[a-z0-9])?$/]: edges alphanumeric, [M] between. *)
Definition edged (middle : Z -> bool) (n : Z) (t : text) : bool :=
  match t with
  | [] => false
  | c :: rest =>
      is_lower_alnum c && (Z.of_nat (length t) <=? n + 2) && is_lower_alnum (List.last t c) && forallb middle t
  end.

Definition repositoryPartPattern (s : string) : bool :=
  edged (fun c => is_lower_alnum c || (c =? 46) || (c =? 95) || (c =? 45)) 98 (text_of_string s).

Definition remoteNamePattern (s : string) : bool :=
  starts_with is_alnum s && all_chars is_id_char s && (strlen s <=? 64).

(** A dot-separated list of DNS labels, at most 253 units. *)
Definition host_label (t : text) : bool := edged (fun c => is_lower_alnum c || (c =? 45)) 61 t.
Definition hostPattern (t : text) : bool := (textlen t <=? 253) && forallb host_label (split 46 t).

(** [value.endsWith("Z") && new Date(value).toISOString() === value] *)
Definition ScmCanonicalTimestamp (s : string) : bool :=
  endsWith [90] (text_of_string s)
  && match Date_parse s with Some t => bool_decide (toISOString t = s) | None => false end.

(** * Branch refs *)

Definition refs_heads : text := text_of_string "refs/heads/".
(** [/[\x00-\x20\x7f~^:?*\\[]/] *)
Definition ref_forbidden (c : Z) : bool :=
  between 0 32 c || (c =? 127) || (c =? 126) || (c =? 94) || (c =? 58) || (c =? 63) || (c =? 42) || (c =? 92) || (c =? 91).

Definition isValidScmBranchRef (value : text) : bool :=
  if negb (startsWith refs_heads value) || (512 <? textlen value) then false
  else
    let branch := drop (length refs_heads) value in
    if bool_decide (branch = []) || startsWith [47] branch || endsWith [47] branch || startsWith [46] branch
       || endsWith [46] branch then false
    else if includes [47; 47] branch || includes [46; 46] branch || includes [64; 123] branch
            || endsWith (text_of_string ".lock") branch then false
    else if existsb ref_forbidden branch then false
    else forallb (fun component => negb (bool_decide (component = [])) && negb (startsWith [46] component)
                                   && negb (endsWith [46] component)) (split 47 branch).

Definition ScmBranchRef (s : string) : bool := isValidScmBranchRef (text_of_string s).

(** * Hosts and URLs *)

Inductive ScmUrlError :=
| HostPadded
| HostNotDns
| HostInvalid
| HostNotCanonical
| UrlInvalid
| UrlForeignHost
| UrlExtraParts
| UrlPathNotCanonical
| UrlNotCanonical.

Section urls.
Context {U : UrlApi}.

Definition canonicalizeScmHost (value : text) : result ScmUrlError text :=
  ensure (negb (bool_decide (value = [])) && unpadded value) HostPadded ;;
  ensure (hostPattern value) HostNotDns ;;
  match new_URL (text_of_string "https://" ++ value ++ [47]) with
  | None => Err HostInvalid
  | Some parsed =>
      ensure (bool_decide (parsed.(url_hostname) = value) && bool_decide (parsed.(url_host) = value)
              && bool_decide (parsed.(url_username) = []) && bool_decide (parsed.(url_password) = [])
              && bool_decide (parsed.(url_port) = [])) HostNotCanonical ;;
      Ok value
  end.

Definition ScmCanonicalHost (s : string) : bool := is_ok (canonicalizeScmHost (text_of_string s)).

Definition parseScmHttpsUrl (value canonicalHost : text) : result ScmUrlError text :=
  host ← canonicalizeScmHost canonicalHost;
  match new_URL value with
  | None => Err UrlInvalid
  | Some parsed =>
      ensure (bool_decide (parsed.(url_protocol) = text_of_string "https:") && bool_decide (parsed.(url_hostname) = host)
              && bool_decide (parsed.(url_host) = host)) UrlForeignHost ;;
      ensure (bool_decide (parsed.(url_username) = []) && bool_decide (parsed.(url_password) = [])
              && bool_decide (parsed.(url_port) = []) && bool_decide (parsed.(url_hash) = [])
              && bool_decide (parsed.(url_search) = [])) UrlExtraParts ;;
      ensure (startsWith [47] parsed.(url_pathname) && negb (includes [47; 47] parsed.(url_pathname))
              && negb (existsb (fun c => between 0 31 c || (c =? 127)) parsed.(url_pathname))) UrlPathNotCanonical ;;
      let canonical := text_of_string "https://" ++ host ++ parsed.(url_pathname) in
      ensure (bool_decide (value = canonical)) UrlNotCanonical ;;
      Ok canonical
  end.

(** [z.string().url().max(4096)] *)
Definition urlText (s : string) : bool :=
  match new_URL (text_of_string s) with Some _ => strlen s <=? 4096 | None => false end.
End urls.

(** * Facts of a repository, a publication and a pull request *)

(** [keys] are unique and no key is greater than the next. *)
Definition canonically_ordered (keys : list string) : bool :=
  unique keys &&
  (fix go (l : list string) : bool :=
     match l with
     | a :: ((b :: _) as l') => negb (0 <? utf16_compare a b) && go l'
     | _ => true
     end) keys.

Definition between1 (n : Z) (t : text) : bool := between 1 n (textlen t).

Section schemas.
Context {D : Digest} {U : UrlApi}.

Definition ScmRepositoryIdV1Schema (r : ScmRepositoryIdV1) : bool :=
  ScmCanonicalHost r.(repo_canonicalHost) && repositoryPartPattern r.(repo_owner) && repositoryPartPattern r.(repo_name).

(** The template of [scmRepositoryKey]. *)
Definition schemaRepositoryKey (r : ScmRepositoryIdV1) : string :=
  ScmProviderKind_name r.(repo_provider) +:+ ":" +:+ r.(repo_canonicalHost) +:+ "/" +:+ r.(repo_owner) +:+ "/" +:+ r.(repo_name).

(** The key is computed on a value the schema accepts; anything else throws. *)
Inductive ScmParseError := ScmInvalid.
Definition parsedRepositoryKey (r : ScmRepositoryIdV1) : result ScmParseError string :=
  ensure (ScmRepositoryIdV1Schema r) ScmInvalid ;; Ok (schemaRepositoryKey r).

Definition sameScmRepository (left right : ScmRepositoryIdV1) : result ScmParseError bool :=
  l ← parsedRepositoryKey left; r ← parsedRepositoryKey right; Ok (bool_decide (l = r)).

Definition remoteExpectationSchema (r : ScmRemoteExpectationV1) : bool :=
  match r with remote_absent => true | remote_oid oid => gitOid oid end.

Definition ScmPublicationIntentV1Schema (i : ScmPublicationIntentV1) : bool :=
  boundedId i.(intent_publicationId) && positive i.(intent_publicationGeneration) && positive i.(intent_attempt)
  && boundedId i.(intent_runId) && boundedId i.(intent_runEpoch) && ScmRepositoryIdV1Schema i.(intent_repository)
  && ScmBranchRef i.(intent_integrationRef) && gitOid i.(intent_integrationOid) && gitOid i.(intent_localExpectedOid)
  && remoteNamePattern i.(intent_remoteName) && ScmBranchRef i.(intent_remoteRef)
  && remoteExpectationSchema i.(intent_expectedRemote) && ScmRepositoryIdV1Schema i.(intent_baseRepository)
  && ScmBranchRef i.(intent_baseRef) && digest i.(intent_titleSha256) && digest i.(intent_bodySha256)
  && ScmCanonicalTimestamp i.(intent_createdAt)
  && bool_decide (i.(intent_integrationOid) = i.(intent_localExpectedOid))
  && negb (bool_decide (i.(intent_remoteRef) = i.(intent_baseRef))
           && bool_decide (schemaRepositoryKey i.(intent_repository) = schemaRepositoryKey i.(intent_baseRepository))).

Definition pullRequestIdentityShape (p : ScmPullRequestIdentityV1) : bool :=
  boundedId p.(pull_providerId) && positive p.(pull_number) && urlText p.(pull_url)
  && ScmRepositoryIdV1Schema p.(pull_repository) && ScmRepositoryIdV1Schema p.(pull_headRepository)
  && ScmBranchRef p.(pull_headRef) && gitOid p.(pull_headSha) && ScmRepositoryIdV1Schema p.(pull_baseRepository)
  && ScmBranchRef p.(pull_baseRef) && gitOid p.(pull_baseSha).

Definition ScmPullRequestIdentityV1Schema (p : ScmPullRequestIdentityV1) : bool :=
  pullRequestIdentityShape p
  && is_ok (parseScmHttpsUrl (text_of_string p.(pull_url)) (text_of_string p.(pull_repository).(repo_canonicalHost))).

Definition ScmPullRequestFactV1Schema (p : ScmPullRequestFactV1) : bool :=
  pullRequestIdentityShape p.(pull_identity)
  && optional (fun v => between 1 512 (strlen v)) p.(pull_resourceVersion)
  && is_ok (parseScmHttpsUrl (text_of_string p.(pull_identity).(pull_url))
              (text_of_string p.(pull_identity).(pull_repository).(repo_canonicalHost)))
  && negb (negb (bool_decide (p.(pull_lifecycle) = lifecycle_open)) && p.(pull_draft)).

(** * Checks, reviews, mergeability *)

Definition ScmNormalizedCheckV1Schema (c : ScmNormalizedCheckV1) : bool :=
  digest c.(check_key) && boundedId c.(check_providerCheckId) && boundedId c.(check_providerRunId)
  && between1 512 c.(check_name) && optional (between1 512) c.(check_workflow) && optional (between1 128) c.(check_event)
  && between1 128 c.(check_status) && optional (between1 128) c.(check_conclusion) && positive c.(check_attempt)
  && ScmCanonicalTimestamp c.(check_startedAt) && optional ScmCanonicalTimestamp c.(check_completedAt)
  && optional urlText c.(check_url) && optional (fun d => textlen d <=? 4096) c.(check_detail)
  && optional (fun d => utf8_length d <=? 4096) c.(check_detail).

Definition ScmCiFactV1Schema (f : ScmCiFactV1) : bool :=
  forallb ScmNormalizedCheckV1Schema f.(ci_checks)
  && at_most SCM_PROVIDER_LIMITS.(limits_maxItemsPerEndpoint) f.(ci_checks)
  && nonNegative f.(ci_requiredCheckCount) && optional digest f.(ci_failureFingerprint)
  && forallb digest f.(ci_conflicts) && at_most SCM_PROVIDER_LIMITS.(limits_maxItemsPerEndpoint) f.(ci_conflicts)
  && canonically_ordered (List.map check_key f.(ci_checks))
  && (f.(ci_requiredCheckCount) =? Z.of_nat (length (List.filter check_required f.(ci_checks))))
  && canonically_ordered f.(ci_conflicts)
  && Bool.eqb (bool_decide (f.(ci_state) = ci_failing)) (match f.(ci_failureFingerprint) with Some _ => true | None => false end).

Definition ScmEvidenceV1Schema (e : ScmEvidenceV1) : bool :=
  digest e.(evidence_evidenceId) && boundedId e.(evidence_providerEvidenceId) && boundedId e.(evidence_authorId)
  && ScmCanonicalTimestamp e.(evidence_createdAt) && ScmCanonicalTimestamp e.(evidence_updatedAt)
  && (textlen e.(evidence_body) <=? SCM_PROVIDER_LIMITS.(limits_maxEvidenceBodyBytes))
  && digest e.(evidence_bodySha256) && nonNegative e.(evidence_originalBytes) && nonNegative e.(evidence_retainedBytes)
  && optional urlText e.(evidence_url)
  && (utf8_length e.(evidence_body) <=? SCM_PROVIDER_LIMITS.(limits_maxEvidenceBodyBytes))
  && (utf8_length e.(evidence_body) =? e.(evidence_retainedBytes))
  && bool_decide (sha256Text e.(evidence_body) = e.(evidence_bodySha256))
  && negb (time_lt (Date_parse e.(evidence_updatedAt)) (Date_parse e.(evidence_createdAt))).

(** [canonicalJson(a) === canonicalJson(b)] *)
Definition same_json (a b : json) : bool :=
  match canonicalJson a, canonicalJson b with Ok x, Ok y => bool_decide (x = y) | _, _ => false end.

Definition ScmReviewFactV1Schema (f : ScmReviewFactV1) : bool :=
  let unresolved e := e.(evidence_selected) && negb e.(evidence_resolved) && bool_decide (e.(evidence_authorKind) = author_human) in
  nonNegative f.(review_humanApprovals)
  && forallb ScmEvidenceV1Schema f.(review_evidence)
  && at_most SCM_PROVIDER_LIMITS.(limits_maxItemsPerEndpoint) f.(review_evidence)
  && forallb digest f.(review_unresolvedSelectedEvidenceIds)
  && at_most SCM_PROVIDER_LIMITS.(limits_maxItemsPerEndpoint) f.(review_unresolvedSelectedEvidenceIds)
  && forallb digest f.(review_conflicts) && at_most SCM_PROVIDER_LIMITS.(limits_maxItemsPerEndpoint) f.(review_conflicts)
  && canonically_ordered (List.map evidence_evidenceId f.(review_evidence))
  && same_json (jlist jstr (js_sort utf16_compare (List.map evidence_evidenceId (List.filter unresolved f.(review_evidence)))))
       (jlist jstr f.(review_unresolvedSelectedEvidenceIds))
  && canonically_ordered f.(review_conflicts).

Definition ScmMergeabilityFactV1Schema (f : ScmMergeabilityFactV1) : bool :=
  forallb boundedId f.(mergeability_blockers) && at_most 128 f.(mergeability_blockers)
  && canonically_ordered f.(mergeability_blockers).

(** * Buckets, limits and failures *)

Definition ScmBucketMetaV1Schema (m : ScmBucketMetaV1) : bool :=
  gitOid m.(meta_observedHeadSha) && ScmCanonicalTimestamp m.(meta_observedAt) && ScmCanonicalTimestamp m.(meta_freshUntil)
  && digest m.(meta_semanticHash) && optional (between1 1024) m.(meta_guard) && optional (between1 1024) m.(meta_cursor)
  && negb (time_lt (Date_parse m.(meta_freshUntil)) (Date_parse m.(meta_observedAt))).

Definition ScmProviderLimitsV1Schema (l : ScmProviderLimitsV1) : bool :=
  let bounded (f : ScmProviderLimitsV1 -> Z) := between 1 (f SCM_PROVIDER_LIMITS) (f l) in
  bounded limits_requestTimeoutMs && bounded limits_maxPagesPerEndpoint && bounded limits_maxItemsPerPage
  && bounded limits_maxItemsPerEndpoint && bounded limits_maxDecodedBytesPerRequest && bounded limits_maxDecodedBytesPerPoll
  && bounded limits_maxEvidenceBodyBytes && bounded limits_maxEvidencePreviewBytes && bounded limits_maxFailureLogBytes
  && bounded limits_maxFailureLogsBytes && bounded limits_maxConcurrentPerRepository && bounded limits_maxConcurrentPerRun
  && negb (l.(limits_maxPagesPerEndpoint) * l.(limits_maxItemsPerPage) <? l.(limits_maxItemsPerEndpoint))
  && negb (l.(limits_maxDecodedBytesPerPoll) <? l.(limits_maxDecodedBytesPerRequest))
  && negb (l.(limits_maxFailureLogsBytes) <? l.(limits_maxFailureLogBytes))
  && negb (l.(limits_maxConcurrentPerRun) <? l.(limits_maxConcurrentPerRepository)).

Definition ScmProviderFailureV1Schema (f : ScmProviderFailureV1) : bool :=
  boundedId f.(failure_code) && (textlen f.(failure_diagnostic) <=? 4096)
  && optional ScmCanonicalTimestamp f.(failure_nextEligibleAt)
  && negb (bool_decide (f.(failure_kind) = failure_rate_limited)
           && match f.(failure_nextEligibleAt) with Some _ => false | None => true end)
  && negb (bool_decide (f.(failure_kind) ∈ [failure_auth; failure_permission; failure_schema]) && f.(failure_retryable)).

(** [scmSemanticDigest(value)] *)
Definition scmSemanticDigest (v : json) : result CanonicalJsonError string :=
  t ← canonicalJson v; Ok (sha256Text t).

Inductive ScmBucketError :=
| BucketSchema
| BucketDigest
| BucketCanonical (e : CanonicalJsonError).

(** [parseScmFactBucket(value, factSchema)] *)
Definition parseScmFactBucket {T} (factSchema : T -> bool) (encode : T -> json) (bucket : ScmFactBucketV1 T)
    : result ScmBucketError (ScmFactBucketV1 T) :=
  ensure (ScmBucketMetaV1Schema bucket.(bucket_meta) && factSchema bucket.(bucket_facts)) BucketSchema ;;
  d ← map_err BucketCanonical (scmSemanticDigest (encode bucket.(bucket_facts)));
  ensure (bool_decide (bucket.(bucket_meta).(meta_semanticHash) = d)) BucketDigest ;;
  Ok bucket.

Definition materializeScmFactBucket {T} (factSchema : T -> bool) (encode : T -> json) (completeness : ScmCompleteness)
    (observedHeadSha observedAt freshUntil : string) (facts : T) (guard cursor : option text)
    : result ScmBucketError (ScmFactBucketV1 T) :=
  ensure (factSchema facts) BucketSchema ;;
  d ← map_err BucketCanonical (scmSemanticDigest (encode facts));
  parseScmFactBucket factSchema encode {|
    bucket_meta := {|
      meta_completeness := completeness; meta_observedHeadSha := observedHeadSha; meta_observedAt := observedAt;
      meta_freshUntil := freshUntil; meta_semanticHash := d; meta_guard := guard; meta_cursor := cursor |};
    bucket_facts := facts |}.
End schemas.

(** * Facts *)

(** * Branch refs *)

(** A path component git accepts: not empty, no dot at either end, no double
    dot, no forbidden unit, no slash. *)
Record component_ok (c : text) : Prop := {
  component_nonempty : c <> [];
  component_slash : 47 ∉ c;
  component_first : startsWith [46] c = false;
  component_last : endsWith [46] c = false;
  component_dots : includes [46; 46] c = false;
  component_units : Forall (fun u => ref_forbidden u = false) c
}.

(** A branch ref: components joined by slashes below [refs/heads/]. *)
Record branch_ref (value : text) (parts : list text) : Prop := {
  branch_parts : parts <> [];
  branch_value : value = refs_heads ++ unsplit 47 parts;
  branch_length : textlen value <= 512;
  branch_components : Forall component_ok parts;
  branch_lock : endsWith (text_of_string ".lock") (unsplit 47 parts) = false;
  branch_reflog : includes [64; 123] (unsplit 47 parts) = false
}.

Lemma includes_false p t : includes p t = false <-> forall a b, t <> a ++ p ++ b.
Proof.
  rewrite <-not_true_iff_false, includes_spec. split.
  - intros H a b E. apply H. eauto.
  - intros H (a & b & E). by apply (H a b).
Qed.

Lemma branch_sound value : isValidScmBranchRef value = true -> exists parts, branch_ref value parts.
Proof.
  unfold isValidScmBranchRef. intros H.
  destruct (negb (startsWith refs_heads value) || (512 <? textlen value)) eqn:E1; [done|].
  apply orb_false_iff in E1 as [E1%negb_false_iff E2].
  apply startsWith_spec in E1 as [branch ->]. rewrite drop_app_length in H.
  repeat match type of H with (if ?b then _ else _) = _ => destruct b eqn:?; [done|] end. guards.
  exists (split 47 branch). split.
  - apply split_nonempty.
  - by rewrite unsplit_split.
  - lia.
  - rewrite Forall_forall. intros part Hp. rewrite forallb_forall in H.
    pose proof (H part) as Hok. rewrite <-list_elem_of_In in Hok. specialize (Hok Hp). guards.
    destruct (part_infix 47 _ _ Hp) as (a & b & Hpart). rewrite unsplit_split in Hpart. split; try done.
    + by apply split_parts in Hp.
    + apply includes_false. intros x y ->. match goal with H : includes [46; 46] branch = false |- _ =>
        apply (proj1 (includes_false _ _) H (a ++ x) (y ++ b)) end. by rewrite Hpart, <-!app_assoc.
    + rewrite Forall_forall. intros u Hu. destruct (ref_forbidden u) eqn:E; [|done].
      assert (existsb ref_forbidden branch = true) as Hc; [|congruence].
      apply existsb_exists. exists u. split; [|done]. rewrite <-list_elem_of_In, <-(unsplit_split 47 branch).
      by eapply part_elem_unsplit.
  - by rewrite unsplit_split.
  - by rewrite unsplit_split.
Qed.

Lemma startsWith_false p t : startsWith p t = false <-> forall r, t <> p ++ r.
Proof.
  rewrite <-not_true_iff_false, startsWith_spec. split.
  - intros H r E. apply H. eauto.
  - intros H (r & E). by apply (H r).
Qed.

Lemma endsWith_false p t : endsWith p t = false <-> forall r, t <> r ++ p.
Proof.
  rewrite <-not_true_iff_false, endsWith_spec. split.
  - intros H r E. apply H. eauto.
  - intros H (r & E). by apply (H r).
Qed.

Section complete.
Variable parts : list text.
Hypothesis Hne : parts <> [].
Hypothesis Hok : Forall component_ok parts.
Let branch := unsplit 47 parts.

Lemma branch_split : split 47 branch = parts.
Proof using Hne Hok.
  apply split_unsplit; [done|]. intros part Hp. pose proof (proj1 (Forall_forall _ _) Hok) as Hall. apply (component_slash _ (Hall part Hp)).
Qed.

Lemma no_empty_component : [] ∉ parts.
Proof using Hok. pose proof (proj1 (Forall_forall _ _) Hok) as Hall. intros H. by apply (component_nonempty _ (Hall [] H)). Qed.

Lemma branch_no_double_slash : includes [47; 47] branch = false.
Proof using Hne Hok.
  apply includes_false. intros a b E. apply no_empty_component. rewrite <-branch_split, E.
  change (a ++ [47; 47] ++ b) with (a ++ 47 :: 47 :: b). rewrite split_app. cbn. rewrite elem_of_app. right.
  apply list_elem_of_here.
Qed.

Lemma branch_no_slash_edges : startsWith [47] branch = false /\ endsWith [47] branch = false.
Proof using Hne Hok.
  split; [apply startsWith_false|apply endsWith_false]; intros r E; apply no_empty_component; rewrite <-branch_split, E.
  - cbn. apply list_elem_of_here.
  - change (r ++ [47]) with (r ++ 47 :: []). rewrite split_app. cbn. rewrite elem_of_app. right. apply list_elem_of_here.
Qed.

Lemma branch_no_dot_edges : startsWith [46] branch = false /\ endsWith [46] branch = false.
Proof using Hne Hok.
  pose proof (proj1 (Forall_forall _ _) Hok) as Hall.
  split; [apply startsWith_false|apply endsWith_false]; intros r E; pose proof branch_split as Hs; rewrite E in Hs.
  - change ([46] ++ r) with (46 :: r) in Hs. cbn [split] in Hs. rewrite (proj2 (Z.eqb_neq 46 47)) in Hs by lia.
    destruct (split 47 r) as [|p ps] eqn:Er; [by apply split_nonempty in Er|].
    assert ((46 :: p) ∈ parts) as Hin by (rewrite <-Hs; apply list_elem_of_here).
    pose proof (component_first _ (Hall _ Hin)) as Hf. discriminate.
  - destruct (split_snoc 47 r 46 ltac:(lia)) as (ps & p & Hs'). rewrite Hs in Hs'.
    assert ((p ++ [46]) ∈ parts) as Hin by (rewrite Hs'; apply elem_of_app; right; apply list_elem_of_here).
    pose proof (proj1 (endsWith_false _ _) (component_last _ (Hall _ Hin)) p). done.
Qed.

Lemma branch_no_dots : includes [46; 46] branch = false.
Proof using Hne Hok.
  pose proof (proj1 (Forall_forall _ _) Hok) as Hall. apply includes_false. intros a b E.
  destruct (split_infix 47 a [46; 46] b) as (part & x & y & Hin & ->).
  { rewrite !not_elem_of_cons. split_and!; [lia..|apply not_elem_of_nil]. }
  rewrite <-E, branch_split in Hin.
  by apply (proj1 (includes_false _ _) (component_dots _ (Hall _ Hin)) x y).
Qed.

Lemma branch_units : existsb ref_forbidden branch = false.
Proof using Hok.
  destruct (existsb ref_forbidden branch) eqn:E; [|done]. apply existsb_exists in E as (u & Hu & Hf).
  rewrite <-list_elem_of_In in Hu. apply elem_of_unsplit in Hu as [->|(part & Hp & Hin)]; [discriminate|].
  pose proof (proj1 (Forall_forall _ _) Hok) as Hall. pose proof (component_units _ (Hall part Hp)) as Hunits. rewrite Forall_forall in Hunits.
  by rewrite Hunits in Hf.
Qed.

Lemma branch_nonempty : branch <> [].
Proof using Hne Hok.
  intros E. apply no_empty_component. rewrite <-branch_split, E. apply list_elem_of_here.
Qed.

Lemma branch_components_hold :
  forallb (fun c => negb (bool_decide (c = [])) && negb (startsWith [46] c) && negb (endsWith [46] c)) (split 47 branch) = true.
Proof using Hne Hok.
  rewrite branch_split. apply forallb_forall. intros c Hc. rewrite <-list_elem_of_In in Hc.
  pose proof (proj1 (Forall_forall _ _) Hok) as Hall. destruct (Hall c Hc) as [? _ -> -> _ _]. by rewrite bool_decide_eq_false_2.
Qed.
End complete.

Lemma branch_complete value parts : branch_ref value parts -> isValidScmBranchRef value = true.
Proof.
  intros [Hne -> Hlen Hok Hlock Hreflog]. unfold isValidScmBranchRef.
  rewrite (proj2 (startsWith_spec _ _)) by eauto. rewrite (proj2 (Z.ltb_ge _ _) Hlen). cbn [negb orb].
  rewrite drop_app_length, Hlock, Hreflog.
  destruct (branch_no_slash_edges parts Hne Hok) as [-> ->]. destruct (branch_no_dot_edges parts Hne Hok) as [-> ->].
  rewrite branch_no_double_slash, branch_no_dots, branch_units by done.
  rewrite bool_decide_eq_false_2 by by apply branch_nonempty.
  by apply branch_components_hold.
Qed.

(** * Canonical URLs *)

Section urls.
Context {U : UrlApi}.

Lemma canonicalizeScmHost_Ok value host :
  canonicalizeScmHost value = Ok host -> host = value /\ hostPattern value = true.
Proof. unfold canonicalizeScmHost. intros H. run. subst. done. Qed.

Lemma parseScmHttpsUrl_Ok value canonicalHost url :
  parseScmHttpsUrl value canonicalHost = Ok url ->
  url = value /\ hostPattern canonicalHost = true /\
  exists path, value = text_of_string "https://" ++ canonicalHost ++ 47 :: path /\ includes [47; 47] (47 :: path) = false /\
    forall c, c ∈ path -> 31 < c \/ c < 0.
Proof.
  unfold parseScmHttpsUrl. intros H. run. guards. subst.
  match goal with H : canonicalizeScmHost _ = Ok _ |- _ => apply canonicalizeScmHost_Ok in H as [-> Hp] end.
  split; [done|]. split; [done|].
  match goal with H : startsWith [47] _ = true |- _ => apply startsWith_spec in H as [path Hpath] end.
  match goal with u : Url |- _ => rewrite Hpath in * |-; exists path end.
  split; [by rewrite Hpath|]. split; [done|]. intros c Hc.
  match goal with H : existsb _ _ = false |- _ => rename H into Hex end.
  destruct (decide (31 < c \/ c < 0)) as [|Hn]; [done|]. exfalso.
  assert (existsb (fun c => between 0 31 c || (c =? 127)) ([47] ++ path) = true) as E; [|congruence].
  apply existsb_exists. exists c. rewrite <-list_elem_of_In. split; [by apply list_elem_of_further|].
  unfold between. lia.
Qed.
End urls.

(** * Repository keys *)

Lemma edged_units middle n t c : edged middle n t = true -> c ∈ t -> middle c = true.
Proof.
  unfold edged. destruct t as [|d t]; [done|]. intros [_ Hall]%andb_true_iff Hc.
  rewrite forallb_forall in Hall. apply Hall. by rewrite <-list_elem_of_In.
Qed.

Lemma host_no_slash t : hostPattern t = true -> 47 ∉ t.
Proof.
  unfold hostPattern. intros H Hc. guards. rewrite <-(unsplit_split 46 t) in Hc.
  apply elem_of_unsplit in Hc as [Hc|(part & Hp & Hc)]; [done|].
  match goal with H : forallb _ _ = true |- _ => rewrite forallb_forall in H; rewrite list_elem_of_In in Hp; specialize (H _ Hp); unfold host_label in H;
    apply (edged_units _ _ _ _ H) in Hc end. vm_compute in Hc. discriminate.
Qed.

Lemma part_no_slash s : repositoryPartPattern s = true -> 47 ∉ text_of_string s.
Proof. intros H Hc. apply (edged_units _ _ _ _ H) in Hc. vm_compute in Hc. discriminate. Qed.

Lemma no_slash_app a b c d : 47 ∉ a -> 47 ∉ c -> a ++ 47 :: b = c ++ 47 :: d -> a = c /\ b = d.
Proof.
  intros Ha Hc H. apply (f_equal (split 47)) in H as H'. rewrite !split_app_sep in H' by done.
  injection H' as -> _. split; [done|]. by apply app_inv_head in H as [= ->].
Qed.

(** Two accepted repositories with the same key are the same repository. *)
Lemma schemaRepositoryKey_inj {U : UrlApi} l r :
  ScmRepositoryIdV1Schema l = true -> ScmRepositoryIdV1Schema r = true ->
  schemaRepositoryKey l = schemaRepositoryKey r -> l = r.
Proof.
  destruct l as [[] h o n], r as [[] h' o' n']. unfold ScmRepositoryIdV1Schema, ScmCanonicalHost, schemaRepositoryKey.
  cbn [repo_provider repo_canonicalHost repo_owner repo_name ScmProviderKind_name]. intros Hl Hr H. guards.
  destruct (canonicalizeScmHost (text_of_string h)) eqn:Eh; [|done].
  destruct (canonicalizeScmHost (text_of_string h')) eqn:Eh'; [|done].
  apply canonicalizeScmHost_Ok in Eh as [-> Hh%host_no_slash], Eh' as [-> Hh'%host_no_slash].
  repeat match goal with H : repositoryPartPattern _ = true |- _ => apply part_no_slash in H end.
  apply (f_equal text_of_string) in H. rewrite !text_of_string_app in H. repeat apply app_inv_head in H.
  apply no_slash_app in H as [Hhost H]; [|done..]. apply no_slash_app in H as [Ho Hn]; [|done..].
  apply text_of_string_inj in Hhost, Ho, Hn. by subst.
Qed.
