(* ===== verification/ControlEvents.v ===== *)
(** ControlEvents: the durable events of src/control/events.ts, their schemas as
    decidable predicates on the parsed values, the JSON their digests are
    computed on, their aggregate and their scope.

    The run, task, message, runtime, attempt, steering and scm families are
    modelled. The [observation.*] and [multirepo.*] families, whose payloads
    belong to the observability and multi-repository components, are not
    constructors of [ControlEventPayload]. *)
From S2P Require Import Prelude Text Json Ids ScmTypes.

(** * Enumerations *)

Inductive ControlTaskStatus :=
| ts_open
| ts_claimed
| ts_in_progress
| ts_needs_review
| ts_blocked
| ts_done
| ts_rejected
| ts_escalated.
Definition ControlTaskStatus_name (x : ControlTaskStatus) : string :=
  match x with
  | ts_open => "open"
  | ts_claimed => "claimed"
  | ts_in_progress => "in-progress"
  | ts_needs_review => "needs-review"
  | ts_blocked => "blocked"
  | ts_done => "done"
  | ts_rejected => "rejected"
  | ts_escalated => "escalated"
  end.
#[export] Instance ControlTaskStatus_eq_dec : EqDecision ControlTaskStatus. Proof. solve_decision. Defined.

Inductive LoopPhase :=
| phase_init
| phase_verify_preflight
| phase_dispatch
| phase_review
| phase_post_check
| phase_stopped
| phase_cancelled
| phase_complete.
Definition LoopPhase_name (x : LoopPhase) : string :=
  match x with
  | phase_init => "init"
  | phase_verify_preflight => "verify-preflight"
  | phase_dispatch => "dispatch"
  | phase_review => "review"
  | phase_post_check => "post-check"
  | phase_stopped => "stopped"
  | phase_cancelled => "cancelled"
  | phase_complete => "complete"
  end.
#[export] Instance LoopPhase_eq_dec : EqDecision LoopPhase. Proof. solve_decision. Defined.

Inductive LoopStatus :=
| loop_running
| loop_planned
| loop_blocked
| loop_done
| loop_unverified
| loop_stopped
| loop_cancelled.
Definition LoopStatus_name (x : LoopStatus) : string :=
  match x with
  | loop_running => "running"
  | loop_planned => "planned"
  | loop_blocked => "blocked"
  | loop_done => "done"
  | loop_unverified => "unverified"
  | loop_stopped => "stopped"
  | loop_cancelled => "cancelled"
  end.
#[export] Instance LoopStatus_eq_dec : EqDecision LoopStatus. Proof. solve_decision. Defined.

Inductive RuntimeObservation :=
| obs_available
| obs_waiting_input
| obs_blocked
| obs_exited
| obs_probe_failed.
Definition RuntimeObservation_name (x : RuntimeObservation) : string :=
  match x with
  | obs_available => "available"
  | obs_waiting_input => "waiting_input"
  | obs_blocked => "blocked"
  | obs_exited => "exited"
  | obs_probe_failed => "probe_failed"
  end.
#[export] Instance RuntimeObservation_eq_dec : EqDecision RuntimeObservation. Proof. solve_decision. Defined.

Inductive AttemptOutcome :=
| outcome_succeeded
| outcome_failed
| outcome_cancelled
| outcome_uncertain.
Definition AttemptOutcome_name (x : AttemptOutcome) : string :=
  match x with
  | outcome_succeeded => "succeeded"
  | outcome_failed => "failed"
  | outcome_cancelled => "cancelled"
  | outcome_uncertain => "uncertain"
  end.
#[export] Instance AttemptOutcome_eq_dec : EqDecision AttemptOutcome. Proof. solve_decision. Defined.

Inductive AbandonReason :=
| abandon_OPERATOR_ABANDONED
| abandon_VERIFIED_NEVER_STARTED
| abandon_ARTIFACT_UNRECOVERABLE.
Definition AbandonReason_name (x : AbandonReason) : string :=
  match x with
  | abandon_OPERATOR_ABANDONED => "OPERATOR_ABANDONED"
  | abandon_VERIFIED_NEVER_STARTED => "VERIFIED_NEVER_STARTED"
  | abandon_ARTIFACT_UNRECOVERABLE => "ARTIFACT_UNRECOVERABLE"
  end.
#[export] Instance AbandonReason_eq_dec : EqDecision AbandonReason. Proof. solve_decision. Defined.

Inductive SteeringCommandKind :=
| kind_steer_next_boundary.
Definition SteeringCommandKind_name (x : SteeringCommandKind) : string :=
  match x with
  | kind_steer_next_boundary => "steer_next_boundary"
  end.
#[export] Instance SteeringCommandKind_eq_dec : EqDecision SteeringCommandKind. Proof. solve_decision. Defined.

Inductive SteeringSourceKind :=
| source_operator
| source_review_gate
| source_verifier
| source_control_plane.
Definition SteeringSourceKind_name (x : SteeringSourceKind) : string :=
  match x with
  | source_operator => "operator"
  | source_review_gate => "review_gate"
  | source_verifier => "verifier"
  | source_control_plane => "control_plane"
  end.
#[export] Instance SteeringSourceKind_eq_dec : EqDecision SteeringSourceKind. Proof. solve_decision. Defined.

Inductive ActivityState :=
| act_idle
| act_waiting_input
| act_dispatching
| act_active
| act_settling
| act_blocked
| act_exited.
Definition ActivityState_name (x : ActivityState) : string :=
  match x with
  | act_idle => "idle"
  | act_waiting_input => "waiting_input"
  | act_dispatching => "dispatching"
  | act_active => "active"
  | act_settling => "settling"
  | act_blocked => "blocked"
  | act_exited => "exited"
  end.
#[export] Instance ActivityState_eq_dec : EqDecision ActivityState. Proof. solve_decision. Defined.

(** [SteeringActivityState | "indeterminate"] *)
Inductive ObservedActivity :=
| observed (a : ActivityState)
| indeterminate.
Definition ObservedActivity_name (x : ObservedActivity) : string :=
  match x with observed a => ActivityState_name a | indeterminate => "indeterminate" end.
#[export] Instance ObservedActivity_eq_dec : EqDecision ObservedActivity. Proof. solve_decision. Defined.

Inductive SteeringRefusalReasonCode :=
| reason_SESSION_BLOCKED
| reason_SESSION_EXITED
| reason_STALE_GENERATION
| reason_TASK_TERMINAL
| reason_TARGET_MISMATCH
| reason_EXPIRED
| reason_UNSUPPORTED_DELIVERY_MODE
| reason_INVALID_REQUEST
| reason_TASK_TERMINAL_BEFORE_INCLUSION.
Definition SteeringRefusalReasonCode_name (x : SteeringRefusalReasonCode) : string :=
  match x with
  | reason_SESSION_BLOCKED => "SESSION_BLOCKED"
  | reason_SESSION_EXITED => "SESSION_EXITED"
  | reason_STALE_GENERATION => "STALE_GENERATION"
  | reason_TASK_TERMINAL => "TASK_TERMINAL"
  | reason_TARGET_MISMATCH => "TARGET_MISMATCH"
  | reason_EXPIRED => "EXPIRED"
  | reason_UNSUPPORTED_DELIVERY_MODE => "UNSUPPORTED_DELIVERY_MODE"
  | reason_INVALID_REQUEST => "INVALID_REQUEST"
  | reason_TASK_TERMINAL_BEFORE_INCLUSION => "TASK_TERMINAL_BEFORE_INCLUSION"
  end.
#[export] Instance SteeringRefusalReasonCode_eq_dec : EqDecision SteeringRefusalReasonCode. Proof. solve_decision. Defined.

Inductive ScmBucketKind :=
| bucket_pull_request
| bucket_ci
| bucket_review
| bucket_mergeability.
Definition ScmBucketKind_name (x : ScmBucketKind) : string :=
  match x with
  | bucket_pull_request => "pull_request"
  | bucket_ci => "ci"
  | bucket_review => "review"
  | bucket_mergeability => "mergeability"
  end.
#[export] Instance ScmBucketKind_eq_dec : EqDecision ScmBucketKind. Proof. solve_decision. Defined.

Inductive ScmBucketDecision :=
| decide_accept_new
| decide_accept_changed
| decide_accept_refresh
| decide_accept_merged_partial
| decide_preserve
| decide_refuse.
Definition ScmBucketDecision_name (x : ScmBucketDecision) : string :=
  match x with
  | decide_accept_new => "accept_new"
  | decide_accept_changed => "accept_changed"
  | decide_accept_refresh => "accept_refresh"
  | decide_accept_merged_partial => "accept_merged_partial"
  | decide_preserve => "preserve"
  | decide_refuse => "refuse"
  end.
#[export] Instance ScmBucketDecision_eq_dec : EqDecision ScmBucketDecision. Proof. solve_decision. Defined.

Inductive ScmReactionState :=
| react_pending
| react_command_admitted
| react_included
| react_observation_resolved
| react_superseded
| react_refused
| react_failed_retryable.
Definition ScmReactionState_name (x : ScmReactionState) : string :=
  match x with
  | react_pending => "pending"
  | react_command_admitted => "command_admitted"
  | react_included => "included"
  | react_observation_resolved => "observation_resolved"
  | react_superseded => "superseded"
  | react_refused => "refused"
  | react_failed_retryable => "failed_retryable"
  end.
#[export] Instance ScmReactionState_eq_dec : EqDecision ScmReactionState. Proof. solve_decision. Defined.

Inductive ScmReactionFactKind :=
| fact_ci
| fact_review.
Definition ScmReactionFactKind_name (x : ScmReactionFactKind) : string :=
  match x with
  | fact_ci => "ci"
  | fact_review => "review"
  end.
#[export] Instance ScmReactionFactKind_eq_dec : EqDecision ScmReactionFactKind. Proof. solve_decision. Defined.

Inductive ControlActorKind :=
| actor_control_plane
| actor_operator
| actor_agent
| actor_migration
| actor_system
| actor_integration.
Definition ControlActorKind_name (x : ControlActorKind) : string :=
  match x with
  | actor_control_plane => "control-plane"
  | actor_operator => "operator"
  | actor_agent => "agent"
  | actor_migration => "migration"
  | actor_system => "system"
  | actor_integration => "integration"
  end.
#[export] Instance ControlActorKind_eq_dec : EqDecision ControlActorKind. Proof. solve_decision. Defined.

(** * Payloads *)

Record taskCreatedPayload := {
  tc_title : text;
  tc_assignee : string;
  tc_createdBy : string;
  tc_description : text;
  tc_acceptanceCriteria : list text;
  tc_dependsOn : list string;
  tc_priority : Z;
  tc_createdAt : string;
  tc_files : option (list text)
}.
Definition taskCreatedPayload_fields (x : taskCreatedPayload) : list (string * json) :=
  [("title", JString (x.(tc_title)));
   ("assignee", jstr (x.(tc_assignee)));
   ("createdBy", jstr (x.(tc_createdBy)));
   ("description", JString (x.(tc_description)));
   ("acceptanceCriteria", (jlist JString) (x.(tc_acceptanceCriteria)));
   ("dependsOn", (jlist jstr) (x.(tc_dependsOn)));
   ("priority", jnum (x.(tc_priority)));
   ("createdAt", jstr (x.(tc_createdAt)));
   ("files", (jopt (jlist JString)) (x.(tc_files)))].
Definition taskCreatedPayload_json (x : taskCreatedPayload) : json := jobj (taskCreatedPayload_fields x).

Record taskStatusPayload := {
  tsp_role : string;
  tsp_status : ControlTaskStatus;
  tsp_summary : option text
}.
Definition taskStatusPayload_fields (x : taskStatusPayload) : list (string * json) :=
  [("role", jstr (x.(tsp_role)));
   ("status", (fun x => jstr (ControlTaskStatus_name x)) (x.(tsp_status)));
   ("summary", (jopt JString) (x.(tsp_summary)))].
Definition taskStatusPayload_json (x : taskStatusPayload) : json := jobj (taskStatusPayload_fields x).

Record messagePayload := {
  mp_messageId : string;
  mp_from : string;
  mp_to : string;
  mp_body : text
}.
Definition messagePayload_fields (x : messagePayload) : list (string * json) :=
  [("messageId", jstr (x.(mp_messageId)));
   ("from", jstr (x.(mp_from)));
   ("to", jstr (x.(mp_to)));
   ("body", JString (x.(mp_body)))].
Definition messagePayload_json (x : messagePayload) : json := jobj (messagePayload_fields x).

Record runStartedPayload := {
  rsp_startedBy : string;
  rsp_goal : option text;
  rsp_configDigest : option string
}.
Definition runStartedPayload_fields (x : runStartedPayload) : list (string * json) :=
  [("startedBy", jstr (x.(rsp_startedBy)));
   ("goal", (jopt JString) (x.(rsp_goal)));
   ("configDigest", (jopt jstr) (x.(rsp_configDigest)))].
Definition runStartedPayload_json (x : runStartedPayload) : json := jobj (runStartedPayload_fields x).

Record runCompletedPayload := {
  rcp_summary : option text
}.
Definition runCompletedPayload_fields (x : runCompletedPayload) : list (string * json) :=
  [("summary", (jopt JString) (x.(rcp_summary)))].
Definition runCompletedPayload_json (x : runCompletedPayload) : json := jobj (runCompletedPayload_fields x).

Record runFailedPayload := {
  rfp_reasonCode : string;
  rfp_summary : option text
}.
Definition runFailedPayload_fields (x : runFailedPayload) : list (string * json) :=
  [("reasonCode", jstr (x.(rfp_reasonCode)));
   ("summary", (jopt JString) (x.(rfp_summary)))].
Definition runFailedPayload_json (x : runFailedPayload) : json := jobj (runFailedPayload_fields x).

Record runCancelledPayload := {
  rcap_cancelledBy : string;
  rcap_reason : option text
}.
Definition runCancelledPayload_fields (x : runCancelledPayload) : list (string * json) :=
  [("cancelledBy", jstr (x.(rcap_cancelledBy)));
   ("reason", (jopt JString) (x.(rcap_reason)))].
Definition runCancelledPayload_json (x : runCancelledPayload) : json := jobj (runCancelledPayload_fields x).

(** [runCheckpointedPayload], stored as the run's [LoopCheckpointFact]. *)
Record LoopCheckpointFact := {
  cp_project : string;
  cp_phase : LoopPhase;
  cp_status : LoopStatus;
  cp_iteration : Z;
  cp_dispatched : Z;
  cp_accepted : Z;
  cp_rejected : Z;
  cp_escalations : Z;
  cp_repeatFailures : Z;
  cp_unknownCostCalls : Z;
  cp_runBranch : option text;
  cp_lastGreenCommit : option text;
  cp_lastFailureSignature : option text;
  cp_lastFailureSummary : option text;
  cp_lastStopReason : option text;
  cp_verifyFingerprint : option text;
  cp_startedAt : string;
  cp_updatedAt : string
}.
Definition LoopCheckpointFact_fields (x : LoopCheckpointFact) : list (string * json) :=
  [("project", jstr (x.(cp_project)));
   ("phase", (fun x => jstr (LoopPhase_name x)) (x.(cp_phase)));
   ("status", (fun x => jstr (LoopStatus_name x)) (x.(cp_status)));
   ("iteration", jnum (x.(cp_iteration)));
   ("dispatched", jnum (x.(cp_dispatched)));
   ("accepted", jnum (x.(cp_accepted)));
   ("rejected", jnum (x.(cp_rejected)));
   ("escalations", jnum (x.(cp_escalations)));
   ("repeatFailures", jnum (x.(cp_repeatFailures)));
   ("unknownCostCalls", jnum (x.(cp_unknownCostCalls)));
   ("runBranch", (jopt JString) (x.(cp_runBranch)));
   ("lastGreenCommit", (jopt JString) (x.(cp_lastGreenCommit)));
   ("lastFailureSignature", (jopt JString) (x.(cp_lastFailureSignature)));
   ("lastFailureSummary", (jopt JString) (x.(cp_lastFailureSummary)));
   ("lastStopReason", (jopt JString) (x.(cp_lastStopReason)));
   ("verifyFingerprint", (jopt JString) (x.(cp_verifyFingerprint)));
   ("startedAt", jstr (x.(cp_startedAt)));
   ("updatedAt", jstr (x.(cp_updatedAt)))].
Definition LoopCheckpointFact_json (x : LoopCheckpointFact) : json := jobj (LoopCheckpointFact_fields x).

Record runtimePayload := {
  rp_sessionId : string;
  rp_sessionGeneration : Z;
  rp_observation : RuntimeObservation;
  rp_launchId : option string;
  rp_reason : option text
}.
Definition runtimePayload_fields (x : runtimePayload) : list (string * json) :=
  [("sessionId", jstr (x.(rp_sessionId)));
   ("sessionGeneration", jnum (x.(rp_sessionGeneration)));
   ("observation", (fun x => jstr (RuntimeObservation_name x)) (x.(rp_observation)));
   ("launchId", (jopt jstr) (x.(rp_launchId)));
   ("reason", (jopt JString) (x.(rp_reason)))].
Definition runtimePayload_json (x : runtimePayload) : json := jobj (runtimePayload_fields x).

Record attemptPreparedPayload := {
  app_attemptId : string;
  app_attemptGeneration : Z;
  app_sessionId : string;
  app_sessionGeneration : Z;
  app_artifactLocator : string;
  app_promptSha256 : string;
  app_promptBytes : Z;
  app_rendererVersion : Z;
  app_captureCutoffSeq : Z;
  app_steeringCommandIds : list string
}.
Definition attemptPreparedPayload_fields (x : attemptPreparedPayload) : list (string * json) :=
  [("attemptId", jstr (x.(app_attemptId)));
   ("attemptGeneration", jnum (x.(app_attemptGeneration)));
   ("sessionId", jstr (x.(app_sessionId)));
   ("sessionGeneration", jnum (x.(app_sessionGeneration)));
   ("artifactLocator", jstr (x.(app_artifactLocator)));
   ("promptSha256", jstr (x.(app_promptSha256)));
   ("promptBytes", jnum (x.(app_promptBytes)));
   ("rendererVersion", jnum (x.(app_rendererVersion)));
   ("captureCutoffSeq", jnum (x.(app_captureCutoffSeq)));
   ("steeringCommandIds", (jlist jstr) (x.(app_steeringCommandIds)))].
Definition attemptPreparedPayload_json (x : attemptPreparedPayload) : json := jobj (attemptPreparedPayload_fields x).

Record attemptLaunchPlannedPayload := {
  alp_attemptId : string;
  alp_attemptGeneration : Z;
  alp_sessionId : string;
  alp_sessionGeneration : Z;
  alp_launchId : string
}.
Definition attemptLaunchPlannedPayload_fields (x : attemptLaunchPlannedPayload) : list (string * json) :=
  [("attemptId", jstr (x.(alp_attemptId)));
   ("attemptGeneration", jnum (x.(alp_attemptGeneration)));
   ("sessionId", jstr (x.(alp_sessionId)));
   ("sessionGeneration", jnum (x.(alp_sessionGeneration)));
   ("launchId", jstr (x.(alp_launchId)))].
Definition attemptLaunchPlannedPayload_json (x : attemptLaunchPlannedPayload) : json := jobj (attemptLaunchPlannedPayload_fields x).

Record attemptStartedPayload := {
  asp_attemptId : string;
  asp_attemptGeneration : Z;
  asp_sessionId : string;
  asp_sessionGeneration : Z;
  asp_launchId : string;
  asp_pid : Z;
  asp_processStartToken : string
}.
Definition attemptStartedPayload_fields (x : attemptStartedPayload) : list (string * json) :=
  [("attemptId", jstr (x.(asp_attemptId)));
   ("attemptGeneration", jnum (x.(asp_attemptGeneration)));
   ("sessionId", jstr (x.(asp_sessionId)));
   ("sessionGeneration", jnum (x.(asp_sessionGeneration)));
   ("launchId", jstr (x.(asp_launchId)));
   ("pid", jnum (x.(asp_pid)));
   ("processStartToken", jstr (x.(asp_processStartToken)))].
Definition attemptStartedPayload_json (x : attemptStartedPayload) : json := jobj (attemptStartedPayload_fields x).

Record attemptExitedPayload := {
  aep_attemptId : string;
  aep_attemptGeneration : Z;
  aep_sessionId : string;
  aep_sessionGeneration : Z;
  aep_outcome : AttemptOutcome;
  aep_exitCode : option Z;
  aep_summary : option text
}.
Definition attemptExitedPayload_fields (x : attemptExitedPayload) : list (string * json) :=
  [("attemptId", jstr (x.(aep_attemptId)));
   ("attemptGeneration", jnum (x.(aep_attemptGeneration)));
   ("sessionId", jstr (x.(aep_sessionId)));
   ("sessionGeneration", jnum (x.(aep_sessionGeneration)));
   ("outcome", (fun x => jstr (AttemptOutcome_name x)) (x.(aep_outcome)));
   ("exitCode", (jopt jnum) (x.(aep_exitCode)));
   ("summary", (jopt JString) (x.(aep_summary)))].
Definition attemptExitedPayload_json (x : attemptExitedPayload) : json := jobj (attemptExitedPayload_fields x).

Record attemptAbandonedPayload := {
  aap_attemptId : string;
  aap_attemptGeneration : Z;
  aap_sessionId : string;
  aap_sessionGeneration : Z;
  aap_reasonCode : AbandonReason;
  aap_summary : option text
}.
Definition attemptAbandonedPayload_fields (x : attemptAbandonedPayload) : list (string * json) :=
  [("attemptId", jstr (x.(aap_attemptId)));
   ("attemptGeneration", jnum (x.(aap_attemptGeneration)));
   ("sessionId", jstr (x.(aap_sessionId)));
   ("sessionGeneration", jnum (x.(aap_sessionGeneration)));
   ("reasonCode", (fun x => jstr (AbandonReason_name x)) (x.(aap_reasonCode)));
   ("summary", (jopt JString) (x.(aap_summary)))].
Definition attemptAbandonedPayload_json (x : attemptAbandonedPayload) : json := jobj (attemptAbandonedPayload_fields x).

Record steeringAdmittedPayload := {
  sap_commandId : string;
  sap_sessionId : string;
  sap_sessionGeneration : Z;
  sap_notBeforeAttemptGeneration : Z;
  sap_kind : SteeringCommandKind;
  sap_sourceKind : SteeringSourceKind;
  sap_parentPrincipal : string;
  sap_evidenceRefs : list string;
  sap_body : text;
  sap_bodySha256 : string;
  sap_createdAt : string;
  sap_expiresAt : option string;
  sap_supersedesCommandId : option string
}.
Definition steeringAdmittedPayload_fields (x : steeringAdmittedPayload) : list (string * json) :=
  [("commandId", jstr (x.(sap_commandId)));
   ("sessionId", jstr (x.(sap_sessionId)));
   ("sessionGeneration", jnum (x.(sap_sessionGeneration)));
   ("notBeforeAttemptGeneration", jnum (x.(sap_notBeforeAttemptGeneration)));
   ("kind", (fun x => jstr (SteeringCommandKind_name x)) (x.(sap_kind)));
   ("sourceKind", (fun x => jstr (SteeringSourceKind_name x)) (x.(sap_sourceKind)));
   ("parentPrincipal", jstr (x.(sap_parentPrincipal)));
   ("evidenceRefs", (jlist jstr) (x.(sap_evidenceRefs)));
   ("body", JString (x.(sap_body)));
   ("bodySha256", jstr (x.(sap_bodySha256)));
   ("createdAt", jstr (x.(sap_createdAt)));
   ("expiresAt", (jopt jstr) (x.(sap_expiresAt)));
   ("supersedesCommandId", (jopt jstr) (x.(sap_supersedesCommandId)))].
Definition steeringAdmittedPayload_json (x : steeringAdmittedPayload) : json := jobj (steeringAdmittedPayload_fields x).

Record steeringRefusedPayload := {
  srp_commandId : string;
  srp_sessionId : string;
  srp_sessionGeneration : Z;
  srp_bodySha256 : string;
  srp_requestSemanticDigest : string;
  srp_observedSeq : Z;
  srp_observedActivity : ObservedActivity;
  srp_reasonCode : SteeringRefusalReasonCode
}.
Definition steeringRefusedPayload_fields (x : steeringRefusedPayload) : list (string * json) :=
  [("commandId", jstr (x.(srp_commandId)));
   ("sessionId", jstr (x.(srp_sessionId)));
   ("sessionGeneration", jnum (x.(srp_sessionGeneration)));
   ("bodySha256", jstr (x.(srp_bodySha256)));
   ("requestSemanticDigest", jstr (x.(srp_requestSemanticDigest)));
   ("observedSeq", jnum (x.(srp_observedSeq)));
   ("observedActivity", (fun x => jstr (ObservedActivity_name x)) (x.(srp_observedActivity)));
   ("reasonCode", (fun x => jstr (SteeringRefusalReasonCode_name x)) (x.(srp_reasonCode)))].
Definition steeringRefusedPayload_json (x : steeringRefusedPayload) : json := jobj (steeringRefusedPayload_fields x).

(** The literal fields [observedActivity: "exited"] and [reasonCode: "TASK_TERMINAL_BEFORE_INCLUSION"] are implicit. *)
Record steeringTerminalRefusedPayload := {
  strp_commandId : string;
  strp_sessionId : string;
  strp_sessionGeneration : Z;
  strp_requestSemanticDigest : string;
  strp_observedSeq : Z
}.
Definition steeringTerminalRefusedPayload_fields (x : steeringTerminalRefusedPayload) : list (string * json) :=
  [("observedActivity", jstr "exited");
   ("reasonCode", jstr "TASK_TERMINAL_BEFORE_INCLUSION");
   ("commandId", jstr (x.(strp_commandId)));
   ("sessionId", jstr (x.(strp_sessionId)));
   ("sessionGeneration", jnum (x.(strp_sessionGeneration)));
   ("requestSemanticDigest", jstr (x.(strp_requestSemanticDigest)));
   ("observedSeq", jnum (x.(strp_observedSeq)))].
Definition steeringTerminalRefusedPayload_json (x : steeringTerminalRefusedPayload) : json := jobj (steeringTerminalRefusedPayload_fields x).

Record steeringIncludedPayload := {
  sip_commandId : string;
  sip_sessionId : string;
  sip_sessionGeneration : Z;
  sip_attemptId : string;
  sip_attemptGeneration : Z;
  sip_promptSha256 : string
}.
Definition steeringIncludedPayload_fields (x : steeringIncludedPayload) : list (string * json) :=
  [("commandId", jstr (x.(sip_commandId)));
   ("sessionId", jstr (x.(sip_sessionId)));
   ("sessionGeneration", jnum (x.(sip_sessionGeneration)));
   ("attemptId", jstr (x.(sip_attemptId)));
   ("attemptGeneration", jnum (x.(sip_attemptGeneration)));
   ("promptSha256", jstr (x.(sip_promptSha256)))].
Definition steeringIncludedPayload_json (x : steeringIncludedPayload) : json := jobj (steeringIncludedPayload_fields x).

Record steeringWithdrawnPayload := {
  swp_commandId : string;
  swp_sessionId : string;
  swp_sessionGeneration : Z;
  swp_reason : option text
}.
Definition steeringWithdrawnPayload_fields (x : steeringWithdrawnPayload) : list (string * json) :=
  [("commandId", jstr (x.(swp_commandId)));
   ("sessionId", jstr (x.(swp_sessionId)));
   ("sessionGeneration", jnum (x.(swp_sessionGeneration)));
   ("reason", (jopt JString) (x.(swp_reason)))].
Definition steeringWithdrawnPayload_json (x : steeringWithdrawnPayload) : json := jobj (steeringWithdrawnPayload_fields x).

Record steeringSupersededPayload := {
  ssp_commandId : string;
  ssp_sessionId : string;
  ssp_sessionGeneration : Z;
  ssp_byCommandId : string
}.
Definition steeringSupersededPayload_fields (x : steeringSupersededPayload) : list (string * json) :=
  [("commandId", jstr (x.(ssp_commandId)));
   ("sessionId", jstr (x.(ssp_sessionId)));
   ("sessionGeneration", jnum (x.(ssp_sessionGeneration)));
   ("byCommandId", jstr (x.(ssp_byCommandId)))].
Definition steeringSupersededPayload_json (x : steeringSupersededPayload) : json := jobj (steeringSupersededPayload_fields x).

Record steeringExpiredPayload := {
  sep_commandId : string;
  sep_sessionId : string;
  sep_sessionGeneration : Z
}.
Definition steeringExpiredPayload_fields (x : steeringExpiredPayload) : list (string * json) :=
  [("commandId", jstr (x.(sep_commandId)));
   ("sessionId", jstr (x.(sep_sessionId)));
   ("sessionGeneration", jnum (x.(sep_sessionGeneration)))].
Definition steeringExpiredPayload_json (x : steeringExpiredPayload) : json := jobj (steeringExpiredPayload_fields x).

Record taskReopenedPayload := {
  trp_newGeneration : Z;
  trp_reason : option text
}.
Definition taskReopenedPayload_fields (x : taskReopenedPayload) : list (string * json) :=
  [("newGeneration", jnum (x.(trp_newGeneration)));
   ("reason", (jopt JString) (x.(trp_reason)))].
Definition taskReopenedPayload_json (x : taskReopenedPayload) : json := jobj (taskReopenedPayload_fields x).

(** A bucket of any kind; the payload schema makes the kind of the payload the
    kind of its bucket, which is the constructor here. *)
Inductive scmAnyBucket :=
| scmPullRequestBucket (b : ScmFactBucketV1 ScmPullRequestFactV1)
| scmCiBucket (b : ScmFactBucketV1 ScmCiFactV1)
| scmReviewBucket (b : ScmFactBucketV1 ScmReviewFactV1)
| scmMergeabilityBucket (b : ScmFactBucketV1 ScmMergeabilityFactV1).
Definition scmAnyBucket_kind (b : scmAnyBucket) : ScmBucketKind :=
  match b with
  | scmPullRequestBucket _ => bucket_pull_request
  | scmCiBucket _ => bucket_ci
  | scmReviewBucket _ => bucket_review
  | scmMergeabilityBucket _ => bucket_mergeability
  end.
Definition scmAnyBucket_meta (b : scmAnyBucket) : ScmBucketMetaV1 :=
  match b with
  | scmPullRequestBucket b => b.(bucket_meta)
  | scmCiBucket b => b.(bucket_meta)
  | scmReviewBucket b => b.(bucket_meta)
  | scmMergeabilityBucket b => b.(bucket_meta)
  end.
Definition scmAnyBucket_json (b : scmAnyBucket) : json :=
  match b with
  | scmPullRequestBucket b => ScmFactBucketV1_json ScmPullRequestFactV1_json b
  | scmCiBucket b => ScmFactBucketV1_json ScmCiFactV1_json b
  | scmReviewBucket b => ScmFactBucketV1_json ScmReviewFactV1_json b
  | scmMergeabilityBucket b => ScmFactBucketV1_json ScmMergeabilityFactV1_json b
  end.

Record scmPublicationRecordedPayload := {
  spr_publication : ScmPublicationIntentV1
}.
Definition scmPublicationRecordedPayload_fields (x : scmPublicationRecordedPayload) : list (string * json) :=
  [("publication", ScmPublicationIntentV1_json (x.(spr_publication)))].
Definition scmPublicationRecordedPayload_json (x : scmPublicationRecordedPayload) : json := jobj (scmPublicationRecordedPayload_fields x).

Record scmPublicationStateChangedPayload := {
  spc_publicationId : string;
  spc_publicationGeneration : Z;
  spc_fromState : ScmPublicationState;
  spc_toState : ScmPublicationState;
  spc_observedRemoteOid : option (option string);
  spc_pullRequest : option (ScmPullRequestFactV1);
  spc_reasonCode : option string
}.
Definition scmPublicationStateChangedPayload_fields (x : scmPublicationStateChangedPayload) : list (string * json) :=
  [("publicationId", jstr (x.(spc_publicationId)));
   ("publicationGeneration", jnum (x.(spc_publicationGeneration)));
   ("fromState", (fun x => jstr (ScmPublicationState_name x)) (x.(spc_fromState)));
   ("toState", (fun x => jstr (ScmPublicationState_name x)) (x.(spc_toState)));
   ("observedRemoteOid", (jopt (jnull jstr)) (x.(spc_observedRemoteOid)));
   ("pullRequest", (jopt ScmPullRequestFactV1_json) (x.(spc_pullRequest)));
   ("reasonCode", (jopt jstr) (x.(spc_reasonCode)))].
Definition scmPublicationStateChangedPayload_json (x : scmPublicationStateChangedPayload) : json := jobj (scmPublicationStateChangedPayload_fields x).

Record scmPollStartedPayload := {
  sps_pollId : string;
  sps_pollAttempt : Z;
  sps_publicationId : string;
  sps_publicationGeneration : Z;
  sps_sessionId : string;
  sps_sessionGeneration : Z;
  sps_expectedHeadSha : string;
  sps_pullRequest : ScmPullRequestIdentityV1;
  sps_guards : ScmObservationGuardsV1;
  sps_forceFullRefresh : bool;
  sps_limits : ScmProviderLimitsV1
}.
Definition scmPollStartedPayload_fields (x : scmPollStartedPayload) : list (string * json) :=
  [("pollId", jstr (x.(sps_pollId)));
   ("pollAttempt", jnum (x.(sps_pollAttempt)));
   ("publicationId", jstr (x.(sps_publicationId)));
   ("publicationGeneration", jnum (x.(sps_publicationGeneration)));
   ("sessionId", jstr (x.(sps_sessionId)));
   ("sessionGeneration", jnum (x.(sps_sessionGeneration)));
   ("expectedHeadSha", jstr (x.(sps_expectedHeadSha)));
   ("pullRequest", ScmPullRequestIdentityV1_json (x.(sps_pullRequest)));
   ("guards", ScmObservationGuardsV1_json (x.(sps_guards)));
   ("forceFullRefresh", JBoolean (x.(sps_forceFullRefresh)));
   ("limits", ScmProviderLimitsV1_json (x.(sps_limits)))].
Definition scmPollStartedPayload_json (x : scmPollStartedPayload) : json := jobj (scmPollStartedPayload_fields x).

Record ScmPollBucketOutcomeFact := {
  outcome_kind : ScmBucketKind;
  outcome_decision : ScmBucketDecision;
  outcome_semanticHash : option string;
  outcome_reasonCode : option string;
  outcome_failure : option (ScmProviderFailureV1)
}.
Definition ScmPollBucketOutcomeFact_fields (x : ScmPollBucketOutcomeFact) : list (string * json) :=
  [("kind", (fun x => jstr (ScmBucketKind_name x)) (x.(outcome_kind)));
   ("decision", (fun x => jstr (ScmBucketDecision_name x)) (x.(outcome_decision)));
   ("semanticHash", (jopt jstr) (x.(outcome_semanticHash)));
   ("reasonCode", (jopt jstr) (x.(outcome_reasonCode)));
   ("failure", (jopt ScmProviderFailureV1_json) (x.(outcome_failure)))].
Definition ScmPollBucketOutcomeFact_json (x : ScmPollBucketOutcomeFact) : json := jobj (ScmPollBucketOutcomeFact_fields x).

Record scmPollCompletedPayload := {
  spcm_pollId : string;
  spcm_pollAttempt : Z;
  spcm_publicationId : string;
  spcm_publicationGeneration : Z;
  spcm_expectedHeadSha : string;
  spcm_requestCount : Z;
  spcm_decodedBytes : Z;
  spcm_bucketOutcomes : list (ScmPollBucketOutcomeFact)
}.
Definition scmPollCompletedPayload_fields (x : scmPollCompletedPayload) : list (string * json) :=
  [("pollId", jstr (x.(spcm_pollId)));
   ("pollAttempt", jnum (x.(spcm_pollAttempt)));
   ("publicationId", jstr (x.(spcm_publicationId)));
   ("publicationGeneration", jnum (x.(spcm_publicationGeneration)));
   ("expectedHeadSha", jstr (x.(spcm_expectedHeadSha)));
   ("requestCount", jnum (x.(spcm_requestCount)));
   ("decodedBytes", jnum (x.(spcm_decodedBytes)));
   ("bucketOutcomes", (jlist ScmPollBucketOutcomeFact_json) (x.(spcm_bucketOutcomes)))].
Definition scmPollCompletedPayload_json (x : scmPollCompletedPayload) : json := jobj (scmPollCompletedPayload_fields x).

Record scmPollFailedPayload := {
  spf_pollId : string;
  spf_pollAttempt : Z;
  spf_publicationId : string;
  spf_publicationGeneration : Z;
  spf_expectedHeadSha : string;
  spf_failure : ScmProviderFailureV1
}.
Definition scmPollFailedPayload_fields (x : scmPollFailedPayload) : list (string * json) :=
  [("pollId", jstr (x.(spf_pollId)));
   ("pollAttempt", jnum (x.(spf_pollAttempt)));
   ("publicationId", jstr (x.(spf_publicationId)));
   ("publicationGeneration", jnum (x.(spf_publicationGeneration)));
   ("expectedHeadSha", jstr (x.(spf_expectedHeadSha)));
   ("failure", ScmProviderFailureV1_json (x.(spf_failure)))].
Definition scmPollFailedPayload_json (x : scmPollFailedPayload) : json := jobj (scmPollFailedPayload_fields x).

Record scmBucketAcceptedPayload := {
  sba_pollId : string;
  sba_publicationId : string;
  sba_publicationGeneration : Z;
  sba_decision : ScmBucketDecision;
  sba_previousSemanticHash : option string;
  sba_bucket : scmAnyBucket
}.
Definition sba_kind (x : scmBucketAcceptedPayload) : ScmBucketKind := scmAnyBucket_kind x.(sba_bucket).
Definition scmBucketAcceptedPayload_json (x : scmBucketAcceptedPayload) : json :=
  jobj [("pollId", jstr x.(sba_pollId));
        ("publicationId", jstr x.(sba_publicationId));
        ("publicationGeneration", jnum x.(sba_publicationGeneration));
        ("kind", jstr (ScmBucketKind_name (sba_kind x)));
        ("decision", jstr (ScmBucketDecision_name x.(sba_decision)));
        ("previousSemanticHash", jopt jstr x.(sba_previousSemanticHash));
        ("bucket", scmAnyBucket_json x.(sba_bucket))].

Record scmReactionCreatedPayload := {
  src_reactionKey : string;
  src_publicationId : string;
  src_publicationGeneration : Z;
  src_headSha : string;
  src_factKind : ScmReactionFactKind;
  src_evidenceRefs : list string;
  src_commandId : string;
  src_sessionId : string;
  src_sessionGeneration : Z;
  src_notBeforeAttemptGeneration : Z;
  src_supersedesCommandId : option string;
  src_previewSha256 : string;
  src_preview : text
}.
Definition scmReactionCreatedPayload_fields (x : scmReactionCreatedPayload) : list (string * json) :=
  [("reactionKey", jstr (x.(src_reactionKey)));
   ("publicationId", jstr (x.(src_publicationId)));
   ("publicationGeneration", jnum (x.(src_publicationGeneration)));
   ("headSha", jstr (x.(src_headSha)));
   ("factKind", (fun x => jstr (ScmReactionFactKind_name x)) (x.(src_factKind)));
   ("evidenceRefs", (jlist jstr) (x.(src_evidenceRefs)));
   ("commandId", jstr (x.(src_commandId)));
   ("sessionId", jstr (x.(src_sessionId)));
   ("sessionGeneration", jnum (x.(src_sessionGeneration)));
   ("notBeforeAttemptGeneration", jnum (x.(src_notBeforeAttemptGeneration)));
   ("supersedesCommandId", (jopt jstr) (x.(src_supersedesCommandId)));
   ("previewSha256", jstr (x.(src_previewSha256)));
   ("preview", JString (x.(src_preview)))].
Definition scmReactionCreatedPayload_json (x : scmReactionCreatedPayload) : json := jobj (scmReactionCreatedPayload_fields x).

Record scmReactionTransitionedPayload := {
  srt_reactionKey : string;
  srt_reactionVersion : Z;
  srt_fromState : ScmReactionState;
  srt_toState : ScmReactionState;
  srt_commandId : string;
  srt_steeringSeq : option Z;
  srt_reasonCode : option string;
  srt_observationSemanticHash : option string
}.
Definition scmReactionTransitionedPayload_fields (x : scmReactionTransitionedPayload) : list (string * json) :=
  [("reactionKey", jstr (x.(srt_reactionKey)));
   ("reactionVersion", jnum (x.(srt_reactionVersion)));
   ("fromState", (fun x => jstr (ScmReactionState_name x)) (x.(srt_fromState)));
   ("toState", (fun x => jstr (ScmReactionState_name x)) (x.(srt_toState)));
   ("commandId", jstr (x.(srt_commandId)));
   ("steeringSeq", (jopt jnum) (x.(srt_steeringSeq)));
   ("reasonCode", (jopt jstr) (x.(srt_reasonCode)));
   ("observationSemanticHash", (jopt jstr) (x.(srt_observationSemanticHash)))].
Definition scmReactionTransitionedPayload_json (x : scmReactionTransitionedPayload) : json := jobj (scmReactionTransitionedPayload_fields x).

(** * Events *)

Inductive ControlEventPayload :=
| run_started (p : runStartedPayload)
| run_completed (p : runCompletedPayload)
| run_failed (p : runFailedPayload)
| run_cancelled (p : runCancelledPayload)
| run_checkpointed (p : LoopCheckpointFact)
| task_created (p : taskCreatedPayload)
| task_reopened (p : taskReopenedPayload)
| task_status_changed (p : taskStatusPayload)
| message_posted (p : messagePayload)
| runtime_observed (p : runtimePayload)
| attempt_prompt_prepared (p : attemptPreparedPayload)
| attempt_launch_planned (p : attemptLaunchPlannedPayload)
| attempt_started (p : attemptStartedPayload)
| attempt_exited (p : attemptExitedPayload)
| attempt_abandoned (p : attemptAbandonedPayload)
| steering_command_admitted (p : steeringAdmittedPayload)
| steering_command_refused (p : steeringRefusedPayload)
| steering_command_terminal_refused (p : steeringTerminalRefusedPayload)
| steering_command_included (p : steeringIncludedPayload)
| steering_command_withdrawn (p : steeringWithdrawnPayload)
| steering_command_superseded (p : steeringSupersededPayload)
| steering_command_expired (p : steeringExpiredPayload)
| scm_publication_recorded (p : scmPublicationRecordedPayload)
| scm_publication_state_changed (p : scmPublicationStateChangedPayload)
| scm_poll_started (p : scmPollStartedPayload)
| scm_poll_completed (p : scmPollCompletedPayload)
| scm_poll_failed (p : scmPollFailedPayload)
| scm_bucket_accepted (p : scmBucketAcceptedPayload)
| scm_reaction_created (p : scmReactionCreatedPayload)
| scm_reaction_transitioned (p : scmReactionTransitionedPayload).

Definition event_type (b : ControlEventPayload) : string :=
  match b with
  | run_started _ => "run.started"
  | run_completed _ => "run.completed"
  | run_failed _ => "run.failed"
  | run_cancelled _ => "run.cancelled"
  | run_checkpointed _ => "run.checkpointed"
  | task_created _ => "task.created"
  | task_reopened _ => "task.reopened"
  | task_status_changed _ => "task.status_changed"
  | message_posted _ => "message.posted"
  | runtime_observed _ => "runtime.observed"
  | attempt_prompt_prepared _ => "attempt.prompt_prepared"
  | attempt_launch_planned _ => "attempt.launch_planned"
  | attempt_started _ => "attempt.started"
  | attempt_exited _ => "attempt.exited"
  | attempt_abandoned _ => "attempt.abandoned"
  | steering_command_admitted _ => "steering.command_admitted"
  | steering_command_refused _ => "steering.command_refused"
  | steering_command_terminal_refused _ => "steering.command_terminal_refused"
  | steering_command_included _ => "steering.command_included"
  | steering_command_withdrawn _ => "steering.command_withdrawn"
  | steering_command_superseded _ => "steering.command_superseded"
  | steering_command_expired _ => "steering.command_expired"
  | scm_publication_recorded _ => "scm.publication_recorded"
  | scm_publication_state_changed _ => "scm.publication_state_changed"
  | scm_poll_started _ => "scm.poll_started"
  | scm_poll_completed _ => "scm.poll_completed"
  | scm_poll_failed _ => "scm.poll_failed"
  | scm_bucket_accepted _ => "scm.bucket_accepted"
  | scm_reaction_created _ => "scm.reaction_created"
  | scm_reaction_transitioned _ => "scm.reaction_transitioned"
  end.

Definition payload_json (b : ControlEventPayload) : json :=
  match b with
  | run_started p => runStartedPayload_json p
  | run_completed p => runCompletedPayload_json p
  | run_failed p => runFailedPayload_json p
  | run_cancelled p => runCancelledPayload_json p
  | run_checkpointed p => LoopCheckpointFact_json p
  | task_created p => taskCreatedPayload_json p
  | task_reopened p => taskReopenedPayload_json p
  | task_status_changed p => taskStatusPayload_json p
  | message_posted p => messagePayload_json p
  | runtime_observed p => runtimePayload_json p
  | attempt_prompt_prepared p => attemptPreparedPayload_json p
  | attempt_launch_planned p => attemptLaunchPlannedPayload_json p
  | attempt_started p => attemptStartedPayload_json p
  | attempt_exited p => attemptExitedPayload_json p
  | attempt_abandoned p => attemptAbandonedPayload_json p
  | steering_command_admitted p => steeringAdmittedPayload_json p
  | steering_command_refused p => steeringRefusedPayload_json p
  | steering_command_terminal_refused p => steeringTerminalRefusedPayload_json p
  | steering_command_included p => steeringIncludedPayload_json p
  | steering_command_withdrawn p => steeringWithdrawnPayload_json p
  | steering_command_superseded p => steeringSupersededPayload_json p
  | steering_command_expired p => steeringExpiredPayload_json p
  | scm_publication_recorded p => scmPublicationRecordedPayload_json p
  | scm_publication_state_changed p => scmPublicationStateChangedPayload_json p
  | scm_poll_started p => scmPollStartedPayload_json p
  | scm_poll_completed p => scmPollCompletedPayload_json p
  | scm_poll_failed p => scmPollFailedPayload_json p
  | scm_bucket_accepted p => scmBucketAcceptedPayload_json p
  | scm_reaction_created p => scmReactionCreatedPayload_json p
  | scm_reaction_transitioned p => scmReactionTransitionedPayload_json p
  end.

(** [baseShape], the type tag and the payload. *)
Record ControlEvent := {
  ev_eventId : string;
  ev_runId : string;
  ev_runEpoch : string;
  ev_taskId : option string;
  ev_taskGeneration : option Z;
  ev_expectedVersion : Z;
  ev_occurredAt : string;
  ev_actorKind : ControlActorKind;
  ev_actorId : string;
  ev_sourceKind : option string;
  ev_sourceId : option string;
  ev_sourceGeneration : option Z;
  ev_sourceEventId : option string;
  ev_payload : ControlEventPayload
}.
Definition ControlEvent_fields (x : ControlEvent) : list (string * json) :=
  [("schemaVersion", jnum 1);
   ("type", jstr (event_type x.(ev_payload)));
   ("eventId", jstr (x.(ev_eventId)));
   ("runId", jstr (x.(ev_runId)));
   ("runEpoch", jstr (x.(ev_runEpoch)));
   ("taskId", (jnull jstr) (x.(ev_taskId)));
   ("taskGeneration", (jnull jnum) (x.(ev_taskGeneration)));
   ("expectedVersion", jnum (x.(ev_expectedVersion)));
   ("occurredAt", jstr (x.(ev_occurredAt)));
   ("actorKind", (fun x => jstr (ControlActorKind_name x)) (x.(ev_actorKind)));
   ("actorId", jstr (x.(ev_actorId)));
   ("sourceKind", (jnull jstr) (x.(ev_sourceKind)));
   ("sourceId", (jnull jstr) (x.(ev_sourceId)));
   ("sourceGeneration", (jnull jnum) (x.(ev_sourceGeneration)));
   ("sourceEventId", (jnull jstr) (x.(ev_sourceEventId)));
   ("payload", payload_json (x.(ev_payload)))].
Definition ControlEvent_json (x : ControlEvent) : json := jobj (ControlEvent_fields x).

(** An event as the store holds it: the sequence number, the store's own time
    and the two digests are allocated by the store. *)
Record PersistedControlEvent := {
  pe_event : ControlEvent;
  pe_seq : Z;
  pe_recordedAt : string;
  pe_intentDigest : string;
  pe_digest : string
}.
