(* ===== verification/EventSchema.v ===== *)
(** EventSchema: the closed schemas of the control event payloads, the envelope
    with its digest, aggregate and scope, and the check of persisted events
    (src/control/events.ts). *)
From Stdlib Require Import Ascii.
From S2P Require Import Prelude Text Json Ids ScmTypes ScmSchema ControlEvents.

(** * Payload schemas *)

Definition taskCreatedPayload_valid (p : taskCreatedPayload) : bool :=
  between 1 1024 (textlen p.(tc_title)) && boundedId p.(tc_assignee) && boundedId p.(tc_createdBy)
  && (textlen p.(tc_description) <=? 64 * 1024)
  && forallb (fun t => between 1 8192 (textlen t)) p.(tc_acceptanceCriteria)
  && at_most 128 p.(tc_acceptanceCriteria)
  && forallb boundedId p.(tc_dependsOn) && at_most 128 p.(tc_dependsOn)
  && between (-1000000) 1000000 p.(tc_priority) && timestamp p.(tc_createdAt)
  && optional (fun l => forallb (fun t => between 1 4096 (textlen t)) l && at_most 1024 l) p.(tc_files).

Definition taskStatusPayload_valid (p : taskStatusPayload) : bool :=
  boundedId p.(tsp_role) && optional shortText p.(tsp_summary).

Definition messagePayload_valid (p : messagePayload) : bool :=
  boundedId p.(mp_messageId) && boundedId p.(mp_from)
  && (boundedId p.(mp_to) || bool_decide (p.(mp_to) = "*"%string)) && bodyText p.(mp_body).

Definition runStartedPayload_valid (p : runStartedPayload) : bool :=
  boundedId p.(rsp_startedBy) && optional (fun t => between 1 (64 * 1024) (textlen t)) p.(rsp_goal)
  && optional digest p.(rsp_configDigest).

Definition runCompletedPayload_valid (p : runCompletedPayload) : bool :=
  optional shortText p.(rcp_summary).

Definition runFailedPayload_valid (p : runFailedPayload) : bool :=
  boundedId p.(rfp_reasonCode) && optional shortText p.(rfp_summary).

Definition runCancelledPayload_valid (p : runCancelledPayload) : bool :=
  boundedId p.(rcap_cancelledBy) && optional shortText p.(rcap_reason).

Definition runCheckpointedPayload_valid (p : LoopCheckpointFact) : bool :=
  let bounded n t := between 1 n (textlen t) in
  boundedId p.(cp_project)
  && nonNegative p.(cp_iteration) && nonNegative p.(cp_dispatched) && nonNegative p.(cp_accepted)
  && nonNegative p.(cp_rejected) && nonNegative p.(cp_escalations)
  && nonNegative p.(cp_repeatFailures) && nonNegative p.(cp_unknownCostCalls)
  && optional (bounded 4096) p.(cp_runBranch) && optional (bounded 256) p.(cp_lastGreenCommit)
  && optional (bounded 1024) p.(cp_lastFailureSignature)
  && optional (bounded 4096) p.(cp_lastFailureSummary)
  && optional (bounded 4096) p.(cp_lastStopReason)
  && optional (bounded 1024) p.(cp_verifyFingerprint)
  && timestamp p.(cp_startedAt) && timestamp p.(cp_updatedAt).

Definition runtimePayload_valid (p : runtimePayload) : bool :=
  boundedId p.(rp_sessionId) && positive p.(rp_sessionGeneration)
  && optional boundedId p.(rp_launchId) && optional shortText p.(rp_reason).

Definition attemptBase_valid (attemptId : string) (attemptGeneration : Z)
    (sessionId : string) (sessionGeneration : Z) : bool :=
  boundedId attemptId && positive attemptGeneration && boundedId sessionId && positive sessionGeneration.

(** [/^steering\/prompts\/[A-Za-z0-9][A-Za-z0-9._:-]{0,127}\.prompt$/], at most
    256 characters *)
Definition strip_prefix (pre s : string) : option string :=
  if String.prefix pre s then Some (String.substring (String.length pre) (String.length s - String.length pre) s)
  else None.

Definition artifactLocator_valid (s : string) : bool :=
  (strlen s <=? 256) &&
  match strip_prefix "steering/prompts/" s with
  | Some rest =>
      let n := (String.length rest - 7)%nat in
      bool_decide (String.substring n 7 rest = ".prompt"%string)
      && boundedId (String.substring 0 n rest)
  | None => false
  end.

Definition attemptPreparedPayload_valid (p : attemptPreparedPayload) : bool :=
  attemptBase_valid p.(app_attemptId) p.(app_attemptGeneration) p.(app_sessionId) p.(app_sessionGeneration)
  && artifactLocator_valid p.(app_artifactLocator) && digest p.(app_promptSha256)
  && nonNegative p.(app_promptBytes) && (p.(app_promptBytes) <=? 16 * 1024 * 1024)
  && positive p.(app_rendererVersion) && nonNegative p.(app_captureCutoffSeq)
  && forallb boundedId p.(app_steeringCommandIds) && at_most 32 p.(app_steeringCommandIds).

Definition attemptLaunchPlannedPayload_valid (p : attemptLaunchPlannedPayload) : bool :=
  attemptBase_valid p.(alp_attemptId) p.(alp_attemptGeneration) p.(alp_sessionId) p.(alp_sessionGeneration)
  && boundedId p.(alp_launchId).

(** [/^[1-9][0-9]{0,31}$/] *)
Definition processStartToken_valid (s : string) : bool :=
  (strlen s <=? 32) && all_chars is_decimal s && starts_with (fun c => between 49 57 (code c)) s.

Definition attemptStartedPayload_valid (p : attemptStartedPayload) : bool :=
  attemptBase_valid p.(asp_attemptId) p.(asp_attemptGeneration) p.(asp_sessionId) p.(asp_sessionGeneration)
  && boundedId p.(asp_launchId) && positive p.(asp_pid) && processStartToken_valid p.(asp_processStartToken).

Definition attemptExitedPayload_valid (p : attemptExitedPayload) : bool :=
  attemptBase_valid p.(aep_attemptId) p.(aep_attemptGeneration) p.(aep_sessionId) p.(aep_sessionGeneration)
  && optional (between (-1) 255) p.(aep_exitCode) && optional shortText p.(aep_summary).

Definition attemptAbandonedPayload_valid (p : attemptAbandonedPayload) : bool :=
  attemptBase_valid p.(aap_attemptId) p.(aap_attemptGeneration) p.(aap_sessionId) p.(aap_sessionGeneration)
  && optional shortText p.(aap_summary).

Definition steeringTarget_valid (commandId sessionId : string) (sessionGeneration : Z) : bool :=
  boundedId commandId && boundedId sessionId && positive sessionGeneration.

Definition steeringAdmittedPayload_valid (p : steeringAdmittedPayload) : bool :=
  steeringTarget_valid p.(sap_commandId) p.(sap_sessionId) p.(sap_sessionGeneration)
  && positive p.(sap_notBeforeAttemptGeneration) && boundedId p.(sap_parentPrincipal)
  && forallb boundedId p.(sap_evidenceRefs) && at_most 32 p.(sap_evidenceRefs)
  && steeringBodyText p.(sap_body) && digest p.(sap_bodySha256) && timestamp p.(sap_createdAt)
  && optional timestamp p.(sap_expiresAt) && optional boundedId p.(sap_supersedesCommandId).

Definition steeringRefusedPayload_valid (p : steeringRefusedPayload) : bool :=
  steeringTarget_valid p.(srp_commandId) p.(srp_sessionId) p.(srp_sessionGeneration)
  && digest p.(srp_bodySha256) && digest p.(srp_requestSemanticDigest) && nonNegative p.(srp_observedSeq)
  && negb (bool_decide (p.(srp_reasonCode) = reason_TASK_TERMINAL_BEFORE_INCLUSION)).

Definition steeringTerminalRefusedPayload_valid (p : steeringTerminalRefusedPayload) : bool :=
  steeringTarget_valid p.(strp_commandId) p.(strp_sessionId) p.(strp_sessionGeneration)
  && digest p.(strp_requestSemanticDigest) && nonNegative p.(strp_observedSeq).

Definition steeringIncludedPayload_valid (p : steeringIncludedPayload) : bool :=
  steeringTarget_valid p.(sip_commandId) p.(sip_sessionId) p.(sip_sessionGeneration)
  && boundedId p.(sip_attemptId) && positive p.(sip_attemptGeneration) && digest p.(sip_promptSha256).

Definition steeringWithdrawnPayload_valid (p : steeringWithdrawnPayload) : bool :=
  steeringTarget_valid p.(swp_commandId) p.(swp_sessionId) p.(swp_sessionGeneration)
  && optional shortText p.(swp_reason).

Definition steeringSupersededPayload_valid (p : steeringSupersededPayload) : bool :=
  steeringTarget_valid p.(ssp_commandId) p.(ssp_sessionId) p.(ssp_sessionGeneration)
  && boundedId p.(ssp_byCommandId).

Definition steeringExpiredPayload_valid (p : steeringExpiredPayload) : bool :=
  steeringTarget_valid p.(sep_commandId) p.(sep_sessionId) p.(sep_sessionGeneration).

Definition taskReopenedPayload_valid (p : taskReopenedPayload) : bool :=
  positive p.(trp_newGeneration) && optional shortText p.(trp_reason).

(** [baseShape] and the all-or-none refinement on the external source. *)
Definition isSome {A} (o : option A) : bool := match o with Some _ => true | None => false end.

Definition baseShape_valid (e : ControlEvent) : bool :=
  boundedId e.(ev_eventId) && boundedId e.(ev_runId) && boundedId e.(ev_runEpoch)
  && optional boundedId e.(ev_taskId) && optional positive e.(ev_taskGeneration)
  && nonNegative e.(ev_expectedVersion) && timestamp e.(ev_occurredAt) && boundedId e.(ev_actorId)
  && optional boundedId e.(ev_sourceKind) && optional boundedId e.(ev_sourceId)
  && optional positive e.(ev_sourceGeneration) && optional boundedId e.(ev_sourceEventId)
  && (let present := [isSome e.(ev_sourceKind); isSome e.(ev_sourceId);
                      isSome e.(ev_sourceGeneration); isSome e.(ev_sourceEventId)] in
      forallb id present || forallb negb present).

(** * Aggregates *)

Inductive AggregateKind := agg_run | agg_task | agg_session.
Definition AggregateKind_name (k : AggregateKind) : string :=
  match k with agg_run => "run" | agg_task => "task" | agg_session => "session" end.
#[export] Instance AggregateKind_eq_dec : EqDecision AggregateKind. Proof. solve_decision. Defined.

Definition aggregate_key (kind : AggregateKind) (id : string) (generation : Z) : string :=
  AggregateKind_name kind +:+ ":" +:+ id +:+ ":" +:+ num_to_string generation.

Record ControlAggregate := {
  aggregate_kind : AggregateKind;
  aggregate_id : string;
  aggregate_generation : Z
}.
Definition agg_key (a : ControlAggregate) : string :=
  aggregate_key a.(aggregate_kind) a.(aggregate_id) a.(aggregate_generation).

Inductive ScopeError :=
| TaskGenerationRequired
| TaskScopeRequired (type : string)
| HalfScoped
| RunScopeRequired (type : string).

(** The session a payload of the session aggregate names. *)
Definition session_of (b : ControlEventPayload) : option (string * Z) :=
  match b with
  | runtime_observed p => Some (p.(rp_sessionId), p.(rp_sessionGeneration))
  | steering_command_admitted p => Some (p.(sap_sessionId), p.(sap_sessionGeneration))
  | steering_command_refused p => Some (p.(srp_sessionId), p.(srp_sessionGeneration))
  | steering_command_terminal_refused p => Some (p.(strp_sessionId), p.(strp_sessionGeneration))
  | steering_command_included p => Some (p.(sip_sessionId), p.(sip_sessionGeneration))
  | steering_command_withdrawn p => Some (p.(swp_sessionId), p.(swp_sessionGeneration))
  | steering_command_superseded p => Some (p.(ssp_sessionId), p.(ssp_sessionGeneration))
  | steering_command_expired p => Some (p.(sep_sessionId), p.(sep_sessionGeneration))
  | _ => None
  end.

Definition aggregateForEvent (e : ControlEvent) : result ScopeError ControlAggregate :=
  match session_of e.(ev_payload) with
  | Some (sessionId, generation) =>
      Ok {| aggregate_kind := agg_session; aggregate_id := sessionId; aggregate_generation := generation |}
  | None =>
      match e.(ev_taskId) with
      | Some taskId =>
          match e.(ev_taskGeneration) with
          | None => Err TaskGenerationRequired
          | Some generation =>
              Ok {| aggregate_kind := agg_task; aggregate_id := taskId; aggregate_generation := generation |}
          end
      | None => Ok {| aggregate_kind := agg_run; aggregate_id := e.(ev_runId); aggregate_generation := 1 |}
      end
  end.

Definition assertControlEventScope (e : ControlEvent) : result ScopeError unit :=
  let type := event_type e.(ev_payload) in
  let taskRequired := String.prefix "task." type || String.prefix "attempt." type
                      || String.prefix "steering." type || String.prefix "scm." type in
  ensure (negb (taskRequired && (negb (isSome e.(ev_taskId)) || negb (isSome e.(ev_taskGeneration)))))
    (TaskScopeRequired type) ;;
  ensure (Bool.eqb (isSome e.(ev_taskId)) (isSome e.(ev_taskGeneration))) HalfScoped ;;
  ensure (negb (String.prefix "run." type && isSome e.(ev_taskId))) (RunScopeRequired type).

(** * Facts *)

Lemma isSome_true {A} (o : option A) : isSome o = true <-> is_Some o.
Proof. destruct o; cbn; split; eauto; [done|]. intros []; done. Qed.

(** A task, attempt, steering or scm event that passes the scope check names a
    task and a generation. *)
Lemma assertControlEventScope_task e u :
  assertControlEventScope e = Ok u ->
  (String.prefix "task." (event_type e.(ev_payload)) || String.prefix "attempt." (event_type e.(ev_payload))
   || String.prefix "steering." (event_type e.(ev_payload)) || String.prefix "scm." (event_type e.(ev_payload))) = true ->
  exists t g, e.(ev_taskId) = Some t /\ e.(ev_taskGeneration) = Some g.
Proof.
  unfold assertControlEventScope. intros H Hp. rewrite Hp in H. run. cbn in *.
  destruct (ev_taskId e), (ev_taskGeneration e); cbn in *; try done. eauto.
Qed.

Lemma assertControlEventScope_both e u :
  assertControlEventScope e = Ok u -> (ev_taskId e = None <-> ev_taskGeneration e = None).
Proof.
  unfold assertControlEventScope. intros H. run.
  destruct (ev_taskId e), (ev_taskGeneration e); done.
Qed.

(** *** Aggregate keys are unambiguous

    An identifier may itself contain colons; the key is still injective because
    the kind contains none and the generation is the part after the last one. *)

Definition no_colon (s : string) : Prop := all_chars (fun c => negb (code c =? 58)) s = true.

Lemma no_colon_split_first a b x y :
  no_colon a -> no_colon b -> a +:+ String ":"%char x = b +:+ String ":"%char y -> a = b /\ x = y.
Proof.
  revert b; induction a as [|c a IH]; intros [|d b] Ha Hb; cbn in Ha, Hb; unfold no_colon in *; cbn.
  - by intros [= ->].
  - intros [= <- _]. done.
  - intros [= -> _]. done.
  - intros [= -> H]. apply andb_true_iff in Ha as [_ Ha], Hb as [_ Hb].
    by destruct (IH b Ha Hb H) as [-> ->].
Qed.

Lemma string_app_length s1 s2 : String.length (s1 +:+ s2) = (String.length s1 + String.length s2)%nat.
Proof.
  induction s1 as [|c s1 IH]; [done|].
  change (S (String.length (s1 +:+ s2)) = S (String.length s1 + String.length s2)). by rewrite IH.
Qed.

Lemma no_colon_split_last a b x y :
  no_colon x -> no_colon y -> a +:+ String ":"%char x = b +:+ String ":"%char y -> a = b /\ x = y.
Proof.
  revert b; induction a as [|c a IH]; intros [|d b] Hx Hy.
  - by intros [= ->].
  - change (String ":"%char x = String d (b +:+ String ":"%char y) -> EmptyString = String d b /\ x = y).
    intros [= <- ->]. unfold no_colon in Hx. rewrite all_chars_app in Hx. cbn in Hx.
    rewrite andb_false_r in Hx. done.
  - change (String c (a +:+ String ":"%char x) = String ":"%char y -> String c a = EmptyString /\ x = y).
    intros [= -> <-]. unfold no_colon in Hy. rewrite all_chars_app in Hy. cbn in Hy.
    rewrite andb_false_r in Hy. done.
  - change (String c (a +:+ String ":"%char x) = String d (b +:+ String ":"%char y) -> String c a = String d b /\ x = y).
    intros [= -> H]. by destruct (IH b Hx Hy H) as [-> ->].
Qed.

Lemma num_to_string_no_colon n : no_colon (num_to_string n).
Proof.
  unfold no_colon. pose proof (num_to_string_units n) as H.
  induction (num_to_string n) as [|c s IH]; [done|]. cbn in *.
  apply Forall_cons in H as [Hc Hs]. rewrite IH by done.
  unfold number_unit, is_digit, code in *. destruct (Z.eqb_spec (Z.of_N (Ascii.N_of_ascii c)) 58); [lia|done].
Qed.

Lemma AggregateKind_name_inj k k' : AggregateKind_name k = AggregateKind_name k' -> k = k'.
Proof. destruct k, k'; done. Qed.

Lemma aggregate_key_inj k id g k' id' g' :
  aggregate_key k id g = aggregate_key k' id' g' -> k = k' /\ id = id' /\ g = g'.
Proof.
  unfold aggregate_key. intros H.
  apply no_colon_split_first in H as [Hk H]; [|by destruct k|by destruct k'].
  apply AggregateKind_name_inj in Hk as ->.
  apply no_colon_split_last in H as [-> Hg]; [|apply num_to_string_no_colon..].
  by apply num_to_string_inj in Hg as ->.
Qed.

Lemma agg_key_inj a a' : agg_key a = agg_key a' -> a = a'.
Proof. destruct a, a'. intros H%aggregate_key_inj. cbn in H. by destruct H as (-> & -> & ->). Qed.

(** [/^[0-9a-f]{8}-[0-9a-f]{4}-7[0-9a-f]{3}-[89ab][0-9a-f]{3}-[0-9a-f]{12}$/]
    with the digits [hex] admits. *)
Fixpoint uuid_from (hex : Ascii.ascii -> bool) (i : Z) (s : string) : bool :=
  match s with
  | EmptyString => i =? 36
  | String c s' =>
      (if (i =? 8) || (i =? 13) || (i =? 18) || (i =? 23) then code c =? 45
       else if i =? 14 then code c =? 55
       else if i =? 19 then hex c && ((code c =? 56) || (code c =? 57) || (between 97 98 (code c)) || (between 65 66 (code c)))
       else hex c)
      && uuid_from hex (i + 1) s'
  end.

Definition is_hex_any_case (c : Ascii.ascii) : bool := is_hex c || between 65 70 (code c).
(** [z.string().uuid({ version: "v7" })] *)
Definition uuidV7 (s : string) : bool := uuid_from is_hex_any_case 0 s.

Section schemas.
Context {D : Digest} {U : UrlApi}.

(** * The scm payloads *)

Definition scmFactBucketSchema {T} (facts : T -> bool) (encode : T -> json) (b : ScmFactBucketV1 T) : bool :=
  ScmBucketMetaV1Schema b.(bucket_meta) && facts b.(bucket_facts)
  && match canonicalJson (encode b.(bucket_facts)) with
     | Ok t => bool_decide (sha256Text t = b.(bucket_meta).(meta_semanticHash))
     | Err _ => false
     end.

Definition scmAnyBucket_valid (b : scmAnyBucket) : bool :=
  match b with
  | scmPullRequestBucket b => scmFactBucketSchema ScmPullRequestFactV1Schema ScmPullRequestFactV1_json b
  | scmCiBucket b => scmFactBucketSchema ScmCiFactV1Schema ScmCiFactV1_json b
  | scmReviewBucket b => scmFactBucketSchema ScmReviewFactV1Schema ScmReviewFactV1_json b
  | scmMergeabilityBucket b => scmFactBucketSchema ScmMergeabilityFactV1Schema ScmMergeabilityFactV1_json b
  end.

Definition scmPublicationRecordedPayload_valid (p : scmPublicationRecordedPayload) : bool :=
  ScmPublicationIntentV1Schema p.(spr_publication).

Definition scmPublicationStateChangedPayload_valid (p : scmPublicationStateChangedPayload) : bool :=
  boundedId p.(spc_publicationId) && positive p.(spc_publicationGeneration)
  && optional (optional gitOid) p.(spc_observedRemoteOid) && optional ScmPullRequestFactV1Schema p.(spc_pullRequest)
  && optional boundedId p.(spc_reasonCode).

Definition scmGuards_valid (g : ScmObservationGuardsV1) : bool :=
  optional (between1 1024) g.(guards_pullRequest) && optional (between1 1024) g.(guards_checks)
  && optional (between1 1024) g.(guards_reviews) && optional (between1 1024) g.(guards_mergeability).

Definition pollAttempt_valid (n : Z) : bool := positive n && (n <=? 1024).

Definition scmPollStartedPayload_valid (p : scmPollStartedPayload) : bool :=
  boundedId p.(sps_pollId) && pollAttempt_valid p.(sps_pollAttempt) && boundedId p.(sps_publicationId)
  && positive p.(sps_publicationGeneration) && boundedId p.(sps_sessionId) && positive p.(sps_sessionGeneration)
  && gitOid p.(sps_expectedHeadSha) && ScmPullRequestIdentityV1Schema p.(sps_pullRequest)
  && scmGuards_valid p.(sps_guards) && ScmProviderLimitsV1Schema p.(sps_limits).

(** [decision.startsWith("accept_")] *)
Definition decision_accepted (d : ScmBucketDecision) : bool :=
  String.prefix "accept_" (ScmBucketDecision_name d).

Definition scmBucketOutcome_valid (o : ScmPollBucketOutcomeFact) : bool :=
  let accepted := decision_accepted o.(outcome_decision) in
  optional digest o.(outcome_semanticHash) && optional boundedId o.(outcome_reasonCode)
  && optional ScmProviderFailureV1Schema o.(outcome_failure)
  && Bool.eqb accepted (isSome o.(outcome_semanticHash))
  && negb (accepted && (isSome o.(outcome_reasonCode) || isSome o.(outcome_failure)))
  && negb (negb accepted && negb (isSome o.(outcome_reasonCode)) && negb (isSome o.(outcome_failure))).

Definition scmBucketKinds : list ScmBucketKind := [bucket_pull_request; bucket_ci; bucket_review; bucket_mergeability].

Definition scmPollCompletedPayload_valid (p : scmPollCompletedPayload) : bool :=
  boundedId p.(spcm_pollId) && pollAttempt_valid p.(spcm_pollAttempt) && boundedId p.(spcm_publicationId)
  && positive p.(spcm_publicationGeneration) && gitOid p.(spcm_expectedHeadSha)
  && nonNegative p.(spcm_requestCount) && (p.(spcm_requestCount) <=? 10000)
  && nonNegative p.(spcm_decodedBytes) && (p.(spcm_decodedBytes) <=? 256 * 1024 * 1024)
  && forallb scmBucketOutcome_valid p.(spcm_bucketOutcomes)
  && bool_decide (List.map outcome_kind p.(spcm_bucketOutcomes) = scmBucketKinds).

Definition scmPollFailedPayload_valid (p : scmPollFailedPayload) : bool :=
  boundedId p.(spf_pollId) && pollAttempt_valid p.(spf_pollAttempt) && boundedId p.(spf_publicationId)
  && positive p.(spf_publicationGeneration) && gitOid p.(spf_expectedHeadSha)
  && ScmProviderFailureV1Schema p.(spf_failure).

Definition scmBucketAcceptedPayload_valid (p : scmBucketAcceptedPayload) : bool :=
  boundedId p.(sba_pollId) && boundedId p.(sba_publicationId) && positive p.(sba_publicationGeneration)
  && decision_accepted p.(sba_decision) && optional digest p.(sba_previousSemanticHash)
  && scmAnyBucket_valid p.(sba_bucket).

Definition scmReactionCreatedPayload_valid (p : scmReactionCreatedPayload) : bool :=
  digest p.(src_reactionKey) && boundedId p.(src_publicationId) && positive p.(src_publicationGeneration)
  && gitOid p.(src_headSha) && forallb digest p.(src_evidenceRefs)
  && negb (bool_decide (p.(src_evidenceRefs) = [])) && at_most 32 p.(src_evidenceRefs)
  && uuidV7 p.(src_commandId) && boundedId p.(src_sessionId) && positive p.(src_sessionGeneration)
  && positive p.(src_notBeforeAttemptGeneration) && optional uuidV7 p.(src_supersedesCommandId)
  && digest p.(src_previewSha256) && steeringBodyText p.(src_preview)
  && canonically_ordered p.(src_evidenceRefs)
  && bool_decide (sha256Text p.(src_preview) = p.(src_previewSha256)).

Definition scmReactionTransitionedPayload_valid (p : scmReactionTransitionedPayload) : bool :=
  digest p.(srt_reactionKey) && nonNegative p.(srt_reactionVersion) && uuidV7 p.(srt_commandId)
  && optional positive p.(srt_steeringSeq) && optional boundedId p.(srt_reasonCode)
  && optional digest p.(srt_observationSemanticHash).

(** * A whole event *)

Definition payload_valid (b : ControlEventPayload) : bool :=
  match b with
  | run_started p => runStartedPayload_valid p
  | run_completed p => runCompletedPayload_valid p
  | run_failed p => runFailedPayload_valid p
  | run_cancelled p => runCancelledPayload_valid p
  | run_checkpointed p => runCheckpointedPayload_valid p
  | task_created p => taskCreatedPayload_valid p
  | task_reopened p => taskReopenedPayload_valid p
  | task_status_changed p => taskStatusPayload_valid p
  | message_posted p => messagePayload_valid p
  | runtime_observed p => runtimePayload_valid p
  | attempt_prompt_prepared p => attemptPreparedPayload_valid p
  | attempt_launch_planned p => attemptLaunchPlannedPayload_valid p
  | attempt_started p => attemptStartedPayload_valid p
  | attempt_exited p => attemptExitedPayload_valid p
  | attempt_abandoned p => attemptAbandonedPayload_valid p
  | steering_command_admitted p => steeringAdmittedPayload_valid p
  | steering_command_refused p => steeringRefusedPayload_valid p
  | steering_command_terminal_refused p => steeringTerminalRefusedPayload_valid p
  | steering_command_included p => steeringIncludedPayload_valid p
  | steering_command_withdrawn p => steeringWithdrawnPayload_valid p
  | steering_command_superseded p => steeringSupersededPayload_valid p
  | steering_command_expired p => steeringExpiredPayload_valid p
  | scm_publication_recorded p => scmPublicationRecordedPayload_valid p
  | scm_publication_state_changed p => scmPublicationStateChangedPayload_valid p
  | scm_poll_started p => scmPollStartedPayload_valid p
  | scm_poll_completed p => scmPollCompletedPayload_valid p
  | scm_poll_failed p => scmPollFailedPayload_valid p
  | scm_bucket_accepted p => scmBucketAcceptedPayload_valid p
  | scm_reaction_created p => scmReactionCreatedPayload_valid p
  | scm_reaction_transitioned p => scmReactionTransitionedPayload_valid p
  end.

Inductive ControlEventError :=
| EventInvalid
| EventCanonical (e : CanonicalJsonError).

(** [parseControlEvent(value)]: the strict schema and its refinements. *)
Definition parseControlEvent (e : ControlEvent) : result ControlEventError ControlEvent :=
  ensure (baseShape_valid e && payload_valid e.(ev_payload)) EventInvalid ;; Ok e.

(** * Canonical texts and digests *)

Definition canonicalControlEvent (e : ControlEvent) : result ControlEventError text :=
  e' ← parseControlEvent e; map_err EventCanonical (canonicalJson (ControlEvent_json e')).

Definition controlEventDigest (e : ControlEvent) : result ControlEventError string :=
  t ← canonicalControlEvent e; Ok (sha256Text t).

(** [canonicalJson({ ...event, recordedAt })] *)
Definition PersistedControlEvent_json (e : ControlEvent) (recordedAt : string) : json :=
  jobj (ControlEvent_fields e ++ [("recordedAt"%string, jstr recordedAt)]).

Definition canonicalPersistedControlEvent (e : ControlEvent) (recordedAt : string) : result ControlEventError text :=
  e' ← parseControlEvent e; map_err EventCanonical (canonicalJson (PersistedControlEvent_json e' recordedAt)).

Definition persistedControlEventDigest (e : ControlEvent) (recordedAt : string) : result ControlEventError string :=
  t ← canonicalPersistedControlEvent e recordedAt; Ok (sha256Text t).

(** * Persisted events *)

Inductive PersistedEventError :=
| MetadataInvalid
| PersistedEventInvalid (e : ControlEventError)
| PersistedScope (e : ScopeError)
| IntentDigestMismatch
| DigestMismatch.

Definition persistedMetadata_valid (pe : PersistedControlEvent) : bool :=
  positive pe.(pe_seq) && timestamp pe.(pe_recordedAt) && digest pe.(pe_intentDigest) && digest pe.(pe_digest).

(** [parsePersistedControlEvent]: metadata, event, scope, then the two digests. *)
Definition parsePersistedControlEvent (pe : PersistedControlEvent) : result PersistedEventError PersistedControlEvent :=
  ensure (persistedMetadata_valid pe) MetadataInvalid ;;
  event ← map_err PersistedEventInvalid (parseControlEvent pe.(pe_event));
  map_err PersistedScope (assertControlEventScope event) ;;
  intent ← map_err PersistedEventInvalid (controlEventDigest event);
  ensure (bool_decide (intent = pe.(pe_intentDigest))) IntentDigestMismatch ;;
  d ← map_err PersistedEventInvalid (persistedControlEventDigest event pe.(pe_recordedAt));
  ensure (bool_decide (d = pe.(pe_digest))) DigestMismatch ;;
  Ok pe.
End schemas.
