(* ===== verification/EventCode.v ===== *)
(** EventCode: injective encodings of the values whose JSON is digested, and of
    the events they belong to. *)
From S2P Require Import Prelude Json Ids ScmTypes ControlEvents EventSchema.

(** What the canonical text shows of a field: nothing when it is undefined. *)
Definition shown (v : json) : option json := if is_undefined v then None else Some (canonical v).

Lemma elem_of_canonical_entries kvs k w :
  (k, w) ∈ List.map (fun kv => (kv.1, canonical kv.2)) (sorted_entries is_undefined kvs)
  <-> exists v, (k, v) ∈ kvs /\ shown v = Some w.
Proof.
  rewrite list_elem_of_fmap. unfold shown. split.
  - intros ([k' v] & [= -> ->] & [Hin Hu]%elem_of_sorted_entries). cbn in *. exists v. by rewrite Hu.
  - intros (v & Hin & Hs). exists (k, v). destruct (is_undefined v) eqn:Hu; [done|]. simplify_eq. split; [done|].
    apply elem_of_sorted_entries. done.
Qed.

Lemma keyed_unique {K V} (kvs : list (K * V)) k v v' : NoDup kvs.*1 -> (k, v) ∈ kvs -> (k, v') ∈ kvs -> v = v'.
Proof.
  induction kvs as [|kv kvs IH]; cbn; [by intros _ ?%not_elem_of_nil|].
  intros [Hk Hnd]%NoDup_cons [<-|Hv]%elem_of_cons [Hv'|Hv']%elem_of_cons; simplify_eq; [done| | |by apply IH].
  - destruct Hk. apply list_elem_of_fmap. by exists (k, v').
  - destruct Hk. apply list_elem_of_fmap. by exists (k, v).
Qed.

(** An object with distinct keys is determined by what its fields show. *)
Lemma object_fields kvs kvs' i k v v' :
  NoDup kvs.*1 -> kvs'.*1 = kvs.*1 -> canonical (JObject kvs) = canonical (JObject kvs') ->
  kvs !! i = Some (k, v) -> kvs' !! i = Some (k, v') -> shown v = shown v'.
Proof.
  intros Hnd Hkeys Hc Hi Hi'. rewrite !canonical_object in Hc. injection Hc as Hc.
  apply list_elem_of_lookup_2 in Hi, Hi'.
  assert (forall w, shown v = Some w <-> shown v' = Some w) as Hiff.
  { intros w. pose proof (elem_of_canonical_entries kvs k w) as H. rewrite Hc, elem_of_canonical_entries in H. split.
    - intros Hw. destruct (proj2 H (ex_intro _ v (conj Hi Hw))) as (u & Hu & <-).
      f_equal. eapply keyed_unique; [by rewrite Hkeys|done|done].
    - intros Hw. destruct (proj1 H (ex_intro _ v' (conj Hi' Hw))) as (u & Hu & <-).
      f_equal. by eapply keyed_unique. }
  destruct (shown v) as [w|]; [symmetry; by apply Hiff|].
  destruct (shown v') as [w|]; [by apply Hiff|done].
Qed.

Lemma text_of_string_fields (l : list (string * json)) :
  (List.map (fun f => (text_of_string f.1, f.2)) l).*1 = List.map text_of_string (List.map fst l).
Proof. induction l as [|[k v] l IH]; cbn; [done|]. by f_equal. Qed.

Lemma jobj_fields (fs fs' : list (string * json)) :
  NoDup (List.map fst fs) -> List.map fst fs' = List.map fst fs -> canonical (jobj fs) = canonical (jobj fs') ->
  Forall2 (fun f f' => shown f.2 = shown f'.2) fs fs'.
Proof.
  intros Hnd Hk Hc. apply Forall2_same_length_lookup. split.
  { by rewrite <-(length_map fst fs), <-(length_map fst fs'), Hk. }
  intros i [k v] [k' v'] Hi Hi'. cbn.
  assert (k' = k) as ->.
  { assert (List.map fst fs' !! i = Some k') as H1 by (rewrite list_lookup_fmap, Hi'; done).
    rewrite Hk, list_lookup_fmap, Hi in H1. by injection H1. }
  eapply (object_fields _ _ i (text_of_string k)); [| |exact Hc| |].
  - rewrite text_of_string_fields. apply NoDup_fmap_2; [intros ? ?; apply text_of_string_inj|done].
  - rewrite !text_of_string_fields. by f_equal.
  - by rewrite list_lookup_fmap, Hi.
  - by rewrite list_lookup_fmap, Hi'.
Qed.

(** * Encodings *)

(** A field encoding may leave the field out; a value encoding may not, and
    is never [null]. *)
Class JsonField {A} (f : A -> json) : Prop := json_field a b : shown (f a) = shown (f b) -> a = b.
Class JsonValue {A} (f : A -> json) : Prop := {
  json_value a b : canonical (f a) = canonical (f b) -> a = b;
  json_defined a : is_undefined (f a) = false;
  json_not_null a : canonical (f a) <> JNull
}.

Lemma shown_value {A} (f : A -> json) `{!JsonValue f} a : shown (f a) = Some (canonical (f a)).
Proof. unfold shown. by rewrite json_defined. Qed.

#[export] Instance value_field {A} (f : A -> json) `{!JsonValue f} : JsonField f.
Proof. intros a b. rewrite !shown_value by done. intros [= H]. by apply (json_value (f := f)). Qed.

#[export] Instance jopt_field {A} (f : A -> json) `{!JsonValue f} : JsonField (jopt f).
Proof.
  intros [a|] [b|]; cbn; rewrite ?shown_value by done; try done. intros [= H].
  f_equal. by apply (json_value (f := f)).
Qed.

Lemma jnull_shown {A} (f : A -> json) `{!JsonValue f} o : shown (jnull f o) = Some (canonical (jnull f o)).
Proof. destruct o; cbn; [by apply shown_value|done]. Qed.

#[export] Instance jnull_field {A} (f : A -> json) `{!JsonValue f} : JsonField (jnull f).
Proof.
  intros a b. rewrite !jnull_shown by done. intros [= H]. destruct a as [a|], b as [b|]; cbn in H; try done.
  - f_equal. by apply (json_value (f := f)).
  - by apply (json_not_null (f := f)) in H.
  - symmetry in H. by apply (json_not_null (f := f)) in H.
Qed.

#[export] Instance jopt_jnull_field {A} (f : A -> json) `{!JsonValue f} : JsonField (jopt (jnull f)).
Proof.
  intros [a|] [b|]; cbn; rewrite ?jnull_shown by done; try done. intros H. f_equal.
  apply (json_field (f := jnull f)). by rewrite !jnull_shown by done.
Qed.

#[export] Instance jstr_value : JsonValue jstr.
Proof. split; [intros a b [= H]; by apply text_of_string_inj|done|done]. Qed.
#[export] Instance JString_value : JsonValue JString.
Proof. split; [intros a b [= H]; done|done|done]. Qed.
#[export] Instance jnum_value : JsonValue jnum.
Proof. split; [intros a b [= H]; done|done|done]. Qed.
#[export] Instance JBoolean_value : JsonValue JBoolean.
Proof. split; [intros a b [= H]; done|done|done]. Qed.

#[export] Instance jlist_value {A} (f : A -> json) `{!JsonValue f} : JsonValue (jlist f).
Proof.
  split; [|done|done]. intros a b H. cbn in H. injection H as H.
  revert b H; induction a as [|x a IH]; intros [|y b]; cbn; try done.
  intros [= Hx H]. f_equal; [by apply (json_value (f := f))|by apply IH].
Qed.

(** * Records and enumerations *)

(** Turn the equation of two shown fields into an equation of the data. *)
Ltac json_fields :=
  repeat match goal with
  | H : Forall2 _ [] [] |- _ => clear H
  | H : Forall2 _ (_ :: _) (_ :: _) |- _ =>
      let H' := fresh in apply Forall2_cons in H as [H' H]; cbv beta in H'; cbn [fst snd] in H'
  | H : Forall2 ?R ?l ?l' |- _ =>
      let a := eval hnf in l in let b := eval hnf in l' in change (Forall2 R a b) in H
  | H : shown (?f ?a) = shown (?f ?b) |- _ => apply (json_field (f := f)) in H; cbn in H
  end.

(** Two members of an enumeration with the same name are the same member. *)
#[export] Hint Extern 5 (Inj (@eq _) (@eq string) _) => (intros [] [] ?; first [reflexivity|discriminate]) : typeclass_instances.

Ltac json_enum :=
  repeat match goal with
  | H : @eq string (?name ?a) (?name ?b) |- _ => apply (@inj _ _ (=) (=) name _) in H
  end.

(** A record encoded as an object: the names are distinct, the fields injective. *)
Ltac json_object H :=
  apply jobj_fields in H;
  [json_fields; json_enum; by subst|apply (bool_decide_unpack _); vm_compute; exact I|reflexivity].

Ltac json_record := split; [intros [] [] H; json_object H|done|done].

(** * The scm facts *)

#[export] Instance ScmRepositoryIdV1_code : JsonValue ScmRepositoryIdV1_json.
Proof. json_record. Qed.
#[export] Instance ScmRemoteExpectationV1_code : JsonValue ScmRemoteExpectationV1_json.
Proof.
  split; [|by intros []|by intros []].
  intros [|o] [|o'] H; cbn in H; try done. injection H as H. f_equal. by apply text_of_string_inj.
Qed.
#[export] Instance ScmPublicationIntentV1_code : JsonValue ScmPublicationIntentV1_json.
Proof. json_record. Qed.
#[export] Instance ScmPullRequestIdentityV1_code : JsonValue ScmPullRequestIdentityV1_json.
Proof. json_record. Qed.
#[export] Instance ScmPullRequestFactV1_code : JsonValue ScmPullRequestFactV1_json.
Proof. split; [intros [[]] [[]] H; json_object H|done|done]. Qed.
#[export] Instance ScmNormalizedCheckV1_code : JsonValue ScmNormalizedCheckV1_json.
Proof. json_record. Qed.
#[export] Instance ScmCiFactV1_code : JsonValue ScmCiFactV1_json.
Proof. json_record. Qed.
#[export] Instance ScmEvidenceV1_code : JsonValue ScmEvidenceV1_json.
Proof. json_record. Qed.
#[export] Instance ScmReviewFactV1_code : JsonValue ScmReviewFactV1_json.
Proof. json_record. Qed.
#[export] Instance ScmMergeabilityFactV1_code : JsonValue ScmMergeabilityFactV1_json.
Proof. json_record. Qed.
#[export] Instance ScmBucketMetaV1_code : JsonValue ScmBucketMetaV1_json.
Proof. json_record. Qed.
#[export] Instance ScmFactBucketV1_code {T} (f : T -> json) `{!JsonValue f} : JsonValue (ScmFactBucketV1_json f).
Proof. json_record. Qed.
#[export] Instance ScmProviderFailureV1_code : JsonValue ScmProviderFailureV1_json.
Proof. json_record. Qed.
#[export] Instance ScmProviderLimitsV1_code : JsonValue ScmProviderLimitsV1_json.
Proof. json_record. Qed.
#[export] Instance ScmObservationGuardsV1_code : JsonValue ScmObservationGuardsV1_json.
Proof. json_record. Qed.

(** * Payloads *)

#[export] Instance ObservedActivity_name_inj : Inj (=) (=) ObservedActivity_name.
Proof. intros [[]|] [[]|] H; first [reflexivity|discriminate H]. Qed.

#[export] Instance taskCreatedPayload_code : JsonValue taskCreatedPayload_json.
Proof. json_record. Qed.
#[export] Instance taskStatusPayload_code : JsonValue taskStatusPayload_json.
Proof. json_record. Qed.
#[export] Instance messagePayload_code : JsonValue messagePayload_json.
Proof. json_record. Qed.
#[export] Instance runStartedPayload_code : JsonValue runStartedPayload_json.
Proof. json_record. Qed.
#[export] Instance runCompletedPayload_code : JsonValue runCompletedPayload_json.
Proof. json_record. Qed.
#[export] Instance runFailedPayload_code : JsonValue runFailedPayload_json.
Proof. json_record. Qed.
#[export] Instance runCancelledPayload_code : JsonValue runCancelledPayload_json.
Proof. json_record. Qed.
#[export] Instance LoopCheckpointFact_code : JsonValue LoopCheckpointFact_json.
Proof. json_record. Qed.
#[export] Instance runtimePayload_code : JsonValue runtimePayload_json.
Proof. json_record. Qed.
#[export] Instance attemptPreparedPayload_code : JsonValue attemptPreparedPayload_json.
Proof. json_record. Qed.
#[export] Instance attemptLaunchPlannedPayload_code : JsonValue attemptLaunchPlannedPayload_json.
Proof. json_record. Qed.
#[export] Instance attemptStartedPayload_code : JsonValue attemptStartedPayload_json.
Proof. json_record. Qed.
#[export] Instance attemptExitedPayload_code : JsonValue attemptExitedPayload_json.
Proof. json_record. Qed.
#[export] Instance attemptAbandonedPayload_code : JsonValue attemptAbandonedPayload_json.
Proof. json_record. Qed.
#[export] Instance steeringAdmittedPayload_code : JsonValue steeringAdmittedPayload_json.
Proof. json_record. Qed.
#[export] Instance steeringRefusedPayload_code : JsonValue steeringRefusedPayload_json.
Proof. json_record. Qed.
#[export] Instance steeringTerminalRefusedPayload_code : JsonValue steeringTerminalRefusedPayload_json.
Proof. json_record. Qed.
#[export] Instance steeringIncludedPayload_code : JsonValue steeringIncludedPayload_json.
Proof. json_record. Qed.
#[export] Instance steeringWithdrawnPayload_code : JsonValue steeringWithdrawnPayload_json.
Proof. json_record. Qed.
#[export] Instance steeringSupersededPayload_code : JsonValue steeringSupersededPayload_json.
Proof. json_record. Qed.
#[export] Instance steeringExpiredPayload_code : JsonValue steeringExpiredPayload_json.
Proof. json_record. Qed.
#[export] Instance taskReopenedPayload_code : JsonValue taskReopenedPayload_json.
Proof. json_record. Qed.
#[export] Instance scmPublicationRecordedPayload_code : JsonValue scmPublicationRecordedPayload_json.
Proof. json_record. Qed.
#[export] Instance scmPublicationStateChangedPayload_code : JsonValue scmPublicationStateChangedPayload_json.
Proof. json_record. Qed.
#[export] Instance scmPollStartedPayload_code : JsonValue scmPollStartedPayload_json.
Proof. json_record. Qed.
#[export] Instance ScmPollBucketOutcomeFact_code : JsonValue ScmPollBucketOutcomeFact_json.
Proof. json_record. Qed.
#[export] Instance scmPollCompletedPayload_code : JsonValue scmPollCompletedPayload_json.
Proof. json_record. Qed.
#[export] Instance scmPollFailedPayload_code : JsonValue scmPollFailedPayload_json.
Proof. json_record. Qed.
(** The tag of an accepted bucket says which of the four shapes it has. *)
#[export] Instance scmBucketAcceptedPayload_code : JsonValue scmBucketAcceptedPayload_json.
Proof.
  split; [|done|done]. intros [a1 a2 a3 a4 a5 b] [c1 c2 c3 c4 c5 d] H. apply jobj_fields in H;
  [|apply (bool_decide_unpack _); vm_compute; exact I|reflexivity].
  unfold sba_kind in H. cbn [sba_bucket sba_pollId sba_publicationId sba_publicationGeneration sba_decision sba_previousSemanticHash] in H.
  destruct b as [b|b|b|b], d as [d|d|d|d]; cbn [scmAnyBucket_json] in H; json_fields; json_enum; simplify_eq; done.
Qed.
#[export] Instance scmReactionCreatedPayload_code : JsonValue scmReactionCreatedPayload_json.
Proof. json_record. Qed.
#[export] Instance scmReactionTransitionedPayload_code : JsonValue scmReactionTransitionedPayload_json.
Proof. json_record. Qed.

(** * Events *)

(** The type tag says which payload an event carries. *)
Lemma payload_json_inj p q :
  event_type p = event_type q -> canonical (payload_json p) = canonical (payload_json q) -> p = q.
Proof.
  intros Ht H. destruct p, q; try discriminate Ht; clear Ht; cbn [payload_json] in H;
    apply json_value in H; by subst.
Qed.

Lemma payload_defined p : is_undefined (payload_json p) = false.
Proof. by destruct p. Qed.

Lemma ControlEvent_fields_inj x y :
  Forall2 (fun f f' => shown f.2 = shown f'.2) (ControlEvent_fields x) (ControlEvent_fields y) -> x = y.
Proof.
  destruct x as [? ? ? ? ? ? ? ? ? ? ? ? ? p], y as [? ? ? ? ? ? ? ? ? ? ? ? ? q]. intros H. unfold ControlEvent_fields in H.
  cbn [ev_payload] in H. json_fields. json_enum.
  match goal with H : shown (payload_json p) = _ |- _ => unfold shown in H; rewrite !payload_defined in H; injection H as H end.
  assert (p = q) as -> by by apply payload_json_inj. by subst.
Qed.

Lemma ControlEvent_json_inj x y : canonical (ControlEvent_json x) = canonical (ControlEvent_json y) -> x = y.
Proof.
  intros H. apply jobj_fields in H; [apply ControlEvent_fields_inj; exact H|apply (bool_decide_unpack _); vm_compute; exact I|reflexivity].
Qed.

Lemma PersistedControlEvent_json_inj x r y s :
  canonical (PersistedControlEvent_json x r) = canonical (PersistedControlEvent_json y s) -> x = y /\ r = s.
Proof.
  intros H. apply jobj_fields in H; [|apply (bool_decide_unpack _); vm_compute; exact I|reflexivity].
  apply Forall2_app_inv in H as [H Hr]; [|done]. split; [by apply ControlEvent_fields_inj|]. clear H. by json_fields.
Qed.
