(* ===== verification/JsonText.v ===== *)
(** JsonText: [JSON.parse] of the ECMAScript standard library, and that it reads
    back what [canonicalJson] of src/control/events.ts prints. A number literal
    with a fraction or an exponent is read as a number that is not an integer:
    every reader of the program then refuses the text, as it does when the text
    is not the canonical one. The second half holds the readers of typed
    values from JSON values, as the closed schemas of src/control/events.ts parse
    them, and the law that a reader returns what was written. *)
From S2P Require Import Prelude Text Json Ids ScmTypes ControlEvents EventSchema EventCode.

Set Warnings "-register-all".

(** * The reader *)

Definition is_space (c : Z) : bool := (c =? 32) || (c =? 9) || (c =? 10) || (c =? 13).

Fixpoint skip_space (t : text) : text :=
  match t with
  | c :: t' => if is_space c then skip_space t' else t
  | [] => []
  end.

Definition digit_value (c : Z) : option Z := if (48 <=? c) && (c <=? 57) then Some (c - 48) else None.

Definition hex_value (c : Z) : option Z :=
  match digit_value c with
  | Some d => Some d
  | None => if (97 <=? c) && (c <=? 102) then Some (c - 87) else if (65 <=? c) && (c <=? 70) then Some (c - 55) else None
  end.

Definition simple_escape (e : Z) : option Z :=
  if (e =? 34) || (e =? 92) || (e =? 47) then Some e
  else if e =? 98 then Some 8 else if e =? 102 then Some 12 else if e =? 110 then Some 10
  else if e =? 114 then Some 13 else if e =? 116 then Some 9 else None.

(** A string literal, from behind the opening quote. *)
Fixpoint read_string (l : text) : option (text * text) :=
  match l with
  | [] => None
  | c :: l1 =>
      if c =? 34 then Some ([], l1)
      else if c =? 92 then
        match l1 with
        | [] => None
        | e :: l2 =>
            if e =? 117 then
              match l2 with
              | h3 :: h2 :: h1 :: h0 :: l3 =>
                  v3 ← hex_value h3; v2 ← hex_value h2; v1 ← hex_value h1; v0 ← hex_value h0;
                  '(t, r) ← read_string l3;
                  Some (4096 * v3 + 256 * v2 + 16 * v1 + v0 :: t, r)
              | _ => None
              end
            else u ← simple_escape e; '(t, r) ← read_string l2; Some (u :: t, r)
        end
      else if (0 <=? c) && (c <? 32) then None
      else '(t, r) ← read_string l1; Some (c :: t, r)
  end.

(** A run of digits and its value. *)
Fixpoint read_number_digits (acc : Z) (l : text) : Z * text :=
  match l with
  | c :: l' => match digit_value c with Some d => read_number_digits (10 * acc + d) l' | None => (acc, l) end
  | [] => (acc, [])
  end.

Definition starts_digit (l : text) : bool :=
  match l with c :: _ => match digit_value c with Some _ => true | None => false end | [] => false end.

(** The text behind the character [c], when it starts with it. *)
Definition expect (c : Z) (l : text) : option text :=
  match l with d :: l' => if d =? c then Some l' else None | [] => None end.

(** [.] and digits, then [e] or [E], a sign and digits: what is left, and
    whether there was any of it. *)
Definition read_number_fraction (l : text) : option (bool * text) :=
  match expect 46 l with
  | Some l' => if starts_digit l' then Some (true, (read_number_digits 0 l').2) else None
  | None => Some (false, l)
  end.

Definition read_exponent (l : text) : option (bool * text) :=
  match l with
  | c :: l' =>
      if (c =? 101) || (c =? 69) then
        let l'' := match l' with d :: r => if (d =? 43) || (d =? 45) then r else l' | [] => l' end in
        if starts_digit l'' then Some (true, (read_number_digits 0 l'').2) else None
      else Some (false, l)
  | [] => Some (false, l)
  end.

Definition read_natural (l : text) : option (Z * text) :=
  match expect 48 l with
  | Some l' => Some (0, l')
  | None => if starts_digit l then Some (read_number_digits 0 l) else None
  end.

Definition read_number (l : text) : option (json * text) :=
  let '(sign, l) := match expect 45 l with Some l' => (-1, l') | None => (1, l) end in
  '(n, l) ← read_natural l;
  '(f, l) ← read_number_fraction l;
  '(x, l) ← read_exponent l;
  Some (JNumber (if f || x then None else Some (sign * n)), l).

(** What follows a given text. *)
Fixpoint after_prefix (p l : text) : option text :=
  match p with
  | [] => Some l
  | c :: p' => l ← expect c l; after_prefix p' l
  end.

(** A property that occurs again replaces the value, at its first place. *)
Fixpoint set_property (k : text) (v : json) (kvs : list (text * json)) : list (text * json) :=
  match kvs with
  | [] => [(k, v)]
  | kv :: kvs' => if bool_decide (kv.1 = k) then (k, v) :: kvs' else kv :: set_property k v kvs'
  end.

Section composite.
Variable value : text -> option (json * text).

(** The elements of an array from the first one to the closing bracket, the
    properties of an object to the closing brace. *)
Fixpoint read_elements (n : nat) (l : text) : option (list json * text) :=
  match n with
  | O => None
  | S n' =>
      '(v, l) ← value l;
      let l := skip_space l in
      match expect 93 l with
      | Some l => Some ([v], l)
      | None => l ← expect 44 l; '(vs, l) ← read_elements n' l; Some (v :: vs, l)
      end
  end.

Fixpoint read_properties (n : nat) (kvs : list (text * json)) (l : text) : option (list (text * json) * text) :=
  match n with
  | O => None
  | S n' =>
      l ← expect 34 (skip_space l);
      '(k, l) ← read_string l;
      l ← expect 58 (skip_space l);
      '(v, l) ← value l;
      let l := skip_space l in
      let kvs := set_property k v kvs in
      match expect 125 l with
      | Some l => Some (kvs, l)
      | None => l ← expect 44 l; read_properties n' kvs l
      end
  end.
End composite.

Definition read_literal (name : string) (v : json) (l : text) : option (json * text) :=
  l ← after_prefix (text_of_string name) l; Some (v, l).

(** A value; the fuel bounds the nesting and the number of elements. *)
Fixpoint read_value (fuel : nat) (t : text) : option (json * text) :=
  match fuel with
  | O => None
  | S n =>
      let t := skip_space t in
      match t with
      | [] => None
      | c :: l =>
          if c =? 123 then
            match expect 125 (skip_space l) with
            | Some l => Some (JObject [], l)
            | None => '(kvs, l) ← read_properties (read_value n) n [] l; Some (JObject kvs, l)
            end
          else if c =? 91 then
            match expect 93 (skip_space l) with
            | Some l => Some (JArray [], l)
            | None => '(vs, l) ← read_elements (read_value n) n l; Some (JArray vs, l)
            end
          else if c =? 34 then '(s, l) ← read_string l; Some (JString s, l)
          else if c =? 110 then read_literal "null" JNull t
          else if c =? 116 then read_literal "true" (JBoolean true) t
          else if c =? 102 then read_literal "false" (JBoolean false) t
          else read_number t
      end
  end.

(** [JSON.parse(t)]; every nested value and every element takes at least one
    code unit, so that the length of the text is fuel enough. *)
Definition JSON_parse (t : text) : option json :=
  '(v, r) ← read_value (S (length t)) t;
  match skip_space r with [] => Some v | _ :: _ => None end.

Example JSON_parse_ex :
  JSON_parse (List.map (fun c => if c =? 39 then 34 else c)
    (text_of_string " { 'b' : [1, -20, 1.5, 'a\u00E9\n', true] , 'a': null, 'b' : [ ] } "))
  = Some (JObject [(text_of_string "b", JArray []); (text_of_string "a", JNull)]).
Proof. reflexivity. Qed.

(** * It reads what is printed *)

(** ** Strings *)

Lemma hex_value_digit d : 0 <= d < 16 -> hex_value (hex_digit d) = Some d.
Proof.
  intros Hd. unfold hex_value, digit_value, hex_digit. destruct (Z.ltb_spec d 10).
  - assert ((48 <=? 48 + d) && (48 + d <=? 57) = true) as -> by lia. f_equal. lia.
  - assert ((48 <=? 87 + d) && (87 + d <=? 57) = false) as -> by lia.
    assert ((97 <=? 87 + d) && (87 + d <=? 102) = true) as -> by lia. f_equal. lia.
Qed.

Lemma read_unicode_escape c l t r :
  0 <= c < 65536 -> read_string l = Some (t, r) -> read_string (unicode_escape c ++ l) = Some (c :: t, r).
Proof.
  intros Hc Hl. cbn -[hex_digit hex_value Z.div Z.modulo Z.mul].
  rewrite !hex_value_digit by (apply Z.mod_pos_bound; lia). cbn -[Z.div Z.modulo Z.mul].
  rewrite Hl. cbn -[Z.div Z.modulo Z.mul]. do 3 f_equal. Z.div_mod_to_equations. lia.
Qed.

Lemma read_raw c l t r :
  c <> 34 -> c <> 92 -> (0 <=? c) && (c <? 32) = false -> read_string l = Some (t, r) -> read_string (c :: l) = Some (c :: t, r).
Proof. intros H1%Z.eqb_neq H2%Z.eqb_neq H3 Hl. cbn -[Z.leb Z.ltb]. by rewrite H1, H2, H3, Hl. Qed.

Lemma read_escape_unit c l t r :
  read_string l = Some (t, r) -> read_string (escape_unit c ++ l) = Some (c :: t, r).
Proof.
  intros Hl. unfold escape_unit.
  repeat case_match; guards; try (cbn; by rewrite Hl).
  - apply read_unicode_escape; [lia|done].
  - by apply read_raw; [..|lia|].
Qed.

Lemma read_escape_units t p r :
  (p = true -> exists d t', t = d :: t' /\ is_low d = true) ->
  read_string (escape_units p t ++ 34 :: r) = Some (t, r).
Proof.
  revert p; induction t as [|c t IH]; intros p Hp; [done|].
  cbn [escape_units]. unfold is_high, is_low in *. destruct p.
  - destruct (Hp eq_refl) as (d & t' & [= <- <-] & Hd). guards.
    apply read_raw; [lia..|]. by apply IH.
  - clear Hp. destruct ((55296 <=? c) && (c <=? 56319)) eqn:Hhi; guards.
    + destruct t as [|d t].
      * apply (read_unicode_escape c (34 :: r)); [lia|done].
      * destruct ((56320 <=? d) && (d <=? 57343)) eqn:Hlo.
        -- apply read_raw; [lia..|]. apply IH. eauto.
        -- rewrite <-app_assoc. apply read_unicode_escape; [lia|]. by apply IH.
    + case_match; rewrite <-app_assoc; guards.
      * apply read_unicode_escape; [lia|]. by apply IH.
      * apply read_escape_unit. by apply IH.
Qed.

Lemma read_quote t r : read_string (escape_units false t ++ 34 :: r) = Some (t, r).
Proof. by apply read_escape_units. Qed.

(** ** Numbers *)

Lemma digit_value_char d : (d < 10)%N -> digit_value (chr (pretty_N_char d)) = Some (Z.of_N d).
Proof. intros Hd. assert (d ∈ List.map N.of_nat (seq 0 10)) as H.
  { apply list_elem_of_In, in_map_iff. exists (N.to_nat d). split; [lia|]. apply in_seq. lia. }
  cbn in H. repeat (apply elem_of_cons in H as [->|H]; [reflexivity|]). by apply not_elem_of_nil in H.
Qed.

Lemma read_number_digits_pretty x s r :
  read_number_digits 0 (text_of_string (pretty_N_go x s) ++ r) = read_number_digits (Z.of_N x) (text_of_string s ++ r).
Proof.
  revert s; induction (N.lt_wf_0 x) as [x _ IH]; intros s.
  destruct (decide (x = 0)%N) as [->|Hx]; [done|].
  rewrite pretty_N_go_step by lia. rewrite IH by (apply N.div_lt; lia).
  cbn [text_of_string]. change (Z.of_N (Ascii.N_of_ascii (pretty_N_char (x `mod` 10)%N))) with (chr (pretty_N_char (x `mod` 10)%N)).
  cbn [read_number_digits app]. rewrite digit_value_char by (apply N.mod_lt; lia).
  pose proof (N.div_mod x 10 ltac:(lia)). f_equal. lia.
Qed.

Lemma pretty_head x s : (0 < x)%N ->
  exists d s', (0 < d < 10)%N /\ pretty_N_go x s = String (pretty_N_char d) s'.
Proof.
  revert s; induction (N.lt_wf_0 x) as [x _ IH]; intros s Hx.
  rewrite pretty_N_go_step by lia. destruct (decide (x < 10)%N) as [Hlt|Hge].
  - rewrite N.div_small, pretty_N_go_0, N.mod_small by lia. exists x, s. split; [lia|done].
  - apply IH; [apply N.div_lt; lia|]. apply N.div_str_pos. lia.
Qed.

Lemma stops_no_digit r : stops r -> starts_digit r = false.
Proof.
  destruct r as [|c r]; [done|]. cbn. unfold number_unit, is_digit, digit_value. intros H.
  destruct ((48 <=? c) && (c <=? 57)) eqn:E; [|done]. guards. destruct H. left. lia.
Qed.

Lemma read_number_digits_stop n r : starts_digit r = false -> read_number_digits n r = (n, r).
Proof. destruct r as [|c r]; cbn; [done|]. by destruct (digit_value c). Qed.

Lemma read_natural_pretty (x : N) r :
  starts_digit r = false -> read_natural (text_of_string (pretty x) ++ r) = Some (Z.of_N x, r).
Proof.
  intros Hr. unfold pretty, pretty_N. case_decide as Hx; [subst; done|].
  pose proof (read_number_digits_pretty x "" r) as H. rewrite (read_number_digits_stop _ r) in H by done.
  destruct (pretty_head x "") as (d & s' & Hd & Hs); [lia|]. rewrite Hs in *. cbn in H |- *.
  pose proof (digit_value_char d ltac:(lia)) as Hv. unfold read_natural. cbn.
  change (Z.of_N (Ascii.N_of_ascii (pretty_N_char d))) with (chr (pretty_N_char d)) in *.
  destruct (Z.eqb_spec (chr (pretty_N_char d)) 48) as [E|_].
  { rewrite E in Hv. cbn in Hv. injection Hv. lia. }
  rewrite Hv in *. by rewrite H.
Qed.

(** What may follow a printed value. *)
Definition closing (r : text) : Prop :=
  match r with [] => True | c :: _ => c = 44 \/ c = 93 \/ c = 125 end.

Lemma closing_stops r : closing r -> stops r.
Proof. destruct r as [|c r]; cbn; [done|]. unfold number_unit, is_digit. lia. Qed.

Lemma read_number_string n r : closing r -> read_number (text_of_string (num_to_string n) ++ r) = Some (JNumber (Some n), r).
Proof.
  intros Hc. pose proof (stops_no_digit r (closing_stops r Hc)) as Hr. unfold read_number.
  assert (read_number_fraction r = Some (false, r) /\ read_exponent r = Some (false, r)) as [Hf Hx].
  { destruct r as [|c r]; [done|]. unfold read_number_fraction, read_exponent. cbn in Hc |- *.
    destruct Hc as [->|[->| ->]]; done. }
  destruct n as [|m|m].
  - change (text_of_string (num_to_string 0) ++ r) with (48 :: r). cbn -[read_number_fraction read_exponent]. rewrite Hf. cbn -[read_exponent]. by rewrite Hx.
  - change (num_to_string (Z.pos m)) with (pretty (N.pos m)).
    pose proof (read_natural_pretty (N.pos m) r Hr) as H.
    destruct (pretty_head (N.pos m) "") as (d & s' & Hd & Hs); [lia|].
    assert (expect 45 (text_of_string (pretty (N.pos m)) ++ r) = None) as ->.
    { unfold pretty, pretty_N. case_decide; [done|]. rewrite Hs. cbn.
      pose proof (digit_value_char d ltac:(lia)) as Hv. unfold chr in Hv.
      destruct (Z.eqb_spec (Z.of_N (Ascii.N_of_ascii (pretty_N_char d))) 45) as [E|]; [|done].
      rewrite E in Hv. discriminate Hv. }
    rewrite H. cbn -[read_number_fraction read_exponent]. rewrite Hf. cbn -[read_exponent]. rewrite Hx. done.
  - change (text_of_string (num_to_string (Z.neg m)) ++ r) with (45 :: text_of_string (pretty (N.pos m)) ++ r).
    cbn -[pretty read_natural read_number_fraction read_exponent]. rewrite (read_natural_pretty (N.pos m)) by done.
    cbn -[read_number_fraction read_exponent]. rewrite Hf. cbn -[read_exponent]. by rewrite Hx.
Qed.

(** ** Values *)

(** No object has two properties of one name. *)
Inductive distinct : json -> Prop :=
| d_null : distinct JNull
| d_undefined : distinct JUndefined
| d_boolean b : distinct (JBoolean b)
| d_number n : distinct (JNumber n)
| d_string t : distinct (JString t)
| d_array l : Forall distinct l -> distinct (JArray l)
| d_object kvs : NoDup kvs.*1 -> Forall (fun kv => distinct kv.2) kvs -> distinct (JObject kvs).

Lemma set_property_fresh k v kvs : k ∉ kvs.*1 -> set_property k v kvs = kvs ++ [(k, v)].
Proof.
  induction kvs as [|[k' v'] kvs IH]; cbn; [done|]. intros [Hne Hk]%not_elem_of_cons.
  rewrite bool_decide_eq_false_2 by (cbn; congruence). by rewrite IH.
Qed.

Lemma skip_space_head c l : is_space c = false -> skip_space (c :: l) = c :: l.
Proof. cbn. by intros ->. Qed.

Lemma skip_closing r : closing r -> skip_space r = r.
Proof. destruct r as [|c r]; [done|]. cbn. by intros [->|[->| ->]]. Qed.

(** A printed value starts with no space and no closing bracket. *)
Lemma render_start v : printable v -> exists c t, render v = c :: t /\ is_space c = false /\ c <> 93 /\ c <> 125.
Proof.
  destruct 1 as [|[]|n|t|l|kvs]; cbn [render];
    try (eexists _, _; split; [reflexivity|split; [reflexivity|split; vm_compute; discriminate]]).
  destruct (num_to_string_head n) as (c & t & -> & Hc). eexists _, _. split; [reflexivity|].
  unfold number_unit, is_digit in Hc. unfold is_space. lia.
Qed.

(** [value] reads the printed [v] whenever [n] is at least its length. *)
Definition reads (fuel : nat) (v : json) : Prop :=
  forall r, closing r -> (length (render v) <= fuel)%nat -> read_value fuel (render v ++ r) = Some (v, r).

Lemma closing_comma r : closing (44 :: r). Proof. cbn; auto. Qed.
Lemma closing_bracket r : closing (93 :: r). Proof. cbn; auto. Qed.
Lemma closing_brace r : closing (125 :: r). Proof. cbn; auto. Qed.
#[local] Hint Resolve closing_comma closing_bracket closing_brace : core.

Lemma join_head sep t l : exists rest, join sep (t :: l) = t ++ rest /\
  (l <> [] -> rest = sep ++ join sep l) /\ (l = [] -> rest = []).
Proof. destruct l as [|u l]; [exists []; by rewrite app_nil_r|]. eexists. split; [reflexivity|]. done. Qed.

Lemma read_elements_render fuel n l r :
  l <> [] -> Forall printable l -> Forall (reads fuel) l -> (length l <= n)%nat ->
  Forall (fun v => length (render v) <= fuel)%nat l ->
  read_elements (read_value fuel) n (join [44] (List.map render l) ++ 93 :: r) = Some (l, r).
Proof.
  revert n; induction l as [|v l IH]; intros n Hne Hp Hr Hn Hl; [done|]. clear Hne.
  destruct n as [|n]; [cbn in Hn; lia|]. cbn in Hn.
  apply Forall_cons in Hp as [Hpv Hp], Hr as [Hrv Hr], Hl as [Hlv Hl].
  destruct l as [|w l].
  - cbn -[expect]. rewrite Hrv by auto. cbn. done.
  - change (join [44] (List.map render (v :: w :: l))) with (render v ++ [44] ++ join [44] (List.map render (w :: l))).
    rewrite <-!app_assoc. cbn [read_elements]. change ([44] ++ join [44] (List.map render (w :: l)) ++ 93 :: r)
      with (44 :: join [44] (List.map render (w :: l)) ++ 93 :: r).
    rewrite Hrv by auto. cbn [mbind option_bind]. rewrite skip_closing by auto. cbn [expect]. cbn [Z.eqb Pos.eqb mbind option_bind].
    rewrite IH by (done || lia). done.
Qed.

Definition render_property (kv : text * json) : text := json_quote kv.1 ++ [58] ++ render kv.2.

Lemma read_properties_render fuel n kvs acc r :
  kvs <> [] -> NoDup (acc ++ kvs).*1 -> Forall (fun kv => reads fuel kv.2) kvs -> (length kvs <= n)%nat ->
  Forall (fun kv => length (render kv.2) <= fuel)%nat kvs ->
  read_properties (read_value fuel) n acc (join [44] (List.map render_property kvs) ++ 125 :: r) = Some (acc ++ kvs, r).
Proof.
  revert n acc; induction kvs as [|[k v] kvs IH]; intros n acc Hne Hd Hr Hn Hl; [done|]. clear Hne.
  destruct n as [|n]; [cbn in Hn; lia|]. cbn in Hn.
  apply Forall_cons in Hr as [Hrv Hr], Hl as [Hlv Hl]. cbn [snd] in *.
  assert (k ∉ acc.*1) as Hk.
  { rewrite fmap_app in Hd. apply NoDup_app in Hd as (_ & Hd & _). intros Hin. apply (Hd _ Hin), list_elem_of_here. }
  assert (acc ++ (k, v) :: kvs = (acc ++ [(k, v)]) ++ kvs) as Hacc by by rewrite <-app_assoc.
  assert (forall rest, closing rest -> read_properties (read_value fuel) (S n) acc (render_property (k, v) ++ rest) =
    match expect 125 rest with
    | Some l => Some (acc ++ [(k, v)], l)
    | None => l ← expect 44 rest; read_properties (read_value fuel) n (acc ++ [(k, v)]) l
    end) as Hstep.
  { intros rest Hrest. unfold render_property, json_quote. cbn [fst snd]. rewrite <-!app_assoc. cbn [app read_properties].
    rewrite skip_space_head by done. cbn [expect Z.eqb Pos.eqb mbind option_bind].
    rewrite read_quote. cbn [mbind option_bind]. rewrite skip_space_head by done. cbn [expect Z.eqb Pos.eqb mbind option_bind].
    rewrite Hrv by done. cbn [mbind option_bind]. by rewrite skip_closing, set_property_fresh by done. }
  destruct kvs as [|kv' kvs].
  - cbn [List.map join]. by rewrite Hstep by auto.
  - change (join [44] (List.map render_property ((k, v) :: kv' :: kvs))) with
      (render_property (k, v) ++ 44 :: join [44] (List.map render_property (kv' :: kvs))).
    rewrite <-app_assoc, Hstep by (cbn; auto). cbn [app expect Z.eqb Pos.eqb mbind option_bind].
    rewrite Hacc in *. rewrite IH by (done || lia). done.
Qed.

Lemma length_join_le {A} (f : A -> text) x l : x ∈ l -> (length (f x) <= length (join [44%Z] (List.map f l)))%nat.
Proof.
  induction l as [|y l IH]; [by intros ?%not_elem_of_nil|]. rewrite elem_of_cons. cbn [List.map]. rewrite join_cons, length_app.
  intros [->|Hx%IH]; [lia|]. destruct l as [|z l]; [cbn in *; lia|]. cbn [List.map] in Hx. rewrite join_cons in Hx.
  cbn [List.map concat]. rewrite !length_app in *. cbn [length]. lia.
Qed.

Lemma length_join_count {A} (f : A -> text) l : (forall x, x ∈ l -> 1 <= length (f x))%nat ->
  (length l <= length (join [44%Z] (List.map f l)))%nat.
Proof.
  intros Hf. destruct l as [|y l]; [done|]. cbn [List.map]. rewrite join_cons, length_app. cbn [length].
  pose proof (Hf y (list_elem_of_here _ _)). enough (length l <= length (concat (List.map (app [44%Z]) (List.map f l))))%nat by lia.
  clear. induction l as [|z l IH]; [done|]. cbn [List.map concat]. rewrite !length_app. cbn [length]. lia.
Qed.

Lemma join_not_nil {A} (f : A -> text) (x : A) l r : exists rest, join [44%Z] (List.map f (x :: l)) ++ r = f x ++ rest.
Proof. cbn [List.map]. rewrite join_cons, <-app_assoc. eauto. Qed.

(** Any printed value is read back, whatever closes it. *)
Lemma read_value_render v fuel : printable v -> distinct v -> reads fuel v.
Proof.
  intros Hp Hd; revert fuel Hp Hd. induction v as [| |b|[n|]|t|l IH|kvs IH] using json_nested_ind;
    intros fuel Hp Hd r Hr Hl; inversion Hp; subst; cbn [render] in Hl; rewrite ?length_app in Hl;
    (destruct fuel as [|fuel]; [cbn in Hl; try (destruct b; cbn in Hl); try (pose proof (num_to_string_nonempty n); destruct (num_to_string n); [done|]; cbn in Hl); lia|]);
    cbn [render].
  - done.
  - by destruct b.
  - destruct (num_to_string_head n) as (c & t & E & Hc). pose proof (read_number_string n r Hr) as H. rewrite E in *.
    cbn [app read_value] in *. unfold number_unit, is_digit in Hc. rewrite skip_space_head by (unfold is_space; lia).
    repeat match goal with |- context [c =? ?x] => rewrite (proj2 (Z.eqb_neq c x)) by lia end. exact H.
  - unfold json_quote. rewrite <-!app_assoc. cbn [app read_value]. rewrite skip_space_head by done. cbn [Z.eqb Pos.eqb].
    by rewrite read_quote.
  - inversion Hd; subst. rewrite <-!app_assoc. cbn [app read_value]. rewrite skip_space_head by done. cbn [Z.eqb Pos.eqb].
    destruct l as [|v l]; [done|]. inversion H0; subst.
    destruct (render_start v) as (c & t & Hv & Hsp & Hne & _); [done|].
    destruct (join_not_nil render v l (93 :: r)) as [rest Hj]. rewrite Hj, Hv. cbn [app].
    rewrite skip_space_head by done. cbn [expect]. rewrite (proj2 (Z.eqb_neq c 93)) by done.
    change (c :: t ++ rest) with ((c :: t) ++ rest). rewrite <-Hv, <-Hj.
    assert (length (join [44%Z] (List.map render (v :: l))) <= fuel)%nat as Hl'.
    { revert Hl. rewrite ?length_app. cbn [length]. lia. }
    rewrite read_elements_render; [done|done|done| | |].
    + rewrite Forall_forall in IH, H0, H1 |- *. intros w Hw. by apply IH; auto.
    + etrans; [apply (length_join_count render)|exact Hl'].
      intros w Hw. rewrite Forall_forall in H0. destruct (render_start w) as (? & ? & -> & _); [by apply H0|]. cbn. lia.
    + apply Forall_forall. intros w Hw. pose proof (length_join_le render w _ Hw). lia.
  - inversion Hd; subst. rewrite <-!app_assoc. cbn [app read_value]. rewrite skip_space_head by done. cbn [Z.eqb Pos.eqb].
    destruct kvs as [|kv kvs]; [done|].
    change (fun kv : text * json => json_quote kv.1 ++ 58 :: render kv.2) with render_property in *.
    change (fun kv : text * json => json_quote kv.1 ++ [58] ++ render kv.2) with render_property in *.
    destruct (join_not_nil render_property kv kvs (125 :: r)) as [rest Hj].
    assert (exists t, render_property kv = 34 :: t) as [t Ht] by by eexists.
    rewrite Hj, Ht. cbn [app]. rewrite skip_space_head by done. cbn [expect Z.eqb Pos.eqb].
    change (34 :: t ++ rest) with ((34 :: t) ++ rest). rewrite <-Ht, <-Hj.
    assert (length (join [44%Z] (List.map render_property (kv :: kvs))) <= fuel)%nat as Hl'.
    { revert Hl. rewrite ?length_app. cbn [length]. lia. }
    rewrite read_properties_render; [done|done|done| | |].
    + match goal with Hd : Forall (fun kv => distinct kv.2) _ |- _ => rewrite Forall_forall in IH, H0, Hd |- * end.
      intros w Hw. by apply IH; auto.
    + etrans; [apply (length_join_count render_property)|exact Hl']. intros w Hw. cbn. lia.
    + apply Forall_forall. intros w Hw. pose proof (length_join_le render_property w _ Hw) as Hle.
      unfold render_property in Hle at 1. rewrite !length_app in Hle. lia.
Qed.

Lemma NoDup_filtered_keys {V} (P : text * V -> bool) (kvs : list (text * V)) : NoDup kvs.*1 -> NoDup (List.filter P kvs).*1.
Proof.
  induction kvs as [|kv kvs IH]; cbn; [done|]. intros [Hk Hnd]%NoDup_cons. destruct (P kv); [|by apply IH]. cbn. apply NoDup_cons.
  split; [|by apply IH]. intros (x & Hx & Hin)%list_elem_of_fmap. apply list_elem_of_In, filter_In in Hin as [Hin _].
  destruct Hk. rewrite Hx. apply list_elem_of_fmap. exists x. split; [done|by apply list_elem_of_In].
Qed.

Lemma distinct_canonical v : distinct v -> distinct (canonical v).
Proof.
  induction v as [| |b|n|t|l IH|kvs IH] using json_nested_ind; inversion 1; subst; try by constructor.
  - constructor. rewrite Forall_forall in *. intros w (x & <- & Hx)%list_elem_of_In%in_map_iff. apply list_elem_of_In in Hx. auto.
  - rewrite canonical_object. constructor.
    + enough ((List.map (fun kv => (kv.1, canonical kv.2)) (sorted_entries is_undefined kvs)).*1 = (sorted_entries is_undefined kvs).*1) as ->.
      { unfold sorted_entries. rewrite js_sort_Permutation. by apply NoDup_filtered_keys. }
      generalize (sorted_entries is_undefined kvs). clear. intros l. induction l; cbn; congruence.
    + rewrite Forall_forall in *. intros w (x & <- & [Hx _]%list_elem_of_In%elem_of_sorted_entries)%list_elem_of_In%in_map_iff.
      cbn. auto.
Qed.

(** [JSON.parse] returns the value [canonicalJson] has printed, up to what
    printing forgets. *)
Lemma JSON_parse_canonicalJson v t : distinct v -> canonicalJson v = Ok t -> JSON_parse t = Some (canonical v).
Proof.
  intros Hd [-> Hp]%canonicalJson_render. unfold JSON_parse.
  pose proof (read_value_render _ (S (length (render (canonical v)))) Hp (distinct_canonical _ Hd) [] I) as H.
  rewrite app_nil_r in H. by rewrite H by lia.
Qed.

(** Printing what has been read back gives the same text. *)
Lemma sorted_entries_idem {V} (u : V -> bool) kvs : sorted_entries u (sorted_entries u kvs) = sorted_entries u kvs.
Proof.
  unfold sorted_entries at 1.
  assert (List.filter (fun kv => negb (u kv.2)) (sorted_entries u kvs) = sorted_entries u kvs) as ->.
  { assert (Forall (fun kv => u kv.2 = false) (sorted_entries u kvs)) as H by (apply Forall_forall; by intros kv [_ ?]%elem_of_sorted_entries).
    induction H as [|kv l Hu _ IH]; cbn; [done|]. by rewrite Hu, IH. }
  unfold sorted_entries. apply (js_sort_sorted entry_compare), (js_sort_StronglySorted entry_compare).
Qed.

Lemma canonicalJson_canonical v : canonicalJson (canonical v) = canonicalJson v.
Proof.
  induction v as [| |b|[n|]|s|l IH|kvs IH] using json_nested_ind; try done.
  - cbn. f_equal. f_equal. rewrite List.map_map. induction IH as [|v l Hv _ IH']; cbn; [done|]. by rewrite Hv, IH'.
  - rewrite canonical_object. cbn.
    rewrite !(sorted_entries_map is_undefined fst (fun v => (is_undefined v, canonicalJson v))) by done.
    rewrite (sorted_entries_map is_undefined is_undefined canonical) by apply is_undefined_canonical.
    rewrite sorted_entries_idem. f_equal. f_equal. rewrite List.map_map.
    apply map_ext_Forall. apply Forall_forall. intros kv [Hkv _]%elem_of_sorted_entries. cbn.
    by rewrite (proj1 (Forall_forall _ _) IH kv Hkv), is_undefined_canonical.
Qed.

(** * Readers *)

Definition r_text (j : json) : option text := match j with JString t => Some t | _ => None end.
Definition r_num (j : json) : option Z := match j with JNumber n => n | _ => None end.
Definition r_bool (j : json) : option bool := match j with JBoolean b => Some b | _ => None end.

(** Identifiers and the like, which the schemas confine to bytes. *)
Definition r_str (j : json) : option string :=
  t ← r_text j; if forallb (between 0 255) t then Some (string_of_text t) else None.

(** [z.literal(n)], [z.literal(s)]. *)
Definition r_literal_num (n : Z) (j : json) : option unit := m ← r_num j; guard (m = n);; Some tt.
Definition r_literal (s : string) (j : json) : option unit := t ← r_str j; guard (t = s);; Some tt.

(** [z.enum(...)]. *)
Definition r_enum {A} (name : A -> string) (members : list A) (j : json) : option A :=
  s ← r_str j; List.find (fun a => bool_decide (name a = s)) members.

(** [.optional()], [.nullable()], [z.array(...)]. *)
Definition r_opt {A} (g : json -> option A) (j : json) : option (option A) :=
  match j with JUndefined => Some None | _ => Some <$> g j end.
Definition r_null {A} (g : json -> option A) (j : json) : option (option A) :=
  match j with JNull => Some None | _ => Some <$> g j end.
Definition r_list {A} (g : json -> option A) (j : json) : option (list A) :=
  match j with JArray l => mapM g l | _ => None end.

(** The properties of an object; [z.strictObject] admits no others. *)
Definition r_object (j : json) : option (list (text * json)) := match j with JObject kvs => Some kvs | _ => None end.

Definition r_strict (keys : list string) (j : json) : option (list (text * json)) :=
  kvs ← r_object j;
  if forallb (fun kv => existsb (fun k => bool_decide (kv.1 = text_of_string k)) keys) kvs then Some kvs else None.

Fixpoint property (k : text) (kvs : list (text * json)) : json :=
  match kvs with
  | [] => JUndefined
  | kv :: kvs' => if bool_decide (kv.1 = k) then kv.2 else property k kvs'
  end.

Definition r_field {A} (g : json -> option A) (k : string) (kvs : list (text * json)) : option A :=
  g (property (text_of_string k) kvs).

(** * The law *)

(** [g] reads what [f] writes. *)
Class JsonReads {A} (f : A -> json) (g : json -> option A) : Prop := read_back a : g (canonical (f a)) = Some a.

(** What [f] writes has no object with two properties of one name. *)
Class JsonPlain {A} (f : A -> json) : Prop := plain a : distinct (f a).

#[export] Instance JString_reads : JsonReads JString r_text. Proof. done. Qed.
#[export] Instance jnum_reads : JsonReads jnum r_num. Proof. done. Qed.
#[export] Instance JBoolean_reads : JsonReads JBoolean r_bool. Proof. done. Qed.

Lemma text_of_string_units s : forallb (between 0 255) (text_of_string s) = true.
Proof.
  induction s as [|c s IH]; cbn; [done|]. rewrite IH, andb_true_r. unfold between.
  pose proof (Ascii.N_ascii_bounded c). rewrite andb_true_iff, !Z.leb_le. lia.
Qed.

#[export] Instance jstr_reads : JsonReads jstr r_str.
Proof. intros s. unfold r_str. cbn. by rewrite text_of_string_units, string_of_text_of_string. Qed.

Lemma r_str_jstr s : r_str (jstr s) = Some s.
Proof. apply (read_back (f := jstr)). Qed.

Lemma r_literal_jstr s : r_literal s (jstr s) = Some tt.
Proof. unfold r_literal. rewrite r_str_jstr. cbn. by rewrite option_guard_True. Qed.

Lemma find_member {A} (name : A -> string) members a :
  Inj (=) (=) name -> a ∈ members -> List.find (fun b => bool_decide (name b = name a)) members = Some a.
Proof.
  intros Hinj. induction members as [|b members IH]; [by intros ?%not_elem_of_nil|]. cbn. case_bool_decide as Hb.
  - intros _. f_equal. by apply Hinj.
  - intros [->|Ha]%elem_of_cons; [done|by apply IH].
Qed.

Lemma enum_reads {A} (name : A -> string) members :
  Inj (=) (=) name -> (forall a, a ∈ members) -> JsonReads (fun a => jstr (name a)) (r_enum name members).
Proof.
  intros Hinj Hall a. unfold r_enum. change (canonical (jstr (name a))) with (jstr (name a)). rewrite r_str_jstr.
  cbn. by apply find_member.
Qed.

#[export] Instance name_value {A} (name : A -> string) `{!Inj (=) (=) name} : JsonValue (fun a => jstr (name a)).
Proof. split; [|done|done]. intros a b [= H%text_of_string_inj]. by apply (inj name). Qed.

#[export] Instance r_opt_reads {A} (f : A -> json) g `{!JsonValue f} `{!JsonReads f g} : JsonReads (jopt f) (r_opt g).
Proof.
  intros [a|]; [|done]. cbn [jopt]. pose proof (json_defined (f := f) a) as Hu. rewrite <-is_undefined_canonical in Hu.
  pose proof (read_back a) as Hr. unfold r_opt. destruct (canonical (f a)); try discriminate Hu; by rewrite Hr.
Qed.

#[export] Instance r_null_reads {A} (f : A -> json) g `{!JsonValue f} `{!JsonReads f g} : JsonReads (jnull f) (r_null g).
Proof.
  intros [a|]; [|done]. cbn [jnull]. pose proof (json_not_null (f := f) a) as Hn.
  pose proof (read_back a) as Hr. unfold r_null. destruct (canonical (f a)); try done; by rewrite Hr.
Qed.

#[export] Instance r_opt_null_reads {A} (f : A -> json) g `{!JsonValue f} `{!JsonReads f g} :
  JsonReads (jopt (jnull f)) (r_opt (r_null g)).
Proof.
  intros [o|]; [|done]. cbn [jopt]. pose proof (read_back (f := jnull f) o) as Hr.
  unfold r_opt. destruct (canonical (jnull f o)) eqn:E; try by rewrite Hr.
  exfalso. destruct o as [a|]; cbn in E; [|done]. pose proof (json_defined (f := f) a) as Hu.
  rewrite <-is_undefined_canonical, E in Hu. done.
Qed.

#[export] Instance r_list_reads {A} (f : A -> json) g `{!JsonReads f g} : JsonReads (jlist f) (r_list g).
Proof.
  intros l. cbn. rewrite List.map_map. induction l as [|a l IH]; [done|]. cbn. rewrite read_back. cbn. by rewrite IH.
Qed.

#[export] Instance JString_plain : JsonPlain JString. Proof. constructor. Qed.
#[export] Instance jstr_plain : JsonPlain jstr. Proof. constructor. Qed.
#[export] Instance jnum_plain : JsonPlain jnum. Proof. constructor. Qed.
#[export] Instance JBoolean_plain : JsonPlain JBoolean. Proof. constructor. Qed.
#[export] Instance name_plain {A} (name : A -> string) : JsonPlain (fun a => jstr (name a)). Proof. constructor. Qed.
#[export] Instance jopt_plain {A} (f : A -> json) `{!JsonPlain f} : JsonPlain (jopt f).
Proof. intros [a|]; [apply (plain (f := f))|constructor]. Qed.
#[export] Instance jnull_plain {A} (f : A -> json) `{!JsonPlain f} : JsonPlain (jnull f).
Proof. intros [a|]; [apply (plain (f := f))|constructor]. Qed.
#[export] Instance jlist_plain {A} (f : A -> json) `{!JsonPlain f} : JsonPlain (jlist f).
Proof. intros l. constructor. induction l; cbn; constructor; [apply (plain (f := f))|done]. Qed.

(** * Objects *)

(** The properties an object prints. *)
Definition entries (fs : list (string * json)) : list (text * json) :=
  List.map (fun kv => (kv.1, canonical kv.2)) (sorted_entries is_undefined (List.map (fun f => (text_of_string f.1, f.2)) fs)).

Fixpoint assoc (k : string) (fs : list (string * json)) : option json :=
  match fs with
  | [] => None
  | f :: fs' => if String.eqb f.1 k then Some f.2 else assoc k fs'
  end.

Lemma canonical_jobj fs : canonical (jobj fs) = JObject (entries fs).
Proof. unfold jobj. apply canonical_object. Qed.

Lemma entries_keys fs kv : kv ∈ entries fs -> exists k, kv.1 = text_of_string k /\ k ∈ List.map fst fs.
Proof.
  destruct kv as [t v]. unfold entries. rewrite elem_of_canonical_entries.
  intros (w & [[k v'] [[= <- <-] Hin]]%list_elem_of_In%in_map_iff & _). exists k. split; [done|].
  apply list_elem_of_In, in_map_iff. by exists (k, v').
Qed.

Lemma r_strict_jobj keys fs : List.map fst fs = keys -> r_strict keys (canonical (jobj fs)) = Some (entries fs).
Proof.
  intros <-. rewrite canonical_jobj. unfold r_strict. cbn.
  assert (forallb (fun kv => existsb (fun k => bool_decide (kv.1 = text_of_string k)) (List.map fst fs)) (entries fs) = true) as ->; [|done].
  apply forallb_forall. intros kv (k & Hk & Hin)%list_elem_of_In%entries_keys. apply existsb_exists. exists k.
  split; [by apply list_elem_of_In|]. by apply bool_decide_eq_true.
Qed.

Lemma property_spec k v kvs : NoDup kvs.*1 -> (k, v) ∈ kvs -> property k kvs = v.
Proof.
  induction kvs as [|kv kvs IH]; [by intros _ ?%not_elem_of_nil|]. cbn. intros [Hk Hnd]%NoDup_cons [<-|Hin]%elem_of_cons.
  - by rewrite bool_decide_eq_true_2.
  - case_bool_decide as E; [|by apply IH]. destruct Hk. rewrite E. apply list_elem_of_fmap. by exists (k, v).
Qed.

Lemma property_absent k kvs : k ∉ kvs.*1 -> property k kvs = JUndefined.
Proof.
  induction kvs as [|kv kvs IH]; [done|]. cbn. intros [Hne Hk]%not_elem_of_cons.
  rewrite bool_decide_eq_false_2 by congruence. by apply IH.
Qed.

Lemma assoc_elem k v fs : assoc k fs = Some v -> (k, v) ∈ fs.
Proof.
  induction fs as [|[k' v'] fs IH]; cbn; [done|]. destruct (String.eqb_spec k' k) as [->|_].
  - intros [= <-]. apply list_elem_of_here.
  - intros H. by apply list_elem_of_further, IH.
Qed.

Lemma entries_NoDup fs : NoDup (List.map fst fs) -> NoDup (entries fs).*1.
Proof.
  intros Hnd.
  assert (NoDup (List.map (fun f : string * json => (text_of_string f.1, f.2)) fs).*1) as Hnd'.
  { rewrite text_of_string_fields. apply NoDup_fmap_2; [intros ? ?; apply text_of_string_inj|done]. }
  unfold entries. clear Hnd. revert Hnd'. generalize (List.map (fun f : string * json => (text_of_string f.1, f.2)) fs).
  intros kvs Hnd. assert ((List.map (fun kv => (kv.1, canonical kv.2)) (sorted_entries is_undefined kvs)).*1 = (sorted_entries is_undefined kvs).*1) as ->.
  { generalize (sorted_entries is_undefined kvs). clear. intros l. induction l; cbn; congruence. }
  unfold sorted_entries. rewrite js_sort_Permutation. by apply NoDup_filtered_keys.
Qed.

(** A reader of a property sees what was written under its name. *)
Lemma field_entries {A} (g : json -> option A) k v fs :
  NoDup (List.map fst fs) -> assoc k fs = Some v -> r_field g k (entries fs) = g (canonical v).
Proof.
  intros Hnd Hv%assoc_elem. pose proof (entries_NoDup fs Hnd) as Hnd'. unfold r_field. f_equal.
  destruct (is_undefined v) eqn:Hu.
  - assert (v = JUndefined) as -> by by destruct v. apply property_absent.
    intros ([t w] & Ht & Hin)%list_elem_of_fmap. cbn in Ht. subst t. unfold entries in Hin.
    apply elem_of_canonical_entries in Hin as (u & [[k' u'] [[= Hk <-] Hin]]%list_elem_of_In%in_map_iff & Hs).
    apply text_of_string_inj in Hk as ->. apply list_elem_of_In in Hin.
    assert (u' = JUndefined) as ->; [|done]. by apply (keyed_unique fs k).
  - apply property_spec; [done|]. unfold entries. apply elem_of_canonical_entries. exists v. unfold shown. rewrite Hu. split; [|done].
    apply list_elem_of_In, in_map_iff. exists (k, v). split; [done|by apply list_elem_of_In].
Qed.

Lemma jobj_distinct fs : NoDup (List.map fst fs) -> Forall (fun f => distinct f.2) fs -> distinct (jobj fs).
Proof.
  intros Hnd Hd. constructor.
  - rewrite text_of_string_fields. apply NoDup_fmap_2; [intros ? ?; apply text_of_string_inj|done].
  - apply Forall_forall. intros kv ([k v] & <- & Hin%list_elem_of_In)%list_elem_of_In%in_map_iff. cbn.
    by apply (proj1 (Forall_forall _ _) Hd (k, v)).
Qed.

(** Solve [JsonReads]: open the object, then read property after property. *)
Fixpoint all_distinct (l : list string) : bool :=
  match l with [] => true | x :: l' => negb (existsb (String.eqb x) l') && all_distinct l' end.

Lemma all_distinct_NoDup l : all_distinct l = true -> NoDup l.
Proof.
  induction l as [|x l IH]; cbn; [constructor|]. intros [Hx Hl]%andb_true_iff. apply NoDup_cons. split; [|by apply IH].
  intros Hin%list_elem_of_In. apply negb_true_iff, not_true_iff_false in Hx. apply Hx, existsb_exists. exists x.
  by rewrite String.eqb_refl.
Qed.

Ltac names_distinct := apply all_distinct_NoDup; reflexivity.

Lemma read_step {A B} (g : json -> option A) k v fs a (K : A -> option B) r :
  NoDup (List.map fst fs) -> assoc k fs = Some v -> g (canonical v) = Some a -> K a = r ->
  (r_field g k (entries fs) ≫= K) = r.
Proof. intros Hnd Hv Ha HK. rewrite (field_entries g k v) by done. by rewrite Ha. Qed.

Lemma open_step {J A B} (r : J -> option A) j e (K : A -> option B) res : r j = Some e -> K e = res -> (r j ≫= K) = res.
Proof. by intros -> HK. Qed.

Lemma r_object_jobj fs : r_object (canonical (jobj fs)) = Some (entries fs).
Proof. by rewrite canonical_jobj. Qed.

Ltac read_value :=
  cbn [snd]; lazymatch goal with
  | |- r_literal _ _ = _ => apply r_literal_jstr
  | |- r_literal_num _ _ = _ => reflexivity
  | |- ?g (canonical ?v) = _ => lazymatch v with
    | jstr (?name ?a) => first
        [ exact (read_back (f := jstr) (g := g) (name a))
        | exact (read_back (f := fun x => jstr (name x)) (g := g) a) ]
    | ?f ?a => exact (read_back (f := f) (g := g) a)
    end
  end.

Ltac read_fields :=
  repeat lazymatch goal with
  | |- (r_field _ _ (entries _) ≫= _) = _ =>
      eapply read_step; [eassumption|reflexivity|solve [read_value]|cbv beta]
  end.

Ltac open_record := first
  [ eapply open_step; [first [by apply r_strict_jobj|apply r_object_jobj]|cbv beta] ];
  match goal with |- context [entries ?fs] => assert (NoDup (List.map fst fs)) by names_distinct end.

Ltac read_record reader writer := intros x; unfold reader, writer; open_record; read_fields; by destruct x.

Ltac plain_values := repeat (apply Forall_cons; split; [cbn [snd]; first
  [apply d_string | apply d_number | apply d_boolean | match goal with |- distinct (?f ?a) => apply (plain (f := f)) end]|]); apply Forall_nil_2.

Ltac plain_record := intros x; apply jobj_distinct; [names_distinct|plain_values].
