(* ===== verification/ControlState.v ===== *)
(** ControlState: the facts of the control projection (src/control/reducer.ts).

    An optional field of a fact is an [option]; a [Record<string, T>] is an
    [obj T]. [ControlProjection] keeps the fields of the source's type except
    [observability] and [multirepo], which no handler of the modelled event
    families reads: they are written by the [observation.*] and [multirepo.*]
    handlers and by the refresh of the control-room rows, a view derived from
    the fields kept here. *)
From S2P Require Import Prelude Text Json Ids ScmTypes ControlEvents EventSchema.

Record TaskFact := {
  tf_id : string;
  tf_generation : Z;
  tf_title : text;
  tf_assignee : string;
  tf_createdBy : string;
  tf_description : text;
  tf_acceptanceCriteria : list text;
  tf_dependsOn : list string;
  tf_priority : Z;
  tf_createdAt : string;
  tf_files : option (list text);
  tf_status : ControlTaskStatus;
  tf_claimedBy : option string;
  tf_lastSummary : option text;
  tf_lastUpdate : string;
  tf_attempts : Z;
  tf_version : Z;
  tf_updatedSeq : Z
}.

Record MessageFact := {
  mf_messageId : string;
  mf_seq : Z;
  mf_taskId : option string;
  mf_taskGeneration : option Z;
  mf_from : string;
  mf_to : string;
  mf_body : text;
  mf_occurredAt : string
}.

Record RuntimeFact := {
  rf_sessionId : string;
  rf_sessionGeneration : Z;
  rf_taskId : option string;
  rf_taskGeneration : option Z;
  rf_observation : RuntimeObservation;
  rf_launchId : option string;
  rf_reason : option text;
  rf_observedAt : string;
  rf_updatedSeq : Z
}.

Inductive AttemptState := att_prepared | att_active | att_exited | att_abandoned.
#[export] Instance AttemptState_eq_dec : EqDecision AttemptState. Proof. solve_decision. Defined.

Record AttemptFact := {
  af_attemptId : string;
  af_attemptGeneration : Z;
  af_taskId : string;
  af_taskGeneration : Z;
  af_sessionId : string;
  af_sessionGeneration : Z;
  af_artifactLocator : option string;
  af_promptSha256 : option string;
  af_promptBytes : option Z;
  af_rendererVersion : option Z;
  af_captureCutoffSeq : option Z;
  af_steeringCommandIds : list string;
  af_launchId : option string;
  af_pid : option Z;
  af_processStartToken : option string;
  af_state : AttemptState;
  af_outcome : option (AttemptOutcome);
  af_exitCode : option Z;
  af_summary : option text;
  af_abandonReason : option (AbandonReason);
  af_preparedSeq : option Z;
  af_launchPlannedSeq : option Z;
  af_startedSeq : option Z;
  af_exitedSeq : option Z;
  af_abandonedSeq : option Z
}.

Inductive SteeringStatus := st_pending | st_included | st_refused | st_withdrawn | st_superseded | st_expired.
#[export] Instance SteeringStatus_eq_dec : EqDecision SteeringStatus. Proof. solve_decision. Defined.

Record SteeringFact := {
  sf_commandId : string;
  sf_sessionId : string;
  sf_sessionGeneration : Z;
  sf_taskId : string;
  sf_taskGeneration : Z;
  sf_bodySha256 : string;
  sf_requestSemanticDigest : option string;
  sf_observedSeq : option Z;
  sf_observedActivity : option (ObservedActivity);
  sf_status : SteeringStatus;
  sf_admittedSeq : option Z;
  sf_terminalSeq : option Z;
  sf_notBeforeAttemptGeneration : option Z;
  sf_kind : option (SteeringCommandKind);
  sf_sourceKind : option (SteeringSourceKind);
  sf_parentPrincipal : option string;
  sf_evidenceRefs : option (list string);
  sf_body : option text;
  sf_createdAt : option string;
  sf_expiresAt : option string;
  sf_supersedesCommandId : option string;
  sf_reasonCode : option (SteeringRefusalReasonCode);
  sf_attemptId : option string;
  sf_attemptGeneration : option Z;
  sf_promptSha256 : option string;
  sf_byCommandId : option string
}.

Record ScmPublicationFact := {
  pf_publicationId : string;
  pf_generation : Z;
  pf_version : Z;
  pf_state : ScmPublicationState;
  pf_intent : ScmPublicationIntentV1;
  pf_taskId : string;
  pf_taskGeneration : Z;
  pf_observedRemoteOid : option (option string);
  pf_pullRequest : option (ScmPullRequestFactV1);
  pf_reasonCode : option string;
  pf_createdSeq : Z;
  pf_updatedSeq : Z
}.

Inductive ScmPollState := poll_started | poll_completed | poll_failed.
#[export] Instance ScmPollState_eq_dec : EqDecision ScmPollState. Proof. solve_decision. Defined.

Record ScmPollFact := {
  pl_pollId : string;
  pl_pollAttempt : Z;
  pl_publicationId : string;
  pl_publicationGeneration : Z;
  pl_taskId : string;
  pl_taskGeneration : Z;
  pl_sessionId : string;
  pl_sessionGeneration : Z;
  pl_expectedHeadSha : string;
  pl_pullRequest : ScmPullRequestIdentityV1;
  pl_guards : ScmObservationGuardsV1;
  pl_forceFullRefresh : bool;
  pl_limits : ScmProviderLimitsV1;
  pl_state : ScmPollState;
  pl_requestCount : option Z;
  pl_decodedBytes : option Z;
  pl_bucketOutcomes : option (list (ScmPollBucketOutcomeFact));
  pl_acceptedKinds : list (ScmBucketKind);
  pl_failure : option (ScmProviderFailureV1);
  pl_nextEligibleAt : option string;
  pl_startedAt : string;
  pl_startedSeq : Z;
  pl_terminalSeq : option Z
}.

Record ScmObservationBucketsFact := {
  ob_pullRequest : option (ScmFactBucketV1 ScmPullRequestFactV1);
  ob_ci : option (ScmFactBucketV1 ScmCiFactV1);
  ob_review : option (ScmFactBucketV1 ScmReviewFactV1);
  ob_mergeability : option (ScmFactBucketV1 ScmMergeabilityFactV1)
}.

Record ScmObservationFact := {
  of_publicationId : string;
  of_publicationGeneration : Z;
  of_taskId : string;
  of_taskGeneration : Z;
  of_headSha : string;
  of_buckets : ScmObservationBucketsFact;
  of_updatedSeq : Z
}.

Record ScmReactionFact := {
  rx_reactionKey : string;
  rx_publicationId : string;
  rx_publicationGeneration : Z;
  rx_taskId : string;
  rx_taskGeneration : Z;
  rx_headSha : string;
  rx_factKind : ScmReactionFactKind;
  rx_evidenceRefs : list string;
  rx_commandId : string;
  rx_sessionId : string;
  rx_sessionGeneration : Z;
  rx_notBeforeAttemptGeneration : Z;
  rx_supersedesCommandId : option string;
  rx_previewSha256 : string;
  rx_preview : text;
  rx_state : ScmReactionState;
  rx_version : Z;
  rx_steeringSeq : option Z;
  rx_reasonCode : option string;
  rx_observationSemanticHash : option string;
  rx_createdSeq : Z;
  rx_updatedSeq : Z
}.

Record ScmControlProjection := {
  scm_publications : obj ScmPublicationFact;
  scm_polls : obj ScmPollFact;
  scm_observations : obj ScmObservationFact;
  scm_reactions : obj ScmReactionFact
}.

Record AggregateVersion := {
  av_kind : AggregateKind;
  av_id : string;
  av_generation : Z;
  av_version : Z;
  av_updatedSeq : Z
}.

Inductive RunStatus := run_started_status | run_completed_status | run_failed_status | run_cancelled_status.
#[export] Instance RunStatus_eq_dec : EqDecision RunStatus. Proof. solve_decision. Defined.

Record RunFact := {
  rn_status : RunStatus;
  rn_startedBy : string;
  rn_goal : option text;
  rn_configDigest : option string;
  rn_startedAt : string;
  rn_terminalAt : option string;
  rn_reasonCode : option string;
  rn_summary : option text;
  rn_cancelledBy : option string;
  rn_checkpoint : option (LoopCheckpointFact);
  rn_version : Z;
  rn_updatedSeq : Z
}.

Record ControlProjection := {
  c_runId : string;
  c_runEpoch : string;
  c_headSeq : Z;
  c_run : option RunFact;
  c_tasks : obj TaskFact;
  c_messages : list MessageFact;
  c_runtimes : obj RuntimeFact;
  c_attempts : obj AttemptFact;
  c_steering : obj SteeringFact;
  c_scm : ScmControlProjection;
  c_aggregateVersions : obj AggregateVersion
}.

Definition emptyScmControlProjection : ScmControlProjection := {|
  scm_publications := ∅;
  scm_polls := ∅;
  scm_observations := ∅;
  scm_reactions := ∅
|}.

Definition emptyControlProjection (runId runEpoch : string) : ControlProjection := {|
  c_runId := runId;
  c_runEpoch := runEpoch;
  c_headSeq := 0;
  c_run := None;
  c_tasks := ∅;
  c_messages := [];
  c_runtimes := ∅;
  c_attempts := ∅;
  c_steering := ∅;
  c_scm := emptyScmControlProjection;
  c_aggregateVersions := ∅
|}.

(** ** Field updates: [state.f = v] on the cloned projection *)

Definition set_headSeq (s : ControlProjection) (v : Z) : ControlProjection :=
  {| c_runId := s.(c_runId);
   c_runEpoch := s.(c_runEpoch);
   c_headSeq := v;
   c_run := s.(c_run);
   c_tasks := s.(c_tasks);
   c_messages := s.(c_messages);
   c_runtimes := s.(c_runtimes);
   c_attempts := s.(c_attempts);
   c_steering := s.(c_steering);
   c_scm := s.(c_scm);
   c_aggregateVersions := s.(c_aggregateVersions) |}.

Definition set_run (s : ControlProjection) (v : option RunFact) : ControlProjection :=
  {| c_runId := s.(c_runId);
   c_runEpoch := s.(c_runEpoch);
   c_headSeq := s.(c_headSeq);
   c_run := v;
   c_tasks := s.(c_tasks);
   c_messages := s.(c_messages);
   c_runtimes := s.(c_runtimes);
   c_attempts := s.(c_attempts);
   c_steering := s.(c_steering);
   c_scm := s.(c_scm);
   c_aggregateVersions := s.(c_aggregateVersions) |}.

Definition set_tasks (s : ControlProjection) (v : obj TaskFact) : ControlProjection :=
  {| c_runId := s.(c_runId);
   c_runEpoch := s.(c_runEpoch);
   c_headSeq := s.(c_headSeq);
   c_run := s.(c_run);
   c_tasks := v;
   c_messages := s.(c_messages);
   c_runtimes := s.(c_runtimes);
   c_attempts := s.(c_attempts);
   c_steering := s.(c_steering);
   c_scm := s.(c_scm);
   c_aggregateVersions := s.(c_aggregateVersions) |}.

Definition set_messages (s : ControlProjection) (v : list MessageFact) : ControlProjection :=
  {| c_runId := s.(c_runId);
   c_runEpoch := s.(c_runEpoch);
   c_headSeq := s.(c_headSeq);
   c_run := s.(c_run);
   c_tasks := s.(c_tasks);
   c_messages := v;
   c_runtimes := s.(c_runtimes);
   c_attempts := s.(c_attempts);
   c_steering := s.(c_steering);
   c_scm := s.(c_scm);
   c_aggregateVersions := s.(c_aggregateVersions) |}.

Definition set_runtimes (s : ControlProjection) (v : obj RuntimeFact) : ControlProjection :=
  {| c_runId := s.(c_runId);
   c_runEpoch := s.(c_runEpoch);
   c_headSeq := s.(c_headSeq);
   c_run := s.(c_run);
   c_tasks := s.(c_tasks);
   c_messages := s.(c_messages);
   c_runtimes := v;
   c_attempts := s.(c_attempts);
   c_steering := s.(c_steering);
   c_scm := s.(c_scm);
   c_aggregateVersions := s.(c_aggregateVersions) |}.

Definition set_attempts (s : ControlProjection) (v : obj AttemptFact) : ControlProjection :=
  {| c_runId := s.(c_runId);
   c_runEpoch := s.(c_runEpoch);
   c_headSeq := s.(c_headSeq);
   c_run := s.(c_run);
   c_tasks := s.(c_tasks);
   c_messages := s.(c_messages);
   c_runtimes := s.(c_runtimes);
   c_attempts := v;
   c_steering := s.(c_steering);
   c_scm := s.(c_scm);
   c_aggregateVersions := s.(c_aggregateVersions) |}.

Definition set_steering (s : ControlProjection) (v : obj SteeringFact) : ControlProjection :=
  {| c_runId := s.(c_runId);
   c_runEpoch := s.(c_runEpoch);
   c_headSeq := s.(c_headSeq);
   c_run := s.(c_run);
   c_tasks := s.(c_tasks);
   c_messages := s.(c_messages);
   c_runtimes := s.(c_runtimes);
   c_attempts := s.(c_attempts);
   c_steering := v;
   c_scm := s.(c_scm);
   c_aggregateVersions := s.(c_aggregateVersions) |}.

Definition set_scm (s : ControlProjection) (v : ScmControlProjection) : ControlProjection :=
  {| c_runId := s.(c_runId);
   c_runEpoch := s.(c_runEpoch);
   c_headSeq := s.(c_headSeq);
   c_run := s.(c_run);
   c_tasks := s.(c_tasks);
   c_messages := s.(c_messages);
   c_runtimes := s.(c_runtimes);
   c_attempts := s.(c_attempts);
   c_steering := s.(c_steering);
   c_scm := v;
   c_aggregateVersions := s.(c_aggregateVersions) |}.

Definition set_aggregateVersions (s : ControlProjection) (v : obj AggregateVersion) : ControlProjection :=
  {| c_runId := s.(c_runId);
   c_runEpoch := s.(c_runEpoch);
   c_headSeq := s.(c_headSeq);
   c_run := s.(c_run);
   c_tasks := s.(c_tasks);
   c_messages := s.(c_messages);
   c_runtimes := s.(c_runtimes);
   c_attempts := s.(c_attempts);
   c_steering := s.(c_steering);
   c_scm := s.(c_scm);
   c_aggregateVersions := v |}.

Definition set_scm_publications (s : ScmControlProjection) (v : obj ScmPublicationFact) : ScmControlProjection :=
  {| scm_publications := v;
   scm_polls := s.(scm_polls);
   scm_observations := s.(scm_observations);
   scm_reactions := s.(scm_reactions) |}.

Definition set_scm_polls (s : ScmControlProjection) (v : obj ScmPollFact) : ScmControlProjection :=
  {| scm_publications := s.(scm_publications);
   scm_polls := v;
   scm_observations := s.(scm_observations);
   scm_reactions := s.(scm_reactions) |}.

Definition set_scm_observations (s : ScmControlProjection) (v : obj ScmObservationFact) : ScmControlProjection :=
  {| scm_publications := s.(scm_publications);
   scm_polls := s.(scm_polls);
   scm_observations := v;
   scm_reactions := s.(scm_reactions) |}.

Definition set_scm_reactions (s : ScmControlProjection) (v : obj ScmReactionFact) : ScmControlProjection :=
  {| scm_publications := s.(scm_publications);
   scm_polls := s.(scm_polls);
   scm_observations := s.(scm_observations);
   scm_reactions := v |}.
