(* ===== verification/EventRead.v ===== *)
(** EventRead: reading control events from JSON, as the closed schemas of
    src/control/events.ts and src/scm/schema.ts parse them (shapes here, bounds
    and refinements in EventSchema), and that it returns what was printed. Then the
    JSON of the facts of the control projection, as the tables of
    src/control/store.ts hold them, and reading them back: the source casts what
    it has parsed; the readers here refuse a value that is not of the fact's type,
    which only a row the store has not written can hold. *)
From S2P Require Import Prelude Text Json Ids ScmTypes ControlEvents EventSchema EventCode JsonText ControlState.

(** * Enumerations *)

Definition ScmProviderKind_read : json -> option ScmProviderKind :=
  r_enum ScmProviderKind_name [provider_github].
Definition ScmPublicationState_read : json -> option ScmPublicationState :=
  r_enum ScmPublicationState_name [pub_unpublished; pub_push_intent; pub_push_ambiguous; pub_branch_published; pub_pr_intent; pub_pr_ambiguous; pub_published; pub_superseded; pub_refused].
Definition ScmCiState_read : json -> option ScmCiState :=
  r_enum ScmCiState_name [ci_unknown; ci_pending; ci_passing; ci_failing].
Definition ScmCheckBucket_read : json -> option ScmCheckBucket :=
  r_enum ScmCheckBucket_name [check_unknown; check_pending; check_passing; check_failing; check_skipping; check_cancelled].
Definition ScmReviewDecision_read : json -> option ScmReviewDecision :=
  r_enum ScmReviewDecision_name [decision_unknown; decision_pending; decision_approved; decision_changes_requested; decision_dismissed].
Definition ScmMergeabilityState_read : json -> option ScmMergeabilityState :=
  r_enum ScmMergeabilityState_name [merge_unknown; merge_mergeable; merge_conflicting; merge_blocked; merge_unstable].
Definition ScmCompleteness_read : json -> option ScmCompleteness :=
  r_enum ScmCompleteness_name [completeness_complete; completeness_partial].
Definition ScmPullLifecycle_read : json -> option ScmPullLifecycle :=
  r_enum ScmPullLifecycle_name [lifecycle_open; lifecycle_closed; lifecycle_merged].
Definition ScmEvidenceKind_read : json -> option ScmEvidenceKind :=
  r_enum ScmEvidenceKind_name [evidence_review_body; evidence_review_thread; evidence_inline_comment; evidence_issue_comment; evidence_check_log].
Definition ScmAuthorKind_read : json -> option ScmAuthorKind :=
  r_enum ScmAuthorKind_name [author_human; author_bot; author_unknown].
Definition ScmProviderFailureKind_read : json -> option ScmProviderFailureKind :=
  r_enum ScmProviderFailureKind_name [failure_cancelled; failure_timeout; failure_network; failure_rate_limited; failure_auth; failure_permission; failure_schema; failure_pagination; failure_budget_exceeded; failure_provider].
Definition ControlTaskStatus_read : json -> option ControlTaskStatus :=
  r_enum ControlTaskStatus_name [ts_open; ts_claimed; ts_in_progress; ts_needs_review; ts_blocked; ts_done; ts_rejected; ts_escalated].
Definition LoopPhase_read : json -> option LoopPhase :=
  r_enum LoopPhase_name [phase_init; phase_verify_preflight; phase_dispatch; phase_review; phase_post_check; phase_stopped; phase_cancelled; phase_complete].
Definition LoopStatus_read : json -> option LoopStatus :=
  r_enum LoopStatus_name [loop_running; loop_planned; loop_blocked; loop_done; loop_unverified; loop_stopped; loop_cancelled].
Definition RuntimeObservation_read : json -> option RuntimeObservation :=
  r_enum RuntimeObservation_name [obs_available; obs_waiting_input; obs_blocked; obs_exited; obs_probe_failed].
Definition AttemptOutcome_read : json -> option AttemptOutcome :=
  r_enum AttemptOutcome_name [outcome_succeeded; outcome_failed; outcome_cancelled; outcome_uncertain].
Definition AbandonReason_read : json -> option AbandonReason :=
  r_enum AbandonReason_name [abandon_OPERATOR_ABANDONED; abandon_VERIFIED_NEVER_STARTED; abandon_ARTIFACT_UNRECOVERABLE].
Definition SteeringCommandKind_read : json -> option SteeringCommandKind :=
  r_enum SteeringCommandKind_name [kind_steer_next_boundary].
Definition SteeringSourceKind_read : json -> option SteeringSourceKind :=
  r_enum SteeringSourceKind_name [source_operator; source_review_gate; source_verifier; source_control_plane].
Definition SteeringRefusalReasonCode_read : json -> option SteeringRefusalReasonCode :=
  r_enum SteeringRefusalReasonCode_name [reason_SESSION_BLOCKED; reason_SESSION_EXITED; reason_STALE_GENERATION; reason_TASK_TERMINAL; reason_TARGET_MISMATCH; reason_EXPIRED; reason_UNSUPPORTED_DELIVERY_MODE; reason_INVALID_REQUEST; reason_TASK_TERMINAL_BEFORE_INCLUSION].
Definition ScmBucketKind_read : json -> option ScmBucketKind :=
  r_enum ScmBucketKind_name [bucket_pull_request; bucket_ci; bucket_review; bucket_mergeability].
Definition ScmBucketDecision_read : json -> option ScmBucketDecision :=
  r_enum ScmBucketDecision_name [decide_accept_new; decide_accept_changed; decide_accept_refresh; decide_accept_merged_partial; decide_preserve; decide_refuse].
Definition ScmReactionState_read : json -> option ScmReactionState :=
  r_enum ScmReactionState_name [react_pending; react_command_admitted; react_included; react_observation_resolved; react_superseded; react_refused; react_failed_retryable].
Definition ScmReactionFactKind_read : json -> option ScmReactionFactKind :=
  r_enum ScmReactionFactKind_name [fact_ci; fact_review].
Definition ControlActorKind_read : json -> option ControlActorKind :=
  r_enum ControlActorKind_name [actor_control_plane; actor_operator; actor_agent; actor_migration; actor_system; actor_integration].
Definition ObservedActivity_read : json -> option ObservedActivity :=
  r_enum ObservedActivity_name (List.map observed [act_idle; act_waiting_input; act_dispatching; act_active; act_settling; act_blocked; act_exited] ++ [indeterminate]).

(** * Records *)

Definition ScmRepositoryIdV1_read (j : json) : option ScmRepositoryIdV1 :=
  kvs ← r_strict ["schemaVersion"; "provider"; "canonicalHost"; "owner"; "name"] j;
  _ ← r_field (r_literal_num 1) "schemaVersion" kvs;
  provider_ ← r_field ScmProviderKind_read "provider" kvs;
  canonicalHost_ ← r_field r_str "canonicalHost" kvs;
  owner_ ← r_field r_str "owner" kvs;
  name_ ← r_field r_str "name" kvs;
  Some {| repo_provider := provider_; repo_canonicalHost := canonicalHost_; repo_owner := owner_; repo_name := name_ |}.

Definition ScmRemoteExpectationV1_read (j : json) : option ScmRemoteExpectationV1 :=
  match r_strict ["kind"] j with
  | Some kvs => _ ← r_field (r_literal "absent") "kind" kvs; Some remote_absent
  | None => kvs ← r_strict ["kind"; "oid"] j; _ ← r_field (r_literal "oid") "kind" kvs; o ← r_field r_str "oid" kvs; Some (remote_oid o)
  end.

Definition ScmPublicationIntentV1_read (j : json) : option ScmPublicationIntentV1 :=
  kvs ← r_strict ["schemaVersion"; "publicationId"; "publicationGeneration"; "attempt"; "runId"; "runEpoch"; "repository"; "integrationRef"; "integrationOid"; "localExpectedOid"; "remoteName"; "remoteRef"; "expectedRemote"; "baseRepository"; "baseRef"; "titleSha256"; "bodySha256"; "draft"; "createdAt"] j;
  _ ← r_field (r_literal_num 1) "schemaVersion" kvs;
  publicationId_ ← r_field r_str "publicationId" kvs;
  publicationGeneration_ ← r_field r_num "publicationGeneration" kvs;
  attempt_ ← r_field r_num "attempt" kvs;
  runId_ ← r_field r_str "runId" kvs;
  runEpoch_ ← r_field r_str "runEpoch" kvs;
  repository_ ← r_field ScmRepositoryIdV1_read "repository" kvs;
  integrationRef_ ← r_field r_str "integrationRef" kvs;
  integrationOid_ ← r_field r_str "integrationOid" kvs;
  localExpectedOid_ ← r_field r_str "localExpectedOid" kvs;
  remoteName_ ← r_field r_str "remoteName" kvs;
  remoteRef_ ← r_field r_str "remoteRef" kvs;
  expectedRemote_ ← r_field ScmRemoteExpectationV1_read "expectedRemote" kvs;
  baseRepository_ ← r_field ScmRepositoryIdV1_read "baseRepository" kvs;
  baseRef_ ← r_field r_str "baseRef" kvs;
  titleSha256_ ← r_field r_str "titleSha256" kvs;
  bodySha256_ ← r_field r_str "bodySha256" kvs;
  draft_ ← r_field r_bool "draft" kvs;
  createdAt_ ← r_field r_str "createdAt" kvs;
  Some {| intent_publicationId := publicationId_; intent_publicationGeneration := publicationGeneration_; intent_attempt := attempt_; intent_runId := runId_; intent_runEpoch := runEpoch_; intent_repository := repository_; intent_integrationRef := integrationRef_; intent_integrationOid := integrationOid_; intent_localExpectedOid := localExpectedOid_; intent_remoteName := remoteName_; intent_remoteRef := remoteRef_; intent_expectedRemote := expectedRemote_; intent_baseRepository := baseRepository_; intent_baseRef := baseRef_; intent_titleSha256 := titleSha256_; intent_bodySha256 := bodySha256_; intent_draft := draft_; intent_createdAt := createdAt_ |}.

Definition ScmPullRequestIdentityV1_read (j : json) : option ScmPullRequestIdentityV1 :=
  kvs ← r_strict ["providerId"; "number"; "url"; "repository"; "headRepository"; "headRef"; "headSha"; "baseRepository"; "baseRef"; "baseSha"] j;
  providerId_ ← r_field r_str "providerId" kvs;
  number_ ← r_field r_num "number" kvs;
  url_ ← r_field r_str "url" kvs;
  repository_ ← r_field ScmRepositoryIdV1_read "repository" kvs;
  headRepository_ ← r_field ScmRepositoryIdV1_read "headRepository" kvs;
  headRef_ ← r_field r_str "headRef" kvs;
  headSha_ ← r_field r_str "headSha" kvs;
  baseRepository_ ← r_field ScmRepositoryIdV1_read "baseRepository" kvs;
  baseRef_ ← r_field r_str "baseRef" kvs;
  baseSha_ ← r_field r_str "baseSha" kvs;
  Some {| pull_providerId := providerId_; pull_number := number_; pull_url := url_; pull_repository := repository_; pull_headRepository := headRepository_; pull_headRef := headRef_; pull_headSha := headSha_; pull_baseRepository := baseRepository_; pull_baseRef := baseRef_; pull_baseSha := baseSha_ |}.

Definition ScmPullRequestFactV1_read (j : json) : option ScmPullRequestFactV1 :=
  kvs ← r_strict ["providerId"; "number"; "url"; "repository"; "headRepository"; "headRef"; "headSha"; "baseRepository"; "baseRef"; "baseSha"; "lifecycle"; "draft"; "resourceVersion"] j;
  providerId_ ← r_field r_str "providerId" kvs;
  number_ ← r_field r_num "number" kvs;
  url_ ← r_field r_str "url" kvs;
  repository_ ← r_field ScmRepositoryIdV1_read "repository" kvs;
  headRepository_ ← r_field ScmRepositoryIdV1_read "headRepository" kvs;
  headRef_ ← r_field r_str "headRef" kvs;
  headSha_ ← r_field r_str "headSha" kvs;
  baseRepository_ ← r_field ScmRepositoryIdV1_read "baseRepository" kvs;
  baseRef_ ← r_field r_str "baseRef" kvs;
  baseSha_ ← r_field r_str "baseSha" kvs;
  lifecycle_ ← r_field ScmPullLifecycle_read "lifecycle" kvs;
  draft_ ← r_field r_bool "draft" kvs;
  resourceVersion_ ← r_field (r_opt r_str) "resourceVersion" kvs;
  Some {| pull_identity := {| pull_providerId := providerId_; pull_number := number_; pull_url := url_; pull_repository := repository_; pull_headRepository := headRepository_; pull_headRef := headRef_; pull_headSha := headSha_; pull_baseRepository := baseRepository_; pull_baseRef := baseRef_; pull_baseSha := baseSha_ |};
    pull_lifecycle := lifecycle_; pull_draft := draft_; pull_resourceVersion := resourceVersion_ |}.

Definition ScmNormalizedCheckV1_read (j : json) : option ScmNormalizedCheckV1 :=
  kvs ← r_strict ["key"; "providerCheckId"; "providerRunId"; "name"; "workflow"; "event"; "required"; "bucket"; "status"; "conclusion"; "attempt"; "startedAt"; "completedAt"; "url"; "detail"] j;
  key_ ← r_field r_str "key" kvs;
  providerCheckId_ ← r_field r_str "providerCheckId" kvs;
  providerRunId_ ← r_field r_str "providerRunId" kvs;
  name_ ← r_field r_text "name" kvs;
  workflow_ ← r_field (r_opt r_text) "workflow" kvs;
  event_ ← r_field (r_opt r_text) "event" kvs;
  required_ ← r_field r_bool "required" kvs;
  bucket_ ← r_field ScmCheckBucket_read "bucket" kvs;
  status_ ← r_field r_text "status" kvs;
  conclusion_ ← r_field (r_opt r_text) "conclusion" kvs;
  attempt_ ← r_field r_num "attempt" kvs;
  startedAt_ ← r_field r_str "startedAt" kvs;
  completedAt_ ← r_field (r_opt r_str) "completedAt" kvs;
  url_ ← r_field (r_opt r_str) "url" kvs;
  detail_ ← r_field (r_opt r_text) "detail" kvs;
  Some {| check_key := key_; check_providerCheckId := providerCheckId_; check_providerRunId := providerRunId_; check_name := name_; check_workflow := workflow_; check_event := event_; check_required := required_; check_bucket := bucket_; check_status := status_; check_conclusion := conclusion_; check_attempt := attempt_; check_startedAt := startedAt_; check_completedAt := completedAt_; check_url := url_; check_detail := detail_ |}.

Definition ScmCiFactV1_read (j : json) : option ScmCiFactV1 :=
  kvs ← r_strict ["state"; "checks"; "requiredCheckCount"; "failureFingerprint"; "conflicts"] j;
  state_ ← r_field ScmCiState_read "state" kvs;
  checks_ ← r_field (r_list ScmNormalizedCheckV1_read) "checks" kvs;
  requiredCheckCount_ ← r_field r_num "requiredCheckCount" kvs;
  failureFingerprint_ ← r_field (r_opt r_str) "failureFingerprint" kvs;
  conflicts_ ← r_field (r_list r_str) "conflicts" kvs;
  Some {| ci_state := state_; ci_checks := checks_; ci_requiredCheckCount := requiredCheckCount_; ci_failureFingerprint := failureFingerprint_; ci_conflicts := conflicts_ |}.

Definition ScmEvidenceV1_read (j : json) : option ScmEvidenceV1 :=
  kvs ← r_strict ["evidenceId"; "providerEvidenceId"; "kind"; "authorKind"; "authorId"; "createdAt"; "updatedAt"; "resolved"; "selected"; "body"; "bodySha256"; "originalBytes"; "retainedBytes"; "truncated"; "sanitized"; "url"] j;
  evidenceId_ ← r_field r_str "evidenceId" kvs;
  providerEvidenceId_ ← r_field r_str "providerEvidenceId" kvs;
  kind_ ← r_field ScmEvidenceKind_read "kind" kvs;
  authorKind_ ← r_field ScmAuthorKind_read "authorKind" kvs;
  authorId_ ← r_field r_str "authorId" kvs;
  createdAt_ ← r_field r_str "createdAt" kvs;
  updatedAt_ ← r_field r_str "updatedAt" kvs;
  resolved_ ← r_field r_bool "resolved" kvs;
  selected_ ← r_field r_bool "selected" kvs;
  body_ ← r_field r_text "body" kvs;
  bodySha256_ ← r_field r_str "bodySha256" kvs;
  originalBytes_ ← r_field r_num "originalBytes" kvs;
  retainedBytes_ ← r_field r_num "retainedBytes" kvs;
  truncated_ ← r_field r_bool "truncated" kvs;
  sanitized_ ← r_field r_bool "sanitized" kvs;
  url_ ← r_field (r_opt r_str) "url" kvs;
  Some {| evidence_evidenceId := evidenceId_; evidence_providerEvidenceId := providerEvidenceId_; evidence_kind := kind_; evidence_authorKind := authorKind_; evidence_authorId := authorId_; evidence_createdAt := createdAt_; evidence_updatedAt := updatedAt_; evidence_resolved := resolved_; evidence_selected := selected_; evidence_body := body_; evidence_bodySha256 := bodySha256_; evidence_originalBytes := originalBytes_; evidence_retainedBytes := retainedBytes_; evidence_truncated := truncated_; evidence_sanitized := sanitized_; evidence_url := url_ |}.

Definition ScmReviewFactV1_read (j : json) : option ScmReviewFactV1 :=
  kvs ← r_strict ["decision"; "humanApprovals"; "evidence"; "unresolvedSelectedEvidenceIds"; "conflicts"] j;
  decision_ ← r_field ScmReviewDecision_read "decision" kvs;
  humanApprovals_ ← r_field r_num "humanApprovals" kvs;
  evidence_ ← r_field (r_list ScmEvidenceV1_read) "evidence" kvs;
  unresolvedSelectedEvidenceIds_ ← r_field (r_list r_str) "unresolvedSelectedEvidenceIds" kvs;
  conflicts_ ← r_field (r_list r_str) "conflicts" kvs;
  Some {| review_decision := decision_; review_humanApprovals := humanApprovals_; review_evidence := evidence_; review_unresolvedSelectedEvidenceIds := unresolvedSelectedEvidenceIds_; review_conflicts := conflicts_ |}.

Definition ScmMergeabilityFactV1_read (j : json) : option ScmMergeabilityFactV1 :=
  kvs ← r_strict ["state"; "blockers"] j;
  state_ ← r_field ScmMergeabilityState_read "state" kvs;
  blockers_ ← r_field (r_list r_str) "blockers" kvs;
  Some {| mergeability_state := state_; mergeability_blockers := blockers_ |}.

Definition ScmBucketMetaV1_read (j : json) : option ScmBucketMetaV1 :=
  kvs ← r_strict ["completeness"; "observedHeadSha"; "observedAt"; "freshUntil"; "semanticHash"; "guard"; "cursor"] j;
  completeness_ ← r_field ScmCompleteness_read "completeness" kvs;
  observedHeadSha_ ← r_field r_str "observedHeadSha" kvs;
  observedAt_ ← r_field r_str "observedAt" kvs;
  freshUntil_ ← r_field r_str "freshUntil" kvs;
  semanticHash_ ← r_field r_str "semanticHash" kvs;
  guard_ ← r_field (r_opt r_text) "guard" kvs;
  cursor_ ← r_field (r_opt r_text) "cursor" kvs;
  Some {| meta_completeness := completeness_; meta_observedHeadSha := observedHeadSha_; meta_observedAt := observedAt_; meta_freshUntil := freshUntil_; meta_semanticHash := semanticHash_; meta_guard := guard_; meta_cursor := cursor_ |}.

Definition ScmFactBucketV1_read {T} (g : json -> option T) (j : json) : option (ScmFactBucketV1 T) :=
  kvs ← r_strict ["meta"; "facts"] j;
  meta_ ← r_field ScmBucketMetaV1_read "meta" kvs;
  facts_ ← r_field g "facts" kvs;
  Some {| bucket_meta := meta_; bucket_facts := facts_ |}.

Definition ScmProviderFailureV1_read (j : json) : option ScmProviderFailureV1 :=
  kvs ← r_strict ["kind"; "retryable"; "code"; "diagnostic"; "nextEligibleAt"] j;
  kind_ ← r_field ScmProviderFailureKind_read "kind" kvs;
  retryable_ ← r_field r_bool "retryable" kvs;
  code_ ← r_field r_str "code" kvs;
  diagnostic_ ← r_field r_text "diagnostic" kvs;
  nextEligibleAt_ ← r_field (r_opt r_str) "nextEligibleAt" kvs;
  Some {| failure_kind := kind_; failure_retryable := retryable_; failure_code := code_; failure_diagnostic := diagnostic_; failure_nextEligibleAt := nextEligibleAt_ |}.

Definition ScmProviderLimitsV1_read (j : json) : option ScmProviderLimitsV1 :=
  kvs ← r_strict ["requestTimeoutMs"; "maxPagesPerEndpoint"; "maxItemsPerPage"; "maxItemsPerEndpoint"; "maxDecodedBytesPerRequest"; "maxDecodedBytesPerPoll"; "maxEvidenceBodyBytes"; "maxEvidencePreviewBytes"; "maxFailureLogBytes"; "maxFailureLogsBytes"; "maxConcurrentPerRepository"; "maxConcurrentPerRun"] j;
  requestTimeoutMs_ ← r_field r_num "requestTimeoutMs" kvs;
  maxPagesPerEndpoint_ ← r_field r_num "maxPagesPerEndpoint" kvs;
  maxItemsPerPage_ ← r_field r_num "maxItemsPerPage" kvs;
  maxItemsPerEndpoint_ ← r_field r_num "maxItemsPerEndpoint" kvs;
  maxDecodedBytesPerRequest_ ← r_field r_num "maxDecodedBytesPerRequest" kvs;
  maxDecodedBytesPerPoll_ ← r_field r_num "maxDecodedBytesPerPoll" kvs;
  maxEvidenceBodyBytes_ ← r_field r_num "maxEvidenceBodyBytes" kvs;
  maxEvidencePreviewBytes_ ← r_field r_num "maxEvidencePreviewBytes" kvs;
  maxFailureLogBytes_ ← r_field r_num "maxFailureLogBytes" kvs;
  maxFailureLogsBytes_ ← r_field r_num "maxFailureLogsBytes" kvs;
  maxConcurrentPerRepository_ ← r_field r_num "maxConcurrentPerRepository" kvs;
  maxConcurrentPerRun_ ← r_field r_num "maxConcurrentPerRun" kvs;
  Some {| limits_requestTimeoutMs := requestTimeoutMs_; limits_maxPagesPerEndpoint := maxPagesPerEndpoint_; limits_maxItemsPerPage := maxItemsPerPage_; limits_maxItemsPerEndpoint := maxItemsPerEndpoint_; limits_maxDecodedBytesPerRequest := maxDecodedBytesPerRequest_; limits_maxDecodedBytesPerPoll := maxDecodedBytesPerPoll_; limits_maxEvidenceBodyBytes := maxEvidenceBodyBytes_; limits_maxEvidencePreviewBytes := maxEvidencePreviewBytes_; limits_maxFailureLogBytes := maxFailureLogBytes_; limits_maxFailureLogsBytes := maxFailureLogsBytes_; limits_maxConcurrentPerRepository := maxConcurrentPerRepository_; limits_maxConcurrentPerRun := maxConcurrentPerRun_ |}.

Definition ScmObservationGuardsV1_read (j : json) : option ScmObservationGuardsV1 :=
  kvs ← r_strict ["pullRequest"; "checks"; "reviews"; "mergeability"] j;
  pullRequest_ ← r_field (r_opt r_text) "pullRequest" kvs;
  checks_ ← r_field (r_opt r_text) "checks" kvs;
  reviews_ ← r_field (r_opt r_text) "reviews" kvs;
  mergeability_ ← r_field (r_opt r_text) "mergeability" kvs;
  Some {| guards_pullRequest := pullRequest_; guards_checks := checks_; guards_reviews := reviews_; guards_mergeability := mergeability_ |}.

Definition taskCreatedPayload_read (j : json) : option taskCreatedPayload :=
  kvs ← r_strict ["title"; "assignee"; "createdBy"; "description"; "acceptanceCriteria"; "dependsOn"; "priority"; "createdAt"; "files"] j;
  title_ ← r_field r_text "title" kvs;
  assignee_ ← r_field r_str "assignee" kvs;
  createdBy_ ← r_field r_str "createdBy" kvs;
  description_ ← r_field r_text "description" kvs;
  acceptanceCriteria_ ← r_field (r_list r_text) "acceptanceCriteria" kvs;
  dependsOn_ ← r_field (r_list r_str) "dependsOn" kvs;
  priority_ ← r_field r_num "priority" kvs;
  createdAt_ ← r_field r_str "createdAt" kvs;
  files_ ← r_field (r_opt (r_list r_text)) "files" kvs;
  Some {| tc_title := title_; tc_assignee := assignee_; tc_createdBy := createdBy_; tc_description := description_; tc_acceptanceCriteria := acceptanceCriteria_; tc_dependsOn := dependsOn_; tc_priority := priority_; tc_createdAt := createdAt_; tc_files := files_ |}.

Definition taskStatusPayload_read (j : json) : option taskStatusPayload :=
  kvs ← r_strict ["role"; "status"; "summary"] j;
  role_ ← r_field r_str "role" kvs;
  status_ ← r_field ControlTaskStatus_read "status" kvs;
  summary_ ← r_field (r_opt r_text) "summary" kvs;
  Some {| tsp_role := role_; tsp_status := status_; tsp_summary := summary_ |}.

Definition messagePayload_read (j : json) : option messagePayload :=
  kvs ← r_strict ["messageId"; "from"; "to"; "body"] j;
  messageId_ ← r_field r_str "messageId" kvs;
  from_ ← r_field r_str "from" kvs;
  to_ ← r_field r_str "to" kvs;
  body_ ← r_field r_text "body" kvs;
  Some {| mp_messageId := messageId_; mp_from := from_; mp_to := to_; mp_body := body_ |}.

Definition runStartedPayload_read (j : json) : option runStartedPayload :=
  kvs ← r_strict ["startedBy"; "goal"; "configDigest"] j;
  startedBy_ ← r_field r_str "startedBy" kvs;
  goal_ ← r_field (r_opt r_text) "goal" kvs;
  configDigest_ ← r_field (r_opt r_str) "configDigest" kvs;
  Some {| rsp_startedBy := startedBy_; rsp_goal := goal_; rsp_configDigest := configDigest_ |}.

Definition runCompletedPayload_read (j : json) : option runCompletedPayload :=
  kvs ← r_strict ["summary"] j;
  summary_ ← r_field (r_opt r_text) "summary" kvs;
  Some {| rcp_summary := summary_ |}.

Definition runFailedPayload_read (j : json) : option runFailedPayload :=
  kvs ← r_strict ["reasonCode"; "summary"] j;
  reasonCode_ ← r_field r_str "reasonCode" kvs;
  summary_ ← r_field (r_opt r_text) "summary" kvs;
  Some {| rfp_reasonCode := reasonCode_; rfp_summary := summary_ |}.

Definition runCancelledPayload_read (j : json) : option runCancelledPayload :=
  kvs ← r_strict ["cancelledBy"; "reason"] j;
  cancelledBy_ ← r_field r_str "cancelledBy" kvs;
  reason_ ← r_field (r_opt r_text) "reason" kvs;
  Some {| rcap_cancelledBy := cancelledBy_; rcap_reason := reason_ |}.

Definition LoopCheckpointFact_read (j : json) : option LoopCheckpointFact :=
  kvs ← r_strict ["project"; "phase"; "status"; "iteration"; "dispatched"; "accepted"; "rejected"; "escalations"; "repeatFailures"; "unknownCostCalls"; "runBranch"; "lastGreenCommit"; "lastFailureSignature"; "lastFailureSummary"; "lastStopReason"; "verifyFingerprint"; "startedAt"; "updatedAt"] j;
  project_ ← r_field r_str "project" kvs;
  phase_ ← r_field LoopPhase_read "phase" kvs;
  status_ ← r_field LoopStatus_read "status" kvs;
  iteration_ ← r_field r_num "iteration" kvs;
  dispatched_ ← r_field r_num "dispatched" kvs;
  accepted_ ← r_field r_num "accepted" kvs;
  rejected_ ← r_field r_num "rejected" kvs;
  escalations_ ← r_field r_num "escalations" kvs;
  repeatFailures_ ← r_field r_num "repeatFailures" kvs;
  unknownCostCalls_ ← r_field r_num "unknownCostCalls" kvs;
  runBranch_ ← r_field (r_opt r_text) "runBranch" kvs;
  lastGreenCommit_ ← r_field (r_opt r_text) "lastGreenCommit" kvs;
  lastFailureSignature_ ← r_field (r_opt r_text) "lastFailureSignature" kvs;
  lastFailureSummary_ ← r_field (r_opt r_text) "lastFailureSummary" kvs;
  lastStopReason_ ← r_field (r_opt r_text) "lastStopReason" kvs;
  verifyFingerprint_ ← r_field (r_opt r_text) "verifyFingerprint" kvs;
  startedAt_ ← r_field r_str "startedAt" kvs;
  updatedAt_ ← r_field r_str "updatedAt" kvs;
  Some {| cp_project := project_; cp_phase := phase_; cp_status := status_; cp_iteration := iteration_; cp_dispatched := dispatched_; cp_accepted := accepted_; cp_rejected := rejected_; cp_escalations := escalations_; cp_repeatFailures := repeatFailures_; cp_unknownCostCalls := unknownCostCalls_; cp_runBranch := runBranch_; cp_lastGreenCommit := lastGreenCommit_; cp_lastFailureSignature := lastFailureSignature_; cp_lastFailureSummary := lastFailureSummary_; cp_lastStopReason := lastStopReason_; cp_verifyFingerprint := verifyFingerprint_; cp_startedAt := startedAt_; cp_updatedAt := updatedAt_ |}.

Definition runtimePayload_read (j : json) : option runtimePayload :=
  kvs ← r_strict ["sessionId"; "sessionGeneration"; "observation"; "launchId"; "reason"] j;
  sessionId_ ← r_field r_str "sessionId" kvs;
  sessionGeneration_ ← r_field r_num "sessionGeneration" kvs;
  observation_ ← r_field RuntimeObservation_read "observation" kvs;
  launchId_ ← r_field (r_opt r_str) "launchId" kvs;
  reason_ ← r_field (r_opt r_text) "reason" kvs;
  Some {| rp_sessionId := sessionId_; rp_sessionGeneration := sessionGeneration_; rp_observation := observation_; rp_launchId := launchId_; rp_reason := reason_ |}.

Definition attemptPreparedPayload_read (j : json) : option attemptPreparedPayload :=
  kvs ← r_strict ["attemptId"; "attemptGeneration"; "sessionId"; "sessionGeneration"; "artifactLocator"; "promptSha256"; "promptBytes"; "rendererVersion"; "captureCutoffSeq"; "steeringCommandIds"] j;
  attemptId_ ← r_field r_str "attemptId" kvs;
  attemptGeneration_ ← r_field r_num "attemptGeneration" kvs;
  sessionId_ ← r_field r_str "sessionId" kvs;
  sessionGeneration_ ← r_field r_num "sessionGeneration" kvs;
  artifactLocator_ ← r_field r_str "artifactLocator" kvs;
  promptSha256_ ← r_field r_str "promptSha256" kvs;
  promptBytes_ ← r_field r_num "promptBytes" kvs;
  rendererVersion_ ← r_field r_num "rendererVersion" kvs;
  captureCutoffSeq_ ← r_field r_num "captureCutoffSeq" kvs;
  steeringCommandIds_ ← r_field (r_list r_str) "steeringCommandIds" kvs;
  Some {| app_attemptId := attemptId_; app_attemptGeneration := attemptGeneration_; app_sessionId := sessionId_; app_sessionGeneration := sessionGeneration_; app_artifactLocator := artifactLocator_; app_promptSha256 := promptSha256_; app_promptBytes := promptBytes_; app_rendererVersion := rendererVersion_; app_captureCutoffSeq := captureCutoffSeq_; app_steeringCommandIds := steeringCommandIds_ |}.

Definition attemptLaunchPlannedPayload_read (j : json) : option attemptLaunchPlannedPayload :=
  kvs ← r_strict ["attemptId"; "attemptGeneration"; "sessionId"; "sessionGeneration"; "launchId"] j;
  attemptId_ ← r_field r_str "attemptId" kvs;
  attemptGeneration_ ← r_field r_num "attemptGeneration" kvs;
  sessionId_ ← r_field r_str "sessionId" kvs;
  sessionGeneration_ ← r_field r_num "sessionGeneration" kvs;
  launchId_ ← r_field r_str "launchId" kvs;
  Some {| alp_attemptId := attemptId_; alp_attemptGeneration := attemptGeneration_; alp_sessionId := sessionId_; alp_sessionGeneration := sessionGeneration_; alp_launchId := launchId_ |}.

Definition attemptStartedPayload_read (j : json) : option attemptStartedPayload :=
  kvs ← r_strict ["attemptId"; "attemptGeneration"; "sessionId"; "sessionGeneration"; "launchId"; "pid"; "processStartToken"] j;
  attemptId_ ← r_field r_str "attemptId" kvs;
  attemptGeneration_ ← r_field r_num "attemptGeneration" kvs;
  sessionId_ ← r_field r_str "sessionId" kvs;
  sessionGeneration_ ← r_field r_num "sessionGeneration" kvs;
  launchId_ ← r_field r_str "launchId" kvs;
  pid_ ← r_field r_num "pid" kvs;
  processStartToken_ ← r_field r_str "processStartToken" kvs;
  Some {| asp_attemptId := attemptId_; asp_attemptGeneration := attemptGeneration_; asp_sessionId := sessionId_; asp_sessionGeneration := sessionGeneration_; asp_launchId := launchId_; asp_pid := pid_; asp_processStartToken := processStartToken_ |}.

Definition attemptExitedPayload_read (j : json) : option attemptExitedPayload :=
  kvs ← r_strict ["attemptId"; "attemptGeneration"; "sessionId"; "sessionGeneration"; "outcome"; "exitCode"; "summary"] j;
  attemptId_ ← r_field r_str "attemptId" kvs;
  attemptGeneration_ ← r_field r_num "attemptGeneration" kvs;
  sessionId_ ← r_field r_str "sessionId" kvs;
  sessionGeneration_ ← r_field r_num "sessionGeneration" kvs;
  outcome_ ← r_field AttemptOutcome_read "outcome" kvs;
  exitCode_ ← r_field (r_opt r_num) "exitCode" kvs;
  summary_ ← r_field (r_opt r_text) "summary" kvs;
  Some {| aep_attemptId := attemptId_; aep_attemptGeneration := attemptGeneration_; aep_sessionId := sessionId_; aep_sessionGeneration := sessionGeneration_; aep_outcome := outcome_; aep_exitCode := exitCode_; aep_summary := summary_ |}.

Definition attemptAbandonedPayload_read (j : json) : option attemptAbandonedPayload :=
  kvs ← r_strict ["attemptId"; "attemptGeneration"; "sessionId"; "sessionGeneration"; "reasonCode"; "summary"] j;
  attemptId_ ← r_field r_str "attemptId" kvs;
  attemptGeneration_ ← r_field r_num "attemptGeneration" kvs;
  sessionId_ ← r_field r_str "sessionId" kvs;
  sessionGeneration_ ← r_field r_num "sessionGeneration" kvs;
  reasonCode_ ← r_field AbandonReason_read "reasonCode" kvs;
  summary_ ← r_field (r_opt r_text) "summary" kvs;
  Some {| aap_attemptId := attemptId_; aap_attemptGeneration := attemptGeneration_; aap_sessionId := sessionId_; aap_sessionGeneration := sessionGeneration_; aap_reasonCode := reasonCode_; aap_summary := summary_ |}.

Definition steeringAdmittedPayload_read (j : json) : option steeringAdmittedPayload :=
  kvs ← r_strict ["commandId"; "sessionId"; "sessionGeneration"; "notBeforeAttemptGeneration"; "kind"; "sourceKind"; "parentPrincipal"; "evidenceRefs"; "body"; "bodySha256"; "createdAt"; "expiresAt"; "supersedesCommandId"] j;
  commandId_ ← r_field r_str "commandId" kvs;
  sessionId_ ← r_field r_str "sessionId" kvs;
  sessionGeneration_ ← r_field r_num "sessionGeneration" kvs;
  notBeforeAttemptGeneration_ ← r_field r_num "notBeforeAttemptGeneration" kvs;
  kind_ ← r_field SteeringCommandKind_read "kind" kvs;
  sourceKind_ ← r_field SteeringSourceKind_read "sourceKind" kvs;
  parentPrincipal_ ← r_field r_str "parentPrincipal" kvs;
  evidenceRefs_ ← r_field (r_list r_str) "evidenceRefs" kvs;
  body_ ← r_field r_text "body" kvs;
  bodySha256_ ← r_field r_str "bodySha256" kvs;
  createdAt_ ← r_field r_str "createdAt" kvs;
  expiresAt_ ← r_field (r_opt r_str) "expiresAt" kvs;
  supersedesCommandId_ ← r_field (r_opt r_str) "supersedesCommandId" kvs;
  Some {| sap_commandId := commandId_; sap_sessionId := sessionId_; sap_sessionGeneration := sessionGeneration_; sap_notBeforeAttemptGeneration := notBeforeAttemptGeneration_; sap_kind := kind_; sap_sourceKind := sourceKind_; sap_parentPrincipal := parentPrincipal_; sap_evidenceRefs := evidenceRefs_; sap_body := body_; sap_bodySha256 := bodySha256_; sap_createdAt := createdAt_; sap_expiresAt := expiresAt_; sap_supersedesCommandId := supersedesCommandId_ |}.

Definition steeringRefusedPayload_read (j : json) : option steeringRefusedPayload :=
  kvs ← r_strict ["commandId"; "sessionId"; "sessionGeneration"; "bodySha256"; "requestSemanticDigest"; "observedSeq"; "observedActivity"; "reasonCode"] j;
  commandId_ ← r_field r_str "commandId" kvs;
  sessionId_ ← r_field r_str "sessionId" kvs;
  sessionGeneration_ ← r_field r_num "sessionGeneration" kvs;
  bodySha256_ ← r_field r_str "bodySha256" kvs;
  requestSemanticDigest_ ← r_field r_str "requestSemanticDigest" kvs;
  observedSeq_ ← r_field r_num "observedSeq" kvs;
  observedActivity_ ← r_field ObservedActivity_read "observedActivity" kvs;
  reasonCode_ ← r_field SteeringRefusalReasonCode_read "reasonCode" kvs;
  Some {| srp_commandId := commandId_; srp_sessionId := sessionId_; srp_sessionGeneration := sessionGeneration_; srp_bodySha256 := bodySha256_; srp_requestSemanticDigest := requestSemanticDigest_; srp_observedSeq := observedSeq_; srp_observedActivity := observedActivity_; srp_reasonCode := reasonCode_ |}.

Definition steeringTerminalRefusedPayload_read (j : json) : option steeringTerminalRefusedPayload :=
  kvs ← r_strict ["observedActivity"; "reasonCode"; "commandId"; "sessionId"; "sessionGeneration"; "requestSemanticDigest"; "observedSeq"] j;
  _ ← r_field (r_literal "exited") "observedActivity" kvs;
  _ ← r_field (r_literal "TASK_TERMINAL_BEFORE_INCLUSION") "reasonCode" kvs;
  commandId_ ← r_field r_str "commandId" kvs;
  sessionId_ ← r_field r_str "sessionId" kvs;
  sessionGeneration_ ← r_field r_num "sessionGeneration" kvs;
  requestSemanticDigest_ ← r_field r_str "requestSemanticDigest" kvs;
  observedSeq_ ← r_field r_num "observedSeq" kvs;
  Some {| strp_commandId := commandId_; strp_sessionId := sessionId_; strp_sessionGeneration := sessionGeneration_; strp_requestSemanticDigest := requestSemanticDigest_; strp_observedSeq := observedSeq_ |}.

Definition steeringIncludedPayload_read (j : json) : option steeringIncludedPayload :=
  kvs ← r_strict ["commandId"; "sessionId"; "sessionGeneration"; "attemptId"; "attemptGeneration"; "promptSha256"] j;
  commandId_ ← r_field r_str "commandId" kvs;
  sessionId_ ← r_field r_str "sessionId" kvs;
  sessionGeneration_ ← r_field r_num "sessionGeneration" kvs;
  attemptId_ ← r_field r_str "attemptId" kvs;
  attemptGeneration_ ← r_field r_num "attemptGeneration" kvs;
  promptSha256_ ← r_field r_str "promptSha256" kvs;
  Some {| sip_commandId := commandId_; sip_sessionId := sessionId_; sip_sessionGeneration := sessionGeneration_; sip_attemptId := attemptId_; sip_attemptGeneration := attemptGeneration_; sip_promptSha256 := promptSha256_ |}.

Definition steeringWithdrawnPayload_read (j : json) : option steeringWithdrawnPayload :=
  kvs ← r_strict ["commandId"; "sessionId"; "sessionGeneration"; "reason"] j;
  commandId_ ← r_field r_str "commandId" kvs;
  sessionId_ ← r_field r_str "sessionId" kvs;
  sessionGeneration_ ← r_field r_num "sessionGeneration" kvs;
  reason_ ← r_field (r_opt r_text) "reason" kvs;
  Some {| swp_commandId := commandId_; swp_sessionId := sessionId_; swp_sessionGeneration := sessionGeneration_; swp_reason := reason_ |}.

Definition steeringSupersededPayload_read (j : json) : option steeringSupersededPayload :=
  kvs ← r_strict ["commandId"; "sessionId"; "sessionGeneration"; "byCommandId"] j;
  commandId_ ← r_field r_str "commandId" kvs;
  sessionId_ ← r_field r_str "sessionId" kvs;
  sessionGeneration_ ← r_field r_num "sessionGeneration" kvs;
  byCommandId_ ← r_field r_str "byCommandId" kvs;
  Some {| ssp_commandId := commandId_; ssp_sessionId := sessionId_; ssp_sessionGeneration := sessionGeneration_; ssp_byCommandId := byCommandId_ |}.

Definition steeringExpiredPayload_read (j : json) : option steeringExpiredPayload :=
  kvs ← r_strict ["commandId"; "sessionId"; "sessionGeneration"] j;
  commandId_ ← r_field r_str "commandId" kvs;
  sessionId_ ← r_field r_str "sessionId" kvs;
  sessionGeneration_ ← r_field r_num "sessionGeneration" kvs;
  Some {| sep_commandId := commandId_; sep_sessionId := sessionId_; sep_sessionGeneration := sessionGeneration_ |}.

Definition taskReopenedPayload_read (j : json) : option taskReopenedPayload :=
  kvs ← r_strict ["newGeneration"; "reason"] j;
  newGeneration_ ← r_field r_num "newGeneration" kvs;
  reason_ ← r_field (r_opt r_text) "reason" kvs;
  Some {| trp_newGeneration := newGeneration_; trp_reason := reason_ |}.

Definition scmPublicationRecordedPayload_read (j : json) : option scmPublicationRecordedPayload :=
  kvs ← r_strict ["publication"] j;
  publication_ ← r_field ScmPublicationIntentV1_read "publication" kvs;
  Some {| spr_publication := publication_ |}.

Definition scmPublicationStateChangedPayload_read (j : json) : option scmPublicationStateChangedPayload :=
  kvs ← r_strict ["publicationId"; "publicationGeneration"; "fromState"; "toState"; "observedRemoteOid"; "pullRequest"; "reasonCode"] j;
  publicationId_ ← r_field r_str "publicationId" kvs;
  publicationGeneration_ ← r_field r_num "publicationGeneration" kvs;
  fromState_ ← r_field ScmPublicationState_read "fromState" kvs;
  toState_ ← r_field ScmPublicationState_read "toState" kvs;
  observedRemoteOid_ ← r_field (r_opt (r_null r_str)) "observedRemoteOid" kvs;
  pullRequest_ ← r_field (r_opt ScmPullRequestFactV1_read) "pullRequest" kvs;
  reasonCode_ ← r_field (r_opt r_str) "reasonCode" kvs;
  Some {| spc_publicationId := publicationId_; spc_publicationGeneration := publicationGeneration_; spc_fromState := fromState_; spc_toState := toState_; spc_observedRemoteOid := observedRemoteOid_; spc_pullRequest := pullRequest_; spc_reasonCode := reasonCode_ |}.

Definition scmPollStartedPayload_read (j : json) : option scmPollStartedPayload :=
  kvs ← r_strict ["pollId"; "pollAttempt"; "publicationId"; "publicationGeneration"; "sessionId"; "sessionGeneration"; "expectedHeadSha"; "pullRequest"; "guards"; "forceFullRefresh"; "limits"] j;
  pollId_ ← r_field r_str "pollId" kvs;
  pollAttempt_ ← r_field r_num "pollAttempt" kvs;
  publicationId_ ← r_field r_str "publicationId" kvs;
  publicationGeneration_ ← r_field r_num "publicationGeneration" kvs;
  sessionId_ ← r_field r_str "sessionId" kvs;
  sessionGeneration_ ← r_field r_num "sessionGeneration" kvs;
  expectedHeadSha_ ← r_field r_str "expectedHeadSha" kvs;
  pullRequest_ ← r_field ScmPullRequestIdentityV1_read "pullRequest" kvs;
  guards_ ← r_field ScmObservationGuardsV1_read "guards" kvs;
  forceFullRefresh_ ← r_field r_bool "forceFullRefresh" kvs;
  limits_ ← r_field ScmProviderLimitsV1_read "limits" kvs;
  Some {| sps_pollId := pollId_; sps_pollAttempt := pollAttempt_; sps_publicationId := publicationId_; sps_publicationGeneration := publicationGeneration_; sps_sessionId := sessionId_; sps_sessionGeneration := sessionGeneration_; sps_expectedHeadSha := expectedHeadSha_; sps_pullRequest := pullRequest_; sps_guards := guards_; sps_forceFullRefresh := forceFullRefresh_; sps_limits := limits_ |}.

Definition ScmPollBucketOutcomeFact_read (j : json) : option ScmPollBucketOutcomeFact :=
  kvs ← r_strict ["kind"; "decision"; "semanticHash"; "reasonCode"; "failure"] j;
  kind_ ← r_field ScmBucketKind_read "kind" kvs;
  decision_ ← r_field ScmBucketDecision_read "decision" kvs;
  semanticHash_ ← r_field (r_opt r_str) "semanticHash" kvs;
  reasonCode_ ← r_field (r_opt r_str) "reasonCode" kvs;
  failure_ ← r_field (r_opt ScmProviderFailureV1_read) "failure" kvs;
  Some {| outcome_kind := kind_; outcome_decision := decision_; outcome_semanticHash := semanticHash_; outcome_reasonCode := reasonCode_; outcome_failure := failure_ |}.

Definition scmPollCompletedPayload_read (j : json) : option scmPollCompletedPayload :=
  kvs ← r_strict ["pollId"; "pollAttempt"; "publicationId"; "publicationGeneration"; "expectedHeadSha"; "requestCount"; "decodedBytes"; "bucketOutcomes"] j;
  pollId_ ← r_field r_str "pollId" kvs;
  pollAttempt_ ← r_field r_num "pollAttempt" kvs;
  publicationId_ ← r_field r_str "publicationId" kvs;
  publicationGeneration_ ← r_field r_num "publicationGeneration" kvs;
  expectedHeadSha_ ← r_field r_str "expectedHeadSha" kvs;
  requestCount_ ← r_field r_num "requestCount" kvs;
  decodedBytes_ ← r_field r_num "decodedBytes" kvs;
  bucketOutcomes_ ← r_field (r_list ScmPollBucketOutcomeFact_read) "bucketOutcomes" kvs;
  Some {| spcm_pollId := pollId_; spcm_pollAttempt := pollAttempt_; spcm_publicationId := publicationId_; spcm_publicationGeneration := publicationGeneration_; spcm_expectedHeadSha := expectedHeadSha_; spcm_requestCount := requestCount_; spcm_decodedBytes := decodedBytes_; spcm_bucketOutcomes := bucketOutcomes_ |}.

Definition scmPollFailedPayload_read (j : json) : option scmPollFailedPayload :=
  kvs ← r_strict ["pollId"; "pollAttempt"; "publicationId"; "publicationGeneration"; "expectedHeadSha"; "failure"] j;
  pollId_ ← r_field r_str "pollId" kvs;
  pollAttempt_ ← r_field r_num "pollAttempt" kvs;
  publicationId_ ← r_field r_str "publicationId" kvs;
  publicationGeneration_ ← r_field r_num "publicationGeneration" kvs;
  expectedHeadSha_ ← r_field r_str "expectedHeadSha" kvs;
  failure_ ← r_field ScmProviderFailureV1_read "failure" kvs;
  Some {| spf_pollId := pollId_; spf_pollAttempt := pollAttempt_; spf_publicationId := publicationId_; spf_publicationGeneration := publicationGeneration_; spf_expectedHeadSha := expectedHeadSha_; spf_failure := failure_ |}.

(** The bucket's schema is chosen by [kind]. *)
Definition scmAnyBucket_read (kind : ScmBucketKind) (j : json) : option scmAnyBucket :=
  match kind with
  | bucket_pull_request => scmPullRequestBucket <$> ScmFactBucketV1_read ScmPullRequestFactV1_read j
  | bucket_ci => scmCiBucket <$> ScmFactBucketV1_read ScmCiFactV1_read j
  | bucket_review => scmReviewBucket <$> ScmFactBucketV1_read ScmReviewFactV1_read j
  | bucket_mergeability => scmMergeabilityBucket <$> ScmFactBucketV1_read ScmMergeabilityFactV1_read j
  end.

Definition scmBucketAcceptedPayload_read (j : json) : option scmBucketAcceptedPayload :=
  kvs ← r_strict ["pollId"; "publicationId"; "publicationGeneration"; "kind"; "decision"; "previousSemanticHash"; "bucket"] j;
  pollId_ ← r_field r_str "pollId" kvs;
  publicationId_ ← r_field r_str "publicationId" kvs;
  publicationGeneration_ ← r_field r_num "publicationGeneration" kvs;
  kind_ ← r_field ScmBucketKind_read "kind" kvs;
  decision_ ← r_field ScmBucketDecision_read "decision" kvs;
  previousSemanticHash_ ← r_field (r_opt r_str) "previousSemanticHash" kvs;
  bucket_ ← r_field (scmAnyBucket_read kind_) "bucket" kvs;
  Some {| sba_pollId := pollId_; sba_publicationId := publicationId_; sba_publicationGeneration := publicationGeneration_;
    sba_decision := decision_; sba_previousSemanticHash := previousSemanticHash_; sba_bucket := bucket_ |}.

Definition scmReactionCreatedPayload_read (j : json) : option scmReactionCreatedPayload :=
  kvs ← r_strict ["reactionKey"; "publicationId"; "publicationGeneration"; "headSha"; "factKind"; "evidenceRefs"; "commandId"; "sessionId"; "sessionGeneration"; "notBeforeAttemptGeneration"; "supersedesCommandId"; "previewSha256"; "preview"] j;
  reactionKey_ ← r_field r_str "reactionKey" kvs;
  publicationId_ ← r_field r_str "publicationId" kvs;
  publicationGeneration_ ← r_field r_num "publicationGeneration" kvs;
  headSha_ ← r_field r_str "headSha" kvs;
  factKind_ ← r_field ScmReactionFactKind_read "factKind" kvs;
  evidenceRefs_ ← r_field (r_list r_str) "evidenceRefs" kvs;
  commandId_ ← r_field r_str "commandId" kvs;
  sessionId_ ← r_field r_str "sessionId" kvs;
  sessionGeneration_ ← r_field r_num "sessionGeneration" kvs;
  notBeforeAttemptGeneration_ ← r_field r_num "notBeforeAttemptGeneration" kvs;
  supersedesCommandId_ ← r_field (r_opt r_str) "supersedesCommandId" kvs;
  previewSha256_ ← r_field r_str "previewSha256" kvs;
  preview_ ← r_field r_text "preview" kvs;
  Some {| src_reactionKey := reactionKey_; src_publicationId := publicationId_; src_publicationGeneration := publicationGeneration_; src_headSha := headSha_; src_factKind := factKind_; src_evidenceRefs := evidenceRefs_; src_commandId := commandId_; src_sessionId := sessionId_; src_sessionGeneration := sessionGeneration_; src_notBeforeAttemptGeneration := notBeforeAttemptGeneration_; src_supersedesCommandId := supersedesCommandId_; src_previewSha256 := previewSha256_; src_preview := preview_ |}.

Definition scmReactionTransitionedPayload_read (j : json) : option scmReactionTransitionedPayload :=
  kvs ← r_strict ["reactionKey"; "reactionVersion"; "fromState"; "toState"; "commandId"; "steeringSeq"; "reasonCode"; "observationSemanticHash"] j;
  reactionKey_ ← r_field r_str "reactionKey" kvs;
  reactionVersion_ ← r_field r_num "reactionVersion" kvs;
  fromState_ ← r_field ScmReactionState_read "fromState" kvs;
  toState_ ← r_field ScmReactionState_read "toState" kvs;
  commandId_ ← r_field r_str "commandId" kvs;
  steeringSeq_ ← r_field (r_opt r_num) "steeringSeq" kvs;
  reasonCode_ ← r_field (r_opt r_str) "reasonCode" kvs;
  observationSemanticHash_ ← r_field (r_opt r_str) "observationSemanticHash" kvs;
  Some {| srt_reactionKey := reactionKey_; srt_reactionVersion := reactionVersion_; srt_fromState := fromState_; srt_toState := toState_; srt_commandId := commandId_; srt_steeringSeq := steeringSeq_; srt_reasonCode := reasonCode_; srt_observationSemanticHash := observationSemanticHash_ |}.

(** [z.discriminatedUnion("type", ...)]: the tag chooses the schema of the payload. *)
Definition payload_read (type : string) (j : json) : option ControlEventPayload :=
  if String.eqb type "run.started" then run_started <$> runStartedPayload_read j else
  if String.eqb type "run.completed" then run_completed <$> runCompletedPayload_read j else
  if String.eqb type "run.failed" then run_failed <$> runFailedPayload_read j else
  if String.eqb type "run.cancelled" then run_cancelled <$> runCancelledPayload_read j else
  if String.eqb type "run.checkpointed" then run_checkpointed <$> LoopCheckpointFact_read j else
  if String.eqb type "task.created" then task_created <$> taskCreatedPayload_read j else
  if String.eqb type "task.reopened" then task_reopened <$> taskReopenedPayload_read j else
  if String.eqb type "task.status_changed" then task_status_changed <$> taskStatusPayload_read j else
  if String.eqb type "message.posted" then message_posted <$> messagePayload_read j else
  if String.eqb type "runtime.observed" then runtime_observed <$> runtimePayload_read j else
  if String.eqb type "attempt.prompt_prepared" then attempt_prompt_prepared <$> attemptPreparedPayload_read j else
  if String.eqb type "attempt.launch_planned" then attempt_launch_planned <$> attemptLaunchPlannedPayload_read j else
  if String.eqb type "attempt.started" then attempt_started <$> attemptStartedPayload_read j else
  if String.eqb type "attempt.exited" then attempt_exited <$> attemptExitedPayload_read j else
  if String.eqb type "attempt.abandoned" then attempt_abandoned <$> attemptAbandonedPayload_read j else
  if String.eqb type "steering.command_admitted" then steering_command_admitted <$> steeringAdmittedPayload_read j else
  if String.eqb type "steering.command_refused" then steering_command_refused <$> steeringRefusedPayload_read j else
  if String.eqb type "steering.command_terminal_refused" then steering_command_terminal_refused <$> steeringTerminalRefusedPayload_read j else
  if String.eqb type "steering.command_included" then steering_command_included <$> steeringIncludedPayload_read j else
  if String.eqb type "steering.command_withdrawn" then steering_command_withdrawn <$> steeringWithdrawnPayload_read j else
  if String.eqb type "steering.command_superseded" then steering_command_superseded <$> steeringSupersededPayload_read j else
  if String.eqb type "steering.command_expired" then steering_command_expired <$> steeringExpiredPayload_read j else
  if String.eqb type "scm.publication_recorded" then scm_publication_recorded <$> scmPublicationRecordedPayload_read j else
  if String.eqb type "scm.publication_state_changed" then scm_publication_state_changed <$> scmPublicationStateChangedPayload_read j else
  if String.eqb type "scm.poll_started" then scm_poll_started <$> scmPollStartedPayload_read j else
  if String.eqb type "scm.poll_completed" then scm_poll_completed <$> scmPollCompletedPayload_read j else
  if String.eqb type "scm.poll_failed" then scm_poll_failed <$> scmPollFailedPayload_read j else
  if String.eqb type "scm.bucket_accepted" then scm_bucket_accepted <$> scmBucketAcceptedPayload_read j else
  if String.eqb type "scm.reaction_created" then scm_reaction_created <$> scmReactionCreatedPayload_read j else
  if String.eqb type "scm.reaction_transitioned" then scm_reaction_transitioned <$> scmReactionTransitionedPayload_read j else
  None.

(** ["source"] and the rest of [baseShape], which [controlEventSchema] fills in
    for callers that leave them out. *)
Definition r_default {A} (a : A) (g : json -> option A) (j : json) : option A :=
  match j with JUndefined | JNull => Some a | _ => g j end.

Definition event_names : list string := ["schemaVersion"; "type"; "eventId"; "runId"; "runEpoch"; "taskId"; "taskGeneration";
  "expectedVersion"; "occurredAt"; "actorKind"; "actorId"; "sourceKind"; "sourceId"; "sourceGeneration"; "sourceEventId"; "payload"].

(** The shape of an event, among the properties of an object. *)
Definition event_of_properties (kvs : list (text * json)) : option ControlEvent :=
  _ ← r_field (r_literal_num 1) "schemaVersion" kvs;
  type ← r_field r_str "type" kvs;
  eventId ← r_field r_str "eventId" kvs;
  runId ← r_field r_str "runId" kvs;
  runEpoch ← r_field r_str "runEpoch" kvs;
  taskId ← r_field (r_null r_str) "taskId" kvs;
  taskGeneration ← r_field (r_null r_num) "taskGeneration" kvs;
  expectedVersion ← r_field r_num "expectedVersion" kvs;
  occurredAt ← r_field r_str "occurredAt" kvs;
  actorKind ← r_field (r_default actor_control_plane ControlActorKind_read) "actorKind" kvs;
  actorId ← r_field (r_default "parent" r_str) "actorId" kvs;
  sourceKind ← r_field (r_default None (r_null r_str)) "sourceKind" kvs;
  sourceId ← r_field (r_default None (r_null r_str)) "sourceId" kvs;
  sourceGeneration ← r_field (r_default None (r_null r_num)) "sourceGeneration" kvs;
  sourceEventId ← r_field (r_default None (r_null r_str)) "sourceEventId" kvs;
  payload ← r_field (payload_read type) "payload" kvs;
  Some {| ev_eventId := eventId; ev_runId := runId; ev_runEpoch := runEpoch; ev_taskId := taskId; ev_taskGeneration := taskGeneration;
    ev_expectedVersion := expectedVersion; ev_occurredAt := occurredAt; ev_actorKind := actorKind; ev_actorId := actorId;
    ev_sourceKind := sourceKind; ev_sourceId := sourceId; ev_sourceGeneration := sourceGeneration; ev_sourceEventId := sourceEventId;
    ev_payload := payload |}.

Definition ControlEvent_read (j : json) : option ControlEvent := kvs ← r_strict event_names j; event_of_properties kvs.

(** A stored event: [recordedAt] beside the properties of the event. *)
Definition PersistedControlEvent_read (j : json) : option (ControlEvent * string) :=
  kvs ← r_strict (event_names ++ ["recordedAt"]) j;
  e ← event_of_properties kvs;
  recordedAt ← r_field r_str "recordedAt" kvs;
  Some (e, recordedAt).

(** * What is written is read *)

Ltac names_listed := apply (bool_decide_unpack _); vm_compute; exact I.
Ltac enum_members := apply enum_reads; [intros [] []; cbn; congruence|intros []; names_listed].

#[export] Instance ScmProviderKind_reads : JsonReads (fun x => jstr (ScmProviderKind_name x)) ScmProviderKind_read.
Proof. enum_members. Qed.
#[export] Instance ScmPublicationState_reads : JsonReads (fun x => jstr (ScmPublicationState_name x)) ScmPublicationState_read.
Proof. enum_members. Qed.
#[export] Instance ScmCiState_reads : JsonReads (fun x => jstr (ScmCiState_name x)) ScmCiState_read.
Proof. enum_members. Qed.
#[export] Instance ScmCheckBucket_reads : JsonReads (fun x => jstr (ScmCheckBucket_name x)) ScmCheckBucket_read.
Proof. enum_members. Qed.
#[export] Instance ScmReviewDecision_reads : JsonReads (fun x => jstr (ScmReviewDecision_name x)) ScmReviewDecision_read.
Proof. enum_members. Qed.
#[export] Instance ScmMergeabilityState_reads : JsonReads (fun x => jstr (ScmMergeabilityState_name x)) ScmMergeabilityState_read.
Proof. enum_members. Qed.
#[export] Instance ScmCompleteness_reads : JsonReads (fun x => jstr (ScmCompleteness_name x)) ScmCompleteness_read.
Proof. enum_members. Qed.
#[export] Instance ScmPullLifecycle_reads : JsonReads (fun x => jstr (ScmPullLifecycle_name x)) ScmPullLifecycle_read.
Proof. enum_members. Qed.
#[export] Instance ScmEvidenceKind_reads : JsonReads (fun x => jstr (ScmEvidenceKind_name x)) ScmEvidenceKind_read.
Proof. enum_members. Qed.
#[export] Instance ScmAuthorKind_reads : JsonReads (fun x => jstr (ScmAuthorKind_name x)) ScmAuthorKind_read.
Proof. enum_members. Qed.
#[export] Instance ScmProviderFailureKind_reads : JsonReads (fun x => jstr (ScmProviderFailureKind_name x)) ScmProviderFailureKind_read.
Proof. enum_members. Qed.
#[export] Instance ControlTaskStatus_reads : JsonReads (fun x => jstr (ControlTaskStatus_name x)) ControlTaskStatus_read.
Proof. enum_members. Qed.
#[export] Instance LoopPhase_reads : JsonReads (fun x => jstr (LoopPhase_name x)) LoopPhase_read.
Proof. enum_members. Qed.
#[export] Instance LoopStatus_reads : JsonReads (fun x => jstr (LoopStatus_name x)) LoopStatus_read.
Proof. enum_members. Qed.
#[export] Instance RuntimeObservation_reads : JsonReads (fun x => jstr (RuntimeObservation_name x)) RuntimeObservation_read.
Proof. enum_members. Qed.
#[export] Instance AttemptOutcome_reads : JsonReads (fun x => jstr (AttemptOutcome_name x)) AttemptOutcome_read.
Proof. enum_members. Qed.
#[export] Instance AbandonReason_reads : JsonReads (fun x => jstr (AbandonReason_name x)) AbandonReason_read.
Proof. enum_members. Qed.
#[export] Instance SteeringCommandKind_reads : JsonReads (fun x => jstr (SteeringCommandKind_name x)) SteeringCommandKind_read.
Proof. enum_members. Qed.
#[export] Instance SteeringSourceKind_reads : JsonReads (fun x => jstr (SteeringSourceKind_name x)) SteeringSourceKind_read.
Proof. enum_members. Qed.
#[export] Instance SteeringRefusalReasonCode_reads : JsonReads (fun x => jstr (SteeringRefusalReasonCode_name x)) SteeringRefusalReasonCode_read.
Proof. enum_members. Qed.
#[export] Instance ScmBucketKind_reads : JsonReads (fun x => jstr (ScmBucketKind_name x)) ScmBucketKind_read.
Proof. enum_members. Qed.
#[export] Instance ScmBucketDecision_reads : JsonReads (fun x => jstr (ScmBucketDecision_name x)) ScmBucketDecision_read.
Proof. enum_members. Qed.
#[export] Instance ScmReactionState_reads : JsonReads (fun x => jstr (ScmReactionState_name x)) ScmReactionState_read.
Proof. enum_members. Qed.
#[export] Instance ScmReactionFactKind_reads : JsonReads (fun x => jstr (ScmReactionFactKind_name x)) ScmReactionFactKind_read.
Proof. enum_members. Qed.
#[export] Instance ControlActorKind_reads : JsonReads (fun x => jstr (ControlActorKind_name x)) ControlActorKind_read.
Proof. enum_members. Qed.
#[export] Instance ObservedActivity_reads : JsonReads (fun x => jstr (ObservedActivity_name x)) ObservedActivity_read.
Proof. apply enum_reads; [intros [[]|] [[]|]; cbn; congruence|]. intros [[]|]; names_listed. Qed.

#[export] Instance ScmRepositoryIdV1_reads : JsonReads ScmRepositoryIdV1_json ScmRepositoryIdV1_read.
Proof. read_record ScmRepositoryIdV1_read ScmRepositoryIdV1_json. Qed.
#[export] Instance ScmRepositoryIdV1_plain : JsonPlain ScmRepositoryIdV1_json.
Proof. plain_record. Qed.

#[export] Instance ScmRemoteExpectationV1_reads : JsonReads ScmRemoteExpectationV1_json ScmRemoteExpectationV1_read.
Proof.
  intros [|o]; [reflexivity|]. unfold ScmRemoteExpectationV1_read. cbn [ScmRemoteExpectationV1_json].
  assert (r_strict ["kind"] (canonical (jobj [("kind", jstr "oid"); ("oid", jstr o)])) = None) as -> by reflexivity.
  open_record. by read_fields.
Qed.
#[export] Instance ScmRemoteExpectationV1_plain : JsonPlain ScmRemoteExpectationV1_json.
Proof. intros [|o]; (apply jobj_distinct; [names_distinct|plain_values]). Qed.

#[export] Instance ScmPublicationIntentV1_reads : JsonReads ScmPublicationIntentV1_json ScmPublicationIntentV1_read.
Proof. read_record ScmPublicationIntentV1_read ScmPublicationIntentV1_json. Qed.
#[export] Instance ScmPublicationIntentV1_plain : JsonPlain ScmPublicationIntentV1_json.
Proof. plain_record. Qed.

#[export] Instance ScmPullRequestIdentityV1_reads : JsonReads ScmPullRequestIdentityV1_json ScmPullRequestIdentityV1_read.
Proof. read_record ScmPullRequestIdentityV1_read ScmPullRequestIdentityV1_json. Qed.
#[export] Instance ScmPullRequestIdentityV1_plain : JsonPlain ScmPullRequestIdentityV1_json.
Proof. plain_record. Qed.

#[export] Instance ScmPullRequestFactV1_reads : JsonReads ScmPullRequestFactV1_json ScmPullRequestFactV1_read.
Proof.
  intros x. unfold ScmPullRequestFactV1_read, ScmPullRequestFactV1_json. open_record.
  read_fields. by destruct x as [[]].
Qed.
#[export] Instance ScmPullRequestFactV1_plain : JsonPlain ScmPullRequestFactV1_json.
Proof. intros x. apply jobj_distinct; [names_distinct|]. unfold ScmPullRequestIdentityV1_fields. cbn [app]. plain_values. Qed.

#[export] Instance ScmNormalizedCheckV1_reads : JsonReads ScmNormalizedCheckV1_json ScmNormalizedCheckV1_read.
Proof. read_record ScmNormalizedCheckV1_read ScmNormalizedCheckV1_json. Qed.
#[export] Instance ScmNormalizedCheckV1_plain : JsonPlain ScmNormalizedCheckV1_json.
Proof. plain_record. Qed.

#[export] Instance ScmCiFactV1_reads : JsonReads ScmCiFactV1_json ScmCiFactV1_read.
Proof. read_record ScmCiFactV1_read ScmCiFactV1_json. Qed.
#[export] Instance ScmCiFactV1_plain : JsonPlain ScmCiFactV1_json.
Proof. plain_record. Qed.

#[export] Instance ScmEvidenceV1_reads : JsonReads ScmEvidenceV1_json ScmEvidenceV1_read.
Proof. read_record ScmEvidenceV1_read ScmEvidenceV1_json. Qed.
#[export] Instance ScmEvidenceV1_plain : JsonPlain ScmEvidenceV1_json.
Proof. plain_record. Qed.

#[export] Instance ScmReviewFactV1_reads : JsonReads ScmReviewFactV1_json ScmReviewFactV1_read.
Proof. read_record ScmReviewFactV1_read ScmReviewFactV1_json. Qed.
#[export] Instance ScmReviewFactV1_plain : JsonPlain ScmReviewFactV1_json.
Proof. plain_record. Qed.

#[export] Instance ScmMergeabilityFactV1_reads : JsonReads ScmMergeabilityFactV1_json ScmMergeabilityFactV1_read.
Proof. read_record ScmMergeabilityFactV1_read ScmMergeabilityFactV1_json. Qed.
#[export] Instance ScmMergeabilityFactV1_plain : JsonPlain ScmMergeabilityFactV1_json.
Proof. plain_record. Qed.

#[export] Instance ScmBucketMetaV1_reads : JsonReads ScmBucketMetaV1_json ScmBucketMetaV1_read.
Proof. read_record ScmBucketMetaV1_read ScmBucketMetaV1_json. Qed.
#[export] Instance ScmBucketMetaV1_plain : JsonPlain ScmBucketMetaV1_json.
Proof. plain_record. Qed.

#[export] Instance ScmFactBucketV1_reads {T} (f : T -> json) g `{!JsonReads f g} : JsonReads (ScmFactBucketV1_json f) (ScmFactBucketV1_read g).
Proof. read_record @ScmFactBucketV1_read @ScmFactBucketV1_json. Qed.
#[export] Instance ScmFactBucketV1_plain {T} (f : T -> json) `{!JsonPlain f} : JsonPlain (ScmFactBucketV1_json f).
Proof. plain_record. Qed.

#[export] Instance ScmProviderFailureV1_reads : JsonReads ScmProviderFailureV1_json ScmProviderFailureV1_read.
Proof. read_record ScmProviderFailureV1_read ScmProviderFailureV1_json. Qed.
#[export] Instance ScmProviderFailureV1_plain : JsonPlain ScmProviderFailureV1_json.
Proof. plain_record. Qed.

#[export] Instance ScmProviderLimitsV1_reads : JsonReads ScmProviderLimitsV1_json ScmProviderLimitsV1_read.
Proof. read_record ScmProviderLimitsV1_read ScmProviderLimitsV1_json. Qed.
#[export] Instance ScmProviderLimitsV1_plain : JsonPlain ScmProviderLimitsV1_json.
Proof. plain_record. Qed.

#[export] Instance ScmObservationGuardsV1_reads : JsonReads ScmObservationGuardsV1_json ScmObservationGuardsV1_read.
Proof. read_record ScmObservationGuardsV1_read ScmObservationGuardsV1_json. Qed.
#[export] Instance ScmObservationGuardsV1_plain : JsonPlain ScmObservationGuardsV1_json.
Proof. plain_record. Qed.

#[export] Instance taskCreatedPayload_reads : JsonReads taskCreatedPayload_json taskCreatedPayload_read.
Proof. read_record taskCreatedPayload_read taskCreatedPayload_json. Qed.
#[export] Instance taskCreatedPayload_plain : JsonPlain taskCreatedPayload_json.
Proof. plain_record. Qed.

#[export] Instance taskStatusPayload_reads : JsonReads taskStatusPayload_json taskStatusPayload_read.
Proof. read_record taskStatusPayload_read taskStatusPayload_json. Qed.
#[export] Instance taskStatusPayload_plain : JsonPlain taskStatusPayload_json.
Proof. plain_record. Qed.

#[export] Instance messagePayload_reads : JsonReads messagePayload_json messagePayload_read.
Proof. read_record messagePayload_read messagePayload_json. Qed.
#[export] Instance messagePayload_plain : JsonPlain messagePayload_json.
Proof. plain_record. Qed.

#[export] Instance runStartedPayload_reads : JsonReads runStartedPayload_json runStartedPayload_read.
Proof. read_record runStartedPayload_read runStartedPayload_json. Qed.
#[export] Instance runStartedPayload_plain : JsonPlain runStartedPayload_json.
Proof. plain_record. Qed.

#[export] Instance runCompletedPayload_reads : JsonReads runCompletedPayload_json runCompletedPayload_read.
Proof. read_record runCompletedPayload_read runCompletedPayload_json. Qed.
#[export] Instance runCompletedPayload_plain : JsonPlain runCompletedPayload_json.
Proof. plain_record. Qed.

#[export] Instance runFailedPayload_reads : JsonReads runFailedPayload_json runFailedPayload_read.
Proof. read_record runFailedPayload_read runFailedPayload_json. Qed.
#[export] Instance runFailedPayload_plain : JsonPlain runFailedPayload_json.
Proof. plain_record. Qed.

#[export] Instance runCancelledPayload_reads : JsonReads runCancelledPayload_json runCancelledPayload_read.
Proof. read_record runCancelledPayload_read runCancelledPayload_json. Qed.
#[export] Instance runCancelledPayload_plain : JsonPlain runCancelledPayload_json.
Proof. plain_record. Qed.

#[export] Instance LoopCheckpointFact_reads : JsonReads LoopCheckpointFact_json LoopCheckpointFact_read.
Proof. read_record LoopCheckpointFact_read LoopCheckpointFact_json. Qed.
#[export] Instance LoopCheckpointFact_plain : JsonPlain LoopCheckpointFact_json.
Proof. plain_record. Qed.

#[export] Instance runtimePayload_reads : JsonReads runtimePayload_json runtimePayload_read.
Proof. read_record runtimePayload_read runtimePayload_json. Qed.
#[export] Instance runtimePayload_plain : JsonPlain runtimePayload_json.
Proof. plain_record. Qed.

#[export] Instance attemptPreparedPayload_reads : JsonReads attemptPreparedPayload_json attemptPreparedPayload_read.
Proof. read_record attemptPreparedPayload_read attemptPreparedPayload_json. Qed.
#[export] Instance attemptPreparedPayload_plain : JsonPlain attemptPreparedPayload_json.
Proof. plain_record. Qed.

#[export] Instance attemptLaunchPlannedPayload_reads : JsonReads attemptLaunchPlannedPayload_json attemptLaunchPlannedPayload_read.
Proof. read_record attemptLaunchPlannedPayload_read attemptLaunchPlannedPayload_json. Qed.
#[export] Instance attemptLaunchPlannedPayload_plain : JsonPlain attemptLaunchPlannedPayload_json.
Proof. plain_record. Qed.

#[export] Instance attemptStartedPayload_reads : JsonReads attemptStartedPayload_json attemptStartedPayload_read.
Proof. read_record attemptStartedPayload_read attemptStartedPayload_json. Qed.
#[export] Instance attemptStartedPayload_plain : JsonPlain attemptStartedPayload_json.
Proof. plain_record. Qed.

#[export] Instance attemptExitedPayload_reads : JsonReads attemptExitedPayload_json attemptExitedPayload_read.
Proof. read_record attemptExitedPayload_read attemptExitedPayload_json. Qed.
#[export] Instance attemptExitedPayload_plain : JsonPlain attemptExitedPayload_json.
Proof. plain_record. Qed.

#[export] Instance attemptAbandonedPayload_reads : JsonReads attemptAbandonedPayload_json attemptAbandonedPayload_read.
Proof. read_record attemptAbandonedPayload_read attemptAbandonedPayload_json. Qed.
#[export] Instance attemptAbandonedPayload_plain : JsonPlain attemptAbandonedPayload_json.
Proof. plain_record. Qed.

#[export] Instance steeringAdmittedPayload_reads : JsonReads steeringAdmittedPayload_json steeringAdmittedPayload_read.
Proof. read_record steeringAdmittedPayload_read steeringAdmittedPayload_json. Qed.
#[export] Instance steeringAdmittedPayload_plain : JsonPlain steeringAdmittedPayload_json.
Proof. plain_record. Qed.

#[export] Instance steeringRefusedPayload_reads : JsonReads steeringRefusedPayload_json steeringRefusedPayload_read.
Proof. read_record steeringRefusedPayload_read steeringRefusedPayload_json. Qed.
#[export] Instance steeringRefusedPayload_plain : JsonPlain steeringRefusedPayload_json.
Proof. plain_record. Qed.

#[export] Instance steeringTerminalRefusedPayload_reads : JsonReads steeringTerminalRefusedPayload_json steeringTerminalRefusedPayload_read.
Proof. read_record steeringTerminalRefusedPayload_read steeringTerminalRefusedPayload_json. Qed.
#[export] Instance steeringTerminalRefusedPayload_plain : JsonPlain steeringTerminalRefusedPayload_json.
Proof. plain_record. Qed.

#[export] Instance steeringIncludedPayload_reads : JsonReads steeringIncludedPayload_json steeringIncludedPayload_read.
Proof. read_record steeringIncludedPayload_read steeringIncludedPayload_json. Qed.
#[export] Instance steeringIncludedPayload_plain : JsonPlain steeringIncludedPayload_json.
Proof. plain_record. Qed.

#[export] Instance steeringWithdrawnPayload_reads : JsonReads steeringWithdrawnPayload_json steeringWithdrawnPayload_read.
Proof. read_record steeringWithdrawnPayload_read steeringWithdrawnPayload_json. Qed.
#[export] Instance steeringWithdrawnPayload_plain : JsonPlain steeringWithdrawnPayload_json.
Proof. plain_record. Qed.

#[export] Instance steeringSupersededPayload_reads : JsonReads steeringSupersededPayload_json steeringSupersededPayload_read.
Proof. read_record steeringSupersededPayload_read steeringSupersededPayload_json. Qed.
#[export] Instance steeringSupersededPayload_plain : JsonPlain steeringSupersededPayload_json.
Proof. plain_record. Qed.

#[export] Instance steeringExpiredPayload_reads : JsonReads steeringExpiredPayload_json steeringExpiredPayload_read.
Proof. read_record steeringExpiredPayload_read steeringExpiredPayload_json. Qed.
#[export] Instance steeringExpiredPayload_plain : JsonPlain steeringExpiredPayload_json.
Proof. plain_record. Qed.

#[export] Instance taskReopenedPayload_reads : JsonReads taskReopenedPayload_json taskReopenedPayload_read.
Proof. read_record taskReopenedPayload_read taskReopenedPayload_json. Qed.
#[export] Instance taskReopenedPayload_plain : JsonPlain taskReopenedPayload_json.
Proof. plain_record. Qed.

#[export] Instance scmPublicationRecordedPayload_reads : JsonReads scmPublicationRecordedPayload_json scmPublicationRecordedPayload_read.
Proof. read_record scmPublicationRecordedPayload_read scmPublicationRecordedPayload_json. Qed.
#[export] Instance scmPublicationRecordedPayload_plain : JsonPlain scmPublicationRecordedPayload_json.
Proof. plain_record. Qed.

#[export] Instance scmPublicationStateChangedPayload_reads : JsonReads scmPublicationStateChangedPayload_json scmPublicationStateChangedPayload_read.
Proof. read_record scmPublicationStateChangedPayload_read scmPublicationStateChangedPayload_json. Qed.
#[export] Instance scmPublicationStateChangedPayload_plain : JsonPlain scmPublicationStateChangedPayload_json.
Proof. plain_record. Qed.

#[export] Instance scmPollStartedPayload_reads : JsonReads scmPollStartedPayload_json scmPollStartedPayload_read.
Proof. read_record scmPollStartedPayload_read scmPollStartedPayload_json. Qed.
#[export] Instance scmPollStartedPayload_plain : JsonPlain scmPollStartedPayload_json.
Proof. plain_record. Qed.

#[export] Instance ScmPollBucketOutcomeFact_reads : JsonReads ScmPollBucketOutcomeFact_json ScmPollBucketOutcomeFact_read.
Proof. read_record ScmPollBucketOutcomeFact_read ScmPollBucketOutcomeFact_json. Qed.
#[export] Instance ScmPollBucketOutcomeFact_plain : JsonPlain ScmPollBucketOutcomeFact_json.
Proof. plain_record. Qed.

#[export] Instance scmPollCompletedPayload_reads : JsonReads scmPollCompletedPayload_json scmPollCompletedPayload_read.
Proof. read_record scmPollCompletedPayload_read scmPollCompletedPayload_json. Qed.
#[export] Instance scmPollCompletedPayload_plain : JsonPlain scmPollCompletedPayload_json.
Proof. plain_record. Qed.

#[export] Instance scmPollFailedPayload_reads : JsonReads scmPollFailedPayload_json scmPollFailedPayload_read.
Proof. read_record scmPollFailedPayload_read scmPollFailedPayload_json. Qed.
#[export] Instance scmPollFailedPayload_plain : JsonPlain scmPollFailedPayload_json.
Proof. plain_record. Qed.

Lemma scmAnyBucket_reads b : scmAnyBucket_read (scmAnyBucket_kind b) (canonical (scmAnyBucket_json b)) = Some b.
Proof. destruct b as [b|b|b|b]; cbn [scmAnyBucket_json scmAnyBucket_kind scmAnyBucket_read]; by rewrite read_back. Qed.
#[export] Instance scmBucketAcceptedPayload_reads : JsonReads scmBucketAcceptedPayload_json scmBucketAcceptedPayload_read.
Proof.
  intros x. unfold scmBucketAcceptedPayload_read, scmBucketAcceptedPayload_json. open_record.
  read_fields. eapply read_step; [eassumption|reflexivity|apply scmAnyBucket_reads|]. by destruct x.
Qed.
#[export] Instance scmAnyBucket_plain : JsonPlain scmAnyBucket_json.
Proof. intros [b|b|b|b]; apply (plain (f := ScmFactBucketV1_json _)). Qed.
#[export] Instance scmBucketAcceptedPayload_plain : JsonPlain scmBucketAcceptedPayload_json.
Proof. plain_record. Qed.

#[export] Instance scmReactionCreatedPayload_reads : JsonReads scmReactionCreatedPayload_json scmReactionCreatedPayload_read.
Proof. read_record scmReactionCreatedPayload_read scmReactionCreatedPayload_json. Qed.
#[export] Instance scmReactionCreatedPayload_plain : JsonPlain scmReactionCreatedPayload_json.
Proof. plain_record. Qed.

#[export] Instance scmReactionTransitionedPayload_reads : JsonReads scmReactionTransitionedPayload_json scmReactionTransitionedPayload_read.
Proof. read_record scmReactionTransitionedPayload_read scmReactionTransitionedPayload_json. Qed.
#[export] Instance scmReactionTransitionedPayload_plain : JsonPlain scmReactionTransitionedPayload_json.
Proof. plain_record. Qed.

Lemma payload_reads p : payload_read (event_type p) (canonical (payload_json p)) = Some p.
Proof. destruct p; cbn [event_type payload_json]; cbv [payload_read String.eqb Ascii.eqb Bool.eqb]; by rewrite read_back. Qed.

#[export] Instance payload_plain : JsonPlain payload_json.
Proof. intros p. destruct p; cbn [payload_json]; match goal with |- distinct (?f ?a) => apply (plain (f := f)) end. Qed.

#[export] Instance r_default_reads {A} (f : A -> json) a g `{!JsonValue f} `{!JsonReads f g} : JsonReads f (r_default a g).
Proof.
  intros x. pose proof (json_defined (f := f) x) as Hu. pose proof (json_not_null (f := f) x) as Hn.
  rewrite <-is_undefined_canonical in Hu. pose proof (read_back (f := f) x) as Hr.
  unfold r_default. by destruct (canonical (f x)).
Qed.

#[export] Instance r_default_null_reads {A} (f : A -> json) g `{!JsonValue f} `{!JsonReads f g} :
  JsonReads (jnull f) (r_default None (r_null g)).
Proof.
  intros [x|]; [|done]. cbn [jnull].
  pose proof (json_defined (f := f) x) as Hu. pose proof (json_not_null (f := f) x) as Hn.
  rewrite <-is_undefined_canonical in Hu. pose proof (read_back (f := f) x) as Hr.
  unfold r_default, r_null. destruct (canonical (f x)); try done; by rewrite Hr.
Qed.

Lemma event_of_fields e fs :
  NoDup (List.map fst (ControlEvent_fields e ++ fs)) -> event_of_properties (entries (ControlEvent_fields e ++ fs)) = Some e.
Proof.
  intros Hnd. unfold event_of_properties. read_fields.
  eapply read_step; [eassumption|reflexivity|apply payload_reads|]. by destruct e.
Qed.

(** [parseControlEvent(JSON.parse(text))] of a printed event is the event. *)
Lemma ControlEvent_reads e : ControlEvent_read (canonical (ControlEvent_json e)) = Some e.
Proof.
  unfold ControlEvent_read, ControlEvent_json. eapply open_step; [by apply r_strict_jobj|].
  pose proof (event_of_fields e []) as H. rewrite app_nil_r in H. apply H. names_distinct.
Qed.

Lemma PersistedControlEvent_reads e recordedAt :
  PersistedControlEvent_read (canonical (PersistedControlEvent_json e recordedAt)) = Some (e, recordedAt).
Proof.
  unfold PersistedControlEvent_read, PersistedControlEvent_json. open_record.
  eapply (open_step event_of_properties); [by apply event_of_fields|]. by read_fields.
Qed.

Lemma PersistedControlEvent_plain e recordedAt : distinct (PersistedControlEvent_json e recordedAt).
Proof.
  apply jobj_distinct; [names_distinct|]. unfold ControlEvent_fields. cbn [app]. plain_values.
Qed.

(** A stored text is read back as the event and the time it was printed from. *)
Lemma stored_event_read {D : Digest} {U : ScmSchema.UrlApi} e recordedAt t :
  canonicalPersistedControlEvent e recordedAt = Ok t -> JSON_parse t ≫= PersistedControlEvent_read = Some (e, recordedAt).
Proof.
  unfold canonicalPersistedControlEvent, parseControlEvent. intros H. run. subst.
  match goal with H : canonicalJson _ = Ok _ |- _ => apply JSON_parse_canonicalJson in H as ->; [|apply PersistedControlEvent_plain] end.
  cbn [mbind option_bind]. apply PersistedControlEvent_reads.
Qed.

(** * Enumerations *)

Definition AttemptState_name (x : AttemptState) : string :=
  match x with
  | att_prepared => "prepared"
  | att_active => "active"
  | att_exited => "exited"
  | att_abandoned => "abandoned"
  end.
Definition AttemptState_read : json -> option AttemptState :=
  r_enum AttemptState_name [att_prepared; att_active; att_exited; att_abandoned].
Definition SteeringStatus_name (x : SteeringStatus) : string :=
  match x with
  | st_pending => "pending"
  | st_included => "included"
  | st_refused => "refused"
  | st_withdrawn => "withdrawn"
  | st_superseded => "superseded"
  | st_expired => "expired"
  end.
Definition SteeringStatus_read : json -> option SteeringStatus :=
  r_enum SteeringStatus_name [st_pending; st_included; st_refused; st_withdrawn; st_superseded; st_expired].
Definition RunStatus_name (x : RunStatus) : string :=
  match x with
  | run_started_status => "started"
  | run_completed_status => "completed"
  | run_failed_status => "failed"
  | run_cancelled_status => "cancelled"
  end.
Definition RunStatus_read : json -> option RunStatus :=
  r_enum RunStatus_name [run_started_status; run_completed_status; run_failed_status; run_cancelled_status].

(** * Facts *)

Definition RunFact_fields (x : RunFact) : list (string * json) :=
  [("status", (fun x => jstr (RunStatus_name x)) (x.(rn_status)));
   ("startedBy", jstr (x.(rn_startedBy)));
   ("goal", jopt JString (x.(rn_goal)));
   ("configDigest", jopt jstr (x.(rn_configDigest)));
   ("startedAt", jstr (x.(rn_startedAt)));
   ("terminalAt", jopt jstr (x.(rn_terminalAt)));
   ("reasonCode", jopt jstr (x.(rn_reasonCode)));
   ("summary", jopt JString (x.(rn_summary)));
   ("cancelledBy", jopt jstr (x.(rn_cancelledBy)));
   ("checkpoint", jopt LoopCheckpointFact_json (x.(rn_checkpoint)));
   ("version", jnum (x.(rn_version)));
   ("updatedSeq", jnum (x.(rn_updatedSeq)))].
Definition RunFact_json (x : RunFact) : json := jobj (RunFact_fields x).
Definition RunFact_read (j : json) : option RunFact :=
  kvs ← r_object j;
  status_ ← r_field RunStatus_read "status" kvs;
  startedBy_ ← r_field r_str "startedBy" kvs;
  goal_ ← r_field (r_opt r_text) "goal" kvs;
  configDigest_ ← r_field (r_opt r_str) "configDigest" kvs;
  startedAt_ ← r_field r_str "startedAt" kvs;
  terminalAt_ ← r_field (r_opt r_str) "terminalAt" kvs;
  reasonCode_ ← r_field (r_opt r_str) "reasonCode" kvs;
  summary_ ← r_field (r_opt r_text) "summary" kvs;
  cancelledBy_ ← r_field (r_opt r_str) "cancelledBy" kvs;
  checkpoint_ ← r_field (r_opt LoopCheckpointFact_read) "checkpoint" kvs;
  version_ ← r_field r_num "version" kvs;
  updatedSeq_ ← r_field r_num "updatedSeq" kvs;
  Some {| rn_status := status_; rn_startedBy := startedBy_; rn_goal := goal_; rn_configDigest := configDigest_; rn_startedAt := startedAt_; rn_terminalAt := terminalAt_; rn_reasonCode := reasonCode_; rn_summary := summary_; rn_cancelledBy := cancelledBy_; rn_checkpoint := checkpoint_; rn_version := version_; rn_updatedSeq := updatedSeq_ |}.

Definition TaskFact_fields (x : TaskFact) : list (string * json) :=
  [("id", jstr (x.(tf_id)));
   ("generation", jnum (x.(tf_generation)));
   ("title", JString (x.(tf_title)));
   ("assignee", jstr (x.(tf_assignee)));
   ("createdBy", jstr (x.(tf_createdBy)));
   ("description", JString (x.(tf_description)));
   ("acceptanceCriteria", jlist JString (x.(tf_acceptanceCriteria)));
   ("dependsOn", jlist jstr (x.(tf_dependsOn)));
   ("priority", jnum (x.(tf_priority)));
   ("createdAt", jstr (x.(tf_createdAt)));
   ("files", jopt (jlist JString) (x.(tf_files)));
   ("status", (fun x => jstr (ControlTaskStatus_name x)) (x.(tf_status)));
   ("claimedBy", jopt jstr (x.(tf_claimedBy)));
   ("lastSummary", jopt JString (x.(tf_lastSummary)));
   ("lastUpdate", jstr (x.(tf_lastUpdate)));
   ("attempts", jnum (x.(tf_attempts)));
   ("version", jnum (x.(tf_version)));
   ("updatedSeq", jnum (x.(tf_updatedSeq)))].
Definition TaskFact_json (x : TaskFact) : json := jobj (TaskFact_fields x).
Definition TaskFact_read (j : json) : option TaskFact :=
  kvs ← r_object j;
  id_ ← r_field r_str "id" kvs;
  generation_ ← r_field r_num "generation" kvs;
  title_ ← r_field r_text "title" kvs;
  assignee_ ← r_field r_str "assignee" kvs;
  createdBy_ ← r_field r_str "createdBy" kvs;
  description_ ← r_field r_text "description" kvs;
  acceptanceCriteria_ ← r_field (r_list r_text) "acceptanceCriteria" kvs;
  dependsOn_ ← r_field (r_list r_str) "dependsOn" kvs;
  priority_ ← r_field r_num "priority" kvs;
  createdAt_ ← r_field r_str "createdAt" kvs;
  files_ ← r_field (r_opt (r_list r_text)) "files" kvs;
  status_ ← r_field ControlTaskStatus_read "status" kvs;
  claimedBy_ ← r_field (r_opt r_str) "claimedBy" kvs;
  lastSummary_ ← r_field (r_opt r_text) "lastSummary" kvs;
  lastUpdate_ ← r_field r_str "lastUpdate" kvs;
  attempts_ ← r_field r_num "attempts" kvs;
  version_ ← r_field r_num "version" kvs;
  updatedSeq_ ← r_field r_num "updatedSeq" kvs;
  Some {| tf_id := id_; tf_generation := generation_; tf_title := title_; tf_assignee := assignee_; tf_createdBy := createdBy_; tf_description := description_; tf_acceptanceCriteria := acceptanceCriteria_; tf_dependsOn := dependsOn_; tf_priority := priority_; tf_createdAt := createdAt_; tf_files := files_; tf_status := status_; tf_claimedBy := claimedBy_; tf_lastSummary := lastSummary_; tf_lastUpdate := lastUpdate_; tf_attempts := attempts_; tf_version := version_; tf_updatedSeq := updatedSeq_ |}.

Definition MessageFact_fields (x : MessageFact) : list (string * json) :=
  [("messageId", jstr (x.(mf_messageId)));
   ("seq", jnum (x.(mf_seq)));
   ("taskId", jopt jstr (x.(mf_taskId)));
   ("taskGeneration", jopt jnum (x.(mf_taskGeneration)));
   ("from", jstr (x.(mf_from)));
   ("to", jstr (x.(mf_to)));
   ("body", JString (x.(mf_body)));
   ("occurredAt", jstr (x.(mf_occurredAt)))].
Definition MessageFact_json (x : MessageFact) : json := jobj (MessageFact_fields x).
Definition MessageFact_read (j : json) : option MessageFact :=
  kvs ← r_object j;
  messageId_ ← r_field r_str "messageId" kvs;
  seq_ ← r_field r_num "seq" kvs;
  taskId_ ← r_field (r_opt r_str) "taskId" kvs;
  taskGeneration_ ← r_field (r_opt r_num) "taskGeneration" kvs;
  from_ ← r_field r_str "from" kvs;
  to_ ← r_field r_str "to" kvs;
  body_ ← r_field r_text "body" kvs;
  occurredAt_ ← r_field r_str "occurredAt" kvs;
  Some {| mf_messageId := messageId_; mf_seq := seq_; mf_taskId := taskId_; mf_taskGeneration := taskGeneration_; mf_from := from_; mf_to := to_; mf_body := body_; mf_occurredAt := occurredAt_ |}.

Definition RuntimeFact_fields (x : RuntimeFact) : list (string * json) :=
  [("sessionId", jstr (x.(rf_sessionId)));
   ("sessionGeneration", jnum (x.(rf_sessionGeneration)));
   ("taskId", jopt jstr (x.(rf_taskId)));
   ("taskGeneration", jopt jnum (x.(rf_taskGeneration)));
   ("observation", (fun x => jstr (RuntimeObservation_name x)) (x.(rf_observation)));
   ("launchId", jopt jstr (x.(rf_launchId)));
   ("reason", jopt JString (x.(rf_reason)));
   ("observedAt", jstr (x.(rf_observedAt)));
   ("updatedSeq", jnum (x.(rf_updatedSeq)))].
Definition RuntimeFact_json (x : RuntimeFact) : json := jobj (RuntimeFact_fields x).
Definition RuntimeFact_read (j : json) : option RuntimeFact :=
  kvs ← r_object j;
  sessionId_ ← r_field r_str "sessionId" kvs;
  sessionGeneration_ ← r_field r_num "sessionGeneration" kvs;
  taskId_ ← r_field (r_opt r_str) "taskId" kvs;
  taskGeneration_ ← r_field (r_opt r_num) "taskGeneration" kvs;
  observation_ ← r_field RuntimeObservation_read "observation" kvs;
  launchId_ ← r_field (r_opt r_str) "launchId" kvs;
  reason_ ← r_field (r_opt r_text) "reason" kvs;
  observedAt_ ← r_field r_str "observedAt" kvs;
  updatedSeq_ ← r_field r_num "updatedSeq" kvs;
  Some {| rf_sessionId := sessionId_; rf_sessionGeneration := sessionGeneration_; rf_taskId := taskId_; rf_taskGeneration := taskGeneration_; rf_observation := observation_; rf_launchId := launchId_; rf_reason := reason_; rf_observedAt := observedAt_; rf_updatedSeq := updatedSeq_ |}.

Definition AttemptFact_fields (x : AttemptFact) : list (string * json) :=
  [("attemptId", jstr (x.(af_attemptId)));
   ("attemptGeneration", jnum (x.(af_attemptGeneration)));
   ("taskId", jstr (x.(af_taskId)));
   ("taskGeneration", jnum (x.(af_taskGeneration)));
   ("sessionId", jstr (x.(af_sessionId)));
   ("sessionGeneration", jnum (x.(af_sessionGeneration)));
   ("artifactLocator", jopt jstr (x.(af_artifactLocator)));
   ("promptSha256", jopt jstr (x.(af_promptSha256)));
   ("promptBytes", jopt jnum (x.(af_promptBytes)));
   ("rendererVersion", jopt jnum (x.(af_rendererVersion)));
   ("captureCutoffSeq", jopt jnum (x.(af_captureCutoffSeq)));
   ("steeringCommandIds", jlist jstr (x.(af_steeringCommandIds)));
   ("launchId", jopt jstr (x.(af_launchId)));
   ("pid", jopt jnum (x.(af_pid)));
   ("processStartToken", jopt jstr (x.(af_processStartToken)));
   ("state", (fun x => jstr (AttemptState_name x)) (x.(af_state)));
   ("outcome", jopt ((fun x => jstr (AttemptOutcome_name x))) (x.(af_outcome)));
   ("exitCode", jopt jnum (x.(af_exitCode)));
   ("summary", jopt JString (x.(af_summary)));
   ("abandonReason", jopt ((fun x => jstr (AbandonReason_name x))) (x.(af_abandonReason)));
   ("preparedSeq", jopt jnum (x.(af_preparedSeq)));
   ("launchPlannedSeq", jopt jnum (x.(af_launchPlannedSeq)));
   ("startedSeq", jopt jnum (x.(af_startedSeq)));
   ("exitedSeq", jopt jnum (x.(af_exitedSeq)));
   ("abandonedSeq", jopt jnum (x.(af_abandonedSeq)))].
Definition AttemptFact_json (x : AttemptFact) : json := jobj (AttemptFact_fields x).
Definition AttemptFact_read (j : json) : option AttemptFact :=
  kvs ← r_object j;
  attemptId_ ← r_field r_str "attemptId" kvs;
  attemptGeneration_ ← r_field r_num "attemptGeneration" kvs;
  taskId_ ← r_field r_str "taskId" kvs;
  taskGeneration_ ← r_field r_num "taskGeneration" kvs;
  sessionId_ ← r_field r_str "sessionId" kvs;
  sessionGeneration_ ← r_field r_num "sessionGeneration" kvs;
  artifactLocator_ ← r_field (r_opt r_str) "artifactLocator" kvs;
  promptSha256_ ← r_field (r_opt r_str) "promptSha256" kvs;
  promptBytes_ ← r_field (r_opt r_num) "promptBytes" kvs;
  rendererVersion_ ← r_field (r_opt r_num) "rendererVersion" kvs;
  captureCutoffSeq_ ← r_field (r_opt r_num) "captureCutoffSeq" kvs;
  steeringCommandIds_ ← r_field (r_list r_str) "steeringCommandIds" kvs;
  launchId_ ← r_field (r_opt r_str) "launchId" kvs;
  pid_ ← r_field (r_opt r_num) "pid" kvs;
  processStartToken_ ← r_field (r_opt r_str) "processStartToken" kvs;
  state_ ← r_field AttemptState_read "state" kvs;
  outcome_ ← r_field (r_opt AttemptOutcome_read) "outcome" kvs;
  exitCode_ ← r_field (r_opt r_num) "exitCode" kvs;
  summary_ ← r_field (r_opt r_text) "summary" kvs;
  abandonReason_ ← r_field (r_opt AbandonReason_read) "abandonReason" kvs;
  preparedSeq_ ← r_field (r_opt r_num) "preparedSeq" kvs;
  launchPlannedSeq_ ← r_field (r_opt r_num) "launchPlannedSeq" kvs;
  startedSeq_ ← r_field (r_opt r_num) "startedSeq" kvs;
  exitedSeq_ ← r_field (r_opt r_num) "exitedSeq" kvs;
  abandonedSeq_ ← r_field (r_opt r_num) "abandonedSeq" kvs;
  Some {| af_attemptId := attemptId_; af_attemptGeneration := attemptGeneration_; af_taskId := taskId_; af_taskGeneration := taskGeneration_; af_sessionId := sessionId_; af_sessionGeneration := sessionGeneration_; af_artifactLocator := artifactLocator_; af_promptSha256 := promptSha256_; af_promptBytes := promptBytes_; af_rendererVersion := rendererVersion_; af_captureCutoffSeq := captureCutoffSeq_; af_steeringCommandIds := steeringCommandIds_; af_launchId := launchId_; af_pid := pid_; af_processStartToken := processStartToken_; af_state := state_; af_outcome := outcome_; af_exitCode := exitCode_; af_summary := summary_; af_abandonReason := abandonReason_; af_preparedSeq := preparedSeq_; af_launchPlannedSeq := launchPlannedSeq_; af_startedSeq := startedSeq_; af_exitedSeq := exitedSeq_; af_abandonedSeq := abandonedSeq_ |}.

Definition SteeringFact_fields (x : SteeringFact) : list (string * json) :=
  [("commandId", jstr (x.(sf_commandId)));
   ("sessionId", jstr (x.(sf_sessionId)));
   ("sessionGeneration", jnum (x.(sf_sessionGeneration)));
   ("taskId", jstr (x.(sf_taskId)));
   ("taskGeneration", jnum (x.(sf_taskGeneration)));
   ("bodySha256", jstr (x.(sf_bodySha256)));
   ("requestSemanticDigest", jopt jstr (x.(sf_requestSemanticDigest)));
   ("observedSeq", jopt jnum (x.(sf_observedSeq)));
   ("observedActivity", jopt ((fun x => jstr (ObservedActivity_name x))) (x.(sf_observedActivity)));
   ("status", (fun x => jstr (SteeringStatus_name x)) (x.(sf_status)));
   ("admittedSeq", jopt jnum (x.(sf_admittedSeq)));
   ("terminalSeq", jopt jnum (x.(sf_terminalSeq)));
   ("notBeforeAttemptGeneration", jopt jnum (x.(sf_notBeforeAttemptGeneration)));
   ("kind", jopt ((fun x => jstr (SteeringCommandKind_name x))) (x.(sf_kind)));
   ("sourceKind", jopt ((fun x => jstr (SteeringSourceKind_name x))) (x.(sf_sourceKind)));
   ("parentPrincipal", jopt jstr (x.(sf_parentPrincipal)));
   ("evidenceRefs", jopt (jlist jstr) (x.(sf_evidenceRefs)));
   ("body", jopt JString (x.(sf_body)));
   ("createdAt", jopt jstr (x.(sf_createdAt)));
   ("expiresAt", jopt jstr (x.(sf_expiresAt)));
   ("supersedesCommandId", jopt jstr (x.(sf_supersedesCommandId)));
   ("reasonCode", jopt ((fun x => jstr (SteeringRefusalReasonCode_name x))) (x.(sf_reasonCode)));
   ("attemptId", jopt jstr (x.(sf_attemptId)));
   ("attemptGeneration", jopt jnum (x.(sf_attemptGeneration)));
   ("promptSha256", jopt jstr (x.(sf_promptSha256)));
   ("byCommandId", jopt jstr (x.(sf_byCommandId)))].
Definition SteeringFact_json (x : SteeringFact) : json := jobj (SteeringFact_fields x).
Definition SteeringFact_read (j : json) : option SteeringFact :=
  kvs ← r_object j;
  commandId_ ← r_field r_str "commandId" kvs;
  sessionId_ ← r_field r_str "sessionId" kvs;
  sessionGeneration_ ← r_field r_num "sessionGeneration" kvs;
  taskId_ ← r_field r_str "taskId" kvs;
  taskGeneration_ ← r_field r_num "taskGeneration" kvs;
  bodySha256_ ← r_field r_str "bodySha256" kvs;
  requestSemanticDigest_ ← r_field (r_opt r_str) "requestSemanticDigest" kvs;
  observedSeq_ ← r_field (r_opt r_num) "observedSeq" kvs;
  observedActivity_ ← r_field (r_opt ObservedActivity_read) "observedActivity" kvs;
  status_ ← r_field SteeringStatus_read "status" kvs;
  admittedSeq_ ← r_field (r_opt r_num) "admittedSeq" kvs;
  terminalSeq_ ← r_field (r_opt r_num) "terminalSeq" kvs;
  notBeforeAttemptGeneration_ ← r_field (r_opt r_num) "notBeforeAttemptGeneration" kvs;
  kind_ ← r_field (r_opt SteeringCommandKind_read) "kind" kvs;
  sourceKind_ ← r_field (r_opt SteeringSourceKind_read) "sourceKind" kvs;
  parentPrincipal_ ← r_field (r_opt r_str) "parentPrincipal" kvs;
  evidenceRefs_ ← r_field (r_opt (r_list r_str)) "evidenceRefs" kvs;
  body_ ← r_field (r_opt r_text) "body" kvs;
  createdAt_ ← r_field (r_opt r_str) "createdAt" kvs;
  expiresAt_ ← r_field (r_opt r_str) "expiresAt" kvs;
  supersedesCommandId_ ← r_field (r_opt r_str) "supersedesCommandId" kvs;
  reasonCode_ ← r_field (r_opt SteeringRefusalReasonCode_read) "reasonCode" kvs;
  attemptId_ ← r_field (r_opt r_str) "attemptId" kvs;
  attemptGeneration_ ← r_field (r_opt r_num) "attemptGeneration" kvs;
  promptSha256_ ← r_field (r_opt r_str) "promptSha256" kvs;
  byCommandId_ ← r_field (r_opt r_str) "byCommandId" kvs;
  Some {| sf_commandId := commandId_; sf_sessionId := sessionId_; sf_sessionGeneration := sessionGeneration_; sf_taskId := taskId_; sf_taskGeneration := taskGeneration_; sf_bodySha256 := bodySha256_; sf_requestSemanticDigest := requestSemanticDigest_; sf_observedSeq := observedSeq_; sf_observedActivity := observedActivity_; sf_status := status_; sf_admittedSeq := admittedSeq_; sf_terminalSeq := terminalSeq_; sf_notBeforeAttemptGeneration := notBeforeAttemptGeneration_; sf_kind := kind_; sf_sourceKind := sourceKind_; sf_parentPrincipal := parentPrincipal_; sf_evidenceRefs := evidenceRefs_; sf_body := body_; sf_createdAt := createdAt_; sf_expiresAt := expiresAt_; sf_supersedesCommandId := supersedesCommandId_; sf_reasonCode := reasonCode_; sf_attemptId := attemptId_; sf_attemptGeneration := attemptGeneration_; sf_promptSha256 := promptSha256_; sf_byCommandId := byCommandId_ |}.

(** * What is written is read *)

#[export] Instance AttemptState_reads : JsonReads (fun x => jstr (AttemptState_name x)) AttemptState_read.
Proof. enum_members. Qed.
#[export] Instance SteeringStatus_reads : JsonReads (fun x => jstr (SteeringStatus_name x)) SteeringStatus_read.
Proof. enum_members. Qed.
#[export] Instance RunStatus_reads : JsonReads (fun x => jstr (RunStatus_name x)) RunStatus_read.
Proof. enum_members. Qed.
#[export] Instance RunFact_reads : JsonReads RunFact_json RunFact_read.
Proof. read_record RunFact_read RunFact_json. Qed.
#[export] Instance RunFact_plain : JsonPlain RunFact_json.
Proof. plain_record. Qed.
#[export] Instance TaskFact_reads : JsonReads TaskFact_json TaskFact_read.
Proof. read_record TaskFact_read TaskFact_json. Qed.
#[export] Instance TaskFact_plain : JsonPlain TaskFact_json.
Proof. plain_record. Qed.
#[export] Instance MessageFact_reads : JsonReads MessageFact_json MessageFact_read.
Proof. read_record MessageFact_read MessageFact_json. Qed.
#[export] Instance MessageFact_plain : JsonPlain MessageFact_json.
Proof. plain_record. Qed.
#[export] Instance RuntimeFact_reads : JsonReads RuntimeFact_json RuntimeFact_read.
Proof. read_record RuntimeFact_read RuntimeFact_json. Qed.
#[export] Instance RuntimeFact_plain : JsonPlain RuntimeFact_json.
Proof. plain_record. Qed.
#[export] Instance AttemptFact_reads : JsonReads AttemptFact_json AttemptFact_read.
Proof. read_record AttemptFact_read AttemptFact_json. Qed.
#[export] Instance AttemptFact_plain : JsonPlain AttemptFact_json.
Proof. plain_record. Qed.
#[export] Instance SteeringFact_reads : JsonReads SteeringFact_json SteeringFact_read.
Proof. read_record SteeringFact_read SteeringFact_json. Qed.
#[export] Instance SteeringFact_plain : JsonPlain SteeringFact_json.
Proof. plain_record. Qed.

(** [JSON.parse(t) as T] of a fact that was printed. *)
Lemma stored_fact_read {T} (f : T -> json) g `{!JsonReads f g} `{!JsonPlain f} x t :
  canonicalJson (f x) = Ok t -> JSON_parse t ≫= g = Some x.
Proof. intros H. rewrite (JSON_parse_canonicalJson _ _ (plain (f := f) x) H). cbn. apply (read_back (f := f)). Qed.
