(* ===== verification/ControlReducer.v ===== *)
(** ControlReducer: [applyControlEvent] and [reduceControlEvents] of
    src/control/reducer.ts, one definition per case of the switch.

    A handler takes the cloned projection and the event and returns the updated
    projection or the error the source throws. [event.taskId!] and
    [event.taskGeneration!] are the arguments [taskId], [taskGeneration]. *)
From S2P Require Import Prelude Text Json Ids ScmTypes ControlEvents EventSchema ControlState.

(** One constructor per [throw] of the reducer and of the helpers it calls. *)
Inductive ControlReductionError :=
| InvalidScope (e : ScopeError)
| RunIdentityMismatch
| NonContiguousSequence (seq expected : Z)
| AggregateVersionMismatch (key : string) (actual expected : Z)
| RunAlreadyStarted
| RunStartedNotFirst
| RunNotStarted
| CheckpointStartedAtMismatch
| CheckpointTimeReversed
| CheckpointCountersContradict
| CheckpointPhaseDisagrees
| CheckpointIdentityChanged
| CheckpointTimeRegressed
| CheckpointAlreadyTerminal
| CheckpointCounterRegressed
| TaskExists (taskId : string)
| TaskMissing (taskId : string)
| TaskGenerationStale (taskId : string) (generation : Z)
| IllegalTaskTransition (from to : ControlTaskStatus)
| TaskAlreadyClaimed (taskId : string)
| RoleCannotAdvance (role : string)
| TaskNotTerminal (taskId : string)
| ReopenGenerationMismatch (taskId : string)
| MessageExists (messageId : string)
| SessionMissing (sessionId : string)
| SessionGenerationStale (sessionId : string)
| SessionAdvancedBeforeExit (sessionId : string)
| SessionResurrected (sessionId : string)
| SessionRetargeted (sessionId : string)
| SessionNotAssigned (sessionId : string)
| AttemptExists (attemptId : string)
| AttemptGenerationMismatch (actual expected : Z)
| AttemptNotPrepared (attemptId : string)
| AttemptAlreadyPlanned (attemptId : string)
| AttemptIdentityMismatch (attemptId : string)
| AttemptWithoutPlan (attemptId : string)
| AttemptNotActive (attemptId : string)
| CommandExists (commandId : string)
| CommandNotPending (commandId : string)
| CommandTargetMismatch (commandId : string)
| CommandWithoutPrompt (commandId : string)
| PublicationMissing (publicationId : string)
| PublicationGenerationStale (publicationId : string)
| PublicationRunMismatch
| PublicationExists (publicationId : string)
| PublicationTaskTerminal (taskId : string)
| PublicationTargetMismatch (publicationId : string)
| PublicationStateMismatch (publicationId : string)
| IllegalPublicationTransition (from to : ScmPublicationState)
| BranchOidMismatch
| PublishedWithoutPull
| PullMismatch (publicationId : string)
| PullLifecycleMismatch
| PullNotAllowed
| RefusedWithoutReason
| PollTaskTerminal (taskId : string)
| PublicationNotPublished (publicationId : string)
| PollHeadMismatch
| PullIdentityChanged
| PollGuardUnbacked
| PollActive (publicationId : string)
| PollAlreadyActive (pollId : string)
| PollRetryMismatch (pollId : string)
| PollFirstAttempt (pollId : string)
| PollNotActive (pollId : string)
| PollIdentityMismatch (pollId : string)
| PollBudgetExceeded (pollId : string)
| PollRetryTimeInvalid
| PollFailureWithoutTime
| BucketWithoutPoll (pollId : string)
| BucketAlreadyAccepted (pollId : string)
| BucketOutcomeMismatch
| BucketHeadMismatch
| BucketHasPrior
| BucketPriorMismatch
| BucketUnchanged
| BucketRefreshChanged
| BucketPartialMismatch
| ReactionTaskTerminal (taskId : string)
| ReactionTargetMismatch
| ReactionExists (reactionKey : string)
| ReactionCommandExists (commandId : string)
| ReactionWithoutObservation
| ReactionEvidenceMismatch
| ReactionKeyMismatch
| ReactionActive (publicationId : string)
| ReactionMissing (reactionKey : string)
| ReactionFenceStale (reactionKey : string)
| IllegalReactionTransition (from to : ScmReactionState)
| ReactionAdmissionMismatch
| ReactionInclusionMismatch
| ReactionRefusalMismatch
| ReactionWithoutReason
| ReactionResolutionHash
| PublicationWithoutPull (publicationId : string)
| CanonicalValueError (e : CanonicalJsonError)
| MemberOfUndefined.

Abbreviation reduction := (result ControlReductionError).

(** A string that is present and not empty. *)
Definition truthy (o : option string) : bool :=
  match o with Some s => negb (bool_decide (s = EmptyString)) | None => false end.

(** * Transition tables *)

Definition allowedTransitions (from to : ControlTaskStatus) : bool :=
  match from with
  | ts_open => bool_decide (to ∈ [ts_claimed; ts_blocked; ts_escalated])
  | ts_claimed => bool_decide (to ∈ [ts_in_progress; ts_needs_review; ts_blocked; ts_rejected; ts_escalated])
  | ts_in_progress => bool_decide (to ∈ [ts_needs_review; ts_blocked; ts_rejected; ts_escalated])
  | ts_needs_review => bool_decide (to ∈ [ts_done; ts_rejected; ts_blocked; ts_escalated])
  | ts_blocked => bool_decide (to ∈ [ts_claimed; ts_in_progress; ts_escalated])
  | ts_rejected => bool_decide (to ∈ [ts_claimed; ts_in_progress; ts_escalated])
  | ts_done => false
  | ts_escalated => false
  end.

Definition scmPublicationTransitions (from to : ScmPublicationState) : bool :=
  match from with
  | pub_unpublished => bool_decide (to ∈ [pub_push_intent; pub_refused; pub_superseded])
  | pub_push_intent => bool_decide (to ∈ [pub_push_ambiguous; pub_branch_published; pub_refused; pub_superseded])
  | pub_push_ambiguous => bool_decide (to ∈ [pub_push_intent; pub_branch_published; pub_refused; pub_superseded])
  | pub_branch_published => bool_decide (to ∈ [pub_pr_intent; pub_refused; pub_superseded])
  | pub_pr_intent => bool_decide (to ∈ [pub_pr_ambiguous; pub_published; pub_refused; pub_superseded])
  | pub_pr_ambiguous => bool_decide (to ∈ [pub_pr_intent; pub_published; pub_refused; pub_superseded])
  | pub_published => bool_decide (to ∈ [pub_superseded])
  | pub_superseded => false
  | pub_refused => false
  end.

Definition scmReactionTransitions (from to : ScmReactionState) : bool :=
  match from with
  | react_pending => bool_decide (to ∈ [react_command_admitted; react_refused; react_superseded; react_failed_retryable])
  | react_command_admitted => bool_decide (to ∈ [react_included; react_refused; react_superseded; react_failed_retryable])
  | react_included => bool_decide (to ∈ [react_observation_resolved; react_superseded])
  | react_observation_resolved => false
  | react_superseded => false
  | react_refused => false
  | react_failed_retryable =>
      bool_decide (to ∈ [react_command_admitted; react_refused; react_superseded; react_failed_retryable])
  end.

(** * Lookups *)

Definition assertTask (state : ControlProjection) (taskId : string) (generation : Z) : reduction TaskFact :=
  match obj_get state.(c_tasks) taskId with
  | Absent => Err (TaskMissing taskId)
  | Inherited => Err (TaskGenerationStale taskId generation)
  | Own task =>
      if task.(tf_generation) =? generation then Ok task else Err (TaskGenerationStale taskId generation)
  end.

Definition assertSession (state : ControlProjection) (sessionId : string) (generation : Z) : reduction RuntimeFact :=
  match obj_get state.(c_runtimes) sessionId with
  | Absent => Err (SessionMissing sessionId)
  | Inherited => Err (SessionGenerationStale sessionId)
  | Own runtime =>
      if runtime.(rf_sessionGeneration) =? generation then Ok runtime else Err (SessionGenerationStale sessionId)
  end.

(** [runtime.taskId !== event.taskId || runtime.taskGeneration !== event.taskGeneration] *)
Definition session_assigned (runtime : RuntimeFact) (taskId : string) (taskGeneration : Z) : bool :=
  bool_decide (runtime.(rf_taskId) = Some taskId) && bool_decide (runtime.(rf_taskGeneration) = Some taskGeneration).

Definition task_terminal (task : TaskFact) : bool :=
  bool_decide (task.(tf_status) ∈ [ts_done; ts_escalated]).

(** * Run lifecycle *)

Definition assertCheckpoint (previous : option LoopCheckpointFact) (next : LoopCheckpointFact) : reduction unit :=
  ensure (negb (time_lt (Date_parse next.(cp_updatedAt)) (Date_parse next.(cp_startedAt)))) CheckpointTimeReversed ;;
  ensure (negb ((next.(cp_dispatched) <? next.(cp_accepted)) || (next.(cp_dispatched) <? next.(cp_escalations))))
    CheckpointCountersContradict ;;
  ensure (negb ((bool_decide (next.(cp_status) = loop_done) && negb (bool_decide (next.(cp_phase) = phase_complete)))
             || (bool_decide (next.(cp_status) = loop_cancelled) && negb (bool_decide (next.(cp_phase) = phase_cancelled)))
             || (bool_decide (next.(cp_status) = loop_stopped) && negb (bool_decide (next.(cp_phase) = phase_stopped)))))
    CheckpointPhaseDisagrees ;;
  match previous with
  | None => Ok tt
  | Some prev =>
      ensure (bool_decide (prev.(cp_project) = next.(cp_project)) && bool_decide (prev.(cp_startedAt) = next.(cp_startedAt)))
        CheckpointIdentityChanged ;;
      ensure (negb (time_lt (Date_parse next.(cp_updatedAt)) (Date_parse prev.(cp_updatedAt)))) CheckpointTimeRegressed ;;
      ensure (bool_decide (prev.(cp_status) = loop_running)) CheckpointAlreadyTerminal ;;
      ensure (negb ((next.(cp_iteration) <? prev.(cp_iteration)) || (next.(cp_dispatched) <? prev.(cp_dispatched))
                 || (next.(cp_accepted) <? prev.(cp_accepted)) || (next.(cp_rejected) <? prev.(cp_rejected))
                 || (next.(cp_escalations) <? prev.(cp_escalations))
                 || (next.(cp_unknownCostCalls) <? prev.(cp_unknownCostCalls))))
        CheckpointCounterRegressed
  end.

Section handlers.
Variable pe : PersistedControlEvent.
Let e : ControlEvent := pe.(pe_event).
Let seq : Z := pe.(pe_seq).

Definition on_run_started (state : ControlProjection) (p : runStartedPayload) : reduction ControlProjection :=
  ensure (negb (isSome state.(c_run))) RunAlreadyStarted ;;
  ensure (e.(ev_expectedVersion) =? 0) RunStartedNotFirst ;;
  Ok (set_run state (Some {|
    rn_status := run_started_status;
    rn_startedBy := p.(rsp_startedBy);
    rn_goal := p.(rsp_goal);
    rn_configDigest := p.(rsp_configDigest);
    rn_startedAt := e.(ev_occurredAt);
    rn_terminalAt := None; rn_reasonCode := None; rn_summary := None;
    rn_cancelledBy := None; rn_checkpoint := None;
    rn_version := 1;
    rn_updatedSeq := seq |})).

(** [!state.run || state.run.status !== "started"] *)
Definition started_run (state : ControlProjection) : reduction RunFact :=
  match state.(c_run) with
  | Some run => if bool_decide (run.(rn_status) = run_started_status) then Ok run else Err RunNotStarted
  | None => Err RunNotStarted
  end.

Definition end_run (state : ControlProjection) (status : RunStatus)
    (reasonCode : option string) (cancelledBy : option string) (summary : option text) : reduction ControlProjection :=
  run ← started_run state;
  Ok (set_run state (Some {|
    rn_status := status;
    rn_startedBy := run.(rn_startedBy);
    rn_goal := run.(rn_goal);
    rn_configDigest := run.(rn_configDigest);
    rn_startedAt := run.(rn_startedAt);
    rn_terminalAt := Some e.(ev_occurredAt);
    rn_reasonCode := match reasonCode with Some r => Some r | None => run.(rn_reasonCode) end;
    rn_summary := summary;
    rn_cancelledBy := match cancelledBy with Some c => Some c | None => run.(rn_cancelledBy) end;
    rn_checkpoint := run.(rn_checkpoint);
    rn_version := e.(ev_expectedVersion) + 1;
    rn_updatedSeq := seq |})).

Definition on_run_completed (state : ControlProjection) (p : runCompletedPayload) : reduction ControlProjection :=
  end_run state run_completed_status None None p.(rcp_summary).
Definition on_run_failed (state : ControlProjection) (p : runFailedPayload) : reduction ControlProjection :=
  end_run state run_failed_status (Some p.(rfp_reasonCode)) None p.(rfp_summary).
Definition on_run_cancelled (state : ControlProjection) (p : runCancelledPayload) : reduction ControlProjection :=
  end_run state run_cancelled_status None (Some p.(rcap_cancelledBy)) p.(rcap_reason).

Definition on_run_checkpointed (state : ControlProjection) (p : LoopCheckpointFact) : reduction ControlProjection :=
  run ← started_run state;
  ensure (bool_decide (p.(cp_startedAt) = run.(rn_startedAt))) CheckpointStartedAtMismatch ;;
  assertCheckpoint run.(rn_checkpoint) p ;;
  Ok (set_run state (Some {|
    rn_status := run.(rn_status);
    rn_startedBy := run.(rn_startedBy);
    rn_goal := run.(rn_goal);
    rn_configDigest := run.(rn_configDigest);
    rn_startedAt := run.(rn_startedAt);
    rn_terminalAt := run.(rn_terminalAt);
    rn_reasonCode := run.(rn_reasonCode);
    rn_summary := run.(rn_summary);
    rn_cancelledBy := run.(rn_cancelledBy);
    rn_checkpoint := Some p;
    rn_version := e.(ev_expectedVersion) + 1;
    rn_updatedSeq := seq |})).

(** * Tasks *)

Definition on_task_created (state : ControlProjection) (p : taskCreatedPayload)
    (taskId : string) (taskGeneration : Z) : reduction ControlProjection :=
  ensure (negb (present (obj_get state.(c_tasks) taskId))) (TaskExists taskId) ;;
  Ok (set_tasks state (<[taskId := {|
    tf_id := taskId;
    tf_generation := taskGeneration;
    tf_title := p.(tc_title); tf_assignee := p.(tc_assignee); tf_createdBy := p.(tc_createdBy);
    tf_description := p.(tc_description); tf_acceptanceCriteria := p.(tc_acceptanceCriteria);
    tf_dependsOn := p.(tc_dependsOn); tf_priority := p.(tc_priority); tf_createdAt := p.(tc_createdAt);
    tf_files := p.(tc_files);
    tf_status := ts_open;
    tf_claimedBy := None; tf_lastSummary := None;
    tf_lastUpdate := e.(ev_occurredAt);
    tf_attempts := 0;
    tf_version := e.(ev_expectedVersion) + 1;
    tf_updatedSeq := seq |}]> state.(c_tasks))).

(** The owner after a status change, or the error of the claim check. *)
Definition next_claim (task : TaskFact) (role : string) (next : ControlTaskStatus) : reduction (option string) :=
  if bool_decide (next = ts_claimed) then
    ensure (negb (truthy task.(tf_claimedBy) && negb (bool_decide (task.(tf_claimedBy) = Some role))))
      (TaskAlreadyClaimed task.(tf_id)) ;;
    Ok (Some role)
  else
    ensure (negb (truthy task.(tf_claimedBy) && negb (bool_decide (task.(tf_claimedBy) = Some role))
                  && negb (bool_decide (next ∈ [ts_blocked; ts_rejected; ts_escalated]))))
      (RoleCannotAdvance role) ;;
    Ok task.(tf_claimedBy).

Definition on_task_status_changed (state : ControlProjection) (p : taskStatusPayload)
    (taskId : string) (taskGeneration : Z) : reduction ControlProjection :=
  task ← assertTask state taskId taskGeneration;
  let next := p.(tsp_status) in
  ensure (bool_decide (next = task.(tf_status)) || allowedTransitions task.(tf_status) next)
    (IllegalTaskTransition task.(tf_status) next) ;;
  claimedBy ← next_claim task p.(tsp_role) next;
  Ok (set_tasks state (<[taskId := {|
    tf_id := task.(tf_id); tf_generation := task.(tf_generation);
    tf_title := task.(tf_title); tf_assignee := task.(tf_assignee); tf_createdBy := task.(tf_createdBy);
    tf_description := task.(tf_description); tf_acceptanceCriteria := task.(tf_acceptanceCriteria);
    tf_dependsOn := task.(tf_dependsOn); tf_priority := task.(tf_priority); tf_createdAt := task.(tf_createdAt);
    tf_files := task.(tf_files);
    tf_status := next;
    tf_claimedBy := claimedBy;
    tf_lastSummary := match p.(tsp_summary) with Some s => Some s | None => task.(tf_lastSummary) end;
    tf_lastUpdate := e.(ev_occurredAt);
    tf_attempts := if bool_decide (next ∈ [ts_blocked; ts_rejected]) then task.(tf_attempts) + 1 else task.(tf_attempts);
    tf_version := e.(ev_expectedVersion) + 1;
    tf_updatedSeq := seq |}]> state.(c_tasks))).

Definition on_task_reopened (state : ControlProjection) (p : taskReopenedPayload)
    (taskId : string) (taskGeneration : Z) : reduction ControlProjection :=
  task ← assertTask state taskId taskGeneration;
  ensure (task_terminal task) (TaskNotTerminal taskId) ;;
  ensure (p.(trp_newGeneration) =? task.(tf_generation) + 1) (ReopenGenerationMismatch taskId) ;;
  let newGeneration := p.(trp_newGeneration) in
  let state := set_tasks state (<[taskId := {|
    tf_id := task.(tf_id);
    tf_generation := newGeneration;
    tf_title := task.(tf_title); tf_assignee := task.(tf_assignee); tf_createdBy := task.(tf_createdBy);
    tf_description := task.(tf_description); tf_acceptanceCriteria := task.(tf_acceptanceCriteria);
    tf_dependsOn := task.(tf_dependsOn); tf_priority := task.(tf_priority); tf_createdAt := task.(tf_createdAt);
    tf_files := task.(tf_files);
    tf_status := ts_open;
    tf_claimedBy := None;
    tf_lastSummary := p.(trp_reason);
    tf_lastUpdate := e.(ev_occurredAt);
    tf_attempts := 0;
    tf_version := 0;
    tf_updatedSeq := seq |}]> state.(c_tasks)) in
  Ok (set_aggregateVersions state
    (<[aggregate_key agg_task task.(tf_id) newGeneration := {|
       av_kind := agg_task; av_id := task.(tf_id); av_generation := newGeneration;
       av_version := 0; av_updatedSeq := seq |}]> state.(c_aggregateVersions))).

(** * Messages and sessions *)

(** [if (event.taskId !== null) assertTask(...)] *)
Definition assertOptionalTask (state : ControlProjection) : reduction unit :=
  match e.(ev_taskId), e.(ev_taskGeneration) with
  | Some taskId, Some generation => assertTask state taskId generation ;; Ok tt
  | Some taskId, None => Err (InvalidScope HalfScoped)
  | None, _ => Ok tt
  end.

Definition on_message_posted (state : ControlProjection) (p : messagePayload) : reduction ControlProjection :=
  assertOptionalTask state ;;
  ensure (negb (existsb (fun m => bool_decide (m.(mf_messageId) = p.(mp_messageId))) state.(c_messages)))
    (MessageExists p.(mp_messageId)) ;;
  Ok (set_messages state (state.(c_messages) ++ [{|
    mf_messageId := p.(mp_messageId);
    mf_seq := seq;
    mf_taskId := e.(ev_taskId);
    mf_taskGeneration := e.(ev_taskGeneration);
    mf_from := p.(mp_from); mf_to := p.(mp_to); mf_body := p.(mp_body);
    mf_occurredAt := e.(ev_occurredAt) |}])).

(** The checks [runtime.observed] makes against the previous fact. *)
Definition check_runtime (prior : RuntimeFact) (p : runtimePayload) : reduction unit :=
  ensure (negb (p.(rp_sessionGeneration) <? prior.(rf_sessionGeneration))) (SessionGenerationStale p.(rp_sessionId)) ;;
  ensure (negb ((prior.(rf_sessionGeneration) <? p.(rp_sessionGeneration))
                && negb (bool_decide (prior.(rf_observation) = obs_exited))))
    (SessionAdvancedBeforeExit p.(rp_sessionId)) ;;
  if p.(rp_sessionGeneration) =? prior.(rf_sessionGeneration) then
    ensure (negb (bool_decide (prior.(rf_observation) = obs_exited) && negb (bool_decide (p.(rp_observation) = obs_exited))))
      (SessionResurrected p.(rp_sessionId)) ;;
    ensure (bool_decide (prior.(rf_taskId) = e.(ev_taskId)) && bool_decide (prior.(rf_taskGeneration) = e.(ev_taskGeneration)))
      (SessionRetargeted p.(rp_sessionId))
  else Ok tt.

Definition on_runtime_observed (state : ControlProjection) (p : runtimePayload) : reduction ControlProjection :=
  assertOptionalTask state ;;
  match obj_get state.(c_runtimes) p.(rp_sessionId) with
  | Own prior => check_runtime prior p
  | Absent | Inherited => Ok tt
  end ;;
  Ok (set_runtimes state (<[p.(rp_sessionId) := {|
    rf_sessionId := p.(rp_sessionId);
    rf_sessionGeneration := p.(rp_sessionGeneration);
    rf_taskId := e.(ev_taskId);
    rf_taskGeneration := e.(ev_taskGeneration);
    rf_observation := p.(rp_observation);
    rf_launchId := p.(rp_launchId);
    rf_reason := p.(rp_reason);
    rf_observedAt := e.(ev_occurredAt);
    rf_updatedSeq := seq |}]> state.(c_runtimes))).
End handlers.

Section attempt_handlers.
Variable pe : PersistedControlEvent.
Let e : ControlEvent := pe.(pe_event).
Let seq : Z := pe.(pe_seq).

(** * Attempts *)

(** [Math.max(0, ...generations of the task's attempts) + 1] *)
Definition next_attempt_generation (state : ControlProjection) (taskId : string) (taskGeneration : Z) : Z :=
  foldr Z.max 0
    (List.map af_attemptGeneration
       (List.filter (fun a => bool_decide (a.(af_taskId) = taskId) && (a.(af_taskGeneration) =? taskGeneration))
          (obj_values state.(c_attempts)))) + 1.

Definition on_attempt_prompt_prepared (state : ControlProjection) (p : attemptPreparedPayload)
    (taskId : string) (taskGeneration : Z) : reduction ControlProjection :=
  assertTask state taskId taskGeneration ;;
  runtime ← assertSession state p.(app_sessionId) p.(app_sessionGeneration);
  ensure (session_assigned runtime taskId taskGeneration) (SessionNotAssigned p.(app_sessionId)) ;;
  ensure (negb (present (obj_get state.(c_attempts) p.(app_attemptId)))) (AttemptExists p.(app_attemptId)) ;;
  let expectedGeneration := next_attempt_generation state taskId taskGeneration in
  ensure (p.(app_attemptGeneration) =? expectedGeneration)
    (AttemptGenerationMismatch p.(app_attemptGeneration) expectedGeneration) ;;
  Ok (set_attempts state (<[p.(app_attemptId) := {|
    af_attemptId := p.(app_attemptId);
    af_attemptGeneration := p.(app_attemptGeneration);
    af_taskId := taskId; af_taskGeneration := taskGeneration;
    af_sessionId := p.(app_sessionId); af_sessionGeneration := p.(app_sessionGeneration);
    af_artifactLocator := Some p.(app_artifactLocator);
    af_promptSha256 := Some p.(app_promptSha256);
    af_promptBytes := Some p.(app_promptBytes);
    af_rendererVersion := Some p.(app_rendererVersion);
    af_captureCutoffSeq := Some p.(app_captureCutoffSeq);
    af_steeringCommandIds := p.(app_steeringCommandIds);
    af_launchId := None; af_pid := None; af_processStartToken := None;
    af_state := att_prepared;
    af_outcome := None; af_exitCode := None; af_summary := None; af_abandonReason := None;
    af_preparedSeq := Some seq;
    af_launchPlannedSeq := None; af_startedSeq := None; af_exitedSeq := None; af_abandonedSeq := None
    |}]> state.(c_attempts))).

(** The attempt of an event, in the required state and with the event's
    generation and session. *)
Definition prepared_attempt (state : ControlProjection) (attemptId : string) : reduction AttemptFact :=
  match obj_get state.(c_attempts) attemptId with
  | Own attempt => if bool_decide (attempt.(af_state) = att_prepared) then Ok attempt else Err (AttemptNotPrepared attemptId)
  | Absent | Inherited => Err (AttemptNotPrepared attemptId)
  end.

Definition active_attempt (state : ControlProjection) (attemptId : string) : reduction AttemptFact :=
  match obj_get state.(c_attempts) attemptId with
  | Own attempt => if bool_decide (attempt.(af_state) = att_active) then Ok attempt else Err (AttemptNotActive attemptId)
  | Absent | Inherited => Err (AttemptNotActive attemptId)
  end.

Definition same_attempt (attempt : AttemptFact) (attemptGeneration : Z) (sessionId : string) (sessionGeneration : Z) : bool :=
  (attempt.(af_attemptGeneration) =? attemptGeneration) && bool_decide (attempt.(af_sessionId) = sessionId)
  && (attempt.(af_sessionGeneration) =? sessionGeneration).

Definition on_attempt_launch_planned (state : ControlProjection) (p : attemptLaunchPlannedPayload) : reduction ControlProjection :=
  attempt ← prepared_attempt state p.(alp_attemptId);
  ensure (negb (isSome attempt.(af_launchId))) (AttemptAlreadyPlanned p.(alp_attemptId)) ;;
  ensure (same_attempt attempt p.(alp_attemptGeneration) p.(alp_sessionId) p.(alp_sessionGeneration))
    (AttemptIdentityMismatch p.(alp_attemptId)) ;;
  Ok (set_attempts state (<[p.(alp_attemptId) := {|
    af_attemptId := attempt.(af_attemptId); af_attemptGeneration := attempt.(af_attemptGeneration);
    af_taskId := attempt.(af_taskId); af_taskGeneration := attempt.(af_taskGeneration);
    af_sessionId := attempt.(af_sessionId); af_sessionGeneration := attempt.(af_sessionGeneration);
    af_artifactLocator := attempt.(af_artifactLocator); af_promptSha256 := attempt.(af_promptSha256);
    af_promptBytes := attempt.(af_promptBytes); af_rendererVersion := attempt.(af_rendererVersion);
    af_captureCutoffSeq := attempt.(af_captureCutoffSeq);
    af_steeringCommandIds := attempt.(af_steeringCommandIds); af_launchId := Some p.(alp_launchId);
    af_pid := attempt.(af_pid); af_processStartToken := attempt.(af_processStartToken);
    af_state := attempt.(af_state); af_outcome := attempt.(af_outcome);
    af_exitCode := attempt.(af_exitCode); af_summary := attempt.(af_summary);
    af_abandonReason := attempt.(af_abandonReason); af_preparedSeq := attempt.(af_preparedSeq);
    af_launchPlannedSeq := Some seq; af_startedSeq := attempt.(af_startedSeq);
    af_exitedSeq := attempt.(af_exitedSeq); af_abandonedSeq := attempt.(af_abandonedSeq) |}]> state.(c_attempts))).

Definition on_attempt_started (state : ControlProjection) (p : attemptStartedPayload) : reduction ControlProjection :=
  attempt ← prepared_attempt state p.(asp_attemptId);
  ensure (same_attempt attempt p.(asp_attemptGeneration) p.(asp_sessionId) p.(asp_sessionGeneration))
    (AttemptIdentityMismatch p.(asp_attemptId)) ;;
  ensure (truthy attempt.(af_launchId) && bool_decide (attempt.(af_launchId) = Some p.(asp_launchId))
          && isSome attempt.(af_launchPlannedSeq))
    (AttemptWithoutPlan p.(asp_attemptId)) ;;
  Ok (set_attempts state (<[p.(asp_attemptId) := {|
    af_attemptId := attempt.(af_attemptId); af_attemptGeneration := attempt.(af_attemptGeneration);
    af_taskId := attempt.(af_taskId); af_taskGeneration := attempt.(af_taskGeneration);
    af_sessionId := attempt.(af_sessionId); af_sessionGeneration := attempt.(af_sessionGeneration);
    af_artifactLocator := attempt.(af_artifactLocator); af_promptSha256 := attempt.(af_promptSha256);
    af_promptBytes := attempt.(af_promptBytes); af_rendererVersion := attempt.(af_rendererVersion);
    af_captureCutoffSeq := attempt.(af_captureCutoffSeq);
    af_steeringCommandIds := attempt.(af_steeringCommandIds); af_launchId := attempt.(af_launchId);
    af_pid := Some p.(asp_pid); af_processStartToken := Some p.(asp_processStartToken);
    af_state := att_active; af_outcome := attempt.(af_outcome); af_exitCode := attempt.(af_exitCode);
    af_summary := attempt.(af_summary); af_abandonReason := attempt.(af_abandonReason);
    af_preparedSeq := attempt.(af_preparedSeq); af_launchPlannedSeq := attempt.(af_launchPlannedSeq);
    af_startedSeq := Some seq; af_exitedSeq := attempt.(af_exitedSeq);
    af_abandonedSeq := attempt.(af_abandonedSeq) |}]> state.(c_attempts))).

Definition on_attempt_exited (state : ControlProjection) (p : attemptExitedPayload) : reduction ControlProjection :=
  attempt ← active_attempt state p.(aep_attemptId);
  ensure (same_attempt attempt p.(aep_attemptGeneration) p.(aep_sessionId) p.(aep_sessionGeneration))
    (AttemptIdentityMismatch p.(aep_attemptId)) ;;
  Ok (set_attempts state (<[p.(aep_attemptId) := {|
    af_attemptId := attempt.(af_attemptId); af_attemptGeneration := attempt.(af_attemptGeneration);
    af_taskId := attempt.(af_taskId); af_taskGeneration := attempt.(af_taskGeneration);
    af_sessionId := attempt.(af_sessionId); af_sessionGeneration := attempt.(af_sessionGeneration);
    af_artifactLocator := attempt.(af_artifactLocator); af_promptSha256 := attempt.(af_promptSha256);
    af_promptBytes := attempt.(af_promptBytes); af_rendererVersion := attempt.(af_rendererVersion);
    af_captureCutoffSeq := attempt.(af_captureCutoffSeq);
    af_steeringCommandIds := attempt.(af_steeringCommandIds); af_launchId := attempt.(af_launchId);
    af_pid := attempt.(af_pid); af_processStartToken := attempt.(af_processStartToken);
    af_state := att_exited; af_outcome := Some p.(aep_outcome); af_exitCode := p.(aep_exitCode);
    af_summary := p.(aep_summary); af_abandonReason := attempt.(af_abandonReason);
    af_preparedSeq := attempt.(af_preparedSeq); af_launchPlannedSeq := attempt.(af_launchPlannedSeq);
    af_startedSeq := attempt.(af_startedSeq); af_exitedSeq := Some seq;
    af_abandonedSeq := attempt.(af_abandonedSeq) |}]> state.(c_attempts))).

Definition on_attempt_abandoned (state : ControlProjection) (p : attemptAbandonedPayload) : reduction ControlProjection :=
  attempt ← prepared_attempt state p.(aap_attemptId);
  ensure (same_attempt attempt p.(aap_attemptGeneration) p.(aap_sessionId) p.(aap_sessionGeneration))
    (AttemptIdentityMismatch p.(aap_attemptId)) ;;
  Ok (set_attempts state (<[p.(aap_attemptId) := {|
    af_attemptId := attempt.(af_attemptId); af_attemptGeneration := attempt.(af_attemptGeneration);
    af_taskId := attempt.(af_taskId); af_taskGeneration := attempt.(af_taskGeneration);
    af_sessionId := attempt.(af_sessionId); af_sessionGeneration := attempt.(af_sessionGeneration);
    af_artifactLocator := attempt.(af_artifactLocator); af_promptSha256 := attempt.(af_promptSha256);
    af_promptBytes := attempt.(af_promptBytes); af_rendererVersion := attempt.(af_rendererVersion);
    af_captureCutoffSeq := attempt.(af_captureCutoffSeq);
    af_steeringCommandIds := attempt.(af_steeringCommandIds); af_launchId := attempt.(af_launchId);
    af_pid := attempt.(af_pid); af_processStartToken := attempt.(af_processStartToken);
    af_state := att_abandoned; af_outcome := attempt.(af_outcome); af_exitCode := attempt.(af_exitCode);
    af_summary := p.(aap_summary); af_abandonReason := Some p.(aap_reasonCode);
    af_preparedSeq := attempt.(af_preparedSeq); af_launchPlannedSeq := attempt.(af_launchPlannedSeq);
    af_startedSeq := attempt.(af_startedSeq); af_exitedSeq := attempt.(af_exitedSeq);
    af_abandonedSeq := Some seq |}]> state.(c_attempts))).

(** * Steering facts *)

Definition on_steering_admitted (state : ControlProjection) (p : steeringAdmittedPayload)
    (taskId : string) (taskGeneration : Z) : reduction ControlProjection :=
  assertTask state taskId taskGeneration ;;
  runtime ← assertSession state p.(sap_sessionId) p.(sap_sessionGeneration);
  ensure (session_assigned runtime taskId taskGeneration) (SessionNotAssigned p.(sap_sessionId)) ;;
  ensure (negb (present (obj_get state.(c_steering) p.(sap_commandId)))) (CommandExists p.(sap_commandId)) ;;
  Ok (set_steering state (<[p.(sap_commandId) := {|
    sf_commandId := p.(sap_commandId);
    sf_sessionId := p.(sap_sessionId); sf_sessionGeneration := p.(sap_sessionGeneration);
    sf_taskId := taskId; sf_taskGeneration := taskGeneration;
    sf_bodySha256 := p.(sap_bodySha256);
    sf_requestSemanticDigest := None; sf_observedSeq := None; sf_observedActivity := None;
    sf_status := st_pending;
    sf_admittedSeq := Some seq; sf_terminalSeq := None;
    sf_notBeforeAttemptGeneration := Some p.(sap_notBeforeAttemptGeneration);
    sf_kind := Some p.(sap_kind); sf_sourceKind := Some p.(sap_sourceKind);
    sf_parentPrincipal := Some p.(sap_parentPrincipal); sf_evidenceRefs := Some p.(sap_evidenceRefs);
    sf_body := Some p.(sap_body); sf_createdAt := Some p.(sap_createdAt);
    sf_expiresAt := p.(sap_expiresAt); sf_supersedesCommandId := p.(sap_supersedesCommandId);
    sf_reasonCode := None; sf_attemptId := None; sf_attemptGeneration := None;
    sf_promptSha256 := None; sf_byCommandId := None |}]> state.(c_steering))).

Definition on_steering_refused (state : ControlProjection) (p : steeringRefusedPayload)
    (taskId : string) (taskGeneration : Z) : reduction ControlProjection :=
  ensure (negb (present (obj_get state.(c_steering) p.(srp_commandId)))) (CommandExists p.(srp_commandId)) ;;
  Ok (set_steering state (<[p.(srp_commandId) := {|
    sf_commandId := p.(srp_commandId);
    sf_sessionId := p.(srp_sessionId); sf_sessionGeneration := p.(srp_sessionGeneration);
    sf_taskId := taskId; sf_taskGeneration := taskGeneration;
    sf_bodySha256 := p.(srp_bodySha256);
    sf_requestSemanticDigest := Some p.(srp_requestSemanticDigest);
    sf_observedSeq := Some p.(srp_observedSeq);
    sf_observedActivity := Some p.(srp_observedActivity);
    sf_status := st_refused;
    sf_admittedSeq := None; sf_terminalSeq := Some seq;
    sf_notBeforeAttemptGeneration := None; sf_kind := None; sf_sourceKind := None;
    sf_parentPrincipal := None; sf_evidenceRefs := None; sf_body := None; sf_createdAt := None;
    sf_expiresAt := None; sf_supersedesCommandId := None;
    sf_reasonCode := Some p.(srp_reasonCode);
    sf_attemptId := None; sf_attemptGeneration := None;
    sf_promptSha256 := None; sf_byCommandId := None |}]> state.(c_steering))).

(** [!command || command.status !== "pending"] *)
Definition pending_command (state : ControlProjection) (commandId : string) : reduction SteeringFact :=
  match obj_get state.(c_steering) commandId with
  | Own command => if bool_decide (command.(sf_status) = st_pending) then Ok command else Err (CommandNotPending commandId)
  | Absent | Inherited => Err (CommandNotPending commandId)
  end.

Definition on_steering_terminal_refused (state : ControlProjection) (p : steeringTerminalRefusedPayload)
    (taskId : string) (taskGeneration : Z) : reduction ControlProjection :=
  command ← pending_command state p.(strp_commandId);
  ensure (bool_decide (command.(sf_taskId) = taskId) && (command.(sf_taskGeneration) =? taskGeneration)
          && bool_decide (command.(sf_sessionId) = p.(strp_sessionId))
          && (command.(sf_sessionGeneration) =? p.(strp_sessionGeneration)))
    (CommandTargetMismatch p.(strp_commandId)) ;;
  Ok (set_steering state (<[p.(strp_commandId) := {|
    sf_commandId := command.(sf_commandId); sf_sessionId := command.(sf_sessionId);
    sf_sessionGeneration := command.(sf_sessionGeneration); sf_taskId := command.(sf_taskId);
    sf_taskGeneration := command.(sf_taskGeneration); sf_bodySha256 := command.(sf_bodySha256);
    sf_requestSemanticDigest := Some p.(strp_requestSemanticDigest);
    sf_observedSeq := Some p.(strp_observedSeq); sf_observedActivity := Some (observed act_exited);
    sf_status := st_refused; sf_admittedSeq := command.(sf_admittedSeq); sf_terminalSeq := Some seq;
    sf_notBeforeAttemptGeneration := command.(sf_notBeforeAttemptGeneration); sf_kind := command.(sf_kind);
    sf_sourceKind := command.(sf_sourceKind); sf_parentPrincipal := command.(sf_parentPrincipal);
    sf_evidenceRefs := command.(sf_evidenceRefs); sf_body := command.(sf_body);
    sf_createdAt := command.(sf_createdAt); sf_expiresAt := command.(sf_expiresAt);
    sf_supersedesCommandId := command.(sf_supersedesCommandId);
    sf_reasonCode := Some reason_TASK_TERMINAL_BEFORE_INCLUSION; sf_attemptId := command.(sf_attemptId);
    sf_attemptGeneration := command.(sf_attemptGeneration); sf_promptSha256 := command.(sf_promptSha256);
    sf_byCommandId := command.(sf_byCommandId) |}]> state.(c_steering))).

Definition on_steering_included (state : ControlProjection) (p : steeringIncludedPayload) : reduction ControlProjection :=
  command ← pending_command state p.(sip_commandId);
  attempt ← match obj_get state.(c_attempts) p.(sip_attemptId) with
            | Own attempt => Ok attempt
            | Absent | Inherited => Err (CommandWithoutPrompt p.(sip_commandId))
            end;
  ensure (bool_decide (attempt.(af_state) = att_prepared)
          && bool_decide (attempt.(af_promptSha256) = Some p.(sip_promptSha256))
          && bool_decide (command.(sf_commandId) ∈ attempt.(af_steeringCommandIds)))
    (CommandWithoutPrompt p.(sip_commandId)) ;;
  Ok (set_steering state (<[p.(sip_commandId) := {|
    sf_commandId := command.(sf_commandId); sf_sessionId := command.(sf_sessionId);
    sf_sessionGeneration := command.(sf_sessionGeneration); sf_taskId := command.(sf_taskId);
    sf_taskGeneration := command.(sf_taskGeneration); sf_bodySha256 := command.(sf_bodySha256);
    sf_requestSemanticDigest := command.(sf_requestSemanticDigest);
    sf_observedSeq := command.(sf_observedSeq); sf_observedActivity := command.(sf_observedActivity);
    sf_status := st_included; sf_admittedSeq := command.(sf_admittedSeq); sf_terminalSeq := Some seq;
    sf_notBeforeAttemptGeneration := command.(sf_notBeforeAttemptGeneration); sf_kind := command.(sf_kind);
    sf_sourceKind := command.(sf_sourceKind); sf_parentPrincipal := command.(sf_parentPrincipal);
    sf_evidenceRefs := command.(sf_evidenceRefs); sf_body := command.(sf_body);
    sf_createdAt := command.(sf_createdAt); sf_expiresAt := command.(sf_expiresAt);
    sf_supersedesCommandId := command.(sf_supersedesCommandId); sf_reasonCode := command.(sf_reasonCode);
    sf_attemptId := Some attempt.(af_attemptId);
    sf_attemptGeneration := Some attempt.(af_attemptGeneration);
    sf_promptSha256 := attempt.(af_promptSha256); sf_byCommandId := command.(sf_byCommandId) |}]> state.(c_steering))).

(** steering.command_withdrawn, steering.command_superseded, steering.command_expired *)
Definition on_steering_closed (state : ControlProjection) (commandId : string) (status : SteeringStatus)
    (byCommandId : option string) : reduction ControlProjection :=
  command ← pending_command state commandId;
  Ok (set_steering state (<[commandId := {|
    sf_commandId := command.(sf_commandId); sf_sessionId := command.(sf_sessionId);
    sf_sessionGeneration := command.(sf_sessionGeneration); sf_taskId := command.(sf_taskId);
    sf_taskGeneration := command.(sf_taskGeneration); sf_bodySha256 := command.(sf_bodySha256);
    sf_requestSemanticDigest := command.(sf_requestSemanticDigest);
    sf_observedSeq := command.(sf_observedSeq); sf_observedActivity := command.(sf_observedActivity);
    sf_status := status; sf_admittedSeq := command.(sf_admittedSeq); sf_terminalSeq := Some seq;
    sf_notBeforeAttemptGeneration := command.(sf_notBeforeAttemptGeneration); sf_kind := command.(sf_kind);
    sf_sourceKind := command.(sf_sourceKind); sf_parentPrincipal := command.(sf_parentPrincipal);
    sf_evidenceRefs := command.(sf_evidenceRefs); sf_body := command.(sf_body);
    sf_createdAt := command.(sf_createdAt); sf_expiresAt := command.(sf_expiresAt);
    sf_supersedesCommandId := command.(sf_supersedesCommandId); sf_reasonCode := command.(sf_reasonCode);
    sf_attemptId := command.(sf_attemptId); sf_attemptGeneration := command.(sf_attemptGeneration);
    sf_promptSha256 := command.(sf_promptSha256);
    sf_byCommandId := match byCommandId with Some b => Some b | None => command.(sf_byCommandId) end |}]> state.(c_steering))).
End attempt_handlers.
