(* ===== verification/ScmReducer.v ===== *)
(** ScmReducer: the [scm.*] cases of [applyControlEvent]
    (src/control/reducer.ts): publication lifecycle, provider polls, accepted
    observation buckets and automatic reactions. *)
From S2P Require Import Prelude Text Json Ids ScmTypes ControlEvents EventSchema ControlState ControlReducer.

(** * Identity of a pull request *)

Definition assertScmPublication (state : ControlProjection) (publicationId : string) (generation : Z)
    : reduction ScmPublicationFact :=
  match obj_get state.(c_scm).(scm_publications) publicationId with
  | Absent => Err (PublicationMissing publicationId)
  | Inherited => Err (PublicationGenerationStale publicationId)
  | Own publication =>
      if publication.(pf_generation) =? generation then Ok publication
      else Err (PublicationGenerationStale publicationId)
  end.

Definition scmRepositoryKey (repository : ScmRepositoryIdV1) : string :=
  ScmProviderKind_name repository.(repo_provider) +:+ ":" +:+ repository.(repo_canonicalHost) +:+ "/"
  +:+ repository.(repo_owner) +:+ "/" +:+ repository.(repo_name).

Definition pullIdentityValue (pull : ScmPullRequestIdentityV1) : json := ScmPullRequestIdentityV1_json pull.

Definition pull_matches (publication : ScmPublicationFact) (pull : ScmPullRequestIdentityV1) : bool :=
  let intent := publication.(pf_intent) in
  bool_decide (scmRepositoryKey pull.(pull_repository) = scmRepositoryKey intent.(intent_baseRepository))
  && bool_decide (scmRepositoryKey pull.(pull_headRepository) = scmRepositoryKey intent.(intent_repository))
  && bool_decide (pull.(pull_headRef) = intent.(intent_remoteRef))
  && bool_decide (pull.(pull_headSha) = intent.(intent_integrationOid))
  && bool_decide (scmRepositoryKey pull.(pull_baseRepository) = scmRepositoryKey intent.(intent_baseRepository))
  && bool_decide (pull.(pull_baseRef) = intent.(intent_baseRef)).

Definition assertPullMatchesPublication (publication : ScmPublicationFact) (pull : ScmPullRequestIdentityV1)
    : reduction unit :=
  ensure (pull_matches publication pull) (PullMismatch publication.(pf_publicationId)).

(** [canonicalJson(pullIdentityValue(a)) === canonicalJson(pullIdentityValue(b))] *)
Definition same_pull_identity (a b : ScmPullRequestIdentityV1) : reduction bool :=
  x ← map_err CanonicalValueError (canonicalJson (pullIdentityValue a));
  y ← map_err CanonicalValueError (canonicalJson (pullIdentityValue b));
  Ok (bool_decide (x = y)).

Definition expectedReactionKey {D : Digest} (publication : ScmPublicationFact) (headSha : string)
    (factKind : ScmReactionFactKind) (evidenceRefs : list string) : reduction string :=
  match publication.(pf_pullRequest) with
  | None => Err (PublicationWithoutPull publication.(pf_publicationId))
  | Some pull =>
      t ← map_err CanonicalValueError (canonicalJson (jobj
        [("schemaVersion", jnum 1);
         ("repositoryKey", jstr (scmRepositoryKey pull.(pull_identity).(pull_repository)));
         ("pullRequestNumber", jnum pull.(pull_identity).(pull_number));
         ("headSha", jstr headSha);
         ("factKind", jstr (ScmReactionFactKind_name factKind));
         ("evidenceIds", jlist jstr (js_sort utf16_compare evidenceRefs))]));
      Ok (sha256Text t)
  end.

(** [publication.taskId === event.taskId && publication.taskGeneration === event.taskGeneration] *)
Definition publication_of_task (publication : ScmPublicationFact) (taskId : string) (taskGeneration : Z) : bool :=
  bool_decide (publication.(pf_taskId) = taskId) && (publication.(pf_taskGeneration) =? taskGeneration).

Section publications.
Variable pe : PersistedControlEvent.
Let e : ControlEvent := pe.(pe_event).
Let seq : Z := pe.(pe_seq).

Definition on_publication_recorded (state : ControlProjection) (p : scmPublicationRecordedPayload)
    (taskId : string) (taskGeneration : Z) : reduction ControlProjection :=
  task ← assertTask state taskId taskGeneration;
  let intent := p.(spr_publication) in
  ensure (bool_decide (intent.(intent_runId) = state.(c_runId)) && bool_decide (intent.(intent_runEpoch) = state.(c_runEpoch)))
    PublicationRunMismatch ;;
  ensure (negb (present (obj_get state.(c_scm).(scm_publications) intent.(intent_publicationId))))
    (PublicationExists intent.(intent_publicationId)) ;;
  ensure (negb (task_terminal task)) (PublicationTaskTerminal task.(tf_id)) ;;
  Ok (set_scm state (set_scm_publications state.(c_scm) (<[intent.(intent_publicationId) := {|
    pf_publicationId := intent.(intent_publicationId);
    pf_generation := intent.(intent_publicationGeneration);
    pf_version := 0;
    pf_state := pub_unpublished;
    pf_intent := intent;
    pf_taskId := taskId; pf_taskGeneration := taskGeneration;
    pf_observedRemoteOid := None; pf_pullRequest := None; pf_reasonCode := None;
    pf_createdSeq := seq; pf_updatedSeq := seq |}]> state.(c_scm).(scm_publications)))).

(** The pull request a transition may, and must, carry. *)
Definition check_transition_pull (publication : ScmPublicationFact) (p : scmPublicationStateChangedPayload) : reduction unit :=
  if bool_decide (p.(spc_toState) = pub_published) then
    match p.(spc_pullRequest) with
    | None => Err PublishedWithoutPull
    | Some pull =>
        assertPullMatchesPublication publication pull.(pull_identity) ;;
        ensure (bool_decide (pull.(pull_lifecycle) = lifecycle_open)
                && Bool.eqb pull.(pull_draft) publication.(pf_intent).(intent_draft)) PullLifecycleMismatch
    end
  else ensure (negb (isSome p.(spc_pullRequest))) PullNotAllowed.

Definition on_publication_state_changed (state : ControlProjection) (p : scmPublicationStateChangedPayload)
    (taskId : string) (taskGeneration : Z) : reduction ControlProjection :=
  assertTask state taskId taskGeneration ;;
  publication ← assertScmPublication state p.(spc_publicationId) p.(spc_publicationGeneration);
  ensure (publication_of_task publication taskId taskGeneration)
    (PublicationTargetMismatch publication.(pf_publicationId)) ;;
  ensure (bool_decide (publication.(pf_state) = p.(spc_fromState)))
    (PublicationStateMismatch publication.(pf_publicationId)) ;;
  ensure (scmPublicationTransitions publication.(pf_state) p.(spc_toState))
    (IllegalPublicationTransition publication.(pf_state) p.(spc_toState)) ;;
  ensure (negb (bool_decide (p.(spc_toState) = pub_branch_published)
                && negb (bool_decide (p.(spc_observedRemoteOid) = Some (Some publication.(pf_intent).(intent_integrationOid))))))
    BranchOidMismatch ;;
  check_transition_pull publication p ;;
  ensure (negb (bool_decide (p.(spc_toState) = pub_refused) && negb (isSome p.(spc_reasonCode)))) RefusedWithoutReason ;;
  Ok (set_scm state (set_scm_publications state.(c_scm) (<[p.(spc_publicationId) := {|
    pf_publicationId := publication.(pf_publicationId);
    pf_generation := publication.(pf_generation);
    pf_version := publication.(pf_version) + 1;
    pf_state := p.(spc_toState);
    pf_intent := publication.(pf_intent);
    pf_taskId := publication.(pf_taskId); pf_taskGeneration := publication.(pf_taskGeneration);
    pf_observedRemoteOid := match p.(spc_observedRemoteOid) with Some o => Some o | None => publication.(pf_observedRemoteOid) end;
    pf_pullRequest := match p.(spc_pullRequest) with Some o => Some o | None => publication.(pf_pullRequest) end;
    pf_reasonCode := match p.(spc_reasonCode) with Some o => Some o | None => publication.(pf_reasonCode) end;
    pf_createdSeq := publication.(pf_createdSeq); pf_updatedSeq := seq |}]> state.(c_scm).(scm_publications)))).
End publications.

Section polls.
Variable pe : PersistedControlEvent.
Let e : ControlEvent := pe.(pe_event).
Let seq : Z := pe.(pe_seq).

(** The metadata of the four accepted buckets, in the order of the guards. *)
Definition durable_guards (buckets : option ScmObservationBucketsFact) : list (option ScmBucketMetaV1) :=
  match buckets with
  | None => [None; None; None; None]
  | Some b => [option_map bucket_meta b.(ob_pullRequest); option_map bucket_meta b.(ob_ci);
               option_map bucket_meta b.(ob_review); option_map bucket_meta b.(ob_mergeability)]
  end.

Definition event_guards (g : ScmObservationGuardsV1) : list (option text) :=
  [g.(guards_pullRequest); g.(guards_checks); g.(guards_reviews); g.(guards_mergeability)].

(** A guard is absent, or it is the guard of the bucket accepted at [head]. *)
Definition guard_backed (head : string) (guard : option text) (meta : option ScmBucketMetaV1) : bool :=
  match guard with
  | None => true
  | Some g =>
      match meta with
      | Some m => bool_decide (m.(meta_observedHeadSha) = head) && bool_decide (m.(meta_guard) = Some g)
      | None => false
      end
  end.

(** [state.scm.observations[id]?.buckets]; a member of [undefined] throws. *)
Definition observed_buckets (state : ControlProjection) (publicationId : string) : reduction (option ScmObservationBucketsFact) :=
  match obj_get state.(c_scm).(scm_observations) publicationId with
  | Own observation => Ok (Some observation.(of_buckets))
  | Absent => Ok None
  | Inherited => Err MemberOfUndefined
  end.

Definition poll_is_started (poll : ScmPollFact) : bool := bool_decide (poll.(pl_state) = poll_started).

(** The poll another identity holds active on the publication. *)
Definition other_active_poll (state : ControlProjection) (publicationId pollId : string) : bool :=
  existsb (fun poll => poll_is_started poll && bool_decide (poll.(pl_publicationId) = publicationId)
                       && negb (bool_decide (poll.(pl_pollId) = pollId)))
    (obj_values state.(c_scm).(scm_polls)).

Definition check_prior_poll (state : ControlProjection) (p : scmPollStartedPayload) (publication : ScmPublicationFact)
    (runtime : RuntimeFact) (taskId : string) (taskGeneration : Z) : reduction unit :=
  match obj_get state.(c_scm).(scm_polls) p.(sps_pollId) with
  | Own prior =>
      ensure (negb (poll_is_started prior)) (PollAlreadyActive prior.(pl_pollId)) ;;
      ensure ((p.(sps_pollAttempt) =? prior.(pl_pollAttempt) + 1)
              && bool_decide (prior.(pl_publicationId) = publication.(pf_publicationId))
              && (prior.(pl_publicationGeneration) =? publication.(pf_generation))
              && bool_decide (prior.(pl_taskId) = taskId) && (prior.(pl_taskGeneration) =? taskGeneration)
              && bool_decide (prior.(pl_sessionId) = runtime.(rf_sessionId))
              && (prior.(pl_sessionGeneration) =? runtime.(rf_sessionGeneration))
              && bool_decide (prior.(pl_expectedHeadSha) = p.(sps_expectedHeadSha)))
        (PollRetryMismatch prior.(pl_pollId))
  | Inherited => Err (PollRetryMismatch p.(sps_pollId))
  | Absent => ensure (p.(sps_pollAttempt) =? 1) (PollFirstAttempt p.(sps_pollId))
  end.

Definition on_poll_started (state : ControlProjection) (p : scmPollStartedPayload)
    (taskId : string) (taskGeneration : Z) : reduction ControlProjection :=
  task ← assertTask state taskId taskGeneration;
  ensure (negb (task_terminal task)) (PollTaskTerminal task.(tf_id)) ;;
  runtime ← assertSession state p.(sps_sessionId) p.(sps_sessionGeneration);
  ensure (session_assigned runtime taskId taskGeneration) (SessionNotAssigned runtime.(rf_sessionId)) ;;
  publication ← assertScmPublication state p.(sps_publicationId) p.(sps_publicationGeneration);
  ensure (publication_of_task publication taskId taskGeneration && bool_decide (publication.(pf_state) = pub_published))
    (PublicationNotPublished publication.(pf_publicationId)) ;;
  pull ← match publication.(pf_pullRequest) with
         | Some pull =>
             ensure (bool_decide (p.(sps_expectedHeadSha) = publication.(pf_intent).(intent_integrationOid))) PollHeadMismatch ;;
             Ok pull
         | None => Err PollHeadMismatch
         end;
  assertPullMatchesPublication publication p.(sps_pullRequest) ;;
  same ← same_pull_identity p.(sps_pullRequest) pull.(pull_identity);
  ensure same PullIdentityChanged ;;
  buckets ← observed_buckets state publication.(pf_publicationId);
  ensure (forallb (fun gb => guard_backed p.(sps_expectedHeadSha) gb.1 gb.2)
            (combine (event_guards p.(sps_guards)) (durable_guards buckets))) PollGuardUnbacked ;;
  ensure (negb (other_active_poll state publication.(pf_publicationId) p.(sps_pollId)))
    (PollActive publication.(pf_publicationId)) ;;
  check_prior_poll state p publication runtime taskId taskGeneration ;;
  Ok (set_scm state (set_scm_polls state.(c_scm) (<[p.(sps_pollId) := {|
    pl_pollId := p.(sps_pollId); pl_pollAttempt := p.(sps_pollAttempt);
    pl_publicationId := publication.(pf_publicationId); pl_publicationGeneration := publication.(pf_generation);
    pl_taskId := taskId; pl_taskGeneration := taskGeneration;
    pl_sessionId := runtime.(rf_sessionId); pl_sessionGeneration := runtime.(rf_sessionGeneration);
    pl_expectedHeadSha := p.(sps_expectedHeadSha); pl_pullRequest := p.(sps_pullRequest);
    pl_guards := p.(sps_guards); pl_forceFullRefresh := p.(sps_forceFullRefresh); pl_limits := p.(sps_limits);
    pl_state := poll_started;
    pl_requestCount := None; pl_decodedBytes := None; pl_bucketOutcomes := None; pl_acceptedKinds := [];
    pl_failure := None; pl_nextEligibleAt := None;
    pl_startedAt := e.(ev_occurredAt); pl_startedSeq := seq; pl_terminalSeq := None |}]> state.(c_scm).(scm_polls)))).

(** [!poll || poll.state !== "started"] *)
Definition active_poll (state : ControlProjection) (pollId : string) : reduction ScmPollFact :=
  match obj_get state.(c_scm).(scm_polls) pollId with
  | Own poll => if poll_is_started poll then Ok poll else Err (PollNotActive pollId)
  | Absent | Inherited => Err (PollNotActive pollId)
  end.

Definition same_poll (poll : ScmPollFact) (pollAttempt : Z) (publicationId : string) (publicationGeneration : Z)
    (expectedHeadSha : string) (taskId : string) (taskGeneration : Z) : bool :=
  (poll.(pl_pollAttempt) =? pollAttempt) && bool_decide (poll.(pl_publicationId) = publicationId)
  && (poll.(pl_publicationGeneration) =? publicationGeneration)
  && bool_decide (poll.(pl_expectedHeadSha) = expectedHeadSha)
  && bool_decide (poll.(pl_taskId) = taskId) && (poll.(pl_taskGeneration) =? taskGeneration).

(** [Math.max(...times)]: [NaN] as soon as one time is. *)
Fixpoint max_time (times : list (option Z)) : option Z :=
  match times with
  | [] => None
  | [t] => t
  | t :: times' => m ← max_time times'; x ← t; Some (Z.max x m)
  end.

Definition retry_times (outcomes : list ScmPollBucketOutcomeFact) : list (option Z) :=
  List.map Date_parse
    (omap (fun o => match o.(outcome_failure) with Some f => f.(failure_nextEligibleAt) | None => None end) outcomes).

(** [new Date(NaN).toISOString()] throws. *)
Definition next_eligible (outcomes : list ScmPollBucketOutcomeFact) : reduction (option string) :=
  match retry_times outcomes with
  | [] => Ok None
  | times => match max_time times with Some t => Ok (Some (toISOString t)) | None => Err PollRetryTimeInvalid end
  end.

Definition end_poll (poll : ScmPollFact) (st : ScmPollState) (requestCount decodedBytes : option Z)
    (bucketOutcomes : option (list ScmPollBucketOutcomeFact)) (failure : option ScmProviderFailureV1)
    (nextEligibleAt : option string) : ScmPollFact := {|
  pl_pollId := poll.(pl_pollId); pl_pollAttempt := poll.(pl_pollAttempt);
  pl_publicationId := poll.(pl_publicationId); pl_publicationGeneration := poll.(pl_publicationGeneration);
  pl_taskId := poll.(pl_taskId); pl_taskGeneration := poll.(pl_taskGeneration);
  pl_sessionId := poll.(pl_sessionId); pl_sessionGeneration := poll.(pl_sessionGeneration);
  pl_expectedHeadSha := poll.(pl_expectedHeadSha); pl_pullRequest := poll.(pl_pullRequest);
  pl_guards := poll.(pl_guards); pl_forceFullRefresh := poll.(pl_forceFullRefresh); pl_limits := poll.(pl_limits);
  pl_state := st;
  pl_requestCount := requestCount; pl_decodedBytes := decodedBytes; pl_bucketOutcomes := bucketOutcomes;
  pl_acceptedKinds := poll.(pl_acceptedKinds); pl_failure := failure; pl_nextEligibleAt := nextEligibleAt;
  pl_startedAt := poll.(pl_startedAt); pl_startedSeq := poll.(pl_startedSeq); pl_terminalSeq := Some seq |}.

Definition on_poll_completed (state : ControlProjection) (p : scmPollCompletedPayload)
    (taskId : string) (taskGeneration : Z) : reduction ControlProjection :=
  poll ← active_poll state p.(spcm_pollId);
  ensure (same_poll poll p.(spcm_pollAttempt) p.(spcm_publicationId) p.(spcm_publicationGeneration)
            p.(spcm_expectedHeadSha) taskId taskGeneration) (PollIdentityMismatch p.(spcm_pollId)) ;;
  ensure (negb ((poll.(pl_limits).(limits_maxItemsPerEndpoint) + poll.(pl_limits).(limits_maxPagesPerEndpoint) * 16 + 16
                 <? p.(spcm_requestCount))
                || (poll.(pl_limits).(limits_maxDecodedBytesPerPoll) <? p.(spcm_decodedBytes))))
    (PollBudgetExceeded poll.(pl_pollId)) ;;
  nextEligibleAt ← next_eligible p.(spcm_bucketOutcomes);
  Ok (set_scm state (set_scm_polls state.(c_scm) (<[p.(spcm_pollId) :=
    end_poll poll poll_completed (Some p.(spcm_requestCount)) (Some p.(spcm_decodedBytes)) (Some p.(spcm_bucketOutcomes))
      poll.(pl_failure) nextEligibleAt]> state.(c_scm).(scm_polls)))).

Definition on_poll_failed (state : ControlProjection) (p : scmPollFailedPayload)
    (taskId : string) (taskGeneration : Z) : reduction ControlProjection :=
  poll ← active_poll state p.(spf_pollId);
  ensure (same_poll poll p.(spf_pollAttempt) p.(spf_publicationId) p.(spf_publicationGeneration)
            p.(spf_expectedHeadSha) taskId taskGeneration) (PollIdentityMismatch p.(spf_pollId)) ;;
  ensure (negb (p.(spf_failure).(failure_retryable) && negb (isSome p.(spf_failure).(failure_nextEligibleAt))))
    PollFailureWithoutTime ;;
  Ok (set_scm state (set_scm_polls state.(c_scm) (<[p.(spf_pollId) :=
    end_poll poll poll_failed poll.(pl_requestCount) poll.(pl_decodedBytes) poll.(pl_bucketOutcomes)
      (Some p.(spf_failure)) p.(spf_failure).(failure_nextEligibleAt)]> state.(c_scm).(scm_polls)))).
End polls.

Section observations.
Variable pe : PersistedControlEvent.
Let e : ControlEvent := pe.(pe_event).
Let seq : Z := pe.(pe_seq).

Definition emptyBuckets : ScmObservationBucketsFact :=
  {| ob_pullRequest := None; ob_ci := None; ob_review := None; ob_mergeability := None |}.

(** The metadata of the bucket of a kind. *)
Definition bucket_of_kind (b : ScmObservationBucketsFact) (kind : ScmBucketKind) : option ScmBucketMetaV1 :=
  match kind with
  | bucket_pull_request => option_map bucket_meta b.(ob_pullRequest)
  | bucket_ci => option_map bucket_meta b.(ob_ci)
  | bucket_review => option_map bucket_meta b.(ob_review)
  | bucket_mergeability => option_map bucket_meta b.(ob_mergeability)
  end.

Definition store_bucket (b : ScmObservationBucketsFact) (bucket : scmAnyBucket) : ScmObservationBucketsFact :=
  match bucket with
  | scmPullRequestBucket x =>
      {| ob_pullRequest := Some x; ob_ci := b.(ob_ci); ob_review := b.(ob_review); ob_mergeability := b.(ob_mergeability) |}
  | scmCiBucket x =>
      {| ob_pullRequest := b.(ob_pullRequest); ob_ci := Some x; ob_review := b.(ob_review); ob_mergeability := b.(ob_mergeability) |}
  | scmReviewBucket x =>
      {| ob_pullRequest := b.(ob_pullRequest); ob_ci := b.(ob_ci); ob_review := Some x; ob_mergeability := b.(ob_mergeability) |}
  | scmMergeabilityBucket x =>
      {| ob_pullRequest := b.(ob_pullRequest); ob_ci := b.(ob_ci); ob_review := b.(ob_review); ob_mergeability := Some x |}
  end.

(** The observation of the publication at the polled head, fresh when the
    stored one is of another generation or head. *)
Definition current_observation (state : ControlProjection) (publication : ScmPublicationFact) (poll : ScmPollFact)
    (taskId : string) (taskGeneration : Z) : ScmObservationFact :=
  let fresh := {|
    of_publicationId := publication.(pf_publicationId); of_publicationGeneration := publication.(pf_generation);
    of_taskId := taskId; of_taskGeneration := taskGeneration;
    of_headSha := poll.(pl_expectedHeadSha); of_buckets := emptyBuckets; of_updatedSeq := seq |} in
  match obj_get state.(c_scm).(scm_observations) publication.(pf_publicationId) with
  | Own o =>
      if (o.(of_publicationGeneration) =? publication.(pf_generation))
         && bool_decide (o.(of_headSha) = poll.(pl_expectedHeadSha)) then o else fresh
  | Absent | Inherited => fresh
  end.

(** The relation a decision states between the previous and the new facts. *)
Definition check_decision (decision : ScmBucketDecision) (previousSemanticHash : option string)
    (previous : option ScmBucketMetaV1) (next : ScmBucketMetaV1) : reduction unit :=
  if bool_decide (decision = decide_accept_new) then
    ensure (negb (isSome previous) && negb (isSome previousSemanticHash)) BucketHasPrior
  else
    match previous with
    | None => Err BucketPriorMismatch
    | Some prev =>
        ensure (bool_decide (previousSemanticHash = Some prev.(meta_semanticHash))) BucketPriorMismatch ;;
        ensure (negb (bool_decide (decision = decide_accept_changed)
                      && bool_decide (prev.(meta_semanticHash) = next.(meta_semanticHash)))) BucketUnchanged ;;
        ensure (negb (bool_decide (decision = decide_accept_refresh)
                      && negb (bool_decide (prev.(meta_semanticHash) = next.(meta_semanticHash))))) BucketRefreshChanged ;;
        ensure (negb (bool_decide (decision = decide_accept_merged_partial)
                      && (negb (bool_decide (prev.(meta_completeness) = completeness_complete))
                          || negb (bool_decide (next.(meta_completeness) = completeness_partial))))) BucketPartialMismatch
    end.

(** A pull request bucket must be about the published pull request. *)
Definition check_bucket_pull (publication : ScmPublicationFact) (bucket : scmAnyBucket) : reduction unit :=
  match bucket with
  | scmPullRequestBucket b =>
      assertPullMatchesPublication publication b.(bucket_facts).(pull_identity) ;;
      match publication.(pf_pullRequest) with
      | None => Err PullIdentityChanged
      | Some pull =>
          same ← same_pull_identity b.(bucket_facts).(pull_identity) pull.(pull_identity);
          ensure same PullIdentityChanged
      end
  | _ => Ok tt
  end.

Definition accept_kind (poll : ScmPollFact) (kind : ScmBucketKind) : ScmPollFact := {|
  pl_pollId := poll.(pl_pollId); pl_pollAttempt := poll.(pl_pollAttempt);
  pl_publicationId := poll.(pl_publicationId); pl_publicationGeneration := poll.(pl_publicationGeneration);
  pl_taskId := poll.(pl_taskId); pl_taskGeneration := poll.(pl_taskGeneration);
  pl_sessionId := poll.(pl_sessionId); pl_sessionGeneration := poll.(pl_sessionGeneration);
  pl_expectedHeadSha := poll.(pl_expectedHeadSha); pl_pullRequest := poll.(pl_pullRequest);
  pl_guards := poll.(pl_guards); pl_forceFullRefresh := poll.(pl_forceFullRefresh); pl_limits := poll.(pl_limits);
  pl_state := poll.(pl_state);
  pl_requestCount := poll.(pl_requestCount); pl_decodedBytes := poll.(pl_decodedBytes);
  pl_bucketOutcomes := poll.(pl_bucketOutcomes);
  pl_acceptedKinds := poll.(pl_acceptedKinds) ++ [kind];
  pl_failure := poll.(pl_failure); pl_nextEligibleAt := poll.(pl_nextEligibleAt);
  pl_startedAt := poll.(pl_startedAt); pl_startedSeq := poll.(pl_startedSeq); pl_terminalSeq := poll.(pl_terminalSeq) |}.

Definition completed_poll (state : ControlProjection) (pollId : string) (publication : ScmPublicationFact)
    (taskId : string) (taskGeneration : Z) : reduction ScmPollFact :=
  match obj_get state.(c_scm).(scm_polls) pollId with
  | Own poll =>
      if bool_decide (poll.(pl_state) = poll_completed)
         && bool_decide (poll.(pl_publicationId) = publication.(pf_publicationId))
         && (poll.(pl_publicationGeneration) =? publication.(pf_generation))
         && bool_decide (poll.(pl_taskId) = taskId) && (poll.(pl_taskGeneration) =? taskGeneration)
      then Ok poll else Err (BucketWithoutPoll pollId)
  | Absent | Inherited => Err (BucketWithoutPoll pollId)
  end.

Definition on_bucket_accepted (state : ControlProjection) (p : scmBucketAcceptedPayload)
    (taskId : string) (taskGeneration : Z) : reduction ControlProjection :=
  assertTask state taskId taskGeneration ;;
  publication ← assertScmPublication state p.(sba_publicationId) p.(sba_publicationGeneration);
  poll ← completed_poll state p.(sba_pollId) publication taskId taskGeneration;
  let kind := sba_kind p in
  let meta := scmAnyBucket_meta p.(sba_bucket) in
  ensure (negb (bool_decide (kind ∈ poll.(pl_acceptedKinds)))) (BucketAlreadyAccepted poll.(pl_pollId)) ;;
  ensure (match find (fun o => bool_decide (o.(outcome_kind) = kind)) (default [] poll.(pl_bucketOutcomes)) with
          | Some o => bool_decide (o.(outcome_decision) = p.(sba_decision))
                      && bool_decide (o.(outcome_semanticHash) = Some meta.(meta_semanticHash))
          | None => false
          end) BucketOutcomeMismatch ;;
  ensure (bool_decide (meta.(meta_observedHeadSha) = poll.(pl_expectedHeadSha))) BucketHeadMismatch ;;
  let observation := current_observation state publication poll taskId taskGeneration in
  check_decision p.(sba_decision) p.(sba_previousSemanticHash) (bucket_of_kind observation.(of_buckets) kind) meta ;;
  check_bucket_pull publication p.(sba_bucket) ;;
  let scm := set_scm_observations state.(c_scm) (<[publication.(pf_publicationId) := {|
    of_publicationId := observation.(of_publicationId); of_publicationGeneration := observation.(of_publicationGeneration);
    of_taskId := observation.(of_taskId); of_taskGeneration := observation.(of_taskGeneration);
    of_headSha := observation.(of_headSha);
    of_buckets := store_bucket observation.(of_buckets) p.(sba_bucket);
    of_updatedSeq := seq |}]> state.(c_scm).(scm_observations)) in
  Ok (set_scm state (set_scm_polls scm (<[p.(sba_pollId) := accept_kind poll kind]> scm.(scm_polls)))).
End observations.

Section reactions.
Context {D : Digest}.
Variable pe : PersistedControlEvent.
Let e : ControlEvent := pe.(pe_event).
Let seq : Z := pe.(pe_seq).

Definition reaction_is_active (reaction : ScmReactionFact) : bool :=
  negb (bool_decide (reaction.(rx_state) ∈ [react_observation_resolved; react_superseded; react_refused])).

Definition active_reaction (state : ControlProjection) (publicationId : string) (kind : ScmReactionFactKind) : bool :=
  existsb (fun r => bool_decide (r.(rx_publicationId) = publicationId) && bool_decide (r.(rx_factKind) = kind)
                    && reaction_is_active r) (obj_values state.(c_scm).(scm_reactions)).

(** The reaction quotes the accepted observation of the head. *)
Definition check_evidence (state : ControlProjection) (publication : ScmPublicationFact) (p : scmReactionCreatedPayload)
    : reduction unit :=
  match obj_get state.(c_scm).(scm_observations) publication.(pf_publicationId) with
  | Inherited => Err MemberOfUndefined
  | Absent => Err ReactionWithoutObservation
  | Own observation =>
      ensure ((observation.(of_publicationGeneration) =? publication.(pf_generation))
              && bool_decide (observation.(of_headSha) = p.(src_headSha))) ReactionWithoutObservation ;;
      match p.(src_factKind) with
      | fact_ci =>
          match observation.(of_buckets).(ob_ci) with
          | None => Err ReactionWithoutObservation
          | Some ci =>
              ensure (bool_decide (ci.(bucket_facts).(ci_state) = ci_failing)
                      && match ci.(bucket_facts).(ci_failureFingerprint) with
                         | Some fingerprint => bool_decide (p.(src_evidenceRefs) = [fingerprint])
                         | None => false
                         end) ReactionEvidenceMismatch
          end
      | fact_review =>
          match observation.(of_buckets).(ob_review) with
          | None => Err ReactionWithoutObservation
          | Some review =>
              ensure (forallb (fun r => bool_decide (r ∈ review.(bucket_facts).(review_unresolvedSelectedEvidenceIds)))
                        p.(src_evidenceRefs)) ReactionEvidenceMismatch
          end
      end
  end.

Definition on_reaction_created (state : ControlProjection) (p : scmReactionCreatedPayload)
    (taskId : string) (taskGeneration : Z) : reduction ControlProjection :=
  task ← assertTask state taskId taskGeneration;
  ensure (negb (task_terminal task)) (ReactionTaskTerminal task.(tf_id)) ;;
  runtime ← assertSession state p.(src_sessionId) p.(src_sessionGeneration);
  ensure (session_assigned runtime taskId taskGeneration) (SessionNotAssigned runtime.(rf_sessionId)) ;;
  publication ← assertScmPublication state p.(src_publicationId) p.(src_publicationGeneration);
  ensure (bool_decide (publication.(pf_state) = pub_published) && publication_of_task publication taskId taskGeneration
          && bool_decide (publication.(pf_intent).(intent_integrationOid) = p.(src_headSha))) ReactionTargetMismatch ;;
  ensure (negb (present (obj_get state.(c_scm).(scm_reactions) p.(src_reactionKey)))) (ReactionExists p.(src_reactionKey)) ;;
  ensure (negb (existsb (fun r => bool_decide (r.(rx_commandId) = p.(src_commandId)))
                 (obj_values state.(c_scm).(scm_reactions)))) (ReactionCommandExists p.(src_commandId)) ;;
  check_evidence state publication p ;;
  key ← expectedReactionKey publication p.(src_headSha) p.(src_factKind) p.(src_evidenceRefs);
  ensure (bool_decide (p.(src_reactionKey) = key)) ReactionKeyMismatch ;;
  ensure (negb (active_reaction state publication.(pf_publicationId) p.(src_factKind)))
    (ReactionActive publication.(pf_publicationId)) ;;
  Ok (set_scm state (set_scm_reactions state.(c_scm) (<[p.(src_reactionKey) := {|
    rx_reactionKey := p.(src_reactionKey);
    rx_publicationId := publication.(pf_publicationId); rx_publicationGeneration := publication.(pf_generation);
    rx_taskId := taskId; rx_taskGeneration := taskGeneration;
    rx_headSha := p.(src_headSha); rx_factKind := p.(src_factKind); rx_evidenceRefs := p.(src_evidenceRefs);
    rx_commandId := p.(src_commandId);
    rx_sessionId := runtime.(rf_sessionId); rx_sessionGeneration := runtime.(rf_sessionGeneration);
    rx_notBeforeAttemptGeneration := p.(src_notBeforeAttemptGeneration);
    rx_supersedesCommandId := p.(src_supersedesCommandId);
    rx_previewSha256 := p.(src_previewSha256); rx_preview := p.(src_preview);
    rx_state := react_pending; rx_version := 0;
    rx_steeringSeq := None; rx_reasonCode := None; rx_observationSemanticHash := None;
    rx_createdSeq := seq; rx_updatedSeq := seq |}]> state.(c_scm).(scm_reactions)))).

(** The steering command a transition must agree with. *)
Definition check_reaction_command (command : slot SteeringFact) (p : scmReactionTransitionedPayload) : reduction unit :=
  match p.(srt_toState) with
  | react_command_admitted =>
      ensure (match command with
              | Own c => bool_decide (c.(sf_status) = st_pending) && bool_decide (c.(sf_admittedSeq) = p.(srt_steeringSeq))
              | Absent | Inherited => false
              end) ReactionAdmissionMismatch
  | react_included =>
      ensure (match command with
              | Own c => bool_decide (c.(sf_status) = st_included) && bool_decide (c.(sf_terminalSeq) = p.(srt_steeringSeq))
              | Absent | Inherited => false
              end) ReactionInclusionMismatch
  | react_refused =>
      ensure (match command with
              | Own c => bool_decide (c.(sf_status) = st_refused) && bool_decide (c.(sf_terminalSeq) = p.(srt_steeringSeq))
              | Absent => true
              | Inherited => false
              end) ReactionRefusalMismatch
  | _ => Ok tt
  end.

Definition on_reaction_transitioned (state : ControlProjection) (p : scmReactionTransitionedPayload)
    (taskId : string) (taskGeneration : Z) : reduction ControlProjection :=
  reaction ← match obj_get state.(c_scm).(scm_reactions) p.(srt_reactionKey) with
             | Own reaction => Ok reaction
             | Absent => Err (ReactionMissing p.(srt_reactionKey))
             | Inherited => Err ReactionTargetMismatch
             end;
  ensure (bool_decide (reaction.(rx_taskId) = taskId) && (reaction.(rx_taskGeneration) =? taskGeneration)
          && bool_decide (reaction.(rx_commandId) = p.(srt_commandId))) ReactionTargetMismatch ;;
  ensure ((reaction.(rx_version) =? p.(srt_reactionVersion)) && bool_decide (reaction.(rx_state) = p.(srt_fromState)))
    (ReactionFenceStale reaction.(rx_reactionKey)) ;;
  ensure (scmReactionTransitions reaction.(rx_state) p.(srt_toState))
    (IllegalReactionTransition reaction.(rx_state) p.(srt_toState)) ;;
  check_reaction_command (obj_get state.(c_steering) reaction.(rx_commandId)) p ;;
  ensure (negb (bool_decide (p.(srt_toState) ∈ [react_failed_retryable; react_superseded; react_refused])
                && negb (isSome p.(srt_reasonCode)))) ReactionWithoutReason ;;
  ensure (Bool.eqb (bool_decide (p.(srt_toState) = react_observation_resolved)) (isSome p.(srt_observationSemanticHash)))
    ReactionResolutionHash ;;
  Ok (set_scm state (set_scm_reactions state.(c_scm) (<[p.(srt_reactionKey) := {|
    rx_reactionKey := reaction.(rx_reactionKey);
    rx_publicationId := reaction.(rx_publicationId); rx_publicationGeneration := reaction.(rx_publicationGeneration);
    rx_taskId := reaction.(rx_taskId); rx_taskGeneration := reaction.(rx_taskGeneration);
    rx_headSha := reaction.(rx_headSha); rx_factKind := reaction.(rx_factKind); rx_evidenceRefs := reaction.(rx_evidenceRefs);
    rx_commandId := reaction.(rx_commandId);
    rx_sessionId := reaction.(rx_sessionId); rx_sessionGeneration := reaction.(rx_sessionGeneration);
    rx_notBeforeAttemptGeneration := reaction.(rx_notBeforeAttemptGeneration);
    rx_supersedesCommandId := reaction.(rx_supersedesCommandId);
    rx_previewSha256 := reaction.(rx_previewSha256); rx_preview := reaction.(rx_preview);
    rx_state := p.(srt_toState); rx_version := reaction.(rx_version) + 1;
    rx_steeringSeq := p.(srt_steeringSeq); rx_reasonCode := p.(srt_reasonCode);
    rx_observationSemanticHash := p.(srt_observationSemanticHash);
    rx_createdSeq := reaction.(rx_createdSeq); rx_updatedSeq := seq |}]> state.(c_scm).(scm_reactions)))).
End reactions.
