(* ===== verification/ControlApply.v ===== *)
(** ControlApply: [applyControlEvent] and [reduceControlEvents]
    (src/control/reducer.ts): the fences every event passes, the dispatch on the
    event type, and the bookkeeping of aggregate versions and of the head. *)
From S2P Require Import Prelude Text Json Ids ScmTypes ControlEvents EventSchema ControlState ControlReducer ScmReducer.

Section apply.
Context {D : Digest}.

(** The [switch]. The scope check has established that the cases using
    [taskId] and [taskGeneration] have them; without them they are the
    [event.taskId!] of the source, which the scope error stands for. *)
Definition on_event (pe : PersistedControlEvent) (state : ControlProjection) : reduction ControlProjection :=
  let e := pe.(pe_event) in
  let scoped (k : string -> Z -> reduction ControlProjection) :=
    match e.(ev_taskId), e.(ev_taskGeneration) with
    | Some taskId, Some taskGeneration => k taskId taskGeneration
    | _, _ => Err (InvalidScope (TaskScopeRequired (event_type e.(ev_payload))))
    end in
  match e.(ev_payload) with
  | run_started p => on_run_started pe state p
  | run_completed p => on_run_completed pe state p
  | run_failed p => on_run_failed pe state p
  | run_cancelled p => on_run_cancelled pe state p
  | run_checkpointed p => on_run_checkpointed pe state p
  | task_created p => scoped (on_task_created pe state p)
  | task_status_changed p => scoped (on_task_status_changed pe state p)
  | task_reopened p => scoped (on_task_reopened pe state p)
  | message_posted p => on_message_posted pe state p
  | runtime_observed p => on_runtime_observed pe state p
  | attempt_prompt_prepared p => scoped (on_attempt_prompt_prepared pe state p)
  | attempt_launch_planned p => on_attempt_launch_planned pe state p
  | attempt_started p => on_attempt_started pe state p
  | attempt_exited p => on_attempt_exited pe state p
  | attempt_abandoned p => on_attempt_abandoned pe state p
  | steering_command_admitted p => scoped (on_steering_admitted pe state p)
  | steering_command_refused p => scoped (on_steering_refused pe state p)
  | steering_command_terminal_refused p => scoped (on_steering_terminal_refused pe state p)
  | steering_command_included p => on_steering_included pe state p
  | steering_command_withdrawn p => on_steering_closed pe state p.(swp_commandId) st_withdrawn None
  | steering_command_superseded p => on_steering_closed pe state p.(ssp_commandId) st_superseded (Some p.(ssp_byCommandId))
  | steering_command_expired p => on_steering_closed pe state p.(sep_commandId) st_expired None
  | scm_publication_recorded p => scoped (on_publication_recorded pe state p)
  | scm_publication_state_changed p => scoped (on_publication_state_changed pe state p)
  | scm_poll_started p => scoped (on_poll_started pe state p)
  | scm_poll_completed p => scoped (on_poll_completed pe state p)
  | scm_poll_failed p => scoped (on_poll_failed pe state p)
  | scm_bucket_accepted p => scoped (on_bucket_accepted pe state p)
  | scm_reaction_created p => scoped (on_reaction_created pe state p)
  | scm_reaction_transitioned p => scoped (on_reaction_transitioned pe state p)
  end.

(** [state.aggregateVersions[key]?.version ?? 0] *)
Definition aggregate_version (state : ControlProjection) (key : string) : Z :=
  match obj_get state.(c_aggregateVersions) key with
  | Own a => a.(av_version)
  | Absent | Inherited => 0
  end.

(** The bookkeeping after the [switch]. *)
Definition advance (pe : PersistedControlEvent) (aggregate : ControlAggregate) (state : ControlProjection) : ControlProjection :=
  set_headSeq (set_aggregateVersions state (<[agg_key aggregate := {|
    av_kind := aggregate.(aggregate_kind);
    av_id := aggregate.(aggregate_id);
    av_generation := aggregate.(aggregate_generation);
    av_version := pe.(pe_event).(ev_expectedVersion) + 1;
    av_updatedSeq := pe.(pe_seq) |}]> state.(c_aggregateVersions))) pe.(pe_seq).

Definition applyControlEvent (current : ControlProjection) (pe : PersistedControlEvent) : reduction ControlProjection :=
  let e := pe.(pe_event) in
  map_err InvalidScope (assertControlEventScope e) ;;
  ensure (bool_decide (e.(ev_runId) = current.(c_runId)) && bool_decide (e.(ev_runEpoch) = current.(c_runEpoch)))
    RunIdentityMismatch ;;
  ensure (pe.(pe_seq) =? current.(c_headSeq) + 1) (NonContiguousSequence pe.(pe_seq) (current.(c_headSeq) + 1)) ;;
  aggregate ← map_err InvalidScope (aggregateForEvent e);
  let actualVersion := aggregate_version current (agg_key aggregate) in
  ensure (e.(ev_expectedVersion) =? actualVersion)
    (AggregateVersionMismatch (agg_key aggregate) actualVersion e.(ev_expectedVersion)) ;;
  state ← on_event pe current;
  Ok (advance pe aggregate state).

Definition reduceControlEvents (runId runEpoch : string) (events : list PersistedControlEvent)
    (initial : option ControlProjection) : reduction ControlProjection :=
  fold_result applyControlEvent (default (emptyControlProjection runId runEpoch) initial) events.

(** * The shape of an accepted event *)

Lemma applyControlEvent_Ok s pe s' :
  applyControlEvent s pe = Ok s' ->
  exists u aggregate state,
    assertControlEventScope pe.(pe_event) = Ok u /\
    aggregateForEvent pe.(pe_event) = Ok aggregate /\
    pe.(pe_event).(ev_runId) = s.(c_runId) /\ pe.(pe_event).(ev_runEpoch) = s.(c_runEpoch) /\
    pe.(pe_seq) = s.(c_headSeq) + 1 /\
    pe.(pe_event).(ev_expectedVersion) = aggregate_version s (agg_key aggregate) /\
    on_event pe s = Ok state /\
    s' = advance pe aggregate state.
Proof.
  unfold applyControlEvent. intros H. run. guards. eauto 12.
Qed.

(** Conversely, these conditions make an event acceptable. *)
Lemma applyControlEvent_intro s pe aggregate state :
  assertControlEventScope pe.(pe_event) = Ok tt ->
  aggregateForEvent pe.(pe_event) = Ok aggregate ->
  pe.(pe_event).(ev_runId) = s.(c_runId) -> pe.(pe_event).(ev_runEpoch) = s.(c_runEpoch) ->
  pe.(pe_seq) = s.(c_headSeq) + 1 ->
  pe.(pe_event).(ev_expectedVersion) = aggregate_version s (agg_key aggregate) ->
  on_event pe s = Ok state -> applyControlEvent s pe = Ok (advance pe aggregate state).
Proof.
  intros Hsc Hagg Hr He Hseq Hv Hon. unfold applyControlEvent. rewrite Hsc, Hagg, Hr, He, Hseq. cbn.
  rewrite !bool_decide_eq_true_2 by done. cbn. rewrite Z.eqb_refl. cbn. rewrite Hv, Z.eqb_refl. cbn. by rewrite Hon.
Qed.

Lemma aggregate_version_lookup s key : aggregate_version s key = default 0 (av_version <$> s.(c_aggregateVersions) !! key).
Proof.
  unfold aggregate_version, obj_get. destruct (c_aggregateVersions s !! key); [done|]. by case_bool_decide.
Qed.

Lemma reduceControlEvents_snoc runId runEpoch events pe initial :
  reduceControlEvents runId runEpoch (events ++ [pe]) initial =
  (s ← reduceControlEvents runId runEpoch events initial; applyControlEvent s pe).
Proof.
  unfold reduceControlEvents. rewrite fold_result_app. destruct (fold_result _ _ events); [|done].
  cbn. destruct (applyControlEvent a pe); done.
Qed.

(** Rule induction on histories: what the empty projection satisfies and every
    accepted event preserves holds of every projection a history reduces to. *)
Lemma reduce_invariant (P : ControlProjection -> Prop) runId runEpoch events s :
  P (emptyControlProjection runId runEpoch) ->
  (forall s pe s', P s -> applyControlEvent s pe = Ok s' -> P s') ->
  reduceControlEvents runId runEpoch events None = Ok s -> P s.
Proof. intros H0 Hstep. apply (fold_result_ind _ P); [done|]. intros x pe x' _. apply Hstep. Qed.

Lemma reduce_steps (P : ControlProjection -> Prop) runId runEpoch events s0 s :
  P s0 ->
  (forall s pe s', pe ∈ events -> P s -> applyControlEvent s pe = Ok s' -> P s') ->
  reduceControlEvents runId runEpoch events (Some s0) = Ok s -> P s.
Proof. intros H0 Hstep. by apply (fold_result_ind _ P). Qed.
End apply.
