(* ===== verification/ControlFrame.v ===== *)
(** ControlFrame: which part of the projection each event family writes. The
    invariants of a component look only at the events of its family. *)
From S2P Require Import Prelude Text Json Ids ScmTypes ControlEvents EventSchema ControlState ControlReducer ScmReducer ControlApply.

Inductive Component := comp_run | comp_tasks | comp_reopen | comp_messages | comp_runtimes | comp_attempts | comp_steering | comp_scm.
#[export] Instance Component_eq_dec : EqDecision Component. Proof. solve_decision. Defined.

(** The component the handler of an event writes. *)
Definition component_of (b : ControlEventPayload) : Component :=
  match b with
  | run_started _ | run_completed _ | run_failed _ | run_cancelled _ | run_checkpointed _ => comp_run
  | task_created _ | task_status_changed _ => comp_tasks
  | task_reopened _ => comp_reopen
  | message_posted _ => comp_messages
  | runtime_observed _ => comp_runtimes
  | attempt_prompt_prepared _ | attempt_launch_planned _ | attempt_started _ | attempt_exited _ | attempt_abandoned _ => comp_attempts
  | steering_command_admitted _ | steering_command_refused _ | steering_command_terminal_refused _
  | steering_command_included _ | steering_command_withdrawn _ | steering_command_superseded _
  | steering_command_expired _ => comp_steering
  | _ => comp_scm
  end.

Definition writes_only (c : Component) (s s' : ControlProjection) : Prop :=
  match c with
  | comp_run => exists r, s' = set_run s r
  | comp_tasks => exists m, s' = set_tasks s m
  | comp_reopen => exists m v, s' = set_aggregateVersions (set_tasks s m) v
  | comp_messages => exists m, s' = set_messages s m
  | comp_runtimes => exists m, s' = set_runtimes s m
  | comp_attempts => exists m, s' = set_attempts s m
  | comp_steering => exists m, s' = set_steering s m
  | comp_scm => exists m, s' = set_scm s m
  end.

(** Close a frame goal: decompose the run, the result is the written record. *)
Ltac frame := intros; cbv zeta in *; run; subst; eexists; try eexists; reflexivity.

Section frames.
Context {D : Digest}.
Variable pe : PersistedControlEvent.
Implicit Types s : ControlProjection.

Lemma end_run_frame s st r c t s' : end_run pe s st r c t = Ok s' -> writes_only comp_run s s'.
Proof. unfold end_run. frame. Qed.

Lemma run_frame s s' : component_of pe.(pe_event).(ev_payload) = comp_run -> on_event pe s = Ok s' -> writes_only comp_run s s'.
Proof.
  unfold on_event. destruct (ev_payload (pe_event pe)) eqn:E; try discriminate; intros _;
    unfold on_run_completed, on_run_failed, on_run_cancelled; try apply end_run_frame.
  - unfold on_run_started. frame.
  - unfold on_run_checkpointed. frame.
Qed.

Lemma task_frame s s' : component_of pe.(pe_event).(ev_payload) = comp_tasks -> on_event pe s = Ok s' -> writes_only comp_tasks s s'.
Proof.
  unfold on_event. destruct (ev_payload (pe_event pe)) eqn:E; try discriminate; intros _.
  - unfold on_task_created. frame.
  - unfold on_task_status_changed. frame.
Qed.

Lemma reopen_frame s s' : component_of pe.(pe_event).(ev_payload) = comp_reopen -> on_event pe s = Ok s' -> writes_only comp_reopen s s'.
Proof.
  unfold on_event. destruct (ev_payload (pe_event pe)) eqn:E; try discriminate; intros _.
  unfold on_task_reopened. frame.
Qed.

Lemma message_frame s s' : component_of pe.(pe_event).(ev_payload) = comp_messages -> on_event pe s = Ok s' -> writes_only comp_messages s s'.
Proof.
  unfold on_event. destruct (ev_payload (pe_event pe)) eqn:E; try discriminate; intros _.
  unfold on_message_posted. frame.
Qed.

Lemma runtime_frame s s' : component_of pe.(pe_event).(ev_payload) = comp_runtimes -> on_event pe s = Ok s' -> writes_only comp_runtimes s s'.
Proof.
  unfold on_event. destruct (ev_payload (pe_event pe)) eqn:E; try discriminate; intros _.
  unfold on_runtime_observed. intros H. apply bind_Ok in H as (? & _ & H).
  apply bind_Ok in H as (? & _ & H). injection H as <-. eexists; reflexivity.
Qed.

Lemma attempt_frame s s' : component_of pe.(pe_event).(ev_payload) = comp_attempts -> on_event pe s = Ok s' -> writes_only comp_attempts s s'.
Proof.
  unfold on_event. destruct (ev_payload (pe_event pe)) eqn:E; try discriminate; intros _.
  - unfold on_attempt_prompt_prepared. frame.
  - unfold on_attempt_launch_planned. frame.
  - unfold on_attempt_started. frame.
  - unfold on_attempt_exited. frame.
  - unfold on_attempt_abandoned. frame.
Qed.

Lemma steering_frame s s' : component_of pe.(pe_event).(ev_payload) = comp_steering -> on_event pe s = Ok s' -> writes_only comp_steering s s'.
Proof.
  unfold on_event. destruct (ev_payload (pe_event pe)) eqn:E; try discriminate; intros _;
    unfold on_steering_closed.
  - unfold on_steering_admitted. frame.
  - unfold on_steering_refused. frame.
  - unfold on_steering_terminal_refused. frame.
  - unfold on_steering_included. frame.
  - frame.
  - frame.
  - frame.
Qed.

(** A bind chain that ends in [Ok (set_scm s m)]. *)
Lemma bind_frame {A} (c : reduction A) (k : A -> reduction ControlProjection) s s' :
  (forall a, k a = Ok s' -> writes_only comp_scm s s') -> (c ≫= k) = Ok s' -> writes_only comp_scm s s'.
Proof. intros Hk. rewrite bind_Ok. intros (a & _ & H). eauto. Qed.

Lemma scm_frame s s' : component_of pe.(pe_event).(ev_payload) = comp_scm -> on_event pe s = Ok s' -> writes_only comp_scm s s'.
Proof.
  assert (forall m, Ok (set_scm s m) = @Ok ControlReductionError _ s' -> writes_only comp_scm s s') as Hend.
  { intros m [= <-]. eexists; reflexivity. }
  unfold on_event. destruct (ev_payload (pe_event pe)) eqn:E; try discriminate; intros _;
    (destruct (ev_taskId (pe_event pe)); [|discriminate]);
    (destruct (ev_taskGeneration (pe_event pe)); [|discriminate]);
    unfold on_publication_recorded, on_publication_state_changed, on_poll_started, on_poll_completed,
      on_poll_failed, on_bucket_accepted, on_reaction_created, on_reaction_transitioned; cbv zeta;
    repeat (apply bind_frame; intros ?); apply Hend.
Qed.

(** Every handler writes its own component and nothing else. *)
Lemma on_event_frame s s' : on_event pe s = Ok s' -> writes_only (component_of pe.(pe_event).(ev_payload)) s s'.
Proof.
  destruct (component_of _) eqn:E.
  - by apply run_frame.
  - by apply task_frame.
  - by apply reopen_frame.
  - by apply message_frame.
  - by apply runtime_frame.
  - by apply attempt_frame.
  - by apply steering_frame.
  - by apply scm_frame.
Qed.

(** The fields of the state after an event. *)
Lemma applyControlEvent_frame s s' :
  applyControlEvent s pe = Ok s' ->
  let c := component_of pe.(pe_event).(ev_payload) in
  c_runId s' = c_runId s /\ c_runEpoch s' = c_runEpoch s /\ c_headSeq s' = c_headSeq s + 1 /\
  (c <> comp_run -> c_run s' = c_run s) /\
  (c <> comp_tasks -> c <> comp_reopen -> c_tasks s' = c_tasks s) /\
  (c <> comp_messages -> c_messages s' = c_messages s) /\
  (c <> comp_runtimes -> c_runtimes s' = c_runtimes s) /\
  (c <> comp_attempts -> c_attempts s' = c_attempts s) /\
  (c <> comp_steering -> c_steering s' = c_steering s) /\
  (c <> comp_scm -> c_scm s' = c_scm s).
Proof.
  intros (u & agg & st & _ & _ & _ & _ & Hseq & _ & Hon & ->)%applyControlEvent_Ok. cbn zeta.
  apply on_event_frame in Hon. rewrite <-Hseq.
  destruct (component_of _); cbn in Hon; destruct_and?; destruct Hon as [? Hon]; [| |destruct Hon as [? Hon]|..];
    subst st; cbn; repeat split; done.
Qed.
End frames.
