(* ===== verification/AttemptLife.v ===== *)
(** AttemptLife: the life of a provider attempt as an abstract state machine,
    and the attempt handlers of src/control/reducer.ts as its refinement. *)
From S2P Require Import Prelude Text Json Ids ScmTypes ControlEvents EventSchema ControlState ControlReducer ScmReducer ControlApply ControlFrame.

(** * The abstract machine

    The sequence numbers of the events that moved the attempt. *)
Inductive Life :=
| Prepared (prepared : Z)
| Planned (prepared planned : Z)
| Running (prepared planned started : Z)
| Exited (prepared planned started exited : Z)
| Dropped (prepared : Z) (planned : option Z) (dropped : Z).

Inductive life_step (seq : Z) : Life -> Life -> Prop :=
| life_plan p : life_step seq (Prepared p) (Planned p seq)
| life_start p l : life_step seq (Planned p l) (Running p l seq)
| life_exit p l s : life_step seq (Running p l s) (Exited p l s seq)
| life_drop p : life_step seq (Prepared p) (Dropped p None seq)
| life_drop_planned p l : life_step seq (Planned p l) (Dropped p (Some l) seq).

(** The recorded sequence numbers increase and the history has reached the last. *)
Definition life_ordered (head : Z) (l : Life) : Prop :=
  match l with
  | Prepared p => 1 <= p <= head
  | Planned p l => 1 <= p < l /\ l <= head
  | Running p l s => 1 <= p < l /\ l < s <= head
  | Exited p l s x => 1 <= p < l /\ l < s < x /\ x <= head
  | Dropped p None d => 1 <= p < d /\ d <= head
  | Dropped p (Some l) d => 1 <= p < l /\ l < d <= head
  end.

Definition life_over (l : Life) : bool :=
  match l with Exited _ _ _ _ | Dropped _ _ _ => true | _ => false end.

Lemma life_step_ordered head l l' :
  life_ordered head l -> life_step (head + 1) l l' -> life_ordered (head + 1) l'.
Proof. intros Ho Hs. destruct Hs; cbn in *; lia. Qed.

Lemma life_ordered_mono head head' l : head <= head' -> life_ordered head l -> life_ordered head' l.
Proof. intros Hh. destruct l as [| | | |p [l|] d]; cbn; lia. Qed.

Lemma life_over_stuck seq l l' : life_over l = true -> ~ life_step seq l l'.
Proof. intros Ho Hs. by destruct Hs. Qed.

(** * The life a fact records

    A fact that has a life carries exactly the data its state calls for. *)
Definition life_of (a : AttemptFact) : option Life :=
  let planned := isSome a.(af_launchId) in
  let running := isSome a.(af_pid) && isSome a.(af_processStartToken) in
  let not_running := negb (isSome a.(af_pid)) && negb (isSome a.(af_processStartToken)) in
  match a.(af_state), a.(af_preparedSeq), a.(af_launchPlannedSeq), a.(af_startedSeq), a.(af_exitedSeq), a.(af_abandonedSeq) with
  | att_prepared, Some p, None, None, None, None =>
      if negb planned && not_running && negb (isSome a.(af_outcome)) && negb (isSome a.(af_abandonReason))
      then Some (Prepared p) else None
  | att_prepared, Some p, Some l, None, None, None =>
      if planned && not_running && negb (isSome a.(af_outcome)) && negb (isSome a.(af_abandonReason))
      then Some (Planned p l) else None
  | att_active, Some p, Some l, Some s, None, None =>
      if planned && running && negb (isSome a.(af_outcome)) && negb (isSome a.(af_abandonReason))
      then Some (Running p l s) else None
  | att_exited, Some p, Some l, Some s, Some x, None =>
      if planned && running && isSome a.(af_outcome) && negb (isSome a.(af_abandonReason))
      then Some (Exited p l s x) else None
  | att_abandoned, Some p, l, None, None, Some d =>
      if Bool.eqb planned (isSome l) && not_running && negb (isSome a.(af_outcome)) && isSome a.(af_abandonReason)
      then Some (Dropped p l d) else None
  | _, _, _, _, _, _ => None
  end.

(** A life is over exactly when the state says so. *)
Lemma life_of_over a l :
  life_of a = Some l -> life_over l = bool_decide (af_state a = att_exited \/ af_state a = att_abandoned).
Proof. unfold life_of. destruct (af_state a); repeat case_match; by intros [= <-]. Qed.

(** What an attempt keeps for its whole life: its identity and its prompt. *)
Definition attempt_identity (a : AttemptFact) :=
  (a.(af_attemptId), a.(af_attemptGeneration), (a.(af_taskId), a.(af_taskGeneration)),
   (a.(af_sessionId), a.(af_sessionGeneration)),
   (a.(af_artifactLocator), a.(af_promptSha256), a.(af_promptBytes), a.(af_rendererVersion)),
   a.(af_captureCutoffSeq), a.(af_steeringCommandIds)).

(** The slot of the attempt in the history of its task. *)
Definition attempt_slot (a : AttemptFact) : string * Z * Z :=
  (a.(af_taskId), a.(af_taskGeneration), a.(af_attemptGeneration)).

(** The attempts after an attempt event: a new attempt, or one step of one life. *)
Inductive attempt_effect (seq : Z) (s : ControlProjection) : obj AttemptFact -> Prop :=
| attempt_new id a runtime :
    c_attempts s !! id = None ->
    af_attemptId a = id ->
    life_of a = Some (Prepared seq) ->
    c_runtimes s !! af_sessionId a = Some runtime ->
    rf_sessionGeneration runtime = af_sessionGeneration a ->
    rf_taskId runtime = Some (af_taskId a) ->
    rf_taskGeneration runtime = Some (af_taskGeneration a) ->
    (exists task, c_tasks s !! af_taskId a = Some task /\ tf_generation task = af_taskGeneration a) ->
    af_attemptGeneration a = next_attempt_generation s (af_taskId a) (af_taskGeneration a) ->
    attempt_effect seq s (<[id := a]> (c_attempts s))
| attempt_moved id a a' :
    c_attempts s !! id = Some a ->
    attempt_identity a' = attempt_identity a ->
    (forall l, life_of a = Some l -> exists l', life_of a' = Some l' /\ life_step seq l l') ->
    attempt_effect seq s (<[id := a']> (c_attempts s)).

Lemma assertTask_Ok s id g task :
  assertTask s id g = Ok task <-> c_tasks s !! id = Some task /\ tf_generation task = g.
Proof.
  unfold assertTask. split.
  - intros H. destruct (obj_get _ _) as [| |t] eqn:E; try discriminate.
    apply obj_get_Own in E. destruct (Z.eqb_spec (tf_generation t) g); [|discriminate].
    injection H as <-. done.
  - intros [->%obj_get_Own <-]. by rewrite Z.eqb_refl.
Qed.

Lemma assertSession_Ok s id g runtime :
  assertSession s id g = Ok runtime <-> c_runtimes s !! id = Some runtime /\ rf_sessionGeneration runtime = g.
Proof.
  unfold assertSession. split.
  - intros H. destruct (obj_get _ _) as [| |t] eqn:E; try discriminate.
    apply obj_get_Own in E. destruct (Z.eqb_spec (rf_sessionGeneration t) g); [|discriminate].
    injection H as <-. done.
  - intros [->%obj_get_Own <-]. by rewrite Z.eqb_refl.
Qed.

Lemma session_assigned_spec r t g :
  session_assigned r t g = true <-> rf_taskId r = Some t /\ rf_taskGeneration r = Some g.
Proof. unfold session_assigned. by rewrite andb_true_iff, !bool_decide_eq_true. Qed.

Lemma prepared_attempt_Ok s id a :
  prepared_attempt s id = Ok a -> c_attempts s !! id = Some a /\ af_state a = att_prepared.
Proof.
  unfold prepared_attempt. destruct (obj_get _ _) as [| |b] eqn:E; try discriminate.
  apply obj_get_Own in E. case_bool_decide; [|discriminate]. by intros [= <-].
Qed.

Lemma active_attempt_Ok s id a :
  active_attempt s id = Ok a -> c_attempts s !! id = Some a /\ af_state a = att_active.
Proof.
  unfold active_attempt. destruct (obj_get _ _) as [| |b] eqn:E; try discriminate.
  apply obj_get_Own in E. case_bool_decide; [|discriminate]. by intros [= <-].
Qed.

(** * The handlers refine the machine *)

Section refinement.
Context {D : Digest}.
Variable pe : PersistedControlEvent.
Implicit Types s : ControlProjection.

(** Read the life of a fact off its fields. *)
Ltac read_life Hl :=
  unfold life_of in Hl; cbn in Hl; repeat case_match; simplify_eq/=; try discriminate; guards; try congruence.

(** Decide the optional fields the life depends on. *)
Ltac decide_fields :=
  repeat match goal with H : isSome ?o = _ |- _ => destruct o; try discriminate H; clear H end.

(** The life of the rewritten fact follows from the life of the old one. *)
Ltac move_life :=
  eapply attempt_moved; [eassumption|reflexivity|];
  intros l Hl; match goal with a : AttemptFact |- _ => destruct a end; simplify_eq/=; read_life Hl;
  eexists; (split; [|constructor]); decide_fields; reflexivity.

Lemma prompt_prepared_effect s p t g s' :
  on_attempt_prompt_prepared pe s p t g = Ok s' -> attempt_effect pe.(pe_seq) s (c_attempts s').
Proof.
  unfold on_attempt_prompt_prepared. intros H. cbv zeta in H. run. subst s'. guards.
  repeat match goal with
  | H : assertTask _ _ _ = Ok _ |- _ => apply assertTask_Ok in H as [? ?]
  | H : assertSession _ _ _ = Ok _ |- _ => apply assertSession_Ok in H as [? ?]
  | H : session_assigned _ _ _ = true |- _ => apply session_assigned_spec in H as [? ?]
  | H : present _ = false |- _ => apply present_false in H as [? _]
  end.
  eapply attempt_new; cbn; eauto.
Qed.

Lemma launch_planned_effect s p s' :
  on_attempt_launch_planned pe s p = Ok s' -> attempt_effect pe.(pe_seq) s (c_attempts s').
Proof.
  unfold on_attempt_launch_planned. intros H. run. subst s'.
  apply prepared_attempt_Ok in Hrun as [? ?]. move_life.
Qed.

Lemma started_effect s p s' :
  on_attempt_started pe s p = Ok s' -> attempt_effect pe.(pe_seq) s (c_attempts s').
Proof.
  unfold on_attempt_started. intros H. run. subst s'.
  apply prepared_attempt_Ok in Hrun as [? ?]. guards. move_life.
Qed.

Lemma exited_effect s p s' :
  on_attempt_exited pe s p = Ok s' -> attempt_effect pe.(pe_seq) s (c_attempts s').
Proof.
  unfold on_attempt_exited. intros H. run. subst s'.
  apply active_attempt_Ok in Hrun as [? ?]. move_life.
Qed.

Lemma abandoned_effect s p s' :
  on_attempt_abandoned pe s p = Ok s' -> attempt_effect pe.(pe_seq) s (c_attempts s').
Proof.
  unfold on_attempt_abandoned. intros H. run. subst s'.
  apply prepared_attempt_Ok in Hrun as [? ?].
  move_life.
Qed.

Lemma attempts_effect s s' :
  applyControlEvent s pe = Ok s' ->
  c_attempts s' = c_attempts s \/ attempt_effect pe.(pe_seq) s (c_attempts s').
Proof.
  intros H. destruct (decide (component_of pe.(pe_event).(ev_payload) = comp_attempts)) as [Hc|Hc].
  2: { apply applyControlEvent_frame in H. cbn in H. left. by apply H. }
  apply applyControlEvent_Ok in H as (u & agg & st & _ & _ & _ & _ & _ & _ & Hon & ->).
  right. change (c_attempts (advance pe agg st)) with (c_attempts st). unfold on_event in Hon.
  destruct (ev_payload (pe_event pe)); try discriminate Hc.
  - run. by eapply prompt_prepared_effect.
  - by eapply launch_planned_effect.
  - by eapply started_effect.
  - by eapply exited_effect.
  - by eapply abandoned_effect.
Qed.
End refinement.

(** * The attempts of a reachable projection *)

(** Every fact is filed under its own id and has a life the history has
    reached; the attempts of a task generation are numbered 1, 2, ... without
    gap and without repetition. *)
Record attempts_wf (head : Z) (m : obj AttemptFact) : Prop := {
  attempts_keyed id a : m !! id = Some a -> af_attemptId a = id;
  attempts_lives id a : m !! id = Some a -> exists l, life_of a = Some l /\ life_ordered head l;
  attempts_unique id id' a a' :
    m !! id = Some a -> m !! id' = Some a' -> attempt_slot a = attempt_slot a' -> id = id';
  attempts_positive id a : m !! id = Some a -> 1 <= af_attemptGeneration a;
  attempts_dense id a g :
    m !! id = Some a -> 1 <= g < af_attemptGeneration a ->
    exists id' a', m !! id' = Some a' /\ attempt_slot a' = (af_taskId a, af_taskGeneration a, g)
}.

Lemma attempts_wf_empty head : attempts_wf head ∅.
Proof. split; intros *; rewrite lookup_empty; discriminate. Qed.

Lemma attempts_wf_mono head head' m : head <= head' -> attempts_wf head m -> attempts_wf head' m.
Proof.
  intros Hh [Hk Hl Hu Hp Hd]. split; eauto. intros id a Ha.
  destruct (Hl id a Ha) as (l & ? & ?). eauto using life_ordered_mono.
Qed.

(** The next generation is one more than the greatest, 1 when there is none. *)
Lemma foldr_max_spec (l : list Z) :
  (forall x, x ∈ l -> x <= foldr Z.max 0 l) /\ 0 <= foldr Z.max 0 l /\
  (foldr Z.max 0 l = 0 \/ foldr Z.max 0 l ∈ l).
Proof.
  induction l as [|y l (IHle & IH0 & IHin)]; cbn [foldr].
  - split; [|split]; [intros x Hx; by apply not_elem_of_nil in Hx|lia|by left].
  - split; [|split]; [intros x [->|Hx]%elem_of_cons; [lia|apply IHle in Hx; lia]|lia|].
    destruct (Z.max_spec y (foldr Z.max 0 l)) as [[_ ->]|[_ ->]].
    + destruct IHin; [by left|right; by apply list_elem_of_further].
    + right. apply list_elem_of_here.
Qed.

Lemma next_attempt_generation_spec s t g :
  let n := next_attempt_generation s t g in
  (forall id a, c_attempts s !! id = Some a -> af_taskId a = t -> af_taskGeneration a = g -> af_attemptGeneration a < n) /\
  1 <= n /\
  (n = 1 \/ exists id a, c_attempts s !! id = Some a /\ attempt_slot a = (t, g, n - 1)).
Proof.
  unfold next_attempt_generation. cbv zeta.
  set (l := List.map _ _).
  assert (forall x, x ∈ l <-> exists id a, c_attempts s !! id = Some a /\ attempt_slot a = (t, g, x)) as Hl.
  { intros x. unfold l. rewrite list_elem_of_In, in_map_iff. split.
    - intros (a & <- & Ha). apply filter_In in Ha as [Ha Hp]. guards.
      apply list_elem_of_In, elem_of_obj_values in Ha as [id Ha]. exists id, a. unfold attempt_slot. by subst.
    - intros (id & a & Ha & [= <- <- <-]). exists a. split; [done|]. apply filter_In. split.
      + apply list_elem_of_In, elem_of_obj_values. eauto.
      + by rewrite bool_decide_true, Z.eqb_refl. }
  destruct (foldr_max_spec l) as (Hle & H0 & Hin). split; [|split]; [|lia|].
  - intros id a Ha <- <-. assert (af_attemptGeneration a ∈ l) as Hx by (apply Hl; eauto). apply Hle in Hx. lia.
  - destruct Hin as [->|Hin]; [by left|]. right. apply Hl in Hin.
    by replace (foldr Z.max 0 l + 1 - 1) with (foldr Z.max 0 l) by lia.
Qed.

Lemma attempt_identity_slot a a' : attempt_identity a' = attempt_identity a -> attempt_slot a' = attempt_slot a.
Proof. unfold attempt_identity, attempt_slot. congruence. Qed.

(** A new attempt takes the next free slot of its task generation. *)
Lemma attempt_new_wf seq s id a :
  attempts_wf seq (c_attempts s) -> 1 <= seq -> af_attemptId a = id -> life_of a = Some (Prepared seq) ->
  af_attemptGeneration a = next_attempt_generation s (af_taskId a) (af_taskGeneration a) ->
  c_attempts s !! id = None -> attempts_wf seq (<[id := a]> (c_attempts s)).
Proof.
  intros [Hk Hl Hu Hp Hd] Hseq Hid Hlife Hgen Hnone.
  pose proof (next_attempt_generation_spec s (af_taskId a) (af_taskGeneration a)) as (Hlt & H1 & Hprev).
  rewrite <-Hgen in Hlt, H1, Hprev.
  assert (forall id' a', c_attempts s !! id' = Some a' -> attempt_slot a' <> attempt_slot a) as Hnew.
  { intros id' a' Ha' [= Ht Hg Hag]. specialize (Hlt _ _ Ha' Ht Hg). lia. }
  assert (forall i b, c_attempts s !! i = Some b -> <[id := a]> (c_attempts s) !! i = Some b) as Hins.
  { intros i b Hb. rewrite lookup_insert_ne; [done|congruence]. }
  split.
  - intros id' a' [[<- <-]|[_ Ha']]%lookup_insert_Some; eauto.
  - intros id' a' [[<- <-]|[_ Ha']]%lookup_insert_Some; eauto. exists (Prepared seq). cbn. split; [done|lia].
  - intros i j b c [[<- <-]|[_ Hb]]%lookup_insert_Some [[<- <-]|[_ Hc]]%lookup_insert_Some; eauto.
    + intros Hs. by destruct (Hnew _ _ Hc).
    + intros Hs. by destruct (Hnew _ _ Hb).
  - intros id' a' [[<- <-]|[_ Ha']]%lookup_insert_Some; eauto.
  - intros i b g [[<- <-]|[_ Hb]]%lookup_insert_Some Hg.
    + destruct Hprev as [Heq|(i & c & Hc & Hs)]; [lia|].
      destruct (Z.eq_dec g (af_attemptGeneration a - 1)) as [->|Hne]; [eauto|].
      unfold attempt_slot in Hs. simplify_eq.
      destruct (Hd i c g Hc) as (j & d & Hj & Hs'); [lia|]. exists j, d. split; [eauto|]. congruence.
    + destruct (Hd i b g Hb Hg) as (j & d & Hj & Hs'). eauto.
Qed.

(** A step of one life keeps every slot. *)
Lemma attempt_moved_wf seq m id a a' :
  attempts_wf (seq - 1) m -> m !! id = Some a -> attempt_identity a' = attempt_identity a ->
  (forall l, life_of a = Some l -> exists l', life_of a' = Some l' /\ life_step seq l l') ->
  attempts_wf seq (<[id := a']> m).
Proof.
  intros [Hk Hl Hu Hp Hd] Ha Hidn Hlife. pose proof (attempt_identity_slot _ _ Hidn) as Hslot.
  assert (forall i b, <[id := a']> m !! i = Some b ->
            exists b', m !! i = Some b' /\ attempt_slot b = attempt_slot b') as Hback.
  { intros i b [[<- <-]|[_ Hb]]%lookup_insert_Some; eauto. }
  split.
  - intros i b [[<- <-]|[_ Hb]]%lookup_insert_Some; [|eauto].
    rewrite <-(Hk _ _ Ha). unfold attempt_identity in Hidn. congruence.
  - intros i b [[<- <-]|[_ Hb]]%lookup_insert_Some.
    + destruct (Hl _ _ Ha) as (l & Hlo & Hord). destruct (Hlife l Hlo) as (l' & Hl' & Hstep).
      exists l'. split; [done|]. pose proof (life_step_ordered (seq - 1) l l' Hord) as Ho.
      replace (seq - 1 + 1) with seq in Ho by lia. by apply Ho.
    + destruct (Hl _ _ Hb) as (l & ? & Hord). exists l. split; [done|].
      eapply life_ordered_mono; [|exact Hord]; lia.
  - intros i j b c Hb Hc Hs. apply Hback in Hb as (b' & Hb & Eb), Hc as (c' & Hc & Ec).
    eapply Hu; eauto; congruence.
  - intros i b (b' & Hb & Eb)%Hback. apply Hp in Hb. unfold attempt_slot in Eb. simplify_eq. lia.
  - intros i b g (b' & Hb & Eb)%Hback Hg. unfold attempt_slot in Eb. injection Eb as Et Eg Ea.
    destruct (Hd i b' g Hb) as (j & d & Hj & Hs); [lia|].
    destruct (decide (j = id)) as [->|Hne].
    + exists id, a'. rewrite lookup_insert_eq, Hslot. rewrite Ha in Hj. injection Hj as <-. split; [done|]. congruence.
    + exists j, d. rewrite lookup_insert_ne by done. split; [done|]. congruence.
Qed.

Lemma attempt_effect_wf seq s m :
  attempts_wf (seq - 1) (c_attempts s) -> 1 <= seq -> attempt_effect seq s m -> attempts_wf seq m.
Proof.
  intros Hwf Hseq Heff. destruct Heff.
  - eapply attempt_new_wf; eauto. eapply attempts_wf_mono; [|exact Hwf]. lia.
  - by eapply attempt_moved_wf.
Qed.
