(* ===== verification/TaskLife.v ===== *)
(** TaskLife: the life of a task as an abstract state machine with ownership,
    and the task handlers of src/control/reducer.ts as its refinement. *)
From S2P Require Import Prelude Text Json Ids ScmTypes ControlEvents EventSchema ControlState ControlReducer ScmReducer ControlApply ControlFrame AttemptLife.

(** * The abstract machine *)

Record TaskState := {
  ts_generation : Z;
  ts_status : ControlTaskStatus;
  ts_owner : option string
}.

Definition terminal_status (st : ControlTaskStatus) : bool := bool_decide (st ∈ [ts_done; ts_escalated]).

(** A role holds the task: an owner that is not the empty string. *)
Definition owned_by_other (owner : option string) (role : string) : bool :=
  truthy owner && negb (bool_decide (owner = Some role)).

(** Statuses a role may report on a task it does not own. *)
Definition setback (st : ControlTaskStatus) : bool := bool_decide (st ∈ [ts_blocked; ts_rejected; ts_escalated]).

Inductive task_step : option TaskState -> TaskState -> Prop :=
| step_create g : task_step None {| ts_generation := g; ts_status := ts_open; ts_owner := None |}
| step_claim g st owner role :
    st = ts_claimed \/ allowedTransitions st ts_claimed = true ->
    owned_by_other owner role = false ->
    task_step (Some {| ts_generation := g; ts_status := st; ts_owner := owner |})
              {| ts_generation := g; ts_status := ts_claimed; ts_owner := Some role |}
| step_report g st st' owner role :
    st' <> ts_claimed ->
    st' = st \/ allowedTransitions st st' = true ->
    owned_by_other owner role = false \/ setback st' = true ->
    task_step (Some {| ts_generation := g; ts_status := st; ts_owner := owner |})
              {| ts_generation := g; ts_status := st'; ts_owner := owner |}
| step_reopen g st owner :
    terminal_status st = true ->
    task_step (Some {| ts_generation := g; ts_status := st; ts_owner := owner |})
              {| ts_generation := g + 1; ts_status := ts_open; ts_owner := None |}.

(** How far a task is along: a later generation, or the same generation with
    the same owner once it had one, and no way out of a terminal status. *)
Definition task_le (t t' : TaskState) : Prop :=
  ts_generation t < ts_generation t' \/
  ts_generation t = ts_generation t' /\
  (truthy (ts_owner t) = true -> ts_owner t' = ts_owner t) /\
  (terminal_status (ts_status t) = true -> ts_status t' = ts_status t).

#[export] Instance task_le_preorder : PreOrder task_le.
Proof.
  split.
  - intros t. right. done.
  - intros t u v [Htu|(Htu & Ho & Hs)] [Huv|(Huv & Ho' & Hs')]; [left; lia|left; lia|left; lia|].
    right. split; [lia|]. split.
    + intros H. pose proof (Ho H) as E. rewrite <-E. apply Ho'. by rewrite E.
    + intros H. pose proof (Hs H) as E. rewrite <-E. apply Hs'. by rewrite E.
Qed.

Lemma terminal_no_transition st st' : terminal_status st = true -> allowedTransitions st st' = false.
Proof. by destruct st. Qed.

Lemma task_step_le t t' : task_step (Some t) t' -> task_le t t'.
Proof.
  inversion 1 as [|g st owner role Hst Hown|g st st' owner role Hne Hst Hown|g st owner Hterm]; subst; cbn.
  - right. cbn. split; [done|]. split.
    + intros Ht. unfold owned_by_other in Hown. rewrite Ht in Hown. cbn in Hown. guards. congruence.
    + intros Ht. destruct Hst as [->|Hst]; [done|]. rewrite terminal_no_transition in Hst by done. done.
  - right. cbn. split; [done|]. split; [done|].
    intros Ht. destruct Hst as [->|Hst]; [done|]. rewrite terminal_no_transition in Hst by done. done.
  - left. cbn. lia.
Qed.

(** * The handlers refine the machine *)

Definition task_state (t : TaskFact) : TaskState :=
  {| ts_generation := tf_generation t; ts_status := tf_status t; ts_owner := tf_claimedBy t |}.

(** What a task keeps across its generations. *)
Definition task_identity (t : TaskFact) :=
  (t.(tf_id), t.(tf_title), t.(tf_assignee), t.(tf_createdBy), t.(tf_description), t.(tf_acceptanceCriteria),
   t.(tf_dependsOn), t.(tf_priority), t.(tf_createdAt), t.(tf_files)).

(** The tasks after a task event: one step of one task, or a new one. *)
Inductive task_effect (seq : Z) (s : ControlProjection) : obj TaskFact -> Prop :=
| task_effect_new id t :
    c_tasks s !! id = None -> tf_id t = id -> task_step None (task_state t) ->
    tf_attempts t = 0 -> tf_updatedSeq t = seq ->
    task_effect seq s (<[id := t]> (c_tasks s))
| task_effect_step id t t' :
    c_tasks s !! id = Some t -> task_identity t' = task_identity t ->
    task_step (Some (task_state t)) (task_state t') ->
    tf_attempts t' = (if terminal_status (tf_status t) && bool_decide (tf_status t' = ts_open) then 0
                      else if bool_decide (tf_status t' ∈ [ts_blocked; ts_rejected]) then tf_attempts t + 1
                      else tf_attempts t) ->
    tf_updatedSeq t' = seq ->
    task_effect seq s (<[id := t']> (c_tasks s)).

Lemma next_claim_step task role next owner :
  next_claim task role next = Ok owner ->
  next = tf_status task \/ allowedTransitions (tf_status task) next = true ->
  task_step (Some (task_state task)) {| ts_generation := tf_generation task; ts_status := next; ts_owner := owner |}.
Proof.
  unfold next_claim. intros H Hnext. case_bool_decide as Hc; run; subst; cbn in *.
  - apply step_claim; [destruct Hnext; auto|]. by apply negb_true_iff in Hrun.
  - apply (step_report _ _ _ _ role); [done|done|]. unfold owned_by_other, setback.
    destruct (truthy _ && _); [|by left]. right. cbn in Hrun. by rewrite negb_involutive in Hrun.
Qed.

Section refinement.
Context {D : Digest}.
Variable pe : PersistedControlEvent.
Implicit Types s : ControlProjection.

Lemma task_created_effect s p id g s' :
  on_task_created pe s p id g = Ok s' -> task_effect pe.(pe_seq) s (c_tasks s').
Proof.
  unfold on_task_created. intros H. run. subst s'. apply negb_true_iff in Hrun. apply present_false in Hrun as [? _].
  apply task_effect_new; cbn; auto. constructor.
Qed.

Lemma status_changed_effect s p id g s' :
  on_task_status_changed pe s p id g = Ok s' -> task_effect pe.(pe_seq) s (c_tasks s').
Proof.
  unfold on_task_status_changed. intros H. cbv zeta in H. run. subst s'. apply assertTask_Ok in Hrun as [? ?].
  apply orb_true_iff in Hrun0. rewrite bool_decide_eq_true in Hrun0. pose proof Hrun1 as Hclaim.
  apply next_claim_step in Hrun1; [|done].
  eapply task_effect_step; cbn; eauto.
  destruct (terminal_status (tf_status a)) eqn:Ht; [|done].
  destruct Hrun0 as [->|Hn]; [|by rewrite terminal_no_transition in Hn].
  rewrite (bool_decide_eq_false_2 (tf_status a = ts_open)); [done|]. intros E. by rewrite E in Ht.
Qed.

Lemma reopened_effect s p id g s' :
  on_task_reopened pe s p id g = Ok s' -> task_effect pe.(pe_seq) s (c_tasks s').
Proof.
  unfold on_task_reopened. intros H. cbv zeta in H. run. subst s'. apply assertTask_Ok in Hrun as [? ?]. guards.
  eapply task_effect_step; cbn; eauto.
  - unfold task_state; cbn. rewrite Hrun1. by constructor.
  - unfold task_terminal in Hrun0. unfold terminal_status. by rewrite Hrun0.
Qed.

Lemma tasks_effect s s' :
  applyControlEvent s pe = Ok s' -> c_tasks s' = c_tasks s \/ task_effect pe.(pe_seq) s (c_tasks s').
Proof.
  intros H. destruct (decide (component_of pe.(pe_event).(ev_payload) = comp_tasks \/ component_of pe.(pe_event).(ev_payload) = comp_reopen)) as [Hc|Hc].
  2: { apply applyControlEvent_frame in H. cbn in H. left. apply H; tauto. }
  apply applyControlEvent_Ok in H as (u & agg & st & _ & _ & _ & _ & _ & _ & Hon & ->).
  right. change (c_tasks (advance pe agg st)) with (c_tasks st). unfold on_event in Hon.
  destruct (ev_payload (pe_event pe)); destruct Hc as [Hc|Hc]; try discriminate Hc; run.
  - by eapply task_created_effect.
  - by eapply reopened_effect.
  - by eapply status_changed_effect.
Qed.
End refinement.

(** * Histories of tasks *)

(** No task is lost, its description never changes, and its state only moves
    forward. *)
Definition tasks_le (m m' : obj TaskFact) : Prop :=
  forall id t, m !! id = Some t ->
  exists t', m' !! id = Some t' /\ task_identity t' = task_identity t /\ task_le (task_state t) (task_state t').

#[export] Instance tasks_le_preorder : PreOrder tasks_le.
Proof.
  split.
  - intros m id t Ht. exists t. split; [done|]. by split.
  - intros m1 m2 m3 H12 H23 id t Ht. destruct (H12 id t Ht) as (t2 & Ht2 & Hi & Hle).
    destruct (H23 id t2 Ht2) as (t3 & Ht3 & Hi' & Hle'). exists t3. split; [done|].
    split; [congruence|]. by etransitivity.
Qed.

Lemma tasks_le_insert_new m id t : m !! id = None -> tasks_le m (<[id := t]> m).
Proof. intros Hn i u Hu. exists u. rewrite lookup_insert_ne by congruence. split; [done|]. by split. Qed.

Lemma tasks_le_insert m id t t' :
  m !! id = Some t -> task_identity t' = task_identity t -> task_le (task_state t) (task_state t') ->
  tasks_le m (<[id := t']> m).
Proof.
  intros Ht Hi Hle i u Hu. destruct (decide (i = id)) as [->|Hne].
  - exists t'. rewrite lookup_insert_eq. split; [done|]. by rewrite Hu in Ht; injection Ht as ->.
  - exists u. rewrite lookup_insert_ne by done. split; [done|]. by split.
Qed.

Lemma task_effect_le seq s m : task_effect seq s m -> tasks_le (c_tasks s) m.
Proof.
  destruct 1.
  - by apply tasks_le_insert_new.
  - eapply tasks_le_insert; eauto. by apply task_step_le.
Qed.

(** A task is filed under its id; a claimed task has a claimant; a task open for
    the first time in its generation has none. *)
Definition task_wf (head : Z) (id : string) (t : TaskFact) : Prop :=
  tf_id t = id /\ tf_updatedSeq t <= head /\ 0 <= tf_attempts t /\
  (tf_status t = ts_claimed -> isSome (tf_claimedBy t) = true) /\
  (tf_status t = ts_open -> tf_claimedBy t = None).

Definition tasks_wf (head : Z) (m : obj TaskFact) : Prop := forall id t, m !! id = Some t -> task_wf head id t.

Lemma task_wf_mono head head' id t : head <= head' -> task_wf head id t -> task_wf head' id t.
Proof. unfold task_wf. intuition lia. Qed.

Lemma task_step_wf t t' :
  (forall u, t = Some u -> ts_status u = ts_open -> ts_owner u = None) -> task_step t t' ->
  (ts_status t' = ts_claimed -> isSome (ts_owner t') = true) /\ (ts_status t' = ts_open -> ts_owner t' = None).
Proof.
  intros Hopen. inversion 1 as [|g st owner role Hst Hown|g st st' owner role Hne Hst Hown|]; subst; cbn; try done.
  split; [done|]. intros ->. destruct Hst as [<-|Hst]; [by apply (Hopen _ eq_refl)|]. by destruct st.
Qed.

Lemma task_effect_wf seq s m :
  tasks_wf (seq - 1) (c_tasks s) -> task_effect seq s m -> tasks_wf seq m.
Proof.
  intros Hwf Heff i u Hu.
  assert (forall t, c_tasks s !! i = Some t -> task_wf seq i t) as Hold.
  { intros t Ht. eapply task_wf_mono; [|by apply Hwf]. lia. }
  destruct Heff as [id t Hn Hid Hstep Hatt Hupd|id t t' Ht Hi Hstep Hatt Hupd];
    apply lookup_insert_Some in Hu as [[<- <-]|[_ Hu]]; auto.
  - apply task_step_wf in Hstep; [|done]. unfold task_wf. intuition lia.
  - destruct (Hold t Ht) as (Hid & _ & Hnn & _ & Hopen).
    apply task_step_wf in Hstep; [|intros ? [= <-]; exact Hopen].
    assert (tf_id t' = tf_id t) by (unfold task_identity in Hi; congruence).
    unfold task_wf. rewrite Hatt. repeat case_match; intuition (try lia; congruence).
Qed.

Lemma applied_tasks_le {D : Digest} s pe s' : applyControlEvent s pe = Ok s' -> tasks_le (c_tasks s) (c_tasks s').
Proof. intros H. apply tasks_effect in H as [->|H]; [done|]. by eapply task_effect_le. Qed.
