(* ===== verification/SessionLife.v ===== *)
(** SessionLife: what [runtime.observed] (src/control/reducer.ts) may do to the
    sessions, and the agreement between a session and what targets it. *)
From S2P Require Import Prelude Text Json Ids ScmTypes ControlEvents EventSchema ControlState ControlReducer ScmReducer ControlApply ControlFrame AttemptLife TaskLife.

(** A session only moves forward: to a later generation, or within its
    generation without coming back from [exited] and without changing task. *)
Definition session_le (r r' : RuntimeFact) : Prop :=
  rf_sessionGeneration r < rf_sessionGeneration r' \/
  rf_sessionGeneration r = rf_sessionGeneration r' /\
  rf_taskId r = rf_taskId r' /\ rf_taskGeneration r = rf_taskGeneration r' /\
  (rf_observation r = obs_exited -> rf_observation r' = obs_exited).

#[export] Instance session_le_preorder : PreOrder session_le.
Proof.
  split.
  - intros r. right. done.
  - intros r1 r2 r3 [H|(H & Ht & Hg & Ho)] [H'|(H' & Ht' & Hg' & Ho')]; [left; lia..|].
    right. repeat split; [lia|congruence|congruence|auto].
Qed.

Definition sessions_le (m m' : obj RuntimeFact) : Prop :=
  forall id r, m !! id = Some r -> exists r', m' !! id = Some r' /\ session_le r r'.

#[export] Instance sessions_le_preorder : PreOrder sessions_le.
Proof.
  split.
  - intros m id r Hr. by exists r.
  - intros m1 m2 m3 H12 H23 id r Hr. destruct (H12 id r Hr) as (r2 & Hr2 & Hle).
    destruct (H23 id r2 Hr2) as (r3 & Hr3 & Hle'). exists r3. split; [done|]. by etransitivity.
Qed.

(** The sessions after [runtime.observed]: the observed session is recorded,
    after a check against its previous fact. *)
Inductive session_effect (seq : Z) (e : ControlEvent) (m : obj RuntimeFact) : obj RuntimeFact -> Prop :=
| session_observed id r :
    rf_sessionId r = id -> rf_updatedSeq r = seq ->
    rf_taskId r = ev_taskId e -> rf_taskGeneration r = ev_taskGeneration e ->
    (forall prior, m !! id = Some prior ->
       session_le prior r /\
       (rf_sessionGeneration prior < rf_sessionGeneration r -> rf_observation prior = obs_exited)) ->
    session_effect seq e m (<[id := r]> m).

Lemma check_runtime_Ok pe prior p u :
  check_runtime pe prior p = Ok u ->
  (rf_sessionGeneration prior < rp_sessionGeneration p /\ rf_observation prior = obs_exited) \/
  (rf_sessionGeneration prior = rp_sessionGeneration p /\
   rf_taskId prior = ev_taskId (pe_event pe) /\ rf_taskGeneration prior = ev_taskGeneration (pe_event pe) /\
   (rf_observation prior = obs_exited -> rp_observation p = obs_exited)).
Proof.
  unfold check_runtime. intros H. apply bind_Ok in H as ([] & H1 & H). apply bind_Ok in H as ([] & H2 & H).
  apply ensure_Ok in H1, H2. guards.
  destruct (Z.eqb_spec (rp_sessionGeneration p) (rf_sessionGeneration prior)) as [E|E].
  - right. run. guards. split; [done|]. split; [done|]. split; [done|].
    intros Hx. rewrite Hx in *. destruct Hrun; congruence.
  - left. split; [lia|]. destruct H2 as [?|?]; [lia|done].
Qed.

Lemma sessions_effect {D : Digest} s pe s' :
  applyControlEvent s pe = Ok s' ->
  c_runtimes s' = c_runtimes s \/ session_effect pe.(pe_seq) pe.(pe_event) (c_runtimes s) (c_runtimes s').
Proof.
  intros H. destruct (decide (component_of pe.(pe_event).(ev_payload) = comp_runtimes)) as [Hc|Hc].
  2: { apply applyControlEvent_frame in H. cbn in H. left. by apply H. }
  apply applyControlEvent_Ok in H as (u & agg & st & _ & _ & _ & _ & _ & _ & Hon & ->).
  right. change (c_runtimes (advance pe agg st)) with (c_runtimes st). unfold on_event in Hon.
  destruct (ev_payload (pe_event pe)); try discriminate Hc.
  unfold on_runtime_observed in Hon. apply bind_Ok in Hon as (? & _ & Hon).
  apply bind_Ok in Hon as (? & Hcheck & Hon). injection Hon as <-.
  constructor; try done. intros prior Hprior. apply obj_get_Own in Hprior. rewrite Hprior in Hcheck.
  apply check_runtime_Ok in Hcheck as [[Hlt Hx]|(Heq & Ht & Hg & Ho)]; cbn.
  - split; [by left|done].
  - split; [right; done|]. cbn. lia.
Qed.

Lemma session_effect_le seq e m m' : session_effect seq e m m' -> sessions_le m m'.
Proof.
  destruct 1 as [id r Hid Hupd Ht Hg Hprior]. intros i q Hq.
  destruct (decide (i = id)) as [->|Hne].
  - exists r. rewrite lookup_insert_eq. split; [done|]. by apply Hprior.
  - exists q. by rewrite lookup_insert_ne.
Qed.

Lemma applied_sessions_le {D : Digest} s pe s' :
  applyControlEvent s pe = Ok s' -> sessions_le (c_runtimes s) (c_runtimes s').
Proof. intros H. apply sessions_effect in H as [->|H]; [done|]. by eapply session_effect_le. Qed.

Definition sessions_wf (head : Z) (m : obj RuntimeFact) : Prop :=
  forall id r, m !! id = Some r -> rf_sessionId r = id /\ rf_updatedSeq r <= head.

Lemma session_effect_wf seq e m m' : sessions_wf (seq - 1) m -> session_effect seq e m m' -> sessions_wf seq m'.
Proof.
  intros Hwf [id r Hid Hupd _ _ _] i q [[<- <-]|[_ Hq]]%lookup_insert_Some; [split; [done|lia]|].
  apply Hwf in Hq as [? ?]. split; [done|lia].
Qed.

(** * Targets

    A session generation assigned to a task generation. Later events may move
    the session or the task to a later generation; they cannot re-assign the
    session generation. *)
Record target_ok (s : ControlProjection) (session : string) (sessionGeneration : Z) (task : string) (taskGeneration : Z) : Prop := {
  target_session : exists r, c_runtimes s !! session = Some r /\ sessionGeneration <= rf_sessionGeneration r /\
    (rf_sessionGeneration r = sessionGeneration -> rf_taskId r = Some task /\ rf_taskGeneration r = Some taskGeneration);
  target_task : exists t, c_tasks s !! task = Some t /\ taskGeneration <= tf_generation t
}.

Lemma target_ok_mono s s' session sg task tg :
  sessions_le (c_runtimes s) (c_runtimes s') -> tasks_le (c_tasks s) (c_tasks s') ->
  target_ok s session sg task tg -> target_ok s' session sg task tg.
Proof.
  intros Hs Ht [(r & Hr & Hle & Heq) (t & Htk & Hg)]. split.
  - destruct (Hs _ _ Hr) as (r' & Hr' & [Hlt|(Hg' & Ht1 & Hg1 & _)]); exists r'; (split; [done|]).
    + split; [lia|]. lia.
    + split; [lia|]. rewrite <-Hg', <-Ht1, <-Hg1. done.
  - destruct (Ht _ _ Htk) as (t' & Ht' & _ & [Hlt|(He & _)]); exists t'; cbn in *; (split; [done|lia]).
Qed.

Lemma target_ok_checked s session sg task tg t r :
  assertTask s task tg = Ok t -> assertSession s session sg = Ok r -> session_assigned r task tg = true ->
  target_ok s session sg task tg.
Proof.
  intros [Ht Hg]%assertTask_Ok [Hr Hs]%assertSession_Ok [Hrt Hrg]%session_assigned_spec. split.
  - exists r. split; [done|]. split; [lia|done].
  - exists t. split; [done|lia].
Qed.

Lemma applied_target_ok {D : Digest} s pe s' session sg task tg :
  applyControlEvent s pe = Ok s' -> target_ok s session sg task tg -> target_ok s' session sg task tg.
Proof. intros H. apply target_ok_mono; [by eapply applied_sessions_le|by eapply applied_tasks_le]. Qed.
