(* ===== verification/CommandLife.v ===== *)
(** CommandLife: the life of a steering command in the control projection
    (the [steering.*] cases of src/control/reducer.ts). *)
From S2P Require Import Prelude Text Json Ids ScmTypes ControlEvents EventSchema ControlState ControlReducer ScmReducer ControlApply ControlFrame AttemptLife TaskLife SessionLife.

(** * Attempts keep their identity *)

Definition attempts_le (m m' : obj AttemptFact) : Prop :=
  forall id a, m !! id = Some a -> exists a', m' !! id = Some a' /\ attempt_identity a' = attempt_identity a.

#[export] Instance attempts_le_preorder : PreOrder attempts_le.
Proof.
  split.
  - intros m id a Ha. by exists a.
  - intros m1 m2 m3 H12 H23 id a Ha. destruct (H12 id a Ha) as (a2 & Ha2 & Hi).
    destruct (H23 id a2 Ha2) as (a3 & Ha3 & Hi'). exists a3. split; [done|congruence].
Qed.

Lemma applied_attempts_le {D : Digest} s pe s' :
  applyControlEvent s pe = Ok s' -> attempts_le (c_attempts s) (c_attempts s').
Proof.
  intros H. apply attempts_effect in H as [->|H]; [done|]. intros i b Hb. destruct H as [id a|id a a' Ha Hi].
  - exists b. rewrite lookup_insert_ne by congruence. done.
  - destruct (decide (i = id)) as [->|Hne].
    + exists a'. rewrite lookup_insert_eq. split; [done|]. congruence.
    + exists b. by rewrite lookup_insert_ne.
Qed.

(** * Commands *)

(** What a command keeps from its first event on. *)
Definition command_identity (f : SteeringFact) :=
  (f.(sf_commandId), (f.(sf_sessionId), f.(sf_sessionGeneration)), (f.(sf_taskId), f.(sf_taskGeneration)),
   f.(sf_bodySha256), f.(sf_admittedSeq), f.(sf_notBeforeAttemptGeneration), f.(sf_kind), f.(sf_sourceKind),
   (f.(sf_parentPrincipal), f.(sf_evidenceRefs), f.(sf_body), f.(sf_createdAt), f.(sf_expiresAt)),
   f.(sf_supersedesCommandId)).

(** The prompt a command was included in: an attempt that lists it. *)
Definition included_in (m : obj AttemptFact) (f : SteeringFact) : Prop :=
  exists id a, m !! id = Some a /\ f.(sf_attemptId) = Some (af_attemptId a) /\
    f.(sf_attemptGeneration) = Some (af_attemptGeneration a) /\
    f.(sf_promptSha256) = af_promptSha256 a /\ isSome f.(sf_promptSha256) = true /\
    f.(sf_commandId) ∈ af_steeringCommandIds a.

Inductive command_effect (seq : Z) (s : ControlProjection) : obj SteeringFact -> Prop :=
| command_admitted id f :
    c_steering s !! id = None -> sf_commandId f = id -> sf_status f = st_pending ->
    sf_admittedSeq f = Some seq -> sf_terminalSeq f = None ->
    target_ok s (sf_sessionId f) (sf_sessionGeneration f) (sf_taskId f) (sf_taskGeneration f) ->
    command_effect seq s (<[id := f]> (c_steering s))
| command_refused id f :
    c_steering s !! id = None -> sf_commandId f = id -> sf_status f = st_refused ->
    sf_admittedSeq f = None -> sf_terminalSeq f = Some seq ->
    command_effect seq s (<[id := f]> (c_steering s))
| command_closed id f f' :
    c_steering s !! id = Some f -> sf_status f = st_pending ->
    command_identity f' = command_identity f ->
    sf_status f' <> st_pending -> sf_terminalSeq f' = Some seq ->
    (sf_status f' = st_included -> included_in (c_attempts s) f') ->
    command_effect seq s (<[id := f']> (c_steering s)).

Lemma pending_command_Ok s id f :
  pending_command s id = Ok f -> c_steering s !! id = Some f /\ sf_status f = st_pending.
Proof.
  unfold pending_command. destruct (obj_get _ _) as [| |b] eqn:E; try discriminate.
  apply obj_get_Own in E. case_bool_decide; [|discriminate]. by intros [= <-].
Qed.

Section refinement.
Context {D : Digest}.
Variable pe : PersistedControlEvent.
Implicit Types s : ControlProjection.

Lemma admitted_effect s p t g s' :
  on_steering_admitted pe s p t g = Ok s' -> command_effect pe.(pe_seq) s (c_steering s').
Proof.
  unfold on_steering_admitted. intros H. run. subst s'. apply negb_true_iff, present_false in Hrun2 as [? _].
  apply command_admitted; cbn; auto. by eapply target_ok_checked.
Qed.

Lemma refused_effect s p t g s' :
  on_steering_refused pe s p t g = Ok s' -> command_effect pe.(pe_seq) s (c_steering s').
Proof.
  unfold on_steering_refused. intros H. run. subst s'. apply negb_true_iff, present_false in Hrun as [? _].
  by apply command_refused; cbn.
Qed.

Lemma terminal_refused_effect s p t g s' :
  on_steering_terminal_refused pe s p t g = Ok s' -> command_effect pe.(pe_seq) s (c_steering s').
Proof.
  unfold on_steering_terminal_refused. intros H. run. subst s'. apply pending_command_Ok in Hrun as [? ?].
  by eapply command_closed; cbn; eauto.
Qed.

Lemma included_effect s p s' :
  on_steering_included pe s p = Ok s' -> command_effect pe.(pe_seq) s (c_steering s').
Proof.
  unfold on_steering_included. intros H. apply bind_Ok in H as (f & Hf & H). apply bind_Ok in H as (a & Ha & H).
  apply pending_command_Ok in Hf as [? ?]. run. subst s'. simplify_eq. apply obj_get_Own in Hcase. guards.
  eapply command_closed; cbn; eauto. intros _. exists (sip_attemptId p), a. cbn.
  repeat split; try done. match goal with E : af_promptSha256 a = Some _ |- _ => by rewrite E end.
Qed.

Lemma closed_effect s id st by_ s' :
  st <> st_pending -> st <> st_included ->
  on_steering_closed pe s id st by_ = Ok s' -> command_effect pe.(pe_seq) s (c_steering s').
Proof.
  unfold on_steering_closed. intros ? ? H. run. subst s'. apply pending_command_Ok in Hrun as [? ?].
  by eapply command_closed; cbn; eauto.
Qed.

Lemma commands_effect s s' :
  applyControlEvent s pe = Ok s' ->
  c_steering s' = c_steering s \/ command_effect pe.(pe_seq) s (c_steering s').
Proof.
  intros H. destruct (decide (component_of pe.(pe_event).(ev_payload) = comp_steering)) as [Hc|Hc].
  2: { apply applyControlEvent_frame in H. cbn in H. left. by apply H. }
  apply applyControlEvent_Ok in H as (u & agg & st & _ & _ & _ & _ & _ & _ & Hon & ->).
  right. change (c_steering (advance pe agg st)) with (c_steering st). unfold on_event in Hon.
  destruct (ev_payload (pe_event pe)); try discriminate Hc.
  - run. by eapply admitted_effect.
  - run. by eapply refused_effect.
  - run. by eapply terminal_refused_effect.
  - by eapply included_effect.
  - by eapply closed_effect; [| |exact Hon].
  - by eapply closed_effect; [| |exact Hon].
  - by eapply closed_effect; [| |exact Hon].
Qed.
End refinement.

(** * Histories of commands *)

(** A command that has an outcome keeps it, the whole fact unchanged. *)
Definition commands_le (m m' : obj SteeringFact) : Prop :=
  forall id f, m !! id = Some f ->
  exists f', m' !! id = Some f' /\ command_identity f' = command_identity f /\ (sf_status f <> st_pending -> f' = f).

#[export] Instance commands_le_preorder : PreOrder commands_le.
Proof.
  split.
  - intros m id f Hf. by exists f.
  - intros m1 m2 m3 H12 H23 id f Hf. destruct (H12 id f Hf) as (f2 & Hf2 & Hi & He).
    destruct (H23 id f2 Hf2) as (f3 & Hf3 & Hi' & He'). exists f3. split; [done|]. split; [congruence|].
    intros Hp. specialize (He Hp) as ->. auto.
Qed.

Lemma command_effect_le seq s m : command_effect seq s m -> commands_le (c_steering s) m.
Proof.
  intros H i g Hg. destruct H as [id f Hn|id f Hn|id f f' Hf Hp Hi].
  - exists g. rewrite lookup_insert_ne by congruence. done.
  - exists g. rewrite lookup_insert_ne by congruence. done.
  - destruct (decide (i = id)) as [->|Hne].
    + exists f'. rewrite lookup_insert_eq. assert (g = f) as -> by congruence. split; [done|]. split; [exact Hi|]. done.
    + exists g. by rewrite lookup_insert_ne.
Qed.

Lemma applied_commands_le {D : Digest} s pe s' :
  applyControlEvent s pe = Ok s' -> commands_le (c_steering s) (c_steering s').
Proof. intros H. apply commands_effect in H as [->|H]; [done|]. by eapply command_effect_le. Qed.

(** The facts of a command agree with its status. *)
Definition command_wf (head : Z) (id : string) (f : SteeringFact) : Prop :=
  sf_commandId f = id /\
  (sf_status f = st_pending <-> sf_terminalSeq f = None) /\
  (sf_admittedSeq f = None -> sf_status f = st_refused) /\
  (forall a, sf_admittedSeq f = Some a -> 1 <= a <= head) /\
  (forall t, sf_terminalSeq f = Some t -> 1 <= t <= head /\ forall a, sf_admittedSeq f = Some a -> a < t).

(** A reachable projection: every command is well formed, an admitted one was
    aimed at a session of its task, an included one is in its prompt. *)
Record commands_wf (s : ControlProjection) : Prop := {
  commands_facts id f : c_steering s !! id = Some f -> command_wf (c_headSeq s) id f;
  commands_targets id f : c_steering s !! id = Some f -> isSome (sf_admittedSeq f) = true ->
    target_ok s (sf_sessionId f) (sf_sessionGeneration f) (sf_taskId f) (sf_taskGeneration f);
  commands_included id f : c_steering s !! id = Some f -> sf_status f = st_included -> included_in (c_attempts s) f
}.

Lemma command_wf_mono head head' id f : head <= head' -> command_wf head id f -> command_wf head' id f.
Proof.
  intros Hh (Hid & Hp & Hr & Ha & Ht). repeat split; auto.
  - apply Hp.
  - apply Hp.
  - by apply Ha.
  - specialize (Ha _ H). lia.
  - apply (Ht _ H).
  - apply Ht in H. lia.
  - by apply Ht.
Qed.

Lemma included_in_mono m m' f : attempts_le m m' -> included_in m f -> included_in m' f.
Proof.
  intros Hle (id & a & Ha & Hid & Hg & Hsha & Hs & Hin). destruct (Hle _ _ Ha) as (a' & Ha' & Hi).
  exists id, a'. unfold attempt_identity in Hi. split; [done|]. simplify_eq. repeat split; congruence.
Qed.

Lemma command_closed_wf seq id f f' :
  command_wf (seq - 1) id f -> sf_status f = st_pending -> command_identity f' = command_identity f ->
  sf_status f' <> st_pending -> sf_terminalSeq f' = Some seq -> 1 <= seq -> command_wf seq id f'.
Proof.
  intros (Hid & Hp & Hr & Ha & Ht) Hpend Hi Hst Hterm Hseq.
  assert (sf_admittedSeq f' = sf_admittedSeq f /\ sf_commandId f' = sf_commandId f) as [Hadm Hcid]
    by (unfold command_identity in Hi; split; congruence).
  unfold command_wf. rewrite Hadm, Hcid, Hterm.
  split; [done|]. split; [split; congruence|]. split; [intros Hn; apply Hr in Hn; congruence|].
  split; [intros a E; apply Ha in E; lia|].
  intros t [= <-]. split; [lia|]. intros a E. apply Ha in E. lia.
Qed.

Lemma command_effect_facts seq s m :
  1 <= seq -> (forall id f, c_steering s !! id = Some f -> command_wf (seq - 1) id f) ->
  command_effect seq s m -> forall id f, m !! id = Some f -> command_wf seq id f.
Proof.
  intros Hseq Hwf Heff i g Hg.
  assert (forall f, c_steering s !! i = Some f -> command_wf seq i f) as Hold.
  { intros f Hf. eapply command_wf_mono; [|by apply Hwf]. lia. }
  destruct Heff as [id f Hn Hid Hst Hadm Hterm Ht|id f Hn Hid Hst Hadm Hterm|id f f' Hf Hp Hi Hst Hterm Hinc];
    apply lookup_insert_Some in Hg as [[<- <-]|[_ Hg]]; auto.
  - unfold command_wf. rewrite Hst, Hadm, Hterm. split; [done|]. split; [done|]. split; [done|].
    split; [intros a [= <-]; lia|done].
  - unfold command_wf. rewrite Hst, Hadm, Hterm. split; [done|]. split; [done|]. split; [done|].
    split; [done|]. intros t [= <-]. split; [lia|done].
  - eapply command_closed_wf; eauto.
Qed.

Lemma applied_commands_wf {D : Digest} s pe s' :
  0 <= c_headSeq s -> commands_wf s -> applyControlEvent s pe = Ok s' -> commands_wf s'.
Proof.
  intros Hhead [Hf Ht Hi] H.
  pose proof (applied_attempts_le _ _ _ H) as Hatt.
  assert (pe_seq pe = c_headSeq s + 1) as Hseq
    by (apply applyControlEvent_Ok in H; destruct H as (? & ? & ? & ?); tauto).
  assert (c_headSeq s' = c_headSeq s + 1) as Hhead' by (apply applyControlEvent_frame in H; apply H).
  assert (forall a b c d, target_ok s a b c d -> target_ok s' a b c d) as Htarget
    by (intros *; by eapply applied_target_ok).
  apply commands_effect in H as [Heq|Heff].
  - rewrite <-Heq in *. split; rewrite ?Hhead'; eauto.
    + intros id f Hg. eapply command_wf_mono; [|by apply Hf]. lia.
    + intros id f Hg Hinc. eapply included_in_mono; eauto.
  - split.
    + rewrite Hhead', <-Hseq. apply (command_effect_facts _ s); [lia| |done].
      rewrite Hseq. by replace (c_headSeq s + 1 - 1) with (c_headSeq s) by lia.
    + intros i g Hg Hadm. destruct Heff as [id f|id f|id f f' Hlk Hp Hid];
        apply lookup_insert_Some in Hg as [[<- <-]|[_ Hg]]; eauto.
      * by rewrite H2 in Hadm.
      * unfold command_identity in Hid. simplify_eq.
        assert (target_ok s (sf_sessionId f) (sf_sessionGeneration f) (sf_taskId f) (sf_taskGeneration f)) as Hto
          by (eapply Ht; [done|congruence]).
        apply Htarget in Hto. congruence.
    + intros i g Hg Hinc. eapply included_in_mono; [done|]. destruct Heff as [id f|id f|id f f' Hlk Hp Hid];
        apply lookup_insert_Some in Hg as [[<- <-]|[_ Hg]]; eauto; congruence.
Qed.
