(* ===== verification/RunLife.v ===== *)
(** RunLife: the life of a run in the control projection, and the version fence
    every accepted event has passed. *)
From S2P Require Import Prelude Text Json Ids ScmTypes ControlEvents EventSchema ControlState ControlReducer ScmReducer ControlApply ControlFrame AttemptLife TaskLife.

(** A checkpoint supersedes another of the same loop: no counter goes back, and
    nothing supersedes a checkpoint that is not running. *)
Definition checkpoint_le (c c' : LoopCheckpointFact) : Prop :=
  c' = c \/
  cp_status c = loop_running /\
  cp_project c' = cp_project c /\ cp_startedAt c' = cp_startedAt c /\
  cp_iteration c <= cp_iteration c' /\ cp_dispatched c <= cp_dispatched c' /\
  cp_accepted c <= cp_accepted c' /\ cp_rejected c <= cp_rejected c' /\
  cp_escalations c <= cp_escalations c' /\ cp_unknownCostCalls c <= cp_unknownCostCalls c' /\
  time_lt (Date_parse (cp_updatedAt c')) (Date_parse (cp_updatedAt c)) = false.

(** A checkpoint that was accepted agrees with itself. *)
Definition checkpoint_wf (c : LoopCheckpointFact) : Prop :=
  cp_accepted c <= cp_dispatched c /\ cp_escalations c <= cp_dispatched c /\
  (cp_status c = loop_done -> cp_phase c = phase_complete) /\
  (cp_status c = loop_cancelled -> cp_phase c = phase_cancelled) /\
  (cp_status c = loop_stopped -> cp_phase c = phase_stopped) /\
  time_lt (Date_parse (cp_updatedAt c)) (Date_parse (cp_startedAt c)) = false.

Lemma assertCheckpoint_Ok previous next u :
  assertCheckpoint previous next = Ok u ->
  checkpoint_wf next /\ forall c, previous = Some c -> checkpoint_le c next.
Proof.
  unfold assertCheckpoint. intros H.
  apply bind_Ok in H as ([] & Ht & H). apply bind_Ok in H as ([] & Hc & H). apply bind_Ok in H as ([] & Hp & H).
  apply ensure_Ok in Ht, Hc, Hp. guards. split.
  - unfold checkpoint_wf. repeat split; try lia; try done;
      repeat match goal with
      | H : _ \/ _ |- _ => destruct H as [H|H]
      | H : negb _ = false |- _ => apply negb_false_iff, bool_decide_eq_true in H
      | H : bool_decide _ = false |- _ => apply bool_decide_eq_false in H
      end; intros; try congruence.
  - intros c ->. run. guards. right. repeat split; try congruence; try lia; done.
Qed.

(** The run only moves forward, and its outcome is final. *)
Definition run_le (r r' : RunFact) : Prop :=
  r' = r \/
  rn_status r = run_started_status /\
  (rn_startedBy r', rn_goal r', rn_configDigest r', rn_startedAt r') =
  (rn_startedBy r, rn_goal r, rn_configDigest r, rn_startedAt r) /\
  (forall c, rn_checkpoint r = Some c -> exists c', rn_checkpoint r' = Some c' /\ checkpoint_le c c').

(** The same, over any number of steps. *)
Definition counters (c : LoopCheckpointFact) : list Z :=
  [cp_iteration c; cp_dispatched c; cp_accepted c; cp_rejected c; cp_escalations c; cp_unknownCostCalls c].

Definition checkpoint_progress (c c' : LoopCheckpointFact) : Prop :=
  cp_project c' = cp_project c /\ cp_startedAt c' = cp_startedAt c /\
  Forall2 Z.le (counters c) (counters c') /\ (cp_status c <> loop_running -> c' = c).

Record run_progress (r r' : RunFact) : Prop := {
  progress_final : rn_status r <> run_started_status -> r' = r;
  progress_identity : (rn_startedBy r', rn_goal r', rn_configDigest r', rn_startedAt r') =
    (rn_startedBy r, rn_goal r, rn_configDigest r, rn_startedAt r);
  progress_checkpoint c : rn_checkpoint r = Some c -> exists c', rn_checkpoint r' = Some c' /\ checkpoint_progress c c'
}.

#[export] Instance checkpoint_progress_preorder : PreOrder checkpoint_progress.
Proof.
  split.
  - intros c. split; [done|]. split; [done|]. split; [reflexivity|done].
  - intros c1 c2 c3 (Hp & Hs & Hc & Hf) (Hp' & Hs' & Hc' & Hf'). split; [congruence|]. split; [congruence|].
    split; [by etransitivity|]. intros Hne. specialize (Hf Hne) as ->. auto.
Qed.

#[export] Instance run_progress_preorder : PreOrder run_progress.
Proof.
  split.
  - intros r. split; [done|done|]. intros c Hc. by exists c.
  - intros r1 r2 r3 [Hf Hi Hc] [Hf' Hi' Hc']. split.
    + intros Hne. specialize (Hf Hne) as ->. auto.
    + congruence.
    + intros c (c2 & Hc2 & Hle)%Hc. destruct (Hc' _ Hc2) as (c3 & Hc3 & Hle'). exists c3. split; [done|].
      by etransitivity.
Qed.

Lemma checkpoint_le_progress c c' : checkpoint_le c c' -> checkpoint_progress c c'.
Proof.
  intros [->|(Hs & Hp & Ht & ?)]; [done|]. split; [done|]. split; [done|]. split; [|done].
  unfold counters. repeat constructor; tauto.
Qed.

Lemma run_le_progress r r' : run_le r r' -> run_progress r r'.
Proof.
  intros [->|(Hs & Hi & Hc)]; [done|]. split; [done|done|].
  intros c (c' & Hc' & Hle)%Hc. exists c'. split; [done|]. by apply checkpoint_le_progress.
Qed.

(** The run of a projection: well formed, and filed consistently. *)
Definition run_wf (r : RunFact) : Prop :=
  (rn_status r = run_started_status <-> rn_terminalAt r = None) /\
  (forall c, rn_checkpoint r = Some c -> checkpoint_wf c /\ cp_startedAt c = rn_startedAt r).

Inductive run_effect : option RunFact -> option RunFact -> Prop :=
| run_effect_start r :
    rn_status r = run_started_status -> rn_checkpoint r = None -> rn_terminalAt r = None -> run_effect None (Some r)
| run_effect_step r r' : run_le r r' -> (run_wf r -> run_wf r') -> run_effect (Some r) (Some r').

Section refinement.
Context {D : Digest}.
Variable pe : PersistedControlEvent.
Implicit Types s : ControlProjection.

Lemma started_run_Ok s r : started_run s = Ok r -> c_run s = Some r /\ rn_status r = run_started_status.
Proof.
  unfold started_run. destruct (c_run s) as [q|]; [|discriminate]. case_bool_decide; [|discriminate].
  by intros [= <-].
Qed.

Lemma end_run_effect s st rc cb sm s' :
  st <> run_started_status -> end_run pe s st rc cb sm = Ok s' -> run_effect (c_run s) (c_run s').
Proof.
  unfold end_run. intros Hst H. run. subst s'. apply started_run_Ok in Hrun as [-> Hs]. cbn. constructor.
  - right. split; [done|]. split; [done|]. cbn. intros c Hc. exists c. split; [done|]. by left.
  - intros [_ Hc]. split; cbn; [split; [congruence|discriminate]|done].
Qed.

Lemma checkpointed_effect s p s' : on_run_checkpointed pe s p = Ok s' -> run_effect (c_run s) (c_run s').
Proof.
  unfold on_run_checkpointed. intros H. apply bind_Ok in H as (r & Hr & H). apply bind_Ok in H as ([] & He & H).
  apply bind_Ok in H as (u & Hcp & H). injection H as <-. apply started_run_Ok in Hr as [-> Hs].
  apply ensure_Ok, bool_decide_eq_true in He. apply assertCheckpoint_Ok in Hcp as [Hwf Hle]. cbn. constructor.
  - right. split; [done|]. split; [done|]. cbn. intros c Hc. exists p. split; [done|]. by apply Hle.
  - intros [Ht Hc]. split; cbn; [done|]. by intros c [= <-].
Qed.

Lemma run_effects s s' :
  applyControlEvent s pe = Ok s' -> c_run s' = c_run s \/ run_effect (c_run s) (c_run s').
Proof.
  intros H. destruct (decide (component_of pe.(pe_event).(ev_payload) = comp_run)) as [Hc|Hc].
  2: { apply applyControlEvent_frame in H. cbn in H. left. by apply H. }
  apply applyControlEvent_Ok in H as (u & agg & st & _ & _ & _ & _ & _ & _ & Hon & ->).
  right. change (c_run (advance pe agg st)) with (c_run st). unfold on_event in Hon.
  destruct (ev_payload (pe_event pe)); try discriminate Hc.
  - unfold on_run_started in Hon. run. subst st. cbn. destruct (c_run s); [done|]. by constructor.
  - unfold on_run_completed, on_run_failed, on_run_cancelled in Hon. by eapply end_run_effect; [|exact Hon].
  - unfold on_run_completed, on_run_failed, on_run_cancelled in Hon. by eapply end_run_effect; [|exact Hon].
  - unfold on_run_completed, on_run_failed, on_run_cancelled in Hon. by eapply end_run_effect; [|exact Hon].
  - by eapply checkpointed_effect.
Qed.
End refinement.

(** A run that has ended is not touched again. *)
Lemma applied_run_final {D : Digest} s pe s' r :
  c_run s = Some r -> rn_status r <> run_started_status -> applyControlEvent s pe = Ok s' -> c_run s' = Some r.
Proof.
  intros Hr Hst H. apply run_effects in H as [->|H]; [done|]. rewrite Hr in H. inversion H as [|? r' Hle]; subst.
  by destruct Hle as [->|(? & _)].
Qed.

Lemma applied_run_le {D : Digest} s pe s' r :
  c_run s = Some r -> applyControlEvent s pe = Ok s' -> exists r', c_run s' = Some r' /\ run_le r r'.
Proof.
  intros Hr H. apply run_effects in H as [->|H]; [exists r; split; [done|by left]|].
  rewrite Hr in H. inversion H as [|? r' Hle]; subst. eauto.
Qed.

Lemma applied_run_wf {D : Digest} s pe s' :
  (forall r, c_run s = Some r -> run_wf r) -> applyControlEvent s pe = Ok s' -> forall r, c_run s' = Some r -> run_wf r.
Proof.
  intros Hwf H r Hr. apply run_effects in H as [E|H]; [rewrite E in Hr; auto|].
  destruct H as [q Hs Hc Ht|q q' Hle Hq]; injection Hr as <-; [|auto].
  split; [done|]. intros c. rewrite Hc. discriminate.
Qed.

(** The key of the aggregate an event belongs to. *)
Definition event_key (pe : PersistedControlEvent) : option string :=
  match aggregateForEvent pe.(pe_event) with Ok a => Some (agg_key a) | Err _ => None end.

(** How many events of a history belong to an aggregate. *)
Definition events_of (key : string) (events : list PersistedControlEvent) : Z :=
  Z.of_nat (length (List.filter (fun pe => bool_decide (event_key pe = Some key)) events)).

Lemma events_of_snoc key events pe :
  events_of key (events ++ [pe]) = events_of key events + (if bool_decide (event_key pe = Some key) then 1 else 0).
Proof.
  unfold events_of. rewrite List.filter_app, length_app. cbn. case_bool_decide; cbn; lia.
Qed.

(** The aggregate of the new generation, which reopening a task resets. *)
Definition reopened_key (pe : PersistedControlEvent) : option string :=
  match pe.(pe_event).(ev_payload), pe.(pe_event).(ev_taskId) with
  | task_reopened p, Some taskId => Some (aggregate_key agg_task taskId p.(trp_newGeneration))
  | _, _ => None
  end.

Section versions.
Context {D : Digest}.
Implicit Types s : ControlProjection.

Lemma on_event_versions pe s st :
  (forall id t, c_tasks s !! id = Some t -> tf_id t = id) ->
  on_event pe s = Ok st ->
  forall key, aggregate_version st key = if bool_decide (reopened_key pe = Some key) then 0 else aggregate_version s key.
Proof.
  intros Hkeyed H key. rewrite !aggregate_version_lookup.
  destruct (decide (component_of pe.(pe_event).(ev_payload) = comp_reopen)) as [Hc|Hc].
  - unfold on_event in H. unfold reopened_key. destruct (ev_payload (pe_event pe)); try discriminate Hc.
    run. unfold on_task_reopened in H. cbv zeta in H. run. subst st. cbn.
    apply assertTask_Ok in Hrun as [Htask <-]. rewrite (Hkeyed _ _ Htask).
    case_bool_decide as Hk.
    + injection Hk as <-. by rewrite lookup_insert_eq.
    + rewrite lookup_insert_ne; [done|congruence].
  - assert (c_aggregateVersions st = c_aggregateVersions s) as ->.
    { apply on_event_frame in H. destruct (component_of _); cbn in H; try done; destruct H as [? ->]; done. }
    rewrite bool_decide_eq_false_2; [done|]. unfold reopened_key. destruct (ev_payload (pe_event pe)); done.
Qed.

(** An accepted event carries the version of its aggregate, which then counts
    one more; no other aggregate changes, but for the one a reopened task starts. *)
Lemma applied_versions s pe s' :
  (forall id t, c_tasks s !! id = Some t -> tf_id t = id) ->
  applyControlEvent s pe = Ok s' ->
  exists key, event_key pe = Some key /\ pe.(pe_event).(ev_expectedVersion) = aggregate_version s key /\
  forall k, aggregate_version s' k =
    if bool_decide (k = key) then aggregate_version s key + 1
    else if bool_decide (reopened_key pe = Some k) then 0 else aggregate_version s k.
Proof.
  intros Hkeyed (u & agg & st & _ & Hagg & _ & _ & _ & Hver & Hon & ->)%applyControlEvent_Ok.
  exists (agg_key agg). unfold event_key. rewrite Hagg. split; [done|]. split; [done|].
  intros k. rewrite <-(on_event_versions _ _ _ Hkeyed Hon k). rewrite !aggregate_version_lookup. cbn.
  case_bool_decide as Hk.
  - subst k. rewrite lookup_insert_eq. cbn. rewrite Hver. by rewrite aggregate_version_lookup.
  - by rewrite lookup_insert_ne.
Qed.

Lemma applied_keyed s pe s' :
  (forall id t, c_tasks s !! id = Some t -> tf_id t = id) ->
  applyControlEvent s pe = Ok s' -> forall id t, c_tasks s' !! id = Some t -> tf_id t = id.
Proof.
  intros Hk H. apply tasks_effect in H as [->|H]; [done|].
  intros id t Ht. destruct H as [i u Hn Hi|i u u' Hu Hi]; apply lookup_insert_Some in Ht as [[<- <-]|[_ Ht]]; eauto.
  rewrite <-(Hk _ _ Hu). unfold task_identity in Hi. congruence.
Qed.

Lemma reachable_keyed runId runEpoch events s :
  reduceControlEvents runId runEpoch events None = Ok s -> forall id t, c_tasks s !! id = Some t -> tf_id t = id.
Proof.
  apply (reduce_invariant (fun s => forall id t, c_tasks s !! id = Some t -> tf_id t = id)).
  - intros id t. cbn. by rewrite lookup_empty.
  - intros *. apply applied_keyed.
Qed.

Lemma reopened_key_task pe key : reopened_key pe = Some key -> exists id g, key = aggregate_key agg_task id g.
Proof.
  unfold reopened_key. destruct (ev_payload (pe_event pe)); try done.
  destruct (ev_taskId (pe_event pe)); [|done]. intros [= <-]. eauto.
Qed.

(** The version of a run or session aggregate counts its events. *)
Lemma version_counts runId runEpoch events s key :
  (forall id g, key <> aggregate_key agg_task id g) ->
  reduceControlEvents runId runEpoch events None = Ok s -> aggregate_version s key = events_of key events.
Proof.
  intros Hkind. revert s. induction events as [|pe events IH] using rev_ind; intros s H.
  - injection H as <-. rewrite aggregate_version_lookup. done.
  - rewrite reduceControlEvents_snoc in H. apply bind_Ok in H as (s0 & H0 & H).
    specialize (IH _ H0). rewrite events_of_snoc.
    apply applied_versions in H as (k & Hk & _ & Hv); [|by eapply reachable_keyed].
    rewrite Hv, Hk, IH. clear Hv. case_bool_decide as E.
    + subst k. rewrite bool_decide_eq_true_2 by done. by rewrite IH.
    + rewrite (bool_decide_eq_false_2 (Some k = Some key)) by congruence.
      rewrite bool_decide_eq_false_2; [lia|]. intros Hr. apply reopened_key_task in Hr as (id & g & ->). by eapply Hkind.
Qed.

(** The version of a task generation never exceeds the number of its events. *)
Lemma version_bounded runId runEpoch events s key :
  reduceControlEvents runId runEpoch events None = Ok s -> 0 <= aggregate_version s key <= events_of key events.
Proof.
  revert s. induction events as [|pe events IH] using rev_ind; intros s H.
  - injection H as <-. rewrite aggregate_version_lookup. done.
  - rewrite reduceControlEvents_snoc in H. apply bind_Ok in H as (s0 & H0 & H).
    specialize (IH _ H0). rewrite events_of_snoc.
    apply applied_versions in H as (k & Hk & _ & Hv); [|by eapply reachable_keyed].
    rewrite Hv, Hk. clear Hv. case_bool_decide as E.
    + subst k. rewrite bool_decide_eq_true_2 by done. lia.
    + rewrite (bool_decide_eq_false_2 (Some k = Some key)) by congruence. case_bool_decide; lia.
Qed.
End versions.
