(* ===== verification/ScmLife.v ===== *)
(** ScmLife: the promises of the [scm.*] facts: what a published pull request,
    an active poll, an accepted observation and a reaction guarantee
    (src/control/reducer.ts). *)
From S2P Require Import Prelude Text Json Ids ScmTypes ControlEvents EventSchema ControlState ControlReducer ScmReducer ControlApply ControlFrame AttemptLife TaskLife SessionLife CommandLife.

(** * Publications *)

Definition publication_identity (f : ScmPublicationFact) :=
  (f.(pf_publicationId), f.(pf_generation), f.(pf_intent), f.(pf_taskId), f.(pf_taskGeneration), f.(pf_createdSeq)).

(** The pull request of a published fact is the intended one. *)
Definition published_as_intended (f : ScmPublicationFact) : Prop :=
  exists pull, pf_pullRequest f = Some pull /\ pull_matches f (pull_identity pull) = true /\
    pull_lifecycle pull = lifecycle_open /\ pull_draft pull = intent_draft (pf_intent f).

Record publication_wf (head : Z) (id : string) (f : ScmPublicationFact) : Prop := {
  publication_keyed : pf_publicationId f = id /\ intent_publicationId (pf_intent f) = id;
  publication_seqs : 1 <= pf_createdSeq f /\ pf_createdSeq f + pf_version f <= pf_updatedSeq f <= head /\ 0 <= pf_version f;
  publication_published : pf_state f = pub_published -> published_as_intended f;
  publication_pull : isSome (pf_pullRequest f) = true ->
    published_as_intended f /\ (pf_state f = pub_published \/ pf_state f = pub_superseded);
  publication_refused : pf_state f = pub_refused -> isSome (pf_reasonCode f) = true
}.

(** One transition of one publication. *)
Inductive publication_step (seq : Z) (f f' : ScmPublicationFact) : Prop :=
| publication_moved :
    publication_identity f' = publication_identity f ->
    scmPublicationTransitions (pf_state f) (pf_state f') = true ->
    pf_version f' = pf_version f + 1 -> pf_updatedSeq f' = seq ->
    (pf_state f' = pub_published -> published_as_intended f') ->
    (pf_state f' <> pub_published -> pf_pullRequest f' = pf_pullRequest f) ->
    (pf_state f' = pub_branch_published -> pf_observedRemoteOid f' = Some (Some (intent_integrationOid (pf_intent f')))) ->
    (pf_state f' = pub_refused -> isSome (pf_reasonCode f') = true) ->
    publication_step seq f f'.

Lemma pull_matches_identity f f' pull : pf_intent f' = pf_intent f -> pull_matches f' pull = pull_matches f pull.
Proof. unfold pull_matches. by intros ->. Qed.

Section publications.
Variable pe : PersistedControlEvent.
Implicit Types s : ControlProjection.

Lemma assertScmPublication_Ok s id g f :
  assertScmPublication s id g = Ok f -> scm_publications (c_scm s) !! id = Some f /\ pf_generation f = g.
Proof.
  unfold assertScmPublication. destruct (obj_get _ _) as [| |q] eqn:E; try discriminate.
  apply obj_get_Own in E. destruct (Z.eqb_spec (pf_generation q) g); [|discriminate]. by intros [= <-].
Qed.

Lemma check_transition_pull_Ok f p u :
  check_transition_pull f p = Ok u ->
  (spc_toState p = pub_published -> exists pull, spc_pullRequest p = Some pull /\ pull_matches f (pull_identity pull) = true /\
     pull_lifecycle pull = lifecycle_open /\ pull_draft pull = intent_draft (pf_intent f)) /\
  (spc_toState p <> pub_published -> spc_pullRequest p = None).
Proof.
  unfold check_transition_pull, assertPullMatchesPublication. case_bool_decide as Hst.
  - intros H. destruct (spc_pullRequest p) as [pull|]; [|discriminate]. run. guards. split; [|done]. intros _.
    exists pull. match goal with E : Bool.eqb _ _ = true |- _ => apply Bool.eqb_prop in E end. done.
  - intros H. run. apply negb_true_iff in H. split; [done|]. intros _. by destruct (spc_pullRequest p).
Qed.

Lemma publication_recorded_effect s p t g s' :
  on_publication_recorded pe s p t g = Ok s' ->
  exists id f, c_scm s' = set_scm_publications (c_scm s) (<[id := f]> (scm_publications (c_scm s))) /\
    scm_publications (c_scm s) !! id = None /\ pf_publicationId f = id /\ intent_publicationId (pf_intent f) = id /\
    pf_state f = pub_unpublished /\ pf_version f = 0 /\ pf_createdSeq f = pe_seq pe /\ pf_updatedSeq f = pe_seq pe /\
    pf_pullRequest f = None /\ intent_runId (pf_intent f) = c_runId s /\ intent_runEpoch (pf_intent f) = c_runEpoch s.
Proof.
  unfold on_publication_recorded. intros H. cbv zeta in H. run. subst s'. guards.
  match goal with E : present _ = false |- _ => apply present_false in E as [? _] end.
  eexists _, _. split; [reflexivity|]. cbn. done.
Qed.

Lemma publication_changed_effect s p t g s' :
  on_publication_state_changed pe s p t g = Ok s' ->
  exists id f f', c_scm s' = set_scm_publications (c_scm s) (<[id := f']> (scm_publications (c_scm s))) /\
    scm_publications (c_scm s) !! id = Some f /\ publication_step (pe_seq pe) f f'.
Proof.
  unfold on_publication_state_changed. intros H.
  apply bind_Ok in H as (tk & _ & H). apply bind_Ok in H as (f & Hf & H). apply bind_Ok in H as ([] & _ & H).
  apply bind_Ok in H as ([] & Hfrom & H). apply bind_Ok in H as ([] & Htr & H). apply bind_Ok in H as ([] & Hoid & H).
  apply bind_Ok in H as (u & Hpull & H). apply bind_Ok in H as ([] & Hreason & H). injection H as <-.
  apply assertScmPublication_Ok in Hf as [Hf _]. apply ensure_Ok in Hfrom, Htr, Hoid, Hreason.
  apply check_transition_pull_Ok in Hpull as [Hpub Hno].
  eexists _, f, _. split; [reflexivity|]. split; [done|]. constructor; cbn; auto.
  - intros Hst. destruct (Hpub Hst) as (pull & -> & ? & ? & ?). exists pull. cbn. done.
  - intros Hst. by rewrite (Hno Hst).
  - intros Hst. rewrite Hst in Hoid. cbn in Hoid. guards.
    destruct Hoid as [Hoid|Hoid]; [done|]. by rewrite Hoid.
  - intros Hst. rewrite Hst in Hreason. cbn in Hreason. by destruct (spc_reasonCode p).
Qed.
End publications.

Lemma published_as_intended_same f f' :
  pf_intent f' = pf_intent f -> pf_pullRequest f' = pf_pullRequest f -> published_as_intended f -> published_as_intended f'.
Proof.
  intros Hi Hp (pull & Hs & Hm & Hl & Hd). exists pull. rewrite Hp, (pull_matches_identity _ _ _ Hi), Hi. done.
Qed.

Lemma publication_step_wf seq id f f' :
  publication_wf (seq - 1) id f -> publication_step seq f f' -> publication_wf seq id f'.
Proof.
  intros [[Hk1 Hk2] Hseq Hpub Hpull Href] [Hi Htr Hv Hu Hp Hnp _ Hr].
  assert (pf_publicationId f' = pf_publicationId f /\ pf_intent f' = pf_intent f /\ pf_createdSeq f' = pf_createdSeq f)
    as (E1 & E2 & E3) by (unfold publication_identity in Hi; split; [|split]; congruence).
  split; rewrite ?E1, ?E2, ?E3; auto; [lia|].
  intros Hs. destruct (decide (pf_state f' = pub_published)) as [E|E]; [auto|].
  specialize (Hnp E). rewrite Hnp in Hs. destruct (Hpull Hs) as [Hint Hst].
  split; [by eapply published_as_intended_same|]. right.
  destruct Hst as [Hst|Hst]; rewrite Hst in Htr; cbn in Htr; [|done].
  apply bool_decide_eq_true in Htr. by apply list_elem_of_singleton in Htr.
Qed.

Lemma publication_wf_mono head head' id f : head <= head' -> publication_wf head id f -> publication_wf head' id f.
Proof. intros Hh [Hk Hs Hp Hq Hr]. split; auto. lia. Qed.

(** * Polls *)

Record polls_wf (m : obj ScmPollFact) : Prop := {
  polls_keyed id q : m !! id = Some q -> pl_pollId q = id;
  (** a publication has at most one poll in flight *)
  polls_exclusive id id' q q' : m !! id = Some q -> m !! id' = Some q' ->
    poll_is_started q = true -> poll_is_started q' = true -> pl_publicationId q = pl_publicationId q' -> id = id';
  (** a poll accepts each kind of bucket once, and only after it completed *)
  polls_accepted id q : m !! id = Some q -> NoDup (pl_acceptedKinds q);
  polls_open id q : m !! id = Some q -> poll_is_started q = true -> pl_acceptedKinds q = [] /\ pl_terminalSeq q = None;
  (** a completed poll stayed within the budget it was started with *)
  polls_budget id q : m !! id = Some q -> pl_state q = poll_completed ->
    exists n b, pl_requestCount q = Some n /\ pl_decodedBytes q = Some b /\
      n <= limits_maxItemsPerEndpoint (pl_limits q) + limits_maxPagesPerEndpoint (pl_limits q) * 16 + 16 /\
      b <= limits_maxDecodedBytesPerPoll (pl_limits q)
}.

(** A poll that is not in flight replaces the facts of one poll. *)
Lemma polls_wf_insert m id q :
  polls_wf m -> pl_pollId q = id -> NoDup (pl_acceptedKinds q) ->
  (poll_is_started q = true -> pl_acceptedKinds q = [] /\ pl_terminalSeq q = None /\
     forall id' q', m !! id' = Some q' -> poll_is_started q' = true -> pl_publicationId q' = pl_publicationId q -> id' = id) ->
  (pl_state q = poll_completed -> exists n b, pl_requestCount q = Some n /\ pl_decodedBytes q = Some b /\
      n <= limits_maxItemsPerEndpoint (pl_limits q) + limits_maxPagesPerEndpoint (pl_limits q) * 16 + 16 /\
      b <= limits_maxDecodedBytesPerPoll (pl_limits q)) ->
  polls_wf (<[id := q]> m).
Proof.
  intros [Hk He Ha Ho Hb] Hid Hnd Hst Hbud. split.
  - intros i r [[<- <-]|[_ Hr]]%lookup_insert_Some; eauto.
  - intros i j r r' [[<- <-]|[_ Hr]]%lookup_insert_Some [[<- <-]|[_ Hr']]%lookup_insert_Some Hs Hs' Hp; eauto.
    + destruct (Hst Hs) as (_ & _ & Hx). by rewrite (Hx _ _ Hr' Hs').
    + destruct (Hst Hs') as (_ & _ & Hx). by rewrite (Hx _ _ Hr Hs).
  - intros i r [[<- <-]|[_ Hr]]%lookup_insert_Some; eauto.
  - intros i r [[<- <-]|[_ Hr]]%lookup_insert_Some Hs; eauto. destruct (Hst Hs) as (? & ? & _). done.
  - intros i r [[<- <-]|[_ Hr]]%lookup_insert_Some; eauto.
Qed.

Section polls.
Variable pe : PersistedControlEvent.
Implicit Types s : ControlProjection.

Lemma active_poll_Ok s id q :
  active_poll s id = Ok q -> scm_polls (c_scm s) !! id = Some q /\ poll_is_started q = true.
Proof.
  unfold active_poll. destruct (obj_get _ _) as [| |r] eqn:E; try discriminate. apply obj_get_Own in E.
  destruct (poll_is_started r) eqn:Hs; [|discriminate]. by intros [= <-].
Qed.

Lemma poll_started_effect s p t g s' :
  on_poll_started pe s p t g = Ok s' -> polls_wf (scm_polls (c_scm s)) ->
  exists m, c_scm s' = set_scm_polls (c_scm s) m /\ polls_wf m.
Proof.
  unfold on_poll_started. intros H Hwf.
  do 12 (apply bind_Ok in H as (? & ? & H)). apply bind_Ok in H as ([] & Hactive & H).
  apply bind_Ok in H as (? & ? & H). injection H as <-. apply ensure_Ok, negb_true_iff in Hactive.
  eexists. split; [reflexivity|]. apply polls_wf_insert; cbn; try done.
  - constructor.
  - intros _. split; [done|]. split; [done|]. intros id' q' Hq Hs Hp.
    apply existsb_obj_values_false with (k := id') (v := q') in Hactive; [|done].
    rewrite Hs, Hp, bool_decide_eq_true_2 in Hactive by done. cbn in Hactive.
    apply negb_false_iff, bool_decide_eq_true in Hactive. destruct Hwf. rewrite <-Hactive. symmetry. eauto.
Qed.

Lemma poll_completed_effect s p t g s' :
  on_poll_completed pe s p t g = Ok s' -> polls_wf (scm_polls (c_scm s)) ->
  exists m, c_scm s' = set_scm_polls (c_scm s) m /\ polls_wf m.
Proof.
  unfold on_poll_completed. intros H Hwf. apply bind_Ok in H as (q & Hq & H).
  apply bind_Ok in H as ([] & _ & H). apply bind_Ok in H as ([] & Hb & H). apply bind_Ok in H as (n & _ & H).
  injection H as <-. apply active_poll_Ok in Hq as [Hq Hs]. apply ensure_Ok in Hb. guards.
  eexists. split; [reflexivity|]. apply polls_wf_insert; cbn; try done.
  - by apply (polls_keyed _ Hwf).
  - exact (polls_accepted _ Hwf _ _ Hq).
  - intros _. eexists _, _. split; [reflexivity|]. split; [reflexivity|]. lia.
Qed.

Lemma poll_failed_effect s p t g s' :
  on_poll_failed pe s p t g = Ok s' -> polls_wf (scm_polls (c_scm s)) ->
  exists m, c_scm s' = set_scm_polls (c_scm s) m /\ polls_wf m.
Proof.
  unfold on_poll_failed. intros H Hwf. apply bind_Ok in H as (q & Hq & H).
  apply bind_Ok in H as ([] & _ & H). apply bind_Ok in H as ([] & Hb & H). injection H as <-.
  apply active_poll_Ok in Hq as [Hq Hs]. eexists. split; [reflexivity|]. apply polls_wf_insert; cbn; try done.
  - by apply (polls_keyed _ Hwf).
  - exact (polls_accepted _ Hwf _ _ Hq).
Qed.
End polls.

(** * Observations *)

(** The buckets of an observation, as metadata by kind. *)
Definition bucket_metas (b : ScmObservationBucketsFact) : list ScmBucketMetaV1 :=
  omap (bucket_of_kind b) [bucket_pull_request; bucket_ci; bucket_review; bucket_mergeability].

(** Every accepted bucket was observed at the head of the observation. *)
Definition observation_wf (id : string) (o : ScmObservationFact) : Prop :=
  of_publicationId o = id /\ forall kind meta, bucket_of_kind (of_buckets o) kind = Some meta -> meta_observedHeadSha meta = of_headSha o.

Definition observations_wf (m : obj ScmObservationFact) : Prop := forall id o, m !! id = Some o -> observation_wf id o.

Lemma store_bucket_same b bucket :
  bucket_of_kind (store_bucket b bucket) (scmAnyBucket_kind bucket) = Some (scmAnyBucket_meta bucket).
Proof. by destruct bucket. Qed.

Lemma store_bucket_other b bucket kind :
  kind <> scmAnyBucket_kind bucket -> bucket_of_kind (store_bucket b bucket) kind = bucket_of_kind b kind.
Proof. by destruct bucket, kind. Qed.

Lemma current_observation_wf pe s f q t g :
  observations_wf (scm_observations (c_scm s)) -> 
  let o := current_observation pe s f q t g in
  observation_wf (pf_publicationId f) o /\ of_headSha o = pl_expectedHeadSha q /\ of_publicationGeneration o = pf_generation f.
Proof.
  intros Hwf. unfold current_observation. cbv zeta.
  assert (forall o, obj_get (scm_observations (c_scm s)) (pf_publicationId f) = Own o -> observation_wf (pf_publicationId f) o) as Ho
    by (intros o Ho; apply obj_get_Own in Ho; by apply Hwf).
  destruct (obj_get _ _) as [| |o]; try (split; [split; [done|by intros []]|done]).
  destruct ((of_publicationGeneration o =? pf_generation f) && _) eqn:E.
  - guards. split; [by apply Ho|done].
  - split; [split; [done|by intros []]|done].
Qed.

Lemma bucket_accepted_effect pe s p t g s' :
  on_bucket_accepted pe s p t g = Ok s' ->
  polls_wf (scm_polls (c_scm s)) -> observations_wf (scm_observations (c_scm s)) ->
  exists mo mp, c_scm s' = set_scm_polls (set_scm_observations (c_scm s) mo) mp /\ polls_wf mp /\ observations_wf mo.
Proof.
  unfold on_bucket_accepted. intros H Hp Ho. cbv zeta in H.
  apply bind_Ok in H as (tk & _ & H). apply bind_Ok in H as (f & Hf & H). apply bind_Ok in H as (q & Hq & H).
  apply bind_Ok in H as ([] & Hnew & H). apply bind_Ok in H as ([] & Hout & H). apply bind_Ok in H as ([] & Hhead & H).
  apply bind_Ok in H as (? & _ & H). apply bind_Ok in H as (? & _ & H). injection H as <-.
  apply ensure_Ok in Hnew, Hhead. guards.
  unfold completed_poll in Hq. destruct (obj_get _ _) as [| |r] eqn:E; try discriminate. apply obj_get_Own in E.
  destruct (bool_decide (pl_state r = poll_completed) && _ && _ && _ && _) eqn:Hc; [|discriminate].
  injection Hq as ->. apply assertScmPublication_Ok in Hf as [Hf _].
  destruct (current_observation_wf pe s f q t g Ho) as ((Hid & Hb) & Hsha & _). guards.
  eexists _, _. split; [reflexivity|]. split.
  - apply polls_wf_insert; cbn; try done.
    + by apply (polls_keyed _ Hp).
    + apply NoDup_app. split; [exact (polls_accepted _ Hp _ _ E)|]. split; [|apply NoDup_singleton].
      intros k Hk ->%list_elem_of_singleton. done.
    + unfold poll_is_started. cbn. intros Hs. guards. congruence.
    + exact (polls_budget _ Hp _ _ E).
  - intros i o [[<- <-]|[_ Hr]]%lookup_insert_Some; [|by apply Ho]. split; [done|]. cbn.
    intros kind meta. destruct (decide (kind = scmAnyBucket_kind (sba_bucket p))) as [->|Hne].
    + rewrite store_bucket_same. intros [= <-]. by rewrite Hsha.
    + rewrite store_bucket_other by done. apply Hb.
Qed.

(** * Reactions *)

Definition reaction_identity (r : ScmReactionFact) :=
  (r.(rx_reactionKey), r.(rx_publicationId), r.(rx_publicationGeneration), r.(rx_taskId), r.(rx_taskGeneration),
   r.(rx_headSha), r.(rx_factKind), r.(rx_evidenceRefs), r.(rx_commandId), r.(rx_createdSeq)).

(** The steering command a reaction claims to have obtained. *)
Definition reaction_backed (steering : obj SteeringFact) (r : ScmReactionFact) : Prop :=
  (rx_state r = react_command_admitted ->
     exists f, steering !! rx_commandId r = Some f /\ sf_admittedSeq f = rx_steeringSeq r) /\
  (rx_state r = react_included ->
     exists f, steering !! rx_commandId r = Some f /\ sf_status f = st_included /\ sf_terminalSeq f = rx_steeringSeq r) /\
  (rx_state r = react_observation_resolved -> isSome (rx_observationSemanticHash r) = true) /\
  (rx_state r ∈ [react_failed_retryable; react_superseded; react_refused] -> isSome (rx_reasonCode r) = true).

Record reactions_wf (steering : obj SteeringFact) (m : obj ScmReactionFact) : Prop := {
  reactions_keyed id r : m !! id = Some r -> rx_reactionKey r = id;
  (** one reaction at a time per publication and kind of fact *)
  reactions_exclusive id id' r r' : m !! id = Some r -> m !! id' = Some r' ->
    reaction_is_active r = true -> reaction_is_active r' = true ->
    rx_publicationId r = rx_publicationId r' -> rx_factKind r = rx_factKind r' -> id = id';
  (** a steering command serves one reaction *)
  reactions_command id id' r r' : m !! id = Some r -> m !! id' = Some r' -> rx_commandId r = rx_commandId r' -> id = id';
  reactions_backed id r : m !! id = Some r -> reaction_backed steering r
}.

Lemma commands_le_backed st st' r : commands_le st st' -> reaction_backed st r -> reaction_backed st' r.
Proof.
  intros Hle (Ha & Hi & Hr & Hf). split; [|split; [|done]].
  - intros (f & Hf' & Hs)%Ha. destruct (Hle _ _ Hf') as (f' & Hf'' & Hid & _). exists f'. split; [done|].
    unfold command_identity in Hid. congruence.
  - intros (f & Hf' & Hs & Ht)%Hi. destruct (Hle _ _ Hf') as (f' & Hf'' & _ & Heq).
    rewrite Heq in Hf'' by congruence. eauto.
Qed.

Lemma reactions_wf_mono st st' m : commands_le st st' -> reactions_wf st m -> reactions_wf st' m.
Proof. intros Hle [Hk He Hc Hb]. split; auto. intros id r Hr. eapply commands_le_backed; eauto. Qed.

Section reactions.
Context {D : Digest}.
Variable pe : PersistedControlEvent.
Implicit Types s : ControlProjection.

Lemma reaction_created_effect s p t g s' :
  on_reaction_created pe s p t g = Ok s' -> reactions_wf (c_steering s) (scm_reactions (c_scm s)) ->
  exists m, c_scm s' = set_scm_reactions (c_scm s) m /\ reactions_wf (c_steering s) m.
Proof.
  unfold on_reaction_created. intros H [Hk He Hc Hb].
  do 6 (apply bind_Ok in H as (? & _ & H)). apply bind_Ok in H as ([] & Hnew & H).
  apply bind_Ok in H as ([] & Hcmd & H). do 3 (apply bind_Ok in H as (? & _ & H)).
  apply bind_Ok in H as ([] & Hact & H). injection H as <-.
  apply ensure_Ok, negb_true_iff in Hcmd, Hact. rewrite existsb_obj_values_false in Hcmd.
  unfold active_reaction in Hact. rewrite existsb_obj_values_false in Hact.
  eexists. split; [reflexivity|]. split.
  - intros i r [[<- <-]|[_ Hr]]%lookup_insert_Some; [done|eauto].
  - intros i j r r' [[<- <-]|[_ Hr]]%lookup_insert_Some [[<- <-]|[_ Hr']]%lookup_insert_Some; eauto; cbn.
    + intros _ Hs Hp Hf. specialize (Hact _ _ Hr'). rewrite Hs, <-Hp, <-Hf, !bool_decide_eq_true_2 in Hact by done. done.
    + intros Hs _ Hp Hf. specialize (Hact _ _ Hr). rewrite Hs, Hp, Hf, !bool_decide_eq_true_2 in Hact by done. done.
  - intros i j r r' [[<- <-]|[_ Hr]]%lookup_insert_Some [[<- <-]|[_ Hr']]%lookup_insert_Some; eauto; cbn.
    + intros Hq. specialize (Hcmd _ _ Hr'). apply bool_decide_eq_false in Hcmd. congruence.
    + intros Hq. specialize (Hcmd _ _ Hr). apply bool_decide_eq_false in Hcmd. congruence.
  - intros i r [[<- <-]|[_ Hr]]%lookup_insert_Some; [|eauto]. repeat split; cbn; try done.
    rewrite !elem_of_cons, elem_of_nil. intuition congruence.
Qed.

(** What a transition of a reaction must be able to show. *)
Lemma check_reaction_command_Ok steering id p u :
  check_reaction_command (obj_get steering id) p = Ok u ->
  (srt_toState p = react_command_admitted ->
     exists f, steering !! id = Some f /\ sf_status f = st_pending /\ sf_admittedSeq f = srt_steeringSeq p) /\
  (srt_toState p = react_included ->
     exists f, steering !! id = Some f /\ sf_status f = st_included /\ sf_terminalSeq f = srt_steeringSeq p).
Proof.
  unfold check_reaction_command. intros H.
  destruct (srt_toState p); try (split; discriminate); apply ensure_Ok in H;
    destruct (obj_get steering id) as [| |f] eqn:E; try discriminate; try (split; discriminate);
    apply obj_get_Own in E; guards; (split; [|try done]); try done; intros _; eauto.
Qed.

Lemma reaction_transition_effect s p t g s' :
  on_reaction_transitioned pe s p t g = Ok s' -> reactions_wf (c_steering s) (scm_reactions (c_scm s)) ->
  exists id r r', c_scm s' = set_scm_reactions (c_scm s) (<[id := r']> (scm_reactions (c_scm s))) /\
    scm_reactions (c_scm s) !! id = Some r /\ reaction_identity r' = reaction_identity r /\
    rx_version r' = rx_version r + 1 /\ scmReactionTransitions (rx_state r) (rx_state r') = true /\
    reaction_backed (c_steering s) r'.
Proof.
  unfold on_reaction_transitioned. intros H Hwf.
  apply bind_Ok in H as (r & Hr & H). apply bind_Ok in H as ([] & Ht & H). apply bind_Ok in H as ([] & Hf & H).
  apply bind_Ok in H as ([] & Htr & H). apply bind_Ok in H as (u & Hcmd & H). apply bind_Ok in H as ([] & Hre & H).
  apply bind_Ok in H as ([] & Hh & H). injection H as <-.
  destruct (obj_get _ (srt_reactionKey p)) as [| |q] eqn:E; try discriminate. injection Hr as ->. apply obj_get_Own in E.
  apply ensure_Ok in Ht, Hf, Htr, Hre, Hh. apply check_reaction_command_Ok in Hcmd as [Ha Hi]. guards.
  eexists _, r, _. split; [reflexivity|]. split; [done|]. split; [done|]. split; [done|]. split; [done|].
  split; [|split; [|split]]; cbn.
  - intros (f & Hf1 & _ & Hf2)%Ha. eauto.
  - intros (f & Hf1 & Hf2 & Hf3)%Hi. eauto.
  - intros Hx. rewrite Hx in Hh. cbn in Hh. destruct (srt_observationSemanticHash p); done.
  - intros Hx. destruct Hre as [Hre|Hre]; [done|done].
Qed.

Lemma reaction_active_back st st' : scmReactionTransitions st st' = true ->
  negb (bool_decide (st ∈ [react_observation_resolved; react_superseded; react_refused])) = true.
Proof. destruct st; cbn; try discriminate; done. Qed.

Lemma reaction_transition_wf steering m id r r' :
  reactions_wf steering m -> m !! id = Some r -> reaction_identity r' = reaction_identity r ->
  scmReactionTransitions (rx_state r) (rx_state r') = true -> reaction_backed steering r' ->
  reactions_wf steering (<[id := r']> m).
Proof.
  intros [Hk He Hc Hb] Hr Hid Htr Hback.
  assert (rx_reactionKey r' = rx_reactionKey r /\ rx_publicationId r' = rx_publicationId r /\
          rx_factKind r' = rx_factKind r /\ rx_commandId r' = rx_commandId r) as (E1 & E2 & E3 & E4)
    by (unfold reaction_identity in Hid; split_and!; congruence).
  assert (reaction_is_active r = true) as Hact by (by eapply reaction_active_back).
  split.
  - intros i q [[<- <-]|[_ Hq]]%lookup_insert_Some; [|eauto]. rewrite E1. eauto.
  - intros i j q q' [[<- <-]|[Hi Hq]]%lookup_insert_Some [[<- <-]|[Hj Hq']]%lookup_insert_Some; eauto.
    + rewrite E2, E3. eauto.
    + rewrite E2, E3. eauto.
  - intros i j q q' [[<- <-]|[Hi Hq]]%lookup_insert_Some [[<- <-]|[Hj Hq']]%lookup_insert_Some; eauto.
    + rewrite E4. eauto.
    + rewrite E4. eauto.
  - intros i q [[<- <-]|[_ Hq]]%lookup_insert_Some; eauto.
Qed.
End reactions.
