(* ===== verification/ControlInvariant.v ===== *)
(** ControlInvariant: what every projection the reducer can produce satisfies,
    gathered from the lives of its components. *)
From S2P Require Import Prelude Text Json Ids ScmTypes ControlEvents EventSchema ControlState ControlReducer ScmReducer ControlApply ControlFrame AttemptLife TaskLife SessionLife CommandLife RunLife ScmLife.

Record scm_wf (head : Z) (steering : obj SteeringFact) (m : ScmControlProjection) : Prop := {
  scm_wf_publications id f : scm_publications m !! id = Some f -> publication_wf head id f;
  scm_wf_polls : polls_wf (scm_polls m);
  scm_wf_observations : observations_wf (scm_observations m);
  scm_wf_reactions : reactions_wf steering (scm_reactions m)
}.

Record projection_wf (s : ControlProjection) : Prop := {
  wf_head : 0 <= c_headSeq s;
  wf_run r : c_run s = Some r -> run_wf r;
  wf_tasks : tasks_wf (c_headSeq s) (c_tasks s);
  wf_sessions : sessions_wf (c_headSeq s) (c_runtimes s);
  wf_attempts : attempts_wf (c_headSeq s) (c_attempts s);
  (** an attempt runs in a session of its own task *)
  wf_attempt_targets id a : c_attempts s !! id = Some a ->
    target_ok s (af_sessionId a) (af_sessionGeneration a) (af_taskId a) (af_taskGeneration a);
  wf_commands : commands_wf s;
  wf_scm : scm_wf (c_headSeq s) (c_steering s) (c_scm s)
}.

Lemma scm_wf_mono head head' steering steering' m :
  head <= head' -> commands_le steering steering' -> scm_wf head steering m -> scm_wf head' steering' m.
Proof.
  intros Hh Hle [Hp Hq Ho Hr]. split; auto; [|by eapply reactions_wf_mono].
  intros id f Hf. eapply publication_wf_mono; eauto.
Qed.

Section preservation.
Context {D : Digest}.
Variable pe : PersistedControlEvent.
Implicit Types s : ControlProjection.

Lemma scm_event_wf s st :
  pe_seq pe = c_headSeq s + 1 -> 0 <= c_headSeq s ->
  component_of pe.(pe_event).(ev_payload) = comp_scm -> on_event pe s = Ok st ->
  scm_wf (c_headSeq s) (c_steering s) (c_scm s) -> scm_wf (pe_seq pe) (c_steering s) (c_scm st).
Proof.
  intros Hseq Hhead Hc H Hwf. pose proof Hwf as [Hp0 _ _ _].
  apply (scm_wf_mono _ (pe_seq pe) _ (c_steering s)) in Hwf as [Hp Hq Ho Hr]; [|lia|done].
  unfold on_event in H. destruct (ev_payload (pe_event pe)); try discriminate Hc; clear Hc;
    (destruct (ev_taskId (pe_event pe)) as [t|]; [|discriminate]);
    (destruct (ev_taskGeneration (pe_event pe)) as [g|]; [|discriminate]).
  - apply publication_recorded_effect in H as (id & f & -> & Hn & H1 & H2 & H3 & H4 & H5 & H6 & H7 & _).
    split; auto. cbn. intros i q [[<- <-]|[_ Hi]]%lookup_insert_Some; [|auto].
    split; rewrite ?H3, ?H4, ?H5, ?H6, ?H7; try done. lia.
  - apply publication_changed_effect in H as (id & f & f' & -> & Hf & Hstep).
    split; auto. cbn. intros i q [[<- <-]|[_ Hi]]%lookup_insert_Some; [|auto].
    eapply publication_step_wf; [|done]. rewrite Hseq. replace (c_headSeq s + 1 - 1) with (c_headSeq s) by lia. auto.
  - apply poll_started_effect in H as (m & -> & Hm); [|done]. by split.
  - apply poll_completed_effect in H as (m & -> & Hm); [|done]. by split.
  - apply poll_failed_effect in H as (m & -> & Hm); [|done]. by split.
  - apply bucket_accepted_effect in H as (mo & mp & -> & Hmp & Hmo); [|done..]. by split.
  - apply reaction_created_effect in H as (m & -> & Hm); [|done]. by split.
  - apply reaction_transition_effect in H as (id & r & r' & -> & Hlk & Hid & _ & Htr & Hb); [|done].
    split; auto. by eapply reaction_transition_wf.
Qed.

Lemma applied_scm_wf s s' :
  0 <= c_headSeq s -> applyControlEvent s pe = Ok s' ->
  scm_wf (c_headSeq s) (c_steering s) (c_scm s) -> scm_wf (c_headSeq s') (c_steering s') (c_scm s').
Proof.
  intros Hhead H Hwf. pose proof (applied_commands_le _ _ _ H) as Hle. pose proof (applyControlEvent_frame _ _ _ H) as Hfr.
  cbv zeta in Hfr. destruct Hfr as (_ & _ & Hh & _ & _ & _ & _ & _ & Hst & Hscm).
  destruct (decide (component_of pe.(pe_event).(ev_payload) = comp_scm)) as [Hc|Hc].
  - rewrite Hst by congruence. apply applyControlEvent_Ok in H as (u & agg & st & _ & _ & _ & _ & Hseq & _ & Hon & ->).
    change (c_scm (advance pe agg st)) with (c_scm st). rewrite Hh, <-Hseq. by eapply scm_event_wf.
  - rewrite Hscm by done. eapply scm_wf_mono; [|done|done]. lia.
Qed.

Lemma applied_attempt_targets s s' :
  (forall id a, c_attempts s !! id = Some a ->
     target_ok s (af_sessionId a) (af_sessionGeneration a) (af_taskId a) (af_taskGeneration a)) ->
  applyControlEvent s pe = Ok s' ->
  forall id a, c_attempts s' !! id = Some a ->
     target_ok s' (af_sessionId a) (af_sessionGeneration a) (af_taskId a) (af_taskGeneration a).
Proof.
  intros Hwf H id a Ha. eapply applied_target_ok; [done|].
  apply attempts_effect in H as [E|H]; [rewrite E in Ha; eauto|].
  destruct H as [i b r Hn Hid Hl Hr Hg Ht Htg (t & Htk & Htkg)|i b b' Hb Hi];
    apply lookup_insert_Some in Ha as [[<- <-]|[_ Ha]]; eauto.
  - split; [exists r|exists t]; (split; [done|]); [split; [lia|done]|lia].
  - unfold attempt_identity in Hi. specialize (Hwf _ _ Hb).
    injection Hi as _ _ E1 E2 E3 E4 _ _ _ _ _ _. by rewrite E1, E2, E3, E4.
Qed.

Lemma applied_wf s s' : projection_wf s -> applyControlEvent s pe = Ok s' -> projection_wf s'.
Proof.
  intros [Hh Hr Ht Hs Ha Hat Hc Hm] H.
  pose proof (applyControlEvent_frame _ _ _ H) as Hfr. cbv zeta in Hfr. destruct Hfr as (_ & _ & Hhead & _).
  assert (pe_seq pe = c_headSeq s') as Hseq
    by (rewrite Hhead; apply applyControlEvent_Ok in H; destruct H as (? & ? & ? & ?); tauto).
  assert (c_headSeq s = pe_seq pe - 1) as Hprev by lia.
  split; [lia|by eapply applied_run_wf| | | |by eapply applied_attempt_targets|by eapply applied_commands_wf|
    by eapply applied_scm_wf].
  - rewrite <-Hseq. rewrite Hprev in Ht. apply tasks_effect in H as [->|H]; [|by eapply task_effect_wf].
    intros id t Hid. eapply task_wf_mono; [|by apply Ht]. lia.
  - rewrite <-Hseq. rewrite Hprev in Hs. apply sessions_effect in H as [->|H]; [|by eapply session_effect_wf].
    intros id t Hid. apply Hs in Hid as [? ?]. split; [done|lia].
  - rewrite <-Hseq. rewrite Hprev in Ha. apply attempts_effect in H as [->|H]; [|eapply attempt_effect_wf; [done|lia|done]].
    eapply attempts_wf_mono; [|done]. lia.
Qed.
End preservation.

Lemma empty_wf runId runEpoch : projection_wf (emptyControlProjection runId runEpoch).
Proof.
  assert (forall (V : Type) (P : string -> V -> Prop) id v, (∅ : obj V) !! id = Some v -> P id v) as Hnone
    by (intros V P id v; by rewrite lookup_empty).
  split; cbn; [done|done|red; apply Hnone|red; apply Hnone|apply attempts_wf_empty|by apply Hnone| |].
  - split; cbn; intros *; rewrite lookup_empty; discriminate.
  - split; cbn; [intros ? ?; apply Hnone| |intros ? ?; apply Hnone|].
    + split; intros *; rewrite lookup_empty; discriminate.
    + split; intros *; rewrite lookup_empty; discriminate.
Qed.

Lemma reachable_wf {D : Digest} runId runEpoch events s :
  reduceControlEvents runId runEpoch events None = Ok s -> projection_wf s.
Proof. apply (reduce_invariant projection_wf); [apply empty_wf|]. intros *. apply applied_wf. Qed.

(** The head of a projection is the length of its history. *)
Lemma reachable_head {D : Digest} runId runEpoch events s :
  reduceControlEvents runId runEpoch events None = Ok s ->
  c_headSeq s = Z.of_nat (length events) /\ c_runId s = runId /\ c_runEpoch s = runEpoch.
Proof.
  revert s. induction events as [|pe events IH] using rev_ind; intros s H; [injection H as <-; done|].
  rewrite reduceControlEvents_snoc in H. apply bind_Ok in H as (s0 & H0 & H).
  destruct (IH _ H0) as (Hh & Hr & He). apply applyControlEvent_frame in H. cbv zeta in H.
  rewrite length_app. cbn. destruct H as (-> & -> & -> & _). split; [lia|done].
Qed.

(** An accepted event leaves an attempt alone or moves its life by one step. *)
Lemma applied_attempt_life {D : Digest} s pe s' id a :
  projection_wf s -> applyControlEvent s pe = Ok s' -> c_attempts s !! id = Some a ->
  exists a', c_attempts s' !! id = Some a' /\
    (a' = a \/ attempt_identity a' = attempt_identity a /\
     exists l l', life_of a = Some l /\ life_of a' = Some l' /\ life_step (pe_seq pe) l l').
Proof.
  intros Hs Ha Hlk. apply attempts_effect in Ha as [->|He]; [by eauto|].
  destruct He as [i b rt Hn|i b b' Hb Hid Hl].
  - exists a. rewrite lookup_insert_ne by congruence. auto.
  - destruct (decide (id = i)) as [->|Hne].
    + exists b'. rewrite lookup_insert_eq. split; [done|]. right. assert (b = a) as -> by congruence. split; [done|].
      destruct (attempts_lives _ _ (wf_attempts _ Hs) _ _ Hlk) as (l & Hlf & _).
      destruct (Hl l Hlf) as (l' & ? & ?). eauto.
    + exists a. rewrite lookup_insert_ne by done. auto.
Qed.

(** An attempt that appears is new. *)
Lemma applied_attempt_new {D : Digest} s pe s' id a' :
  applyControlEvent s pe = Ok s' -> c_attempts s !! id = None -> c_attempts s' !! id = Some a' ->
  life_of a' = Some (Prepared (pe_seq pe)).
Proof.
  intros Ha Hn Hlk. apply attempts_effect in Ha as [E|He]; [congruence|].
  destruct He as [i b rt Hb Hid Hl|i b b' Hb Hid Hl]; apply lookup_insert_Some in Hlk as [[<- <-]|[_ Hlk]]; congruence.
Qed.
