(* ===== verification/Activity.v ===== *)
(** Activity: what a session is doing, derived from the control projection:
    [deriveActivity] of src/control/reducer.ts and the stricter
    [deriveSteeringActivity] of src/steering/activity.ts. Then the properties of the derived activity: the two derivations
    agree, the stricter one is total on well-behaved sessions, and it proposes
    a capture only at a proven boundary. *)
From S2P Require Import Prelude Text Json Ids ScmTypes ControlEvents EventSchema ControlState EventRead ControlReducer ScmReducer ControlApply ControlFrame AttemptLife TaskLife SessionLife CommandLife RunLife ScmLife ControlInvariant.

(** * The derived view *)

(** [ageMs] is [Some None] where the program computes [NaN]. *)
Record DerivedActivity := {
  da_runId : string;
  da_runEpoch : string;
  da_sessionId : string;
  da_sessionGeneration : option Z;
  da_taskId : option string;
  da_taskGeneration : option Z;
  da_viewSeq : Z;
  da_headSeq : Z;
  da_stale : bool;
  da_observedAt : option string;
  da_ageMs : option (option Z);
  da_state : ActivityState;
  da_reason : text
}.

(** The runtime fact of the session: its fields are [undefined] both when there
    is none and when the id names an inherited member. *)
Definition runtime_of (projection : ControlProjection) (sessionId : string) : slot RuntimeFact :=
  obj_get projection.(c_runtimes) sessionId.

Definition field {V A} (s : slot V) (f : V -> option A) : option A :=
  match s with Own v => f v | _ => None end.

(** [runtime?.taskId ? projection.tasks[runtime.taskId] : undefined] *)
Definition task_of (projection : ControlProjection) (runtime : slot RuntimeFact) : slot TaskFact :=
  match field runtime rf_taskId with
  | Some taskId => if bool_decide (taskId = EmptyString) then Absent else obj_get projection.(c_tasks) taskId
  | None => Absent
  end.

(** [task !== undefined && task.generation !== runtime?.taskGeneration] *)
Definition generation_stale (task : slot TaskFact) (taskGeneration : option Z) : bool :=
  match task with
  | Absent => false
  | Inherited => isSome taskGeneration
  | Own t => negb (bool_decide (Some t.(tf_generation) = taskGeneration))
  end.

(** [Math.max(0, now - Date.parse(observedAt))] *)
Definition age_ms (now : option Z) (observedAt : option string) : option Z :=
  match now, observedAt with
  | Some n, Some at_ => t ← Date_parse at_; Some (Z.max 0 (n - t))
  | _, _ => None
  end.

Definition activity_base (projection : ControlProjection) (sessionId : string) (now : option Z) (headSeq : Z)
    (runtime : slot RuntimeFact) (stale : bool) (state : ActivityState) (reason : text) : DerivedActivity := {|
  da_runId := projection.(c_runId);
  da_runEpoch := projection.(c_runEpoch);
  da_sessionId := sessionId;
  da_sessionGeneration := field runtime (fun r => Some r.(rf_sessionGeneration));
  da_taskId := field runtime rf_taskId;
  da_taskGeneration := field runtime rf_taskGeneration;
  da_viewSeq := projection.(c_headSeq);
  da_headSeq := headSeq;
  da_stale := (projection.(c_headSeq) <? headSeq) || stale;
  da_observedAt := field runtime (fun r => Some r.(rf_observedAt));
  da_ageMs := if present runtime then Some (age_ms now (field runtime (fun r => Some r.(rf_observedAt)))) else None;
  da_state := state;
  da_reason := reason |}.

Definition attempt_reason (a : AttemptFact) (what : string) : text :=
  text_of_string ("attempt " +:+ num_to_string a.(af_attemptGeneration) +:+ what).

(** The attempts of the session generation, latest generation first. *)
Definition session_attempts (projection : ControlProjection) (sessionId : string) (sessionGeneration : option Z)
    : list AttemptFact :=
  List.filter (fun a => bool_decide (a.(af_sessionId) = sessionId)
                        && bool_decide (Some a.(af_sessionGeneration) = sessionGeneration))
    (obj_values projection.(c_attempts)).

Definition by_generation (a b : AttemptFact) : Z := b.(af_attemptGeneration) - a.(af_attemptGeneration).

Definition attempt_over (a : AttemptFact) : bool := bool_decide (a.(af_state) ∈ [att_exited; att_abandoned]).

Definition terminal_seq (a : AttemptFact) : option Z :=
  match a.(af_state) with
  | att_exited => a.(af_exitedSeq)
  | att_abandoned => a.(af_abandonedSeq)
  | att_prepared | att_active => None
  end.

(** The session reported its prompt boundary after the attempt ended. *)
Definition boundary_after (runtime : RuntimeFact) (latest : AttemptFact) : bool :=
  bool_decide (runtime.(rf_observation) = obs_waiting_input)
  && match terminal_seq latest with Some t => t <? runtime.(rf_updatedSeq) | None => false end.

Definition settling_reason (a : AttemptFact) : text := attempt_reason a " exited; parent reconciliation pending".

(** [runtime.reason ?? text] *)
Definition reason_or (reason : option text) (s : string) : text := default (text_of_string s) reason.

(** The run has ended: the session has too, for the stated reason. *)
Definition run_over {A} (projection : ControlProjection) (k : text -> A) : option A :=
  match projection.(c_run) with
  | Some run =>
      if bool_decide (run.(rn_status) = run_started_status) then None
      else Some (k (text_of_string ("run " +:+ RunStatus_name run.(rn_status))))
  | None => None
  end.

Section derive.
Variable projection : ControlProjection.
Variable sessionId : string.

(** The last part of [deriveActivity]: the latest attempt, then the observation. *)
Definition derive_from_attempts (observation : option RuntimeObservation) (reason : option text) (hasTask : bool)
    (runtime : slot RuntimeFact) (task : slot TaskFact) (latest : option AttemptFact) : ActivityState * text :=
  let rest :=
    if bool_decide (observation = Some obs_waiting_input) then (act_waiting_input, reason_or reason "safe prompt boundary available")
    else if bool_decide (observation = Some obs_probe_failed) then
      (act_idle, reason_or reason "runtime probe failed; no executable boundary proven")
    else (act_idle, text_of_string (if hasTask then "task assigned but no safe prompt boundary is proven" else "session available")) in
  match latest with
  | None => rest
  | Some a =>
      match a.(af_state) with
      | att_prepared => (act_dispatching, attempt_reason a " prompt prepared")
      | att_active => (act_active, attempt_reason a " provider active")
      | att_exited | att_abandoned =>
          if present task && negb (match task with Own t => task_terminal t | _ => false end)
             && negb (match runtime with Own r => boundary_after r a | _ => false end)
          then (act_settling, settling_reason a) else rest
      end
  end.

Definition deriveActivity (now : option Z) (authorityHead : option Z) : DerivedActivity :=
  let headSeq := default projection.(c_headSeq) authorityHead in
  let runtime := runtime_of projection sessionId in
  let task := task_of projection runtime in
  let stale := generation_stale task (field runtime rf_taskGeneration) in
  let finish := activity_base projection sessionId now headSeq runtime stale in
  let observation := field runtime (fun r => Some r.(rf_observation)) in
  let reason := field runtime rf_reason in
  let status := match task with Own t => Some t.(tf_status) | _ => None end in
  let summary := match task with Own t => t.(tf_lastSummary) | _ => None end in
  default (
  if negb (present runtime) then finish act_idle (text_of_string "no durable session facts")
  else if stale then finish act_idle (text_of_string "session observes a stale task generation")
  else if bool_decide (observation = Some obs_exited) then finish act_exited (reason_or reason "session generation exited")
  else if bool_decide (observation = Some obs_blocked) then
    finish act_blocked (reason_or reason "session requires a control-plane decision")
  else if bool_decide (status = Some ts_escalated) then
    finish act_exited (text_of_string "task escalated and this session generation is terminal")
  else if bool_decide (status = Some ts_done) then finish act_exited (text_of_string "task completed")
  else if bool_decide (status = Some ts_blocked) then finish act_blocked (reason_or summary "task blocked")
  else
    let latest := head (js_sort by_generation
      (session_attempts projection sessionId (field runtime (fun r => Some r.(rf_sessionGeneration))))) in
    let sr := derive_from_attempts observation reason (truthy (field runtime rf_taskId)) runtime task latest in
    finish sr.1 sr.2)
  (run_over projection (fun why => finish act_exited why)).
End derive.

(** * The steering view (src/steering/activity.ts) *)

Inductive SteeringActivityError :=
| BadViewSequence
| BadHeadSequence
| HeadPrecedesView
| ClockNotFinite
| AttemptsWithoutRuntime
| BadObservationTimestamp
| MissingTask
| HalfScopedTarget
| InvalidAttemptGeneration (attemptId : string)
| DuplicateAttemptGeneration (generation : Z)
| AttemptTargetMismatch (attemptId : string)
| MultipleLiveAttempts
| OlderAttemptLive
| NextGenerationUnsafe
| InvalidSessionGeneration.

Inductive SteeringActivityCertainty := proven | indeterminate_certainty.
Inductive SteeringAdmissionDisposition :=
| initial_boundary_only | next_boundary | future_attempt | disposition_refused | disposition_indeterminate.
#[export] Instance SteeringActivityCertainty_eq_dec : EqDecision SteeringActivityCertainty. Proof. solve_decision. Defined.
#[export] Instance SteeringAdmissionDisposition_eq_dec : EqDecision SteeringAdmissionDisposition. Proof. solve_decision. Defined.

Record SteeringActivity := {
  sa_activity : DerivedActivity;
  sa_nextAttemptGeneration : Z;
  sa_certainty : SteeringActivityCertainty;
  sa_admission : SteeringAdmissionDisposition;
  sa_captureEligible : bool;
  sa_refusalReason : option SteeringRefusalReasonCode
}.

(** What each state lets the caller do. *)
Definition admission_of (state : ActivityState) (certainty : SteeringActivityCertainty) : SteeringAdmissionDisposition :=
  match state with
  | act_idle => match certainty with proven => initial_boundary_only | indeterminate_certainty => disposition_indeterminate end
  | act_waiting_input => next_boundary
  | act_dispatching | act_active | act_settling => future_attempt
  | act_blocked | act_exited => disposition_refused
  end.

Definition finish (activity : DerivedActivity) (nextGeneration : Z) (certainty : SteeringActivityCertainty) : SteeringActivity := {|
  sa_activity := activity;
  sa_nextAttemptGeneration := nextGeneration;
  sa_certainty := certainty;
  sa_admission := admission_of activity.(da_state) certainty;
  sa_captureEligible :=
    match activity.(da_state) with act_waiting_input => bool_decide (certainty = proven) | _ => false end;
  sa_refusalReason :=
    match activity.(da_state) with
    | act_blocked => Some reason_SESSION_BLOCKED
    | act_exited => Some reason_SESSION_EXITED
    | _ => None
    end |}.

Definition canCaptureSteering (a : SteeringActivity) : bool :=
  bool_decide (a.(sa_activity).(da_state) = act_waiting_input) && bool_decide (a.(sa_certainty) = proven)
  && a.(sa_captureEligible).

Definition canAdmitSteeringForFutureAttempt (a : SteeringActivity) : bool :=
  bool_decide (a.(sa_admission) = next_boundary) || bool_decide (a.(sa_admission) = future_attempt).

(** The loop over the attempts of the session: generations are valid and
    distinct, every attempt has the session's task target. *)
Fixpoint check_attempts (seen : list Z) (taskId : option string) (taskGeneration : option Z) (attempts : list AttemptFact)
    : result SteeringActivityError unit :=
  match attempts with
  | [] => Ok tt
  | a :: rest =>
      ensure (isSafeInteger a.(af_attemptGeneration) && (1 <=? a.(af_attemptGeneration)))
        (InvalidAttemptGeneration a.(af_attemptId)) ;;
      ensure (negb (bool_decide (a.(af_attemptGeneration) ∈ seen))) (DuplicateAttemptGeneration a.(af_attemptGeneration)) ;;
      ensure (bool_decide (Some a.(af_taskId) = taskId) && bool_decide (Some a.(af_taskGeneration) = taskGeneration))
        (AttemptTargetMismatch a.(af_attemptId)) ;;
      check_attempts (a.(af_attemptGeneration) :: seen) taskId taskGeneration rest
  end.

Section steering.
Context {C : Collation}.
Variable projection : ControlProjection.
Variable sessionId : string.

Definition by_generation_then_id (a b : AttemptFact) : Z :=
  if by_generation a b =? 0 then localeCompare a.(af_attemptId) b.(af_attemptId) else by_generation a b.

Definition latestAttemptForSession (sessionGeneration : option Z) (taskId : option string) (taskGeneration : option Z)
    : result SteeringActivityError (option AttemptFact * Z) :=
  let attempts := session_attempts projection sessionId sessionGeneration in
  check_attempts [] taskId taskGeneration attempts ;;
  ensure (Z.of_nat (length (List.filter (fun a => negb (attempt_over a)) attempts)) <=? 1) MultipleLiveAttempts ;;
  let sorted := js_sort by_generation_then_id attempts in
  ensure (forallb attempt_over (tail sorted)) OlderAttemptLive ;;
  let latest := head sorted in
  let nextGeneration := match latest with Some a => a.(af_attemptGeneration) | None => 0 end + 1 in
  ensure (isSafeInteger nextGeneration) NextGenerationUnsafe ;;
  Ok (latest, nextGeneration).

(** [runtime?.taskId === undefined ? undefined : projection.tasks[runtime.taskId]] *)
Definition steering_task_of (runtime : slot RuntimeFact) : slot TaskFact :=
  match field runtime rf_taskId with
  | Some taskId => obj_get projection.(c_tasks) taskId
  | None => Absent
  end.

Definition is_sequence (n : Z) : bool := isSafeInteger n && (0 <=? n).

(** The target the session observes, checked before anything is derived. *)
Definition steering_target (headSeq : Z) (now : option Z) : result SteeringActivityError (slot TaskFact) :=
  let runtime := runtime_of projection sessionId in
  ensure (is_sequence projection.(c_headSeq)) BadViewSequence ;;
  ensure (is_sequence headSeq) BadHeadSequence ;;
  ensure (negb (headSeq <? projection.(c_headSeq))) HeadPrecedesView ;;
  ensure (isSome now) ClockNotFinite ;;
  ensure (negb (negb (present runtime)
                && existsb (fun a => bool_decide (a.(af_sessionId) = sessionId)) (obj_values projection.(c_attempts))))
    AttemptsWithoutRuntime ;;
  ensure (negb (present runtime)
          || match field runtime (fun r => Some r.(rf_observedAt)) with Some at_ => isSome (Date_parse at_) | None => false end)
    BadObservationTimestamp ;;
  let task := steering_task_of runtime in
  ensure (negb (isSome (field runtime rf_taskId) && negb (present task))) MissingTask ;;
  ensure (Bool.eqb (isSome (field runtime rf_taskId)) (isSome (field runtime rf_taskGeneration))) HalfScopedTarget ;;
  Ok task.

(** The [switch] and what follows it, for a session with a runtime fact. *)
Definition steering_state (runtime : RuntimeFact) (task : slot TaskFact) (latest : option AttemptFact)
    : ActivityState * text * SteeringActivityCertainty :=
  let status := match task with Own t => Some t.(tf_status) | _ => None end in
  let summary := match task with Own t => t.(tf_lastSummary) | _ => None end in
  let reason := runtime.(rf_reason) in
  let rest :=
    match runtime.(rf_observation) with
    | obs_waiting_input => (act_waiting_input, reason_or reason "safe prompt boundary available", proven)
    | obs_probe_failed =>
        (act_idle, reason_or reason "runtime probe failed; no executable boundary proven", indeterminate_certainty)
    | _ => (act_idle, text_of_string (if truthy runtime.(rf_taskId) then "task assigned but no safe prompt boundary is proven"
                                      else "session available"), proven)
    end in
  match runtime.(rf_observation) with
  | obs_exited => (act_exited, reason_or reason "session generation exited", proven)
  | obs_blocked => (act_blocked, reason_or reason "session requires a control-plane decision", proven)
  | _ =>
      if bool_decide (status = Some ts_done) then (act_exited, text_of_string "task completed", proven)
      else if bool_decide (status = Some ts_escalated) then
        (act_exited, text_of_string "task escalated and this session generation is terminal", proven)
      else if bool_decide (status = Some ts_blocked) then (act_blocked, reason_or summary "task blocked", proven)
      else match latest with
           | Some a =>
               match a.(af_state) with
               | att_prepared => (act_dispatching, attempt_reason a " prompt prepared", proven)
               | att_active => (act_active, attempt_reason a " provider active", proven)
               | att_exited | att_abandoned =>
                   if boundary_after runtime a then rest else (act_settling, settling_reason a, proven)
               end
           | None => rest
           end
  end.

Definition deriveSteeringActivity (now : option Z) (authorityHead : option Z) : result SteeringActivityError SteeringActivity :=
  let headSeq := default projection.(c_headSeq) authorityHead in
  let runtime := runtime_of projection sessionId in
  task ← steering_target headSeq now;
  let stale := generation_stale task (field runtime rf_taskGeneration) in
  attemptResult ← match runtime with
                  | Absent => Ok (None, 1)
                  | _ => latestAttemptForSession (field runtime (fun r => Some r.(rf_sessionGeneration)))
                           (field runtime rf_taskId) (field runtime rf_taskGeneration)
                  end;
  let base := activity_base projection sessionId now headSeq runtime stale in
  let finished state reason certainty := finish (base state reason) attemptResult.2 certainty in
  match run_over projection (fun why => finished act_exited why proven) with
  | Some a => Ok a
  | None =>
      match runtime with
      | Absent => Ok (finished act_idle (text_of_string "no durable session facts") proven)
      | Inherited => Err InvalidSessionGeneration
      | Own r =>
          ensure (isSafeInteger r.(rf_sessionGeneration) && (1 <=? r.(rf_sessionGeneration))) InvalidSessionGeneration ;;
          if stale then
            Ok (finished act_idle (text_of_string "session observes a stale task generation") indeterminate_certainty)
          else let '(state, reason, certainty) := steering_state r task attemptResult.1 in
               Ok (finished state reason certainty)
      end
  end.
End steering.

(** * Facts *)

(** * The latest attempt *)

#[export] Instance by_generation_comparator : Comparator by_generation.
Proof. split; unfold by_generation; lia. Qed.

Section latest.
Context {C : Collation}.

#[export] Instance by_generation_then_id_comparator : Comparator by_generation_then_id.
Proof.
  split; unfold by_generation_then_id, by_generation; intros.
  - repeat case_match; try lia. by apply cmp_total.
  - repeat case_match; try lia. by eapply cmp_trans.
Qed.

Lemma check_attempts_Ok seen t g l u :
  check_attempts seen t g l = Ok u ->
  NoDup (List.map af_attemptGeneration l) /\
  (forall a, a ∈ l -> (af_attemptGeneration a ∉ seen) /\ Some (af_taskId a) = t /\ Some (af_taskGeneration a) = g /\
     1 <= af_attemptGeneration a).
Proof.
  revert seen u. induction l as [|a l IH]; intros seen u; cbn.
  - intros _. split; [constructor|]. intros a Ha. by apply not_elem_of_nil in Ha.
  - intros H. apply bind_Ok in H as ([] & Hg & H). apply bind_Ok in H as ([] & Hs & H). apply bind_Ok in H as ([] & Ht & H).
    apply ensure_Ok in Hg, Hs, Ht. guards. destruct (IH _ _ H) as [Hnd Hall]. split.
    + constructor; [|done]. rewrite list_elem_of_fmap. intros (b & Hb & Hin). destruct (Hall b Hin) as (Hns & _).
      apply Hns. rewrite Hb. apply list_elem_of_here.
    + intros b [->|Hb]%elem_of_cons; [done|]. destruct (Hall b Hb) as (Hns & ? & ? & ?).
      split; [|done]. intros Hin. apply Hns. by apply list_elem_of_further.
Qed.

Lemma nodup_generation_inj l a b :
  NoDup (List.map af_attemptGeneration l) -> a ∈ l -> b ∈ l -> af_attemptGeneration a = af_attemptGeneration b -> a = b.
Proof.
  induction l as [|x l IH]; cbn; intros Hnd Ha Hb E; [by apply not_elem_of_nil in Ha|].
  apply NoDup_cons in Hnd as [Hx Hnd].
  apply elem_of_cons in Ha as [->|Ha], Hb as [->|Hb]; auto.
  - exfalso. apply Hx. rewrite E. apply list_elem_of_fmap. eauto.
  - exfalso. apply Hx. rewrite <-E. apply list_elem_of_fmap. eauto.
Qed.

(** On distinct generations the two sorts put the same attempt first. *)
Lemma latest_agree l :
  NoDup (List.map af_attemptGeneration l) -> head (js_sort by_generation_then_id l) = head (js_sort by_generation l).
Proof.
  intros Hnd. destruct (js_sort by_generation_then_id l) as [|x r] eqn:Ex.
  - apply js_sort_nil in Ex. by subst.
  - destruct (js_sort by_generation l) as [|y r'] eqn:Ey.
    + apply js_sort_nil in Ey. subst. discriminate.
    + cbn. f_equal. apply js_sort_head in Ex as [Hx Hxmax]; [|apply _]. apply js_sort_head in Ey as [Hy Hymax]; [|apply _].
      destruct (Hxmax y Hy) as [->|H1]; [done|]. destruct (Hymax x Hx) as [->|H2]; [done|].
      eapply nodup_generation_inj; eauto. unfold by_generation_then_id, by_generation in *. case_match; lia.
Qed.

Lemma head_js_sort_elem {A} (cmp : A -> A -> Z) l x : head (js_sort cmp l) = Some x -> x ∈ l.
Proof.
  intros H. apply (elem_of_js_sort cmp). destruct (js_sort cmp l); [discriminate|]. injection H as ->. apply list_elem_of_here.
Qed.

(** What a successful look at the attempts of a session establishes. *)
Lemma latestAttemptForSession_Ok p sid sg t g latest n :
  latestAttemptForSession p sid sg t g = Ok (latest, n) ->
  latest = head (js_sort by_generation (session_attempts p sid sg)) /\
  (forall a, a ∈ session_attempts p sid sg -> Some (af_taskId a) = t /\ Some (af_taskGeneration a) = g) /\
  (forall a, a ∈ session_attempts p sid sg -> latest = Some a \/ attempt_over a = true) /\
  (forall a, a ∈ session_attempts p sid sg -> af_attemptGeneration a < n) /\
  NoDup (List.map af_attemptGeneration (session_attempts p sid sg)).
Proof.
  unfold latestAttemptForSession. intros H. apply bind_Ok in H as (u & Hc & H). apply bind_Ok in H as ([] & Hlive & H).
  apply bind_Ok in H as ([] & Hold & H). apply bind_Ok in H as ([] & Hn & H). injection H as <- <-.
  apply check_attempts_Ok in Hc as [Hnd Hall]. apply ensure_Ok in Hold.
  split; [by rewrite latest_agree|]. split; [intros a Ha; apply Hall in Ha; tauto|].
  destruct (js_sort by_generation_then_id (session_attempts p sid sg)) as [|x r] eqn:E.
  - apply js_sort_nil in E. rewrite E. split; [|split; [|constructor]]; intros a Ha; by apply not_elem_of_nil in Ha.
  - cbn in *. pose proof (js_sort_head _ _ _ _ E) as [Hx Hmax]. split; [|split; [|done]].
    + intros a Ha. rewrite <-(elem_of_js_sort by_generation_then_id), E in Ha.
      apply elem_of_cons in Ha as [->|Ha]; [by left|right]. rewrite forallb_forall in Hold. apply Hold. by apply list_elem_of_In.
    + intros a Ha. destruct (Hmax a Ha) as [->|Hle]; [lia|].
      unfold by_generation_then_id, by_generation in Hle. case_match; lia.
Qed.
End latest.

(** * The two derivations agree *)

Section agreement.
Context {C : Collation}.
Implicit Types p : ControlProjection.

Lemma steering_target_Ok p sid head now task :
  steering_target p sid head now = Ok task ->
  task = steering_task_of p (runtime_of p sid) /\ runtime_of p sid <> Inherited /\ isSome now = true /\
  (isSome (field (runtime_of p sid) rf_taskId) = true -> present task = true) /\
  (isSome (field (runtime_of p sid) rf_taskId) = isSome (field (runtime_of p sid) rf_taskGeneration)).
Proof.
  unfold steering_target. intros H. do 3 (apply bind_Ok in H as ([] & _ & H)).
  apply bind_Ok in H as ([] & Hnow & H). apply bind_Ok in H as ([] & _ & H). apply bind_Ok in H as ([] & Hts & H).
  apply bind_Ok in H as ([] & Hm & H). apply bind_Ok in H as ([] & Hh & H). injection H as <-.
  apply ensure_Ok in Hnow, Hts, Hm, Hh. split; [done|]. split.
  { intros E. rewrite E in Hts. discriminate. }
  split; [done|]. split.
  - intros E. rewrite E in Hm. cbn in Hm. by rewrite negb_involutive in Hm.
  - by apply Bool.eqb_prop.
Qed.

(** No task is filed under the empty id, which is no identifier. *)
Definition no_empty_id p : Prop := c_tasks p !! EmptyString = None.

Lemma task_of_agree p sid :
  no_empty_id p ->
  (isSome (field (runtime_of p sid) rf_taskId) = true -> present (steering_task_of p (runtime_of p sid)) = true) ->
  task_of p (runtime_of p sid) = steering_task_of p (runtime_of p sid) /\
  truthy (field (runtime_of p sid) rf_taskId) = isSome (field (runtime_of p sid) rf_taskId).
Proof.
  intros Hne. unfold task_of, steering_task_of. destruct (field (runtime_of p sid) rf_taskId) as [t|]; [|done].
  cbn. case_bool_decide as E; [|done]. subst t. unfold obj_get. rewrite Hne. cbn. intros Hp. by specialize (Hp eq_refl).
Qed.

(** Past the run, the missing runtime and the stale generation, both switches
    give the same state and reason. *)
Lemma steering_state_agree p sid now head r task latest :
  runtime_of p sid = Own r ->
  generation_stale task (rf_taskGeneration r) = false ->
  (forall a, latest = Some a -> exists t, task = Own t) ->
  let sr := steering_state r task latest in
  let finish := activity_base p sid now head (Own r) false in
  let status := match task with Own t => Some t.(tf_status) | _ => None end in
  let summary := match task with Own t => t.(tf_lastSummary) | _ => None end in
  let observation := Some (rf_observation r) in
  finish sr.1.1 sr.1.2 =
    (if bool_decide (observation = Some obs_exited) then finish act_exited (reason_or (rf_reason r) "session generation exited")
     else if bool_decide (observation = Some obs_blocked) then
       finish act_blocked (reason_or (rf_reason r) "session requires a control-plane decision")
     else if bool_decide (status = Some ts_escalated) then
       finish act_exited (text_of_string "task escalated and this session generation is terminal")
     else if bool_decide (status = Some ts_done) then finish act_exited (text_of_string "task completed")
     else if bool_decide (status = Some ts_blocked) then finish act_blocked (reason_or summary "task blocked")
     else let sr' := derive_from_attempts observation (rf_reason r) (truthy (rf_taskId r)) (Own r) task latest in
          finish sr'.1 sr'.2).
Proof.
  intros Hr Hstale Htask. cbv zeta.
  assert (forall t, task = Own t -> task_terminal t = bool_decide (tf_status t = ts_done \/ tf_status t = ts_escalated)) as Hterm.
  { intros t _. unfold task_terminal. apply bool_decide_ext. rewrite !elem_of_cons, elem_of_nil. tauto. }
  unfold steering_state, derive_from_attempts. destruct latest as [a|].
  - destruct (Htask a eq_refl) as [t ->]. specialize (Hterm t eq_refl).
    destruct (rf_observation r) eqn:Ho; cbn; try done; destruct (tf_status t) eqn:Hs; cbn; rewrite ?Hs; try done;
      destruct (af_state a); cbn; try done; unfold task_terminal; rewrite ?Hs; cbn; destruct (boundary_after r a); done.
  - destruct (rf_observation r) eqn:Ho; cbn; try done; destruct task as [| |t]; cbn; try done;
      destruct (tf_status t); done.
Qed.

Lemma deriveSteeringActivity_agrees p sid now authority a :
  no_empty_id p ->
  deriveSteeringActivity p sid now authority = Ok a -> sa_activity a = deriveActivity p sid now authority.
Proof.
  intros Hne. unfold deriveSteeringActivity, deriveActivity. intros H. cbv zeta in H |- *.
  apply bind_Ok in H as (task & Htarget & H).
  apply steering_target_Ok in Htarget as (-> & Hinh & _ & Hpres & Hhalf).
  destruct (task_of_agree p sid Hne Hpres) as [-> Htruthy].
  apply bind_Ok in H as ([latest n] & Hlatest & H).
  unfold run_over in *. destruct (c_run p) as [run|]; [destruct (bool_decide (rn_status run = _))|];
    try (injection H as <-; reflexivity); cbn [default from_option id].
  all: destruct (runtime_of p sid) as [| |r] eqn:Hr; [injection H as <-; done|done|]; cbn [field present negb] in *;
    apply bind_Ok in H as ([] & _ & H);
    destruct (generation_stale _ (rf_taskGeneration r)) eqn:Hstale; [injection H as <-; done|];
    apply latestAttemptForSession_Ok in Hlatest as (-> & Htgt & _ & _ & _);
    pose proof (steering_state_agree p sid now (default (c_headSeq p) authority) r (steering_task_of p (Own r))
      (head (js_sort by_generation (session_attempts p sid (Some (rf_sessionGeneration r))))) Hr Hstale) as Hagree;
    cbn [fst] in *; destruct (steering_state r _ _) as [[st why] cert]; injection H as <-; cbn [sa_activity finish fst snd] in *;
    apply Hagree; intros x Hx; apply head_js_sort_elem, Htgt in Hx as [Ht Hg];
    unfold steering_task_of in *; cbn [field] in *; rewrite <-Ht, <-Hg in *; specialize (Hpres eq_refl);
    destruct (obj_get (c_tasks p) (af_taskId x)) as [| |y]; [discriminate|discriminate|by exists y].
Qed.
End agreement.

(** * Capture only at a proven boundary *)

(** A task the session may be steered on: its current generation, and not
    finished, escalated or blocked. *)
Definition steerable_task (task : slot TaskFact) (taskGeneration : option Z) : Prop :=
  match task with
  | Own t => Some (tf_generation t) = taskGeneration /\
      tf_status t <> ts_done /\ tf_status t <> ts_escalated /\ tf_status t <> ts_blocked
  | Absent => True
  | Inherited => taskGeneration = None
  end.

Record proven_boundary (p : ControlProjection) (sid : string) (r : RuntimeFact) : Prop := {
  boundary_run run : c_run p = Some run -> rn_status run = run_started_status;
  boundary_runtime : c_runtimes p !! sid = Some r /\ rf_observation r = obs_waiting_input;
  boundary_task : steerable_task (steering_task_of p (Own r)) (rf_taskGeneration r);
  boundary_attempts x : x ∈ session_attempts p sid (Some (rf_sessionGeneration r)) -> attempt_over x = true;
  boundary_latest x : x ∈ session_attempts p sid (Some (rf_sessionGeneration r)) ->
    (forall y, y ∈ session_attempts p sid (Some (rf_sessionGeneration r)) -> af_attemptGeneration y <= af_attemptGeneration x) ->
    exists t, terminal_seq x = Some t /\ t < rf_updatedSeq r
}.

Lemma steering_state_waiting r task latest st :
  steering_state r task latest = st -> st.1.1 = act_waiting_input ->
  rf_observation r = obs_waiting_input /\
  (forall t, task = Own t -> tf_status t <> ts_done /\ tf_status t <> ts_escalated /\ tf_status t <> ts_blocked) /\
  (forall a, latest = Some a -> attempt_over a = true /\ boundary_after r a = true).
Proof.
  intros <-. unfold steering_state.
  destruct (rf_observation r) eqn:Ho; try (repeat case_match; cbn; discriminate).
  destruct (bool_decide _) eqn:E1; [cbn; discriminate|]. destruct (bool_decide _) eqn:E2 in |- *; [cbn; discriminate|].
  destruct (bool_decide _) eqn:E3 in |- *; [cbn; discriminate|]. intros H. split; [done|]. split.
  - intros t ->. guards. cbn in *. repeat split; congruence.
  - intros a ->. unfold attempt_over. destruct (af_state a); cbn in *; try discriminate;
      (destruct (boundary_after r a); [done|discriminate]).
Qed.

Lemma session_attempts_elem p sid sg x :
  x ∈ session_attempts p sid sg <-> (exists k, c_attempts p !! k = Some x) /\ af_sessionId x = sid /\ Some (af_sessionGeneration x) = sg.
Proof.
  unfold session_attempts. rewrite list_elem_of_In, filter_In, <-list_elem_of_In, elem_of_obj_values.
  rewrite andb_true_iff, !bool_decide_eq_true. tauto.
Qed.

Section capture.
Context {C : Collation}.
Implicit Types p : ControlProjection.

Lemma capture_at_boundary p sid now authority a :
  deriveSteeringActivity p sid now authority = Ok a -> canCaptureSteering a = true ->
  exists r, proven_boundary p sid r.
Proof.
  unfold deriveSteeringActivity. intros H Hcap. cbv zeta in H.
  apply bind_Ok in H as (task & Htarget & H). apply steering_target_Ok in Htarget as (-> & Hinh & _ & Hpres & Hhalf).
  apply bind_Ok in H as ([latest n] & Hlatest & H). unfold canCaptureSteering in Hcap. guards.
  assert (forall run, c_run p = Some run -> rn_status run = run_started_status) as Hrun.
  { unfold run_over in H. intros run E. rewrite E in H. case_bool_decide; [done|]. injection H as <-. discriminate. }
  assert (run_over p (fun why => finish (activity_base p sid now (default (c_headSeq p) authority) (runtime_of p sid)
    (generation_stale (steering_task_of p (runtime_of p sid)) (field (runtime_of p sid) rf_taskGeneration))
    act_exited why) n proven) = None) as Hover.
  { unfold run_over. destruct (c_run p) as [run|]; [|done]. by rewrite bool_decide_eq_true_2 by (by apply Hrun). }
  cbn [snd] in H. rewrite Hover in H. clear Hover.
  destruct (runtime_of p sid) as [| |r] eqn:Hr; [injection H as <-; discriminate|done|].
  apply bind_Ok in H as ([] & _ & H). cbn [field] in *.
  destruct (generation_stale _ (rf_taskGeneration r)) eqn:Hstale; [injection H as <-; discriminate|].
  cbn [fst] in H. destruct (steering_state r _ latest) as [[st why] cert] eqn:Hss. injection H as <-. cbn in *.
  apply steering_state_waiting in Hss as (Ho & Htask & Hlast); [|done].
  apply latestAttemptForSession_Ok in Hlatest as (-> & Htgt & Hold & _ & Hnd).
  exists r. apply obj_get_Own in Hr. split; [done|done| | |].
  - unfold steerable_task, generation_stale in *. destruct (steering_task_of p (Own r)) as [| |t]; [done| |].
    + by destruct (rf_taskGeneration r).
    + guards. split; [done|]. by apply Htask.
  - intros x Hx. destruct (Hold x Hx) as [E|]; [|done]. by apply Hlast.
  - intros x Hx Hmax. assert (head (js_sort by_generation (session_attempts p sid (Some (rf_sessionGeneration r)))) = Some x) as Hhead.
    { destruct (js_sort by_generation _) as [|y l] eqn:E; [apply js_sort_nil in E; rewrite E in Hx; by apply not_elem_of_nil in Hx|].
      apply js_sort_head in E as [Hy Hymax]; [|apply _]. cbn. f_equal.
      destruct (Hymax x Hx) as [->|Hle]; [done|]. specialize (Hmax y Hy). unfold by_generation in Hle.
      eapply nodup_generation_inj; eauto. lia. }
    destruct (Hlast x Hhead) as [_ Hb]. unfold boundary_after in Hb. apply andb_true_iff in Hb as [_ Hb].
    destruct (terminal_seq x) as [t|]; [|done]. exists t. split; [done|lia].
Qed.
End capture.

(** * The stricter derivation is total on well-behaved sessions *)

(** A session that names a task names a generation of an existing one. *)
Definition sessions_scoped (p : ControlProjection) : Prop :=
  forall id r, c_runtimes p !! id = Some r ->
  match rf_taskId r, rf_taskGeneration r with
  | Some t, Some _ => exists task, c_tasks p !! t = Some task
  | None, None => True
  | _, _ => False
  end.

Lemma sessions_scoped_mono p p' :
  c_runtimes p' = c_runtimes p -> tasks_le (c_tasks p) (c_tasks p') -> sessions_scoped p -> sessions_scoped p'.
Proof.
  intros Hr Hle Hs id r Hlk. rewrite Hr in Hlk. specialize (Hs id r Hlk).
  destruct (rf_taskId r), (rf_taskGeneration r); try done. destruct Hs as [task Ht].
  destruct (Hle _ _ Ht) as (task' & ? & _). eauto.
Qed.

Lemma applied_sessions_scoped {D : Digest} p pe p' :
  sessions_scoped p -> applyControlEvent p pe = Ok p' -> sessions_scoped p'.
Proof.
  intros Hs H. pose proof (applied_tasks_le _ _ _ H) as Hle.
  destruct (decide (component_of pe.(pe_event).(ev_payload) = comp_runtimes)) as [Hc|Hc].
  2: { eapply sessions_scoped_mono; [|done|done]. apply applyControlEvent_frame in H. cbn in H. by apply H. }
  pose proof (applyControlEvent_frame _ _ _ H) as Hfr. cbn in Hfr. destruct Hfr as (_ & _ & _ & _ & Htasks & _).
  rewrite Hc in Htasks. specialize (Htasks ltac:(done) ltac:(done)).
  apply applyControlEvent_Ok in H as (u & agg & st & Hscope & _ & _ & _ & _ & _ & Hon & ->).
  intros id r Hlk. rewrite Htasks. change (c_runtimes st !! id = Some r) in Hlk.
  unfold on_event in Hon. destruct (ev_payload (pe_event pe)); try discriminate Hc.
  unfold on_runtime_observed in Hon. apply bind_Ok in Hon as (v & Htask & Hon).
  apply bind_Ok in Hon as (? & _ & Hon). injection Hon as <-.
  cbn in Hlk. apply lookup_insert_Some in Hlk as [[_ <-]|[_ Hlk]]; [|by apply (Hs id)]. cbn.
  apply assertControlEventScope_both in Hscope. unfold assertOptionalTask in Htask.
  destruct (ev_taskId (pe_event pe)) as [t|], (ev_taskGeneration (pe_event pe)) as [g|]; try done.
  - apply bind_Ok in Htask as (task & Ht & _). apply assertTask_Ok in Ht as [Ht _]. eauto.
  - destruct Hscope as [Hscope _]. by specialize (Hscope eq_refl).
Qed.

Lemma obj_values_NoDup (m : obj AttemptFact) :
  (forall id a, m !! id = Some a -> af_attemptId a = id) -> NoDup (obj_values m).
Proof.
  intros Hk. unfold obj_values. apply NoDup_fmap_2_strong; [|apply NoDup_map_to_list].
  intros [k a] [k' a'] Hx Hy E. cbn in E. subst a'.
  apply elem_of_map_to_list in Hx, Hy. apply Hk in Hx as <-. by apply Hk in Hy as <-.
Qed.

(** The attempts of the session's current generation belong to its task and are
    numbered apart. *)
Lemma session_attempts_target p sid r x :
  projection_wf p -> c_runtimes p !! sid = Some r -> x ∈ session_attempts p sid (Some (rf_sessionGeneration r)) ->
  Some (af_taskId x) = rf_taskId r /\ Some (af_taskGeneration x) = rf_taskGeneration r.
Proof.
  intros Hwf Hr ([k Hk] & Hs & Hg)%session_attempts_elem.
  destruct (wf_attempt_targets _ Hwf _ _ Hk) as [(r' & Hr' & _ & Heq) _]. rewrite Hs in Hr'.
  assert (r' = r) as -> by congruence. destruct Heq as [-> ->]; [congruence|done].
Qed.

Lemma session_attempts_NoDup p sid r :
  projection_wf p -> c_runtimes p !! sid = Some r ->
  NoDup (List.map af_attemptGeneration (session_attempts p sid (Some (rf_sessionGeneration r)))).
Proof.
  intros Hwf Hr. apply NoDup_fmap_2_strong.
  - intros x y Hx Hy E. destruct (session_attempts_target _ _ _ _ Hwf Hr Hx) as [Hxt Hxg].
    destruct (session_attempts_target _ _ _ _ Hwf Hr Hy) as [Hyt Hyg].
    apply session_attempts_elem in Hx as ([k Hk] & _), Hy as ([k' Hk'] & _).
    pose proof (attempts_unique _ _ (wf_attempts _ Hwf) k k' x y Hk Hk') as Hu.
    assert (k = k') as -> by (apply Hu; unfold attempt_slot; congruence). congruence.
  - unfold session_attempts. apply NoDup_ListNoDup, List.NoDup_filter, NoDup_ListNoDup, obj_values_NoDup.
    by apply (attempts_keyed _ _ (wf_attempts _ Hwf)).
Qed.

Section total.
Context {C : Collation}.
Implicit Types p : ControlProjection.

Lemma check_attempts_total seen t g l :
  NoDup (List.map af_attemptGeneration l) ->
  (forall a, a ∈ l -> (af_attemptGeneration a ∉ seen) /\ Some (af_taskId a) = t /\ Some (af_taskGeneration a) = g /\
     1 <= af_attemptGeneration a < MAX_SAFE_INTEGER) ->
  check_attempts seen t g l = Ok tt.
Proof.
  revert seen. induction l as [|a l IH]; intros seen Hnd Hall; [done|]. cbn in *.
  apply NoDup_cons in Hnd as [Hna Hnd]. destruct (Hall a (list_elem_of_here _ _)) as (Hns & Ht & Hg & Hgen).
  rewrite (proj2 (andb_true_iff (isSafeInteger _) _)); [|unfold isSafeInteger, MAX_SAFE_INTEGER in *; rewrite andb_true_iff, !Z.leb_le; lia].
  cbn. rewrite (bool_decide_eq_false_2 _ Hns). cbn. rewrite (bool_decide_eq_true_2 _ Ht), (bool_decide_eq_true_2 _ Hg). cbn.
  apply IH; [done|]. intros b Hb. destruct (Hall b (list_elem_of_further _ _ _ Hb)) as (Hnb & ? & ? & ?).
  split; [|done]. intros [E|Hin]%elem_of_cons; [|done]. apply Hna. rewrite <-E. apply list_elem_of_fmap. eauto.
Qed.

(** At most one element of a duplicate-free list is unlike the others. *)
Lemma filter_at_most_one {A} (f : A -> bool) (l : list A) :
  NoDup l -> (forall x y, x ∈ l -> y ∈ l -> f x = true -> f y = true -> x = y) ->
  (length (List.filter f l) <= 1)%nat.
Proof.
  induction l as [|a l IH]; intros Hnd Hone; cbn; [lia|]. apply NoDup_cons in Hnd as [Ha Hnd].
  assert (length (List.filter f l) <= 1)%nat as Hle.
  { apply IH; [done|]. intros x y Hx Hy. apply Hone; by apply list_elem_of_further. }
  destruct (f a) eqn:E; [|lia]. cbn.
  destruct (List.filter f l) as [|b r] eqn:Ef; [cbn; lia|]. exfalso.
  assert (In b (List.filter f l)) as Hb by (rewrite Ef; by left). apply filter_In in Hb as [Hb Hfb].
  apply list_elem_of_In in Hb. apply Ha. rewrite (Hone a b); [done|apply list_elem_of_here|by apply list_elem_of_further|done|done].
Qed.

(** Only the latest attempt of the session generation may be live. *)
Definition latest_live p sid (sg : option Z) : Prop :=
  forall x y, x ∈ session_attempts p sid sg -> y ∈ session_attempts p sid sg -> attempt_over x = false ->
  af_attemptGeneration y <= af_attemptGeneration x.

Lemma latestAttemptForSession_total p sid r :
  projection_wf p -> c_runtimes p !! sid = Some r -> latest_live p sid (Some (rf_sessionGeneration r)) ->
  (forall x, x ∈ session_attempts p sid (Some (rf_sessionGeneration r)) -> af_attemptGeneration x < MAX_SAFE_INTEGER) ->
  exists res, latestAttemptForSession p sid (Some (rf_sessionGeneration r)) (rf_taskId r) (rf_taskGeneration r) = Ok res.
Proof.
  intros Hwf Hr Hlive Hmax. pose proof (session_attempts_NoDup _ _ _ Hwf Hr) as Hnd.
  assert (forall x, x ∈ session_attempts p sid (Some (rf_sessionGeneration r)) -> 1 <= af_attemptGeneration x) as Hpos.
  { intros x ([k Hk] & _)%session_attempts_elem. by eapply (attempts_positive _ _ (wf_attempts _ Hwf)). }
  pose proof (fun x => session_attempts_target p sid r x Hwf Hr) as Htgt.
  unfold latestAttemptForSession. set (l := session_attempts p sid (Some (rf_sessionGeneration r))) in *.
  rewrite check_attempts_total; [|done|].
  2: { intros a Ha. split; [apply not_elem_of_nil|]. destruct (Htgt a Ha). split; [done|]. split; [done|]. auto. }
  cbn. assert (forall x y, x ∈ l -> y ∈ l -> negb (attempt_over x) = true -> negb (attempt_over y) = true -> x = y) as Hone.
  { intros x y Hx Hy Hlx Hly. apply negb_true_iff in Hlx, Hly. pose proof (Hlive x y Hx Hy Hlx).
    pose proof (Hlive y x Hy Hx Hly). eapply nodup_generation_inj; eauto. lia. }
  rewrite (proj2 (Z.leb_le _ 1)).
  2: { pose proof (filter_at_most_one _ l (NoDup_fmap_1 _ _ Hnd) Hone). lia. }
  cbn. destruct (js_sort by_generation_then_id l) as [|x t] eqn:E.
  { eexists. reflexivity. }
  cbn. pose proof (js_sort_head _ _ _ _ E) as [Hx Hxmax].
  assert (forallb attempt_over t = true) as ->.
  { apply forallb_forall. intros y Hy%list_elem_of_In. destruct (attempt_over y) eqn:Ho; [done|]. exfalso.
    assert (y ∈ l) as Hyl by (rewrite <-(elem_of_js_sort by_generation_then_id), E; by apply list_elem_of_further).
    assert (x = y) as ->.
    { destruct (Hxmax y Hyl) as [->|Hle]; [done|]. pose proof (Hlive y x Hyl Hx Ho) as Hge.
      unfold by_generation_then_id, by_generation in Hle. eapply nodup_generation_inj; eauto. case_match; lia. }
    assert (NoDup (js_sort by_generation_then_id l)) as Hnds by (rewrite js_sort_Permutation; by eapply NoDup_fmap_1).
    rewrite E in Hnds. by apply NoDup_cons in Hnds as [? _]. }
  cbn. assert (isSafeInteger (af_attemptGeneration x + 1) = true) as ->.
  { unfold isSafeInteger. specialize (Hpos x Hx). specialize (Hmax x Hx). unfold MAX_SAFE_INTEGER in *.
    rewrite andb_true_iff, !Z.leb_le. lia. }
  eexists. reflexivity.
Qed.

(** A session the stricter derivation has no reason to refuse. *)
Record observable p sid (now authority : option Z) : Prop := {
  observable_clock : isSome now = true;
  observable_head : c_headSeq p <= default (c_headSeq p) authority <= MAX_SAFE_INTEGER;
  observable_id : sid ∉ objectPrototypeKeys;
  observable_runtime r : c_runtimes p !! sid = Some r ->
    isSome (Date_parse (rf_observedAt r)) = true /\ 1 <= rf_sessionGeneration r <= MAX_SAFE_INTEGER /\
    latest_live p sid (Some (rf_sessionGeneration r)) /\
    (forall x, x ∈ session_attempts p sid (Some (rf_sessionGeneration r)) -> af_attemptGeneration x < MAX_SAFE_INTEGER)
}.

Lemma steering_target_total p sid now authority :
  projection_wf p -> sessions_scoped p -> observable p sid now authority ->
  steering_target p sid (default (c_headSeq p) authority) now = Ok (steering_task_of p (runtime_of p sid)).
Proof.
  intros Hwf Hsc [Hclock Hhead Hid Hrt]. unfold steering_target, is_sequence. pose proof (wf_head _ Hwf) as H0.
  assert (forall n, 0 <= n <= MAX_SAFE_INTEGER -> isSafeInteger n && (0 <=? n) = true) as Hsafe.
  { intros n Hn. unfold isSafeInteger, MAX_SAFE_INTEGER in *. rewrite !andb_true_iff, !Z.leb_le. lia. }
  rewrite !Hsafe by lia. cbn. rewrite (proj2 (Z.ltb_ge _ _)) by lia. cbn. rewrite Hclock. cbn.
  destruct (runtime_of p sid) as [| |r] eqn:Hr; unfold runtime_of in Hr.
  - cbn. assert (existsb (fun a => bool_decide (af_sessionId a = sid)) (obj_values (c_attempts p)) = false) as ->; [|done].
    apply existsb_obj_values_false. intros k a Ha. apply bool_decide_eq_false. intros <-.
    destruct (wf_attempt_targets _ Hwf _ _ Ha) as [(r & Hlk & _) _]. apply obj_get_Absent in Hr. congruence.
  - exfalso. unfold obj_get in Hr. destruct (c_runtimes p !! sid); [discriminate|]. by rewrite bool_decide_eq_false_2 in Hr.
  - apply obj_get_Own in Hr. destruct (Hrt r Hr) as (Hts & _).
    cbn. rewrite Hts. cbn.
    specialize (Hsc _ _ Hr). unfold steering_task_of. cbn [field].
    destruct (rf_taskId r) as [t|], (rf_taskGeneration r) as [g|]; try done; cbn.
    { destruct Hsc as [task Ht]. apply obj_get_Own in Ht. by rewrite Ht. }
Qed.

Lemma deriveSteeringActivity_total p sid now authority :
  projection_wf p -> sessions_scoped p -> observable p sid now authority ->
  exists a, deriveSteeringActivity p sid now authority = Ok a.
Proof.
  intros Hwf Hsc Hobs. unfold deriveSteeringActivity. cbv zeta.
  rewrite (steering_target_total _ _ _ _ Hwf Hsc Hobs). cbn [mbind result_bind].
  destruct Hobs as [_ _ Hid Hrt]. destruct (runtime_of p sid) as [| |r] eqn:Hr.
  - cbn. destruct (run_over p _); eauto.
  - exfalso. unfold runtime_of, obj_get in Hr. destruct (c_runtimes p !! sid); [discriminate|].
    by rewrite bool_decide_eq_false_2 in Hr.
  - apply obj_get_Own in Hr. destruct (Hrt r Hr) as (_ & Hgen & Hlive & Hmax).
    destruct (latestAttemptForSession_total p sid r Hwf Hr Hlive Hmax) as [res Hres]. cbn [field]. rewrite Hres. cbn [mbind result_bind].
    destruct (run_over p _); [eauto|]. rewrite (proj2 (andb_true_iff _ _)).
    2: { unfold isSafeInteger, MAX_SAFE_INTEGER in *. rewrite andb_true_iff, !Z.leb_le. lia. }
    cbn [ensure mbind result_bind]. destruct (generation_stale _ _); [eauto|].
    destruct (steering_state r _ _) as [[st why] cert]. eauto.
Qed.
End total.

Lemma reachable_scoped {D : Digest} runId runEpoch events p :
  reduceControlEvents runId runEpoch events None = Ok p -> sessions_scoped p.
Proof.
  apply (reduce_invariant sessions_scoped); [|intros *; apply applied_sessions_scoped].
  intros id r. cbn. by rewrite lookup_empty.
Qed.

(** Every result is built by [finish], and the generation it announces is above
    the attempts of the session. *)
Lemma deriveSteeringActivity_shape {C : Collation} p sid now authority a :
  deriveSteeringActivity p sid now authority = Ok a ->
  (exists act n c, a = finish act n c) /\
  (forall r x, runtime_of p sid = Own r -> x ∈ session_attempts p sid (Some (rf_sessionGeneration r)) ->
     af_attemptGeneration x < sa_nextAttemptGeneration a).
Proof.
  unfold deriveSteeringActivity. intros H. cbv zeta in H.
  apply bind_Ok in H as (task & _ & H). apply bind_Ok in H as ([latest n] & Hlatest & H).
  assert (exists act c, a = finish act n c) as (act & c & ->).
  { unfold run_over in H. repeat case_match; simplify_eq; eauto; apply bind_Ok in H as ([] & _ & H);
      repeat case_match; simplify_eq; eauto. }
  split; [eauto|]. intros r x Hr Hx. rewrite Hr in Hlatest. cbn in Hlatest.
  apply latestAttemptForSession_Ok in Hlatest as (_ & _ & _ & Hlt & _). by apply Hlt.
Qed.

Lemma finish_capture act n c : canCaptureSteering (finish act n c) = true -> sa_admission (finish act n c) = next_boundary.
Proof. unfold canCaptureSteering. cbn. intros H. guards. by rewrite H. Qed.
