(* ===== verification/SteeringSchema.v ===== *)
(** SteeringSchema: the steering data of src/steering/types.ts and the closed
    validators, semantic comparison and identifier generation of
    src/steering/schema.ts. *)
From S2P Require Import Prelude Text Json Ids ScmTypes ScmSchema ControlEvents EventSchema.

Definition STEERING_EVIDENCE_MAX_REFS : Z := 32.
Definition STEERING_BOUNDARY_MAX_COMMANDS : Z := 32.

(** * Data *)

(** The fence a command, a refusal and a prompt manifest share. *)
Record SteeringScope := {
  scope_runId : string;
  scope_runEpoch : string;
  scope_taskId : string;
  scope_taskGeneration : Z;
  scope_sessionId : string;
  scope_sessionGeneration : Z
}.
#[export] Instance SteeringScope_eq_dec : EqDecision SteeringScope. Proof. solve_decision. Defined.

Record SteeringTargetV1 := {
  target_scope : SteeringScope;
  target_notBeforeAttemptGeneration : Z
}.

Record SteeringCommandDraftV1 := {
  sd_target : SteeringTargetV1;
  sd_commandId : string;
  sd_kind : SteeringCommandKind;
  sd_sourceKind : SteeringSourceKind;
  sd_parentPrincipal : string;
  sd_evidenceRefs : list string;
  sd_body : text;
  sd_createdAt : string;
  sd_expiresAt : option string;
  sd_supersedesCommandId : option string
}.

Record SteeringCommandV1 := {
  sc_draft : SteeringCommandDraftV1;
  sc_bodySha256 : string
}.
Definition sc_commandId (c : SteeringCommandV1) : string := c.(sc_draft).(sd_commandId).
Definition sc_scope (c : SteeringCommandV1) : SteeringScope := c.(sc_draft).(sd_target).(target_scope).
Definition sc_notBefore (c : SteeringCommandV1) : Z := c.(sc_draft).(sd_target).(target_notBeforeAttemptGeneration).

Record SteeringRefusalV1 := {
  rv_commandId : string;
  rv_scope : SteeringScope;
  rv_bodySha256 : string;
  rv_requestSemanticDigest : string;
  rv_observedSeq : Z;
  rv_observedActivity : ObservedActivity;
  rv_reasonCode : SteeringRefusalReasonCode
}.

(** One constructor per member of the union [SteeringCommandRecord]. *)
Inductive SteeringCommandRecord :=
| rec_pending (command : SteeringCommandV1) (admittedSeq : Z)
| rec_included (command : SteeringCommandV1) (admittedSeq terminalSeq : Z) (attemptId : string)
    (attemptGeneration : Z) (promptSha256 : string)
| rec_withdrawn (command : SteeringCommandV1) (admittedSeq terminalSeq : Z) (reason : option text)
| rec_superseded (command : SteeringCommandV1) (admittedSeq terminalSeq : Z) (byCommandId : string)
| rec_expired (command : SteeringCommandV1) (admittedSeq terminalSeq : Z)
| rec_refused (refusal : SteeringRefusalV1) (terminalSeq : Z)
| rec_terminal_refused (command : SteeringCommandV1) (admittedSeq terminalSeq : Z)
    (requestSemanticDigest : string) (observedSeq : Z).

Record SteeringPromptManifestFact := {
  mf_attemptId : string;
  mf_attemptGeneration : Z;
  mf_scope : SteeringScope;
  mf_artifactLocator : string;
  mf_promptSha256 : string;
  mf_promptBytes : Z;
  mf_rendererVersion : Z;
  mf_captureCutoffSeq : Z;
  mf_steeringCommandIds : list string;
  mf_preparedSeq : Z
}.

Record SteeringProjection := {
  sp_runId : string;
  sp_runEpoch : string;
  sp_observedSeq : Z;
  sp_commands : obj SteeringCommandRecord;
  sp_manifests : obj SteeringPromptManifestFact
}.

(** * Bodies *)

(** Noncharacters, and control scalars other than tab and line feed. *)
Definition disallowed_scalar (codePoint : Z) : bool :=
  ((64976 <=? codePoint) && (codePoint <=? 65007))
  || (Z.land codePoint 65535 =? 65534) || (Z.land codePoint 65535 =? 65535)
  || ((codePoint <? 32) && negb (codePoint =? 9) && negb (codePoint =? 10))
  || ((127 <=? codePoint) && (codePoint <=? 159)).

(** Valid, and the number of scalars read. *)
Fixpoint analyzeUnicode (scalars : Z) (value : text) : bool * Z :=
  match value with
  | [] => (true, scalars)
  | first :: rest =>
      if is_high first then
        match rest with
        | second :: rest' =>
            if is_low second then
              if disallowed_scalar (65536 + (first - 55296) * 1024 + (second - 56320)) then (false, scalars)
              else analyzeUnicode (scalars + 1) rest'
            else (false, scalars)
        | [] => (false, scalars)
        end
      else if is_low first then (false, scalars)
      else if disallowed_scalar first then (false, scalars)
      else analyzeUnicode (scalars + 1) rest
  end.

(** [value.replace(/\r\n?/g, "\n")] *)
Fixpoint normalize_newlines (value : text) : text :=
  match value with
  | [] => []
  | c :: rest =>
      if c =? 13 then
        10 :: match rest with
              | d :: rest' => if d =? 10 then normalize_newlines rest' else normalize_newlines rest
              | [] => []
              end
      else c :: normalize_newlines rest
  end.

Inductive SteeringBodyError := BodyDisallowedScalar | BodyEmpty | BodyTooManyScalars | BodyTooManyBytes.

Definition normalizeSteeringBody (value : text) : result SteeringBodyError text :=
  let normalized := normalize_newlines value in
  let analysis := analyzeUnicode 0 normalized in
  ensure analysis.1 BodyDisallowedScalar ;;
  ensure (negb (analysis.2 =? 0)) BodyEmpty ;;
  ensure (negb (STEERING_BODY_MAX_SCALARS <? analysis.2)) BodyTooManyScalars ;;
  ensure (negb (STEERING_BODY_MAX_BYTES <? utf8_length normalized)) BodyTooManyBytes ;;
  Ok normalized.

(** The schema rewrites the body, then refines it: [None] when an issue is added. *)
Definition SteeringBodySchema (value : text) : option text :=
  let normalized := normalize_newlines value in
  let analysis := analyzeUnicode 0 normalized in
  if negb analysis.1 then None
  else if (analysis.2 =? 0) || (STEERING_BODY_MAX_SCALARS <? analysis.2)
          || (STEERING_BODY_MAX_BYTES <? utf8_length normalized) then None
  else Some normalized.

(** * Commands and refusals *)

Definition SteeringCommandIdSchema (s : string) : bool := uuid_from is_hex 0 s.

Definition SteeringScope_valid (t : SteeringScope) : bool :=
  boundedId t.(scope_runId) && boundedId t.(scope_runEpoch) && boundedId t.(scope_taskId) && positive t.(scope_taskGeneration)
  && boundedId t.(scope_sessionId) && positive t.(scope_sessionGeneration).

Definition SteeringTargetV1Schema (t : SteeringTargetV1) : bool :=
  SteeringScope_valid t.(target_scope) && positive t.(target_notBeforeAttemptGeneration).

Definition validateCommandRelations (d : SteeringCommandDraftV1) : bool :=
  unique d.(sd_evidenceRefs)
  && negb (bool_decide (d.(sd_supersedesCommandId) = Some d.(sd_commandId)))
  && match d.(sd_expiresAt) with
     | Some expiresAt => negb (time_le (Date_parse expiresAt) (Date_parse d.(sd_createdAt)))
     | None => true
     end.

Definition with_body (d : SteeringCommandDraftV1) (body : text) : SteeringCommandDraftV1 := {|
  sd_target := d.(sd_target); sd_commandId := d.(sd_commandId); sd_kind := d.(sd_kind); sd_sourceKind := d.(sd_sourceKind);
  sd_parentPrincipal := d.(sd_parentPrincipal); sd_evidenceRefs := d.(sd_evidenceRefs); sd_body := body;
  sd_createdAt := d.(sd_createdAt); sd_expiresAt := d.(sd_expiresAt);
  sd_supersedesCommandId := d.(sd_supersedesCommandId) |}.

Definition commandDraftShape (d : SteeringCommandDraftV1) : option SteeringCommandDraftV1 :=
  body ← SteeringBodySchema d.(sd_body);
  if SteeringCommandIdSchema d.(sd_commandId) && SteeringTargetV1Schema d.(sd_target) && boundedId d.(sd_parentPrincipal)
     && forallb boundedId d.(sd_evidenceRefs) && at_most STEERING_EVIDENCE_MAX_REFS d.(sd_evidenceRefs)
     && timestamp d.(sd_createdAt) && optional timestamp d.(sd_expiresAt)
     && optional SteeringCommandIdSchema d.(sd_supersedesCommandId)
  then Some (with_body d body) else None.

Definition parseSteeringCommandDraft (d : SteeringCommandDraftV1) : option SteeringCommandDraftV1 :=
  d' ← commandDraftShape d; if validateCommandRelations d' then Some d' else None.

Definition parseSteeringRefusal (r : SteeringRefusalV1) : option SteeringRefusalV1 :=
  if SteeringCommandIdSchema r.(rv_commandId) && SteeringScope_valid r.(rv_scope) && digest r.(rv_bodySha256)
     && digest r.(rv_requestSemanticDigest) && nonNegative r.(rv_observedSeq)
  then Some r else None.

Definition sameSteeringTarget (left right : SteeringScope) : bool :=
  bool_decide (left.(scope_runId) = right.(scope_runId)) && bool_decide (left.(scope_runEpoch) = right.(scope_runEpoch))
  && bool_decide (left.(scope_taskId) = right.(scope_taskId)) && (left.(scope_taskGeneration) =? right.(scope_taskGeneration))
  && bool_decide (left.(scope_sessionId) = right.(scope_sessionId))
  && (left.(scope_sessionGeneration) =? right.(scope_sessionGeneration)).

Section commands.
Context {D : Digest}.

Definition parseSteeringCommand (c : SteeringCommandV1) : option SteeringCommandV1 :=
  d ← commandDraftShape c.(sc_draft);
  if digest c.(sc_bodySha256) && validateCommandRelations d && bool_decide (c.(sc_bodySha256) = sha256Text d.(sd_body))
  then Some {| sc_draft := d; sc_bodySha256 := c.(sc_bodySha256) |} else None.

Definition materializeSteeringCommand (d : SteeringCommandDraftV1) : option SteeringCommandV1 :=
  draft ← parseSteeringCommandDraft d;
  parseSteeringCommand {| sc_draft := draft; sc_bodySha256 := sha256Text draft.(sd_body) |}.

(** * Semantic comparison *)

(** The fields of [steeringCommandSemanticValue], in the order of [steeringSemanticFields]. *)
Definition semantic_fields (c : SteeringCommandV1) : list (string * json) :=
  let d := c.(sc_draft) in
  let t := sc_scope c in
  [("schemaVersion", jnum 1); ("commandId", jstr d.(sd_commandId)); ("runId", jstr t.(scope_runId));
   ("runEpoch", jstr t.(scope_runEpoch)); ("taskId", jstr t.(scope_taskId));
   ("taskGeneration", jnum t.(scope_taskGeneration)); ("sessionId", jstr t.(scope_sessionId));
   ("sessionGeneration", jnum t.(scope_sessionGeneration)); ("notBeforeAttemptGeneration", jnum (sc_notBefore c));
   ("kind", jstr (SteeringCommandKind_name d.(sd_kind))); ("sourceKind", jstr (SteeringSourceKind_name d.(sd_sourceKind)));
   ("parentPrincipal", jstr d.(sd_parentPrincipal)); ("evidenceRefs", jlist jstr d.(sd_evidenceRefs));
   ("body", JString d.(sd_body)); ("bodySha256", jstr c.(sc_bodySha256)); ("createdAt", jstr d.(sd_createdAt));
   ("expiresAt", jopt jstr d.(sd_expiresAt)); ("supersedesCommandId", jopt jstr d.(sd_supersedesCommandId))].

Inductive SteeringSemanticError := SemanticInvalid | SemanticCanonical (e : CanonicalJsonError).

Definition steeringCommandSemanticValue (c : SteeringCommandV1) : result SteeringSemanticError (list (string * json)) :=
  match parseSteeringCommand c with
  | Some command => Ok (semantic_fields command)
  | None => Err SemanticInvalid
  end.

Definition semantic_text (fields : list (string * json)) : result SteeringSemanticError text :=
  map_err SemanticCanonical (canonicalJson (jobj fields)).

Definition steeringCommandSemanticDigest (c : SteeringCommandV1) : result SteeringSemanticError string :=
  fields ← steeringCommandSemanticValue c; t ← semantic_text fields; Ok (sha256Text t).

Definition equalSemanticValue (left right : json) : result SteeringSemanticError bool :=
  if is_undefined left || is_undefined right then Ok (is_undefined left && is_undefined right)
  else
    l ← map_err SemanticCanonical (canonicalJson left);
    r ← map_err SemanticCanonical (canonicalJson right);
    Ok (bool_decide (l = r)).

Inductive SteeringSemanticComparison :=
| compare_exact (d : string)
| compare_conflict (originalDigest candidateDigest : string) (changedFields : list string).

(** The fields of the two values that differ, in order. *)
Fixpoint changed_fields (original candidate : list (string * json)) : result SteeringSemanticError (list string) :=
  match original, candidate with
  | (field, l) :: original', (_, r) :: candidate' =>
      same ← equalSemanticValue l r;
      rest ← changed_fields original' candidate';
      Ok (if (same : bool) then rest else field :: rest)
  | _, _ => Ok []
  end.

Definition compareSteeringCommandSemantics (original candidate : SteeringCommandV1)
    : result SteeringSemanticError SteeringSemanticComparison :=
  originalValue ← steeringCommandSemanticValue original;
  candidateValue ← steeringCommandSemanticValue candidate;
  originalText ← semantic_text originalValue;
  candidateText ← semantic_text candidateValue;
  if bool_decide (sha256Text originalText = sha256Text candidateText) then Ok (compare_exact (sha256Text originalText))
  else
    changed ← changed_fields originalValue candidateValue;
    Ok (compare_conflict (sha256Text originalText) (sha256Text candidateText) changed).
End commands.

(** * Command identifiers *)

Inductive CommandIdError := TimestampOutOfRange | EntropyLength.

(** The six big-endian bytes of the timestamp. *)
Definition timestamp_bytes (nowMs : Z) : list Z :=
  List.map (fun i => Z.land (Z.shiftr nowMs (8 * i)) 255) [5; 4; 3; 2; 1; 0].

Definition hex_byte (b : Z) : text := [hex_digit (b / 16); hex_digit (b mod 16)].

(** [createSteeringCommandId({ nowMs, random })]; the entropy is a byte array. *)
Definition createSteeringCommandId (nowMs : Z) (random : list Z) : result CommandIdError text :=
  ensure (isSafeInteger nowMs && (0 <=? nowMs) && (nowMs <=? 281474976710655)) TimestampOutOfRange ;;
  match random with
  | [r6; r7; r8; r9; r10; r11; r12; r13; r14; r15] =>
      let b6 := Z.lor (Z.land r6 15) 112 in
      let b8 := Z.lor (Z.land r8 63) 128 in
      let hex := List.concat (List.map hex_byte (timestamp_bytes nowMs ++ [b6; r7; b8; r9; r10; r11; r12; r13; r14; r15])) in
      let slice (a b : nat) := take (b - a)%nat (drop a hex) in
      Ok (slice 0%nat 8%nat ++ [45] ++ slice 8%nat 12%nat ++ [45] ++ slice 12%nat 16%nat ++ [45]
          ++ slice 16%nat 20%nat ++ [45] ++ drop 20 hex)
  | _ => Err EntropyLength
  end.
