(* ===== verification/SteeringReducer.v ===== *)
(** SteeringReducer: the steering projection of src/steering/reducer.ts, one
    definition per handler, with the snapshot check every application starts
    from. *)
From S2P Require Import Prelude Text Json Ids ScmTypes ScmSchema ControlEvents EventSchema ControlState SteeringSchema.

(** The code of the thrown [SteeringReductionError]. *)
Inductive SteeringReductionErrorCode :=
| MALFORMED_EVENT | UNAUTHORIZED_ACTOR | RUN_IDENTITY_MISMATCH | NON_CONTIGUOUS_SEQUENCE | DUPLICATE_COMMAND
| DUPLICATE_MANIFEST | TARGET_MISMATCH | INVALID_TRANSITION | MISSING_COMMAND | MISSING_MANIFEST
| PROMPT_BINDING_MISMATCH | CUTOFF_VIOLATION | SUPERSESSION_MISMATCH | EXPIRY_MISMATCH | INVALID_SNAPSHOT.

Abbreviation steering := (result SteeringReductionErrorCode).

(** * Records *)

Definition commandOf (record : SteeringCommandRecord) : option SteeringCommandV1 :=
  match record with
  | rec_refused _ _ => None
  | rec_pending c _ | rec_included c _ _ _ _ _ | rec_withdrawn c _ _ _ | rec_superseded c _ _ _
  | rec_expired c _ _ | rec_terminal_refused c _ _ _ _ => Some c
  end.

Definition commandIdOf (record : SteeringCommandRecord) : string :=
  match record with
  | rec_refused refusal _ => refusal.(rv_commandId)
  | rec_pending c _ | rec_included c _ _ _ _ _ | rec_withdrawn c _ _ _ | rec_superseded c _ _ _
  | rec_expired c _ _ | rec_terminal_refused c _ _ _ _ => sc_commandId c
  end.

(** [record.admittedSeq], where the member has one. *)
Definition admittedSeqOf (record : SteeringCommandRecord) : option Z :=
  match record with
  | rec_refused _ _ => None
  | rec_pending _ a | rec_included _ a _ _ _ _ | rec_withdrawn _ a _ _ | rec_superseded _ a _ _
  | rec_expired _ a _ | rec_terminal_refused _ a _ _ _ => Some a
  end.

(** [record.terminalSeq], where the member has one. *)
Definition terminalSeqOf (record : SteeringCommandRecord) : option Z :=
  match record with
  | rec_pending _ _ => None
  | rec_included _ _ t _ _ _ | rec_withdrawn _ _ t _ | rec_superseded _ _ t _
  | rec_expired _ _ t | rec_refused _ t | rec_terminal_refused _ _ t _ _ => Some t
  end.

Definition is_pending (record : SteeringCommandRecord) : bool := match record with rec_pending _ _ => true | _ => false end.

Definition set_commands (p : SteeringProjection) (commands : obj SteeringCommandRecord) : SteeringProjection := {|
  sp_runId := p.(sp_runId); sp_runEpoch := p.(sp_runEpoch); sp_observedSeq := p.(sp_observedSeq);
  sp_commands := commands; sp_manifests := p.(sp_manifests) |}.
Definition set_manifests (p : SteeringProjection) (manifests : obj SteeringPromptManifestFact) : SteeringProjection := {|
  sp_runId := p.(sp_runId); sp_runEpoch := p.(sp_runEpoch); sp_observedSeq := p.(sp_observedSeq);
  sp_commands := p.(sp_commands); sp_manifests := manifests |}.
Definition observe (p : SteeringProjection) (seq : Z) : SteeringProjection := {|
  sp_runId := p.(sp_runId); sp_runEpoch := p.(sp_runEpoch); sp_observedSeq := seq;
  sp_commands := p.(sp_commands); sp_manifests := p.(sp_manifests) |}.

(** * Bindings of commands to prompts *)

(** [manifestContaining(projection, commandId) !== undefined] *)
Definition manifestContaining (p : SteeringProjection) (commandId : string) : bool :=
  existsb (fun manifest => bool_decide (commandId ∈ manifest.(mf_steeringCommandIds))) (obj_values p.(sp_manifests)).

Definition pending_at (p : SteeringProjection) (commandId : string) : bool :=
  match obj_get p.(sp_commands) commandId with Own record => is_pending record | _ => false end.

(** The first pending command of a manifest, if any. *)
Definition next_unbound (p : SteeringProjection) (manifest : SteeringPromptManifestFact) : option string :=
  List.find (pending_at p) manifest.(mf_steeringCommandIds).

(** The loop over the manifests: at most one may have a pending command. *)
Fixpoint incomplete_from (p : SteeringProjection) (found : option (SteeringPromptManifestFact * string))
    (manifests : list SteeringPromptManifestFact) : steering (option (SteeringPromptManifestFact * string)) :=
  match manifests with
  | [] => Ok found
  | manifest :: rest =>
      match next_unbound p manifest, found with
      | None, _ => incomplete_from p found rest
      | Some _, Some _ => Err INVALID_SNAPSHOT
      | Some commandId, None => incomplete_from p (Some (manifest, commandId)) rest
      end
  end.

Definition incompletePromptBinding (p : SteeringProjection) : steering (option (SteeringPromptManifestFact * string)) :=
  incomplete_from p None (obj_values p.(sp_manifests)).

(** * Guards *)

Definition authorized (b : ControlEventPayload) (actor : ControlActorKind) : bool :=
  match b with
  | attempt_prompt_prepared _ | steering_command_included _ | steering_command_expired _ =>
      bool_decide (actor = actor_control_plane) || bool_decide (actor = actor_system)
  | steering_command_admitted _ | steering_command_refused _ | steering_command_terminal_refused _
  | steering_command_withdrawn _ | steering_command_superseded _ =>
      bool_decide (actor = actor_control_plane) || bool_decide (actor = actor_operator)
  | _ => true
  end.

Definition assertAuthorizedActor (e : ControlEvent) : steering unit :=
  ensure (authorized e.(ev_payload) e.(ev_actorKind)) UNAUTHORIZED_ACTOR.

Definition requirePending (p : SteeringProjection) (commandId : string) : steering (SteeringCommandV1 * Z) :=
  match obj_get p.(sp_commands) commandId with
  | Absent => Err MISSING_COMMAND
  | Own (rec_pending command admittedSeq) => Ok (command, admittedSeq)
  | Own _ | Inherited => Err INVALID_TRANSITION
  end.

Definition assertUnreserved (p : SteeringProjection) (commandId : string) : steering unit :=
  ensure (negb (manifestContaining p commandId)) INVALID_TRANSITION.

(** The fence of an event of the session [sessionId]; the scope check has made
    the task fields present. *)
Definition event_scope (e : ControlEvent) (sessionId : string) (sessionGeneration : Z) : steering SteeringScope :=
  match e.(ev_taskId), e.(ev_taskGeneration) with
  | Some taskId, Some taskGeneration => Ok {|
      scope_runId := e.(ev_runId); scope_runEpoch := e.(ev_runEpoch); scope_taskId := taskId;
      scope_taskGeneration := taskGeneration; scope_sessionId := sessionId; scope_sessionGeneration := sessionGeneration |}
  | _, _ => Err MALFORMED_EVENT
  end.

Definition assertEventTarget (command : SteeringCommandV1) (scope : SteeringScope) : steering unit :=
  ensure (sameSteeringTarget (sc_scope command) scope) TARGET_MISMATCH.

(** [expiresAt && Date.parse(expiresAt) <= Date.parse(at)] *)
Definition expired_by (command : SteeringCommandV1) (at_ : string) : bool :=
  match command.(sc_draft).(sd_expiresAt) with
  | Some expiresAt => negb (bool_decide (expiresAt = EmptyString)) && time_le (Date_parse expiresAt) (Date_parse at_)
  | None => false
  end.

(** [ids.some((commandId, index) => commandId !== expected[index])] *)
Fixpoint differs_from (ids expected : list string) : bool :=
  match ids, expected with
  | [], _ => false
  | id :: ids', e :: expected' => negb (bool_decide (id = e)) || differs_from ids' expected'
  | _ :: _, [] => true
  end.

Section reducer.
Context {D : Digest} {U : UrlApi} {C : Collation}.

(** Admission order. *)
Definition by_admission (left right : Z * string) : Z :=
  if left.1 - right.1 =? 0 then localeCompare left.2 right.2 else left.1 - right.1.

(** * Handlers *)

(** One element of [payload.steeringCommandIds.map(...)]. *)
Definition select_command (p : SteeringProjection) (e : ControlEvent) (payload : attemptPreparedPayload) (scope : SteeringScope)
    (commandId : string) : steering (Z * string) :=
  '(command, admittedSeq) ← requirePending p commandId;
  assertUnreserved p commandId ;;
  assertEventTarget command scope ;;
  ensure (negb (payload.(app_attemptGeneration) <? sc_notBefore command)) CUTOFF_VIOLATION ;;
  ensure (negb (payload.(app_captureCutoffSeq) <? admittedSeq)) CUTOFF_VIOLATION ;;
  ensure (negb (expired_by command e.(ev_occurredAt))) EXPIRY_MISMATCH ;;
  Ok (admittedSeq, sc_commandId command).

Definition applyPrepared (p : SteeringProjection) (e : ControlEvent) (seq : Z) (payload : attemptPreparedPayload)
    : steering SteeringProjection :=
  scope ← event_scope e payload.(app_sessionId) payload.(app_sessionGeneration);
  ensure (negb (present (obj_get p.(sp_manifests) payload.(app_attemptId)))) DUPLICATE_MANIFEST ;;
  ensure (payload.(app_captureCutoffSeq) =? seq - 1) CUTOFF_VIOLATION ;;
  ensure (unique payload.(app_steeringCommandIds)) PROMPT_BINDING_MISMATCH ;;
  ensure (negb (existsb (fun manifest =>
    bool_decide (manifest.(mf_scope).(scope_taskId) = scope.(scope_taskId))
    && (manifest.(mf_scope).(scope_taskGeneration) =? scope.(scope_taskGeneration))
    && bool_decide (manifest.(mf_scope).(scope_sessionId) = payload.(app_sessionId))
    && (manifest.(mf_scope).(scope_sessionGeneration) =? payload.(app_sessionGeneration))
    && (manifest.(mf_attemptGeneration) =? payload.(app_attemptGeneration))) (obj_values p.(sp_manifests)))) DUPLICATE_MANIFEST ;;
  selected ← map_result (select_command p e payload scope) payload.(app_steeringCommandIds);
  let canonicalIds := List.map snd (js_sort by_admission selected) in
  ensure (negb (differs_from canonicalIds payload.(app_steeringCommandIds))) PROMPT_BINDING_MISMATCH ;;
  Ok (set_manifests p (<[payload.(app_attemptId) := {|
    mf_attemptId := payload.(app_attemptId); mf_attemptGeneration := payload.(app_attemptGeneration);
    mf_scope := scope; mf_artifactLocator := payload.(app_artifactLocator);
    mf_promptSha256 := payload.(app_promptSha256); mf_promptBytes := payload.(app_promptBytes);
    mf_rendererVersion := payload.(app_rendererVersion); mf_captureCutoffSeq := payload.(app_captureCutoffSeq);
    mf_steeringCommandIds := payload.(app_steeringCommandIds); mf_preparedSeq := seq |}]> p.(sp_manifests))).

(** The command an admission carries, before it is parsed. *)
Definition admitted_command (scope : SteeringScope) (payload : steeringAdmittedPayload) : SteeringCommandV1 := {|
  sc_draft := {|
    sd_target := {| target_scope := scope; target_notBeforeAttemptGeneration := payload.(sap_notBeforeAttemptGeneration) |};
    sd_commandId := payload.(sap_commandId); sd_kind := payload.(sap_kind); sd_sourceKind := payload.(sap_sourceKind);
    sd_parentPrincipal := payload.(sap_parentPrincipal); sd_evidenceRefs := payload.(sap_evidenceRefs);
    sd_body := payload.(sap_body); sd_createdAt := payload.(sap_createdAt); sd_expiresAt := payload.(sap_expiresAt);
    sd_supersedesCommandId := payload.(sap_supersedesCommandId) |};
  sc_bodySha256 := payload.(sap_bodySha256) |}.

(** [if (command.supersedesCommandId) { ... }] *)
Definition check_superseded (p : SteeringProjection) (command : SteeringCommandV1) : steering unit :=
  match command.(sc_draft).(sd_supersedesCommandId) with
  | None | Some EmptyString => Ok tt
  | Some oldId =>
      '(old, _) ← requirePending p oldId;
      assertUnreserved p oldId ;;
      ensure (sameSteeringTarget (sc_scope command) (sc_scope old)) SUPERSESSION_MISMATCH
  end.

Definition applyAdmitted (p : SteeringProjection) (e : ControlEvent) (seq : Z) (payload : steeringAdmittedPayload)
    : steering SteeringProjection :=
  ensure (negb (present (obj_get p.(sp_commands) payload.(sap_commandId)))) DUPLICATE_COMMAND ;;
  scope ← event_scope e payload.(sap_sessionId) payload.(sap_sessionGeneration);
  match parseSteeringCommand (admitted_command scope payload) with
  | None => Err MALFORMED_EVENT
  | Some command =>
      ensure (bool_decide (command.(sc_draft).(sd_body) = payload.(sap_body))) MALFORMED_EVENT ;;
      assertEventTarget command scope ;;
      ensure (negb (expired_by command e.(ev_occurredAt))) EXPIRY_MISMATCH ;;
      check_superseded p command ;;
      Ok (set_commands p (<[sc_commandId command := rec_pending command seq]> p.(sp_commands)))
  end.

Definition applyRefused (p : SteeringProjection) (e : ControlEvent) (seq : Z) (payload : steeringRefusedPayload)
    : steering SteeringProjection :=
  ensure (negb (present (obj_get p.(sp_commands) payload.(srp_commandId)))) DUPLICATE_COMMAND ;;
  scope ← event_scope e payload.(srp_sessionId) payload.(srp_sessionGeneration);
  match parseSteeringRefusal {|
    rv_commandId := payload.(srp_commandId); rv_scope := scope; rv_bodySha256 := payload.(srp_bodySha256);
    rv_requestSemanticDigest := payload.(srp_requestSemanticDigest); rv_observedSeq := payload.(srp_observedSeq);
    rv_observedActivity := payload.(srp_observedActivity); rv_reasonCode := payload.(srp_reasonCode) |} with
  | None => Err MALFORMED_EVENT
  | Some refusal => Ok (set_commands p (<[refusal.(rv_commandId) := rec_refused refusal seq]> p.(sp_commands)))
  end.

Definition applyTerminalRefused (p : SteeringProjection) (e : ControlEvent) (seq : Z) (payload : steeringTerminalRefusedPayload)
    : steering SteeringProjection :=
  '(command, admittedSeq) ← requirePending p payload.(strp_commandId);
  assertUnreserved p payload.(strp_commandId) ;;
  scope ← event_scope e payload.(strp_sessionId) payload.(strp_sessionGeneration);
  assertEventTarget command scope ;;
  semanticDigest ← map_err (fun _ => MALFORMED_EVENT) (steeringCommandSemanticDigest command);
  ensure (bool_decide (payload.(strp_requestSemanticDigest) = semanticDigest)) PROMPT_BINDING_MISMATCH ;;
  ensure (negb (seq - 1 <? payload.(strp_observedSeq))) CUTOFF_VIOLATION ;;
  Ok (set_commands p (<[payload.(strp_commandId) :=
    rec_terminal_refused command admittedSeq seq payload.(strp_requestSemanticDigest) payload.(strp_observedSeq)]> p.(sp_commands))).

(** [ids.indexOf(commandId)] *)
Fixpoint index_of (commandId : string) (ids : list string) : Z :=
  match ids with
  | [] => -1
  | id :: ids' =>
      if bool_decide (id = commandId) then 0
      else match index_of commandId ids' with -1 => -1 | i => i + 1 end
  end.

Definition applyIncluded (p : SteeringProjection) (e : ControlEvent) (seq : Z) (payload : steeringIncludedPayload)
    : steering SteeringProjection :=
  '(command, admittedSeq) ← requirePending p payload.(sip_commandId);
  scope ← event_scope e payload.(sip_sessionId) payload.(sip_sessionGeneration);
  assertEventTarget command scope ;;
  match obj_get p.(sp_manifests) payload.(sip_attemptId) with
  | Absent => Err MISSING_MANIFEST
  | Inherited => Err PROMPT_BINDING_MISMATCH
  | Own manifest =>
      ensure (sameSteeringTarget manifest.(mf_scope) scope && (manifest.(mf_attemptGeneration) =? payload.(sip_attemptGeneration))
              && bool_decide (manifest.(mf_promptSha256) = payload.(sip_promptSha256))
              && bool_decide (payload.(sip_commandId) ∈ manifest.(mf_steeringCommandIds))) PROMPT_BINDING_MISMATCH ;;
      ensure (negb (manifest.(mf_captureCutoffSeq) <? admittedSeq)) CUTOFF_VIOLATION ;;
      ensure (seq =? manifest.(mf_preparedSeq) + index_of payload.(sip_commandId) manifest.(mf_steeringCommandIds) + 1)
        PROMPT_BINDING_MISMATCH ;;
      Ok (set_commands p (<[payload.(sip_commandId) :=
        rec_included command admittedSeq seq manifest.(mf_attemptId) manifest.(mf_attemptGeneration)
          manifest.(mf_promptSha256)]> p.(sp_commands)))
  end.

Definition applyWithdrawn (p : SteeringProjection) (e : ControlEvent) (seq : Z) (payload : steeringWithdrawnPayload)
    : steering SteeringProjection :=
  '(command, admittedSeq) ← requirePending p payload.(swp_commandId);
  assertUnreserved p payload.(swp_commandId) ;;
  scope ← event_scope e payload.(swp_sessionId) payload.(swp_sessionGeneration);
  assertEventTarget command scope ;;
  Ok (set_commands p (<[payload.(swp_commandId) := rec_withdrawn command admittedSeq seq payload.(swp_reason)]> p.(sp_commands))).

Definition applySuperseded (p : SteeringProjection) (e : ControlEvent) (seq : Z) (payload : steeringSupersededPayload)
    : steering SteeringProjection :=
  '(old, oldSeq) ← requirePending p payload.(ssp_commandId);
  assertUnreserved p payload.(ssp_commandId) ;;
  scope ← event_scope e payload.(ssp_sessionId) payload.(ssp_sessionGeneration);
  assertEventTarget old scope ;;
  '(replacement, _) ← requirePending p payload.(ssp_byCommandId);
  ensure (bool_decide (replacement.(sc_draft).(sd_supersedesCommandId) = Some (sc_commandId old))
          && sameSteeringTarget (sc_scope old) (sc_scope replacement)) SUPERSESSION_MISMATCH ;;
  Ok (set_commands p (<[sc_commandId old := rec_superseded old oldSeq seq (sc_commandId replacement)]> p.(sp_commands))).

Definition applyExpired (p : SteeringProjection) (e : ControlEvent) (seq : Z) (payload : steeringExpiredPayload)
    : steering SteeringProjection :=
  '(command, admittedSeq) ← requirePending p payload.(sep_commandId);
  assertUnreserved p payload.(sep_commandId) ;;
  scope ← event_scope e payload.(sep_sessionId) payload.(sep_sessionGeneration);
  assertEventTarget command scope ;;
  ensure (match command.(sc_draft).(sd_expiresAt) with
          | Some expiresAt => negb (bool_decide (expiresAt = EmptyString))
                              && negb (time_lt (Date_parse e.(ev_occurredAt)) (Date_parse expiresAt))
          | None => false
          end) EXPIRY_MISMATCH ;;
  Ok (set_commands p (<[sc_commandId command := rec_expired command admittedSeq seq]> p.(sp_commands))).

(** The [switch] of [applySteeringEvent]. *)
Definition on_steering_event (p : SteeringProjection) (e : ControlEvent) (seq : Z) : steering SteeringProjection :=
  match e.(ev_payload) with
  | attempt_prompt_prepared payload => applyPrepared p e seq payload
  | steering_command_admitted payload => applyAdmitted p e seq payload
  | steering_command_refused payload => applyRefused p e seq payload
  | steering_command_terminal_refused payload => applyTerminalRefused p e seq payload
  | steering_command_included payload => applyIncluded p e seq payload
  | steering_command_withdrawn payload => applyWithdrawn p e seq payload
  | steering_command_superseded payload => applySuperseded p e seq payload
  | steering_command_expired payload => applyExpired p e seq payload
  | _ => Ok p
  end.
End reducer.
