(* ===== verification/SteeringSnapshot.v ===== *)
(** SteeringSnapshot: the snapshot schema of src/steering/schema.ts and the
    second half of src/steering/reducer.ts: consistency, restoring, applying and
    reducing. *)
From S2P Require Import Prelude Text Json Ids ScmTypes ScmSchema ControlEvents EventSchema ControlState SteeringSchema SteeringReducer.

Section snapshot.
Context {D : Digest}.

(** * The projection schema

    Parsing rewrites the bodies of the commands it accepts. *)

Definition parse_record (record : SteeringCommandRecord) : option SteeringCommandRecord :=
  match record with
  | rec_pending c a =>
      c' ← parseSteeringCommand c; if positive a then Some (rec_pending c' a) else None
  | rec_included c a t attemptId attemptGeneration promptSha256 =>
      c' ← parseSteeringCommand c;
      if positive a && positive t && boundedId attemptId && positive attemptGeneration && digest promptSha256
      then Some (rec_included c' a t attemptId attemptGeneration promptSha256) else None
  | rec_withdrawn c a t reason =>
      c' ← parseSteeringCommand c;
      if positive a && positive t && optional shortText reason then Some (rec_withdrawn c' a t reason) else None
  | rec_superseded c a t byCommandId =>
      c' ← parseSteeringCommand c;
      if positive a && positive t && SteeringCommandIdSchema byCommandId then Some (rec_superseded c' a t byCommandId) else None
  | rec_expired c a t =>
      c' ← parseSteeringCommand c; if positive a && positive t then Some (rec_expired c' a t) else None
  | rec_refused refusal t =>
      r ← parseSteeringRefusal refusal; if positive t then Some (rec_refused r t) else None
  | rec_terminal_refused c a t requestSemanticDigest observedSeq =>
      c' ← parseSteeringCommand c;
      if positive a && positive t && digest requestSemanticDigest && nonNegative observedSeq
      then Some (rec_terminal_refused c' a t requestSemanticDigest observedSeq) else None
  end.

Definition SteeringPromptManifestFactSchema (m : SteeringPromptManifestFact) : bool :=
  boundedId m.(mf_attemptId) && positive m.(mf_attemptGeneration) && SteeringScope_valid m.(mf_scope)
  && artifactLocator_valid m.(mf_artifactLocator) && digest m.(mf_promptSha256)
  && nonNegative m.(mf_promptBytes) && (m.(mf_promptBytes) <=? 16 * 1024 * 1024)
  && positive m.(mf_rendererVersion) && nonNegative m.(mf_captureCutoffSeq)
  && forallb SteeringCommandIdSchema m.(mf_steeringCommandIds)
  && at_most STEERING_BOUNDARY_MAX_COMMANDS m.(mf_steeringCommandIds) && positive m.(mf_preparedSeq).

(** The refinement of one entry of [commands]. *)
Definition command_entry_valid (observedSeq : Z) (entry : string * SteeringCommandRecord) : bool :=
  let '(commandId, record) := entry in
  bool_decide (commandId = commandIdOf record)
  && match terminalSeqOf record, admittedSeqOf record with
     | Some t, _ => t <=? observedSeq
     | None, Some a => a <=? observedSeq
     | None, None => true
     end
  && match terminalSeqOf record, admittedSeqOf record with
     | Some t, Some a => a <? t
     | _, _ => true
     end.

(** The refinement of one entry of [manifests]. *)
Definition manifest_entry_valid (observedSeq : Z) (entry : string * SteeringPromptManifestFact) : bool :=
  let '(attemptId, manifest) := entry in
  bool_decide (attemptId = manifest.(mf_attemptId))
  && negb ((observedSeq <? manifest.(mf_preparedSeq)) || (manifest.(mf_preparedSeq) <=? manifest.(mf_captureCutoffSeq)))
  && unique manifest.(mf_steeringCommandIds).

Definition parseSteeringProjection (p : SteeringProjection) : option SteeringProjection :=
  if boundedId p.(sp_runId) && boundedId p.(sp_runEpoch) && nonNegative p.(sp_observedSeq)
     && forallb (fun entry => SteeringCommandIdSchema entry.1 && isSome (parse_record entry.2)) (map_to_list p.(sp_commands))
     && forallb (fun entry => boundedId entry.1 && SteeringPromptManifestFactSchema entry.2) (map_to_list p.(sp_manifests))
  then
    let commands := omap parse_record p.(sp_commands) in
    if forallb (command_entry_valid p.(sp_observedSeq)) (map_to_list commands)
       && forallb (manifest_entry_valid p.(sp_observedSeq)) (map_to_list p.(sp_manifests))
    then Some (set_commands p commands) else None
  else None.
End snapshot.

(** * Consistency *)

Section consistency.
Context {C : Collation}.

Definition invalid (b : bool) : steering unit := ensure b INVALID_SNAPSHOT.

(** One command id of one manifest. A key inherited from [Object.prototype] has
    no command to compare, a TypeError; the schema admits UUIDs only. *)
Definition check_bound (p : SteeringProjection) (complete : bool) (manifest : SteeringPromptManifestFact) (commandId : string)
    : steering unit :=
  match obj_get p.(sp_commands) commandId with
  | Absent | Inherited => Err INVALID_SNAPSHOT
  | Own record =>
      match commandOf record, admittedSeqOf record with
      | Some command, Some admittedSeq =>
          invalid (sameSteeringTarget (sc_scope command) manifest.(mf_scope)) ;;
          invalid (match record with rec_pending _ _ | rec_included _ _ _ _ _ _ => true | _ => false end) ;;
          invalid (negb ((manifest.(mf_captureCutoffSeq) <? admittedSeq)
                         || (manifest.(mf_attemptGeneration) <? sc_notBefore command))) ;;
          invalid (match record with
                   | rec_included _ _ _ attemptId attemptGeneration promptSha256 =>
                       bool_decide (attemptId = manifest.(mf_attemptId))
                       && (attemptGeneration =? manifest.(mf_attemptGeneration))
                       && bool_decide (promptSha256 = manifest.(mf_promptSha256))
                   | _ => true
                   end) ;;
          invalid (match record with
                   | rec_included _ _ terminalSeq _ _ _ =>
                       terminalSeq =? manifest.(mf_preparedSeq) + index_of commandId manifest.(mf_steeringCommandIds) + 1
                   | _ => true
                   end) ;;
          invalid (negb complete || match record with rec_included _ _ _ _ _ _ => true | _ => false end)
      | _, _ => Err INVALID_SNAPSHOT
      end
  end.

(** The inner loop; [seen] is the key set of [manifestByCommand]. *)
Definition check_binding (p : SteeringProjection) (complete : bool) (manifest : SteeringPromptManifestFact)
    (seen : list string) (commandId : string) : steering (list string) :=
  invalid (negb (bool_decide (commandId ∈ seen))) ;;
  check_bound p complete manifest commandId ;;
  Ok (commandId :: seen).

(** [projection.commands[id]], when it is an admitted record: its place in the order. *)
Definition admitted_at (p : SteeringProjection) (commandId : string) : option (Z * string) :=
  match obj_get p.(sp_commands) commandId with
  | Own record => a ← admittedSeqOf record; Some (a, commandIdOf record)
  | _ => None
  end.

Definition canonical_ids (p : SteeringProjection) (manifest : SteeringPromptManifestFact) : list string :=
  List.map snd (js_sort by_admission (omap (admitted_at p) manifest.(mf_steeringCommandIds))).

Definition check_manifest (p : SteeringProjection) (complete : bool) (seen : list string)
    (manifest : SteeringPromptManifestFact) : steering (list string) :=
  invalid (bool_decide (manifest.(mf_scope).(scope_runId) = p.(sp_runId))
           && bool_decide (manifest.(mf_scope).(scope_runEpoch) = p.(sp_runEpoch))) ;;
  seen' ← fold_result (check_binding p complete manifest) seen manifest.(mf_steeringCommandIds);
  invalid (negb (differs_from (canonical_ids p manifest) manifest.(mf_steeringCommandIds))) ;;
  Ok seen'.

Definition check_record (p : SteeringProjection) (bound : list string) (entry : string * SteeringCommandRecord) : steering unit :=
  let '(mapId, record) := entry in
  let of_run (scope : SteeringScope) :=
    bool_decide (scope.(scope_runId) = p.(sp_runId)) && bool_decide (scope.(scope_runEpoch) = p.(sp_runEpoch)) in
  invalid (bool_decide (mapId = commandIdOf record)) ;;
  invalid (match commandOf record with Some command => of_run (sc_scope command) | None => true end) ;;
  invalid (match record with rec_refused refusal _ => of_run refusal.(rv_scope) | _ => true end) ;;
  invalid (match record with rec_included _ _ _ _ _ _ => bool_decide (mapId ∈ bound) | _ => true end) ;;
  invalid (match record with
           | rec_superseded command _ _ byCommandId =>
               match own (obj_get p.(sp_commands) byCommandId) ≫= commandOf with
               | Some replacement =>
                   bool_decide (replacement.(sc_draft).(sd_supersedesCommandId) = Some mapId)
                   && sameSteeringTarget (sc_scope command) (sc_scope replacement)
               | None => false
               end
           | _ => true
           end) ;;
  invalid (match record with
           | rec_expired command _ _ =>
               match command.(sc_draft).(sd_expiresAt) with
               | Some expiresAt => negb (bool_decide (expiresAt = EmptyString))
               | None => false
               end
           | _ => true
           end).

Definition assertSteeringProjectionConsistent (p : SteeringProjection) (requireCompleteBindings : bool) : steering unit :=
  bound ← fold_result (check_manifest p requireCompleteBindings) [] (obj_values p.(sp_manifests));
  incompletePromptBinding p ;;
  map_result (check_record p bound) (map_to_list p.(sp_commands)) ;;
  Ok tt.
End consistency.

(** * Restoring, applying, reducing *)

Section apply.
Context {D : Digest} {U : UrlApi} {C : Collation}.

Definition restoreSteeringProjection (value : SteeringProjection) : steering SteeringProjection :=
  match parseSteeringProjection value with
  | None => Err INVALID_SNAPSHOT
  | Some projection => assertSteeringProjectionConsistent projection false ;; Ok projection
  end.

Definition emptySteeringProjection (runId runEpoch : string) : steering SteeringProjection :=
  restoreSteeringProjection {|
    sp_runId := runId; sp_runEpoch := runEpoch; sp_observedSeq := 0; sp_commands := ∅; sp_manifests := ∅ |}.

Definition parseEvent (value : PersistedControlEvent) : steering PersistedControlEvent :=
  map_err (fun _ => MALFORMED_EVENT) (parsePersistedControlEvent value).

(** Does the event continue the prompt binding in progress? *)
Definition continues (b : ControlEventPayload) (incomplete : option (SteeringPromptManifestFact * string)) : bool :=
  match incomplete with
  | None => true
  | Some (manifest, nextCommandId) =>
      match b with
      | steering_command_included payload =>
          bool_decide (payload.(sip_attemptId) = manifest.(mf_attemptId)) && bool_decide (payload.(sip_commandId) = nextCommandId)
      | _ => false
      end
  end.

Definition applySteeringEvent (current : SteeringProjection) (value : PersistedControlEvent) : steering SteeringProjection :=
  projection ← restoreSteeringProjection current;
  pe ← parseEvent value;
  let event := pe.(pe_event) in
  ensure (bool_decide (event.(ev_runId) = projection.(sp_runId)) && bool_decide (event.(ev_runEpoch) = projection.(sp_runEpoch)))
    RUN_IDENTITY_MISMATCH ;;
  ensure (pe.(pe_seq) =? projection.(sp_observedSeq) + 1) NON_CONTIGUOUS_SEQUENCE ;;
  assertAuthorizedActor event ;;
  incomplete ← incompletePromptBinding projection;
  ensure (continues event.(ev_payload) incomplete) PROMPT_BINDING_MISMATCH ;;
  projection' ← on_steering_event projection event pe.(pe_seq);
  Ok (observe projection' pe.(pe_seq)).

Definition reduceSteeringEvents (runId runEpoch : string) (events : list PersistedControlEvent)
    (initial : option SteeringProjection) : steering SteeringProjection :=
  projection ← match initial with
               | None => emptySteeringProjection runId runEpoch
               | Some value => restoreSteeringProjection value
               end;
  ensure (bool_decide (projection.(sp_runId) = runId) && bool_decide (projection.(sp_runEpoch) = runEpoch)) RUN_IDENTITY_MISMATCH ;;
  fold_result applySteeringEvent projection events.

(** The pending commands no manifest names, in admission order. *)
Definition pendingSteeringCommands (p : SteeringProjection) : list SteeringCommandV1 :=
  let reserved := concat (List.map mf_steeringCommandIds (obj_values p.(sp_manifests))) in
  let pending := omap (fun record => match record with rec_pending c a => Some (a, c) | _ => None end) (obj_values p.(sp_commands)) in
  let free := List.filter (fun ac => negb (bool_decide (sc_commandId ac.2 ∈ reserved))) pending in
  List.map snd (js_sort (fun l r => by_admission (l.1, sc_commandId l.2) (r.1, sc_commandId r.2)) free).
End apply.
