(* ===== verification/SteeringWf.v ===== *)
(** SteeringWf: elementary facts about the steering reducer, and the invariant of
    its projection. *)
From S2P Require Import Prelude Text Json Ids ScmTypes ControlEvents EventSchema ControlState SteeringSchema SteeringReducer SteeringSnapshot.

(** * Bodies *)

Lemma normalize_newlines_cr value : 13 ∉ normalize_newlines value.
Proof.
  remember (length value) as n eqn:Hn. assert (length value <= n)%nat as Hle by lia. clear Hn.
  revert value Hle; induction n as [|n IH]; intros [|c value] Hle; cbn in Hle; cbn; try (apply not_elem_of_nil).
  - lia.
  - destruct (Z.eqb_spec c 13).
    + apply not_elem_of_cons. split; [lia|]. destruct value as [|d value']; [apply not_elem_of_nil|].
      destruct (d =? 10); apply IH; cbn in *; lia.
    + apply not_elem_of_cons. split; [lia|]. apply IH. lia.
Qed.

Lemma normalize_newlines_id value : 13 ∉ value -> normalize_newlines value = value.
Proof.
  induction value as [|c value IH]; [done|]. intros [Hc Hv]%not_elem_of_cons. cbn.
  destruct (Z.eqb_spec c 13); [congruence|]. by rewrite IH.
Qed.

Lemma normalize_newlines_idemp value : normalize_newlines (normalize_newlines value) = normalize_newlines value.
Proof. apply normalize_newlines_id, normalize_newlines_cr. Qed.

(** The schema and the function agree. *)
Lemma SteeringBodySchema_normalize value body :
  SteeringBodySchema value = Some body <-> normalizeSteeringBody value = Ok body.
Proof.
  unfold SteeringBodySchema, normalizeSteeringBody. destruct (analyzeUnicode 0 _) as [valid scalars]. cbn.
  destruct valid; cbn; [|split; done].
  destruct (scalars =? 0); cbn; [split; done|].
  destruct (STEERING_BODY_MAX_SCALARS <? scalars); cbn; [split; done|].
  destruct (STEERING_BODY_MAX_BYTES <? _); cbn; split; congruence.
Qed.

Lemma SteeringBodySchema_value value body : SteeringBodySchema value = Some body -> body = normalize_newlines value.
Proof. unfold SteeringBodySchema. repeat case_match; congruence. Qed.

Lemma SteeringBodySchema_idemp value body : SteeringBodySchema value = Some body -> SteeringBodySchema body = Some body.
Proof.
  intros H. pose proof (SteeringBodySchema_value _ _ H) as ->.
  unfold SteeringBodySchema in *. rewrite normalize_newlines_idemp. exact H.
Qed.

(** On a valid text the scalars counted are the code points of the string. *)
Lemma analyzeUnicode_count value n k :
  analyzeUnicode n value = (true, k) -> k = n + Z.of_nat (length (code_points value)).
Proof.
  remember (length value) as m eqn:Hm. assert (length value <= m)%nat as Hle by lia. clear Hm.
  revert value n Hle; induction m as [|m IH]; intros [|c value] n Hle; cbn in Hle; cbn.
  - intros [= ->]. lia.
  - lia.
  - intros [= ->]. lia.
  - unfold is_high, is_low, between. intros H.
    destruct value as [|d value]; cbn [length] in *.
    + destruct ((55296 <=? c) && (c <=? 56319)); [done|]. destruct ((56320 <=? c) && (c <=? 57343)); [done|].
      destruct (disallowed_scalar c); [done|]. cbn in H. injection H as <-. lia.
    + destruct ((55296 <=? c) && (c <=? 56319)); cbn [andb].
      * destruct ((56320 <=? d) && (d <=? 57343)); [|done]. destruct (disallowed_scalar _); [done|].
        apply IH in H; [|lia]. cbn [length]. lia.
      * destruct ((56320 <=? c) && (c <=? 57343)); [done|]. destruct (disallowed_scalar c); [done|].
        apply IH in H; [|cbn; lia]. cbn [length]. lia.
Qed.

(** * Commands *)

Lemma sameSteeringTarget_eq l r : sameSteeringTarget l r = true <-> l = r.
Proof.
  unfold sameSteeringTarget. destruct l, r. cbn. split.
  - intros H. guards. done.
  - intros [= -> -> -> -> -> ->]. by rewrite !bool_decide_eq_true_2, !Z.eqb_refl.
Qed.

Lemma commandDraftShape_Some d d' :
  commandDraftShape d = Some d' ->
  exists body, SteeringBodySchema (sd_body d) = Some body /\ d' = with_body d body /\ commandDraftShape d' = Some d'.
Proof.
  unfold commandDraftShape. intros H. apply bind_Some in H as (body & Hb & H).
  destruct (_ && _) eqn:E in H; [|done]. injection H as <-. exists body. split; [done|]. split; [done|].
  cbn [with_body sd_body]. rewrite (SteeringBodySchema_idemp _ _ Hb). destruct d. cbn in E |- *. by rewrite E.
Qed.

Section commands.
Context {D : Digest}.

Lemma parseSteeringCommand_Some c c' :
  parseSteeringCommand c = Some c' ->
  exists body, SteeringBodySchema (sd_body (sc_draft c)) = Some body /\ sc_draft c' = with_body (sc_draft c) body /\
    sc_bodySha256 c' = sc_bodySha256 c /\ parseSteeringCommand c' = Some c'.
Proof.
  unfold parseSteeringCommand. intros H. apply bind_Some in H as (d & Hd & H).
  destruct (_ && _) eqn:E in H; [|done]. injection H as <-. cbn [sc_draft sc_bodySha256].
  apply commandDraftShape_Some in Hd as (body & Hb & -> & Hd). exists body. rewrite Hd. cbn in E |- *. by rewrite E.
Qed.

Lemma parseSteeringCommand_idemp c c' : parseSteeringCommand c = Some c' -> parseSteeringCommand c' = Some c'.
Proof. intros (body & _ & _ & _ & H)%parseSteeringCommand_Some. exact H. Qed.

(** What a parsed command guarantees. *)
Lemma parseSteeringCommand_valid c :
  parseSteeringCommand c = Some c ->
  SteeringCommandIdSchema (sc_commandId c) = true /\ SteeringTargetV1Schema (sd_target (sc_draft c)) = true /\
  validateCommandRelations (sc_draft c) = true /\ sc_bodySha256 c = sha256Text (sd_body (sc_draft c)) /\
  (13 ∉ sd_body (sc_draft c)) /\
  (forall id, sd_supersedesCommandId (sc_draft c) = Some id -> SteeringCommandIdSchema id = true) /\
  (forall at_, sd_expiresAt (sc_draft c) = Some at_ -> timestamp at_ = true).
Proof.
  unfold parseSteeringCommand. intros H. apply bind_Some in H as (d & Hd & H).
  destruct (_ && _) eqn:E in H; [|done]. destruct c as [d' sha]; cbn in *. injection H as <-.
  unfold sc_commandId; cbn.
  unfold commandDraftShape in Hd. apply bind_Some in Hd as (body & Hb & Hd). destruct (_ && _) eqn:E' in Hd; [|done].
  injection Hd as Hd. guards. split_and!; try done.
  - rewrite <-Hd. cbn. apply SteeringBodySchema_value in Hb as ->. apply normalize_newlines_cr.
  - intros id Hid. unfold optional in *. by rewrite Hid in *.
  - intros at_ Hat. unfold optional in *. by rewrite Hat in *.
Qed.

(** * Semantic comparison *)

Lemma equalSemanticValue_true l r :
  equalSemanticValue l r = Ok true -> canonical l = canonical r.
Proof.
  unfold equalSemanticValue. destruct (is_undefined l || is_undefined r) eqn:E.
  - intros [= H]. destruct l, r; try discriminate; done.
  - intros H. run. guards. by eapply canonicalJson_inj.
Qed.
End commands.

(** * Lists of keyed values *)

Lemma NoDup_concat_intro {K V} (f : V -> list string) (l : list (K * V)) :
  NoDup l.*1 -> (forall k v, (k, v) ∈ l -> NoDup (f v)) ->
  (forall k v k' v' x, (k, v) ∈ l -> (k', v') ∈ l -> x ∈ f v -> x ∈ f v' -> k = k') ->
  NoDup (List.concat (List.map f l.*2)).
Proof.
  induction l as [|[k v] l IH]; cbn; intros Hnd Hv Hd; [constructor|].
  apply NoDup_cons in Hnd as [Hk Hnd]. apply NoDup_app. split_and!.
  - apply (Hv k), list_elem_of_here.
  - intros x Hx Hin. rewrite list_elem_of_In, in_concat in Hin. destruct Hin as (ids & Hids & Hin).
    apply in_map_iff in Hids as (v' & <- & Hv'). rewrite <-list_elem_of_In in Hv'. rewrite <-list_elem_of_In in Hin.
    apply list_elem_of_fmap in Hv' as ([k' v''] & -> & Hl). cbn in Hin.
    apply Hk. rewrite (Hd k v k' v'' x); [|apply list_elem_of_here|by apply list_elem_of_further|done|done].
    apply list_elem_of_fmap. by exists (k', v'').
  - apply IH; [done| |].
    + intros k' v' H. apply (Hv k'). by apply list_elem_of_further.
    + intros k1 v1 k2 v2 x H1 H2. apply Hd; by apply list_elem_of_further.
Qed.

Lemma NoDup_concat_elim {K V} (f : V -> list string) (l : list (K * V)) k v k' v' x :
  NoDup (List.concat (List.map f l.*2)) -> (k, v) ∈ l -> (k', v') ∈ l -> x ∈ f v -> x ∈ f v' -> k = k'.
Proof.
  induction l as [|[k0 v0] l IH]; cbn; [by intros _ ?%not_elem_of_nil|].
  intros (_ & Hd & Hnd)%NoDup_app H1 H2 Hx Hx'.
  assert (forall k v, (k, v) ∈ l -> x ∈ f v -> x ∈ List.concat (List.map f l.*2)) as Hc.
  { intros k1 v1 H Hf. rewrite list_elem_of_In, in_concat. exists (f v1). split; [|by rewrite <-list_elem_of_In].
    apply in_map. rewrite <-list_elem_of_In. apply list_elem_of_fmap. by exists (k1, v1). }
  apply elem_of_cons in H1 as [[= -> ->]|H1], H2 as [[= -> ->]|H2]; [done| | |by apply IH].
  - exfalso. eapply Hd; [exact Hx|]. by eapply Hc.
  - exfalso. eapply Hd; [exact Hx'|]. by eapply Hc.
Qed.

Lemma elem_of_concat_values {V} (f : V -> list string) (m : obj V) x :
  x ∈ List.concat (List.map f (obj_values m)) <-> exists k v, m !! k = Some v /\ x ∈ f v.
Proof.
  rewrite list_elem_of_In, in_concat. split.
  - intros (ids & Hids & Hin). apply in_map_iff in Hids as (v & <- & Hv).
    rewrite <-list_elem_of_In in Hv. rewrite <-list_elem_of_In in Hin. apply elem_of_obj_values in Hv as [k Hk]. eauto.
  - intros (k & v & Hk & Hx). exists (f v). split; [|by rewrite <-list_elem_of_In].
    apply in_map. rewrite <-list_elem_of_In. apply elem_of_obj_values. eauto.
Qed.

(** At most one value of a keyed list satisfies an optional test. *)
Lemma at_most_one_intro {K V W} (g : V -> option W) (l : list (K * V)) :
  NoDup l.*1 -> (forall k v k' v', (k, v) ∈ l -> (k', v') ∈ l -> isSome (g v) = true -> isSome (g v') = true -> k = k') ->
  (length (omap g l.*2) <= 1)%nat.
Proof.
  induction l as [|[k v] l IH]; cbn; intros Hnd Hg; [lia|]. apply NoDup_cons in Hnd as [Hk Hnd].
  destruct (g v) as [w|] eqn:Ew.
  - destruct (omap g l.*2) as [|w' ws] eqn:E; [cbn; lia|]. exfalso.
    assert (w' ∈ omap g l.*2) as Hw' by (rewrite E; apply list_elem_of_here).
    apply list_elem_of_omap in Hw' as (v' & Hv' & Ew'). apply list_elem_of_fmap in Hv' as ([k' v''] & -> & Hin).
    apply Hk. rewrite (Hg k v k' v''); [|apply list_elem_of_here|by apply list_elem_of_further|by rewrite Ew|cbn in Ew'; by rewrite Ew'].
    apply list_elem_of_fmap. by exists (k', v'').
  - apply IH; [done|]. intros k1 v1 k2 v2 H1 H2. apply Hg; by apply list_elem_of_further.
Qed.

Lemma at_most_one_elim {K V W} (g : V -> option W) (l : list (K * V)) k v k' v' :
  (length (omap g l.*2) <= 1)%nat -> (k, v) ∈ l -> (k', v') ∈ l -> isSome (g v) = true -> isSome (g v') = true -> k = k'.
Proof.
  induction l as [|[k0 v0] l IH]; cbn; [by intros _ ?%not_elem_of_nil|]. intros Hlen H1 H2 Hs Hs'.
  assert (forall k v, (k, v) ∈ l -> isSome (g v) = true -> omap g l.*2 <> []) as Hne.
  { intros k1 v1 Hin Hg E. destruct (g v1) as [w|] eqn:Ew; [|done].
    assert (w ∈ omap g l.*2) as Hw; [|rewrite E in Hw; by apply not_elem_of_nil in Hw].
    apply list_elem_of_omap. exists v1. split; [|done]. apply list_elem_of_fmap. by exists (k1, v1). }
  apply elem_of_cons in H1 as [[= -> ->]|H1], H2 as [[= -> ->]|H2].
  - done.
  - exfalso. destruct (g v0) eqn:E0; [|done]. cbn in Hlen. eapply Hne; [exact H2|done|]. apply length_zero_iff_nil. lia.
  - exfalso. destruct (g v0) eqn:E0; [|done]. cbn in Hlen. eapply Hne; [exact H1|done|]. apply length_zero_iff_nil. lia.
  - apply IH; try done. destruct (g v0); cbn in Hlen; lia.
Qed.

Lemma forallb_map_to_list {V} (f : string * V -> bool) (m : obj V) :
  forallb f (map_to_list m) = true <-> forall k v, m !! k = Some v -> f (k, v) = true.
Proof.
  rewrite forallb_forall. split.
  - intros H k v Hk. apply H. rewrite <-list_elem_of_In. by apply elem_of_map_to_list.
  - intros H [k v] Hin. apply H. rewrite <-list_elem_of_In in Hin. by apply elem_of_map_to_list.
Qed.

(** * The invariant *)

Definition is_included (record : SteeringCommandRecord) : bool :=
  match record with rec_included _ _ _ _ _ _ => true | _ => false end.

Section wf.
Context {D : Digest} {C : Collation}.

Record manifest_wf (p : SteeringProjection) (attemptId : string) (m : SteeringPromptManifestFact) : Prop := {
  manifest_keyed : boundedId attemptId = true;
  manifest_schema : SteeringPromptManifestFactSchema m = true;
  manifest_entry : manifest_entry_valid p.(sp_observedSeq) (attemptId, m) = true;
  manifest_run : m.(mf_scope).(scope_runId) = p.(sp_runId) /\ m.(mf_scope).(scope_runEpoch) = p.(sp_runEpoch);
  manifest_order : differs_from (canonical_ids p m) m.(mf_steeringCommandIds) = false;
  manifest_bound id : id ∈ m.(mf_steeringCommandIds) -> check_bound p false m id = Ok tt
}.

Record command_wf (p : SteeringProjection) (id : string) (r : SteeringCommandRecord) : Prop := {
  command_keyed : SteeringCommandIdSchema id = true;
  command_schema : parse_record r = Some r;
  command_entry : command_entry_valid p.(sp_observedSeq) (id, r) = true;
  command_linked : check_record p [id] (id, r) = Ok tt;
  command_bound : is_included r = true ->
    exists attemptId m, p.(sp_manifests) !! attemptId = Some m /\ id ∈ m.(mf_steeringCommandIds)
}.

Record steering_wf (p : SteeringProjection) : Prop := {
  wf_scalars : boundedId p.(sp_runId) = true /\ boundedId p.(sp_runEpoch) = true /\ nonNegative p.(sp_observedSeq) = true;
  wf_command id r : p.(sp_commands) !! id = Some r -> command_wf p id r;
  wf_manifest attemptId m : p.(sp_manifests) !! attemptId = Some m -> manifest_wf p attemptId m;
  (** a command is bound to one prompt *)
  wf_disjoint a m a' m' id : p.(sp_manifests) !! a = Some m -> p.(sp_manifests) !! a' = Some m' ->
    id ∈ m.(mf_steeringCommandIds) -> id ∈ m'.(mf_steeringCommandIds) -> a = a';
  (** one binding at a time is in progress *)
  wf_incomplete a m a' m' : p.(sp_manifests) !! a = Some m -> p.(sp_manifests) !! a' = Some m' ->
    isSome (next_unbound p m) = true -> isSome (next_unbound p m') = true -> a = a'
}.

(** * The checks, as propositions *)

Lemma invalid_seq {A} b (k : steering A) x : (invalid b ;; k) = Ok x <-> b = true /\ k = Ok x.
Proof.
  unfold invalid. rewrite bind_Ok. split.
  - intros (u & Hu & H). by apply ensure_Ok in Hu.
  - intros [-> H]. by exists tt.
Qed.

Lemma invalid_Ok b u : invalid b = Ok u <-> b = true.
Proof. apply ensure_Ok. Qed.

Lemma check_record_bound p bound id r :
  check_record p bound (id, r) = Ok tt <->
  check_record p [id] (id, r) = Ok tt /\ (is_included r = true -> id ∈ bound).
Proof.
  unfold check_record. rewrite !invalid_seq, !invalid_Ok.
  assert ((match r with rec_included _ _ _ _ _ _ => bool_decide (id ∈ bound) | _ => true end) = true
          <-> (is_included r = true -> id ∈ bound)) as ->.
  { destruct r; cbn; rewrite ?bool_decide_eq_true; naive_solver. }
  assert ((match r with rec_included _ _ _ _ _ _ => bool_decide (id ∈ [id]) | _ => true end) = true <-> True) as ->.
  { destruct r; cbn; rewrite ?bool_decide_eq_true; split; try done. intros _. apply list_elem_of_here. }
  tauto.
Qed.

Lemma check_bindings_Ok p complete m seen ids seen' :
  fold_result (check_binding p complete m) seen ids = Ok seen' <->
  (forall id, id ∈ ids -> check_bound p complete m id = Ok tt) /\ NoDup ids /\ (forall id, id ∈ ids -> id ∉ seen) /\
  seen' = reverse ids ++ seen.
Proof.
  revert seen; induction ids as [|id ids IH]; intros seen; cbn [fold_result].
  - split; [intros [= <-]|intros (_ & _ & _ & ->); done].
    split; [by intros ? ?%not_elem_of_nil|]. split; [constructor|]. split; [by intros ? ?%not_elem_of_nil|done].
  - unfold check_binding at 1. rewrite bind_Ok. setoid_rewrite invalid_seq. setoid_rewrite bind_Ok. rewrite reverse_cons, <-app_assoc. split.
    + intros (s & (Hn & [] & Hb & Hs0) & Hr). injection Hs0 as <-. apply IH in Hr as (Hc & Hnd & Hs & ->). guards.
      split; [intros id' [->|Hi]%elem_of_cons; auto|]. split.
      { apply NoDup_cons. split; [|done]. intros Hin. apply (Hs _ Hin), list_elem_of_here. }
      split; [|done]. intros id' [->|Hi]%elem_of_cons; [done|]. intros Hin. apply (Hs _ Hi). by apply list_elem_of_further.
    + intros (Hc & (Hid & Hnd)%NoDup_cons & Hs & ->). exists (id :: seen). split.
      * split; [apply negb_true_iff, bool_decide_eq_false, Hs, list_elem_of_here|]. exists tt.
        split; [apply Hc, list_elem_of_here|done].
      * apply IH. split; [intros; apply Hc; by apply list_elem_of_further|]. split; [done|]. split; [|done].
        intros id' Hi [->|Hin]%elem_of_cons; [done|]. apply (Hs id'); [by apply list_elem_of_further|done].
Qed.

(** What the loop over the manifests establishes. *)
Definition manifest_passes (p : SteeringProjection) (complete : bool) (m : SteeringPromptManifestFact) : Prop :=
  (m.(mf_scope).(scope_runId) = p.(sp_runId) /\ m.(mf_scope).(scope_runEpoch) = p.(sp_runEpoch)) /\
  (forall id, id ∈ m.(mf_steeringCommandIds) -> check_bound p complete m id = Ok tt) /\
  differs_from (canonical_ids p m) m.(mf_steeringCommandIds) = false.

Lemma check_manifest_Ok p complete seen m seen' :
  check_manifest p complete seen m = Ok seen' <->
  manifest_passes p complete m /\ NoDup m.(mf_steeringCommandIds) /\
  (forall id, id ∈ m.(mf_steeringCommandIds) -> id ∉ seen) /\ seen' = reverse m.(mf_steeringCommandIds) ++ seen.
Proof.
  unfold check_manifest, manifest_passes. rewrite invalid_seq, andb_true_iff, !bool_decide_eq_true, bind_Ok.
  setoid_rewrite invalid_seq. setoid_rewrite check_bindings_Ok. setoid_rewrite negb_true_iff. split.
  - intros (Hrun & s & (Hb & Hnd & Hs & ->) & Ho & [= <-]). tauto.
  - intros ((Hrun & Hb & Ho) & Hnd & Hs & ->). split; [done|]. eexists. split; [split_and!; eauto|done].
Qed.

Lemma check_manifests_Ok p complete seen ms seen' :
  NoDup seen ->
  fold_result (check_manifest p complete) seen ms = Ok seen' ->
  (forall m, m ∈ ms -> manifest_passes p complete m) /\
  NoDup (List.concat (List.map mf_steeringCommandIds ms)) /\
  (forall id, id ∈ List.concat (List.map mf_steeringCommandIds ms) -> id ∉ seen) /\
  (forall id, id ∈ seen' <-> id ∈ seen \/ id ∈ List.concat (List.map mf_steeringCommandIds ms)).
Proof.
  revert seen; induction ms as [|m ms IH]; intros seen Hseen; cbn [fold_result List.map List.concat].
  - intros [= <-]. split; [by intros ? ?%not_elem_of_nil|]. split; [constructor|]. split; [by intros ? ?%not_elem_of_nil|].
    intros id. rewrite elem_of_nil. tauto.
  - intros (s & (Hm & Hnd & Hs & ->)%check_manifest_Ok & H)%bind_Ok.
    apply IH in H as (Hms & Hnds & Hd & Hel).
    2: { apply NoDup_app. split_and!; [by rewrite reverse_Permutation|intros id Hi; apply Hs; by apply elem_of_reverse|done]. }
    assert (forall id, id ∈ List.concat (List.map mf_steeringCommandIds ms) -> (id ∉ m.(mf_steeringCommandIds)) /\ (id ∉ seen)) as Hd'.
    { intros id Hi. specialize (Hd id Hi). rewrite elem_of_app, elem_of_reverse in Hd. tauto. }
    split; [intros m' [->|Hi]%elem_of_cons; auto|]. split.
    { apply NoDup_app. split_and!; [done| |done]. intros id Hi Hi'. exact (proj1 (Hd' id Hi') Hi). }
    split; [intros id [Hi|Hi]%elem_of_app; [by apply Hs|exact (proj2 (Hd' id Hi))]|].
    intros id. rewrite Hel, !elem_of_app, elem_of_reverse. tauto.
Qed.

Lemma check_manifests_pass p complete seen ms :
  (forall m, m ∈ ms -> manifest_passes p complete m) ->
  NoDup (List.concat (List.map mf_steeringCommandIds ms)) ->
  (forall id, id ∈ List.concat (List.map mf_steeringCommandIds ms) -> id ∉ seen) ->
  exists seen', fold_result (check_manifest p complete) seen ms = Ok seen' /\
    (forall id, id ∈ seen' <-> id ∈ seen \/ id ∈ List.concat (List.map mf_steeringCommandIds ms)).
Proof.
  revert seen; induction ms as [|m ms IH]; intros seen Hm Hnd Hs; cbn [fold_result List.map List.concat] in *.
  - exists seen. split; [done|]. intros id. rewrite elem_of_nil. tauto.
  - apply NoDup_app in Hnd as (Hnd & Hd & Hnds).
    destruct (IH (reverse (mf_steeringCommandIds m) ++ seen)) as (seen' & H & Hel).
    + intros m' Hm'. apply Hm. by apply list_elem_of_further.
    + done.
    + intros id Hi. rewrite elem_of_app, elem_of_reverse. intros [Hin|Hin]; [by apply (Hd id)|].
      apply (Hs id); [apply elem_of_app; by right|done].
    + exists seen'. split.
      * apply bind_Ok. eexists. split; [|exact H]. apply check_manifest_Ok. split; [apply Hm, list_elem_of_here|].
        split; [done|]. split; [|done]. intros id Hi. apply Hs, elem_of_app. by left.
      * intros id. rewrite Hel, !elem_of_app, elem_of_reverse. tauto.
Qed.

(** The loop that looks for the binding in progress. *)
Definition binding_of (p : SteeringProjection) (m : SteeringPromptManifestFact) : option (SteeringPromptManifestFact * string) :=
  id ← next_unbound p m; Some (m, id).

Lemma isSome_binding p m : isSome (binding_of p m) = isSome (next_unbound p m).
Proof. unfold binding_of. by destruct (next_unbound p m). Qed.

Lemma incomplete_from_spec p found ms :
  incomplete_from p found ms =
  match omap (binding_of p) ms, found with
  | [], _ => Ok found
  | [b], None => Ok (Some b)
  | _, _ => Err INVALID_SNAPSHOT
  end.
Proof.
  revert found; induction ms as [|m ms IH]; intros found; cbn; [by destruct found|].
  unfold binding_of at 1. destruct (next_unbound p m) as [id|]; cbn; [|exact (IH found)].
  destruct found as [b|]; [by destruct (omap _ ms)|].
  rewrite IH. by destruct (omap (binding_of p) ms) as [|b [|]].
Qed.

Lemma incompletePromptBinding_Ok p :
  (exists b, incompletePromptBinding p = Ok b) <->
  (forall a m a' m', p.(sp_manifests) !! a = Some m -> p.(sp_manifests) !! a' = Some m' ->
    isSome (next_unbound p m) = true -> isSome (next_unbound p m') = true -> a = a').
Proof.
  unfold incompletePromptBinding. rewrite incomplete_from_spec. unfold obj_values.
  setoid_rewrite <-elem_of_map_to_list. setoid_rewrite <-isSome_binding.
  transitivity (length (omap (binding_of p) (map_to_list (sp_manifests p)).*2) <= 1)%nat.
  - destruct (omap _ _) as [|b [|]]; cbn; split; try lia; eauto. intros [b' H]. discriminate.
  - split.
    + intros Hlen a m a' m' H H'. by apply (at_most_one_elim (binding_of p) (map_to_list (sp_manifests p))).
    + intros H. apply at_most_one_intro; [apply NoDup_fst_map_to_list|]. intros k v k' v'. apply H.
Qed.
End wf.
