(* ===== verification/SteeringRestore.v ===== *)
(** SteeringRestore: restoring a snapshot yields a well-formed projection, and
    leaves a well-formed projection as it is. *)
From S2P Require Import Prelude Text Json Ids ScmTypes ControlEvents EventSchema ControlState SteeringSchema SteeringReducer SteeringSnapshot SteeringWf.

Section restore.
Context {D : Digest} {C : Collation}.

(** * The schema *)

Lemma parse_record_idemp r r' : parse_record r = Some r' -> parse_record r' = Some r'.
Proof.
  destruct r as [c a|c a t i g s|c a t why|c a t by_|c a t|rv t|c a t d o]; cbn [parse_record]; intros H;
    apply bind_Some in H as (c' & Hc & H).
  6: { unfold parseSteeringRefusal in Hc. case_match eqn:E; [|done]. simplify_eq. case_match eqn:E'; [|done]. simplify_eq.
       cbn [parse_record]. unfold parseSteeringRefusal. rewrite E. cbn. by rewrite E'. }
  all: match type of H with (if ?b then _ else _) = _ => destruct b eqn:E; [|done] end; injection H as <-;
    cbn [parse_record]; rewrite (parseSteeringCommand_idemp _ _ Hc); cbn; by rewrite E.
Qed.

Lemma parsed_commands_lookup (m : obj SteeringCommandRecord) id r :
  omap parse_record m !! id = Some r -> exists r0, m !! id = Some r0 /\ parse_record r0 = Some r /\ parse_record r = Some r.
Proof.
  rewrite lookup_omap. intros (r0 & H0 & H)%bind_Some. exists r0. split; [done|]. split; [done|]. by eapply parse_record_idemp.
Qed.

Lemma parsed_commands_id (m : obj SteeringCommandRecord) :
  (forall id r, m !! id = Some r -> parse_record r = Some r) -> omap parse_record m = m.
Proof.
  intros H. apply map_eq. intros id. rewrite lookup_omap. destruct (m !! id) as [r|] eqn:E; cbn; [by apply (H id)|done].
Qed.

Lemma set_commands_id p : set_commands p (sp_commands p) = p.
Proof. by destruct p. Qed.

(** What parsing a projection establishes. *)
Record schema_wf (p : SteeringProjection) : Prop := {
  schema_scalars : boundedId p.(sp_runId) = true /\ boundedId p.(sp_runEpoch) = true /\ nonNegative p.(sp_observedSeq) = true;
  schema_commands id r : p.(sp_commands) !! id = Some r ->
    SteeringCommandIdSchema id = true /\ parse_record r = Some r /\ command_entry_valid p.(sp_observedSeq) (id, r) = true;
  schema_manifests a m : p.(sp_manifests) !! a = Some m ->
    boundedId a = true /\ SteeringPromptManifestFactSchema m = true /\ manifest_entry_valid p.(sp_observedSeq) (a, m) = true
}.

Lemma parseSteeringProjection_wf v p : parseSteeringProjection v = Some p -> schema_wf p.
Proof.
  unfold parseSteeringProjection. intros H.
  match type of H with (if ?b then _ else _) = _ => destruct b eqn:E; [|done] end.
  match type of H with (if ?b then _ else _) = _ => destruct b eqn:E'; [|done] end.
  injection H as <-. apply andb_true_iff in E as [E Hm], E' as [Hc' Hm']. apply andb_true_iff in E as [E Hc].
  apply andb_true_iff in E as [E Ho]. apply andb_true_iff in E as [Hr He].
  rewrite forallb_map_to_list in Hm. rewrite forallb_map_to_list in Hm'. rewrite forallb_map_to_list in Hc.
  rewrite forallb_map_to_list in Hc'. split; cbn [set_commands sp_runId sp_runEpoch sp_observedSeq sp_commands sp_manifests].
  - done.
  - intros id r Hid. pose proof (Hc' _ _ Hid) as Hv. apply parsed_commands_lookup in Hid as (r0 & H0 & _ & Hp).
    specialize (Hc _ _ H0). apply andb_true_iff in Hc as [Hk _]. done.
  - intros a m Ha. pose proof (Hm' _ _ Ha) as Hv. specialize (Hm _ _ Ha). apply andb_true_iff in Hm as [Hk Hs]. done.
Qed.

Lemma schema_wf_parse p : schema_wf p -> parseSteeringProjection p = Some p.
Proof.
  intros [(Hr & He & Ho) Hc Hm]. unfold parseSteeringProjection. rewrite parsed_commands_id by (intros id r H; apply (Hc id r H)).
  rewrite Hr, He, Ho, set_commands_id. cbn [andb].
  assert (forallb (fun entry => SteeringCommandIdSchema entry.1 && isSome (parse_record entry.2)) (map_to_list (sp_commands p)) = true) as ->.
  { apply forallb_map_to_list. intros id r H. destruct (Hc _ _ H) as (Hk & Hp & _). cbn [fst snd]. by rewrite Hk, Hp. }
  assert (forallb (fun entry => boundedId entry.1 && SteeringPromptManifestFactSchema entry.2) (map_to_list (sp_manifests p)) = true) as ->.
  { apply forallb_map_to_list. intros a m H. destruct (Hm _ _ H) as (Hk & Hs & _). cbn [fst snd]. by rewrite Hk, Hs. }
  assert (forallb (command_entry_valid (sp_observedSeq p)) (map_to_list (sp_commands p)) = true) as ->.
  { apply forallb_map_to_list. intros id r H. by apply Hc. }
  assert (forallb (manifest_entry_valid (sp_observedSeq p)) (map_to_list (sp_manifests p)) = true) as ->.
  { apply forallb_map_to_list. intros a m H. by apply Hm. }
  done.
Qed.

(** * Consistency *)

Lemma consistent_wf p : schema_wf p -> assertSteeringProjectionConsistent p false = Ok tt -> steering_wf p.
Proof.
  intros [Hsc Hc Hm]. unfold assertSteeringProjectionConsistent.
  intros (bound & Hb & H)%bind_Ok. apply bind_Ok in H as (b & Hi & H). apply bind_Ok in H as (us & Hrec & _).
  apply check_manifests_Ok in Hb as (Hpass & Hnd & _ & Hbound); [|constructor].
  apply map_result_Ok in Hrec.
  assert (forall id r, p.(sp_commands) !! id = Some r -> check_record p bound (id, r) = Ok tt) as Hr.
  { intros id r Hid. apply elem_of_map_to_list in Hid. apply list_elem_of_lookup in Hid as [i Hi'].
    eapply Forall2_lookup_l in Hrec as ([] & _ & Hx); [exact Hx|exact Hi']. }
  split.
  - done.
  - intros id r Hid. destruct (Hc _ _ Hid) as (Hk & Hp & Hv). pose proof (proj1 (check_record_bound _ _ _ _) (Hr id r Hid)) as [Hl Hin].
    split; try done. intros Hincl. apply Hin, Hbound in Hincl as [Hn|Hn]; [by apply not_elem_of_nil in Hn|].
    apply elem_of_concat_values in Hn. exact Hn.
  - intros a m Ha. destruct (Hm _ _ Ha) as (Hk & Hs & Hv). destruct (Hpass m) as (Hrun & Hbd & Ho); [apply elem_of_obj_values; eauto|].
    split; try done.
  - intros a m a' m' id Ha Ha' Hin Hin'. unfold obj_values in Hnd.
    eapply (NoDup_concat_elim _ _ a m a' m' id Hnd); [by apply elem_of_map_to_list|by apply elem_of_map_to_list|done|done].
  - apply incompletePromptBinding_Ok. eauto.
Qed.

Lemma wf_consistent p : steering_wf p -> assertSteeringProjectionConsistent p false = Ok tt.
Proof.
  intros [_ Hc Hm Hd Hi]. unfold assertSteeringProjectionConsistent.
  destruct (check_manifests_pass p false [] (obj_values (sp_manifests p))) as (bound & -> & Hbound).
  - intros m [a Ha]%elem_of_obj_values. destruct (Hm _ _ Ha) as [_ _ _ Hrun Ho Hb]. done.
  - unfold obj_values. apply NoDup_concat_intro; [apply NoDup_fst_map_to_list| |].
    + intros a m Ha%elem_of_map_to_list. pose proof (manifest_entry _ _ _ (Hm _ _ Ha)) as Hv. unfold manifest_entry_valid in Hv.
      guards. unfold unique in *. by guards.
    + intros a m a' m' id Ha%elem_of_map_to_list Ha'%elem_of_map_to_list. by apply Hd.
  - intros id _. apply not_elem_of_nil.
  - cbn [mbind result_bind]. apply incompletePromptBinding_Ok in Hi as [b ->]. cbn [mbind result_bind].
    assert (exists us, map_result (check_record p bound) (map_to_list (sp_commands p)) = Ok us) as [us ->]; [|done].
    exists (List.map (fun _ => tt) (map_to_list (sp_commands p))). apply map_result_Ok. rewrite Forall2_fmap_r. apply Forall_Forall2_diag.
    rewrite Forall_forall. intros [id r] Hid%elem_of_map_to_list. apply check_record_bound. destruct (Hc _ _ Hid) as [_ _ _ Hl Hb].
    split; [done|]. intros Hincl. apply Hbound. right. apply elem_of_concat_values. by apply Hb.
Qed.

(** * Restoring *)

Lemma wf_schema p : steering_wf p -> schema_wf p.
Proof.
  intros [Hs Hc Hm _ _]. split; [done| |].
  - intros id r H. by destruct (Hc _ _ H).
  - intros a m H. by destruct (Hm _ _ H).
Qed.

Lemma restore_wf v p : restoreSteeringProjection v = Ok p -> steering_wf p.
Proof.
  unfold restoreSteeringProjection. destruct (parseSteeringProjection v) as [q|] eqn:E; [|done].
  intros H. apply bind_Ok in H as ([] & Hc & [= <-]). apply consistent_wf; [by eapply parseSteeringProjection_wf|done].
Qed.

Lemma wf_restore p : steering_wf p -> restoreSteeringProjection p = Ok p.
Proof.
  intros Hwf. unfold restoreSteeringProjection. rewrite schema_wf_parse by by apply wf_schema.
  by rewrite wf_consistent.
Qed.
End restore.
