(* ===== verification/SteeringStep.v ===== *)
(** SteeringStep: applying an accepted event to a well-formed steering
    projection yields a well-formed one, so that a replayed projection always
    passes the snapshot check. *)
From S2P Require Import Prelude Text Json Ids ScmTypes ScmSchema ControlEvents EventSchema ControlState SteeringSchema SteeringReducer SteeringSnapshot SteeringWf SteeringRestore.

Section step.
Context {D : Digest} {C : Collation}.

(** * What the checks depend on *)

Definition command_at (p : SteeringProjection) (id : string) : option SteeringCommandV1 :=
  p.(sp_commands) !! id ≫= commandOf.

Lemma check_record_mono p p' bound id r :
  sp_runId p' = sp_runId p -> sp_runEpoch p' = sp_runEpoch p ->
  (forall k c, command_at p k = Some c -> command_at p' k = Some c) ->
  check_record p bound (id, r) = Ok tt -> check_record p' bound (id, r) = Ok tt.
Proof.
  intros Hr He Hc. unfold check_record. rewrite !invalid_seq, !invalid_Ok, Hr, He.
  intros (? & ? & ? & ? & Hs & ?). split_and!; try done.
  destruct r; try done. rewrite own_get in *. fold (command_at p byCommandId) in Hs. fold (command_at p' byCommandId).
  destruct (command_at p byCommandId) as [c|] eqn:E; [|done]. by rewrite (Hc _ _ E).
Qed.

Lemma check_bound_ext p p' complete m id :
  sp_commands p' !! id = sp_commands p !! id -> check_bound p' complete m id = check_bound p complete m id.
Proof. intros H. unfold check_bound, obj_get. by rewrite H. Qed.

Lemma admitted_at_ext p p' id : sp_commands p' !! id = sp_commands p !! id -> admitted_at p' id = admitted_at p id.
Proof. intros H. unfold admitted_at, obj_get. by rewrite H. Qed.

Lemma pending_at_ext p p' id : sp_commands p' !! id = sp_commands p !! id -> pending_at p' id = pending_at p id.
Proof. intros H. unfold pending_at, obj_get. by rewrite H. Qed.

Lemma canonical_ids_ext p p' m :
  (forall id, id ∈ m.(mf_steeringCommandIds) -> admitted_at p' id = admitted_at p id) ->
  canonical_ids p' m = canonical_ids p m.
Proof.
  intros H. unfold canonical_ids. do 2 f_equal. induction (mf_steeringCommandIds m) as [|id ids IH]; cbn; [done|].
  rewrite H by apply list_elem_of_here. rewrite IH; [done|]. intros k Hk. apply H. by apply list_elem_of_further.
Qed.

Lemma next_unbound_Some p m id :
  next_unbound p m = Some id -> id ∈ m.(mf_steeringCommandIds) /\ pending_at p id = true.
Proof. unfold next_unbound. intros H. apply find_some in H as [H Hp]. by rewrite <-list_elem_of_In in H. Qed.

Lemma next_unbound_isSome p m :
  isSome (next_unbound p m) = true <-> exists id, id ∈ m.(mf_steeringCommandIds) /\ pending_at p id = true.
Proof.
  split.
  - destruct (next_unbound p m) as [id|] eqn:E; [|done]. intros _. exists id. by apply next_unbound_Some.
  - intros (id & Hid & Hp). destruct (next_unbound p m) eqn:E; [done|]. unfold next_unbound in E.
    rewrite list_elem_of_In in Hid. by rewrite (find_none _ _ E id Hid) in Hp.
Qed.

Lemma manifestContaining_false p id :
  manifestContaining p id = false <-> forall a m, p.(sp_manifests) !! a = Some m -> id ∉ m.(mf_steeringCommandIds).
Proof.
  unfold manifestContaining. rewrite existsb_obj_values_false. split; intros H a m Ha.
  - specialize (H a m Ha). by apply bool_decide_eq_false in H.
  - apply bool_decide_eq_false. by apply (H a).
Qed.

Lemma command_entry_mono n n' entry : n <= n' -> command_entry_valid n entry = true -> command_entry_valid n' entry = true.
Proof.
  destruct entry as [id r]. unfold command_entry_valid. intros Hn H. guards.
  rewrite !andb_true_iff, bool_decide_eq_true. split_and!; [done| |done].
  repeat case_match; try done; guards; apply Z.leb_le; lia.
Qed.

Lemma manifest_entry_mono n n' entry : n <= n' -> manifest_entry_valid n entry = true -> manifest_entry_valid n' entry = true.
Proof.
  destruct entry as [a m]. unfold manifest_entry_valid. intros Hn H. guards.
  rewrite !andb_true_iff, negb_true_iff, orb_false_iff, bool_decide_eq_true, Z.ltb_ge, Z.leb_gt.
  split_and!; [done|lia|done|done].
Qed.

(** * Writing one command *)

Definition with_command (p : SteeringProjection) (id : string) (r : SteeringCommandRecord) (seq : Z) : SteeringProjection :=
  observe (set_commands p (<[id := r]> p.(sp_commands))) seq.

Lemma with_command_eq p id r seq : sp_commands (with_command p id r seq) !! id = Some r.
Proof. cbn. apply lookup_insert_eq. Qed.

Lemma with_command_ne p id r seq k : k <> id -> sp_commands (with_command p id r seq) !! k = sp_commands p !! k.
Proof. intros. cbn. by rewrite lookup_insert_ne. Qed.

Lemma with_command_wf p id r seq :
  steering_wf p -> seq = sp_observedSeq p + 1 -> positive seq = true ->
  (forall c, command_at p id = Some c -> commandOf r = Some c) ->
  (forall a m, p.(sp_manifests) !! a = Some m -> id ∈ m.(mf_steeringCommandIds) ->
     check_bound (with_command p id r seq) false m id = Ok tt /\
     admitted_at (with_command p id r seq) id = admitted_at p id /\
     (is_pending r = true -> pending_at p id = true)) ->
  SteeringCommandIdSchema id = true -> parse_record r = Some r -> command_entry_valid seq (id, r) = true ->
  check_record p [id] (id, r) = Ok tt ->
  (is_included r = true -> manifestContaining p id = true) ->
  steering_wf (with_command p id r seq).
Proof.
  intros [Hs Hc Hm Hd Hi] -> Hpos Hkeep Hbound Hk Hp Hv Hl Hincl.
  set (p' := with_command p id r (sp_observedSeq p + 1)) in *.
  assert (forall k c, command_at p k = Some c -> command_at p' k = Some c) as Hcmd.
  { intros k c. unfold command_at. destruct (decide (k = id)) as [->|Hne].
    - unfold p'. rewrite with_command_eq. apply Hkeep.
    - unfold p'. by rewrite with_command_ne. }
  assert (forall k, pending_at p' k = true -> (exists a m, p.(sp_manifests) !! a = Some m /\ k ∈ m.(mf_steeringCommandIds)) -> pending_at p k = true) as Hpend.
  { intros k Hk' (a & m & Ha & Hin). destruct (decide (k = id)) as [->|Hne].
    - apply (Hbound a m Ha Hin). unfold pending_at, obj_get in Hk'. unfold p' in Hk'. by rewrite with_command_eq in Hk'.
    - unfold p' in Hk'. by rewrite (pending_at_ext p) in Hk' by by apply with_command_ne. }
  split.
  - destruct Hs as (? & ? & Ho). split_and!; [done..|]. rewrite nonNegative_spec. rewrite positive_spec in Hpos. cbn. lia.
  - intros k x Hx. destruct (decide (k = id)) as [->|Hne].
    + unfold p' in Hx. rewrite with_command_eq in Hx. injection Hx as <-. split; try done.
      * by apply (check_record_mono p p').
      * intros H. apply Hincl in H. unfold manifestContaining in H. apply existsb_obj_values in H as (a & m & Ha & Hin).
        apply bool_decide_eq_true in Hin. eauto.
    + unfold p' in Hx. rewrite with_command_ne in Hx by done. destruct (Hc _ _ Hx) as [? ? He Hl' Hb]. split; try done.
      * eapply command_entry_mono; [|exact He]. cbn. lia.
      * by apply (check_record_mono p p').
  - intros a m Ha. destruct (Hm _ _ Ha) as [? ? He Hrun Ho Hb]. split; try done.
    + eapply manifest_entry_mono; [|exact He]. cbn. lia.
    + rewrite (canonical_ids_ext p); [done|]. intros k Hin. destruct (decide (k = id)) as [->|Hne].
      * by apply (Hbound a m).
      * apply admitted_at_ext. by apply with_command_ne.
    + intros k Hin. destruct (decide (k = id)) as [->|Hne]; [by apply (Hbound a m)|].
      rewrite (check_bound_ext p); [by apply Hb|]. by apply with_command_ne.
  - done.
  - intros a m a' m' Ha Ha'. rewrite !next_unbound_isSome. intros (k & Hin & Hk1) (k' & Hin' & Hk2).
    apply (Hi a m a' m' Ha Ha'); apply next_unbound_isSome; eauto 8.
Qed.

(** An event that is not about steering only moves the head. *)
Lemma observe_wf p seq :
  steering_wf p -> seq = sp_observedSeq p + 1 -> positive seq = true -> steering_wf (observe p seq).
Proof.
  intros [Hs Hc Hm Hd Hi] -> Hpos. split; [|intros id r Hid|intros a m Ha|exact Hd|exact Hi].
  - destruct Hs as (? & ? & Ho). split_and!; [done..|]. rewrite nonNegative_spec. rewrite positive_spec in Hpos. cbn. lia.
  - destruct (Hc _ _ Hid) as [? ? He Hl Hb]. split; try done.
    eapply command_entry_mono; [|exact He]. cbn. lia.
  - destruct (Hm _ _ Ha) as [? ? He Hrun Ho Hb]. split; try done.
    eapply manifest_entry_mono; [|exact He]. cbn. lia.
Qed.

(** * Finishing a pending command *)

Lemma requirePending_Ok p id c a : requirePending p id = Ok (c, a) -> p.(sp_commands) !! id = Some (rec_pending c a).
Proof.
  unfold requirePending. destruct (obj_get (sp_commands p) id) as [| |r] eqn:E; [done..|].
  apply obj_get_Own in E. destruct r; try done. by intros [= -> ->].
Qed.

(** What the invariant says of a pending command. *)
Record pending_facts (p : SteeringProjection) (id : string) (c : SteeringCommandV1) (a : Z) : Prop := {
  pending_id : sc_commandId c = id;
  pending_key : SteeringCommandIdSchema id = true;
  pending_parsed : parseSteeringCommand c = Some c;
  pending_seq : positive a = true /\ a <= sp_observedSeq p;
  pending_run : scope_runId (sc_scope c) = sp_runId p /\ scope_runEpoch (sc_scope c) = sp_runEpoch p
}.

Lemma wf_pending p id c a : steering_wf p -> p.(sp_commands) !! id = Some (rec_pending c a) -> pending_facts p id c a.
Proof.
  intros Hwf H. destruct (wf_command _ Hwf _ _ H) as [Hk Hp He Hl _].
  unfold command_entry_valid in He. cbn in He. cbn [parse_record] in Hp. apply bind_Some in Hp as (c' & Hc & Hp).
  destruct (positive a) eqn:Ea; [|done]. injection Hp as ->. unfold check_record in Hl. rewrite !invalid_seq in Hl.
  cbn [commandOf] in Hl. guards. split; try done.
Qed.

(** The clauses of [check_record] about superseded and expired commands. *)
Definition ending_linked (p : SteeringProjection) (id : string) (r : SteeringCommandRecord) : bool :=
  match r with
  | rec_superseded command _ _ byCommandId =>
      match command_at p byCommandId with
      | Some replacement =>
          bool_decide (replacement.(sc_draft).(sd_supersedesCommandId) = Some id)
          && sameSteeringTarget (sc_scope command) (sc_scope replacement)
      | None => false
      end
  | rec_expired command _ _ =>
      match command.(sc_draft).(sd_expiresAt) with
      | Some expiresAt => negb (bool_decide (expiresAt = EmptyString))
      | None => false
      end
  | _ => true
  end.

Lemma check_record_ending p id c a r :
  pending_facts p id c a -> commandOf r = Some c -> ending_linked p id r = true -> check_record p [id] (id, r) = Ok tt.
Proof.
  intros [Hid _ _ _ [Hr He]] Hc Hl. unfold check_record. rewrite !invalid_seq, !invalid_Ok.
  assert (commandIdOf r = id) as -> by (destruct r; cbn in *; congruence). rewrite Hc, Hr, He, !bool_decide_eq_true_2 by done.
  destruct r; try discriminate Hc; cbv beta iota; rewrite ?own_get; split_and!; try done; first [exact Hl|apply bool_decide_eq_true, list_elem_of_here].
Qed.

Lemma finish_wf p id c a r seq :
  steering_wf p -> p.(sp_commands) !! id = Some (rec_pending c a) -> seq = sp_observedSeq p + 1 -> positive seq = true ->
  commandOf r = Some c -> admittedSeqOf r = Some a -> terminalSeqOf r = Some seq -> parse_record r = Some r ->
  ending_linked p id r = true ->
  (forall k m, p.(sp_manifests) !! k = Some m -> id ∈ m.(mf_steeringCommandIds) ->
     check_bound (with_command p id r seq) false m id = Ok tt) ->
  (is_included r = true -> manifestContaining p id = true) ->
  steering_wf (with_command p id r seq).
Proof.
  intros Hwf Hpd Hseq Hpos Hc Ha Ht Hp Hl Hb Hi. pose proof (wf_pending _ _ _ _ Hwf Hpd) as Hf.
  assert (commandIdOf r = id) as Hid by (destruct Hf; destruct r; cbn in *; congruence).
  apply with_command_wf; try done.
  - unfold command_at. rewrite Hpd. cbn. intros c' [= <-]. done.
  - intros k m Hk Hin. split; [by apply (Hb k)|]. split.
    + unfold admitted_at, obj_get. rewrite with_command_eq, Hpd. cbn. rewrite Ha. cbn. rewrite Hid. by destruct Hf as [-> _ _ _ _].
    + destruct r; done.
  - by destruct Hf.
  - unfold command_entry_valid. rewrite Hid, Ht, Ha, bool_decide_eq_true_2 by done. destruct Hf as [_ _ _ [_ ?] _]. lia.
  - by eapply check_record_ending.
Qed.

(** An unreserved command leaves every binding alone. *)
Lemma finish_unreserved_wf p id c a r seq :
  steering_wf p -> requirePending p id = Ok (c, a) -> assertUnreserved p id = Ok tt ->
  seq = sp_observedSeq p + 1 -> positive seq = true ->
  commandOf r = Some c -> admittedSeqOf r = Some a -> terminalSeqOf r = Some seq -> is_included r = false ->
  parse_record r = Some r -> ending_linked p id r = true ->
  steering_wf (with_command p id r seq).
Proof.
  intros Hwf Hpd%requirePending_Ok Hun Hseq Hpos Hc Ha Ht Hi Hp Hl. apply ensure_Ok, negb_true_iff in Hun.
  eapply finish_wf; try done.
  - intros k m Hk Hin. exfalso. by apply (proj1 (manifestContaining_false _ _) Hun k m).
  - congruence.
Qed.
End step.
