(* ===== verification/SteeringApply.v ===== *)
(** SteeringApply: every handler of the steering reducer preserves the
    well-formed projections, and so do applying and reducing. *)
From S2P Require Import Prelude Text Json Ids ScmTypes ScmSchema ControlEvents EventSchema ControlState SteeringSchema SteeringReducer SteeringSnapshot SteeringWf SteeringRestore SteeringStep.

Section handlers.
Context {D : Digest} {C : Collation}.

Variable p : SteeringProjection.
Variable e : ControlEvent.
Variable seq : Z.
Hypothesis Hwf : steering_wf p.
Hypothesis Hseq : seq = sp_observedSeq p + 1.
Hypothesis Hpos : positive seq = true.
Hypothesis Hrun : ev_runId e = sp_runId p /\ ev_runEpoch e = sp_runEpoch p.

Lemma event_scope_run sid sgen scope :
  event_scope e sid sgen = Ok scope -> scope_runId scope = sp_runId p /\ scope_runEpoch scope = sp_runEpoch p.
Proof using Hrun. unfold event_scope. repeat case_match; try done. by intros [= <-]. Qed.

Lemma event_scope_valid sid sgen scope :
  baseShape_valid e = true -> boundedId sid = true -> positive sgen = true ->
  event_scope e sid sgen = Ok scope -> SteeringScope_valid scope = true.
Proof using Type.
  unfold baseShape_valid, event_scope. rewrite !andb_true_iff. intros ((((((((((((_ & Hr) & He) & Ht) & Hg) & _) & _) & _) & _) & _) & _) & _) & _) Hs Hsg.
  destruct (ev_taskId e), (ev_taskGeneration e); try done. intros [= <-]. unfold SteeringScope_valid. cbn in *.
  by rewrite Hr, He, Ht, Hg, Hs, Hsg.
Qed.

Lemma pending_parses id c a :
  requirePending p id = Ok (c, a) -> pending_facts p id c a.
Proof using Hwf. intros H%requirePending_Ok. by apply wf_pending. Qed.

(** The handlers that end an unreserved pending command differ in the record
    they write. *)
Ltac ends_unreserved :=
  match goal with
  | Hp : requirePending p ?id = Ok (?c, ?a), Hu : assertUnreserved p ?id = Ok _ |- _ =>
      let Hid := fresh "Hid" in let Hc := fresh "Hc" in let Ha := fresh "Ha" in
      destruct (pending_parses _ _ _ Hp) as [Hid _ Hc [Ha _] _];
      eapply (finish_unreserved_wf p id c a _ seq Hwf Hp Hu Hseq Hpos); try reflexivity
  end.

Lemma applyWithdrawn_wf payload p' :
  steeringWithdrawnPayload_valid payload = true ->
  applyWithdrawn p e seq payload = Ok p' -> steering_wf (observe p' seq).
Proof using Hwf Hseq Hpos.
  unfold applyWithdrawn, steeringWithdrawnPayload_valid. intros [_ Hv]%andb_true_iff H. run. subst p'.
  ends_unreserved. cbn [parse_record]. rewrite Hc. cbn [mbind option_bind]. by rewrite Ha, Hpos, Hv.
Qed.

Lemma applyTerminalRefused_wf payload p' :
  steeringTerminalRefusedPayload_valid payload = true ->
  applyTerminalRefused p e seq payload = Ok p' -> steering_wf (observe p' seq).
Proof using Hwf Hseq Hpos.
  unfold applyTerminalRefused, steeringTerminalRefusedPayload_valid.
  intros [[_ Hd]%andb_true_iff Ho]%andb_true_iff H. run. subst p'.
  ends_unreserved. cbn [parse_record]. rewrite Hc. cbn [mbind option_bind]. by rewrite Ha, Hpos, Hd, Ho.
Qed.

Lemma applyExpired_wf payload p' :
  applyExpired p e seq payload = Ok p' -> steering_wf (observe p' seq).
Proof using Hwf Hseq Hpos.
  unfold applyExpired. intros H. run. subst p'.
  match goal with Hp : requirePending p ?id = Ok (?c, ?a) |- _ => pose proof (pending_id _ _ _ _ (pending_parses _ _ _ Hp)) as Heq; rewrite Heq end.
  ends_unreserved.
  - cbn [parse_record]. rewrite Hc. cbn [mbind option_bind]. by rewrite Ha, Hpos.
  - cbn [ending_linked]. match goal with H : context [time_lt] |- _ => revert H end. destruct (sd_expiresAt _) as [at_|]; [|done].
    by intros [H _]%andb_true_iff.
Qed.

Lemma applySuperseded_wf payload p' :
  applySuperseded p e seq payload = Ok p' -> steering_wf (observe p' seq).
Proof using Hwf Hseq Hpos.
  unfold applySuperseded. intros H. run. subst p'.
  match goal with Hr : requirePending p (ssp_byCommandId payload) = Ok (?c, ?a) |- _ =>
    destruct (pending_parses _ _ _ Hr) as [Hrid Hrk _ _ _]; apply requirePending_Ok in Hr; rewrite Hrid end.
  match goal with Hp : requirePending p (ssp_commandId payload) = Ok (?c, ?a) |- _ => pose proof (pending_id _ _ _ _ (pending_parses _ _ _ Hp)) as Heq; rewrite Heq in * end.
  ends_unreserved.
  - cbn [parse_record]. rewrite Hc. cbn [mbind option_bind]. by rewrite Ha, Hpos, Hrk.
  - cbn [ending_linked]. unfold command_at. match goal with Hr : sp_commands p !! _ = Some _ |- _ => rewrite Hr end. done.
Qed.

Lemma applyIncluded_wf payload p' :
  applyIncluded p e seq payload = Ok p' -> steering_wf (observe p' seq).
Proof using Hwf Hseq Hpos.
  unfold applyIncluded. intros H. apply bind_Ok in H as ([c a] & Hp & H). apply bind_Ok in H as (scope & Hscope & H).
  apply bind_Ok in H as ([] & Ht & H). destruct (obj_get (sp_manifests p) (sip_attemptId payload)) as [| |m] eqn:Hm; [done..|].
  apply obj_get_Own in Hm. apply bind_Ok in H as ([] & Hb & H). apply bind_Ok in H as ([] & Hcut & H).
  apply bind_Ok in H as ([] & Hs & [= <-]). apply ensure_Ok in Hb, Hs.
  apply andb_true_iff in Hb as [_ Hin%bool_decide_eq_true]. apply Z.eqb_eq in Hs.
  destruct (pending_parses _ _ _ Hp) as [Hid _ Hc [Ha _] _]. apply requirePending_Ok in Hp.
  eapply finish_wf; try done.
  - destruct (wf_manifest _ Hwf _ _ Hm) as [Hk Hsch He _ _ _]. cbn [parse_record]. rewrite Hc. cbn [mbind option_bind].
    unfold SteeringPromptManifestFactSchema in Hsch. rewrite Ha, Hpos. rewrite !andb_true_iff in Hsch.
    destruct Hsch as (((((((((((-> & ->) & _) & _) & ->) & _) & _) & _) & _) & _) & _) & _). done.
  - intros k m' Hk Hin'. assert (k = sip_attemptId payload) as -> by (by eapply (wf_disjoint _ Hwf)).
    assert (m' = m) as -> by congruence.
    pose proof (manifest_bound _ _ _ (wf_manifest _ Hwf _ _ Hm) _ Hin) as Hbd. unfold check_bound, obj_get in Hbd |- *.
    rewrite Hp in Hbd. rewrite with_command_eq. cbn [commandOf admittedSeqOf] in Hbd |- *.
    rewrite !invalid_seq in Hbd. rewrite !invalid_seq, invalid_Ok.
    destruct Hbd as (? & _ & ? & _). split_and!; try done.
    + by rewrite !bool_decide_eq_true_2, Z.eqb_refl.
    + by apply Z.eqb_eq.
  - intros _. unfold manifestContaining. apply existsb_obj_values. exists (sip_attemptId payload), m. split; [done|]. by apply bool_decide_eq_true.
Qed.

(** * New commands *)

Lemma fresh_wf id r :
  sp_commands p !! id = None -> SteeringCommandIdSchema id = true -> parse_record r = Some r ->
  command_entry_valid seq (id, r) = true -> check_record p [id] (id, r) = Ok tt -> is_included r = false ->
  steering_wf (with_command p id r seq).
Proof using Hwf Hseq Hpos.
  intros Hn Hk Hp He Hl Hi. apply with_command_wf; try done.
  - unfold command_at. by rewrite Hn.
  - intros a m Ha Hin. exfalso. pose proof (manifest_bound _ _ _ (wf_manifest _ Hwf _ _ Ha) _ Hin) as Hb.
    unfold check_bound, obj_get in Hb. rewrite Hn in Hb. by case_bool_decide.
  - congruence.
Qed.

Lemma applyAdmitted_wf payload p' :
  applyAdmitted p e seq payload = Ok p' -> steering_wf (observe p' seq).
Proof using Hwf Hseq Hpos Hrun.
  unfold applyAdmitted. intros H. apply bind_Ok in H as ([] & Hf & H). apply bind_Ok in H as (scope & Hscope & H).
  destruct (parseSteeringCommand _) as [c|] eqn:Hparse; [|done].
  apply bind_Ok in H as ([] & _ & H). apply bind_Ok in H as ([] & Ht & H). apply bind_Ok in H as ([] & _ & H).
  apply bind_Ok in H as ([] & _ & [= <-]).
  apply ensure_Ok, negb_true_iff, present_false in Hf as [Hf _]. apply ensure_Ok, sameSteeringTarget_eq in Ht.
  apply event_scope_run in Hscope as [Hr He].
  pose proof (parseSteeringCommand_idemp _ _ Hparse) as Hc. pose proof (parseSteeringCommand_valid _ Hc) as (Hk & _).
  assert (sc_commandId c = sap_commandId payload) as Hid.
  { apply parseSteeringCommand_Some in Hparse as (body & _ & Hd & _). unfold sc_commandId. by rewrite Hd. }
  apply fresh_wf; try done.
  - by rewrite Hid.
  - cbn [parse_record]. rewrite Hc. cbn [mbind option_bind]. by rewrite Hpos.
  - unfold command_entry_valid. cbn. by rewrite bool_decide_eq_true_2, Z.leb_refl.
  - unfold check_record. rewrite !invalid_seq, !invalid_Ok. cbn [commandOf commandIdOf].
    by rewrite Ht, Hr, He, !bool_decide_eq_true_2.
Qed.

Lemma applyRefused_wf payload p' :
  applyRefused p e seq payload = Ok p' -> steering_wf (observe p' seq).
Proof using Hwf Hseq Hpos Hrun.
  unfold applyRefused. intros H. apply bind_Ok in H as ([] & Hf & H). apply bind_Ok in H as (scope & Hscope & H).
  destruct (parseSteeringRefusal _) as [r|] eqn:Hparse; [|done]. injection H as <-.
  apply ensure_Ok, negb_true_iff, present_false in Hf as [Hf _]. apply event_scope_run in Hscope as [Hr He].
  assert (parseSteeringRefusal r = Some r) as Hp by (unfold parseSteeringRefusal in *; case_match eqn:E; simplify_eq; by rewrite E).
  assert (r.(rv_commandId) = srp_commandId payload /\ r.(rv_scope) = scope) as [Hid Hs]
    by (unfold parseSteeringRefusal in Hparse; case_match; by simplify_eq).
  apply fresh_wf; try done.
  - by rewrite Hid.
  - unfold parseSteeringRefusal in Hp. case_match eqn:E; [|done]. by rewrite !andb_true_iff in E; destruct E as [[[[? _] _] _] _].
  - cbn [parse_record]. rewrite Hp. cbn [mbind option_bind]. by rewrite Hpos.
  - unfold command_entry_valid. cbn. by rewrite bool_decide_eq_true_2, Z.leb_refl.
  - unfold check_record. rewrite !invalid_seq, !invalid_Ok. cbn [commandOf commandIdOf].
    by rewrite Hs, Hr, He, !bool_decide_eq_true_2.
Qed.

(** * A new manifest *)

Lemma with_manifest_wf a m :
  let p' := observe (set_manifests p (<[a := m]> (sp_manifests p))) seq in
  sp_manifests p !! a = None -> manifest_wf p' a m ->
  (forall id, id ∈ mf_steeringCommandIds m -> manifestContaining p id = false) ->
  (forall a' m', sp_manifests p !! a' = Some m' -> isSome (next_unbound p m') = false) ->
  steering_wf p'.
Proof using Hwf Hseq Hpos.
  intros p' Hfresh Hm Hun Hinc. pose proof (observe_wf _ _ Hwf Hseq Hpos) as [Hs Hc Hms Hd _].
  assert (forall k m', sp_manifests p' !! k = Some m' -> (k = a /\ m' = m) \/ sp_manifests p !! k = Some m') as Hcase.
  { intros k m'. cbn. rewrite lookup_insert_Some. intros [[<- <-]|[_ ?]]; auto. }
  split.
  - exact Hs.
  - intros id r Hid. destruct (Hc _ _ Hid) as [? ? ? ? Hb]. split; try done. intros (k & m' & Hk & Hin)%Hb.
    exists k, m'. split; [|done]. cbn in Hk |- *. rewrite lookup_insert_ne; [done|]. intros <-. congruence.
  - intros k m' [[-> ->]|Hk]%Hcase; [done|]. destruct (Hms _ _ Hk). by split.
  - intros k1 m1 k2 m2 id H1%Hcase H2%Hcase Hin1 Hin2.
    assert (forall k m', sp_manifests p !! k = Some m' -> id ∈ mf_steeringCommandIds m -> id ∉ mf_steeringCommandIds m') as Hno.
    { intros k m' Hk Hin. by apply (proj1 (manifestContaining_false _ _) (Hun id Hin) k). }
    destruct H1 as [[-> ->]|H1], H2 as [[-> ->]|H2]; [done| | |by eapply Hd].
    + exfalso. by eapply Hno.
    + exfalso. by eapply (Hno k1 m1).
  - intros k1 m1 k2 m2 H1%Hcase H2%Hcase Hn1 Hn2. change (next_unbound p') with (next_unbound p) in *.
    destruct H1 as [[-> ->]|H1], H2 as [[-> ->]|H2]; [done| | |].
    + by rewrite (Hinc _ _ H2) in Hn2.
    + by rewrite (Hinc _ _ H1) in Hn1.
    + by rewrite (Hinc _ _ H1) in Hn1.
Qed.

(** What the selection of one command checks. *)
Record selected_ok (payload : attemptPreparedPayload) (scope : SteeringScope) (id : string) (sel : Z * string)
    (c : SteeringCommandV1) : Prop := {
  selected_lookup : sp_commands p !! id = Some (rec_pending c sel.1);
  selected_id : sel.2 = sc_commandId c;
  selected_free : manifestContaining p id = false;
  selected_scope : sc_scope c = scope;
  selected_from : (app_attemptGeneration payload <? sc_notBefore c) = false;
  selected_cutoff : (app_captureCutoffSeq payload <? sel.1) = false
}.

Lemma select_command_Ok payload scope id sel :
  select_command p e payload scope id = Ok sel -> exists c, selected_ok payload scope id sel c.
Proof using Type.
  unfold select_command. intros H. apply bind_Ok in H as ([c a] & Hp%requirePending_Ok & H).
  apply bind_Ok in H as ([] & Hu%ensure_Ok & H). apply bind_Ok in H as ([] & Ht & H). apply bind_Ok in H as ([] & Hn%ensure_Ok & H).
  apply bind_Ok in H as ([] & Hc%ensure_Ok & H). apply bind_Ok in H as ([] & _ & [= <-]).
  apply negb_true_iff in Hu, Hn, Hc. apply ensure_Ok, sameSteeringTarget_eq in Ht. by exists c.
Qed.

Lemma selected_admitted payload scope ids selected :
  Forall2 (fun id sel => select_command p e payload scope id = Ok sel) ids selected -> omap (admitted_at p) ids = selected.
Proof using Type.
  induction 1 as [|id sel ids selected Hs _ IH]; cbn; [done|]. apply select_command_Ok in Hs as (c & [Hl Hid _ _ _ _]).
  unfold admitted_at, obj_get at 1. rewrite Hl. cbn. rewrite <-Hid. destruct sel. cbn. f_equal. exact IH.
Qed.

Lemma applyPrepared_wf payload p' :
  baseShape_valid e = true -> attemptPreparedPayload_valid payload = true ->
  (forall a m, sp_manifests p !! a = Some m -> isSome (next_unbound p m) = false) ->
  applyPrepared p e seq payload = Ok p' -> steering_wf (observe p' seq).
Proof using Hwf Hseq Hpos Hrun.
  unfold applyPrepared. intros Hbase Hv Hinc H. apply bind_Ok in H as (scope & Hscope & H).
  apply bind_Ok in H as ([] & Hf & H). apply bind_Ok in H as ([] & Hcut & H). apply bind_Ok in H as ([] & Hun & H).
  apply bind_Ok in H as ([] & _ & H). apply bind_Ok in H as (selected & Hsel & H). apply bind_Ok in H as ([] & Hord & [= <-]).
  apply ensure_Ok, negb_true_iff, present_false in Hf as [Hf _]. apply ensure_Ok, Z.eqb_eq in Hcut. apply ensure_Ok in Hun.
  apply ensure_Ok, negb_true_iff in Hord. apply map_result_Ok in Hsel.
  assert (forall id, id ∈ app_steeringCommandIds payload -> exists sel c, selected_ok payload scope id sel c) as Hids.
  { intros id Hin. apply list_elem_of_lookup in Hin as [i Hi]. eapply Forall2_lookup_l in Hsel as (sel & _ & Hs); [|exact Hi].
    exists sel. by apply select_command_Ok. }
  apply with_manifest_wf; [done| |intros id (sel & c & Hs)%Hids; apply Hs|done].
  unfold attemptPreparedPayload_valid, attemptBase_valid in Hv. rewrite !andb_true_iff in Hv.
  destruct Hv as (((((((((((Ha & Hag) & Hsid) & Hsg) & Hloc) & Hsha) & Hpb) & Hpm) & Hrv) & Hcc) & Hbi) & Hmax).
  split; cbn [mf_attemptId mf_attemptGeneration mf_scope mf_steeringCommandIds].
  - done.
  - unfold SteeringPromptManifestFactSchema.
    cbn [mf_attemptId mf_attemptGeneration mf_scope mf_artifactLocator mf_promptSha256 mf_promptBytes mf_rendererVersion
         mf_captureCutoffSeq mf_steeringCommandIds mf_preparedSeq].
    rewrite Ha, Hag, Hloc, Hsha, Hpb, Hpm, Hrv, Hcc, Hpos, (event_scope_valid _ _ _ Hbase Hsid Hsg Hscope).
    change STEERING_BOUNDARY_MAX_COMMANDS with 32. rewrite Hmax, !andb_true_r. cbn [andb].
    apply forallb_forall. intros id Hin%list_elem_of_In. apply Hids in Hin as (sel & c & [Hl _ _ _ _ _]).
    by destruct (wf_pending _ _ _ _ Hwf Hl).
  - unfold manifest_entry_valid. cbn [mf_attemptId mf_preparedSeq mf_captureCutoffSeq mf_steeringCommandIds observe sp_observedSeq].
    rewrite Hun, bool_decide_eq_true_2 by done. rewrite andb_true_r. apply negb_true_iff, orb_false_iff.
    split; [by apply Z.ltb_irrefl|]. apply Z.leb_gt. lia.
  - by eapply event_scope_run.
  - unfold canonical_ids. cbn [mf_steeringCommandIds]. change (admitted_at _) with (admitted_at p).
    by rewrite (selected_admitted _ _ _ _ Hsel).
  - intros id (sel & c & [Hl _ _ Hsc Hnb Hco])%Hids. unfold check_bound, obj_get. cbn [observe set_manifests sp_commands].
    rewrite Hl. cbn [commandOf admittedSeqOf mf_scope mf_captureCutoffSeq mf_attemptGeneration].
    rewrite !invalid_seq, invalid_Ok, Hsc, Hnb, Hco. split_and!; try done. by apply sameSteeringTarget_eq.
Qed.
End handlers.

(** * Applying and reducing *)

Lemma incompletePromptBinding_None p a m :
  incompletePromptBinding p = Ok None -> sp_manifests p !! a = Some m -> isSome (next_unbound p m) = false.
Proof.
  unfold incompletePromptBinding. rewrite incomplete_from_spec. intros H Ha. rewrite <-isSome_binding.
  destruct (binding_of p m) as [b|] eqn:E; [|done].
  assert (b ∈ omap (binding_of p) (obj_values (sp_manifests p))) as Hin.
  { apply list_elem_of_omap. exists m. split; [|done]. apply elem_of_obj_values. by exists a. }
  destruct (omap (binding_of p) _) as [|b1 [|]]; [by apply not_elem_of_nil in Hin|done|done].
Qed.

(** What an accepted persisted event is known to satisfy. *)
Record event_ok `{Digest, UrlApi} (pe : PersistedControlEvent) : Prop := {
  event_seq : positive pe.(pe_seq) = true;
  event_base : baseShape_valid pe.(pe_event) = true;
  event_payload : payload_valid pe.(pe_event).(ev_payload) = true
}.

Section apply.
Context {D : Digest} {U : UrlApi} {C : Collation}.

Lemma parseEvent_Ok value pe : parseEvent value = Ok pe -> pe = value /\ event_ok pe.
Proof.
  unfold parseEvent, parsePersistedControlEvent, parseControlEvent. intros H%map_err_Ok.
  apply bind_Ok in H as ([] & Hm%ensure_Ok & H). apply bind_Ok in H as (ev & Hev & H). apply map_err_Ok in Hev.
  apply bind_Ok in Hev as ([] & Hb%ensure_Ok & _). apply bind_Ok in H as (sc & _ & H). apply bind_Ok in H as (i & _ & H).
  apply bind_Ok in H as ([] & _ & H). apply bind_Ok in H as (d & _ & H). apply bind_Ok in H as ([] & _ & H). injection H as <-.
  split; [done|]. apply andb_true_iff in Hb as [Hb Hp]. unfold persistedMetadata_valid in Hm. rewrite !andb_true_iff in Hm.
  by destruct Hm as [[[? _] _] _].
Qed.

Lemma on_steering_event_wf p pe p' incomplete :
  steering_wf p -> event_ok pe -> pe.(pe_seq) = sp_observedSeq p + 1 ->
  ev_runId pe.(pe_event) = sp_runId p /\ ev_runEpoch pe.(pe_event) = sp_runEpoch p ->
  incompletePromptBinding p = Ok incomplete -> continues (ev_payload pe.(pe_event)) incomplete = true ->
  on_steering_event p pe.(pe_event) pe.(pe_seq) = Ok p' -> steering_wf (observe p' pe.(pe_seq)).
Proof.
  intros Hwf [Hpos Hbase Hv] Hseq Hrun Hinc Hcont. unfold on_steering_event.
  destruct (ev_payload (pe_event pe)) as [p0|p0|p0|p0|p0|p0|p0|p0|p0|p0|p0|p0|p0|p0|p0|p0|p0|p0|p0|p0|p0|p0|p0|p0|p0|p0|p0|p0|p0|p0];
    cbn [payload_valid] in Hv.
  all: try (intros [= <-]; by apply observe_wf).
  - eapply applyPrepared_wf; try done. intros a m. destruct incomplete as [[m' n]|]; [done|]. by apply incompletePromptBinding_None.
  - by apply applyAdmitted_wf.
  - by apply applyRefused_wf.
  - by apply applyTerminalRefused_wf.
  - by apply applyIncluded_wf.
  - by apply applyWithdrawn_wf.
  - by apply applySuperseded_wf.
  - by apply applyExpired_wf.
Qed.

(** A successful application, taken apart. *)
Record applied (p : SteeringProjection) (pe : PersistedControlEvent) (p' : SteeringProjection) : Prop := {
  applied_event : event_ok pe;
  applied_run : ev_runId pe.(pe_event) = sp_runId p /\ ev_runEpoch pe.(pe_event) = sp_runEpoch p;
  applied_seq : pe.(pe_seq) = sp_observedSeq p + 1;
  applied_actor : authorized (ev_payload pe.(pe_event)) (ev_actorKind pe.(pe_event)) = true;
  applied_binding : exists incomplete, incompletePromptBinding p = Ok incomplete /\ continues (ev_payload pe.(pe_event)) incomplete = true;
  applied_step : exists q, on_steering_event p pe.(pe_event) pe.(pe_seq) = Ok q /\ p' = observe q pe.(pe_seq)
}.

Lemma applySteeringEvent_Ok p pe p' :
  applySteeringEvent p pe = Ok p' -> exists q, restoreSteeringProjection p = Ok q /\ applied q pe p'.
Proof.
  unfold applySteeringEvent. intros H. apply bind_Ok in H as (q & Hq & H). apply bind_Ok in H as (pe' & Hpe & H).
  apply bind_Ok in H as ([] & Hr & H). apply bind_Ok in H as ([] & Hs & H). apply bind_Ok in H as ([] & Ha & H).
  apply bind_Ok in H as (i & Hi & H). apply bind_Ok in H as ([] & Hc & H). apply bind_Ok in H as (r & Hstep & [= <-]).
  apply parseEvent_Ok in Hpe as [-> Hok]. apply ensure_Ok in Hr, Hs, Hc. apply ensure_Ok in Ha.
  apply Z.eqb_eq in Hs. apply andb_true_iff in Hr as [Hr1%bool_decide_eq_true Hr2%bool_decide_eq_true].
  exists q. split; [done|]. split; eauto.
Qed.

Lemma steering_applied_wf p pe p' : steering_wf p -> applied p pe p' -> steering_wf p'.
Proof. intros Hwf [Hok Hrun Hseq _ (i & Hi & Hc) (q & Hq & ->)]. by eapply on_steering_event_wf. Qed.

Lemma apply_wf p pe p' : applySteeringEvent p pe = Ok p' -> steering_wf p'.
Proof. intros (q & Hq & Ha)%applySteeringEvent_Ok. eapply steering_applied_wf; [|exact Ha]. by eapply restore_wf. Qed.

Lemma reduce_wf runId runEpoch events initial p :
  reduceSteeringEvents runId runEpoch events initial = Ok p -> steering_wf p.
Proof.
  unfold reduceSteeringEvents. intros H. apply bind_Ok in H as (p0 & Hp0 & H). apply bind_Ok in H as ([] & _ & H).
  assert (steering_wf p0) as Hwf by (destruct initial; [by eapply restore_wf|unfold emptySteeringProjection in Hp0; by eapply restore_wf]).
  eapply (fold_result_ind _ steering_wf); [exact Hwf| |exact H]. intros x pe x' _ _. apply apply_wf.
Qed.
End apply.
