(* ===== verification/SteeringHistory.v ===== *)
(** SteeringHistory: what holds along a steering history, and the binding of
    commands to a prompt. *)
From S2P Require Import Prelude Text Json Ids ScmTypes ScmSchema ControlEvents EventSchema ControlState SteeringSchema SteeringReducer SteeringSnapshot SteeringWf SteeringRestore SteeringStep SteeringApply.

(** * Records move forward *)

(** A pending record ends once, with its command and its place in the order;
    an ended record stays. *)
Definition record_le (r r' : SteeringCommandRecord) : Prop :=
  r' = r \/
  is_pending r = true /\ is_pending r' = false /\ commandOf r' = commandOf r /\ admittedSeqOf r' = admittedSeqOf r /\
  isSome (terminalSeqOf r') = true.

#[export] Instance record_le_preorder : PreOrder record_le.
Proof.
  split; [by left|]. intros r1 r2 r3 [->|(Hp & Hn & Hc & Ha & Ht)] [->|(Hp' & Hn' & Hc' & Ha' & Ht')].
  - by left.
  - right. by split_and!.
  - right. by split_and!.
  - congruence.
Qed.

(** The later projection knows every manifest, and every command or how it ended. *)
Record history_le (p q : SteeringProjection) : Prop := {
  le_manifests a m : sp_manifests p !! a = Some m -> sp_manifests q !! a = Some m;
  le_commands id r : sp_commands p !! id = Some r -> exists r', sp_commands q !! id = Some r' /\ record_le r r';
  le_seq : sp_observedSeq p <= sp_observedSeq q
}.

#[export] Instance history_le_preorder : PreOrder history_le.
Proof.
  split.
  - intros p. split; [done| |lia]. intros id r H. by exists r.
  - intros p1 p2 p3 [Hm Hc Hs] [Hm' Hc' Hs']. split; [auto| |lia].
    intros id r (r2 & Hr2 & Hle)%Hc. apply Hc' in Hr2 as (r3 & Hr3 & Hle'). exists r3. split; [done|]. by etransitivity.
Qed.

Section history.
Context {D : Digest} {U : UrlApi} {C : Collation}.

Lemma finish_le p id c a r seq :
  requirePending p id = Ok (c, a) -> commandOf r = Some c -> admittedSeqOf r = Some a -> terminalSeqOf r = Some seq ->
  sp_observedSeq p <= seq -> history_le p (with_command p id r seq).
Proof.
  intros Hp%requirePending_Ok Hc Ha Ht Hs. split; [done| |done]. intros k x Hx. destruct (decide (k = id)) as [->|Hne].
  - exists r. rewrite with_command_eq. split; [done|]. rewrite Hp in Hx. injection Hx as <-. right. rewrite Ht. by destruct r.
  - exists x. by rewrite with_command_ne.
Qed.

Lemma fresh_le p id r seq :
  present (obj_get (sp_commands p) id) = false -> sp_observedSeq p <= seq -> history_le p (with_command p id r seq).
Proof.
  intros [Hn _]%present_false Hs. split; [done| |done]. intros k x Hx. exists x.
  rewrite with_command_ne; [done|]. intros ->. congruence.
Qed.

(** A handler that requires a pending command first: find it, and finish. *)
Ltac finished Hseq :=
  match goal with Hp : requirePending ?p ?id = Ok (?c, ?a) |- history_le ?p (observe (set_commands _ (<[?id := ?r]> _)) ?seq) =>
    eapply (finish_le p id c a r seq Hp); try reflexivity; exact Hseq end.

Lemma on_steering_event_le p pe q :
  steering_wf p -> sp_observedSeq p <= pe_seq pe ->
  on_steering_event p (pe_event pe) (pe_seq pe) = Ok q -> history_le p (observe q (pe_seq pe)).
Proof.
  intros Hwf Hseq. unfold on_steering_event.
  assert (forall id c a, requirePending p id = Ok (c, a) -> sc_commandId c = id) as Hids.
  { intros id c a H%requirePending_Ok. by destruct (wf_pending _ _ _ _ Hwf H). }
  destruct (ev_payload (pe_event pe)); try (intros [= <-]; split; [done|intros id r Hr; by exists r|done]); intros H.
  - unfold applyPrepared in H. apply bind_Ok in H as (scope & _ & H). apply bind_Ok in H as ([] & Hf%ensure_Ok & H).
    run. subst q. apply negb_true_iff, present_false in Hf as [Hn _]. split; [|intros id r Hr; by exists r|done].
    intros a m Ha. cbn. rewrite lookup_insert_ne; [done|]. intros <-. congruence.
  - unfold applyAdmitted in H. run. subst q.
    match goal with Hp : parseSteeringCommand _ = Some _ |- _ => apply parseSteeringCommand_Some in Hp as (b & _ & Hd & _) end.
    apply fresh_le; [|done]. unfold sc_commandId. rewrite Hd. by apply negb_true_iff.
  - unfold applyRefused in H. run. subst q.
    match goal with Hp : parseSteeringRefusal _ = Some ?r |- _ => unfold parseSteeringRefusal in Hp; case_match; [|done]; injection Hp as <- end.
    apply fresh_le; [|done]. by apply negb_true_iff.
  - unfold applyTerminalRefused in H. run. subst q. finished Hseq.
  - unfold applyIncluded in H. run. subst q. finished Hseq.
  - unfold applyWithdrawn in H. run. subst q. finished Hseq.
  - unfold applySuperseded in H. run. subst q.
    match goal with Hp : requirePending p (ssp_commandId _) = Ok _ |- _ => pose proof (Hids _ _ _ Hp) as Hid; rewrite Hid end. finished Hseq.
  - unfold applyExpired in H. run. subst q.
    match goal with Hp : requirePending p (sep_commandId _) = Ok _ |- _ => pose proof (Hids _ _ _ Hp) as Hid; rewrite Hid end. finished Hseq.
Qed.

(** * Applying to a well-formed projection *)

Lemma apply_applied p pe p' : steering_wf p -> applySteeringEvent p pe = Ok p' -> applied p pe p'.
Proof. intros Hwf (q & Hq & Ha)%applySteeringEvent_Ok. rewrite (wf_restore _ Hwf) in Hq. by injection Hq as <-. Qed.

Lemma applied_le p pe p' : steering_wf p -> applied p pe p' -> history_le p p'.
Proof. intros Hwf [_ _ Hseq _ _ (q & Hq & ->)]. eapply on_steering_event_le; [done|lia|done]. Qed.

Lemma applied_scalars p pe p' :
  applied p pe p' -> sp_runId p' = sp_runId p /\ sp_runEpoch p' = sp_runEpoch p /\ sp_observedSeq p' = sp_observedSeq p + 1.
Proof.
  intros [_ _ Hseq _ _ (q & Hq & ->)]. cbn. rewrite <-Hseq. unfold on_steering_event in Hq.
  destruct (ev_payload (pe_event pe)); try by injection Hq as <-.
  - unfold applyPrepared in Hq. cbv zeta in Hq. run. by subst q.
  - unfold applyAdmitted in Hq. run. by subst q.
  - unfold applyRefused in Hq. run. by subst q.
  - unfold applyTerminalRefused in Hq. run. by subst q.
  - unfold applyIncluded in Hq. run. by subst q.
  - unfold applyWithdrawn in Hq. run. by subst q.
  - unfold applySuperseded in Hq. run. by subst q.
  - unfold applyExpired in Hq. run. by subst q.
Qed.

(** A run of accepted events, from a well-formed projection. *)
Lemma fold_applied p events p' :
  steering_wf p -> fold_result applySteeringEvent p events = Ok p' ->
  steering_wf p' /\ history_le p p' /\ sp_runId p' = sp_runId p /\ sp_runEpoch p' = sp_runEpoch p /\
  sp_observedSeq p' = sp_observedSeq p + Z.of_nat (length events).
Proof.
  revert p; induction events as [|pe events IH]; intros p Hwf; cbn [fold_result length].
  - intros [= <-]. split_and!; [done|done|done|done|lia].
  - intros (q & Hq & H)%bind_Ok. pose proof (apply_wf _ _ _ Hq) as Hwq. apply apply_applied in Hq; [|done].
    apply IH in H as (Hwf' & Hle & Hr & He & Hs); [|done]. pose proof (applied_scalars _ _ _ Hq) as (Hr' & He' & Hs').
    split_and!; [done| |congruence|congruence|lia]. etransitivity; [by eapply applied_le|done].
Qed.

Lemma reduce_fold runId runEpoch events initial p :
  reduceSteeringEvents runId runEpoch events initial = Ok p ->
  exists p0, steering_wf p0 /\ sp_runId p0 = runId /\ sp_runEpoch p0 = runEpoch /\ fold_result applySteeringEvent p0 events = Ok p /\
    (forall v, initial = Some v -> restoreSteeringProjection v = Ok p0).
Proof.
  unfold reduceSteeringEvents. intros H. apply bind_Ok in H as (p0 & Hp0 & H). apply bind_Ok in H as ([] & Hr%ensure_Ok & H).
  apply andb_true_iff in Hr as [Hr%bool_decide_eq_true He%bool_decide_eq_true]. exists p0. split_and!; [|done|done|done|].
  - destruct initial; [by eapply restore_wf|]. unfold emptySteeringProjection in Hp0. by eapply restore_wf.
  - by intros v ->.
Qed.

(** From a well-formed projection of the run, reducing is folding. *)
Lemma reduce_from runId runEpoch events p :
  steering_wf p -> sp_runId p = runId -> sp_runEpoch p = runEpoch ->
  reduceSteeringEvents runId runEpoch events (Some p) = fold_result applySteeringEvent p events.
Proof.
  intros Hwf Hr He. unfold reduceSteeringEvents. rewrite (wf_restore _ Hwf). cbn [mbind result_bind].
  by rewrite !bool_decide_eq_true_2.
Qed.

Lemma reduce_run runId runEpoch events initial p :
  reduceSteeringEvents runId runEpoch events initial = Ok p -> sp_runId p = runId /\ sp_runEpoch p = runEpoch.
Proof.
  intros (p0 & Hwf & Hr & He & H & _)%reduce_fold. apply fold_applied in H as (_ & _ & H1 & H2 & _); [|done].
  split; congruence.
Qed.
End history.

(** The commands [bound] of the manifest have been included, those of [rest]
    are still to come. *)
Record binding (p : SteeringProjection) (a : string) (m : SteeringPromptManifestFact) (bound rest : list string) : Prop := {
  binding_manifest : sp_manifests p !! a = Some m;
  binding_ids : mf_steeringCommandIds m = bound ++ rest;
  binding_bound id : id ∈ bound -> pending_at p id = false;
  binding_rest id : id ∈ rest -> pending_at p id = true
}.

Lemma index_of_lookup id ids : id ∈ ids -> exists i : nat, ids !! i = Some id /\ index_of id ids = Z.of_nat i.
Proof.
  induction ids as [|x ids IH]; [by intros ?%not_elem_of_nil|]. cbn. case_bool_decide as Hx.
  - intros _. exists 0%nat. by rewrite Hx.
  - intros [->|Hin]%elem_of_cons; [done|]. apply IH in Hin as (i & Hi & ->). exists (S i). split; [done|].
    destruct (Z.of_nat i) eqn:E; lia.
Qed.

Section binding.
Context {D : Digest} {U : UrlApi} {C : Collation}.

Lemma binding_next p a m bound id rest : binding p a m bound (id :: rest) -> next_unbound p m = Some id.
Proof.
  intros [_ Hids Hb Hr]. unfold next_unbound. rewrite Hids. clear Hids. induction bound as [|b bound IH]; cbn.
  - by rewrite (Hr id) by apply list_elem_of_here.
  - rewrite (Hb b) by apply list_elem_of_here. apply IH. intros k Hk. apply Hb. by apply list_elem_of_further.
Qed.

(** The binding the event is checked against is the only one in progress. *)
Lemma incompletePromptBinding_unique p a m id incomplete :
  sp_manifests p !! a = Some m -> next_unbound p m = Some id -> incompletePromptBinding p = Ok incomplete ->
  incomplete = Some (m, id).
Proof.
  intros Ha Hn. unfold incompletePromptBinding. rewrite incomplete_from_spec.
  assert ((m, id) ∈ omap (binding_of p) (obj_values (sp_manifests p))) as Hin.
  { apply list_elem_of_omap. exists m. split; [apply elem_of_obj_values; by exists a|]. unfold binding_of. by rewrite Hn. }
  destruct (omap (binding_of p) _) as [|b [|]]; [by apply not_elem_of_nil in Hin| |done].
  apply list_elem_of_singleton in Hin as ->. by intros [= <-].
Qed.

Lemma manifest_ids_NoDup p a m : steering_wf p -> sp_manifests p !! a = Some m -> NoDup (mf_steeringCommandIds m) /\ mf_attemptId m = a.
Proof.
  intros Hwf Ha. destruct (wf_manifest _ Hwf _ _ Ha) as [_ _ He _ _ _]. unfold manifest_entry_valid in He.
  rewrite !andb_true_iff in He. destruct He as [[Hk _] Hu]. apply bool_decide_eq_true in Hk. unfold unique in Hu.
  by apply bool_decide_eq_true in Hu.
Qed.

(** The inclusion of the command an event names. *)
Definition includes (b : ControlEventPayload) (attemptId commandId : string) : Prop :=
  exists payload, b = steering_command_included payload /\ sip_attemptId payload = attemptId /\ sip_commandId payload = commandId.

Lemma binding_step p a m bound id rest pe p' :
  steering_wf p -> binding p a m bound (id :: rest) -> applied p pe p' ->
  includes (ev_payload (pe_event pe)) a id /\ binding p' a m (bound ++ [id]) rest.
Proof.
  intros Hwf Hb [_ _ _ _ (i & Hi & Hc) (q & Hq & ->)]. pose proof (binding_next _ _ _ _ _ _ Hb) as Hn.
  destruct Hb as [Ha Hids Hbound Hrest]. destruct (manifest_ids_NoDup _ _ _ Hwf Ha) as [Hnd Hkey].
  rewrite (incompletePromptBinding_unique _ _ _ _ _ Ha Hn Hi) in Hc. unfold continues in Hc.
  destruct (ev_payload (pe_event pe)) as [p0|p0|p0|p0|p0|p0|p0|p0|p0|p0|p0|p0|p0|p0|p0|p0|p0|p0|payload|p0|p0|p0|p0|p0|p0|p0|p0|p0|p0|p0] eqn:E; try done.
  apply andb_true_iff in Hc as [Hc1%bool_decide_eq_true Hc2%bool_decide_eq_true].
  split; [exists payload; split_and!; congruence|].
  unfold on_steering_event in Hq. rewrite E in Hq. unfold applyIncluded in Hq. run. subst q.
  rewrite Hids in Hnd. apply NoDup_app in Hnd as (Hnd1 & Hdis & (Hid & Hnd2)%NoDup_cons). split.
  - exact Ha.
  - by rewrite <-app_assoc.
  - intros k [Hk| ->%list_elem_of_singleton]%elem_of_app.
    + rewrite (pending_at_ext p); [by apply Hbound|]. cbn. rewrite lookup_insert_ne; [done|]. intros Heq. subst k.
      apply (Hdis _ Hk). rewrite Hc2. apply list_elem_of_here.
    + unfold pending_at, obj_get. cbn. rewrite <-Hc2. by rewrite lookup_insert_eq.
  - intros k Hk. rewrite (pending_at_ext p); [apply Hrest; by apply list_elem_of_further|]. cbn.
    rewrite lookup_insert_ne; [done|]. congruence.
Qed.

Lemma binding_runs p a m bound rest events p' :
  steering_wf p -> binding p a m bound rest -> fold_result applySteeringEvent p events = Ok p' ->
  forall (i : nat) pe id, events !! i = Some pe -> rest !! i = Some id ->
  includes (ev_payload (pe_event pe)) a id /\ pe_seq pe = sp_observedSeq p + 1 + Z.of_nat i.
Proof.
  revert p bound rest; induction events as [|pe events IH]; intros p bound rest Hwf Hb H i pe' id; [by rewrite lookup_nil|].
  cbn [fold_result] in H. apply bind_Ok in H as (q & Hq & H). pose proof (apply_wf _ _ _ Hq) as Hwq.
  apply apply_applied in Hq; [|done]. destruct rest as [|id0 rest]; [by rewrite lookup_nil|].
  pose proof (binding_step _ _ _ _ _ _ _ _ Hwf Hb Hq) as [Hin Hb']. destruct i as [|i]; cbn.
  - intros [= <-] [= <-]. split; [done|]. rewrite (applied_seq _ _ _ Hq). lia.
  - intros Hpe Hid. destruct (IH _ _ _ Hwq Hb' H i pe' id Hpe Hid) as [? Hs]. split; [done|].
    destruct (applied_scalars _ _ _ Hq) as (_ & _ & ->) in Hs. lia.
Qed.

(** Preparing a prompt starts the binding of all its commands. *)
Lemma prepared_binding p pe payload p' :
  applied p pe p' -> ev_payload (pe_event pe) = attempt_prompt_prepared payload ->
  exists m, binding p' (app_attemptId payload) m [] (app_steeringCommandIds payload).
Proof.
  intros [_ _ _ _ _ (q & Hq & ->)] E. unfold on_steering_event in Hq. rewrite E in Hq. unfold applyPrepared in Hq.
  apply bind_Ok in Hq as (scope & _ & Hq). apply bind_Ok in Hq as ([] & _ & Hq). apply bind_Ok in Hq as ([] & _ & Hq).
  apply bind_Ok in Hq as ([] & _ & Hq). apply bind_Ok in Hq as ([] & _ & Hq). apply bind_Ok in Hq as (sel & Hsel & Hq).
  apply bind_Ok in Hq as ([] & _ & [= <-]). apply map_result_Ok in Hsel. eexists. split.
  - cbn. by rewrite lookup_insert_eq.
  - done.
  - by intros ? ?%not_elem_of_nil.
  - intros id [i Hi]%list_elem_of_lookup. eapply Forall2_lookup_l in Hsel as (x & _ & Hx); [|exact Hi].
    apply select_command_Ok in Hx as (c & [Hl _ _ _ _ _]). unfold pending_at, obj_get. cbn. by rewrite Hl.
Qed.

(** * Included commands *)

(** The prompt an included command is part of. *)
Lemma included_manifest p id c a t attemptId attemptGeneration promptSha256 :
  steering_wf p -> sp_commands p !! id = Some (rec_included c a t attemptId attemptGeneration promptSha256) ->
  exists m, sp_manifests p !! attemptId = Some m /\ mf_attemptGeneration m = attemptGeneration /\
    mf_promptSha256 m = promptSha256 /\ mf_scope m = sc_scope c /\
    (exists i : nat, mf_steeringCommandIds m !! i = Some id /\ t = mf_preparedSeq m + Z.of_nat i + 1) /\
    a <= mf_captureCutoffSeq m /\ mf_captureCutoffSeq m < mf_preparedSeq m /\ sc_notBefore c <= attemptGeneration.
Proof.
  intros Hwf Hid. destruct (wf_command _ Hwf _ _ Hid) as [_ _ _ _ (k & m & Hk & Hin)%(fun f => f eq_refl)].
  destruct (wf_manifest _ Hwf _ _ Hk) as [_ _ He _ _ Hb]. specialize (Hb _ Hin). unfold check_bound, obj_get in Hb.
  rewrite Hid in Hb. cbn [commandOf admittedSeqOf] in Hb. rewrite !invalid_seq in Hb.
  destruct Hb as (Hs & _ & Hcut & Hsame & Hseq & _). unfold manifest_entry_valid in He. apply sameSteeringTarget_eq in Hs.
  rewrite !andb_true_iff in He, Hsame. rewrite negb_true_iff, orb_false_iff in Hcut.
  destruct He as [[Hkey Hpc] _], Hsame as [[Ha Hg] Hsha], Hcut as [Hc1 Hc2].
  apply bool_decide_eq_true in Hkey, Ha, Hsha. apply Z.eqb_eq in Hg, Hseq. apply Z.ltb_ge in Hc1, Hc2.
  apply negb_true_iff, orb_false_iff in Hpc as [_ Hpc]. apply Z.leb_gt in Hpc.
  destruct (index_of_lookup _ _ Hin) as (i & Hi & Hii).
  exists m. subst. split_and!; try done; try lia. exists i. split; [done|lia].
Qed.
End binding.
