(* ===== verification/SteeringAgreement.v ===== *)
(** SteeringAgreement: the two reducers read the same history. The steering
    facts of the control projection (src/control/reducer.ts) are a function of
    the records of the steering projection (src/steering/reducer.ts). *)
From S2P Require Import Prelude Text Json Ids ScmTypes ScmSchema ControlEvents EventSchema ControlState ControlReducer ScmReducer ControlApply ControlFrame AttemptLife TaskLife SessionLife CommandLife SteeringSchema SteeringReducer SteeringSnapshot SteeringWf SteeringRestore SteeringStep SteeringApply SteeringHistory.

(** * The view *)

(** The fact of an admitted command, with what its record adds. *)
Definition command_fact (c : SteeringCommandV1) (admittedSeq : Z) (terminalSeq : option Z) (status : SteeringStatus)
    (prompt : option (string * Z * string)) (byCommandId : option string) (refusal : option (string * Z)) : SteeringFact := {|
  sf_commandId := sc_commandId c;
  sf_sessionId := scope_sessionId (sc_scope c); sf_sessionGeneration := scope_sessionGeneration (sc_scope c);
  sf_taskId := scope_taskId (sc_scope c); sf_taskGeneration := scope_taskGeneration (sc_scope c);
  sf_bodySha256 := sc_bodySha256 c;
  sf_requestSemanticDigest := option_map fst refusal; sf_observedSeq := option_map snd refusal;
  sf_observedActivity := option_map (fun _ => observed act_exited) refusal;
  sf_status := status; sf_admittedSeq := Some admittedSeq; sf_terminalSeq := terminalSeq;
  sf_notBeforeAttemptGeneration := Some (sc_notBefore c);
  sf_kind := Some (sd_kind (sc_draft c)); sf_sourceKind := Some (sd_sourceKind (sc_draft c));
  sf_parentPrincipal := Some (sd_parentPrincipal (sc_draft c)); sf_evidenceRefs := Some (sd_evidenceRefs (sc_draft c));
  sf_body := Some (sd_body (sc_draft c)); sf_createdAt := Some (sd_createdAt (sc_draft c));
  sf_expiresAt := sd_expiresAt (sc_draft c); sf_supersedesCommandId := sd_supersedesCommandId (sc_draft c);
  sf_reasonCode := option_map (fun _ => reason_TASK_TERMINAL_BEFORE_INCLUSION) refusal;
  sf_attemptId := option_map (fun x => x.1.1) prompt; sf_attemptGeneration := option_map (fun x => x.1.2) prompt;
  sf_promptSha256 := option_map snd prompt; sf_byCommandId := byCommandId |}.

Definition refusal_fact (r : SteeringRefusalV1) (terminalSeq : Z) : SteeringFact := {|
  sf_commandId := rv_commandId r;
  sf_sessionId := scope_sessionId (rv_scope r); sf_sessionGeneration := scope_sessionGeneration (rv_scope r);
  sf_taskId := scope_taskId (rv_scope r); sf_taskGeneration := scope_taskGeneration (rv_scope r);
  sf_bodySha256 := rv_bodySha256 r; sf_requestSemanticDigest := Some (rv_requestSemanticDigest r);
  sf_observedSeq := Some (rv_observedSeq r); sf_observedActivity := Some (rv_observedActivity r);
  sf_status := st_refused; sf_admittedSeq := None; sf_terminalSeq := Some terminalSeq;
  sf_notBeforeAttemptGeneration := None; sf_kind := None; sf_sourceKind := None; sf_parentPrincipal := None;
  sf_evidenceRefs := None; sf_body := None; sf_createdAt := None; sf_expiresAt := None; sf_supersedesCommandId := None;
  sf_reasonCode := Some (rv_reasonCode r);
  sf_attemptId := None; sf_attemptGeneration := None; sf_promptSha256 := None; sf_byCommandId := None |}.

Definition steering_view (record : SteeringCommandRecord) : SteeringFact :=
  match record with
  | rec_pending c a => command_fact c a None st_pending None None None
  | rec_included c a t attemptId attemptGeneration promptSha256 =>
      command_fact c a (Some t) st_included (Some (attemptId, attemptGeneration, promptSha256)) None None
  | rec_withdrawn c a t _ => command_fact c a (Some t) st_withdrawn None None None
  | rec_superseded c a t byCommandId => command_fact c a (Some t) st_superseded None (Some byCommandId) None
  | rec_expired c a t => command_fact c a (Some t) st_expired None None None
  | rec_refused r t => refusal_fact r t
  | rec_terminal_refused c a t requestSemanticDigest observedSeq =>
      command_fact c a (Some t) st_refused None None (Some (requestSemanticDigest, observedSeq))
  end.

(** What a manifest says of its attempt: [attempt_identity] of the control fact. *)
Definition manifest_view (m : SteeringPromptManifestFact) :=
  (mf_attemptId m, mf_attemptGeneration m, (scope_taskId (mf_scope m), scope_taskGeneration (mf_scope m)),
   (scope_sessionId (mf_scope m), scope_sessionGeneration (mf_scope m)),
   (Some (mf_artifactLocator m), Some (mf_promptSha256 m), Some (mf_promptBytes m), Some (mf_rendererVersion m)),
   Some (mf_captureCutoffSeq m), mf_steeringCommandIds m).

Record agree (s : ControlProjection) (p : SteeringProjection) : Prop := {
  agree_steering : c_steering s = steering_view <$> sp_commands p;
  agree_attempts : attempt_identity <$> c_attempts s = manifest_view <$> sp_manifests p;
  agree_seq : c_headSeq s = sp_observedSeq p
}.

Section agreement.
Context {D : Digest} {U : UrlApi} {C : Collation}.

Lemma steering_view_status r : is_pending r = true <-> sf_status (steering_view r) = st_pending.
Proof. by destruct r. Qed.

(** The pending command both reducers read. *)
Lemma agree_pending s p id c a f :
  c_steering s = steering_view <$> sp_commands p -> requirePending p id = Ok (c, a) -> pending_command s id = Ok f ->
  f = command_fact c a None st_pending None None None.
Proof.
  intros Hs Hp%requirePending_Ok [Hf _]%pending_command_Ok. rewrite Hs, lookup_fmap, Hp in Hf. by injection Hf as <-.
Qed.

(** Rewriting an attempt without touching its identity. *)
Lemma identities_insert (m : obj AttemptFact) id a a' :
  m !! id = Some a -> attempt_identity a' = attempt_identity a ->
  attempt_identity <$> <[id := a']> m = attempt_identity <$> m.
Proof. intros Ha Hi. rewrite fmap_insert, Hi. apply insert_id. by rewrite lookup_fmap, Ha. Qed.

(** Attempts after an event that prepares no prompt. *)
Lemma attempt_identities_kept s pe st :
  on_event pe s = Ok st -> (forall payload, ev_payload (pe_event pe) <> attempt_prompt_prepared payload) ->
  attempt_identity <$> c_attempts st = attempt_identity <$> c_attempts s.
Proof.
  intros Hon Hno. destruct (decide (component_of pe.(pe_event).(ev_payload) = comp_attempts)) as [Hc|Hc].
  2: { apply on_event_frame in Hon. destruct (component_of _); cbn in Hon; destruct Hon as [? Hon]; [| |destruct Hon as [? Hon]|..];
       subst st; done. }
  unfold on_event in Hon. destruct (ev_payload (pe_event pe)) as [p|p|p|p|p|p|p|p|p|p|p|p|p|p|p|p|p|p|p|p|p|p|p|p|p|p|p|p|p|p];
    try discriminate Hc; [by destruct (Hno p)|..].
  - unfold on_attempt_launch_planned in Hon. apply bind_Ok in Hon as (a & [Ha _]%prepared_attempt_Ok & H). run. subst st.
    by eapply identities_insert.
  - unfold on_attempt_started in Hon. apply bind_Ok in Hon as (a & [Ha _]%prepared_attempt_Ok & H). run. subst st.
    by eapply identities_insert.
  - unfold on_attempt_exited in Hon. apply bind_Ok in Hon as (a & [Ha _]%active_attempt_Ok & H). run. subst st.
    by eapply identities_insert.
  - unfold on_attempt_abandoned in Hon. apply bind_Ok in Hon as (a & [Ha _]%prepared_attempt_Ok & H). run. subst st.
    by eapply identities_insert.
Qed.

Lemma steering_kept s pe st :
  on_event pe s = Ok st -> component_of (ev_payload (pe_event pe)) <> comp_steering -> c_steering st = c_steering s.
Proof.
  intros Hon Hc. apply on_event_frame in Hon. destruct (component_of _); cbn in Hon; destruct Hon as [? Hon]; [| |destruct Hon as [? Hon]|..];
    subst st; done.
Qed.

(** The scope of an event, with the task fields it names. *)
Lemma event_scope_Ok e sid sgen scope t g :
  ev_taskId e = Some t -> ev_taskGeneration e = Some g -> event_scope e sid sgen = Ok scope ->
  scope_taskId scope = t /\ scope_taskGeneration scope = g /\ scope_sessionId scope = sid /\ scope_sessionGeneration scope = sgen.
Proof. unfold event_scope. intros -> ->. by intros [= <-]. Qed.

(** Both reducers end the same pending command: the written facts correspond. *)
Lemma agree_write s p id f r :
  c_steering s = steering_view <$> sp_commands p -> f = steering_view r ->
  <[id := f]> (c_steering s) = steering_view <$> <[id := r]> (sp_commands p).
Proof. intros Hs ->. by rewrite fmap_insert, Hs. Qed.

Lemma agree_admitted s p pe payload t g st q :
  agree s p -> ev_taskId (pe_event pe) = Some t -> ev_taskGeneration (pe_event pe) = Some g ->
  on_steering_admitted pe s payload t g = Ok st -> applyAdmitted p (pe_event pe) (pe_seq pe) payload = Ok q ->
  c_steering st = steering_view <$> sp_commands q.
Proof.
  intros [Hs _ _] Ht Hg. unfold on_steering_admitted, applyAdmitted. intros H H'.
  apply bind_Ok in H as (? & _ & H). apply bind_Ok in H as (? & _ & H). apply bind_Ok in H as (? & _ & H).
  apply bind_Ok in H as (? & _ & [= <-]).
  apply bind_Ok in H' as (? & _ & H'). apply bind_Ok in H' as (scope & Hscope & H').
  destruct (parseSteeringCommand _) as [c|] eqn:Hp; [|done].
  apply bind_Ok in H' as ([] & Hbody%ensure_Ok & H'). apply bind_Ok in H' as ([] & _ & H'). apply bind_Ok in H' as ([] & _ & H').
  apply bind_Ok in H' as (? & _ & [= <-]). apply bool_decide_eq_true in Hbody.
  destruct (event_scope_Ok _ _ _ _ _ _ Ht Hg Hscope) as (<- & <- & <- & <-).
  apply parseSteeringCommand_Some in Hp as (body & _ & Hd & Hsha & _). destruct c as [d sha]. cbn in Hd, Hsha, Hbody. subst d sha.
  cbn in Hbody. subst body. by apply agree_write.
Qed.

Lemma agree_refused s p pe payload t g st q :
  agree s p -> ev_taskId (pe_event pe) = Some t -> ev_taskGeneration (pe_event pe) = Some g ->
  on_steering_refused pe s payload t g = Ok st -> applyRefused p (pe_event pe) (pe_seq pe) payload = Ok q ->
  c_steering st = steering_view <$> sp_commands q.
Proof.
  intros [Hs _ _] Ht Hg. unfold on_steering_refused, applyRefused. intros H H'.
  apply bind_Ok in H as (? & _ & [= <-]). apply bind_Ok in H' as (? & _ & H'). apply bind_Ok in H' as (scope & Hscope & H').
  destruct (event_scope_Ok _ _ _ _ _ _ Ht Hg Hscope) as (<- & <- & <- & <-).
  unfold parseSteeringRefusal in H'. case_match eqn:Hp; [|done]. case_match; [|done]. simplify_eq.
  by apply agree_write.
Qed.

Lemma agree_terminal_refused s p pe payload t g st q :
  agree s p -> on_steering_terminal_refused pe s payload t g = Ok st ->
  applyTerminalRefused p (pe_event pe) (pe_seq pe) payload = Ok q -> c_steering st = steering_view <$> sp_commands q.
Proof.
  intros [Hs _ _]. unfold on_steering_terminal_refused, applyTerminalRefused. intros H H'.
  apply bind_Ok in H as (f & Hf & H). apply bind_Ok in H as (? & _ & [= <-]). apply bind_Ok in H' as ([c a] & Hc & H'). run. subst q.
  rewrite (agree_pending _ _ _ _ _ _ Hs Hc Hf). by apply agree_write.
Qed.

Lemma agree_included s p pe payload st q :
  agree s p -> on_steering_included pe s payload = Ok st ->
  applyIncluded p (pe_event pe) (pe_seq pe) payload = Ok q -> c_steering st = steering_view <$> sp_commands q.
Proof.
  intros [Hs Ha _]. unfold on_steering_included, applyIncluded. intros H H'.
  apply bind_Ok in H as (f & Hf & H). apply bind_Ok in H as (at_ & Hat & H). apply bind_Ok in H as (? & _ & [= <-]).
  apply bind_Ok in H' as ([c a] & Hc & H'). rewrite (agree_pending _ _ _ _ _ _ Hs Hc Hf).
  apply bind_Ok in H' as (scope & _ & H'). apply bind_Ok in H' as (? & _ & H').
  destruct (obj_get (sp_manifests p) _) as [| |m] eqn:Hm; [done|done|].
  destruct (obj_get (c_attempts s) _) as [| |at'] eqn:Hat'; [done|done|]. injection Hat as <-. run. subst q.
  apply obj_get_Own in Hm, Hat'. apply agree_write; [done|].
  assert (attempt_identity at' = manifest_view m) as Heq.
  { enough (Some (attempt_identity at') = Some (manifest_view m)) by congruence.
    transitivity ((attempt_identity <$> c_attempts s) !! sip_attemptId payload); [by rewrite lookup_fmap, Hat'|].
    by rewrite Ha, lookup_fmap, Hm. }
  unfold attempt_identity, manifest_view in Heq. injection Heq as -> -> _ _ _ _ _ -> _ _ _ _. reflexivity.
Qed.

Lemma agree_closed s p pe id status by_ st c a r :
  agree s p -> requirePending p id = Ok (c, a) ->
  on_steering_closed pe s id status by_ = Ok st ->
  steering_view r = command_fact c a (Some (pe_seq pe)) status None by_ None ->
  c_steering st = steering_view <$> <[id := r]> (sp_commands p).
Proof.
  intros [Hs _ _] Hc H Hr. unfold on_steering_closed in H. apply bind_Ok in H as (f & Hf & [= <-]).
  rewrite (agree_pending _ _ _ _ _ _ Hs Hc Hf). apply agree_write; [done|]. rewrite Hr. by destruct by_.
Qed.

Lemma agree_prepared s p pe payload t g st q :
  agree s p -> ev_taskId (pe_event pe) = Some t -> ev_taskGeneration (pe_event pe) = Some g ->
  on_attempt_prompt_prepared pe s payload t g = Ok st -> applyPrepared p (pe_event pe) (pe_seq pe) payload = Ok q ->
  attempt_identity <$> c_attempts st = manifest_view <$> sp_manifests q /\ sp_commands q = sp_commands p.
Proof.
  intros [_ Ha _] Ht Hg. unfold on_attempt_prompt_prepared, applyPrepared. intros H H'. cbv zeta in H, H'.
  apply bind_Ok in H as (? & _ & H). apply bind_Ok in H as (? & _ & H). apply bind_Ok in H as (? & _ & H).
  apply bind_Ok in H as (? & _ & H). apply bind_Ok in H as (? & _ & [= <-]). apply bind_Ok in H' as (scope & Hscope & H').
  run. subst q. split; [|done]. destruct (event_scope_Ok _ _ _ _ _ _ Ht Hg Hscope) as (<- & <- & Hsid & Hsg).
  cbn [set_attempts set_manifests c_attempts sp_manifests]. rewrite !fmap_insert, Ha. do 2 f_equal.
  unfold attempt_identity, manifest_view. cbn. by rewrite Hsid, Hsg.
Qed.

(** One event, both reducers. *)
Lemma agree_step s p pe s' p' :
  steering_wf p -> agree s p -> applyControlEvent s pe = Ok s' -> applied p pe p' -> agree s' p'.
Proof.
  intros Hwf Hag (u & agg & st & _ & _ & _ & _ & Hseq & _ & Hon & ->)%applyControlEvent_Ok [_ _ _ _ _ (q & Hq & ->)].
  enough (c_steering st = steering_view <$> sp_commands q /\ attempt_identity <$> c_attempts st = manifest_view <$> sp_manifests q)
    as [? ?] by by split.
  assert (forall id c a, requirePending p id = Ok (c, a) -> sc_commandId c = id) as Hids.
  { intros id c a H%requirePending_Ok. by destruct (wf_pending _ _ _ _ Hwf H). }
  pose proof (attempt_identities_kept _ _ _ Hon) as Hatt. rewrite (agree_attempts _ _ Hag) in Hatt.
  pose proof (steering_kept _ _ _ Hon) as Hst. rewrite (agree_steering _ _ Hag) in Hst.
  unfold on_steering_event in Hq. unfold on_event in Hon.
  destruct (ev_payload (pe_event pe)) as [p0|p0|p0|p0|p0|p0|p0|p0|p0|p0|p0|p0|p0|p0|p0|p0|p0|p0|p0|p0|p0|p0|p0|p0|p0|p0|p0|p0|p0|p0] eqn:E;
    try (injection Hq as <-; split; [by apply Hst|by apply Hatt]).
  - destruct (ev_taskId (pe_event pe)) as [t|] eqn:Et, (ev_taskGeneration (pe_event pe)) as [g|] eqn:Eg; try done.
    destruct (agree_prepared _ _ _ _ _ _ _ _ Hag Et Eg Hon Hq) as [? ->]. split; [by apply Hst|done].
  - destruct (ev_taskId (pe_event pe)) as [t|] eqn:Et, (ev_taskGeneration (pe_event pe)) as [g|] eqn:Eg; try done.
    split; [by eapply agree_admitted|]. rewrite Hatt by done. unfold applyAdmitted in Hq. run. by subst q.
  - destruct (ev_taskId (pe_event pe)) as [t|] eqn:Et, (ev_taskGeneration (pe_event pe)) as [g|] eqn:Eg; try done.
    split; [by eapply agree_refused|]. rewrite Hatt by done. unfold applyRefused in Hq. run. by subst q.
  - destruct (ev_taskId (pe_event pe)) as [t|] eqn:Et, (ev_taskGeneration (pe_event pe)) as [g|] eqn:Eg; try done.
    split; [by eapply agree_terminal_refused|]. rewrite Hatt by done. unfold applyTerminalRefused in Hq. run. by subst q.
  - split; [by eapply agree_included|]. rewrite Hatt by done. unfold applyIncluded in Hq. run. by subst q.
  - unfold applyWithdrawn in Hq. apply bind_Ok in Hq as ([c a] & Hp & Hq). run. subst q.
    split; [by eapply agree_closed|by apply Hatt].
  - unfold applySuperseded in Hq. apply bind_Ok in Hq as ([c a] & Hp & Hq). apply bind_Ok in Hq as (? & _ & Hq).
    apply bind_Ok in Hq as (? & _ & Hq). apply bind_Ok in Hq as (? & _ & Hq). apply bind_Ok in Hq as ([r b] & Hr & Hq). run. subst q.
    rewrite (Hids _ _ _ Hp), (Hids _ _ _ Hr). split; [by eapply agree_closed|by apply Hatt].
  - unfold applyExpired in Hq. apply bind_Ok in Hq as ([c a] & Hp & Hq). run; subst q.
    all: rewrite (Hids _ _ _ Hp); split; [by eapply agree_closed|by apply Hatt].
Qed.

Lemma agree_fold s p events s' p' :
  steering_wf p -> agree s p -> fold_result applyControlEvent s events = Ok s' ->
  fold_result applySteeringEvent p events = Ok p' -> agree s' p'.
Proof.
  revert s p; induction events as [|pe events IH]; intros s p Hwf Hag; cbn [fold_result].
  - by intros [= <-] [= <-].
  - intros (s1 & Hs1 & H)%bind_Ok (p1 & Hp1 & H')%bind_Ok. eapply IH; [by eapply apply_wf| |exact H|exact H'].
    eapply agree_step; [exact Hwf|exact Hag|exact Hs1|by apply apply_applied].
Qed.

Lemma agree_empty runId runEpoch p :
  emptySteeringProjection runId runEpoch = Ok p -> agree (emptyControlProjection runId runEpoch) p.
Proof.
  unfold emptySteeringProjection. intros H. pose proof (restore_wf _ _ H) as Hwf. unfold restoreSteeringProjection in H.
  destruct (parseSteeringProjection _) as [q|] eqn:E; [|done]. apply bind_Ok in H as (? & _ & [= <-]).
  unfold parseSteeringProjection in E. repeat case_match; try done. injection E as <-. split; cbn.
  - by rewrite omap_empty, !fmap_empty.
  - by rewrite !fmap_empty.
  - done.
Qed.
End agreement.
