(* ===== verification/SteeringCompare.v ===== *)
(** SteeringCompare: the semantic comparison of src/steering/schema.ts compares
    commands field by field, and the commands waiting for a prompt are listed in
    the order a prompt must bind them. *)
From S2P Require Import Prelude Text Json Ids ScmTypes ControlEvents EventSchema EventCode ControlState SteeringSchema SteeringReducer SteeringSnapshot SteeringWf SteeringRestore SteeringStep SteeringApply.

(** * The specification: which fields of two commands differ *)

Definition same_fields (o c : SteeringCommandV1) : list (string * bool) :=
  let d := sc_draft o in let e := sc_draft c in let t := sc_scope o in let u := sc_scope c in
  [("schemaVersion", true); ("commandId", bool_decide (sd_commandId d = sd_commandId e));
   ("runId", bool_decide (scope_runId t = scope_runId u)); ("runEpoch", bool_decide (scope_runEpoch t = scope_runEpoch u));
   ("taskId", bool_decide (scope_taskId t = scope_taskId u));
   ("taskGeneration", bool_decide (scope_taskGeneration t = scope_taskGeneration u));
   ("sessionId", bool_decide (scope_sessionId t = scope_sessionId u));
   ("sessionGeneration", bool_decide (scope_sessionGeneration t = scope_sessionGeneration u));
   ("notBeforeAttemptGeneration", bool_decide (sc_notBefore o = sc_notBefore c));
   ("kind", bool_decide (sd_kind d = sd_kind e)); ("sourceKind", bool_decide (sd_sourceKind d = sd_sourceKind e));
   ("parentPrincipal", bool_decide (sd_parentPrincipal d = sd_parentPrincipal e));
   ("evidenceRefs", bool_decide (sd_evidenceRefs d = sd_evidenceRefs e));
   ("body", bool_decide (sd_body d = sd_body e)); ("bodySha256", bool_decide (sc_bodySha256 o = sc_bodySha256 c));
   ("createdAt", bool_decide (sd_createdAt d = sd_createdAt e)); ("expiresAt", bool_decide (sd_expiresAt d = sd_expiresAt e));
   ("supersedesCommandId", bool_decide (sd_supersedesCommandId d = sd_supersedesCommandId e))].

Definition names_of (same : list (string * bool)) : list string :=
  List.map fst (List.filter (fun f => negb f.2) same).

Definition differing_fields (o c : SteeringCommandV1) : list string := names_of (same_fields o c).

Lemma differing_nil o c : differing_fields o c = [] -> o = c.
Proof.
  unfold differing_fields, names_of. intros H%map_eq_nil.
  assert (forall f, In f (same_fields o c) -> f.2 = true) as Hall.
  { intros f Hf. destruct (f.2) eqn:E; [done|].
    assert (In f (List.filter (fun f => negb f.2) (same_fields o c))) as Hin by (apply filter_In; by rewrite E).
    by rewrite H in Hin. }
  destruct o as [[[[]]] ?], c as [[[[]]] ?]. cbn in Hall.
  repeat match goal with
  | H : forall f, (?x = f \/ ?P) -> ?Q |- _ =>
      let H' := fresh in pose proof (H x (or_introl eq_refl)) as H'; specialize (fun f p => H f (or_intror p)); cbn in H'
  end.
  guards. done.
Qed.

(** * Comparing values *)

Lemma equalSemanticValue_shown l r b : equalSemanticValue l r = Ok b -> (b = true <-> shown l = shown r).
Proof.
  unfold equalSemanticValue, shown. destruct (is_undefined l) eqn:El, (is_undefined r) eqn:Er; cbn [orb andb].
  - intros [= <-]. done.
  - intros [= <-]. split; done.
  - intros [= <-]. split; done.
  - intros H. run. subst b. rewrite bool_decide_eq_true. split.
    + intros ->. f_equal. by eapply canonicalJson_inj.
    + intros [= Hc]. apply canonicalJson_render in Hrun as [-> _], Hrun0 as [-> _]. by rewrite Hc.
Qed.

(** [same] says, field by field, whether the values of [l] and [r] show the same. *)
Inductive compared : list (string * json) -> list (string * json) -> list (string * bool) -> Prop :=
| compared_nil : compared [] [] []
| compared_cons k v w b l r same :
    (b = true <-> shown v = shown w) -> compared l r same -> compared ((k, v) :: l) ((k, w) :: r) ((k, b) :: same).

Lemma changed_fields_compared l r same fs : compared l r same -> changed_fields l r = Ok fs -> fs = names_of same.
Proof.
  intros Hc. revert fs; induction Hc as [|k v w b l r same Hb _ IH]; intros fs; cbn [changed_fields].
  - by intros [= <-].
  - intros H. apply bind_Ok in H as (b' & Hb' & H). apply bind_Ok in H as (rest & Hrest & [= <-]).
    apply equalSemanticValue_shown in Hb'. apply IH in Hrest as ->. unfold names_of.
    destruct b, b'; cbn; try done; intuition congruence.
Qed.

Lemma compared_field {A} (f : A -> json) `{!JsonField f} `{!EqDecision A} a b :
  bool_decide (a = b) = true <-> shown (f a) = shown (f b).
Proof. rewrite bool_decide_eq_true. split; [by intros ->|]. apply (json_field (f := f)). Qed.

#[export] Instance jname_field {A} (name : A -> string) `{!Inj (=) (=) name} : JsonField (fun x => jstr (name x)).
Proof. intros a b H. apply (json_field (f := jstr)) in H. by apply (inj name). Qed.

Lemma semantic_fields_compared o c : compared (semantic_fields o) (semantic_fields c) (same_fields o c).
Proof.
  unfold semantic_fields, same_fields. cbv zeta.
  repeat (apply compared_cons; [first
    [ done
    | apply (compared_field jstr) | apply (compared_field jnum) | apply (compared_field JString)
    | apply (compared_field (jlist jstr)) | apply (compared_field (jopt jstr))
    | apply (compared_field (fun x => jstr (SteeringCommandKind_name x)))
    | apply (compared_field (fun x => jstr (SteeringSourceKind_name x))) ]|]).
  constructor.
Qed.

(** Fields that all show the same have the same canonical text, and conversely. *)
Lemma semantic_texts o c t t' :
  semantic_text (semantic_fields o) = Ok t -> semantic_text (semantic_fields c) = Ok t' -> (t = t' <-> o = c).
Proof.
  unfold semantic_text. intros Ht%map_err_Ok Ht'%map_err_Ok. split; [|intros <-; congruence]. intros <-.
  apply differing_nil. pose proof (canonicalJson_inj _ _ _ Ht Ht') as Hc. apply jobj_fields in Hc; [|apply (bool_decide_unpack _); by vm_compute|done].
  pose proof (semantic_fields_compared o c) as Hcmp. unfold differing_fields. revert Hc Hcmp. generalize (same_fields o c).
  generalize (semantic_fields c). generalize (semantic_fields o). intros l r same H2 Hcmp.
  induction Hcmp as [|k v w b l r same Hb _ IH]; [done|]. apply Forall2_cons in H2 as [Hs H2].
  apply Hb in Hs as ->. unfold names_of. cbn. by apply IH.
Qed.

Section compare.
Context {D : Digest}.

Lemma compare_spec o c o' c' r :
  parseSteeringCommand o = Some o' -> parseSteeringCommand c = Some c' ->
  compareSteeringCommandSemantics o c = Ok r ->
  exists t t', semantic_text (semantic_fields o') = Ok t /\ semantic_text (semantic_fields c') = Ok t' /\
    match r with
    | compare_exact d => d = sha256Text t /\ sha256Text t = sha256Text t'
    | compare_conflict d d' fields => d = sha256Text t /\ d' = sha256Text t' /\ d <> d' /\ fields = differing_fields o' c'
    end.
Proof.
  intros Ho Hc H. unfold compareSteeringCommandSemantics, steeringCommandSemanticValue in H. rewrite Ho, Hc in H.
  cbn [mbind result_bind] in H. apply bind_Ok in H as (t & Ht & H). apply bind_Ok in H as (t' & Ht' & H).
  exists t, t'. split; [done|]. split; [done|]. case_bool_decide as E.
  - injection H as <-. done.
  - apply bind_Ok in H as (fs & Hfs & [= <-]). split_and!; try done.
    eapply changed_fields_compared; [apply semantic_fields_compared|exact Hfs].
Qed.
End compare.

(** * Commands waiting for a prompt *)

Section pending.
Context {D : Digest} {C : Collation}.

#[export] Instance by_admission_comparator : Comparator by_admission.
Proof.
  split; unfold by_admission.
  - intros x y. destruct (Z.eqb_spec (x.1 - y.1) 0), (Z.eqb_spec (y.1 - x.1) 0); try lia. apply cmp_total.
  - intros x y z. destruct (Z.eqb_spec (x.1 - y.1) 0), (Z.eqb_spec (y.1 - z.1) 0), (Z.eqb_spec (x.1 - z.1) 0); try lia. apply cmp_trans.
Qed.

(** The comparator of [pendingSteeringCommands], and the key it reads. *)
Definition pending_key_of (ac : Z * SteeringCommandV1) : Z * string := (ac.1, sc_commandId ac.2).

Lemma js_sort_map {A B} (f : A -> B) (cmp : B -> B -> Z) l :
  List.map f (js_sort (fun x y => cmp (f x) (f y)) l) = js_sort cmp (List.map f l).
Proof.
  assert (forall x l, List.map f (sort_insert (fun x y => cmp (f x) (f y)) x l) = sort_insert cmp (f x) (List.map f l)) as Hi.
  { intros x l'. induction l' as [|y l' IH]; cbn; [done|]. destruct (cmp (f x) (f y) <=? 0); [done|]. cbn. by rewrite IH. }
  induction l as [|x l IH]; cbn; [done|]. by rewrite Hi, IH.
Qed.

(** The unreserved pending records, with their place in the order. *)
Definition waiting (p : SteeringProjection) : list (Z * SteeringCommandV1) :=
  let reserved := concat (List.map mf_steeringCommandIds (obj_values p.(sp_manifests))) in
  List.filter (fun ac => negb (bool_decide (sc_commandId ac.2 ∈ reserved)))
    (omap (fun record => match record with rec_pending c a => Some (a, c) | _ => None end) (obj_values p.(sp_commands))).

Lemma pendingSteeringCommands_waiting p :
  pendingSteeringCommands p = List.map snd (js_sort (fun l r => by_admission (pending_key_of l) (pending_key_of r)) (waiting p)).
Proof. done. Qed.

Lemma reserved_spec p id :
  id ∈ List.concat (List.map mf_steeringCommandIds (obj_values (sp_manifests p))) <-> manifestContaining p id = true.
Proof.
  rewrite elem_of_concat_values. unfold manifestContaining. rewrite existsb_obj_values. by setoid_rewrite bool_decide_eq_true.
Qed.

Lemma elem_of_waiting p a c :
  steering_wf p -> (a, c) ∈ waiting p <-> requirePending p (sc_commandId c) = Ok (c, a) /\ assertUnreserved p (sc_commandId c) = Ok tt.
Proof.
  intros Hwf. unfold waiting. rewrite list_elem_of_In, filter_In, <-list_elem_of_In, list_elem_of_omap. unfold assertUnreserved.
  rewrite ensure_Ok, !negb_true_iff, bool_decide_eq_false, reserved_spec, not_true_iff_false. cbn [snd]. split.
  - intros [(r & [id Hid]%elem_of_obj_values & Hr) Hm]. split; [|done]. destruct r; try done. injection Hr as -> ->.
    assert (sc_commandId c = id) as -> by (by destruct (wf_pending _ _ _ _ Hwf Hid)).
    unfold requirePending, obj_get. by rewrite Hid.
  - intros [H%requirePending_Ok Hm]. split; [|done]. exists (rec_pending c a). split; [|done]. apply elem_of_obj_values. by eexists.
Qed.

Lemma StronglySorted_take {A} (R : A -> A -> Prop) n l : StronglySorted R l -> StronglySorted R (take n l).
Proof.
  intros H. revert n; induction H as [|x l _ IH Hx]; intros [|n]; cbn; constructor; [apply IH|by apply Forall_take].
Qed.

Lemma differs_from_refl ids : differs_from ids ids = false.
Proof. induction ids as [|id ids IH]; cbn; [done|]. by rewrite bool_decide_eq_true_2. Qed.

(** Its prefixes are in the order a prompt must bind them. *)
Lemma pending_prefix_sorted p n :
  js_sort by_admission (List.map pending_key_of (take n (js_sort (fun l r => by_admission (pending_key_of l) (pending_key_of r)) (waiting p))))
  = List.map pending_key_of (take n (js_sort (fun l r => by_admission (pending_key_of l) (pending_key_of r)) (waiting p))).
Proof.
  apply (js_sort_sorted _). rewrite <-firstn_map. apply StronglySorted_take. rewrite js_sort_map. apply js_sort_StronglySorted, _.
Qed.

(** The waiting commands have distinct identifiers. *)
Lemma keyed_values_NoDup {V W} (f : V -> option W) (key : W -> string) (l : list (string * V)) :
  NoDup l.*1 -> (forall k v w, (k, v) ∈ l -> f v = Some w -> key w = k) -> NoDup (List.map key (omap f l.*2)).
Proof.
  induction l as [|[k v] l IH]; cbn; intros Hnd Hk; [constructor|]. apply NoDup_cons in Hnd as [Hkl Hnd].
  assert (NoDup (List.map key (omap f l.*2))) as Hrest.
  { apply IH; [done|]. intros k' v' w Hin. apply Hk. by apply list_elem_of_further. }
  destruct (f v) as [w|] eqn:E; [|done]. cbn. apply NoDup_cons. split; [|done].
  rewrite (Hk k v w (list_elem_of_here _ _) E). intros Hin. apply list_elem_of_In, in_map_iff in Hin as (w' & Hw' & Hin).
  apply list_elem_of_In, list_elem_of_omap in Hin as (v' & Hv' & Hf). apply list_elem_of_fmap in Hv' as ([k' v''] & -> & Hl).
  apply Hkl. rewrite <-Hw', (Hk k' v'' w'); [|by apply list_elem_of_further|done]. apply list_elem_of_fmap. by exists (k', v'').
Qed.

Lemma map_filter_NoDup {A} (key : A -> string) (g : A -> bool) l : NoDup (List.map key l) -> NoDup (List.map key (List.filter g l)).
Proof.
  induction l as [|x l IH]; cbn; [done|]. intros [Hx Hnd]%NoDup_cons. destruct (g x); [|by apply IH]. cbn. apply NoDup_cons.
  split; [|by apply IH]. intros Hin. apply Hx. rewrite list_elem_of_In, in_map_iff in Hin |- *.
  destruct Hin as (y & Hy & Hin). exists y. by apply filter_In in Hin as [? _].
Qed.

Lemma pending_ids_NoDup p : steering_wf p -> NoDup (List.map sc_commandId (pendingSteeringCommands p)).
Proof.
  intros Hwf. rewrite pendingSteeringCommands_waiting, List.map_map. change (List.map ?f) with (fmap (M := list) f).
  rewrite js_sort_Permutation. unfold waiting. apply map_filter_NoDup. apply keyed_values_NoDup; [apply NoDup_fst_map_to_list|].
  intros k r [a c] Hk%elem_of_map_to_list Hr. destruct r; try done. injection Hr as -> ->. by destruct (wf_pending _ _ _ _ Hwf Hk).
Qed.

(** A prompt over a prefix of the waiting commands: what its selection yields. *)
Lemma selected_prefix p e payload scope n selected :
  steering_wf p ->
  map_result (select_command p e payload scope) (List.map sc_commandId (take n (pendingSteeringCommands p))) = Ok selected ->
  selected = List.map pending_key_of (take n (js_sort (fun l r => by_admission (pending_key_of l) (pending_key_of r)) (waiting p))).
Proof.
  intros Hwf. rewrite pendingSteeringCommands_waiting.
  assert (forall x, x ∈ take n (js_sort (fun l r => by_admission (pending_key_of l) (pending_key_of r)) (waiting p)) -> x ∈ waiting p) as Hin.
  { intros x Hx%elem_of_take. destruct Hx as (i & Hi & _). apply list_elem_of_lookup_2 in Hi. by apply elem_of_js_sort in Hi. }
  rewrite firstn_map. revert Hin selected. generalize (take n (js_sort (fun l r => by_admission (pending_key_of l) (pending_key_of r)) (waiting p))).
  intros l. induction l as [|[a c] l IH]; intros Hin selected; cbn [List.map map_result].
  - by intros [= <-].
  - intros H. apply bind_Ok in H as (x & Hx & H). apply bind_Ok in H as (xs & Hxs & [= <-]).
    apply IH in Hxs as ->; [|intros y Hy; apply Hin; by apply list_elem_of_further]. f_equal.
    assert (requirePending p (sc_commandId c) = Ok (c, a)) as Hp by (apply elem_of_waiting; [done|apply Hin, list_elem_of_here]).
    unfold select_command in Hx. cbn [snd] in Hx. rewrite Hp in Hx. cbn [mbind result_bind] in Hx. run. by subst x.
Qed.
End pending.
