(* ===== verification/CommandIds.v ===== *)
(** CommandIds: the identifiers [createSteeringCommandId] of
    src/steering/schema.ts generates are canonical and sort by time. *)
From Stdlib Require Import Ascii.
From S2P Require Import Prelude Text Json Ids ScmTypes ControlEvents EventSchema SteeringSchema.

(** * Hexadecimal digits *)

Lemma hex_digit_lt a b : a < b -> hex_digit a < hex_digit b.
Proof. unfold hex_digit. intros. destruct (Z.ltb_spec a 10), (Z.ltb_spec b 10); lia. Qed.

(** The [k] low digits of [n], most significant first. *)
Fixpoint digits (k : nat) (n : Z) : text :=
  match k with
  | O => []
  | S k' => hex_digit (n / 16 ^ Z.of_nat k' mod 16) :: digits k' n
  end.

Lemma digits_length k n : length (digits k n) = k.
Proof. induction k; cbn; congruence. Qed.

(** Digits of the same length compare as the numbers they write. *)
Lemma digits_compare k : forall n m x y,
  n mod 16 ^ Z.of_nat k < m mod 16 ^ Z.of_nat k -> text_compare (digits k n ++ x) (digits k m ++ y) < 0.
Proof.
  induction k as [|k IH]; intros n m x y H.
  - cbn in H. rewrite !Z.mod_1_r in H. lia.
  - cbn [digits app text_compare]. set (B := 16 ^ Z.of_nat k) in *.
    assert (0 < B) as HB by (apply Z.pow_pos_nonneg; lia).
    replace (16 ^ Z.of_nat (S k)) with (B * 16) in H by (rewrite Nat2Z.inj_succ, Z.pow_succ_r; unfold B; lia).
    rewrite !Z.rem_mul_r in H by lia.
    destruct (Z.eqb_spec (hex_digit (n / B mod 16)) (hex_digit (m / B mod 16))) as [E|E].
    + apply IH. assert (n / B mod 16 = m / B mod 16) as E'.
      { destruct (Z.lt_trichotomy (n / B mod 16) (m / B mod 16)) as [Hlt|[?|Hlt]]; [|done|]; apply hex_digit_lt in Hlt; lia. }
      fold B. lia.
    + destruct (Z.lt_trichotomy (n / B mod 16) (m / B mod 16)) as [Hlt|[Heq|Hlt]].
      * apply hex_digit_lt in Hlt. lia.
      * by rewrite Heq in E.
      * exfalso. pose proof (Z.mod_pos_bound n B HB). pose proof (Z.mod_pos_bound m B HB). nia.
Qed.

(** A byte of the timestamp is two of its digits. *)
Lemma timestamp_byte n i :
  0 <= i -> hex_byte (Z.land (Z.shiftr n (8 * i)) 255) = [hex_digit (n / 16 ^ (2 * i + 1) mod 16); hex_digit (n / 16 ^ (2 * i) mod 16)].
Proof.
  intros Hi. change 255 with (Z.ones 8). rewrite Z.land_ones, Z.shiftr_div_pow2 by lia.
  replace (2 ^ (8 * i)) with (16 ^ (2 * i)) by (change 16 with (2 ^ 4); rewrite <-Z.pow_mul_r by lia; f_equal; lia).
  rewrite Z.pow_add_r, Z.pow_1_r, <-Z.div_div by (try apply Z.pow_nonzero; lia).
  set (q := n / 16 ^ (2 * i)). change (2 ^ 8) with 256. unfold hex_byte.
  assert (q mod 256 / 16 = q / 16 mod 16) as -> by (Z.div_mod_to_equations; lia).
  by assert (q mod 256 mod 16 = q mod 16) as -> by (Z.div_mod_to_equations; lia).
Qed.

(** The twelve digits of the timestamp. *)
Lemma timestamp_digits n : List.concat (List.map hex_byte (timestamp_bytes n)) = digits 12 n.
Proof.
  unfold timestamp_bytes. cbn [List.map List.concat app]. rewrite !timestamp_byte by lia. cbn [app digits].
  reflexivity.
Qed.

(** * Identifiers *)

Definition is_byte (b : Z) : Prop := 0 <= b < 256.

Lemma byte_cases (P : Z -> bool) r : forallb (fun n => P (Z.of_nat n)) (seq 0 256) = true -> is_byte r -> P r = true.
Proof.
  rewrite forallb_forall. intros H [H0 Hr]. rewrite <-(Z2Nat.id r) by done. apply H. apply in_seq. lia.
Qed.

(** The version and variant bytes. *)
Lemma version_byte r : is_byte r -> Z.lor (Z.land r 15) 112 / 16 = 7.
Proof. intros H. apply Z.eqb_eq. apply (byte_cases (fun r => Z.lor (Z.land r 15) 112 / 16 =? 7) r); [by vm_compute|done]. Qed.

Lemma variant_byte r : is_byte r -> 8 <= Z.lor (Z.land r 63) 128 / 16 <= 11.
Proof.
  intros H. enough (between 8 11 (Z.lor (Z.land r 63) 128 / 16) = true) as Hb by (unfold between in Hb; lia).
  apply (byte_cases (fun r => between 8 11 (Z.lor (Z.land r 63) 128 / 16)) r); [by vm_compute|done].
Qed.

(** * The text of an identifier *)


Lemma code_char_of c : is_byte c -> code (char_of c) = c.
Proof. unfold code, char_of. intros [H0 H]. rewrite Ascii.N_ascii_embedding by lia. lia. Qed.

Lemma text_of_string_of_text t : Forall is_byte t -> text_of_string (string_of_text t) = t.
Proof. induction 1 as [|c t Hc _ IH]; cbn; [done|]. f_equal; [by apply code_char_of|done]. Qed.

Definition is_digit (d : Z) : Prop := 0 <= d < 16.

Lemma hex_digit_byte d : is_digit d -> is_byte (hex_digit d).
Proof. unfold is_digit, is_byte, hex_digit. intros. destruct (d <? 10); lia. Qed.

Lemma is_hex_digit d : is_digit d -> is_hex (char_of (hex_digit d)) = true.
Proof.
  intros Hd. unfold is_hex. rewrite code_char_of by by apply hex_digit_byte. unfold between, hex_digit, is_digit in *.
  destruct (d <? 10) eqn:E; lia.
Qed.

(** The texts [uuid_from] reads, digit by digit. *)
Inductive uuid_text : Z -> text -> Prop :=
| uuid_end : uuid_text 36 []
| uuid_dash i t : i ∈ [8; 13; 18; 23] -> uuid_text (i + 1) t -> uuid_text i (45 :: t)
| uuid_version i t : i = 14 -> uuid_text (i + 1) t -> uuid_text i (hex_digit 7 :: t)
| uuid_variant i d t : i = 19 -> 8 <= d <= 11 -> uuid_text (i + 1) t -> uuid_text i (hex_digit d :: t)
| uuid_digit i d t : i ∉ [8; 13; 14; 18; 19; 23] -> is_digit d -> uuid_text (i + 1) t -> uuid_text i (hex_digit d :: t).

Lemma uuid_text_bytes i t : uuid_text i t -> Forall is_byte t.
Proof.
  induction 1; constructor; try done; apply hex_digit_byte; unfold is_digit in *; lia.
Qed.

Lemma uuid_text_valid i t : uuid_text i t -> uuid_from is_hex i (string_of_text t) = true.
Proof.
  induction 1 as [|i t Hi _ IH|i t -> _ IH|i d t -> Hd _ IH|i d t Hi Hd _ IH]; cbn [string_of_text fold_right uuid_from]; [done|..];
    (apply andb_true_iff; split; [|exact IH]).
  - rewrite !elem_of_cons, elem_of_nil in Hi. rewrite code_char_of by by unfold is_byte.
    destruct Hi as [->|[->|[->|[->|[]]]]]; done.
  - by rewrite code_char_of by by unfold is_byte.
  - cbn [Z.eqb orb Pos.eqb]. rewrite is_hex_digit by (unfold is_digit; lia). rewrite code_char_of by (apply hex_digit_byte; unfold is_digit; lia).
    unfold between, hex_digit. destruct (d <? 10) eqn:E; lia.
  - rewrite !not_elem_of_cons in Hi. destruct Hi as (? & ? & ? & ? & ? & ? & _).
    rewrite (proj2 (Z.eqb_neq i 8)), (proj2 (Z.eqb_neq i 13)), (proj2 (Z.eqb_neq i 14)), (proj2 (Z.eqb_neq i 18)),
      (proj2 (Z.eqb_neq i 19)), (proj2 (Z.eqb_neq i 23)) by done. by apply is_hex_digit.
Qed.

Lemma digits_add j k n : digits (j + k) n = digits j (n / 16 ^ Z.of_nat k) ++ digits k n.
Proof.
  induction j as [|j IH]; cbn [Nat.add digits app]; [done|]. rewrite IH. do 3 f_equal.
  rewrite Nat2Z.inj_add, Z.pow_add_r, Z.mul_comm, Z.div_div by lia. done.
Qed.

(** * Generated identifiers *)

Lemma byte_digits b : is_byte b -> is_digit (b / 16) /\ is_digit (b mod 16).
Proof. unfold is_byte, is_digit. intros. split; Z.div_mod_to_equations; lia. Qed.

Lemma digit_mod n : is_digit (n mod 16).
Proof. apply Z.mod_pos_bound. lia. Qed.

(** Read an explicit identifier with the constructors of [uuid_text]. *)
Ltac uuid :=
  repeat first
    [ apply uuid_end
    | apply uuid_dash; [apply (bool_decide_unpack _); by vm_compute|]
    | apply uuid_version; [done|]
    | apply uuid_variant; [done|assumption|]
    | apply uuid_digit; [apply (bool_decide_unpack _); by vm_compute|first [apply digit_mod|assumption]|] ].

Lemma create_layout now random id :
  createSteeringCommandId now random = Ok id -> Forall is_byte random ->
  0 <= now < 16 ^ 12 /\ uuid_text 0 id /\ exists rest, id = digits 8 (now / 16 ^ 4) ++ 45 :: digits 4 now ++ rest.
Proof.
  unfold createSteeringCommandId. intros H Hr. apply bind_Ok in H as ([] & Hn%ensure_Ok & H).
  destruct random as [|r6 [|r7 [|r8 [|r9 [|r10 [|r11 [|r12 [|r13 [|r14 [|r15 [|? ?]]]]]]]]]]]; try discriminate H.
  assert (0 <= now < 16 ^ 12) as Hb.
  { rewrite !andb_true_iff, !Z.leb_le in Hn. change (16 ^ 12) with 281474976710656. lia. }
  split; [done|]. rewrite List.map_app, concat_app, timestamp_digits in H.
  match type of H with Ok ?x = _ => assert (id = x) as -> by congruence end. clear H.
  rewrite !Forall_cons in Hr. destruct Hr as (H6 & H7 & H8 & H9 & H10 & H11 & H12 & H13 & H14 & H15 & _).
  split.
  - pose proof (variant_byte _ H8) as Hv. pose proof (version_byte _ H6) as Hs.
    cbn [digits app drop take List.map List.concat hex_byte Nat.sub]. unfold hex_byte. rewrite Hs.
    destruct (byte_digits _ H7), (byte_digits _ H9), (byte_digits _ H10), (byte_digits _ H11), (byte_digits _ H12),
      (byte_digits _ H13), (byte_digits _ H14), (byte_digits _ H15).
    cbn [app]. uuid.
  - change 12%nat with (8 + 4)%nat. rewrite digits_add. eexists. reflexivity.
Qed.

(** Later identifiers are greater. *)
Lemma create_ordered now now' random random' id id' :
  createSteeringCommandId now random = Ok id -> createSteeringCommandId now' random' = Ok id' ->
  Forall is_byte random -> Forall is_byte random' -> now < now' -> text_compare id id' < 0.
Proof.
  intros H H' Hr Hr' Hlt. apply create_layout in H as (Hn & _ & x & ->); [|done]. apply create_layout in H' as (Hn' & _ & y & ->); [|done].
  destruct (Z.lt_ge_cases (now / 16 ^ 4) (now' / 16 ^ 4)) as [Hh|Hh].
  - assert (forall n, 0 <= n < 16 ^ 12 -> (n / 16 ^ 4) mod 16 ^ Z.of_nat 8 = n / 16 ^ 4) as Hm.
    { intros n Hb. change (16 ^ 12) with (16 ^ 4 * 16 ^ 8) in Hb. apply Z.mod_small. change (Z.of_nat 8) with 8.
      split; [apply Z.div_pos; lia|apply Z.div_lt_upper_bound; lia]. }
    apply digits_compare. by rewrite !Hm.
  - assert (now / 16 ^ 4 = now' / 16 ^ 4) as -> by (pose proof (Z.div_le_mono now now' (16 ^ 4)); lia).
    assert (forall k m x y, text_compare (digits k m ++ x) (digits k m ++ y) = text_compare x y) as ->.
    { intros k m x' y'. induction k as [|k IH]; cbn; [done|]. by rewrite Z.eqb_refl. }
    cbn [text_compare Z.eqb Pos.eqb]. apply digits_compare. change (Z.of_nat 4) with 4.
    pose proof (Z.div_mod now (16 ^ 4)). pose proof (Z.div_mod now' (16 ^ 4)). lia.
Qed.
