(* ===== verification/SchedulerEvents.v ===== *)
(** SchedulerEvents: the events of the multi-repository scheduler
    (src/multirepo/events.ts), their schema and their JSON. *)
From S2P Require Import Prelude Text Json Ids ScmTypes ScmSchema.

(** * Data *)

Inductive DirtyReason := DIRTY_REGISTERED | DIRTY_DEPENDENCY_CHANGED | DIRTY_CAPACITY_CHANGED | DIRTY_LEASE_CHANGED | DIRTY_EXTERNAL_FACT | DIRTY_RETRY.
Definition DirtyReason_name (x : DirtyReason) : string :=
  match x with
  | DIRTY_REGISTERED => "REGISTERED" | DIRTY_DEPENDENCY_CHANGED => "DEPENDENCY_CHANGED" | DIRTY_CAPACITY_CHANGED => "CAPACITY_CHANGED"
  | DIRTY_LEASE_CHANGED => "LEASE_CHANGED" | DIRTY_EXTERNAL_FACT => "EXTERNAL_FACT" | DIRTY_RETRY => "RETRY"
  end.

Inductive UncertainReason := EXPIRED_OWNER_ALIVE | OWNER_UNKNOWN | PROCESS_IDENTITY_UNKNOWN | SETTLEMENT_UNKNOWN.
Definition UncertainReason_name (x : UncertainReason) : string :=
  match x with
  | EXPIRED_OWNER_ALIVE => "EXPIRED_OWNER_ALIVE" | OWNER_UNKNOWN => "OWNER_UNKNOWN"
  | PROCESS_IDENTITY_UNKNOWN => "PROCESS_IDENTITY_UNKNOWN" | SETTLEMENT_UNKNOWN => "SETTLEMENT_UNKNOWN"
  end.

Inductive LeaseOutcome := released_completed | released_retry | released_cancelled | released_failed.
Definition LeaseOutcome_name (x : LeaseOutcome) : string :=
  match x with
  | released_completed => "completed" | released_retry => "retry" | released_cancelled => "cancelled" | released_failed => "failed"
  end.

(** The fields [...Lease]. *)
Record LeaseFields := {
  lf_leaseToken : string;
  lf_leaseVersion : Z;
  lf_attemptId : string;
  lf_repositorySetId : string;
  lf_providerId : string;
  lf_repositoryIds : list string;
  lf_ownerId : string;
  lf_ownerIncarnation : string;
  lf_issuedAt : string;
  lf_expiresAt : string
}.

Inductive SchedulerPayload :=
| scheduler_task_registered (repositorySetId : string) (repositoryIds : list string) (providerId : string)
    (dependencies : list string) (priority : Z)
| scheduler_task_dirtied (reasonCode : DirtyReason)
| scheduler_reconcile_started (reconcileId ownerId : string) (expectedVersion : Z)
| scheduler_reconcile_finished (reconcileId ownerId : string) (expectedVersion : Z)
| scheduler_lease_granted (expectedVersion : Z) (lease : LeaseFields)
| scheduler_dispatch_acknowledged (expectedVersion : Z) (leaseToken : string) (processIdentity : text)
| scheduler_lease_heartbeat (expectedVersion : Z) (leaseToken ownerIncarnation expiresAt : string)
| scheduler_lease_uncertain (expectedVersion : Z) (leaseToken : string) (reasonCode : UncertainReason)
| scheduler_lease_released (expectedVersion : Z) (leaseToken : string) (outcome : LeaseOutcome) (evidenceDigest : string)
| scheduler_task_cancelled (expectedVersion : Z) (reasonCode : string).

(** The [Envelope], with the member's fields. *)
Record MultiRepoSchedulerEventV1 := {
  me_seq : Z;
  me_eventId : string;
  me_occurredAt : string;
  me_taskId : string;
  me_taskGeneration : Z;
  me_payload : SchedulerPayload
}.

(** * Schema *)

(** [Timestamp]: the canonical UTC form, 24 characters. *)
Definition SchedulerTimestamp (s : string) : bool :=
  (strlen s =? 24) && match Date_parse s with Some t => bool_decide (toISOString t = s) | None => false end.

(** [/^[A-Za-z0-9:._-]+$/u], at most 256. *)
Definition ownerIncarnation_valid (s : string) : bool :=
  (1 <=? strlen s) && (strlen s <=? 256) && all_chars is_bounded_char s.

Definition idList (min max : Z) (l : list string) : bool :=
  forallb isValidId l && (min <=? Z.of_nat (length l)) && at_most max l.

Definition Lease_valid (l : LeaseFields) : bool :=
  digest l.(lf_leaseToken) && positive l.(lf_leaseVersion) && isValidId l.(lf_attemptId) && digest l.(lf_repositorySetId)
  && isValidId l.(lf_providerId) && idList 1 32 l.(lf_repositoryIds) && isValidId l.(lf_ownerId)
  && ownerIncarnation_valid l.(lf_ownerIncarnation) && SchedulerTimestamp l.(lf_issuedAt) && SchedulerTimestamp l.(lf_expiresAt).

Definition SchedulerPayload_valid (b : SchedulerPayload) : bool :=
  match b with
  | scheduler_task_registered set ids provider deps priority =>
      digest set && idList 1 32 ids && isValidId provider && idList 0 256 deps && between (-1000) 1000 priority
  | scheduler_task_dirtied _ => true
  | scheduler_reconcile_started r o v | scheduler_reconcile_finished r o v => isValidId r && isValidId o && positive v
  | scheduler_lease_granted v l => positive v && Lease_valid l
  | scheduler_dispatch_acknowledged v token p => positive v && digest token && between 1 512 (textlen p)
  | scheduler_lease_heartbeat v token o expiresAt =>
      positive v && digest token && ownerIncarnation_valid o && SchedulerTimestamp expiresAt
  | scheduler_lease_uncertain v token _ => positive v && digest token
  | scheduler_lease_released v token _ evidence => positive v && digest token && digest evidence
  | scheduler_task_cancelled v reason => positive v && isValidId reason
  end.

Definition MultiRepoSchedulerEventV1Schema (e : MultiRepoSchedulerEventV1) : bool :=
  nonNegative e.(me_seq) && isValidId e.(me_eventId) && SchedulerTimestamp e.(me_occurredAt)
  && isValidId e.(me_taskId) && positive e.(me_taskGeneration) && SchedulerPayload_valid e.(me_payload).

(** [None] is the thrown INVALID_SCHEDULER_EVENT. *)
Definition parseMultiRepoSchedulerEvent (e : MultiRepoSchedulerEventV1) : option MultiRepoSchedulerEventV1 :=
  if MultiRepoSchedulerEventV1Schema e then Some e else None.

(** * JSON, with the fields in the order of the schema *)

Definition Lease_fields (l : LeaseFields) : list (string * json) :=
  [("leaseToken", jstr l.(lf_leaseToken)); ("leaseVersion", jnum l.(lf_leaseVersion)); ("attemptId", jstr l.(lf_attemptId));
   ("repositorySetId", jstr l.(lf_repositorySetId)); ("providerId", jstr l.(lf_providerId));
   ("repositoryIds", jlist jstr l.(lf_repositoryIds)); ("ownerId", jstr l.(lf_ownerId));
   ("ownerIncarnation", jstr l.(lf_ownerIncarnation)); ("issuedAt", jstr l.(lf_issuedAt)); ("expiresAt", jstr l.(lf_expiresAt))].

Definition scheduler_type (b : SchedulerPayload) : string :=
  match b with
  | scheduler_task_registered _ _ _ _ _ => "scheduler.task_registered"
  | scheduler_task_dirtied _ => "scheduler.task_dirtied"
  | scheduler_reconcile_started _ _ _ => "scheduler.reconcile_started"
  | scheduler_reconcile_finished _ _ _ => "scheduler.reconcile_finished"
  | scheduler_lease_granted _ _ => "scheduler.lease_granted"
  | scheduler_dispatch_acknowledged _ _ _ => "scheduler.dispatch_acknowledged"
  | scheduler_lease_heartbeat _ _ _ _ => "scheduler.lease_heartbeat"
  | scheduler_lease_uncertain _ _ _ => "scheduler.lease_uncertain"
  | scheduler_lease_released _ _ _ _ => "scheduler.lease_released"
  | scheduler_task_cancelled _ _ => "scheduler.task_cancelled"
  end.

Definition SchedulerPayload_fields (b : SchedulerPayload) : list (string * json) :=
  match b with
  | scheduler_task_registered set ids provider deps priority =>
      [("repositorySetId", jstr set); ("repositoryIds", jlist jstr ids); ("providerId", jstr provider);
       ("dependencies", jlist jstr deps); ("priority", jnum priority)]
  | scheduler_task_dirtied reason => [("reasonCode", jstr (DirtyReason_name reason))]
  | scheduler_reconcile_started r o v | scheduler_reconcile_finished r o v =>
      [("reconcileId", jstr r); ("ownerId", jstr o); ("expectedVersion", jnum v)]
  | scheduler_lease_granted v l => ("expectedVersion", jnum v) :: Lease_fields l
  | scheduler_dispatch_acknowledged v token p =>
      [("expectedVersion", jnum v); ("leaseToken", jstr token); ("processIdentity", JString p)]
  | scheduler_lease_heartbeat v token o expiresAt =>
      [("expectedVersion", jnum v); ("leaseToken", jstr token); ("ownerIncarnation", jstr o); ("expiresAt", jstr expiresAt)]
  | scheduler_lease_uncertain v token reason =>
      [("expectedVersion", jnum v); ("leaseToken", jstr token); ("reasonCode", jstr (UncertainReason_name reason))]
  | scheduler_lease_released v token outcome evidence =>
      [("expectedVersion", jnum v); ("leaseToken", jstr token); ("outcome", jstr (LeaseOutcome_name outcome)); ("evidenceDigest", jstr evidence)]
  | scheduler_task_cancelled v reason => [("expectedVersion", jnum v); ("reasonCode", jstr reason)]
  end.

Definition SchedulerEvent_json (e : MultiRepoSchedulerEventV1) : json :=
  jobj ([("schemaVersion", jnum 1); ("seq", jnum e.(me_seq)); ("eventId", jstr e.(me_eventId)); ("occurredAt", jstr e.(me_occurredAt));
         ("taskId", jstr e.(me_taskId)); ("taskGeneration", jnum e.(me_taskGeneration));
         ("type", jstr (scheduler_type e.(me_payload)))] ++ SchedulerPayload_fields e.(me_payload)).

(** [JSON.stringify(event)]: every field is defined, and printed in this order. *)
Definition SchedulerEvent_text (e : MultiRepoSchedulerEventV1) : text := render (SchedulerEvent_json e).
