(* ===== verification/Scheduler.v ===== *)
(** Scheduler: the projection, the reducer and the decisions of
    src/multirepo/scheduler.ts. *)
From S2P Require Import Prelude Text Json Ids ScmTypes ScmSchema ControlEvents EventSchema SchedulerEvents.

(** MULTIREPO_SCHEDULER_LIMITS *)
Definition agingIntervalSeq : Z := 32.
Definition maximumAgingBoost : Z := 2048.

(** * Projection *)

Inductive LeaseState := lease_admitted | lease_dispatched | lease_uncertain.
#[export] Instance LeaseState_eq_dec : EqDecision LeaseState. Proof. solve_decision. Defined.

Record SchedulerLeaseV1 := {
  ls_fields : LeaseFields;
  ls_state : LeaseState;
  ls_processIdentity : option text;
  ls_uncertainReason : option UncertainReason
}.

Inductive SchedulerTaskState := sched_waiting | sched_active | sched_completed | sched_cancelled | sched_failed | sched_uncertain.
#[export] Instance SchedulerTaskState_eq_dec : EqDecision SchedulerTaskState. Proof. solve_decision. Defined.

Record SchedulerProcessing := { pr_reconcileId : string; pr_ownerId : string; pr_startedSeq : Z }.

Record SchedulerTaskProjectionV1 := {
  st_taskId : string;
  st_taskGeneration : Z;
  st_version : Z;
  st_repositorySetId : string;
  st_repositoryIds : list string;
  st_providerId : string;
  st_dependencies : list string;
  st_priority : Z;
  st_state : SchedulerTaskState;
  st_dirty : bool;
  st_dirtySinceSeq : option Z;
  st_processing : option SchedulerProcessing;
  st_lease : option SchedulerLeaseV1;
  st_lastEventSeq : Z
}.

Record MultiRepoSchedulerProjectionV1 := {
  mp_headSeq : Z;
  mp_tasks : obj SchedulerTaskProjectionV1;
  mp_seenEventIds : obj string
}.

Inductive MultiRepoSchedulerErrorCode :=
| SCHED_INVALID_EVENT | SCHED_SEQUENCE_CONFLICT | SCHED_EVENT_ID_CONFLICT | SCHED_STALE_GENERATION | SCHED_STALE_VERSION
| SCHED_INVALID_TRANSITION | SCHED_LEASE_CONFLICT.

Abbreviation scheduling := (result MultiRepoSchedulerErrorCode).

Definition emptyMultiRepoSchedulerProjection : MultiRepoSchedulerProjectionV1 :=
  {| mp_headSeq := 0; mp_tasks := ∅; mp_seenEventIds := ∅ |}.

(** What every handler of a registered task writes: the next version and the
    event's sequence number, with the fields it changes. *)
Definition next_task (task : SchedulerTaskProjectionV1) (seq : Z) (state : SchedulerTaskState) (dirty : bool) (dirtySinceSeq : option Z)
    (processing : option SchedulerProcessing) (lease : option SchedulerLeaseV1) : SchedulerTaskProjectionV1 := {|
  st_taskId := task.(st_taskId); st_taskGeneration := task.(st_taskGeneration); st_version := task.(st_version) + 1;
  st_repositorySetId := task.(st_repositorySetId); st_repositoryIds := task.(st_repositoryIds);
  st_providerId := task.(st_providerId); st_dependencies := task.(st_dependencies); st_priority := task.(st_priority);
  st_state := state; st_dirty := dirty; st_dirtySinceSeq := dirtySinceSeq; st_processing := processing; st_lease := lease;
  st_lastEventSeq := seq |}.

(** [["completed", "cancelled"].includes(task.state)] *)
Definition sched_closed (task : SchedulerTaskProjectionV1) : bool :=
  match task.(st_state) with sched_completed | sched_cancelled => true | _ => false end.

(** [task.lease?.leaseToken !== token], negated: the lease the token names. *)
Definition lease_of_token (task : SchedulerTaskProjectionV1) (token : string) : option SchedulerLeaseV1 :=
  match task.(st_lease) with
  | Some lease => if bool_decide (lease.(ls_fields).(lf_leaseToken) = token) then Some lease else None
  | None => None
  end.

Definition with_lease_state (lease : SchedulerLeaseV1) (state : LeaseState) (process : option text) (reason : option UncertainReason)
    : SchedulerLeaseV1 :=
  {| ls_fields := lease.(ls_fields); ls_state := state; ls_processIdentity := process; ls_uncertainReason := reason |}.

Definition with_expiry (lease : SchedulerLeaseV1) (expiresAt : string) : SchedulerLeaseV1 :=
  let l := lease.(ls_fields) in
  {| ls_fields := {| lf_leaseToken := l.(lf_leaseToken); lf_leaseVersion := l.(lf_leaseVersion); lf_attemptId := l.(lf_attemptId);
       lf_repositorySetId := l.(lf_repositorySetId); lf_providerId := l.(lf_providerId); lf_repositoryIds := l.(lf_repositoryIds);
       lf_ownerId := l.(lf_ownerId); lf_ownerIncarnation := l.(lf_ownerIncarnation); lf_issuedAt := l.(lf_issuedAt);
       lf_expiresAt := expiresAt |};
     ls_state := lease.(ls_state); ls_processIdentity := lease.(ls_processIdentity); ls_uncertainReason := lease.(ls_uncertainReason) |}.

Section scheduler.
Context {D : Digest}.

Definition eventDigest (e : MultiRepoSchedulerEventV1) : string := sha256Text (SchedulerEvent_text e).

(** * Reducer *)

Definition registeredTask (e : MultiRepoSchedulerEventV1) (repositorySetId : string) (repositoryIds : list string) (providerId : string)
    (dependencies : list string) (priority : Z) : scheduling SchedulerTaskProjectionV1 :=
  ensure (unique repositoryIds && unique dependencies && negb (bool_decide (e.(me_taskId) ∈ dependencies))) SCHED_INVALID_EVENT ;;
  Ok {| st_taskId := e.(me_taskId); st_taskGeneration := e.(me_taskGeneration); st_version := 1;
        st_repositorySetId := repositorySetId; st_repositoryIds := repositoryIds; st_providerId := providerId;
        st_dependencies := dependencies; st_priority := priority; st_state := sched_waiting; st_dirty := true;
        st_dirtySinceSeq := Some e.(me_seq); st_processing := None; st_lease := None; st_lastEventSeq := e.(me_seq) |}.

(** A member inherited from [Object.prototype] is not [undefined], and has no generation. *)
Definition requireTask (p : MultiRepoSchedulerProjectionV1) (e : MultiRepoSchedulerEventV1) : scheduling SchedulerTaskProjectionV1 :=
  match obj_get p.(mp_tasks) e.(me_taskId) with
  | Absent => Err SCHED_INVALID_TRANSITION
  | Inherited => Err SCHED_STALE_GENERATION
  | Own task => ensure (task.(st_taskGeneration) =? e.(me_taskGeneration)) SCHED_STALE_GENERATION ;; Ok task
  end.

Definition requireVersion (task : SchedulerTaskProjectionV1) (expectedVersion : Z) : scheduling unit :=
  ensure (task.(st_version) =? expectedVersion) SCHED_STALE_VERSION.

Definition withTask (p : MultiRepoSchedulerProjectionV1) (e : MultiRepoSchedulerEventV1) (task : SchedulerTaskProjectionV1)
    : MultiRepoSchedulerProjectionV1 := {|
  mp_headSeq := e.(me_seq);
  mp_tasks := <[task.(st_taskId) := task]> p.(mp_tasks);
  mp_seenEventIds := <[e.(me_eventId) := eventDigest e]> p.(mp_seenEventIds) |}.

(** The [switch]: the task after an event. *)
Definition scheduler_step (task : SchedulerTaskProjectionV1) (e : MultiRepoSchedulerEventV1) : scheduling SchedulerTaskProjectionV1 :=
  let seq := e.(me_seq) in
  match e.(me_payload) with
  | scheduler_task_registered _ _ _ _ _ => Err SCHED_INVALID_TRANSITION
  | scheduler_task_dirtied _ =>
      ensure (negb (sched_closed task)) SCHED_INVALID_TRANSITION ;;
      Ok (next_task task seq task.(st_state) true (Some (default seq task.(st_dirtySinceSeq))) task.(st_processing) task.(st_lease))
  | scheduler_reconcile_started reconcileId ownerId expectedVersion =>
      requireVersion task expectedVersion ;;
      ensure (task.(st_dirty) && negb (isSome task.(st_processing)) && negb (sched_closed task)) SCHED_INVALID_TRANSITION ;;
      Ok (next_task task seq task.(st_state) false None
            (Some {| pr_reconcileId := reconcileId; pr_ownerId := ownerId; pr_startedSeq := seq |}) task.(st_lease))
  | scheduler_reconcile_finished reconcileId ownerId expectedVersion =>
      requireVersion task expectedVersion ;;
      ensure (match task.(st_processing) with
              | Some pr => bool_decide (pr.(pr_reconcileId) = reconcileId) && bool_decide (pr.(pr_ownerId) = ownerId)
              | None => false
              end) SCHED_INVALID_TRANSITION ;;
      Ok (next_task task seq task.(st_state) task.(st_dirty) task.(st_dirtySinceSeq) None task.(st_lease))
  | scheduler_lease_granted expectedVersion lease =>
      requireVersion task expectedVersion ;;
      ensure (negb (isSome task.(st_lease)) && bool_decide (task.(st_state) = sched_waiting)
              && bool_decide (lease.(lf_repositorySetId) = task.(st_repositorySetId))
              && bool_decide (lease.(lf_providerId) = task.(st_providerId))
              && bool_decide (lease.(lf_repositoryIds) = task.(st_repositoryIds))
              && negb (time_le (Date_parse lease.(lf_expiresAt)) (Date_parse lease.(lf_issuedAt)))) SCHED_LEASE_CONFLICT ;;
      Ok (next_task task seq sched_active task.(st_dirty) task.(st_dirtySinceSeq) task.(st_processing)
            (Some {| ls_fields := lease; ls_state := lease_admitted; ls_processIdentity := None; ls_uncertainReason := None |}))
  | scheduler_dispatch_acknowledged expectedVersion token processIdentity =>
      requireVersion task expectedVersion ;;
      match lease_of_token task token with
      | Some lease =>
          ensure (bool_decide (lease.(ls_state) = lease_admitted)) SCHED_LEASE_CONFLICT ;;
          Ok (next_task task seq task.(st_state) task.(st_dirty) task.(st_dirtySinceSeq) task.(st_processing)
                (Some (with_lease_state lease lease_dispatched (Some processIdentity) lease.(ls_uncertainReason))))
      | None => Err SCHED_LEASE_CONFLICT
      end
  | scheduler_lease_heartbeat expectedVersion token ownerIncarnation expiresAt =>
      requireVersion task expectedVersion ;;
      match lease_of_token task token with
      | Some lease =>
          ensure (bool_decide (lease.(ls_fields).(lf_ownerIncarnation) = ownerIncarnation)
                  && negb (bool_decide (lease.(ls_state) = lease_uncertain))
                  && negb (time_le (Date_parse expiresAt) (Date_parse lease.(ls_fields).(lf_expiresAt)))) SCHED_LEASE_CONFLICT ;;
          Ok (next_task task seq task.(st_state) task.(st_dirty) task.(st_dirtySinceSeq) task.(st_processing)
                (Some (with_expiry lease expiresAt)))
      | None => Err SCHED_LEASE_CONFLICT
      end
  | scheduler_lease_uncertain expectedVersion token reasonCode =>
      requireVersion task expectedVersion ;;
      match lease_of_token task token with
      | Some lease =>
          Ok (next_task task seq sched_uncertain task.(st_dirty) task.(st_dirtySinceSeq) task.(st_processing)
                (Some (with_lease_state lease lease_uncertain lease.(ls_processIdentity) (Some reasonCode))))
      | None => Err SCHED_LEASE_CONFLICT
      end
  | scheduler_lease_released expectedVersion token outcome _ =>
      requireVersion task expectedVersion ;;
      match lease_of_token task token with
      | Some lease =>
          ensure (negb (bool_decide (lease.(ls_state) = lease_uncertain))) SCHED_LEASE_CONFLICT ;;
          let state := match outcome with
                       | released_completed => sched_completed | released_cancelled => sched_cancelled
                       | released_failed => sched_failed | released_retry => sched_waiting
                       end in
          let retry := match outcome with released_retry => true | _ => false end in
          Ok (next_task task seq state (if retry then true else task.(st_dirty))
                (if retry then Some seq else task.(st_dirtySinceSeq)) task.(st_processing) None)
      | None => Err SCHED_LEASE_CONFLICT
      end
  | scheduler_task_cancelled expectedVersion _ =>
      requireVersion task expectedVersion ;;
      ensure (negb (isSome task.(st_lease)) && negb (sched_closed task)) SCHED_INVALID_TRANSITION ;;
      Ok (next_task task seq sched_cancelled false None task.(st_processing) None)
  end.

(** The task an event writes. *)
Definition scheduled_task (p : MultiRepoSchedulerProjectionV1) (e : MultiRepoSchedulerEventV1) : scheduling SchedulerTaskProjectionV1 :=
  match e.(me_payload) with
  | scheduler_task_registered set ids provider deps priority =>
      match obj_get p.(mp_tasks) e.(me_taskId) with
      | Own existing =>
          Err (if existing.(st_taskGeneration) =? e.(me_taskGeneration) then SCHED_INVALID_TRANSITION else SCHED_STALE_GENERATION)
      | Inherited => Err SCHED_STALE_GENERATION
      | Absent => registeredTask e set ids provider deps priority
      end
  | _ => task ← requireTask p e; scheduler_step task e
  end.

Definition applyMultiRepoSchedulerEvent (current : MultiRepoSchedulerProjectionV1) (raw : MultiRepoSchedulerEventV1)
    : scheduling MultiRepoSchedulerProjectionV1 :=
  match parseMultiRepoSchedulerEvent raw with
  | None => Err SCHED_INVALID_EVENT
  | Some e =>
      match obj_get current.(mp_seenEventIds) e.(me_eventId) with
      | Own prior => ensure (bool_decide (prior = eventDigest e)) SCHED_EVENT_ID_CONFLICT ;; Ok current
      | Inherited => Err SCHED_EVENT_ID_CONFLICT
      | Absent =>
          ensure (e.(me_seq) =? current.(mp_headSeq) + 1) SCHED_SEQUENCE_CONFLICT ;;
          task ← scheduled_task current e;
          Ok (withTask current e task)
      end
  end.

Definition reduceMultiRepoSchedulerEvents (events : list MultiRepoSchedulerEventV1) : scheduling MultiRepoSchedulerProjectionV1 :=
  fold_result applyMultiRepoSchedulerEvent emptyMultiRepoSchedulerProjection events.

(** * Decisions *)

Context {C : Collation}.

Definition aging_boost (p : MultiRepoSchedulerProjectionV1) (task : SchedulerTaskProjectionV1) : Z :=
  Z.min maximumAgingBoost ((p.(mp_headSeq) - default p.(mp_headSeq) task.(st_dirtySinceSeq)) / agingIntervalSeq).

Definition effective_priority (p : MultiRepoSchedulerProjectionV1) (task : SchedulerTaskProjectionV1) : Z :=
  task.(st_priority) + aging_boost p task.

(** The comparator of [chooseNextReconciliation]. *)
Definition by_urgency (p : MultiRepoSchedulerProjectionV1) (left right : SchedulerTaskProjectionV1) : Z :=
  let c := effective_priority p right - effective_priority p left in
  if negb (c =? 0) then c
  else
    let d := default 0 left.(st_dirtySinceSeq) - default 0 right.(st_dirtySinceSeq) in
    if negb (d =? 0) then d else localeCompare left.(st_taskId) right.(st_taskId).

Definition reconcilable (task : SchedulerTaskProjectionV1) : bool :=
  task.(st_dirty) && negb (isSome task.(st_processing)) && negb (sched_closed task).

Definition chooseNextReconciliation (p : MultiRepoSchedulerProjectionV1) : option SchedulerTaskProjectionV1 :=
  head (js_sort (by_urgency p) (List.filter reconcilable (obj_values p.(mp_tasks)))).

Record SchedulerConcurrencyLimits := { cl_global : Z; cl_perProvider : Z; cl_perRepository : Z; cl_perTask : Z }.

Inductive SchedulerAdmissionBlockReason :=
| BLOCK_TASK_TERMINAL | BLOCK_TASK_UNCERTAIN | BLOCK_TASK_ALREADY_LEASED | BLOCK_DEPENDENCY_PENDING | BLOCK_REPOSITORY_SET_MISMATCH
| BLOCK_ROLE_SCOPE | BLOCK_PROVIDER_SCOPE | BLOCK_BUDGET_UNAVAILABLE | BLOCK_GLOBAL_CAPACITY | BLOCK_PROVIDER_CAPACITY
| BLOCK_REPOSITORY_CAPACITY | BLOCK_TASK_CAPACITY.

(** What the decision may throw. *)
Inductive AdmissionError := AdmissionStaleVersion | AdmissionLimitRange | AdmissionInvalidEvent.

(** [input.lease]. *)
Record AdmissionLease := {
  al_eventId : string; al_occurredAt : string; al_leaseToken : string; al_leaseVersion : Z; al_attemptId : string;
  al_ownerId : string; al_ownerIncarnation : string; al_issuedAt : string; al_expiresAt : string
}.

Record AdmissionInput := {
  ai_projection : MultiRepoSchedulerProjectionV1;
  ai_taskId : string;
  ai_expectedVersion : Z;
  ai_repositorySetId : string;
  ai_roleRepositoryIds : list string;
  ai_providerRepositoryIds : list string;
  ai_budgetAvailable : bool;
  ai_limits : SchedulerConcurrencyLimits;
  ai_lease : AdmissionLease
}.

(** [Object.values(projection.tasks)], those with a lease, their leases. *)
Definition live_leases (p : MultiRepoSchedulerProjectionV1) : list SchedulerLeaseV1 := omap st_lease (obj_values p.(mp_tasks)).

Definition count {A} (f : A -> bool) (l : list A) : Z := Z.of_nat (length (List.filter f l)).

Definition lease_provider (l : SchedulerLeaseV1) : string := l.(ls_fields).(lf_providerId).
Definition lease_attempt (l : SchedulerLeaseV1) : string := l.(ls_fields).(lf_attemptId).
Definition lease_covers (id : string) (l : SchedulerLeaseV1) : bool := bool_decide (id ∈ l.(ls_fields).(lf_repositoryIds)).

Definition limit_valid (n : Z) : bool := isSafeInteger n && (1 <=? n) && (n <=? 10000).

(** A dependency is completed: [projection.tasks[dependency]?.state === "completed"]. *)
Definition dependency_completed (p : MultiRepoSchedulerProjectionV1) (dependency : string) : bool :=
  match obj_get p.(mp_tasks) dependency with Own t => bool_decide (t.(st_state) = sched_completed) | _ => false end.

(** The [lease_granted] event an admission carries. *)
Definition admission_event (i : AdmissionInput) (task : SchedulerTaskProjectionV1) : MultiRepoSchedulerEventV1 :=
  let l := i.(ai_lease) in {|
  me_seq := i.(ai_projection).(mp_headSeq) + 1; me_eventId := l.(al_eventId); me_occurredAt := l.(al_occurredAt);
  me_taskId := task.(st_taskId); me_taskGeneration := task.(st_taskGeneration);
  me_payload := scheduler_lease_granted task.(st_version) {|
    lf_leaseToken := l.(al_leaseToken); lf_leaseVersion := l.(al_leaseVersion); lf_attemptId := l.(al_attemptId);
    lf_repositorySetId := task.(st_repositorySetId); lf_providerId := task.(st_providerId);
    lf_repositoryIds := task.(st_repositoryIds); lf_ownerId := l.(al_ownerId); lf_ownerIncarnation := l.(al_ownerIncarnation);
    lf_issuedAt := l.(al_issuedAt); lf_expiresAt := l.(al_expiresAt) |} |}.

Definition SchedulerAdmissionDecision : Type := SchedulerAdmissionBlockReason + MultiRepoSchedulerEventV1.

(** The capacity checks, in their order. *)
Definition capacity_block (i : AdmissionInput) (task : SchedulerTaskProjectionV1) : option SchedulerAdmissionBlockReason :=
  let leases := live_leases i.(ai_projection) in
  let limits := i.(ai_limits) in
  if limits.(cl_global) <=? Z.of_nat (length leases) then Some BLOCK_GLOBAL_CAPACITY
  else if limits.(cl_perProvider) <=? count (fun l => bool_decide (lease_provider l = task.(st_providerId))) leases
  then Some BLOCK_PROVIDER_CAPACITY
  else if existsb (fun id => limits.(cl_perRepository) <=? count (lease_covers id) leases) task.(st_repositoryIds)
  then Some BLOCK_REPOSITORY_CAPACITY
  else if limits.(cl_perTask) <=? count (fun l => bool_decide (lease_attempt l = i.(ai_lease).(al_attemptId))) leases
  then Some BLOCK_TASK_CAPACITY
  else None.

(** [decideSchedulerAdmission(input)]; a member of [Object.prototype] has no
    state, no lease and no version, so the version check stops it. *)
Definition decideSchedulerAdmission (i : AdmissionInput) : result AdmissionError SchedulerAdmissionDecision :=
  match obj_get i.(ai_projection).(mp_tasks) i.(ai_taskId) with
  | Absent => Ok (inl BLOCK_TASK_TERMINAL)
  | Inherited => Err AdmissionStaleVersion
  | Own task =>
      if match task.(st_state) with sched_completed | sched_cancelled | sched_failed => true | _ => false end then Ok (inl BLOCK_TASK_TERMINAL)
      else if bool_decide (task.(st_state) = sched_uncertain)
              || match task.(st_lease) with Some l => bool_decide (l.(ls_state) = lease_uncertain) | None => false end
      then Ok (inl BLOCK_TASK_UNCERTAIN)
      else if isSome task.(st_lease) then Ok (inl BLOCK_TASK_ALREADY_LEASED)
      else if negb (task.(st_version) =? i.(ai_expectedVersion)) then Err AdmissionStaleVersion
      else if negb (forallb (dependency_completed i.(ai_projection)) task.(st_dependencies)) then Ok (inl BLOCK_DEPENDENCY_PENDING)
      else if negb (bool_decide (i.(ai_repositorySetId) = task.(st_repositorySetId))) then Ok (inl BLOCK_REPOSITORY_SET_MISMATCH)
      else if negb (forallb (fun id => bool_decide (id ∈ i.(ai_roleRepositoryIds))) task.(st_repositoryIds)) then Ok (inl BLOCK_ROLE_SCOPE)
      else if negb (forallb (fun id => bool_decide (id ∈ i.(ai_providerRepositoryIds))) task.(st_repositoryIds)) then Ok (inl BLOCK_PROVIDER_SCOPE)
      else if negb i.(ai_budgetAvailable) then Ok (inl BLOCK_BUDGET_UNAVAILABLE)
      else if negb (limit_valid i.(ai_limits).(cl_global) && limit_valid i.(ai_limits).(cl_perProvider)
                    && limit_valid i.(ai_limits).(cl_perRepository) && limit_valid i.(ai_limits).(cl_perTask)) then Err AdmissionLimitRange
      else match capacity_block i task with
           | Some reason => Ok (inl reason)
           | None =>
               match parseMultiRepoSchedulerEvent (admission_event i task) with
               | Some event => Ok (inr event)
               | None => Err AdmissionInvalidEvent
               end
           end
  end.

(** * Expired leases *)

Inductive OwnerStatus := owner_dead | owner_alive | owner_unknown.

(** [expired\0<token>\0dead] *)
Definition expiry_evidence (token : string) : string :=
  sha256Text (text_of_string "expired" ++ [0] ++ text_of_string token ++ [0] ++ text_of_string "dead").

Definition expired_event (p : MultiRepoSchedulerProjectionV1) (task : SchedulerTaskProjectionV1) (eventId occurredAt : string)
    (payload : SchedulerPayload) : MultiRepoSchedulerEventV1 := {|
  me_seq := p.(mp_headSeq) + 1; me_eventId := eventId; me_occurredAt := occurredAt;
  me_taskId := task.(st_taskId); me_taskGeneration := task.(st_taskGeneration); me_payload := payload |}.

(** [decideExpiredLease(input)]: [Ok None] is [undefined]. *)
Definition decideExpiredLease (p : MultiRepoSchedulerProjectionV1) (taskId now : string) (status : OwnerStatus) (eventId occurredAt : string)
    : result unit (option MultiRepoSchedulerEventV1) :=
  let emit e := match parseMultiRepoSchedulerEvent e with Some e' => Ok (Some e') | None => Err tt end in
  match obj_get p.(mp_tasks) taskId with
  | Own task =>
      match task.(st_lease) with
      | None => Ok None
      | Some lease =>
          let token := lease.(ls_fields).(lf_leaseToken) in
          if time_lt (Date_parse now) (Date_parse lease.(ls_fields).(lf_expiresAt)) || bool_decide (lease.(ls_state) = lease_uncertain) then Ok None
          else match status with
               | owner_dead =>
                   if bool_decide (lease.(ls_state) = lease_admitted)
                   then emit (expired_event p task eventId occurredAt (scheduler_lease_released task.(st_version) token released_retry (expiry_evidence token)))
                   else emit (expired_event p task eventId occurredAt (scheduler_lease_uncertain task.(st_version) token OWNER_UNKNOWN))
               | owner_alive => emit (expired_event p task eventId occurredAt (scheduler_lease_uncertain task.(st_version) token EXPIRED_OWNER_ALIVE))
               | owner_unknown => emit (expired_event p task eventId occurredAt (scheduler_lease_uncertain task.(st_version) token OWNER_UNKNOWN))
               end
      end
  | _ => Ok None
  end.
End scheduler.
