(* ===== verification/SchedulerLife.v ===== *)
(** SchedulerLife: the invariant of the multi-repository scheduler and the
    lease machine its tasks run through. *)
From S2P Require Import Prelude Text Json Ids ScmTypes ScmSchema ControlEvents EventSchema SchedulerEvents Scheduler.

(** * The lease machine *)

(** Where a task is: the token of its lease, and whether it was dispatched. *)
Inductive SchedulerPhase :=
| Waiting
| Leased (token : string) (dispatched : bool)
| Uncertain (token : string)
| Completed
| Cancelled
| Failed.

(** The machine: what an accepted payload does to the phase of its task. *)
Definition phase_next (b : SchedulerPayload) (x : SchedulerPhase) : option SchedulerPhase :=
  match b, x with
  | scheduler_task_dirtied _, (Completed | Cancelled) => None
  | scheduler_reconcile_started _ _ _, (Completed | Cancelled) => None
  | scheduler_task_dirtied _, _ | scheduler_reconcile_started _ _ _, _ | scheduler_reconcile_finished _ _ _, _ => Some x
  | scheduler_lease_granted _ lease, Waiting => Some (Leased (lf_leaseToken lease) false)
  | scheduler_dispatch_acknowledged _ token _, Leased held false => if bool_decide (held = token) then Some (Leased token true) else None
  | scheduler_lease_heartbeat _ token _ _, Leased held _ => if bool_decide (held = token) then Some x else None
  | scheduler_lease_uncertain _ token _, (Leased held _ | Uncertain held) => if bool_decide (held = token) then Some (Uncertain token) else None
  | scheduler_lease_released _ token outcome _, Leased held _ =>
      if bool_decide (held = token) then
        Some match outcome with
             | released_completed => Completed | released_cancelled => Cancelled | released_failed => Failed | released_retry => Waiting
             end
      else None
  | scheduler_task_cancelled _ _, (Waiting | Failed) => Some Cancelled
  | _, _ => None
  end.

(** The phase of a task; the state and the lease must fit together. *)
Definition phase_of (t : SchedulerTaskProjectionV1) : option SchedulerPhase :=
  match t.(st_state), t.(st_lease) with
  | sched_waiting, None => Some Waiting
  | sched_active, Some l =>
      match l.(ls_state) with
      | lease_admitted => Some (Leased l.(ls_fields).(lf_leaseToken) false)
      | lease_dispatched => Some (Leased l.(ls_fields).(lf_leaseToken) true)
      | lease_uncertain => None
      end
  | sched_uncertain, Some l =>
      match l.(ls_state) with lease_uncertain => Some (Uncertain l.(ls_fields).(lf_leaseToken)) | _ => None end
  | sched_completed, None => Some Completed
  | sched_cancelled, None => Some Cancelled
  | sched_failed, None => Some Failed
  | _, _ => None
  end.

(** What a task keeps from its registration on. *)
Definition task_registration (t : SchedulerTaskProjectionV1) :=
  (t.(st_taskId), t.(st_taskGeneration), t.(st_repositorySetId), t.(st_repositoryIds), t.(st_providerId), t.(st_dependencies), t.(st_priority)).

(** A lease is for the task's own repositories and provider, and has not
    expired before it was issued. *)
Record lease_wf (t : SchedulerTaskProjectionV1) (l : SchedulerLeaseV1) : Prop := {
  lease_set : lf_repositorySetId (ls_fields l) = st_repositorySetId t;
  lease_of_provider : lf_providerId (ls_fields l) = st_providerId t;
  lease_repositories : lf_repositoryIds (ls_fields l) = st_repositoryIds t;
  lease_window : time_lt (Date_parse (lf_issuedAt (ls_fields l))) (Date_parse (lf_expiresAt (ls_fields l))) = true;
  lease_process : isSome (ls_processIdentity l) = true -> ls_state l <> lease_admitted
}.

Record sched_task_wf (head : Z) (id : string) (t : SchedulerTaskProjectionV1) : Prop := {
  sched_keyed : st_taskId t = id;
  sched_versions : 1 <= st_version t <= st_lastEventSeq t /\ st_lastEventSeq t <= head;
  sched_phase : isSome (phase_of t) = true;
  sched_lease l : st_lease t = Some l -> lease_wf t l;
  sched_dirty : st_dirty t = isSome (st_dirtySinceSeq t);
  sched_since seq : st_dirtySinceSeq t = Some seq -> 1 <= seq <= head;
  sched_sets : NoDup (st_repositoryIds t) /\ NoDup (st_dependencies t) /\ (st_taskId t ∉ st_dependencies t);
  sched_scalars : digest (st_repositorySetId t) = true /\ isValidId (st_providerId t) = true /\ isValidId (st_taskId t) = true /\
    positive (st_taskGeneration t) = true /\ idList 1 32 (st_repositoryIds t) = true /\ -1000 <= st_priority t <= 1000
}.

Lemma sched_task_wf_mono head head' id t : head <= head' -> sched_task_wf head id t -> sched_task_wf head' id t.
Proof.
  intros Hh [? [? ?] ? ? ? Hs ? ?]. split; try done; [split; [done|lia]|]. intros seq Hq. destruct (Hs seq Hq). lia.
Qed.

(** * One step of a task *)

Section life.
Context {D : Digest}.

Lemma time_le_false_lt a b : isSome a = true -> isSome b = true -> time_le a b = false -> time_lt b a = true.
Proof. destruct a, b; cbn; try done. lia. Qed.

Lemma SchedulerTimestamp_parses s : SchedulerTimestamp s = true -> isSome (Date_parse s) = true.
Proof. unfold SchedulerTimestamp. intros [_ H]%andb_true_iff. by destruct (Date_parse s). Qed.

Lemma time_lt_trans a b c : time_lt a b = true -> time_lt b c = true -> time_lt a c = true.
Proof. destruct a, b, c; cbn; try done. lia. Qed.

Lemma time_lt_parsed a b : time_lt a b = true -> isSome a = true /\ isSome b = true.
Proof. by destruct a, b. Qed.

Lemma lease_of_token_Some t token l : lease_of_token t token = Some l -> st_lease t = Some l /\ lf_leaseToken (ls_fields l) = token.
Proof. unfold lease_of_token. destruct (st_lease t) as [l'|]; [|done]. case_bool_decide; [|done]. by intros [= <-]. Qed.

Definition live (t : SchedulerTaskProjectionV1) : Prop := exists x, phase_of t = Some x.

(** A lease that is not uncertain belongs to an active task. *)
Lemma phase_leased t l : isSome (phase_of t) = true -> st_lease t = Some l -> ls_state l <> lease_uncertain ->
  st_state t = sched_active /\ phase_of t = Some (Leased (lf_leaseToken (ls_fields l)) (bool_decide (ls_state l = lease_dispatched))).
Proof.
  unfold phase_of. intros Hp Hl Hu. rewrite Hl in *. destruct (st_state t), (ls_state l); try done; split; try done.
Qed.

(** The reducer's test for a closed task, on the phase. *)
Lemma phase_closed t x : phase_of t = Some x -> sched_closed t = match x with Completed | Cancelled => true | _ => false end.
Proof.
  unfold phase_of, sched_closed. destruct (st_state t), (st_lease t) as [l|]; try done; [by intros [= <-]| |by intros [= <-]..|].
  all: destruct (ls_state l); by intros [= <-].
Qed.

(** What a step does to a task. *)
Record stepped (t : SchedulerTaskProjectionV1) (e : MultiRepoSchedulerEventV1) (t' : SchedulerTaskProjectionV1) : Prop := {
  stepped_registration : task_registration t' = task_registration t;
  stepped_version : st_version t' = st_version t + 1;
  stepped_seq : st_lastEventSeq t' = me_seq e;
  stepped_phase x : phase_of t = Some x -> exists x', phase_of t' = Some x' /\ phase_next (me_payload e) x = Some x';
  stepped_lease l : st_lease t' = Some l -> (forall l0, st_lease t = Some l0 -> lease_wf t l0) -> isSome (phase_of t) = true -> lease_wf t l;
  stepped_dirty : st_dirty t = isSome (st_dirtySinceSeq t) -> st_dirty t' = isSome (st_dirtySinceSeq t');
  stepped_since seq : st_dirtySinceSeq t' = Some seq -> st_dirtySinceSeq t = Some seq \/ seq = me_seq e
}.

(** Steps that leave the state and the lease alone. *)
Lemma stepped_idle t e dirty since processing :
  (forall x, phase_of t = Some x -> phase_next (me_payload e) x = Some x) ->
  (st_dirty t = isSome (st_dirtySinceSeq t) -> dirty = isSome since) ->
  (forall seq, since = Some seq -> st_dirtySinceSeq t = Some seq \/ seq = me_seq e) ->
  stepped t e (next_task t (me_seq e) (st_state t) dirty since processing (st_lease t)).
Proof.
  intros Hp Hd Hs. split; try done.
  - intros x Hx. exists x. split; [exact Hx|by apply Hp].
  - intros l Hl H _. by apply H.
Qed.

(** Steps on the lease the token names. *)
Lemma stepped_leased t e state processing l l' :
  st_lease t = Some l ->
  (forall x, phase_of t = Some x -> exists x', phase_of (next_task t (me_seq e) state (st_dirty t) (st_dirtySinceSeq t) processing (Some l')) = Some x' /\ phase_next (me_payload e) x = Some x') ->
  (lease_wf t l -> isSome (phase_of t) = true -> lease_wf t l') ->
  stepped t e (next_task t (me_seq e) state (st_dirty t) (st_dirtySinceSeq t) processing (Some l')).
Proof.
  intros Hl Hp Hw. split; try done.
  - intros k Hk H Hs. cbn in Hk. injection Hk as <-. apply Hw; [by apply H|done].
  - intros seq Hq. by left.
Qed.

Lemma scheduler_step_stepped t e t' :
  MultiRepoSchedulerEventV1Schema e = true -> scheduler_step t e = Ok t' -> stepped t e t'.
Proof.
  unfold MultiRepoSchedulerEventV1Schema. intros [_ Hv]%andb_true_iff. unfold scheduler_step.
  destruct (me_payload e) as [set ids pr deps prio|reason|r o v|r o v|v lease|v token pi|v token inc exp|v token reason|v token outcome ev|v reason] eqn:Hpl;
    cbn [SchedulerPayload_valid] in Hv; intros H; [done|..].
  - apply bind_Ok in H as ([] & Hc%ensure_Ok%negb_true_iff & [= <-]). apply stepped_idle; [|done|].
    { intros x Hx. rewrite Hpl. rewrite (phase_closed _ _ Hx) in Hc. by destruct x. }
    intros seq [= <-]. destruct (st_dirtySinceSeq t); [by left|by right].
  - apply bind_Ok in H as ([] & _ & H). apply bind_Ok in H as ([] & [_ Hc%negb_true_iff]%ensure_Ok%andb_true_iff & [= <-]).
    apply stepped_idle; [|done..]. intros x Hx. rewrite Hpl. rewrite (phase_closed _ _ Hx) in Hc. by destruct x.
  - apply bind_Ok in H as ([] & _ & H). apply bind_Ok in H as ([] & _ & [= <-]). apply stepped_idle; [by rewrite Hpl|done|auto].
  - apply bind_Ok in H as ([] & _ & H). apply bind_Ok in H as ([] & Hg%ensure_Ok & [= <-]).
    rewrite !andb_true_iff, !negb_true_iff, !bool_decide_eq_true in Hg. destruct Hg as (((((Hn & Hw) & Hset) & Hprov) & Hids) & Ht).
    apply andb_true_iff in Hv as [_ Hl]. unfold Lease_valid in Hl. rewrite !andb_true_iff in Hl. destruct Hl as [[_ Hiss] Hexp].
    split; try done; try (by left).
    + intros x Hx. exists (Leased (lf_leaseToken lease) false). split; [done|]. unfold phase_of in Hx. rewrite Hw in Hx.
      destruct (st_lease t); [done|]. injection Hx as <-. by rewrite Hpl.
    + intros l [= <-] _ _. split; try done. cbn. apply time_le_false_lt; [by apply SchedulerTimestamp_parses..|done].
  - apply bind_Ok in H as ([] & _ & H). destruct (lease_of_token t token) as [l|] eqn:El; [|done].
    apply lease_of_token_Some in El as [El Htok]. apply bind_Ok in H as ([] & Hg%ensure_Ok & [= <-]). apply bool_decide_eq_true in Hg.
    eapply stepped_leased; [exact El| |].
    + intros x Hx. destruct (phase_leased t l) as [Ha Hp]; [by rewrite Hx|done|congruence|]. rewrite Hp, Hg in Hx. injection Hx as <-.
      unfold phase_of. cbn. rewrite Ha, Hpl. eexists. split; [done|]. cbn. rewrite bool_decide_eq_true_2; congruence.
    + intros [] _. by split.
  - apply bind_Ok in H as ([] & _ & H). destruct (lease_of_token t token) as [l|] eqn:El; [|done].
    apply lease_of_token_Some in El as [El Htok]. apply bind_Ok in H as ([] & Hg%ensure_Ok & [= <-]).
    rewrite !andb_true_iff, !negb_true_iff, bool_decide_eq_false in Hg. destruct Hg as ((_ & Hu) & Hext).
    eapply stepped_leased; [exact El| |].
    + intros x Hx. exists x. split; [unfold phase_of in *; cbn; by rewrite El in Hx|].
      destruct (phase_leased t l) as [_ Hp]; [by rewrite Hx|done|done|]. rewrite Hp in Hx. injection Hx as <-. rewrite Hpl. cbn.
      rewrite bool_decide_eq_true_2; congruence.
    + intros [] _. split; try done. cbn. apply andb_true_iff in Hv as [_ Hexp].
      destruct (time_lt_parsed _ _ lease_window0). eapply time_lt_trans; [done|]. apply time_le_false_lt; [by apply SchedulerTimestamp_parses|done..].
  - apply bind_Ok in H as ([] & _ & H). destruct (lease_of_token t token) as [l|] eqn:El; [|done].
    apply lease_of_token_Some in El as [El Htok]. injection H as <-.
    eapply stepped_leased; [exact El| |].
    + intros x Hx. exists (Uncertain (lf_leaseToken (ls_fields l))). split; [done|]. unfold phase_of in Hx. rewrite El in Hx.
      destruct (st_state t), (ls_state l); try done; injection Hx as <-; rewrite Hpl; cbn; rewrite bool_decide_eq_true_2; congruence.
    + intros [] _. by split.
  - apply bind_Ok in H as ([] & _ & H). destruct (lease_of_token t token) as [l|] eqn:El; [|done].
    apply lease_of_token_Some in El as [El Htok]. apply bind_Ok in H as ([] & Hg%ensure_Ok & [= <-]). apply negb_true_iff, bool_decide_eq_false in Hg.
    split; try done.
    + intros x Hx. destruct (phase_leased t l) as [_ Hp]; [by rewrite Hx|done|done|]. rewrite Hp in Hx. injection Hx as <-.
      destruct outcome; (eexists; split; [done|]; rewrite Hpl; cbn; by rewrite bool_decide_eq_true_2).
    + destruct outcome; cbn; done.
    + intros seq. destruct outcome; cbn; auto. intros [= <-]. by right.
  - apply bind_Ok in H as ([] & _ & H). apply bind_Ok in H as ([] & Hg%ensure_Ok & [= <-]).
    apply andb_true_iff in Hg as [Hn Hc]. apply negb_true_iff in Hn, Hc. split; try done.
    intros x Hx. exists Cancelled. split; [done|]. unfold phase_of in Hx. unfold sched_closed in Hc.
    destruct (st_lease t); [done|]. destruct (st_state t); try done; injection Hx as <-; by rewrite Hpl.
Qed.

(** * The projection *)

(** The versions of all tasks, added up. *)
Definition versions_total (m : obj SchedulerTaskProjectionV1) : Z := map_fold (fun _ t n => st_version t + n) 0 m.

Lemma versions_total_new m id t : m !! id = None -> versions_total (<[id := t]> m) = st_version t + versions_total m.
Proof. intros H. unfold versions_total. rewrite map_fold_insert_L; [done| |done]. intros. lia. Qed.

Lemma versions_total_update m id t t' : m !! id = Some t -> versions_total (<[id := t']> m) = versions_total m + st_version t' - st_version t.
Proof.
  intros H. rewrite <-insert_delete_eq, versions_total_new by apply lookup_delete_eq.
  rewrite <-(insert_delete_id m id t H) at 2. rewrite versions_total_new by apply lookup_delete_eq. lia.
Qed.

Record sched_wf (p : MultiRepoSchedulerProjectionV1) : Prop := {
  sched_tasks id t : mp_tasks p !! id = Some t -> sched_task_wf (mp_headSeq p) id t;
  sched_seen : Z.of_nat (size (mp_seenEventIds p)) = mp_headSeq p;
  sched_total : versions_total (mp_tasks p) = mp_headSeq p
}.

Lemma sched_wf_head p : sched_wf p -> 0 <= mp_headSeq p.
Proof. intros [_ H _]. lia. Qed.

Lemma sched_wf_empty : sched_wf emptyMultiRepoSchedulerProjection.
Proof. split; [|done|done]. intros id t H. cbn in H. by rewrite lookup_empty in H. Qed.

(** An accepted event either was seen before, or writes one task. *)
Inductive scheduled (p : MultiRepoSchedulerProjectionV1) (e : MultiRepoSchedulerEventV1) : MultiRepoSchedulerProjectionV1 -> Prop :=
| scheduled_again : mp_seenEventIds p !! me_eventId e = Some (eventDigest e) -> scheduled p e p
| scheduled_new t' :
    mp_seenEventIds p !! me_eventId e = None -> me_seq e = mp_headSeq p + 1 -> MultiRepoSchedulerEventV1Schema e = true ->
    scheduled_task p e = Ok t' -> scheduled p e (withTask p e t').

Lemma applyMultiRepoSchedulerEvent_scheduled p e p' : applyMultiRepoSchedulerEvent p e = Ok p' -> scheduled p e p'.
Proof.
  unfold applyMultiRepoSchedulerEvent, parseMultiRepoSchedulerEvent. destruct (MultiRepoSchedulerEventV1Schema e) eqn:Hv; [|done].
  destruct (obj_get _ _) as [| |prior] eqn:Hs; [|done|].
  - intros H. apply bind_Ok in H as ([] & Hseq%ensure_Ok & H). apply bind_Ok in H as (t' & Ht & [= <-]).
    apply Z.eqb_eq in Hseq. apply obj_get_Absent in Hs. by constructor.
  - intros H. apply bind_Ok in H as ([] & Hd%ensure_Ok & [= <-]). apply bool_decide_eq_true in Hd as ->.
    apply obj_get_Own in Hs. by constructor.
Qed.

(** The task an event writes: a new one, or the next version of its task. *)
Lemma scheduled_task_Ok p e t' :
  scheduled_task p e = Ok t' ->
  (mp_tasks p !! me_taskId e = None /\ exists set ids pr deps prio, me_payload e = scheduler_task_registered set ids pr deps prio /\
     registeredTask e set ids pr deps prio = Ok t') \/
  (exists t, mp_tasks p !! me_taskId e = Some t /\ st_taskGeneration t = me_taskGeneration e /\ scheduler_step t e = Ok t').
Proof.
  unfold scheduled_task. intros H. destruct (me_payload e) eqn:E.
  1: { left. destruct (obj_get _ _) eqn:Hg; [|done|done]. apply obj_get_Absent in Hg. split; [done|]. by eauto 8. }
  all: right; apply bind_Ok in H as (t & Ht & H); unfold requireTask in Ht; destruct (obj_get _ _) as [| |t0] eqn:Hg; try done;
    apply bind_Ok in Ht as ([] & Hgen%ensure_Ok & [= ->]); apply obj_get_Own in Hg; apply Z.eqb_eq in Hgen; by exists t.
Qed.

Lemma registered_wf e set ids pr deps prio t :
  MultiRepoSchedulerEventV1Schema e = true -> me_payload e = scheduler_task_registered set ids pr deps prio -> 1 <= me_seq e ->
  registeredTask e set ids pr deps prio = Ok t ->
  sched_task_wf (me_seq e) (me_taskId e) t /\ st_version t = 1 /\ phase_of t = Some Waiting /\ st_taskId t = me_taskId e.
Proof.
  unfold MultiRepoSchedulerEventV1Schema, registeredTask. intros Hv Hp Hseq H. rewrite Hp in Hv. cbn [SchedulerPayload_valid] in Hv.
  rewrite !andb_true_iff in Hv. destruct Hv as (((_ & Hid) & Hgen) & ((((Hset & Hids) & Hpr) & Hdeps) & Hprio)).
  apply bind_Ok in H as ([] & Hu%ensure_Ok & [= <-]). unfold unique in Hu.
  rewrite !andb_true_iff, negb_true_iff, !bool_decide_eq_true, bool_decide_eq_false in Hu. destruct Hu as [[Hu1 Hu2] Hu3].
  unfold between in Hprio. apply andb_true_iff in Hprio as [Hp1%Z.leb_le Hp2%Z.leb_le].
  split; [|done]. split; cbn; try done; try lia. intros seq [= <-]. lia.
Qed.

Lemma stepped_wf head id t e t' :
  sched_task_wf head id t -> me_seq e = head + 1 -> stepped t e t' -> sched_task_wf (me_seq e) id t' /\ isSome (phase_of t') = true.
Proof.
  intros [Hk [Hv Hh] Hp Hl Hd Hs Hsets Hsc] Hseq [Hreg Hver Hlast Hph Hle Hdi Hsi].
  assert (isSome (phase_of t') = true) as Hp'.
  { destruct (phase_of t) as [x|]; [|done]. destruct (Hph x eq_refl) as (x' & -> & _). done. }
  injection Hreg as E1 E2 E3 E4 E5 E6 E7. split; [|done]. split; try done.
  - congruence.
  - split; lia.
  - intros l Hl'. destruct (Hle l Hl' Hl Hp) as [? ? ? ? ?]. split; solve [congruence|done].
  - by apply Hdi.
  - intros seq Hq. destruct (Hsi _ Hq) as [Hold| ->]; [apply Hs in Hold; lia|lia].
  - by rewrite E1, E4, E6.
  - by rewrite E1, E2, E3, E4, E5, E7.
Qed.

Lemma scheduled_wf p e p' : sched_wf p -> scheduled p e p' -> sched_wf p'.
Proof.
  intros Hwf [Hseen|t' Hnew Hseq Hv Ht]; [done|]. pose proof (sched_wf_head _ Hwf). destruct Hwf as [Htasks Hsize Htot].
  assert (sched_task_wf (me_seq e) (me_taskId e) t' /\ versions_total (<[st_taskId t' := t']> (mp_tasks p)) = mp_headSeq p + 1) as [Hwf' Htot'].
  { apply scheduled_task_Ok in Ht as [(Hn & set & ids & pr & deps & prio & Hp & Hr)|(t & Hl & _ & Hst)].
    - destruct (registered_wf _ _ _ _ _ _ _ Hv Hp ltac:(lia) Hr) as (Hw & Hver & _ & Hid). split; [done|].
      rewrite Hid, versions_total_new by done. lia.
    - apply scheduler_step_stepped in Hst; [|done]. destruct (stepped_wf _ _ _ _ _ (Htasks _ _ Hl) Hseq Hst) as [Hw _].
      split; [done|]. rewrite (sched_keyed _ _ _ Hw), (versions_total_update _ _ t) by done. rewrite (stepped_version _ _ _ Hst). lia. }
  split; cbn [withTask mp_headSeq mp_tasks mp_seenEventIds].
  - intros id t Hid. rewrite (sched_keyed _ _ _ Hwf') in Hid. apply lookup_insert_Some in Hid as [[<- <-]|[_ Hid]]; [done|].
    eapply sched_task_wf_mono; [|by apply Htasks]. lia.
  - rewrite map_size_insert_None by done. lia.
  - lia.
Qed.

Lemma reachable_sched_wf events p : reduceMultiRepoSchedulerEvents events = Ok p -> sched_wf p.
Proof.
  apply fold_result_ind; [apply sched_wf_empty|]. intros x e x' _ Hx H. eapply scheduled_wf; [exact Hx|].
  by apply applyMultiRepoSchedulerEvent_scheduled.
Qed.

(** The events a history accepted are the ones the projection has seen. *)
Lemma scheduled_seen p e p' :
  scheduled p e p' -> mp_seenEventIds p' !! me_eventId e = Some (eventDigest e) /\
    (forall id d, mp_seenEventIds p !! id = Some d -> mp_seenEventIds p' !! id = Some d).
Proof.
  intros [Hs|t' Hn _ _ _]; [done|]. cbn. split; [by rewrite lookup_insert_eq|]. intros id d Hid.
  rewrite lookup_insert_ne; [done|]. congruence.
Qed.

Lemma fold_seen p events p' :
  fold_result applyMultiRepoSchedulerEvent p events = Ok p' ->
  (forall id d, mp_seenEventIds p !! id = Some d -> mp_seenEventIds p' !! id = Some d) /\
  (forall e, e ∈ events -> mp_seenEventIds p' !! me_eventId e = Some (eventDigest e) /\ MultiRepoSchedulerEventV1Schema e = true).
Proof.
  revert p; induction events as [|e events IH]; intros p; cbn [fold_result].
  - intros [= <-]. split; [done|]. by intros e ?%not_elem_of_nil.
  - intros (q & Hq & H)%bind_Ok. apply IH in H as [Hk Hin].
    assert (MultiRepoSchedulerEventV1Schema e = true) as Hv.
    { unfold applyMultiRepoSchedulerEvent, parseMultiRepoSchedulerEvent in Hq. by destruct (MultiRepoSchedulerEventV1Schema e). }
    apply applyMultiRepoSchedulerEvent_scheduled, scheduled_seen in Hq as [Hs Hk0].
    split; [auto|]. intros e' [->|He]%elem_of_cons; auto.
Qed.

(** An event the projection has seen is accepted again and changes nothing. *)
Lemma apply_seen p e :
  MultiRepoSchedulerEventV1Schema e = true -> mp_seenEventIds p !! me_eventId e = Some (eventDigest e) ->
  applyMultiRepoSchedulerEvent p e = Ok p.
Proof.
  intros Hv Hs. unfold applyMultiRepoSchedulerEvent, parseMultiRepoSchedulerEvent. rewrite Hv.
  rewrite (proj2 (obj_get_Own _ _ _) Hs). by rewrite bool_decide_eq_true_2.
Qed.
End life.
