(* ===== verification/SchedulerDecisions.v ===== *)
(** SchedulerDecisions: the leases of a scheduler projection, counted before and
    after an event, and the choice of the next task to reconcile. *)
From S2P Require Import Prelude Text Json Ids ScmTypes ScmSchema ControlEvents EventSchema SchedulerEvents Scheduler SchedulerLife.

(** * Counting *)

#[export] Instance count_Permutation {A} (f : A -> bool) : Proper ((≡ₚ) ==> eq) (count f).
Proof.
  intros l l' H. unfold count. f_equal. induction H; cbn; try done.
  - destruct (f x); cbn; congruence.
  - by destruct (f x), (f y).
  - congruence.
Qed.

Lemma count_cons {A} (f : A -> bool) x l : count f (x :: l) = (if f x then 1 else 0) + count f l.
Proof. unfold count. cbn. destruct (f x); cbn [length]; lia. Qed.

Lemma count_app {A} (f : A -> bool) l l' : count f (l ++ l') = count f l + count f l'.
Proof. unfold count. rewrite List.filter_app, length_app. lia. Qed.

Lemma count_nonneg {A} (f : A -> bool) l : 0 <= count f l.
Proof. unfold count. lia. Qed.

Lemma count_true {A} (l : list A) : count (fun _ => true) l = Z.of_nat (length l).
Proof. unfold count. rewrite List.forallb_filter_id; [done|]. by apply forallb_forall. Qed.

(** * The leases of a projection *)

Definition lease_list (t : SchedulerTaskProjectionV1) : list SchedulerLeaseV1 := match st_lease t with Some l => [l] | None => [] end.

Lemma omap_lease_list ts : omap st_lease ts = List.concat (List.map lease_list ts).
Proof. induction ts as [|t ts IH]; cbn; [done|]. unfold lease_list at 1. destruct (st_lease t); cbn; by rewrite <-IH. Qed.

Definition leases_of (m : obj SchedulerTaskProjectionV1) : list SchedulerLeaseV1 := omap st_lease (obj_values m).

Lemma leases_new m id t : m !! id = None -> leases_of (<[id := t]> m) ≡ₚ lease_list t ++ leases_of m.
Proof.
  intros H. unfold leases_of, obj_values. rewrite !omap_lease_list. rewrite map_to_list_insert by done. cbn. done.
Qed.

Lemma leases_update m id t t' :
  m !! id = Some t -> exists rest, leases_of m ≡ₚ lease_list t ++ rest /\ leases_of (<[id := t']> m) ≡ₚ lease_list t' ++ rest.
Proof.
  intros H. exists (leases_of (delete id m)). split.
  - rewrite <-(insert_delete_id m id t H) at 1. by apply leases_new, lookup_delete_eq.
  - rewrite <-insert_delete_eq. by apply leases_new, lookup_delete_eq.
Qed.

(** What a lease counts towards: its provider, its attempt, its repositories. *)
Definition lease_claim (l : SchedulerLeaseV1) := (lease_provider l, lease_attempt l, lf_repositoryIds (ls_fields l)).

Definition claim_test (f : SchedulerLeaseV1 -> bool) : Prop := forall l l', lease_claim l = lease_claim l' -> f l = f l'.

Section decisions.
Context {D : Digest}.

Definition is_grant (e : MultiRepoSchedulerEventV1) : bool := match me_payload e with scheduler_lease_granted _ _ => true | _ => false end.

(** Without a grant a task's lease is kept, with its claim, or dropped. *)
Lemma step_lease t e t' :
  is_grant e = false -> scheduler_step t e = Ok t' ->
  st_lease t' = None \/ exists l l', st_lease t = Some l /\ st_lease t' = Some l' /\ lease_claim l' = lease_claim l.
Proof.
  unfold is_grant, scheduler_step. intros Hg H.
  assert (forall a b c d f, st_lease (next_task t a b c d f (st_lease t)) = None \/
    exists l l', st_lease t = Some l /\ st_lease (next_task t a b c d f (st_lease t)) = Some l' /\ lease_claim l' = lease_claim l) as Hkeep.
  { intros. cbn. destruct (st_lease t) as [l|]; [|by left]. right. by exists l, l. }
  destruct (me_payload e); try done; run; subst t';
    try match goal with H : lease_of_token _ _ = Some _ |- _ => apply lease_of_token_Some in H as [? _] end.
  all: try apply Hkeep. all: try (by left).
  all: right; eexists _, _; (split; [eassumption|]); (split; [reflexivity|done]).
Qed.

Lemma live_leases_withTask p e t : live_leases (withTask p e t) = leases_of (<[st_taskId t := t]> (mp_tasks p)).
Proof. done. Qed.

Lemma count_written f p e t t' :
  claim_test f -> mp_tasks p !! st_taskId t' = Some t ->
  (st_lease t' = None \/ exists l l', st_lease t = Some l /\ st_lease t' = Some l' /\ lease_claim l' = lease_claim l) ->
  count f (live_leases (withTask p e t')) <= count f (live_leases p).
Proof.
  intros Hf Hl H. rewrite live_leases_withTask.
  change (live_leases p) with (leases_of (mp_tasks p)). destruct (leases_update _ _ _ t' Hl) as (rest & -> & ->).
  rewrite !count_app. unfold lease_list. pose proof (count_nonneg f (match st_lease t with Some l => [l] | None => [] end)).
  destruct H as [->|(l & l' & -> & -> & Hc)]; [change (count f []) with 0; lia|]. rewrite !count_cons, (Hf l' l Hc). lia.
Qed.

(** No event but a grant adds to any count. *)
Lemma count_no_grant f p e p' :
  sched_wf p -> claim_test f -> is_grant e = false -> scheduled p e p' -> count f (live_leases p') <= count f (live_leases p).
Proof.
  intros Hwf Hf Hg [_|t' _ Hseq Hv Ht]; [lia|].
  apply scheduled_task_Ok in Ht as [(Hn & set & ids & pr & deps & prio & Hp & Hr)|(t & Hl & _ & Hst)].
  - unfold registeredTask in Hr. apply bind_Ok in Hr as ([] & _ & [= <-]).
    rewrite live_leases_withTask. cbn [st_taskId]. by rewrite leases_new.
  - pose proof (step_lease _ _ _ Hg Hst) as Hle. apply scheduler_step_stepped in Hst; [|done].
    eapply count_written; [done| |exact Hle]. pose proof (stepped_registration _ _ _ Hst) as Hreg. injection Hreg as -> _ _ _ _ _ _.
    by rewrite (sched_keyed _ _ _ (sched_tasks _ Hwf _ _ Hl)).
Qed.

(** * Admission *)

Lemma parse_Some e e' : parseMultiRepoSchedulerEvent e = Some e' -> e' = e /\ MultiRepoSchedulerEventV1Schema e = true.
Proof. unfold parseMultiRepoSchedulerEvent. destruct (MultiRepoSchedulerEventV1Schema e); [|done]. by intros [= <-]. Qed.

(** What an admission checked. *)
Record admitted_ok (i : AdmissionInput) (t : SchedulerTaskProjectionV1) (e : MultiRepoSchedulerEventV1) : Prop := {
  admitted_event : e = admission_event i t /\ MultiRepoSchedulerEventV1Schema e = true;
  admitted_task : mp_tasks (ai_projection i) !! ai_taskId i = Some t;
  admitted_waiting : st_lease t = None /\ st_state t <> sched_completed /\ st_state t <> sched_cancelled /\ st_state t <> sched_failed /\ st_state t <> sched_uncertain;
  admitted_version : st_version t = ai_expectedVersion i;
  admitted_dependencies : forall d, d ∈ st_dependencies t -> dependency_completed (ai_projection i) d = true;
  admitted_scope : forall id, id ∈ st_repositoryIds t -> id ∈ ai_roleRepositoryIds i /\ id ∈ ai_providerRepositoryIds i;
  admitted_capacity : capacity_block i t = None;
  admitted_budget : ai_budgetAvailable i = true
}.

Lemma forallb_elem {A} (f : A -> bool) l x : forallb f l = true -> x ∈ l -> f x = true.
Proof. rewrite forallb_forall. intros H Hx. apply H. by apply list_elem_of_In. Qed.

Lemma decideSchedulerAdmission_Ok i e : decideSchedulerAdmission i = Ok (inr e) -> exists t, admitted_ok i t e.
Proof.
  unfold decideSchedulerAdmission. destruct (obj_get _ _) as [| |t] eqn:Ht; [done|done|]. apply obj_get_Own in Ht.
  destruct (match st_state t with sched_completed | sched_cancelled | sched_failed => true | _ => false end) eqn:E1; [done|].
  destruct (bool_decide (st_state t = sched_uncertain) || _) eqn:E2; [done|].
  destruct (isSome (st_lease t)) eqn:E3; [done|]. destruct (negb (st_version t =? _)) eqn:E4; [done|].
  destruct (negb (forallb (dependency_completed _) _)) eqn:E5; [done|]. destruct (negb (bool_decide (ai_repositorySetId i = _))) eqn:E6; [done|].
  destruct (negb (forallb (fun id => bool_decide (id ∈ ai_roleRepositoryIds i)) _)) eqn:E7; [done|].
  destruct (negb (forallb (fun id => bool_decide (id ∈ ai_providerRepositoryIds i)) _)) eqn:E8; [done|].
  destruct (negb (ai_budgetAvailable i)) eqn:E9; [done|]. destruct (negb (limit_valid _ && _ && _ && _)) eqn:E10; [done|].
  destruct (capacity_block i t) eqn:E11; [done|]. destruct (parseMultiRepoSchedulerEvent _) as [e'|] eqn:E12; [|done].
  intros [= <-]. apply parse_Some in E12 as [-> Hv]. exists t. apply negb_false_iff in E4, E5, E6, E7, E8, E9.
  apply orb_false_iff in E2 as [E2 _]. apply bool_decide_eq_false in E2. apply Z.eqb_eq in E4.
  split; try done.
  - split; [by destruct (st_lease t)|]. by destruct (st_state t).
  - intros d Hd. eapply forallb_elem; [exact E5|done].
  - intros id Hid. pose proof (forallb_elem _ _ _ E7 Hid) as H1. pose proof (forallb_elem _ _ _ E8 Hid) as H2.
    by apply bool_decide_eq_true in H1, H2.
Qed.

Lemma admitted_state i t e : sched_wf (ai_projection i) -> admitted_ok i t e -> st_state t = sched_waiting /\ st_taskId t = ai_taskId i.
Proof.
  intros Hwf [_ Ht (Hl & ? & ? & ? & ?) _ _ _ _ _]. pose proof (sched_tasks _ Hwf _ _ Ht) as Hw. split; [|by apply Hw].
  pose proof (sched_phase _ _ _ Hw) as Hp. unfold phase_of in Hp. rewrite Hl in Hp. by destruct (st_state t).
Qed.

(** The task an admitted lease makes. *)
Definition leased_task (i : AdmissionInput) (t : SchedulerTaskProjectionV1) (lease : LeaseFields) : SchedulerTaskProjectionV1 :=
  next_task t (mp_headSeq (ai_projection i) + 1) sched_active (st_dirty t) (st_dirtySinceSeq t) (st_processing t)
    (Some {| ls_fields := lease; ls_state := lease_admitted; ls_processIdentity := None; ls_uncertainReason := None |}).

Lemma capacity_free i t :
  capacity_block i t = None ->
  let ls := live_leases (ai_projection i) in
  Z.of_nat (length ls) < cl_global (ai_limits i) /\
  count (fun l => bool_decide (lease_provider l = st_providerId t)) ls < cl_perProvider (ai_limits i) /\
  (forall id, id ∈ st_repositoryIds t -> count (lease_covers id) ls < cl_perRepository (ai_limits i)) /\
  count (fun l => bool_decide (lease_attempt l = al_attemptId (ai_lease i))) ls < cl_perTask (ai_limits i).
Proof.
  unfold capacity_block. cbv zeta.
  destruct (Z.leb_spec (cl_global (ai_limits i)) (Z.of_nat (length (live_leases (ai_projection i))))); [done|].
  destruct (Z.leb_spec (cl_perProvider (ai_limits i)) (count (fun l => bool_decide (lease_provider l = st_providerId t)) (live_leases (ai_projection i)))); [done|].
  destruct (existsb _ _) eqn:Er; [done|].
  destruct (Z.leb_spec (cl_perTask (ai_limits i)) (count (fun l => bool_decide (lease_attempt l = al_attemptId (ai_lease i))) (live_leases (ai_projection i)))); [done|].
  intros _. split_and!; try done. intros id Hid. apply Z.nle_gt. intros Hle. apply not_true_iff_false in Er. apply Er.
  apply existsb_exists. exists id. split; [by apply list_elem_of_In|]. by apply Z.leb_le.
Qed.

(** A grant adds exactly the lease it carries. *)
Lemma grant_leases p e p' v lease :
  sched_wf p -> me_payload e = scheduler_lease_granted v lease -> scheduled p e p' ->
  p' = p \/ live_leases p' ≡ₚ {| ls_fields := lease; ls_state := lease_admitted; ls_processIdentity := None; ls_uncertainReason := None |} :: live_leases p.
Proof.
  intros Hwf Hp [_|t' _ Hseq Hv Ht]; [by left|]. right.
  apply scheduled_task_Ok in Ht as [(_ & set & ids & pr & deps & prio & Hp' & _)|(t & Hl & _ & Hst)]; [congruence|].
  pose proof (sched_keyed _ _ _ (sched_tasks _ Hwf _ _ Hl)) as Hk. unfold scheduler_step in Hst. rewrite Hp in Hst.
  apply bind_Ok in Hst as ([] & _ & Hst). apply bind_Ok in Hst as ([] & Hg%ensure_Ok & [= <-]).
  rewrite !andb_true_iff in Hg. destruct Hg as (((((Hn & _) & _) & _) & _) & _).
  rewrite live_leases_withTask. cbn [next_task st_taskId]. rewrite Hk.
  match goal with |- leases_of (<[?k := ?x]> _) ≡ₚ _ => destruct (leases_update _ k t x Hl) as (rest & H1 & ->) end.
  change (live_leases p) with (leases_of (mp_tasks p)). rewrite H1. unfold lease_list. cbn [st_lease app]. by destruct (st_lease t).
Qed.

(** * Choosing the next task *)

Context {C : Collation}.

#[export] Instance by_urgency_comparator p : Comparator (by_urgency p).
Proof.
  split; unfold by_urgency; cbv zeta.
  - intros x y. destruct (Z.eqb_spec (effective_priority p y - effective_priority p x) 0), (Z.eqb_spec (effective_priority p x - effective_priority p y) 0);
      cbn [negb]; try lia.
    destruct (Z.eqb_spec (default 0 (st_dirtySinceSeq x) - default 0 (st_dirtySinceSeq y)) 0),
      (Z.eqb_spec (default 0 (st_dirtySinceSeq y) - default 0 (st_dirtySinceSeq x)) 0); cbn [negb]; try lia. apply cmp_total.
  - intros x y z. generalize (effective_priority p x) (effective_priority p y) (effective_priority p z). intros a b c.
    generalize (default 0 (st_dirtySinceSeq x)) (default 0 (st_dirtySinceSeq y)) (default 0 (st_dirtySinceSeq z)). intros u v w.
    destruct (Z.eqb_spec (b - a) 0), (Z.eqb_spec (c - b) 0), (Z.eqb_spec (c - a) 0); cbn [negb]; try lia.
    destruct (Z.eqb_spec (u - v) 0), (Z.eqb_spec (v - w) 0), (Z.eqb_spec (u - w) 0); cbn [negb]; try lia. apply cmp_trans.
Qed.

Lemma chooseNext_None p : chooseNextReconciliation p = None <-> forall id t, mp_tasks p !! id = Some t -> reconcilable t = false.
Proof.
  unfold chooseNextReconciliation. destruct (js_sort _ _) as [|c l] eqn:E.
  - split; [|done]. intros _ id t Ht. apply js_sort_nil in E. destruct (reconcilable t) eqn:Er; [|done].
    assert (In t (List.filter reconcilable (obj_values (mp_tasks p)))) as Hin; [|by rewrite E in Hin].
    apply filter_In. split; [|done]. apply list_elem_of_In, elem_of_obj_values. by exists id.
  - split; [done|]. intros H. apply js_sort_head in E as [Hin _]; [|apply _]. apply list_elem_of_In, filter_In in Hin as [Hin Hr].
    apply list_elem_of_In, elem_of_obj_values in Hin as [id Hid]. by rewrite (H _ _ Hid) in Hr.
Qed.

Lemma chooseNext_Some p c :
  chooseNextReconciliation p = Some c ->
  (exists id, mp_tasks p !! id = Some c) /\ reconcilable c = true /\
  forall id t, mp_tasks p !! id = Some t -> reconcilable t = true -> t = c \/ by_urgency p c t <= 0.
Proof.
  unfold chooseNextReconciliation. destruct (js_sort _ _) as [|c' l] eqn:E; [done|]. intros [= ->].
  apply js_sort_head in E as [Hin Hmin]; [|apply _]. apply list_elem_of_In, filter_In in Hin as [Hin Hr].
  apply list_elem_of_In, elem_of_obj_values in Hin. split; [done|]. split; [done|]. intros id t Ht Hrt. apply Hmin.
  apply list_elem_of_In, filter_In. split; [|done]. apply list_elem_of_In, elem_of_obj_values. by exists id.
Qed.

Lemma by_urgency_le p c t : by_urgency p c t <= 0 -> effective_priority p t <= effective_priority p c.
Proof. unfold by_urgency. cbv zeta. destruct (Z.eqb_spec (effective_priority p t - effective_priority p c) 0); cbn [negb]; lia. Qed.
End decisions.
