(* ===== verification/SchedulerHistory.v ===== *)
(** SchedulerHistory: what whole histories of the scheduler keep to — the
    lease machine, the concurrency limits of admission, the order of
    dependencies and the events applied once. *)
From S2P Require Import Prelude Text Json Ids ScmTypes ScmSchema ControlEvents EventSchema SchedulerEvents Scheduler SchedulerLife SchedulerDecisions.

Section history.
Context {D : Digest}.

(** * One event *)

(** What an accepted event that was not seen before does to the tasks. *)
Inductive task_write (p : MultiRepoSchedulerProjectionV1) (e : MultiRepoSchedulerEventV1) (t' : SchedulerTaskProjectionV1) : Prop :=
| write_new :
    mp_tasks p !! me_taskId e = None -> st_version t' = 1 -> phase_of t' = Some Waiting -> task_write p e t'
| write_next t x x' :
    mp_tasks p !! me_taskId e = Some t -> st_taskGeneration t = me_taskGeneration e ->
    task_registration t' = task_registration t -> st_version t' = st_version t + 1 ->
    phase_of t = Some x -> phase_of t' = Some x' -> phase_next (me_payload e) x = Some x' -> task_write p e t'.

Lemma scheduled_write p e p' :
  sched_wf p -> scheduled p e p' ->
  p' = p \/ exists t', p' = withTask p e t' /\ st_taskId t' = me_taskId e /\ task_write p e t' /\ me_seq e = mp_headSeq p + 1.
Proof.
  intros Hwf [_|t' _ Hseq Hv Ht]; [by left|]. right. exists t'. split; [done|].
  apply scheduled_task_Ok in Ht as [(Hn & set & ids & pr & deps & prio & Hp & Hr)|(t & Hl & Hg & Hst)].
  - pose proof (sched_wf_head _ Hwf). destruct (registered_wf _ _ _ _ _ _ _ Hv Hp ltac:(lia) Hr) as (_ & Hver & Hph & Hid).
    split; [done|]. split; [by apply write_new|done].
  - apply scheduler_step_stepped in Hst; [|done]. pose proof (sched_tasks _ Hwf _ _ Hl) as Hw.
    pose proof (stepped_registration _ _ _ Hst) as Hreg. pose proof Hreg as Hid. injection Hid as -> _ _ _ _ _ _.
    split; [by apply Hw|]. split; [|done]. pose proof (sched_phase _ _ _ Hw) as Hp. destruct (phase_of t) as [x|] eqn:Ex; [|done].
    destruct (stepped_phase _ _ _ Hst x Ex) as (x' & Hx' & Hn). eapply write_next; try done. apply Hst.
Qed.

(** * Dependencies *)

Lemma dependency_completed_phase p d :
  sched_wf p -> dependency_completed p d = true <-> exists t, obj_get (mp_tasks p) d = Own t /\ phase_of t = Some Completed.
Proof.
  intros Hwf. unfold dependency_completed. destruct (obj_get (mp_tasks p) d) as [| |t] eqn:E; [split; [done|by intros (? & ? & _)]..|].
  rewrite bool_decide_eq_true. pose proof (sched_phase _ _ _ (sched_tasks _ Hwf _ _ (proj1 (obj_get_Own _ _ _) E))) as Hp.
  split; [|intros (? & [= <-] & Hx)].
  - intros Hs. exists t. split; [done|]. revert Hp. unfold phase_of. rewrite Hs. by destruct (st_lease t).
  - revert Hx. unfold phase_of. destruct (st_state t), (st_lease t) as [l|]; try done; by destruct (ls_state l).
Qed.

Lemma phase_next_completed b x' : phase_next b Completed = Some x' -> x' = Completed.
Proof. destruct b; cbn; congruence. Qed.

(** A completed task stays completed. *)
Lemma scheduled_completed p e p' d :
  sched_wf p -> scheduled p e p' -> dependency_completed p d = true -> dependency_completed p' d = true.
Proof.
  intros Hwf Hs. pose proof (scheduled_wf _ _ _ Hwf Hs) as Hwf'. rewrite !dependency_completed_phase by done.
  intros (t & Ht & Hx). destruct (scheduled_write _ _ _ Hwf Hs) as [->|(t' & -> & Hid & Hw & _)]; [by exists t|].
  apply obj_get_Own in Ht. destruct (decide (d = me_taskId e)) as [->|Hne].
  - exists t'. split; [apply obj_get_Own; cbn; by rewrite Hid, lookup_insert_eq|].
    destruct Hw as [Hn _ _|t0 x x' Hl _ _ _ H1 H2 H3]; [congruence|]. assert (t0 = t) as -> by congruence.
    assert (x = Completed) as -> by congruence. by rewrite (phase_next_completed _ _ H3) in H2.
  - exists t. split; [|done]. apply obj_get_Own. cbn. rewrite Hid. by rewrite lookup_insert_ne.
Qed.

(** * Histories whose grants come from the admission decision *)

(** Every grant was decided on the projection it is applied to, with these limits. *)
Inductive governed (limits : SchedulerConcurrencyLimits) : list MultiRepoSchedulerEventV1 -> MultiRepoSchedulerProjectionV1 -> Prop :=
| governed_nil : governed limits [] emptyMultiRepoSchedulerProjection
| governed_step events p e p' :
    governed limits events p -> applyMultiRepoSchedulerEvent p e = Ok p' ->
    (is_grant e = true -> exists i, ai_projection i = p /\ ai_limits i = limits /\ decideSchedulerAdmission i = Ok (inr e)) ->
    governed limits (events ++ [e]) p'.

Lemma governed_reduces limits events p : governed limits events p -> reduceMultiRepoSchedulerEvents events = Ok p.
Proof.
  induction 1 as [|events p e p' _ IH Ha _]; [done|]. unfold reduceMultiRepoSchedulerEvents in *.
  rewrite fold_result_app, IH. cbn. by rewrite Ha.
Qed.

Lemma governed_wf limits events p : governed limits events p -> sched_wf p.
Proof. intros H. eapply reachable_sched_wf, governed_reduces, H. Qed.

(** One induction for all four limits. *)
Lemma governed_count limits f limit events p :
  claim_test f -> 0 <= limit ->
  (forall i t e, ai_limits i = limits -> admitted_ok i t e ->
     forall lease, me_payload e = scheduler_lease_granted (st_version t) lease ->
     f {| ls_fields := lease; ls_state := lease_admitted; ls_processIdentity := None; ls_uncertainReason := None |} = true ->
     count f (live_leases (ai_projection i)) < limit) ->
  governed limits events p -> count f (live_leases p) <= limit.
Proof.
  intros Hf Hl Hadm H. induction H as [|events p e p' Hg IH Ha Hgrant]; [done|].
  pose proof (governed_wf _ _ _ Hg) as Hwf. apply applyMultiRepoSchedulerEvent_scheduled in Ha.
  destruct (is_grant e) eqn:Eg; [|pose proof (count_no_grant f p e p' Hwf Hf Eg Ha); lia].
  destruct (Hgrant eq_refl) as (i & <- & Hi & Hd). apply decideSchedulerAdmission_Ok in Hd as (t & Hok).
  destruct (admitted_event _ _ _ Hok) as [He _].
  assert (exists lease, me_payload e = scheduler_lease_granted (st_version t) lease) as (lease & Hp) by (rewrite He; by eexists).
  destruct (grant_leases _ _ _ _ _ Hwf Hp Ha) as [->| ->]; [done|]. rewrite count_cons.
  destruct (f _) eqn:Ef; [|lia]. pose proof (Hadm i t e Hi Hok lease Hp Ef). lia.
Qed.

Definition limits_valid (limits : SchedulerConcurrencyLimits) : bool :=
  limit_valid (cl_global limits) && limit_valid (cl_perProvider limits) && limit_valid (cl_perRepository limits) && limit_valid (cl_perTask limits).

Lemma limit_valid_nonneg n : limit_valid n = true -> 0 <= n.
Proof. unfold limit_valid. rewrite !andb_true_iff, !Z.leb_le. lia. Qed.

Lemma governed_counts limits events p :
  limits_valid limits = true -> governed limits events p ->
  let leases := live_leases p in
  Z.of_nat (length leases) <= cl_global limits /\
  (forall provider, count (fun l => bool_decide (lease_provider l = provider)) leases <= cl_perProvider limits) /\
  (forall id, count (lease_covers id) leases <= cl_perRepository limits) /\
  (forall attempt, count (fun l => bool_decide (lease_attempt l = attempt)) leases <= cl_perTask limits).
Proof.
  unfold limits_valid. rewrite !andb_true_iff. intros (((H1 & H2) & H3) & H4) H.
  apply limit_valid_nonneg in H1, H2, H3, H4. cbv zeta. rewrite <-count_true.
  split_and!; [|intros x..]; (eapply governed_count; [|lia| |exact H]; [try done|]).
  - intros i t e <- [_ _ _ _ _ _ Hc _] _ _ _. apply capacity_free in Hc as (Hc & _). by rewrite count_true.
  - intros l l' Hll. by injection Hll as -> _ _.
  - intros i t e <- [[-> _] _ _ _ _ _ Hc _] lease [= <-] Hx. apply bool_decide_eq_true in Hx. cbn in Hx.
    apply capacity_free in Hc as (_ & Hc & _). by rewrite Hx in Hc.
  - intros l l' Hll. unfold lease_covers. by injection Hll as _ _ ->.
  - intros i t e <- [[-> _] _ _ _ _ _ Hc _] lease [= <-] Hx. apply bool_decide_eq_true in Hx. cbn in Hx.
    apply capacity_free in Hc as (_ & _ & Hc & _). by apply Hc.
  - intros l l' Hll. by injection Hll as _ -> _.
  - intros i t e <- [[-> _] _ _ _ _ _ Hc _] lease [= <-] Hx. apply bool_decide_eq_true in Hx. cbn in Hx.
    apply capacity_free in Hc as (_ & _ & _ & Hc). by rewrite Hx in Hc.
Qed.

(** A task that left the state [waiting] by a lease has its dependencies done. *)
Definition phase_began (x : SchedulerPhase) : bool := match x with Waiting | Cancelled => false | _ => true end.

Definition began (t : SchedulerTaskProjectionV1) : bool := match phase_of t with Some x => phase_began x | None => false end.

Lemma phase_next_began b x x' :
  phase_next b x = Some x' -> phase_began x' = true -> (exists v lease, b = scheduler_lease_granted v lease) \/ phase_began x = true.
Proof. destruct b, x; cbn; try done; try (intros [= <-]; cbn; naive_solver); repeat case_bool_decide; naive_solver. Qed.

Lemma governed_dependencies limits events p :
  governed limits events p -> forall id t d, mp_tasks p !! id = Some t -> began t = true -> d ∈ st_dependencies t -> dependency_completed p d = true.
Proof.
  induction 1 as [|events p e p' Hg IH Ha Hgrant]; [intros id t d Ht; cbn in Ht; by rewrite lookup_empty in Ht|].
  intros id t d. pose proof (governed_wf _ _ _ Hg) as Hwf. apply applyMultiRepoSchedulerEvent_scheduled in Ha.
  pose proof (scheduled_completed _ _ _ d Hwf Ha) as Hkeep.
  destruct (scheduled_write _ _ _ Hwf Ha) as [->|(t' & -> & Hid & Hw & _)]; [apply IH|].
  intros Ht. cbn [withTask mp_tasks] in Ht. apply lookup_insert_Some in Ht as [[<- <-]|[_ Ht]]; [|intros Hb Hd; by eapply Hkeep, IH].
  intros Hb Hd. apply Hkeep. destruct Hw as [_ _ Hx|t x x' Hl Hgen Hreg _ Hx Hx' Hn]; [unfold began in Hb; by rewrite Hx in Hb|].
  unfold began in Hb. rewrite Hx' in Hb. injection Hreg as _ _ _ _ _ Hdeps _. rewrite Hdeps in Hd.
  destruct (phase_next_began _ _ _ Hn Hb) as [(v & lease & Hp)|Hb0]; [|eapply IH; [exact Hl| |exact Hd]; unfold began; by rewrite Hx].
  destruct Hgrant as (i & Hi & _ & Hdec); [unfold is_grant; by rewrite Hp|]. apply decideSchedulerAdmission_Ok in Hdec as (ta & Hok).
  pose proof (admitted_task _ _ _ Hok) as Hta. destruct (admitted_event _ _ _ Hok) as [-> _].
  destruct (admitted_state _ _ _ ltac:(by rewrite Hi) Hok) as [_ Hat]. cbn [admission_event me_taskId] in Hl. rewrite <-Hat, <-Hi in *.
  assert (ta = t) as -> by congruence. by apply (admitted_dependencies _ _ _ Hok).
Qed.

(** * Events applied once *)

Lemma history_seen events p :
  reduceMultiRepoSchedulerEvents events = Ok p -> dom (mp_seenEventIds p) = list_to_set (List.map me_eventId events).
Proof.
  unfold reduceMultiRepoSchedulerEvents. revert p. induction events as [|e events IH] using rev_ind; intros p; [intros [= <-]; apply dom_empty_L|].
  rewrite fold_result_app. intros (q & Hq & H)%bind_Ok. cbn [fold_result] in H. apply bind_Ok in H as (q' & Ha & [= <-]).
  rewrite map_app, list_to_set_app_L, <-(IH _ Hq). clear IH. cbn [List.map list_to_set].
  apply applyMultiRepoSchedulerEvent_scheduled in Ha as [Hs|t' _ _ _ _].
  - apply elem_of_dom_2, singleton_subseteq_l in Hs. rewrite union_empty_r_L, union_comm_L. symmetry. by apply subseteq_union_1_L.
  - cbn [withTask mp_seenEventIds]. by rewrite dom_insert_L, union_empty_r_L, union_comm_L.
Qed.

(** Replaying events the history holds changes nothing. *)
Lemma replay events p again :
  reduceMultiRepoSchedulerEvents events = Ok p -> (forall e, e ∈ again -> e ∈ events) ->
  fold_result applyMultiRepoSchedulerEvent p again = Ok p.
Proof.
  intros Hr Hin. induction again as [|e again IH]; [done|]. cbn [fold_result].
  destruct (fold_seen _ _ _ Hr) as [_ Hs]. destruct (Hs e) as [Hd Hv]; [apply Hin, list_elem_of_here|].
  rewrite apply_seen by done. cbn. apply IH. intros e' He'. apply Hin. by apply list_elem_of_further.
Qed.

(** * The decisions are events the reducer accepts *)

Lemma apply_new p e t' :
  MultiRepoSchedulerEventV1Schema e = true -> obj_get (mp_seenEventIds p) (me_eventId e) = Absent -> me_seq e = mp_headSeq p + 1 ->
  scheduled_task p e = Ok t' -> applyMultiRepoSchedulerEvent p e = Ok (withTask p e t').
Proof.
  intros Hv Ha Hs Ht. unfold applyMultiRepoSchedulerEvent, parseMultiRepoSchedulerEvent. rewrite Hv, Ha, Ht.
  by rewrite Hs, Z.eqb_refl.
Qed.

(** An event for a registered task goes through the [switch]. *)
Lemma scheduled_task_step p e t :
  mp_tasks p !! me_taskId e = Some t -> st_taskGeneration t = me_taskGeneration e ->
  (match me_payload e with scheduler_task_registered _ _ _ _ _ => False | _ => True end) ->
  scheduled_task p e = scheduler_step t e.
Proof.
  intros Hl Hg Hp. unfold scheduled_task, requireTask. rewrite (proj2 (obj_get_Own _ _ _) Hl), Hg, Z.eqb_refl.
  by destruct (me_payload e).
Qed.

Lemma admission_accepted i t e :
  sched_wf (ai_projection i) -> admitted_ok i t e ->
  obj_get (mp_seenEventIds (ai_projection i)) (al_eventId (ai_lease i)) = Absent ->
  time_lt (Date_parse (al_issuedAt (ai_lease i))) (Date_parse (al_expiresAt (ai_lease i))) = true ->
  exists t', applyMultiRepoSchedulerEvent (ai_projection i) e = Ok (withTask (ai_projection i) e t') /\ st_taskId t' = ai_taskId i /\
    phase_of t' = Some (Leased (al_leaseToken (ai_lease i)) false).
Proof.
  intros Hwf Hok Hn Hw. destruct (admitted_state _ _ _ Hwf Hok) as [Hst Hid]. pose proof (admitted_task _ _ _ Hok) as Ht.
  destruct (admitted_event _ _ _ Hok) as [-> Hv]. destruct (admitted_waiting _ _ _ Hok) as [Hnl _].
  eexists. split; [apply apply_new; try done|].
  - rewrite (scheduled_task_step _ _ t); [|by cbn; rewrite Hid|done|done].
    unfold scheduler_step. cbn [admission_event me_payload me_seq]. unfold requireVersion. rewrite Z.eqb_refl, Hnl, Hst. cbn [lf_repositorySetId lf_providerId lf_repositoryIds lf_issuedAt lf_expiresAt].
    rewrite !bool_decide_eq_true_2 by done. by rewrite (time_lt_not_le _ _ Hw).
  - by split.
Qed.

(** What happens to an expired lease. *)
Definition reclaimed (status : OwnerStatus) (l : SchedulerLeaseV1) : SchedulerPhase :=
  match status, ls_state l with
  | owner_dead, lease_admitted => Waiting
  | _, _ => Uncertain (lf_leaseToken (ls_fields l))
  end.

(** The lease the decision acts on. *)
Definition expired_lease (p : MultiRepoSchedulerProjectionV1) (taskId now : string) : option (SchedulerTaskProjectionV1 * SchedulerLeaseV1) :=
  match obj_get (mp_tasks p) taskId with
  | Own t =>
      match st_lease t with
      | Some l =>
          if time_lt (Date_parse now) (Date_parse (lf_expiresAt (ls_fields l))) || bool_decide (ls_state l = lease_uncertain) then None
          else Some (t, l)
      | None => None
      end
  | _ => None
  end.

Lemma expired_lease_Some p taskId now t l :
  expired_lease p taskId now = Some (t, l) ->
  mp_tasks p !! taskId = Some t /\ st_lease t = Some l /\ time_lt (Date_parse now) (Date_parse (lf_expiresAt (ls_fields l))) = false /\
  ls_state l <> lease_uncertain.
Proof.
  unfold expired_lease. destruct (obj_get (mp_tasks p) taskId) as [| |t0] eqn:Et; [done..|]. apply obj_get_Own in Et.
  destruct (st_lease t0) as [l0|] eqn:Hl; [|done]. destruct (time_lt _ _ || _) eqn:Ex; [done|]. intros [= <- <-].
  by apply orb_false_iff in Ex as [? ?%bool_decide_eq_false].
Qed.

Definition expiry_payload (status : OwnerStatus) (t : SchedulerTaskProjectionV1) (l : SchedulerLeaseV1) : SchedulerPayload :=
  let token := lf_leaseToken (ls_fields l) in
  match reclaimed status l with
  | Waiting => scheduler_lease_released (st_version t) token released_retry (expiry_evidence token)
  | _ => scheduler_lease_uncertain (st_version t) token (match status with owner_alive => EXPIRED_OWNER_ALIVE | _ => OWNER_UNKNOWN end)
  end.

Lemma decideExpiredLease_eq p taskId now status eventId occurredAt :
  decideExpiredLease p taskId now status eventId occurredAt =
  match expired_lease p taskId now with
  | None => Ok None
  | Some (t, l) =>
      match parseMultiRepoSchedulerEvent (expired_event p t eventId occurredAt (expiry_payload status t l)) with
      | Some e => Ok (Some e)
      | None => Err tt
      end
  end.
Proof.
  unfold decideExpiredLease, expired_lease, expiry_payload, reclaimed. destruct (obj_get _ _) as [| |t]; [done..|].
  destruct (st_lease t) as [l|]; [|done]. destruct (time_lt _ _ || _); [done|]. destruct status, (ls_state l); reflexivity.
Qed.

Lemma expired_step t e status l :
  isSome (phase_of t) = true -> st_lease t = Some l -> ls_state l <> lease_uncertain -> me_payload e = expiry_payload status t l ->
  exists t', scheduler_step t e = Ok t' /\ st_taskId t' = st_taskId t /\ phase_of t' = Some (reclaimed status l).
Proof.
  intros Hp Hl Hu He. unfold scheduler_step. rewrite He. unfold expiry_payload.
  assert (lease_of_token t (lf_leaseToken (ls_fields l)) = Some l) as Htok by (unfold lease_of_token; by rewrite Hl, bool_decide_eq_true_2).
  destruct (reclaimed status l) eqn:Er; unfold reclaimed in Er; destruct status, (ls_state l) eqn:Es; try done; try injection Er as <-.
  all: unfold requireVersion; rewrite Z.eqb_refl, Htok; cbn; rewrite ?Es; cbn; by eexists.
Qed.

Lemma expired_accepted p taskId now status eventId occurredAt e :
  sched_wf p -> obj_get (mp_seenEventIds p) eventId = Absent ->
  decideExpiredLease p taskId now status eventId occurredAt = Ok (Some e) ->
  exists t l t', expired_lease p taskId now = Some (t, l) /\ applyMultiRepoSchedulerEvent p e = Ok (withTask p e t') /\
    st_taskId t' = taskId /\ phase_of t' = Some (reclaimed status l).
Proof.
  intros Hwf Hn. rewrite decideExpiredLease_eq. destruct (expired_lease p taskId now) as [[t l]|] eqn:El; [|done].
  destruct (parseMultiRepoSchedulerEvent _) as [e'|] eqn:Ep; [|done]. intros [= ->]. apply parse_Some in Ep as [-> Hv].
  exists t, l. destruct (expired_lease_Some _ _ _ _ _ El) as (Et & Hl & _ & Hu). pose proof (sched_tasks _ Hwf _ _ Et) as Hw.
  destruct (expired_step t (expired_event p t eventId occurredAt (expiry_payload status t l)) status l) as (t' & Hs & Hid & Hph);
    [by apply Hw|done..|].
  exists t'. split; [done|]. rewrite Hid, (sched_keyed _ _ _ Hw). split; [|done]. apply apply_new; try done.
  rewrite (scheduled_task_step _ _ t); [done|cbn; by rewrite (sched_keyed _ _ _ Hw)|done|]. cbn. unfold expiry_payload. by destruct (reclaimed status l).
Qed.

(** * Fairness *)

Context {C : Collation}.

Lemma reconcilable_since p id t :
  sched_wf p -> mp_tasks p !! id = Some t -> reconcilable t = true ->
  exists s, st_dirtySinceSeq t = Some s /\ 1 <= s <= mp_headSeq p /\ -1000 <= st_priority t <= 1000.
Proof.
  intros Hwf Ht Hr. pose proof (sched_tasks _ Hwf _ _ Ht) as Hw. unfold reconcilable in Hr.
  rewrite (sched_dirty _ _ _ Hw) in Hr. destruct (st_dirtySinceSeq t) as [s|] eqn:Es; [|done].
  exists s. split; [done|]. split; [by eapply sched_since|]. by apply (sched_scalars _ _ _ Hw).
Qed.

(** What being placed first means, in sequence numbers. *)
Lemma urgency_waits p c t sc st :
  st_dirtySinceSeq c = Some sc -> st_dirtySinceSeq t = Some st -> by_urgency p c t <= 0 ->
  -1000 <= st_priority t -> st_priority c <= 1000 ->
  (st_priority c <= st_priority t -> sc <= st) /\ (65536 <= mp_headSeq p - st -> sc <= st \/ 1568 <= mp_headSeq p - sc).
Proof.
  unfold by_urgency, effective_priority, aging_boost, maximumAgingBoost, agingIntervalSeq. intros -> ->. cbn [from_option]. unfold Datatypes.id.
  set (wc := mp_headSeq p - sc). set (wt := mp_headSeq p - st).
  pose proof (Z.div_mod wc 32 ltac:(lia)). pose proof (Z.div_mod wt 32 ltac:(lia)).
  pose proof (Z.mod_pos_bound wc 32 ltac:(lia)). pose proof (Z.mod_pos_bound wt 32 ltac:(lia)).
  destruct (Z.eqb_spec (st_priority t + Z.min 2048 (wt / 32) - (st_priority c + Z.min 2048 (wc / 32))) 0) as [E|E]; cbn [negb].
  - destruct (Z.eqb_spec (sc - st) 0) as [E'|E']; cbn [negb]; intros Hle Ht Hc; unfold wc, wt in *; split; lia.
  - intros Hle Ht Hc. split; intros H'; unfold wc, wt in *; lia.
Qed.
End history.
