(* ===== verification/Domain.v ===== *)
(** Domain: the repositories of a multi-repository run and the sets of them a
    task may touch (src/multirepo/domain.ts). Then what the repository registry and the repository sets of
    src/multirepo/domain.ts keep to. *)
From S2P Require Import Prelude Text Json Ids ScmTypes.

(** * Limits *)

Definition maximumRepositories : Z := 64.
Definition maximumRepositoriesPerTask : Z := 32.
Definition maximumTasks : Z := 4096.
Definition maximumDependencies : Z := 16384.
Definition maximumDependenciesPerTask : Z := 256.
Definition maximumGraphDepth : Z := 256.
Definition maximumRefBytes : Z := 512.
Definition maximumPathBytes : Z := 4096.

(** * Data *)

Record RepositoryDefinitionV1 := {
  rd_repositoryId : string;
  rd_configuredPath : text;
  rd_defaultBranch : text;
  rd_protectedBranches : list text
}.

Record RepositoryIdentityV1 := {
  ri_repositoryId : string;
  ri_canonicalRoot : text;
  ri_rootDevice : Z;
  ri_rootInode : Z;
  ri_gitCommonDirDevice : Z;
  ri_gitCommonDirInode : Z;
  ri_defaultBranch : text;
  ri_protectedBranches : list text
}.

Record RepositoryIdentityProbe := {
  rp_canonicalRoot : text;
  rp_rootDevice : Z;
  rp_rootInode : Z;
  rp_gitCommonDirDevice : Z;
  rp_gitCommonDirInode : Z
}.

(** [None] is a resolver that throws. *)
Definition RepositoryIdentityResolver : Type := RepositoryDefinitionV1 -> option RepositoryIdentityProbe.

Definition RepositoryRegistryV1 : Type := list RepositoryIdentityV1.

Record RepositorySetV1 := { rs_repositoryIds : list string; rs_repositorySetId : string }.

Inductive MultiRepositoryDomainErrorCode :=
| INVALID_REPOSITORY | DUPLICATE_REPOSITORY | PHYSICAL_ALIAS | NESTED_REPOSITORY | UNKNOWN_REPOSITORY | INVALID_REPOSITORY_SET | SCOPE_EXCEEDED.

Abbreviation domain := (result MultiRepositoryDomainErrorCode).

(** * Schemas *)

(** [forbiddenRefScalars] *)
Definition forbiddenRefScalars : list Z := [126; 94; 58; 63; 42; 91; 93; 92].

Definition GitRef (value : text) : bool :=
  between 1 maximumRefBytes (textlen value)
  && negb (startsWith [45] value) && negb (startsWith [47] value) && negb (endsWith [47] value) && negb (endsWith [46] value)
  && negb (includes [46; 46] value) && negb (includes [64; 123] value)
  && negb (existsb (fun c => between 0 32 c || (c =? 127)) value)
  && negb (existsb (fun c => bool_decide (c ∈ forbiddenRefScalars)) value).

Definition RepositoryDefinitionV1Schema (d : RepositoryDefinitionV1) : bool :=
  isValidId d.(rd_repositoryId) && between 1 maximumPathBytes (textlen d.(rd_configuredPath)) && GitRef d.(rd_defaultBranch)
  && forallb GitRef d.(rd_protectedBranches) && at_most 64 d.(rd_protectedBranches) && unique d.(rd_protectedBranches).

Definition RepositoryIdentityV1Schema (i : RepositoryIdentityV1) : bool :=
  isValidId i.(ri_repositoryId) && between 1 maximumPathBytes (textlen i.(ri_canonicalRoot))
  && nonNegative i.(ri_rootDevice) && positive i.(ri_rootInode) && nonNegative i.(ri_gitCommonDirDevice) && positive i.(ri_gitCommonDirInode)
  && GitRef i.(ri_defaultBranch) && forallb GitRef i.(ri_protectedBranches) && at_most 64 i.(ri_protectedBranches).

(** * Paths, as node:path has them on POSIX *)

Definition isAbsolute (path : text) : bool := startsWith [47] path.

(** [normalizeString]: empty and [.] segments go, [..] removes one. *)
Definition normal_segments (path : text) : list text :=
  fold_left (fun acc segment =>
    if bool_decide (segment = []) || bool_decide (segment = [46]) then acc
    else if bool_decide (segment = [46; 46]) then take (length acc - 1) acc
    else acc ++ [segment]) (split 47 path) [].

(** [resolve(path)] of an absolute path. *)
Definition resolve (path : text) : text := 47 :: unsplit 47 (normal_segments path).

(** How many leading segments two paths share. *)
Fixpoint common_prefix (a b : list text) : nat :=
  match a, b with
  | x :: a', y :: b' => if bool_decide (x = y) then S (common_prefix a' b') else O
  | _, _ => O
  end.

(** [relative(from, to)] of absolute paths. *)
Definition relative (from to : text) : text :=
  let a := normal_segments from in
  let b := normal_segments to in
  let n := common_prefix a b in
  match repeat [46; 46] (length a - n) ++ drop n b with
  | [] => []
  | parts => unsplit 47 parts
  end.

Definition isNested (left right : text) : bool :=
  let relation := relative left right in
  negb (bool_decide (relation = [])) && negb (bool_decide (relation = [46])) && negb (startsWith [46; 46] relation) && negb (isAbsolute relation).

(** * The registry *)

Definition physicalKey (device inode : Z) : string := num_to_string device +:+ ":" +:+ num_to_string inode.

(** The state of the loop over the definitions. *)
Record RegistryState := {
  rg_identities : list RepositoryIdentityV1;
  rg_ids : gset string;
  rg_rootIdentities : gset string;
  rg_commonDirIdentities : gset string
}.

Definition candidate (d : RepositoryDefinitionV1) (probe : RepositoryIdentityProbe) : RepositoryIdentityV1 := {|
  ri_repositoryId := d.(rd_repositoryId); ri_canonicalRoot := resolve probe.(rp_canonicalRoot);
  ri_rootDevice := probe.(rp_rootDevice); ri_rootInode := probe.(rp_rootInode);
  ri_gitCommonDirDevice := probe.(rp_gitCommonDirDevice); ri_gitCommonDirInode := probe.(rp_gitCommonDirInode);
  ri_defaultBranch := d.(rd_defaultBranch); ri_protectedBranches := d.(rd_protectedBranches) |}.

Definition root_key (i : RepositoryIdentityV1) : string := physicalKey i.(ri_rootDevice) i.(ri_rootInode).
Definition common_key (i : RepositoryIdentityV1) : string := physicalKey i.(ri_gitCommonDirDevice) i.(ri_gitCommonDirInode).

Definition nested_with (i j : RepositoryIdentityV1) : bool :=
  isNested j.(ri_canonicalRoot) i.(ri_canonicalRoot) || isNested i.(ri_canonicalRoot) j.(ri_canonicalRoot).

(** The body of the loop. *)
Definition register_repository (resolveIdentity : RepositoryIdentityResolver) (s : RegistryState) (d : RepositoryDefinitionV1) : domain RegistryState :=
  ensure (RepositoryDefinitionV1Schema d) INVALID_REPOSITORY ;;
  ensure (negb (bool_decide (d.(rd_repositoryId) ∈ s.(rg_ids)))) DUPLICATE_REPOSITORY ;;
  match resolveIdentity d with
  | None => Err INVALID_REPOSITORY
  | Some probe =>
      let i := candidate d probe in
      ensure (RepositoryIdentityV1Schema i && isAbsolute probe.(rp_canonicalRoot)) INVALID_REPOSITORY ;;
      ensure (negb (bool_decide (root_key i ∈ s.(rg_rootIdentities)) || bool_decide (common_key i ∈ s.(rg_commonDirIdentities))
                    || existsb (fun item => bool_decide (item.(ri_canonicalRoot) = i.(ri_canonicalRoot))) s.(rg_identities))) PHYSICAL_ALIAS ;;
      ensure (negb (existsb (nested_with i) s.(rg_identities))) NESTED_REPOSITORY ;;
      Ok {| rg_identities := s.(rg_identities) ++ [i]; rg_ids := {[ d.(rd_repositoryId) ]} ∪ s.(rg_ids);
            rg_rootIdentities := {[ root_key i ]} ∪ s.(rg_rootIdentities); rg_commonDirIdentities := {[ common_key i ]} ∪ s.(rg_commonDirIdentities) |}
  end.

Section domain.
Context {D : Digest} {C : Collation}.

Definition by_repositoryId (l r : RepositoryIdentityV1) : Z := localeCompare l.(ri_repositoryId) r.(ri_repositoryId).

Definition materializeRepositoryRegistry (definitions : list RepositoryDefinitionV1) (resolveIdentity : RepositoryIdentityResolver)
    : domain RepositoryRegistryV1 :=
  ensure (negb (bool_decide (definitions = [])) && at_most maximumRepositories definitions) INVALID_REPOSITORY ;;
  s ← fold_result (register_repository resolveIdentity) {| rg_identities := []; rg_ids := ∅; rg_rootIdentities := ∅; rg_commonDirIdentities := ∅ |} definitions;
  Ok (js_sort by_repositoryId s.(rg_identities)).

(** * Repository sets *)

(** The default order of [sort()] is that of the UTF-16 units. *)
Definition repositorySetPayload (identities : list RepositoryIdentityV1) : text :=
  render (jlist (fun item => JArray [jstr item.(ri_repositoryId); JString item.(ri_defaultBranch);
    JArray (List.map JString (js_sort text_compare item.(ri_protectedBranches)))]) identities).

(** [new Map(registry.repositories.map(...)).get(id)]: the last entry of an id wins. *)
Definition repository_of (registry : RepositoryRegistryV1) (id : string) : option RepositoryIdentityV1 :=
  List.find (fun item => bool_decide (item.(ri_repositoryId) = id)) (rev registry).

Definition select_repository (registry : RepositoryRegistryV1) (id : string) : domain RepositoryIdentityV1 :=
  ensure (isValidId id) INVALID_REPOSITORY_SET ;;
  match repository_of registry id with Some i => Ok i | None => Err UNKNOWN_REPOSITORY end.

Definition repository_set_text (identities : list RepositoryIdentityV1) : text :=
  text_of_string "relayforge-repository-set-v1" ++ [0] ++ repositorySetPayload identities.

Definition materializeRepositorySet (registry : RepositoryRegistryV1) (repositoryIds : list string) : domain RepositorySetV1 :=
  ensure (negb (bool_decide (repositoryIds = [])) && at_most maximumRepositoriesPerTask repositoryIds && unique repositoryIds) INVALID_REPOSITORY_SET ;;
  selected ← map_result (select_repository registry) repositoryIds;
  Ok {| rs_repositoryIds := repositoryIds; rs_repositorySetId := sha256Text (repository_set_text selected) |}.

Definition assertRepositoryScope (requested : RepositorySetV1) (role provider : list string) : domain unit :=
  fold_result (fun _ id => ensure (bool_decide (id ∈ role) && bool_decide (id ∈ provider)) SCOPE_EXCEEDED) tt requested.(rs_repositoryIds).
End domain.

(** * Facts *)

(** * Paths *)

(** A segment that survives normalisation. *)
Definition plain_segment (segment : text) : Prop := segment <> [] /\ segment <> [46] /\ segment <> [46; 46] /\ 47 ∉ segment.

Definition normalise (acc : list text) (parts : list text) : list text :=
  fold_left (fun acc segment =>
    if bool_decide (segment = []) || bool_decide (segment = [46]) then acc
    else if bool_decide (segment = [46; 46]) then take (length acc - 1) acc
    else acc ++ [segment]) parts acc.

Lemma normalise_plain acc parts : Forall plain_segment acc -> Forall (fun part => 47 ∉ part) parts -> Forall plain_segment (normalise acc parts).
Proof.
  intros Ha Hp; revert acc Ha; induction Hp as [|part parts Hn _ IH]; intros acc Ha; [done|]. unfold normalise in *. cbn [fold_left]. apply IH.
  repeat case_bool_decide; cbn; try done; [by apply Forall_take|]. apply Forall_app. split; [done|]. by repeat constructor.
Qed.

Lemma normalise_id acc parts : Forall plain_segment parts -> normalise acc parts = acc ++ parts.
Proof.
  intros Hp; revert acc; induction Hp as [|part parts (H1 & H2 & H3 & _) _ IH]; intros acc; [by rewrite app_nil_r|].
  unfold normalise in *. cbn [fold_left]. rewrite !bool_decide_eq_false_2 by done. cbn. rewrite IH. by rewrite <-app_assoc.
Qed.

Lemma normal_segments_plain path : Forall plain_segment (normal_segments path).
Proof. apply (normalise_plain []); [constructor|]. apply Forall_forall. apply split_parts. Qed.

Lemma normal_segments_resolve path : normal_segments (resolve path) = normal_segments path.
Proof.
  pose proof (normal_segments_plain path) as Hp. unfold resolve. generalize dependent (normal_segments path). intros segs Hp.
  unfold normal_segments. change (47 :: unsplit 47 segs) with ([] ++ 47 :: unsplit 47 segs).
  rewrite split_app_sep by apply not_elem_of_nil. destruct segs as [|seg segs]; [done|].
  rewrite split_unsplit; [|done|].
  - exact (normalise_id [] _ Hp).
  - intros part Hin. rewrite Forall_forall in Hp. by apply Hp.
Qed.

Lemma common_prefix_spec a b : exists p a' b', a = p ++ a' /\ b = p ++ b' /\ common_prefix a b = length p /\ (a' = [] \/ b' = [] \/ head a' <> head b').
Proof.
  revert b; induction a as [|x a IH]; intros [|y b]; cbn.
  - exists [], [], []. split_and!; auto.
  - exists [], [], (y :: b). split_and!; auto.
  - exists [], (x :: a), []. split_and!; auto.
  - case_bool_decide as E.
    + subst y. destruct (IH b) as (p & a' & b' & -> & -> & -> & H). by exists (x :: p), a', b'.
    + exists [], (x :: a), (y :: b). cbn. split_and!; try done. right. right. congruence.
Qed.

(** The relative path starts like its first segment. *)
Lemma starts_dotdot segment rest : plain_segment segment ->
  startsWith [46; 46] (unsplit 47 (segment :: rest)) = startsWith [46; 46] segment.
Proof.
  intros (H & _). destruct rest as [|part rest]; [done|]. rewrite unsplit_cons by done.
  destruct segment as [|c [|d segment]]; [done| |done]. cbn. by destruct (c =? 46).
Qed.

Lemma relation_proper segment rest : plain_segment segment ->
  let relation := unsplit 47 (segment :: rest) in relation <> [] /\ relation <> [46] /\ isAbsolute relation = false.
Proof.
  intros (H1 & H2 & _ & H4). cbv zeta. destruct segment as [|c segment]; [done|]. apply not_elem_of_cons in H4 as [H4 _]. unfold isAbsolute.
  destruct rest as [|part rest]; [|rewrite unsplit_cons by done]; cbn [app startsWith]; (split; [done|]); split.
  - done.
  - cbn [unsplit startsWith]. by rewrite (proj2 (Z.eqb_neq 47 c)).
  - intros [= -> H]. by destruct segment.
  - by rewrite (proj2 (Z.eqb_neq 47 c)).
Qed.

(** One root lies under another unless the first segment below starts with two dots. *)
Lemma isNested_spec left right :
  isNested left right = true <->
  exists segment rest, normal_segments right = normal_segments left ++ segment :: rest /\ startsWith [46; 46] segment = false.
Proof.
  unfold isNested, relative. pose proof (normal_segments_plain right) as Hr.
  destruct (common_prefix_spec (normal_segments left) (normal_segments right)) as (p & a & b & Ha & Hb & -> & Hab).
  rewrite Ha, Hb in *. rewrite length_app, drop_app_length. replace (length p + length a - length p)%nat with (length a) by lia.
  apply Forall_app in Hr as [_ Hr]. destruct a as [|x a]; cbn [repeat length app].
  - rewrite app_nil_r. destruct b as [|seg rest].
    + cbn. split; [done|]. intros (? & ? & H & _). rewrite app_nil_r in H. apply (f_equal length) in H. rewrite length_app in H. cbn in H. lia.
    + inversion_clear Hr as [|? ? Hseg _]. transitivity (startsWith [46; 46] seg = false).
      * rewrite starts_dotdot by done. destruct (relation_proper seg rest) as (E1 & E2 & E3); [done|].
        rewrite E3, !bool_decide_eq_false_2 by done. cbn. by rewrite andb_true_r, negb_true_iff.
      * split; [by exists seg, rest|]. by intros (? & ? & [= <- <-]%app_inv_head & ?).
  - assert (forall parts, startsWith [46; 46] (unsplit 47 ([46; 46] :: parts)) = true) as E by (by intros []).
    rewrite E. cbn [negb]. rewrite !andb_false_r. split; [done|]. intros (segment & rest & H & _). exfalso.
    rewrite <-app_assoc in H. apply app_inv_head in H as ->. destruct Hab as [?|[?|?]]; done.
Qed.

(** A directory whose name starts with two dots escapes the nesting check. *)
Lemma dotted_child_not_nested : isNested (text_of_string "/repos/app") (text_of_string "/repos/app/..lib") = false.
Proof. by vm_compute. Qed.

(** * The registry *)

(** Two repositories that share nothing on disk. *)
Definition disjoint_repositories (i j : RepositoryIdentityV1) : Prop :=
  ri_repositoryId i <> ri_repositoryId j /\
  (ri_rootDevice i, ri_rootInode i) <> (ri_rootDevice j, ri_rootInode j) /\
  (ri_gitCommonDirDevice i, ri_gitCommonDirInode i) <> (ri_gitCommonDirDevice j, ri_gitCommonDirInode j) /\
  ri_canonicalRoot i <> ri_canonicalRoot j /\
  isNested (ri_canonicalRoot i) (ri_canonicalRoot j) = false /\ isNested (ri_canonicalRoot j) (ri_canonicalRoot i) = false.

#[export] Instance disjoint_repositories_sym : Symmetric disjoint_repositories.
Proof. intros i j. unfold disjoint_repositories. intuition congruence. Qed.

(** What the loop has checked so far. *)
Record registry_wf (resolveIdentity : RepositoryIdentityResolver) (definitions : list RepositoryDefinitionV1) (s : RegistryState) : Prop := {
  registry_ids : rg_ids s = list_to_set (List.map ri_repositoryId (rg_identities s));
  registry_roots : rg_rootIdentities s = list_to_set (List.map root_key (rg_identities s));
  registry_commons : rg_commonDirIdentities s = list_to_set (List.map common_key (rg_identities s));
  registry_items : Forall2 (fun d i => exists probe, resolveIdentity d = Some probe /\ i = candidate d probe /\
    isAbsolute (rp_canonicalRoot probe) = true /\ RepositoryIdentityV1Schema i = true) definitions (rg_identities s);
  registry_disjoint : ForallOrdPairs disjoint_repositories (rg_identities s)
}.

Lemma ForallOrdPairs_snoc {A} (R : A -> A -> Prop) l x : ForallOrdPairs R l -> Forall (fun y => R y x) l -> ForallOrdPairs R (l ++ [x]).
Proof.
  induction 1 as [|y l Hy Hl IH]; cbn; [repeat constructor|]. intros Hf. inversion_clear Hf. constructor; [|by apply IH].
  apply Forall_app. split; [done|]. by constructor.
Qed.

Lemma elem_of_keys {A} (f : A -> string) x l : f x ∉ (list_to_set (List.map f l) : gset string) -> Forall (fun y => f y <> f x) l.
Proof.
  intros H. apply Forall_forall. intros y Hy E. apply H. rewrite elem_of_list_to_set, <-E. by apply list_elem_of_In, in_map, list_elem_of_In.
Qed.

Lemma physicalKey_pair d i d' i' : (d, i) = (d', i') -> physicalKey d i = physicalKey d' i'.
Proof. by intros [= -> ->]. Qed.

Lemma register_repository_wf resolveIdentity definitions s d s' :
  registry_wf resolveIdentity definitions s -> register_repository resolveIdentity s d = Ok s' -> registry_wf resolveIdentity (definitions ++ [d]) s'.
Proof.
  intros [Hids Hroots Hcommons Hitems Hdis] H. unfold register_repository in H.
  apply bind_Ok in H as ([] & _ & H). apply bind_Ok in H as ([] & Hid%ensure_Ok%negb_true_iff%bool_decide_eq_false & H).
  destruct (resolveIdentity d) as [probe|] eqn:Ep; [|done]. apply bind_Ok in H as ([] & [Hv Habs]%ensure_Ok%andb_true_iff & H).
  apply bind_Ok in H as ([] & Ha%ensure_Ok%negb_true_iff & H). apply bind_Ok in H as ([] & Hn%ensure_Ok%negb_true_iff & [= <-]).
  rewrite !orb_false_iff, !bool_decide_eq_false in Ha. destruct Ha as ((Hr & Hc) & Hp).
  split; cbn [rg_ids rg_rootIdentities rg_commonDirIdentities rg_identities].
  - rewrite map_app, list_to_set_app_L, Hids. cbn. by rewrite union_empty_r_L, union_comm_L.
  - rewrite map_app, list_to_set_app_L, Hroots. cbn. by rewrite union_empty_r_L, union_comm_L.
  - rewrite map_app, list_to_set_app_L, Hcommons. cbn. by rewrite union_empty_r_L, union_comm_L.
  - apply Forall2_app; [done|]. constructor; [|constructor]. by exists probe.
  - apply ForallOrdPairs_snoc; [done|]. rewrite Hids in Hid. rewrite Hroots in Hr. rewrite Hcommons in Hc.
    apply (elem_of_keys ri_repositoryId (candidate d probe)) in Hid. apply elem_of_keys in Hr, Hc.
    rewrite !Forall_forall in *. intros i Hi. apply list_elem_of_In in Hi as Hin.
    apply not_true_iff_false in Hp, Hn. rewrite existsb_exists in Hp, Hn.
    assert (nested_with (candidate d probe) i = false) as [H1 H2]%orb_false_iff
      by (apply not_true_iff_false; intros Hx; apply Hn; by exists i).
    split_and!; try done.
    + by apply Hid.
    + intros E. by apply (Hr i Hi), physicalKey_pair.
    + intros E. by apply (Hc i Hi), physicalKey_pair.
    + intros E. apply Hp. exists i. split; [done|]. by apply bool_decide_eq_true.
Qed.

Section facts.
Context {D : Digest} {C : Collation}.

Lemma registry_state_wf resolveIdentity definitions s0 s done :
  registry_wf resolveIdentity done s0 -> fold_result (register_repository resolveIdentity) s0 definitions = Ok s ->
  registry_wf resolveIdentity (done ++ definitions) s.
Proof.
  revert s0 done. induction definitions as [|d definitions IH]; intros s0 processed Hwf; cbn [fold_result].
  - intros [= <-]. by rewrite app_nil_r.
  - intros (s1 & H1 & H)%bind_Ok. rewrite (app_assoc processed [d] definitions : processed ++ d :: definitions = _).
    eapply IH; [|exact H]. by eapply register_repository_wf.
Qed.

#[export] Instance by_repositoryId_comparator : Comparator by_repositoryId.
Proof. split; unfold by_repositoryId; intros; [by apply cmp_total|by eapply cmp_trans]. Qed.

Lemma registry_Ok definitions resolveIdentity registry :
  materializeRepositoryRegistry definitions resolveIdentity = Ok registry ->
  exists s, registry_wf resolveIdentity definitions s /\ registry = js_sort by_repositoryId (rg_identities s) /\
    definitions <> [] /\ at_most maximumRepositories definitions = true.
Proof.
  unfold materializeRepositoryRegistry. intros ([] & [Hne Hmax]%ensure_Ok%andb_true_iff & (s & Hs & [= <-])%bind_Ok)%bind_Ok.
  exists s. split; [|by apply negb_true_iff, bool_decide_eq_false in Hne]. eapply (registry_state_wf _ _ _ _ []); [|exact Hs].
  split; cbn; try done; constructor.
Qed.

Lemma ForallOrdPairs_distinct {A} (R : A -> A -> Prop) l x y : Symmetric R -> ForallOrdPairs R l -> x ∈ l -> y ∈ l -> x = y \/ R x y.
Proof.
  intros Hsym Hl Hx%list_elem_of_In Hy%list_elem_of_In. destruct (ForallOrdPairs_In Hl x y Hx Hy) as [?|[?|?]]; auto.
Qed.

(** * Repository sets *)

Lemma repository_of_Some registry id i : repository_of registry id = Some i -> i ∈ registry /\ ri_repositoryId i = id.
Proof.
  unfold repository_of. intros [Hin Hid]%find_some. apply bool_decide_eq_true in Hid. split; [|done].
  by apply list_elem_of_In, in_rev.
Qed.

(** What the digest of a set covers, of each repository. *)
Definition repository_policy (i : RepositoryIdentityV1) : string * text * list text :=
  (ri_repositoryId i, ri_defaultBranch i, js_sort text_compare (ri_protectedBranches i)).

Lemma repositorySetPayload_inj a b : repositorySetPayload a = repositorySetPayload b -> List.map repository_policy a = List.map repository_policy b.
Proof.
  unfold repositorySetPayload. intros H.
  match type of H with render ?x = render ?y => assert (printable x /\ printable y) as [Hx Hy] end.
  { split; constructor; apply Forall_forall; intros v; rewrite list_elem_of_In, in_map_iff; intros (i & <- & _); repeat constructor;
      apply Forall_forall; intros w; rewrite list_elem_of_In, in_map_iff; intros (t & <- & _); constructor. }
  apply (f_equal (fun t => t ++ [])) in H. apply (render_inj _ _ Hx Hy [] []) in H as [H _]; [|done..].
  injection H as H. revert b H Hx Hy. induction a as [|i a IH]; intros [|j b] H Hx Hy; try done. cbn in H. injection H as H1 H2 H3 H.
  cbn. f_equal.
  - unfold repository_policy. apply text_of_string_inj in H1. f_equal; [by f_equal|].
    revert H3. generalize (js_sort text_compare (ri_protectedBranches i)) (js_sort text_compare (ri_protectedBranches j)).
    induction l as [|t l IHl]; intros [|t' l'] E; try done. cbn in E. injection E as -> E. f_equal. by apply IHl.
  - inversion Hx as [| | | |? Hx'|]; inversion Hy as [| | | |? Hy'|]; subst. inversion Hx'; inversion Hy'; subst.
    apply IH; [done|by constructor..].
Qed.

Lemma repository_set_text_inj a b : repository_set_text a = repository_set_text b -> List.map repository_policy a = List.map repository_policy b.
Proof. unfold repository_set_text. intros H%app_inv_head%(app_inv_head [0]). by apply repositorySetPayload_inj. Qed.

Lemma materializeRepositorySet_Ok registry ids set :
  materializeRepositorySet registry ids = Ok set ->
  exists selected, Forall2 (fun id i => i ∈ registry /\ ri_repositoryId i = id /\ repository_of registry id = Some i) ids selected /\
    rs_repositoryIds set = ids /\ rs_repositorySetId set = sha256Text (repository_set_text selected) /\
    NoDup ids /\ ids <> [] /\ at_most maximumRepositoriesPerTask ids = true /\ Forall (fun id => isValidId id = true) ids.
Proof.
  unfold materializeRepositorySet. intros ([] & Hg%ensure_Ok & (selected & Hs & [= <-])%bind_Ok)%bind_Ok.
  rewrite !andb_true_iff, negb_true_iff, bool_decide_eq_false in Hg. destruct Hg as ((Hne & Hmax) & Hu). apply bool_decide_eq_true in Hu.
  exists selected. apply map_result_Ok in Hs.
  assert (Forall2 (fun id i => isValidId id = true /\ i ∈ registry /\ ri_repositoryId i = id /\ repository_of registry id = Some i) ids selected) as Hf.
  { eapply Forall2_impl; [exact Hs|]. intros id i. unfold select_repository. intros ([] & Hv%ensure_Ok & H)%bind_Ok.
    destruct (repository_of registry id) as [i'|] eqn:Er; [|done]. injection H as ->. split; [done|].
    destruct (repository_of_Some _ _ _ Er). done. }
  split_and!; try done; [eapply Forall2_impl; [exact Hf|]; intros ?? (_ & ? & ? & ?); done|].
  clear -Hf. induction Hf as [|id i ids' is' (Hv & _) _ IH]; by constructor.
Qed.

Lemma selected_ids registry ids selected :
  Forall2 (fun id i => i ∈ registry /\ ri_repositoryId i = id /\ repository_of registry id = Some i) ids selected ->
  List.map (fun i => ri_repositoryId i) selected = ids.
Proof. induction 1 as [|id i ids' is' (_ & <- & _) _ IH]; cbn; congruence. Qed.

Lemma assertRepositoryScope_Ok set role provider :
  assertRepositoryScope set role provider = Ok tt <-> forall id, id ∈ rs_repositoryIds set -> id ∈ role /\ id ∈ provider.
Proof.
  unfold assertRepositoryScope. induction (rs_repositoryIds set) as [|id ids IH]; cbn [fold_result].
  - split; [|done]. by intros _ id ?%not_elem_of_nil.
  - rewrite bind_Ok. split.
    + intros ([] & Hg%ensure_Ok & H). rewrite andb_true_iff, !bool_decide_eq_true in Hg. pose proof (proj1 IH H) as Hall.
      intros id' [->|Hin]%elem_of_cons; [done|exact (Hall _ Hin)].
    + intros H. exists tt. split; [|apply IH; intros id' Hin; exact (H _ (list_elem_of_further _ _ _ Hin))].
      apply ensure_Ok. rewrite andb_true_iff, !bool_decide_eq_true. exact (H _ (list_elem_of_here _ _)).
Qed.
End facts.
