(* ===== verification/Dag.v ===== *)
(** Dag: the task graph of a multi-repository run and its layered order
    (src/multirepo/dag.ts). Then the layered order of a task graph. Every loop of
    src/multirepo/dag.ts is followed step by step: the order is topological, the
    layers are the depths, and what is left over is a cycle. Then the tasks a graph is read from, and the graph they make. *)
From S2P Require Import Prelude Text Json Ids ScmTypes Domain.

(** * Data *)

Record MultiRepositoryTaskV1 := {
  mt_taskId : string;
  mt_taskGeneration : Z;
  mt_roleId : string;
  mt_providerId : string;
  mt_repositoryIds : list string;
  mt_dependencies : list string
}.

Record MaterializedMultiRepositoryTaskV1 := { mm_task : MultiRepositoryTaskV1; mm_repositorySet : RepositorySetV1 }.

Record MultiRepositoryDagV1 := {
  dag_tasks : list MaterializedMultiRepositoryTaskV1;
  dag_order : list string;
  dag_layers : list (list string);
  dag_dependents : gmap string (list string);
  dag_depthByTask : gmap string Z;
  dag_edgeCount : Z
}.

(** The codes of [MultiRepositoryDagError], and what [materializeRepositorySet] throws. *)
Inductive MultiRepositoryDagErrorCode :=
| DAG_INVALID_TASK | DAG_DUPLICATE_TASK | DAG_UNKNOWN_DEPENDENCY | DAG_DUPLICATE_DEPENDENCY | DAG_CYCLE | DAG_GRAPH_LIMIT
| DAG_domain (code : MultiRepositoryDomainErrorCode).

Abbreviation graph := (result MultiRepositoryDagErrorCode).

Definition MultiRepositoryTaskV1Schema (t : MultiRepositoryTaskV1) : bool :=
  isValidId t.(mt_taskId) && positive t.(mt_taskGeneration) && isValidId t.(mt_roleId) && isValidId t.(mt_providerId)
  && forallb isValidId t.(mt_repositoryIds) && negb (bool_decide (t.(mt_repositoryIds) = [])) && at_most maximumRepositoriesPerTask t.(mt_repositoryIds)
  && forallb isValidId t.(mt_dependencies) && at_most maximumDependenciesPerTask t.(mt_dependencies).

Definition task_id (t : MaterializedMultiRepositoryTaskV1) : string := t.(mm_task).(mt_taskId).
Definition task_dependencies (t : MaterializedMultiRepositoryTaskV1) : list string := t.(mm_task).(mt_dependencies).

(** * Reading the tasks *)

(** The state of the first loop. *)
Record GraphInput := {
  gi_tasks : list MaterializedMultiRepositoryTaskV1;
  gi_byId : gmap string MaterializedMultiRepositoryTaskV1;
  gi_edgeCount : Z
}.

Section dag.
Context {D : Digest} {C : Collation}.

Definition read_task (registry : RepositoryRegistryV1) (g : GraphInput) (raw : MultiRepositoryTaskV1) : graph GraphInput :=
  ensure (MultiRepositoryTaskV1Schema raw) DAG_INVALID_TASK ;;
  ensure (negb (bool_decide (is_Some (g.(gi_byId) !! raw.(mt_taskId))))) DAG_DUPLICATE_TASK ;;
  ensure (unique raw.(mt_dependencies)) DAG_DUPLICATE_DEPENDENCY ;;
  ensure (unique raw.(mt_repositoryIds)) DAG_INVALID_TASK ;;
  set ← map_err DAG_domain (materializeRepositorySet registry raw.(mt_repositoryIds));
  let task := {| mm_task := raw; mm_repositorySet := set |} in
  let edgeCount := g.(gi_edgeCount) + Z.of_nat (length raw.(mt_dependencies)) in
  ensure (edgeCount <=? maximumDependencies) DAG_GRAPH_LIMIT ;;
  Ok {| gi_tasks := g.(gi_tasks) ++ [task]; gi_byId := <[raw.(mt_taskId) := task]> g.(gi_byId); gi_edgeCount := edgeCount |}.

Definition read_tasks (registry : RepositoryRegistryV1) (rawTasks : list MultiRepositoryTaskV1) : graph GraphInput :=
  ensure (negb (bool_decide (rawTasks = [])) && at_most maximumTasks rawTasks) DAG_GRAPH_LIMIT ;;
  fold_result (read_task registry) {| gi_tasks := []; gi_byId := ∅; gi_edgeCount := 0 |} rawTasks.

(** The second loop: no task depends on itself or on a task that is not there. *)
Definition check_edges (g : GraphInput) : graph unit :=
  fold_result (fun _ task =>
    fold_result (fun _ dependency =>
      ensure (negb (bool_decide (dependency = task_id task))) DAG_CYCLE ;;
      ensure (bool_decide (is_Some (g.(gi_byId) !! dependency))) DAG_UNKNOWN_DEPENDENCY) tt (task_dependencies task)) tt g.(gi_tasks).

(** * Layers *)

Definition initial_indegree (tasks : list MaterializedMultiRepositoryTaskV1) : gmap string Z :=
  fold_left (fun m t => <[task_id t := Z.of_nat (length (task_dependencies t))]> m) tasks ∅.

Definition push_dependent (taskId : string) (m : gmap string (list string)) (dependency : string) : gmap string (list string) :=
  alter (fun l => l ++ [taskId]) dependency m.

Definition all_dependents (tasks : list MaterializedMultiRepositoryTaskV1) : gmap string (list string) :=
  js_sort localeCompare <$>
  fold_left (fun m t => fold_left (push_dependent (task_id t)) (task_dependencies t) m) tasks
    (fold_left (fun m t => <[task_id t := []]> m) tasks ∅).

(** The variables of the [while] loop. *)
Record LayerState := {
  k_ready : list string;
  k_order : list string;
  k_layers : list (list string);
  k_depth : gmap string Z;
  k_indegree : gmap string Z
}.

(** The dependencies of [byId.get(taskId)!]. *)
Definition dependencies_of (byId : gmap string MaterializedMultiRepositoryTaskV1) (taskId : string) : list string :=
  match byId !! taskId with Some t => task_dependencies t | None => [] end.

(** [Math.max] of the depths of the dependencies, which are not negative. *)
Definition task_depth (depths : gmap string Z) (dependencies : list string) : Z :=
  if bool_decide (dependencies = []) then 0 else foldr Z.max 0 (List.map (fun id => default 0 (depths !! id)) dependencies) + 1.

(** One dependent of the visited task loses an edge. *)
Definition release_edge (state : gmap string Z * list string) (dependent : string) : gmap string Z * list string :=
  let next := default 0 (state.1 !! dependent) - 1 in
  (<[dependent := next]> state.1, if next =? 0 then state.2 ++ [dependent] else state.2).

Definition visit (byId : gmap string MaterializedMultiRepositoryTaskV1) (dependents : gmap string (list string)) (k : LayerState) (taskId : string)
    : graph LayerState :=
  let depth := task_depth k.(k_depth) (dependencies_of byId taskId) in
  ensure (depth <=? maximumGraphDepth) DAG_GRAPH_LIMIT ;;
  let released := fold_left release_edge (default [] (dependents !! taskId)) (k.(k_indegree), k.(k_ready)) in
  Ok {| k_ready := released.2; k_order := k.(k_order) ++ [taskId]; k_layers := k.(k_layers);
        k_depth := <[taskId := depth]> k.(k_depth); k_indegree := released.1 |}.

Definition with_ready (k : LayerState) (ready : list string) (layers : list (list string)) : LayerState :=
  {| k_ready := ready; k_order := k.(k_order); k_layers := layers; k_depth := k.(k_depth); k_indegree := k.(k_indegree) |}.

(** The body of the [while] loop. *)
Definition next_layer (byId : gmap string MaterializedMultiRepositoryTaskV1) (dependents : gmap string (list string)) (k : LayerState)
    : graph LayerState :=
  k' ← fold_result (visit byId dependents) (with_ready k [] (k.(k_layers) ++ [k.(k_ready)])) k.(k_ready);
  Ok (with_ready k' (js_sort localeCompare k'.(k_ready)) k'.(k_layers)).

(** The [while] loop; one unit of fuel per layer. *)
Fixpoint layered (fuel : nat) (byId : gmap string MaterializedMultiRepositoryTaskV1) (dependents : gmap string (list string)) (k : LayerState)
    : graph LayerState :=
  match k.(k_ready), fuel with
  | [], _ | _, O => Ok k
  | _, S fuel' => k' ← next_layer byId dependents k; layered fuel' byId dependents k'
  end.

Definition initial_layers (tasks : list MaterializedMultiRepositoryTaskV1) : LayerState := {|
  k_ready := js_sort localeCompare (List.map task_id (List.filter (fun t => bool_decide (task_dependencies t = [])) tasks));
  k_order := []; k_layers := []; k_depth := ∅; k_indegree := initial_indegree tasks |}.

Definition by_taskId (l r : MaterializedMultiRepositoryTaskV1) : Z := localeCompare (task_id l) (task_id r).

(** The graph of checked tasks: one layer per task is enough fuel. *)
Definition layered_graph (g : GraphInput) : graph MultiRepositoryDagV1 :=
  let tasks := g.(gi_tasks) in
  let dependents := all_dependents tasks in
  k ← layered (length tasks) g.(gi_byId) dependents (initial_layers tasks);
  ensure (bool_decide (length k.(k_order) = length tasks)) DAG_CYCLE ;;
  Ok {| dag_tasks := js_sort by_taskId tasks; dag_order := k.(k_order); dag_layers := k.(k_layers); dag_dependents := dependents;
        dag_depthByTask := k.(k_depth); dag_edgeCount := g.(gi_edgeCount) |}.

Definition materializeMultiRepositoryDag (registry : RepositoryRegistryV1) (rawTasks : list MultiRepositoryTaskV1) : graph MultiRepositoryDagV1 :=
  g ← read_tasks registry rawTasks;
  check_edges g ;;
  layered_graph g.
End dag.

(** * Facts *)

(** * Counting edges *)

Lemma length_filter_snoc (order l : list string) x :
  NoDup l -> x ∉ order ->
  Z.of_nat (length (List.filter (fun d => bool_decide (d ∉ order ++ [x])) l)) =
  Z.of_nat (length (List.filter (fun d => bool_decide (d ∉ order)) l)) - (if bool_decide (x ∈ l) then 1 else 0).
Proof.
  intros Hl Hx. induction Hl as [|y l Hy Hl IH]; [done|]. cbn [List.filter].
  assert (bool_decide (y ∉ order ++ [x]) = bool_decide (y ∉ order) && negb (bool_decide (y = x))) as ->.
  { rewrite <-bool_decide_not, <-bool_decide_and. apply bool_decide_ext. rewrite elem_of_app, list_elem_of_singleton. tauto. }
  destruct (decide (y = x)) as [->|Hne].
  - rewrite (bool_decide_eq_true_2 (x ∉ order)), (bool_decide_eq_true_2 (x = x)), (bool_decide_eq_true_2 (x ∈ x :: l)) by (done || apply list_elem_of_here).
    rewrite (bool_decide_eq_false_2 (x ∈ l)) in IH by done. cbn [negb andb length]. lia.
  - rewrite (bool_decide_eq_false_2 (y = x)), andb_true_r by done.
    rewrite (bool_decide_ext (x ∈ y :: l) (x ∈ l)) by (rewrite elem_of_cons; intuition congruence).
    destruct (bool_decide (y ∉ order)); cbn [length]; lia.
Qed.

Lemma length_filter_zero (order l : list string) :
  Z.of_nat (length (List.filter (fun d => bool_decide (d ∉ order)) l)) = 0 <-> forall d, d ∈ l -> d ∈ order.
Proof.
  induction l as [|y l IH]; cbn [List.filter]; [split; [|done]; by intros _ d ?%not_elem_of_nil|].
  setoid_rewrite elem_of_cons. case_bool_decide as E; cbn [length].
  - split; [lia|]. intros H. destruct E. auto.
  - rewrite IH. split; [|auto]. intros H d [->|Hd]; auto.
Qed.

(** The inner loop over the dependents of a visited task. *)
Lemma release_edges l m r :
  NoDup l ->
  let s := fold_left release_edge l (m, r) in
  (forall t, default 0 (s.1 !! t) = default 0 (m !! t) - (if bool_decide (t ∈ l) then 1 else 0)) /\
  s.2 = r ++ List.filter (fun t => default 0 (m !! t) =? 1) l.
Proof.
  intros Hl. revert m r. induction Hl as [|y l Hy Hl IH]; intros m r; cbv zeta.
  - split; [|by rewrite app_nil_r]. intros t. rewrite (bool_decide_eq_false_2 (t ∈ [])) by apply not_elem_of_nil. cbn. lia.
  - cbn [fold_left List.filter]. unfold release_edge at 2 4. cbn [fst snd]. set (next := default 0 (m !! y) - 1).
    destruct (IH (<[y := next]> m) (if next =? 0 then r ++ [y] else r)) as [H1 H2]. split.
    + intros t. rewrite H1. destruct (decide (t = y)) as [->|Hne].
      * rewrite lookup_insert_eq, (bool_decide_eq_false_2 (y ∈ l)), (bool_decide_eq_true_2 (y ∈ y :: l)) by (done || apply list_elem_of_here).
        cbn. lia.
      * rewrite lookup_insert_ne by done. by rewrite (bool_decide_ext (t ∈ y :: l) (t ∈ l)) by (rewrite elem_of_cons; intuition congruence).
    + rewrite H2. assert (List.filter (fun t => default 0 (<[y := next]> m !! t) =? 1) l = List.filter (fun t => default 0 (m !! t) =? 1) l) as ->.
      { apply filter_ext_in. intros t Ht%list_elem_of_In. rewrite lookup_insert_ne; [done|congruence]. }
      replace (default 0 (m !! y) =? 1) with (next =? 0) by (unfold next; lia).
      destruct (next =? 0); [by rewrite <-app_assoc|done].
Qed.

(** Chains of dependencies, and sets of tasks that wait for each other. *)
Inductive dependency_chain (edge : string -> string -> Prop) : Z -> string -> Prop :=
| chain_one t : dependency_chain edge 0 t
| chain_dep n t d : edge t d -> dependency_chain edge n d -> dependency_chain edge (n + 1) t.

Definition waiting_set (edge : string -> string -> Prop) (waiting : list string) : Prop :=
  waiting <> [] /\ forall t, t ∈ waiting -> exists d, edge t d /\ d ∈ waiting.

Lemma chain_mono (edge edge' : string -> string -> Prop) n t :
  (forall t d, edge t d -> edge' t d) -> dependency_chain edge n t -> dependency_chain edge' n t.
Proof. intros He. induction 1; [constructor|]. econstructor; eauto. Qed.

Lemma waiting_mono (edge edge' : string -> string -> Prop) waiting :
  (forall t d, edge t d -> edge' t d) -> waiting_set edge waiting -> waiting_set edge' waiting.
Proof. intros He [Hne Hw]. split; [done|]. intros t (d & Hd & Hdw)%Hw. exists d. auto. Qed.

(** Chains can be cut short. *)
Lemma chain_shorter edge n t m : dependency_chain edge n t -> 0 <= m <= n -> dependency_chain edge m t.
Proof.
  intros H. revert m. induction H as [t|n t d Hd H IH]; intros m Hm; [replace m with 0 by lia; constructor|].
  destruct (decide (m = 0)) as [->|Hne]; [constructor|]. replace m with ((m - 1) + 1) by lia. apply (chain_dep _ _ _ d Hd), IH. lia.
Qed.

Lemma chain_nonneg edge n t : dependency_chain edge n t -> 0 <= n.
Proof. induction 1; lia. Qed.

(** * Depths *)

Definition depth_at (m : gmap string Z) (t : string) : Z := default 0 (m !! t).

Lemma max_depth_spec m ds : (forall d, d ∈ ds -> depth_at m d <= foldr Z.max 0 (List.map (depth_at m) ds)) /\
  (foldr Z.max 0 (List.map (depth_at m) ds) = 0 \/ exists d, d ∈ ds /\ foldr Z.max 0 (List.map (depth_at m) ds) = depth_at m d).
Proof.
  induction ds as [|d ds [IH1 IH2]]; cbn [List.map foldr]; [split; [by intros d ?%not_elem_of_nil|by left]|]. split.
  - intros e [->|He]%elem_of_cons; [lia|]. apply IH1 in He. lia.
  - destruct (Z.max_spec (depth_at m d) (foldr Z.max 0 (List.map (depth_at m) ds))) as [[_ ->]|[_ ->]].
    + destruct IH2 as [->|(e & He & ->)]; [by left|right]. exists e. split; [by apply list_elem_of_further|done].
    + right. exists d. split; [apply list_elem_of_here|done].
Qed.

Lemma task_depth_eq m ds : task_depth m ds = if bool_decide (ds = []) then 0 else foldr Z.max 0 (List.map (depth_at m) ds) + 1.
Proof. done. Qed.

Lemma task_depth_above m ds d : d ∈ ds -> depth_at m d + 1 <= task_depth m ds.
Proof.
  intros Hd. rewrite task_depth_eq, bool_decide_eq_false_2 by (intros ->; by apply not_elem_of_nil in Hd). apply (proj1 (max_depth_spec m ds)) in Hd. lia.
Qed.

(** The depth of a task with dependencies is that of one of them, plus one. *)
Lemma task_depth_some m ds : (forall d, d ∈ ds -> 0 <= depth_at m d) -> (ds = [] /\ task_depth m ds = 0) \/ exists d, d ∈ ds /\ task_depth m ds = depth_at m d + 1.
Proof.
  intros Hpos. rewrite task_depth_eq. case_bool_decide as E; [by left|right]. destruct (max_depth_spec m ds) as [Hle [H0|(d & Hd & ->)]]; [|by exists d].
  destruct ds as [|d ds]; [done|]. exists d. split; [apply list_elem_of_here|]. pose proof (Hle d (list_elem_of_here _ _)) as H1.
  pose proof (Hpos d (list_elem_of_here _ _)). lia.
Qed.

Lemma task_depth_insert m ds x v : x ∉ ds -> task_depth (<[x := v]> m) ds = task_depth m ds.
Proof.
  intros Hx. rewrite !task_depth_eq. assert (List.map (depth_at (<[x := v]> m)) ds = List.map (depth_at m) ds) as ->; [|done].
  apply map_ext_in. intros d Hd%list_elem_of_In. unfold depth_at. rewrite lookup_insert_ne; [done|congruence].
Qed.

Lemma task_depth_level m ds x level :
  x ∈ ds -> (forall d, d ∈ ds -> 0 <= depth_at m d <= level) -> depth_at m x = level -> task_depth m ds = level + 1.
Proof.
  intros Hx Hle E. pose proof (task_depth_above m ds x Hx) as H1.
  destruct (task_depth_some m ds) as [[-> _]|(d & Hd & H2)]; [intros d Hd; by apply Hle|by apply not_elem_of_nil in Hx|].
  pose proof (Hle d Hd). lia.
Qed.

Section order.
Context {C : Collation} (byId : gmap string MaterializedMultiRepositoryTaskV1) (dependents : gmap string (list string)) (ids : list string).
Let deps := dependencies_of byId.
Let edge t d := d ∈ deps t.
Let released_by d := default [] (dependents !! d).
Hypothesis Hids : NoDup ids.
Hypothesis Hdeps : forall t, t ∈ ids -> NoDup (deps t) /\ forall d, d ∈ deps t -> d ∈ ids.
Hypothesis Hdependents : forall d, d ∈ ids -> NoDup (released_by d) /\ forall t, t ∈ released_by d <-> t ∈ ids /\ d ∈ deps t.

Definition unmet (order : list string) (t : string) : Z := Z.of_nat (length (List.filter (fun d => bool_decide (d ∉ order)) (deps t))).

(** Between two visits: [pending] is what is ready, in this layer or the next. *)
Record order_inv (order pending : list string) (indegree : gmap string Z) : Prop := {
  inv_nodup : NoDup (order ++ pending);
  inv_ids t : t ∈ order ++ pending -> t ∈ ids;
  inv_indegree t : t ∈ ids -> default 0 (indegree !! t) = unmet order t;
  inv_free t : t ∈ ids -> unmet order t = 0 -> t ∈ order ++ pending;
  inv_met t : t ∈ order ++ pending -> unmet order t = 0;
  inv_topological pre t post : order = pre ++ t :: post -> forall d, d ∈ deps t -> d ∈ pre
}.

Lemma unmet_zero order t : unmet order t = 0 <-> forall d, d ∈ deps t -> d ∈ order.
Proof. apply length_filter_zero. Qed.

Lemma unmet_snoc order x t : t ∈ ids -> x ∉ order -> unmet (order ++ [x]) t = unmet order t - (if bool_decide (x ∈ deps t) then 1 else 0).
Proof using Hdeps. intros Ht Hx. apply length_filter_snoc; [|done]. by apply Hdeps. Qed.

Lemma order_inv_Permutation order pending pending' indegree : pending ≡ₚ pending' -> order_inv order pending indegree -> order_inv order pending' indegree.
Proof. intros Hp [H1 H2 H3 H4 H5 H6]. split; try done; setoid_rewrite <-Hp; done. Qed.

Lemma snoc_split {A} (order : list A) x pre t post : order ++ [x] = pre ++ t :: post -> (pre = order /\ t = x) \/ exists post', order = pre ++ t :: post'.
Proof.
  destruct post as [|y post _] using rev_ind; intros H.
  - apply app_inj_tail in H as [-> ->]. by left.
  - right. exists post. rewrite app_comm_cons, app_assoc in H. by apply app_inj_tail in H as [-> _].
Qed.

(** A visit moves the task to the order and makes ready what waited for it only. *)
Lemma visit_order order x pending indegree ready :
  order_inv order (x :: pending) indegree ->
  let s := fold_left release_edge (released_by x) (indegree, ready) in
  exists new, s.2 = ready ++ new /\ (forall t, t ∈ new <-> t ∈ ids /\ x ∈ deps t /\ unmet (order ++ [x]) t = 0) /\
    order_inv (order ++ [x]) (pending ++ new) s.1.
Proof using Hdeps Hdependents.
  intros [H1 H2 H3 H4 H5 H6]. cbv zeta.
  assert (x ∈ ids) as Hx by (apply H2; rewrite elem_of_app, elem_of_cons; auto).
  assert (x ∉ order) as Hxo. { apply NoDup_app in H1 as (_ & H1 & _). intros Hx'. apply (H1 _ Hx'), list_elem_of_here. }
  destruct (Hdependents _ Hx) as [Hnd Hdep]. destruct (release_edges (released_by x) indegree ready Hnd) as [Hm ->].
  set (new := List.filter _ _). exists new. split; [done|].
  assert (forall t, t ∈ new <-> t ∈ ids /\ x ∈ deps t /\ unmet (order ++ [x]) t = 0) as Hnew.
  { intros t. unfold new. rewrite list_elem_of_In, filter_In, <-list_elem_of_In, Hdep, Z.eqb_eq. split.
    - intros [[Ht Hd] E]. split; [done|]. split; [done|]. rewrite unmet_snoc, bool_decide_eq_true_2, <-H3 by done. lia.
    - intros (Ht & Hd & E). split; [done|]. rewrite unmet_snoc, bool_decide_eq_true_2 in E by done. rewrite H3 by done. lia. }
  split; [done|]. assert (forall t, t ∈ order ++ x :: pending -> t ∉ new) as Hold.
  { intros t Ht (Hti & Hd & E)%Hnew. rewrite unmet_snoc, bool_decide_eq_true_2, (H5 t Ht) in E by done. lia. }
  assert ((order ++ [x]) ++ pending ++ new = (order ++ x :: pending) ++ new) as Hall by (by rewrite <-!app_assoc).
  split; rewrite ?Hall.
  - apply NoDup_app. split; [done|]. split; [exact Hold|].
    apply NoDup_ListNoDup, List.NoDup_filter, NoDup_ListNoDup, Hnd.
  - intros t. rewrite elem_of_app. intros [Ht|Ht]; [by apply H2|by apply Hnew].
  - intros t Ht. rewrite Hm, H3, unmet_snoc by done. rewrite (bool_decide_ext (t ∈ released_by x) (x ∈ deps t)); [done|]. rewrite Hdep. tauto.
  - intros t Ht E. rewrite elem_of_app.
    destruct (decide (x ∈ deps t)) as [Hd|Hd]; [right; by apply Hnew|left]. rewrite unmet_snoc, bool_decide_eq_false_2, Z.sub_0_r in E by done. by apply H4.
  - intros t. rewrite elem_of_app. intros [Ht|Ht]; [|by apply Hnew].
    pose proof (H5 t Ht) as E. rewrite unmet_snoc by (done || by apply H2). rewrite E, bool_decide_eq_false_2; [done|].
    intros Hd. by apply Hxo, (proj1 (unmet_zero _ _) E).
  - intros pre t post [[-> ->]|[post' ->]]%snoc_split d Hd; [|by eapply H6].
    assert (unmet order x = 0) as E by (apply H5; rewrite elem_of_app, elem_of_cons; auto). by apply (proj1 (unmet_zero _ _) E).
Qed.

(** The depths, with the rest of the layer and the tasks ready for the next. *)
Record depth_inv (order : list string) (depth : gmap string Z) (rest ready : list string) (level : Z) : Prop := {
  depth_dom t : is_Some (depth !! t) <-> t ∈ order;
  depth_value t : t ∈ order -> depth_at depth t = task_depth depth (deps t);
  depth_bound t : t ∈ order -> 0 <= depth_at depth t <= level /\ depth_at depth t <= maximumGraphDepth;
  depth_rest t : t ∈ rest -> task_depth depth (deps t) = level;
  depth_ready t : t ∈ ready -> task_depth depth (deps t) = level + 1;
  depth_chained t : t ∈ order -> dependency_chain edge (depth_at depth t) t
}.

Lemma depth_inv_next order depth ready level : depth_inv order depth [] ready level -> depth_inv order depth ready [] (level + 1).
Proof.
  intros [H1 H2 H3 H4 H5 H6]. split; try done; [|by intros t ?%not_elem_of_nil].
  intros t Ht. destruct (H3 t Ht). lia.
Qed.

Lemma depth_inv_Permutation order depth ready ready' level : ready ≡ₚ ready' -> depth_inv order depth [] ready level -> depth_inv order depth [] ready' level.
Proof. intros Hp [H1 H2 H3 H4 H5 H6]. split; try done. by setoid_rewrite <-Hp. Qed.

(** A task whose dependencies are ordered has a chain of its depth. *)
Lemma task_depth_chain order depth rest ready level x :
  depth_inv order depth rest ready level -> (forall d, d ∈ deps x -> d ∈ order) -> dependency_chain edge (task_depth depth (deps x)) x.
Proof.
  intros Hd Hx. destruct (task_depth_some depth (deps x)) as [[_ ->]|(d & Hin & ->)].
  - intros d Hin. apply (depth_bound _ _ _ _ _ Hd). by apply Hx.
  - constructor.
  - apply (chain_dep _ _ _ d Hin). apply (depth_chained _ _ _ _ _ Hd). by apply Hx.
Qed.

Lemma visit_depth order x rest ready new depth indegree level :
  order_inv order (x :: rest ++ ready) indegree -> depth_inv order depth (x :: rest) ready level ->
  (forall t, t ∈ new -> x ∈ deps t /\ unmet (order ++ [x]) t = 0) -> task_depth depth (deps x) <= maximumGraphDepth ->
  depth_inv (order ++ [x]) (<[x := task_depth depth (deps x)]> depth) rest (ready ++ new) level.
Proof.
  intros Ho Hd Hnew Hmax. set (v := task_depth depth (deps x)) in *.
  assert (x ∉ order) as Hxo. { pose proof (inv_nodup _ _ _ Ho) as (_ & H & _)%NoDup_app. intros Hx. apply (H _ Hx), list_elem_of_here. }
  assert (v = level) as Hv by (apply (depth_rest _ _ _ _ _ Hd), list_elem_of_here).
  assert (forall t, t ∈ order ++ x :: rest ++ ready -> x ∉ deps t) as Hfree.
  { intros t Ht Hx. by apply Hxo, (proj1 (unmet_zero _ _) (inv_met _ _ _ Ho t Ht)). }
  assert (forall t, t ∈ order -> depth_at (<[x := v]> depth) t = depth_at depth t) as Hkeep.
  { intros t Ht. unfold depth_at. rewrite lookup_insert_ne; [done|congruence]. }
  assert (depth_at (<[x := v]> depth) x = v) as Hat by (unfold depth_at; by rewrite lookup_insert_eq).
  assert (forall t, t ∈ order ++ x :: rest ++ ready -> task_depth (<[x := v]> depth) (deps t) = task_depth depth (deps t)) as Hsame
    by (intros t Ht; by apply task_depth_insert, Hfree).
  assert (forall t, t ∈ order ++ [x] -> 0 <= depth_at (<[x := v]> depth) t <= level /\ depth_at (<[x := v]> depth) t <= maximumGraphDepth) as Hb.
  { intros t [Ht| ->%list_elem_of_singleton]%elem_of_app; [rewrite Hkeep by done; by apply (depth_bound _ _ _ _ _ Hd)|]. rewrite Hat.
    assert (0 <= v) as Hpos by (eapply chain_nonneg, (task_depth_chain _ _ _ _ _ x Hd), (unmet_zero order x), (inv_met _ _ _ Ho);
      rewrite elem_of_app, elem_of_cons; auto). lia. }
  split.
  - intros t. rewrite elem_of_app, list_elem_of_singleton, <-(depth_dom _ _ _ _ _ Hd), lookup_insert_is_Some'. intuition.
  - intros t Ht. rewrite Hsame by (apply elem_of_app in Ht as [Ht| ->%list_elem_of_singleton]; rewrite elem_of_app, elem_of_cons; tauto). apply elem_of_app in Ht as [Ht| ->%list_elem_of_singleton]; [|done].
    rewrite Hkeep by done. by apply (depth_value _ _ _ _ _ Hd).
  - exact Hb.
  - intros t Ht. rewrite Hsame by (rewrite elem_of_app, elem_of_cons, elem_of_app; tauto). apply (depth_rest _ _ _ _ _ Hd). by apply list_elem_of_further.
  - intros t [Ht|Ht]%elem_of_app; [rewrite Hsame by (rewrite elem_of_app, elem_of_cons, elem_of_app; tauto); by apply (depth_ready _ _ _ _ _ Hd)|].
    destruct (Hnew t Ht) as [Hx E]. apply (task_depth_level _ _ x); [done| |congruence].
    intros d Hin. by apply Hb, (proj1 (unmet_zero _ _) E).
  - intros t [Ht| ->%list_elem_of_singleton]%elem_of_app; [rewrite Hkeep by done; by apply (depth_chained _ _ _ _ _ Hd)|].
    rewrite Hat. apply (task_depth_chain _ _ _ _ _ x Hd), (unmet_zero order x), (inv_met _ _ _ Ho). rewrite elem_of_app, elem_of_cons. tauto.
Qed.

(** * The loops *)

(** A task too deep to be visited ends a chain of dependencies that is too long. *)
Definition too_deep (e : MultiRepositoryDagErrorCode) : Prop :=
  e = DAG_GRAPH_LIMIT /\ exists t, t ∈ ids /\ dependency_chain edge (maximumGraphDepth + 1) t.

(** What the visits of a layer did. *)
Record visited (k : LayerState) (rest : list string) (level : Z) (k' : LayerState) : Prop := {
  visited_order : k_order k' = k_order k ++ rest;
  visited_layers : k_layers k' = k_layers k;
  visited_order_inv : order_inv (k_order k') (k_ready k') (k_indegree k');
  visited_depth_inv : depth_inv (k_order k') (k_depth k') [] (k_ready k') level;
  visited_kept t : t ∈ k_order k -> depth_at (k_depth k') t = depth_at (k_depth k) t;
  visited_level t : t ∈ rest -> depth_at (k_depth k') t = level
}.

Lemma visits_spec k rest level :
  order_inv (k_order k) (rest ++ k_ready k) (k_indegree k) -> depth_inv (k_order k) (k_depth k) rest (k_ready k) level ->
  match fold_result (visit byId dependents) k rest with
  | Ok k' => visited k rest level k'
  | Err e => too_deep e
  end.
Proof using Hdeps Hdependents.
  revert k. induction rest as [|x rest IH]; intros k Ho Hd; cbn [fold_result].
  - split; try done; [by rewrite app_nil_r|by intros t ?%not_elem_of_nil].
  - cbn [app] in Ho. unfold visit. destruct (Z.leb_spec (task_depth (k_depth k) (dependencies_of byId x)) maximumGraphDepth) as [Hmax|Hmax].
    + destruct (visit_order _ _ _ _ (k_ready k) Ho) as (new & Hs & Hnew & Ho').
      pose proof (visit_depth _ _ _ _ new _ _ _ Ho Hd ltac:(intros t Ht; by apply Hnew in Ht as (_ & ? & ?)) Hmax) as Hd'.
      rewrite <-app_assoc in Ho'. unfold released_by in Hs, Ho'.
      assert (x ∉ k_order k) as Hx. { pose proof (inv_nodup _ _ _ Ho) as (_ & H & _)%NoDup_app. intros Hx. apply (H _ Hx), list_elem_of_here. }
      cbn [ensure mbind result_bind].
      match goal with |- context [fold_result _ ?k1 rest] => specialize (IH k1) end.
      cbn [k_order k_ready k_indegree k_depth k_layers] in IH. rewrite Hs in IH. specialize (IH Ho' Hd').
      unfold result_bind, mbind. rewrite Hs. destruct (fold_result _ _ rest) as [k'|e]; [|exact IH].
      destruct IH as [I1 I2 I3 I4 I5 I6]. cbn [k_order k_ready k_indegree k_depth k_layers] in *. split; try done.
      * by rewrite I1, <-app_assoc.
      * intros t Ht. rewrite I5 by (rewrite elem_of_app; by left). unfold depth_at. rewrite lookup_insert_ne; [done|congruence].
      * intros t [->|Ht]%elem_of_cons; [|by apply I6]. rewrite I5 by (rewrite elem_of_app, list_elem_of_singleton; by right).
        unfold depth_at. rewrite lookup_insert_eq. apply (depth_rest _ _ _ _ _ Hd), list_elem_of_here.
    + cbn. split; [done|]. exists x. split; [apply (inv_ids _ _ _ Ho); rewrite elem_of_app, elem_of_cons; auto|].
      eapply chain_shorter; [apply (task_depth_chain _ _ _ _ _ x Hd), (unmet_zero (k_order k) x), (inv_met _ _ _ Ho);
        rewrite elem_of_app, elem_of_cons; auto|]. unfold deps, maximumGraphDepth in *. lia.
Qed.

(** Between two layers. *)
Record layers_inv (k : LayerState) : Prop := {
  layers_order : order_inv (k_order k) (k_ready k) (k_indegree k);
  layers_depth : depth_inv (k_order k) (k_depth k) [] (k_ready k) (Z.of_nat (length (k_layers k)) - 1);
  layers_concat : List.concat (k_layers k) = k_order k;
  layers_level i l t : k_layers k !! i = Some l -> t ∈ l -> depth_at (k_depth k) t = Z.of_nat i
}.

Lemma next_layer_spec k :
  layers_inv k ->
  match next_layer byId dependents k with
  | Ok k' => layers_inv k' /\ k_order k' = k_order k ++ k_ready k
  | Err e => too_deep e
  end.
Proof using Hdeps Hdependents.
  intros [H1 H2 H3 H4]. unfold next_layer. set (k0 := with_ready k [] (k_layers k ++ [k_ready k])).
  pose proof (visits_spec k0 (k_ready k) (Z.of_nat (length (k_layers k)))) as H. cbn [k0 with_ready k_order k_ready k_indegree k_depth] in H.
  rewrite app_nil_r in H. specialize (H H1). apply depth_inv_next in H2. rewrite Z.sub_add in H2. specialize (H H2).
  fold k0 in H. unfold mbind, result_bind. destruct (fold_result _ k0 _) as [k'|e]; [|exact H]. destruct H as [I1 I2 I3 I4 I5 I6].
  cbn [k0 with_ready k_order k_layers k_depth] in *. split; [|exact I1].
  assert (js_sort localeCompare (k_ready k') ≡ₚ k_ready k') as Hp by apply js_sort_Permutation.
  split; cbn [with_ready k_order k_ready k_layers k_depth k_indegree]; rewrite ?I2.
  - by eapply order_inv_Permutation.
  - rewrite length_app. replace (Z.of_nat (length (k_layers k) + length [k_ready k]) - 1) with (Z.of_nat (length (k_layers k))) by (cbn; lia).
    by eapply depth_inv_Permutation.
  - rewrite concat_app, H3, I1. cbn. by rewrite app_nil_r.
  - intros i l t. rewrite lookup_app_Some. intros [Hi|[Hlen Hi]] Ht.
    + rewrite I5; [by eapply H4|]. rewrite <-H3. apply list_elem_of_In, in_concat. exists l. rewrite <-!list_elem_of_In.
      split; [|done]. by eapply list_elem_of_lookup_2.
    + apply list_lookup_singleton_Some in Hi as [Hi <-]. rewrite I6 by done. lia.
Qed.

(** The loop ends because nothing is ready any more, never for want of fuel. *)
Lemma layered_spec fuel k :
  layers_inv k -> (length ids <= length (k_order k) + fuel)%nat ->
  match layered fuel byId dependents k with
  | Ok k' => layers_inv k' /\ k_ready k' = []
  | Err e => too_deep e
  end.
Proof using Hids Hdeps Hdependents.
  revert k. induction fuel as [|fuel IH]; intros k Hk Hf; cbn [layered].
  - destruct (k_ready k) as [|x l] eqn:E; [done|]. exfalso. pose proof (layers_order _ Hk) as Ho. rewrite E in Ho.
    assert (length (k_order k ++ x :: l) <= length ids)%nat.
    { apply NoDup_incl_length; [by apply NoDup_ListNoDup, (inv_nodup _ _ _ Ho)|]. intros t Ht%list_elem_of_In. by apply list_elem_of_In, (inv_ids _ _ _ Ho). }
    rewrite length_app in *. cbn in *. lia.
  - destruct (k_ready k) as [|x l] eqn:E; [done|]. pose proof (next_layer_spec k Hk) as Hn. unfold mbind, result_bind.
    destruct (next_layer byId dependents k) as [k'|e]; [|exact Hn]. destruct Hn as [Hk' Ho']. apply IH; [done|].
    rewrite Ho', E, length_app. cbn. lia.
Qed.

(** Everything was ordered, or the rest waits for itself. *)
Lemma layers_end k :
  layers_inv k -> k_ready k = [] -> length (k_order k) = length ids \/ exists waiting, waiting_set edge waiting.
Proof using Hids Hdeps.
  intros Hk Hr. pose proof (layers_order _ Hk) as Ho. rewrite Hr in Ho.
  set (waiting := List.filter (fun t => bool_decide (t ∉ k_order k)) ids).
  assert (forall t, t ∈ waiting <-> t ∈ ids /\ t ∉ k_order k) as Hw.
  { intros t. unfold waiting. by rewrite list_elem_of_In, filter_In, bool_decide_eq_true, <-list_elem_of_In. }
  destruct waiting as [|x l] eqn:E.
  - left. apply Nat.le_antisymm.
    + apply NoDup_incl_length; [apply NoDup_ListNoDup; pose proof (inv_nodup _ _ _ Ho) as H; by rewrite app_nil_r in H|].
      intros t Ht%list_elem_of_In. apply list_elem_of_In, (inv_ids _ _ _ Ho). rewrite elem_of_app. by left.
    + apply NoDup_incl_length; [by apply NoDup_ListNoDup|]. intros t Ht%list_elem_of_In. apply list_elem_of_In.
      destruct (decide (t ∈ k_order k)); [done|]. exfalso. apply (not_elem_of_nil t). apply Hw. done.
  - right. exists (x :: l). split; [done|]. intros t [Ht Hn]%Hw.
    destruct (List.filter (fun d => bool_decide (d ∉ k_order k)) (deps t)) as [|d ds] eqn:Ef.
    + exfalso. apply Hn. assert (t ∈ k_order k ++ []) as H; [|by rewrite app_nil_r in H]. apply (inv_free _ _ _ Ho); [done|].
      unfold unmet. by rewrite Ef.
    + assert (d ∈ deps t /\ d ∉ k_order k) as [Hd Hdn].
      { assert (In d (List.filter (fun d => bool_decide (d ∉ k_order k)) (deps t))) as H by (rewrite Ef; by left).
        rewrite filter_In, bool_decide_eq_true, <-list_elem_of_In in H. done. }
      exists d. split; [done|]. apply Hw. split; [|done]. by apply (Hdeps t).
Qed.

(** A complete order leaves no room for a set that waits for itself. *)
Lemma topological_no_waiting (order : list string) waiting :
  (forall t d, edge t d -> t ∈ order) -> (forall pre t post, order = pre ++ t :: post -> forall d, d ∈ deps t -> d ∈ pre) ->
  ~ waiting_set edge waiting.
Proof.
  intros Hall Htopo [Hne Hw]. assert (forall pre post, order = pre ++ post -> forall t, t ∈ pre -> t ∉ waiting) as Hpre.
  { induction pre as [|x pre IH] using rev_ind; intros post E t; [by intros ?%not_elem_of_nil|].
    rewrite <-app_assoc in E. intros [Ht| ->%list_elem_of_singleton]%elem_of_app; [by eapply IH|].
    intros (d & Hd & Hdw)%Hw. eapply IH; [exact E| |exact Hdw]. by eapply Htopo. }
  destruct waiting as [|t l]; [done|]. destruct (Hw t (list_elem_of_here _ _)) as (d & Hd & _).
  apply (Hpre order [] (eq_sym (app_nil_r _)) t); [by eapply Hall|apply list_elem_of_here].
Qed.

(** A depth bounds every chain that ends in the task. *)
Lemma chain_bounded (order : list string) depth n t :
  (forall t, t ∈ order -> depth_at depth t = task_depth depth (deps t)) -> (forall t d, t ∈ order -> d ∈ deps t -> d ∈ order) ->
  (forall t, t ∈ order -> 0 <= depth_at depth t) -> dependency_chain edge n t -> t ∈ order -> n <= depth_at depth t.
Proof.
  intros Hv Hc Hp. induction 1 as [t|n t d Hd _ IH]; intros Ht; [by apply Hp|].
  rewrite Hv by done. pose proof (task_depth_above depth _ _ Hd). specialize (IH (Hc _ _ Ht Hd)). lia.
Qed.
End order.

(** * Facts *)

(** * Lists *)

Lemma NoDup_Permutation_bis_length (l k : list string) : NoDup l -> length l = length k -> (forall x, x ∈ l -> x ∈ k) -> l ≡ₚ k.
Proof.
  intros Hl Hlen Hin. apply NoDup_Permutation_bis; [by apply NoDup_ListNoDup|by rewrite Hlen|].
  intros x Hx%list_elem_of_In. by apply list_elem_of_In, Hin.
Qed.

(** * Maps filled in a loop *)

Lemma fold_insert_lookup {A B} (key : A -> string) (f : A -> B) l (m : gmap string B) x :
  NoDup (List.map key l) -> x ∈ l -> fold_left (fun m t => <[key t := f t]> m) l m !! key x = Some (f x).
Proof.
  revert x. induction l as [|y l IH] using rev_ind; intros x Hnd; [by intros ?%not_elem_of_nil|].
  rewrite map_app in Hnd. apply NoDup_app in Hnd as (Hnd & Hdis & _). rewrite fold_left_app. cbn.
  intros [Hx| ->%list_elem_of_singleton]%elem_of_app; [|by rewrite lookup_insert_eq].
  rewrite lookup_insert_ne; [by apply IH|]. intros E. apply (Hdis (key x)).
  - by apply list_elem_of_In, in_map, list_elem_of_In.
  - rewrite <-E. apply list_elem_of_here.
Qed.

Lemma push_dependents id ds m d :
  NoDup ds -> fold_left (push_dependent id) ds m !! d = (fun l => if bool_decide (d ∈ ds) then l ++ [id] else l) <$> m !! d.
Proof.
  intros Hds. revert m. induction Hds as [|y ds Hy Hds IH]; intros m; cbn [fold_left].
  - rewrite (bool_decide_eq_false_2 (d ∈ [])) by apply not_elem_of_nil. by destruct (m !! d).
  - rewrite IH. unfold push_dependent. destruct (decide (d = y)) as [->|Hne].
    + rewrite lookup_alter_eq, (bool_decide_eq_false_2 (y ∈ ds)), (bool_decide_eq_true_2 (y ∈ y :: ds)) by (done || apply list_elem_of_here).
      by destruct (m !! y).
    + rewrite lookup_alter_ne by done. by rewrite (bool_decide_ext (d ∈ y :: ds) (d ∈ ds)) by (rewrite elem_of_cons; intuition congruence).
Qed.

Definition depending (d : string) (tasks : list MaterializedMultiRepositoryTaskV1) : list string :=
  List.map task_id (List.filter (fun t => bool_decide (d ∈ task_dependencies t)) tasks).

Lemma all_pushed tasks m d :
  Forall (fun t => NoDup (task_dependencies t)) tasks ->
  fold_left (fun m t => fold_left (push_dependent (task_id t)) (task_dependencies t) m) tasks m !! d = (fun l => l ++ depending d tasks) <$> m !! d.
Proof.
  intros Ht. revert m. induction Ht as [|t tasks Hnd _ IH]; intros m; cbn [fold_left].
  - destruct (m !! d); cbn; [|done]. by rewrite app_nil_r.
  - rewrite IH, push_dependents by done. unfold depending. cbn [List.filter]. destruct (m !! d) as [l|]; [|done]. cbn.
    destruct (bool_decide (d ∈ task_dependencies t)); [|done]. cbn. by rewrite <-app_assoc.
Qed.

Section facts.
Context {D : Digest} {C : Collation}.

(** * Reading *)

(** What the two loops over the tasks have checked. *)
Record read_inv (registry : RepositoryRegistryV1) (raws : list MultiRepositoryTaskV1) (g : GraphInput) : Prop := {
  read_tasks_of : List.map mm_task (gi_tasks g) = raws;
  read_unique : NoDup (List.map task_id (gi_tasks g));
  read_byId id t : gi_byId g !! id = Some t <-> t ∈ gi_tasks g /\ task_id t = id;
  read_valid t : t ∈ gi_tasks g -> MultiRepositoryTaskV1Schema (mm_task t) = true /\ NoDup (task_dependencies t) /\
    materializeRepositorySet registry (mt_repositoryIds (mm_task t)) = Ok (mm_repositorySet t);
  read_edges : gi_edgeCount g = foldr (fun t n => Z.of_nat (length (mt_dependencies t)) + n) 0 raws;
  read_limit : gi_edgeCount g <= maximumDependencies
}.

Lemma edges_snoc raws raw : foldr (fun t n => Z.of_nat (length (mt_dependencies t)) + n) 0 (raws ++ [raw]) =
  foldr (fun t n => Z.of_nat (length (mt_dependencies t)) + n) 0 raws + Z.of_nat (length (mt_dependencies raw)).
Proof. induction raws as [|x raws IH]; cbn; [lia|]. rewrite IH. lia. Qed.

Lemma read_task_inv registry raws g raw g' : read_inv registry raws g -> read_task registry g raw = Ok g' -> read_inv registry (raws ++ [raw]) g'.
Proof.
  intros [H1 H2 H3 H4 H5 H6] H. unfold read_task in H. apply bind_Ok in H as ([] & Hv%ensure_Ok & H).
  apply bind_Ok in H as ([] & Hd%ensure_Ok%negb_true_iff%bool_decide_eq_false & H).
  apply bind_Ok in H as ([] & Hu%ensure_Ok%bool_decide_eq_true & H). apply bind_Ok in H as ([] & _ & H).
  apply bind_Ok in H as (set & Hset%map_err_Ok & H). apply bind_Ok in H as ([] & Hmax%ensure_Ok%Z.leb_le & [= <-]).
  assert (forall t, t ∈ gi_tasks g -> task_id t <> mt_taskId raw) as Hnew.
  { intros t Ht E. apply Hd. exists t. by apply H3. }
  split; cbn [gi_tasks gi_byId gi_edgeCount].
  - by rewrite map_app, H1.
  - rewrite map_app. apply NoDup_app. split; [done|]. split; [|apply NoDup_singleton].
    intros id Hid ->%list_elem_of_singleton. apply list_elem_of_In, in_map_iff in Hid as (t & E & Ht%list_elem_of_In). by apply (Hnew t).
  - intros id t. rewrite lookup_insert_Some, elem_of_app, list_elem_of_singleton, H3. split.
    + intros [[<- <-]|[_ ?]]; [|tauto]. split; [by right|done].
    + intros [[Ht| ->] <-]; [|by left]. right. split; [|done]. intros E. by apply (Hnew t).
  - intros t [Ht| ->%list_elem_of_singleton]%elem_of_app; [by apply H4|done].
  - by rewrite edges_snoc, <-H5.
  - done.
Qed.

Lemma read_tasks_inv registry raws g :
  read_tasks registry raws = Ok g -> read_inv registry raws g /\ raws <> [] /\ at_most maximumTasks raws = true.
Proof.
  unfold read_tasks. intros ([] & [Hne%negb_true_iff%bool_decide_eq_false Hmax]%ensure_Ok%andb_true_iff & H)%bind_Ok. split; [|done].
  assert (forall processed g0 raws, read_inv registry processed g0 -> fold_result (read_task registry) g0 raws = Ok g -> read_inv registry (processed ++ raws) g) as Hall.
  { clear. intros processed g0 raws. revert processed g0. induction raws as [|raw raws IH]; intros processed g0 Hg; cbn [fold_result].
    - intros [= <-]. by rewrite app_nil_r.
    - intros (g1 & H1 & H)%bind_Ok. rewrite (app_assoc processed [raw] raws : processed ++ raw :: raws = _). eapply IH; [|exact H]. by eapply read_task_inv. }
  eapply (Hall []); [|exact H]. split; cbn [gi_tasks gi_byId gi_edgeCount]; try done.
  - apply NoDup_nil_2.
  - intros id t. rewrite lookup_empty. split; [done|]. by intros [?%not_elem_of_nil _].
  - by intros t ?%not_elem_of_nil.
Qed.

Lemma check_edges_Ok g :
  check_edges g = Ok tt -> forall t d, t ∈ gi_tasks g -> d ∈ task_dependencies t -> d <> task_id t /\ is_Some (gi_byId g !! d).
Proof.
  unfold check_edges. intros H t d Ht. revert H. induction (gi_tasks g) as [|t0 tasks IH]; [by apply not_elem_of_nil in Ht|]. cbn [fold_result].
  intros ([] & H0 & H)%bind_Ok. apply elem_of_cons in Ht as [->|Ht]; [|by apply IH]. clear IH H.
  induction (task_dependencies t0) as [|d0 ds IH]; [by intros ?%not_elem_of_nil|]. cbn [fold_result] in H0.
  apply bind_Ok in H0 as ([] & H1 & H2). intros [->|Hd]%elem_of_cons; [|by apply IH]. clear IH H2.
  apply bind_Ok in H1 as ([] & E1%ensure_Ok%negb_true_iff%bool_decide_eq_false & E2%ensure_Ok%bool_decide_eq_true). done.
Qed.

(** * The graph of checked tasks *)

(** The edges of a task list: [t] depends on [d]. *)
Definition depends (raws : list MultiRepositoryTaskV1) (t d : string) : Prop :=
  exists task, task ∈ raws /\ mt_taskId task = t /\ d ∈ mt_dependencies task.

Section checked.
Context (registry : RepositoryRegistryV1) (raws : list MultiRepositoryTaskV1) (g : GraphInput).
Hypothesis Hread : read_inv registry raws g.
Hypothesis Hedges : check_edges g = Ok tt.

Let ids := List.map task_id (gi_tasks g).
Let deps := dependencies_of (gi_byId g).

Lemma checked_ids t : t ∈ ids <-> exists task, task ∈ gi_tasks g /\ task_id task = t.
Proof. unfold ids. rewrite list_elem_of_In, in_map_iff. setoid_rewrite list_elem_of_In. by split; intros (x & H1 & H2); exists x. Qed.

Lemma checked_dependencies task : task ∈ gi_tasks g -> deps (task_id task) = task_dependencies task.
Proof using Hread. intros Ht. unfold deps, dependencies_of. by rewrite (proj2 (read_byId _ _ _ Hread (task_id task) task) (conj Ht eq_refl)). Qed.

Lemma checked_byId d : is_Some (gi_byId g !! d) -> d ∈ ids.
Proof using Hread. intros [t Ht]. apply (read_byId _ _ _ Hread) in Ht as [Ht <-]. apply checked_ids. by exists t. Qed.

Lemma checked_deps t : t ∈ ids -> NoDup (deps t) /\ forall d, d ∈ deps t -> d ∈ ids.
Proof using Hread Hedges.
  intros (task & Ht & <-)%checked_ids. rewrite checked_dependencies by done. split; [by apply (read_valid _ _ _ Hread)|].
  intros d Hd. apply checked_byId. by apply (check_edges_Ok g Hedges task).
Qed.

Lemma checked_dependents d :
  d ∈ ids -> NoDup (default [] (all_dependents (gi_tasks g) !! d)) /\
    forall t, t ∈ default [] (all_dependents (gi_tasks g) !! d) <-> t ∈ ids /\ d ∈ deps t.
Proof using Hread.
  intros (task & Ht & <-)%checked_ids. unfold all_dependents. rewrite lookup_fmap, all_pushed.
  - rewrite (fold_insert_lookup task_id (fun _ => []) _ _ task) by (done || apply (read_unique _ _ _ Hread)).
    cbn [fmap option_fmap option_map app default]. cbn. rewrite js_sort_Permutation. split.
    + unfold depending. assert (NoDup (List.map task_id (gi_tasks g))) as Hnd by apply (read_unique _ _ _ Hread). revert Hnd.
      clear. induction (gi_tasks g) as [|x l IH]; cbn [List.map List.filter]; [done|]. intros [Hx Hl]%NoDup_cons. specialize (IH Hl).
      case_bool_decide; [|done]. cbn. constructor; [|done]. intros Hin. apply Hx.
      apply list_elem_of_In, in_map_iff in Hin as (y & <- & [Hy _]%filter_In). by apply list_elem_of_In, in_map.
    + intros t. rewrite elem_of_js_sort. unfold depending. rewrite list_elem_of_In, in_map_iff. split.
      * intros (x & <- & [Hx%list_elem_of_In Hd%bool_decide_eq_true]%filter_In). split; [apply checked_ids; by exists x|by rewrite checked_dependencies].
      * intros [(x & Hx & <-)%checked_ids Hd]. rewrite checked_dependencies in Hd by done. exists x. split; [done|].
        apply filter_In. split; [by apply list_elem_of_In|by apply bool_decide_eq_true].
  - apply Forall_forall. intros x Hx. by apply (read_valid _ _ _ Hread).
Qed.

Lemma checked_edge t d : d ∈ deps t <-> depends raws t d.
Proof using Hread.
  unfold depends. rewrite <-(read_tasks_of _ _ _ Hread). split.
  - unfold deps, dependencies_of. destruct (gi_byId g !! t) as [task|] eqn:E; [|by intros ?%not_elem_of_nil].
    apply (read_byId _ _ _ Hread) in E as [Ht <-]. intros Hd. exists (mm_task task). split; [|done]. by apply list_elem_of_In, in_map, list_elem_of_In.
  - intros (task & Ht & <- & Hd). apply list_elem_of_In, in_map_iff in Ht as (x & <- & Hx%list_elem_of_In).
    change (d ∈ deps (task_id x)). by rewrite checked_dependencies.
Qed.

(** The loop starts from the tasks without dependencies. *)
Lemma initial_inv : layers_inv (gi_byId g) ids (initial_layers (gi_tasks g)).
Proof using Hread Hedges.
  set (ready := List.map task_id (List.filter (fun t => bool_decide (task_dependencies t = [])) (gi_tasks g))).
  assert (js_sort localeCompare ready ≡ₚ ready) as Hp by apply js_sort_Permutation.
  assert (forall t, t ∈ ready <-> t ∈ ids /\ deps t = []) as Hr.
  { intros t. unfold ready. rewrite list_elem_of_In, in_map_iff. split.
    - intros (x & <- & [Hx%list_elem_of_In Hd%bool_decide_eq_true]%filter_In). split; [apply checked_ids; by exists x|by rewrite checked_dependencies].
    - intros [(x & Hx & <-)%checked_ids Hd]. rewrite checked_dependencies in Hd by done. exists x. split; [done|].
      apply filter_In. split; [by apply list_elem_of_In|by apply bool_decide_eq_true]. }
  assert (NoDup ready) as Hnd.
  { apply NoDup_ListNoDup. pose proof (read_unique _ _ _ Hread) as H. apply NoDup_ListNoDup in H. unfold ready. revert H. clear.
    induction (gi_tasks g) as [|x l IH]; cbn [List.map List.filter]; [done|]. intros H. inversion_clear H. case_bool_decide; [|by apply IH].
    cbn. constructor; [|by apply IH]. rewrite in_map_iff. intros (y & E & [Hy _]%filter_In). by rewrite <-E in H0; apply H0, in_map. }
  split; cbn [initial_layers k_order k_ready k_layers k_depth k_indegree]; fold ready; try done.
  - eapply order_inv_Permutation; [by symmetry|]. split; cbn [app]; try done.
    + by intros t [? _]%Hr.
    + intros t (x & Hx & <-)%checked_ids. unfold initial_indegree.
      rewrite (fold_insert_lookup task_id (fun t => Z.of_nat (length (task_dependencies t))) _ _ x) by (done || apply (read_unique _ _ _ Hread)).
      cbn. unfold unmet. fold deps. rewrite checked_dependencies by done. f_equal. f_equal. symmetry. apply List.forallb_filter_id, forallb_forall.
      intros d _. apply bool_decide_eq_true, not_elem_of_nil.
    + intros t Ht Hu. apply Hr. split; [done|]. pose proof (proj1 (unmet_zero _ _ _) Hu) as Hd. fold deps in Hd.
      destruct (deps t) as [|d l]; [done|]. by pose proof (Hd d (list_elem_of_here _ _)) as ?%not_elem_of_nil.
    + intros t [_ Hd]%Hr. apply unmet_zero. fold deps. rewrite Hd. by intros d ?%not_elem_of_nil.
    + by intros [] t post.
  - eapply depth_inv_Permutation; [by symmetry|]. split; try (by intros t ?%not_elem_of_nil).
    + intros t. rewrite lookup_empty. split; [by intros []|by intros ?%not_elem_of_nil].
    + intros t [_ Hd]%Hr. fold deps. by rewrite Hd.
Qed.

(** What the loop leaves: an order of all the tasks, or the reason why there is none. *)
Lemma layered_graph_spec :
  match layered_graph g with
  | Ok dag => exists k, layers_inv (gi_byId g) ids k /\ k_ready k = [] /\ length (k_order k) = length ids /\
      dag = {| dag_tasks := js_sort by_taskId (gi_tasks g); dag_order := k_order k; dag_layers := k_layers k;
               dag_dependents := all_dependents (gi_tasks g); dag_depthByTask := k_depth k; dag_edgeCount := gi_edgeCount g |}
  | Err e => too_deep (gi_byId g) ids e \/ e = DAG_CYCLE /\ exists waiting, waiting_set (depends raws) waiting
  end.
Proof using Hread Hedges.
  unfold layered_graph. pose proof (read_unique _ _ _ Hread) as Hids.
  pose proof (layered_spec (gi_byId g) (all_dependents (gi_tasks g)) ids Hids checked_deps checked_dependents (length (gi_tasks g))
    (initial_layers (gi_tasks g)) initial_inv) as H.
  assert (length ids = length (gi_tasks g)) as Hlen by apply length_map. specialize (H (Nat.eq_le_incl _ _ Hlen)).
  unfold mbind, result_bind. destruct (layered _ _ _ _) as [k|e]; [|by left]. destruct H as [Hk Hr].
  case_bool_decide as E; cbn.
  - exists k. split_and!; try done. by rewrite Hlen.
  - right. split; [done|]. destruct (layers_end _ _ Hids checked_deps k Hk Hr) as [E'|[waiting Hw]]; [by rewrite length_map in E'|].
    exists waiting. eapply waiting_mono; [|exact Hw]. intros t d. apply checked_edge.
Qed.
End checked.

(** A complete order is a permutation of the tasks. *)
Lemma ordered_all byId ids k : layers_inv byId ids k -> k_ready k = [] -> length (k_order k) = length ids -> NoDup ids -> k_order k ≡ₚ ids.
Proof.
  intros Hk Hr Hlen Hids. pose proof (layers_order _ _ _ Hk) as Ho. rewrite Hr in Ho. apply NoDup_Permutation_bis_length; [|done|].
  - pose proof (inv_nodup _ _ _ _ _ Ho) as H. by rewrite app_nil_r in H.
  - intros t Ht. apply (inv_ids _ _ _ _ _ Ho). by rewrite app_nil_r.
Qed.
End facts.
