(* ===== verification/Effects.v ===== *)
(** Effects: programs that act on the outside world and may throw, and a small
    calculus for what holds after they have run. *)
From S2P Require Import Prelude.

(** * Commands *)

(** A command runs in a world of type [W], which it may change, and returns or
    throws; what it has done to the world before it throws stays done. *)
Definition effect (W E A : Type) : Type := W -> W * result E A.

#[export] Instance effect_ret {W E} : MRet (effect W E) := fun A a w => (w, Ok a).
#[export] Instance effect_bind {W E} : MBind (effect W E) := fun A B k c w =>
  let (w', r) := c w in match r with Ok a => k a w' | Err e => (w', Err e) end.

(** A pure computation that may throw. *)
Definition eff_of {W E A} (r : result E A) : effect W E A := fun w => (w, r).

(** [try { a = c } catch (e) { return fail(e) } return ok(a)] *)
Definition eff_try {W E F A B} (c : effect W E A) (ok : A -> effect W F B) (fail : E -> effect W F B) : effect W F B := fun w =>
  let (w', r) := c w in match r with Ok a => ok a w' | Err e => fail e w' end.

(** A foreign error goes on as one of the caller's. *)
Definition eff_under {W E F A} (f : E -> F) (c : effect W E A) : effect W F A := fun w => let (w', r) := c w in (w', map_err f r).

(** A loop over a list whose body is a command. *)
Fixpoint eff_fold {W E A B} (f : A -> B -> effect W E A) (a : A) (l : list B) : effect W E A :=
  match l with
  | [] => mret a
  | b :: l' => a' ← f a b; eff_fold f a' l'
  end.

(** * What holds afterwards *)

Section after.
Context {W : Type}.
Implicit Types w : W.

(** [Q] holds of the world and the outcome when [c] has run in [w]. *)
Definition after {E A} (c : effect W E A) w (Q : W -> result E A -> Prop) : Prop := Q (c w).1 (c w).2.

Lemma after_run {E A} (c : effect W E A) w Q w' r : after c w Q -> c w = (w', r) -> Q w' r.
Proof. unfold after. intros H Hr. by rewrite Hr in H. Qed.

Lemma after_bind {E A B} (c : effect W E A) (k : A -> effect W E B) w (Q : W -> result E B -> Prop) :
  after c w (fun w' r => match r with Ok a => after (k a) w' Q | Err e => Q w' (Err e) end) -> after (mbind k c) w Q.
Proof. unfold after, mbind, effect_bind. by destruct (c w) as [w' [a|e]]. Qed.

Lemma after_try {E F A B} (c : effect W E A) (ok : A -> effect W F B) fail w (Q : W -> result F B -> Prop) :
  after c w (fun w' r => match r with Ok a => after (ok a) w' Q | Err e => after (fail e) w' Q end) -> after (eff_try c ok fail) w Q.
Proof. unfold after, eff_try. by destruct (c w) as [w' [a|e]]. Qed.

Lemma after_under {E F A} (f : E -> F) (c : effect W E A) w (Q : W -> result F A -> Prop) :
  after c w (fun w' r => Q w' (map_err f r)) -> after (eff_under f c) w Q.
Proof. unfold after, eff_under. by destruct (c w). Qed.

Lemma after_of {E A} (r : result E A) w (Q : W -> result E A -> Prop) : Q w r -> after (eff_of r) w Q.
Proof. done. Qed.

Lemma after_mono {E A} (c : effect W E A) w (P Q : W -> result E A -> Prop) :
  after c w P -> (forall w' r, P w' r -> Q w' r) -> after c w Q.
Proof. unfold after. auto. Qed.

Lemma after_and {E A} (c : effect W E A) w (P Q : W -> result E A -> Prop) :
  after c w P -> after c w Q -> after c w (fun w' r => P w' r /\ Q w' r).
Proof. by split. Qed.

(** * Commands that keep a relation between the worlds *)

Section keeps.
Context (R : relation W) `{!PreOrder R}.

Definition keeps {E A} (c : effect W E A) : Prop := forall w, after c w (fun w' _ => R w w').

Lemma keeps_run {E A} (c : effect W E A) w w' r : keeps c -> c w = (w', r) -> R w w'.
Proof using. intros Hc Hr. pose proof (Hc w) as H. unfold after in H. by rewrite Hr in H. Qed.

Lemma keeps_of {E A} (r : result E A) : keeps (eff_of r).
Proof using Type*. intros w. unfold after. cbn. reflexivity. Qed.

Lemma keeps_ret {E A} (a : A) : keeps (mret (M:=effect W E) a).
Proof using Type*. intros w. unfold after. cbn. reflexivity. Qed.

Lemma keeps_bind {E A B} (c : effect W E A) (k : A -> effect W E B) : keeps c -> (forall a, keeps (k a)) -> keeps (mbind k c).
Proof using Type*.
  intros Hc Hk w. apply after_bind. eapply after_mono; [apply Hc|]. intros w' [a|e] Hw; [|done].
  eapply after_mono; [apply Hk|]. intros w'' r Hw'. by etransitivity.
Qed.

Lemma keeps_try {E F A B} (c : effect W E A) (ok : A -> effect W F B) fail :
  keeps c -> (forall a, keeps (ok a)) -> (forall e, keeps (fail e)) -> keeps (eff_try c ok fail).
Proof using Type*.
  intros Hc Hk Hf w. apply after_try. eapply after_mono; [apply Hc|].
  intros w' [a|e] Hw; (eapply after_mono; [apply Hk || apply Hf|]); intros w'' r Hw'; by etransitivity.
Qed.

Lemma keeps_under {E F A} (f : E -> F) (c : effect W E A) : keeps c -> keeps (eff_under f c).
Proof using. intros Hc w. apply after_under. eapply after_mono; [apply Hc|done]. Qed.

Lemma keeps_fold {E A B} (f : A -> B -> effect W E A) a l : (forall a b, keeps (f a b)) -> keeps (eff_fold f a l).
Proof using Type*.
  intros Hf. revert a. induction l as [|b l IH]; intros a; cbn; [apply keeps_ret|]. apply keeps_bind; [apply Hf|intros a'; apply IH].
Qed.

(** First a command that keeps [R], and then the rest. *)
Lemma after_keeps {E A B} (c : effect W E A) (k : A -> effect W E B) w (Q : W -> result E B -> Prop) :
  keeps c -> (forall w' a, R w w' -> after (k a) w' Q) -> (forall w' e, R w w' -> Q w' (Err e)) -> after (mbind k c) w Q.
Proof using. intros Hc Hk He. apply after_bind. eapply after_mono; [apply Hc|]. intros w' [a|e] Hw; auto. Qed.
End keeps.
End after.
