(* ===== verification/Lists.v ===== *)
(** Lists: updating the entries of a key, optional members of entries, finding
    and counting; what the folds over vectors of repositories share. *)
From S2P Require Import Prelude.

(** * Presence *)

(** [o === undefined] and its negation. *)
Definition lacks {A} (o : option A) : bool := match o with Some _ => false | None => true end.
Definition has {A} (o : option A) : bool := match o with Some _ => true | None => false end.

Lemma has_is_Some {A} (o : option A) : has o = true <-> is_Some o.
Proof. destruct o; cbn; split; [eauto|done|done|by intros [? [=]]]. Qed.

Lemma lacks_has {A} (o : option A) : lacks o = negb (has o).
Proof. by destruct o. Qed.

Lemma lacks_None {A} (o : option A) : lacks o = true <-> o = None.
Proof. by destruct o. Qed.

Lemma existsb_false {A} (f : A -> bool) l : existsb f l = false <-> Forall (fun a => f a = false) l.
Proof. rewrite Forall_forall. setoid_rewrite list_elem_of_In. rewrite <-not_true_iff_false, existsb_exists. split.
  - intros H a Ha. apply not_true_iff_false. intros Hf. apply H. eauto.
  - intros H (a & Ha & Hf). by rewrite H in Hf.
Qed.

Lemma none_lack {A B} (f : A -> option B) l : negb (existsb (fun a => lacks (f a)) l) = true <-> Forall (fun a => is_Some (f a)) l.
Proof.
  rewrite negb_true_iff, existsb_false. split; intros H; eapply Forall_impl; try exact H; cbn; intros a; rewrite lacks_has, negb_false_iff; apply has_is_Some.
Qed.

Lemma some_has {A B} (f : A -> option B) l : existsb (fun a => has (f a)) l = true <-> exists a, a ∈ l /\ is_Some (f a).
Proof. rewrite existsb_exists. setoid_rewrite has_is_Some. by setoid_rewrite list_elem_of_In. Qed.

Lemma none_pending {A B C'} (f : A -> option B) (g : A -> option C') l :
  negb (existsb (fun a => has (f a) && lacks (g a)) l) = true <-> Forall (fun a => is_Some (f a) -> is_Some (g a)) l.
Proof.
  rewrite negb_true_iff, existsb_false. split; intros H; eapply Forall_impl; try exact H; cbn; intros a; rewrite lacks_has, <-!has_is_Some;
    destruct (has (f a)), (has (g a)); cbn; try done; by intros ?%(fun H => H eq_refl).
Qed.

(** * Finding *)

Lemma find_split {A} (f : A -> bool) l a : List.find f l = Some a -> exists pre post, l = pre ++ a :: post /\ f a = true /\ Forall (fun x => f x = false) pre.
Proof.
  induction l as [|x l IH]; [done|]. cbn. destruct (f x) eqn:Ex.
  - intros [= <-]. by exists [], l.
  - intros (pre & post & -> & Ha & Hpre)%IH. exists (x :: pre), post. split; [done|]. split; [done|by constructor].
Qed.

Lemma find_None {A} (f : A -> bool) l : List.find f l = None -> Forall (fun x => f x = false) l.
Proof. induction l as [|x l IH]; [done|]. cbn. destruct (f x) eqn:E; [done|]. intros H. constructor; auto. Qed.

Lemma find_elem {A} (f : A -> bool) l a : List.find f l = Some a -> a ∈ l /\ f a = true.
Proof. intros [Ha Hf]%find_some. by rewrite list_elem_of_In. Qed.

Lemma find_lacks {A B} (f : A -> option B) l a : List.find (fun a => lacks (f a)) l = Some a -> a ∈ l /\ f a = None.
Proof. intros [Ha Hf%lacks_None]%find_elem. done. Qed.

Lemma find_no_lacks {A B} (f : A -> option B) l : List.find (fun a => lacks (f a)) l = None -> Forall (fun a => is_Some (f a)) l.
Proof. intros H%find_None. apply none_lack, negb_true_iff, existsb_false, H. Qed.

Lemma NoDup_map_inj {A B} (f : A -> B) l a b : NoDup (List.map f l) -> a ∈ l -> b ∈ l -> f a = f b -> a = b.
Proof.
  intros Hn Ha Hb E. induction l as [|x l IH]; [by apply not_elem_of_nil in Ha|]. cbn in Hn. apply NoDup_cons in Hn as [Hx Hn].
  assert (forall y, y ∈ l -> f x <> f y) as Hne. { intros y Hy Exy. apply Hx. rewrite Exy. by apply list_elem_of_In, in_map, list_elem_of_In. }
  apply elem_of_cons in Ha as [->|Ha], Hb as [->|Hb]; [done| | |by apply IH].
  - by destruct (Hne _ Hb).
  - by destruct (Hne _ Ha).
Qed.

Lemma Forall2_elem_r {A B} (R : A -> B -> Prop) l l' b : Forall2 R l l' -> b ∈ l' -> exists a, a ∈ l /\ R a b.
Proof. intros Hl [i Hi]%list_elem_of_lookup. destruct (Forall2_lookup_r _ _ _ _ _ Hl Hi) as (a & Ha & HR). exists a. split; [by eapply list_elem_of_lookup_2|done]. Qed.

(** * Updating the entries of a key *)

Section replace.
Context {A E : Type} (key : A -> string).
Implicit Types (update : A -> result E A) (l : list A).

(** Every entry of the key is updated; there must be one. *)
Definition replace_keyed (e : E) (l : list A) (id : string) (update : A -> result E A) : result E (list A) :=
  next ← map_result (fun entry => if bool_decide (key entry = id) then update entry else Ok entry) l;
  ensure (existsb (fun entry => bool_decide (key entry = id)) l) e ;;
  Ok next.

Definition replaced (id : string) (update : A -> result E A) (a b : A) : Prop :=
  (key a = id /\ update a = Ok b) \/ (key a <> id /\ b = a).

(** An entry with this id is replaced. *)
Definition replaces id update l l' : Prop := Forall2 (replaced id update) l l' /\ exists a, a ∈ l /\ key a = id.

Lemma replace_keyed_Ok e l id update l' : replace_keyed e l id update = Ok l' <-> replaces id update l l'.
Proof.
  unfold replace_keyed, replaces. rewrite bind_Ok. setoid_rewrite map_result_Ok.
  assert (forall l l', Forall2 (fun a b => (if bool_decide (key a = id) then update a else Ok a) = Ok b) l l' <->
    Forall2 (replaced id update) l l') as Hf.
  { intros k k'. split; intros Hl; eapply Forall2_impl; try exact Hl; unfold replaced; intros a b; case_bool_decide; [tauto| |tauto|].
    - intros [= ->]. tauto.
    - intros [?|[_ ->]]; tauto. }
  setoid_rewrite Hf. split.
  - intros (next & Hn & H). apply bind_Ok in H as ([] & He & [= <-]). apply ensure_Ok in He. split; [done|].
    apply existsb_exists in He as (a & Ha%list_elem_of_In & Hid). apply bool_decide_eq_true in Hid. eauto.
  - intros [Hn (a & Ha & Hid)]. exists l'. split; [done|]. apply bind_Ok. exists tt. split; [|done]. apply ensure_Ok, existsb_exists.
    exists a. rewrite <-list_elem_of_In. split; [done|]. by apply bool_decide_eq_true.
Qed.

Lemma replaced_Forall id update (P : A -> Prop) l l' :
  Forall2 (replaced id update) l l' -> (forall a b, P a -> update a = Ok b -> P b) -> Forall P l -> Forall P l'.
Proof.
  intros Hl Hu. induction Hl as [|a b l l' Hab Hl IH]; [done|]. intros [Ha HP]%Forall_cons. constructor; [|by apply IH].
  destruct Hab as [[_ Hab]|[_ ->]]; eauto.
Qed.

Lemma replaced_map {B} id update (f : A -> B) l l' :
  Forall2 (replaced id update) l l' -> (forall a b, update a = Ok b -> f b = f a) -> List.map f l' = List.map f l.
Proof. intros Hl Hu. induction Hl as [|a b l l' [[_ Hab]|[_ ->]] Hl IH]; cbn; [done| |]; f_equal; eauto. Qed.

(** With unique keys one entry is updated. *)
Lemma replaces_one l e b update : NoDup (List.map key l) -> e ∈ l -> update e = Ok b -> exists l', replaces (key e) update l l'.
Proof.
  intros Hn He Hu.
  assert (forall k, (forall x, x ∈ k -> x ∈ l) -> exists k', Forall2 (replaced (key e) update) k k') as Hk.
  { induction k as [|x k IH]; intros Hin; [by exists []|]. destruct IH as [k' Hk']; [intros y Hy; by apply Hin, list_elem_of_further|].
    destruct (decide (key x = key e)) as [Ex|Ex].
    - assert (x = e) as -> by (eapply NoDup_map_inj; [exact Hn|apply Hin, list_elem_of_here|done|done]). exists (b :: k'). constructor; [by left|done].
    - exists (x :: k'). constructor; [by right|done]. }
  destruct (Hk l) as [l' Hl']; [done|]. exists l'. split; [done|]. by exists e.
Qed.
End replace.

(** * Counting *)

Definition count_if {A} (f : A -> bool) (l : list A) : nat := length (List.filter f l).

Lemma count_if_cons {A} (f : A -> bool) a l : count_if f (a :: l) = ((if f a then 1 else 0) + count_if f l)%nat.
Proof. unfold count_if. cbn. by destruct (f a). Qed.

Lemma count_le {A} (f : A -> bool) l : (count_if f l <= length l)%nat.
Proof. induction l as [|a l IH]; [done|]. rewrite count_if_cons. cbn. destruct (f a); lia. Qed.

Lemma count_pos {A} (f : A -> bool) l a : a ∈ l -> f a = true -> (1 <= count_if f l)%nat.
Proof.
  intros Ha Hf. induction l as [|x l IH]; [by apply not_elem_of_nil in Ha|]. rewrite count_if_cons.
  apply elem_of_cons in Ha as [<-|Ha]; [rewrite Hf; lia|]. specialize (IH Ha). lia.
Qed.

(** Fewer, when nothing is gained and something is lost. *)
Lemma count_fewer {A} (R : A -> A -> Prop) (f : A -> bool) l l' :
  Forall2 R l l' -> (forall a b, R a b -> f b = true -> f a = true) ->
  (count_if f l' <= count_if f l)%nat /\ forall e, e ∈ l -> f e = true -> (forall b, R e b -> f b = false) -> (count_if f l' < count_if f l)%nat.
Proof.
  intros Hl HR. induction Hl as [|a b l l' Hab Hl [IH1 IH2]]; [split; [done|by intros e He%not_elem_of_nil]|]. rewrite !count_if_cons. split.
  - destruct (f b) eqn:E; [rewrite (HR _ _ Hab E)|destruct (f a)]; lia.
  - intros e He Hf Hlost. apply elem_of_cons in He as [->|He].
    + rewrite Hf, (Hlost _ Hab). lia.
    + specialize (IH2 e He Hf Hlost). destruct (f b) eqn:E; [rewrite (HR _ _ Hab E)|destruct (f a)]; lia.
Qed.

(** * Maps that may fail *)

Lemma mapM_omap {A B} (f : A -> option B) l k : mapM f l = Some k -> omap f l = k.
Proof.
  intros H%mapM_Some. induction H as [|a b l k Hab _ IH]; [done|]. cbn. rewrite Hab. by f_equal.
Qed.
