(* ===== verification/Money.v ===== *)
(** Money: the exact amounts of src/money.ts. An amount is an integer number of
    nano-dollars; a number of dollars comes in as the shortest decimal text that
    names it, [String(v)], and is converted without rounding or refused. *)
From Stdlib Require Import QArith Qpower.
From S2P Require Import Prelude Text Json Ids ScmTypes ControlEvents EventSchema EventCode JsonText.

#[local] Open Scope Z_scope.

Definition NANO_PER_USD : Z := 1000000000.
Definition MAX_NANO : Z := 1000000000 * NANO_PER_USD.
Definition MAX_ABS_EXP : Z := 40.

Inductive MoneyError :=
| not_decimal | exponent_out_of_range | over_precision
| not_a_number | not_finite | negative_amount | amount_too_large | not_nano_string.

(** * Decimal texts *)

Definition is_decimal_digit (c : Z) : bool := isSome (digit_value c).

Fixpoint take_digits (t : text) : text * text :=
  match t with
  | c :: t' => if is_decimal_digit c then let '(ds, r) := take_digits t' in (c :: ds, r) else ([], t)
  | [] => ([], [])
  end.

(** [BigInt(digits)] *)
Definition digits_value (ds : text) : Z := foldl (fun n c => 10 * n + default 0 (digit_value c)) 0 ds.

(** [(\d+)], when there is a digit. *)
Definition some_digits (t : text) : option (text * text) :=
  match take_digits t with ([], _) => None | (ds, r) => Some (ds, r) end.

Record Decimal := { dec_int : text; dec_frac : text; dec_exp : Z }.

(** [/^(\d+)(?:\.(\d+))?(?:[eE]([+-]?\d+))?$/], and the exponent as a number. *)
Definition DECIMAL (s : text) : option Decimal :=
  '(int, r) ← some_digits s;
  '(frac, r) ← match r with 46 :: r' => some_digits r' | _ => Some ([], r) end;
  match r with
  | [] => Some {| dec_int := int; dec_frac := frac; dec_exp := 0 |}
  | c :: r' =>
      if (c =? 101) || (c =? 69) then
        let '(sign, r') := match r' with 43 :: r'' => (1, r'') | 45 :: r'' => (-1, r'') | _ => (1, r') end in
        '(ds, r'') ← some_digits r';
        if bool_decide (r'' = []) then Some {| dec_int := int; dec_frac := frac; dec_exp := sign * digits_value ds |} else None
      else None
  end.

(** The digits as one number, and the power of ten they are scaled by. *)
Definition dec_digits (d : Decimal) : Z := digits_value (dec_int d ++ dec_frac d).
Definition dec_scale (d : Decimal) : Z := dec_exp d - Z.of_nat (length (dec_frac d)).

Definition decimalToNano (s : text) : result MoneyError Z :=
  match DECIMAL s with
  | None => Err not_decimal
  | Some d =>
      ensure (isSafeInteger (dec_exp d) && (Z.abs (dec_exp d) <=? MAX_ABS_EXP)) exponent_out_of_range ;;
      let scale := 9 + dec_exp d - Z.of_nat (length (dec_frac d)) in
      let n := dec_digits d in
      if 0 <=? scale then Ok (n * 10 ^ scale)
      else
        let div := 10 ^ (- scale) in
        ensure (n mod div =? 0) over_precision ;;
        Ok (n / div)
  end.

(** * Amounts *)

(** What may be passed as an amount: anything that is not a number, or a number
    by its kind; a finite one that is not zero with the decimal text of its
    absolute value. *)
Inductive Amount :=
| amount_other
| amount_nan
| amount_infinite
| amount_zero
| amount_finite (negative : bool) (digits : text).

Definition usdToNano (v : Amount) : result MoneyError Z :=
  match v with
  | amount_other => Err not_a_number
  | amount_nan | amount_infinite => Err not_finite
  | amount_zero => Ok 0
  | amount_finite true _ => Err negative_amount
  | amount_finite false s =>
      n ← decimalToNano s;
      ensure (negb (MAX_NANO <? n)) amount_too_large ;;
      Ok n
  end.

(** A durable amount: [/^\d+$/], of at most [MAX_NANO]. *)
Definition parseNano (v : json) : result MoneyError Z :=
  match v with
  | JString s =>
      ensure (negb (bool_decide (s = [])) && forallb is_decimal_digit s) not_nano_string ;;
      let n := digits_value s in
      ensure (negb (MAX_NANO <? n)) amount_too_large ;;
      Ok n
  | _ => Err not_nano_string
  end.

Definition isNanoString (v : json) : bool := is_ok (parseNano v).

Definition formatNano (n : Z) : text := text_of_string (num_to_string n).

(** * Exactness *)

(** The rational number a decimal names. *)
Definition decimal_value (d : Decimal) : Q := (inject_Z (dec_digits d) * Qpower 10 (dec_scale d))%Q.

Lemma Qpower_10_Z k : 0 <= k -> (Qpower 10 k == inject_Z (10 ^ k))%Q.
Proof. intros Hk. by rewrite (Zpower_Qpower 10 k Hk). Qed.

Lemma decimal_nano_value d k : k = 9 + dec_scale d ->
  (decimal_value d * inject_Z NANO_PER_USD == inject_Z (dec_digits d) * Qpower 10 k)%Q.
Proof.
  intros ->. unfold decimal_value. rewrite Qpower_plus by discriminate.
  assert (inject_Z NANO_PER_USD == Qpower 10 9)%Q as -> by (rewrite Qpower_10_Z by lia; reflexivity). ring.
Qed.

(** The amount a decimal text is converted to is its value, and a text in range
    whose value is a whole number of nano-dollars is converted. *)
Lemma decimalToNano_spec s n :
  decimalToNano s = Ok n <->
  exists d, DECIMAL s = Some d /\ Z.abs (dec_exp d) <= MAX_ABS_EXP /\ (decimal_value d * inject_Z NANO_PER_USD == inject_Z n)%Q.
Proof.
  unfold decimalToNano. destruct (DECIMAL s) as [d|]; [|split; [discriminate|by intros (? & ? & _)]].
  assert (forall e, isSafeInteger e && (Z.abs e <=? MAX_ABS_EXP) = true <-> Z.abs e <= MAX_ABS_EXP) as Hexp.
  { intros e. unfold isSafeInteger, MAX_ABS_EXP. split; intros H; [guards; lia|].
    rewrite !andb_true_iff, !Z.leb_le. assert (MAX_SAFE_INTEGER >= 40) by (vm_compute; discriminate). lia. }
  destruct (isSafeInteger (dec_exp d) && (Z.abs (dec_exp d) <=? MAX_ABS_EXP)) eqn:He.
  2:{ cbn. split; [discriminate|]. intros (d' & [= <-] & Hd & _). apply Hexp in Hd. congruence. }
  apply Hexp in He. cbn. unfold dec_scale.
  transitivity (inject_Z (dec_digits d) * Qpower 10 (9 + dec_scale d) == inject_Z n)%Q.
  2:{ rewrite <-(decimal_nano_value d _ eq_refl). split; [eauto|]. by intros (d' & [= <-] & _ & ?). }
  replace (9 + dec_exp d - Z.of_nat (length (dec_frac d))) with (9 + dec_scale d) by (unfold dec_scale; lia).
  generalize (9 + dec_scale d) (dec_digits d). clear. intros k m. destruct (Z.leb_spec 0 k) as [Hk|Hk].
  - rewrite Qpower_10_Z, <-inject_Z_mult, inject_Z_injective by done. split; congruence.
  - rewrite <-(Z.opp_involutive k) at 2. rewrite Qpower_opp, Qpower_10_Z by lia. set (div := 10 ^ (- k)).
    assert (0 < div) as Hdiv by (apply Z.pow_pos_nonneg; lia).
    assert (~ inject_Z div == 0)%Q as Hne by (change 0%Q with (inject_Z 0); rewrite inject_Z_injective; lia).
    assert (((inject_Z m * / inject_Z div == inject_Z n)%Q) <-> (m = n * div)) as ->.
    { rewrite <-(inject_Z_injective m), inject_Z_mult. split; intros H; [rewrite <-H; by field|rewrite H; by field]. }
    destruct (Z.eqb_spec (m mod div) 0) as [Hm|Hm]; cbn.
    + split; [intros [= <-]|intros ->; by rewrite Z.div_mul by lia]. pose proof (Z.div_mod m div ltac:(lia)). lia.
    + split; [discriminate|]. intros ->. by rewrite Z.mod_mul in Hm by lia.
Qed.

(** * Bounds and round trips *)

Lemma digit_value_bounds c d : digit_value c = Some d -> 0 <= d < 10.
Proof. unfold digit_value. intros H. case_match; simplify_eq. guards. lia. Qed.

Lemma digits_value_nonneg ds : 0 <= digits_value ds.
Proof.
  unfold digits_value. assert (forall acc, 0 <= acc -> 0 <= foldl (fun n c => 10 * n + default 0 (digit_value c)) acc ds) as H; [|by apply H].
  induction ds as [|c ds IH]; intros acc Hacc; cbn; [done|]. apply IH.
  destruct (digit_value c) as [d|] eqn:Hd; cbn; [apply digit_value_bounds in Hd|]; lia.
Qed.

Lemma decimalToNano_nonneg s n : decimalToNano s = Ok n -> 0 <= n.
Proof.
  unfold decimalToNano. destruct (DECIMAL s) as [d|]; [|discriminate]. intros H. apply bind_Ok in H as (_ & _ & H).
  pose proof (digits_value_nonneg (dec_int d ++ dec_frac d)) as Hd. cbv zeta in H. fold (dec_digits d) in Hd.
  destruct (Z.leb_spec 0 (9 + dec_exp d - Z.of_nat (length (dec_frac d)))) as [Hs|Hs].
  - injection H as <-. pose proof (Z.pow_nonneg 10 (9 + dec_exp d - Z.of_nat (length (dec_frac d)))). lia.
  - apply bind_Ok in H as (_ & _ & [= <-]). apply Z.div_pos; [done|]. apply Z.pow_pos_nonneg; lia.
Qed.

(** An amount that comes in is never negative and never above the maximum. *)
Lemma usdToNano_bounds v n : usdToNano v = Ok n -> 0 <= n <= MAX_NANO.
Proof.
  destruct v as [| | | |[] s]; cbn; try discriminate; [intros [= <-]; unfold MAX_NANO, NANO_PER_USD; lia|].
  intros H. apply bind_Ok in H as (m & Hm & H). apply bind_Ok in H as (_ & Hle%ensure_Ok & [= <-]).
  apply decimalToNano_nonneg in Hm. guards. lia.
Qed.

Lemma parseNano_bounds v n : parseNano v = Ok n -> 0 <= n <= MAX_NANO.
Proof.
  destruct v as [| | | |s| |]; cbn; try discriminate. intros H. apply bind_Ok in H as (_ & _ & H).
  apply bind_Ok in H as (_ & Hle%ensure_Ok & [= <-]). pose proof (digits_value_nonneg s). guards. lia.
Qed.

Lemma read_digits_value ds acc : forallb is_decimal_digit ds = true ->
  read_number_digits acc ds = (foldl (fun n c => 10 * n + default 0 (digit_value c)) acc ds, []).
Proof.
  revert acc; induction ds as [|c ds IH]; intros acc; cbn; [done|]. unfold is_decimal_digit at 1.
  destruct (digit_value c) as [d|]; [|done]. cbn. apply IH.
Qed.

Lemma formatNano_digits n : 0 <= n ->
  formatNano n <> [] /\ forallb is_decimal_digit (formatNano n) = true /\ digits_value (formatNano n) = n.
Proof.
  intros Hn. unfold formatNano, num_to_string.
  assert (pretty n = pretty (Z.to_N n)) as -> by (unfold pretty, pretty_Z; destruct n; [done|done|lia]).
  pose proof (read_natural_pretty (Z.to_N n) [] eq_refl) as Hr. rewrite app_nil_r, Z2N.id in Hr by done.
  assert (forallb is_decimal_digit (text_of_string (pretty (Z.to_N n))) = true) as Hd.
  { unfold pretty, pretty_N. case_decide; [done|]. assert (forallb is_decimal_digit (text_of_string EmptyString) = true) as H0 by done.
    revert H0. generalize (EmptyString). generalize (Z.to_N n). intros x. induction (N.lt_wf_0 x) as [x _ IH]. intros s Hs.
    destruct (decide (x = 0)%N) as [->|Hx]; [by rewrite pretty_N_go_0|]. rewrite pretty_N_go_step by lia.
    apply IH; [apply N.div_lt; lia|]. cbn [text_of_string forallb]. rewrite Hs, andb_true_r. unfold is_decimal_digit.
    change (Z.of_N (Ascii.N_of_ascii (pretty_N_char (x `mod` 10)%N))) with (chr (pretty_N_char (x `mod` 10)%N)).
    by rewrite digit_value_char by (apply N.mod_lt; lia). }
  split; [intros E; rewrite E in Hr; discriminate Hr|]. split; [done|].
  unfold read_natural in Hr. destruct (text_of_string (pretty (Z.to_N n))) as [|c l] eqn:E; [discriminate Hr|].
  destruct (expect 48 (c :: l)) as [l'|] eqn:Hx; cbn in Hx.
  - destruct (Z.eqb_spec c 48) as [->|]; [|discriminate]. injection Hx as ->. injection Hr as <- ->. reflexivity.
  - destruct (starts_digit (c :: l)); [|discriminate]. injection Hr as Hr.
    change (digits_value (c :: l) = n). unfold digits_value.
    pose proof (read_digits_value (c :: l) 0 Hd) as Hv. cbn in Hv, Hr. rewrite Hv in Hr. by injection Hr.
Qed.

(** A durable amount comes back as it was written. *)
Lemma parseNano_formatNano n : 0 <= n <= MAX_NANO -> parseNano (JString (formatNano n)) = Ok n.
Proof.
  intros Hn. destruct (formatNano_digits n) as (Hne & Hd & Hv); [lia|]. cbn. rewrite Hd, bool_decide_eq_false_2 by done. cbn.
  rewrite Hv. destruct (Z.ltb_spec MAX_NANO n); [lia|]. done.
Qed.

(** Only zero is written with a zero first. *)
Lemma formatNano_head n : 0 < n -> head (formatNano n) <> Some 48.
Proof.
  intros Hn E. unfold formatNano, num_to_string in E.
  assert (pretty n = pretty (Z.to_N n)) as Hp by (unfold pretty, pretty_Z; destruct n; [done|done|lia]). rewrite Hp in E.
  pose proof (read_natural_pretty (Z.to_N n) [] eq_refl) as Hr. rewrite app_nil_r, Z2N.id in Hr by lia.
  destruct (text_of_string (pretty (Z.to_N n))) as [|c l]; [discriminate|]. injection E as ->. cbn in Hr. injection Hr as <- _. lia.
Qed.
