(* ===== verification/Stringify.v ===== *)
(** Stringify: the texts that are written to files and read back. UTF-8 as Node
    encodes and decodes it ([Buffer.from(text, 'utf8')], [buffer.toString('utf8')],
    whose decoder replaces what is not UTF-8 by U+FFFD as the Encoding standard
    says) and that decoding undoes encoding; [JSON.stringify] of the ECMAScript
    standard library, what of its output [JSON.parse] still reads when it is cut
    short or written over, and the law of readers that take a value back from it. *)
From S2P Require Import Prelude Text Json Ids ScmTypes ControlEvents EventSchema EventCode JsonText.

Set Warnings "-register-all".

(** * Encoding *)

Definition is_surrogate (cp : Z) : bool := between 55296 57343 cp.

Definition bytes_of (cp : Z) : list Z :=
  if cp <? 128 then [cp]
  else if cp <? 2048 then [192 + cp / 64; 128 + cp mod 64]
  else if cp <? 65536 then [224 + cp / 4096; 128 + cp / 64 mod 64; 128 + cp mod 64]
  else [240 + cp / 262144; 128 + cp / 4096 mod 64; 128 + cp / 64 mod 64; 128 + cp mod 64].

(** A lone surrogate is written as U+FFFD. *)
Definition utf8_encode (t : text) : list Z :=
  concat (List.map (fun cp => bytes_of (if is_surrogate cp then 65533 else cp)) (code_points t)).

(** * Decoding *)

(** The code units of a code point. *)
Definition units_of (cp : Z) : text :=
  if cp <? 65536 then [cp] else [55296 + (cp - 65536) / 1024; 56320 + (cp - 65536) mod 1024].

(** Within a character: how many bytes are to come, the bounds of the next one,
    and the bits so far. *)
Record Utf8Partial := { up_needed : nat; up_lower : Z; up_upper : Z; up_bits : Z }.

(** The first byte of a character: the units it gives, and what is awaited. *)
Definition utf8_start (b : Z) : text * option Utf8Partial :=
  let await n lower upper bits := ([], Some {| up_needed := n; up_lower := lower; up_upper := upper; up_bits := bits |}) in
  if b <? 128 then ([b], None)
  else if between 194 223 b then await 1%nat 128 191 (b - 192)
  else if b =? 224 then await 2%nat 160 191 0
  else if b =? 237 then await 2%nat 128 159 13
  else if between 225 239 b then await 2%nat 128 191 (b - 224)
  else if b =? 240 then await 3%nat 144 191 0
  else if b =? 244 then await 3%nat 128 143 4
  else if between 241 243 b then await 3%nat 128 191 (b - 240)
  else ([65533], None).

Fixpoint utf8_decode_from (partial : option Utf8Partial) (bs : list Z) : text :=
  match bs with
  | [] => match partial with Some _ => [65533] | None => [] end
  | b :: bs' =>
      match partial with
      | None => let '(out, p) := utf8_start b in out ++ utf8_decode_from p bs'
      | Some p =>
          if between p.(up_lower) p.(up_upper) b then
            let bits := 64 * p.(up_bits) + (b - 128) in
            match p.(up_needed) with
            | S (S n) => utf8_decode_from (Some {| up_needed := S n; up_lower := 128; up_upper := 191; up_bits := bits |}) bs'
            | _ => units_of bits ++ utf8_decode_from None bs'
            end
          else let '(out, p') := utf8_start b in 65533 :: out ++ utf8_decode_from p' bs'
      end
  end.

Definition utf8_decode (bs : list Z) : text := utf8_decode_from None bs.

Example utf8_decode_ex :
  utf8_decode ([240; 159; 152; 128] ++ [97; 226; 130] ++ [98; 192; 128; 237; 160; 128; 195; 169] ++ [226; 130])
  = [55357; 56832; 97; 65533; 98; 65533; 65533; 65533; 65533; 65533; 233; 65533].
Proof. reflexivity. Qed.

(** * Texts without lone surrogates *)

Definition scalar (cp : Z) : Prop := 0 <= cp < 55296 \/ 57344 <= cp < 1114112.

Definition text_of_points (cps : list Z) : text := concat (List.map units_of cps).

Definition well_formed (t : text) : Prop := exists cps, Forall scalar cps /\ t = text_of_points cps.

Lemma well_formed_nil : well_formed [].
Proof. by exists []. Qed.

Lemma well_formed_app t u : well_formed t -> well_formed u -> well_formed (t ++ u).
Proof.
  intros (a & Ha & ->) (b & Hb & ->). exists (a ++ b). split; [by apply Forall_app|].
  unfold text_of_points. by rewrite List.map_app, concat_app.
Qed.

Lemma well_formed_unit c t : 0 <= c < 55296 -> well_formed t -> well_formed (c :: t).
Proof.
  intros Hc Ht. apply (well_formed_app [c]); [|done]. exists [c]. split; [constructor; [by left|constructor]|].
  unfold text_of_points, units_of. cbn. destruct (Z.ltb_spec c 65536); [done|lia].
Qed.

Lemma well_formed_units t : Forall (fun c => 0 <= c < 55296) t -> well_formed t.
Proof. induction 1; [apply well_formed_nil|by apply well_formed_unit]. Qed.

Lemma scalar_units cp : scalar cp ->
  (cp < 65536 /\ units_of cp = [cp] /\ is_surrogate cp = false) \/
  (exists h l, cp >= 65536 /\ units_of cp = [h; l] /\ between 55296 56319 h = true /\ between 56320 57343 l = true /\ 65536 + (h - 55296) * 1024 + (l - 56320) = cp).
Proof.
  intros Hs. unfold units_of. destruct (Z.ltb_spec cp 65536) as [H|H].
  - left. split; [done|]. split; [done|]. unfold is_surrogate, between. destruct Hs; lia.
  - right. eexists _, _. split; [lia|]. split; [reflexivity|].
    assert (cp < 1114112) by (destruct Hs; lia). unfold between.
    pose proof (Z.mod_pos_bound (cp - 65536) 1024 ltac:(lia)). pose proof (Z.div_mod (cp - 65536) 1024 ltac:(lia)). lia.
Qed.

Lemma code_points_text cps : Forall scalar cps -> code_points (text_of_points cps) = cps.
Proof.
  unfold text_of_points. induction 1 as [|cp cps Hcp Hcps IH]; [done|]. cbn [List.map concat].
  destruct (scalar_units cp Hcp) as [(Hlt & -> & Hns)|(h & l & _ & -> & Hh & Hl & Hcpe)].
  - cbn [app code_points]. rewrite IH. destruct (concat (List.map units_of cps)) as [|d t'] eqn:E; [|].
    + destruct cps as [|cp' cps']; [done|]. cbn in E. unfold units_of in E. by case_match.
    + unfold is_surrogate, between in *. destruct ((55296 <=? cp) && (cp <=? 56319)) eqn:E'; [guards; lia|]. done.
  - cbn [app code_points]. rewrite Hh, Hl. cbn [andb]. by rewrite IH, Hcpe.
Qed.

(** * Decoding undoes encoding *)

(** The first byte of a character of two, three and four bytes. *)
Lemma start_two q : 2 <= q < 32 -> utf8_start (192 + q) = ([], Some {| up_needed := 1; up_lower := 128; up_upper := 191; up_bits := q |}).
Proof. intros Hq. unfold utf8_start, between. repeat (case_match; guards; try lia). do 3 f_equal. lia. Qed.

(** Each of the first [n] numbers in turn. *)
Ltac small_cases q n :=
  assert (In q (List.map Z.of_nat (seq 0 n))) as Hcases by (apply in_map_iff; exists (Z.to_nat q); split; [lia|apply in_seq; lia]);
  cbn in Hcases; repeat (destruct Hcases as [<- |Hcases]; [reflexivity|]); destruct Hcases.

Lemma start_three q : 0 <= q < 16 -> utf8_start (224 + q) = ([], Some {| up_needed := 2;
  up_lower := if q =? 0 then 160 else 128; up_upper := if q =? 13 then 159 else 191; up_bits := q |}).
Proof. intros Hq. small_cases q 16%nat. Qed.

Lemma start_four q : 0 <= q < 5 -> utf8_start (240 + q) = ([], Some {| up_needed := 3;
  up_lower := if q =? 0 then 144 else 128; up_upper := if q =? 4 then 143 else 191; up_bits := q |}).
Proof. intros Hq. small_cases q 5%nat. Qed.

Lemma first_byte b p bs : utf8_start b = ([], Some p) -> utf8_decode_from None (b :: bs) = utf8_decode_from (Some p) bs.
Proof. intros H. cbn. by rewrite H. Qed.

(** The next byte, and the last. *)
Lemma next_byte n lower upper bits b bs : lower <= b <= upper ->
  utf8_decode_from (Some {| up_needed := S (S n); up_lower := lower; up_upper := upper; up_bits := bits |}) (b :: bs)
  = utf8_decode_from (Some {| up_needed := S n; up_lower := 128; up_upper := 191; up_bits := 64 * bits + (b - 128) |}) bs.
Proof. intros Hb. cbn -[Z.mul Z.sub]. unfold between. by rewrite (proj2 (Z.leb_le lower b)), (proj2 (Z.leb_le b upper)) by lia. Qed.

Lemma last_byte lower upper bits b bs : lower <= b <= upper ->
  utf8_decode_from (Some {| up_needed := 1; up_lower := lower; up_upper := upper; up_bits := bits |}) (b :: bs)
  = units_of (64 * bits + (b - 128)) ++ utf8_decode_from None bs.
Proof. intros Hb. cbn -[Z.mul Z.sub]. unfold between. by rewrite (proj2 (Z.leb_le lower b)), (proj2 (Z.leb_le b upper)) by lia. Qed.

(** A code point in base 64. *)
Lemma base_64 cp : 0 <= cp ->
  (0 <= cp mod 64 < 64 /\ 0 <= cp / 64 mod 64 < 64 /\ 0 <= cp / 4096 mod 64 < 64) /\
  cp = 64 * (cp / 64) + cp mod 64 /\ cp / 64 = 64 * (cp / 4096) + cp / 64 mod 64 /\ cp / 4096 = 64 * (cp / 262144) + cp / 4096 mod 64.
Proof.
  intros Hcp. split; [split_and!; apply Z.mod_pos_bound; lia|].
  change 4096 with (64 * 64). change 262144 with (64 * 64 * 64). rewrite <-!Z.div_div by lia.
  split_and!; apply Z.div_mod; lia.
Qed.

Lemma decode_point cp bs : scalar cp -> utf8_decode_from None (bytes_of cp ++ bs) = units_of cp ++ utf8_decode_from None bs.
Proof.
  intros Hs. unfold bytes_of.
  destruct (Z.ltb_spec cp 128) as [H1|H1].
  { cbn [app utf8_decode_from]. unfold utf8_start. rewrite (proj2 (Z.ltb_lt cp 128)) by done. unfold units_of.
    by rewrite (proj2 (Z.ltb_lt cp 65536)) by lia. }
  destruct (base_64 cp) as ((Hm1 & Hm2 & Hm3) & Hd1 & Hd2 & Hd3); [lia|]. unfold scalar in Hs.
  destruct (Z.ltb_spec cp 2048) as [H2|H2]; [|destruct (Z.ltb_spec cp 65536) as [H3|H3]]; cbn [app].
  - rewrite (first_byte _ _ _ (start_two (cp / 64) ltac:(lia))), last_byte by lia. do 2 f_equal. lia.
  - rewrite (first_byte _ _ _ (start_three (cp / 4096) ltac:(lia))), next_byte, last_byte; [do 2 f_equal; lia|lia|].
    destruct (Z.eqb_spec (cp / 4096) 0), (Z.eqb_spec (cp / 4096) 13); lia.
  - rewrite (first_byte _ _ _ (start_four (cp / 262144) ltac:(lia))), next_byte, next_byte, last_byte; [do 2 f_equal; lia|lia|lia|].
    destruct (Z.eqb_spec (cp / 262144) 0), (Z.eqb_spec (cp / 262144) 4); lia.
Qed.

Lemma encode_points cps : Forall scalar cps -> utf8_encode (text_of_points cps) = concat (List.map bytes_of cps).
Proof.
  intros H. unfold utf8_encode. rewrite code_points_text by done. f_equal. apply map_ext_Forall.
  eapply Forall_impl; [exact H|]. cbv beta. intros cp [Hs|Hs]; unfold is_surrogate, between; case_match; guards; try done; lia.
Qed.

Lemma decode_points cps bs : Forall scalar cps ->
  utf8_decode (concat (List.map bytes_of cps) ++ bs) = text_of_points cps ++ utf8_decode bs.
Proof.
  unfold text_of_points, utf8_decode. induction 1 as [|cp cps Hcp _ IH]; [done|]. cbn [List.map concat].
  by rewrite <-!app_assoc, decode_point, IH.
Qed.

Lemma decode_encode t bs : well_formed t -> utf8_decode (utf8_encode t ++ bs) = t ++ utf8_decode bs.
Proof. intros (cps & H & ->). by rewrite encode_points, decode_points. Qed.

Lemma text_of_points_app a b : text_of_points (a ++ b) = text_of_points a ++ text_of_points b.
Proof. unfold text_of_points. by rewrite List.map_app, concat_app. Qed.

Lemma encode_app t u : well_formed t -> well_formed u -> utf8_encode (t ++ u) = utf8_encode t ++ utf8_encode u.
Proof.
  intros (a & Ha & ->) (b & Hb & ->). rewrite <-text_of_points_app, !encode_points by (done || by apply Forall_app).
  by rewrite List.map_app, concat_app.
Qed.

Lemma encode_unit c t : 0 <= c < 128 -> well_formed t -> utf8_encode (c :: t) = c :: utf8_encode t.
Proof.
  intros Hc Ht. change (c :: t) with ([c] ++ t).
  rewrite encode_app by (done || (apply well_formed_unit; [lia|apply well_formed_nil])).
  assert (utf8_encode [c] = [c]) as ->; [|done]. unfold utf8_encode, is_surrogate, between, bytes_of. cbn -[Z.leb Z.ltb].
  repeat (case_match; guards; try lia). done.
Qed.

Lemma utf8_length_encode t : well_formed t -> utf8_length t = Z.of_nat (length (utf8_encode t)).
Proof.
  intros (cps & H & ->). rewrite encode_points by done. unfold utf8_length. rewrite code_points_text by done. clear H.
  induction cps as [|cp cps IH]; cbn [foldr List.map concat]; [done|]. rewrite length_app, IH. unfold utf8_width, bytes_of.
  repeat case_match; cbn [length]; lia.
Qed.

(** * A text cut short *)

(** What is decoded of the first bytes of a character. *)
Lemma decode_part cp k : scalar cp -> (0 < k < length (bytes_of cp))%nat -> utf8_decode (take k (bytes_of cp)) = [65533].
Proof.
  intros Hs Hk. unfold bytes_of in *. unfold utf8_decode.
  destruct (Z.ltb_spec cp 128) as [H1|H1]; [cbn in Hk; lia|].
  destruct (base_64 cp) as ((Hm1 & Hm2 & Hm3) & Hd1 & Hd2 & Hd3); [lia|]. unfold scalar in Hs.
  destruct (Z.ltb_spec cp 2048) as [H2|H2]; [|destruct (Z.ltb_spec cp 65536) as [H3|H3]];
    cbn [length] in Hk; (destruct k as [|k]; [lia|]); cbn [take].
  - rewrite (first_byte _ _ _ (start_two (cp / 64) ltac:(lia))). destruct k as [|k]; [done|lia].
  - rewrite (first_byte _ _ _ (start_three (cp / 4096) ltac:(lia))). destruct k as [|k]; [done|]. cbn [take].
    rewrite next_byte; [|destruct (Z.eqb_spec (cp / 4096) 0), (Z.eqb_spec (cp / 4096) 13); lia].
    destruct k as [|k]; [done|lia].
  - rewrite (first_byte _ _ _ (start_four (cp / 262144) ltac:(lia))). destruct k as [|k]; [done|]. cbn [take].
    rewrite next_byte; [|destruct (Z.eqb_spec (cp / 262144) 0), (Z.eqb_spec (cp / 262144) 4); lia].
    destruct k as [|k]; [done|]. cbn [take]. rewrite next_byte by lia. destruct k as [|k]; [done|lia].
Qed.

Lemma bytes_of_length cp : (0 < length (bytes_of cp))%nat.
Proof. unfold bytes_of. repeat case_match; cbn; lia. Qed.

(** The first [k] bytes of a text are whole characters, and perhaps a part of one
    more, which is decoded as U+FFFD. *)
Lemma decode_take cps k : Forall scalar cps -> exists n,
  (take k (concat (List.map bytes_of cps)) = concat (List.map bytes_of (take n cps)) /\
   utf8_decode (take k (concat (List.map bytes_of cps))) = text_of_points (take n cps)) \/
  ((n < length cps)%nat /\ utf8_decode (take k (concat (List.map bytes_of cps))) = text_of_points (take n cps) ++ [65533]).
Proof.
  intros H; revert k; induction H as [|cp cps Hcp Hcps IH]; intros k.
  { exists O. left. by rewrite firstn_nil. }
  cbn [List.map concat]. destruct (decide (length (bytes_of cp) <= k)%nat) as [Hk|Hk].
  - destruct (IH (k - length (bytes_of cp))%nat) as [n Hn]. exists (S n).
    assert (take k (bytes_of cp ++ concat (List.map bytes_of cps)) = bytes_of cp ++ take (k - length (bytes_of cp)) (concat (List.map bytes_of cps))) as ->
      by by rewrite take_app, (take_ge (bytes_of cp)) by done.
    cbn [take List.map concat]. unfold utf8_decode in *. rewrite decode_point by done. unfold text_of_points in *. cbn [List.map concat].
    destruct Hn as [[-> ->]|[Hl ->]]; [by left|]. right. rewrite <-app_assoc. cbn [length]. split; [lia|done].
  - exists O. rewrite take_app_le by lia. destruct k as [|k]; [by left|]. right. cbn [length take]. split; [lia|].
    apply decode_part; [done|lia].
Qed.

(** * Printing *)

(** Properties that are undefined are left out, and undefined elements are null. *)
Fixpoint dropped (v : json) : json :=
  match v with
  | JArray l => JArray (List.map (fun w => if is_undefined w then JNull else dropped w) l)
  | JObject kvs => JObject (List.filter (fun kv => negb (is_undefined kv.2)) (List.map (fun kv => (kv.1, dropped kv.2)) kvs))
  | JNumber None => JNull
  | _ => v
  end.

(** [JSON.stringify(value)] of a value that is defined. *)
Definition JSON_stringify (v : json) : text := render (dropped v).

Lemma is_undefined_dropped v : is_undefined (dropped v) = is_undefined v.
Proof. by destruct v as [| | |[n|]| | |]. Qed.

Lemma printable_dropped v : is_undefined v = false -> printable (dropped v).
Proof.
  induction v as [| |b|[n|]|t|l IH|kvs IH] using json_nested_ind; intros Hu; try discriminate; try by constructor.
  - constructor. apply Forall_forall. intros w (x & <- & Hx%list_elem_of_In)%list_elem_of_In%in_map_iff.
    destruct (is_undefined x) eqn:E; [constructor|]. by apply (proj1 (Forall_forall _ _) IH).
  - constructor. apply Forall_forall. intros kv [(x & <- & Hx%list_elem_of_In)%in_map_iff Hd%negb_true_iff]%list_elem_of_In%filter_In.
    cbn in *. rewrite is_undefined_dropped in Hd. by apply (proj1 (Forall_forall _ _) IH).
Qed.

Lemma distinct_dropped v : distinct v -> distinct (dropped v).
Proof.
  induction v as [| |b|[n|]|t|l IH|kvs IH] using json_nested_ind; inversion 1; subst; try by constructor.
  - constructor. rewrite Forall_forall in *. intros w (x & <- & Hx%list_elem_of_In)%list_elem_of_In%in_map_iff.
    case_match; [constructor|auto].
  - constructor.
    + apply NoDup_filtered_keys. match goal with |- NoDup ?l => assert (l = kvs.*1) as -> end; [|done].
      clear. induction kvs as [|kv kvs IH]; cbn; congruence.
    + rewrite Forall_forall in *. intros w [(x & <- & Hx%list_elem_of_In)%in_map_iff _]%list_elem_of_In%filter_In. cbn. auto.
Qed.

(** [JSON.parse] returns what [JSON.stringify] has printed. *)
Lemma JSON_parse_stringify v : distinct v -> is_undefined v = false -> JSON_parse (JSON_stringify v) = Some (dropped v).
Proof.
  intros Hd Hu. unfold JSON_parse, JSON_stringify.
  pose proof (read_value_render _ (S (length (render (dropped v)))) (printable_dropped v Hu) (distinct_dropped v Hd) [] I) as H.
  rewrite app_nil_r in H. by rewrite H by lia.
Qed.

Lemma dropped_idem v : dropped (dropped v) = dropped v.
Proof.
  induction v as [| |b|[n|]|t|l IH|kvs IH] using json_nested_ind; try done; cbn.
  - f_equal. rewrite List.map_map. apply map_ext_Forall. eapply Forall_impl; [exact IH|]. cbv beta. intros w Hw.
    destruct (is_undefined w) eqn:E; [done|]. by rewrite is_undefined_dropped, E.
  - f_equal. induction IH as [|kv kvs Hkv _ IH']; [done|]. cbn. rewrite is_undefined_dropped.
    destruct (is_undefined kv.2) eqn:E; cbn; [done|]. rewrite Hkv, is_undefined_dropped, E. cbn. by rewrite IH'.
Qed.

(** Printing what has been read back gives the same text. *)
Lemma JSON_stringify_dropped v : JSON_stringify (dropped v) = JSON_stringify v.
Proof. unfold JSON_stringify. by rewrite dropped_idem. Qed.

(** * Reading more of a text *)

Lemma skip_space_app l q : skip_space l <> [] -> skip_space (l ++ q) = skip_space l ++ q.
Proof. induction l as [|c l IH]; cbn; [done|]. by destruct (is_space c). Qed.

Lemma skip_space_all l q : skip_space l = [] -> skip_space (l ++ q) = skip_space q.
Proof. induction l as [|c l IH]; cbn; [done|]. by destruct (is_space c). Qed.

Lemma expect_app c l l' q : expect c l = Some l' -> expect c (l ++ q) = Some (l' ++ q).
Proof. destruct l as [|d l]; cbn; [done|]. by case_match; intros [= <-]. Qed.

Lemma expect_app_none c l q : l <> [] -> expect c l = None -> expect c (l ++ q) = None.
Proof. destruct l as [|d l]; cbn; [done|]. by case_match. Qed.

Lemma expect_not_nil c l l' : expect c (skip_space l) = Some l' -> skip_space l <> [].
Proof. by destruct (skip_space l). Qed.

Lemma after_prefix_app p l l' q : after_prefix p l = Some l' -> after_prefix p (l ++ q) = Some (l' ++ q).
Proof.
  revert l; induction p as [|c p IH]; intros l; cbn; [by intros [= ->]|]. destruct (expect c l) as [m|] eqn:E; [|done]. cbn.
  rewrite (expect_app _ _ _ q E). cbn. apply IH.
Qed.

Lemma read_string_app l t r q : read_string l = Some (t, r) -> read_string (l ++ q) = Some (t, r ++ q).
Proof.
  assert (forall n l, (length l <= n)%nat -> forall t r, read_string l = Some (t, r) -> read_string (l ++ q) = Some (t, r ++ q)) as H; [|by eauto].
  clear l t r. induction n as [|n IH]; intros l Hn t r H; (destruct l as [|c l]; [discriminate H|]); [cbn in Hn; lia|].
  cbn in Hn, H |- *. destruct (c =? 34); [by injection H as <- <-|].
  destruct (c =? 92).
  - destruct l as [|e l]; [discriminate|]. cbn in Hn |- *. destruct (e =? 117).
    + destruct l as [|h3 [|h2 [|h1 [|h0 l]]]]; cbn in H, Hn |- *; try discriminate.
      destruct (hex_value h3); [|discriminate]. destruct (hex_value h2); [|discriminate].
      destruct (hex_value h1); [|discriminate]. destruct (hex_value h0); [|discriminate]. cbn in H |- *.
      destruct (read_string l) as [[t' r']|] eqn:E; [|discriminate]. cbn in H. rewrite (IH l ltac:(lia) _ _ E). cbn. by injection H as <- <-.
    + destruct (simple_escape e) as [x|]; [|discriminate]. cbn in H |- *.
      destruct (read_string l) as [[t' r']|] eqn:E; [|discriminate]. cbn in H. rewrite (IH l ltac:(lia) _ _ E). cbn. by injection H as <- <-.
  - destruct ((0 <=? c) && (c <? 32)); [discriminate|].
    destruct (read_string l) as [[t' r']|] eqn:E; [|discriminate]. cbn in H. rewrite (IH l ltac:(lia) _ _ E). cbn. by injection H as <- <-.
Qed.

Lemma digits_app acc l n r q : read_number_digits acc l = (n, r) -> r <> [] -> read_number_digits acc (l ++ q) = (n, r ++ q).
Proof.
  revert acc; induction l as [|c l IH]; intros acc; cbn; [by intros [= <- <-]|].
  destruct (digit_value c); [apply IH|]. by intros [= <- <-].
Qed.

Lemma starts_digit_app l q : l <> [] -> starts_digit (l ++ q) = starts_digit l.
Proof. by destruct l. Qed.

Lemma read_number_value l v r : read_number l = Some (v, r) -> exists n, v = JNumber n.
Proof.
  unfold read_number. destruct (match expect 45 l with Some l' => (-1, l') | None => (1, l) end) as [sign l1].
  destruct (read_natural l1) as [[n l2]|]; [|discriminate]. cbn. destruct (read_number_fraction l2) as [[f l3]|]; [|discriminate]. cbn.
  destruct (read_exponent l3) as [[x l4]|]; [|discriminate]. cbn. intros [= <- _]. eauto.
Qed.

(** A number is read as before when something follows it. *)
Lemma read_number_app l v r q : read_number l = Some (v, r) -> r <> [] -> read_number (l ++ q) = Some (v, r ++ q).
Proof.
  intros H Hr. unfold read_number in *.
  destruct (match expect 45 l with Some l' => (-1, l') | None => (1, l) end) as [sign l1] eqn:E1.
  destruct (read_natural l1) as [[n l2]|] eqn:E2; [|discriminate]. cbn in H.
  destruct (read_number_fraction l2) as [[f l3]|] eqn:E3; [|discriminate]. cbn in H.
  destruct (read_exponent l3) as [[x l4]|] eqn:E4; [|discriminate]. cbn in H. injection H as <- ->.
  assert (l3 <> [] /\ read_exponent (l3 ++ q) = Some (x, r ++ q)) as [Hl3 Hx].
  { unfold read_exponent in *. destruct l3 as [|c l3]; [injection E4 as <- <-; done|]. split; [done|]. cbn [app].
    destruct ((c =? 101) || (c =? 69)); [|by injection E4 as <- <-].
    set (l' := match l3 with d :: r => if (d =? 43) || (d =? 45) then r else l3 | [] => l3 end) in *.
    destruct (starts_digit l') eqn:Es; [|discriminate]. injection E4 as <- E4.
    assert (match l3 ++ q with d :: r => if (d =? 43) || (d =? 45) then r else l3 ++ q | [] => l3 ++ q end = l' ++ q) as ->.
    { destruct l3 as [|d l3]; [done|]. cbn. subst l'. by case_match. }
    rewrite starts_digit_app, Es by by destruct l'. destruct (read_number_digits 0 l') as [m r'] eqn:Ed. cbn in E4. subst r'.
    by rewrite (digits_app _ _ _ _ q Ed). }
  assert (l2 <> [] /\ read_number_fraction (l2 ++ q) = Some (f, l3 ++ q)) as [Hl2 Hf].
  { unfold read_number_fraction in *. destruct (expect 46 l2) as [l2'|] eqn:Ee.
    - rewrite (expect_app _ _ _ q Ee). destruct (starts_digit l2') eqn:Es; [|discriminate]. injection E3 as <- E3.
      rewrite starts_digit_app, Es by by destruct l2'. destruct (read_number_digits 0 l2') as [m r'] eqn:Ed. cbn in E3. subst r'.
      rewrite (digits_app _ _ _ _ q Ed) by done. split; [by destruct l2|done].
    - injection E3 as <- <-. by rewrite expect_app_none. }
  assert (l1 <> [] /\ read_natural (l1 ++ q) = Some (n, l2 ++ q)) as [Hl1 Hn].
  { unfold read_natural in *. destruct (expect 48 l1) as [l1'|] eqn:Ee.
    - rewrite (expect_app _ _ _ q Ee). injection E2 as <- <-. split; [by destruct l1|done].
    - destruct (starts_digit l1) eqn:Es; [|discriminate]. injection E2 as E2. assert (l1 <> []) as Hne by by destruct l1.
      rewrite expect_app_none, starts_digit_app, Es by done. by rewrite (digits_app _ _ _ _ q E2). }
  assert (match expect 45 (l ++ q) with Some l' => (-1, l') | None => (1, l ++ q) end = (sign, l1 ++ q)) as ->.
  { destruct (expect 45 l) as [l'|] eqn:Ee.
    - rewrite (expect_app _ _ _ q Ee). by injection E1 as <- <-.
    - injection E1 as <- <-. by rewrite expect_app_none. }
  rewrite Hn. cbn -[read_number_fraction read_exponent]. rewrite Hf. cbn -[read_exponent]. by rewrite Hx.
Qed.

(** A value that ends where it ends, whatever follows. *)
Definition delimited (v : json) : bool := match v with JNumber _ => false | _ => true end.

Section extension.
Variables value value' : text -> option (json * text).
Variable q : text.
Hypothesis Hvalue : forall l v r, value l = Some (v, r) -> r <> [] -> value' (l ++ q) = Some (v, r ++ q).

Lemma rest_not_nil c l l' : expect c (skip_space l) = Some l' -> l <> [].
Proof using. by destruct l. Qed.

Lemma after_value l v r (c : Z) : value l = Some (v, r) -> skip_space r <> [] ->
  exists r', value' (l ++ q) = Some (v, r') /\ skip_space r' = skip_space r ++ q.
Proof using Hvalue.
  intros Hv Hr. exists (r ++ q). split; [|by apply skip_space_app]. apply Hvalue; [done|]. by intros ->.
Qed.

Lemma read_elements_app n n' l vs r : (n <= n')%nat ->
  read_elements value n l = Some (vs, r) -> read_elements value' n' (l ++ q) = Some (vs, r ++ q).
Proof using Hvalue.
  revert n' l vs r; induction n as [|n IH]; intros n' l vs r Hn H; [discriminate H|]. destruct n' as [|n']; [lia|].
  cbn [read_elements] in *. destruct (value l) as [[v l1]|] eqn:Hv; [|discriminate]. cbn in H.
  destruct (skip_space l1) as [|c s] eqn:Hs; [discriminate H|].
  destruct (after_value l v l1 c Hv) as (r' & -> & Hr'); [by rewrite Hs|]. cbn. rewrite Hr', Hs. cbn [app].
  change (c :: s ++ q) with ((c :: s) ++ q).
  destruct (expect 93 (c :: s)) as [s'|] eqn:E93.
  - rewrite (expect_app _ _ _ q E93). by injection H as <- <-.
  - rewrite expect_app_none by done. destruct (expect 44 (c :: s)) as [s'|] eqn:E44; [|discriminate]. cbn in H.
    rewrite (expect_app _ _ _ q E44). cbn. destruct (read_elements value n s') as [[ws r2]|] eqn:Hw; [|discriminate].
    rewrite (IH n' _ _ _ ltac:(lia) Hw). by injection H as <- <-.
Qed.

Lemma read_properties_app n n' kvs l vs r : (n <= n')%nat ->
  read_properties value n kvs l = Some (vs, r) -> read_properties value' n' kvs (l ++ q) = Some (vs, r ++ q).
Proof using Hvalue.
  revert n' kvs l vs r; induction n as [|n IH]; intros n' kvs l vs r Hn H; [discriminate H|]. destruct n' as [|n']; [lia|].
  cbn [read_properties] in *. destruct (expect 34 (skip_space l)) as [l1|] eqn:E34; [|discriminate]. cbn in H.
  rewrite skip_space_app by (by eapply expect_not_nil). rewrite (expect_app _ _ _ q E34). cbn.
  destruct (read_string l1) as [[k l2]|] eqn:Es; [|discriminate]. cbn in H. rewrite (read_string_app _ _ _ q Es). cbn.
  destruct (expect 58 (skip_space l2)) as [l3|] eqn:E58; [|discriminate]. cbn in H.
  rewrite skip_space_app by (by eapply expect_not_nil). rewrite (expect_app _ _ _ q E58). cbn.
  destruct (value l3) as [[v l4]|] eqn:Hv; [|discriminate]. cbn in H.
  destruct (skip_space l4) as [|c s] eqn:Hs; [discriminate H|].
  destruct (after_value l3 v l4 c Hv) as (r' & -> & Hr'); [by rewrite Hs|]. cbn. rewrite Hr', Hs. cbn [app].
  change (c :: s ++ q) with ((c :: s) ++ q).
  destruct (expect 125 (c :: s)) as [s'|] eqn:E125.
  - rewrite (expect_app _ _ _ q E125). by injection H as <- <-.
  - rewrite expect_app_none by done. destruct (expect 44 (c :: s)) as [s'|] eqn:E44; [|discriminate]. cbn in H.
    rewrite (expect_app _ _ _ q E44). cbn. by apply IH; [lia|].
Qed.
End extension.

Lemma read_literal_app name w l v r q : read_literal name w l = Some (v, r) -> read_literal name w (l ++ q) = Some (v, r ++ q).
Proof.
  unfold read_literal. destruct (after_prefix (text_of_string name) l) as [m|] eqn:E; [|discriminate]. cbn. intros [= <- <-].
  by rewrite (after_prefix_app _ _ _ q E).
Qed.

(** What has been read is read again, with the same rest and what follows. *)
Lemma read_value_app fuel fuel' l v r q : (fuel <= fuel')%nat -> r <> [] \/ delimited v = true ->
  read_value fuel l = Some (v, r) -> read_value fuel' (l ++ q) = Some (v, r ++ q).
Proof.
  revert fuel' l v r q; induction fuel as [|n IH]; intros fuel' l v r q Hf Hr H; [discriminate H|]. destruct fuel' as [|n']; [lia|].
  cbn [read_value] in *. destruct (skip_space l) as [|c s] eqn:Hs; [discriminate H|].
  rewrite skip_space_app by by rewrite Hs. rewrite Hs. cbn [app].
  assert (forall l v r, read_value n l = Some (v, r) -> r <> [] -> read_value n' (l ++ q) = Some (v, r ++ q)) as Hv
    by (intros; apply IH; [lia|by left|done]).
  destruct (c =? 123).
  { destruct (expect 125 (skip_space s)) as [s'|] eqn:E.
    - rewrite skip_space_app by (by eapply expect_not_nil). rewrite (expect_app _ _ _ q E). by injection H as <- <-.
    - destruct (read_properties (read_value n) n [] s) as [[kvs r2]|] eqn:Ep; [|discriminate]. injection H as <- <-.
      assert (skip_space s <> []) as Hne by (intros E0; destruct n; cbn in Ep; [discriminate|by rewrite E0 in Ep]).
      rewrite skip_space_app, expect_app_none by done.
      rewrite (read_properties_app (read_value n) (read_value n') q Hv n n' [] s kvs r2 ltac:(lia) Ep). done. }
  destruct (c =? 91).
  { destruct (expect 93 (skip_space s)) as [s'|] eqn:E.
    - rewrite skip_space_app by (by eapply expect_not_nil). rewrite (expect_app _ _ _ q E). by injection H as <- <-.
    - destruct (read_elements (read_value n) n s) as [[vs r2]|] eqn:Ep; [|discriminate]. injection H as <- <-.
      assert (skip_space s <> []) as Hne.
      { intros E0. destruct n as [|n]; cbn [read_elements read_value] in Ep; [discriminate|]. by rewrite E0 in Ep. }
      rewrite skip_space_app, expect_app_none by done.
      rewrite (read_elements_app (read_value n) (read_value n') q Hv n n' s vs r2 ltac:(lia) Ep). done. }
  destruct (c =? 34).
  { destruct (read_string s) as [[t r2]|] eqn:E; [|discriminate]. rewrite (read_string_app _ _ _ q E). by injection H as <- <-. }
  change (c :: s ++ q) with ((c :: s) ++ q).
  destruct (c =? 110); [by apply read_literal_app|]. destruct (c =? 116); [by apply read_literal_app|].
  destruct (c =? 102); [by apply read_literal_app|].
  apply read_number_app; [done|]. destruct Hr as [Hr|Hr]; [done|]. by destruct (read_number_value _ _ _ H) as [m ->].
Qed.

(** A text that parses, and is not a number, parses with nothing but spaces added. *)
Lemma JSON_parse_app p q v : JSON_parse p = Some v -> delimited v = true ->
  JSON_parse (p ++ q) = match skip_space q with [] => Some v | _ => None end.
Proof.
  unfold JSON_parse. intros H Hd. destruct (read_value (S (length p)) p) as [[w r]|] eqn:E; [|discriminate]. cbn in H.
  destruct (skip_space r) eqn:Hr; [|discriminate]. injection H as ->.
  rewrite (read_value_app (S (length p)) (S (length (p ++ q))) p v r q) by (by rewrite ?length_app; lia || by right || exact E).
  cbn. by rewrite skip_space_all.
Qed.

(** A text that starts with a brace is that of an object, and ends with one. *)
Lemma read_object l v r fuel : read_value fuel (123 :: l) = Some (v, r) -> exists kvs, v = JObject kvs.
Proof.
  destruct fuel as [|n]; [done|]. cbn. destruct (expect 125 (skip_space l)); [intros [= <- _]; eauto|].
  destruct (read_properties _ _ _ _) as [[kvs s]|]; [|discriminate]. intros [= <- _]. eauto.
Qed.

Lemma expect_split c l l' : expect c l = Some l' -> l = c :: l'.
Proof. destruct l as [|d l]; cbn; [done|]. destruct (Z.eqb_spec d c) as [->|]; [|done]. by intros [= ->]. Qed.

Lemma skip_space_split l : exists s, l = s ++ skip_space l.
Proof. induction l as [|c l [s Hs]]; [by exists []|]. cbn. destruct (is_space c); [exists (c :: s); cbn; congruence|by exists []]. Qed.

Lemma read_string_rest l t r : read_string l = Some (t, r) -> exists s, l = s ++ r.
Proof.
  assert (forall n l, (length l <= n)%nat -> forall t r, read_string l = Some (t, r) -> exists s, l = s ++ r) as H; [|by eauto].
  clear l t r. induction n as [|n IH]; intros l Hn t r H; (destruct l as [|c l]; [discriminate H|]); [cbn in Hn; lia|].
  cbn in Hn, H. destruct (c =? 34); [injection H as _ <-; by exists [c]|].
  destruct (c =? 92).
  - destruct l as [|e l]; [discriminate|]. cbn in Hn. destruct (e =? 117).
    + destruct l as [|h3 [|h2 [|h1 [|h0 l]]]]; cbn in H, Hn |- *; try discriminate.
      destruct (hex_value h3); [|discriminate]. destruct (hex_value h2); [|discriminate].
      destruct (hex_value h1); [|discriminate]. destruct (hex_value h0); [|discriminate]. cbn in H.
      destruct (read_string l) as [[t' r']|] eqn:E; [|discriminate]. injection H as _ <-.
      destruct (IH l ltac:(lia) _ _ E) as [s ->]. by exists (c :: e :: h3 :: h2 :: h1 :: h0 :: s).
    + destruct (simple_escape e); [|discriminate]. cbn in H. destruct (read_string l) as [[t' r']|] eqn:E; [|discriminate].
      injection H as _ <-. destruct (IH l ltac:(lia) _ _ E) as [s ->]. by exists (c :: e :: s).
  - destruct ((0 <=? c) && (c <? 32)); [discriminate|]. destruct (read_string l) as [[t' r']|] eqn:E; [|discriminate].
    injection H as _ <-. destruct (IH l ltac:(lia) _ _ E) as [s ->]. by exists (c :: s).
Qed.

Lemma digits_rest acc l : exists s, l = s ++ (read_number_digits acc l).2.
Proof.
  revert acc; induction l as [|c l IH]; intros acc; cbn; [by exists []|]. destruct (digit_value c) as [d|]; [|by exists []].
  destruct (IH (10 * acc + d)) as [s Hs]. exists (c :: s). cbn. congruence.
Qed.

Lemma read_number_rest l v r : read_number l = Some (v, r) -> exists s, l = s ++ r.
Proof.
  unfold read_number. destruct (match expect 45 l with Some l' => (-1, l') | None => (1, l) end) as [sign l1] eqn:E1.
  destruct (read_natural l1) as [[n l2]|] eqn:E2; [|discriminate]. cbn. destruct (read_number_fraction l2) as [[f l3]|] eqn:E3; [|discriminate]. cbn.
  destruct (read_exponent l3) as [[x l4]|] eqn:E4; [|discriminate]. cbn. intros [= _ <-].
  assert (exists s, l = s ++ l1) as [s1 ->].
  { destruct (expect 45 l) as [l'|] eqn:E; injection E1 as <- <-; [apply expect_split in E as ->; by exists [45]|by exists []]. }
  assert (exists s, l1 = s ++ l2) as [s2 ->].
  { unfold read_natural in E2. destruct (expect 48 l1) as [l'|] eqn:E; [injection E2 as <- <-; apply expect_split in E as ->; by exists [48]|].
    destruct (starts_digit l1); [|discriminate]. injection E2 as E2. destruct (digits_rest 0 l1) as [s Hs]. exists s. by rewrite E2 in Hs. }
  assert (exists s, l2 = s ++ l3) as [s3 ->].
  { unfold read_number_fraction in E3. destruct (expect 46 l2) as [l'|] eqn:E; [|injection E3 as <- <-; by exists []].
    destruct (starts_digit l'); [|discriminate]. injection E3 as <- <-. apply expect_split in E as ->.
    destruct (digits_rest 0 l') as [s Hs]. exists (46 :: s). cbn. congruence. }
  assert (exists s, l3 = s ++ l4) as [s4 ->].
  { unfold read_exponent in E4. destruct l3 as [|c l3]; [injection E4 as <- <-; by exists []|].
    destruct ((c =? 101) || (c =? 69)); [|injection E4 as <- <-; by exists []].
    set (l' := match l3 with d :: r => if (d =? 43) || (d =? 45) then r else l3 | [] => l3 end) in *.
    destruct (starts_digit l'); [|discriminate]. injection E4 as <- <-. destruct (digits_rest 0 l') as [s Hs].
    assert (exists s, l3 = s ++ l') as [s0 Hs0].
    { subst l'. destruct l3 as [|d l3]; [by exists []|]. case_match; [by exists [d]|by exists []]. }
    exists (c :: s0 ++ s). cbn. rewrite Hs0 at 1. rewrite Hs at 1. by rewrite <-app_assoc. }
  exists (s1 ++ s2 ++ s3 ++ s4). by rewrite <-!app_assoc.
Qed.

Lemma after_prefix_rest p l r : after_prefix p l = Some r -> exists s, l = s ++ r.
Proof.
  revert l; induction p as [|c p IH]; intros l; cbn; [intros [= ->]; by exists []|]. destruct (expect c l) as [m|] eqn:E; [|done]. cbn.
  intros [s ->]%IH. apply expect_split in E as ->. by exists (c :: s).
Qed.

Section rest.
Variable value : text -> option (json * text).
Hypothesis Hvalue : forall l v r, value l = Some (v, r) -> exists s, l = s ++ r.

Lemma skip_rest l c l' : expect c (skip_space l) = Some l' -> exists s, l = s ++ c :: l'.
Proof using. intros H%expect_split. destruct (skip_space_split l) as [s Hs]. exists s. congruence. Qed.

Lemma read_elements_rest n l vs r : read_elements value n l = Some (vs, r) -> exists s, l = s ++ r.
Proof using Hvalue.
  revert l vs; induction n as [|n IH]; intros l vs H; [discriminate H|]. cbn in H.
  destruct (value l) as [[v l1]|] eqn:Hv; [|discriminate]. cbn in H. destruct (Hvalue _ _ _ Hv) as [s ->].
  destruct (expect 93 (skip_space l1)) as [l2|] eqn:E.
  - injection H as _ <-. apply skip_rest in E as [s1 ->]. exists (s ++ s1 ++ [93]). by rewrite <-!app_assoc.
  - destruct (expect 44 (skip_space l1)) as [l2|] eqn:E'; [|discriminate]. cbn in H.
    destruct (read_elements value n l2) as [[ws r2]|] eqn:Hw; [|discriminate]. injection H as _ <-.
    apply IH in Hw as [s2 ->]. apply skip_rest in E' as [s1 ->]. exists (s ++ s1 ++ 44 :: s2). rewrite <-!app_assoc. cbn. by rewrite <-?app_assoc.
Qed.

(** The properties of an object end with a brace. *)
Lemma read_properties_rest n kvs l vs r : read_properties value n kvs l = Some (vs, r) -> exists s, l = s ++ 125 :: r.
Proof using Hvalue.
  revert kvs l; induction n as [|n IH]; intros kvs l H; [discriminate H|]. cbn in H.
  destruct (expect 34 (skip_space l)) as [l1|] eqn:E1; [|discriminate]. cbn in H. apply skip_rest in E1 as [s1 ->].
  destruct (read_string l1) as [[k l2]|] eqn:E2; [|discriminate]. cbn in H. apply read_string_rest in E2 as [s2 ->].
  destruct (expect 58 (skip_space l2)) as [l3|] eqn:E3; [|discriminate]. cbn in H. apply skip_rest in E3 as [s3 ->].
  destruct (value l3) as [[v l4]|] eqn:E4; [|discriminate]. cbn in H. apply Hvalue in E4 as [s4 ->].
  assert (exists s, l4 = s ++ 125 :: r) as [s5 ->].
  { destruct (expect 125 (skip_space l4)) as [l5|] eqn:E5; [injection H as _ <-; by apply skip_rest in E5|].
    destruct (expect 44 (skip_space l4)) as [l5|] eqn:E6; [|discriminate]. cbn in H. apply IH in H as [s5 ->]. apply skip_rest in E6 as [s6 ->].
    exists (s6 ++ 44 :: s5). by rewrite <-app_assoc. }
  exists (s1 ++ 34 :: s2 ++ s3 ++ 58 :: s4 ++ s5). repeat (rewrite <-?app_assoc; cbn). done.
Qed.
End rest.

Lemma read_value_rest fuel l v r : read_value fuel l = Some (v, r) -> exists s, l = s ++ r.
Proof.
  revert l v r; induction fuel as [|n IH]; intros l v r H; [discriminate H|]. cbn [read_value] in H.
  destruct (skip_space_split l) as [sp Hsp]. rewrite Hsp. destruct (skip_space l) as [|c s]; [discriminate H|]. clear Hsp.
  enough (exists s', c :: s = s' ++ r) as [s' ->] by (exists (sp ++ s'); by rewrite <-app_assoc).
  destruct (c =? 123).
  { destruct (expect 125 (skip_space s)) as [s'|] eqn:E.
    - injection H as _ <-. apply skip_rest in E as [s1 ->]. exists (c :: s1 ++ [125]). cbn. by rewrite <-app_assoc.
    - destruct (read_properties (read_value n) n [] s) as [[kvs r2]|] eqn:Ep; [|discriminate]. injection H as _ <-.
      apply read_properties_rest in Ep as [s1 ->]; [|done]. exists (c :: s1 ++ [125]). cbn. by rewrite <-app_assoc. }
  destruct (c =? 91).
  { destruct (expect 93 (skip_space s)) as [s'|] eqn:E.
    - injection H as _ <-. apply skip_rest in E as [s1 ->]. exists (c :: s1 ++ [93]). cbn. by rewrite <-app_assoc.
    - destruct (read_elements (read_value n) n s) as [[vs r2]|] eqn:Ep; [|discriminate]. injection H as _ <-.
      apply read_elements_rest in Ep as [s1 ->]; [|done]. by exists (c :: s1). }
  destruct (c =? 34).
  { destruct (read_string s) as [[t r2]|] eqn:E; [|discriminate]. injection H as _ <-. apply read_string_rest in E as [s1 ->]. by exists (c :: s1). }
  assert (forall name w, read_literal name w (c :: s) = Some (v, r) -> exists s', c :: s = s' ++ r) as Hlit.
  { intros name w. unfold read_literal. destruct (after_prefix _ _) as [m|] eqn:E; [|discriminate]. intros [= _ <-]. by eapply after_prefix_rest. }
  destruct (c =? 110); [by eapply Hlit|]. destruct (c =? 116); [by eapply Hlit|]. destruct (c =? 102); [by eapply Hlit|].
  by eapply read_number_rest.
Qed.

Lemma skip_space_nil l : skip_space l = [] -> Forall (fun c => is_space c = true) l.
Proof. induction l as [|c l IH]; cbn; [constructor|]. destruct (is_space c) eqn:E; [|done]. intros H. constructor; auto. Qed.

Lemma rev_cons_split {A} (l : list A) : l <> [] -> exists l' x, l = l' ++ [x].
Proof. intros H. destruct (exists_last H) as (l' & x & ->). eauto. Qed.

(** * Texts cut short *)

(** An object's text with anything else than spaces behind it does not parse. *)
Lemma spoiled_object kvs q : distinct (JObject kvs) -> skip_space q <> [] -> JSON_parse (JSON_stringify (JObject kvs) ++ q) = None.
Proof.
  intros Hd Hq. rewrite (JSON_parse_app _ q _ (JSON_parse_stringify (JObject kvs) Hd eq_refl)) by done. by destruct (skip_space q).
Qed.

Lemma stringify_object kvs : exists t, JSON_stringify (JObject kvs) = 123 :: t ++ [125].
Proof. unfold JSON_stringify. cbn. eauto. Qed.

(** The text of an object, cut short, does not parse. *)
Lemma cut_object kvs p q : distinct (JObject kvs) -> JSON_stringify (JObject kvs) = p ++ q -> q <> [] -> JSON_parse p = None.
Proof.
  intros Hd E Hq. destruct (JSON_parse p) as [v|] eqn:Hp; [exfalso|done].
  pose proof (JSON_parse_stringify (JObject kvs) Hd eq_refl) as Hw. rewrite E in Hw.
  destruct (stringify_object kvs) as [t Ht]. destruct (rev_cons_split q Hq) as (q' & c & ->).
  assert (c = 125) as ->.
  { rewrite Ht, app_assoc in E. change (123 :: t ++ [125]) with ((123 :: t) ++ [125]) in E. by apply app_inj_tail in E as [_ <-]. }
  destruct p as [|c p]; [discriminate Hp|]. assert (c = 123) as -> by (rewrite Ht in E; by injection E).
  assert (exists kvs', v = JObject kvs') as [kvs' ->].
  { unfold JSON_parse in Hp. destruct (read_value _ (123 :: p)) as [[w r]|] eqn:Hr; [|discriminate]. cbn in Hp.
    apply read_object in Hr. destruct (skip_space r); [|discriminate]. by injection Hp as <-. }
  rewrite (JSON_parse_app _ _ _ Hp) in Hw by done. destruct (skip_space (q' ++ [125])) eqn:Hs; [|discriminate].
  apply skip_space_nil in Hs. apply Forall_app in Hs as [_ Hs]. by apply Forall_cons in Hs as [Hs _].
Qed.

(** The text of an object ends with its brace. *)
Lemma object_text_end l v : JSON_parse (123 :: l) = Some v -> exists s r, 123 :: l = s ++ 125 :: r /\ Forall (fun c => is_space c = true) r.
Proof.
  unfold JSON_parse. destruct (read_value _ (123 :: l)) as [[w r]|] eqn:Hr; [|discriminate]. cbn [mbind option_bind].
  destruct (skip_space r) eqn:Hs; [|discriminate]. intros _. apply skip_space_nil in Hs. cbn [read_value skip_space] in Hr.
  change (is_space 123) with false in Hr. cbv iota in Hr. change (123 =? 123) with true in Hr. cbv iota in Hr.
  destruct (expect 125 (skip_space l)) as [l'|] eqn:E.
  - injection Hr as _ <-. apply skip_rest in E as [s ->]. by exists (123 :: s), l'.
  - destruct (read_properties _ _ [] l) as [[kvs r2]|] eqn:Ep; [|discriminate]. injection Hr as _ <-.
    apply read_properties_rest in Ep as [s ->]; [|apply read_value_rest]. by exists (123 :: s), r2.
Qed.

(** A part of an object's text with a unit behind it that ends no object. *)
Lemma part_object kvs p q c : JSON_stringify (JObject kvs) = p ++ q -> c <> 125 -> is_space c = false -> c <> 123 ->
  JSON_parse [c] = None -> JSON_parse (p ++ [c]) = None.
Proof.
  intros E Hc Hs Hb H1. destruct p as [|d p]; [done|]. destruct (stringify_object kvs) as [t Ht]. rewrite Ht in E. injection E as <- E.
  destruct (JSON_parse ((123 :: p) ++ [c])) as [v|] eqn:Hp; [exfalso|reflexivity]. change ((123 :: p) ++ [c]) with (123 :: (p ++ [c])) in Hp.
  apply object_text_end in Hp as (s & r & Er & Hr). change (123 :: p ++ [c]) with ((123 :: p) ++ [c]) in Er.
  destruct (decide (r = [])) as [->|Hne]; [by apply app_inj_tail in Er as [_ ?]|].
  destruct (rev_cons_split r Hne) as (r' & x & ->). rewrite app_comm_cons, app_assoc in Er. apply app_inj_tail in Er as [_ ->].
  apply Forall_app in Hr as [_ Hr]. apply Forall_cons in Hr as [Hr _]. congruence.
Qed.

(** * The texts are lines *)

(** A text that can be written and read as one line. *)
Definition line_text (t : text) : Prop := well_formed t /\ 10 ∉ t.

Lemma line_text_nil : line_text [].
Proof. split; [apply well_formed_nil|apply not_elem_of_nil]. Qed.

Lemma line_text_app t u : line_text t -> line_text u -> line_text (t ++ u).
Proof. intros [Ht Ht'] [Hu Hu']. split; [by apply well_formed_app|]. rewrite elem_of_app. tauto. Qed.

Lemma line_text_units t : Forall (fun c => 0 <= c < 55296 /\ c <> 10) t -> line_text t.
Proof.
  intros H. split; [apply well_formed_units; eapply Forall_impl; [exact H|naive_solver]|].
  intros Hin. rewrite Forall_forall in H. by destruct (H 10 Hin) as [_ []].
Qed.

(** Numbers, names and other ASCII texts of the program. *)
Lemma line_text_string s : all_chars (fun c => negb (code c =? 10)) s = true -> line_text (text_of_string s).
Proof.
  intros H. apply line_text_units. induction s as [|c s IH]; [constructor|]. cbn in H. guards. constructor; [|auto].
  unfold code, chr in *. pose proof (Ascii.N_ascii_bounded c). lia.
Qed.

Lemma line_text_number n : line_text (text_of_string (num_to_string n)).
Proof.
  apply line_text_units. eapply Forall_impl; [apply num_to_string_units|]. unfold number_unit, is_digit. lia.
Qed.

(** A JavaScript string: units of 16 bits. *)
Definition js_units (t : text) : Prop := Forall (fun c => 0 <= c < 65536) t.

Lemma hex_digit_unit d : 0 <= d < 16 -> 0 <= hex_digit d < 55296 /\ hex_digit d <> 10.
Proof. unfold hex_digit. destruct (d <? 10) eqn:E; lia. Qed.

Lemma line_text_unicode c : line_text (unicode_escape c).
Proof.
  apply line_text_units. unfold unicode_escape. do 2 (constructor; [lia|]).
  repeat (constructor; [apply hex_digit_unit, Z.mod_pos_bound; lia|]). constructor.
Qed.

Lemma line_text_unit c : 0 <= c < 55296 \/ 57344 <= c < 65536 -> c <> 10 -> line_text [c].
Proof.
  intros Hc H10. split; [|rewrite list_elem_of_singleton; congruence]. exists [c].
  split; [constructor; [unfold scalar; lia|constructor]|]. unfold text_of_points, units_of. cbn. case_match; [done|lia].
Qed.

Lemma line_text_escape c : 0 <= c < 65536 -> is_high c = false -> is_low c = false -> line_text (escape_unit c).
Proof.
  intros Hc Hh Hl. unfold is_high, is_low in *. unfold escape_unit.
  repeat (case_match; [apply line_text_unicode || (apply line_text_units; repeat constructor; lia)|]).
  guards. apply line_text_unit; lia.
Qed.

Lemma line_text_pair c d : is_high c = true -> is_low d = true -> line_text [c; d].
Proof.
  unfold is_high, is_low. intros Hc Hd. guards. split; [|rewrite !elem_of_cons, elem_of_nil; lia].
  exists [65536 + (c - 55296) * 1024 + (d - 56320)]. split; [constructor; [unfold scalar; lia|constructor]|].
  unfold text_of_points, units_of. cbn [List.map concat]. rewrite app_nil_r. case_match; [lia|].
  f_equal; [|f_equal]; Z.div_mod_to_equations; lia.
Qed.

Lemma line_text_escapes t : js_units t -> line_text (escape_units false t).
Proof.
  remember (length t) as n eqn:En. revert t En; induction (lt_wf n) as [n _ IH]; intros t -> H.
  destruct t as [|c t]; [apply line_text_nil|]. apply Forall_cons in H as [Hc H]. cbn [escape_units].
  assert (forall u, (length u <= length t)%nat -> js_units u -> line_text (escape_units false u)) as Hrec
    by (intros u Hu Hju; eapply IH; [|reflexivity|done]; cbn [length]; lia).
  destruct (is_high c) eqn:Hh.
  - destruct t as [|d t]; [apply line_text_unicode|]. destruct (is_low d) eqn:Hl.
    + cbn [escape_units]. change (c :: d :: escape_units false t) with ([c; d] ++ escape_units false t).
      apply line_text_app; [by apply line_text_pair|]. apply Hrec; [cbn; lia|]. by apply Forall_cons in H as [_ H].
    + apply line_text_app; [apply line_text_unicode|by apply Hrec].
  - destruct (is_low c) eqn:Hl; (apply line_text_app; [|by apply Hrec]); [apply line_text_unicode|by apply line_text_escape].
Qed.

(** A JavaScript value: the keys of an object are distinct, numbers are integers. *)
Inductive js_value : json -> Prop :=
| jv_null : js_value JNull
| jv_undefined : js_value JUndefined
| jv_boolean b : js_value (JBoolean b)
| jv_number n : js_value (JNumber (Some n))
| jv_string t : js_units t -> js_value (JString t)
| jv_array l : Forall js_value l -> js_value (JArray l)
| jv_object kvs : NoDup kvs.*1 -> Forall (fun kv => js_units kv.1 /\ js_value kv.2) kvs -> js_value (JObject kvs).

Lemma js_value_distinct v : js_value v -> distinct v.
Proof.
  induction v as [| |b|[n|]|t|l IH|kvs IH] using json_nested_ind; inversion 1; subst; try by constructor.
  - constructor. rewrite Forall_forall in *. auto.
  - constructor; [done|]. rewrite Forall_forall in *. naive_solver.
Qed.

Lemma js_value_dropped v : js_value v -> js_value (dropped v).
Proof.
  induction v as [| |b|[n|]|t|l IH|kvs IH] using json_nested_ind; inversion 1; subst; try by constructor.
  - constructor. rewrite Forall_forall in *. intros w (x & <- & Hx%list_elem_of_In)%list_elem_of_In%in_map_iff.
    case_match; [constructor|auto].
  - pose proof (distinct_dropped _ (js_value_distinct _ H)) as Hd. cbn in Hd. inversion Hd; subst. constructor; [done|].
    rewrite Forall_forall in *. intros w [(x & <- & Hx%list_elem_of_In)%in_map_iff _]%list_elem_of_In%filter_In. cbn. naive_solver.
Qed.

Lemma line_text_join {A} (f : A -> text) l : Forall (fun x => line_text (f x)) l -> line_text (join [44] (List.map f l)).
Proof.
  induction 1 as [|x l Hx Hl IH]; [apply line_text_nil|]. destruct l as [|y l]; [done|].
  change (line_text (f x ++ [44] ++ join [44] (List.map f (y :: l)))). repeat apply line_text_app; [done| |done].
  apply line_text_unit; lia.
Qed.

Lemma line_text_quote t : js_units t -> line_text (json_quote t).
Proof. intros H. repeat apply line_text_app; [by apply line_text_unit; lia|by apply line_text_escapes|by apply line_text_unit; lia]. Qed.

Lemma line_text_render v : js_value v -> line_text (render v).
Proof.
  induction v as [| |b|[n|]|t|l IH|kvs IH] using json_nested_ind; inversion 1; subst; cbn [render];
    [by apply line_text_string|apply line_text_nil|destruct b; by apply line_text_string|apply line_text_number|by apply line_text_quote|..];
    repeat apply line_text_app; try (apply line_text_unit; lia); apply line_text_join; rewrite Forall_forall in *; [auto|].
  intros kv Hkv. match goal with Hk : forall x, x ∈ kvs -> _ /\ _ |- _ => destruct (Hk kv Hkv) end.
  apply line_text_app; [by apply line_text_quote|]. apply line_text_app; [apply line_text_unit; lia|auto].
Qed.

(** What [JSON.stringify] prints is one line of well-formed text. *)
Lemma line_text_stringify v : js_value v -> line_text (JSON_stringify v).
Proof. intros H. by apply line_text_render, js_value_dropped. Qed.
