(* ===== verification/Attest.v ===== *)
(** Attest: the attestations of src/attest.ts and the scope identities of
    src/scope.ts. A payload is the value parsed from the journal: what it must
    look like ([validatePayloadShape]), the one text its MAC is taken of
    ([canonicalPayload]), and that this text determines every field. *)
From S2P Require Import Prelude Text Json Ids ScmTypes ControlEvents EventSchema EventCode JsonText Money Stringify.

#[local] Open Scope Z_scope.

(** * Values as JavaScript sees them *)

(** [v.k], undefined where [v] has no such property. *)
Definition get (k : string) (v : json) : json :=
  match v with JObject kvs => property (text_of_string k) kvs | _ => JUndefined end.

(** [k in v] *)
Definition has_member (k : string) (v : json) : bool :=
  match v with JObject kvs => bool_decide (text_of_string k ∈ kvs.*1) | _ => false end.

Definition is_object (v : json) : bool := match v with JObject _ => true | _ => false end.
Definition is_boolean (v : json) : bool := match v with JBoolean _ => true | _ => false end.

(** [typeof v === "string" && p(v)] *)
Definition is_text (p : text -> bool) (v : json) : bool := match v with JString t => p t | _ => false end.

(** [typeof v === "number" && Number.isInteger(v) && v >= least] *)
Definition is_integer (least : Z) (v : json) : bool := match v with JNumber (Some n) => least <=? n | _ => false end.
Definition isSafe (least : Z) (v : json) : bool := match v with JNumber (Some n) => isSafeInteger n && (least <=? n) | _ => false end.

Definition nonempty (t : text) : bool := negb (bool_decide (t = [])).

(** [a === b] of two values that were parsed apart: objects are never the same. *)
Definition same_value (v w : json) : bool :=
  match v, w with
  | JNull, JNull | JUndefined, JUndefined => true
  | JBoolean a, JBoolean b => Bool.eqb a b
  | JNumber (Some n), JNumber (Some m) => n =? m
  | JString s, JString t => bool_decide (s = t)
  | _, _ => false
  end.

(** [String(v)]. A number that is not an integer below 10^21 is printed with a
    point, an exponent or a name; the point stands for it. *)
Fixpoint js_String (v : json) : text :=
  match v with
  | JNull => text_of_string "null"
  | JUndefined => text_of_string "undefined"
  | JBoolean b => text_of_string (if b then "true" else "false")
  | JNumber (Some n) => if Z.abs n <? 10 ^ 21 then text_of_string (num_to_string n) else [46]
  | JNumber None => [46]
  | JString t => t
  | JArray l => join [44] (List.map (fun w => match w with JNull | JUndefined => [] | _ => js_String w end) l)
  | JObject _ => text_of_string "[object Object]"
  end.

(** * Grammars *)

Definition hex_unit (c : Z) : bool := between 48 57 c || between 97 102 c.

(** [SHA256] and [HEX]: 64, or some, lower-case hexadecimal digits; [DEC]: a
    decimal number without leading zeros; [NANO]: one that may be negative. *)
Definition SHA256 (t : text) : bool := (textlen t =? 64) && forallb hex_unit t.
Definition HEX (t : text) : bool := nonempty t && forallb hex_unit t.
Definition DEC (t : text) : bool :=
  match t with
  | [] => false
  | 48 :: t' => bool_decide (t' = [])
  | _ => forallb is_decimal_digit t
  end.
Definition NANO (t : text) : bool := match t with 45 :: t' => DEC t' | _ => DEC t end.

(** [typeof v === "string" && v.length >= 32 && HEX.test(v)] *)
Definition nonce (t : text) : bool := (32 <=? textlen t) && HEX t.

Definition one_of (names : list string) (v : json) : bool := is_text (fun t => existsb (fun n => bool_decide (t = text_of_string n)) names) v.

(** * Scopes *)

Inductive ScopeRef := pgid (pid : Z) | cgroup2 (pid : Z) (name ino : text).

Definition scope_backend (r : ScopeRef) : text := text_of_string (match r with pgid _ => "pgid" | cgroup2 _ _ _ => "cgroup2" end).
Definition scope_pid (r : ScopeRef) : Z := match r with pgid pid | cgroup2 pid _ _ => pid end.

(** [/^[1-9][0-9]{0,n-1}$/] and [SCOPE_NAME] *)
Definition positive_digits (n : Z) (t : text) : bool :=
  match t with c :: _ => between 49 57 c && forallb is_decimal_digit t && (textlen t <=? n) | [] => false end.
Definition SCOPE_NAME (t : text) : bool :=
  startsWith (text_of_string "loop-") t && between 13 37 (textlen t) && forallb hex_unit (drop 5 t).

Definition number_text (n : Z) : text := text_of_string (num_to_string n).

Definition scopeIdOf (r : ScopeRef) : text :=
  match r with
  | pgid pid => text_of_string "pgid:" ++ number_text pid
  | cgroup2 pid name ino => text_of_string "cgroup2:" ++ ino ++ [58] ++ name ++ [58] ++ number_text pid
  end.

(** The parts of [PGID_ID] and [CGROUP_ID] hold no colon. *)
Definition parseScopeId (id : text) : option ScopeRef :=
  match split 58 id with
  | [kind; pid] =>
      if bool_decide (kind = text_of_string "pgid") && positive_digits 10 pid then Some (pgid (digits_value pid)) else None
  | [kind; ino; name; pid] =>
      if bool_decide (kind = text_of_string "cgroup2") && positive_digits 20 ino && SCOPE_NAME name && positive_digits 10 pid
      then Some (cgroup2 (digits_value pid) name ino) else None
  | _ => None
  end.

Definition reapProofOf (r : ScopeRef) : text :=
  match r with
  | pgid pid => text_of_string "pgid-empty:ESRCH:" ++ number_text pid
  | cgroup2 pid name ino =>
      text_of_string "cgroup2-empty:RMDIR:" ++ ino ++ [58] ++ name ++ text_of_string "+pgid-empty:ESRCH:" ++ number_text pid
  end.

(** * The payload *)

Definition ATTEST_SCHEMA : text := text_of_string "loop.ledger.attest.v2".

(** The number in a field, where it holds one. *)
Definition num_of (v : json) : Z := match v with JNumber (Some n) => n | _ => 0 end.

Definition is_absent (v : json) : bool := is_undefined v.

Definition validatePayloadShape (p : json) : result string unit :=
  let field (k : string) (p : text -> bool) (v : json) := ensure (is_text p (get k v)) ("invalid attestation " +:+ k) in
  let number (k : string) (least : Z) (v : json) := ensure (is_integer least (get k v)) ("invalid attestation " +:+ k) in
  ensure (is_object p) "attestation payload is not an object" ;;
  ensure (same_value (get "schema" p) (JString ATTEST_SCHEMA)) "unknown attestation schema" ;;
  ensure (one_of ["accounted-terminal"; "trusted-fallback"] (get "kind" p)) "invalid attestation kind" ;;
  field "ledgerEpoch" nonce p ;;
  field "runNonce" nonce p ;;
  field "callId" nonempty p ;;
  field "callNonce" nonce p ;;
  field "reservationId" nonce p ;;
  number "routeEpoch" 0 p ;;
  field "provider" nonempty p ;;
  field "model" nonempty p ;;
  field "providerKind" nonempty p ;;
  number "attempt" 0 p ;;
  ensure (one_of ["pgid"; "cgroup2"] (get "scopeBackend" p)) "invalid attestation scopeBackend" ;;
  field "scopeId" (fun _ => true) p ;;
  match parseScopeId (js_String (get "scopeId" p)) with
  | None => Err "invalid attestation scopeId (it does not name an owned process scope)"
  | Some scope =>
      ensure (same_value (get "scopeBackend" p) (JString (scope_backend scope))) "invalid attestation scopeId (another backend)" ;;
      ensure (same_value (get "scopeReapProof" p) (JString (reapProofOf scope))) "invalid attestation scopeReapProof"
  end ;;
  field "transcriptDev" DEC p ;;
  field "transcriptIno" DEC p ;;
  field "transcriptSha256" SHA256 p ;;
  number "transcriptBytes" 1 p ;;
  field "terminalSha256" SHA256 p ;;
  number "terminalBytes" 1 p ;;
  number "terminalOffset" 0 p ;;
  ensure (num_of (get "terminalOffset" p) + num_of (get "terminalBytes" p) <=? num_of (get "transcriptBytes" p)) "invalid attestation terminal evidence" ;;
  let hasLimit := negb (is_absent (get "limitSha256" p) && is_absent (get "limitBytes" p) && is_absent (get "limitOffset" p)) in
  (if one_of ["trusted-fallback"] (get "kind" p) then
     ensure hasLimit "a trusted-fallback attestation MUST pin the rate_limit_event frame" ;;
     field "limitSha256" SHA256 p ;;
     number "limitBytes" 1 p ;;
     number "limitOffset" 0 p ;;
     ensure (num_of (get "limitOffset" p) + num_of (get "limitBytes" p) <=? num_of (get "transcriptBytes" p)) "invalid attestation limit evidence"
   else ensure (negb hasLimit) "an accounted-terminal attestation must NOT carry a rate_limit_event frame") ;;
  field "usdNano" NANO p ;;
  ensure (one_of ["provider-reported"; "unknown"] (get "costProvenance" p)) "invalid attestation costProvenance" ;;
  ensure (negb (one_of ["unknown"] (get "costProvenance" p)) || same_value (get "usdNano" p) (JString [48])) "an attestation with unknown cost provenance must charge nothing" ;;
  field "ts" nonempty p.

(** * Its canonical encoding and its MAC *)

(** [put(name, v)] *)
Definition put (name : string) (v : json) : text :=
  text_of_string name ++ [58] ++
  (if is_undefined v then [45] else number_text (utf8_length (js_String v)) ++ [58] ++ js_String v).

Definition payload_fields : list string :=
  ["schema"; "kind"; "ledgerEpoch"; "runNonce"; "callId"; "callNonce"; "reservationId"; "routeEpoch"; "provider"; "model";
   "providerKind"; "attempt"; "scopeBackend"; "scopeId"; "scopeReapProof"; "transcriptDev"; "transcriptIno"; "transcriptSha256";
   "transcriptBytes"; "terminalSha256"; "terminalBytes"; "terminalOffset"; "limitSha256"; "limitBytes"; "limitOffset"; "usdNano";
   "costProvenance"; "ts"].

(** The members of the type [AttestPayload]. *)
Definition AttestPayload : list string :=
  ["schema"; "kind"] ++
  ["ledgerEpoch"; "runNonce"; "callId"; "callNonce"; "reservationId"; "routeEpoch"; "provider"; "model"; "providerKind"; "attempt"] ++
  ["scopeBackend"; "scopeId"; "scopeReapProof"; "transcriptDev"; "transcriptIno"; "transcriptSha256"; "transcriptBytes";
   "terminalSha256"; "terminalBytes"; "terminalOffset"; "limitSha256"; "limitBytes"; "limitOffset"] ++
  ["usdNano"; "costProvenance"; "ts"].

(** [canonical(p)] *)
Definition canonicalPayload (p : json) : list Z := utf8_encode (join [124] (List.map (fun k => put k (get k p)) payload_fields)).

(** [createHmac("sha256", key).update(bytes).digest("hex")] *)
Class Hmac := hmacSha256 : list Z -> list Z -> string.

(** An [AttestKey] that was not made by [attestKeyFromBytes] has no material. *)
Definition AttestKey : Type := option (list Z).

Definition ATTEST_KEY_BYTES : Z := 32.

Definition attestKeyFromBytes (raw : list Z) : result string AttestKey :=
  ensure (Z.of_nat (length raw) =? ATTEST_KEY_BYTES) "the ledger attestation key must be exactly 32 bytes" ;; Ok (Some raw).

Section mac.
Context `{Hmac}.

Definition tagPayload (key : AttestKey) (payload : json) : result string text :=
  match key with
  | None => Err "the ledger attestation key is not usable (it carries no material)"
  | Some material => Ok (text_of_string (hmacSha256 material (canonicalPayload payload)))
  end.

(** Two tags of 64 hexadecimal digits stand for the same bytes when they are equal. *)
Definition verifyAttestation (key : AttestKey) (a : json) : result string unit :=
  ensure (is_object a) "attestation is not an object" ;;
  ensure (is_text SHA256 (get "tag" a)) "invalid attestation tag" ;;
  validatePayloadShape (get "payload" a) ;;
  match key with
  | None => Err "the ledger attestation key is not usable"
  | Some material =>
      ensure (same_value (get "tag" a) (JString (text_of_string (hmacSha256 material (canonicalPayload (get "payload" a))))))
        "attestation tag does not verify"
  end.
End mac.

(** * What the encoding determines *)

Lemma number_text_units n : Forall number_unit (number_text n).
Proof. apply num_to_string_units. Qed.

Lemma number_text_inj n m : number_text n = number_text m -> n = m.
Proof. intros H%text_of_string_inj. by apply num_to_string_inj. Qed.

(** A number ends where something else begins. *)
Lemma number_text_prefix n m c r r' : ~ number_unit c -> number_text n ++ c :: r = number_text m ++ c :: r' -> n = m /\ r = r'.
Proof.
  intros Hc H. apply (maximal_run number_unit) in H as [H [= ->]]; [|apply number_text_units..|by intros ? ? [= <- _]|by intros ? ? [= <- _]].
  split; [by apply number_text_inj|done].
Qed.

Lemma number_text_ascii n : Forall (fun c => 0 <= c < 55296) (number_text n).
Proof. eapply Forall_impl; [apply number_text_units|]. unfold number_unit, is_digit. lia. Qed.

Lemma ascii_string s : Forall (fun c => 0 <= c < 55296) (text_of_string s).
Proof. pose proof (text_of_string_units s) as H. rewrite Forall_forall. intros c Hc. rewrite forallb_forall in H. apply list_elem_of_In, H in Hc. unfold between in Hc. lia. Qed.

(** The text of a field is well formed. *)
Definition encodable (v : json) : Prop := well_formed (js_String v).

Lemma put_well_formed k v : encodable v -> well_formed (put k v).
Proof.
  intros Hv. unfold put. apply well_formed_app; [apply well_formed_units, ascii_string|]. apply well_formed_unit; [lia|].
  destruct (is_undefined v); [apply well_formed_unit; [lia|apply well_formed_nil]|].
  apply well_formed_app; [apply well_formed_units, number_text_ascii|]. by apply well_formed_unit; [lia|].
Qed.

Lemma well_formed_join l : Forall well_formed l -> well_formed (join [124] l).
Proof.
  induction 1 as [|t l Ht Hl IH]; [apply well_formed_nil|]. destruct l as [|u l]; [done|].
  change (well_formed (t ++ 124 :: join [124] (u :: l))). apply well_formed_app; [done|]. by apply well_formed_unit; [lia|].
Qed.

(** As many bytes of two texts are the same text. *)
Lemma same_bytes s s' r r' : well_formed s -> well_formed s' -> well_formed r -> well_formed r' ->
  utf8_length s = utf8_length s' -> s ++ r = s' ++ r' -> s = s' /\ r = r'.
Proof.
  intros Hs Hs' Hr Hr' Hl E. apply (f_equal utf8_encode) in E. rewrite !encode_app in E by done.
  rewrite !utf8_length_encode in Hl by done. apply app_inj_1 in E as [E1 E2]; [|lia].
  apply (f_equal utf8_decode) in E1, E2. pose proof (decode_encode s []) as D1. pose proof (decode_encode s' []) as D2.
  pose proof (decode_encode r []) as D3. pose proof (decode_encode r' []) as D4. rewrite !app_nil_r in *.
  rewrite D1, D2 in E1 by done. rewrite D3, D4 in E2 by done. cbn in *. rewrite ?app_nil_r in *. done.
Qed.

(** A field with its length determines its value and what follows it. *)
Definition same_field (v w : json) : Prop := is_undefined v = is_undefined w /\ (is_undefined v = false -> js_String v = js_String w).

Lemma put_prefix k v w r r' : encodable v -> encodable w -> well_formed r -> well_formed r' ->
  (r = [] \/ exists c, r = 124 :: c) -> (r' = [] \/ exists c, r' = 124 :: c) ->
  put k v ++ r = put k w ++ r' -> same_field v w /\ r = r'.
Proof.
  intros Hv Hw Hr Hr' Hs Hs' E. unfold put in E. rewrite <-!app_assoc in E. apply app_inv_head in E. injection E as E.
  unfold same_field. destruct (is_undefined v), (is_undefined w).
  - by injection E as ->.
  - exfalso. rewrite <-!app_assoc in E. apply (maximal_run number_unit [45]) in E as [_ E]; [|by repeat constructor; right|apply number_text_units| |].
    + destruct Hs as [->|[c ->]]; discriminate E.
    + intros c r1 ->. destruct Hs as [|[d [= -> _]]]; [done|]. unfold number_unit, is_digit. lia.
    + intros c r1 [= <- _]. unfold number_unit, is_digit. lia.
  - exfalso. rewrite <-!app_assoc in E. symmetry in E. apply (maximal_run number_unit [45]) in E as [_ E]; [|by repeat constructor; right|apply number_text_units| |].
    + destruct Hs' as [->|[c ->]]; discriminate E.
    + intros c r1 ->. destruct Hs' as [|[d [= -> _]]]; [done|]. unfold number_unit, is_digit. lia.
    + intros c r1 [= <- _]. unfold number_unit, is_digit. lia.
  - rewrite <-!app_assoc in E. apply number_text_prefix in E as [Hl E]; [|unfold number_unit, is_digit; lia].
    by apply same_bytes in E as [-> ->].
Qed.

Lemma puts_inj (f g : string -> json) l :
  Forall (fun k => encodable (f k) /\ encodable (g k)) l ->
  join [124] (List.map (fun k => put k (f k)) l) = join [124] (List.map (fun k => put k (g k)) l) ->
  Forall (fun k => same_field (f k) (g k)) l.
Proof.
  induction 1 as [|k l [Hf Hg] Hl IH]; [constructor|]. cbn [List.map]. destruct l as [|k' l].
  - cbn. intros E. constructor; [|constructor]. rewrite <-(app_nil_r (put k (f k))), <-(app_nil_r (put k (g k))) in E.
    apply put_prefix in E as [? _]; auto using well_formed_nil.
  - cbn [List.map] in *. intros E.
    change (put k (f k) ++ 124 :: join [124] (put k' (f k') :: List.map (fun k => put k (f k)) l)
      = put k (g k) ++ 124 :: join [124] (put k' (g k') :: List.map (fun k => put k (g k)) l)) in E.
    assert (forall h, Forall (fun k => encodable (h k)) (k' :: l) -> well_formed (124 :: join [124] (put k' (h k') :: List.map (fun k => put k (h k)) l))) as Hw.
    { intros h Hh. apply well_formed_unit; [lia|]. apply well_formed_join. change (Forall well_formed (List.map (fun k => put k (h k)) (k' :: l))).
      apply Forall_map. eapply Forall_impl; [exact Hh|]. intros; by apply put_well_formed. }
    apply put_prefix in E as [? [= E]]; [|done|done|apply Hw; eapply Forall_impl; [exact Hl|naive_solver]..|right; eauto|right; eauto].
    constructor; auto.
Qed.

(** The fields the encoding covers, when they are strings and the numbers it prints in full. *)
Definition payload_encodable (p : json) : Prop :=
  Forall (fun k => encodable (get k p) /\ Z.abs (num_of (get k p)) < 10 ^ 21) payload_fields.

Lemma canonicalPayload_fields p q : payload_encodable p -> payload_encodable q ->
  canonicalPayload p = canonicalPayload q -> Forall (fun k => same_field (get k p) (get k q)) payload_fields.
Proof.
  intros Hp Hq E. unfold payload_encodable in *. rewrite Forall_forall in Hp, Hq. apply puts_inj.
  { apply Forall_forall. intros k Hk. split; [by apply Hp|by apply Hq]. }
  unfold canonicalPayload in E. apply (f_equal utf8_decode) in E.
  assert (forall p, (forall k, k ∈ payload_fields -> encodable (get k p)) -> well_formed (join [124] (List.map (fun k => put k (get k p)) payload_fields))) as Hw.
  { intros r Hr. apply well_formed_join, Forall_map, Forall_forall. intros k Hk. apply put_well_formed. auto. }
  pose proof (decode_encode _ [] (Hw p (fun k Hk => proj1 (Hp k Hk)))) as D1. pose proof (decode_encode _ [] (Hw q (fun k Hk => proj1 (Hq k Hk)))) as D2.
  rewrite !app_nil_r in *. rewrite D1, D2 in E. exact E.
Qed.

(** ** Types of the fields *)

Lemma is_text_spec P v : is_text P v = true <-> exists t, v = JString t /\ P t = true.
Proof. destruct v; cbn; split; try discriminate; try (by intros (? & [=] & _)); [eauto|by intros (? & [= ->] & ?)]. Qed.

Lemma is_integer_spec least v : is_integer least v = true <-> exists n, v = JNumber (Some n) /\ least <= n.
Proof.
  destruct v as [| | |[n|]| | |]; cbn; split; try discriminate; try (by intros (? & [=] & _)).
  - intros H. exists n. split; [done|lia].
  - intros (m & [= ->] & ?). lia.
Qed.

Lemma same_value_spec v w : same_value v w = true -> v = w.
Proof.
  destruct v as [| |a|[n|]|s| |], w as [| |b|[m|]|t| |]; cbn; try discriminate; try done.
  - intros H. apply Bool.eqb_prop in H. congruence.
  - intros H. f_equal. f_equal. lia.
  - intros H. apply bool_decide_eq_true in H. congruence.
Qed.

Lemma same_value_refl_text t : same_value (JString t) (JString t) = true.
Proof. cbn. by apply bool_decide_eq_true. Qed.

(** A field of a payload of the right shape is a string or an integer, and which
    of the two depends on the field alone. *)
Definition number_fields : list string :=
  ["routeEpoch"; "attempt"; "transcriptBytes"; "terminalBytes"; "terminalOffset"; "limitBytes"; "limitOffset"].

Definition typed_field (k : string) (v : json) : Prop :=
  is_undefined v = true \/ if bool_decide (k ∈ number_fields) then exists n, v = JNumber (Some n) else exists t, v = JString t.

Lemma typed_text P k v : bool_decide (k ∈ number_fields) = false -> is_text P v = true -> typed_field k v.
Proof. intros Hk (t & -> & _)%is_text_spec. right. rewrite Hk. eauto. Qed.

Lemma typed_integer least k v : bool_decide (k ∈ number_fields) = true -> is_integer least v = true -> typed_field k v.
Proof. intros Hk (n & -> & _)%is_integer_spec. right. rewrite Hk. eauto. Qed.

Lemma typed_same t k v : bool_decide (k ∈ number_fields) = false -> same_value v (JString t) = true -> typed_field k v.
Proof. intros Hk ->%same_value_spec. right. rewrite Hk. eauto. Qed.

Lemma shape_fields p u : validatePayloadShape p = Ok u -> Forall (fun k => typed_field k (get k p)) payload_fields.
Proof.
  unfold validatePayloadShape. cbv zeta beta. intros H.
  run; guards; repeat (apply Forall_cons; split); try apply Forall_nil;
    first [by (eapply typed_text; [reflexivity|eassumption])|by (eapply typed_integer; [reflexivity|eassumption])
          |by (eapply typed_same; [reflexivity|eassumption])|by left|exact I].
Qed.

Lemma same_typed_field k v w : typed_field k v -> typed_field k w -> Z.abs (num_of v) < 10 ^ 21 -> Z.abs (num_of w) < 10 ^ 21 ->
  same_field v w -> v = w.
Proof.
  intros Hv Hw Bv Bw [Hu Hs]. unfold typed_field in *. destruct Hv as [Hv|Hv].
  { rewrite Hv in Hu. symmetry in Hu. destruct v, w; done. }
  destruct Hw as [Hw|Hw]; [rewrite Hw in Hu; destruct v, w; done|]. case_bool_decide.
  - destruct Hv as [n ->], Hw as [m ->]. cbn [num_of] in *. specialize (Hs eq_refl). cbn [js_String] in Hs.
    rewrite (proj2 (Z.ltb_lt (Z.abs n) _)), (proj2 (Z.ltb_lt (Z.abs m) _)) in Hs by done. apply number_text_inj in Hs. congruence.
  - destruct Hv as [s ->], Hw as [t ->]. specialize (Hs eq_refl). cbn in Hs. congruence.
Qed.

(** Two payloads of the right shape with one encoding are the same in every field. *)
Lemma canonicalPayload_inj p q u u' : validatePayloadShape p = Ok u -> validatePayloadShape q = Ok u' ->
  payload_encodable p -> payload_encodable q -> canonicalPayload p = canonicalPayload q ->
  Forall (fun k => get k p = get k q) payload_fields.
Proof.
  intros Hp%shape_fields Hq%shape_fields Ep Eq E. pose proof (canonicalPayload_fields _ _ Ep Eq E) as Hs.
  unfold payload_encodable in *. rewrite Forall_forall in *. intros k Hk.
  destruct (Ep k Hk), (Eq k Hk). eapply same_typed_field; eauto.
Qed.

(** ** Scopes *)

Lemma digits_value_snoc t c : digits_value (t ++ [c]) = 10 * digits_value t + default 0 (digit_value c).
Proof. unfold digits_value. by rewrite foldl_app. Qed.

Lemma digit_unit c : is_decimal_digit c = true -> digit_value c = Some (c - 48) /\ 48 <= c <= 57.
Proof. unfold is_decimal_digit, digit_value. case_match; [|done]. intros _. guards. split; [done|lia]. Qed.

(** A number is at least one when its first digit is not zero. *)
Lemma digits_value_pos t : forallb is_decimal_digit t = true -> t <> [] -> head t <> Some 48 -> 0 < digits_value t.
Proof.
  induction t as [|c t IH] using rev_ind; [done|]. intros Hd _ Hh. rewrite digits_value_snoc. rewrite forallb_app in Hd. cbn in Hd. guards.
  match goal with H : is_decimal_digit c = true |- _ => destruct (digit_unit c H) as [-> Hc] end. cbn.
  destruct t as [|d t]; [|specialize (IH ltac:(done) ltac:(done) Hh); lia].
  assert (c <> 48) by (intros ->; by apply Hh). unfold digits_value. cbn. lia.
Qed.

(** Numbers without leading zeros are written in one way. *)
Lemma digits_value_inj t u : forallb is_decimal_digit t = true -> forallb is_decimal_digit u = true ->
  head t <> Some 48 -> head u <> Some 48 -> digits_value t = digits_value u -> t = u.
Proof.
  revert u; induction t as [|c t IH] using rev_ind; intros u Ht Hu Ht0 Hu0 E.
  - destruct (decide (u = [])) as [->|Hne]; [done|]. pose proof (digits_value_pos u Hu Hne Hu0). change (digits_value []) with 0 in *. lia.
  - destruct (decide (u = [])) as [->|(u' & d & ->)%rev_cons_split].
    + pose proof (digits_value_pos (t ++ [c]) Ht ltac:(by destruct t) Ht0). change (digits_value []) with 0 in *. lia.
    + rewrite forallb_app in Ht, Hu. cbn in Ht, Hu. guards. rewrite !digits_value_snoc in E.
      repeat match goal with H : is_decimal_digit ?c = true |- _ => let H1 := fresh in let H2 := fresh in destruct (digit_unit c H) as [H1 H2]; rewrite H1 in E; clear H end.
      cbn [from_option] in E; unfold id in E. assert (digits_value t = digits_value u') as Ev by lia. assert (c = d) as -> by lia. f_equal.
      destruct t as [|a t], u' as [|b u']; [done|..].
      * pose proof (digits_value_pos (b :: u') ltac:(done) ltac:(done) Hu0). change (digits_value []) with 0 in *. lia.
      * pose proof (digits_value_pos (a :: t) ltac:(done) ltac:(done) Ht0). change (digits_value []) with 0 in *. lia.
      * by apply IH.
Qed.

Lemma positive_digits_text n t : positive_digits n t = true -> number_text (digits_value t) = t.
Proof.
  destruct t as [|c t]; [done|]. unfold positive_digits. intros H. guards. unfold between in *. guards.
  assert (head (c :: t) <> Some 48) as Hh by (intros [= ->]; lia).
  pose proof (digits_value_pos (c :: t) ltac:(done) ltac:(done) Hh) as Hp.
  destruct (formatNano_digits (digits_value (c :: t))) as (Hne & Hd & Hv); [lia|].
  apply digits_value_inj; try done. by apply formatNano_head.
Qed.

(** What is parsed as a scope is the text of its identity. *)
Lemma parseScopeId_text id r : parseScopeId id = Some r -> id = scopeIdOf r.
Proof.
  unfold parseScopeId. intros H. rewrite <-(unsplit_split 58 id).
  destruct (split 58 id) as [|kind [|pid [|x [|y [|]]]]]; try discriminate H.
  - destruct (_ && _) eqn:E in H; [|discriminate]. injection H as <-. guards. cbn [unsplit scopeIdOf].
    by erewrite positive_digits_text.
  - destruct (_ && _) eqn:E in H; [|discriminate]. injection H as <-. guards. cbn [unsplit scopeIdOf].
    by erewrite (positive_digits_text _ y).
Qed.

(** The scope a payload names, and the frames it may name. *)
Lemma shape_scope p u : validatePayloadShape p = Ok u -> exists r, get "scopeId" p = JString (scopeIdOf r) /\
  get "scopeBackend" p = JString (scope_backend r) /\ get "scopeReapProof" p = JString (reapProofOf r).
Proof.
  unfold validatePayloadShape. cbv zeta beta. intros H.
  do 14 (apply bind_Ok in H as (? & _ & H)). apply bind_Ok in H as (? & Hid%ensure_Ok & H). apply bind_Ok in H as (? & Hs & _).
  apply is_text_spec in Hid as (id & Hid & _). rewrite Hid in Hs. cbn [js_String] in Hs. destruct (parseScopeId id) as [r|] eqn:E; [|discriminate Hs].
  apply bind_Ok in Hs as (? & Hb%ensure_Ok & Hs%ensure_Ok). apply parseScopeId_text in E as ->. exists r.
  split; [done|]. split; by apply same_value_spec.
Qed.

Lemma shape_limit p u : validatePayloadShape p = Ok u ->
  get "kind" p = JString (text_of_string "trusted-fallback") /\ (exists t, get "limitSha256" p = JString t /\ SHA256 t = true) \/
  get "kind" p = JString (text_of_string "accounted-terminal") /\ get "limitSha256" p = JUndefined.
Proof.
  unfold validatePayloadShape. cbv zeta beta. intros H.
  do 2 (apply bind_Ok in H as (? & _ & H)). apply bind_Ok in H as (? & Hk%ensure_Ok & H). do 21 (apply bind_Ok in H as (? & _ & H)).
  apply bind_Ok in H as (? & Hl & _). unfold one_of in Hk. apply is_text_spec in Hk as (k & Hk & Hin). rewrite Hk in Hl |- *. cbn [one_of is_text existsb] in Hl, Hin.
  destruct (bool_decide (k = text_of_string "trusted-fallback")) eqn:E; cbn [orb] in Hl.
  - apply bool_decide_eq_true in E as ->. left. split; [done|]. apply bind_Ok in Hl as (? & _ & Hl). apply bind_Ok in Hl as (? & Hs%ensure_Ok & _).
    by apply is_text_spec in Hs.
  - right. cbn [orb] in Hin. rewrite orb_false_r in Hin. apply bool_decide_eq_true in Hin as ->. split; [done|]. apply ensure_Ok in Hl.
    destruct (get "limitSha256" p); try done; cbn in Hl; discriminate Hl.
Qed.
