(* ===== verification/LedgerRecords.v ===== *)
(** LedgerRecords: the records of the money ledger (src/ledger.ts): what a call
    binding, a reservation and a settlement must look like, which settlements
    are attested, the hash chain of the journal, and the accounts folded from
    it. A record is the value it was parsed from, or will be printed from. *)
From S2P Require Import Prelude Text Json Ids ScmTypes ControlEvents EventSchema EventCode JsonText Money Stringify Attest.

#[local] Open Scope Z_scope.

(** * Errors *)

Inductive LedgerErrorKind := LedgerRecoveryRequired | CorruptJournalError | LedgerMoneyError | PlainError.

(** An error with its message; the texts a message quotes are left out of it. *)
Record LedgerError := { le_kind : LedgerErrorKind; le_message : text }.

Definition corrupt (what : string) : LedgerError := {| le_kind := CorruptJournalError; le_message := text_of_string what |}.
Definition recovery_required (what : string) : LedgerError := {| le_kind := LedgerRecoveryRequired; le_message := text_of_string what |}.
Definition money_error (what : string) : LedgerError := {| le_kind := LedgerMoneyError; le_message := text_of_string what |}.
Definition plain_error (what : string) : LedgerError := {| le_kind := PlainError; le_message := text_of_string what |}.

(** * Adapter identities *)

(** A closed object: these keys and no others, in any order. *)
Definition adapterRecord (allowed : list string) (v : json) : bool :=
  match v with
  | JObject kvs => bool_decide (js_sort text_compare kvs.*1 = js_sort text_compare (List.map text_of_string allowed))
  | _ => false
  end.

Definition adapterString (max : Z) (v : json) : bool :=
  is_text (fun t => nonempty t && (utf8_length t <=? max) && negb (includes [0] t)) v.

(** [SHA256.test(String(v))] *)
Definition sha256_named (v : json) : bool := SHA256 (js_String v).

Definition egress_evidence_keys : list string := ["policySha256"; "probeReceiptSha256"; "decisionLogSha256"; "socketIdentitySha256"; "cleanupSha256"].
Definition egress_authority_keys : list string := ["policySha256"; "probeReceiptSha256"; "socketIdentitySha256"].

Definition validateGrokEgressEvidence (value bind : json) : result string unit :=
  ensure (adapterRecord egress_evidence_keys value) "invalid settlement egress evidence" ;;
  ensure (forallb (fun k => sha256_named (get k value)) egress_evidence_keys) "invalid settlement egress" ;;
  ensure (is_object (get "egress" bind)) "settlement egress evidence was not authorized before reservation" ;;
  ensure (forallb (fun k => same_value (get k value) (get k (get "egress" bind))) egress_authority_keys)
    "settlement egress evidence does not match its reserved authority".

(** A request identifier of the ACP adapter: a safe integer or a text. *)
Definition request_id (v : json) : bool :=
  match v with JNumber (Some n) => isSafeInteger n | _ => adapterString 512 v end.

(** [new Set(ids).size === ids.length], of strings and numbers. *)
Fixpoint all_different (ids : list json) : bool :=
  match ids with [] => true | v :: ids' => negb (existsb (same_value v) ids') && all_different ids' end.

Definition named (names : list string) (v : json) : bool :=
  existsb (fun n => bool_decide (js_String v = text_of_string n)) names.

Definition kind_is (k : string) (v : json) : bool := same_value v (JString (text_of_string k)).

Definition pi_lifecycle_keys : list string := ["stateRequestId"; "statisticsBeforeRequestId"; "promptRequestId"; "statisticsAfterRequestId"].
Definition acp_lifecycle_keys : list string := ["initializeRequestId"; "newSessionRequestId"; "promptRequestId"].

Definition validateCorrelation (replay correlation : json) : result string unit :=
  ensure (is_object correlation && is_text (fun _ => true) (get "kind" correlation)) "invalid binding adapter correlation" ;;
  let kind := get "kind" correlation in
  if kind_is "oneshot" kind then
    ensure (adapterRecord ["kind"; "providerKind"] correlation && named ["claude"; "codex"; "gemini"; "custom"] (get "providerKind" correlation))
      "invalid binding one-shot correlation" ;;
    ensure (kind_is "oneshot-jsonl" (get "transportKind" replay) || kind_is "oneshot-text" (get "transportKind" replay))
      "binding adapter correlation contradicts transportKind"
  else if kind_is "acp-v1" kind then
    let lifecycle := has_member "initializeRequestId" correlation in
    let ids := List.map (fun k => get k correlation) (if lifecycle then acp_lifecycle_keys else ["promptRequestId"]) in
    ensure (adapterRecord ("kind" :: if lifecycle then acp_lifecycle_keys else ["sessionId"; "promptRequestId"]) correlation
      && (lifecycle || adapterString 512 (get "sessionId" correlation))
      && forallb request_id ids && (negb lifecycle || all_different ids)
      && kind_is "acp-v1" (get "transportKind" replay)) "invalid binding ACP correlation"
  else if kind_is "pi-rpc" kind then
    let lifecycle := has_member "stateRequestId" correlation in
    let hasCancel := lifecycle && has_member "cancelRequestId" correlation in
    let keys := if lifecycle then pi_lifecycle_keys ++ (if hasCancel then ["cancelRequestId"] else []) else ["promptRequestId"] in
    let ids := List.map (fun k => get k correlation) keys in
    ensure (adapterRecord ("kind" :: if lifecycle then keys else ["sessionId"; "promptRequestId"]) correlation
      && (lifecycle || adapterString 512 (get "sessionId" correlation))
      && forallb (adapterString 512) ids && (negb lifecycle || all_different ids)
      && kind_is "rpc-jsonl" (get "transportKind" replay)) "invalid binding Pi correlation"
  else Err "invalid binding adapter correlation kind".

Definition validateAdapterCallIdentity (value : json) : result string unit :=
  let hasRuntime := has_member "runtimeIdentitySha256" value in
  ensure (adapterRecord (["replay"; "correlation"] ++ if hasRuntime then ["runtimeIdentitySha256"] else []) value) "invalid binding adapter" ;;
  ensure (negb hasRuntime || sha256_named (get "runtimeIdentitySha256" value)) "invalid binding adapter runtime identity" ;;
  let replay := get "replay" value in
  ensure (adapterRecord ["adapterId"; "contractVersion"; "transportKind"; "wireVersion"; "codec"; "normalizer"] replay) "invalid binding adapter replay" ;;
  ensure (adapterString 64 (get "adapterId" replay)) "invalid binding adapterId" ;;
  ensure (isSafe 1 (get "contractVersion" replay)) "invalid binding adapter contractVersion" ;;
  ensure (named ["oneshot-jsonl"; "oneshot-text"; "rpc-jsonl"; "acp-v1"; "app-server-jsonrpc"] (get "transportKind" replay)) "invalid binding adapter transportKind" ;;
  ensure (adapterString 128 (get "wireVersion" replay)) "invalid binding adapter wireVersion" ;;
  ensure (forallb (fun field => adapterRecord ["id"; "version"] (get field replay) && adapterString 128 (get "id" (get field replay))
    && isSafe 1 (get "version" (get field replay))) ["codec"; "normalizer"]) "invalid binding adapter codec or normalizer" ;;
  validateCorrelation replay (get "correlation" value).

(** [x ?? null] *)
Definition or_null (v : json) : json := match v with JUndefined => JNull | _ => v end.

(** [Boolean(v)] of an identifier *)
Definition truthy_value (v : json) : bool :=
  match v with JNull | JUndefined => false | JBoolean b => b | JNumber (Some n) => negb (n =? 0) | JNumber None => false | JString t => nonempty t | _ => true end.

Definition correlation_values (correlation : json) : list json :=
  if kind_is "oneshot" (get "kind" correlation) then [get "providerKind" correlation]
  else if has_member "sessionId" correlation then [get "sessionId" correlation; get "promptRequestId" correlation]
  else if kind_is "acp-v1" (get "kind" correlation) then List.map (fun k => get k correlation) acp_lifecycle_keys
  else List.map (fun k => get k correlation) pi_lifecycle_keys
       ++ (if truthy_value (get "cancelRequestId" correlation) then [get "cancelRequestId" correlation] else []).

Section records.
Context `{!Digest} `{!Hmac}.

Definition adapterEvidenceIdentity (adapter : json) : result LedgerError text :=
  map_err money_error (validateAdapterCallIdentity adapter) ;;
  let replay := get "replay" adapter in
  let correlation := get "correlation" adapter in
  Ok (text_of_string "adapter-sha256:" ++ text_of_string (sha256Text (JSON_stringify (JArray
    ([get "adapterId" replay; get "contractVersion" replay; get "transportKind" replay; get "wireVersion" replay;
      get "id" (get "codec" replay); get "version" (get "codec" replay); get "id" (get "normalizer" replay); get "version" (get "normalizer" replay);
      get "kind" correlation; or_null (get "runtimeIdentitySha256" adapter)] ++ correlation_values correlation))))).

(** * Call bindings *)

Definition validateBinding (v : json) : result string unit :=
  let field (k : string) (p : text -> bool) (w : json) := ensure (is_text p (get k w)) ("invalid binding " +:+ k) in
  let number (k : string) (w : json) := ensure (is_integer 0 (get k w)) ("invalid binding " +:+ k) in
  ensure (is_object v) "binding is not an object" ;;
  field "runNonce" nonce v ;;
  field "callNonce" nonce v ;;
  field "callId" nonempty v ;;
  field "reservationId" nonce v ;;
  number "routeEpoch" v ;;
  field "provider" nonempty v ;;
  field "model" nonempty v ;;
  number "attempt" v ;;
  field "intentSha256" SHA256 v ;;
  field "stdinSha256" SHA256 v ;;
  number "stdinBytes" v ;;
  (if is_undefined (get "adapter" v) then Ok tt else validateAdapterCallIdentity (get "adapter" v)) ;;
  if is_undefined (get "egress" v) then Ok tt
  else
    ensure (adapterRecord egress_authority_keys (get "egress" v) && forallb (fun k => sha256_named (get k (get "egress" v))) egress_authority_keys)
      "invalid binding egress authority" ;;
    ensure (kind_is "grok" (get "adapterId" (get "replay" (get "adapter" v)))) "binding egress authority belongs only to grok".

(** * Attested settlements *)

(** A check that throws what its failure is. *)
Definition attested_fields : list string := ["callId"; "callNonce"; "reservationId"; "routeEpoch"; "provider"; "model"; "attempt"].

Definition adapter_attested (b p : json) : result string unit :=
  if is_undefined (get "adapter" b) then Ok tt
  else
    identity ← map_err (fun _ => "invalid binding adapter") (adapterEvidenceIdentity (get "adapter" b));
    ensure (same_value (get "providerKind" p) (JString identity)) "attestation adapter replay identity does not match its binding".

Definition attestationBindingError (key : AttestKey) (s : json) (epoch runNonce : text) : result string unit :=
  if is_undefined (get "attest" s) then Ok tt
  else
    verifyAttestation key (get "attest" s) ;;
    let p := get "payload" (get "attest" s) in
    let b := get "bind" s in
    ensure (same_value (get "ledgerEpoch" p) (JString epoch)) "attestation belongs to another ledger generation" ;;
    ensure (same_value (get "runNonce" p) (JString runNonce)) "attestation belongs to another run" ;;
    ensure (same_value (get "callId" p) (get "callId" s)) "attestation callId does not match its settlement" ;;
    ensure (forallb (fun k => same_value (get k p) (get k b)) attested_fields) "attestation does not match its binding" ;;
    adapter_attested b p ;;
    ensure (same_value (get "usdNano" p) (get "usdNano" s)) "settlement records another amount than its attestation charges" ;;
    ensure (same_value (get "reported" s) (JBoolean (kind_is "provider-reported" (get "costProvenance" p))))
      "settlement `reported` flag contradicts its attestation's cost provenance".

(** An attestation whose payload has the member [v] in field [k], authentic and of this record. *)
Definition attests (key : AttestKey) (s : json) (epoch runNonce : text) (k v : string) : bool :=
  negb (is_undefined (get "attest" s)) && is_ok (attestationBindingError key s epoch runNonce)
  && kind_is v (get k (get "payload" (get "attest" s))).

Definition costIsTrusted (key : AttestKey) (s : json) (epoch runNonce : text) : bool :=
  truthy_value (get "reported" s) && attests key s epoch runNonce "costProvenance" "provider-reported".

Definition authorizesFallback (key : AttestKey) (s : json) (epoch runNonce : text) : bool :=
  attests key s epoch runNonce "kind" "trusted-fallback".

(** * Records *)

Definition money_ok (v : json) : result string unit := map_err (fun _ => "invalid amount") (parseNano v) ;; Ok tt.

Definition validateData (d : json) (epoch runNonce : text) (key : AttestKey) : result string unit :=
  ensure (is_object d) "invalid data" ;;
  ensure (is_text nonempty (get "ts" d)) "invalid ts" ;;
  ensure (is_text nonempty (get "callId" d)) "invalid callId" ;;
  ensure (same_value (get "epoch" d) (JString epoch)) "record epoch does not belong to this ledger generation" ;;
  let bind := get "bind" d in
  validateBinding bind ;;
  ensure (same_value (get "runNonce" bind) (JString runNonce)) "record runNonce does not belong to this run" ;;
  ensure (same_value (get "callId" bind) (get "callId" d)) "record callId does not match its binding" ;;
  if kind_is "reserve" (get "type" d) then
    money_ok (get "worstCaseNano" d) ;;
    ensure (is_boolean (get "enforced" d)) "invalid enforced flag"
  else if kind_is "settle" (get "type" d) then
    money_ok (get "usdNano" d) ;;
    ensure (is_boolean (get "reported" d)) "invalid reported flag" ;;
    attestationBindingError key d epoch runNonce ;;
    (if is_undefined (get "egress" d) then
       ensure (is_undefined (get "egress" bind) || is_undefined (get "attest" d)) "attested Grok settlement is missing exact egress evidence"
     else validateGrokEgressEvidence (get "egress" d) bind)
  else Err "unknown record type".

Definition validateRecordSchema (rec : json) (epoch runNonce : text) (key : AttestKey) : result string unit :=
  ensure (is_object rec) "record is not an object" ;;
  ensure (is_integer 0 (get "seq" rec)) "invalid seq" ;;
  ensure (is_text nonempty (get "prev" rec)) "invalid prev" ;;
  ensure (is_text nonempty (get "hash" rec)) "invalid hash" ;;
  validateData (get "data" rec) epoch runNonce key.

(** Why a settlement's binding does not belong to its reservation. *)
Definition binding_fields : list string :=
  ["runNonce"; "callNonce"; "callId"; "reservationId"; "routeEpoch"; "provider"; "model"; "attempt"; "intentSha256"; "stdinSha256"; "stdinBytes"].

Definition same_adapter (a b : json) : result LedgerError bool :=
  match is_undefined a, is_undefined b with
  | true, true => Ok true
  | false, false =>
      ia ← adapterEvidenceIdentity a; ib ← adapterEvidenceIdentity b;
      Ok (bool_decide (ia = ib))
  | _, _ => Ok false
  end.

Definition bindingMismatch (reserve settle : json) : result LedgerError bool :=
  if forallb (fun k => same_value (get k reserve) (get k settle)) binding_fields then
    same ← same_adapter (get "adapter" reserve) (get "adapter" settle);
    Ok (negb (same && bool_decide (JSON_stringify (or_null (get "egress" reserve)) = JSON_stringify (or_null (get "egress" settle)))))
  else Ok true.

(** * The chain *)

Definition recordHash (prev : text) (seq : Z) (data : json) : text :=
  text_of_string (sha256Text (prev ++ [124] ++ number_text seq ++ [124] ++ JSON_stringify data)).

Record Folded := { fd_datas : list json; fd_tip : text; fd_seq : Z; fd_durableBytes : Z }.

(** [line.trim() === ""] *)
Definition blank (line : text) : bool := forallb js_whitespace line.

(** The lines of a text, and whether the last of them was left without its newline. *)
Definition lines_of (raw : text) : list text * bool :=
  match raw with
  | [] => ([], false)
  | _ => if endsWith [10] raw then (removelast (split 10 raw), false) else (split 10 raw, true)
  end.

(** One complete record behind those folded so far. *)
Definition fold_record (epoch runNonce : text) (key : AttestKey) (f : Folded) (line : text) : result LedgerError Folded :=
  ensure (negb (blank line)) (corrupt "blank record") ;;
  match JSON_parse line with
  | None => Err (corrupt "unparseable terminated record")
  | Some rec =>
      map_err corrupt (validateRecordSchema rec epoch runNonce key) ;;
      ensure (same_value (get "prev" rec) (JString f.(fd_tip)) && same_value (get "seq" rec) (JNumber (Some f.(fd_seq)))) (corrupt "broken chain link") ;;
      let data := get "data" rec in
      let hash := recordHash f.(fd_tip) f.(fd_seq) data in
      ensure (same_value (get "hash" rec) (JString hash)) (corrupt "hash mismatch (tampered record)") ;;
      Ok {| fd_datas := f.(fd_datas) ++ [data]; fd_tip := hash; fd_seq := f.(fd_seq) + 1; fd_durableBytes := f.(fd_durableBytes) + utf8_length line + 1 |}
  end.

(** The records in turn; the first failure is the journal's, except in a last
    line without its newline, where the fold ends before it. *)
Fixpoint fold_lines {A} (step : A -> text -> result LedgerError A) (torn : bool) (a : A) (lines : list text) : result LedgerError A :=
  match lines with
  | [] => Ok a
  | line :: lines' =>
      match step a line with
      | Ok a' => fold_lines step torn a' lines'
      | Err e => if torn && bool_decide (lines' = []) then Ok a else Err e
      end
  end.

Definition foldContent (raw epoch genesis runNonce : text) (key : AttestKey) : result LedgerError Folded :=
  let '(lines, torn) := lines_of raw in
  fold_lines (fold_record epoch runNonce key) torn {| fd_datas := []; fd_tip := genesis; fd_seq := 0; fd_durableBytes := 0 |} lines.

(** * Accounts *)

Record Reservation := {
  rv_worstCase : Z;
  rv_enforced : bool;
  rv_settled : bool;
  rv_trustedUsd : option Z;
  rv_fallbackAuthorized : bool;
  rv_over : bool;
  rv_bind : json
}.

(** A [Map] by call id, in the order the calls were added. *)
Definition Calls : Type := list (json * Reservation).

Fixpoint call_get (callId : json) (m : Calls) : option Reservation :=
  match m with
  | [] => None
  | (k, r) :: m' => if same_value k callId then Some r else call_get callId m'
  end.

Fixpoint call_set (callId : json) (r : Reservation) (m : Calls) : Calls :=
  match m with
  | [] => [(callId, r)]
  | (k, r') :: m' => if same_value k callId then (k, r) :: m' else (k, r') :: call_set callId r m'
  end.

Definition is_true (v : json) : bool := match v with JBoolean b => b | _ => false end.

(** The amount that is counted when a settlement proves it. *)
Definition settled_call (key : AttestKey) (epoch runNonce : text) (cur : Reservation) (r : json) : result LedgerError Reservation :=
  trusted ← (if costIsTrusted key r epoch runNonce then n ← map_err (fun _ => money_error "usdNano") (parseNano (get "usdNano" r)); Ok (Some n) else Ok None);
  Ok {| rv_worstCase := cur.(rv_worstCase); rv_enforced := cur.(rv_enforced); rv_settled := true; rv_trustedUsd := trusted;
        rv_fallbackAuthorized := authorizesFallback key r epoch runNonce;
        rv_over := cur.(rv_over) || (cur.(rv_enforced) && match trusted with Some n => cur.(rv_worstCase) <? n | None => false end);
        rv_bind := cur.(rv_bind) |}.

Definition fold_call (key : AttestKey) (epoch runNonce : text) (acc : Calls * list json) (r : json) : result LedgerError (Calls * list json) :=
  let '(m, spent) := acc in
  let callId := get "callId" r in
  if kind_is "reserve" (get "type" r) then
    ensure (negb (isSome (call_get callId m))) (corrupt "duplicate/re-reserve for call id") ;;
    ensure (negb (existsb (same_value (get "callNonce" (get "bind" r))) spent)) (corrupt "replayed call nonce") ;;
    worstCase ← map_err (fun _ => money_error "amount") (parseNano (get "worstCaseNano" r));
    Ok (call_set callId {| rv_worstCase := worstCase; rv_enforced := is_true (get "enforced" r); rv_settled := false; rv_trustedUsd := None;
                           rv_fallbackAuthorized := false; rv_over := false; rv_bind := get "bind" r |} m,
        get "callNonce" (get "bind" r) :: spent)
  else
    match call_get callId m with
    | None => Err (corrupt "orphan settle for unknown call id")
    | Some cur =>
        ensure (negb cur.(rv_settled)) (corrupt "duplicate settle for call id") ;;
        mismatch ← bindingMismatch cur.(rv_bind) (get "bind" r);
        ensure (negb mismatch) (corrupt "settlement identity mismatch for call id") ;;
        cur' ← settled_call key epoch runNonce cur r;
        Ok (call_set callId cur' m, spent)
    end.

Definition foldReservations (datas : list json) (key : AttestKey) (epoch runNonce : text) : result LedgerError Calls :=
  acc ← fold_result (fold_call key epoch runNonce) ([], []) datas; Ok acc.1.

(** What a call counts for: its trusted amount where one is proven, its worst case otherwise. *)
Definition counted (r : Reservation) : Z :=
  match r.(rv_trustedUsd) with Some n => if r.(rv_settled) then n else r.(rv_worstCase) | None => r.(rv_worstCase) end.

Definition spendOf (m : Calls) : Z := foldr (fun kr total => counted kr.2 + total) 0 m.
End records.
