(* ===== verification/Ledger.v ===== *)
(** Ledger: the handle of the money ledger (class LedgerHandle of src/ledger.ts)
    over two files, the journal and its write-ahead log, on a host whose every
    step may fail or be the last: transactions, reads, poisoning, and the
    operations of the public interface. The checks of paths, inodes, owners and
    locks are steps of the host that may fail. *)
From S2P Require Import Prelude Text Json Ids ScmTypes ControlEvents EventSchema EventCode JsonText Money Stringify Attest LedgerRecords.

#[local] Open Scope Z_scope.

(** * Files *)

(** What a file holds, what of it is on the disk for certain, and how many of
    its first bytes have not changed since. *)
Record File := { fl_content : list Z; fl_durable : list Z; fl_kept : nat }.

Definition file_of (bs : list Z) : File := {| fl_content := bs; fl_durable := bs; fl_kept := length bs |}.

(** A write behind the end leaves a hole of zeros. *)
Definition overwrite (content : list Z) (offset : nat) (bs : list Z) : list Z :=
  match bs with
  | [] => content
  | _ => take offset (content ++ replicate (offset - length content) 0) ++ bs ++ drop (offset + length bs) content
  end.

Definition write_at (offset : nat) (bs : list Z) (f : File) : File :=
  {| fl_content := overwrite f.(fl_content) offset bs; fl_durable := f.(fl_durable); fl_kept := Nat.min f.(fl_kept) offset |}.

Definition truncate (n : nat) (f : File) : File :=
  {| fl_content := take n f.(fl_content); fl_durable := f.(fl_durable); fl_kept := Nat.min f.(fl_kept) n |}.

Definition sync (f : File) : File := file_of f.(fl_content).

(** What a power loss may leave of a file: what was synced last, or a prefix of
    what was written since. *)
Definition survives (f : File) (bs : list Z) : Prop :=
  bs = f.(fl_durable) \/ exists k, (f.(fl_kept) <= k)%nat /\ bs = take k f.(fl_content).

(** * The host *)

Inductive LedgerStep :=
| step_rewalk | step_open_leaf | step_lock | step_visible_leaf | step_open_wal | step_stat_wal | step_read
| step_close | step_truncate | step_fsync | step_stat_leaf | step_read_back | step_fsync_dir | step_publish_receipt.

(** A step goes on, throws, or is the last of its process; [took_effect] says
    whether what it was asked to do has been done all the same. *)
Inductive Fate :=
| goes_on
| fails (took_effect : bool) (message : text)
| dies (took_effect : bool).

(** The host's answers: the fate of a step, how many of some bytes one write
    has written and its fate, the time, and whether a scope is alive. *)
Class LedgerHost (W : Type) := {
  host_step : LedgerStep -> W -> W * Fate;
  host_write : nat -> W -> W * (nat * Fate);
  host_now : W -> W * text;
  host_scopeAlive : ScopeRef -> W -> W * bool
}.

Record LedgerWorld (W : Type) := {
  lw_leaf : File;
  lw_wal : File;
  lw_poison : option text;
  lw_closed : bool;
  lw_host : W
}.
#[global] Arguments lw_leaf {W}.
#[global] Arguments lw_wal {W}.
#[global] Arguments lw_poison {W}.
#[global] Arguments lw_closed {W}.
#[global] Arguments lw_host {W}.

Inductive LedgerOutcome (A : Type) :=
| Returned (a : A)
| Thrown (e : LedgerError)
| Died.
#[global] Arguments Returned {A}.
#[global] Arguments Thrown {A}.
#[global] Arguments Died {A}.

Definition io (W A : Type) : Type := LedgerWorld W -> LedgerWorld W * LedgerOutcome A.

#[global] Instance io_ret {W} : MRet (io W) := fun A a w => (w, Returned a).
#[global] Instance io_bind {W} : MBind (io W) := fun A B k c w =>
  match c w with
  | (w', Returned a) => k a w'
  | (w', Thrown e) => (w', Thrown e)
  | (w', Died) => (w', Died)
  end.

Definition raise_error {W A} (e : LedgerError) : io W A := fun w => (w, Thrown e).
Definition lift {W A} (r : result LedgerError A) : io W A := match r with Ok a => mret a | Err e => raise_error e end.
Definition require {W} (b : bool) (e : LedgerError) : io W unit := if b then mret tt else raise_error e.

Section files.
Context {W : Type} `{!LedgerHost W}.
Local Abbreviation world := (LedgerWorld W).
Local Abbreviation io := (io W).

Definition set_host (h : W) (w : world) : world :=
  {| lw_leaf := w.(lw_leaf); lw_wal := w.(lw_wal); lw_poison := w.(lw_poison); lw_closed := w.(lw_closed); lw_host := h |}.
Definition set_poison (reason : option text) (w : world) : world :=
  {| lw_leaf := w.(lw_leaf); lw_wal := w.(lw_wal); lw_poison := reason; lw_closed := w.(lw_closed); lw_host := w.(lw_host) |}.

(** The two files of a ledger. *)
Inductive Which := the_leaf | the_wal.

Definition file (which : Which) (w : world) : File := match which with the_leaf => w.(lw_leaf) | the_wal => w.(lw_wal) end.
Definition set_file (which : Which) (f : File) (w : world) : world :=
  match which with
  | the_leaf => {| lw_leaf := f; lw_wal := w.(lw_wal); lw_poison := w.(lw_poison); lw_closed := w.(lw_closed); lw_host := w.(lw_host) |}
  | the_wal => {| lw_leaf := w.(lw_leaf); lw_wal := f; lw_poison := w.(lw_poison); lw_closed := w.(lw_closed); lw_host := w.(lw_host) |}
  end.

(** The effect of a step, by its fate. *)
Definition by_fate (ft : Fate) (before after : world) : world * LedgerOutcome unit :=
  match ft with
  | goes_on => (after, Returned tt)
  | fails took message => (if took then after else before, Thrown {| le_kind := PlainError; le_message := message |})
  | dies took => (if took then after else before, Died)
  end.

Definition effect_step (s : LedgerStep) (which : Which) (f : File -> File) : io unit := fun w =>
  let '(h, ft) := host_step s w.(lw_host) in
  let w := set_host h w in
  by_fate ft w (set_file which (f (file which w)) w).

Definition check_step (s : LedgerStep) : io unit := effect_step s the_leaf id.

Definition ledger_now : io text := fun w => let '(h, t) := host_now w.(lw_host) in (set_host h w, Returned t).
Definition scopeAlive (r : ScopeRef) : io bool := fun w => let '(h, b) := host_scopeAlive r w.(lw_host) in (set_host h w, Returned b).

(** One [io.write]: how many bytes it has written. *)
Definition write_step (which : Which) (bs : list Z) (offset : nat) : io nat := fun w =>
  let '(h, (n, ft)) := host_write (length bs) w.(lw_host) in
  let w := set_host h w in
  let written := take n bs in
  match by_fate ft w (set_file which (write_at offset written (file which w)) w) with
  | (w', Returned _) => (w', Returned (length written))
  | (w', Thrown e) => (w', Thrown e)
  | (w', Died) => (w', Died)
  end.

(** The loop ends: every write that returns has written a byte. *)
Fixpoint pwriteAll_from (fuel : nat) (which : Which) (bs : list Z) (offset : nat) : io unit :=
  match bs with
  | [] => mret tt
  | _ =>
      n ← write_step which bs offset;
      if (n <=? 0)%nat then raise_error (plain_error "ledger write made no progress")
      else match fuel with
           | O => mret tt
           | S fuel' => pwriteAll_from fuel' which (drop n bs) (offset + n)
           end
  end.
Definition pwriteAll (which : Which) (bs : list Z) (offset : nat) : io unit := pwriteAll_from (length bs) which bs offset.

(** What the bytes of a file say. *)
Definition inspect {A} (which : Which) (f : list Z -> result LedgerError A) : io A := fun w => lift (f (file which w).(fl_content)) w.

Definition readAll (which : Which) (maxBytes : Z) : io text :=
  check_step step_read ;;
  inspect which (fun content =>
    ensure (Z.of_nat (length content) <=? maxBytes) (plain_error "ledger exceeds its size (refusing an unbounded read)") ;;
    Ok (utf8_decode content)).

(** [readExact] and the comparison with what was written. *)
Definition read_back (which : Which) (bs : list Z) (offset : nat) (e : LedgerError) : io unit :=
  check_step step_read_back ;;
  inspect which (fun content =>
    let got := take (length bs) (drop offset content) in
    ensure (length bs <=? length got)%nat (plain_error "ledger read-back short") ;;
    ensure (bool_decide (got = bs)) e).

Definition size_of (which : Which) : io Z := inspect which (fun content => Ok (Z.of_nat (length content))).
End files.

(** * The write-ahead log *)

Inductive WalRecord :=
| wal_intent (seq off : Z) (h ts : text)
| wal_commit (seq : Z) (h ts : text)
| wal_poison (reason ts : text)
| wal_recovered (receipt ts : text).

Definition jtext (s : string) : json := JString (text_of_string s).

Definition wal_json (r : WalRecord) : json :=
  let fields (l : list (string * json)) := JObject (List.map (fun kv => (text_of_string kv.1, kv.2)) l) in
  match r with
  | wal_intent seq off h ts => fields [("t", jtext "intent"); ("seq", JNumber (Some seq)); ("off", JNumber (Some off)); ("h", JString h); ("ts", JString ts)]
  | wal_commit seq h ts => fields [("t", jtext "commit"); ("seq", JNumber (Some seq)); ("h", JString h); ("ts", JString ts)]
  | wal_poison reason ts => fields [("t", jtext "poison"); ("reason", JString reason); ("ts", JString ts)]
  | wal_recovered receipt ts => fields [("t", jtext "recovered"); ("receipt", JString receipt); ("ts", JString ts)]
  end.

Definition wal_line (r : WalRecord) : text := JSON_stringify (wal_json r) ++ [10].

Record WalState := { ws_durableBytes : Z; ws_pending : option (json * json); ws_poison : option text }.

Definition is_number (v : json) : bool := match v with JNumber _ => true | _ => false end.

(** What one parsed record does, or why it is not one. *)
Definition wal_record (rec : json) (st : option (json * json) * option text) : result LedgerError (option (json * json) * option text) :=
  let '(pending, poison) := st in
  let t := get "t" rec in
  if kind_is "intent" t then
    ensure (is_number (get "seq" rec) && is_text (fun _ => true) (get "h" rec) && is_number (get "off" rec)) (corrupt "invalid WAL intent") ;;
    Ok (Some (get "seq" rec, get "h" rec), poison)
  else if kind_is "commit" t then
    ensure (match pending with Some (seq, h) => same_value seq (get "seq" rec) && same_value h (get "h" rec) | None => false end)
      (corrupt "WAL commit does not match the pending intent") ;;
    Ok (None, poison)
  else if kind_is "poison" t then
    Ok (pending, Some (match get "reason" rec with JString reason => reason | _ => text_of_string "unspecified" end))
  else if kind_is "recovered" t then Ok (None, None)
  else Err (corrupt "unknown WAL record type").

(** A line that is blank or not JSON ends the fold, or is an error; the bytes of
    any other line are counted. A record that is not valid is an error unless its
    line is the torn one, where it has no effect and is counted. *)
Fixpoint fold_wal_lines (torn : bool) (st : WalState) (lines : list text) : result LedgerError WalState :=
  match lines with
  | [] => Ok st
  | line :: lines' =>
      let unterminated := torn && bool_decide (lines' = []) in
      if blank line then if unterminated then Ok st else Err (corrupt "blank WAL record")
      else
        match JSON_parse line with
        | None => if unterminated then Ok st else Err (corrupt "unparseable terminated WAL record")
        | Some JNull => Err (plain_error "Cannot read properties of null")
        | Some rec =>
            let counted '(pending, poison) :=
              {| ws_durableBytes := st.(ws_durableBytes) + utf8_length line + 1; ws_pending := pending; ws_poison := poison |} in
            match wal_record rec (st.(ws_pending), st.(ws_poison)) with
            | Ok s => fold_wal_lines torn (counted s) lines'
            | Err e => if unterminated then Ok (counted (st.(ws_pending), st.(ws_poison))) else Err e
            end
        end
  end.

Definition foldWal (raw : text) : result LedgerError WalState :=
  let '(lines, torn) := lines_of raw in
  fold_wal_lines torn {| ws_durableBytes := 0; ws_pending := None; ws_poison := None |} lines.

Definition MAX_LEDGER_BYTES : Z := 64 * 1024 * 1024.
Definition MAX_WAL_BYTES : Z := 64 * 1024 * 1024.

Section wal.
Context {W : Type} `{!LedgerHost W}.
Local Abbreviation io := (io W).

Definition walAppend (rec : WalRecord) : io unit :=
  check_step step_open_wal ;;
  check_step step_stat_wal ;;
  size ← size_of the_wal;
  raw ← readAll the_wal MAX_WAL_BYTES;
  state ← lift (foldWal raw);
  (if state.(ws_durableBytes) <? size then effect_step step_truncate the_wal (truncate (Z.to_nat state.(ws_durableBytes))) else mret tt) ;;
  pwriteAll the_wal (utf8_encode (wal_line rec)) (Z.to_nat state.(ws_durableBytes)) ;;
  effect_step step_fsync the_wal sync ;;
  check_step step_close.

Definition readWal : io WalState :=
  check_step step_open_wal ;;
  check_step step_stat_wal ;;
  raw ← readAll the_wal MAX_WAL_BYTES;
  state ← lift (foldWal raw);
  check_step step_close ;;
  mret state.

(** A mutation that was never proven durable refuses every use of the ledger. *)
Definition refuse_unproven (state : WalState) : io unit :=
  match state.(ws_poison) with
  | Some reason => if nonempty reason then raise_error {| le_kind := LedgerRecoveryRequired; le_message := reason |} else mret tt
  | None => mret tt
  end ;;
  require (bool_decide (isSome state.(ws_pending) = false)) (recovery_required "a write-ahead intent was never committed").

Definition assertUsable : io unit := fun w =>
  if w.(lw_closed) then (w, Thrown (recovery_required "the ledger handle is closed"))
  else match w.(lw_poison) with
       | Some reason => (w, Thrown {| le_kind := LedgerRecoveryRequired; le_message := reason |})
       | None => (w, Returned tt)
       end.

(** The handle is poisoned, and the log as far as the host lets it. *)
Definition poison (reason : text) : io unit := fun w =>
  let w := set_poison (Some reason) w in
  match (ts ← ledger_now; walAppend (wal_poison reason ts) ;; check_step step_fsync_dir) w with
  | (w', Died) => (w', Died)
  | (w', _) => (w', Returned tt)
  end.

(** [catch (error) { poison(...); throw error; }] *)
Definition or_poison {A} (c : io A) : io A := fun w =>
  match c w with
  | (w', Thrown e) =>
      match poison (text_of_string "transaction failed after a possible mutation: " ++ e.(le_message)) w' with
      | (w'', Died) => (w'', Died)
      | (w'', _) => (w'', Thrown e)
      end
  | r => r
  end.
End wal.

(** * The handle *)

(** What a handle knows of its generation: the manifest's part of it, the
    attestation key, and whether the host can contain a provider. *)
Class Generation := {
  epoch : text;
  genesis : text;
  runNonce : text;
  attest_key : AttestKey;
  strongScopeAvailable : bool
}.

Section handle.
Context {W : Type} `{!LedgerHost W} `{!Digest} `{!Hmac} `{!Generation}.
Local Abbreviation io := (io W).

Definition fold_journal (raw : text) : result LedgerError Folded := foldContent raw epoch genesis runNonce attest_key.
Definition fold_calls (f : Folded) : result LedgerError Calls := foldReservations f.(fd_datas) attest_key epoch runNonce.

(** ** Transactions *)

Definition journal_record (f : Folded) (data : json) : json :=
  JObject (List.map (fun kv => (text_of_string kv.1, kv.2))
    [("seq", JNumber (Some f.(fd_seq))); ("prev", JString f.(fd_tip)); ("hash", JString (recordHash f.(fd_tip) f.(fd_seq) data)); ("data", data)]).

Definition record_line (f : Folded) (data : json) : text := JSON_stringify (journal_record f data) ++ [10].

(** [assertPublishedAfterFsync] *)
Definition assertPublished (offset : nat) (line : list Z) : io unit :=
  check_step step_rewalk ;;
  check_step step_open_leaf ;;
  check_step step_stat_leaf ;;
  size ← size_of the_leaf;
  require (Z.of_nat offset + Z.of_nat (length line) <=? size) (recovery_required "the published ledger does not hold our record") ;;
  read_back the_leaf line offset (recovery_required "the bytes at the visible ledger path are not the record we published") ;;
  check_step step_close.

(** From the truncation of a torn tail to the commit. *)
Definition publish_record (f : Folded) (line : list Z) (h : text) : io unit :=
  let offset := Z.to_nat f.(fd_durableBytes) in
  check_step step_stat_leaf ;;
  size ← size_of the_leaf;
  (if f.(fd_durableBytes) <? size then effect_step step_truncate the_leaf (truncate offset) else mret tt) ;;
  pwriteAll the_leaf line offset ;;
  effect_step step_fsync the_leaf sync ;;
  check_step step_stat_leaf ;;
  size ← size_of the_leaf;
  require (size =? f.(fd_durableBytes) + Z.of_nat (length line)) (plain_error "ledger post-write size") ;;
  read_back the_leaf line offset (plain_error "ledger read-back does not match the bytes we wrote") ;;
  check_step step_fsync_dir ;;
  assertPublished offset line ;;
  ts ← ledger_now;
  walAppend (wal_commit f.(fd_seq) h ts).

(** The reading half of a transaction, under the lock: refused unless the last
    mutation was proven durable. *)
Definition read_folded : io Folded :=
  wal ← readWal;
  refuse_unproven wal ;;
  raw ← readAll the_leaf MAX_LEDGER_BYTES;
  lift (fold_journal raw).

Definition txn {A} (decide : Folded -> io (option json * A)) : io A :=
  assertUsable ;;
  check_step step_rewalk ;;
  check_step step_open_leaf ;;
  check_step step_lock ;;
  check_step step_visible_leaf ;;
  folded ← read_folded;
  '(record, r) ← decide folded;
  match record with
  | None => mret r
  | Some data =>
      let h := recordHash folded.(fd_tip) folded.(fd_seq) data in
      ts ← ledger_now;
      walAppend (wal_intent folded.(fd_seq) folded.(fd_durableBytes) h ts) ;;
      or_poison (publish_record folded (utf8_encode (record_line folded data)) h) ;;
      mret r
  end.

Definition read {A} (fn : Folded -> result LedgerError A) : io A :=
  assertUsable ;;
  check_step step_rewalk ;;
  check_step step_open_leaf ;;
  check_step step_lock ;;
  folded ← read_folded;
  lift (fn folded).

(** ** Reservations and settlements *)

Definition fields_json (l : list (string * json)) : json := JObject (List.map (fun kv => (text_of_string kv.1, kv.2)) l).

Definition reserve_data (bind : json) (worstCase : Z) (enforced : bool) (ts : text) : json :=
  fields_json [("type", jtext "reserve"); ("callId", get "callId" bind); ("worstCaseNano", JString (formatNano worstCase)); ("enforced", JBoolean enforced);
               ("ts", JString ts); ("epoch", JString epoch); ("bind", bind)].

(** Whether a call nonce has been spent. *)
Definition nonce_spent (bind : json) (datas : list json) : bool :=
  existsb (fun r => kind_is "reserve" (get "type" r) && same_value (get "callNonce" (get "bind" r)) (get "callNonce" bind)) datas.

(** The decision of [reserve], under the lock, at a given time, which is asked
    for after the checks. *)
Definition reserve_decision (bind : json) (worstCase budget : Z) (folded : Folded) (ts : text) : result LedgerError (option json * bool) :=
  m ← fold_calls folded;
  ensure (negb (isSome (call_get (get "callId" bind) m))) (corrupt "re-reserve of live call id") ;;
  ensure (negb (nonce_spent bind folded.(fd_datas))) (corrupt "replayed call nonce") ;;
  if negb (0 <? budget) then Ok (Some (reserve_data bind 0 false ts), true)
  else if budget <? spendOf m + worstCase then Ok (None, false)
  else Ok (Some (reserve_data bind worstCase true ts), true).

Definition reserve (bind : json) (worstCaseUsd budgetUsd : Amount) : io bool :=
  lift (map_err money_error (validateBinding bind)) ;;
  budget ← lift (map_err (fun _ => money_error "budgetUsd") (usdToNano budgetUsd));
  worstCase ← lift (map_err (fun _ => money_error "worstCase") (usdToNano worstCaseUsd));
  txn (fun folded =>
    lift (reserve_decision bind worstCase budget folded []) ;;
    ts ← ledger_now;
    lift (reserve_decision bind worstCase budget folded ts)).

Definition settle_data (bind attest : json) (usdNano : Z) (reported : bool) (egress : json) (ts : text) : json :=
  fields_json ([("type", jtext "settle"); ("callId", get "callId" bind); ("usdNano", JString (formatNano usdNano)); ("reported", JBoolean reported);
                ("ts", JString ts); ("epoch", JString epoch); ("bind", bind); ("attest", attest)]
               ++ if truthy_value egress then [("egress", egress)] else []).

Definition settle_decision (bind attest : json) (usdNano : Z) (reported : bool) (egress : json) (folded : Folded) (ts : text) :
    result LedgerError (option json * unit) :=
  m ← fold_calls folded;
  match call_get (get "callId" bind) m with
  | None => Err (corrupt "orphan settle for unknown call id")
  | Some existing =>
      ensure (negb existing.(rv_settled)) (corrupt "duplicate settle for call id") ;;
      mismatch ← bindingMismatch existing.(rv_bind) bind;
      ensure (negb mismatch) (corrupt "settlement identity mismatch for call id") ;;
      Ok (Some (settle_data bind attest usdNano reported egress ts), tt)
  end.

Definition appendSettlement (bind attest : json) (usdNano : Z) (reported : bool) (egress : json) : io unit :=
  txn (fun folded =>
    lift (settle_decision bind attest usdNano reported egress folded []) ;;
    ts ← ledger_now;
    lift (settle_decision bind attest usdNano reported egress folded ts)).

Definition settleUncertain (bind egress : json) : io unit :=
  lift (map_err money_error (validateBinding bind)) ;;
  appendSettlement bind JUndefined 0 false egress.

(** ** The mints *)

Definition assertMintable (bind : json) (scope : ScopeRef) : io unit :=
  lift (map_err money_error (validateBinding bind)) ;;
  require (same_value (get "runNonce" bind) (JString runNonce)) (recovery_required "the settlement kernel presented a binding for another run") ;;
  require (0 <? scope_pid scope) (money_error "the settlement kernel presented an invalid scope leader") ;;
  require (negb (match scope with pgid _ => true | cgroup2 _ _ _ => false end && strongScopeAvailable))
    (money_error "a process-group scope can never be settled on a host with a strong process scope") ;;
  alive ← scopeAlive scope;
  require (negb alive) (money_error "the owned scope is still ALIVE").

(** The adapter grammar of the reservation, where it selected one. *)
Definition grammar_kept (bind : json) (providerKind : text) : result LedgerError unit :=
  if is_undefined (get "adapter" bind) then Ok tt
  else
    identity ← adapterEvidenceIdentity (get "adapter" bind);
    ensure (bool_decide (providerKind = identity)) (money_error "the settlement kernel replayed a different adapter grammar than the reservation selected").

Definition sealAndSettle (bind payload : json) (usdNano : Z) (reported : bool) (egress : json) : io unit :=
  tag ← lift (map_err plain_error (tagPayload attest_key payload));
  let attest := fields_json [("payload", payload); ("tag", JString tag)] in
  lift (map_err money_error (verifyAttestation attest_key attest)) ;;
  appendSettlement bind attest usdNano reported egress.

(** A frame of the transcript, and the evidence the kernel has derived from it. *)
Record Frame := { fr_sha256 : text; fr_bytes : Z; fr_offset : Z }.

Record KernelDraft := {
  kd_providerKind : text;
  kd_scope : ScopeRef;
  kd_transcriptDev : text;
  kd_transcriptIno : text;
  kd_transcriptSha256 : text;
  kd_transcriptBytes : Z;
  kd_terminal : Frame;
  kd_egress : json
}.

Definition attest_payload (kind : string) (bind : json) (d : KernelDraft) (limit : list (string * json)) (usdNano : Z) (provenance : string) (ts : text) : json :=
  fields_json ([("schema", JString ATTEST_SCHEMA); ("kind", jtext kind); ("ledgerEpoch", JString epoch); ("runNonce", JString runNonce);
    ("callId", get "callId" bind); ("callNonce", get "callNonce" bind); ("reservationId", get "reservationId" bind); ("routeEpoch", get "routeEpoch" bind);
    ("provider", get "provider" bind); ("model", get "model" bind); ("providerKind", JString d.(kd_providerKind)); ("attempt", get "attempt" bind);
    ("scopeBackend", JString (scope_backend d.(kd_scope))); ("scopeId", JString (scopeIdOf d.(kd_scope))); ("scopeReapProof", JString (reapProofOf d.(kd_scope)));
    ("transcriptDev", JString d.(kd_transcriptDev)); ("transcriptIno", JString d.(kd_transcriptIno)); ("transcriptSha256", JString d.(kd_transcriptSha256));
    ("transcriptBytes", JNumber (Some d.(kd_transcriptBytes))); ("terminalSha256", JString d.(kd_terminal).(fr_sha256));
    ("terminalBytes", JNumber (Some d.(kd_terminal).(fr_bytes))); ("terminalOffset", JNumber (Some d.(kd_terminal).(fr_offset)))]
    ++ limit ++
    [("usdNano", JString (formatNano usdNano)); ("costProvenance", jtext provenance); ("ts", JString ts)]).

Definition attestAndSettle (bind : json) (d : KernelDraft) (usdNanoText : text) : io unit :=
  assertMintable bind d.(kd_scope) ;;
  lift (grammar_kept bind d.(kd_providerKind)) ;;
  usdNano ← lift (map_err (fun _ => money_error "provider-reported usdNano") (parseNano (JString usdNanoText)));
  require (0 <=? usdNano) (money_error "a provider-reported cost may not be negative") ;;
  ts ← ledger_now;
  sealAndSettle bind (attest_payload "accounted-terminal" bind d [] usdNano "provider-reported" ts) usdNano true d.(kd_egress).

Definition attestFallback (bind : json) (d : KernelDraft) (limit : Frame) : io unit :=
  assertMintable bind d.(kd_scope) ;;
  lift (grammar_kept bind d.(kd_providerKind)) ;;
  ts ← ledger_now;
  sealAndSettle bind
    (attest_payload "trusted-fallback" bind d
       [("limitSha256", JString limit.(fr_sha256)); ("limitBytes", JNumber (Some limit.(fr_bytes))); ("limitOffset", JNumber (Some limit.(fr_offset)))]
       0 "unknown" ts)
    0 false JUndefined.

(** ** Reads *)

Definition spend_of (f : Folded) : result LedgerError Z := m ← fold_calls f; Ok (spendOf m).
Definition effectiveSpendNano : io Z := read spend_of.

Definition budgetReached (budgetUsd : Amount) : io bool :=
  budget ← lift (map_err (fun _ => money_error "budgetUsd") (usdToNano budgetUsd));
  if budget <=? 0 then mret false
  else spend ← effectiveSpendNano; mret (budget <=? spend).

Definition violation_of (f : Folded) : result LedgerError (option json) :=
  m ← fold_calls f; Ok (option_map fst (List.find (fun kr => kr.2.(rv_over)) m)).
Definition budgetViolation : io (option json) := read violation_of.

Record SettlementStatus := { st_settled : bool; st_costTrusted : bool; st_fallbackAuthorized : bool }.

Definition status_of (callId : json) (f : Folded) : result LedgerError SettlementStatus :=
  m ← fold_calls f;
  Ok match call_get callId m with
     | Some r => if r.(rv_settled) then {| st_settled := true; st_costTrusted := isSome r.(rv_trustedUsd); st_fallbackAuthorized := r.(rv_fallbackAuthorized) |}
                 else {| st_settled := false; st_costTrusted := false; st_fallbackAuthorized := false |}
     | None => {| st_settled := false; st_costTrusted := false; st_fallbackAuthorized := false |}
     end.
Definition settlementOf (callId : json) : io SettlementStatus := read (status_of callId).

(** The record that settles a call. *)
Definition settle_record (callId : json) (f : Folded) : option json :=
  List.find (fun r => kind_is "settle" (get "type" r) && same_value (get "callId" r) callId) f.(fd_datas).

Record TerminalEvidence := { te_bind : json; te_costTrusted : bool; te_fallbackAuthorized : bool; te_recordSha256 : string; te_egress : json }.

Definition terminal_of (callId : json) (f : Folded) : result LedgerError (option TerminalEvidence) :=
  m ← fold_calls f;
  match call_get callId m with
  | Some r =>
      if r.(rv_settled) then
        match settle_record callId f with
        | Some record => Ok (Some {| te_bind := get "bind" record; te_costTrusted := isSome r.(rv_trustedUsd); te_fallbackAuthorized := r.(rv_fallbackAuthorized);
                                     te_recordSha256 := sha256Text (JSON_stringify record); te_egress := get "egress" record |})
        | None => Err (corrupt "settled call has no terminal record")
        end
      else Ok None
  | None => Ok None
  end.
Definition terminalSettlementEvidenceOf (callId : json) : io (option TerminalEvidence) := read (terminal_of callId).

Definition attested_of (callId : json) (f : Folded) : result LedgerError (option (json * json)) :=
  fold_calls f ;;
  Ok (record ← settle_record callId f;
      if truthy_value (get "attest" record) then Some (get "bind" record, get "payload" (get "attest" record)) else None).
Definition attestedSettlementOf (callId : json) : io (option (json * json)) := read (attested_of callId).

Definition has_call (callId : json) (f : Folded) : result LedgerError bool := m ← fold_calls f; Ok (isSome (call_get callId m)).
Definition hasReservation (callId : json) : io bool := read (has_call callId).

(** ** Reconciliation *)

Definition RECOVERY_SCHEMA : text := text_of_string "loop.ledger.recovery.v1".

Definition recovery_receipt (note : text) (before : WalState) (state : Folded) (ts : text) : json :=
  fields_json [("schema", JString RECOVERY_SCHEMA); ("ts", JString ts); ("epoch", JString epoch); ("runNonce", JString runNonce); ("note", JString note);
    ("clearedIntent", match before.(ws_pending) with Some (seq, h) => fields_json [("seq", seq); ("h", h)] | None => JNull end);
    ("clearedPoison", match before.(ws_poison) with Some reason => JString reason | None => JNull end);
    ("durableBytes", JNumber (Some state.(fd_durableBytes))); ("records", JNumber (Some state.(fd_seq))); ("tip", JString state.(fd_tip))].

Definition assertOpenHandle : io unit := fun w =>
  if w.(lw_closed) then (w, Thrown (recovery_required "the ledger handle is closed")) else (w, Returned tt).

Definition clear_poison : io unit := fun w => (set_poison None w, Returned tt).

(** The receipt is a file of its own, written and linked by one step of the
    host; the digest of its text is returned. *)
Definition reconcile (note : text) : io text :=
  assertOpenHandle ;;
  check_step step_rewalk ;;
  check_step step_open_leaf ;;
  check_step step_lock ;;
  before ← readWal;
  raw ← readAll the_leaf MAX_LEDGER_BYTES;
  state ← lift (fold_journal raw);
  ts ← ledger_now;
  let hash := text_of_string (sha256Text (JSON_stringify (recovery_receipt note before state ts) ++ [10])) in
  check_step step_publish_receipt ;;
  check_step step_fsync_dir ;;
  ts' ← ledger_now;
  walAppend (wal_recovered hash ts') ;;
  check_step step_fsync_dir ;;
  clear_poison ;;
  mret hash.
End handle.

(** * Calls *)

(** The calls of the interface, and of the kernel that settles for it. *)
Inductive LedgerCall :=
| call_reserve (bind : json) (worstCaseUsd budgetUsd : Amount)
| call_settleUncertain (bind egress : json)
| call_attestAndSettle (bind : json) (draft : KernelDraft) (usdNano : text)
| call_attestFallback (bind : json) (draft : KernelDraft) (limit : Frame)
| call_effectiveSpend
| call_budgetReached (budgetUsd : Amount)
| call_budgetViolation
| call_settlementOf (callId : json)
| call_terminalEvidence (callId : json)
| call_attestedSettlement (callId : json)
| call_hasReservation (callId : json).

Inductive LedgerAnswer :=
| answer_done
| answer_bool (b : bool)
| answer_amount (nano : Z)
| answer_violation (callId : option json)
| answer_status (s : SettlementStatus)
| answer_terminal (t : option TerminalEvidence)
| answer_attested (s : option (json * json)).

Section calls.
Context {W : Type} `{LH : !LedgerHost W} `{DG : Digest} `{HM : Hmac} `{GN : Generation}.

Definition answered {A} (f : A -> LedgerAnswer) (c : io W A) : io W LedgerAnswer := a ← c; mret (f a).

Definition perform_call (c : LedgerCall) : io W LedgerAnswer :=
  match c with
  | call_reserve bind worstCaseUsd budgetUsd => answered answer_bool (reserve bind worstCaseUsd budgetUsd)
  | call_settleUncertain bind egress => answered (fun _ => answer_done) (settleUncertain bind egress)
  | call_attestAndSettle bind draft usdNano => answered (fun _ => answer_done) (attestAndSettle bind draft usdNano)
  | call_attestFallback bind draft limit => answered (fun _ => answer_done) (attestFallback bind draft limit)
  | call_effectiveSpend => answered answer_amount effectiveSpendNano
  | call_budgetReached budgetUsd => answered answer_bool (budgetReached budgetUsd)
  | call_budgetViolation => answered answer_violation budgetViolation
  | call_settlementOf callId => answered answer_status (settlementOf callId)
  | call_terminalEvidence callId => answered answer_terminal (terminalSettlementEvidenceOf callId)
  | call_attestedSettlement callId => answered answer_attested (attestedSettlementOf callId)
  | call_hasReservation callId => answered answer_bool (hasReservation callId)
  end.
End calls.
