(* ===== verification/LedgerLog.v ===== *)
(** LedgerLog: the lines of the ledger's two files, and what a write-ahead log
    says when its last line was cut short, was left without its newline, or was
    written behind a hole. *)
From S2P Require Import Prelude Text Json Ids ScmTypes ControlEvents EventSchema EventCode JsonText Money Stringify Attest LedgerRecords Ledger.

#[local] Open Scope Z_scope.

(** * Lines *)

Definition unlines (ls : list text) : text := concat (List.map (fun l => l ++ [10]) ls).

Lemma unlines_app ls ls' : unlines (ls ++ ls') = unlines ls ++ unlines ls'.
Proof. unfold unlines. by rewrite List.map_app, concat_app. Qed.

Lemma split_unlines ls t : Forall (fun l => 10 ∉ l) ls -> split 10 (unlines ls ++ t) = ls ++ split 10 t.
Proof.
  induction 1 as [|l ls Hl _ IH]; [done|]. unfold unlines in *. cbn [List.map concat app]. rewrite <-!app_assoc.
  change ([10] ++ concat (List.map (fun l => l ++ [10]) ls) ++ t) with (10 :: (concat (List.map (fun l => l ++ [10]) ls) ++ t)).
  rewrite split_app_sep by done. by rewrite IH.
Qed.

Lemma endsWith_newline t : endsWith [10] (t ++ [10]) = true.
Proof. apply endsWith_spec. eauto. Qed.

Lemma endsWith_other t c : c <> 10 -> endsWith [10] (t ++ [c]) = false.
Proof.
  intros Hc. destruct (endsWith _ _) eqn:E; [|done]. apply endsWith_spec in E as [r E]. by apply app_inj_tail in E as [_ ->].
Qed.

Lemma lines_unlines ls : Forall (fun l => 10 ∉ l) ls -> lines_of (unlines ls) = (ls, false).
Proof.
  intros H. destruct ls as [|l ls] using rev_ind; [done|]. clear IHls. pose proof (split_unlines _ [] H) as Hs.
  rewrite app_nil_r in Hs. unfold lines_of. rewrite unlines_app in *. unfold unlines at 2 in Hs. unfold unlines at 2 4 6.
  cbn [List.map concat app] in *. rewrite app_nil_r in *. rewrite app_assoc in *.
  destruct ((unlines ls ++ l) ++ [10]) eqn:E; [by destruct (unlines ls ++ l)|]. rewrite <-E in *. rewrite endsWith_newline.
  f_equal. etransitivity; [apply (f_equal (@removelast _)), Hs|]. cbn [split]; by rewrite removelast_last.
Qed.

(** A text behind the lines that does not end with a newline. *)
Lemma lines_torn ls p : Forall (fun l => 10 ∉ l) ls -> p <> [] -> (forall q, p <> q ++ [10]) -> lines_of (unlines ls ++ p) = (ls ++ split 10 p, true).
Proof.
  intros H Hp He. unfold lines_of. rewrite split_unlines by done.
  destruct (rev_cons_split p Hp) as (q & c & ->). assert (c <> 10) by (intros ->; by apply (He q)).
  rewrite app_assoc. destruct ((unlines ls ++ q) ++ [c]) eqn:E; [by destruct (unlines ls ++ q)|]. rewrite <-E.
  by rewrite endsWith_other.
Qed.

Lemma lines_terminated ls q : Forall (fun l => 10 ∉ l) ls -> lines_of (unlines ls ++ q ++ [10]) = (ls ++ split 10 q, false).
Proof.
  intros H. unfold lines_of. rewrite split_unlines by done. rewrite app_assoc. destruct ((unlines ls ++ q) ++ [10]) eqn:E; [by destruct (unlines ls ++ q)|].
  rewrite <-E, endsWith_newline. f_equal. change (q ++ [10]) with (q ++ 10 :: []). rewrite split_app. cbn.
  rewrite app_assoc. by rewrite removelast_last.
Qed.

Lemma well_formed_unlines ls : Forall line_text ls -> well_formed (unlines ls).
Proof.
  induction 1 as [|l ls [Hl _] _ IH]; [apply well_formed_nil|]. unfold unlines in *. cbn [List.map concat]. rewrite <-app_assoc.
  apply well_formed_app; [done|]. by apply well_formed_unit; [lia|].
Qed.

Lemma no_newlines ls : Forall line_text ls -> Forall (fun l => 10 ∉ l) ls.
Proof. intros H. eapply Forall_impl; [exact H|]. by intros l [_ Hl]. Qed.

Lemma utf8_length_nonneg t : 0 <= utf8_length t.
Proof. unfold utf8_length. induction (code_points t) as [|cp cps IH]; cbn [foldr]; [lia|].
  assert (0 <= utf8_width cp) by (unfold utf8_width; repeat case_match; lia). lia.
Qed.

(** The bytes of lines are counted line by line. *)
Lemma encode_line l : line_text l -> Z.of_nat (length (utf8_encode (l ++ [10]))) = utf8_length l + 1.
Proof.
  intros [Hl _]. rewrite encode_app by (done || (apply well_formed_unit; [lia|apply well_formed_nil])).
  rewrite length_app, utf8_length_encode by done. change (length (utf8_encode [10])) with 1%nat. lia.
Qed.

Lemma encode_unlines_app ls ls' : Forall line_text ls -> Forall line_text ls' ->
  utf8_encode (unlines (ls ++ ls')) = utf8_encode (unlines ls) ++ utf8_encode (unlines ls').
Proof. intros H H'. by rewrite unlines_app, encode_app by (by apply well_formed_unlines). Qed.

Lemma decode_text t : well_formed t -> utf8_decode (utf8_encode t) = t.
Proof. intros H. pose proof (decode_encode t [] H) as E. change (utf8_decode []) with ([] : text) in E. by rewrite !app_nil_r in E. Qed.

Lemma decode_lines ls bs : Forall line_text ls -> utf8_decode (utf8_encode (unlines ls) ++ bs) = unlines ls ++ utf8_decode bs.
Proof. intros H. apply decode_encode. by apply well_formed_unlines. Qed.

(** * Records of the log *)

(** The records a transaction writes: the texts are JavaScript strings, and the
    reason of a poisoning is not empty. *)
Definition wal_ok (r : WalRecord) : Prop :=
  match r with
  | wal_intent _ _ h ts | wal_commit _ h ts => js_units h /\ js_units ts
  | wal_poison reason ts => js_units reason /\ js_units ts /\ reason <> []
  | wal_recovered _ _ => False
  end.

Definition wal_body (r : WalRecord) : text := JSON_stringify (wal_json r).

Lemma wal_js_value r : wal_ok r -> js_value (wal_json r).
Proof.
  assert (forall s, js_units (text_of_string s)) as Hs.
  { intros s. eapply Forall_impl; [apply ascii_string|]. cbv beta. intros; lia. }
  destruct r as [seq off h ts|seq h ts|reason ts|receipt ts]; cbn [wal_ok wal_json List.map]; intros Hok; try done;
    (constructor; [apply (bool_decide_unpack _); vm_compute; exact I|]);
    repeat (constructor; [split; [apply Hs|constructor; try apply Hs; tauto]|]); constructor.
Qed.

Lemma wal_line_text r : wal_ok r -> line_text (wal_body r).
Proof. intros H. by apply line_text_stringify, wal_js_value. Qed.

Lemma wal_dropped r : dropped (wal_json r) = wal_json r.
Proof. by destruct r. Qed.

Lemma wal_object r : exists kvs, wal_json r = JObject kvs.
Proof. destruct r; eexists; reflexivity. Qed.

Lemma wal_parse r : wal_ok r -> JSON_parse (wal_body r) = Some (wal_json r).
Proof.
  intros H%wal_js_value. unfold wal_body. rewrite JSON_parse_stringify; [by rewrite wal_dropped|by apply js_value_distinct|by destruct r].
Qed.

Lemma wal_head r : exists t, wal_body r = 123 :: t ++ [125].
Proof. unfold wal_body. destruct (wal_object r) as [kvs ->]. apply stringify_object. Qed.

Lemma wal_not_blank r q : blank (wal_body r ++ q) = false.
Proof. destruct (wal_head r) as [t ->]. done. Qed.

(** A record followed by anything but spaces is not a record. *)
Lemma wal_spoiled r q : wal_ok r -> skip_space q <> [] -> JSON_parse (wal_body r ++ q) = None.
Proof.
  intros H%wal_js_value%js_value_distinct. unfold wal_body. destruct (wal_object r) as [kvs E]. rewrite E in *. by apply spoiled_object.
Qed.

(** The first bytes of a record's line, not all of them but for the newline:
    what is decoded of them is one line that is not a record. *)
Lemma wal_part r k : wal_ok r -> (0 < k < length (utf8_encode (wal_body r)))%nat ->
  exists p, utf8_decode (take k (utf8_encode (wal_body r))) = p /\ p <> [] /\ (10 ∉ p) /\ JSON_parse p = None.
Proof.
  intros Hok Hk. destruct (wal_line_text r Hok) as [(cps & Hcps & Ec) Hnl]. rewrite Ec, encode_points in * by done.
  pose proof (js_value_distinct _ (wal_js_value r Hok)) as Hd.
  destruct (wal_object r) as [kvs Ej]. rewrite Ej in Hd.
  assert (JSON_stringify (JObject kvs) = text_of_points cps) as Es by (rewrite <-Ec; unfold wal_body; by rewrite Ej).
  assert (forall n, text_of_points cps = text_of_points (take n cps) ++ text_of_points (drop n cps)) as Hsplit
    by (intros n; by rewrite <-text_of_points_app, take_drop).
  assert (forall n, 10 ∉ text_of_points (take n cps)) as Hno.
  { intros n H. apply Hnl. rewrite (Hsplit n), elem_of_app. by left. }
  destruct (decode_take cps k Hcps) as [n [[Hb ->]|[Hn ->]]]; eexists; (split; [reflexivity|]).
  - assert (n < length cps)%nat as Hn.
    { destruct (decide (n < length cps)%nat) as [|Hge]; [done|]. apply (f_equal length) in Hb. rewrite (take_ge cps n) in Hb by lia.
      rewrite length_take in Hb. lia. }
    assert (n <> 0)%nat by (intros ->; apply (f_equal length) in Hb; rewrite length_take in Hb; change (length (concat (List.map bytes_of (take 0 cps)))) with O in Hb; lia).
    split; [|split; [done|]].
    + destruct cps as [|cp cps]; [cbn in Hn; lia|]. destruct n as [|n]; [done|]. unfold text_of_points. cbn [take List.map concat].
      unfold units_of. by case_match.
    + apply (cut_object kvs _ (text_of_points (drop n cps)) Hd); [by rewrite Es, <-Hsplit|].
      intros E. apply (f_equal length) in E. rewrite <-(take_drop n cps) in Hcps. apply Forall_app in Hcps as [_ Hc].
      destruct (drop n cps) as [|cp l] eqn:Ed; [apply (f_equal length) in Ed; rewrite length_drop in Ed; cbn in Ed; lia|].
      unfold text_of_points in E. cbn [List.map concat] in E. unfold units_of in E. destruct (cp <? 65536); discriminate E.
  - split; [by intros [_ ?]%app_eq_nil|]. split; [rewrite elem_of_app, list_elem_of_singleton; intros [?|?]; [by eapply Hno|done]|].
    apply (part_object kvs _ (text_of_points (drop n cps))); [by rewrite Es, <-Hsplit|done..].
Qed.

(** * What a log says *)

(** The state that records leave, and that of a log that refuses every use. *)
Definition wal_step (st : option (json * json) * option text) (r : WalRecord) : result LedgerError (option (json * json) * option text) :=
  wal_record (wal_json r) st.
Definition wal_states (rs : list WalRecord) : result LedgerError (option (json * json) * option text) := fold_result wal_step (None, None) rs.

Definition refusing (st : option (json * json) * option text) : Prop := isSome st.1 = true \/ exists reason, st.2 = Some reason /\ reason <> [].

(** Records that can have been written one after the other. *)
Definition wal_valid (rs : list WalRecord) : Prop := Forall wal_ok rs /\ exists st, wal_states rs = Ok st.

Definition wal_text (rs : list WalRecord) : text := unlines (List.map wal_body rs).
Definition wal_bytes (rs : list WalRecord) : list Z := utf8_encode (wal_text rs).

Lemma wal_lines_text rs : Forall wal_ok rs -> Forall line_text (List.map wal_body rs).
Proof. intros H. apply Forall_map. eapply Forall_impl; [exact H|]. by apply wal_line_text. Qed.

Lemma wal_bytes_app rs rs' : Forall wal_ok rs -> Forall wal_ok rs' -> wal_bytes (rs ++ rs') = wal_bytes rs ++ wal_bytes rs'.
Proof. intros H H'. unfold wal_bytes, wal_text. rewrite List.map_app. by apply encode_unlines_app; apply wal_lines_text. Qed.

Lemma wal_bytes_one r : wal_ok r -> wal_bytes [r] = utf8_encode (wal_body r) ++ [10].
Proof.
  intros H%wal_line_text. destruct H as [H _]. unfold wal_bytes, wal_text, unlines. cbn [List.map concat]. rewrite app_nil_r.
  by rewrite encode_app by (done || (apply well_formed_unit; [lia|apply well_formed_nil])).
Qed.

Lemma wal_states_snoc rs r st : wal_states rs = Ok st -> wal_states (rs ++ [r]) = wal_step st r.
Proof. intros H. unfold wal_states in *. rewrite fold_result_app, H. cbn. by destruct (wal_step st r). Qed.

Lemma wal_valid_app rs rs' : wal_valid (rs ++ rs') -> wal_valid rs.
Proof.
  intros [H [st Hs]]. apply Forall_app in H as [H _]. split; [done|]. unfold wal_states in *. rewrite fold_result_app in Hs.
  apply bind_Ok in Hs as (st' & Hs & _). eauto.
Qed.

(** The fold over complete lines, whatever lines follow. *)
Definition wal_state_of (bytes : Z) (st : option (json * json) * option text) : WalState :=
  {| ws_durableBytes := bytes; ws_pending := st.1; ws_poison := st.2 |}.

Lemma fold_wal_prefix torn rs st0 b0 st ls : Forall wal_ok rs -> fold_result wal_step st0 rs = Ok st -> (ls <> [] \/ torn = false) ->
  fold_wal_lines torn (wal_state_of b0 st0) (List.map wal_body rs ++ ls)
  = fold_wal_lines torn (wal_state_of (b0 + Z.of_nat (length (wal_bytes rs))) st) ls.
Proof.
  intros Hok; revert st0 b0. induction Hok as [|r rs Hr Hrs IH]; intros st0 b0 Hf Hls.
  { cbn in Hf. injection Hf as ->. cbn. by rewrite Z.add_0_r. }
  cbn in Hf. apply bind_Ok in Hf as (st1 & Hst & Hf). cbn [List.map app fold_wal_lines].
  pose proof (wal_not_blank r []) as Hb. rewrite app_nil_r in Hb. rewrite Hb, wal_parse by done. unfold wal_step in Hst.
  assert (torn && bool_decide (List.map wal_body rs ++ ls = []) = false) as ->.
  { destruct Hls as [Hls| ->]; [|done]. rewrite bool_decide_eq_false_2; [by destruct torn|]. by intros [_ ?]%app_eq_nil. }
  assert (exists kvs, wal_json r = JObject kvs) as [kvs Ej] by apply wal_object. rewrite Ej in *. cbn [ws_pending ws_poison wal_state_of].
  rewrite <-surjective_pairing, Hst. destruct st1 as [p q].
  specialize (IH (p, q) (b0 + utf8_length (wal_body r) + 1) Hf Hls). cbn [ws_durableBytes wal_state_of] in *. etransitivity; [exact IH|].
  do 2 f_equal. change (r :: rs) with ([r] ++ rs). rewrite wal_bytes_app by auto. rewrite length_app.
  pose proof (encode_line (wal_body r) (wal_line_text r Hr)) as E. unfold wal_bytes at 2, wal_text, unlines. cbn [List.map concat]. rewrite app_nil_r. lia.
Qed.

(** A complete log. *)
Lemma foldWal_complete rs st : Forall wal_ok rs -> wal_states rs = Ok st -> foldWal (utf8_decode (wal_bytes rs)) = Ok (wal_state_of (Z.of_nat (length (wal_bytes rs))) st).
Proof.
  intros H Hs. unfold wal_bytes at 1, wal_text. rewrite decode_text by by apply well_formed_unlines, wal_lines_text. unfold foldWal. rewrite lines_unlines by by apply no_newlines, wal_lines_text.
  rewrite <-(app_nil_r (List.map wal_body rs)). pose proof (fold_wal_prefix false rs (None, None) 0 st [] H Hs (or_intror eq_refl)) as E.
  exact E.
Qed.

(** A log whose last line is not a record, or not one yet, is as if it ended before it. *)
Lemma foldWal_torn rs st tail p : Forall wal_ok rs -> wal_states rs = Ok st -> utf8_decode tail = p -> p <> [] -> 10 ∉ p -> JSON_parse p = None ->
  foldWal (utf8_decode (wal_bytes rs ++ tail)) = Ok (wal_state_of (Z.of_nat (length (wal_bytes rs))) st).
Proof.
  intros H Hs Hp Hne Hnl Hparse. unfold wal_bytes at 1, wal_text. rewrite decode_lines by by apply wal_lines_text. rewrite Hp. unfold foldWal.
  rewrite lines_torn by (by apply no_newlines, wal_lines_text || done || (intros q ->; apply Hnl; rewrite elem_of_app, list_elem_of_singleton; by right)).
  rewrite (split_single 10 p) by done.
  etransitivity; [apply (fold_wal_prefix true rs (None, None) 0 st [p] H Hs); by left|]. rewrite Z.add_0_l.
  cbn [fold_wal_lines]. rewrite Hparse. cbn. by destruct (blank p).
Qed.

(** A last record without its newline counts, and a newline is counted with it. *)
Lemma foldWal_unterminated rs r st : Forall wal_ok rs -> wal_ok r -> wal_states (rs ++ [r]) = Ok st ->
  foldWal (utf8_decode (wal_bytes rs ++ utf8_encode (wal_body r))) = Ok (wal_state_of (Z.of_nat (length (wal_bytes (rs ++ [r])))) st).
Proof.
  intros H Hr Hs. assert (wal_body r <> []) as Hne by (destruct (wal_head r) as [t Ht]; congruence).
  destruct (wal_valid_app rs [r]) as [_ [st1 Hs1]]; [split; [apply Forall_app; auto|eauto]|]. rewrite (wal_states_snoc _ _ _ Hs1) in Hs.
  destruct (wal_line_text r Hr) as [Hw Hnl].
  unfold wal_bytes at 1, wal_text. rewrite decode_lines, decode_text by (done || by apply wal_lines_text). unfold foldWal.
  rewrite lines_torn by (by apply no_newlines, wal_lines_text || done || (intros q E; apply Hnl; rewrite E, elem_of_app, list_elem_of_singleton; by right)).
  rewrite (split_single 10 (wal_body r)) by done.
  etransitivity; [apply (fold_wal_prefix true rs (None, None) 0 st1 _ H Hs1); by left|].
  cbn [fold_wal_lines]. pose proof (wal_not_blank r []) as Hb. rewrite app_nil_r in Hb. rewrite Hb, wal_parse by done.
  destruct (wal_object r) as [kvs Ej]. rewrite Ej. unfold wal_step in Hs. rewrite Ej in Hs. cbn [ws_pending ws_poison wal_state_of].
  rewrite <-surjective_pairing, Hs. destruct st as [p q]. cbn. unfold wal_state_of. cbn. do 2 f_equal.
  rewrite wal_bytes_app, length_app, wal_bytes_one, length_app by auto. rewrite (utf8_length_encode _ Hw). cbn [length]. lia.
Qed.

(** A line within a text ends where its newline is. *)
Lemma lines_first ls x b : Forall (fun l => 10 ∉ l) ls -> 10 ∉ x ->
  exists ls' torn, (ls' <> [] \/ torn = false) /\ lines_of (unlines ls ++ x ++ 10 :: b) = (ls ++ x :: ls', torn).
Proof.
  intros H Hx. destruct (decide (b = [])) as [->|(b' & c & ->)%rev_cons_split].
  { exists [], false. split; [by right|]. rewrite lines_terminated by done. by rewrite split_single. }
  destruct (decide (c = 10)) as [->|Hc].
  - exists (split 10 b'), false. split; [by right|].
    replace (x ++ 10 :: b' ++ [10]) with ((x ++ 10 :: b') ++ [10]) by by rewrite <-app_assoc.
    rewrite lines_terminated by done. by rewrite split_app_sep.
  - exists (split 10 (b' ++ [c])), true. split; [left; apply split_nonempty|].
    rewrite lines_torn; [by rewrite split_app_sep|done|by destruct x|].
    intros q E. rewrite app_comm_cons, app_assoc in E. by apply app_inj_tail in E as [_ ?].
Qed.

(** What is written behind a hole that follows a record without its newline is
    never read: either the log is corrupt, or it is as if it ended before that record. *)
Definition holed (rs : list WalRecord) (r : WalRecord) (t : list Z) : list Z := wal_bytes rs ++ utf8_encode (wal_body r) ++ 0 :: t.

Lemma decode_hole rs r t : Forall wal_ok rs -> wal_ok r ->
  utf8_decode (holed rs r t) = wal_text rs ++ wal_body r ++ 0 :: utf8_decode t.
Proof.
  intros H Hr. destruct (wal_line_text r Hr) as [Hw _]. unfold holed, wal_bytes, wal_text. rewrite decode_lines by by apply wal_lines_text.
  f_equal. by rewrite decode_encode.
Qed.

Lemma foldWal_hole rs r t st : Forall wal_ok rs -> wal_ok r -> wal_states rs = Ok st ->
  (exists e, foldWal (utf8_decode (holed rs r t)) = Err e) \/
  foldWal (utf8_decode (holed rs r t)) = Ok (wal_state_of (Z.of_nat (length (wal_bytes rs))) st).
Proof.
  intros H Hr Hs. rewrite decode_hole by done. generalize (utf8_decode t). clear t. intros u.
  destruct (wal_line_text r Hr) as [_ Hnl].
  assert (forall v, JSON_parse (wal_body r ++ 0 :: v) = None) as Hparse by (intros v; by apply wal_spoiled).
  unfold foldWal, wal_text.
  assert (forall ls torn, ls <> [] \/ torn = false -> fold_wal_lines torn (wal_state_of 0 (None, None)) (List.map wal_body rs ++ ls)
    = fold_wal_lines torn (wal_state_of (0 + Z.of_nat (length (wal_bytes rs))) st) ls) as Hfold by (intros ls torn; by apply fold_wal_prefix).
  destruct (decide (10 ∈ u)) as [Hin|Hin].
  - left. apply list_elem_of_split_l in Hin as (a & b & -> & Ha).
    destruct (lines_first (List.map wal_body rs) (wal_body r ++ 0 :: a) b) as (ls & torn & Hls & E);
      [by apply no_newlines, wal_lines_text|rewrite elem_of_app, elem_of_cons; naive_solver|].
    rewrite <-app_assoc in E. cbn [app] in E. rewrite E. rewrite Hfold by by left. cbn [fold_wal_lines]. rewrite wal_not_blank, Hparse.
    assert (torn && bool_decide (ls = []) = false) as ->.
    { destruct Hls as [Hls| ->]; [|done]. by rewrite bool_decide_eq_false_2, andb_false_r. }
    eauto.
  - right. assert (10 ∉ wal_body r ++ 0 :: u) as Hno by (rewrite elem_of_app, elem_of_cons; naive_solver).
    rewrite lines_torn; [|by apply no_newlines, wal_lines_text|by destruct (wal_body r)|].
    2:{ intros q E. apply Hno. rewrite E, elem_of_app, list_elem_of_singleton. by right. }
    rewrite (split_single 10 _ Hno), Hfold by by left. cbn [fold_wal_lines]. rewrite wal_not_blank, Hparse. cbn. done.
Qed.

(** * What a log can look like *)

Definition refuses (bs : list Z) : Prop :=
  match foldWal (utf8_decode bs) with Ok st => refusing (st.(ws_pending), st.(ws_poison)) | Err _ => True end.

(** The first bytes of a log that was written record by record, or one that goes
    on behind a hole, where the records before the hole refuse. *)
Definition regular (bs : list Z) : Prop := exists rs k, wal_valid rs /\ bs = take k (wal_bytes rs).
Definition broken (bs : list Z) : Prop :=
  exists rs r t st, wal_valid (rs ++ [r]) /\ wal_states rs = Ok st /\ refusing st /\ bs = holed rs r t.
Definition log_like (bs : list Z) : Prop := regular bs \/ broken bs.

Lemma regular_bytes rs : wal_valid rs -> regular (wal_bytes rs).
Proof. intros H. exists rs, (length (wal_bytes rs)). by rewrite firstn_all. Qed.

Lemma wal_valid_ok rs r : wal_valid (rs ++ [r]) -> Forall wal_ok rs /\ wal_ok r.
Proof. intros [H _]. apply Forall_app in H as [H Hr]. by apply Forall_cons in Hr as [Hr _]. Qed.

Lemma log_like_take k bs : log_like bs -> log_like (take k bs).
Proof.
  intros [(rs & m & H & ->)|(rs & r & t & st & H & Hs & Href & ->)].
  - left. exists rs, (Nat.min k m). by rewrite take_take.
  - destruct (wal_valid_ok _ _ H) as [Hok Hr]. unfold holed. rewrite app_assoc.
    destruct (decide (k <= length (wal_bytes rs ++ utf8_encode (wal_body r)))%nat) as [Hk|Hk].
    + left. exists (rs ++ [r]), k. split; [done|]. rewrite wal_bytes_app, wal_bytes_one, app_assoc by auto.
      by rewrite (take_app_le _ [10]), (take_app_le _ (0 :: t)).
    + right. exists rs, r, (take (k - length (wal_bytes rs ++ utf8_encode (wal_body r)) - 1) t), st. split; [done|]. split; [done|]. split; [done|].
      unfold holed. rewrite app_assoc, take_app, take_ge by lia. f_equal.
      destruct (k - length (wal_bytes rs ++ utf8_encode (wal_body r)))%nat eqn:E; [lia|]. cbn. by rewrite Nat.sub_0_r.
Qed.

Lemma broken_refuses bs : broken bs -> refuses bs.
Proof.
  intros (rs & r & t & st & H & Hs & Href & ->). destruct (wal_valid_ok _ _ H) as [Hok Hr]. unfold refuses.
  destruct (foldWal_hole rs r t st Hok Hr Hs) as [[e ->]| ->]; [done|]. cbn. by destruct st.
Qed.

(** Where the next record is written: behind complete records and what is cut
    off, or behind a last record that has no newline. *)
Definition log_ends (bs : list Z) (d : nat) (rs : list WalRecord) (last : option WalRecord) : Prop :=
  wal_valid (rs ++ option_list last) /\
  (exists st, wal_states (rs ++ option_list last) = Ok st /\ foldWal (utf8_decode bs) = Ok (wal_state_of (Z.of_nat d) st)) /\
  match last with
  | None => take d bs = wal_bytes rs /\ (d <= length bs)%nat
  | Some r => bs = wal_bytes rs ++ utf8_encode (wal_body r) /\ d = S (length bs)
  end.

Lemma ends_complete rs : wal_valid rs -> log_ends (wal_bytes rs) (length (wal_bytes rs)) rs None.
Proof.
  intros H. unfold log_ends. cbn [option_list]. rewrite app_nil_r. split; [done|]. destruct H as [Hok [st Hs]]. split.
  - exists st. split; [done|]. by apply foldWal_complete.
  - by rewrite firstn_all.
Qed.

Lemma ends_part rs r j : wal_valid (rs ++ [r]) -> (j < length (wal_bytes [r]))%nat ->
  exists d last, log_ends (wal_bytes rs ++ take j (wal_bytes [r])) d rs last /\ (last = None \/ last = Some r).
Proof.
  intros H Hj. destruct (wal_valid_ok _ _ H) as [Hok Hr]. rewrite wal_bytes_one in * by done. rewrite length_app in Hj. cbn in Hj.
  pose proof (wal_valid_app _ _ H) as Hrs. rewrite take_app_le by lia.
  destruct (decide (j = 0)%nat) as [->|H0].
  { cbn [take]. rewrite app_nil_r. eexists _, None. split; [by apply ends_complete|by left]. }
  destruct (decide (j = length (utf8_encode (wal_body r)))) as [->|Hne].
  - rewrite firstn_all. eexists _, (Some r). split; [|by right]. split; [done|]. split; [|by split].
    destruct H as [_ [st Hs]]. exists st. split; [done|]. rewrite (foldWal_unterminated rs r st) by done. do 2 f_equal.
    rewrite wal_bytes_app, wal_bytes_one, !length_app by auto. cbn. lia.
  - eexists (length (wal_bytes rs)), None. split; [|by left]. unfold log_ends. cbn [option_list]. rewrite app_nil_r. split; [done|].
    destruct Hrs as [_ [st Hs]]. split.
    + exists st. split; [done|]. destruct (wal_part r j Hr ltac:(lia)) as (p & Hp & Hpne & Hpnl & Hpp). by eapply foldWal_torn.
    + rewrite take_app_length, length_app. split; [done|lia].
Qed.

Lemma regular_ends bs : regular bs -> exists d rs last, log_ends bs d rs last.
Proof.
  intros (rs & k & H & ->). destruct (decide (length (wal_bytes rs) <= k)%nat) as [Hk|Hk].
  { rewrite take_ge by done. eexists _, rs, None. by apply ends_complete. }
  assert (k < length (wal_bytes rs))%nat as Hlt by lia. clear Hk. induction rs as [|r rs IH] using rev_ind; [cbn in Hlt; lia|].
  destruct (wal_valid_ok _ _ H) as [Hok Hr]. rewrite wal_bytes_app, length_app in * by auto.
  destruct (decide (length (wal_bytes rs) <= k)%nat) as [Hk|Hk].
  - destruct (ends_part rs r (k - length (wal_bytes rs))%nat H ltac:(lia)) as (d & last & He & _).
    rewrite take_app, take_ge by done. eauto.
  - rewrite take_app_le by lia. apply IH; [by eapply wal_valid_app|lia].
Qed.

(** What a log holds once some bytes have been written at an offset. *)
Definition log_appended (bs : list Z) (d : nat) (written : list Z) : list Z := take d bs ++ replicate (d - length bs) 0 ++ written.

Lemma ends_appended bs d rs last written : log_ends bs d rs last ->
  log_appended bs d written = match last with None => wal_bytes rs ++ written | Some r => holed rs r written end.
Proof.
  intros (_ & _ & H). unfold log_appended. destruct last as [r|].
  - destruct H as [-> ->]. rewrite take_ge by lia. rewrite Nat.sub_succ_l, Nat.sub_diag by lia. cbn. unfold holed. by rewrite <-app_assoc.
  - destruct H as [-> Hd]. by replace (d - length bs)%nat with O by lia.
Qed.

Lemma append_log bs d rs last r j :
  log_ends bs d rs last -> (last = None -> wal_valid (rs ++ [r])) -> (last <> None -> exists st, wal_states rs = Ok st /\ refusing st) ->
  log_like (log_appended bs d (take j (wal_bytes [r]))).
Proof.
  intros He Hr Hlast. rewrite (ends_appended _ _ _ _ _ He). destruct last as [r0|].
  - destruct Hlast as (st & Hs & Href); [done|]. right. exists rs, r0, (take j (wal_bytes [r])), st. by destruct He as [Hv _].
  - left. specialize (Hr eq_refl). exists (rs ++ [r]), (length (wal_bytes rs) + j)%nat. split; [done|]. destruct (wal_valid_ok _ _ Hr).
    rewrite wal_bytes_app, take_app, (take_ge (wal_bytes rs)) by (auto || lia). do 2 f_equal. lia.
Qed.

(** ** The records of a transaction *)

Lemma step_intent st seq off h ts : wal_step st (wal_intent seq off h ts) = Ok (Some (JNumber (Some seq), JString h), st.2).
Proof. by destruct st. Qed.

Lemma step_commit q seq h ts : wal_step (Some (JNumber (Some seq), JString h), q) (wal_commit seq h ts) = Ok (None, q).
Proof.
  unfold wal_step, wal_record. change (get "t" (wal_json (wal_commit seq h ts))) with (jtext "commit").
  change (get "seq" (wal_json (wal_commit seq h ts))) with (JNumber (Some seq)). change (get "h" (wal_json (wal_commit seq h ts))) with (JString h).
  change (kind_is "intent" (jtext "commit")) with false. change (kind_is "commit" (jtext "commit")) with true. cbn [same_value].
  by rewrite Z.eqb_refl, bool_decide_eq_true_2.
Qed.

Lemma step_poison st reason ts : wal_step st (wal_poison reason ts) = Ok (st.1, Some reason).
Proof. by destruct st. Qed.

(** A log that does not refuse is read in full, or its last record is a commit
    without its newline, and the records before it do refuse. *)
Lemma clean_last rs r st : wal_valid (rs ++ [r]) -> wal_states (rs ++ [r]) = Ok st -> ~ refusing st ->
  exists st', wal_states rs = Ok st' /\ refusing st'.
Proof.
  intros H Hs Hn. destruct (wal_valid_app _ _ H) as [_ [st' Hs']]. exists st'. split; [done|].
  rewrite (wal_states_snoc _ _ _ Hs') in Hs. destruct (wal_valid_ok _ _ H) as [_ Hr]. destruct r as [seq off h ts|seq h ts|reason ts|receipt ts].
  - rewrite step_intent in Hs. injection Hs as <-. destruct Hn. by left.
  - left. destruct st' as [[[]|] q]; [done|discriminate Hs].
  - rewrite step_poison in Hs. injection Hs as <-. destruct Hn. right. exists reason. by destruct Hr as (_ & _ & ?).
  - done.
Qed.

Lemma wal_valid_snoc rs r st st' : wal_valid rs -> wal_states rs = Ok st -> wal_ok r -> wal_step st r = Ok st' -> wal_valid (rs ++ [r]).
Proof.
  intros [Hok _] Hs Hr Hst. split; [apply Forall_app; auto|]. exists st'. by rewrite (wal_states_snoc _ _ _ Hs).
Qed.

(** The poisoning of a log that refuses is refused wherever it is cut. *)
Lemma poison_refuses rs st reason ts j : wal_valid rs -> wal_states rs = Ok st -> refusing st -> wal_ok (wal_poison reason ts) ->
  refuses (wal_bytes rs ++ take j (wal_bytes [wal_poison reason ts])).
Proof.
  intros H Hs Href Hp. pose proof (wal_valid_snoc _ _ _ _ H Hs Hp (step_poison _ _ _)) as Hv.
  pose proof (wal_states_snoc _ (wal_poison reason ts) _ Hs) as Hs'. rewrite step_poison in Hs'.
  assert (refusing (st.1, Some reason)) as Href' by (right; exists reason; by destruct Hp as (_ & _ & ?)).
  unfold refuses. destruct (decide (j < length (wal_bytes [wal_poison reason ts]))%nat) as [Hj|Hj].
  - destruct (ends_part rs _ j Hv Hj) as (d & last & (_ & (st2 & Hs2 & ->) & _) & [->| ->]); cbn [option_list] in Hs2.
    + rewrite app_nil_r in Hs2. replace st2 with st by congruence. cbn. by destruct st.
    + change (option_list (Some (wal_poison reason ts))) with [wal_poison reason ts] in Hs2. rewrite Hs' in Hs2. injection Hs2 as <-. done.
  - rewrite take_ge by lia. destruct (wal_valid_ok _ _ Hv). rewrite <-wal_bytes_app by auto.
    rewrite (foldWal_complete _ (st.1, Some reason)) by (auto || by apply Forall_app; auto). done.
Qed.

(** Nothing is read behind a hole and a complete line. *)
Lemma hole_dead rs r r' : wal_valid (rs ++ [r]) -> wal_ok r' -> exists e, foldWal (utf8_decode (holed rs r (wal_bytes [r']))) = Err e.
Proof.
  intros H Hr'. destruct (wal_valid_ok _ _ H) as [Hok Hr]. destruct (wal_valid_app _ _ H) as [_ [st Hs]].
  destruct (foldWal_hole rs r (wal_bytes [r']) st Hok Hr Hs) as [?|E]; [done|]. exfalso.
  rewrite decode_hole in E by done. destruct (wal_line_text r' Hr') as [Hw Hnl]. destruct (wal_line_text r Hr) as [_ Hnl0].
  assert (utf8_decode (wal_bytes [r']) = wal_body r' ++ [10]) as Ed.
  { unfold wal_bytes, wal_text, unlines. cbn [List.map concat]. rewrite app_nil_r. apply decode_text, well_formed_app; [done|].
    by apply well_formed_unit; [|apply well_formed_nil]. }
  rewrite Ed in E. unfold foldWal, wal_text in E.
  replace (wal_body r ++ 0 :: wal_body r' ++ [10]) with ((wal_body r ++ 0 :: wal_body r') ++ [10]) in E by by rewrite <-app_assoc.
  rewrite lines_terminated in E by by apply no_newlines, wal_lines_text.
  assert (10 ∉ wal_body r ++ 0 :: wal_body r') as Hno by (rewrite elem_of_app, elem_of_cons; naive_solver).
  rewrite (split_single 10 _ Hno) in E.
  pose proof (fold_wal_prefix false rs (None, None) 0 st [wal_body r ++ 0 :: wal_body r'] Hok Hs (or_intror eq_refl)) as Ef.
  pose proof (eq_trans (eq_sym Ef) E) as E2. cbn [fold_wal_lines] in E2. rewrite wal_not_blank, wal_spoiled in E2 by done. discriminate E2.
Qed.
