(* ===== verification/LedgerFacts.v ===== *)
(** LedgerFacts: what the operations of the ledger's handle do to its two files,
    wherever the host fails or the process dies; the journal is exact, or the
    log refuses every use. *)
From S2P Require Import Prelude Text Json Ids ScmTypes ControlEvents EventSchema EventCode JsonText Money Stringify Attest LedgerRecords Ledger LedgerLog.

#[local] Open Scope Z_scope.

(** * Running operations *)

(** The host's messages and times are JavaScript strings, and times are not empty. *)
Class HostTexts (W : Type) `{!LedgerHost W} : Prop := {
  step_message s h h' b m : host_step s h = (h', fails b m) -> js_units m;
  write_message n h h' k b m : host_write n h = (h', (k, fails b m)) -> js_units m;
  time_text h h' t : host_now h = (h', t) -> js_units t /\ t <> []
}.

Record Disk := { dk_leaf : File; dk_wal : File }.

Definition disk_of {W} (w : LedgerWorld W) : Disk := {| dk_leaf := w.(lw_leaf); dk_wal := w.(lw_wal) |}.

Definition on_disk (which : Which) (d : Disk) : File := match which with the_leaf => d.(dk_leaf) | the_wal => d.(dk_wal) end.
Definition put_disk (which : Which) (f : File) (d : Disk) : Disk :=
  match which with
  | the_leaf => {| dk_leaf := f; dk_wal := d.(dk_wal) |}
  | the_wal => {| dk_leaf := d.(dk_leaf); dk_wal := f |}
  end.

(** The message of an error can be written to the log. *)
Definition safe_error {A} (o : LedgerOutcome A) : Prop := match o with Thrown e => js_units e.(le_message) | _ => True end.

Definition returns {A} (o : LedgerOutcome A) : Prop := match o with Returned _ => True | _ => False end.

(** [c], run on the files [d], ends as [Q] says. *)
Definition does {W A : Type} (c : io W A) (d : Disk) (Q : Disk -> LedgerOutcome A -> Prop) : Prop :=
  forall w, disk_of w = d -> Q (disk_of (c w).1) (c w).2.

Lemma js_units_string s : js_units (text_of_string s).
Proof. eapply Forall_impl; [apply ascii_string|]. cbv beta. intros; lia. Qed.

Section rules.
Context {W : Type} `{!LedgerHost W} `{!HostTexts W}.
Local Abbreviation io := (io W).

Lemma does_bind {A B : Type} (c : io A) (k : A -> io B) d (Q : Disk -> LedgerOutcome B -> Prop) :
  does c d (fun d' o => match o with Returned a => does (k a) d' Q | Thrown e => Q d' (Thrown e) | Died => Q d' Died end) -> does (c ≫= k) d Q.
Proof.
  intros H w Hw. specialize (H w Hw). unfold mbind, io_bind. destruct (c w) as [w' [a|e|]]; cbn in *; [|done..]. by apply H.
Qed.

Lemma does_impl {A} (c : io A) d (P Q : Disk -> LedgerOutcome A -> Prop) : does c d P -> (forall d' o, P d' o -> Q d' o) -> does c d Q.
Proof. intros H HPQ w Hw. by apply HPQ, H. Qed.

Lemma does_ret {A} (a : A) d (Q : Disk -> LedgerOutcome A -> Prop) : Q d (Returned a) -> does (mret a : io A) d Q.
Proof. by intros H w <-. Qed.

Lemma does_throw {A} e d (Q : Disk -> LedgerOutcome A -> Prop) : Q d (Thrown e) -> does (raise_error e : io A) d Q.
Proof. by intros H w <-. Qed.

Lemma does_lift {A} (r : result LedgerError A) d (Q : Disk -> LedgerOutcome A -> Prop) :
  Q d (match r with Ok a => Returned a | Err e => Thrown e end) -> does (lift r : io A) d Q.
Proof. destruct r; [apply does_ret|apply does_throw]. Qed.

Lemma does_require (b : bool) e d (Q : Disk -> LedgerOutcome unit -> Prop) : Q d (if b then Returned tt else Thrown e) -> does (require b e : io unit) d Q.
Proof. destruct b; [apply does_ret|apply does_throw]. Qed.

(** A step of the host that has an effect on one file. *)
Lemma does_effect s which f d : does (effect_step s which f : io unit) d (fun d' o =>
  safe_error o /\ ((d' = d /\ ~ returns o) \/ d' = put_disk which (f (on_disk which d)) d)).
Proof.
  intros w <-. unfold effect_step. destruct (host_step s (lw_host w)) as [h ft] eqn:Hs.
  assert (safe_error (by_fate ft (set_host h w) (set_file which (f (file which (set_host h w))) (set_host h w))).2) as Hsafe.
  { destruct ft as [|b m|b]; cbn; [done| |done]. by eapply step_message. }
  split; [done|]. destruct ft as [|[] m|[]], which; cbn; (by right) || (left; split; [done|by intros []]).
Qed.

Lemma does_check s d : does (check_step s : io unit) d (fun d' o => d' = d /\ safe_error o).
Proof.
  eapply does_impl; [apply does_effect|]. intros d' o [Hs [[-> _]| ->]]; (split; [|done]); [done|]. by destruct d.
Qed.

Lemma does_now d : does (ledger_now : io text) d (fun d' o => d' = d /\ exists t, o = Returned t /\ js_units t /\ t <> []).
Proof.
  intros w <-. unfold ledger_now. destruct (host_now (lw_host w)) as [h t] eqn:E. cbn. split; [done|]. exists t. split; [done|]. by eapply time_text.
Qed.

Lemma does_inspect {A} which (f : list Z -> result LedgerError A) d (Q : Disk -> LedgerOutcome A -> Prop) :
  Q d (match f (on_disk which d).(fl_content) with Ok a => Returned a | Err e => Thrown e end) -> does (inspect which f : io A) d Q.
Proof.
  intros H w <-. unfold inspect. replace (file which w) with (on_disk which (disk_of w)) by by destruct which.
  destruct (f _); done.
Qed.

Lemma does_size which d (Q : Disk -> LedgerOutcome Z -> Prop) : Q d (Returned (Z.of_nat (length (on_disk which d).(fl_content)))) -> does (size_of which : io Z) d Q.
Proof. intros H. by apply does_inspect. Qed.

(** The first steps of an operation change nothing, fail or not. *)
Lemma does_check_then {B} s (k : unit -> io B) d (Q : Disk -> LedgerOutcome B -> Prop) :
  (forall e, js_units e.(le_message) -> Q d (Thrown e)) -> Q d Died -> does (k tt) d Q -> does (check_step s ≫= k) d Q.
Proof.
  intros He Hd Hk. apply does_bind. eapply does_impl; [apply does_check|]. intros d' [[]|e|] [-> Hs]; [done|by apply He|done].
Qed.

Lemma does_now_then {B} (k : text -> io B) d (Q : Disk -> LedgerOutcome B -> Prop) : (forall t, js_units t -> t <> [] -> does (k t) d Q) -> does (ledger_now ≫= k) d Q.
Proof. intros H. apply does_bind. eapply does_impl; [apply does_now|]. intros d' o (-> & t & -> & ? & ?). auto. Qed.

Lemma does_lift_then {A B} (r : result LedgerError A) (k : A -> io B) d (Q : Disk -> LedgerOutcome B -> Prop) :
  (forall e, r = Err e -> Q d (Thrown e)) -> (forall a, r = Ok a -> does (k a) d Q) -> does (lift r ≫= k) d Q.
Proof. intros He Hk. apply does_bind, does_lift. destruct r; auto. Qed.

Lemma does_require_then {B} (b : bool) e (k : unit -> io B) d (Q : Disk -> LedgerOutcome B -> Prop) :
  Q d (Thrown e) -> (b = true -> does (k tt) d Q) -> does (require b e ≫= k) d Q.
Proof. intros He Hk. apply does_bind, does_require. destruct b; auto. Qed.

(** ** Writing *)

(** A file with some bytes written behind its end, or behind a hole there. *)
Definition grown (f : File) (offset : nat) (bs : list Z) : File :=
  match bs with
  | [] => f
  | _ => {| fl_content := f.(fl_content) ++ replicate (offset - length f.(fl_content)) 0 ++ bs; fl_durable := f.(fl_durable); fl_kept := f.(fl_kept) |}
  end.

Definition file_wf (f : File) : Prop := (f.(fl_kept) <= length f.(fl_content))%nat.

Lemma write_at_grown f offset bs : file_wf f -> (length f.(fl_content) <= offset)%nat -> write_at offset bs f = grown f offset bs.
Proof.
  intros Hwf Hoff. unfold write_at, grown, overwrite, file_wf in *. destruct f as [c du kept]; cbn in *.
  replace (Nat.min kept offset) with kept by lia. destruct bs as [|b bs]; [done|]. f_equal.
  rewrite take_ge by (rewrite length_app, length_replicate; lia). rewrite (drop_ge c) by (cbn [length]; lia). by rewrite app_nil_r, <-app_assoc.
Qed.

Lemma grown_twice f offset bs bs' : (length f.(fl_content) <= offset)%nat -> bs <> [] ->
  grown (grown f offset bs) (offset + length bs) bs' = grown f offset (bs ++ bs').
Proof.
  intros Hoff Hne. destruct bs as [|b bs]; [done|]. destruct bs' as [|b' bs']; [by rewrite app_nil_r|]. unfold grown. cbn [fl_content fl_durable fl_kept app].
  f_equal. rewrite !length_app, length_replicate. cbn [length]. match goal with |- context [replicate (?n - ?m) 0 ++ b' :: bs'] => replace (n - m)%nat with O by lia end. cbn [replicate app].
  by rewrite <-!app_assoc.
Qed.

Lemma put_disk_same which d : put_disk which (on_disk which d) d = d.
Proof. by destruct which, d. Qed.
Lemma on_put_disk which f d : on_disk which (put_disk which f d) = f.
Proof. by destruct which. Qed.
Lemma put_put_disk which f g d : put_disk which f (put_disk which g d) = put_disk which f d.
Proof. by destruct which. Qed.

Lemma does_write_step which bs offset d : file_wf (on_disk which d) -> (length (on_disk which d).(fl_content) <= offset)%nat ->
  does (write_step which bs offset : io nat) d (fun d' o =>
    safe_error o /\ exists n, (n <= length bs)%nat /\ d' = put_disk which (grown (on_disk which d) offset (take n bs)) d /\ (forall m, o = Returned m -> m = n)).
Proof.
  intros Hwf Hoff w Hw. unfold write_step. destruct (host_write (length bs) (lw_host w)) as [h [n ft]] eqn:Hs.
  assert (file which (set_host h w) = on_disk which d) as Ef by (subst d; by destruct which).
  rewrite Ef, write_at_grown by done.
  assert (forall f, disk_of (set_file which f (set_host h w)) = put_disk which f d) as Ed by (intros f; subst d; by destruct which).
  assert (disk_of (set_host h w) = put_disk which (grown (on_disk which d) offset (take 0 bs)) d) as E0.
  { change (grown (on_disk which d) offset (take 0 bs)) with (on_disk which d). rewrite put_disk_same. by subst d. }
  assert (take (length (take n bs)) bs = take n bs) as Et.
  { rewrite length_take. destruct (decide (n <= length bs)%nat); [by rewrite Nat.min_l|]. rewrite Nat.min_r, firstn_all by lia. by rewrite take_ge by lia. }
  assert (length (take n bs) <= length bs)%nat as Hn by (rewrite length_take; lia).
  destruct ft as [|[] m|[]]; cbn -[take]; (split; [first [done|by eapply write_message]|]).
  - exists (length (take n bs)). rewrite Et. split; [done|]. split; [done|]. by intros m [= <-].
  - exists (length (take n bs)). rewrite Et. split; [done|]. by split.
  - exists O. split; [lia|]. by split.
  - exists (length (take n bs)). rewrite Et. split; [done|]. by split.
  - exists O. split; [lia|]. by split.
Qed.

Lemma length_grown f offset bs : bs <> [] -> (length f.(fl_content) <= offset)%nat -> length (grown f offset bs).(fl_content) = (offset + length bs)%nat.
Proof. intros Hb Ho. destruct bs; [done|]. cbn [grown fl_content]. rewrite !length_app, length_replicate. cbn [length]. lia. Qed.

Lemma grown_wf f offset bs : file_wf f -> file_wf (grown f offset bs).
Proof. unfold file_wf. destruct bs; [done|]. cbn [grown fl_content fl_kept]. rewrite length_app. lia. Qed.

Lemma does_pwriteAll which bs offset d : file_wf (on_disk which d) -> (length (on_disk which d).(fl_content) <= offset)%nat ->
  does (pwriteAll which bs offset : io unit) d (fun d' o =>
    safe_error o /\ exists n, (n <= length bs)%nat /\ d' = put_disk which (grown (on_disk which d) offset (take n bs)) d /\ (returns o -> n = length bs)).
Proof.
  intros Hwf Hoff. unfold pwriteAll. set (f := on_disk which d) in *.
  enough (forall fuel m, (m <= length bs)%nat -> (length bs - m <= fuel)%nat ->
    does (pwriteAll_from fuel which (drop m bs) (offset + m) : io unit) (put_disk which (grown f offset (take m bs)) d) (fun d' o =>
      safe_error o /\ exists n, (n <= length bs)%nat /\ d' = put_disk which (grown f offset (take n bs)) d /\ (returns o -> n = length bs))) as H.
  { specialize (H (length bs) O). rewrite drop_0, Nat.add_0_r in H. change (grown f offset (take 0 bs)) with f in H. unfold f in H.
    rewrite put_disk_same in H. apply H; lia. }
  induction fuel as [|fuel IH]; intros m Hm Hfuel.
  { rewrite drop_ge by lia. cbn. apply does_ret. split; [done|]. exists m. split; [done|]. split; [done|]. lia. }
  destruct (decide (m = length bs)) as [->|Hne].
  { rewrite drop_ge by lia. cbn. apply does_ret. split; [done|]. by exists (length bs). }
  assert (length (drop m bs) = length bs - m)%nat as Hd by (by rewrite length_drop).
  destruct (drop m bs) as [|b rest] eqn:Eb; [cbn in Hd; lia|]. cbn [pwriteAll_from]. rewrite <-Eb. apply does_bind.
  assert (forall l, grown (grown f offset (take m bs)) (offset + m) l = grown f offset (take m bs ++ l)) as Eg.
  { intros l. destruct (decide (m = 0)%nat) as [->|H0].
    - change (take 0 bs) with ([] : list Z). cbn [grown app]. by rewrite Nat.add_0_r.
    - rewrite <-(grown_twice f offset (take m bs) l Hoff) by (intros E; apply (f_equal length) in E; rewrite length_take in E; cbn in E; lia).
      do 2 f_equal. rewrite length_take. lia. }
  eapply does_impl; [apply does_write_step|].
  - rewrite on_put_disk. by apply grown_wf.
  - rewrite on_put_disk. destruct (decide (m = 0)%nat) as [->|H0]; [change (grown f offset (take 0 bs)) with f; lia|].
    rewrite length_grown by (done || (intros E; apply (f_equal length) in E; rewrite length_take in E; cbn in E; lia)). rewrite length_take. lia.
  - cbv beta. intros d' o [Hsafe (n & Hn & -> & Hret)]. rewrite on_put_disk, put_put_disk, Eg.
    assert (take m bs ++ take n (drop m bs) = take (m + n) bs) as -> by by rewrite take_take_drop.
    rewrite Eb, Hd in Hn. destruct o as [k|e|].
    + rewrite (Hret k eq_refl). clear Hret Hsafe. destruct (n <=? 0)%nat eqn:E0.
      * apply does_throw. split; [apply js_units_string|]. exists (m + n)%nat. split; [lia|]. split; [done|]. by intros [].
      * apply Nat.leb_gt in E0. rewrite drop_drop, <-Nat.add_assoc. apply IH; lia.
    + split; [done|]. exists (m + n)%nat. split; [lia|]. split; [done|]. by intros [].
    + split; [done|]. exists (m + n)%nat. split; [lia|]. split; [done|]. by intros [].
Qed.

(** ** Appending to the log *)

Lemma fold_wal_error torn st ls e : fold_wal_lines torn st ls = Err e -> js_units e.(le_message).
Proof.
  revert st; induction ls as [|l ls IH]; intros st; cbn [fold_wal_lines]; [done|].
  destruct (blank l); [destruct (torn && _); [done|intros [= <-]; apply js_units_string]|].
  destruct (JSON_parse l) as [v|]; [|destruct (torn && _); [done|intros [= <-]; apply js_units_string]].
  assert (forall c, match wal_record v (ws_pending st, ws_poison st) with
    | Ok s => fold_wal_lines torn (c s) ls | Err e => if torn && bool_decide (ls = []) then Ok (c (ws_pending st, ws_poison st)) else Err e end = Err e ->
    js_units e.(le_message)) as H.
  { intros c. destruct (wal_record v _) as [s|e'] eqn:Hr; [apply IH|]. destruct (torn && _); [done|]. intros [= <-].
    unfold wal_record in Hr. repeat (case_match; try done); try (injection Hr as <-; apply js_units_string);
      match goal with H : (ensure ?b _ ;; _) = Err _ |- _ => destruct b; cbn in H; [discriminate H|injection H as <-; apply js_units_string] end. }
  destruct v; [intros [= <-]; apply js_units_string|apply H..].
Qed.

Lemma foldWal_error raw e : foldWal raw = Err e -> js_units e.(le_message).
Proof. unfold foldWal. destruct (lines_of raw). apply fold_wal_error. Qed.

Definition line_bytes (r : WalRecord) : list Z := utf8_encode (wal_line r).

Lemma line_bytes_one r : line_bytes r = wal_bytes [r].
Proof. unfold line_bytes, wal_bytes, wal_text, unlines, wal_line, wal_body. cbn [List.map concat]. by rewrite app_nil_r. Qed.

Definition cut (n : nat) (f : File) : File := if (n <? length f.(fl_content))%nat then truncate n f else f.

Lemma cut_wf n f : file_wf f -> file_wf (cut n f).
Proof. unfold cut, file_wf, truncate. destruct (_ <? _)%nat eqn:E; cbn; [|done]. rewrite length_take. lia. Qed.

Lemma cut_length n f : (length (cut n f).(fl_content) <= n)%nat.
Proof. unfold cut, truncate. destruct (_ <? _)%nat eqn:E; cbn; [rewrite length_take; lia|by apply Nat.ltb_ge in E]. Qed.

Lemma cut_content n f : (cut n f).(fl_content) = take n f.(fl_content).
Proof. unfold cut, truncate. destruct (_ <? _)%nat eqn:E; cbn; [done|]. apply Nat.ltb_ge in E. by rewrite take_ge. Qed.

Lemma grown_cut n f bs : bs <> [] -> (grown (cut n f) n bs).(fl_content) = log_appended f.(fl_content) n bs.
Proof.
  intros Hb. destruct bs as [|b bs]; [done|]. cbn [grown fl_content]. rewrite cut_content. unfold log_appended. do 2 f_equal. rewrite length_take.
  f_equal. lia.
Qed.

(** What an append to the log may leave behind. *)
Definition append_leaves (f : File) (n : nat) (line : list Z) (f' : File) (done : Prop) : Prop :=
  (f' = f /\ ~ done) \/ (exists j, f' = grown (cut n f) n (take j line) /\ ~ done) \/ f' = file_of (log_appended f.(fl_content) n line).

Lemma does_walAppend r d n st : file_wf d.(dk_wal) -> foldWal (utf8_decode d.(dk_wal).(fl_content)) = Ok (wal_state_of (Z.of_nat n) st) -> line_bytes r <> [] ->
  does (walAppend r : io unit) d (fun d' o => safe_error o /\ dk_leaf d' = dk_leaf d /\ append_leaves d.(dk_wal) n (line_bytes r) d'.(dk_wal) (returns o)).
Proof.
  intros Hwf Hf Hl. unfold walAppend.
  assert (forall o : LedgerOutcome unit, ~ returns o -> append_leaves d.(dk_wal) n (line_bytes r) d.(dk_wal) (returns o)) as Hsame by (intros; by left).
  assert (forall e, js_units e.(le_message) -> safe_error (@Thrown unit e) /\ dk_leaf d = dk_leaf d /\ append_leaves d.(dk_wal) n (line_bytes r) d.(dk_wal) (returns (@Thrown unit e))) as Ht by (intros; split; [done|split; [done|auto]]).
  assert (safe_error (@Died unit) /\ dk_leaf d = dk_leaf d /\ append_leaves d.(dk_wal) n (line_bytes r) d.(dk_wal) (returns (@Died unit))) as Hdied by (split; [done|split; [done|auto]]).
  apply does_check_then; [done..|]. apply does_check_then; [done..|]. apply does_bind, does_size. cbn [on_disk].
  unfold readAll. apply does_bind, does_check_then; [done..|]. apply does_inspect. cbn [on_disk].
  destruct (Z.of_nat (length (fl_content (dk_wal d))) <=? MAX_WAL_BYTES); cbn [ensure mbind result_bind]; [|apply Ht, js_units_string].
  rewrite Hf. apply does_lift_then; [by intros e [=]|]. intros ? [= <-]. cbn [ws_durableBytes wal_state_of]. rewrite Nat2Z.id.
  apply does_bind. eapply (does_impl _ _ (fun d' o => safe_error o /\ dk_leaf d' = dk_leaf d /\
    (d'.(dk_wal) = cut n d.(dk_wal) \/ (d'.(dk_wal) = d.(dk_wal) /\ ~ returns o)))).
  { unfold cut. destruct (Z.ltb_spec (Z.of_nat n) (Z.of_nat (length (fl_content (dk_wal d))))) as [Hlt|Hge].
    - rewrite (proj2 (Nat.ltb_lt n _)) by lia. eapply does_impl; [apply does_effect|]. cbn. intros d' o [Hs [[-> Hr]| ->]]; auto.
    - rewrite (proj2 (Nat.ltb_ge n _)) by lia. apply does_ret. split; [done|auto]. }
  intros d1 o (Hs & Hleaf & Hw). assert (forall o' : LedgerOutcome unit, ~ returns o' -> append_leaves d.(dk_wal) n (line_bytes r) d1.(dk_wal) (returns o')) as Hd1.
  { intros o' Ho'. destruct Hw as [-> | [-> _]]; [right; left; by exists O|by left]. }
  destruct o as [[]|e|]; [|by split; [|split; auto]..]. destruct Hw as [Hw|[_ []]]; [|done].
  apply does_bind. fold (line_bytes r). eapply does_impl; [apply does_pwriteAll|]; cbn [on_disk]; rewrite Hw; [by apply cut_wf|apply cut_length|].
  cbv beta. intros d2 o2 [Hs2 (j & Hj & -> & Hret)].
  assert (forall o' : LedgerOutcome unit, ~ returns o' -> append_leaves d.(dk_wal) n (line_bytes r) (put_disk the_wal (grown (cut n (dk_wal d)) n (take j (line_bytes r))) d1).(dk_wal) (returns o')) as Hd2.
  { intros o' Ho'. right. left. by exists j. }
  destruct o2 as [[]|e|]; [|by split; [|split; auto]..]. rewrite (Hret I), firstn_all in *.
  apply does_bind. eapply does_impl; [apply does_effect|]. cbv beta. rewrite on_put_disk, put_put_disk. intros d3 o3 [Hs3 Hd3].
  assert (forall o : LedgerOutcome unit, safe_error o -> d3 = put_disk the_wal (sync (grown (cut n (dk_wal d)) n (line_bytes r))) d1 ->
    safe_error o /\ dk_leaf d3 = dk_leaf d /\ append_leaves (dk_wal d) n (line_bytes r) (dk_wal d3) (returns o)) as Hsynced.
  { intros o Hso ->. split; [done|]. split; [done|]. right. right. cbn [put_disk dk_wal]. unfold sync. f_equal. by apply grown_cut. }
  destruct Hd3 as [[-> Hr]| ->].
  - destruct o3 as [[]|e|]; [by destruct Hr|..]; (split; [done|]; split; [done|]; by apply Hd2).
  - destruct o3 as [[]|e|]; [|by apply Hsynced..]. eapply does_impl; [apply does_check|]. intros d4 o4 [-> Hs4]. by apply Hsynced.
Qed.

(** A log that is corrupt is not written to. *)
Lemma does_walAppend_corrupt r d e : foldWal (utf8_decode d.(dk_wal).(fl_content)) = Err e ->
  does (walAppend r : io unit) d (fun d' o => safe_error o /\ d' = d /\ ~ returns o).
Proof.
  intros Hf. unfold walAppend.
  assert (forall e', js_units e'.(le_message) -> safe_error (@Thrown unit e') /\ d = d /\ ~ returns (@Thrown unit e')) as Ht by (intros; by split; [|split; [|intros []]]).
  assert (safe_error (@Died unit) /\ d = d /\ ~ returns (@Died unit)) as Hdied by (by split; [|split; [|intros []]]).
  apply does_check_then; [done..|]. apply does_check_then; [done..|]. apply does_bind, does_size. cbn [on_disk].
  unfold readAll. apply does_bind, does_check_then; [done..|]. apply does_inspect. cbn [on_disk].
  destruct (_ <=? MAX_WAL_BYTES); cbn [ensure mbind result_bind]; [|apply Ht, js_units_string].
  apply does_lift_then; [|intros a Ha; congruence]. intros e' He'. apply Ht. by apply foldWal_error in He'.
Qed.

(** ** Logs that stay readable, and logs that refuse *)

Definition wal_safe (f : File) : Prop := file_wf f /\ log_like f.(fl_content) /\ log_like f.(fl_durable).

Definition wal_refusing (f : File) : Prop :=
  file_wf f /\ refuses f.(fl_durable) /\ forall k, (f.(fl_kept) <= k)%nat -> refuses (take k f.(fl_content)).

Lemma line_bytes_nonempty r : wal_ok r -> line_bytes r <> [].
Proof. intros Hr E. rewrite line_bytes_one, wal_bytes_one in E by done. by apply app_eq_nil in E as [_ ?]. Qed.

Lemma file_of_wf bs : file_wf (file_of bs).
Proof. unfold file_wf. done. Qed.

Lemma does_walAppend_safe r d n rs last : wal_safe d.(dk_wal) -> log_ends d.(dk_wal).(fl_content) n rs last -> wal_ok r ->
  (last = None -> wal_valid (rs ++ [r])) -> (last <> None -> exists st, wal_states rs = Ok st /\ refusing st) ->
  does (walAppend r : io unit) d (fun d' o => safe_error o /\ dk_leaf d' = dk_leaf d /\ wal_safe d'.(dk_wal) /\
    append_leaves d.(dk_wal) n (line_bytes r) d'.(dk_wal) (returns o)).
Proof.
  intros (Hwf & Hc & Hdu) He Hr Hv Hlast. pose proof He as (_ & (st & _ & Hf) & _).
  eapply does_impl; [apply (does_walAppend r d n st Hwf Hf); by apply line_bytes_nonempty|]. intros d' o (Hs & Hl & Ha).
  split; [done|]. split; [done|]. split; [|done].
  assert (forall j, log_like (log_appended (fl_content (dk_wal d)) n (take j (line_bytes r)))) as Happ.
  { intros j. rewrite line_bytes_one. by eapply append_log. }
  destruct Ha as [[-> _]|[(j & -> & _)| ->]]; [done| |].
  - split; [by apply grown_wf, cut_wf|]. split.
    + destruct (take j (line_bytes r)) as [|b bs] eqn:E; [cbn [grown]; rewrite cut_content; by apply log_like_take|].
      rewrite grown_cut, <-E by done. apply Happ.
    + assert (fl_durable (grown (cut n (dk_wal d)) n (take j (line_bytes r))) = fl_durable (dk_wal d)) as ->; [|done].
      unfold grown, cut, truncate. repeat case_match; done.
  - split; [apply file_of_wf|]. specialize (Happ (length (line_bytes r))). rewrite firstn_all in Happ. by split.
Qed.

(** The log of a transaction that has begun to write: an intent is pending, or
    nothing in it can be read. *)
Definition wal_begun (f : File) (seq : Z) (h : text) : Prop :=
  exists bs, f = file_of bs /\ log_like bs /\
  ((exists rs q, wal_valid rs /\ wal_states rs = Ok (Some (JNumber (Some seq), JString h), q) /\ bs = wal_bytes rs) \/
   exists e, foldWal (utf8_decode bs) = Err e).

Lemma wal_begun_refusing f seq h : wal_begun f seq h -> wal_refusing f.
Proof.
  intros (bs & -> & _ & H). assert (refuses bs) as Href.
  { destruct H as [(rs & q & [Hok _] & Hs & ->)|[e He]]; unfold refuses; [|by rewrite He].
    rewrite (foldWal_complete _ _ Hok Hs). by left. }
  split; [apply file_of_wf|]. cbn. split; [done|]. intros k Hk. by rewrite take_ge.
Qed.

Lemma does_poison_append reason ts d seq h : wal_begun d.(dk_wal) seq h -> wal_ok (wal_poison reason ts) ->
  does (walAppend (wal_poison reason ts) : io unit) d (fun d' o => dk_leaf d' = dk_leaf d /\ wal_refusing d'.(dk_wal)).
Proof.
  intros Hb Hp. pose proof (wal_begun_refusing _ _ _ Hb) as Href. destruct Hb as (bs & Hbs & _ & [(rs & q & Hv & Hs & ->)|[e He]]).
  2:{ eapply does_impl; [apply (does_walAppend_corrupt _ _ e); rewrite Hbs; exact He|]. intros d' o (_ & -> & _). done. }
  pose proof (ends_complete rs Hv) as Hends. pose proof Hends as (_ & (st & Hst & Hf) & _). cbn [option_list] in Hst. rewrite app_nil_r in Hst.
  assert (refusing st) as Hrefst by (replace st with (Some (JNumber (Some seq), JString h), q) by congruence; by left).
  eapply does_impl; [apply (does_walAppend _ d (length (wal_bytes rs)) st)|].
  { rewrite Hbs. apply file_of_wf. } { rewrite Hbs. exact Hf. } { by apply line_bytes_nonempty. }
  intros d' o (_ & Hl & Ha). split; [done|].
  assert (forall j, refuses (wal_bytes rs ++ take j (line_bytes (wal_poison reason ts)))) as Hpr
    by (intros j; rewrite line_bytes_one; by eapply poison_refuses).
  assert (refuses (wal_bytes rs)) as Href0 by (specialize (Hpr O); cbn in Hpr; by rewrite app_nil_r in Hpr).
  assert (cut (length (wal_bytes rs)) (dk_wal d) = dk_wal d) as Hcut by (rewrite Hbs; unfold cut; cbn [file_of fl_content]; by rewrite Nat.ltb_irrefl).
  assert (forall w, log_appended (wal_bytes rs) (length (wal_bytes rs)) w = wal_bytes rs ++ w) as Happ
    by (intros w; unfold log_appended; by rewrite firstn_all, Nat.sub_diag).
  assert (fl_content (dk_wal d) = wal_bytes rs) as Hc by by rewrite Hbs. unfold append_leaves in Ha. rewrite Hc, Happ, Hcut in Ha.
  destruct Ha as [[-> _]|[(j & -> & _)| ->]]; [done| |].
  - rewrite Hbs. destruct (take j (line_bytes (wal_poison reason ts))) as [|b bs] eqn:E; [by rewrite <-Hbs|].
    split; [apply grown_wf, file_of_wf|]. cbn [grown file_of fl_content fl_durable fl_kept]. rewrite Nat.sub_diag. cbn [replicate app].
    split; [done|]. intros k Hk. rewrite take_app, take_ge by done. rewrite <-E, take_take. apply Hpr.
  - split; [apply file_of_wf|]. specialize (Hpr (length (line_bytes (wal_poison reason ts)))). rewrite firstn_all in Hpr. cbn. split; [done|].
    intros k Hk. by rewrite take_ge.
Qed.

(** ** Poisoning *)

(** A log that stays readable, or is corrupt, whatever is appended to it. *)
Definition wal_poisonable (f : File) : Prop :=
  wal_safe f /\
  ((exists e, foldWal (utf8_decode f.(fl_content)) = Err e) \/
   exists n rs last, log_ends f.(fl_content) n rs last /\ (last <> None -> exists st, wal_states rs = Ok st /\ refusing st)).

Lemma does_poison reason d (Q : Disk -> Prop) : js_units reason -> reason <> [] ->
  (forall ts, js_units ts -> does (walAppend (wal_poison reason ts) : io unit) d (fun d' _ => Q d')) ->
  does (poison reason : io unit) d (fun d' _ => Q d').
Proof.
  intros Hr Hne H w Hw. unfold poison.
  assert (does ((ts ← ledger_now; walAppend (wal_poison reason ts) ;; check_step step_fsync_dir) : io unit) d (fun d' _ => Q d')) as Hd.
  { apply does_now_then. intros ts Hts _. apply does_bind. eapply does_impl; [by apply H|]. intros d' [[]|e|] HQ; [|done..].
    eapply does_impl; [apply does_check|]. by intros d2 o [-> _]. }
  specialize (Hd (set_poison (Some reason) w) Hw). cbv zeta.
  match goal with |- Q (disk_of (match ?x with _ => _ end).1) => destruct x as [w' [[]|e|]]; done end.
Qed.

Lemma does_poison_safe reason d : js_units reason -> reason <> [] -> wal_poisonable d.(dk_wal) ->
  does (poison reason : io unit) d (fun d' _ => dk_leaf d' = dk_leaf d /\ wal_safe d'.(dk_wal)).
Proof.
  intros Hr Hne [Hsafe H]. apply does_poison; [done..|]. intros ts Hts. assert (wal_ok (wal_poison reason ts)) as Hok by by split_and!.
  destruct H as [[e He]|(n & rs & last & He & Hlast)].
  - eapply does_impl; [by apply (does_walAppend_corrupt _ _ e)|]. intros d' o (_ & -> & _). done.
  - eapply does_impl; [apply (does_walAppend_safe _ _ n rs last); try done|].
    + intros ->. destruct He as ([Hv [st Hs]] & _). cbn [option_list] in *. rewrite app_nil_r in *.
      eapply (wal_valid_snoc _ _ st); [split; [done|by exists st]|done|done|apply step_poison].
    + by intros d' o (_ & Hl & Hs & _).
Qed.

Lemma does_poison_begun reason d seq h : js_units reason -> reason <> [] -> wal_begun d.(dk_wal) seq h ->
  does (poison reason : io unit) d (fun d' _ => dk_leaf d' = dk_leaf d /\ wal_refusing d'.(dk_wal)).
Proof. intros Hr Hne Hb. apply does_poison; [done..|]. intros ts Hts. eapply does_poison_append; [done|by split_and!]. Qed.

Lemma does_or_poison {A} (c : io A) d (Q : Disk -> LedgerOutcome A -> Prop) :
  does c d (fun d' o => match o with
    | Thrown e => does (poison (text_of_string "transaction failed after a possible mutation: " ++ e.(le_message)) : io unit) d'
        (fun d'' _ => Q d'' (Thrown e) /\ Q d'' Died)
    | _ => Q d' o end) ->
  does (or_poison c) d Q.
Proof.
  intros H w Hw. specialize (H w Hw). unfold or_poison. destruct (c w) as [w' [a|e|]]; cbn in *; [done| |done].
  specialize (H w' eq_refl). destruct (poison _ w') as [w2 [[]|e2|]]; cbn in *; tauto.
Qed.

(** ** The journal *)

Definition journal_bytes (ls : list text) : list Z := utf8_encode (unlines ls).

(** The journal is exact and durable, the log can be read; or the log refuses,
    now and after any loss of power. *)
Definition settled (ls : list text) (d : Disk) : Prop := d.(dk_leaf) = file_of (journal_bytes ls) /\ wal_safe d.(dk_wal).

Definition agrees (ls : list text) (d : Disk) : Prop := Forall line_text ls /\ (settled ls d \/ wal_refusing d.(dk_wal)).

Lemma journal_bytes_snoc ls l : Forall line_text ls -> line_text l -> journal_bytes (ls ++ [l]) = journal_bytes ls ++ utf8_encode (l ++ [10]).
Proof.
  intros H Hl. unfold journal_bytes. rewrite encode_unlines_app by auto. unfold unlines at 2. cbn [List.map concat]. by rewrite app_nil_r.
Qed.

(** The commit of an intent keeps the log readable and open to a poisoning. *)
Lemma does_commit d seq h ts : wal_begun d.(dk_wal) seq h -> js_units h -> js_units ts ->
  does (walAppend (wal_commit seq h ts) : io unit) d (fun d' o => safe_error o /\ dk_leaf d' = dk_leaf d /\ wal_poisonable d'.(dk_wal)).
Proof.
  intros (bs & Hbs & Hlog & H) Hh Hts.
  assert (wal_safe (dk_wal d)) as Hsafe by (rewrite Hbs; split; [apply file_of_wf|by split]).
  destruct H as [(rs & q & Hv & Hs & ->)|[e He]].
  2:{ eapply does_impl; [apply (does_walAppend_corrupt _ _ e); by rewrite Hbs|]. intros d' o (Hsf & -> & _). split; [done|]. split; [done|].
      split; [done|]. left. exists e. by rewrite Hbs. }
  pose proof (ends_complete rs Hv) as Hends. assert (wal_ok (wal_commit seq h ts)) as Hok by by split.
  pose proof (wal_valid_snoc _ _ _ _ Hv Hs Hok (step_commit q seq h ts)) as Hv'.
  assert (exists st, wal_states rs = Ok st /\ refusing st) as Href by (eexists; split; [exact Hs|by left]).
  eapply does_impl; [apply (does_walAppend_safe _ d (length (wal_bytes rs)) rs None); try done; by rewrite Hbs|].
  intros d' o (Hsf & Hl & Hsafe' & Ha). split; [done|]. split; [done|]. split; [done|]. right.
  assert (fl_content (dk_wal d) = wal_bytes rs) as Hc by by rewrite Hbs.
  assert (cut (length (wal_bytes rs)) (dk_wal d) = dk_wal d) as Hcut by (rewrite Hbs; unfold cut; cbn [file_of fl_content]; by rewrite Nat.ltb_irrefl).
  assert (forall w, log_appended (wal_bytes rs) (length (wal_bytes rs)) w = wal_bytes rs ++ w) as Happ
    by (intros w; unfold log_appended; by rewrite firstn_all, Nat.sub_diag).
  assert (forall j, exists n rs' last, log_ends (wal_bytes rs ++ take j (line_bytes (wal_commit seq h ts))) n rs' last /\
    (last <> None -> exists st, wal_states rs' = Ok st /\ refusing st)) as Hj.
  { intros j. rewrite line_bytes_one. destruct (decide (j < length (wal_bytes [wal_commit seq h ts]))%nat) as [Hj|Hj].
    - destruct (ends_part rs _ j Hv' Hj) as (n & last & He & _). exists n, rs, last. by split.
    - rewrite take_ge by lia. destruct (wal_valid_ok _ _ Hv'). rewrite <-wal_bytes_app by auto.
      exists (length (wal_bytes (rs ++ [wal_commit seq h ts]))), (rs ++ [wal_commit seq h ts]), None. split; [by apply ends_complete|done]. }
  assert (exists j, fl_content (dk_wal d') = wal_bytes rs ++ take j (line_bytes (wal_commit seq h ts))) as [j ->]; [|apply Hj].
  unfold append_leaves in Ha. rewrite Hc, Happ, Hcut in Ha. destruct Ha as [[-> _]|[(j & -> & _)| ->]].
  - exists O. cbn [take]. by rewrite app_nil_r.
  - exists j. destruct (take j _) as [|b l]; cbn [grown]; [by rewrite app_nil_r|]. cbn [fl_content]. by rewrite Hc, Nat.sub_diag.
  - exists (length (line_bytes (wal_commit seq h ts))). by rewrite firstn_all.
Qed.
End rules.

(** * Transactions *)

Section transactions.
Context {W : Type} `{!LedgerHost W} `{!HostTexts W} `{DG : Digest} `{HM : Hmac} `{GN : Generation}.
Local Abbreviation io := (io W).

(** ** Publishing a record *)

Lemma does_publish ls l f h d :
  Forall line_text ls -> line_text l -> f.(fd_durableBytes) = Z.of_nat (length (journal_bytes ls)) -> d.(dk_leaf) = file_of (journal_bytes ls) ->
  wal_begun d.(dk_wal) f.(fd_seq) h -> js_units h ->
  does (publish_record f (utf8_encode (l ++ [10])) h : io unit) d (fun d' o => safe_error o /\
    ((dk_wal d' = dk_wal d /\ ~ returns o) \/ (dk_leaf d' = file_of (journal_bytes (ls ++ [l])) /\ wal_poisonable d'.(dk_wal)))).
Proof.
  intros Hls Hl Hf Hd Hb Hh. unfold publish_record. rewrite Hf, Nat2Z.id. set (line := utf8_encode (l ++ [10])).
  assert (line <> []) as Hline by (intros E; pose proof (encode_line l Hl) as El; fold line in El; rewrite E in El; cbn in El; pose proof (utf8_length_nonneg l); lia).
  apply does_check_then; [by intros e He; split; [done|left]; split; [done|intros []]|by split; [done|left]; split; [done|intros []]|].
  apply does_bind, does_size. cbn [on_disk]. rewrite Hd. cbn [file_of fl_content]. rewrite Z.ltb_irrefl. apply does_bind, does_ret.
  assert (forall (o : LedgerOutcome unit) d', safe_error o -> ~ returns o -> dk_wal d' = dk_wal d -> safe_error o /\
    ((dk_wal d' = dk_wal d /\ ~ returns o) \/ (dk_leaf d' = file_of (journal_bytes (ls ++ [l])) /\ wal_poisonable d'.(dk_wal)))) as Hstop by auto.
  apply does_bind. eapply does_impl; [apply does_pwriteAll; cbn [on_disk]; rewrite Hd; [apply file_of_wf|done]|].
  cbv beta. intros d1 o1 [Hs1 (j & Hj & -> & Hret)]. destruct o1 as [[]|e|]; [|by apply Hstop; [|intros []|]..].
  rewrite (Hret I), firstn_all. apply does_bind. eapply does_impl; [apply does_effect|]. cbv beta. rewrite on_put_disk, put_put_disk.
  intros d2 o2 [Hs2 Hd2]. destruct o2 as [[]|e|]; [|apply Hstop; [done|by intros []|destruct Hd2 as [[-> _]| ->]; done]..].
  destruct Hd2 as [[_ []]| ->]; [done|].
  assert (sync (grown (on_disk the_leaf d) (length (journal_bytes ls)) line) = file_of (journal_bytes (ls ++ [l]))) as ->.
  { unfold sync. f_equal. cbn [on_disk]. rewrite Hd, journal_bytes_snoc by done. fold line. destruct line as [|b bs]; [done|].
    cbn [grown file_of fl_content]. by rewrite Nat.sub_diag. }
  set (d3 := put_disk the_leaf _ d). assert (dk_wal d3 = dk_wal d) as Hw3 by done.
  assert (forall e, js_units e.(le_message) -> safe_error (@Thrown unit e) /\
    ((dk_wal d3 = dk_wal d /\ ~ returns (@Thrown unit e)) \/ (dk_leaf d3 = file_of (journal_bytes (ls ++ [l])) /\ wal_poisonable d3.(dk_wal)))) as Ht
    by (intros e He; apply Hstop; [done|by intros []|done]).
  assert (safe_error (@Died unit) /\ ((dk_wal d3 = dk_wal d /\ ~ returns (@Died unit)) \/ (dk_leaf d3 = file_of (journal_bytes (ls ++ [l])) /\ wal_poisonable d3.(dk_wal)))) as Hdied
    by (apply Hstop; [done|by intros []|done]).
  apply does_check_then; [done..|]. apply does_bind, does_size. apply does_require_then; [apply Ht, js_units_string|]. intros _.
  unfold read_back. apply does_bind. apply does_check_then; [done..|]. apply does_inspect.
  match goal with |- context [ensure ?b ?e ;; ?c] => destruct b; cbn [ensure mbind result_bind]; [|apply Ht, js_units_string] end.
  match goal with |- context [ensure ?b ?e] => destruct b; cbn [ensure]; [|apply Ht, js_units_string] end.
  apply does_check_then; [done..|]. unfold assertPublished. apply does_bind. do 3 (apply does_check_then; [done..|]).
  apply does_bind, does_size. apply does_require_then; [apply Ht, js_units_string|]. intros _.
  unfold read_back. apply does_bind. apply does_check_then; [done..|]. apply does_inspect.
  match goal with |- context [ensure ?b ?e ;; ?c] => destruct b; cbn [ensure mbind result_bind]; [|apply Ht, js_units_string] end.
  match goal with |- context [ensure ?b ?e] => destruct b; cbn [ensure]; [|apply Ht, js_units_string] end.
  eapply does_impl; [apply does_check|]. intros d5 o5 [-> Hs5]. destruct o5 as [[]|e|]; [|by apply Ht|done].
  apply does_now_then. intros ts Hts _. eapply does_impl; [by apply does_commit|].
  intros d4 o4 (Hs4 & Hl4 & Hp4). split; [done|]. right. split; [by rewrite Hl4|done].
Qed.

(** ** Reading the journal *)

Lemma fold_lines_ind {A} (step : A -> text -> result LedgerError A) (P : A -> Prop) torn a ls b :
  (forall a l a', P a -> step a l = Ok a' -> P a') -> P a -> fold_lines step torn a ls = Ok b -> P b.
Proof.
  intros Hstep; revert a; induction ls as [|l ls IH]; intros a Ha; cbn [fold_lines]; [by intros [= <-]|].
  destruct (step a l) as [a'|e] eqn:E; [apply IH; by eapply Hstep|]. destruct (torn && _); [by intros [= <-]|done].
Qed.

Lemma fold_record_Ok (f : Folded) l f' : fold_record epoch runNonce attest_key f l = Ok f' -> exists rec,
  JSON_parse l = Some rec /\ validateRecordSchema rec epoch runNonce attest_key = Ok tt /\
  f' = {| fd_datas := f.(fd_datas) ++ [get "data" rec]; fd_tip := recordHash f.(fd_tip) f.(fd_seq) (get "data" rec); fd_seq := f.(fd_seq) + 1;
          fd_durableBytes := f.(fd_durableBytes) + utf8_length l + 1 |}.
Proof.
  unfold fold_record. intros Hr. apply bind_Ok in Hr as (_ & _ & Hr). destruct (JSON_parse l) as [rec|]; [|discriminate Hr]. exists rec. split; [done|].
  apply bind_Ok in Hr as ([] & Hv & Hr). apply bind_Ok in Hr as (_ & _ & Hr). apply bind_Ok in Hr as (_ & _ & Hr). injection Hr as <-.
  apply map_err_Ok in Hv. by split.
Qed.

Lemma fold_durable ls f : Forall line_text ls -> fold_journal (unlines ls) = Ok f -> f.(fd_durableBytes) = Z.of_nat (length (journal_bytes ls)).
Proof.
  intros H. unfold fold_journal, foldContent. rewrite lines_unlines by by apply no_newlines.
  set (f0 := {| fd_datas := _ |}). assert (f0.(fd_durableBytes) = 0) as H0 by done. revert H0. generalize f0. clear f0. intros f0 H0 Hf.
  enough (f.(fd_durableBytes) = f0.(fd_durableBytes) + Z.of_nat (length (journal_bytes ls))) by lia. clear H0.
  revert f0 Hf; induction H as [|l ls Hl Hls IH]; intros f0 Hf; cbn [fold_lines] in Hf; [injection Hf as ->; cbn; lia|].
  destruct (fold_record epoch runNonce attest_key f0 l) as [f1|e] eqn:Hr; [|discriminate Hf]. apply IH in Hf. rewrite Hf.
  change (l :: ls) with ([l] ++ ls). unfold journal_bytes. rewrite encode_unlines_app by auto. rewrite length_app.
  unfold unlines at 2. cbn [List.map concat]. rewrite app_nil_r. pose proof (encode_line l Hl). 
  assert (f1.(fd_durableBytes) = f0.(fd_durableBytes) + utf8_length l + 1); [|lia].
  by apply fold_record_Ok in Hr as (rec & _ & _ & ->).
Qed.

(** A log that does not refuse, and where its next record goes. *)
Definition wal_clean (f : File) : Prop :=
  exists n rs last, log_ends f.(fl_content) n rs last /\ (last <> None -> exists st, wal_states rs = Ok st /\ refusing st).

Lemma does_readWal d : does (readWal : io WalState) d (fun d' o => d' = d /\ forall st, o = Returned st -> foldWal (utf8_decode d.(dk_wal).(fl_content)) = Ok st).
Proof.
  unfold readWal. apply does_check_then; [done..|]. apply does_check_then; [done..|]. unfold readAll. apply does_bind, does_check_then; [done..|].
  apply does_inspect. cbn [on_disk]. destruct (_ <=? MAX_WAL_BYTES); cbn [ensure mbind result_bind]; [|done].
  apply does_lift_then; [done|]. intros st Hst. apply does_check_then; [done..|]. apply does_ret. split; [done|]. by intros st' [= <-].
Qed.

Lemma does_read_folded ls d : agrees ls d -> does (read_folded : io Folded) d (fun d' o => d' = d /\
  forall f, o = Returned f -> settled ls d /\ fold_journal (unlines ls) = Ok f /\ wal_clean d.(dk_wal)).
Proof.
  intros [Hls Hag]. unfold read_folded. apply does_bind. eapply does_impl; [apply does_readWal|]. intros d' [st|e|] [-> Hst]; [|done..].
  specialize (Hst st eq_refl). unfold refuse_unproven. apply does_bind. apply does_bind.
  assert (forall c, (~ refusing (ws_pending st, ws_poison st) -> c) -> (ws_poison st = None \/ ws_poison st = Some []) -> isSome (ws_pending st) = false -> c) as Hclean.
  { intros c Hc Hp Hi. apply Hc. intros [H|(r & H & Hr)]; cbn in H; [congruence|]. destruct Hp; congruence. }
  eapply (does_impl _ _ (fun d' o => d' = d /\ (returns o -> ws_poison st = None \/ ws_poison st = Some []))).
  { destruct (ws_poison st) as [[|c r]|]; [apply does_ret; auto|by apply does_throw|apply does_ret; auto]. }
  intros d' [[]|e|] [-> Hp]; [|done..]. apply does_require. case_bool_decide as Hi; [|done]. specialize (Hp I).
  assert (settled ls d /\ wal_clean (dk_wal d)) as [[Hleaf Hsafe] Hwc].
  { apply (Hclean _); [|done|done]. intros Hn. destruct Hag as [[Hleaf (Hwf & Hc & Hdu)]|(Hwf & _ & Hr)].
    - split; [by split|]. destruct Hc as [Hreg|Hbr].
      + destruct (regular_ends _ Hreg) as (n & rs & last & He). exists n, rs, last. split; [done|]. intros Hlast.
        destruct last as [r|]; [|done]. destruct He as (Hv & (st' & Hs & Hf) & _). rewrite Hst in Hf. injection Hf as ->. cbn in Hn.
        eapply clean_last; [exact Hv|exact Hs|]. by destruct st'.
      + apply broken_refuses in Hbr. unfold refuses in Hbr. rewrite Hst in Hbr. done.
    - specialize (Hr _ Hwf). rewrite firstn_all in Hr. unfold refuses in Hr. rewrite Hst in Hr. done. }
  unfold readAll. apply does_bind, does_check_then; [done..|]. apply does_inspect. cbn [on_disk].
  destruct (_ <=? MAX_LEDGER_BYTES); cbn [ensure mbind result_bind]; [|done]. rewrite Hleaf. cbn [file_of fl_content]. unfold journal_bytes.
  rewrite decode_text by by apply well_formed_unlines. apply does_lift. destruct (fold_journal (unlines ls)) as [f|e]; split; try done.
  by intros f' [= <-].
Qed.

(** ** The whole of a transaction *)

Lemma does_intent seq off h ts d : wal_safe d.(dk_wal) -> wal_clean d.(dk_wal) -> js_units h -> js_units ts ->
  does (walAppend (wal_intent seq off h ts) : io unit) d (fun d' o => dk_leaf d' = dk_leaf d /\ wal_safe d'.(dk_wal) /\ (returns o -> wal_begun d'.(dk_wal) seq h)).
Proof.
  intros Hsafe (n & rs & last & He & Hlast) Hh Hts. assert (wal_ok (wal_intent seq off h ts)) as Hok by by split.
  pose proof (ends_appended _ _ _ _ (wal_bytes [wal_intent seq off h ts]) He) as Happ.
  assert (forall st, wal_states rs = Ok st -> wal_valid rs -> wal_valid (rs ++ [wal_intent seq off h ts])) as Hv.
  { intros st Hs Hv. by eapply wal_valid_snoc; [..|apply step_intent]. }
  assert (wal_valid rs) as Hrs by (destruct He as (Hvl & _); by eapply wal_valid_app).
  destruct Hrs as [Hokrs [st Hst]]. specialize (Hv st Hst (conj Hokrs (ex_intro _ st Hst))).
  eapply does_impl; [by apply (does_walAppend_safe _ _ n rs last)|].
  intros d' o (_ & Hl & Hs & Ha). split; [done|]. split; [done|]. intros Hr.
  destruct Ha as [[_ Ha]|[(j & _ & Ha)|Ha]]; [done|done|]. rewrite line_bytes_one, Happ in Ha. eexists. split; [exact Ha|].
  split; [rewrite Ha in Hs; by destruct Hs as (_ & ? & _)|]. destruct last as [r|].
  - right. apply hole_dead; [|done]. by destruct He as [? _].
  - left. exists (rs ++ [wal_intent seq off h ts]), st.2. split; [done|]. rewrite (wal_states_snoc _ _ _ Hst), step_intent. destruct (wal_valid_ok _ _ Hv).
    by rewrite wal_bytes_app by auto.
Qed.

(** The line of a record. *)
Definition record_text (f : Folded) (data : json) : text := JSON_stringify (journal_record f data).

Lemma fold_tip_units raw f : js_units genesis -> fold_journal raw = Ok f -> js_units f.(fd_tip).
Proof.
  intros Hg. unfold fold_journal, foldContent. destruct (lines_of raw) as [ls torn]. apply (fold_lines_ind _ (fun f => js_units f.(fd_tip))); [|done].
  intros a l a' _ (rec & _ & _ & ->)%fold_record_Ok. apply js_units_string.
Qed.

Lemma record_line_text raw f data : js_units genesis -> fold_journal raw = Ok f -> js_value data -> line_text (record_text f data).
Proof.
  intros Hg Hf Hd. apply line_text_stringify. constructor; [apply (bool_decide_unpack _); vm_compute; exact I|].
  repeat (constructor; [split; [apply js_units_string|]|]); [constructor|constructor|constructor|done|constructor].
  - by eapply fold_tip_units.
  - apply js_units_string.
Qed.

(** What an operation may append to the journal, and what it answers then. *)
Definition decided {A} (D : Folded -> option json -> A -> Prop) (ls : list text) (record : option json) (a : A) (ls' : list text) : Prop :=
  exists f, fold_journal (unlines ls) = Ok f /\ D f record a /\ ls' = ls ++ match record with Some data => [record_text f data] | None => [] end.

Lemma does_txn {A} (decide : Folded -> io (option json * A)) (D : Folded -> option json -> A -> Prop) ls d :
  (forall f d, does (decide f) d (fun d' o => d' = d /\ forall rec a, o = Returned (rec, a) -> D f rec a)) ->
  (forall f data a, D f (Some data) a -> js_value data) -> js_units genesis ->
  agrees ls d ->
  does (txn decide) d (fun d' o => exists ls', agrees ls' d' /\ (ls' = ls \/ exists rec a, decided D ls rec a ls') /\
    forall a, o = Returned a -> exists rec, decided D ls rec a ls').
Proof.
  intros Hdec Hdata Hgen Hag.
  assert (forall o : LedgerOutcome A, ~ returns o -> exists ls', agrees ls' d /\ (ls' = ls \/ exists rec a, decided D ls rec a ls') /\
    forall a, o = Returned a -> exists rec, decided D ls rec a ls') as Hsame.
  { intros o Ho. exists ls. split; [done|]. split; [by left|]. intros a ->. by destruct Ho. }
  assert (forall e, exists ls', agrees ls' d /\ (ls' = ls \/ exists rec a, decided D ls rec a ls') /\
    forall a, Thrown e = Returned a -> exists rec, decided D ls rec a ls') as Ht by (intros e; apply Hsame; by intros []).
  assert (exists ls', agrees ls' d /\ (ls' = ls \/ exists rec a, decided D ls rec a ls') /\
    forall a, Died = Returned a -> exists rec, decided D ls rec a ls') as Hd by (apply Hsame; by intros []).
  unfold txn. apply does_bind. eapply (does_impl _ _ (fun d' o => d' = d)).
  { intros w <-. unfold assertUsable. by repeat case_match. }
  intros d' [[]|e|] ->; [|apply Ht|apply Hd]. do 4 (apply does_check_then; [intros; apply Ht|apply Hd|]).
  apply does_bind. eapply does_impl; [by apply does_read_folded|]. intros d' [f|e|] [-> Hf]; [|apply Ht|apply Hd].
  destruct (Hf f eq_refl) as ([Hleaf Hsafe] & Hfold & Hclean). clear Hf.
  apply does_bind. eapply does_impl; [apply Hdec|]. intros d' [[rec a]|e|] [-> HD]; [|apply Ht|apply Hd]. specialize (HD rec a eq_refl).
  destruct rec as [data|].
  2:{ apply does_ret. exists ls. split; [done|]. split; [by left|]. intros a' [= <-]. exists None. exists f. by rewrite app_nil_r. }
  assert (decided D ls (Some data) a (ls ++ [record_text f data])) as HDec by (by exists f).
  destruct Hag as [Hls _]. cbv zeta. set (h := recordHash _ _ _).
  assert (js_units h) as Hh by apply js_units_string.
  assert (line_text (record_text f data)) as Hl by (eapply record_line_text; eauto).
  apply does_now_then. intros ts Hts _. apply does_bind. eapply does_impl; [by apply does_intent|].
  intros d1 o1 (Hl1 & Hs1 & Hb1).
  assert (forall o : LedgerOutcome A, ~ returns o -> exists ls', agrees ls' d1 /\ (ls' = ls \/ exists rec a, decided D ls rec a ls') /\
    forall a, o = Returned a -> exists rec, decided D ls rec a ls') as Hsame1.
  { intros o Ho. exists ls. split; [split; [done|]; left; split; [by rewrite Hl1|done]|]. split; [by left|]. intros a' ->. by destruct Ho. }
  destruct o1 as [[]|e|]; [|apply Hsame1; by intros []..]. specialize (Hb1 I). clear Hsame1.
  apply does_bind, does_or_poison. eapply does_impl; [apply (does_publish ls (record_text f data) f h d1); try done|].
  { by apply fold_durable. } { by rewrite Hl1. }
  intros d2 o2 [Hsafe2 H2].
  assert (forall (o : LedgerOutcome A) d', agrees ls d' \/ agrees (ls ++ [record_text f data]) d' -> ~ returns o ->
    exists ls', agrees ls' d' /\ (ls' = ls \/ exists rec a, decided D ls rec a ls') /\ forall a, o = Returned a -> exists rec, decided D ls rec a ls') as Hfin.
  { intros o d' [Ha|Ha] Ho; eexists; (split; [exact Ha|]); (split; [|intros a' ->; by destruct Ho]); [by left|right; eauto]. }
  assert (Forall line_text (ls ++ [record_text f data])) as Hls' by (apply Forall_app; auto).
  assert (agrees ls d2 \/ agrees (ls ++ [record_text f data]) d2) as Hag2.
  { destruct H2 as [[Hw _]|[Hw Hp]]; [left; split; [done|right; rewrite Hw; by eapply wal_begun_refusing]|right; split; [done|left; split; [done|by destruct Hp]]]. }
  destruct o2 as [[]|e|].
  - destruct H2 as [[_ []]|[Hw Hp]]; [done|]. apply does_ret. exists (ls ++ [record_text f data]).
    split; [split; [done|left; split; [done|by destruct Hp]]|]. split; [right; eauto|]. intros a' [= <-]. eauto.
  - assert (does (poison (text_of_string "transaction failed after a possible mutation: " ++ le_message e) : io unit) d2
      (fun d'' _ => agrees ls d'' \/ agrees (ls ++ [record_text f data]) d'')) as Hpo.
    { assert (js_units (text_of_string "transaction failed after a possible mutation: " ++ le_message e)) as Hr
        by (apply Forall_app; split; [apply js_units_string|done]).
      destruct H2 as [[Hw _]|[Hw Hp]].
      - eapply does_impl; [eapply does_poison_begun; [done|done|by rewrite Hw]|]. intros d3 o3 [_ H3]. left. split; [done|by right].
      - eapply does_impl; [by apply does_poison_safe|]. intros d3 o3 [H3 Hs3]. right. split; [done|left; split; [by rewrite H3|done]]. }
    eapply does_impl; [exact Hpo|]. intros d3 o3 H3. split; apply Hfin; by (done || intros []).
  - apply Hfin; by (done || intros []).
Qed.
End transactions.

(** * The calls *)

Section ledger_calls.
Context {W : Type} `{LH : !LedgerHost W} `{HT : !HostTexts W} `{DG : Digest} `{HM : Hmac} `{GN : Generation}.
Local Abbreviation io := (io W).

(** What a scope, a binding and the host must be for a mint. *)
Definition mintable (bind : json) (scope : ScopeRef) : Prop :=
  validateBinding bind = Ok tt /\ get "runNonce" bind = JString runNonce /\ 0 < scope_pid scope /\
  (forall pid, scope = pgid pid -> strongScopeAvailable = false) /\
  exists h h' : W, host_scopeAlive scope h = (h', false).

Definition time_of (ts : text) : Prop := js_units ts /\ ts <> [].

Definition sealed_attest (payload : json) (tag : text) : json := fields_json [("payload", payload); ("tag", JString tag)].

Definition sealed (bind payload : json) (usdNano : Z) (reported : bool) (egress : json) (f : Folded) (record : option json) : Prop :=
  exists tag ts, time_of ts /\ tagPayload attest_key payload = Ok tag /\ verifyAttestation attest_key (sealed_attest payload tag) = Ok tt /\
  settle_decision bind (sealed_attest payload tag) usdNano reported egress f ts = Ok (record, tt).

Definition accounted_payload (bind : json) (d : KernelDraft) (n : Z) (ts : text) : json := attest_payload "accounted-terminal" bind d [] n "provider-reported" ts.

Definition fallback_payload (bind : json) (d : KernelDraft) (limit : Frame) (ts : text) : json :=
  attest_payload "trusted-fallback" bind d
    [("limitSha256", JString limit.(fr_sha256)); ("limitBytes", JNumber (Some limit.(fr_bytes))); ("limitOffset", JNumber (Some limit.(fr_offset)))] 0 "unknown" ts.

(** The answers a call may give on a folded journal, and the record it appends:
    the calls without their files. *)
Definition may_answer (c : LedgerCall) (f : Folded) (record : option json) (a : LedgerAnswer) : Prop :=
  match c with
  | call_reserve bind worstCaseUsd budgetUsd => exists budget worstCase ts b, time_of ts /\ validateBinding bind = Ok tt /\
      usdToNano budgetUsd = Ok budget /\ usdToNano worstCaseUsd = Ok worstCase /\
      reserve_decision bind worstCase budget f ts = Ok (record, b) /\ a = answer_bool b
  | call_settleUncertain bind egress => exists ts, time_of ts /\ validateBinding bind = Ok tt /\
      settle_decision bind JUndefined 0 false egress f ts = Ok (record, tt) /\ a = answer_done
  | call_attestAndSettle bind d usdNano => exists n ts, time_of ts /\ mintable bind d.(kd_scope) /\ grammar_kept bind d.(kd_providerKind) = Ok tt /\
      parseNano (JString usdNano) = Ok n /\ sealed bind (accounted_payload bind d n ts) n true d.(kd_egress) f record /\ a = answer_done
  | call_attestFallback bind d limit => exists ts, time_of ts /\ mintable bind d.(kd_scope) /\ grammar_kept bind d.(kd_providerKind) = Ok tt /\
      sealed bind (fallback_payload bind d limit ts) 0 false JUndefined f record /\ a = answer_done
  | call_effectiveSpend => record = None /\ exists n, spend_of f = Ok n /\ a = answer_amount n
  | call_budgetReached budgetUsd => record = None /\ exists budget n, usdToNano budgetUsd = Ok budget /\ 0 < budget /\ spend_of f = Ok n /\ a = answer_bool (budget <=? n)
  | call_budgetViolation => record = None /\ exists v, violation_of f = Ok v /\ a = answer_violation v
  | call_settlementOf callId => record = None /\ exists s, status_of callId f = Ok s /\ a = answer_status s
  | call_terminalEvidence callId => record = None /\ exists t, terminal_of callId f = Ok t /\ a = answer_terminal t
  | call_attestedSettlement callId => record = None /\ exists s, attested_of callId f = Ok s /\ a = answer_attested s
  | call_hasReservation callId => record = None /\ exists b, has_call callId f = Ok b /\ a = answer_bool b
  end.

(** The one answer that is given without reading the ledger. *)
Definition unread_answer (c : LedgerCall) (a : LedgerAnswer) : Prop :=
  exists budgetUsd, c = call_budgetReached budgetUsd /\ usdToNano budgetUsd = Ok 0 /\ a = answer_bool false.

(** What holds of the journal and the files when an operation has ended. *)
Definition carried {A} (D : Folded -> option json -> A -> Prop) (free : A -> Prop) (ls : list text) (d : Disk) (o : LedgerOutcome A) : Prop :=
  exists ls', agrees ls' d /\ (ls' = ls \/ exists rec a, decided D ls rec a ls') /\
  forall a, o = Returned a -> (exists rec, decided D ls rec a ls') \/ (free a /\ ls' = ls).

Lemma carried_thrown {A} (D : Folded -> option json -> A -> Prop) free ls d e : agrees ls d -> carried D free ls d (Thrown e).
Proof. intros H. exists ls. split; [done|]. split; [by left|]. by intros a [=]. Qed.

Lemma carried_died {A} (D : Folded -> option json -> A -> Prop) free ls d : agrees ls d -> carried D free ls d Died.
Proof. intros H. exists ls. split; [done|]. split; [by left|]. by intros a [=]. Qed.

Lemma does_carried {A} (c : io A) (D D' : Folded -> option json -> A -> Prop) free ls d :
  (forall f rec a, D f rec a -> D' f rec a) -> does c d (carried D (fun _ => False) ls) -> does c d (carried D' free ls).
Proof.
  intros HD H. eapply does_impl; [exact H|]. intros d' o (ls' & Hag & Hl & Ha). exists ls'. split; [done|].
  assert (forall rec a, decided D ls rec a ls' -> decided D' ls rec a ls') as Hd by (intros rec a (f & Hf & Hfd & ->); exists f; auto).
  split; [destruct Hl as [|(rec & a & Hl)]; eauto 6|]. intros a ->. destruct (Ha a eq_refl) as [(rec & Hr)|[[] _]]. left. eauto.
Qed.

Lemma does_answered {A} (c : io A) (g : A -> LedgerAnswer) (D : Folded -> option json -> A -> Prop) (D' : Folded -> option json -> LedgerAnswer -> Prop) free ls d :
  (forall f rec a, D f rec a -> D' f rec (g a)) -> does c d (carried D (fun a => free (g a)) ls) -> does (answered g c) d (carried D' free ls).
Proof.
  intros HD H. unfold answered. apply does_bind. eapply does_impl; [exact H|]. intros d' o (ls' & Hag & Hl & Ha).
  assert (forall rec a, decided D ls rec a ls' -> decided D' ls rec (g a) ls') as Hd by (intros rec a (f & Hf & Hfd & ->); exists f; auto).
  assert (ls' = ls \/ exists rec a, decided D' ls rec a ls') as Hl' by (destruct Hl as [|(rec & a & Hl)]; eauto 6).
  destruct o as [a|e|]; [apply does_ret|..]; exists ls'; (split; [done|]); (split; [done|]); [|by intros ? [=]..].
  intros ? [= <-]. destruct (Ha a eq_refl) as [(rec & Hr)|[Hf ->]]; [left; eauto|by right].
Qed.

Lemma does_read {A} (fn : Folded -> result LedgerError A) ls d : agrees ls d ->
  does (read fn : io A) d (carried (fun f rec a => rec = None /\ fn f = Ok a) (fun _ => False) ls).
Proof.
  intros Hag. unfold read. apply does_bind. eapply (does_impl _ _ (fun d' o => d' = d)).
  { intros w <-. unfold assertUsable. by repeat case_match. }
  intros d' [[]|e|] ->; [|by apply carried_thrown|by apply carried_died]. do 3 (apply does_check_then; [intros; by apply carried_thrown|by apply carried_died|]).
  apply does_bind. eapply does_impl; [by apply does_read_folded|]. intros d' [f|e|] [-> Hf]; [|by apply carried_thrown|by apply carried_died].
  destruct (Hf f eq_refl) as (_ & Hfold & _). apply does_lift. destruct (fn f) as [a|e] eqn:E; [|by apply carried_thrown].
  exists ls. split; [done|]. split; [by left|]. intros a' [= <-]. left. exists None, f. by rewrite app_nil_r.
Qed.

(** ** The records are JavaScript values *)

Definition generation_texts : Prop := js_units epoch /\ js_units genesis /\ js_units runNonce.

Definition frame_ok (fr : Frame) : Prop := js_units fr.(fr_sha256).
Definition scope_texts (r : ScopeRef) : Prop := match r with pgid _ => True | cgroup2 _ name ino => js_units name /\ js_units ino end.
Definition draft_ok (d : KernelDraft) : Prop :=
  js_units d.(kd_providerKind) /\ scope_texts d.(kd_scope) /\ js_units d.(kd_transcriptDev) /\ js_units d.(kd_transcriptIno) /\
  js_units d.(kd_transcriptSha256) /\ frame_ok d.(kd_terminal) /\ js_value d.(kd_egress).

(** The arguments of a call are JavaScript values. *)
Definition call_ok (c : LedgerCall) : Prop :=
  match c with
  | call_reserve bind _ _ => js_value bind
  | call_settleUncertain bind egress => js_value bind /\ js_value egress
  | call_attestAndSettle bind d _ => js_value bind /\ draft_ok d
  | call_attestFallback bind d limit => js_value bind /\ draft_ok d /\ frame_ok limit
  | _ => True
  end.

Lemma property_js_value k kvs : Forall (fun kv : text * json => js_units kv.1 /\ js_value kv.2) kvs -> js_value (property k kvs).
Proof. induction 1 as [|kv kvs [_ Hkv] _ IH]; cbn; [constructor|]. by repeat case_match. Qed.

Lemma get_js_value k v : js_value v -> js_value (get k v).
Proof. intros H. destruct v; try constructor. inversion H; subst. cbn [get]. by apply property_js_value. Qed.

Lemma fields_js_value l : NoDup (List.map fst l) -> Forall (fun kv => js_value kv.2) l -> js_value (fields_json l).
Proof.
  intros Hd H. constructor.
  - match goal with |- NoDup ?x => assert (x = List.map text_of_string (List.map fst l)) as -> by (clear; induction l as [|kv l IH]; [done|]; cbn; f_equal; exact IH) end.
    apply NoDup_fmap_2; [intros a b; apply text_of_string_inj|done].
  - apply Forall_map. eapply Forall_impl; [exact H|]. cbv beta. intros kv Hkv. split; [apply js_units_string|done].
Qed.

Ltac js_fields :=
  repeat match goal with
  | |- Forall _ (_ :: _) => apply Forall_cons; split
  | |- Forall _ [] => apply Forall_nil; exact I
  | |- js_value (jtext _) => constructor; apply js_units_string
  | |- js_value (JString (formatNano _)) => constructor; apply js_units_string
  | |- js_value (JBoolean _) => constructor
  | |- js_value (JNumber _) => constructor
  | |- js_value (get _ _) => apply get_js_value
  | |- js_value (JString _) => constructor
  end; cbn [snd]; try done.

Lemma reserve_js_value bind n b ts : generation_texts -> js_value bind -> js_units ts -> js_value (reserve_data bind n b ts).
Proof.
  intros (He & _ & _) Hb Hts. apply fields_js_value; [apply (bool_decide_unpack _); vm_compute; exact I|].
  repeat (apply Forall_cons; split; cbn [snd]); try apply Forall_nil; js_fields.
Qed.

Lemma settle_js_value bind attest n b egress ts : generation_texts -> js_value bind -> js_value attest -> js_value egress -> js_units ts ->
  js_value (settle_data bind attest n b egress ts).
Proof.
  intros (He & _ & _) Hb Ha Heg Hts. unfold settle_data. destruct (truthy_value egress);
    (apply fields_js_value; [apply (bool_decide_unpack _); vm_compute; exact I|]); cbn [app];
    repeat (apply Forall_cons; split; cbn [snd]); try apply Forall_nil; js_fields.
Qed.

Lemma scope_js_units r : scope_texts r -> js_units (scopeIdOf r) /\ js_units (reapProofOf r) /\ js_units (scope_backend r).
Proof.
  assert (forall n, js_units (number_text n)) as Hn by (intros; apply js_units_string).
  assert (js_units [58]) as H58 by (constructor; [lia|constructor]).
  destruct r as [pid|pid name ino]; cbn [scope_texts scopeIdOf reapProofOf scope_backend]; [intros _|intros [H1 H2]];
    (split; [|split; [|apply js_units_string]]); unfold js_units in *; rewrite ?Forall_app; split_and!; auto; apply js_units_string.
Qed.

Lemma payload_js_value kind bind d limit n provenance ts : generation_texts -> js_value bind -> draft_ok d -> js_units ts ->
  (limit = [] \/ exists fr, frame_ok fr /\ limit = [("limitSha256", JString fr.(fr_sha256)); ("limitBytes", JNumber (Some fr.(fr_bytes))); ("limitOffset", JNumber (Some fr.(fr_offset)))]) ->
  js_value (attest_payload kind bind d limit n provenance ts).
Proof.
  intros (He & _ & Hr) Hb (H1 & H2 & H3 & H4 & H5 & H6 & H7) Hts Hl. destruct (scope_js_units _ H2) as (Hs1 & Hs2 & Hs3). unfold attest_payload, frame_ok in *.
  destruct Hl as [->|(fr & Hf & ->)]; (apply fields_js_value; [apply (bool_decide_unpack _); vm_compute; exact I|]); cbn [app];
    repeat (apply Forall_cons; split; cbn [snd]); try apply Forall_nil; js_fields; try apply js_units_string.
Qed.

Lemma sealed_js_value payload tag : js_value payload -> js_units tag -> js_value (sealed_attest payload tag).
Proof.
  intros Hp Ht. apply fields_js_value; [apply (bool_decide_unpack _); vm_compute; exact I|].
  repeat (apply Forall_cons; split; cbn [snd]); try apply Forall_nil; js_fields.
Qed.

Lemma reserve_decision_data bind worstCase budget f ts data b : reserve_decision bind worstCase budget f ts = Ok (Some data, b) ->
  b = true /\ exists n e, data = reserve_data bind n e ts.
Proof.
  unfold reserve_decision. intros H. apply bind_Ok in H as (m & _ & H). apply bind_Ok in H as (_ & _ & H). apply bind_Ok in H as (_ & _ & H).
  destruct (negb (0 <? budget)); [injection H as <- <-; eauto|]. destruct (budget <? _); [done|]. injection H as <- <-. eauto.
Qed.

Lemma settle_decision_data bind attest n reported egress f ts data u : settle_decision bind attest n reported egress f ts = Ok (Some data, u) ->
  data = settle_data bind attest n reported egress ts.
Proof.
  unfold settle_decision. intros H. apply bind_Ok in H as (m & _ & H). destruct (call_get _ m) as [r|]; [|discriminate H].
  apply bind_Ok in H as (_ & _ & H). apply bind_Ok in H as (? & _ & H). apply bind_Ok in H as (_ & _ & H). by injection H as <- _.
Qed.

(** ** Every call does what its decision says, or nothing *)

Lemma does_txn_carried {A} (decide : Folded -> text -> result LedgerError (option json * A)) ls d :
  generation_texts -> (forall f ts data a, time_of ts -> decide f ts = Ok (Some data, a) -> js_value data) -> agrees ls d ->
  does (txn (fun f => lift (decide f []) ;; ts ← ledger_now; lift (decide f ts)) : io A) d
    (carried (fun f rec a => exists ts, time_of ts /\ decide f ts = Ok (rec, a)) (fun _ => False) ls).
Proof.
  intros (_ & Hg & _) Hdata Hag.
  eapply does_impl; [apply (does_txn _ (fun f rec a => exists ts, time_of ts /\ decide f ts = Ok (rec, a)) ls d)|]; try done.
  - intros f d1. apply does_lift_then; [done|]. intros _ _. apply does_now_then. intros ts H1 H2. apply does_lift.
    destruct (decide f ts) as [[rec a]|e] eqn:E; split; try done. intros rec' a' [= <- <-]. by exists ts.
  - intros f data a (ts & Hts & E). by eapply Hdata.
  - intros d' o (ls' & H1 & H2 & H3). exists ls'. split; [done|]. split; [done|]. intros a Ha. left. by apply H3.
Qed.

Lemma does_settlement bind attest n reported egress ls d : generation_texts -> js_value bind -> js_value attest -> js_value egress -> agrees ls d ->
  does (appendSettlement bind attest n reported egress : io unit) d
    (carried (fun f rec a => exists ts, time_of ts /\ settle_decision bind attest n reported egress f ts = Ok (rec, a)) (fun _ => False) ls).
Proof.
  intros Hg Hb Ha He Hag. apply (does_txn_carried (settle_decision bind attest n reported egress)); [done| |done].
  intros f ts data u [Hts _] E. rewrite (settle_decision_data _ _ _ _ _ _ _ _ _ E). by apply settle_js_value.
Qed.

Lemma does_scopeAlive r d : does (scopeAlive r : io bool) d (fun d' o => d' = d /\ exists b, o = Returned b /\ exists h h' : W, host_scopeAlive r h = (h', b)).
Proof. intros w <-. unfold scopeAlive. destruct (host_scopeAlive r (lw_host w)) as [h b] eqn:E. cbn. split; [done|]. exists b. eauto. Qed.

Lemma does_mintable bind scope ls d {B} (k : unit -> io B) (D : Folded -> option json -> B -> Prop) free : agrees ls d ->
  (mintable bind scope -> does (k tt) d (carried D free ls)) -> does (assertMintable bind scope ≫= k) d (carried D free ls).
Proof.
  intros Hag Hk. apply does_bind. unfold assertMintable.
  assert (forall e, carried D free ls d (Thrown e)) as Ht by (intros; by apply carried_thrown).
  apply does_lift_then; [intros; apply Ht|]. intros [] Hv%map_err_Ok.
  apply does_require_then; [apply Ht|]. intros Hr%same_value_spec. apply does_require_then; [apply Ht|]. intros Hp%Z.ltb_lt.
  apply does_require_then; [apply Ht|]. intros Hs%negb_true_iff.
  apply does_bind. eapply does_impl; [apply does_scopeAlive|]. intros d' o (-> & alive & -> & h & h' & Ha).
  apply does_require. destruct alive; cbn [negb]; [apply Ht|]. apply Hk. split; [done|]. split; [done|]. split; [done|]. split.
  - intros pid ->. by rewrite andb_true_l in Hs.
  - by exists h, h'.
Qed.

Lemma does_sealed bind payload n reported egress ls d : generation_texts -> js_value bind -> js_value payload -> js_value egress -> agrees ls d ->
  does (sealAndSettle bind payload n reported egress : io unit) d (carried (fun f rec _ => sealed bind payload n reported egress f rec) (fun _ => False) ls).
Proof.
  intros Hg Hb Hp He Hag. unfold sealAndSettle.
  apply does_lift_then; [intros; by apply carried_thrown|]. intros tag Htag%map_err_Ok. cbv zeta.
  assert (js_units tag) as Hu by (unfold tagPayload in Htag; destruct attest_key; [injection Htag as <-; apply js_units_string|discriminate Htag]).
  apply does_lift_then; [intros; by apply carried_thrown|]. intros [] Hver%map_err_Ok.
  eapply does_carried; [|apply does_settlement; try done; by apply sealed_js_value].
  intros f rec [] (ts & Hts & E). by exists tag, ts.
Qed.

Lemma does_perform c ls d : generation_texts -> call_ok c -> agrees ls d ->
  does (perform_call c : io LedgerAnswer) d (carried (may_answer c) (unread_answer c) ls).
Proof.
  intros Hg Hc Hag. destruct c as [bind wU bU|bind egress|bind dr usd|bind dr limit| |bU| |callId|callId|callId|callId]; cbn [perform_call call_ok] in *.
  - eapply (does_answered _ _ (fun f rec b => exists budget worstCase ts, time_of ts /\ validateBinding bind = Ok tt /\ usdToNano bU = Ok budget /\
      usdToNano wU = Ok worstCase /\ reserve_decision bind worstCase budget f ts = Ok (rec, b))); [cbn; naive_solver|]. unfold reserve.
    do 3 (apply does_lift_then; [intros; by apply carried_thrown|]; intros ? ?%map_err_Ok). destruct a.
    eapply does_carried; [|apply (does_txn_carried (reserve_decision bind a1 a0)); [done| |done]]; [naive_solver|].
    intros f ts data b [Hts _] E. apply reserve_decision_data in E as (_ & n & e & ->). by apply reserve_js_value.
  - destruct Hc as [Hb He]. eapply (does_answered _ _ (fun f rec (_ : unit) => exists ts, time_of ts /\ validateBinding bind = Ok tt /\
      settle_decision bind JUndefined 0 false egress f ts = Ok (rec, tt))); [cbn; naive_solver|]. unfold settleUncertain.
    apply does_lift_then; [intros; by apply carried_thrown|]. intros [] Hv%map_err_Ok.
    eapply does_carried; [|apply does_settlement; try done; constructor]. intros f rec [] (ts & Hts & E). by exists ts.
  - destruct Hc as [Hb Hd]. eapply (does_answered _ _ (fun f rec (_ : unit) => may_answer (call_attestAndSettle bind dr usd) f rec answer_done)); [cbn; naive_solver|].
    unfold attestAndSettle. apply does_mintable; [done|]. intros Hm. apply does_lift_then; [intros; by apply carried_thrown|]. intros [] Hgr.
    apply does_lift_then; [intros; by apply carried_thrown|]. intros n Hn%map_err_Ok. apply does_require_then; [by apply carried_thrown|]. intros _.
    apply does_now_then. intros ts Hts1 Hts2. pose proof Hd as (_ & _ & _ & _ & _ & _ & He).
    eapply does_carried; [|apply does_sealed; try done; apply payload_js_value; auto]. intros f rec [] Hs. cbn. exists n, ts. by split_and!.
  - destruct Hc as (Hb & Hd & Hl). eapply (does_answered _ _ (fun f rec (_ : unit) => may_answer (call_attestFallback bind dr limit) f rec answer_done)); [cbn; naive_solver|].
    unfold attestFallback. apply does_mintable; [done|]. intros Hm. apply does_lift_then; [intros; by apply carried_thrown|]. intros [] Hgr.
    apply does_now_then. intros ts Hts1 Hts2.
    eapply does_carried; [|apply does_sealed; try done; [apply payload_js_value; auto; right; eauto|constructor]]. intros f rec [] Hs. cbn. exists ts. by split_and!.
  - eapply does_answered; [|eapply does_carried; [|by apply does_read]]; [|exact (fun f rec a Ha => Ha)]. cbn. naive_solver.
  - eapply (does_answered _ _ (fun f rec b => may_answer (call_budgetReached bU) f rec (answer_bool b))); [done|]. unfold budgetReached.
    apply does_lift_then; [intros; by apply carried_thrown|]. intros budget Hbu%map_err_Ok. destruct (Z.leb_spec budget 0) as [Hle|Hlt].
    + apply does_ret. exists ls. split; [done|]. split; [by left|]. intros b [= <-]. right. split; [|done]. exists bU. pose proof (usdToNano_bounds _ _ Hbu).
      split; [done|]. split; [|done]. rewrite Hbu. f_equal. lia.
    + apply does_bind. eapply does_impl; [by apply does_read|]. intros d' o (ls' & Hag' & Hl & Ha).
      assert (forall (o : LedgerOutcome bool) (free : bool -> Prop), ~ returns o -> ls' = ls -> carried (fun f rec b => may_answer (call_budgetReached bU) f rec (answer_bool b)) free ls d' o) as Hno.
      { intros o' free Ho' ->. exists ls. split; [done|]. split; [by left|]. intros b ->. by destruct Ho'. }
      assert (ls' = ls) as Els by (destruct Hl as [|(rec & a & f & _ & [-> _] & ->)]; [done|by rewrite app_nil_r]).
      destruct o as [n|e|]; [apply does_ret|apply Hno; [by intros []|done]..].
      destruct (Ha n eq_refl) as [(rec & f & Hf & [-> Hn] & _)|[[] _]]. exists ls'. split; [done|]. split; [by left|]. intros b [= <-]. left. exists None, f.
      split; [done|]. split; [cbn; eauto 10|]. by rewrite app_nil_r.
  - eapply does_answered; [|eapply does_carried; [|by apply does_read]]; [|exact (fun f rec a Ha => Ha)]. cbn. naive_solver.
  - eapply does_answered; [|eapply does_carried; [|by apply does_read]]; [|exact (fun f rec a Ha => Ha)]. cbn. naive_solver.
  - eapply does_answered; [|eapply does_carried; [|by apply does_read]]; [|exact (fun f rec a Ha => Ha)]. cbn. naive_solver.
  - eapply does_answered; [|eapply does_carried; [|by apply does_read]]; [|exact (fun f rec a Ha => Ha)]. cbn. naive_solver.
  - eapply does_answered; [|eapply does_carried; [|by apply does_read]]; [|exact (fun f rec a Ha => Ha)]. cbn. naive_solver.
Qed.
End ledger_calls.

(** * Histories *)

Section histories.
Context {W : Type} `{LH : !LedgerHost W} `{HT : !HostTexts W} `{DG : Digest} `{HM : Hmac} `{GN : Generation}.

(** What a power loss may leave of the two files. *)
Definition lost_power (d d' : Disk) : Prop :=
  exists leaf wal, survives d.(dk_leaf) leaf /\ survives d.(dk_wal) wal /\ d' = {| dk_leaf := file_of leaf; dk_wal := file_of wal |}.

Definition fresh_disk : Disk := {| dk_leaf := file_of []; dk_wal := file_of [] |}.

(** The calls that were made of a new ledger, each with its outcome, by any
    handles of any processes, on a host in any state, with losses of power in
    between; and the files they have left. The journal is locked from before a
    call reads it until after it has been poisoned, so calls follow one another. *)
Inductive ledger_history : list (LedgerCall * LedgerOutcome LedgerAnswer) -> Disk -> Prop :=
| history_new : ledger_history [] fresh_disk
| history_call calls c (w : LedgerWorld W) :
    ledger_history calls (disk_of w) -> call_ok c ->
    ledger_history (calls ++ [(c, (perform_call c w).2)]) (disk_of (perform_call c w).1)
| history_power calls d d' : ledger_history calls d -> lost_power d d' -> ledger_history calls d'.

(** What calls have done to a journal that is only its lines: one that returned
    has appended what it decided and answers so; one that threw, or whose
    process died, has done that or nothing. *)
Definition answered_on (c : LedgerCall) (ls : list text) (a : LedgerAnswer) (ls' : list text) : Prop :=
  (exists rec, decided (may_answer (W := W) c) ls rec a ls') \/ (unread_answer c a /\ ls' = ls).

Inductive explains : list (LedgerCall * LedgerOutcome LedgerAnswer) -> list text -> Prop :=
| explains_new : explains [] []
| explains_returned calls ls c a ls' : explains calls ls -> call_ok c -> answered_on c ls a ls' -> explains (calls ++ [(c, Returned a)]) ls'
| explains_failed calls ls c o ls' : explains calls ls -> call_ok c -> ~ returns o -> (ls' = ls \/ exists a, answered_on c ls a ls') -> explains (calls ++ [(c, o)]) ls'.

Lemma agrees_fresh : agrees [] fresh_disk.
Proof.
  split; [constructor|]. left. split; [done|].
  assert (log_like []) as Hl by (left; exists [], O; split; [split; [constructor|by eexists]|done]). split; [apply file_of_wf|]. by split.
Qed.

Lemma agrees_lost_power ls d d' : agrees ls d -> lost_power d d' -> agrees ls d'.
Proof.
  intros [Hls H] (leaf & wal & Hleaf & Hwal & ->). split; [done|]. destruct H as [[Hl (Hwf & Hc & Hd)]|(Hwf & Hd & Hr)].
  - left. split; cbn.
    + rewrite Hl in Hleaf. destruct Hleaf as [->|(k & Hk & ->)]; [done|]. cbn in *. by rewrite take_ge.
    + assert (log_like wal) as Hw by (destruct Hwal as [->|(k & _ & ->)]; [done|by apply log_like_take]). split; [apply file_of_wf|]. by split.
  - right. cbn. assert (refuses wal) as Hw by (destruct Hwal as [->|(k & Hk & ->)]; auto). split; [apply file_of_wf|]. cbn. split; [done|].
    intros k Hk. by rewrite take_ge.
Qed.

(** Every history of calls is one of a ledger without files, and the files agree
    with its journal. *)
Lemma history_explained calls d : generation_texts -> ledger_history calls d -> exists ls, explains calls ls /\ agrees ls d.
Proof.
  intros Hg. induction 1 as [|calls c w _ (ls & He & Hag) Hc|calls d d' _ (ls & He & Hag) Hp].
  - exists []. split; [constructor|apply agrees_fresh].
  - destruct (does_perform c ls (disk_of w) Hg Hc Hag w eq_refl) as (ls' & Hag' & Hl & Ha). exists ls'. split; [|done].
    destruct (perform_call c w).2 as [a|e|] eqn:E.
    + by eapply explains_returned; [..|apply Ha].
    + eapply explains_failed; [done|done|by intros []|]. destruct Hl as [->|(rec & a & Hd)]; [by left|]. right. exists a. left. by exists rec.
    + eapply explains_failed; [done|done|by intros []|]. destruct Hl as [->|(rec & a & Hd)]; [by left|]. right. exists a. left. by exists rec.
  - exists ls. split; [done|]. by eapply agrees_lost_power.
Qed.

Lemma sealed_record bind payload n reported egress f data : generation_texts -> js_value bind -> js_value payload -> js_value egress ->
  sealed bind payload n reported egress f (Some data) -> js_value data.
Proof.
  intros Hg Hb Hp He (tag & ts & [Hts _] & Htag & _ & E). rewrite (settle_decision_data _ _ _ _ _ _ _ _ _ E).
  apply settle_js_value; try done. apply sealed_js_value; [done|].
  unfold tagPayload in Htag. destruct attest_key; [injection Htag as <-; apply js_units_string|discriminate Htag].
Qed.

Lemma may_answer_js_value c f data a : generation_texts -> call_ok c -> may_answer (W := W) c f (Some data) a -> js_value data.
Proof.
  intros Hg Hc H. destruct c as [bind wU bU|bind egress|bind dr usd|bind dr limit| |bU| |callId|callId|callId|callId]; cbn [may_answer call_ok] in *;
    try by destruct H as [[=] _].
  - destruct H as (budget & worst & ts & b & [Hts _] & _ & _ & _ & E & _). apply reserve_decision_data in E as (_ & n & e & ->). by apply reserve_js_value.
  - destruct H as (ts & [Hts _] & _ & E & _), Hc. rewrite (settle_decision_data _ _ _ _ _ _ _ _ _ E). apply settle_js_value; try done. constructor.
  - destruct H as (n & ts & [Hts _] & _ & _ & _ & Hs & _), Hc as [Hb Hd]. pose proof Hd as (_ & _ & _ & _ & _ & _ & He).
    eapply sealed_record; [..|exact Hs]; try done. apply payload_js_value; auto.
  - destruct H as (ts & [Hts _] & _ & _ & Hs & _), Hc as (Hb & Hd & Hl).
    eapply sealed_record; [..|exact Hs]; try done; [|constructor]. apply payload_js_value; auto. right. eauto.
Qed.

Lemma explains_lines calls ls : generation_texts -> explains calls ls -> Forall line_text ls.
Proof.
  intros Hg H. assert (forall c ls a ls', call_ok c -> answered_on c ls a ls' -> Forall line_text ls -> Forall line_text ls') as Hstep.
  { intros c ls0 a ls' Hc [(rec & f & Hf & Hm & ->)|[_ ->]] Hls; [|done]. apply Forall_app. split; [done|]. destruct rec as [data|]; [|constructor].
    constructor; [|constructor]. eapply record_line_text; [by destruct Hg as (? & ? & ?)|exact Hf|by eapply may_answer_js_value]. }
  induction H as [|calls ls c a ls' _ IH Hc Ha|calls ls c o ls' _ IH Hc Ho [->|(a & Ha)]]; [constructor|by eapply Hstep|done|by eapply Hstep].
Qed.
End histories.
