(* ===== verification/LedgerAccounts.v ===== *)
(** LedgerAccounts: what the records of a journal do to the accounts folded from
    it: spending and budgets, and where the authority of a settlement comes from. *)
From S2P Require Import Prelude Text Json Ids ScmTypes ControlEvents EventSchema EventCode JsonText Money Stringify Attest LedgerRecords Ledger LedgerLog LedgerFacts.

#[local] Open Scope Z_scope.

(** * Values read back *)

Lemma property_filtered k (kvs : list (text * json)) : NoDup kvs.*1 ->
  property k (List.filter (fun kv => negb (is_undefined kv.2)) (List.map (fun kv => (kv.1, dropped kv.2)) kvs)) = dropped (property k kvs).
Proof.
  induction kvs as [|kv kvs IH]; intros Hnd; [done|]. cbn [fmap list_fmap] in Hnd. apply NoDup_cons in Hnd as [Hn Hnd]. cbn [List.map List.filter fst snd].
  rewrite is_undefined_dropped. cbn [property]. destruct (is_undefined kv.2) eqn:Hu; cbn [negb].
  - rewrite IH by done. case_bool_decide as Hk; [|done]. subst k. destruct kv as [k v]. cbn in *. destruct v; try discriminate Hu. cbn.
    by rewrite property_absent.
  - cbn [property fst snd]. case_bool_decide; [done|auto].
Qed.

(** A property of what is read back is what is read back of the property. *)
Lemma get_dropped k v : js_value v -> get k (dropped v) = dropped (get k v).
Proof.
  intros H. destruct v as [| |b|[n|]|t|l|kvs]; try done. inversion H; subst. cbn [dropped get]. by apply property_filtered.
Qed.

Lemma dropped_text v t : v = JString t -> dropped v = JString t.
Proof. by intros ->. Qed.

Section accounts.
Context `{DG : Digest} `{HM : Hmac} `{GN : Generation}.

(** * One more record *)

Lemma fold_lines_app {A} (step : A -> text -> result LedgerError A) a ls ls' :
  fold_lines step false a (ls ++ ls') = (b ← fold_lines step false a ls; fold_lines step false b ls').
Proof. revert a; induction ls as [|l ls IH]; intros a; cbn; [done|]. destruct (step a l); [apply IH|done]. Qed.

Lemma fold_journal_snoc ls l : Forall line_text (ls ++ [l]) ->
  fold_journal (unlines (ls ++ [l])) = (f ← fold_journal (unlines ls); fold_record epoch runNonce attest_key f l).
Proof.
  intros H. pose proof (proj1 (proj1 (Forall_app _ _ _) H)) as Hls. unfold fold_journal, foldContent. rewrite !lines_unlines by by apply no_newlines.
  rewrite fold_lines_app. match goal with |- (b ← ?c; _) = _ => destruct c as [f|e] end; [|done]. cbn. by destruct (fold_record _ _ _ f l).
Qed.

Lemma record_read f f' data : js_units f.(fd_tip) -> js_value data -> is_undefined data = false ->
  fold_record epoch runNonce attest_key f (record_text f data) = Ok f' ->
  f'.(fd_datas) = f.(fd_datas) ++ [dropped data] /\ validateData (dropped data) epoch runNonce attest_key = Ok tt.
Proof.
  intros Ht Hd Hu (rec & Hp & Hv & ->)%fold_record_Ok. cbn [fd_datas].
  assert (js_value (journal_record f data)) as Hj.
  { constructor; [apply (bool_decide_unpack _); vm_compute; exact I|].
    repeat (constructor; [split; [apply js_units_string|]|]); [constructor|by constructor|constructor; apply js_units_string|done|constructor]. }
  unfold record_text in Hp. rewrite JSON_parse_stringify in Hp by (done || by apply js_value_distinct). assert (rec = dropped (journal_record f data)) as -> by congruence. clear Hp.
  assert (get "data" (dropped (journal_record f data)) = dropped data) as E by (rewrite get_dropped by done; reflexivity).
  rewrite E. split; [done|]. unfold validateRecordSchema in Hv. do 4 apply bind_Ok in Hv as (_ & _ & Hv). by rewrite E in Hv.
Qed.

(** The accounts and the nonces spent. *)
Definition fold_acc (datas : list json) : result LedgerError (Calls * list json) := fold_result (fold_call attest_key epoch runNonce) ([], []) datas.

Lemma fold_calls_acc f m : fold_calls f = Ok m <-> exists spent, fold_acc f.(fd_datas) = Ok (m, spent).
Proof.
  unfold fold_calls, foldReservations. fold (fold_acc f.(fd_datas)). destruct (fold_acc _) as [[m' s]|e]; cbn; split; try done; try (by intros [? [=]]).
  - intros [= ->]. by exists s.
  - intros [s' [= -> ->]]. done.
Qed.

Lemma fold_calls_snoc f f' d m' : f'.(fd_datas) = f.(fd_datas) ++ [d] -> fold_calls f' = Ok m' ->
  exists m spent spent', fold_acc f.(fd_datas) = Ok (m, spent) /\ fold_call attest_key epoch runNonce (m, spent) d = Ok (m', spent').
Proof.
  intros E (s' & Hf)%fold_calls_acc. rewrite E in Hf. unfold fold_acc in *. rewrite fold_result_app in Hf.
  apply bind_Ok in Hf as ([m s] & Hm & Hf). cbn in Hf. apply bind_Ok in Hf as (acc & Hc & Hf). injection Hf as ->. by exists m, s, s'.
Qed.

(** * Fields of the records *)

Lemma binding_texts b : validateBinding b = Ok tt -> exists callId, get "callId" b = JString callId.
Proof.
  unfold validateBinding. cbv zeta beta. intros H. run;
  match goal with H : is_text nonempty (get "callId" b) = true |- _ => apply is_text_spec in H as (t & Ht & _); eauto end.
Qed.

Lemma reserve_fields bind n e ts : js_value (reserve_data bind n e ts) ->
  let d := dropped (reserve_data bind n e ts) in
  get "type" d = jtext "reserve" /\ get "callId" d = dropped (get "callId" bind) /\ get "worstCaseNano" d = JString (formatNano n) /\
  get "enforced" d = JBoolean e /\ get "bind" d = dropped bind.
Proof. intros H d. subst d. rewrite !get_dropped by done. repeat split; reflexivity. Qed.

Lemma settle_fields bind attest n r egress ts : js_value (settle_data bind attest n r egress ts) ->
  let d := dropped (settle_data bind attest n r egress ts) in
  get "type" d = jtext "settle" /\ get "callId" d = dropped (get "callId" bind) /\ get "usdNano" d = JString (formatNano n) /\
  get "reported" d = JBoolean r /\ get "bind" d = dropped bind /\ get "attest" d = dropped attest.
Proof. intros H d. subst d. rewrite !get_dropped by done. unfold settle_data. destruct (truthy_value egress); repeat split; reflexivity. Qed.

(** * The map of calls *)

Lemma call_get_new k r m : call_get k m = None -> call_set k r m = m ++ [(k, r)].
Proof.
  induction m as [|[k' r'] m IH]; cbn; [done|]. destruct (same_value k' k); [done|]. intros H. by rewrite IH.
Qed.

Lemma call_get_split k r m : call_get k m = Some r -> exists m1 k' m2, m = m1 ++ (k', r) :: m2 /\ same_value k' k = true /\
  forall r', call_set k r' m = m1 ++ (k', r') :: m2.
Proof.
  induction m as [|[k' r'] m IH]; cbn; [done|]. destruct (same_value k' k) eqn:E.
  - intros [= ->]. by exists [], k', m.
  - intros (m1 & k1 & m2 & -> & Hk & Hs)%IH. exists ((k', r') :: m1), k1, m2. split; [done|]. split; [done|]. intros r1. by rewrite Hs.
Qed.

Lemma spend_app m m' : spendOf (m ++ m') = spendOf m + spendOf m'.
Proof. unfold spendOf. rewrite foldr_app. induction m as [|kr m IH]; cbn; [done|]. rewrite IH. lia. Qed.

Lemma spend_set k r r' m : call_get k m = Some r -> spendOf (call_set k r' m) = spendOf m - counted r + counted r'.
Proof. intros (m1 & k' & m2 & -> & _ & ->)%call_get_split. rewrite !spend_app. cbn. lia. Qed.

(** * One more call *)

Definition new_call (n : Z) (e : bool) (bind : json) : Reservation := {|
  rv_worstCase := n; rv_enforced := e; rv_settled := false; rv_trustedUsd := None; rv_fallbackAuthorized := false; rv_over := false; rv_bind := bind |}.

Lemma fold_call_reserve m s d m' s' : get "type" d = jtext "reserve" -> fold_call attest_key epoch runNonce (m, s) d = Ok (m', s') ->
  exists n, parseNano (get "worstCaseNano" d) = Ok n /\ call_get (get "callId" d) m = None /\
    m' = m ++ [(get "callId" d, new_call n (is_true (get "enforced" d)) (get "bind" d))].
Proof.
  intros Ht. unfold fold_call. rewrite Ht. change (kind_is "reserve" (jtext "reserve")) with true. cbv iota beta. intros H.
  apply bind_Ok in H as (_ & Hn%ensure_Ok & H). apply bind_Ok in H as (_ & _ & H). apply bind_Ok in H as (n & Hp%map_err_Ok & H).
  injection H as <- <-. exists n. split; [done|]. destruct (call_get _ m) eqn:E; [discriminate Hn|]. split; [done|]. by rewrite call_get_new.
Qed.

Lemma fold_call_settle m s d m' s' : get "type" d = jtext "settle" -> fold_call attest_key epoch runNonce (m, s) d = Ok (m', s') ->
  exists cur cur', call_get (get "callId" d) m = Some cur /\ cur.(rv_settled) = false /\ bindingMismatch cur.(rv_bind) (get "bind" d) = Ok false /\
    settled_call attest_key epoch runNonce cur d = Ok cur' /\ m' = call_set (get "callId" d) cur' m.
Proof.
  intros Ht. unfold fold_call. rewrite Ht. change (kind_is "reserve" (jtext "settle")) with false. cbv iota beta. intros H.
  destruct (call_get _ m) as [cur|] eqn:E; [|discriminate H].
  apply bind_Ok in H as (_ & Hn%ensure_Ok & H). apply bind_Ok in H as (mis & Hm & H). apply bind_Ok in H as (_ & Hx%ensure_Ok & H).
  apply bind_Ok in H as (cur' & Hc & H). injection H as <- <-. exists cur, cur'. split; [done|]. destruct (rv_settled cur); [discriminate Hn|].
  destruct mis; [discriminate Hx|]. by split_and!.
Qed.

Lemma settled_call_spec cur d cur' : settled_call attest_key epoch runNonce cur d = Ok cur' ->
  cur'.(rv_worstCase) = cur.(rv_worstCase) /\ cur'.(rv_enforced) = cur.(rv_enforced) /\ cur'.(rv_settled) = true /\ cur'.(rv_bind) = cur.(rv_bind) /\
  cur'.(rv_fallbackAuthorized) = authorizesFallback attest_key d epoch runNonce /\
  (forall n, cur'.(rv_trustedUsd) = Some n <-> costIsTrusted attest_key d epoch runNonce = true /\ parseNano (get "usdNano" d) = Ok n) /\
  (cur.(rv_over) = true -> cur'.(rv_over) = true) /\
  (cur.(rv_enforced) = true -> cur.(rv_settled) = false -> counted cur' <= counted cur \/ cur'.(rv_over) = true).
Proof.
  unfold settled_call. intros H. apply bind_Ok in H as (trusted & Ht & H). injection H as <-. cbn [rv_worstCase rv_enforced rv_settled rv_bind rv_fallbackAuthorized rv_trustedUsd rv_over].
  do 5 (split; [done|]). split; [|split; [by intros ->|]].
  - intros n. destruct (costIsTrusted _ _ _ _).
    + apply bind_Ok in Ht as (k & Hk%map_err_Ok & [= <-]). rewrite Hk. split; [intros [= ->]; done|intros [_ [= ->]]; done].
    + injection Ht as <-. split; [done|by intros [? _]].
  - intros He Hs. rewrite He. unfold counted. cbn [rv_trustedUsd rv_settled rv_worstCase]. rewrite Hs.
    assert (match rv_trustedUsd cur with Some _ => rv_worstCase cur | None => rv_worstCase cur end = rv_worstCase cur) as -> by by destruct (rv_trustedUsd cur).
    destruct trusted as [n|]; [|left; lia]. destruct (Z.ltb_spec (rv_worstCase cur) n); [right; by rewrite orb_true_r|left; lia].
Qed.

(** ** Budgets *)

(** Every reservation is enforced, and the spending is within the budget unless a
    proven cost has exceeded its own reservation. *)
Definition within (B : Z) (m : Calls) : Prop :=
  Forall (fun kr => kr.2.(rv_enforced) = true) m /\ (spendOf m <= B \/ Exists (fun kr => kr.2.(rv_over) = true) m).

Lemma within_reserve B m k n bind : within B m -> spendOf m + n <= B -> within B (m ++ [(k, new_call n true bind)]).
Proof.
  intros [He _] Hs. split; [apply Forall_app; split; [done|by repeat constructor]|]. left. rewrite spend_app. cbn. lia.
Qed.

Lemma within_settle B m k cur cur' d : within B m -> call_get k m = Some cur -> cur.(rv_settled) = false ->
  settled_call attest_key epoch runNonce cur d = Ok cur' -> within B (call_set k cur' m).
Proof.
  intros [He Hs] Hg Hn Hc. apply settled_call_spec in Hc as (_ & Hen & _ & _ & _ & _ & Hov & Hle).
  pose proof (spend_set k cur cur' m Hg) as Hsp. apply call_get_split in Hg as (m1 & k' & m2 & -> & _ & Hset). rewrite Hset in *.
  apply Forall_app in He as [He1 He2]. apply Forall_cons in He2 as [Hec He2]. cbn in Hec. specialize (Hle Hec Hn). split.
  - apply Forall_app. split; [done|]. constructor; [cbn; congruence|done].
  - destruct Hle as [Hle|Ho]; [|right; apply Exists_app; right; by left].
    destruct Hs as [Hs|Hs]; [left; lia|right]. apply Exists_app in Hs as [Hs|Hs]; apply Exists_app; [by left|right].
    apply Exists_cons in Hs as [Hs|Hs]; [left; by apply Hov|by right].
Qed.
End accounts.

(** * Along a history *)

Section along.
Context {W : Type} `{LH : !LedgerHost W} `{HT : !HostTexts W} `{DG : Digest} `{HM : Hmac} `{GN : Generation}.

Definition at_journal (P : Calls -> Prop) (ls : list text) : Prop :=
  forall f m, fold_journal (unlines ls) = Ok f -> fold_calls f = Ok m -> P m.

Lemma may_answer_object c f data a : may_answer (W := W) c f (Some data) a -> is_undefined data = false.
Proof.
  destruct c; cbn [may_answer]; try by intros [[=] _].
  - intros (? & ? & ? & ? & _ & _ & _ & _ & E & _). by apply reserve_decision_data in E as (_ & n & e & ->).
  - intros (? & _ & _ & E & _). by rewrite (settle_decision_data _ _ _ _ _ _ _ _ _ E).
  - intros (? & ? & _ & _ & _ & _ & (? & ? & _ & _ & _ & E) & _). by rewrite (settle_decision_data _ _ _ _ _ _ _ _ _ E).
  - intros (? & _ & _ & _ & (? & ? & _ & _ & _ & E) & _). by rewrite (settle_decision_data _ _ _ _ _ _ _ _ _ E).
Qed.

(** What holds of no accounts, of the accounts after further calls, and of those
    that a call has added a record to, holds of the accounts of every history. *)
Lemma explains_accounts (P : list (LedgerCall * LedgerOutcome LedgerAnswer) -> Calls -> Prop) : generation_texts ->
  P [] [] -> (forall calls x m, P calls m -> P (calls ++ [x]) m) ->
  (forall calls c o f data a m s m' s', call_ok c -> may_answer (W := W) c f (Some data) a -> js_value data -> fold_calls f = Ok m -> P calls m ->
    fold_call attest_key epoch runNonce (m, s) (dropped data) = Ok (m', s') -> P (calls ++ [(c, o)]) m') ->
  forall calls ls, explains (W := W) calls ls -> at_journal (P calls) ls.
Proof.
  intros Hg H0 Hmono Hstep.
  assert (forall calls ls c o a ls', explains (W := W) calls ls -> at_journal (P calls) ls -> call_ok c -> answered_on (W := W) c ls a ls' -> at_journal (P (calls ++ [(c, o)])) ls') as Hcall.
  { intros calls ls c o a ls' He Hj Hc [(rec & f & Hf & Hm & ->)|[_ ->]]; [|intros f m Hf Hm; by eapply Hmono, Hj].
    destruct rec as [data|]; [|rewrite app_nil_r; intros f' m Hf' Hm'; by eapply Hmono, Hj].
    pose proof (may_answer_js_value _ _ _ _ Hg Hc Hm) as Hjs. intros f' m' Hf' Hm'.
    assert (line_text (record_text f data)) as Hl by (eapply record_line_text; [by destruct Hg as (? & ? & ?)|exact Hf|done]).
    rewrite fold_journal_snoc in Hf' by (apply Forall_app; split; [by eapply explains_lines|by constructor]). apply bind_Ok in Hf' as (f0 & Hf0 & Hf').
    assert (f0 = f) as -> by congruence.
    apply record_read in Hf' as [Hd _]; [|eapply fold_tip_units; [by destruct Hg as (? & ? & ?)|exact Hf]|done|by eapply may_answer_object].
    destruct (fold_calls_snoc _ _ _ _ Hd Hm') as (m & s & s' & Hacc & Hfc).
    assert (fold_calls f = Ok m) as Hfm by (apply fold_calls_acc; eauto). eapply Hstep; eauto. }
  intros calls ls. induction 1 as [|calls ls c a ls' He IH Hc Ha|calls ls c o ls' He IH Hc _ [->|(a & Ha)]].
  - intros f m [= <-] [= <-]. done.
  - by eapply Hcall.
  - intros f m Hf Hm. by eapply Hmono, IH.
  - by eapply Hcall.
Qed.

(** The record of a call, as it is read back. *)
Lemma answered_settles c f data a m s m' s' : generation_texts -> call_ok c -> may_answer (W := W) c f (Some data) a -> js_value data ->
  fold_call attest_key epoch runNonce (m, s) (dropped data) = Ok (m', s') ->
  (exists bind wU bU budget worst n e ts, c = call_reserve bind wU bU /\ usdToNano bU = Ok budget /\ usdToNano wU = Ok worst /\
    data = reserve_data bind n e ts /\ (0 < budget -> e = true /\ n = worst /\ forall m, fold_calls f = Ok m -> spendOf m + worst <= budget) /\ (e = true -> n = worst) /\
    call_get (get "callId" bind) m = None /\ m' = m ++ [(get "callId" bind, new_call n e (dropped bind))]) \/
  (exists bind attest n r egress ts cur cur', data = settle_data bind attest n r egress ts /\
    call_get (get "callId" bind) m = Some cur /\ cur.(rv_settled) = false /\ bindingMismatch cur.(rv_bind) (dropped bind) = Ok false /\
    settled_call attest_key epoch runNonce cur (dropped data) = Ok cur' /\ m' = call_set (get "callId" bind) cur' m /\
    validateBinding bind = Ok tt /\
    ((attest = JUndefined /\ r = false) \/
     (exists d usd, c = call_attestAndSettle bind d usd /\ mintable (W := W) bind d.(kd_scope) /\ parseNano (JString usd) = Ok n /\ r = true /\
        exists tag ts', attest = sealed_attest (accounted_payload bind d n ts') tag /\ verifyAttestation attest_key attest = Ok tt) \/
     (exists d limit, c = call_attestFallback bind d limit /\ mintable (W := W) bind d.(kd_scope) /\ r = false /\
        exists tag ts', attest = sealed_attest (fallback_payload bind d limit ts') tag /\ verifyAttestation attest_key attest = Ok tt))).
Proof.
  intros Hg Hc Hm Hd Hf.
  assert (forall bind, validateBinding bind = Ok tt -> dropped (get "callId" bind) = get "callId" bind) as Hid
    by (intros b (t & ->)%binding_texts; done).
  assert (forall bind attest n r egress ts, validateBinding bind = Ok tt -> data = settle_data bind attest n r egress ts -> exists cur cur',
    call_get (get "callId" bind) m = Some cur /\ cur.(rv_settled) = false /\ bindingMismatch cur.(rv_bind) (dropped bind) = Ok false /\
    settled_call attest_key epoch runNonce cur (dropped data) = Ok cur' /\ m' = call_set (get "callId" bind) cur' m) as Hset.
  { intros bind attest n r egress ts Hv ->. destruct (settle_fields _ _ _ _ _ _ Hd) as (Ht & Hci & _ & _ & Hb & _).
    destruct (fold_call_settle _ _ _ _ _ Ht Hf) as (cur & cur' & H1 & H2 & H3 & H4 & H5). rewrite Hci, Hid in *|-* by done. rewrite Hb in H3. by exists cur, cur'. }
  destruct c as [bind wU bU|bind egress|bind dr usd|bind dr limit| |bU| |callId|callId|callId|callId]; cbn [may_answer call_ok] in *;
    try by destruct Hm as [[=] _].
  - left. destruct Hm as (budget & worst & ts & b & Hts & Hv & Hbu & Hwu & E & _). pose proof (usdToNano_bounds _ _ Hwu) as Hw.
    assert (exists n e, data = reserve_data bind n e ts /\ 0 <= n <= MAX_NANO /\
      (0 < budget -> e = true /\ n = worst /\ forall m, fold_calls f = Ok m -> spendOf m + worst <= budget) /\ (e = true -> n = worst)) as (n & e & -> & Hn & He & He').
    { unfold reserve_decision in E. apply bind_Ok in E as (m0 & Hm0 & E). apply bind_Ok in E as (_ & _ & E). apply bind_Ok in E as (_ & _ & E).
      destruct (Z.ltb_spec 0 budget) as [Hb|Hb]; cbn [negb] in E.
      - destruct (Z.ltb_spec budget (spendOf m0 + worst)) as [Hlt|Hge]; [done|]. injection E as <- _. exists worst, true. split; [done|]. split; [done|]. split; [|done].
        intros _. split; [done|]. split; [done|]. intros m1 Hm1. rewrite Hm0 in Hm1. injection Hm1 as <-. lia.
      - injection E as <- _. exists 0, false. split; [done|]. split; [unfold MAX_NANO, NANO_PER_USD; lia|]. split; [lia|done]. }
    destruct (reserve_fields _ _ _ _ Hd) as (Ht & Hci & Hwc & Hen & Hb). destruct (fold_call_reserve _ _ _ _ _ Ht Hf) as (k & Hk & Hno & ->).
    rewrite Hci, Hid in * by done. rewrite Hwc, parseNano_formatNano in Hk by done. injection Hk as <-. rewrite Hen, Hb. cbn [is_true].
    exists bind, wU, bU, budget, worst, n, e, ts. by split_and!.
  - right. destruct Hm as (ts & _ & Hv & E & _). pose proof (settle_decision_data _ _ _ _ _ _ _ _ _ E) as ->.
    destruct (Hset _ _ _ _ _ _ Hv eq_refl) as (cur & cur' & H1 & H2 & H3 & H4 & H5).
    exists bind, JUndefined, 0, false, egress, ts, cur, cur'. split_and!; auto.
  - right. destruct Hm as (n & ts & _ & Hmi & _ & Hn & (tag & ts' & _ & _ & Hver & E) & _). pose proof (settle_decision_data _ _ _ _ _ _ _ _ _ E) as ->.
    destruct (Hset _ _ _ _ _ _ (proj1 Hmi) eq_refl) as (cur & cur' & H1 & H2 & H3 & H4 & H5).
    exists bind, (sealed_attest (accounted_payload bind dr n ts) tag), n, true, (kd_egress dr), ts', cur, cur'. split_and!; auto; [apply Hmi|].
    right. left. exists dr, usd. split_and!; auto. eauto.
  - right. destruct Hm as (ts & _ & Hmi & _ & (tag & ts' & _ & _ & Hver & E) & _). pose proof (settle_decision_data _ _ _ _ _ _ _ _ _ E) as ->.
    destruct (Hset _ _ _ _ _ _ (proj1 Hmi) eq_refl) as (cur & cur' & H1 & H2 & H3 & H4 & H5).
    exists bind, (sealed_attest (fallback_payload bind dr limit ts) tag), 0, false, JUndefined, ts', cur, cur'. split_and!; auto; [apply Hmi|].
    right. right. exists dr, limit. split_and!; auto. eauto.
Qed.

Definition budgets_are (B : Z) (calls : list (LedgerCall * LedgerOutcome LedgerAnswer)) : Prop :=
  forall bind worst budget o, (call_reserve bind worst budget, o) ∈ calls -> usdToNano budget = Ok B.

Lemma within_history B calls ls : generation_texts -> 0 < B -> budgets_are B calls -> explains (W := W) calls ls -> at_journal (within B) ls.
Proof.
  intros Hg HB Hall He.
  assert (at_journal (fun m => budgets_are B calls -> within B m) ls) as H; [|intros f m Hf Hm; by eapply H].
  revert He. clear Hall. revert calls ls. apply (explains_accounts (fun calls m => budgets_are B calls -> within B m)); [done|..].
  - intros _. split; [constructor|]. left. cbn. lia.
  - intros calls x m IH Hb. apply IH. intros bind worst budget o Hin. eapply Hb, elem_of_app. by left; eauto.
  - intros calls c o f data a m s m' s' Hc Hm Hd Hfm IH Hf Hb.
    assert (within B m) as Hw by (apply IH; intros bind worst budget o' Hin; eapply Hb, elem_of_app; by left; eauto).
    destruct (answered_settles _ _ _ _ _ _ _ _ Hg Hc Hm Hd Hf) as
      [(bind & wU & bU & budget & worst & n & e & ts & -> & Hbu & _ & _ & He & _ & _ & ->)|(bind & attest & n & r & egress & ts & cur & cur' & _ & H1 & H2 & _ & H4 & -> & _)].
    + assert (budget = B) as ->.
      { specialize (Hb bind wU bU o). rewrite Hbu in Hb. injection (Hb ltac:(apply elem_of_app; right; by left)) as ->. done. }
      destruct (He HB) as (-> & -> & Hsp). apply within_reserve; [done|]. by apply Hsp.
    + by eapply within_settle.
Qed.

(** ** Authority *)

(** Where an account and the authority of its settlement come from: a
    reservation, and a mint for the binding it was reserved with. An account is
    over only when a minted cost is above the worst case that was reserved. *)
Record minted (calls : list (LedgerCall * LedgerOutcome LedgerAnswer)) (callId : json) (r : Reservation) : Prop := {
  mi_reserved : exists bind worst budget o, (call_reserve bind worst budget, o) ∈ calls /\ get "callId" bind = callId /\ r.(rv_bind) = dropped bind /\
    (r.(rv_enforced) = true -> usdToNano worst = Ok r.(rv_worstCase));
  mi_trusted n : r.(rv_trustedUsd) = Some n -> exists bind d usd o, (call_attestAndSettle bind d usd, o) ∈ calls /\ get "callId" bind = callId /\
    parseNano (JString usd) = Ok n /\ mintable (W := W) bind d.(kd_scope) /\ bindingMismatch r.(rv_bind) (dropped bind) = Ok false;
  mi_fallback : r.(rv_fallbackAuthorized) = true -> exists bind d limit o, (call_attestFallback bind d limit, o) ∈ calls /\ get "callId" bind = callId /\
    mintable (W := W) bind d.(kd_scope) /\ bindingMismatch r.(rv_bind) (dropped bind) = Ok false;
  mi_over : r.(rv_over) = true -> r.(rv_settled) = true /\ r.(rv_enforced) = true /\ exists n, r.(rv_trustedUsd) = Some n /\ r.(rv_worstCase) < n
}.

(** What a record that claims no authority, or another one, is trusted for. *)
Lemma unattested_authority d : get "attest" d = JUndefined ->
  costIsTrusted attest_key d epoch runNonce = false /\ authorizesFallback attest_key d epoch runNonce = false.
Proof. intros E. unfold costIsTrusted, authorizesFallback, attests. rewrite E. cbn. by rewrite andb_false_r. Qed.

Lemma unreported_authority d : get "reported" d = JBoolean false -> costIsTrusted attest_key d epoch runNonce = false.
Proof. intros E. unfold costIsTrusted. by rewrite E. Qed.

Lemma accounted_authority d payload tag : get "attest" d = dropped (sealed_attest payload tag) -> js_value (sealed_attest payload tag) ->
  get "kind" payload = jtext "accounted-terminal" -> authorizesFallback attest_key d epoch runNonce = false.
Proof.
  intros E Hj Hk. unfold authorizesFallback, attests. rewrite E, get_dropped by done. change (get "payload" (sealed_attest payload tag)) with payload.
  assert (js_value payload) as Hp by (change payload with (get "payload" (sealed_attest payload tag)); by apply get_js_value).
  rewrite get_dropped, Hk by done. change (kind_is "trusted-fallback" (dropped (jtext "accounted-terminal"))) with false. by rewrite andb_false_r.
Qed.

Lemma call_get_elem k m r : call_get k m = Some r -> (k, r) ∈ m.
Proof. intros (m1 & k' & m2 & -> & ->%same_value_spec & _)%call_get_split. apply elem_of_app. right. by left. Qed.

Lemma call_set_elem k r' m r k1 r1 : call_get k m = Some r -> (k1, r1) ∈ call_set k r' m -> (k1, r1) ∈ m \/ k1 = k /\ r1 = r'.
Proof.
  intros (m1 & k' & m2 & -> & ->%same_value_spec & Hs)%call_get_split. rewrite Hs, !elem_of_app, !elem_of_cons.
  intros [H|[[= -> ->]|H]]; [by left; left|by right|left; right; by right].
Qed.

Lemma minted_mono calls x k r : minted calls k r -> minted (calls ++ [x]) k r.
Proof.
  assert (forall y, y ∈ calls -> y ∈ calls ++ [x]) as H by (intros y Hy; apply elem_of_app; by left).
  intros [(b & w & bu & o & Hin & Hr) H1 H2 H3]. constructor; [by exists b, w, bu, o; eauto|..|done].
  - intros n (bi & d & u & o' & Hi & Hu)%H1. exists bi, d, u, o'. eauto.
  - intros (bi & d & u & o' & Hi & Hu)%H2. exists bi, d, u, o'. eauto.
Qed.

Lemma settled_call_over cur d cur' : settled_call attest_key epoch runNonce cur d = Ok cur' -> cur.(rv_over) = false -> cur'.(rv_over) = true ->
  cur.(rv_enforced) = true /\ exists n, cur'.(rv_trustedUsd) = Some n /\ cur.(rv_worstCase) < n.
Proof.
  unfold settled_call. intros H. apply bind_Ok in H as (trusted & _ & H). injection H as <-. cbn. intros -> Ho. cbn in Ho. guards.
  destruct trusted as [n|]; [|done]. split; [done|]. exists n. split; [done|lia].
Qed.

Lemma attest_js_value bind attest n rep egress ts : js_value (settle_data bind attest n rep egress ts) -> js_value attest.
Proof.
  intros H. assert (get "attest" (settle_data bind attest n rep egress ts) = attest) as <- by (unfold settle_data; destruct (truthy_value egress); reflexivity). by apply get_js_value.
Qed.

(** The account of a call that a record has settled. *)
Lemma minted_settled calls c o m bind attest n rep egress ts cur cur' :
  (forall k r, (k, r) ∈ m -> minted calls k r) -> call_get (get "callId" bind) m = Some cur -> cur.(rv_settled) = false ->
  bindingMismatch cur.(rv_bind) (dropped bind) = Ok false -> js_value (settle_data bind attest n rep egress ts) ->
  settled_call attest_key epoch runNonce cur (dropped (settle_data bind attest n rep egress ts)) = Ok cur' ->
  ((attest = JUndefined /\ rep = false) \/
     (exists d usd, c = call_attestAndSettle bind d usd /\ mintable (W := W) bind d.(kd_scope) /\ parseNano (JString usd) = Ok n /\ rep = true /\
        exists tag ts', attest = sealed_attest (accounted_payload bind d n ts') tag /\ verifyAttestation attest_key attest = Ok tt) \/
     (exists d limit, c = call_attestFallback bind d limit /\ mintable (W := W) bind d.(kd_scope) /\ rep = false /\
        exists tag ts', attest = sealed_attest (fallback_payload bind d limit ts') tag /\ verifyAttestation attest_key attest = Ok tt)) ->
  minted (calls ++ [(c, o)]) (get "callId" bind) cur'.
Proof.
  intros IH Hcur Hns Hmis Hd Hcall Hfrom. pose proof (attest_js_value _ _ _ _ _ _ Hd) as Hja.
  pose proof (IH _ _ (call_get_elem _ _ _ Hcur)) as Hmi0. destruct (settle_fields _ _ _ _ _ _ Hd) as (_ & _ & Husd & Hrep & _ & Hat).
  pose proof (settled_call_over _ _ _ Hcall) as Hov. pose proof (settled_call_spec _ _ _ Hcall) as (Hw & Hen & Hset & Hb & Hfa & Htr & _ & _).
  assert ((c, o) ∈ calls ++ [(c, o)]) as Hlast by (apply elem_of_app; right; by left).
  constructor; rewrite ?Hb, ?Hw, ?Hen, ?Hset.
  - apply (mi_reserved _ _ _ (minted_mono _ (c, o) _ _ Hmi0)).
  - intros n' [Hc' Hp]%Htr. destruct Hfrom as [[-> ->]|[(d & usd & -> & Hmi & Hn & -> & tag & ts' & -> & _)|(d & limit & -> & _ & -> & _)]].
    + rewrite unreported_authority in Hc' by done. discriminate Hc'.
    + rewrite Husd, parseNano_formatNano in Hp by (by eapply parseNano_bounds). injection Hp as <-. exists bind, d, usd, o. by split_and!.
    + rewrite unreported_authority in Hc' by done. discriminate Hc'.
  - rewrite Hfa. intros Hf'. destruct Hfrom as [[-> ->]|[(d & usd & -> & Hmi & Hn & -> & tag & ts' & -> & _)|(d & limit & -> & Hmi & -> & _)]].
    + destruct (unattested_authority _ Hat) as [_ E]. rewrite E in Hf'. discriminate Hf'.
    + rewrite (accounted_authority _ _ _ Hat Hja) in Hf' by reflexivity. discriminate Hf'.
    + exists bind, d, limit, o. by split_and!.
  - intros Ho. split; [done|]. apply Hov; [|done]. destruct (rv_over cur) eqn:E; [|done]. destruct (mi_over _ _ _ Hmi0 E). congruence.
Qed.

Lemma minted_history calls ls : generation_texts -> explains (W := W) calls ls ->
  at_journal (fun m => forall k r, (k, r) ∈ m -> minted calls k r) ls.
Proof.
  intros Hg. revert calls ls. apply (explains_accounts (fun calls m => forall k r, (k, r) ∈ m -> minted calls k r)).
  { done. } { by intros k r Hk%elem_of_nil. }
  { intros calls x m IH k r Hk. apply minted_mono. by apply IH. }
  intros calls c o f data a m s m' s' Hc Hm Hd Hfm IH Hf k r Hk.
  destruct (answered_settles _ _ _ _ _ _ _ _ Hg Hc Hm Hd Hf) as
    [(bind & wU & bU & budget & worst & n & e & ts & -> & _ & Hw & _ & _ & He & _ & ->)|(bind & attest & n & rep & egress & ts & cur & cur' & -> & H1 & H2 & H3 & H4 & -> & _ & Hfrom)].
  - apply elem_of_app in Hk as [Hk|Hk]; [by apply minted_mono, IH|]. apply list_elem_of_singleton in Hk as [= -> ->].
    constructor; [|by intros n' [=]|by intros [=]|by intros [=]]. exists bind, wU, bU, o. split; [apply elem_of_app; right; by left|].
    split; [done|]. split; [done|]. cbn. intros ->. by rewrite Hw, (He eq_refl).
  - apply (call_set_elem _ _ _ _ _ _ H1) in Hk as [Hk|[-> ->]]; [by apply minted_mono, IH|]. by eapply minted_settled.
Qed.
End along.
