(* ===== verification/LedgerQuiet.v ===== *)
(** LedgerQuiet: the ledger on a host where nothing fails: its operations return
    what they decide on the journal's records, and what they append is read back. *)
From S2P Require Import Prelude Text Json Ids ScmTypes ControlEvents EventSchema EventCode JsonText Money Stringify Attest LedgerRecords Ledger LedgerLog LedgerFacts LedgerAccounts.

#[local] Open Scope Z_scope.

(** The worlds of a host in which nothing fails; a write may be short. *)
Class QuietLedger {W} `{!LedgerHost W} (quiet : W -> Prop) : Prop := {
  quiet_ledger_step s h : quiet h -> exists h', host_step s h = (h', goes_on) /\ quiet h';
  quiet_ledger_write n h : quiet h -> exists h' k, host_write n h = (h', (k, goes_on)) /\ (0 < n -> 0 < k)%nat /\ quiet h';
  quiet_ledger_now h : quiet h -> quiet (host_now h).1;
  quiet_ledger_alive r h : quiet h -> quiet (host_scopeAlive r h).1
}.

Section quiet.
Context {W : Type} `{LH : !LedgerHost W} `{HT : !HostTexts W} (quiet : W -> Prop) `{HQ : !QuietLedger quiet}.
Local Abbreviation io := (io W).

(** A handle that is open and not poisoned, on a quiet host. *)
Definition calm (w : LedgerWorld W) : Prop := quiet w.(lw_host) /\ w.(lw_poison) = None /\ w.(lw_closed) = false.

(** [c], run on the files [d] by such a handle, ends as [Q] says. *)
Definition quietly {A} (c : io A) (d : Disk) (Q : Disk -> LedgerOutcome A -> Prop) : Prop :=
  forall w, calm w -> disk_of w = d -> calm (c w).1 /\ Q (disk_of (c w).1) (c w).2.

Lemma quietly_bind {A B} (c : io A) (k : A -> io B) d a (Q : Disk -> LedgerOutcome B -> Prop) d1 :
  quietly c d (fun d' o => d' = d1 /\ o = Returned a) -> quietly (k a) d1 Q -> quietly (c ≫= k) d Q.
Proof.
  intros Hc Hk w Hw Hd. destruct (Hc w Hw Hd) as (Hw1 & Hd1 & Ho). unfold mbind, io_bind.
  destruct (c w) as [w1 o]. cbn in *. subst o. by apply Hk.
Qed.

Lemma quietly_assoc {A B C} (c : io A) (k : A -> io B) (k' : B -> io C) d Q : quietly (c ≫= fun a => k a ≫= k') d Q -> quietly ((c ≫= k) ≫= k') d Q.
Proof. intros H w Hw Hd. specialize (H w Hw Hd). unfold mbind, io_bind in *. by destruct (c w) as [w1 [a|e|]]. Qed.

Lemma quietly_ret {A} (a : A) d (Q : Disk -> LedgerOutcome A -> Prop) : Q d (Returned a) -> quietly (mret a : io A) d Q.
Proof. intros H w Hw <-. by split. Qed.

Lemma quietly_effect s which f d : quietly (effect_step s which f : io unit) d (fun d' o => d' = put_disk which (f (on_disk which d)) d /\ o = Returned tt).
Proof.
  intros w (Hq & Hp & Hc) Hd. unfold effect_step. destruct (quiet_ledger_step s _ Hq) as (h & -> & Hq'). cbn.
  split; [destruct which; by split_and!|]. split; [|done]. subst d. by destruct which.
Qed.

Lemma quietly_effect_then {B} s which f (k : unit -> io B) d Q : quietly (k tt) (put_disk which (f (on_disk which d)) d) Q -> quietly (effect_step s which f ≫= k) d Q.
Proof. eapply quietly_bind, quietly_effect. Qed.

Lemma quietly_check_then {B} s (k : unit -> io B) d Q : quietly (k tt) d Q -> quietly (check_step s ≫= k) d Q.
Proof. intros H. eapply quietly_effect_then. unfold id. by rewrite put_disk_same. Qed.

Lemma quietly_check s d : quietly (check_step s : io unit) d (fun d' o => d' = d /\ o = Returned tt).
Proof. pose proof (quietly_effect s the_leaf id d) as H. unfold id in H. by rewrite put_disk_same in H. Qed.

Lemma quietly_now_then {B} (k : text -> io B) d Q :
  (forall ts, time_of ts -> (exists q, quiet q /\ ts = (host_now q).2) -> quietly (k ts) d Q) -> quietly (ledger_now ≫= k) d Q.
Proof.
  intros H w Hw Hd. unfold mbind, io_bind, ledger_now. destruct Hw as (Hq & Hp & Hc). pose proof (quiet_ledger_now _ Hq) as Hq'.
  destruct (host_now (lw_host w)) as [h ts] eqn:E. apply H; [by eapply time_text| |by split_and!|done]. exists (lw_host w). by rewrite E.
Qed.

Lemma quietly_lift_then {A B} (r : result LedgerError A) a (k : A -> io B) d Q : r = Ok a -> quietly (k a) d Q -> quietly (lift r ≫= k) d Q.
Proof. intros -> H. eapply quietly_bind; [|exact H]. apply quietly_ret. by split. Qed.

Lemma quietly_fail_then {A B} (r : result LedgerError A) e (k : A -> io B) d (Q : Disk -> LedgerOutcome B -> Prop) : r = Err e -> Q d (Thrown e) -> quietly (lift r ≫= k) d Q.
Proof. intros -> H w Hw <-. by split. Qed.

Lemma quietly_lift {A} (r : result LedgerError A) d (Q : Disk -> LedgerOutcome A -> Prop) :
  Q d (match r with Ok a => Returned a | Err e => Thrown e end) -> quietly (lift r : io A) d Q.
Proof. intros H w Hw <-. destruct r; by split. Qed.

Lemma quietly_require_then {B} (b : bool) e (k : unit -> io B) d Q : b = true -> quietly (k tt) d Q -> quietly (require b e ≫= k) d Q.
Proof. intros -> H. eapply quietly_bind; [|exact H]. apply quietly_ret. by split. Qed.

Lemma quietly_inspect {A} which (f : list Z -> result LedgerError A) a d : f (on_disk which d).(fl_content) = Ok a ->
  quietly (inspect which f : io A) d (fun d' o => d' = d /\ o = Returned a).
Proof. intros H w Hw <-. unfold inspect. assert (file which w = on_disk which (disk_of w)) as -> by by destruct which. rewrite H. by split. Qed.

Lemma quietly_size_then {B} which (k : Z -> io B) d Q : quietly (k (Z.of_nat (length (on_disk which d).(fl_content)))) d Q -> quietly (size_of which ≫= k) d Q.
Proof. eapply quietly_bind. by apply quietly_inspect. Qed.

Lemma quietly_readAll_then {B} which max (k : text -> io B) d Q : Z.of_nat (length (on_disk which d).(fl_content)) <= max ->
  quietly (k (utf8_decode (on_disk which d).(fl_content))) d Q -> quietly (readAll which max ≫= k) d Q.
Proof.
  intros Hm Hk. eapply quietly_bind; [|exact Hk]. unfold readAll. apply quietly_check_then. apply quietly_inspect. rewrite (proj2 (Z.leb_le _ _) Hm). done.
Qed.

Lemma quietly_read_back_then {B} which bs offset e (k : unit -> io B) d Q : take (length bs) (drop offset (on_disk which d).(fl_content)) = bs ->
  quietly (k tt) d Q -> quietly (read_back which bs offset e ≫= k) d Q.
Proof.
  intros Hb Hk. eapply quietly_bind; [|exact Hk]. unfold read_back. apply quietly_check_then. apply quietly_inspect. cbv zeta.
  rewrite Hb, Nat.leb_refl. cbn. by rewrite bool_decide_eq_true_2.
Qed.

Lemma quietly_write_step which bs offset d : bs <> [] -> file_wf (on_disk which d) -> (length (on_disk which d).(fl_content) <= offset)%nat -> forall w, calm w -> disk_of w = d ->
  exists n, (0 < n <= length bs)%nat /\ (write_step which bs offset w).2 = Returned n /\ calm (write_step which bs offset w).1 /\
    disk_of (write_step which bs offset w).1 = put_disk which (grown (on_disk which d) offset (take n bs)) d.
Proof.
  intros Hne Hwf Hoff w (Hq & Hp & Hc) Hd. unfold write_step. destruct (quiet_ledger_write (length bs) _ Hq) as (h & n & -> & Hn & Hq').
  assert (file which (set_host h w) = on_disk which d) as -> by (subst d; by destruct which). rewrite write_at_grown by done. cbn -[take].
  assert (take (length (take n bs)) bs = take n bs) as Et.
  { rewrite length_take. destruct (decide (n <= length bs)%nat); [by rewrite Nat.min_l|]. rewrite Nat.min_r, firstn_all by lia. by rewrite take_ge by lia. }
  exists (length (take n bs)). rewrite Et. split; [rewrite length_take; assert (0 < length bs)%nat by (destruct bs; [done|cbn; lia]); specialize (Hn ltac:(done)); lia|].
  split; [done|]. split; [destruct which; by split_and!|]. subst d. by destruct which.
Qed.

Lemma quietly_pwriteAll which bs offset d : file_wf (on_disk which d) -> (length (on_disk which d).(fl_content) <= offset)%nat ->
  quietly (pwriteAll which bs offset : io unit) d (fun d' o => d' = put_disk which (grown (on_disk which d) offset bs) d /\ o = Returned tt).
Proof.
  intros Hwf Hoff w Hw Hd. pose proof (does_pwriteAll which bs offset d Hwf Hoff w Hd) as (_ & n & _ & Hd' & Hn).
  enough (calm (pwriteAll which bs offset w).1 /\ (pwriteAll which bs offset w).2 = Returned tt) as [Hc Ho].
  { split; [done|]. split; [|done]. rewrite Hd', (Hn ltac:(by rewrite Ho)). by rewrite firstn_all. }
  clear n Hd' Hn.
  enough (forall fuel bs offset d w, file_wf (on_disk which d) -> (length (on_disk which d).(fl_content) <= offset)%nat -> calm w -> disk_of w = d -> (length bs <= fuel)%nat ->
    calm (pwriteAll_from fuel which bs offset w).1 /\ (pwriteAll_from fuel which bs offset w).2 = Returned tt) as H by (by apply (H (length bs) bs offset d)).
  clear -HQ. induction fuel as [|fuel IH]; intros bs offset d w Hwf Hoff Hw Hd Hf; (destruct bs as [|b bs]; [by split|]); [cbn in Hf; lia|].
  destruct (quietly_write_step which (b :: bs) offset d ltac:(done) Hwf Hoff w Hw Hd) as (n & Hn & Ho & Hcw & Hdw). cbn [pwriteAll_from]. unfold mbind, io_bind.
  destruct (write_step which (b :: bs) offset w) as [w1 o]. cbn [fst snd] in *. subst o. rewrite (proj2 (Nat.leb_gt n 0)) by lia.
  assert (take n (b :: bs) <> []) as Hne by (intros E; apply (f_equal length) in E; rewrite length_take in E; cbn in E, Hn; lia).
  eapply IH; [..|exact Hcw|exact Hdw|].
  - rewrite on_put_disk. by apply grown_wf.
  - rewrite on_put_disk, length_grown by done. rewrite length_take. lia.
  - rewrite length_drop. cbn [length] in *. lia.
Qed.

(** ** The write-ahead log *)

Lemma quietly_walAppend rs st r d : d.(dk_wal) = file_of (wal_bytes rs) -> Forall wal_ok rs -> wal_states rs = Ok st -> wal_ok r ->
  Z.of_nat (length (wal_bytes rs)) <= MAX_WAL_BYTES ->
  quietly (walAppend r : io unit) d (fun d' o => d' = put_disk the_wal (file_of (wal_bytes (rs ++ [r]))) d /\ o = Returned tt).
Proof.
  intros Hd Hrs Hst Hr Hm. unfold walAppend. do 2 apply quietly_check_then. apply quietly_size_then, quietly_readAll_then; cbn [on_disk]; rewrite Hd; [done|].
  cbn [file_of fl_content]. eapply quietly_lift_then; [by apply foldWal_complete|]. cbn [wal_state_of ws_durableBytes]. rewrite Z.ltb_irrefl, Nat2Z.id.
  eapply quietly_bind; [apply quietly_ret; by split|]. fold (line_bytes r).
  eapply quietly_bind; [apply quietly_pwriteAll; cbn [on_disk]; rewrite Hd; [apply file_of_wf|done]|].
  cbn [on_disk]. rewrite Hd. apply quietly_effect_then. intros w Hw Hdw. destruct (quietly_check step_close _ w Hw Hdw) as (Hc & Hd' & Ho). split; [done|]. split; [|done].
  rewrite Hd', put_put_disk, on_put_disk. f_equal. unfold sync. f_equal. rewrite line_bytes_one, wal_bytes_app by (done || by constructor).
  pose proof (line_bytes_nonempty r Hr) as Hne. rewrite line_bytes_one in Hne. destruct (wal_bytes [r]) as [|b bs]; [done|]. cbn [grown file_of fl_content]. by rewrite Nat.sub_diag.
Qed.

(** The files of a ledger whose last call has ended: the lines of the journal,
    and a log of complete records without an open intent. *)
Definition at_rest (ls : list text) (d : Disk) : Prop :=
  Forall line_text ls /\ d.(dk_leaf) = file_of (journal_bytes ls) /\
  exists rs, Forall wal_ok rs /\ wal_states rs = Ok (None, None) /\ d.(dk_wal) = file_of (wal_bytes rs).

(** They can be read whole. *)
Definition readable (d : Disk) : Prop :=
  Z.of_nat (length d.(dk_leaf).(fl_content)) <= MAX_LEDGER_BYTES /\ Z.of_nat (length d.(dk_wal).(fl_content)) <= MAX_WAL_BYTES.

Section reading.
Context `{DG : Digest} `{HM : Hmac} `{GN : Generation}.

Lemma quietly_read_folded ls d (Q : Disk -> LedgerOutcome Folded -> Prop) : at_rest ls d -> readable d ->
  Q d (match fold_journal (unlines ls) with Ok f => Returned f | Err e => Thrown e end) -> quietly (read_folded : io Folded) d Q.
Proof.
  intros (Hls & Hleaf & rs & Hrs & Hst & Hwal) [Hm1 Hm2] HQ'. unfold read_folded.
  eapply (quietly_bind _ _ _ (wal_state_of (Z.of_nat (length (wal_bytes rs))) (None, None))).
  { unfold readWal. do 2 apply quietly_check_then. apply quietly_readAll_then; [exact Hm2|]. cbn [on_disk]. rewrite Hwal. cbn [file_of fl_content].
    eapply quietly_lift_then; [by apply (foldWal_complete rs (None, None))|]. apply quietly_check_then, quietly_ret. by split. }
  eapply quietly_bind.
  { unfold refuse_unproven. cbn [wal_state_of ws_poison ws_pending]. eapply quietly_bind; [apply quietly_ret; by split|]. apply quietly_ret. by split. }
  apply quietly_readAll_then; [exact Hm1|]. cbn [on_disk]. rewrite Hleaf. cbn [file_of fl_content]. unfold journal_bytes.
  rewrite decode_text by by apply well_formed_unlines. apply quietly_lift. done.
Qed.

Lemma quietly_usable_then {B} (k : unit -> io B) d Q : quietly (k tt) d Q -> quietly (assertUsable ≫= k) d Q.
Proof. intros H. eapply quietly_bind; [|exact H]. intros w Hw Hd. pose proof Hw as (_ & Hp & Hc). unfold assertUsable. rewrite Hp, Hc. by split. Qed.

(** A read returns what it says of the journal, and changes nothing. *)
Lemma quietly_read {A} (fn : Folded -> result LedgerError A) ls f d : at_rest ls d -> readable d -> fold_journal (unlines ls) = Ok f ->
  quietly (read fn : io A) d (fun d' o => d' = d /\ o = match fn f with Ok a => Returned a | Err e => Thrown e end).
Proof.
  intros Hr Hm Hf. unfold read. apply quietly_usable_then. do 3 apply quietly_check_then.
  eapply quietly_bind; [eapply quietly_read_folded; [done..|]; by rewrite Hf|]. by apply quietly_lift.
Qed.

(** ** Publishing *)

Lemma quietly_publish ls l f h d rs q : Forall line_text ls -> line_text l -> f.(fd_durableBytes) = Z.of_nat (length (journal_bytes ls)) ->
  d.(dk_leaf) = file_of (journal_bytes ls) -> d.(dk_wal) = file_of (wal_bytes rs) -> Forall wal_ok rs -> wal_states rs = Ok (Some (JNumber (Some f.(fd_seq)), JString h), q) ->
  js_units h -> Z.of_nat (length (wal_bytes rs)) <= MAX_WAL_BYTES ->
  quietly (publish_record f (utf8_encode (l ++ [10])) h : io unit) d (fun d' o => o = Returned tt /\ d'.(dk_leaf) = file_of (journal_bytes (ls ++ [l])) /\
    exists ts, wal_ok (wal_commit f.(fd_seq) h ts) /\ d'.(dk_wal) = file_of (wal_bytes (rs ++ [wal_commit f.(fd_seq) h ts]))).
Proof.
  intros Hls Hl Hf Hd Hw Hrs Hst Hh Hm. unfold publish_record. rewrite Hf, Nat2Z.id. set (line := utf8_encode (l ++ [10])).
  assert (line <> []) as Hline by (intros E; pose proof (encode_line l Hl) as El; fold line in El; rewrite E in El; cbn in El; pose proof (utf8_length_nonneg l); lia).
  apply quietly_check_then, quietly_size_then. cbn [on_disk]. rewrite Hd. cbn [file_of fl_content]. rewrite Z.ltb_irrefl. eapply quietly_bind; [apply quietly_ret; by split|].
  eapply quietly_bind; [apply quietly_pwriteAll; cbn [on_disk]; rewrite Hd; [apply file_of_wf|done]|].
  apply quietly_effect_then. rewrite on_put_disk, put_put_disk.
  assert (sync (grown (on_disk the_leaf d) (length (journal_bytes ls)) line) = file_of (journal_bytes (ls ++ [l]))) as ->.
  { unfold sync. f_equal. cbn [on_disk]. rewrite Hd, journal_bytes_snoc by done. fold line. destruct line as [|b bs]; [done|].
    cbn [grown file_of fl_content]. by rewrite Nat.sub_diag. }
  assert (length (journal_bytes (ls ++ [l])) = length (journal_bytes ls) + length line)%nat as Hlen by (rewrite journal_bytes_snoc by done; by rewrite length_app).
  assert (take (length line) (drop (length (journal_bytes ls)) (journal_bytes (ls ++ [l]))) = line) as Hback.
  { rewrite journal_bytes_snoc by done. fold line. rewrite drop_app_length. apply firstn_all. }
  apply quietly_check_then, quietly_size_then. cbn [on_disk put_disk dk_leaf file_of fl_content]. rewrite Hlen.
  apply quietly_require_then; [apply Z.eqb_eq; lia|]. apply quietly_read_back_then; [exact Hback|]. apply quietly_check_then.
  eapply quietly_bind.
  { unfold assertPublished. do 3 apply quietly_check_then. apply quietly_size_then. cbn [on_disk put_disk dk_leaf file_of fl_content]. rewrite Hlen.
    apply quietly_require_then; [apply Z.leb_le; lia|]. apply quietly_read_back_then; [exact Hback|]. apply quietly_check. }
  apply quietly_now_then. intros ts [Hts _] _. assert (wal_ok (wal_commit f.(fd_seq) h ts)) as Hok by by split.
  intros w Hcw Hdw. assert (dk_wal (disk_of w) = file_of (wal_bytes rs)) as E by by rewrite Hdw.
  destruct (quietly_walAppend rs _ (wal_commit f.(fd_seq) h ts) (disk_of w) E Hrs Hst Hok Hm w Hcw eq_refl) as (Hc & Hd' & Ho).
  split; [done|]. rewrite Hd', Hdw. split; [done|]. split; [done|]. by exists ts.
Qed.

(** There is room in the log for one more intent. *)
Definition roomy (d : Disk) (f : Folded) : Prop :=
  forall h ts, (exists t, h = text_of_string (sha256Text t)) -> (exists q, quiet q /\ ts = (host_now q).2) ->
  Z.of_nat (length d.(dk_wal).(fl_content) + length (line_bytes (wal_intent f.(fd_seq) f.(fd_durableBytes) h ts))) <= MAX_WAL_BYTES.

(** ** A transaction *)

Lemma quietly_txn {A} (decide : Folded -> text -> result LedgerError (option json * A)) ls f d (Q : Disk -> LedgerOutcome A -> Prop) :
  js_units genesis -> at_rest ls d -> readable d -> fold_journal (unlines ls) = Ok f -> roomy d f ->
  (forall ts, time_of ts -> is_ok (decide f ts) = is_ok (decide f [])) ->
  (forall e, decide f [] = Err e -> Q d (Thrown e)) ->
  (forall ts a, time_of ts -> decide f ts = Ok (None, a) -> Q d (Returned a)) ->
  (forall ts data a, time_of ts -> decide f ts = Ok (Some data, a) -> js_value data /\ forall d', at_rest (ls ++ [record_text f data]) d' -> Q d' (Returned a)) ->
  quietly (txn (fun f => lift (decide f []) ;; ts ← ledger_now; lift (decide f ts)) : io A) d Q.
Proof.
  intros Hg Hr Hm Hf Hroom Hsame He Hnone Hsome. unfold txn. apply quietly_usable_then. do 4 apply quietly_check_then.
  eapply quietly_bind; [eapply quietly_read_folded; [done..|]; by rewrite Hf|].
  apply quietly_assoc. destruct (decide f []) as [x|e] eqn:E0; [|eapply quietly_fail_then; [done|by apply He]].
  eapply quietly_lift_then; [done|]. apply quietly_assoc, quietly_now_then. intros ts Hts _. pose proof (Hsame ts Hts) as Hs. 
  destruct (decide f ts) as [[rec a]|e] eqn:E; [|discriminate Hs]. eapply quietly_lift_then; [done|]. cbv beta iota.
  destruct rec as [data|]; [|apply quietly_ret; by eapply Hnone]. cbv zeta. set (h := recordHash _ _ _).
  destruct (Hsome ts data a Hts E) as [Hjs HQd]. destruct Hr as (Hls & Hleaf & rs & Hrs & Hst & Hwal).
  assert (line_text (record_text f data)) as Hl by (eapply record_line_text; eauto). assert (js_units h) as Hh by apply js_units_string.
  apply quietly_now_then. intros ts' [Hts' _] Hq. assert (wal_ok (wal_intent f.(fd_seq) f.(fd_durableBytes) h ts')) as Hok by by split.
  eapply quietly_bind; [eapply (quietly_walAppend rs); [exact Hwal|done|exact Hst|exact Hok|]|].
  { destruct Hm as [_ Hm]. by rewrite Hwal in Hm. }
  set (rs1 := rs ++ [wal_intent _ _ _ _]). assert (Forall wal_ok rs1) as Hrs1 by (apply Forall_app; auto).
  assert (wal_states rs1 = Ok (Some (JNumber (Some f.(fd_seq)), JString h), None)) as Hst1 by (unfold rs1; rewrite (wal_states_snoc _ _ _ Hst); apply step_intent).
  intros w Hcw Hdw. unfold mbind, io_bind, or_poison.
  destruct (quietly_publish ls (record_text f data) f h (disk_of w) rs1 None) with (w := w) as (Hc & Ho & Hl' & tc & Hok' & Hw'); try done; try (by rewrite Hdw).
  { by apply fold_durable. }
  { specialize (Hroom h ts' ltac:(by eexists) Hq). rewrite Hwal in Hroom. cbn [file_of fl_content] in Hroom. rewrite line_bytes_one in Hroom.
    unfold rs1. rewrite wal_bytes_app by auto. by rewrite length_app. }
  unfold record_text in Ho, Hc, Hl', Hw'. unfold record_line. destruct (publish_record f _ h w) as [w1 o]. cbn in *. subst o. cbn. split; [done|]. apply HQd.
  split; [apply Forall_app; auto|]. split; [done|]. exists (rs1 ++ [wal_commit (fd_seq f) h tc]). split; [apply Forall_app; auto|]. split; [|done].
  by rewrite (wal_states_snoc _ _ _ Hst1), step_commit.
Qed.
End reading.
End quiet.

(** * What is appended is read back *)

Section read_back.
Context `{DG : Digest} `{HM : Hmac} `{GN : Generation}.

(** Digests and the root of the chain are not empty. *)
Definition chain_texts : Prop := genesis <> [] /\ forall t, sha256Text t <> ""%string.

Lemma recordHash_nonempty tip seq data : chain_texts -> recordHash tip seq data <> [].
Proof. intros [_ H]. unfold recordHash. specialize (H (tip ++ [124] ++ number_text seq ++ [124] ++ JSON_stringify data)). by destruct (sha256Text _). Qed.

Lemma fold_chain raw f : chain_texts -> js_units genesis -> fold_journal raw = Ok f -> f.(fd_tip) <> [] /\ js_units f.(fd_tip) /\ 0 <= f.(fd_seq).
Proof.
  intros Hc Hg. unfold fold_journal, foldContent. destruct (lines_of raw) as [ls torn].
  apply (fold_lines_ind _ (fun f => f.(fd_tip) <> [] /\ js_units f.(fd_tip) /\ 0 <= f.(fd_seq))).
  - intros a l a' (_ & _ & Hs) (rec & _ & _ & ->)%fold_record_Ok. cbn. split; [by apply recordHash_nonempty|]. split; [apply js_units_string|lia].
  - destruct Hc as [Hc _]. by split_and!.
Qed.

Lemma is_text_nonempty t : t <> [] -> is_text nonempty (JString t) = true.
Proof. intros H. cbn. unfold nonempty. by rewrite bool_decide_eq_false_2. Qed.

Lemma same_value_text t : same_value (JString t) (JString t) = true.
Proof. apply same_value_refl_text. Qed.

Lemma fold_appended f data : chain_texts -> f.(fd_tip) <> [] -> js_units f.(fd_tip) -> 0 <= f.(fd_seq) ->
  js_value data -> is_undefined data = false -> validateData (dropped data) epoch runNonce attest_key = Ok tt ->
  exists f', fold_record epoch runNonce attest_key f (record_text f data) = Ok f' /\ f'.(fd_datas) = f.(fd_datas) ++ [dropped data].
Proof.
  intros Hc Ht Hu Hs Hj Hun Hv. unfold fold_record, record_text.
  assert (js_value (journal_record f data)) as Hjs.
  { constructor; [apply (bool_decide_unpack _); vm_compute; exact I|].
    repeat (constructor; [split; [apply js_units_string|]|]); [constructor|by constructor|constructor; apply js_units_string|done|constructor]. }
  assert (blank (JSON_stringify (journal_record f data)) = false) as ->.
  { unfold journal_record. edestruct stringify_object as [t ->]. done. }
  cbn [negb ensure mbind result_bind]. rewrite JSON_parse_stringify by (done || by apply js_value_distinct).
  assert (get "data" (dropped (journal_record f data)) = dropped data) as Ed by by rewrite get_dropped.
  assert (get "prev" (dropped (journal_record f data)) = JString f.(fd_tip)) as Ep by by rewrite get_dropped.
  assert (get "seq" (dropped (journal_record f data)) = JNumber (Some f.(fd_seq))) as Es by by rewrite get_dropped.
  assert (get "hash" (dropped (journal_record f data)) = JString (recordHash f.(fd_tip) f.(fd_seq) data)) as Eh by by rewrite get_dropped.
  assert (recordHash f.(fd_tip) f.(fd_seq) (dropped data) = recordHash f.(fd_tip) f.(fd_seq) data) as Er by (unfold recordHash; by rewrite JSON_stringify_dropped).
  assert (validateRecordSchema (dropped (journal_record f data)) epoch runNonce attest_key = Ok tt) as ->.
  { unfold validateRecordSchema. rewrite Ed, Ep, Es, Eh, Hv, !is_text_nonempty by (done || by apply recordHash_nonempty).
    cbn [is_integer]. by rewrite (proj2 (Z.leb_le 0 _) Hs). }
  cbn [map_err mbind result_bind]. rewrite Ed, Ep, Es, Eh, Er, !same_value_text. cbn [same_value]. rewrite Z.eqb_refl. cbn [andb ensure mbind result_bind]. by eexists.
Qed.

(** The nonces spent are those of the reservations. *)
Lemma same_value_sym v w : same_value v w = same_value w v.
Proof.
  destruct v as [| |a|[n|]|s| |], w as [| |b|[m|]|t| |]; cbn; try done; [by destruct a, b|apply Z.eqb_sym|]. apply bool_decide_ext. naive_solver.
Qed.

Lemma spent_nonces datas m spent bind : fold_acc datas = Ok (m, spent) -> existsb (same_value (get "callNonce" bind)) spent = nonce_spent bind datas.
Proof.
  unfold fold_acc, nonce_spent. revert m spent; induction datas as [|d datas IH] using rev_ind; intros m spent; [by intros [= _ <-]|].
  rewrite fold_result_app, existsb_app. intros H. apply bind_Ok in H as ([m0 s0] & H0 & H). specialize (IH _ _ H0). cbn in H. apply bind_Ok in H as ([m1 s1] & Hc & [= -> ->]).
  rewrite <-IH. cbn [existsb]. rewrite orb_false_r. unfold fold_call in Hc. destruct (kind_is "reserve" (get "type" d)).
  - apply bind_Ok in Hc as (_ & _ & Hc). apply bind_Ok in Hc as (_ & _ & Hc). apply bind_Ok in Hc as (n & _ & [= _ <-]). cbn [existsb andb].
    by rewrite orb_comm, (same_value_sym (get "callNonce" bind)).
  - assert (spent = s0) as ->; [|by rewrite andb_false_l, orb_false_r]. destruct (call_get _ m0); [|discriminate Hc].
    do 4 (apply bind_Ok in Hc as (? & _ & Hc)). by injection Hc as _ <-.
Qed.

Lemma fold_calls_appended f f' d m spent m' spent' : fold_acc f.(fd_datas) = Ok (m, spent) -> f'.(fd_datas) = f.(fd_datas) ++ [d] ->
  fold_call attest_key epoch runNonce (m, spent) d = Ok (m', spent') -> fold_calls f' = Ok m'.
Proof.
  intros Ha E Hc. apply fold_calls_acc. exists spent'. rewrite E. unfold fold_acc in *. rewrite fold_result_app, Ha. cbn [mbind result_bind fold_result]. by rewrite Hc.
Qed.

(** ** Reservations *)

Lemma binding_facts b : validateBinding b = Ok tt -> is_object b = true /\ exists t, get "callId" b = JString t /\ t <> [].
Proof.
  unfold validateBinding. cbv zeta beta. intros H. run; (split; [done|]);
    match goal with H : is_text nonempty (get "callId" b) = true |- _ => apply is_text_spec in H as (t & Ht & Hn) end; (exists t; split; [done|]);
    intros ->; discriminate Hn.
Qed.

Lemma validate_reserve bind n e ts : time_of ts -> 0 <= n <= MAX_NANO -> validateBinding bind = Ok tt -> get "runNonce" bind = JString runNonce ->
  validateData (reserve_data bind n e ts) epoch runNonce attest_key = Ok tt.
Proof.
  intros [_ Hts] Hn Hb Hr. destruct (binding_facts bind Hb) as (_ & t & Ht & Hne). unfold validateData, reserve_data.
  change (get "bind" _) with bind. change (get "ts" _) with (JString ts). change (get "callId" (fields_json _)) with (get "callId" bind).
  change (get "epoch" _) with (JString epoch). change (get "type" _) with (jtext "reserve"). change (get "worstCaseNano" _) with (JString (formatNano n)).
  change (get "enforced" _) with (JBoolean e). cbv zeta. rewrite Ht, Hr, Hb, !is_text_nonempty, !same_value_text by done.
  change (kind_is "reserve" (jtext "reserve")) with true. unfold money_ok. by rewrite parseNano_formatNano.
Qed.

Lemma dropped_reserve bind n e ts : dropped bind = bind -> validateBinding bind = Ok tt -> dropped (reserve_data bind n e ts) = reserve_data bind n e ts.
Proof.
  intros Hd Hb. destruct (binding_facts bind Hb) as (Ho & t & Ht & _). unfold reserve_data, fields_json. rewrite Ht.
  cbn [List.map dropped fst snd]. rewrite Hd. cbn [List.filter is_undefined negb]. by destruct bind.
Qed.

Lemma reserve_read_back ls f m spent bind n e ts : generation_texts -> chain_texts -> Forall line_text ls -> fold_journal (unlines ls) = Ok f ->
  fold_acc f.(fd_datas) = Ok (m, spent) -> time_of ts -> 0 <= n <= MAX_NANO -> js_value bind -> dropped bind = bind -> validateBinding bind = Ok tt ->
  get "runNonce" bind = JString runNonce -> call_get (get "callId" bind) m = None -> nonce_spent bind f.(fd_datas) = false ->
  exists f', fold_journal (unlines (ls ++ [record_text f (reserve_data bind n e ts)])) = Ok f' /\ fold_calls f' = Ok (m ++ [(get "callId" bind, new_call n e bind)]).
Proof.
  intros Hg Hc Hls Hf Ha Hts Hn Hj Hd Hb Hr Hno Hsp. pose proof Hts as [Htu _].
  assert (js_value (reserve_data bind n e ts)) as Hjs by by apply reserve_js_value.
  destruct (fold_chain _ _ Hc (proj1 (proj2 Hg)) Hf) as (H1 & H2 & H3).
  destruct (fold_appended f (reserve_data bind n e ts) Hc H1 H2 H3 Hjs) as (f' & Hf' & Hds); [done|rewrite dropped_reserve by done; by apply validate_reserve|].
  rewrite dropped_reserve in Hds by done.
  exists f'. split.
  - rewrite fold_journal_snoc; [by rewrite Hf|]. apply Forall_app. split; [done|]. constructor; [|done]. eapply record_line_text; [apply Hg|exact Hf|done].
  - eapply fold_calls_appended; [exact Ha|exact Hds|]. unfold fold_call, reserve_data.
    change (get "bind" (fields_json _)) with bind. change (get "callId" (fields_json _)) with (get "callId" bind). change (get "type" _) with (jtext "reserve").
    change (get "worstCaseNano" _) with (JString (formatNano n)). change (get "enforced" _) with (JBoolean e).
    change (kind_is "reserve" (jtext "reserve")) with true. cbv iota beta zeta. rewrite Hno, (spent_nonces _ _ _ _ Ha), Hsp, parseNano_formatNano by done.
    cbn [isSome negb ensure mbind result_bind map_err is_true]. by rewrite call_get_new.
Qed.

(** ** Settlements *)

(** A string or a number: the fields of a binding that are attested and compared. *)
Definition scalar_field (v : json) : Prop := (exists t, v = JString t) \/ exists n, v = JNumber (Some n).

Lemma binding_scalars b : validateBinding b = Ok tt -> Forall (fun k => scalar_field (get k b)) attested_fields.
Proof.
  unfold validateBinding, attested_fields. cbv zeta beta. intros H.
  assert (forall p k, is_text p (get k b) = true -> scalar_field (get k b)) as Ht by (intros p k (t & -> & _)%is_text_spec; left; by exists t).
  assert (forall k, is_integer 0 (get k b) = true -> scalar_field (get k b)) as Hi by (intros k (n & -> & _)%is_integer_spec; right; by exists n).
  run; repeat (apply Forall_cons; split); try apply Forall_nil; try exact I; by (eapply Ht; eassumption) || by (eapply Hi; eassumption).
Qed.

Lemma scalar_same v : scalar_field v -> same_value v v = true.
Proof. intros [[t ->]|[n ->]]; [apply same_value_text|cbn; apply Z.eqb_refl]. Qed.

Lemma scalar_dropped v : scalar_field v -> dropped v = v /\ is_undefined v = false.
Proof. intros [[t ->]|[n ->]]; by split. Qed.

Lemma get_dropped_settle bind attest n rep ts : js_value (settle_data bind attest n rep JUndefined ts) -> dropped bind = bind -> dropped attest = attest -> validateBinding bind = Ok tt ->
  let d := dropped (settle_data bind attest n rep JUndefined ts) in
  is_object d = true /\ get "type" d = jtext "settle" /\ get "callId" d = get "callId" bind /\ get "usdNano" d = JString (formatNano n) /\
  get "reported" d = JBoolean rep /\ get "bind" d = bind /\ get "attest" d = attest /\ get "ts" d = JString ts /\ get "epoch" d = JString epoch /\ get "egress" d = JUndefined.
Proof.
  intros Hj Hb Ha Hv d. subst d. destruct (binding_texts bind Hv) as [t Ht]. split; [done|]. rewrite !get_dropped by done. unfold settle_data. cbn [truthy_value app].
  change (get "type" _) with (jtext "settle"). change (get "callId" (fields_json _)) with (get "callId" bind). change (get "usdNano" _) with (JString (formatNano n)).
  change (get "reported" _) with (JBoolean rep). change (get "bind" (fields_json _)) with bind. change (get "attest" (fields_json _)) with attest.
  change (get "ts" (fields_json _)) with (JString ts). change (get "epoch" (fields_json _)) with (JString epoch). change (get "egress" (fields_json _)) with JUndefined.
  rewrite Hb, Ha, Ht. by split_and!.
Qed.

(** A settlement for a binding without an egress authority, unless its
    attestation is not of this record. *)
Lemma validate_settle bind attest n rep ts : js_value (settle_data bind attest n rep JUndefined ts) -> dropped bind = bind -> dropped attest = attest ->
  time_of ts -> 0 <= n <= MAX_NANO -> validateBinding bind = Ok tt -> get "runNonce" bind = JString runNonce -> get "egress" bind = JUndefined ->
  let d := dropped (settle_data bind attest n rep JUndefined ts) in
  attestationBindingError attest_key d epoch runNonce = Ok tt -> validateData d epoch runNonce attest_key = Ok tt.
Proof.
  intros Hj Hb Ha [_ Hts] Hn Hv Hr He d Hat. destruct (get_dropped_settle _ _ _ _ _ Hj Hb Ha Hv) as (Ho & Ht & Hc & Hu & Hre & Hbi & _ & Hts' & Hep & Heg). fold d in Ho, Ht, Hc, Hu, Hre, Hbi, Hts', Hep, Heg.
  destruct (binding_facts bind Hv) as (_ & t & Et & Hne). unfold validateData. cbv zeta. rewrite Hat, Ho, Ht, Hc, Hu, Hre, Hbi, Hts', Hep, Heg, Hv, Hr, Et, He, !is_text_nonempty, !same_value_text by done.
  change (kind_is "reserve" (jtext "settle")) with false. change (kind_is "settle" (jtext "settle")) with true. unfold money_ok. by rewrite parseNano_formatNano.
Qed.

Lemma attested_payload bind d n ts : dropped bind = bind -> validateBinding bind = Ok tt ->
  dropped (accounted_payload bind d n ts) = accounted_payload bind d n ts.
Proof.
  intros Hb Hv. pose proof (binding_scalars _ Hv) as Hs. repeat (apply Forall_cons in Hs as [?%scalar_dropped Hs]).
  repeat match goal with H : dropped _ = _ /\ _ |- _ => destruct H end.
  unfold accounted_payload, attest_payload, fields_json. cbn [app List.map fst snd dropped].
  repeat match goal with H : dropped (get _ bind) = _ |- _ => rewrite H; clear H end.
  cbn [List.filter snd is_undefined negb]. repeat match goal with H : is_undefined (get _ bind) = false |- _ => rewrite H; clear H end. reflexivity.
Qed.

(** What is minted for a binding is an attestation of its settlement. *)
Lemma minted_attestation bind d n tag ts ts' : let attest := sealed_attest (accounted_payload bind d n ts) tag in
  js_value (settle_data bind attest n true JUndefined ts') -> dropped bind = bind -> validateBinding bind = Ok tt -> get "runNonce" bind = JString runNonce ->
  grammar_kept bind d.(kd_providerKind) = Ok tt -> verifyAttestation attest_key attest = Ok tt ->
  dropped attest = attest /\ attestationBindingError attest_key (dropped (settle_data bind attest n true JUndefined ts')) epoch runNonce = Ok tt.
Proof.
  intros attest Hj Hb Hv Hr Hg Hver. pose proof (attested_payload bind d n ts Hb Hv) as Hp.
  assert (dropped attest = attest) as Ha.
  { subst attest. unfold sealed_attest, fields_json. cbn [List.map fst snd dropped]. rewrite Hp. reflexivity. }
  split; [done|]. destruct (get_dropped_settle _ _ _ _ _ Hj Hb Ha Hv) as (_ & _ & Hc & Hu & Hre & Hbi & Hat & _).
  unfold attestationBindingError. rewrite Hat, Hc, Hu, Hre, Hbi. change (is_undefined attest) with false. rewrite Hver. cbn [mbind result_bind]. cbv zeta.
  change (get "payload" attest) with (accounted_payload bind d n ts).
  change (get "ledgerEpoch" (accounted_payload bind d n ts)) with (JString epoch). change (get "runNonce" (accounted_payload bind d n ts)) with (JString runNonce).
  change (get "usdNano" (accounted_payload bind d n ts)) with (JString (formatNano n)). change (get "costProvenance" (accounted_payload bind d n ts)) with (jtext "provider-reported").
  assert (forall k, k ∈ attested_fields -> get k (accounted_payload bind d n ts) = get k bind) as Hk.
  { intros k Hk. unfold attested_fields in Hk. repeat (apply elem_of_cons in Hk as [->|Hk]; [reflexivity|]). by apply elem_of_nil in Hk. }
  rewrite (Hk "callId"%string) by by left. rewrite !same_value_text. pose proof (binding_scalars _ Hv) as Hs.
  rewrite (scalar_same (get "callId" bind)) by (eapply Forall_forall in Hs; [exact Hs|by left]). cbn [ensure mbind result_bind].
  assert (forallb (fun k => same_value (get k (accounted_payload bind d n ts)) (get k bind)) attested_fields = true) as ->.
  { apply forallb_forall. intros k Hin%list_elem_of_In. rewrite Hk by done. apply scalar_same. by eapply Forall_forall in Hs. }
  cbn [ensure mbind result_bind]. unfold adapter_attested, grammar_kept in *. destruct (is_undefined (get "adapter" bind)); [done|].
  apply bind_Ok in Hg as (identity & -> & Hg%ensure_Ok). cbn [map_err mbind result_bind].
  change (get "providerKind" (accounted_payload bind d n ts)) with (JString (kd_providerKind d)). apply bool_decide_eq_true in Hg as ->. by rewrite same_value_text.
Qed.

Lemma settle_read_back ls f m spent bind attest n rep ts cur cur' : let data := settle_data bind attest n rep JUndefined ts in
  generation_texts -> chain_texts -> Forall line_text ls -> fold_journal (unlines ls) = Ok f -> fold_acc f.(fd_datas) = Ok (m, spent) ->
  js_value data -> dropped bind = bind -> dropped attest = attest -> validateBinding bind = Ok tt -> validateData (dropped data) epoch runNonce attest_key = Ok tt ->
  call_get (get "callId" bind) m = Some cur -> cur.(rv_settled) = false -> bindingMismatch cur.(rv_bind) bind = Ok false ->
  settled_call attest_key epoch runNonce cur (dropped data) = Ok cur' ->
  exists f', fold_journal (unlines (ls ++ [record_text f data])) = Ok f' /\ fold_calls f' = Ok (call_set (get "callId" bind) cur' m).
Proof.
  intros data Hg Hc Hls Hf Ha Hjs Hd Hda Hb Hv Hcur Hset Hmis Hcall. destruct (fold_chain _ _ Hc (proj1 (proj2 Hg)) Hf) as (H1 & H2 & H3).
  assert (is_undefined data = false) as Hun by done.
  destruct (fold_appended f data Hc H1 H2 H3 Hjs Hun Hv) as (f' & Hf' & Hds). exists f'. split.
  - rewrite fold_journal_snoc; [by rewrite Hf|]. apply Forall_app. split; [done|]. constructor; [|done]. eapply record_line_text; [apply Hg|exact Hf|done].
  - destruct (get_dropped_settle _ _ _ _ _ Hjs Hd Hda Hb) as (_ & Ht & Hid & _ & _ & Hbi & _). fold data in Ht, Hid, Hbi.
    eapply (fold_calls_appended _ _ _ _ _ _ spent); [exact Ha|exact Hds|]. unfold fold_call. rewrite Ht, Hid, Hbi.
    change (kind_is "reserve" (jtext "settle")) with false. cbv iota beta zeta. rewrite Hcur, Hset, Hmis, Hcall. reflexivity.
Qed.

(** The account of a call that was settled without, and with, a proven cost. *)
Definition uncertain (cur : Reservation) : Reservation := {|
  rv_worstCase := cur.(rv_worstCase); rv_enforced := cur.(rv_enforced); rv_settled := true; rv_trustedUsd := None; rv_fallbackAuthorized := false;
  rv_over := cur.(rv_over); rv_bind := cur.(rv_bind) |}.
Definition credited (n : Z) (cur : Reservation) : Reservation := {|
  rv_worstCase := cur.(rv_worstCase); rv_enforced := cur.(rv_enforced); rv_settled := true; rv_trustedUsd := Some n; rv_fallbackAuthorized := false;
  rv_over := cur.(rv_over) || (cur.(rv_enforced) && (cur.(rv_worstCase) <? n)); rv_bind := cur.(rv_bind) |}.

Lemma settled_uncertain cur d : get "attest" d = JUndefined -> settled_call attest_key epoch runNonce cur d = Ok (uncertain cur).
Proof.
  intros H. destruct (unattested_authority d H) as [H1 H2]. unfold settled_call. rewrite H1, H2. cbn [mbind result_bind].
  by rewrite andb_false_r, orb_false_r.
Qed.

Lemma settled_credited cur bind d n tag ts ts' : let attest := sealed_attest (accounted_payload bind d n ts) tag in let s := dropped (settle_data bind attest n true JUndefined ts') in
  js_value (settle_data bind attest n true JUndefined ts') -> dropped bind = bind -> dropped attest = attest -> validateBinding bind = Ok tt -> 0 <= n <= MAX_NANO ->
  attestationBindingError attest_key s epoch runNonce = Ok tt -> settled_call attest_key epoch runNonce cur s = Ok (credited n cur).
Proof.
  intros attest s Hj Hb Ha Hv Hn Hok. destruct (get_dropped_settle _ _ _ _ _ Hj Hb Ha Hv) as (_ & _ & _ & Hu & Hre & _ & Hat & _). fold s in Hu, Hre, Hat.
  assert (costIsTrusted attest_key s epoch runNonce = true) as Ht by (unfold costIsTrusted, attests; rewrite Hre, Hok, Hat; reflexivity).
  assert (authorizesFallback attest_key s epoch runNonce = false) as Hf by (unfold authorizesFallback, attests; rewrite Hok, Hat; reflexivity).
  unfold settled_call. rewrite Ht, Hf, Hu, parseNano_formatNano by done. reflexivity.
Qed.
End read_back.

(** * Operations *)

Section operations.
Context {W : Type} `{LH : !LedgerHost W} `{HT : !HostTexts W} (quiet : W -> Prop) `{HQ : !QuietLedger quiet} `{DG : Digest} `{HM : Hmac} `{GN : Generation}.
Local Abbreviation io := (io W).

(** The journal of an idle handle, its records and its accounts. *)
Record idle (ls : list text) (f : Folded) (m : Calls) (w : LedgerWorld W) : Prop := {
  id_calm : calm quiet w;
  id_rest : at_rest ls (disk_of w);
  id_journal : fold_journal (unlines ls) = Ok f;
  id_calls : fold_calls f = Ok m;
  id_readable : readable (disk_of w);
  id_room : roomy quiet (disk_of w) f
}.

(** What an operation that appends has left: the accounts [m] in place of the ones before. *)
Definition recorded (ls : list text) (m : Calls) (w : LedgerWorld W) : Prop :=
  calm quiet w /\ exists l f, at_rest (ls ++ [l]) (disk_of w) /\ fold_journal (unlines (ls ++ [l])) = Ok f /\ fold_calls f = Ok m.

Lemma idle_acc ls f m w : idle ls f m w -> exists spent, fold_acc f.(fd_datas) = Ok (m, spent).
Proof. intros [_ _ _ Hm _ _]. by apply fold_calls_acc in Hm. Qed.

Lemma reserve_quietly ls f m bind usd budgetUsd worst budget w : generation_texts -> chain_texts -> idle ls f m w ->
  js_value bind -> dropped bind = bind -> validateBinding bind = Ok tt -> get "runNonce" bind = JString runNonce ->
  usdToNano usd = Ok worst -> usdToNano budgetUsd = Ok budget ->
  let '(w', o) := (reserve bind usd budgetUsd : io bool) w in
  if isSome (call_get (get "callId" bind) m) || nonce_spent bind f.(fd_datas) then calm quiet w' /\ disk_of w' = disk_of w /\ exists e, o = Thrown e
  else if (0 <? budget) && (budget <? spendOf m + worst) then calm quiet w' /\ disk_of w' = disk_of w /\ o = Returned false
  else o = Returned true /\ recorded ls (m ++ [(get "callId" bind, new_call (if 0 <? budget then worst else 0) (0 <? budget) bind)]) w'.
Proof.
  intros Hg Hc Hidle Hj Hd Hb Hr Hw Hbu. pose proof (idle_acc _ _ _ _ Hidle) as [spent Ha]. destruct Hidle as [Hcalm Hrest Hf Hm Hread Hroom].
  set (used := isSome _ || _). set (n := if 0 <? budget then worst else 0).
  assert (forall ts, reserve_decision bind worst budget f ts = if isSome (call_get (get "callId" bind) m) then Err (corrupt "re-reserve of live call id")
    else if nonce_spent bind f.(fd_datas) then Err (corrupt "replayed call nonce")
    else if (0 <? budget) && (budget <? spendOf m + worst) then Ok (None, false) else Ok (Some (reserve_data bind n (0 <? budget) ts), true)) as Hdec.
  { intros ts. unfold reserve_decision. rewrite Hm. cbn [mbind result_bind]. destruct (isSome _); [done|]. destruct (nonce_spent _ _); [done|]. cbn [negb ensure mbind result_bind].
    unfold n. destruct (0 <? budget); cbn [negb andb]; [|done]. by destruct (budget <? _). }
  assert (quietly quiet (reserve bind usd budgetUsd : io bool) (disk_of w) (fun d' o =>
    if used then d' = disk_of w /\ exists e, o = Thrown e
    else if (0 <? budget) && (budget <? spendOf m + worst) then d' = disk_of w /\ o = Returned false
    else o = Returned true /\ exists l f, at_rest (ls ++ [l]) d' /\ fold_journal (unlines (ls ++ [l])) = Ok f /\ fold_calls f = Ok (m ++ [(get "callId" bind, new_call n (0 <? budget) bind)]))) as H.
  { unfold reserve. eapply quietly_lift_then; [by rewrite Hb|]. eapply quietly_lift_then; [by rewrite Hbu|]. eapply quietly_lift_then; [by rewrite Hw|].
    apply (quietly_txn quiet (reserve_decision bind worst budget) ls f); try done; [apply Hg|..].
    - intros ts _. rewrite !Hdec. by repeat case_match.
    - intros e. rewrite Hdec. unfold used. destruct (isSome _); [intros _; split; [done|by eexists]|]. destruct (nonce_spent _ _); [intros _; split; [done|by eexists]|]. by destruct (_ && _).
    - intros ts a _. rewrite Hdec. unfold used. destruct (isSome _); [done|]. destruct (nonce_spent _ _); [done|]. cbn [orb]. destruct ((0 <? budget) && (budget <? _)); [|done]. by intros [= <-].
    - intros ts data a Hts. rewrite Hdec. unfold used. destruct (call_get _ m) eqn:E1; [done|]. destruct (nonce_spent _ _) eqn:E2; [done|]. cbn [isSome orb]. destruct ((0 <? budget) && (budget <? _)); [done|].
      intros [= <- <-]. pose proof Hts as [Htu _]. split; [by apply reserve_js_value|]. intros d' Hd'. split; [done|].
      pose proof (usdToNano_bounds _ _ Hw) as Hwb. assert (0 <= n <= MAX_NANO) as Hn by (unfold n; destruct (0 <? budget); [done|unfold MAX_NANO, NANO_PER_USD; lia]).
      destruct (reserve_read_back ls f m spent bind n (0 <? budget) ts) as (f' & Hf' & Hm'); try done; [by destruct Hrest|]. by eexists _, f'. }
  specialize (H w Hcalm eq_refl). destruct (reserve bind usd budgetUsd w) as [w' o]. cbn in H. destruct H as [Hc' H].
  fold used. fold n. destruct used; [by destruct H|]. destruct (_ && _); [by destruct H|]. destruct H as (-> & H). split; [done|]. by split.
Qed.

(** A settlement of the account [cur] of a call, which becomes [after cur], where
    there is one that is not settled and has this binding; else nothing. *)
Definition settles (after : Reservation -> Reservation) ls m bind (w w' : LedgerWorld W) (o : LedgerOutcome unit) : Prop :=
  match call_get (get "callId" bind) m with
  | Some cur =>
      if cur.(rv_settled) then calm quiet w' /\ disk_of w' = disk_of w /\ exists e, o = Thrown e
      else match bindingMismatch cur.(rv_bind) bind with
           | Ok false => o = Returned tt /\ recorded ls (call_set (get "callId" bind) (after cur) m) w'
           | _ => calm quiet w' /\ disk_of w' = disk_of w /\ exists e, o = Thrown e
           end
  | None => calm quiet w' /\ disk_of w' = disk_of w /\ exists e, o = Thrown e
  end.

Lemma appendSettlement_quietly after ls f m bind attest n rep w : generation_texts -> chain_texts -> idle ls f m w ->
  dropped bind = bind -> dropped attest = attest -> validateBinding bind = Ok tt ->
  (forall ts, time_of ts -> js_value (settle_data bind attest n rep JUndefined ts) /\
     validateData (dropped (settle_data bind attest n rep JUndefined ts)) epoch runNonce attest_key = Ok tt /\
     forall cur, settled_call attest_key epoch runNonce cur (dropped (settle_data bind attest n rep JUndefined ts)) = Ok (after cur)) ->
  settles after ls m bind w ((appendSettlement bind attest n rep JUndefined : io unit) w).1 ((appendSettlement bind attest n rep JUndefined : io unit) w).2.
Proof.
  intros Hg Hc Hidle Hb Hat Hv Hdata. pose proof (idle_acc _ _ _ _ Hidle) as [spent Ha]. destruct Hidle as [Hcalm Hrest Hf Hm Hread Hroom].
  set (refused := fun (d' : Disk) (o : LedgerOutcome unit) => d' = disk_of w /\ exists e, o = Thrown e).
  assert (forall ts, settle_decision bind attest n rep JUndefined f ts = match call_get (get "callId" bind) m with
    | None => Err (corrupt "orphan settle for unknown call id")
    | Some cur => if cur.(rv_settled) then Err (corrupt "duplicate settle for call id") else
        match bindingMismatch cur.(rv_bind) bind with Err e => Err e | Ok true => Err (corrupt "settlement identity mismatch for call id")
        | Ok false => Ok (Some (settle_data bind attest n rep JUndefined ts), tt) end end) as Hdec.
  { intros ts. unfold settle_decision. rewrite Hm. cbn [mbind result_bind]. destruct (call_get _ m) as [cur|]; [|done]. destruct (rv_settled cur); [done|].
    cbn [negb ensure mbind result_bind]. by destruct (bindingMismatch _ _) as [[]|]. }
  assert (quietly quiet (appendSettlement bind attest n rep JUndefined : io unit) (disk_of w) (fun d' o =>
    match call_get (get "callId" bind) m with
    | Some cur => if cur.(rv_settled) then refused d' o else
        match bindingMismatch cur.(rv_bind) bind with
        | Ok false => o = Returned tt /\ exists l f, at_rest (ls ++ [l]) d' /\ fold_journal (unlines (ls ++ [l])) = Ok f /\ fold_calls f = Ok (call_set (get "callId" bind) (after cur) m)
        | _ => refused d' o end
    | None => refused d' o end)) as H.
  { apply (quietly_txn quiet (settle_decision bind attest n rep JUndefined) ls f); try done; [apply Hg|..].
    - intros ts _. rewrite !Hdec. by repeat case_match.
    - intros e. rewrite Hdec. unfold refused. destruct (call_get _ m) as [cur|]; [|eauto]. destruct (rv_settled cur); [eauto|]. destruct (bindingMismatch _ _) as [[]|]; eauto. done.
    - intros ts [] _. rewrite Hdec. destruct (call_get _ m) as [cur|]; [|done]. destruct (rv_settled cur); [done|]. by destruct (bindingMismatch _ _) as [[]|].
    - intros ts data [] Hts. rewrite Hdec. destruct (call_get _ m) as [cur|] eqn:Hcur; [|done]. destruct (rv_settled cur) eqn:Hset; [done|].
      destruct (bindingMismatch _ _) as [[]|] eqn:Hmis; try done. intros [= <-]. destruct (Hdata ts Hts) as (Hj & Hval & Hafter). split; [done|]. intros d' Hd'. split; [done|].
      destruct (settle_read_back ls f m spent bind attest n rep ts cur (after cur)) as (f' & Hf' & Hm'); try done; [by destruct Hrest|]. by eexists _, f'. }
  specialize (H w Hcalm eq_refl) as [Hc' H]. unfold settles, recorded, refused in *. destruct (call_get _ m) as [cur|]; [|by destruct H].
  destruct (rv_settled cur); [by destruct H|]. destruct (bindingMismatch _ _) as [[]|]; by destruct H.
Qed.

Lemma settleUncertain_quietly ls f m bind w : generation_texts -> chain_texts -> idle ls f m w ->
  js_value bind -> dropped bind = bind -> validateBinding bind = Ok tt -> get "runNonce" bind = JString runNonce -> get "egress" bind = JUndefined ->
  settles uncertain ls m bind w ((settleUncertain bind JUndefined : io unit) w).1 ((settleUncertain bind JUndefined : io unit) w).2.
Proof.
  intros Hg Hc Hidle Hj Hb Hv Hr He. unfold settleUncertain. rewrite Hv. change (settles uncertain ls m bind w (appendSettlement bind JUndefined 0 false JUndefined w).1 (appendSettlement bind JUndefined 0 false JUndefined w).2).
  eapply appendSettlement_quietly; try done. intros ts Hts. pose proof Hts as [Htu _].
  assert (js_value (settle_data bind JUndefined 0 false JUndefined ts)) as Hjs by (apply settle_js_value; try done; constructor). split; [done|].
  destruct (get_dropped_settle _ _ _ _ _ Hjs Hb eq_refl Hv) as (_ & _ & _ & _ & _ & _ & Hat & _). split; [|intros cur; by apply settled_uncertain].
  apply validate_settle; try done. unfold attestationBindingError. by rewrite Hat.
Qed.

Lemma idle_host ls f m w h : idle ls f m w -> quiet h -> idle ls f m (set_host h w).
Proof. intros [(_ & Hp & Hc) Hrest Hf Hm Hread Hroom] Hq. by constructor. Qed.

Lemma settles_disk after ls m bind (w0 w w' : LedgerWorld W) o : disk_of w0 = disk_of w -> settles after ls m bind w0 w' o -> settles after ls m bind w w' o.
Proof. unfold settles. by intros ->. Qed.

(** The evidence of a mint, when its scope is no longer alive: its text verifies
    at any time. *)
Definition evidence bind (d : KernelDraft) (n : Z) (w : LedgerWorld W) : Prop :=
  0 < scope_pid d.(kd_scope) /\ (match d.(kd_scope) with pgid _ => true | cgroup2 _ _ _ => false end && strongScopeAvailable) = false /\
  (host_scopeAlive d.(kd_scope) w.(lw_host)).2 = false /\ grammar_kept bind d.(kd_providerKind) = Ok tt /\ d.(kd_egress) = JUndefined /\
  forall ts, time_of ts -> exists tag, tagPayload attest_key (accounted_payload bind d n ts) = Ok tag /\
    verifyAttestation attest_key (sealed_attest (accounted_payload bind d n ts) tag) = Ok tt.

Lemma attestAndSettle_quietly ls f m bind d usd n w : generation_texts -> chain_texts -> idle ls f m w ->
  js_value bind -> dropped bind = bind -> validateBinding bind = Ok tt -> get "runNonce" bind = JString runNonce -> get "egress" bind = JUndefined ->
  draft_ok d -> parseNano (JString usd) = Ok n -> evidence bind d n w ->
  settles (credited n) ls m bind w ((attestAndSettle bind d usd : io unit) w).1 ((attestAndSettle bind d usd : io unit) w).2.
Proof.
  intros Hg Hc Hidle Hj Hb Hv Hr He Hd Hn (Hpid & Hstrong & Halive & Hgr & Heg & Hver). pose proof (parseNano_bounds _ _ Hn) as Hnb.
  destruct (host_scopeAlive (kd_scope d) (lw_host w)) as [h alive] eqn:Eh. cbn in Halive. subst alive.
  destruct (host_now h) as [h' ts] eqn:En. destruct (time_text _ _ _ En) as [Hts1 Hts2]. assert (time_of ts) as Hts by by split.
  pose proof Hidle as [(Hq & _) _ _ _ _ _]. assert (quiet h) as Hqh by (pose proof (quiet_ledger_alive (kd_scope d) _ Hq) as H; by rewrite Eh in H).
  assert (quiet h') as Hqh' by (pose proof (quiet_ledger_now _ Hqh) as H; by rewrite En in H). destruct (Hver ts Hts) as (tag & Htag & Hok).
  set (w1 := set_host h' (set_host h w)).
  assert ((attestAndSettle bind d usd : io unit) w = (appendSettlement bind (sealed_attest (accounted_payload bind d n ts) tag) n true JUndefined : io unit) w1) as ->.
  { unfold attestAndSettle, assertMintable. rewrite Hv, Hr, same_value_text, (proj2 (Z.ltb_lt _ _) Hpid), Hstrong, Hgr, Hn.
    cbv beta iota delta [lift require mbind io_bind mret io_ret map_err scopeAlive raise_error negb]. rewrite Eh. cbv beta iota. rewrite (proj2 (Z.leb_le 0 n)) by lia.
    cbv beta iota delta [ledger_now]. cbn [lw_host set_host]. rewrite En. cbv beta iota. fold w1.
    unfold sealAndSettle. fold (accounted_payload bind d n ts). rewrite Htag. cbv beta iota zeta delta [lift mbind io_bind mret io_ret map_err raise_error].
    fold (sealed_attest (accounted_payload bind d n ts) tag). rewrite Hok, Heg. reflexivity. }
  eapply settles_disk; [|eapply appendSettlement_quietly; try done; [apply idle_host; [apply idle_host|]; done|..]]; [done|..].
  - unfold sealed_attest, fields_json. cbn [List.map fst snd dropped]. rewrite attested_payload by done. reflexivity.
  - intros ts' Hts'. pose proof Hts' as [Htu _].
    assert (js_value (settle_data bind (sealed_attest (accounted_payload bind d n ts) tag) n true JUndefined ts')) as Hjs.
    { apply settle_js_value; try done; [|constructor]. apply sealed_js_value; [apply payload_js_value; auto|].
      unfold tagPayload in Htag. destruct attest_key; [injection Htag as <-; apply js_units_string|discriminate Htag]. }
    destruct (minted_attestation bind d n tag ts ts' Hjs Hb Hv Hr Hgr Hok) as [Ha Hat]. split; [done|]. split; [by apply validate_settle|].
    intros cur. by apply settled_credited.
Qed.

(** A read of an idle handle. *)
Lemma read_quietly {A} (fn : Folded -> result LedgerError A) ls f m w a : idle ls f m w -> fn f = Ok a ->
  exists w', (read fn : io A) w = (w', Returned a) /\ disk_of w' = disk_of w /\ calm quiet w'.
Proof.
  intros [Hcalm Hrest Hf Hm Hread Hroom] Ha. destruct (quietly_read quiet fn ls f (disk_of w) Hrest Hread Hf w Hcalm eq_refl) as (Hc & Hd & Ho).
  rewrite Ha in Ho. destruct (read fn w) as [w' o]. cbn in *. subst o. by exists w'.
Qed.
End operations.
