(* ===== verification/LedgerSample.v ===== *)
(** LedgerSample: a ledger to try the theorems on: a host that follows a script, a
    generation with its key, bindings, and the evidence of a settled call. *)
From S2P Require Import Prelude Text Json Ids ScmTypes ControlEvents EventSchema EventCode JsonText Money Stringify Attest LedgerRecords Ledger LedgerLog LedgerFacts LedgerAccounts LedgerQuiet.

#[local] Open Scope Z_scope.

(** The fates of the next steps and writes; after them everything goes on. *)
Inductive Trouble := fine | throws (took_effect : bool) | stops (took_effect : bool).
Definition Script : Type := list Trouble.

Definition fate_of (t : Trouble) : Fate :=
  match t with fine => goes_on | throws took => fails took (text_of_string "EIO: i/o error") | stops took => dies took end.

Definition next_fate (h : Script) : Script * Fate := match h with [] => ([], goes_on) | t :: h' => (h', fate_of t) end.

#[export] Instance scriptHost : LedgerHost Script := {
  host_step _ h := next_fate h;
  host_write n h := let '(h', ft) := next_fate h in (h', (n, ft));
  host_now h := (h, text_of_string "2026-07-01T00:00:00.000Z");
  host_scopeAlive _ h := (h, false)
}.

(** 64 hexadecimal digits. *)
Definition hex64 (b : bool) : string :=
  if b then "aaaaaaaaaaaaaaaaaaaaaaaaaaaaaaaaaaaaaaaaaaaaaaaaaaaaaaaaaaaaaaaa" else "bbbbbbbbbbbbbbbbbbbbbbbbbbbbbbbbbbbbbbbbbbbbbbbbbbbbbbbbbbbbbbbb".

#[export] Instance ledgerDigest : Digest := fun t => hex64 (Z.even (foldr Z.add 0 t)).
#[export] Instance ledgerHmac : Hmac := fun key bs => hex64 (Z.even (foldr Z.add 0 (key ++ bs))).

Definition hex32 : string := "0123456789abcdef0123456789abcdef".

#[export] Instance ledgerGeneration : Generation := {
  epoch := text_of_string hex32;
  genesis := text_of_string (hex64 true);
  runNonce := text_of_string "fedcba9876543210fedcba9876543210";
  attest_key := Some (replicate 32 7);
  strongScopeAvailable := true
}.

#[export] Instance script_texts : HostTexts Script.
Proof.
  split.
  - intros s h h' b m E. assert (m = text_of_string "EIO: i/o error") as -> by (unfold host_step, host_write, scriptHost, next_fate, fate_of in E; destruct h as [|[] h]; congruence). apply js_units_string.
  - intros n h h' k b m E. assert (m = text_of_string "EIO: i/o error") as -> by (unfold host_step, host_write, scriptHost, next_fate, fate_of in E; destruct h as [|[] h]; congruence). apply js_units_string.
  - intros h h' t E. assert (t = text_of_string "2026-07-01T00:00:00.000Z") as -> by (unfold host_now, scriptHost in E; congruence). split; [apply js_units_string|done].
Qed.

(** No trouble is left. *)
Definition no_trouble (h : Script) : Prop := h = [].

#[export] Instance script_quiet : QuietLedger no_trouble.
Proof. split; [intros s h ->; by exists []|intros n h ->; by exists [], n|done|done]. Qed.

(** ** Bindings and evidence *)

Definition sample_binding (callId nonce : string) : json := fields_json
  [("runNonce", JString runNonce); ("callNonce", jtext nonce); ("callId", jtext callId); ("reservationId", jtext hex32);
   ("routeEpoch", JNumber (Some 0)); ("provider", jtext "claude"); ("model", jtext "opus"); ("attempt", JNumber (Some 1));
   ("intentSha256", jtext (hex64 true)); ("stdinSha256", jtext (hex64 false)); ("stdinBytes", JNumber (Some 120))].

Definition first_call : json := sample_binding "lead-1" hex32.
Definition second_call : json := sample_binding "lead-2" "00000000000000000000000000000002".

Definition usd (s : string) : Amount := amount_finite false (text_of_string s).

Definition draft : KernelDraft := {|
  kd_providerKind := text_of_string "claude";
  kd_scope := cgroup2 4242 (text_of_string "loop-0123456789abcdef") (text_of_string "77");
  kd_transcriptDev := text_of_string "66306"; kd_transcriptIno := text_of_string "131"; kd_transcriptSha256 := text_of_string (hex64 true);
  kd_transcriptBytes := 900; kd_terminal := {| fr_sha256 := text_of_string (hex64 false); fr_bytes := 100; fr_offset := 800 |};
  kd_egress := JUndefined
|}.

(** ** Playing calls *)

Definition open_world (h : Script) (d : Disk) : LedgerWorld Script :=
  {| lw_leaf := d.(dk_leaf); lw_wal := d.(dk_wal); lw_poison := None; lw_closed := false; lw_host := h |}.

(** Each call by a new handle, with the fates of its steps. *)
Fixpoint play (script : list (LedgerCall * Script)) (s : list (LedgerCall * LedgerOutcome LedgerAnswer) * Disk) : list (LedgerCall * LedgerOutcome LedgerAnswer) * Disk :=
  match script with
  | [] => s
  | (c, h) :: script' => let '(w, o) := perform_call c (open_world h s.2) in play script' (s.1 ++ [(c, o)], disk_of w)
  end.

Lemma disk_of_open h d : disk_of (open_world h d) = d.
Proof. by destruct d. Qed.

Lemma play_history script s : ledger_history (W := Script) s.1 s.2 -> Forall (fun ch => call_ok ch.1) script ->
  ledger_history (W := Script) (play script s).1 (play script s).2.
Proof.
  intros Hs H. revert s Hs. induction H as [|[c h] script Hc _ IH]; intros s Hs; cbn [play]; [done|].
  pose proof (history_call s.1 c (open_world h s.2)) as Hh. rewrite disk_of_open in Hh. specialize (Hh Hs Hc).
  destruct (perform_call c (open_world h s.2)) as [w o]. by apply IH.
Qed.

(** ** It is what the theorems speak of *)

Lemma sample_texts : generation_texts.
Proof. split; [apply js_units_string|]. split; apply js_units_string. Qed.

Lemma sample_chain : chain_texts.
Proof. split; [done|]. intros t. unfold sha256Text, ledgerDigest. by destruct (Z.even _). Qed.

Ltac js_values :=
  repeat match goal with
  | |- js_value (fields_json _) => apply fields_js_value; [apply (bool_decide_unpack _); vm_compute; exact I|]
  | |- Forall _ (_ :: _) => apply Forall_cons; split
  | |- Forall _ [] => apply Forall_nil; exact I
  | |- js_value (snd _) => cbn [snd]
  | |- js_value (jtext _) => constructor; apply js_units_string
  | |- js_value (JString _) => constructor; apply js_units_string
  | |- js_value (JNumber _) => constructor
  end.

Lemma binding_js_value callId nonce : js_value (sample_binding callId nonce).
Proof. unfold sample_binding. js_values. Qed.

Lemma draft_sample : draft_ok draft.
Proof. repeat split; try apply js_units_string; constructor. Qed.

(** ** Calls on it *)

(** Both files of a ledger that was made anew and has reserved for [first_call]. *)
Definition reserved_calls := play [(call_reserve first_call (usd "0.6") (usd "1"), [])] ([], fresh_disk).

(** The second reservation does not fit; the first call costs less than was reserved for it. *)
Definition settled_calls := play
  [(call_reserve first_call (usd "0.6") (usd "1"), []); (call_reserve second_call (usd "0.5") (usd "1"), []);
   (call_attestAndSettle first_call draft (text_of_string "400000000"), []); (call_reserve second_call (usd "0.5") (usd "1"), [])] ([], fresh_disk).

Example settled_outcomes : settled_calls.1.*2 = [Returned (answer_bool true); Returned (answer_bool false); Returned answer_done; Returned (answer_bool true)].
Proof. vm_compute. reflexivity. Qed.

Ltac calls_ok := repeat (apply Forall_cons; split); try apply Forall_nil; cbn [fst call_ok]; try split; try apply binding_js_value; try apply draft_sample; try exact I.

(** The process stops in the synchronisation of its second reservation, the
    power is lost, and another process asks what has been spent. *)
Definition interrupted_calls := play
  [(call_reserve first_call (usd "0.6") (usd "1"), []); (call_reserve second_call (usd "0.2") (usd "1"), replicate 14 fine ++ [stops false])] ([], fresh_disk).
Definition power_back : Disk := {| dk_leaf := file_of interrupted_calls.2.(dk_leaf).(fl_durable); dk_wal := file_of interrupted_calls.2.(dk_wal).(fl_durable) |}.
Definition resumed_calls := play [(call_effectiveSpend, [])] (interrupted_calls.1, power_back).

Lemma fresh_history script : Forall (fun ch => call_ok ch.1) script -> ledger_history (W := Script) (play script ([], fresh_disk)).1 (play script ([], fresh_disk)).2.
Proof. apply play_history. constructor. Qed.

Lemma resumed_history : ledger_history (W := Script) resumed_calls.1 resumed_calls.2.
Proof.
  apply play_history; [|calls_ok]. eapply history_power; [apply fresh_history; calls_ok|].
  eexists _, _. split; [by left|]. split; [by left|]. done.
Qed.

Lemma settled_history : ledger_history (W := Script) settled_calls.1 settled_calls.2.
Proof. apply fresh_history. calls_ok. Qed.

(** ** A handle without trouble *)

Definition fresh_world : LedgerWorld Script := open_world [] fresh_disk.
Definition no_records : Folded := {| fd_datas := []; fd_tip := genesis; fd_seq := 0; fd_durableBytes := 0 |}.

Lemma sample_room d f : Z.of_nat (length d.(dk_wal).(fl_content)) <= 1000000 -> 
  Z.of_nat (length (line_bytes (wal_intent f.(fd_seq) f.(fd_durableBytes) (text_of_string (hex64 true)) (text_of_string "2026-07-01T00:00:00.000Z")))) <= 1000 ->
  Z.of_nat (length (line_bytes (wal_intent f.(fd_seq) f.(fd_durableBytes) (text_of_string (hex64 false)) (text_of_string "2026-07-01T00:00:00.000Z")))) <= 1000 ->
  roomy no_trouble d f.
Proof.
  intros Hd Ht Hf h ts (t & ->) (q & _ & ->). unfold sha256Text, ledgerDigest. change (host_now q).2 with (text_of_string "2026-07-01T00:00:00.000Z").
  unfold MAX_WAL_BYTES. destruct (Z.even _); lia.
Qed.

Lemma fresh_idle : idle no_trouble [] no_records [] fresh_world.
Proof.
  constructor; [done| |done|done|by vm_compute|apply sample_room; vm_compute; discriminate].
  split; [constructor|]. split; [done|]. exists []. by split_and!; [constructor|..].
Qed.

(** The first reservation has been recorded. *)
Definition first_text : text := record_text no_records (reserve_data first_call 600000000 true (text_of_string "2026-07-01T00:00:00.000Z")).
Definition reserved_world : LedgerWorld Script := open_world [] reserved_calls.2.
Definition one_record : Folded := match fold_journal (unlines [first_text]) with Ok f => f | Err _ => no_records end.
Definition first_account : Reservation := new_call 600000000 true first_call.

Lemma reserved_idle : idle no_trouble [first_text] one_record [(get "callId" first_call, first_account)] reserved_world.
Proof.
  constructor; [done| |vm_compute; reflexivity|vm_compute; reflexivity|by vm_compute|apply sample_room; vm_compute; discriminate].
  split; [constructor; [|constructor]|].
  { eapply (record_line_text []); [apply js_units_string|reflexivity|]. apply reserve_js_value; [apply sample_texts|apply binding_js_value|apply js_units_string]. }
  split; [vm_compute; reflexivity|].
  exists [wal_intent 0 0 (recordHash genesis 0 (reserve_data first_call 600000000 true (text_of_string "2026-07-01T00:00:00.000Z"))) (text_of_string "2026-07-01T00:00:00.000Z");
          wal_commit 0 (recordHash genesis 0 (reserve_data first_call 600000000 true (text_of_string "2026-07-01T00:00:00.000Z"))) (text_of_string "2026-07-01T00:00:00.000Z")].
  split; [constructor; [split; apply js_units_string|constructor; [split; apply js_units_string|constructor]]|]. split; vm_compute; reflexivity.
Qed.

(** ** An overrun, and an attestation *)

(** The first call turns out to cost twice what was reserved for it. *)
Definition overrun_calls := play
  [(call_reserve first_call (usd "0.6") (usd "1"), []); (call_attestAndSettle first_call draft (text_of_string "1200000000"), [])] ([], fresh_disk).

Lemma overrun_history : ledger_history (W := Script) overrun_calls.1 overrun_calls.2.
Proof. apply fresh_history. calls_ok. Qed.

Definition has_budget (B : Z) (co : LedgerCall * LedgerOutcome LedgerAnswer) : bool :=
  match co.1 with call_reserve _ _ budget => match usdToNano budget with Ok n => n =? B | Err _ => false end | _ => true end.

Lemma budgets_decided B calls : forallb (has_budget B) calls = true -> budgets_are B calls.
Proof.
  rewrite forallb_forall. intros H bind worst budget o Hin%list_elem_of_In. specialize (H _ Hin). unfold has_budget in H. cbn [fst] in H.
  destruct (usdToNano budget) as [n|]; [|discriminate H]. f_equal. lia.
Qed.

Definition attested_first (extra : list (text * json)) : json :=
  let payload := match accounted_payload first_call draft 400000000 (text_of_string "2026-07-01T00:00:00.000Z") with JObject kvs => JObject (kvs ++ extra) | v => v end in
  sealed_attest payload (match tagPayload attest_key payload with Ok tag => tag | Err _ => [] end).

Lemma encodable_ascii v : forallb (between 0 127) (js_String v) = true -> encodable v.
Proof.
  rewrite forallb_forall. intros H. apply well_formed_units, Forall_forall. intros c Hc%list_elem_of_In%H. unfold between in Hc. lia.
Qed.

Lemma payload_decided p : forallb (fun k => forallb (between 0 127) (js_String (get k p)) && (Z.abs (num_of (get k p)) <? 10 ^ 21)) payload_fields = true -> payload_encodable p.
Proof.
  rewrite forallb_forall. intros H. apply Forall_forall. intros k Hk%list_elem_of_In%H. apply andb_true_iff in Hk as [H1 H2].
  split; [by apply encodable_ascii|by apply Z.ltb_lt].
Qed.

(** Evidence of the right shape is attested at any time. *)
Lemma sample_evidence : evidence first_call draft 400000000 reserved_world.
Proof.
  split; [reflexivity|]. split; [reflexivity|]. split; [reflexivity|]. split; [vm_compute; reflexivity|]. split; [reflexivity|].
  intros ts [_ Hts]. eexists. split; [reflexivity|]. unfold verifyAttestation. set (p := accounted_payload first_call draft 400000000 ts).
  assert (validatePayloadShape p = Ok tt) as Hp by (subst p; destruct ts as [|c ts]; [by destruct Hts|]; vm_compute; reflexivity).
  set (tag := hmacSha256 _ _). change (get "payload" (sealed_attest p (text_of_string tag))) with p. change (get "tag" (sealed_attest p (text_of_string tag))) with (JString (text_of_string tag)).
  rewrite Hp. assert (is_text SHA256 (JString (text_of_string tag)) = true) as -> by (subst tag; unfold hmacSha256, ledgerHmac; by destruct (Z.even _)).
  cbn [is_object sealed_attest fields_json ensure mbind result_bind attest_key ledgerGeneration]. by rewrite same_value_text.
Qed.
