(* ===== verification/Store.v ===== *)
(** Store: the SQLite control store of src/control/store.ts.

    The tables of the database file are the record [Tables]; a statement of the
    source is a function on them, with the PRIMARY KEY, UNIQUE and CHECK
    constraints of MIGRATION_1_SQL as errors of its insertions. A table with a
    text key is a map, one ordered by [seq] a list. Everything else an operation
    meets is the class [StoreHost]: the clock and the fault injector of the
    options, the file checks, and SQLite, which may fail in any statement and in
    BEGIN and COMMIT. [transaction] is [db.transaction]: it restores the tables
    when its body throws or when COMMIT fails. Then the control store (Store) keeps a log. The relation [holds] says
    which log of events a set of tables stores; the operations that read
    return what the log determines, and the operations that write replace the
    log by an extension of it, or leave it as it was. *)
From S2P Require Import Prelude Text Json Ids ScmTypes ScmSchema ControlEvents EventSchema EventCode JsonText ControlState EventRead ControlReducer ScmReducer ControlApply ControlFrame AttemptLife TaskLife SessionLife CommandLife RunLife ScmLife ControlInvariant Effects.

(** * Errors *)

Inductive ControlStoreErrorCode :=
| RECOVERY_REQUIRED
| CURSOR_EXPIRED
| EVENT_ID_CONFLICT
| STALE_GENERATION
| STALE_VERSION
| RUN_IDENTITY_MISMATCH
| STORE_CLOSED
| STORE_BUSY
| INVALID_EVENT.
#[export] Instance ControlStoreErrorCode_eq_dec : EqDecision ControlStoreErrorCode. Proof. solve_decision. Defined.

(** What an operation may throw: a [ControlStoreError], a
    [ControlReductionError], an error of SQLite, or anything else (a TypeError,
    an error of an injected function). *)
Inductive Thrown :=
| ControlStoreError (code : ControlStoreErrorCode)
| ReductionError (e : ControlReductionError)
| SqliteError (busy : bool)
| EventTypeError (e : ControlEventError)
| OtherError.

Definition recovery : Thrown := ControlStoreError RECOVERY_REQUIRED.

Definition normalizeStoreError (error : Thrown) : Thrown :=
  match error with
  | ControlStoreError code => ControlStoreError code
  | ReductionError _ => ControlStoreError INVALID_EVENT
  | SqliteError true => ControlStoreError STORE_BUSY
  | SqliteError false => recovery
  | EventTypeError e => EventTypeError e
  | OtherError => OtherError
  end.

Abbreviation thrown := (result Thrown).

Definition asSafeInteger (value : Z) : thrown Z := ensure (nonNegative value) recovery ;; Ok value.
Definition canonicalUtc (value : string) : thrown string := ensure (ScmCanonicalTimestamp value) recovery ;; Ok value.

(** * Rows *)

Record MetaRow := {
  meta_store_id : string;
  meta_schema_version : Z;
  meta_reducer_version : Z;
  meta_run_id : string;
  meta_run_epoch : string;
  meta_retained_floor : Z;
  meta_head_seq : Z;
  meta_created_at : string
}.

Record EventRow := {
  er_seq : Z;
  er_event_id : string;
  er_run_id : string;
  er_run_epoch : string;
  er_task_id : option string;
  er_task_generation : option Z;
  er_expected_version : Z;
  er_occurred_at : string;
  er_recorded_at : string;
  er_actor_kind : string;
  er_actor_id : string;
  er_source_kind : option string;
  er_source_id : option string;
  er_source_generation : option Z;
  er_source_event_id : option string;
  er_event_type : string;
  er_payload_json : text;
  er_canonical_json : text;
  er_intent_digest : string;
  er_digest : string
}.

(** A row of a projection table: its indexed columns, the fact and its digest. *)
Record FactRow (C : Type) := { fr_columns : C; fr_fact_json : text; fr_digest : string }.
Arguments fr_columns {C}.
Arguments fr_fact_json {C}.
Arguments fr_digest {C}.
Arguments Build_FactRow {C}.

Record RunColumns := { rc_status : string; rc_version : Z; rc_updated_seq : Z }.
Record TaskColumns := { tcol_generation : Z; tcol_version : Z; tcol_updated_seq : Z }.
Record MessageColumns := { mc_message_id : string; mc_seq : Z }.
Record RuntimeColumns := { rtc_generation : Z; rtc_updated_seq : Z }.
Record AttemptColumns := { ac_task_id : string; ac_task_generation : Z; ac_attempt_generation : Z }.
#[export] Instance AttemptColumns_eq_dec : EqDecision AttemptColumns. Proof. solve_decision. Defined.
Record SteeringColumns := { sc_session_id : string; sc_session_generation : Z; sc_status : string }.

Record ConsumerCursorRow := { ccr_generation : Z; ccr_last_seq : Z; ccr_updated_at : string }.

Record Tables := {
  t_meta : option MetaRow;
  t_events : list EventRow;
  t_sequence : Z;  (** the last [seq] AUTOINCREMENT gave out *)
  t_run : option (FactRow RunColumns);
  t_tasks : gmap string (FactRow TaskColumns);
  t_messages : list (FactRow MessageColumns);
  t_runtimes : gmap string (FactRow RuntimeColumns);
  t_attempts : gmap string (FactRow AttemptColumns);
  t_steering : gmap string (FactRow SteeringColumns);
  t_aggregates : gmap string AggregateVersion;
  t_cursors : gmap string ConsumerCursorRow
}.

(** ** Tables with one component replaced *)

Definition put_meta (t : Tables) (v : option MetaRow) : Tables :=
  {| t_meta := v; t_events := t.(t_events); t_sequence := t.(t_sequence); t_run := t.(t_run); t_tasks := t.(t_tasks); t_messages := t.(t_messages); t_runtimes := t.(t_runtimes); t_attempts := t.(t_attempts); t_steering := t.(t_steering); t_aggregates := t.(t_aggregates); t_cursors := t.(t_cursors) |}.

Definition put_events (t : Tables) (v : list EventRow) (sequence : Z) : Tables :=
  {| t_meta := t.(t_meta); t_events := v; t_sequence := sequence; t_run := t.(t_run); t_tasks := t.(t_tasks); t_messages := t.(t_messages); t_runtimes := t.(t_runtimes); t_attempts := t.(t_attempts); t_steering := t.(t_steering); t_aggregates := t.(t_aggregates); t_cursors := t.(t_cursors) |}.

Definition put_run (t : Tables) (v : option (FactRow RunColumns)) : Tables :=
  {| t_meta := t.(t_meta); t_events := t.(t_events); t_sequence := t.(t_sequence); t_run := v; t_tasks := t.(t_tasks); t_messages := t.(t_messages); t_runtimes := t.(t_runtimes); t_attempts := t.(t_attempts); t_steering := t.(t_steering); t_aggregates := t.(t_aggregates); t_cursors := t.(t_cursors) |}.

Definition put_tasks (t : Tables) (v : gmap string (FactRow TaskColumns)) : Tables :=
  {| t_meta := t.(t_meta); t_events := t.(t_events); t_sequence := t.(t_sequence); t_run := t.(t_run); t_tasks := v; t_messages := t.(t_messages); t_runtimes := t.(t_runtimes); t_attempts := t.(t_attempts); t_steering := t.(t_steering); t_aggregates := t.(t_aggregates); t_cursors := t.(t_cursors) |}.

Definition put_messages (t : Tables) (v : list (FactRow MessageColumns)) : Tables :=
  {| t_meta := t.(t_meta); t_events := t.(t_events); t_sequence := t.(t_sequence); t_run := t.(t_run); t_tasks := t.(t_tasks); t_messages := v; t_runtimes := t.(t_runtimes); t_attempts := t.(t_attempts); t_steering := t.(t_steering); t_aggregates := t.(t_aggregates); t_cursors := t.(t_cursors) |}.

Definition put_runtimes (t : Tables) (v : gmap string (FactRow RuntimeColumns)) : Tables :=
  {| t_meta := t.(t_meta); t_events := t.(t_events); t_sequence := t.(t_sequence); t_run := t.(t_run); t_tasks := t.(t_tasks); t_messages := t.(t_messages); t_runtimes := v; t_attempts := t.(t_attempts); t_steering := t.(t_steering); t_aggregates := t.(t_aggregates); t_cursors := t.(t_cursors) |}.

Definition put_attempts (t : Tables) (v : gmap string (FactRow AttemptColumns)) : Tables :=
  {| t_meta := t.(t_meta); t_events := t.(t_events); t_sequence := t.(t_sequence); t_run := t.(t_run); t_tasks := t.(t_tasks); t_messages := t.(t_messages); t_runtimes := t.(t_runtimes); t_attempts := v; t_steering := t.(t_steering); t_aggregates := t.(t_aggregates); t_cursors := t.(t_cursors) |}.

Definition put_steering (t : Tables) (v : gmap string (FactRow SteeringColumns)) : Tables :=
  {| t_meta := t.(t_meta); t_events := t.(t_events); t_sequence := t.(t_sequence); t_run := t.(t_run); t_tasks := t.(t_tasks); t_messages := t.(t_messages); t_runtimes := t.(t_runtimes); t_attempts := t.(t_attempts); t_steering := v; t_aggregates := t.(t_aggregates); t_cursors := t.(t_cursors) |}.

Definition put_aggregates (t : Tables) (v : gmap string AggregateVersion) : Tables :=
  {| t_meta := t.(t_meta); t_events := t.(t_events); t_sequence := t.(t_sequence); t_run := t.(t_run); t_tasks := t.(t_tasks); t_messages := t.(t_messages); t_runtimes := t.(t_runtimes); t_attempts := t.(t_attempts); t_steering := t.(t_steering); t_aggregates := v; t_cursors := t.(t_cursors) |}.

Definition put_cursors (t : Tables) (v : gmap string ConsumerCursorRow) : Tables :=
  {| t_meta := t.(t_meta); t_events := t.(t_events); t_sequence := t.(t_sequence); t_run := t.(t_run); t_tasks := t.(t_tasks); t_messages := t.(t_messages); t_runtimes := t.(t_runtimes); t_attempts := t.(t_attempts); t_steering := t.(t_steering); t_aggregates := t.(t_aggregates); t_cursors := v |}.

(** ** The constraints of the schema *)

Definition isNone {A} (o : option A) : bool := negb (isSome o).

(** The CHECK constraints of control_events. *)
Definition event_row_checks (r : EventRow) : bool :=
  Bool.eqb (isNone r.(er_task_id)) (isNone r.(er_task_generation))
  && optional (fun g => 1 <=? g) r.(er_task_generation)
  && (0 <=? r.(er_expected_version))
  && bool_decide (r.(er_actor_kind) ∈ ["control-plane"; "operator"; "agent"; "migration"; "system"; "integration"]%string)
  && ((isNone r.(er_source_kind) && isNone r.(er_source_id) && isNone r.(er_source_generation) && isNone r.(er_source_event_id))
      || (isSome r.(er_source_kind) && isSome r.(er_source_id) && isSome r.(er_source_generation) && isSome r.(er_source_event_id)))
  && optional (fun g => 1 <=? g) r.(er_source_generation)
  && (strlen r.(er_intent_digest) =? 64) && (strlen r.(er_digest) =? 64).

(** control_events_external_source: the key of a row whose source_kind is not null. *)
Definition source_identity (r : EventRow) : option (string * option string * option Z * option string) :=
  kind ← r.(er_source_kind); Some (kind, r.(er_source_id), r.(er_source_generation), r.(er_source_event_id)).

(** INSERT INTO control_events *)
Definition insert_event_row (r : EventRow) (t : Tables) : thrown Tables :=
  ensure (event_row_checks r
          && negb (existsb (fun r' => bool_decide (r'.(er_event_id) = r.(er_event_id))) t.(t_events))
          && negb (existsb (fun r' => isSome (source_identity r) && bool_decide (source_identity r' = source_identity r)) t.(t_events)))
    (SqliteError false) ;;
  Ok (put_events t (t.(t_events) ++ [r]) r.(er_seq)).

(** INSERT INTO message_projection: the message_id is the key and the seq unique. *)
Definition insert_message_row (r : FactRow MessageColumns) (t : Tables) : thrown Tables :=
  ensure (negb (existsb (fun r' => bool_decide (r'.(fr_columns).(mc_message_id) = r.(fr_columns).(mc_message_id))
                                || (r'.(fr_columns).(mc_seq) =? r.(fr_columns).(mc_seq))) t.(t_messages)))
    (SqliteError false) ;;
  Ok (put_messages t (t.(t_messages) ++ [r])).

(** INSERT INTO attempt_projection ... ON CONFLICT(attempt_id) DO UPDATE: no other attempt has
    the same task, task generation and attempt generation. *)
Definition upsert_attempt_row (key : string) (r : FactRow AttemptColumns) (t : Tables) : thrown Tables :=
  ensure (negb (existsb (fun kr => negb (bool_decide (kr.1 = key)) && bool_decide (kr.2.(fr_columns) = r.(fr_columns)))
                 (map_to_list t.(t_attempts))))
    (SqliteError false) ;;
  Ok (put_attempts t (<[key := r]> t.(t_attempts))).

(** UPDATE control_meta SET head_seq = ? *)
Definition update_head (head : Z) (t : Tables) : thrown Tables :=
  Ok (put_meta t ((fun m => {|
    meta_store_id := m.(meta_store_id); meta_schema_version := m.(meta_schema_version);
    meta_reducer_version := m.(meta_reducer_version); meta_run_id := m.(meta_run_id); meta_run_epoch := m.(meta_run_epoch);
    meta_retained_floor := m.(meta_retained_floor); meta_head_seq := head; meta_created_at := m.(meta_created_at) |}) <$> t.(t_meta))).

(** ORDER BY seq *)
Definition order_by {A} (seq : A -> Z) (l : list A) : list A := js_sort (fun a b => seq a - seq b) l.

(** * The host *)

Inductive ControlStoreFaultPoint :=
| before_event_insert | after_event_insert
| before_projection_write | after_projection_write
| before_cursor_write | after_cursor_write
| before_commit.

(** [BEGIN IMMEDIATE] takes the writer lock, [BEGIN DEFERRED] a snapshot. *)
Inductive TransactionMode := immediate | deferred.

(** Each may throw what it likes, and change the world the host keeps. *)
Class StoreHost (W : Type) := {
  host_now : effect W Thrown string;
  host_fault : ControlStoreFaultPoint -> option ControlEvent -> effect W Thrown unit;
  host_begin : TransactionMode -> effect W Thrown unit;
  host_statement : effect W Thrown unit;
  host_commit : effect W Thrown unit;
  assertUnchangedFile : effect W Thrown unit
}.

Record StoreWorld (W : Type) := { sw_tables : Tables; sw_closed : bool; sw_host : W }.
Arguments sw_tables {W}.
Arguments sw_closed {W}.
Arguments sw_host {W}.
Arguments Build_StoreWorld {W}.

Definition with_tables {W} (w : StoreWorld W) (t : Tables) : StoreWorld W :=
  {| sw_tables := t; sw_closed := w.(sw_closed); sw_host := w.(sw_host) |}.

Section statements.
Context {W : Type} `{!StoreHost W}.

Local Abbreviation command := (effect (StoreWorld W) Thrown).

Definition on_host {A} (c : effect W Thrown A) : command A := fun w =>
  let (h, r) := c w.(sw_host) in ({| sw_tables := w.(sw_tables); sw_closed := w.(sw_closed); sw_host := h |}, r).

(** A SELECT and a statement that writes. *)
Definition read_tables {A} (f : Tables -> A) : command A := fun w => (w, Ok (f w.(sw_tables))).
Definition write_tables (f : Tables -> thrown Tables) : command unit := fun w =>
  match f w.(sw_tables) with Ok t => (with_tables w t, Ok tt) | Err e => (w, Err e) end.
Definition query {A} (f : Tables -> A) : command A := on_host host_statement ;; read_tables f.
Definition execute (f : Tables -> thrown Tables) : command unit := on_host host_statement ;; write_tables f.

(** [db.transaction(body)]: BEGIN, the body, COMMIT; ROLLBACK when one throws. *)
Definition or_rollback {A} (c : command A) : command A := fun w =>
  match c w with
  | (w', Ok a) => (w', Ok a)
  | (w', Err e) => (with_tables w' w.(sw_tables), Err e)
  end.
Definition transaction {A} (mode : TransactionMode) (body : command A) : command A :=
  on_host (host_begin mode) ;; or_rollback (a ← body; on_host host_commit ;; mret a).
End statements.

(** * Reading rows *)

(** [/^[0-9a-f]{8}-[0-9a-f]{4}-4[0-9a-f]{3}-[89ab][0-9a-f]{3}-[0-9a-f]{12}$/i] *)
Fixpoint uuid_v4_from (i : Z) (s : string) : bool :=
  match s with
  | EmptyString => i =? 36
  | String c s' =>
      (if (i =? 8) || (i =? 13) || (i =? 18) || (i =? 23) then code c =? 45
       else if i =? 14 then code c =? 52
       else if i =? 19 then between 56 57 (code c) || between 97 98 (code c) || between 65 66 (code c)
       else is_hex_any_case c)
      && uuid_v4_from (i + 1) s'
  end.

Definition checkMeta (m : MetaRow) : thrown MetaRow :=
  ensure ((m.(meta_schema_version) =? 1) && (m.(meta_reducer_version) =? 1)) recovery ;;
  ensure (isSafeInteger m.(meta_retained_floor) && (1 <=? m.(meta_retained_floor))) recovery ;;
  ensure (isSafeInteger m.(meta_head_seq) && (0 <=? m.(meta_head_seq))) recovery ;;
  ensure (uuid_v4_from 0 m.(meta_store_id)) recovery ;;
  canonicalUtc m.(meta_created_at) ;;
  Ok m.

Definition verifyRunIdentity (m : MetaRow) (runId runEpoch : string) : thrown unit :=
  ensure (bool_decide (m.(meta_run_id) = runId) && bool_decide (m.(meta_run_epoch) = runEpoch))
    (ControlStoreError RUN_IDENTITY_MISMATCH).

Section rows.
Context {D : Digest} {U : UrlApi}.

(** The columns of a row against the event its text holds. *)
Definition columns_agree (r : EventRow) (e : ControlEvent) (recordedAt : string) : bool :=
  bool_decide (e.(ev_eventId) = r.(er_event_id))
  && bool_decide (e.(ev_runId) = r.(er_run_id))
  && bool_decide (e.(ev_runEpoch) = r.(er_run_epoch))
  && bool_decide (e.(ev_taskId) = r.(er_task_id))
  && bool_decide (e.(ev_taskGeneration) = r.(er_task_generation))
  && bool_decide (e.(ev_expectedVersion) = r.(er_expected_version))
  && bool_decide (e.(ev_occurredAt) = r.(er_occurred_at))
  && bool_decide (recordedAt = r.(er_recorded_at))
  && bool_decide (ControlActorKind_name e.(ev_actorKind) = r.(er_actor_kind))
  && bool_decide (e.(ev_actorId) = r.(er_actor_id))
  && bool_decide (e.(ev_sourceKind) = r.(er_source_kind))
  && bool_decide (e.(ev_sourceId) = r.(er_source_id))
  && bool_decide (e.(ev_sourceGeneration) = r.(er_source_generation))
  && bool_decide (e.(ev_sourceEventId) = r.(er_source_event_id))
  && bool_decide (event_type e.(ev_payload) = r.(er_event_type)).

(** [JSON.parse], the [recordedAt] taken off, and [parseControlEvent] of the rest. *)
Definition parse_stored_event (t : text) : option (ControlEvent * string) :=
  '(e, recordedAt) ← JSON_parse t ≫= PersistedControlEvent_read;
  if ScmCanonicalTimestamp recordedAt && is_ok (parseControlEvent e) then Some (e, recordedAt) else None.

Definition decodeEventRow (r : EventRow) : thrown PersistedControlEvent :=
  seq ← asSafeInteger r.(er_seq);
  '(event, recordedAt) ← match parse_stored_event r.(er_canonical_json) with Some er => Ok er | None => Err recovery end;
  canonical ← map_err EventTypeError (canonicalPersistedControlEvent event recordedAt);
  computedIntentDigest ← map_err EventTypeError (controlEventDigest event);
  computedDigest ← map_err EventTypeError (persistedControlEventDigest event recordedAt);
  ensure (bool_decide (canonical = r.(er_canonical_json)) && bool_decide (computedDigest = r.(er_digest))) recovery ;;
  ensure (bool_decide (computedIntentDigest = r.(er_intent_digest))) recovery ;;
  payload ← map_err (fun e => EventTypeError (EventCanonical e)) (canonicalJson (payload_json event.(ev_payload)));
  ensure (bool_decide (payload = r.(er_payload_json))) recovery ;;
  ensure (columns_agree r event recordedAt) recovery ;;
  Ok {| pe_event := event; pe_seq := seq; pe_recordedAt := recordedAt;
        pe_intentDigest := r.(er_intent_digest); pe_digest := r.(er_digest) |}.

Definition decodeFact {A C} (f : A -> json) (g : json -> option A) (r : FactRow C) : thrown A :=
  ensure (bool_decide (sha256Text r.(fr_fact_json) = r.(fr_digest))) recovery ;;
  parsed ← match JSON_parse r.(fr_fact_json) with Some j => Ok j | None => Err recovery end;
  ensure (match canonicalJson parsed with Ok t => bool_decide (t = r.(fr_fact_json)) | Err _ => false end) recovery ;;
  match g parsed with Some a => Ok a | None => Err recovery end.

(** The rows of a table, each under its key. *)
Definition decode_rows {A C} (f : A -> json) (g : json -> option A) (rows : gmap string (FactRow C)) : thrown (obj A) :=
  facts ← map_result (fun kr => a ← decodeFact f g kr.2; Ok (kr.1, a)) (map_to_list rows);
  Ok (list_to_map facts).

Definition decode_aggregate (ka : string * AggregateVersion) : thrown (string * AggregateVersion) :=
  ensure (isSafeInteger ka.2.(av_generation) && isSafeInteger ka.2.(av_version) && isSafeInteger ka.2.(av_updatedSeq)) recovery ;;
  Ok ka.
End rows.

(** * Checks of a batch *)

Definition for_each {A} (l : list A) (check : A -> thrown unit) : thrown unit := map_result check l ;; Ok tt.
Definition invalid_event : Thrown := ControlStoreError INVALID_EVENT.

(** [events.filter((event) => event.type === type)], with the payloads. *)
Definition payloads {P} (select : ControlEventPayload -> option P) (events : list ControlEvent) : list (ControlEvent * P) :=
  omap (fun e => p ← select e.(ev_payload); Some (e, p)) events.

Definition poll_completion (b : ControlEventPayload) := match b with scm_poll_completed p => Some p | _ => None end.
Definition poll_failure (b : ControlEventPayload) := match b with scm_poll_failed p => Some p | _ => None end.
Definition accepted_bucket (b : ControlEventPayload) := match b with scm_bucket_accepted p => Some p | _ => None end.
Definition poll_start (b : ControlEventPayload) := match b with scm_poll_started p => Some p | _ => None end.
Definition reaction_creation (b : ControlEventPayload) := match b with scm_reaction_created p => Some p | _ => None end.

(** A bucket and a completion of one poll of one publication generation. *)
Definition of_poll (completed : scmPollCompletedPayload) (bucket : scmBucketAcceptedPayload) : bool :=
  bool_decide (completed.(spcm_pollId) = bucket.(sba_pollId))
  && bool_decide (completed.(spcm_publicationId) = bucket.(sba_publicationId))
  && (completed.(spcm_publicationGeneration) =? bucket.(sba_publicationGeneration)).

Definition validateScmBatch (events : list ControlEvent) : thrown unit :=
  let completions := payloads poll_completion events in
  let failures := payloads poll_failure events in
  let buckets := payloads accepted_bucket events in
  for_each (payloads poll_start events) (fun started =>
    ensure (negb (existsb (fun t => bool_decide (t.2.(spcm_pollId) = started.2.(sps_pollId))) completions
               || existsb (fun t => bool_decide (t.2.(spf_pollId) = started.2.(sps_pollId))) failures)) invalid_event) ;;
  for_each completions (fun completed =>
    ensure (Nat.eqb (length (List.filter (fun c => bool_decide (c.2.(spcm_pollId) = completed.2.(spcm_pollId))) completions)) 1) invalid_event ;;
    for_each completed.2.(spcm_bucketOutcomes) (fun outcome =>
      let matching := List.filter (fun b => of_poll completed.2 b.2 && bool_decide (sba_kind b.2 = outcome.(outcome_kind))) buckets in
      if decision_accepted outcome.(outcome_decision) then
        match matching with
        | [b] => ensure (bool_decide (b.2.(sba_decision) = outcome.(outcome_decision))
                         && bool_decide (Some (scmAnyBucket_meta b.2.(sba_bucket)).(meta_semanticHash) = outcome.(outcome_semanticHash)))
                   invalid_event
        | _ => Err invalid_event
        end
      else ensure (Nat.eqb (length matching) 0) invalid_event)) ;;
  for_each buckets (fun b =>
    ensure (Nat.eqb (length (List.filter (fun c => of_poll c.2 b.2) completions)) 1) invalid_event) ;;
  for_each failures (fun failure =>
    ensure (negb (existsb (fun b => bool_decide (b.2.(sba_pollId) = failure.2.(spf_pollId))) buckets)) invalid_event) ;;
  for_each (payloads reaction_creation events) (fun reaction =>
    ensure (Nat.eqb (length (List.filter (fun c =>
      bool_decide (c.2.(spcm_publicationId) = reaction.2.(src_publicationId))
      && (c.2.(spcm_publicationGeneration) =? reaction.2.(src_publicationGeneration))
      && bool_decide (c.2.(spcm_expectedHeadSha) = reaction.2.(src_headSha))
      && bool_decide (c.1.(ev_taskId) = reaction.1.(ev_taskId))
      && bool_decide (c.1.(ev_taskGeneration) = reaction.1.(ev_taskGeneration))
      && existsb (fun o => bool_decide (ScmBucketKind_name o.(outcome_kind) = ScmReactionFactKind_name reaction.2.(src_factKind))
                           && decision_accepted o.(outcome_decision)) c.2.(spcm_bucketOutcomes)) completions)) 1) invalid_event).

(** The session an event is fenced against, and whether it must exist. *)
Definition session_target (b : ControlEventPayload) : option (string * Z * bool) :=
  match b with
  | runtime_observed p => Some (p.(rp_sessionId), p.(rp_sessionGeneration), false)
  | steering_command_admitted {| sap_sessionId := id; sap_sessionGeneration := g |}
  | steering_command_included {| sip_sessionId := id; sip_sessionGeneration := g |}
  | steering_command_withdrawn {| swp_sessionId := id; swp_sessionGeneration := g |}
  | steering_command_superseded {| ssp_sessionId := id; ssp_sessionGeneration := g |}
  | steering_command_expired {| sep_sessionId := id; sep_sessionGeneration := g |}
  | scm_poll_started {| sps_sessionId := id; sps_sessionGeneration := g |}
  | scm_reaction_created {| src_sessionId := id; src_sessionGeneration := g |} => Some (id, g, true)
  | _ => None
  end.

Definition stale_generation : Thrown := ControlStoreError STALE_GENERATION.
Definition stale_version : Thrown := ControlStoreError STALE_VERSION.

Definition task_fence (state : ControlProjection) (e : ControlEvent) : thrown unit :=
  match e.(ev_payload) with
  | task_created _ =>
      ensure (negb (present (obj_get state.(c_tasks) (default "null"%string e.(ev_taskId))))) stale_generation ;;
      ensure (bool_decide (e.(ev_taskGeneration) = Some 1)) stale_generation
  | steering_command_refused _ | steering_command_terminal_refused _ => Ok tt
  | _ =>
      match e.(ev_taskId) with
      | None => Ok tt
      | Some taskId =>
          match obj_get state.(c_tasks) taskId with
          | Own task => ensure (bool_decide (e.(ev_taskGeneration) = Some task.(tf_generation))) stale_generation
          | Absent | Inherited => Err stale_generation
          end
      end
  end.

Definition session_fence (state : ControlProjection) (e : ControlEvent) : thrown unit :=
  match session_target e.(ev_payload) with
  | None => Ok tt
  | Some (sessionId, generation, requireExisting) =>
      let current := obj_get state.(c_runtimes) sessionId in
      ensure (negb match current with Own r => generation <? r.(rf_sessionGeneration) | _ => false end) stale_generation ;;
      ensure (negb (requireExisting && negb match current with Own r => r.(rf_sessionGeneration) =? generation | _ => false end)) stale_generation
  end.

Definition validateFences (state : ControlProjection) (e : ControlEvent) : thrown unit :=
  task_fence state e ;;
  session_fence state e ;;
  aggregate ← match aggregateForEvent e with Ok a => Ok a | Err _ => Err OtherError end;
  ensure (e.(ev_expectedVersion) =? aggregate_version state (agg_key aggregate)) stale_version.

(** * Appending *)

Record AppendResult := {
  ar_eventId : string;
  ar_seq : Z;
  ar_digest : string;
  ar_intentDigest : string;
  ar_recordedAt : string;
  ar_idempotent : bool;
  ar_aggregateVersion : Z
}.

Record ConsumerCursor := { cc_consumerId : string; cc_generation : Z; cc_lastSeq : Z; cc_updatedAt : string }.
Record ConsumerCursorAdvance := { ca_consumerId : string; ca_generation : Z; ca_expectedLastSeq : Z; ca_nextLastSeq : Z }.
Record Committed := { cm_results : list AppendResult; cm_headSeq : Z; cm_inserted : bool; cm_cursor : option ConsumerCursor }.

(** * The projection tables *)

(** [event_type LIKE 'scm.%']: LIKE ignores the case of ASCII letters. *)
Definition ascii_lower (c : Ascii.ascii) : Ascii.ascii := if between 65 90 (code c) then char_of (code c + 32) else c.
Fixpoint string_lower (s : string) : string :=
  match s with EmptyString => EmptyString | String c s' => String (ascii_lower c) (string_lower s') end.
Definition like_scm (type : string) : bool := String.prefix "scm." (string_lower type).

(** [event.payload.attemptId] and [event.payload.commandId]. *)
Definition payload_attemptId (b : ControlEventPayload) : string :=
  match b with
  | attempt_prompt_prepared p => p.(app_attemptId)
  | attempt_launch_planned p => p.(alp_attemptId)
  | attempt_started p => p.(asp_attemptId)
  | attempt_exited p => p.(aep_attemptId)
  | attempt_abandoned p => p.(aap_attemptId)
  | _ => EmptyString
  end.
Definition payload_commandId (b : ControlEventPayload) : string :=
  match b with
  | steering_command_admitted p => p.(sap_commandId)
  | steering_command_refused p => p.(srp_commandId)
  | steering_command_terminal_refused p => p.(strp_commandId)
  | steering_command_included p => p.(sip_commandId)
  | steering_command_withdrawn p => p.(swp_commandId)
  | steering_command_superseded p => p.(ssp_commandId)
  | steering_command_expired p => p.(sep_commandId)
  | _ => EmptyString
  end.

Definition lift_slot {A} (s : slot A) : thrown A :=
  match s with Own a => Ok a | Absent => Err recovery | Inherited => Err OtherError end.

Section store.
Context {D : Digest} {U : UrlApi} {W : Type} `{!StoreHost W}.
Local Abbreviation command := (effect (StoreWorld W) Thrown).

Definition throw {A} (e : Thrown) : command A := eff_of (Err e).

Definition readMeta : command MetaRow :=
  row ← query t_meta;
  match row with None => throw recovery | Some m => eff_of (checkMeta m) end.

Definition select_events (throughSeq : option Z) (t : Tables) : list EventRow :=
  order_by er_seq (List.filter (fun r => match throughSeq with Some n => r.(er_seq) <=? n | None => true end) t.(t_events)).

Definition readAllEvents (throughSeq : option Z) : command (list PersistedControlEvent) :=
  rows ← query (select_events throughSeq);
  eff_of (map_result decodeEventRow rows).

(** The SCM part is replayed from the events; the other parts are the stored facts. *)
Definition loadScm (runId runEpoch : string) (head : Z) : command ScmControlProjection :=
  has_scm ← query (fun t => existsb (fun r => like_scm r.(er_event_type)) t.(t_events));
  if has_scm : bool then
    events ← readAllEvents (Some head);
    replayed ← eff_of (map_err ReductionError (reduceControlEvents runId runEpoch events None));
    mret replayed.(c_scm)
  else mret emptyScmControlProjection.

Definition loadProjection (runId runEpoch : string) : command ControlProjection :=
  meta ← readMeta;
  eff_of (verifyRunIdentity meta runId runEpoch) ;;
  runRow ← query t_run;
  run ← eff_of (match runRow with None => Ok None | Some r => x ← decodeFact RunFact_json RunFact_read r; Ok (Some x) end);
  taskRows ← query t_tasks;
  tasks ← eff_of (decode_rows TaskFact_json TaskFact_read taskRows);
  messageRows ← query (fun t => order_by (fun r => r.(fr_columns).(mc_seq)) t.(t_messages));
  messages ← eff_of (map_result (decodeFact MessageFact_json MessageFact_read) messageRows);
  runtimeRows ← query t_runtimes;
  runtimes ← eff_of (decode_rows RuntimeFact_json RuntimeFact_read runtimeRows);
  attemptRows ← query t_attempts;
  attempts ← eff_of (decode_rows AttemptFact_json AttemptFact_read attemptRows);
  steeringRows ← query t_steering;
  steering ← eff_of (decode_rows SteeringFact_json SteeringFact_read steeringRows);
  aggregateRows ← query t_aggregates;
  aggregates ← eff_of (map_result decode_aggregate (map_to_list aggregateRows));
  scm ← loadScm runId runEpoch meta.(meta_head_seq);
  mret {| c_runId := runId; c_runEpoch := runEpoch; c_headSeq := meta.(meta_head_seq); c_run := run; c_tasks := tasks;
          c_messages := messages; c_runtimes := runtimes; c_attempts := attempts; c_steering := steering; c_scm := scm;
          c_aggregateVersions := list_to_map aggregates |}.

(** The row [insertFact] and [upsertFact] write. *)
Definition fact_row {A C} (f : A -> json) (columns : C) (fact : A) : thrown (FactRow C) :=
  factJson ← map_err (fun e => EventTypeError (EventCanonical e)) (canonicalJson (f fact));
  Ok {| fr_columns := columns; fr_fact_json := factJson; fr_digest := sha256Text factJson |}.

Definition run_row (r : RunFact) : thrown (FactRow RunColumns) :=
  fact_row RunFact_json {| rc_status := RunStatus_name r.(rn_status); rc_version := r.(rn_version); rc_updated_seq := r.(rn_updatedSeq) |} r.
Definition task_row (t : TaskFact) : thrown (FactRow TaskColumns) :=
  fact_row TaskFact_json {| tcol_generation := t.(tf_generation); tcol_version := t.(tf_version); tcol_updated_seq := t.(tf_updatedSeq) |} t.
Definition message_row (m : MessageFact) : thrown (FactRow MessageColumns) :=
  fact_row MessageFact_json {| mc_message_id := m.(mf_messageId); mc_seq := m.(mf_seq) |} m.
Definition runtime_row (r : RuntimeFact) : thrown (FactRow RuntimeColumns) :=
  fact_row RuntimeFact_json {| rtc_generation := r.(rf_sessionGeneration); rtc_updated_seq := r.(rf_updatedSeq) |} r.
Definition attempt_row (a : AttemptFact) : thrown (FactRow AttemptColumns) :=
  fact_row AttemptFact_json
    {| ac_task_id := a.(af_taskId); ac_task_generation := a.(af_taskGeneration); ac_attempt_generation := a.(af_attemptGeneration) |} a.
Definition steering_row (c : SteeringFact) : thrown (FactRow SteeringColumns) :=
  fact_row SteeringFact_json
    {| sc_session_id := c.(sf_sessionId); sc_session_generation := c.(sf_sessionGeneration); sc_status := SteeringStatus_name c.(sf_status) |} c.

(** The statements of one reducer step: the row of the fact its event wrote. *)
Definition persist_fact (state : ControlProjection) (pe : PersistedControlEvent) : command unit :=
  match pe.(pe_event).(ev_payload) with
  | run_started _ | run_completed _ | run_failed _ | run_cancelled _ | run_checkpointed _ =>
      match state.(c_run) with
      | None => throw recovery
      | Some run => row ← eff_of (run_row run); execute (fun t => Ok (put_run t (Some row)))
      end
  | task_created _ | task_status_changed _ | task_reopened _ =>
      task ← eff_of (lift_slot (obj_get state.(c_tasks) (default "null"%string pe.(pe_event).(ev_taskId))));
      row ← eff_of (task_row task);
      execute (fun t => Ok (put_tasks t (<[task.(tf_id) := row]> t.(t_tasks))))
  | message_posted _ =>
      match List.find (fun m => m.(mf_seq) =? pe.(pe_seq)) state.(c_messages) with
      | None => throw recovery
      | Some message => row ← eff_of (message_row message); execute (insert_message_row row)
      end
  | runtime_observed p =>
      runtime ← eff_of (lift_slot (obj_get state.(c_runtimes) p.(rp_sessionId)));
      row ← eff_of (runtime_row runtime);
      execute (fun t => Ok (put_runtimes t (<[runtime.(rf_sessionId) := row]> t.(t_runtimes))))
  | attempt_prompt_prepared _ | attempt_launch_planned _ | attempt_started _ | attempt_exited _ | attempt_abandoned _ =>
      attempt ← eff_of (lift_slot (obj_get state.(c_attempts) (payload_attemptId pe.(pe_event).(ev_payload))));
      row ← eff_of (attempt_row attempt);
      execute (upsert_attempt_row attempt.(af_attemptId) row)
  | steering_command_admitted _ | steering_command_refused _ | steering_command_terminal_refused _ | steering_command_included _
  | steering_command_withdrawn _ | steering_command_superseded _ | steering_command_expired _ =>
      command ← eff_of (lift_slot (obj_get state.(c_steering) (payload_commandId pe.(pe_event).(ev_payload))));
      row ← eff_of (steering_row command);
      execute (fun t => Ok (put_steering t (<[command.(sf_commandId) := row]> t.(t_steering))))
  | _ => mret tt
  end.

Definition persist_aggregate (state : ControlProjection) (_ : unit) (key : string) : command unit :=
  aggregate ← eff_of (lift_slot (obj_get state.(c_aggregateVersions) key));
  execute (fun t => Ok (put_aggregates t (<[key := aggregate]> t.(t_aggregates)))).

(** [aggregateForEvent(event).key], and the aggregate a reopened task starts. *)
Definition written_keys (pe : PersistedControlEvent) : thrown (list string) :=
  aggregate ← match aggregateForEvent pe.(pe_event) with Ok a => Ok a | Err _ => Err OtherError end;
  Ok (agg_key aggregate ::
      match pe.(pe_event).(ev_payload) with
      | task_reopened p => [aggregate_key agg_task (default "null"%string pe.(pe_event).(ev_taskId)) p.(trp_newGeneration)]
      | _ => []
      end).

Definition persistProjectionDelta (state : ControlProjection) (pe : PersistedControlEvent) : command unit :=
  persist_fact state pe ;;
  keys ← eff_of (written_keys pe);
  eff_fold (persist_aggregate state) tt keys.

(** * One transaction *)

(** The fields [runId], [runEpoch] and [storeId] of the open store. *)
Variables runId runEpoch storeId : string.

Definition on_event_error {A} (r : result ControlEventError A) : command A := eff_of (map_err EventTypeError r).

(** SELECT * FROM control_events WHERE event_id = ? *)
Definition find_event (eventId : string) : command (option EventRow) :=
  query (fun t => List.find (fun r => bool_decide (r.(er_event_id) = eventId)) t.(t_events)).

Definition validateExistingEvent (row : EventRow) (event : ControlEvent) (canonical : text) (digest : string) : thrown AppendResult :=
  persisted ← decodeEventRow row;
  ensure (bool_decide (row.(er_intent_digest) = digest)) (ControlStoreError EVENT_ID_CONFLICT) ;;
  original ← map_err EventTypeError (canonicalControlEvent persisted.(pe_event));
  ensure (bool_decide (original = canonical)) (ControlStoreError EVENT_ID_CONFLICT) ;;
  Ok {| ar_eventId := event.(ev_eventId); ar_seq := persisted.(pe_seq); ar_digest := persisted.(pe_digest);
        ar_intentDigest := persisted.(pe_intentDigest); ar_recordedAt := persisted.(pe_recordedAt); ar_idempotent := true;
        ar_aggregateVersion := event.(ev_expectedVersion) + 1 |}.

(** A new event may not reuse the external source identity of another. *)
Definition check_source (e : ControlEvent) : command unit :=
  match e.(ev_sourceKind) with
  | None => mret tt
  | Some kind =>
      sourceExisting ← query (fun t => List.find (fun r =>
        bool_decide (source_identity r = Some (kind, e.(ev_sourceId), e.(ev_sourceGeneration), e.(ev_sourceEventId)))) t.(t_events));
      match sourceExisting with
      | None => mret tt
      | Some row => eff_of (decodeEventRow row) ;; throw (ControlStoreError EVENT_ID_CONFLICT)
      end
  end.

Definition new_row (e : ControlEvent) (recordedAt : string) (payload canonical : text) (intentDigest digest : string) (seq : Z) : EventRow := {|
  er_seq := seq; er_event_id := e.(ev_eventId); er_run_id := e.(ev_runId); er_run_epoch := e.(ev_runEpoch);
  er_task_id := e.(ev_taskId); er_task_generation := e.(ev_taskGeneration); er_expected_version := e.(ev_expectedVersion);
  er_occurred_at := e.(ev_occurredAt); er_recorded_at := recordedAt;
  er_actor_kind := ControlActorKind_name e.(ev_actorKind); er_actor_id := e.(ev_actorId);
  er_source_kind := e.(ev_sourceKind); er_source_id := e.(ev_sourceId); er_source_generation := e.(ev_sourceGeneration);
  er_source_event_id := e.(ev_sourceEventId); er_event_type := event_type e.(ev_payload);
  er_payload_json := payload; er_canonical_json := canonical; er_intent_digest := intentDigest; er_digest := digest |}.

(** INSERT INTO control_events, and [info.lastInsertRowid]. *)
Definition insert_event (row : Z -> EventRow) : command Z :=
  execute (fun t => insert_event_row (row (t.(t_sequence) + 1)) t) ;;
  read_tables t_sequence.

Record Progress := { pg_projection : ControlProjection; pg_results : list AppendResult; pg_inserted : bool }.

(** The clock, whose text must be a canonical UTC time. *)
Definition clock : command string := time ← on_host host_now; eff_of (canonicalUtc time).

(** The event, recorded now: its row, its reducer step and the facts that step wrote. *)
Definition insert_new (projection : ControlProjection) (e : ControlEvent) (intentDigest : string) : command (ControlProjection * AppendResult) :=
  check_source e ;;
  eff_of (validateFences projection e) ;;
  recordedAt ← clock;
  canonical ← on_event_error (canonicalPersistedControlEvent e recordedAt);
  digest ← on_event_error (persistedControlEventDigest e recordedAt);
  on_host (host_fault before_event_insert (Some e)) ;;
  payload ← on_event_error (map_err EventCanonical (canonicalJson (payload_json e.(ev_payload))));
  rowid ← insert_event (new_row e recordedAt payload canonical intentDigest digest);
  seq ← eff_of (asSafeInteger rowid);
  on_host (host_fault after_event_insert (Some e)) ;;
  let persisted := {| pe_event := e; pe_seq := seq; pe_recordedAt := recordedAt; pe_intentDigest := intentDigest; pe_digest := digest |} in
  projection' ← eff_of (map_err ReductionError (applyControlEvent projection persisted));
  on_host (host_fault before_projection_write (Some e)) ;;
  persistProjectionDelta projection' persisted ;;
  on_host (host_fault after_projection_write (Some e)) ;;
  aggregate ← eff_of match aggregateForEvent e with Ok a => Ok a | Err _ => Err OtherError end;
  version ← eff_of match obj_get projection'.(c_aggregateVersions) (agg_key aggregate) with
                   | Own a => Ok a.(av_version) | Absent | Inherited => Err OtherError end;
  mret (projection', {| ar_eventId := e.(ev_eventId); ar_seq := seq; ar_digest := digest; ar_intentDigest := intentDigest;
                        ar_recordedAt := recordedAt; ar_idempotent := false; ar_aggregateVersion := version |}).

Definition append_event (pg : Progress) (e : ControlEvent) : command Progress :=
  canonicalIntent ← on_event_error (canonicalControlEvent e);
  intentDigest ← on_event_error (controlEventDigest e);
  existing ← find_event e.(ev_eventId);
  match existing with
  | Some row =>
      r ← eff_of (validateExistingEvent row e canonicalIntent intentDigest);
      mret {| pg_projection := pg.(pg_projection); pg_results := pg.(pg_results) ++ [r]; pg_inserted := pg.(pg_inserted) |}
  | None =>
      '(projection, r) ← insert_new pg.(pg_projection) e intentDigest;
      mret {| pg_projection := projection; pg_results := pg.(pg_results) ++ [r]; pg_inserted := true |}
  end.

(** The receipts of a batch every event of which is stored, and whether it is one. *)
Definition existing_event (acc : list AppendResult * bool) (e : ControlEvent) : command (list AppendResult * bool) :=
  canonicalIntent ← on_event_error (canonicalControlEvent e);
  intentDigest ← on_event_error (controlEventDigest e);
  existing ← find_event e.(ev_eventId);
  match existing with
  | None => mret (acc.1, false)
  | Some row => r ← eff_of (validateExistingEvent row e canonicalIntent intentDigest); mret (acc.1 ++ [r], acc.2)
  end.

Definition existing_batch (batch : list ControlEvent) (headSeq : Z) : command Committed :=
  '(results, allExisting) ← eff_fold existing_event ([], negb (bool_decide (batch = []))) batch;
  if allExisting : bool then mret {| cm_results := results; cm_headSeq := headSeq; cm_inserted := false; cm_cursor := None |}
  else throw stale_version.

(** ** Consumer cursors *)

(** [/^[A-Za-z0-9][A-Za-z0-9._:-]{0,127}$/] *)
Definition consumerId_valid (s : string) : bool := boundedId s.

Definition decodeConsumerCursor (consumerId : string) (row : ConsumerCursorRow) : thrown ConsumerCursor :=
  generation ← asSafeInteger row.(ccr_generation);
  lastSeq ← asSafeInteger row.(ccr_last_seq);
  updatedAt ← canonicalUtc row.(ccr_updated_at);
  Ok {| cc_consumerId := consumerId; cc_generation := generation; cc_lastSeq := lastSeq; cc_updatedAt := updatedAt |}.

Definition advance_valid (a : ConsumerCursorAdvance) : bool :=
  consumerId_valid a.(ca_consumerId)
  && isSafeInteger a.(ca_generation) && (1 <=? a.(ca_generation))
  && isSafeInteger a.(ca_expectedLastSeq) && (0 <=? a.(ca_expectedLastSeq))
  && isSafeInteger a.(ca_nextLastSeq) && (a.(ca_expectedLastSeq) <=? a.(ca_nextLastSeq)).

(** The cursor as stored, against the one the advance expects. *)
Definition cursor_fence (a : ConsumerCursorAdvance) (existing : option ConsumerCursorRow) : thrown unit :=
  match existing with
  | None =>
      ensure (a.(ca_generation) =? 1) stale_generation ;;
      ensure (a.(ca_expectedLastSeq) =? 0) stale_version
  | Some row =>
      current ← decodeConsumerCursor a.(ca_consumerId) row;
      ensure (current.(cc_generation) =? a.(ca_generation)) stale_generation ;;
      ensure (current.(cc_lastSeq) =? a.(ca_expectedLastSeq)) stale_version
  end.

Definition advance_cursor (headBefore : Z) (lastEvent : option ControlEvent) (a : ConsumerCursorAdvance) : command ConsumerCursor :=
  eff_of (ensure (advance_valid a) invalid_event) ;;
  eff_of (ensure (a.(ca_nextLastSeq) <=? headBefore) stale_version) ;;
  existing ← query (fun t => t.(t_cursors) !! a.(ca_consumerId));
  eff_of (cursor_fence a existing) ;;
  updatedAt ← clock;
  on_host (host_fault before_cursor_write lastEvent) ;;
  execute (fun t => Ok (put_cursors t (<[a.(ca_consumerId) := {| ccr_generation := a.(ca_generation);
    ccr_last_seq := a.(ca_nextLastSeq); ccr_updated_at := updatedAt |}]> t.(t_cursors)))) ;;
  on_host (host_fault after_cursor_write lastEvent) ;;
  mret {| cc_consumerId := a.(ca_consumerId); cc_generation := a.(ca_generation); cc_lastSeq := a.(ca_nextLastSeq); cc_updatedAt := updatedAt |}.

(** ** The transaction body of [commitParsed] *)

Definition write_head (pg : Progress) : command unit :=
  if pg.(pg_inserted) then execute (update_head pg.(pg_projection).(c_headSeq)) else mret tt.

Definition commit_cursor (headBefore : Z) (lastEvent : option ControlEvent) (cursorAdvance : option ConsumerCursorAdvance) :
    command (option ConsumerCursor) :=
  match cursorAdvance with
  | None => mret None
  | Some a => c ← advance_cursor headBefore lastEvent a; mret (Some c)
  end.

Definition commit_body (batch : list ControlEvent) (cursorAdvance : option ConsumerCursorAdvance) (expectedHead : option Z) : command Committed :=
  projection ← loadProjection runId runEpoch;
  let headBefore := projection.(c_headSeq) in
  if match expectedHead with Some n => negb (headBefore =? n) | None => false end then existing_batch batch headBefore
  else
    pg ← eff_fold append_event {| pg_projection := projection; pg_results := []; pg_inserted := false |} batch;
    write_head pg ;;
    let lastEvent := List.last (List.map Some batch) None in
    cursor ← commit_cursor headBefore lastEvent cursorAdvance;
    on_host (host_fault before_commit lastEvent) ;;
    mret {| cm_results := pg.(pg_results); cm_headSeq := pg.(pg_projection).(c_headSeq); cm_inserted := pg.(pg_inserted); cm_cursor := cursor |}.

Definition commitParsed (batch : list ControlEvent) (cursorAdvance : option ConsumerCursorAdvance) (expectedHead : option Z) :
    command (list AppendResult * option ConsumerCursor) :=
  eff_under normalizeStoreError
    (committed ← transaction immediate (commit_body batch cursorAdvance expectedHead);
     eff_of (ensure (negb (isSome cursorAdvance && isNone committed.(cm_cursor))) recovery) ;;
     mret (committed.(cm_results), committed.(cm_cursor))).

(** * The operations of the store *)

Definition assertOpen : command unit :=
  (fun w => (w, if w.(sw_closed) then Err (ControlStoreError STORE_CLOSED) else Ok tt)) ;;
  on_host assertUnchangedFile.

Definition parseEvents (values : list ControlEvent) : thrown (list ControlEvent) :=
  events ← map_result (fun e => map_err (fun _ => invalid_event) (parseControlEvent e)) values;
  for_each events (fun e =>
    map_err (fun _ => invalid_event) (assertControlEventScope e) ;;
    ensure (bool_decide (e.(ev_runId) = runId) && bool_decide (e.(ev_runEpoch) = runEpoch)) (ControlStoreError RUN_IDENTITY_MISMATCH)) ;;
  validateScmBatch events ;;
  Ok events.

Definition appendBatch (values : list ControlEvent) : command (list AppendResult) :=
  assertOpen ;;
  if bool_decide (values = []) then mret []
  else
    events ← eff_of (parseEvents values);
    committed ← commitParsed events None None;
    mret committed.1.

(** [append(value)]: [appendBatch([value])[0]!] *)
Definition store_append (value : ControlEvent) : command AppendResult :=
  results ← appendBatch [value];
  match results with r :: _ => mret r | [] => throw OtherError end.

Definition appendBatchIf (expectedHeadSeq : Z) (values : list ControlEvent) : command (list AppendResult) :=
  assertOpen ;;
  eff_of (ensure (nonNegative expectedHeadSeq) invalid_event) ;;
  events ← eff_of (parseEvents values);
  committed ← commitParsed events None (Some expectedHeadSeq);
  mret committed.1.

Definition appendBatchWithCursor (values : list ControlEvent) (a : ConsumerCursorAdvance) : command (list AppendResult * ConsumerCursor) :=
  assertOpen ;;
  events ← eff_of (parseEvents values);
  committed ← commitParsed events (Some a) None;
  match committed.2 with Some cursor => mret (committed.1, cursor) | None => throw recovery end.

Definition advanceConsumerCursor (a : ConsumerCursorAdvance) : command ConsumerCursor :=
  committed ← appendBatchWithCursor [] a;
  mret committed.2.

Definition readConsumerCursor (consumerId : string) : command (option ConsumerCursor) :=
  assertOpen ;;
  eff_of (ensure (consumerId_valid consumerId) invalid_event) ;;
  eff_under normalizeStoreError
    (row ← query (fun t => t.(t_cursors) !! consumerId);
     match row with
     | None => mret None
     | Some r => c ← eff_of (decodeConsumerCursor consumerId r); mret (Some c)
     end).

Record EventRange := {
  range_runEpoch : string;
  range_floorSeq : Z;
  range_headSeq : Z;
  range_afterSeq : Z;
  range_events : list PersistedControlEvent;
  range_hasMore : bool
}.

Definition MAX_RANGE_LIMIT : Z := 10000.

(** SELECT * FROM control_events WHERE seq > ? AND seq <= ? ORDER BY seq LIMIT ? *)
Definition select_range (after head limit : Z) (t : Tables) : list EventRow :=
  take (Z.to_nat limit) (order_by er_seq (List.filter (fun r => (after <? r.(er_seq)) && (r.(er_seq) <=? head)) t.(t_events))).

(** The transaction of [readRange]. *)
Definition read_page (afterSeq limit : Z) : command EventRange :=
  meta ← readMeta;
  eff_of (verifyRunIdentity meta runId runEpoch) ;;
  eff_of (ensure (meta.(meta_retained_floor) - 1 <=? afterSeq) (ControlStoreError CURSOR_EXPIRED)) ;;
  eff_of (ensure (afterSeq <=? meta.(meta_head_seq)) recovery) ;;
  rows ← query (select_range afterSeq meta.(meta_head_seq) limit);
  events ← eff_of (map_result decodeEventRow rows);
  mret {| range_runEpoch := runEpoch; range_floorSeq := meta.(meta_retained_floor); range_headSeq := meta.(meta_head_seq);
          range_afterSeq := afterSeq; range_events := events;
          range_hasMore := match List.last (List.map Some events) None with
                           | Some pe => pe.(pe_seq) <? meta.(meta_head_seq)
                           | None => false
                           end |}.

Definition readRange (afterSeq : Z) (limit : option Z) (epoch : option string) : command EventRange :=
  assertOpen ;;
  let limit := default 1000 limit in
  eff_of (ensure (nonNegative afterSeq && isSafeInteger limit && (1 <=? limit) && (limit <=? MAX_RANGE_LIMIT)) invalid_event) ;;
  eff_of (ensure (optional (fun x => bool_decide (x = runEpoch)) epoch) (ControlStoreError RUN_IDENTITY_MISMATCH)) ;;
  eff_under normalizeStoreError (transaction deferred (read_page afterSeq limit)).

Definition getProjection : command ControlProjection :=
  assertOpen ;;
  eff_under normalizeStoreError (transaction deferred (loadProjection runId runEpoch)).

Record StoreHead := { hd_runId : string; hd_runEpoch : string; hd_floorSeq : Z; hd_headSeq : Z }.

Definition store_head : command StoreHead :=
  assertOpen ;;
  meta ← readMeta;
  eff_of (verifyRunIdentity meta runId runEpoch) ;;
  mret {| hd_runId := runId; hd_runEpoch := runEpoch; hd_floorSeq := meta.(meta_retained_floor); hd_headSeq := meta.(meta_head_seq) |}.

Definition store_identity : command (string * string * string) :=
  assertOpen ;;
  meta ← readMeta;
  eff_of (verifyRunIdentity meta runId runEpoch) ;;
  eff_of (ensure (bool_decide (meta.(meta_store_id) = storeId)) recovery) ;;
  mret (storeId, runId, runEpoch).

(** [close()]: closing twice is closing once. *)
Definition store_close : command unit := fun w => ({| sw_tables := w.(sw_tables); sw_closed := true; sw_host := w.(sw_host) |}, Ok tt).
End store.

(** The tables [bootstrap] creates in a new file. *)
Definition bootstrap (runId runEpoch storeId now : string) : thrown Tables :=
  canonicalUtc now ;;
  Ok {| t_meta := Some {| meta_store_id := storeId; meta_schema_version := 1; meta_reducer_version := 1; meta_run_id := runId;
                          meta_run_epoch := runEpoch; meta_retained_floor := 1; meta_head_seq := 0; meta_created_at := now |};
        t_events := []; t_sequence := 0; t_run := None; t_tasks := ∅; t_messages := []; t_runtimes := ∅; t_attempts := ∅;
        t_steering := ∅; t_aggregates := ∅; t_cursors := ∅ |}.

(** * Facts *)

(** Texts are printed and parsed by lemmas only. *)
#[local] Arguments JSON_parse : simpl never.
#[local] Arguments canonicalJson : simpl never.
#[local] Arguments parse_stored_event : simpl never.
#[local] Arguments columns_agree : simpl never.
#[local] Arguments canonicalPersistedControlEvent : simpl never.
#[local] Arguments controlEventDigest : simpl never.
#[local] Arguments persistedControlEventDigest : simpl never.
#[local] Arguments canonicalControlEvent : simpl never.

(** * Rows *)

Section rows.
Context {D : Digest} {U : UrlApi}.

(** The row of a persisted event. *)
Definition event_row (pe : PersistedControlEvent) (r : EventRow) : Prop := exists payload canonical,
  let e := pe.(pe_event) in
  r = new_row e pe.(pe_recordedAt) payload canonical pe.(pe_intentDigest) pe.(pe_digest) pe.(pe_seq)
  /\ canonicalJson (payload_json e.(ev_payload)) = Ok payload
  /\ canonicalPersistedControlEvent e pe.(pe_recordedAt) = Ok canonical
  /\ controlEventDigest e = Ok pe.(pe_intentDigest)
  /\ persistedControlEventDigest e pe.(pe_recordedAt) = Ok pe.(pe_digest)
  /\ ScmCanonicalTimestamp pe.(pe_recordedAt) = true
  /\ nonNegative pe.(pe_seq) = true.

Lemma canonicalPersisted_parsed e recordedAt t : canonicalPersistedControlEvent e recordedAt = Ok t -> parseControlEvent e = Ok e.
Proof. unfold canonicalPersistedControlEvent, parseControlEvent. intros H. run. subst. by match goal with H : _ = true |- _ => rewrite H end. Qed.

Lemma parse_stored_event_Ok e recordedAt t :
  canonicalPersistedControlEvent e recordedAt = Ok t -> ScmCanonicalTimestamp recordedAt = true ->
  parse_stored_event t = Some (e, recordedAt).
Proof.
  intros Hc Ht. unfold parse_stored_event. rewrite (stored_event_read _ _ _ Hc). cbn [mbind option_bind].
  by rewrite Ht, (canonicalPersisted_parsed _ _ _ Hc).
Qed.

(** A stored event is read back as it was. *)
Lemma decode_event_row pe r : event_row pe r -> decodeEventRow r = Ok pe.
Proof.
  intros (payload & canonical & -> & Hp & Hc & Hi & Hd & Ht & Hs). unfold decodeEventRow. cbn.
  unfold asSafeInteger. rewrite Hs. cbn.
  rewrite (parse_stored_event_Ok _ _ _ Hc Ht). cbn. rewrite Hc. cbn. rewrite Hi. cbn. rewrite Hd. cbn. rewrite !bool_decide_eq_true_2 by done. cbn. rewrite Hp. cbn.
  rewrite bool_decide_eq_true_2 by done. cbn. unfold columns_agree. cbn. rewrite !bool_decide_eq_true_2 by done. cbn.
  by destruct pe.
Qed.

Lemma fact_row_Ok {A C} (f : A -> json) (c : C) a r :
  fact_row f c a = Ok r -> fr_columns r = c /\ canonicalJson (f a) = Ok (fr_fact_json r) /\ fr_digest r = sha256Text (fr_fact_json r).
Proof. unfold fact_row. intros H. run. subst. done. Qed.

(** A stored fact is read back as it was. *)
Lemma decode_fact_row {A C} (f : A -> json) g `{!JsonReads f g} `{!JsonPlain f} (c : C) a r :
  fact_row f c a = Ok r -> decodeFact f g r = Ok a.
Proof.
  intros (_ & Hj & Hd)%fact_row_Ok. unfold decodeFact. rewrite Hd, bool_decide_eq_true_2 by done. cbn.
  rewrite (JSON_parse_canonicalJson _ _ (plain (f := f) a) Hj). cbn.
  rewrite canonicalJson_canonical, Hj, bool_decide_eq_true_2 by done. cbn. by rewrite read_back.
Qed.
End rows.

(** * What a command does to the tables *)

(** The worlds of a host in which nothing fails and the clock is right. *)
Class QuietHost {W} `{!StoreHost W} (quiet : W -> Prop) : Prop := {
  quiet_now h : quiet h -> exists h' time, host_now h = (h', Ok time) /\ ScmCanonicalTimestamp time = true /\ quiet h';
  quiet_fault point e h : quiet h -> exists h', host_fault point e h = (h', Ok tt) /\ quiet h';
  quiet_begin mode h : quiet h -> exists h', host_begin mode h = (h', Ok tt) /\ quiet h';
  quiet_statement h : quiet h -> exists h', host_statement h = (h', Ok tt) /\ quiet h';
  quiet_commit h : quiet h -> exists h', host_commit h = (h', Ok tt) /\ quiet h';
  quiet_file h : quiet h -> exists h', assertUnchangedFile h = (h', Ok tt) /\ quiet h'
}.

Section triples.
Context {W : Type} `{!StoreHost W} (quiet : W -> Prop) `{!QuietHost quiet}.
Local Abbreviation command := (effect (StoreWorld W) Thrown).

(** From the tables [t] the command ends as [Q] says, unless the host makes it
    fail; on a quiet host it ends as [Q] says. *)
Definition ends {A} (c : command A) (t : Tables) (Q : thrown A -> Tables -> Prop) : Prop :=
  forall w, sw_tables w = t -> after c w (fun w' r =>
    sw_closed w' = sw_closed w /\ (forall a, r = Ok a -> Q (Ok a) (sw_tables w'))
    /\ (quiet (sw_host w) -> quiet (sw_host w') /\ Q r (sw_tables w'))).

(** The command reads: it changes no table, and its answer is [r]. *)
Definition gives {A} (c : command A) (t : Tables) (r : thrown A) : Prop := ends c t (fun r' t' => r' = r /\ t' = t).

Lemma ends_mono {A} (c : command A) t (P Q : thrown A -> Tables -> Prop) :
  ends c t P -> (forall r t', P r t' -> Q r t') -> ends c t Q.
Proof using.
  intros Hc HQ w Hw. eapply after_mono; [by apply Hc|]. cbn. intros w' r (Hcl & Hok & Hq). split; [done|]. split; [auto|].
  intros Hquiet. destruct (Hq Hquiet). auto.
Qed.

Lemma ends_bind {A B} (c : command A) (k : A -> command B) t P Q :
  ends c t P -> (forall a t', P (Ok a) t' -> ends (k a) t' Q) -> (forall e t', P (Err e) t' -> Q (Err e) t') ->
  ends (c ≫= k) t Q.
Proof using.
  intros Hc Hk He w Hw. apply after_bind. eapply after_mono; [by apply Hc|]. cbn. intros w' [a|e] (Hcl & Hok & Hq).
  - eapply after_mono; [apply (Hk a (sw_tables w')); [by apply Hok|done]|]. cbn.
    intros w'' r (Hcl' & Hok' & Hq'). split; [congruence|]. split; [done|]. intros Hquiet. apply Hq', Hq, Hquiet.
  - split; [done|]. split; [done|]. intros Hquiet. destruct (Hq Hquiet). auto.
Qed.

Lemma ends_bind_ok {A B} (c : command A) (k : A -> command B) t a Q : gives c t (Ok a) -> ends (k a) t Q -> ends (c ≫= k) t Q.
Proof using. intros Hc Hk. eapply ends_bind; [exact Hc| |]; [by intros ? ? [[= ->] ->]|by intros ? ? [? _]]. Qed.

Lemma ends_bind_err {A B} (c : command A) (k : A -> command B) t e (Q : thrown B -> Tables -> Prop) :
  gives c t (Err e) -> Q (Err e) t -> ends (c ≫= k) t Q.
Proof using. intros Hc HQ. eapply ends_bind; [exact Hc| |]; [by intros ? ? [? _]|by intros ? ? [[= ->] ->]]. Qed.

Lemma ends_of {A} (r : thrown A) t (Q : thrown A -> Tables -> Prop) : Q r t -> ends (eff_of r) t Q.
Proof using. intros HQ w <-. unfold after. cbn. split; [done|]. split; [by intros a <-|]. done. Qed.

Lemma gives_of {A} (r : thrown A) t : gives (eff_of r) t r.
Proof using. by apply ends_of. Qed.

Lemma ends_ret {A} (a : A) t (Q : thrown A -> Tables -> Prop) : Q (Ok a) t -> ends (mret a) t Q.
Proof using. apply (ends_of (Ok a)). Qed.

Lemma gives_ret {A} (a : A) t : gives (mret a) t (Ok a).
Proof using. by apply ends_ret. Qed.

Lemma gives_pure {A B} (r : thrown A) (k : A -> command B) t r' :
  match r with Ok a => gives (k a) t r' | Err e => r' = Err e end -> gives (eff_of r ≫= k) t r'.
Proof using.
  destruct r as [a|e]; [apply ends_bind_ok, gives_of|]. intros ->. eapply ends_bind_err; [apply gives_of|done].
Qed.

(** The host. *)
Lemma gives_on_host (c : effect W Thrown unit) t :
  (forall h, quiet h -> exists h', c h = (h', Ok tt) /\ quiet h') -> gives (on_host c) t (Ok tt).
Proof using.
  intros Hc w <-. unfold after, on_host. destruct (c (sw_host w)) as [h' r] eqn:E. cbn. split; [done|]. split.
  - by intros [] ->.
  - intros Hq. destruct (Hc _ Hq) as (h'' & E' & Hq'). rewrite E in E'. by injection E' as -> ->.
Qed.

Lemma gives_fault point e t : gives (on_host (host_fault point e)) t (Ok tt).
Proof using Type*. apply gives_on_host, quiet_fault. Qed.
Lemma gives_file t : gives (on_host assertUnchangedFile) t (Ok tt).
Proof using Type*. apply gives_on_host, quiet_file. Qed.

Lemma gives_query {A} (f : Tables -> A) t : gives (query f) t (Ok (f t)).
Proof using Type*.
  unfold query. eapply ends_bind_ok; [apply gives_on_host, quiet_statement|].
  intros w <-. unfold after, read_tables. cbn. split; [done|]. split; [by intros a [= <-]|done].
Qed.

Lemma ends_execute f t :
  ends (execute f) t (fun r t' => match f t with Ok t1 => r = Ok tt /\ t' = t1 | Err e => r = Err e end).
Proof using Type*.
  unfold execute. eapply ends_bind_ok; [apply gives_on_host, quiet_statement|].
  intros w <-. unfold after, write_tables. cbn. destruct (f (sw_tables w)) as [t1|e]; cbn.
  - split; [done|]. split; [by intros [] _|]. done.
  - split; [done|]. split; [by intros a|]. done.
Qed.

Lemma ends_clock t : ends clock t (fun r t' => t' = t /\ exists time, r = Ok time /\ ScmCanonicalTimestamp time = true).
Proof using Type*.
  intros w <-. unfold clock. apply after_bind. unfold after, on_host. destruct (host_now (sw_host w)) as [h' r] eqn:E. cbn.
  destruct r as [time|e]; cbn.
  - unfold canonicalUtc. destruct (ScmCanonicalTimestamp time) eqn:Ht; cbn.
    + split; [done|]. split; [intros a [= <-]; eauto|]. intros Hq.
      destruct (quiet_now _ Hq) as (h'' & time' & E' & Ht' & Hq'). rewrite E in E'. injection E' as -> ->. eauto.
    + split; [done|]. split; [done|]. intros Hq.
      destruct (quiet_now _ Hq) as (h'' & time' & E' & Ht' & Hq'). rewrite E in E'. injection E' as -> ->. congruence.
  - split; [done|]. split; [done|]. intros Hq.
    destruct (quiet_now _ Hq) as (h'' & time' & E' & Ht' & Hq'). rewrite E in E'. discriminate.
Qed.
End triples.

(** * What an event writes *)

Section deltas.
Context {D : Digest}.
Variable pe : PersistedControlEvent.
Implicit Types s : ControlProjection.

Lemma run_delta s s' : component_of pe.(pe_event).(ev_payload) = comp_run -> on_event pe s = Ok s' -> exists r, c_run s' = Some r.
Proof.
  unfold on_event. destruct (ev_payload (pe_event pe)) eqn:E; try discriminate; intros _;
    unfold on_run_completed, on_run_failed, on_run_cancelled, on_run_started, on_run_checkpointed, end_run; intros H; run; subst; eauto.
Qed.

(** Close a delta goal: the run gives the record with the inserted fact. *)
Ltac delta := let H := fresh in intros H; cbv zeta in H; run; subst; repeat eexists; reflexivity.

Lemma tasks_delta s s' :
  component_of pe.(pe_event).(ev_payload) = comp_tasks \/ component_of pe.(pe_event).(ev_payload) = comp_reopen -> on_event pe s = Ok s' ->
  exists id t, ev_taskId (pe_event pe) = Some id /\ c_tasks s' = <[id := t]> (c_tasks s).
Proof.
  unfold on_event. destruct (ev_payload (pe_event pe)) eqn:E; (intros [?|?]; try discriminate);
    unfold on_task_created, on_task_status_changed, on_task_reopened; delta.
Qed.

Lemma messages_delta s s' :
  component_of pe.(pe_event).(ev_payload) = comp_messages -> on_event pe s = Ok s' ->
  exists m, c_messages s' = c_messages s ++ [m] /\ mf_seq m = pe_seq pe /\ Forall (fun m' => mf_messageId m' <> mf_messageId m) (c_messages s).
Proof.
  unfold on_event. destruct (ev_payload (pe_event pe)) as [| | | | | | | |p| | | | | | | | | | | | | | | | | | | | |] eqn:E; try discriminate; intros _.
  unfold on_message_posted. intros H. run. subst. eexists. split; [reflexivity|]. split; [done|]. cbn.
  guards. apply Forall_forall. intros m' Hin Hm.
  apply not_true_iff_false in Hrun0. apply Hrun0, existsb_exists. exists m'. split; [by apply list_elem_of_In|by apply bool_decide_eq_true].
Qed.

Lemma runtimes_delta s s' p : ev_payload (pe_event pe) = runtime_observed p -> on_event pe s = Ok s' ->
  exists r, c_runtimes s' = <[rp_sessionId p := r]> (c_runtimes s).
Proof.
  unfold on_event. intros ->. unfold on_runtime_observed. intros H. apply bind_Ok in H as (? & _ & H).
  apply bind_Ok in H as (? & _ & H). injection H as <-. eexists; reflexivity.
Qed.

Lemma attempts_delta s s' :
  component_of pe.(pe_event).(ev_payload) = comp_attempts -> on_event pe s = Ok s' ->
  exists a, c_attempts s' = <[payload_attemptId pe.(pe_event).(ev_payload) := a]> (c_attempts s).
Proof.
  unfold on_event. destruct (ev_payload (pe_event pe)) eqn:E; try discriminate; intros _;
    unfold on_attempt_prompt_prepared, on_attempt_launch_planned, on_attempt_started, on_attempt_exited, on_attempt_abandoned; delta.
Qed.

Lemma steering_delta s s' :
  component_of pe.(pe_event).(ev_payload) = comp_steering -> on_event pe s = Ok s' ->
  exists f, c_steering s' = <[payload_commandId pe.(pe_event).(ev_payload) := f]> (c_steering s).
Proof.
  unfold on_event. destruct (ev_payload (pe_event pe)) eqn:E; try discriminate; intros _;
    unfold on_steering_admitted, on_steering_refused, on_steering_terminal_refused, on_steering_included, on_steering_closed; delta.
Qed.
End deltas.

(** * Tables that store facts *)

Lemma map_result_total {E A B} (f : A -> result E B) (R : A -> B -> Prop) l :
  (forall x, x ∈ l -> exists b, f x = Ok b /\ R x b) -> exists bs, map_result f l = Ok bs /\ Forall2 R l bs.
Proof.
  induction l as [|x l IH]; intros H; cbn; [by eexists|].
  destruct (H x) as (b & Hb & Hr); [by left|]. destruct IH as (bs & Hbs & Hrs); [intros y Hy; apply H; by right|].
  rewrite Hb. cbn. rewrite Hbs. cbn. eauto.
Qed.

(** Each fact has its row, and each row its fact. *)
Definition rows_of {A C} (row : A -> thrown (FactRow C)) (facts : obj A) (rows : gmap string (FactRow C)) : Prop :=
  forall k, option_Forall2 (fun a r => row a = Ok r) (facts !! k) (rows !! k).

Lemma rows_of_empty {A C} (row : A -> thrown (FactRow C)) : rows_of row ∅ ∅.
Proof. intros k. rewrite !lookup_empty. constructor. Qed.

Lemma rows_of_insert {A C} (row : A -> thrown (FactRow C)) facts rows k a r :
  rows_of row facts rows -> row a = Ok r -> rows_of row (<[k := a]> facts) (<[k := r]> rows).
Proof.
  intros Hrows Hr j. destruct (decide (j = k)) as [->|Hne].
  - rewrite !lookup_insert_eq. by constructor.
  - rewrite !lookup_insert_ne by done. apply Hrows.
Qed.

Lemma rows_of_row {A C} (row : A -> thrown (FactRow C)) facts rows k r :
  rows_of row facts rows -> rows !! k = Some r -> exists a, facts !! k = Some a /\ row a = Ok r.
Proof. intros Hrows Hr. specialize (Hrows k). rewrite Hr in Hrows. inversion Hrows; subst; eauto. Qed.

Section decoding.
Context {D : Digest} {U : UrlApi}.

(** Decoding the rows of facts gives the facts. *)
Lemma decode_rows_of {A C} (f : A -> json) g (row : A -> thrown (FactRow C)) facts rows :
  (forall a r, row a = Ok r -> decodeFact f g r = Ok a) -> rows_of row facts rows -> decode_rows f g rows = Ok facts.
Proof.
  intros Hdec Hrows. unfold decode_rows.
  destruct (map_result_total (fun kr => a ← decodeFact f g kr.2; Ok (kr.1, a)) (fun kr ka => ka.1 = kr.1 /\ facts !! kr.1 = Some ka.2) (map_to_list rows))
    as (l & Hl & HR).
  { intros [k r] Hin%elem_of_map_to_list. destruct (rows_of_row _ _ _ _ _ Hrows Hin) as (a & Ha & Hr).
    exists (k, a). cbn. by rewrite (Hdec _ _ Hr). }
  rewrite Hl. cbn. f_equal.
  assert (l.*1 = (map_to_list rows).*1) as Hkeys.
  { clear -HR. induction HR as [|kr ka l l' [Hk _] _ IH]; cbn; [done|]. by rewrite Hk, IH. }
  pose proof (NoDup_fst_map_to_list rows) as Hnd. rewrite <-Hkeys in Hnd.
  apply map_eq. intros k. destruct (facts !! k) as [a|] eqn:Ha.
  - apply elem_of_list_to_map; [done|]. pose proof (Hrows k) as Hk. rewrite Ha in Hk. inversion Hk as [? r Hr Ha' Hr'|]; subst.
    symmetry in Hr'. apply elem_of_map_to_list in Hr' as (i & Hi)%list_elem_of_lookup.
    destruct (Forall2_lookup_l _ _ _ _ _ HR Hi) as ([k' a'] & Hi' & Hk' & Ha2). cbn in *. subst k'.
    rewrite Ha in Ha2. injection Ha2 as <-. by eapply list_elem_of_lookup_2.
  - apply not_elem_of_list_to_map. rewrite Hkeys. intros ([k' r] & -> & Hin%elem_of_map_to_list)%list_elem_of_fmap.
    destruct (rows_of_row _ _ _ _ _ Hrows Hin) as (a & Ha' & _). cbn in *. congruence.
Qed.
End decoding.

(** Rows in the order of their numbers are left alone by ORDER BY. *)
#[export] Instance order_comparator {A} (seq : A -> Z) : Comparator (fun a b => seq a - seq b).
Proof. split; intros *; lia. Qed.

Lemma order_by_sorted {A} (seq : A -> Z) l : StronglySorted (fun a b => seq a <= seq b) l -> order_by seq l = l.
Proof.
  intros H. unfold order_by. apply (js_sort_sorted (fun a b => seq a - seq b)).
  induction H as [|a l _ IH Ha]; constructor; [done|]. eapply Forall_impl; [exact Ha|]. cbn. lia.
Qed.

(** A log numbered from 1 on. *)
Definition numbered (log : list PersistedControlEvent) : Prop := forall i pe, log !! i = Some pe -> pe_seq pe = Z.of_nat i + 1.

Lemma reduce_numbered {D : Digest} runId runEpoch log s : reduceControlEvents runId runEpoch log None = Ok s -> numbered log.
Proof.
  revert s. induction log as [|pe log IH] using rev_ind; intros s H; [by intros i pe|].
  rewrite reduceControlEvents_snoc in H. apply bind_Ok in H as (s0 & H0 & H). specialize (IH _ H0).
  apply reachable_head in H0 as (Hh & _). apply applyControlEvent_Ok in H as (_ & _ & _ & _ & _ & _ & _ & Hseq & _).
  intros i q [Hq|[Hi Hq]]%lookup_app_Some; [by apply IH|]. destruct (i - length log)%nat eqn:E; [|done].
  injection Hq as <-. lia.
Qed.

(** ** What the projection of a stored log satisfies *)

Section projections.
Context {D : Digest} {U : UrlApi}.
Implicit Types s : ControlProjection.

(** The aggregate a reopened task starts. *)
Definition new_aggregate (pe : PersistedControlEvent) (id : string) (g : Z) : AggregateVersion :=
  {| av_kind := agg_task; av_id := id; av_generation := g; av_version := 0; av_updatedSeq := pe_seq pe |}.

Lemma aggregates_delta pe s st :
  (forall id t, c_tasks s !! id = Some t -> tf_id t = id) -> on_event pe s = Ok st ->
  match ev_payload (pe_event pe) with
  | task_reopened p => exists id, ev_taskId (pe_event pe) = Some id /\
      c_aggregateVersions st = <[aggregate_key agg_task id p.(trp_newGeneration) := new_aggregate pe id p.(trp_newGeneration)]> (c_aggregateVersions s)
  | _ => c_aggregateVersions st = c_aggregateVersions s
  end.
Proof.
  intros Hkeyed Hon. pose proof (on_event_frame _ _ _ Hon) as Hf.
  destruct (ev_payload (pe_event pe)) eqn:E; cbn in Hf; try (destruct Hf as [? ->]; done).
  unfold on_event in Hon. rewrite E in Hon. unfold on_task_reopened in Hon. cbv zeta in Hon. run. subst.
  apply assertTask_Ok in Hrun as [Ht _]. rewrite (Hkeyed _ _ Ht). eauto.
Qed.

Lemma valid_session b id g : payload_valid b = true -> session_of b = Some (id, g) -> positive g = true.
Proof.
  destruct b; cbn [session_of]; try discriminate; cbn [payload_valid]; intros Hv [= <- <-];
    unfold runtimePayload_valid, steeringAdmittedPayload_valid, steeringRefusedPayload_valid, steeringTerminalRefusedPayload_valid,
      steeringIncludedPayload_valid, steeringWithdrawnPayload_valid, steeringSupersededPayload_valid, steeringExpiredPayload_valid,
      steeringTarget_valid in Hv; rewrite !andb_true_iff in Hv; tauto.
Qed.

Lemma parsed_valid e : parseControlEvent e = Ok e -> baseShape_valid e = true /\ payload_valid (ev_payload e) = true.
Proof. unfold parseControlEvent. intros H. run. by apply andb_true_iff. Qed.

Lemma valid_aggregate e a : parseControlEvent e = Ok e -> aggregateForEvent e = Ok a -> 1 <= aggregate_generation a <= MAX_SAFE_INTEGER.
Proof.
  intros [Hb Hp]%parsed_valid Ha. unfold aggregateForEvent in Ha. destruct (session_of (ev_payload e)) as [[id g]|] eqn:Hs.
  - injection Ha as <-. cbn. apply positive_spec. by eapply valid_session.
  - destruct (ev_taskId e); [|injection Ha as <-; cbn; unfold MAX_SAFE_INTEGER; lia].
    destruct (ev_taskGeneration e) as [g|] eqn:Hg; [|done]. injection Ha as <-. cbn. apply positive_spec.
    unfold baseShape_valid in Hb. rewrite Hg in Hb. rewrite !andb_true_iff in Hb. cbn in Hb. tauto.
Qed.

(** The numbers of an aggregate are safe integers. *)
Definition aggregate_safe (a : AggregateVersion) (head : Z) : Prop :=
  1 <= av_generation a <= MAX_SAFE_INTEGER /\ 0 <= av_version a <= head /\ 0 <= av_updatedSeq a <= head.

Definition aggregates_safe s : Prop :=
  0 <= c_headSeq s <= MAX_SAFE_INTEGER /\ forall k a, c_aggregateVersions s !! k = Some a -> aggregate_safe a (c_headSeq s).

Lemma aggregate_safe_mono a h h' : h <= h' -> aggregate_safe a h -> aggregate_safe a h'.
Proof. unfold aggregate_safe. lia. Qed.

Lemma applied_aggregates_safe s pe s' :
  (forall id t, c_tasks s !! id = Some t -> tf_id t = id) ->
  parseControlEvent (pe_event pe) = Ok (pe_event pe) -> nonNegative (pe_seq pe) = true ->
  aggregates_safe s -> applyControlEvent s pe = Ok s' -> aggregates_safe s'.
Proof.
  intros Hk Hv Hseq [Hh Hs] (u & agg & st & _ & Hagg & _ & _ & Hn & Hver & Hon & ->)%applyControlEvent_Ok.
  apply nonNegative_spec in Hseq. pose proof (valid_aggregate _ _ Hv Hagg) as Hg.
  assert (0 <= aggregate_version s (agg_key agg) <= c_headSeq s) as Hav.
  { rewrite aggregate_version_lookup. destruct (c_aggregateVersions s !! agg_key agg) as [a|] eqn:E; cbn; [|lia].
    apply Hs in E. unfold aggregate_safe in E. lia. }
  assert (forall k a, c_aggregateVersions st !! k = Some a -> aggregate_safe a (pe_seq pe)) as Hst.
  { pose proof (aggregates_delta _ _ _ Hk Hon) as Hd.
    assert (forall k a, c_aggregateVersions s !! k = Some a -> aggregate_safe a (pe_seq pe)) as Hold.
    { intros k a Ha. eapply aggregate_safe_mono; [|by eapply Hs]. lia. }
    destruct (ev_payload (pe_event pe)) eqn:E; try (rewrite Hd; exact Hold).
    destruct Hd as (id & _ & ->). intros k a [[<- <-]|[_ Ha]]%lookup_insert_Some; [|by eapply Hold].
    unfold aggregate_safe. cbn. apply parsed_valid in Hv as [_ Hp]. rewrite E in Hp. cbn [payload_valid] in Hp.
    unfold taskReopenedPayload_valid in Hp. apply andb_true_iff in Hp as [Hp _]. apply positive_spec in Hp. lia. }
  unfold advance. split; cbn; [lia|]. intros k a [[<- <-]|[_ Ha]]%lookup_insert_Some; [|by eapply Hst].
  unfold aggregate_safe. cbn. lia.
Qed.

(** Messages are kept in the order of their events. *)
Definition messages_sorted s : Prop :=
  StronglySorted (fun m m' => mf_seq m <= mf_seq m') (c_messages s) /\ Forall (fun m => mf_seq m <= c_headSeq s) (c_messages s).

Lemma StronglySorted_snoc {A} (R : relation A) l x : StronglySorted R l -> Forall (fun y => R y x) l -> StronglySorted R (l ++ [x]).
Proof.
  induction 1 as [|y l _ IH Hy]; cbn; [intros _; by repeat constructor|]. intros [Hyx Hx]%Forall_cons.
  constructor; [by apply IH|]. apply Forall_app. split; [done|by constructor].
Qed.

Lemma applied_messages_sorted s pe s' : messages_sorted s -> applyControlEvent s pe = Ok s' -> messages_sorted s'.
Proof.
  intros [Hs Hb] H. pose proof (applyControlEvent_frame _ _ _ H) as Hf. cbv zeta in Hf.
  destruct Hf as (_ & _ & Hh & _ & _ & Hm & _). unfold messages_sorted.
  assert (Forall (fun m => mf_seq m <= c_headSeq s') (c_messages s)) as Hb' by (eapply Forall_impl; [exact Hb|]; cbn; lia).
  destruct (decide (component_of (ev_payload (pe_event pe)) = comp_messages)) as [Hc|Hc]; [|by rewrite Hm].
  apply applyControlEvent_Ok in H as (_ & agg & st & _ & _ & _ & _ & Hseq & _ & Hon & ->).
  destruct (messages_delta _ _ _ Hc Hon) as (m & Hst & Hmseq & _). cbn in *. rewrite Hst. split.
  - apply StronglySorted_snoc; [done|]. eapply Forall_impl; [exact Hb|]. cbn. lia.
  - apply Forall_app. split; [done|]. constructor; [lia|done].
Qed.

Lemma reduce_messages_sorted runId runEpoch log s : reduceControlEvents runId runEpoch log None = Ok s -> messages_sorted s.
Proof.
  apply (reduce_invariant messages_sorted); [split; constructor|]. intros *. apply applied_messages_sorted.
Qed.

(** Without a source-control event there is no source-control fact. *)
Lemma like_scm_component b : like_scm (event_type b) = bool_decide (component_of b = comp_scm).
Proof. by destruct b. Qed.

Lemma reduce_no_scm runId runEpoch log s :
  Forall (fun pe => component_of (ev_payload (pe_event pe)) <> comp_scm) log ->
  reduceControlEvents runId runEpoch log None = Ok s -> c_scm s = emptyScmControlProjection.
Proof.
  intros Hlog. apply (fold_result_ind applyControlEvent (fun s => c_scm s = emptyScmControlProjection)); [done|].
  intros s0 pe s1 Hin H0 H. apply applyControlEvent_frame in H. cbv zeta in H. destruct H as (_ & _ & _ & _ & _ & _ & _ & _ & _ & ->); [done|].
  by apply (proj1 (Forall_forall _ _) Hlog).
Qed.
End projections.

(** * The log a store holds *)

Lemma filter_all {A} (f : A -> bool) l : Forall (fun x => f x = true) l -> List.filter f l = l.
Proof. induction 1 as [|x l Hx _ IH]; cbn; [done|]. by rewrite Hx, IH. Qed.

Section holding.
Context {D : Digest} {U : UrlApi}.
Variables runId runEpoch : string.

(** The rows of the fact tables are the facts of the projection [s]. *)
Record facts_stored (s : ControlProjection) (t : Tables) : Prop := {
  stored_run : option_Forall2 (fun a r => run_row a = Ok r) s.(c_run) t.(t_run);
  stored_tasks : rows_of task_row s.(c_tasks) t.(t_tasks);
  stored_messages : Forall2 (fun m r => message_row m = Ok r) s.(c_messages) t.(t_messages);
  stored_runtimes : rows_of runtime_row s.(c_runtimes) t.(t_runtimes);
  stored_attempts : rows_of attempt_row s.(c_attempts) t.(t_attempts);
  stored_steering : rows_of steering_row s.(c_steering) t.(t_steering)
}.

(** The event table is the log, and the projection tables are its replay. *)
Record stores (log : list PersistedControlEvent) (s : ControlProjection) (t : Tables) : Prop := {
  stores_events : Forall2 event_row log t.(t_events);
  stores_sequence : t.(t_sequence) = Z.of_nat (length log);
  stores_ids : NoDup (List.map er_event_id t.(t_events));
  stores_replay : reduceControlEvents runId runEpoch log None = Ok s;
  stores_facts : facts_stored s t;
  stores_aggregates : t.(t_aggregates) = s.(c_aggregateVersions)
}.

(** The metadata belongs to this run and names the head [n]. *)
Definition meta_at (n : Z) (t : Tables) : Prop := exists m,
  t.(t_meta) = Some m /\ checkMeta m = Ok m /\ m.(meta_run_id) = runId /\ m.(meta_run_epoch) = runEpoch
  /\ m.(meta_retained_floor) = 1 /\ m.(meta_head_seq) = n.

(** No consumer has read past the head [n]. *)
Definition cursors_within (n : Z) (t : Tables) : Prop := forall id r,
  t.(t_cursors) !! id = Some r -> exists c, decodeConsumerCursor id r = Ok c /\ cc_lastSeq c <= n.

Record holds (log : list PersistedControlEvent) (t : Tables) : Prop := {
  holds_stores : exists s, stores log s t;
  holds_meta : meta_at (Z.of_nat (length log)) t;
  holds_cursors : cursors_within (Z.of_nat (length log)) t
}.

Section stored.
Context (log : list PersistedControlEvent) (s : ControlProjection) (t : Tables).
Hypothesis Hst : stores log s t.

Lemma stores_valid pe : pe ∈ log -> parseControlEvent (pe_event pe) = Ok (pe_event pe) /\ nonNegative (pe_seq pe) = true.
Proof using Hst.
  intros (i & Hi)%list_elem_of_lookup. destruct (Forall2_lookup_l _ _ _ _ _ (stores_events _ _ _ Hst) Hi) as (r & _ & Hr).
  destruct Hr as (payload & canonical & _ & _ & Hc & _ & _ & _ & Hn). split; [by eapply canonicalPersisted_parsed|done].
Qed.

Lemma stores_safe : aggregates_safe s.
Proof using Hst.
  pose proof (stores_replay _ _ _ Hst) as Hr. pose proof stores_valid as Hv. revert Hr.
  enough (forall s, reduceControlEvents runId runEpoch log None = Ok s -> aggregates_safe s /\ forall id t, c_tasks s !! id = Some t -> tf_id t = id)
    as H by (intros; by apply H).
  clear s Hst. intros s. apply (fold_result_ind applyControlEvent (fun s => aggregates_safe s /\ forall id t, c_tasks s !! id = Some t -> tf_id t = id)).
  - split; [split; [cbn; unfold MAX_SAFE_INTEGER; lia|]|]; intros ? ?; cbn; by rewrite lookup_empty.
  - intros s0 pe s1 Hin [Hs Hk] H. destruct (Hv _ Hin) as [Hp Hn]. split; [by eapply applied_aggregates_safe|by eapply applied_keyed].
Qed.

Lemma stores_rows_numbered : Forall2 (fun i r => er_seq r = Z.of_nat i + 1) (seq 0 (length log)) t.(t_events).
Proof using Hst.
  pose proof (reduce_numbered _ _ _ _ (stores_replay _ _ _ Hst)) as Hn. pose proof (stores_events _ _ _ Hst) as Hrows.
  apply Forall2_same_length_lookup. split; [by rewrite length_seq, (Forall2_length _ _ _ Hrows)|].
  intros i j r [-> Hi]%lookup_seq Hr. destruct (Forall2_lookup_r _ _ _ _ _ Hrows Hr) as (pe & Hpe & Hrow).
  destruct Hrow as (? & ? & -> & _). cbn. by apply Hn.
Qed.

Lemma stores_rows_sorted : StronglySorted (fun r r' => er_seq r <= er_seq r') t.(t_events).
Proof using Hst.
  pose proof stores_rows_numbered as H. revert H. generalize (t_events t). generalize 0%nat. clear Hst.
  induction (length log) as [|n IH]; cbn; intros k rows; inversion 1 as [|? r ? rows' Hr Hrows]; subst; constructor; [by eapply IH|].
  apply Forall_forall. intros r' (i & Hi)%list_elem_of_lookup.
  destruct (Forall2_lookup_r _ _ _ _ _ Hrows Hi) as (j & Hj & ->). apply lookup_seq in Hj as [-> _]. lia.
Qed.

(** Reading all the events gives the log. *)
Lemma select_all : select_events (Some (Z.of_nat (length log))) t = t.(t_events).
Proof using Hst.
  unfold select_events. rewrite filter_all; [apply order_by_sorted, stores_rows_sorted|].
  apply Forall_forall. intros r (i & Hi)%list_elem_of_lookup.
  destruct (Forall2_lookup_r _ _ _ _ _ stores_rows_numbered Hi) as (j & Hj & ->).
  apply lookup_seq in Hj as [-> Hj]. apply Z.leb_le. lia.
Qed.

Lemma decode_events rows log' : Forall2 event_row log' rows -> map_result decodeEventRow rows = Ok log'.
Proof using. intros H. apply map_result_Ok. apply Forall2_flip. eapply Forall2_impl; [exact H|]. intros pe r. apply decode_event_row. Qed.

Lemma decode_messages : map_result (decodeFact MessageFact_json MessageFact_read) (order_by (fun r => mc_seq (fr_columns r)) t.(t_messages)) = Ok s.(c_messages).
Proof using Hst.
  pose proof (stored_messages _ _ (stores_facts _ _ _ Hst)) as Hm. rewrite order_by_sorted.
  - apply map_result_Ok, Forall2_flip. eapply Forall2_impl; [exact Hm|]. intros m r. apply (decode_fact_row MessageFact_json MessageFact_read).
  - destruct (reduce_messages_sorted _ _ _ _ (stores_replay _ _ _ Hst)) as [Hs _]. clear Hst. revert Hs.
    induction Hm as [|m r l rows Hr Hm IH]; intros Hs; [constructor|]. inversion Hs as [|? ? Hs' Hall]; subst.
    constructor; [by apply IH|]. apply Forall_forall. intros r' (i & Hi)%list_elem_of_lookup.
    destruct (Forall2_lookup_r _ _ _ _ _ Hm Hi) as (m' & Hm' & Hr').
    apply fact_row_Ok in Hr as (Hc & _), Hr' as (Hc' & _). rewrite Hc, Hc'. cbn.
    apply (proj1 (Forall_forall _ _) Hall). by eapply list_elem_of_lookup_2.
Qed.

Lemma decode_aggregates : exists l, map_result decode_aggregate (map_to_list t.(t_aggregates)) = Ok l /\ list_to_map l = s.(c_aggregateVersions).
Proof using Hst.
  rewrite (stores_aggregates _ _ _ Hst). exists (map_to_list (c_aggregateVersions s)). split; [|apply list_to_map_to_list].
  apply map_result_Ok. assert (Forall (fun ka => decode_aggregate ka = Ok ka) (map_to_list (c_aggregateVersions s))) as H.
  - apply Forall_forall. intros [k a] Hin%elem_of_map_to_list. destruct stores_safe as [Hh Hs]. apply Hs in Hin. unfold aggregate_safe in Hin.
    unfold decode_aggregate, isSafeInteger. cbn. rewrite !(proj2 (Z.leb_le _ _)) by lia. done.
  - induction H; constructor; auto.
Qed.
End stored.
End holding.

(** * Reading *)

(** The texts are not unfolded by the checks of equality. *)
#[local] Strategy opaque [decodeFact decode_rows decodeEventRow JSON_parse canonicalJson TaskFact_read RunFact_read MessageFact_read
  RuntimeFact_read AttemptFact_read SteeringFact_read TaskFact_json RunFact_json MessageFact_json RuntimeFact_json AttemptFact_json SteeringFact_json].

Section reading.
Context {D : Digest} {U : UrlApi} {W : Type} `{!StoreHost W} (quiet : W -> Prop) `{!QuietHost quiet}.
Variables runId runEpoch storeId : string.
Local Abbreviation command := (effect (StoreWorld W) Thrown).

Lemma gives_bind {A B} (c : command A) (k : A -> command B) t a r :
  gives quiet c t (Ok a) -> gives quiet (k a) t r -> gives quiet (c ≫= k) t r.
Proof using. apply ends_bind_ok. Qed.

Lemma gives_result {A} (r : thrown A) a t : r = Ok a -> gives quiet (eff_of r) t (Ok a).
Proof using. intros ->. apply gives_of. Qed.

(** One step of a command that reads. *)
Ltac reading := eapply gives_bind; [first [apply gives_query; exact _ | apply gives_result; first [eassumption|reflexivity]]|cbv beta].

Lemma gives_readMeta m t : t_meta t = Some m -> checkMeta m = Ok m -> gives quiet readMeta t (Ok m).
Proof using Type*. intros Hm Hc. unfold readMeta. reading. rewrite Hm. by apply gives_result. Qed.

Lemma verified m : meta_run_id m = runId -> meta_run_epoch m = runEpoch -> verifyRunIdentity m runId runEpoch = Ok tt.
Proof using. intros Hr He. unfold verifyRunIdentity. rewrite !bool_decide_eq_true_2 by done. done. Qed.

Lemma gives_readAllEvents log s t :
  stores runId runEpoch log s t -> gives quiet (readAllEvents (Some (Z.of_nat (length log)))) t (Ok log).
Proof using Type*.
  intros Hst. unfold readAllEvents. reading. apply gives_result. erewrite select_all by done. by eapply decode_events, stores_events.
Qed.

Lemma gives_loadScm log s t :
  stores runId runEpoch log s t -> gives quiet (loadScm runId runEpoch (Z.of_nat (length log))) t (Ok (c_scm s)).
Proof using Type*.
  intros Hst. unfold loadScm. reading. destruct (existsb _ _) eqn:E.
  - eapply gives_bind; [by eapply gives_readAllEvents|]. cbv beta. rewrite (stores_replay _ _ _ _ _ Hst). reading. apply gives_ret.
  - erewrite <-(reduce_no_scm runId runEpoch log s); [apply gives_ret| |by eapply stores_replay].
    apply Forall_forall. intros pe (i & Hi)%list_elem_of_lookup Hc. apply not_true_iff_false in E. apply E, existsb_exists.
    destruct (Forall2_lookup_l _ _ _ _ _ (stores_events _ _ _ _ _ Hst) Hi) as (r & Hr & Hrow). exists r.
    split; [by eapply list_elem_of_In, list_elem_of_lookup_2|]. destruct Hrow as (? & ? & -> & _). cbn [new_row er_event_type].
    rewrite like_scm_component. by apply bool_decide_eq_true.
Qed.

(** The stored projection is the replay of the log. *)
Lemma gives_loadProjection log s t :
  stores runId runEpoch log s t -> meta_at runId runEpoch (Z.of_nat (length log)) t ->
  gives quiet (loadProjection runId runEpoch) t (Ok s).
Proof using Type*.
  intros Hst (m & Hm & Hc & Hr & He & _ & Hh). unfold loadProjection.
  eapply gives_bind; [by apply gives_readMeta|]. cbv beta. pose proof (verified _ Hr He) as Hv. reading. reading.
  eapply (gives_bind _ _ _ (c_run s)).
  { apply gives_result. pose proof (stored_run _ _ (stores_facts _ _ _ _ _ Hst)) as Hrun. inversion Hrun as [a r Ha|]; [|done].
    by rewrite (decode_fact_row RunFact_json RunFact_read _ _ _ Ha). }
  cbv beta. reading.
  pose proof (decode_rows_of _ _ _ _ _ (fun a r => decode_fact_row TaskFact_json TaskFact_read _ a r) (stored_tasks _ _ (stores_facts _ _ _ _ _ Hst))) as Ht.
  reading. reading. pose proof (decode_messages _ _ _ _ _ Hst) as Hms. reading. reading.
  pose proof (decode_rows_of _ _ _ _ _ (fun a r => decode_fact_row RuntimeFact_json RuntimeFact_read _ a r) (stored_runtimes _ _ (stores_facts _ _ _ _ _ Hst))) as Hrt.
  reading. reading.
  pose proof (decode_rows_of _ _ _ _ _ (fun a r => decode_fact_row AttemptFact_json AttemptFact_read _ a r) (stored_attempts _ _ (stores_facts _ _ _ _ _ Hst))) as Hat.
  reading. reading.
  pose proof (decode_rows_of _ _ _ _ _ (fun a r => decode_fact_row SteeringFact_json SteeringFact_read _ a r) (stored_steering _ _ (stores_facts _ _ _ _ _ Hst))) as Hsf.
  reading. reading. destruct (decode_aggregates _ _ _ _ _ Hst) as (l & Hl & Hagg). reading.
  rewrite Hh. eapply gives_bind; [by eapply gives_loadScm|]. cbv beta. rewrite Hagg.
  destruct (reachable_head _ _ _ _ (stores_replay _ _ _ _ _ Hst)) as (Hhead & Hrid & Hre). rewrite <-Hhead, <-Hrid, <-Hre.
  destruct s. apply gives_ret.
Qed.
End reading.
