(* ===== verification/StoreAppend.v ===== *)
(** StoreAppend: what the writing operations of the control store (Store) do to
    the log it holds. The abstract machine is [log_append]: an event the log knows
    is acknowledged again, and one it does not know is fenced, reduced and added
    at the end. *)
From S2P Require Import Prelude Text Json Ids ScmTypes ScmSchema ControlEvents EventSchema EventCode ControlState ControlReducer ScmReducer ControlApply ControlFrame AttemptLife TaskLife SessionLife CommandLife RunLife ScmLife ControlInvariant Effects Lists Store.

#[local] Arguments canonicalJson : simpl never.
#[local] Arguments canonicalPersistedControlEvent : simpl never.
#[local] Arguments controlEventDigest : simpl never.
#[local] Arguments persistedControlEventDigest : simpl never.
#[local] Arguments canonicalControlEvent : simpl never.

(** * The facts one event writes *)

Section facts.
Context {D : Digest} {U : UrlApi} {W : Type} `{!StoreHost W} (quiet : W -> Prop) `{!QuietHost quiet}.
Implicit Types s : ControlProjection.

(** Only fact tables differ. *)
Definition same_log (t t' : Tables) : Prop :=
  t'.(t_events) = t.(t_events) /\ t'.(t_sequence) = t.(t_sequence) /\ t'.(t_meta) = t.(t_meta) /\ t'.(t_cursors) = t.(t_cursors).

(** After the statements of a step: the facts of [s'], on the same log. *)
Definition facts_written s' (t : Tables) (r : thrown unit) (t' : Tables) : Prop :=
  r = Ok tt -> facts_stored s' t' /\ t_aggregates t' = t_aggregates t /\ same_log t t'.

Lemma ends_row {A C} (f : A -> json) (c : C) (a : A) (put : FactRow C -> Tables -> thrown Tables) s' t :
  (forall r, fact_row f c a = Ok r -> forall t1, put r t = Ok t1 -> facts_stored s' t1 /\ t_aggregates t1 = t_aggregates t /\ same_log t t1) ->
  ends quiet (row ← eff_of (fact_row f c a); execute (put row)) t (facts_written s' t).
Proof using Type*.
  intros H. destruct (fact_row f c a) as [r|e] eqn:E.
  - eapply ends_bind_ok; [by apply gives_of|]. eapply ends_mono; [apply ends_execute, _|]. cbn.
    intros res t' Hres ->. destruct (put r t) as [t1|e] eqn:Hp; [destruct Hres as [_ ->]; by eapply H|done].
  - eapply ends_bind_err; [by apply gives_of|done].
Qed.

Lemma eff_of_bind {A B} (a : A) (k : A -> effect (StoreWorld W) Thrown B) : (eff_of (Ok a) ≫= k) = k a.
Proof using. reflexivity. Qed.

Lemma lift_slot_insert {A} (m : obj A) k a : lift_slot (obj_get (<[k := a]> m) k) = Ok a.
Proof using. unfold obj_get. by rewrite lookup_insert_eq. Qed.

Variable pe : PersistedControlEvent.
Variables s s' : ControlProjection.
Hypothesis Happly : applyControlEvent s pe = Ok s'.
Hypothesis Hwf : projection_wf s'.
Hypothesis Hmsgs : messages_sorted s.
Hypothesis Hkeys : forall id u, c_tasks s !! id = Some u -> tf_id u = id.
Let b : ControlEventPayload := ev_payload (pe_event pe).

(** The facts of the other families are those of [s]. *)
Lemma other_facts :
  let c := component_of b in
  (c <> comp_run -> c_run s' = c_run s) /\ (c <> comp_tasks -> c <> comp_reopen -> c_tasks s' = c_tasks s) /\
  (c <> comp_messages -> c_messages s' = c_messages s) /\ (c <> comp_runtimes -> c_runtimes s' = c_runtimes s) /\
  (c <> comp_attempts -> c_attempts s' = c_attempts s) /\ (c <> comp_steering -> c_steering s' = c_steering s).
Proof using Happly. pose proof (applyControlEvent_frame _ _ _ Happly) as Hf. cbv zeta in *. fold b in Hf. tauto. Qed.

(** Prove that the written table stores the facts, the family's own table aside. *)
Ltac others := pose proof other_facts as (Er & Et & Em & Ert & Ea & Es);
  split; [|done]; split; cbn; first [rewrite Er by (congruence || done)|rewrite Et by (congruence || done)|rewrite Em by (congruence || done)
    |rewrite Ert by (congruence || done)|rewrite Ea by (congruence || done)|rewrite Es by (congruence || done)|idtac]; try done.

Lemma persist_run t : component_of b = comp_run -> facts_stored s t -> ends quiet (persist_fact s' pe) t (facts_written s' t).
Proof using Type*.
  intros Hc [Hr Ht Hm Hrt Ha Hs].
  destruct (applyControlEvent_Ok _ _ _ Happly) as (_ & agg & st & _ & _ & _ & _ & _ & _ & Hon & Hs').
  destruct (run_delta _ _ _ Hc Hon) as (run & Hrun).
  assert (c_run s' = Some run) as Hrun' by by rewrite Hs'.
  assert (persist_fact s' pe = (row ← eff_of (run_row run); execute (fun t => Ok (put_run t (Some row))))) as ->.
  { unfold persist_fact. fold b. rewrite Hrun'. clear -Hc. destruct b; first [discriminate Hc|reflexivity]. }
  apply ends_row. intros r Hr' t1 [= <-]. others. rewrite Hrun'. by constructor.
Qed.

Lemma persist_task t : component_of b = comp_tasks \/ component_of b = comp_reopen -> facts_stored s t ->
  ends quiet (persist_fact s' pe) t (facts_written s' t).
Proof using Type*.
  intros Hc [Hr Ht Hm Hrt Ha Hs].
  destruct (applyControlEvent_Ok _ _ _ Happly) as (_ & agg & st & _ & _ & _ & _ & _ & _ & Hon & Hs').
  destruct (tasks_delta _ _ _ Hc Hon) as (id & task & Hid & Htask).
  assert (c_tasks s' = <[id := task]> (c_tasks s)) as Htask' by by rewrite Hs'.
  assert (tf_id task = id) as Hkey. { eapply (wf_tasks _ Hwf). rewrite Htask'. apply lookup_insert_eq. }
  assert (persist_fact s' pe = (row ← eff_of (task_row task); execute (fun t => Ok (put_tasks t (<[task.(tf_id) := row]> t.(t_tasks)))))) as ->.
  { unfold persist_fact. fold b. rewrite Hid, Htask'. cbn [default]. rewrite lift_slot_insert. clear -Hc. destruct Hc as [Hc|Hc], b; first [discriminate Hc|reflexivity]. }
  apply ends_row. intros r Hr' t1 [= <-]. destruct Hc as [Hc|Hc]; others; rewrite Htask', Hkey; by apply rows_of_insert.
Qed.

Lemma persist_runtime t : component_of b = comp_runtimes -> facts_stored s t -> ends quiet (persist_fact s' pe) t (facts_written s' t).
Proof using Type*.
  intros Hc [Hr Ht Hm Hrt Ha Hs].
  destruct (applyControlEvent_Ok _ _ _ Happly) as (_ & agg & st & _ & _ & _ & _ & _ & _ & Hon & Hs').
  assert (exists p, b = runtime_observed p) as [p Hp] by (destruct b; try discriminate Hc; eauto).
  destruct (runtimes_delta _ _ _ _ Hp Hon) as (r0 & Hr0).
  assert (c_runtimes s' = <[rp_sessionId p := r0]> (c_runtimes s)) as Hr0' by by rewrite Hs'.
  assert (rf_sessionId r0 = rp_sessionId p) as Hkey. { eapply (wf_sessions _ Hwf). rewrite Hr0'. apply lookup_insert_eq. }
  assert (persist_fact s' pe = (row ← eff_of (runtime_row r0); execute (fun t => Ok (put_runtimes t (<[r0.(rf_sessionId) := row]> t.(t_runtimes)))))) as ->.
  { unfold persist_fact. fold b. rewrite Hp, Hr0', lift_slot_insert. done. }
  apply ends_row. intros r Hr' t1 [= <-]. others. rewrite Hr0', Hkey. by apply rows_of_insert.
Qed.

Lemma persist_attempt t : component_of b = comp_attempts -> facts_stored s t -> ends quiet (persist_fact s' pe) t (facts_written s' t).
Proof using Type*.
  intros Hc [Hr Ht Hm Hrt Ha Hs].
  destruct (applyControlEvent_Ok _ _ _ Happly) as (_ & agg & st & _ & _ & _ & _ & _ & _ & Hon & Hs').
  destruct (attempts_delta _ _ _ Hc Hon) as (a & Hatt). fold b in Hatt.
  assert (c_attempts s' = <[payload_attemptId b := a]> (c_attempts s)) as Ha' by by rewrite Hs'.
  assert (af_attemptId a = payload_attemptId b) as Hkey. { eapply (attempts_keyed _ _ (wf_attempts _ Hwf)). rewrite Ha'. apply lookup_insert_eq. }
  assert (persist_fact s' pe = (row ← eff_of (attempt_row a); execute (upsert_attempt_row a.(af_attemptId) row))) as ->.
  { assert (lift_slot (obj_get s'.(c_attempts) (payload_attemptId b)) = Ok a) as Hget by (by rewrite Ha', lift_slot_insert).
    unfold persist_fact. fold b. rewrite Hget. clear -Hc. destruct b; try discriminate Hc; cbv iota; rewrite eff_of_bind; reflexivity. }
  apply ends_row. intros r Hr' t1 Hput. unfold upsert_attempt_row in Hput. run. subst t1. others. rewrite Ha', Hkey. by apply rows_of_insert.
Qed.

Lemma persist_command t : component_of b = comp_steering -> facts_stored s t -> ends quiet (persist_fact s' pe) t (facts_written s' t).
Proof using Type*.
  intros Hc [Hr Ht Hm Hrt Ha Hs].
  destruct (applyControlEvent_Ok _ _ _ Happly) as (_ & agg & st & _ & _ & _ & _ & _ & _ & Hon & Hs').
  destruct (steering_delta _ _ _ Hc Hon) as (f & Hf). fold b in Hf.
  assert (c_steering s' = <[payload_commandId b := f]> (c_steering s)) as Hf' by by rewrite Hs'.
  assert (sf_commandId f = payload_commandId b) as Hkey. { eapply (commands_facts _ (wf_commands _ Hwf)). rewrite Hf'. apply lookup_insert_eq. }
  assert (persist_fact s' pe = (row ← eff_of (steering_row f); execute (fun t => Ok (put_steering t (<[f.(sf_commandId) := row]> t.(t_steering)))))) as ->.
  { assert (lift_slot (obj_get s'.(c_steering) (payload_commandId b)) = Ok f) as Hget by (by rewrite Hf', lift_slot_insert).
    unfold persist_fact. fold b. rewrite Hget. clear -Hc. destruct b; try discriminate Hc; cbv iota; rewrite eff_of_bind; reflexivity. }
  apply ends_row. intros r Hr' t1 [= <-]. others. rewrite Hf', Hkey. by apply rows_of_insert.
Qed.

(** The message of an event is the one with its number. *)
Lemma find_message m l : Forall (fun m' => mf_seq m' < mf_seq m) l -> List.find (fun m' => mf_seq m' =? mf_seq m) (l ++ [m]) = Some m.
Proof using.
  induction 1 as [|m' l Hm _ IH]; cbn; [by rewrite Z.eqb_refl|]. by rewrite (proj2 (Z.eqb_neq _ _)) by lia.
Qed.

Lemma persist_message t : component_of b = comp_messages -> facts_stored s t -> ends quiet (persist_fact s' pe) t (facts_written s' t).
Proof using Type*.
  intros Hc [Hr Ht Hm Hrt Ha Hs].
  destruct (applyControlEvent_Ok _ _ _ Happly) as (_ & agg & st & _ & _ & _ & _ & Hseq & _ & Hon & Hs').
  destruct (messages_delta _ _ _ Hc Hon) as (m & Hst & Hmseq & _).
  assert (c_messages s' = c_messages s ++ [m]) as Hm' by by rewrite Hs'.
  assert (persist_fact s' pe = (row ← eff_of (message_row m); execute (insert_message_row row))) as ->.
  { unfold persist_fact. fold b. rewrite Hm', <-Hmseq, find_message; [clear -Hc; destruct b; first [discriminate Hc|reflexivity]|].
    destruct Hmsgs as [_ Hb]. eapply Forall_impl; [exact Hb|]. cbn. lia. }
  apply ends_row. intros r Hr' t1 Hput. unfold insert_message_row in Hput. run. subst t1. others.
  rewrite Hm'. apply Forall2_app; [done|]. by constructor.
Qed.

Lemma persist_scm t : component_of b = comp_scm -> facts_stored s t -> ends quiet (persist_fact s' pe) t (facts_written s' t).
Proof using Type*.
  intros Hc [Hr Ht Hm Hrt Ha Hs]. assert (persist_fact s' pe = mret tt) as ->.
  { unfold persist_fact. fold b. clear -Hc. destruct b; first [discriminate Hc|reflexivity]. }
  apply ends_ret. intros _. others.
Qed.

Lemma ends_persist_fact t : facts_stored s t -> ends quiet (persist_fact s' pe) t (facts_written s' t).
Proof using Type*.
  intros Ht. destruct (component_of b) eqn:E.
  - by apply persist_run.
  - apply persist_task; auto.
  - apply persist_task; auto.
  - by apply persist_message.
  - by apply persist_runtime.
  - by apply persist_attempt.
  - by apply persist_command.
  - by apply persist_scm.
Qed.

(** ** Aggregate versions *)

Lemma lift_slot_Ok {A} (m : obj A) k a : lift_slot (obj_get m k) = Ok a -> m !! k = Some a.
Proof using. destruct (obj_get m k) eqn:E; try done. intros [= <-]. by apply obj_get_Own. Qed.

Lemma facts_stored_aggregates t m : facts_stored s' t -> facts_stored s' (put_aggregates t m).
Proof using. by intros []. Qed.

Definition delta_written (t : Tables) (r : thrown unit) (t' : Tables) : Prop :=
  r = Ok tt -> facts_stored s' t' /\ t_aggregates t' = c_aggregateVersions s' /\ same_log t t'.

Lemma ends_persist_aggregate k t :
  ends quiet (persist_aggregate s' tt k) t (fun r t' => r = Ok tt ->
    exists a, c_aggregateVersions s' !! k = Some a /\ t' = put_aggregates t (<[k := a]> (t_aggregates t))).
Proof using QuietHost0.
  unfold persist_aggregate. destruct (lift_slot (obj_get (c_aggregateVersions s') k)) as [a|e] eqn:E.
  - rewrite eff_of_bind. eapply ends_mono; [apply ends_execute, _|]. cbn. intros r t' [-> ->] _. apply lift_slot_Ok in E. eauto.
  - eapply ends_bind_err; [by apply gives_of|done].
Qed.

Lemma ends_aggregates keys t :
  facts_stored s' t -> (forall k, k ∉ keys -> c_aggregateVersions s' !! k = t_aggregates t !! k) ->
  ends quiet (eff_fold (persist_aggregate s') tt keys) t (delta_written t).
Proof using QuietHost0.
  revert t. induction keys as [|k keys IH]; intros t Hfacts Hk; cbn [eff_fold].
  - apply ends_ret. intros _. split; [done|]. split; [|done]. apply map_eq. intros k. symmetry. apply Hk, not_elem_of_nil.
  - eapply ends_bind; [apply ends_persist_aggregate| |done].
    intros [] t1 H. destruct (H eq_refl) as (a & Ha & ->). clear H. eapply ends_mono; [apply IH|].
    + by apply facts_stored_aggregates.
    + intros k' Hk'. cbn. destruct (decide (k' = k)) as [->|Hne].
      * by rewrite lookup_insert_eq.
      * rewrite lookup_insert_ne by done. apply Hk. by apply not_elem_of_cons.
    + intros r t' H Hr. by destruct (H Hr).
Qed.

Lemma ends_delta t : facts_stored s t -> t_aggregates t = c_aggregateVersions s ->
  ends quiet (persistProjectionDelta s' pe) t (delta_written t).
Proof using Type*.
  intros Hfacts Hagg. unfold persistProjectionDelta. eapply ends_bind; [by apply ends_persist_fact| |done].
  intros [] t1 H1. destruct (H1 eq_refl) as (Hf1 & Ha1 & Hl1). clear H1.
  destruct (applyControlEvent_Ok _ _ _ Happly) as (_ & agg & st & _ & Hae & _ & _ & _ & _ & Hon & Hs').
  unfold written_keys. rewrite Hae. cbn [mbind result_bind]. rewrite eff_of_bind.
  eapply ends_mono; [apply ends_aggregates; [done|]|].
  - intros k [Hk1 Hk2]%not_elem_of_cons. rewrite Ha1, Hagg, Hs'. cbn. rewrite lookup_insert_ne by done.
    pose proof (aggregates_delta _ _ _ Hkeys Hon) as Hd. fold b in Hd, Hk2. destruct b; try (by rewrite Hd).
    destruct Hd as (id & Hid & ->). rewrite Hid in Hk2. cbn in Hk2. apply not_elem_of_cons in Hk2 as [Hk2 _]. by rewrite lookup_insert_ne.
  - intros r t' H Hr. destruct (H Hr) as (Hf & Ha & Hl). split; [done|]. split; [done|].
    destruct Hl1 as (? & ? & ? & ?), Hl as (? & ? & ? & ?). repeat split; congruence.
Qed.
End facts.

(** * The log machine *)

Section log.
Context {D : Digest} {U : UrlApi}.
Variables runId runEpoch : string.

Definition event_source (e : ControlEvent) : option (string * option string * option Z * option string) :=
  kind ← e.(ev_sourceKind); Some (kind, e.(ev_sourceId), e.(ev_sourceGeneration), e.(ev_sourceEventId)).

Definition receipt (pe : PersistedControlEvent) (idempotent : bool) : AppendResult := {|
  ar_eventId := pe.(pe_event).(ev_eventId); ar_seq := pe.(pe_seq); ar_digest := pe.(pe_digest); ar_intentDigest := pe.(pe_intentDigest);
  ar_recordedAt := pe.(pe_recordedAt); ar_idempotent := idempotent; ar_aggregateVersion := pe.(pe_event).(ev_expectedVersion) + 1 |}.

(** The entry [pe] for the event [e], the next one of the log. *)
Record entry (log : list PersistedControlEvent) (e : ControlEvent) (pe : PersistedControlEvent) : Prop := {
  entry_event : pe_event pe = e;
  entry_seq : pe_seq pe = Z.of_nat (length log) + 1;
  entry_time : ScmCanonicalTimestamp (pe_recordedAt pe) = true;
  entry_intent : controlEventDigest e = Ok (pe_intentDigest pe);
  entry_digest : persistedControlEventDigest e (pe_recordedAt pe) = Ok (pe_digest pe)
}.

(** Appending one event to a log: known, it is acknowledged again; new, it
    passes the fences and the reducer and becomes the next entry. *)
Inductive log_append (log : list PersistedControlEvent) (e : ControlEvent) : list PersistedControlEvent -> AppendResult -> Prop :=
| append_known pe : pe ∈ log -> pe_event pe = e -> log_append log e log (receipt pe true)
| append_new pe s s' :
    reduceControlEvents runId runEpoch log None = Ok s ->
    Forall (fun q => ev_eventId (pe_event q) <> ev_eventId e) log ->
    Forall (fun q => is_Some (event_source e) -> event_source (pe_event q) <> event_source e) log ->
    entry log e pe -> validateFences s e = Ok tt -> applyControlEvent s pe = Ok s' ->
    log_append log e (log ++ [pe]) (receipt pe false).

(** Appending the events of a batch in order. *)
Inductive log_batch (log : list PersistedControlEvent) : list ControlEvent -> list PersistedControlEvent -> list AppendResult -> Prop :=
| batch_nil : log_batch log [] log []
| batch_snoc batch log1 rs e log2 r :
    log_batch log batch log1 rs -> log_append log1 e log2 r -> log_batch log (batch ++ [e]) log2 (rs ++ [r]).

Lemma log_append_prefix log e log' r : log_append log e log' r -> log `prefix_of` log'.
Proof using. intros []; [done|]. by apply prefix_app_r. Qed.

Lemma log_batch_prefix log batch log' rs : log_batch log batch log' rs -> log `prefix_of` log'.
Proof using. induction 1 as [|? ? ? ? ? ? _ IH H%log_append_prefix]; [done|]. by etransitivity. Qed.

(** Every receipt is that of an entry of the log for its event. *)
Definition acknowledged (log : list PersistedControlEvent) (e : ControlEvent) (r : AppendResult) : Prop :=
  exists pe idempotent, pe ∈ log /\ pe_event pe = e /\ r = receipt pe idempotent.

(** A receipt of an entry stays one while the log grows. *)
Lemma acknowledged_prefix log log' values rs : log `prefix_of` log' -> Forall2 (acknowledged log) values rs -> Forall2 (acknowledged log') values rs.
Proof using.
  intros [new ->] H. eapply Forall2_impl; [exact H|]. intros e r (pe & i & Hin & He & Hr). exists pe, i. split; [|done].
  apply elem_of_app. by left.
Qed.

Lemma log_append_acknowledged log e log' r : log_append log e log' r -> acknowledged log' e r.
Proof using.
  intros [pe Hin He|pe s s' _ _ _ He _ _]; [by exists pe, true|]. exists pe, false. split; [|by destruct He].
  apply elem_of_app. right. apply list_elem_of_here.
Qed.

Lemma log_batch_acknowledged log batch log' rs : log_batch log batch log' rs -> Forall2 (acknowledged log') batch rs.
Proof using.
  induction 1 as [|batch log1 rs e log2 r _ IH H]; [constructor|]. apply Forall2_app.
  - eapply acknowledged_prefix; [by eapply log_append_prefix|done].
  - constructor; [by eapply log_append_acknowledged|constructor].
Qed.
End log.

(** * One event *)

Section appending.
Context {D : Digest} {U : UrlApi} {W : Type} `{!StoreHost W} (quiet : W -> Prop) `{!QuietHost quiet}.
Variables runId runEpoch storeId : string.
Local Abbreviation command := (effect (StoreWorld W) Thrown).

Lemma canonicalControlEvent_inj e e' t : canonicalControlEvent e = Ok t -> canonicalControlEvent e' = Ok t -> e = e'.
Proof using.
  unfold canonicalControlEvent, parseControlEvent. intros H H'. run. subst. apply ControlEvent_json_inj. by eapply canonicalJson_inj.
Qed.

Lemma List_find_Some {A} (f : A -> bool) l x : List.find f l = Some x -> x ∈ l /\ f x = true.
Proof using. intros H. apply find_some in H. by rewrite list_elem_of_In. Qed.

Lemma List_find_None {A} (f : A -> bool) l : List.find f l = None -> Forall (fun x => f x = false) l.
Proof using. intros H. apply Forall_forall. intros x Hx%list_elem_of_In. by eapply find_none. Qed.

Context (log : list PersistedControlEvent) (s : ControlProjection) (t : Tables).
Hypothesis Hst : stores runId runEpoch log s t.

Lemma stored_row r : r ∈ t_events t -> exists pe, pe ∈ log /\ event_row pe r.
Proof using Hst.
  intros (i & Hi)%list_elem_of_lookup. destruct (Forall2_lookup_r _ _ _ _ _ (stores_events _ _ _ _ _ Hst) Hi) as (pe & Hpe & Hr).
  exists pe. split; [by eapply list_elem_of_lookup_2|done].
Qed.

Lemma stored_entry pe : pe ∈ log -> exists r, r ∈ t_events t /\ event_row pe r.
Proof using Hst.
  intros (i & Hi)%list_elem_of_lookup. destruct (Forall2_lookup_l _ _ _ _ _ (stores_events _ _ _ _ _ Hst) Hi) as (r & Hr & Hrow).
  exists r. split; [by eapply list_elem_of_lookup_2|done].
Qed.

(** A stored row vouches for its own event only. *)
Lemma validate_stored row e canonical digest res :
  row ∈ t_events t -> canonicalControlEvent e = Ok canonical -> controlEventDigest e = Ok digest ->
  validateExistingEvent row e canonical digest = Ok res -> exists pe, pe ∈ log /\ pe_event pe = e /\ res = receipt pe true.
Proof using Hst.
  intros (pe & Hin & Hrow)%stored_row Hc Hd H. unfold validateExistingEvent in H. rewrite (decode_event_row _ _ Hrow) in H. run. guards.
  eexists. split; [done|]. assert (pe_event a = e) as <- by by eapply canonicalControlEvent_inj. done.
Qed.

Lemma ends_insert row : (forall n, er_seq (row n) = n) ->
  ends quiet (insert_event row) t (fun r t' =>
    forall rowid, r = Ok rowid -> rowid = Z.of_nat (length log) + 1 /\ insert_event_row (row rowid) t = Ok t').
Proof using Type*.
  intros Hrow. unfold insert_event. eapply ends_bind; [apply ends_execute, _| |done].
  intros [] t1 H w <-. unfold after, read_tables. cbn.
  destruct (insert_event_row (row (t_sequence t + 1)) t) as [t2|e] eqn:E; [|done]. destruct H as [_ H].
  assert (t_sequence (sw_tables w) = Z.of_nat (length log) + 1) as Hseq.
  { rewrite H. unfold insert_event_row in E. run. subst t2. cbn. rewrite Hrow. f_equal. apply Hst. }
  split; [done|]. rewrite (stores_sequence _ _ _ _ _ Hst) in E. split.
  - intros a [= <-] rowid [= <-]. rewrite Hseq. by rewrite E, H.
  - intros Hq. split; [done|]. intros rowid [= <-]. rewrite Hseq. by rewrite E, H.
Qed.

(** ** A new event *)

Section new_event.
Context (e : ControlEvent) (intentDigest : string).
Hypothesis Hparsed : parseControlEvent e = Ok e.
Hypothesis Hintent : controlEventDigest e = Ok intentDigest.
Hypothesis Hfresh : Forall (fun r => er_event_id r <> ev_eventId e) (t_events t).

Lemma row_source pe r : event_row pe r -> source_identity r = event_source (pe_event pe).
Proof using. intros (? & ? & -> & _). done. Qed.

Lemma row_id pe r : event_row pe r -> er_event_id r = ev_eventId (pe_event pe).
Proof using. intros (? & ? & -> & _). done. Qed.

Lemma log_fresh : Forall (fun q => ev_eventId (pe_event q) <> ev_eventId e) log.
Proof using Hst Hfresh.
  apply Forall_forall. intros q (r & Hr & Hrow)%stored_entry. rewrite <-(row_id _ _ Hrow). by apply (proj1 (Forall_forall _ _) Hfresh).
Qed.

Lemma ends_check_source : ends quiet (check_source e) t (fun r t' => r = Ok tt ->
  t' = t /\ Forall (fun q => is_Some (event_source e) -> event_source (pe_event q) <> event_source e) log).
Proof using Type*.
  unfold check_source. destruct (ev_sourceKind e) as [kind|] eqn:Hk.
  - eapply ends_bind_ok; [apply gives_query, _|].
    assert (event_source e = Some (kind, ev_sourceId e, ev_sourceGeneration e, ev_sourceEventId e)) as Hes by (unfold event_source; by rewrite Hk).
    destruct (List.find _ _) as [row|] eqn:E.
    + destruct (decodeEventRow row) as [pe|err]; [rewrite eff_of_bind; by apply ends_of|]. eapply ends_bind_err; [by apply gives_of|done].
    + apply ends_ret. intros _. split; [done|]. apply List_find_None in E.
      apply Forall_forall. intros q (r & Hr & Hrow)%stored_entry _ Hq. pose proof (proj1 (Forall_forall _ _) E _ Hr) as Hne. cbn in Hne.
      apply bool_decide_eq_false in Hne. apply Hne. rewrite (row_source _ _ Hrow). congruence.
  - apply ends_ret. intros _. split; [done|]. apply Forall_forall. intros q _ []. unfold event_source in *. by rewrite Hk in *.
Qed.

(** What the insertion of a new event leaves behind. *)
Definition new_stored (r : thrown (ControlProjection * AppendResult)) (t' : Tables) : Prop := forall s' res, r = Ok (s', res) ->
  exists log', log_append runId runEpoch log e log' res /\ ar_idempotent res = false /\ stores runId runEpoch log' s' t'
    /\ t_meta t' = t_meta t /\ t_cursors t' = t_cursors t.

Lemma inserted_stores pe s' payload canonical t1 t2 :
  entry log e pe -> applyControlEvent s pe = Ok s' ->
  canonicalJson (payload_json (ev_payload e)) = Ok payload -> canonicalPersistedControlEvent e (pe_recordedAt pe) = Ok canonical ->
  nonNegative (pe_seq pe) = true ->
  insert_event_row (new_row e (pe_recordedAt pe) payload canonical (pe_intentDigest pe) (pe_digest pe) (pe_seq pe)) t = Ok t1 ->
  facts_stored s' t2 -> t_aggregates t2 = c_aggregateVersions s' -> same_log t1 t2 ->
  stores runId runEpoch (log ++ [pe]) s' t2 /\ t_meta t2 = t_meta t /\ t_cursors t2 = t_cursors t.
Proof using Hst Hfresh.
  clear Hparsed Hintent. intros [He Hseq Htime Hi Hd] Happ Hp Hc Hn Hins Hfacts Hagg (Hev & Hsq & Hmt & Hcur).
  unfold insert_event_row in Hins. run. subst t1. cbn in *. destruct Hst as [Hevents Hsequence Hids Hreplay _ _].
  split; [|by rewrite Hmt, Hcur]. split; rewrite ?Hev, ?Hsq; try done.
  - apply Forall2_app; [done|]. constructor; [|constructor]. exists payload, canonical. subst e. done.
  - rewrite length_app. cbn. lia.
  - rewrite List.map_app. apply NoDup_app. split; [done|]. split; [|cbn; apply NoDup_singleton].
    cbn. intros id (r & -> & Hr)%list_elem_of_fmap Hid%list_elem_of_singleton. by apply (proj1 (Forall_forall _ _) Hfresh r Hr).
  - rewrite reduceControlEvents_snoc, Hreplay. done.
Qed.

(** One step of a body of a transaction: a pure result, a query, the host. *)
Ltac step_of H := let a := fresh "a" in let Ha := fresh H in
  match goal with |- ends _ (eff_of ?r ≫= _) _ _ => destruct r as [a|?] eqn:Ha;
    [repeat apply map_err_Ok in Ha; rewrite eff_of_bind; cbv beta|eapply ends_bind_err; [by apply gives_of|discriminate]] end.

Lemma ends_insert_new : ends quiet (insert_new s e intentDigest) t new_stored.
Proof using Type*.
  unfold insert_new. eapply ends_bind; [apply ends_check_source| |discriminate]. intros [] t0 H0. destruct (H0 eq_refl) as [-> Hsource]. clear H0.
  step_of Hfence. destruct a.
  eapply ends_bind; [apply ends_clock, _| |discriminate]. intros recordedAt t0 (-> & time & [= <-] & Htime).
  unfold on_event_error. step_of Hcan. step_of Hdig.
  eapply ends_bind_ok; [apply gives_fault, _|]. step_of Hpay.
  eapply ends_bind; [by apply ends_insert| |discriminate]. intros rowid t1 H1. destruct (H1 _ eq_refl) as [Hrowid Hins]. clear H1.
  unfold asSafeInteger. destruct (nonNegative rowid) eqn:Hn; [|eapply ends_bind_err; [by apply gives_of|discriminate]].
  cbn [ensure mbind result_bind]. rewrite eff_of_bind.
  eapply ends_bind_ok; [apply gives_fault, _|]. cbv zeta. set (pe := Build_PersistedControlEvent e rowid recordedAt intentDigest a0).
  step_of Happ. eapply ends_bind_ok; [apply gives_fault, _|].
  assert (entry log e pe) as Hentry by (split; cbn; [done|by rewrite Hrowid|done|done|done]).
  assert (reduceControlEvents runId runEpoch (log ++ [pe]) None = Ok a2) as Hreplay.
  { rewrite reduceControlEvents_snoc, (stores_replay _ _ _ _ _ Hst). done. }
  assert (facts_stored s t1 /\ t_aggregates t1 = c_aggregateVersions s) as [Hf1 Hg1].
  { pose proof Hins as Hins'. unfold insert_event_row in Hins'. run. subst t1. by destruct Hst as [_ _ _ _ [] Hagg]. }
  eapply ends_bind; [eapply ends_delta; [exact _|exact Happ|by eapply reachable_wf|by eapply reduce_messages_sorted, stores_replay|by eapply reachable_keyed, stores_replay|done|done]| |discriminate].
  intros [] t2 H2. destruct (H2 eq_refl) as (Hf2 & Hg2 & Hl2). clear H2.
  eapply ends_bind_ok; [apply gives_fault, _|].
  destruct (inserted_stores pe a2 a1 a t1 t2) as (Hstored & Hm2 & Hc2); [done..|].
  step_of Hagg. step_of Hver. apply ends_ret. intros s' res [= <- <-].
  exists (log ++ [pe]). split; [|done].
  assert (a4 = ev_expectedVersion e + 1) as ->; [|by eapply (append_new _ _ _ _ pe s a2); eauto using log_fresh, stores_replay].
  apply applyControlEvent_Ok in Happ as (_ & agg & st & _ & Hag & _ & _ & _ & _ & _ & Hs'). cbn in Hag. rewrite Hag in Hagg. injection Hagg as <-.
  rewrite Hs' in Hver. unfold advance in Hver. cbn in Hver. unfold obj_get in Hver. rewrite lookup_insert_eq in Hver. by injection Hver as <-.
Qed.
End new_event.
End appending.

(** * A batch *)

Section batches.
Context {D : Digest} {U : UrlApi} {W : Type} `{!StoreHost W} (quiet : W -> Prop) `{!QuietHost quiet}.
Variables runId runEpoch : string.
Local Abbreviation command := (effect (StoreWorld W) Thrown).
Local Abbreviation stores := (stores runId runEpoch).
Local Abbreviation log_append := (log_append runId runEpoch).
Local Abbreviation log_batch := (log_batch runId runEpoch).

Definition some_new (rs : list AppendResult) : bool := existsb (fun r => negb r.(ar_idempotent)) rs.

Lemma some_new_snoc rs r : some_new (rs ++ [r]) = some_new rs || negb r.(ar_idempotent).
Proof using. unfold some_new. rewrite existsb_app. cbn. by rewrite orb_false_r. Qed.

(** Metadata and cursors are as they were. *)
Definition same_meta (t t' : Tables) : Prop := t_meta t' = t_meta t /\ t_cursors t' = t_cursors t.

(** What is known after a part of a batch. *)
Definition progressed (log : list PersistedControlEvent) (batch : list ControlEvent) (pg : Progress) (t : Tables) : Prop :=
  exists log', log_batch log batch log' (pg_results pg) /\ stores log' (pg_projection pg) t /\ pg_inserted pg = some_new (pg_results pg).

Ltac step_of H := let a := fresh "a" in let Ha := fresh H in
  match goal with |- ends _ (eff_of ?r ≫= _) _ _ => destruct r as [a|?] eqn:Ha;
    [repeat apply map_err_Ok in Ha; rewrite eff_of_bind; cbv beta|eapply ends_bind_err; [by apply gives_of|discriminate]] end.

Lemma ends_append_event log batch pg e t :
  parseControlEvent e = Ok e -> progressed log batch pg t ->
  ends quiet (append_event pg e) t (fun r t' => forall pg', r = Ok pg' -> progressed log (batch ++ [e]) pg' t' /\ same_meta t t').
Proof using Type*.
  intros Hp (log' & Hlog & Hst & Hins). unfold append_event, on_event_error. step_of Hcan. step_of Hint.
  eapply ends_bind_ok; [apply gives_query, _|]. destruct (List.find _ _) as [row|] eqn:E.
  - apply List_find_Some in E as [Hrow _]. step_of Hval. apply ends_ret. intros pg' [= <-].
    destruct (validate_stored _ _ _ _ _ Hst _ _ _ _ _ Hrow Hcan Hint Hval) as (pe & Hin & He & ->). split; [|done].
    exists log'. cbn. split; [by econstructor; [|by eapply append_known]|]. split; [done|].
    by rewrite Hins, some_new_snoc, orb_false_r.
  - apply List_find_None in E.
    assert (Forall (fun r => er_event_id r <> ev_eventId e) (t_events t)) as Hfresh.
    { eapply Forall_impl; [exact E|]. cbn. intros r Hr. by apply bool_decide_eq_false in Hr. }
    eapply ends_bind; [by eapply ends_insert_new| |discriminate]. intros [s' r] t' H.
    destruct (H _ _ eq_refl) as (log2 & Happ & Hidem & Hst' & Hm & Hc). clear H.
    apply ends_ret. intros pg' [= <-]. split; [|done]. exists log2. cbn. split; [by econstructor|]. split; [done|].
    rewrite some_new_snoc, Hidem. by rewrite orb_true_r.
Qed.

Lemma ends_append_batch log rest : Forall (fun e => parseControlEvent e = Ok e) rest -> forall batch pg t, progressed log batch pg t ->
  ends quiet (eff_fold append_event pg rest) t (fun r t' => forall pg', r = Ok pg' -> progressed log (batch ++ rest) pg' t' /\ same_meta t t').
Proof using Type*.
  induction 1 as [|e rest He _ IH]; intros batch pg t Hpg; cbn [eff_fold].
  - apply ends_ret. intros pg' [= <-]. by rewrite app_nil_r.
  - eapply ends_bind; [by eapply ends_append_event| |discriminate]. intros pg1 t1 H. destruct (H _ eq_refl) as [Hpg1 [Hm1 Hc1]]. clear H.
    eapply ends_mono; [by apply IH|]. intros r t' H pg' Hr. destruct (H _ Hr) as [Hpg' [Hm Hc]]. rewrite <-app_assoc in Hpg'. split; [done|].
    split; congruence.
Qed.

(** A batch that adds nothing leaves the log. *)
Lemma log_batch_idle log batch log' rs : log_batch log batch log' rs -> some_new rs = false -> log' = log.
Proof using.
  induction 1 as [|batch log1 rs e log2 r _ IH H]; [done|]. rewrite some_new_snoc, orb_false_iff, negb_false_iff.
  intros [Hrs Hr]. rewrite <-(IH Hrs). by destruct H.
Qed.

(** ** The batch that is there already *)

Lemma ends_existing_event log s t batch acc e :
  stores log s t -> (acc.2 = true -> log_batch log batch log acc.1) ->
  ends quiet (existing_event acc e) t (fun r t' => forall acc', r = Ok acc' -> t' = t /\ (acc'.2 = true -> log_batch log (batch ++ [e]) log acc'.1)).
Proof using Type*.
  intros Hst Hacc. unfold existing_event, on_event_error. step_of Hcan. step_of Hint.
  eapply ends_bind_ok; [apply gives_query, _|]. destruct (List.find _ _) as [row|] eqn:E.
  - apply List_find_Some in E as [Hrow _]. step_of Hval. apply ends_ret. intros acc' [= <-]. split; [done|]. cbn. intros H.
    destruct (validate_stored _ _ _ _ _ Hst _ _ _ _ _ Hrow Hcan Hint Hval) as (pe & Hin & He & ->).
    econstructor; [by apply Hacc|]. by eapply append_known.
  - apply ends_ret. by intros acc' [= <-].
Qed.

Lemma ends_existing_events log s t rest : stores log s t -> forall batch acc, (acc.2 = true -> log_batch log batch log acc.1) ->
  ends quiet (eff_fold existing_event acc rest) t (fun r t' => forall acc', r = Ok acc' -> t' = t /\ (acc'.2 = true -> log_batch log (batch ++ rest) log acc'.1)).
Proof using Type*.
  intros Hst. induction rest as [|e rest IH]; intros batch acc Hacc; cbn [eff_fold].
  - apply ends_ret. intros acc' [= <-]. by rewrite app_nil_r.
  - eapply ends_bind; [by eapply ends_existing_event| |discriminate]. intros acc1 t1 H. destruct (H _ eq_refl) as [-> Hacc1]. clear H.
    eapply ends_mono; [by apply IH|]. intros r t' H acc' Hr. rewrite <-app_assoc in H. by apply H.
Qed.

Lemma ends_existing_batch log s t batch : stores log s t ->
  ends quiet (existing_batch batch (Z.of_nat (length log))) t (fun r t' => forall c, r = Ok c ->
    t' = t /\ log_batch log batch log (cm_results c) /\ cm_cursor c = None).
Proof using Type*.
  intros Hst. unfold existing_batch. eapply ends_bind; [eapply (ends_existing_events _ _ _ _ Hst [])| |discriminate].
  - intros _. constructor.
  - intros [results all] t1 H. destruct (H _ eq_refl) as [-> Hall]. clear H. destruct all; [|by apply ends_of].
    apply ends_ret. intros c [= <-]. cbn in *. auto.
Qed.
End batches.

(** * A transaction *)

Section commits.
Context {D : Digest} {U : UrlApi} {W : Type} `{!StoreHost W} (quiet : W -> Prop) `{!QuietHost quiet}.
Variables runId runEpoch : string.
Local Abbreviation command := (effect (StoreWorld W) Thrown).
Local Abbreviation holds := (holds runId runEpoch).
Local Abbreviation log_batch := (log_batch runId runEpoch).

(** What an advance asks for and what the cursor tables then say. *)
Record advanced (n : Z) (a : ConsumerCursorAdvance) (t t' : Tables) (c : ConsumerCursor) : Prop := {
  advanced_generation : 1 <= ca_generation a <= MAX_SAFE_INTEGER;
  advanced_forward : 0 <= ca_expectedLastSeq a <= ca_nextLastSeq a /\ ca_nextLastSeq a <= MAX_SAFE_INTEGER;
  advanced_within : ca_nextLastSeq a <= n;
  advanced_from :
    match t_cursors t !! ca_consumerId a with
    | None => ca_generation a = 1 /\ ca_expectedLastSeq a = 0
    | Some row => ccr_generation row = ca_generation a /\ ccr_last_seq row = ca_expectedLastSeq a
    end;
  advanced_time : ScmCanonicalTimestamp (cc_updatedAt c) = true;
  advanced_cursor : c = {| cc_consumerId := ca_consumerId a; cc_generation := ca_generation a; cc_lastSeq := ca_nextLastSeq a; cc_updatedAt := cc_updatedAt c |};
  advanced_cursors : t_cursors t' = <[ca_consumerId a := {| ccr_generation := ca_generation a; ccr_last_seq := ca_nextLastSeq a;
    ccr_updated_at := cc_updatedAt c |}]> (t_cursors t)
}.

Lemma advance_valid_bounds a : advance_valid a = true ->
  1 <= ca_generation a <= MAX_SAFE_INTEGER /\ 0 <= ca_expectedLastSeq a <= ca_nextLastSeq a /\ ca_nextLastSeq a <= MAX_SAFE_INTEGER.
Proof using. unfold advance_valid, isSafeInteger. intros H. guards. lia. Qed.

Lemma cursor_fence_position a existing : cursor_fence a existing = Ok tt ->
  match existing with
  | None => ca_generation a = 1 /\ ca_expectedLastSeq a = 0
  | Some row => ccr_generation row = ca_generation a /\ ccr_last_seq row = ca_expectedLastSeq a
  end.
Proof using.
  destruct existing as [row|]; cbn; unfold decodeConsumerCursor, asSafeInteger; intros H; run; subst; guards; cbn in *; lia.
Qed.

Lemma ends_advance_cursor n e a t :
  ends quiet (advance_cursor n e a) t (fun r t' => forall c, r = Ok c -> exists updated, advanced n a t t' c /\ t' = put_cursors t updated).
Proof using Type*.
  unfold advance_cursor. destruct (advance_valid a) eqn:Hv; [cbn [ensure]; rewrite eff_of_bind|eapply ends_bind_err; [by apply gives_of|discriminate]].
  destruct (Z.leb_spec (ca_nextLastSeq a) n) as [Hn|]; [cbn [ensure]; rewrite eff_of_bind|eapply ends_bind_err; [by apply gives_of|discriminate]].
  eapply ends_bind_ok; [apply gives_query, _|].
  destruct (cursor_fence a (t_cursors t !! ca_consumerId a)) as [[]|err] eqn:Hf; [rewrite eff_of_bind|eapply ends_bind_err; [by apply gives_of|discriminate]].
  eapply ends_bind; [apply ends_clock, _| |discriminate]. intros updatedAt t0 (-> & time & [= <-] & Ht).
  eapply ends_bind_ok; [apply gives_fault, _|].
  eapply ends_bind; [apply ends_execute, _| |discriminate]. intros [] t1 [_ ->].
  eapply ends_bind_ok; [apply gives_fault, _|]. apply ends_ret. intros c [= <-]. eexists. split; [|reflexivity].
  apply advance_valid_bounds in Hv as [Hg Hl]. apply cursor_fence_position in Hf. by split.
Qed.

Definition with_head (n : Z) (m : MetaRow) : MetaRow := {|
  meta_store_id := m.(meta_store_id); meta_schema_version := m.(meta_schema_version);
  meta_reducer_version := m.(meta_reducer_version); meta_run_id := m.(meta_run_id); meta_run_epoch := m.(meta_run_epoch);
  meta_retained_floor := m.(meta_retained_floor); meta_head_seq := n; meta_created_at := m.(meta_created_at) |}.

Lemma checkMeta_head m n : checkMeta m = Ok m -> nonNegative n = true -> checkMeta (with_head n m) = Ok (with_head n m).
Proof using.
  intros H Hn%nonNegative_spec. unfold checkMeta, canonicalUtc in *. run. cbn [with_head meta_schema_version meta_reducer_version meta_retained_floor meta_head_seq
    meta_store_id meta_created_at]. repeat match goal with H : _ = true |- _ => rewrite H; clear H end.
  unfold isSafeInteger. rewrite !(proj2 (Z.leb_le _ _)) by lia. done.
Qed.

Lemma meta_at_head n n' t1 t2 t3 : meta_at runId runEpoch n t1 -> same_meta t1 t2 -> nonNegative n' = true -> update_head n' t2 = Ok t3 ->
  meta_at runId runEpoch n' t3.
Proof using.
  intros (m & Hm & Hc & Hr & He & Hf & _) [Hsm _] Hn [= <-]. unfold meta_at. cbn. rewrite Hsm, Hm. cbn. exists (with_head n' m).
  split; [done|]. split; [by apply checkMeta_head|done].
Qed.

Lemma advanced_decodes n a t t' c : advanced n a t t' c ->
  decodeConsumerCursor (ca_consumerId a) {| ccr_generation := ca_generation a; ccr_last_seq := ca_nextLastSeq a; ccr_updated_at := cc_updatedAt c |} = Ok c.
Proof using.
  intros [Hg Hl _ _ Ht Hc _]. unfold decodeConsumerCursor, asSafeInteger, canonicalUtc. cbn.
  rewrite !(proj2 (nonNegative_spec _)) by lia. cbn. rewrite Ht. cbn. by rewrite Hc.
Qed.

Lemma advanced_cursors_within n n' a t t' c : advanced n a t t' c -> n <= n' -> cursors_within n' t -> cursors_within n' t'.
Proof using.
  intros Ha Hn Hw. pose proof (advanced_decodes _ _ _ _ _ Ha) as Hd. destruct Ha as [_ _ Hwithin _ _ Hc Hcur].
  intros id r. rewrite Hcur. intros [[<- <-]|[_ Hr]]%lookup_insert_Some; [|by apply Hw].
  exists c. split; [done|]. rewrite Hc. cbn. lia.
Qed.

Lemma stores_same log s t t' : stores runId runEpoch log s t -> t_events t' = t_events t -> t_sequence t' = t_sequence t ->
  facts_stored s t' -> t_aggregates t' = t_aggregates t -> stores runId runEpoch log s t'.
Proof using. intros [] He Hs Hf Ha. split; congruence. Qed.

(** What a committed transaction has done: the log with the batch appended, and
    the cursor advanced within the head the transaction started from. *)
Record committed (log : list PersistedControlEvent) (batch : list ControlEvent) (advance : option ConsumerCursorAdvance)
    (expected : option Z) (t : Tables) (rs : list AppendResult) (cursor : option ConsumerCursor) (t' : Tables)
    (log' : list PersistedControlEvent) : Prop := {
  committed_log : log_batch log batch log' rs;
  committed_holds : holds log' t';
  committed_expected n : expected = Some n -> n = Z.of_nat (length log) \/ t' = t;
  committed_cursor : match cursor with
                     | Some c => exists a, advance = Some a /\ advanced (Z.of_nat (length log)) a t t' c
                     | None => t_cursors t' = t_cursors t /\ (advance = None \/ t' = t)
                     end
}.

Lemma log_length log s t : stores runId runEpoch log s t -> nonNegative (Z.of_nat (length log)) = true /\ c_headSeq s = Z.of_nat (length log).
Proof using.
  intros Hst. destruct (stores_safe _ _ _ _ _ Hst) as [Hh _].
  destruct (reachable_head _ _ _ _ (stores_replay _ _ _ _ _ Hst)) as (E & _). split; [apply nonNegative_spec; lia|done].
Qed.

(** After the events: the head is the length of the log. *)
Lemma ends_write_head log batch log1 pg t t1 :
  meta_at runId runEpoch (Z.of_nat (length log)) t -> log_batch log batch log1 (pg_results pg) ->
  stores runId runEpoch log1 (pg_projection pg) t1 -> pg_inserted pg = some_new (pg_results pg) -> same_meta t t1 ->
  ends quiet (write_head pg) t1 (fun r t2 => r = Ok tt ->
    stores runId runEpoch log1 (pg_projection pg) t2 /\ meta_at runId runEpoch (Z.of_nat (length log1)) t2 /\ t_cursors t2 = t_cursors t).
Proof using Type*.
  intros Hmeta Hlog Hst1 Hins Hsame. destruct (log_length _ _ _ Hst1) as [Hn1 Hhead1]. unfold write_head. destruct (pg_inserted pg) eqn:Hi.
  - eapply ends_mono; [apply ends_execute, _|]. intros r t2 H ->. destruct H as [_ ->]. rewrite Hhead1 in *.
    split; [by eapply stores_same; [exact Hst1|done|done|by destruct Hst1 as [_ _ _ _ [] _]|done]|].
    split; [by eapply meta_at_head|]. apply Hsame.
  - apply ends_ret. intros _. split; [done|]. rewrite (log_batch_idle _ _ _ _ _ _ Hlog) by congruence. split; [|apply Hsame].
    destruct Hmeta as (m & Hm & ?). exists m. by rewrite (proj1 Hsame).
Qed.

(** The cursor, when the transaction advances one. *)
Lemma ends_commit_cursor n e advance t :
  ends quiet (commit_cursor n e advance) t (fun r t' => forall cursor, r = Ok cursor -> exists updated, t' = put_cursors t updated /\ match cursor with
    | Some c => exists a, advance = Some a /\ advanced n a t t' c
    | None => advance = None /\ t' = t
    end).
Proof using Type*.
  destruct advance as [a|]; cbn [commit_cursor].
  - eapply ends_bind; [apply ends_advance_cursor| |discriminate]. intros c t3 H. destruct (H _ eq_refl) as (upd & Ha & ->).
    apply ends_ret. intros cursor [= <-]. eauto.
  - apply ends_ret. intros cursor [= <-]. exists (t_cursors t). split; [by destruct t|done].
Qed.

(** The state of the tables with the batch and the cursor written. *)
Lemma committed_new log batch advance expected t rs cursor log1 s1 t2 t3 updated :
  cursors_within (Z.of_nat (length log)) t -> (forall n, expected = Some n -> n = Z.of_nat (length log)) ->
  log_batch log batch log1 rs -> stores runId runEpoch log1 s1 t2 -> meta_at runId runEpoch (Z.of_nat (length log1)) t2 -> t_cursors t2 = t_cursors t ->
  t3 = put_cursors t2 updated ->
  match cursor with Some c => exists a, advance = Some a /\ advanced (Z.of_nat (length log)) a t2 t3 c | None => advance = None /\ t3 = t2 end ->
  committed log batch advance expected t rs cursor t3 log1.
Proof using.
  intros Hcur Hexp Hlog Hst2 Hmeta2 Hcur2 Ht3 Hcursor.
  assert (Z.of_nat (length log) <= Z.of_nat (length log1)) as Hle by (pose proof (prefix_length _ _ (log_batch_prefix _ _ _ _ _ _ Hlog)); lia).
  assert (cursors_within (Z.of_nat (length log1)) t2) as Hcw.
  { intros id r. rewrite Hcur2. intros Hr. destruct (Hcur _ _ Hr) as (c & Hc & Hle'). exists c. split; [done|lia]. }
  split; [done| |auto|].
  - split.
    + exists s1. rewrite Ht3. by eapply stores_same; [exact Hst2|done|done|by destruct Hst2 as [_ _ _ _ [] _]|done].
    + by rewrite Ht3.
    + destruct cursor as [c|]; [|by destruct Hcursor as [_ ->]].
      destruct Hcursor as (a & _ & Ha). by eapply advanced_cursors_within.
  - destruct cursor as [c|]; [|destruct Hcursor as [-> ->]; auto].
    destruct Hcursor as (a & -> & Ha). exists a. split; [done|]. destruct Ha. split; by rewrite <-?Hcur2.
Qed.

Lemma ends_commit_body log batch advance expected t :
  holds log t -> Forall (fun e => parseControlEvent e = Ok e) batch ->
  ends quiet (commit_body runId runEpoch batch advance expected) t (fun r t' => forall c, r = Ok c ->
    exists log', committed log batch advance expected t (cm_results c) (cm_cursor c) t' log').
Proof using Type*.
  intros Hh Hb. destruct Hh as [[s Hst] Hmeta Hcur]. destruct (log_length _ _ _ Hst) as [Hn Hhead].
  unfold commit_body. eapply ends_bind_ok; [by eapply gives_loadProjection|]. cbv zeta. rewrite Hhead.
  destruct (match expected with Some n => negb (Z.of_nat (length log) =? n) | None => false end) eqn:Hexp.
  - eapply ends_mono; [by eapply ends_existing_batch|]. cbn. intros r t' H c Hr. destruct (H c Hr) as (-> & Hlog & Hc).
    exists log. split; [done|by split; eauto|auto|]. rewrite Hc. auto.
  - assert (progressed runId runEpoch log [] {| pg_projection := s; pg_results := []; pg_inserted := false |} t) as Hpg
      by (exists log; split; [constructor|done]).
    eapply ends_bind; [by eapply (ends_append_batch _ _ _ _ _ Hb)| |discriminate].
    intros pg t1 H. destruct (H _ eq_refl) as [(log1 & Hlog & Hst1 & Hins) Hsame]. clear H. cbn [app] in Hlog.
    eapply ends_bind; [by eapply ends_write_head| |discriminate]. intros [] t2 H. destruct (H eq_refl) as (Hst2 & Hmeta2 & Hcur2). clear H.
    eapply ends_bind; [apply ends_commit_cursor| |discriminate]. intros cursor t3 H. destruct (H _ eq_refl) as (updated & Ht3 & Hcursor). clear H.
    eapply ends_bind_ok; [apply gives_fault, _|]. apply ends_ret. intros c [= <-]. exists log1.
    eapply committed_new; try done. intros n ->. symmetry. by apply negb_false_iff, Z.eqb_eq in Hexp.
Qed.
End commits.

(** * The operations *)

Section operations.
Context {D : Digest} {U : UrlApi} {W : Type} `{!StoreHost W}.
Local Abbreviation command := (effect (StoreWorld W) Thrown).

(** ** Failures leave the tables *)

Definition same_tables : relation (StoreWorld W) := fun w w' => sw_tables w' = sw_tables w.
#[local] Instance same_tables_preorder : PreOrder same_tables.
Proof using. split; [by intros w|]. intros w1 w2 w3. unfold same_tables. congruence. Qed.

Abbreviation reads c := (keeps same_tables c).

Definition atomic {A} (c : command A) : Prop := forall w, after c w (fun w' r => forall e, r = Err e -> sw_tables w' = sw_tables w).

Lemma reads_on_host {A} (c : effect W Thrown A) : reads (on_host c).
Proof using. intros w. unfold after, on_host, same_tables. by destruct (c (sw_host w)). Qed.

Lemma reads_query {A} (f : Tables -> A) : reads (query f).
Proof using. apply keeps_bind; [exact _|apply reads_on_host|]. intros []. by intros w. Qed.

Lemma reads_transaction {A} mode (body : command A) : reads body -> reads (transaction mode body).
Proof using.
  intros Hb. apply keeps_bind; [exact _|apply reads_on_host|]. intros [] w. unfold after, or_rollback.
  assert (reads (a ← body; on_host host_commit;; mret a)) as H.
  { apply keeps_bind; [exact _|done|]. intros a. apply keeps_bind; [exact _|apply reads_on_host|]. intros []. apply (keeps_ret same_tables). }
  specialize (H w). unfold after in H. destruct ((a ← body; on_host host_commit;; mret a) w) as [w' [a|e]]; [exact H|reflexivity].
Qed.

Lemma atomic_reads {A} (c : command A) : reads c -> atomic c.
Proof using. intros Hc w. eapply after_mono; [apply Hc|]. by intros w' r H e _. Qed.

Lemma atomic_bind {A B} (c : command A) (k : A -> command B) : reads c -> (forall a, atomic (k a)) -> atomic (c ≫= k).
Proof using.
  intros Hc Hk w. apply after_bind. eapply after_mono; [apply Hc|]. intros w' [a|e] H; [|done].
  eapply after_mono; [apply Hk|]. intros w'' r H' e He. rewrite <-H. by eapply H'.
Qed.

Lemma atomic_under {A} (f : Thrown -> Thrown) (c : command A) : atomic c -> atomic (eff_under f c).
Proof using.
  intros Hc w. apply after_under. eapply after_mono; [apply Hc|]. intros w' r H e. destruct r as [a|e']; cbn; [done|]. intros _. by eapply H.
Qed.

Lemma atomic_transaction {A} mode (body : command A) : atomic (transaction mode body).
Proof using.
  apply atomic_bind; [apply reads_on_host|]. intros [] w. unfold after, or_rollback.
  by destruct ((a ← body; on_host host_commit;; mret a) w) as [w' [a|e]].
Qed.

Section quietly.
Context (quiet : W -> Prop) `{!QuietHost quiet}.

Lemma ends_under {A} (f : Thrown -> Thrown) (c : command A) t (Q : thrown A -> Tables -> Prop) :
  ends quiet c t (fun r t' => Q (map_err f r) t') -> ends quiet (eff_under f c) t Q.
Proof using.
  intros Hc w Hw. apply after_under. eapply after_mono; [by apply Hc|]. cbn. intros w' r (Hcl & Hok & Hq). split; [done|]. split; [|done].
  intros a Ha%map_err_Ok. subst r. by apply (Hok a).
Qed.

(** A transaction does what its body does. *)
Lemma ends_transaction {A} mode (body : command A) t (Q : thrown A -> Tables -> Prop) :
  ends quiet body t Q -> (forall e t', Q (Err e) t' -> Q (Err e) t) -> ends quiet (transaction mode body) t Q.
Proof using Type*.
  intros Hb HQ. eapply ends_bind_ok; [apply gives_on_host, quiet_begin|]. intros w Hw. unfold after, or_rollback.
  assert (ends quiet (a ← body; on_host host_commit;; mret a) t Q) as H.
  { eapply ends_bind; [exact Hb| |done]. intros a t' Ha. eapply ends_bind_ok; [apply gives_on_host, quiet_commit|]. by apply ends_ret. }
  specialize (H w Hw). unfold after in H. destruct ((a ← body; on_host host_commit;; mret a) w) as [w' [a|e]]; [done|]. cbn in *.
  destruct H as (Hcl & _ & Hq). split; [done|]. split; [done|]. intros Hquiet. destruct (Hq Hquiet) as [? He]. split; [done|].
  rewrite Hw. by eapply HQ.
Qed.

Lemma gives_transaction {A} mode (body : command A) t r : gives quiet body t r -> gives quiet (transaction mode body) t r.
Proof using Type*. intros H. apply ends_transaction; [done|]. by intros e t' [-> _]. Qed.
End quietly.

(** Every host keeps the triples of its success: no world of it is quiet. *)
#[local] Instance unquiet : QuietHost (fun _ : W => False).
Proof using. by split. Qed.

Lemma after_ends {A} (c : command A) w (Q : thrown A -> Tables -> Prop) :
  ends (fun _ => False) c (sw_tables w) Q -> after c w (fun w' r => forall a, r = Ok a -> Q (Ok a) (sw_tables w')).
Proof using. intros H. eapply after_mono; [by apply H|]. cbn. intros w' r (_ & Hok & _). exact Hok. Qed.

Variables runId runEpoch storeId : string.
Local Abbreviation holds := (holds runId runEpoch).
Local Abbreviation log_batch := (log_batch runId runEpoch).
Local Abbreviation committed := (committed runId runEpoch).

Lemma reads_assertOpen : reads assertOpen.
Proof using. apply keeps_bind; [exact _|by intros w|]. intros []. apply reads_on_host. Qed.

Lemma for_each_Ok {A} (l : list A) check u : for_each l check = Ok u -> Forall (fun x => check x = Ok tt) l.
Proof using.
  unfold for_each. intros H. run. apply map_result_Ok in Hrun. induction Hrun as [|x [] l us Hx _ IH]; constructor; auto.
Qed.

(** The events of a batch that is parsed are the values given. *)
Lemma parseEvents_Ok values events : parseEvents runId runEpoch values = Ok events ->
  events = values /\ Forall (fun e => parseControlEvent e = Ok e) values.
Proof using.
  unfold parseEvents. intros H. run. subst. clear -Hrun. apply map_result_Ok in Hrun.
  induction Hrun as [|e e' l l' He _ [-> IH]]; [done|]. apply map_err_Ok in He.
  assert (e' = e) as -> by (unfold parseControlEvent in He; run; done). by repeat constructor.
Qed.

(** What [commitParsed] does to the log, whatever the host. *)
Lemma after_commitParsed log batch advance expected w :
  holds log (sw_tables w) -> Forall (fun e => parseControlEvent e = Ok e) batch ->
  after (commitParsed runId runEpoch batch advance expected) w (fun w' r => match r with
    | Ok (rs, cursor) => exists log', committed log batch advance expected (sw_tables w) rs cursor (sw_tables w') log'
    | Err _ => sw_tables w' = sw_tables w
    end).
Proof using.
  intros Hh Hb. unfold commitParsed. apply after_under, after_bind.
  pose proof (ends_transaction (fun _ => False) immediate _ _ _ (ends_commit_body _ _ _ log batch advance expected _ Hh Hb)) as Ht.
  eapply after_mono; [apply after_and; [apply (atomic_transaction immediate)|apply after_ends, Ht; discriminate]|].
  intros w' [c|e] [Hatomic Hok]; [|cbn; by eapply Hatomic]. clear Hatomic. destruct (Hok _ eq_refl _ eq_refl) as (log' & Hc).
  unfold after. destruct (isSome advance && isNone (cm_cursor c)) eqn:E; cbn [negb].
  - cbn. pose proof (committed_cursor _ _ _ _ _ _ _ _ _ _ _ Hc) as Hcur. apply andb_true_iff in E as [Ha E].
    destruct (cm_cursor c); [done|]. destruct Hcur as [_ [->|H]]; done.
  - by exists log'.
Qed.

(** ** Calls *)

(** The calls that write, with the arguments of [appendBatch], [appendBatchIf],
    [appendBatchWithCursor] and [advanceConsumerCursor] in one form. *)
Inductive StoreWrite :=
| write_batch (values : list ControlEvent)
| write_if (expectedHeadSeq : Z) (values : list ControlEvent)
| write_with_cursor (values : list ControlEvent) (a : ConsumerCursorAdvance)
| write_cursor (a : ConsumerCursorAdvance).

Definition write_values (c : StoreWrite) : list ControlEvent :=
  match c with write_batch values | write_if _ values | write_with_cursor values _ => values | write_cursor _ => [] end.
Definition write_expected (c : StoreWrite) : option Z := match c with write_if n _ => Some n | _ => None end.
Definition write_advance (c : StoreWrite) : option ConsumerCursorAdvance :=
  match c with write_with_cursor _ a | write_cursor a => Some a | _ => None end.

Definition run_write (c : StoreWrite) : command (list AppendResult * option ConsumerCursor) :=
  match c with
  | write_batch values => rs ← appendBatch runId runEpoch values; mret (rs, None)
  | write_if n values => rs ← appendBatchIf runId runEpoch n values; mret (rs, None)
  | write_with_cursor values a => rc ← appendBatchWithCursor runId runEpoch values a; mret (rc.1, Some rc.2)
  | write_cursor a => c ← advanceConsumerCursor runId runEpoch a; mret ([], Some c)
  end.

(** The calls that read. *)
Inductive StoreRead :=
| read_range (afterSeq : Z) (limit : option Z) (epoch : option string)
| read_projection
| read_head
| read_identity
| read_cursor (consumerId : string).

Definition run_read (c : StoreRead) : command unit :=
  match c with
  | read_range afterSeq limit epoch => readRange runId runEpoch afterSeq limit epoch ;; mret tt
  | read_projection => getProjection runId runEpoch ;; mret tt
  | read_head => store_head runId runEpoch ;; mret tt
  | read_identity => store_identity runId runEpoch storeId ;; mret tt
  | read_cursor consumerId => readConsumerCursor consumerId ;; mret tt
  end.

(** One step of a store file: a call that writes or reads and may fail
    anywhere, closing the handle, or anything outside the store (time, another
    handle on the file being opened). *)
Inductive store_step (w w' : StoreWorld W) : Prop :=
| step_write c : w' = (run_write c w).1 -> store_step w w'
| step_read c : w' = (run_read c w).1 -> store_step w w'
| step_close : w' = (store_close w).1 -> store_step w w'
| step_host : sw_tables w' = sw_tables w -> store_step w w'.

Definition appended (log : list PersistedControlEvent) (c : StoreWrite) (w w' : StoreWorld W)
    (r : thrown (list AppendResult * option ConsumerCursor)) : Prop :=
  match r with
  | Ok (rs, cursor) => exists log', committed log (write_values c) (write_advance c) (write_expected c) (sw_tables w) rs cursor (sw_tables w') log'
  | Err _ => sw_tables w' = sw_tables w
  end.

(** Parsing and committing, from a world with the tables of [w]. *)
Lemma after_parse_commit {B} log values advance expected (w w0 : StoreWorld W) (k : list AppendResult * option ConsumerCursor -> command B) Q :
  holds log (sw_tables w) -> sw_tables w0 = sw_tables w ->
  (forall w' rs cursor log', committed log values advance expected (sw_tables w) rs cursor (sw_tables w') log' -> after (k (rs, cursor)) w' Q) ->
  (forall w' e, sw_tables w' = sw_tables w -> Q w' (Err e)) ->
  after (events ← eff_of (parseEvents runId runEpoch values); committed ← commitParsed runId runEpoch events advance expected; k committed) w0 Q.
Proof using.
  intros Hh Hw Hok Herr. destruct (parseEvents runId runEpoch values) as [events|e] eqn:E; [|apply after_bind; by apply Herr].
  rewrite eff_of_bind. apply parseEvents_Ok in E as [-> Hp]. rewrite <-Hw in Hh. apply after_bind.
  eapply after_mono; [by eapply after_commitParsed|]. cbn. intros w' [[rs cursor]|e] H; [destruct H as [log' H]; rewrite Hw in H; eauto|apply Herr; congruence].
Qed.

Lemma after_appendBatchWithCursor log values a (w : StoreWorld W) : holds log (sw_tables w) ->
  after (appendBatchWithCursor runId runEpoch values a) w (fun w' r => match r with
    | Ok (rs, c) => exists log', committed log values (Some a) None (sw_tables w) rs (Some c) (sw_tables w') log'
    | Err _ => sw_tables w' = sw_tables w
    end).
Proof using.
  intros Hh. unfold appendBatchWithCursor. eapply (after_keeps same_tables); [apply reads_assertOpen| |done].
  intros w0 [] Hw. eapply after_parse_commit; [done|done| |done]. intros w' rs [c|] log' Hc; cbn [fst snd].
  - by exists log'.
  - unfold after. cbn. by destruct (committed_cursor _ _ _ _ _ _ _ _ _ _ _ Hc) as [_ [?|H]].
Qed.

(** A call that writes appends to the log or leaves the tables. *)
Lemma after_run_write log c (w : StoreWorld W) : holds log (sw_tables w) -> after (run_write c) w (appended log c w).
Proof using.
  intros Hh. destruct c as [values|n values|values a|a]; cbn [run_write]; apply after_bind.
  - unfold appendBatch. eapply (after_keeps same_tables); [apply reads_assertOpen| |done]. intros w0 [] Hw. case_bool_decide as Hv.
    + subst values. unfold after, appended. cbn. exists log. rewrite Hw. split; [constructor|done|done|auto].
    + eapply after_parse_commit; [done|done| |done]. intros w' rs [c|] log' Hc.
      * by destruct (committed_cursor _ _ _ _ _ _ _ _ _ _ _ Hc) as (? & [=] & _).
      * by exists log'.
  - unfold appendBatchIf. eapply (after_keeps same_tables); [apply reads_assertOpen| |done]. intros w0 [] Hw.
    eapply (after_keeps same_tables); [apply (keeps_of same_tables)| |intros w1 e Hw1; cbn in *; congruence]. intros w1 u Hw1.
    assert (sw_tables w1 = sw_tables w) as Hw' by (cbn in *; congruence).
    eapply after_parse_commit; [done|done| |done]. intros w' rs [c|] log' Hc.
    + by destruct (committed_cursor _ _ _ _ _ _ _ _ _ _ _ Hc) as (? & [=] & _).
    + by exists log'.
  - eapply after_mono; [by apply after_appendBatchWithCursor|]. by intros w' [[rs cur]|e].
  - unfold advanceConsumerCursor. apply after_bind. eapply after_mono; [by apply after_appendBatchWithCursor|].
    intros w' [[rs cur]|e] H; [|done]. destruct H as [log' Hc]. unfold after. cbn. exists log'.
    assert (rs = []) as ->; [|done]. destruct Hc as [Hlog _ _ _]. remember [] as batch eqn:E. destruct Hlog as [|? ? ? ? ? ?]; [done|].
    by apply app_nil in E as [_ ?].
Qed.

(** ** Reading leaves the tables *)

Lemma reads_of {A} (r : thrown A) : reads (eff_of (W := StoreWorld W) r).
Proof using. apply (keeps_of same_tables). Qed.
Lemma reads_ret {A} (a : A) : reads (mret (M := effect (StoreWorld W) Thrown) a).
Proof using. apply (keeps_ret same_tables). Qed.
Lemma reads_bind {A B} (c : command A) (k : A -> command B) : reads c -> (forall a, reads (k a)) -> reads (c ≫= k).
Proof using. apply (keeps_bind same_tables). Qed.
Lemma reads_under {A} (f : Thrown -> Thrown) (c : command A) : reads c -> reads (eff_under f c).
Proof using. apply keeps_under. Qed.

Ltac read_only := repeat first
  [ apply reads_assertOpen | apply reads_query | apply reads_on_host | apply reads_of | apply reads_ret
  | apply reads_under | apply reads_transaction | apply reads_bind; [|intros ?] | case_match ].

Lemma reads_readMeta : reads readMeta.
Proof using. unfold readMeta. read_only. Qed.

Lemma reads_loadProjection : reads (loadProjection runId runEpoch).
Proof using. unfold loadProjection, loadScm, readAllEvents. repeat first [apply reads_readMeta | progress read_only]. Qed.

Lemma reads_run_read c : reads (run_read c).
Proof using.
  destruct c; cbn [run_read]; unfold readRange, read_page, getProjection, store_head, store_identity, readConsumerCursor;
    repeat first [apply reads_loadProjection | apply reads_readMeta | progress read_only].
Qed.

(** ** Histories of a store *)

Lemma step_holds log w w' : store_step w w' -> holds log (sw_tables w) -> exists log', log `prefix_of` log' /\ holds log' (sw_tables w').
Proof using.
  intros [c ->|c ->| ->|Hw] Hh.
  - pose proof (after_run_write _ c _ Hh) as H. unfold after, appended in H. destruct (run_write c w) as [w' [[rs cursor]|e]]; cbn in *.
    + destruct H as [log' Hc]. exists log'. split; [eapply log_batch_prefix, committed_log, Hc|by eapply committed_holds].
    + exists log. by rewrite H.
  - exists log. split; [done|]. pose proof (reads_run_read c w) as H. unfold after, same_tables in H. by rewrite H.
  - by exists log.
  - exists log. by rewrite Hw.
Qed.

Lemma steps_hold log w w' : rtc store_step w w' -> holds log (sw_tables w) -> exists log', log `prefix_of` log' /\ holds log' (sw_tables w').
Proof using.
  intros Hs. revert log. induction Hs as [w|w w1 w2 Hstep _ IH]; intros log Hh; [by exists log|].
  destruct (step_holds _ _ _ Hstep Hh) as (log1 & Hp & Hh1). destruct (IH _ Hh1) as (log2 & Hp2 & Hh2). exists log2. split; [by etransitivity|done].
Qed.

Lemma bootstrap_holds now t : uuid_v4_from 0 storeId = true -> bootstrap runId runEpoch storeId now = Ok t -> holds [] t.
Proof using.
  intros Hu H. unfold bootstrap, canonicalUtc in H. run. subst. split.
  - exists (emptyControlProjection runId runEpoch). split; cbn; [constructor|done|constructor|done| |done].
    split; cbn; try apply rows_of_empty; constructor.
  - eexists. split; [reflexivity|]. split; [|done]. unfold checkMeta, canonicalUtc. cbn. rewrite Hu. cbn.
    by match goal with H : _ = true |- _ => rewrite H end.
  - intros id r. cbn. by rewrite lookup_empty.
Qed.

(** ** A quiet store *)

Section quiet_store.
Context (quiet : W -> Prop) `{!QuietHost quiet}.

(** The answer to an event the log has. *)
Lemma validate_known log s t e pe row ct :
  stores runId runEpoch log s t -> pe ∈ log -> pe_event pe = e -> row ∈ t_events t -> er_event_id row = ev_eventId e ->
  canonicalControlEvent e = Ok ct -> validateExistingEvent row e ct (pe_intentDigest pe) = Ok (receipt pe true).
Proof using.
  intros Hst Hin He Hrow Hid Hct. destruct (stored_entry _ _ _ _ _ Hst _ Hin) as (r & Hr & Hre).
  assert (row = r) as ->.
  { eapply (NoDup_map_inj er_event_id); [by eapply stores_ids|done|done|]. by rewrite Hid, (row_id _ _ Hre), He. }
  unfold validateExistingEvent. rewrite (decode_event_row _ _ Hre). cbn. rewrite He, Hct.
  destruct Hre as (? & ? & -> & _). cbn. rewrite !bool_decide_eq_true_2 by done. cbn. unfold receipt. by rewrite He.
Qed.

Lemma gives_known log s t pg e pe :
  stores runId runEpoch log s t -> pe ∈ log -> pe_event pe = e ->
  gives quiet (append_event pg e) t (Ok {| pg_projection := pg_projection pg; pg_results := pg_results pg ++ [receipt pe true]; pg_inserted := pg_inserted pg |}).
Proof using Type*.
  intros Hst Hin He. destruct (stored_entry _ _ _ _ _ Hst _ Hin) as (r & Hr & Hrow).
  pose proof (row_id _ _ Hrow) as Hrid. destruct Hrow as (_ & _ & _ & _ & _ & Hi & _). rewrite He in *.
  assert (exists ct, canonicalControlEvent e = Ok ct) as [ct Hct].
  { unfold controlEventDigest in Hi. apply bind_Ok in Hi as (ct & ? & _). eauto. }
  unfold append_event, on_event_error. rewrite Hct, Hi. cbn [map_err]. rewrite !eff_of_bind.
  eapply gives_bind; [apply gives_query, _|]. cbv beta.
  destruct (List.find _ _) as [row|] eqn:E.
  - apply List_find_Some in E as [Hrow Hid%bool_decide_eq_true].
    rewrite (validate_known _ _ _ _ _ _ _ Hst Hin He Hrow Hid Hct), eff_of_bind. apply gives_ret.
  - apply List_find_None in E. apply (proj1 (Forall_forall _ _) E) in Hr. by apply bool_decide_eq_false in Hr.
Qed.

Lemma gives_known_batch log s t batch pes : stores runId runEpoch log s t ->
  Forall2 (fun e pe => pe ∈ log /\ pe_event pe = e) batch pes -> forall pg,
  gives quiet (eff_fold append_event pg batch) t (Ok {| pg_projection := pg_projection pg;
    pg_results := pg_results pg ++ List.map (fun pe => receipt pe true) pes; pg_inserted := pg_inserted pg |}).
Proof using Type*.
  intros Hst. induction 1 as [|e pe batch pes [Hin He] _ IH]; intros pg; cbn [eff_fold List.map].
  - rewrite app_nil_r. destruct pg. apply gives_ret.
  - eapply gives_bind; [by eapply gives_known|]. cbv beta. specialize (IH {| pg_projection := pg_projection pg;
      pg_results := pg_results pg ++ [receipt pe true]; pg_inserted := pg_inserted pg |}). cbn in IH. by rewrite <-app_assoc in IH.
Qed.

Lemma gives_under {A} (f : Thrown -> Thrown) (c : command A) t r : gives quiet c t r -> gives quiet (eff_under f c) t (map_err f r).
Proof using. intros H. apply ends_under. eapply ends_mono; [exact H|]. by intros r' t' [-> ->]. Qed.

(** A batch the log has, committed again. *)
Lemma gives_commit_known log t batch pes : holds log t -> Forall2 (fun e pe => pe ∈ log /\ pe_event pe = e) batch pes ->
  gives quiet (commitParsed runId runEpoch batch None None) t (Ok (List.map (fun pe => receipt pe true) pes, None)).
Proof using Type*.
  intros [[s Hst] Hmeta _] Hall. unfold commitParsed.
  apply (gives_under normalizeStoreError _ _ (Ok (_, _))).
  eapply gives_bind.
  - apply (gives_transaction quiet). unfold commit_body. eapply gives_bind; [by eapply gives_loadProjection|]. cbv zeta.
    eapply gives_bind; [by eapply gives_known_batch|]. cbv beta. unfold write_head. cbn [pg_inserted].
    eapply gives_bind; [apply gives_ret|]. cbv beta. cbn [commit_cursor].
    eapply gives_bind; [apply gives_ret|]. cbv beta. eapply gives_bind; [apply gives_fault, _|]. apply gives_ret.
  - cbn [cm_cursor isSome isNone negb andb ensure]. rewrite eff_of_bind. apply gives_ret.
Qed.

(** An open store on a quiet host. *)
Lemma after_open {A} (k : command A) (w : StoreWorld W) (Q : StoreWorld W -> thrown A -> Prop) :
  sw_closed w = false -> quiet (sw_host w) ->
  (forall w', sw_tables w' = sw_tables w -> quiet (sw_host w') -> after k w' Q) -> after (assertOpen ;; k) w Q.
Proof using Type*.
  intros Hcl Hq Hk. unfold after, assertOpen, mbind, effect_bind. rewrite Hcl. unfold on_host. cbn.
  destruct (quiet_file _ Hq) as (h & -> & Hh). cbn. by apply Hk.
Qed.

Lemma after_gives {A} (c : command A) (w : StoreWorld W) r : gives quiet c (sw_tables w) r -> quiet (sw_host w) ->
  after c w (fun w' r' => r' = r /\ sw_tables w' = sw_tables w).
Proof using. intros H Hq. eapply after_mono; [by apply H|]. cbn. intros w' r' (_ & _ & H'). by apply H'. Qed.

(** ** Reading a held log *)

Lemma gives_getProjection log s t : stores runId runEpoch log s t -> meta_at runId runEpoch (Z.of_nat (length log)) t ->
  gives quiet (eff_under normalizeStoreError (transaction deferred (loadProjection runId runEpoch))) t (Ok s).
Proof using Type*.
  intros Hst Hmeta. apply (gives_under normalizeStoreError _ _ (Ok s)), (gives_transaction quiet). by eapply gives_loadProjection.
Qed.

(** The rows of a page are those of a slice of the log. *)
Lemma filter_numbered (log : list PersistedControlEvent) rows (k a : nat) :
  Forall2 event_row log rows -> (forall i pe, log !! i = Some pe -> pe_seq pe = Z.of_nat (k + i) + 1) ->
  List.filter (fun r => (Z.of_nat a <? er_seq r) && (er_seq r <=? Z.of_nat (k + length log))) rows = drop (a - k) rows.
Proof using.
  intros Hrows. revert k. induction Hrows as [|pe r log rows Hr Hrows IH]; intros k Hn; cbn [List.filter length]; [by rewrite drop_nil|].
  assert (er_seq r = Z.of_nat k + 1) as Hseq.
  { destruct Hr as (? & ? & -> & _). cbn. rewrite (Hn 0%nat pe eq_refl). lia. }
  specialize (IH (S k)). replace (S k + length log)%nat with (k + S (length log))%nat in IH by lia.
  rewrite IH by (intros i q Hq; rewrite (Hn (S i) q Hq); lia). rewrite Hseq.
  destruct (Z.ltb_spec (Z.of_nat a) (Z.of_nat k + 1)); cbn [andb].
  - rewrite (proj2 (Z.leb_le _ _)) by lia. replace (a - k)%nat with 0%nat by lia. replace (a - S k)%nat with 0%nat by lia. done.
  - replace (a - k)%nat with (S (a - S k)) by lia. done.
Qed.

Lemma select_page log s t (a n : nat) : stores runId runEpoch log s t ->
  select_range (Z.of_nat a) (Z.of_nat (length log)) (Z.of_nat n) t = take n (drop a t.(t_events)).
Proof using.
  intros Hst. unfold select_range. rewrite Nat2Z.id. f_equal.
  pose proof (filter_numbered log (t_events t) 0 a (stores_events _ _ _ _ _ Hst)) as Hf. cbn [Nat.add] in Hf.
  rewrite Hf by (intros i pe; by eapply reduce_numbered, stores_replay). rewrite Nat.sub_0_r.
  apply order_by_sorted. pose proof (stores_rows_sorted _ _ _ _ _ Hst) as H. rewrite <-(take_drop a (t_events t)) in H.
  by apply StronglySorted_app_1_r in H.
Qed.

(** The page after [a] of at most [n] events, as the code returns it. *)
Definition page (log : list PersistedControlEvent) (a n : nat) : EventRange := {|
  range_runEpoch := runEpoch; range_floorSeq := 1; range_headSeq := Z.of_nat (length log); range_afterSeq := Z.of_nat a;
  range_events := take n (drop a log); range_hasMore := (a + n <? length log)%nat |}.

Lemma last_of {A} (l : list A) : List.last (List.map Some l) None = last l.
Proof using. induction l as [|x [|y l] IH]; [done|done|]. exact IH. Qed.

Lemma page_hasMore log s t (a n : nat) : stores runId runEpoch log s t -> (a <= length log)%nat -> (1 <= n)%nat ->
  match List.last (List.map Some (take n (drop a log))) None with Some pe => pe_seq pe <? Z.of_nat (length log) | None => false end = (a + n <? length log)%nat.
Proof using.
  intros Hst Ha Hn. rewrite last_of. rewrite last_lookup, length_take, length_drop.
  pose proof (reduce_numbered _ _ _ _ (stores_replay _ _ _ _ _ Hst)) as Hnum.
  destruct (decide (a = length log)) as [->|Hne].
  - rewrite drop_all, take_nil, lookup_nil. symmetry. apply Nat.ltb_ge. lia.
  - rewrite lookup_take_lt by lia. rewrite lookup_drop.
    destruct (log !! (a + Nat.pred (n `min` (length log - a)))%nat) as [pe|] eqn:E.
    + rewrite (Hnum _ _ E). destruct (Nat.ltb_spec (a + n) (length log)); [apply Z.ltb_lt|apply Z.ltb_ge]; lia.
    + apply lookup_ge_None in E. lia.
Qed.

(** The transaction of [readRange]. *)
Lemma gives_range log s t (a n : nat) : stores runId runEpoch log s t -> meta_at runId runEpoch (Z.of_nat (length log)) t -> (1 <= n)%nat ->
  gives quiet (read_page runId runEpoch (Z.of_nat a) (Z.of_nat n)) t
    (if (a <=? length log)%nat then Ok (page log a n) else Err recovery).
Proof using Type*.
  intros Hst (m & Hm & Hc & Hr & He & Hf & Hhead) Hn. unfold read_page.
  eapply gives_bind; [by eapply gives_readMeta|]. cbv beta. rewrite (verified runId runEpoch m Hr He), eff_of_bind, Hf, Hhead.
  rewrite (proj2 (Z.leb_le (1 - 1) (Z.of_nat a))) by lia. cbn [ensure]. rewrite eff_of_bind.
  destruct (Nat.leb_spec a (length log)) as [Ha|Ha].
  - rewrite (proj2 (Z.leb_le _ _)) by lia. cbn [ensure]. rewrite eff_of_bind.
    eapply gives_bind; [apply gives_query, _|]. cbv beta. rewrite (select_page _ _ _ _ _ Hst).
    rewrite (decode_events _ (take n (drop a log))) by (apply Forall2_take, Forall2_drop, Hst). rewrite eff_of_bind.
    rewrite (page_hasMore _ _ _ _ _ Hst Ha Hn). apply gives_ret.
  - rewrite (proj2 (Z.leb_gt _ _)) by lia. cbn [ensure]. eapply ends_bind_err; [apply gives_of|done].
Qed.

(** [readRange] from [a], with an admissible limit [n]. *)
Lemma after_readRange log (w : StoreWorld W) (a n : nat) :
  holds log (sw_tables w) -> sw_closed w = false -> quiet (sw_host w) -> (1 <= n)%nat -> Z.of_nat n <= MAX_RANGE_LIMIT ->
  after (readRange runId runEpoch (Z.of_nat a) (Some (Z.of_nat n)) (Some runEpoch)) w (fun w' r =>
    sw_tables w' = sw_tables w /\ ((a <= length log)%nat -> r = Ok (page log a n))
    /\ ((length log < a)%nat -> exists code, r = Err (ControlStoreError code))).
Proof using Type*.
  intros [[s Hst] Hmeta _] Hcl Hq Hn Hmax. apply (after_open _ _ _ Hcl Hq). intros w1 Hw1 Hq1. rewrite <-Hw1.
  rewrite <-Hw1 in Hst, Hmeta. cbv zeta. unfold default, id. cbn [optional]. rewrite bool_decide_eq_true_2 by done.
  assert (isSafeInteger (Z.of_nat n) && (1 <=? Z.of_nat n) && (Z.of_nat n <=? MAX_RANGE_LIMIT) = true) as Hlim.
  { unfold MAX_RANGE_LIMIT, isSafeInteger, MAX_SAFE_INTEGER in *. rewrite !andb_true_iff, !Z.leb_le. lia. }
  assert ((a <= length log)%nat -> nonNegative (Z.of_nat a) = true) as Hsafe.
  { intros Ha. destruct (log_length _ _ _ _ _ Hst) as [Hl%nonNegative_spec _]. apply nonNegative_spec. lia. }
  apply andb_true_iff in Hlim as [[Hl1 Hl2]%andb_true_iff Hl3]. rewrite Hl1, Hl2, Hl3, !andb_true_r.
  destruct (nonNegative (Z.of_nat a)) eqn:Ea; cbn [ensure].
  - rewrite !eff_of_bind. eapply after_mono; [eapply after_gives; [apply (gives_under normalizeStoreError), (gives_transaction quiet); by eapply gives_range|done]|].
    cbn beta. intros w' r [-> ->]. split; [done|]. split; intros Ha.
    + by rewrite (proj2 (Nat.leb_le _ _) Ha).
    + rewrite (proj2 (Nat.leb_gt _ _) Ha). by eexists.
  - unfold after. cbn. split; [done|]. split; [intros Ha; by specialize (Hsafe Ha)|by eexists].
Qed.
Lemma projection_returned log s (w : StoreWorld W) :
  stores runId runEpoch log s (sw_tables w) -> meta_at runId runEpoch (Z.of_nat (length log)) (sw_tables w) ->
  sw_closed w = false -> quiet (sw_host w) -> (getProjection runId runEpoch w).2 = Ok s.
Proof using Type*.
  intros Hst Hmeta Hcl Hq. apply (after_open _ w (fun _ r => r = Ok s) Hcl Hq). intros w1 Hw1 Hq1. rewrite <-Hw1 in Hst, Hmeta.
  eapply after_mono; [eapply after_gives; [by eapply gives_getProjection|done]|]. by intros w' r [-> _].
Qed.
(** A receipt when its batch is sent again. *)
Definition acknowledged_again (r : AppendResult) : AppendResult := {|
  ar_eventId := r.(ar_eventId); ar_seq := r.(ar_seq); ar_digest := r.(ar_digest); ar_intentDigest := r.(ar_intentDigest);
  ar_recordedAt := r.(ar_recordedAt); ar_idempotent := true; ar_aggregateVersion := r.(ar_aggregateVersion) |}.

Lemma acknowledged_entries log values rs : Forall2 (acknowledged log) values rs ->
  exists pes, Forall2 (fun e pe => pe ∈ log /\ pe_event pe = e) values pes /\ List.map acknowledged_again rs = List.map (fun pe => receipt pe true) pes.
Proof using.
  induction 1 as [|e r values rs (pe & i & Hin & He & ->) _ (pes & Hall & Hmap)]; [by exists []|].
  exists (pe :: pes). split; [by constructor|]. cbn. by rewrite Hmap.
Qed.

Lemma resent log values rs (w : StoreWorld W) :
  holds log (sw_tables w) -> parseEvents runId runEpoch values = Ok values -> Forall2 (acknowledged log) values rs ->
  sw_closed w = false -> quiet (sw_host w) ->
  exists w', appendBatch runId runEpoch values w = (w', Ok (List.map acknowledged_again rs)) /\ sw_tables w' = sw_tables w.
Proof using Type*.
  intros Hh Hp (pes & Hall & Hmap)%acknowledged_entries Hcl Hq.
  enough (after (appendBatch runId runEpoch values) w (fun w' r => r = Ok (List.map acknowledged_again rs) /\ sw_tables w' = sw_tables w)) as H.
  { unfold after in H. destruct (appendBatch runId runEpoch values w) as [w' r]. cbn in H. destruct H as [-> H]. by exists w'. }
  apply (after_open _ _ _ Hcl Hq). intros w1 Hw1 Hq1. rewrite <-Hw1 in Hh |- *. case_bool_decide as Hv.
  - subst values. inversion Hall; subst. destruct rs; [|done]. done.
  - rewrite Hp, eff_of_bind. apply after_bind. eapply after_mono; [eapply after_gives; [by eapply gives_commit_known|done]|].
    cbn beta. intros w' r [-> Hw']. unfold after. cbn. by rewrite Hmap.
Qed.
End quiet_store.

(** On any host a projection that is returned is the replay. *)
Lemma projection_is_replay log s (w : StoreWorld W) s' :
  stores runId runEpoch log s (sw_tables w) -> meta_at runId runEpoch (Z.of_nat (length log)) (sw_tables w) ->
  (getProjection runId runEpoch w).2 = Ok s' -> s' = s.
Proof using.
  intros Hst Hmeta. enough (after (getProjection runId runEpoch) w (fun _ r => forall s', r = Ok s' -> s' = s)) as H by apply H.
  eapply (after_keeps same_tables); [apply reads_assertOpen| |done]. intros w1 [] Hw1. rewrite <-Hw1 in Hst, Hmeta.
  eapply after_mono; [eapply after_ends; by eapply gives_getProjection|]. cbn. intros w' r H a Ha. by destruct (H a Ha) as [[= ->] _].
Qed.
End operations.
