(* ===== verification/GitTransaction.v ===== *)
(** GitTransaction: candidates, compare-and-swap and compensation of one
    repository's integration ref (src/multirepo/git-transaction.ts). The git
    program and the file system are an interface over a world that every command
    may change. Then what the operations of src/multirepo/git-transaction.ts do to the
    refs, given that git's own commands do to them what their manual says. *)
From S2P Require Import Prelude Text Json Ids ScmTypes Domain Effects.

(** * The host *)

Record MultiRepoGitCommandResult := { gr_ok : bool; gr_out : text; gr_err : text }.

(** What [lstatSync] says of a path. *)
Record Stat := { stat_isDirectory : bool; stat_dev : Z; stat_ino : Z }.

(** [runner.run], [realpathSync] and [lstatSync]; [None] is an exception. *)
Class GitHost (W : Type) := {
  git_run : W -> text -> list text -> W * MultiRepoGitCommandResult;
  realpathSync : W -> text -> option text;
  lstatSync : W -> text -> option Stat
}.

(** * Errors: a code and the message after it *)

Inductive MultiRepoGitErrorCode :=
| GIT_INVALID_REQUEST | GIT_REPOSITORY_IDENTITY_MISMATCH | GIT_REF_OBSERVATION_FAILED | GIT_EXPECTED_REF_MISMATCH | GIT_OBJECT_MISSING
| GIT_NO_CHANGES | GIT_MERGE_CONFLICT | GIT_CANDIDATE_INVALID.
#[export] Instance MultiRepoGitErrorCode_eq_dec : EqDecision MultiRepoGitErrorCode. Proof. solve_decision. Defined.

Definition GitErrorCode_name (code : MultiRepoGitErrorCode) : string :=
  match code with
  | GIT_INVALID_REQUEST => "INVALID_REQUEST" | GIT_REPOSITORY_IDENTITY_MISMATCH => "REPOSITORY_IDENTITY_MISMATCH"
  | GIT_REF_OBSERVATION_FAILED => "REF_OBSERVATION_FAILED" | GIT_EXPECTED_REF_MISMATCH => "EXPECTED_REF_MISMATCH"
  | GIT_OBJECT_MISSING => "OBJECT_MISSING" | GIT_NO_CHANGES => "NO_CHANGES" | GIT_MERGE_CONFLICT => "MERGE_CONFLICT"
  | GIT_CANDIDATE_INVALID => "CANDIDATE_INVALID"
  end.

Record MultiRepoGitError := { ge_code : MultiRepoGitErrorCode; ge_detail : text }.

(** [error.message] *)
Definition git_error_message (e : MultiRepoGitError) : text :=
  text_of_string (GitErrorCode_name e.(ge_code)) ++ text_of_string ": " ++ e.(ge_detail).

Definition git_error (code : MultiRepoGitErrorCode) (detail : string) : MultiRepoGitError := {| ge_code := code; ge_detail := text_of_string detail |}.

(** * Data *)

Record RepositoryCandidateV1 := {
  rc_repositoryId : string;
  rc_targetRef : text;
  rc_expectedOid : string;
  rc_childOid : string;
  rc_candidateOid : string;
  rc_treeOid : string;
  rc_parents : string * string
}.

Record RepositoryCandidateRequest := {
  rq_repository : RepositoryIdentityV1;
  rq_targetRef : text;
  rq_expectedOid : string;
  rq_childOid : string;
  rq_message : text
}.

Inductive RefObservation := ref_observed (oid : option string) | ref_unknown_identity | ref_unknown_read.

Inductive RecoveryReason := IDENTITY_MISMATCH | OUTCOME_UNKNOWN.

(** [RepositoryCasResult]; an absent [observedOid] is [None]. *)
Inductive RepositoryCasResult :=
| cas_applied (observedOid : string)
| cas_already_applied (observedOid : string)
| cas_refused (observedOid : option string)
| cas_recovery_required (reasonCode : RecoveryReason) (observedOid : option (option string)).

Inductive RepositoryCompensationResult :=
| undo_compensated (observedOid : string)
| undo_already_compensated (observedOid : string)
| undo_refused (observedOid : option string)
| undo_recovery_required (reasonCode : RecoveryReason) (observedOid : option (option string)).

(** * Texts *)

(** A git output that is a full object id, [OID.test(out)]. *)
Definition oid_of_text (t : text) : option string :=
  if forallb (between 0 127) t && gitOid (string_of_text t) then Some (string_of_text t) else None.

Definition ref_alnum (c : Z) : bool := between 65 90 c || between 97 122 c || between 48 57 c.
Definition ref_unit (c : Z) : bool := ref_alnum c || (c =? 46) || (c =? 95) || (c =? 47) || (c =? 45).

(** [REF]: the units of the name, the first and the last of them letters or digits. *)
Definition REF (value : text) : bool :=
  startsWith (text_of_string "refs/heads/") value
  && let name := drop (length (text_of_string "refs/heads/")) value in
     forallb ref_unit name
     && match name with c :: _ => ref_alnum c | [] => false end
     && match last name with Some c => ref_alnum c | None => false end.

(** [text.split("\n", 1)[0]?.trim()] *)
Fixpoint trim_start (t : text) : text :=
  match t with c :: t' => if js_whitespace c then trim_start t' else t | [] => [] end.

Definition trim (t : text) : text := reverse (trim_start (reverse (trim_start t))).

Definition first_line (t : text) : text := match split 10 t with line :: _ => line | [] => [] end.

Section git.
Context {W : Type} `{GitHost W}.

(** * Commands that may throw a [MultiRepoGitError] *)

Abbreviation git := (effect W MultiRepoGitError).

Definition git_throw {A} (code : MultiRepoGitErrorCode) (detail : string) : git A := eff_of (Err (git_error code detail)).
Definition git_ensure (b : bool) (code : MultiRepoGitErrorCode) (detail : string) : git unit := eff_of (ensure b (git_error code detail)).
Definition run (cwd : text) (args : list text) : git MultiRepoGitCommandResult := fun w =>
  let (w', r) := git_run w cwd args in (w', Ok r).

Definition str (s : string) : text := text_of_string s.

(** * Requests *)

Definition requireOid (value name : string) : git string :=
  git_ensure (gitOid value) GIT_INVALID_REQUEST (name +:+ " is not a full object ID") ;; mret value.

Definition requireRef (value : text) : git text :=
  git_ensure (REF value && negb (includes [46; 46] value) && negb (includes [47; 47] value) && negb (includes [64; 123] value)
              && negb (endsWith (str ".lock") value)) GIT_INVALID_REQUEST "target ref is not a canonical local branch ref" ;;
  mret value.

(** A directory with this device and inode. *)
Definition stat_is (s : option Stat) (dev ino : Z) : bool :=
  match s with Some s => s.(stat_isDirectory) && (s.(stat_dev) =? dev) && (s.(stat_ino) =? ino) | None => false end.

Definition identity_of (w : W) (path : option text) (dev ino : Z) : bool :=
  match path with Some path => stat_is (lstatSync w path) dev ino | None => false end.

(** [realpathSync(path)] with [lstatSync] of the result, in the world as it is. *)
Definition probe (path : text) (dev ino : Z) : git (option text * bool) := fun w =>
  let canonical := realpathSync w path in (w, Ok (canonical, identity_of w canonical dev ino)).

Definition verifyRepository (repository : RepositoryIdentityV1) : git text :=
  (git_ensure (isAbsolute repository.(ri_canonicalRoot)) GIT_INVALID_REQUEST "repository root must be absolute" ;;
   root ← probe repository.(ri_canonicalRoot) repository.(ri_rootDevice) repository.(ri_rootInode);
   git_ensure root.2 GIT_REPOSITORY_IDENTITY_MISMATCH ("repository root changed for " +:+ repository.(ri_repositoryId)) ;;
   let canonical := default [] root.1 in
   git_ensure (bool_decide (canonical = repository.(ri_canonicalRoot))) GIT_REPOSITORY_IDENTITY_MISMATCH "repository root is no longer canonical" ;;
   common ← run canonical [str "rev-parse"; str "--path-format=absolute"; str "--git-common-dir"];
   git_ensure (common.(gr_ok) && isAbsolute common.(gr_out)) GIT_REPOSITORY_IDENTITY_MISMATCH "Git common directory cannot be resolved" ;;
   directory ← probe (resolve common.(gr_out)) repository.(ri_gitCommonDirDevice) repository.(ri_gitCommonDirInode);
   git_ensure directory.2 GIT_REPOSITORY_IDENTITY_MISMATCH "Git common directory identity changed" ;;
   mret canonical).

Definition resolveCommit (cwd : text) (oid : string) : git string :=
  result ← run cwd [str "rev-parse"; str "--verify"; str "--end-of-options"; str (oid +:+ "^{commit}")];
  git_ensure (result.(gr_ok) && bool_decide (result.(gr_out) = str oid)) GIT_OBJECT_MISSING ("commit " +:+ oid +:+ " is absent or not canonical") ;;
  mret oid.

Definition readRef (cwd targetRef : text) : git (option string) :=
  result ← run cwd [str "show-ref"; str "--verify"; str "--hash"; targetRef];
  if negb result.(gr_ok) then mret None
  else match oid_of_text result.(gr_out) with
       | Some oid => mret (Some oid)
       | None => git_throw GIT_REF_OBSERVATION_FAILED "target ref returned a non-canonical object ID"
       end.

Definition observeRepositoryRef (repository : RepositoryIdentityV1) (targetRef : text) : git RefObservation :=
  eff_try (verifyRepository repository)
    (fun cwd => eff_try (ref ← requireRef targetRef; readRef cwd ref) (fun oid => mret (ref_observed oid)) (fun _ => mret ref_unknown_read))
    (fun e => if bool_decide (e.(ge_code) = GIT_REPOSITORY_IDENTITY_MISMATCH) then mret ref_unknown_identity else eff_of (Err e)).

Definition shown_oid (oid : option string) : string := default "absent" oid.

(** * Operations *)

Definition prepareRepositoryCandidate (request : RepositoryCandidateRequest) : git RepositoryCandidateV1 :=
  cwd ← verifyRepository request.(rq_repository);
  targetRef ← requireRef request.(rq_targetRef);
  expected ← requireOid request.(rq_expectedOid) "expected OID";
  expectedOid ← resolveCommit cwd expected;
  child ← requireOid request.(rq_childOid) "child OID";
  childOid ← resolveCommit cwd child;
  git_ensure (negb (bool_decide (expectedOid = childOid))) GIT_NO_CHANGES "child and expected commits are identical" ;;
  git_ensure (between 1 (8 * 1024) (utf8_length request.(rq_message)) && negb (bool_decide (0 ∈ request.(rq_message)))) GIT_INVALID_REQUEST
    "candidate message is outside the closed byte bound" ;;
  before ← readRef cwd targetRef;
  git_ensure (bool_decide (before = Some expectedOid)) GIT_EXPECTED_REF_MISMATCH ("target ref is " +:+ shown_oid before +:+ ", expected " +:+ expectedOid) ;;
  mergeTree ← run cwd [str "merge-tree"; str "--write-tree"; str expectedOid; str childOid];
  git_ensure mergeTree.(gr_ok) GIT_MERGE_CONFLICT "candidate merge has conflicts or could not be constructed" ;;
  match oid_of_text (trim (first_line mergeTree.(gr_out))) with
  | None => git_throw GIT_CANDIDATE_INVALID "merge-tree did not return an immutable tree object"
  | Some treeOid =>
      commit ← run cwd [str "commit-tree"; str treeOid; str "-p"; str expectedOid; str "-p"; str childOid; str "-m"; request.(rq_message)];
      match (if commit.(gr_ok) then oid_of_text commit.(gr_out) else None) with
      | None => git_throw GIT_CANDIDATE_INVALID "candidate commit could not be constructed"
      | Some candidateOid =>
          parents ← run cwd [str "rev-list"; str "--parents"; str "-n"; str "1"; str candidateOid];
          git_ensure (parents.(gr_ok) && bool_decide (parents.(gr_out) = str (candidateOid +:+ " " +:+ expectedOid +:+ " " +:+ childOid)))
            GIT_CANDIDATE_INVALID "candidate parent shape differs from the reviewed vector" ;;
          candidateTree ← run cwd [str "rev-parse"; str "--verify"; str "--end-of-options"; str (candidateOid +:+ "^{tree}")];
          git_ensure (candidateTree.(gr_ok) && bool_decide (candidateTree.(gr_out) = str treeOid))
            GIT_CANDIDATE_INVALID "candidate tree differs from the prepared merge tree" ;;
          after ← readRef cwd targetRef;
          git_ensure (bool_decide (after = Some expectedOid)) GIT_EXPECTED_REF_MISMATCH "target ref moved while the candidate was prepared" ;;
          mret {| rc_repositoryId := request.(rq_repository).(ri_repositoryId); rc_targetRef := targetRef; rc_expectedOid := expectedOid;
                  rc_childOid := childOid; rc_candidateOid := candidateOid; rc_treeOid := treeOid; rc_parents := (expectedOid, childOid) |}
      end
  end.

Definition applyRepositoryCandidate (repository : RepositoryIdentityV1) (candidate : RepositoryCandidateV1) : git RepositoryCasResult :=
  eff_try (verifyRepository repository)
    (fun cwd =>
      git_ensure (bool_decide (candidate.(rc_repositoryId) = repository.(ri_repositoryId))) GIT_INVALID_REQUEST "candidate repository identity differs" ;;
      _ ← requireRef candidate.(rc_targetRef);
      _ ← requireOid candidate.(rc_expectedOid) "expected OID";
      _ ← resolveCommit cwd candidate.(rc_candidateOid);
      observed ← readRef cwd candidate.(rc_targetRef);
      if bool_decide (observed = Some candidate.(rc_candidateOid)) then mret (cas_already_applied candidate.(rc_candidateOid))
      else if negb (bool_decide (observed = Some candidate.(rc_expectedOid))) then mret (cas_refused observed)
      else
        update ← run cwd [str "update-ref"; candidate.(rc_targetRef); str candidate.(rc_candidateOid); str candidate.(rc_expectedOid)];
        reconciled ← observeRepositoryRef repository candidate.(rc_targetRef);
        match reconciled with
        | ref_observed oid =>
            if bool_decide (oid = Some candidate.(rc_candidateOid)) then mret (cas_applied candidate.(rc_candidateOid))
            else if negb (bool_decide (oid = Some candidate.(rc_expectedOid))) || negb update.(gr_ok) then mret (cas_refused oid)
            else mret (cas_recovery_required OUTCOME_UNKNOWN (Some oid))
        | _ => mret (cas_recovery_required OUTCOME_UNKNOWN None)
        end)
    (fun _ => mret (cas_recovery_required IDENTITY_MISMATCH None)).

Definition compensateRepositoryCandidate (repository : RepositoryIdentityV1) (candidate : RepositoryCandidateV1) : git RepositoryCompensationResult :=
  eff_try (verifyRepository repository)
    (fun cwd =>
      observed ← readRef cwd candidate.(rc_targetRef);
      if bool_decide (observed = Some candidate.(rc_expectedOid)) then mret (undo_already_compensated candidate.(rc_expectedOid))
      else if negb (bool_decide (observed = Some candidate.(rc_candidateOid))) then mret (undo_refused observed)
      else
        update ← run cwd [str "update-ref"; candidate.(rc_targetRef); str candidate.(rc_expectedOid); str candidate.(rc_candidateOid)];
        reconciled ← observeRepositoryRef repository candidate.(rc_targetRef);
        match reconciled with
        | ref_observed oid =>
            if bool_decide (oid = Some candidate.(rc_expectedOid)) then mret (undo_compensated candidate.(rc_expectedOid))
            else if negb (bool_decide (oid = Some candidate.(rc_candidateOid))) || negb update.(gr_ok) then mret (undo_refused oid)
            else mret (undo_recovery_required OUTCOME_UNKNOWN (Some oid))
        | _ => mret (undo_recovery_required OUTCOME_UNKNOWN None)
        end)
    (fun _ => mret (undo_recovery_required IDENTITY_MISMATCH None)).
End git.

(** * Facts *)

(** The refs of the repositories: root, name, object id. *)
Definition refs_of (W : Type) : Type := W -> text -> text -> option string.

(** Refs of different entries: of repositories that are [apart] (they share no
    common directory), or of different names in one. *)
Definition other_ref (apart : text -> text -> Prop) (root name root' name' : text) : Prop :=
  apart root root' \/ (root' = root /\ name' <> name).

(** The documented behaviour of git: [show-ref --verify --hash] prints the id of
    a ref that exists and fails for one that does not; [update-ref ref new old]
    moves this ref only, and only from [old] to [new]; no other command the
    program runs moves refs; [rev-list --parents] prints a commit and its
    parents, and no commit is its own parent. *)
Class GitRefs {W} `{GitHost W} (apart : text -> text -> Prop) (refs : refs_of W) : Prop := {
  git_moves_nothing w cwd args w' r root name :
    git_run w cwd args = (w', r) -> head args <> Some (text_of_string "update-ref") -> refs w' root name = refs w root name;
  git_show_ref w cwd name w' r :
    git_run w cwd [text_of_string "show-ref"; text_of_string "--verify"; text_of_string "--hash"; name] = (w', r) ->
    if gr_ok r then exists oid, refs w cwd name = Some oid /\ gr_out r = text_of_string oid else refs w cwd name = None;
  git_update_ref w cwd name new old w' r :
    git_run w cwd [text_of_string "update-ref"; name; text_of_string new; text_of_string old] = (w', r) ->
    (forall root other, other_ref apart cwd name root other -> refs w' root other = refs w root other) /\
    ((gr_ok r = false /\ refs w' cwd name = refs w cwd name) \/ (refs w cwd name = Some old /\ refs w' cwd name = Some new));
  git_rev_list w cwd oid first second w' r :
    git_run w cwd [text_of_string "rev-list"; text_of_string "--parents"; text_of_string "-n"; text_of_string "1"; text_of_string oid] = (w', r) ->
    gr_ok r = true -> gr_out r = text_of_string (oid +:+ " " +:+ first +:+ " " +:+ second) -> oid <> first
}.

Section facts.
Context {W : Type} `{GitHost W} (apart : text -> text -> Prop) (refs : refs_of W) `{!GitRefs apart refs}.

Abbreviation git := (effect W MultiRepoGitError).

(** * Commands that only look *)

Definition same_refs (w w' : W) : Prop := forall root name, refs w' root name = refs w root name.

#[export] Instance same_refs_preorder : PreOrder same_refs.
Proof. split; [by intros w root name|]. intros w1 w2 w3 H1 H2 root name. by rewrite H2, H1. Qed.

Abbreviation looks := (keeps same_refs).

Lemma looks_run cwd args : head args <> Some (text_of_string "update-ref") -> looks (run cwd args).
Proof.
  intros Hn w. unfold after, run. destruct (git_run w cwd args) as [w' r] eqn:E. cbn. intros root name. by eapply git_moves_nothing.
Qed.

Lemma looks_probe path dev ino : looks (probe path dev ino).
Proof. intros w. unfold after. cbn. reflexivity. Qed.

Ltac looks := repeat first [apply keeps_ret, _ | apply keeps_of, _ | apply looks_probe | (apply looks_run; discriminate)
  | apply keeps_bind; [apply _| |intros ?] | apply keeps_try; [apply _| |intros ?|intros ?] | case_match | done].

Lemma requireOid_looks value name : looks (requireOid value name).
Proof. unfold requireOid. looks. Qed.

Lemma requireRef_looks value : looks (requireRef value).
Proof. unfold requireRef. looks. Qed.

Lemma verifyRepository_looks repository : looks (verifyRepository repository).
Proof. unfold verifyRepository. looks. Qed.

Lemma resolveCommit_looks cwd oid : looks (resolveCommit cwd oid).
Proof. unfold resolveCommit. looks. Qed.

Lemma readRef_looks cwd name : looks (readRef cwd name).
Proof. unfold readRef. looks. Qed.

Lemma observeRepositoryRef_looks repository name : looks (observeRepositoryRef repository name).
Proof.
  unfold observeRepositoryRef. apply keeps_try; [apply _|..]; [apply verifyRepository_looks|intros cwd|intros e; looks].
  apply keeps_try; [apply _|..]; [|intros ?; looks|intros ?; looks]. apply keeps_bind; [apply _|apply requireRef_looks|intros ref; apply readRef_looks].
Qed.

(** Preparing a candidate creates objects and moves nothing. *)
Lemma prepareRepositoryCandidate_looks request : looks (prepareRepositoryCandidate request).
Proof.
  unfold prepareRepositoryCandidate. apply keeps_bind; [apply _|apply verifyRepository_looks|intros cwd].
  apply keeps_bind; [apply _|apply requireRef_looks|intros ref]. apply keeps_bind; [apply _|apply requireOid_looks|intros e].
  apply keeps_bind; [apply _|apply resolveCommit_looks|intros e']. apply keeps_bind; [apply _|apply requireOid_looks|intros c].
  apply keeps_bind; [apply _|apply resolveCommit_looks|intros c']. do 2 (apply keeps_bind; [apply _|apply keeps_of, _|intros ?]).
  apply keeps_bind; [apply _|apply readRef_looks|intros before]. looks. all: apply readRef_looks.
Qed.

(** * What the reads tell *)

Lemma oid_of_text_of_string s oid : oid_of_text (text_of_string s) = Some oid -> oid = s.
Proof. unfold oid_of_text. rewrite string_of_text_of_string. destruct (forallb _ _ && _); [|done]. by intros [= <-]. Qed.

Lemma verifyRepository_root repository w :
  after (verifyRepository repository) w (fun w' r => same_refs w w' /\ match r with Ok cwd => cwd = ri_canonicalRoot repository | Err _ => True end).
Proof.
  pose proof (verifyRepository_looks repository w) as Hs. split; [exact Hs|].
  destruct ((verifyRepository repository w).2) as [cwd|e] eqn:E; [|done]. revert E. unfold verifyRepository.
  unfold mbind, effect_bind, git_ensure, eff_of, ensure, probe, run, mret, effect_ret. destruct (isAbsolute _); [|done].
  destruct (identity_of _ _ _ _); [|done]. cbn. destruct (bool_decide _) eqn:Ed; [|done]. apply bool_decide_eq_true in Ed.
  destruct (git_run _ _ _) as [w1 r]. destruct (_ && _); [|done]. destruct (identity_of _ _ _ _); [|done]. cbn. by intros [= <-].
Qed.

Lemma readRef_value cwd name w :
  after (readRef cwd name) w (fun w' r => same_refs w w' /\ match r with Ok oid => refs w cwd name = oid | Err _ => True end).
Proof.
  pose proof (readRef_looks cwd name w) as Hs. split; [exact Hs|]. unfold readRef, mbind, effect_bind, run, str.
  destruct (git_run _ _ _) as [w1 r] eqn:E. apply git_show_ref in E. destruct (gr_ok r); cbn; [|done].
  destruct E as (oid & Ho & ->). destruct (oid_of_text _) as [oid'|] eqn:Et; [|done]. cbn. by rewrite Ho, (oid_of_text_of_string _ _ Et).
Qed.

Lemma requireRef_value value (w : W) : after (requireRef value) w (fun w' r => w' = w /\ match r with Ok value' => value' = value | Err _ => True end).
Proof. unfold requireRef, after, mbind, effect_bind, git_ensure, eff_of, ensure. by destruct (_ && _). Qed.

Lemma observeRepositoryRef_value repository name w :
  after (observeRepositoryRef repository name) w (fun w' r => same_refs w w' /\
    match r with Ok (ref_observed oid) => refs w (ri_canonicalRoot repository) name = oid | _ => True end).
Proof.
  apply after_and; [apply observeRepositoryRef_looks|]. unfold observeRepositoryRef. apply after_try.
  eapply after_mono; [apply verifyRepository_root|]. intros w1 [cwd|e] [Hw Hc]; [subst cwd|by destruct (bool_decide _)].
  apply after_try, after_bind. eapply after_mono; [apply requireRef_value|]. intros w2 [ref|e] [-> Hr]; [subst ref|done].
  eapply after_mono; [apply readRef_value|]. intros w3 [oid|e] [_ Ho]; [|done]. cbn. by rewrite <-Hw.
Qed.

Lemma requireOid_value value name (w : W) :
  after (requireOid value name) w (fun w' r => w' = w /\ match r with Ok value' => value' = value /\ gitOid value = true | Err _ => True end).
Proof. unfold requireOid, after, mbind, effect_bind, git_ensure, eff_of, ensure. by destruct (gitOid value) eqn:E. Qed.

Lemma resolveCommit_value cwd oid w :
  after (resolveCommit cwd oid) w (fun w' r => same_refs w w' /\ match r with Ok oid' => oid' = oid | Err _ => True end).
Proof.
  apply after_and; [apply resolveCommit_looks|]. unfold resolveCommit, after, mbind, effect_bind, git_ensure, eff_of, ensure, run.
  destruct (git_run _ _ _). by destruct (_ && _).
Qed.

Lemma oid_of_text_gitOid t oid : oid_of_text t = Some oid -> gitOid oid = true.
Proof. unfold oid_of_text. destruct (forallb _ _ && _) eqn:E; [|done]. intros [= <-]. guards. done. Qed.

(** A prepared candidate is what was asked for, a commit of its own, and the
    ref was still at the expected commit. *)
Definition prepared_result (request : RepositoryCandidateRequest) (w' : W) (r : result MultiRepoGitError RepositoryCandidateV1) : Prop :=
  match r with
  | Ok c => rc_repositoryId c = ri_repositoryId (rq_repository request) /\ rc_targetRef c = rq_targetRef request /\
      rc_expectedOid c = rq_expectedOid request /\ rc_childOid c = rq_childOid request /\
      rc_parents c = (rc_expectedOid c, rc_childOid c) /\
      forallb gitOid [rc_expectedOid c; rc_childOid c; rc_candidateOid c; rc_treeOid c] = true /\
      rc_candidateOid c <> rc_expectedOid c /\
      refs w' (ri_canonicalRoot (rq_repository request)) (rc_targetRef c) = Some (rc_expectedOid c)
  | Err _ => True
  end.

Lemma ensure_after {B} b code detail (k : unit -> git B) (w : W) Q :
  (b = true -> after (k tt) w Q) -> Q w (Err (git_error code detail)) -> after (mbind k (git_ensure b code detail)) w Q.
Proof. unfold after, mbind, effect_bind, git_ensure, eff_of, ensure. by destruct b; [intros H1 _; apply H1|]. Qed.

Lemma run_after {B} cwd args (k : MultiRepoGitCommandResult -> git B) (w : W) Q :
  (forall w' r, git_run w cwd args = (w', r) -> after (k r) w' Q) -> after (mbind k (run cwd args)) w Q.
Proof. unfold after, mbind, effect_bind, run. destruct (git_run w cwd args) as [w' r] eqn:E. intros Hk. by apply Hk. Qed.

Lemma prepareRepositoryCandidate_spec request w :
  after (prepareRepositoryCandidate request) w (fun w' r => same_refs w w' /\ prepared_result request w' r).
Proof.
  apply after_and; [apply prepareRepositoryCandidate_looks|]. unfold prepareRepositoryCandidate.
  apply after_bind. eapply after_mono; [apply verifyRepository_root|]. intros w1 [cwd|e] [_ Hc]; [subst cwd|done].
  apply after_bind. eapply after_mono; [apply requireRef_value|]. intros ? [ref|e] [-> Href]; [subst ref|done].
  apply after_bind. eapply after_mono; [apply requireOid_value|]. intros ? [expected|e] [-> He]; [destruct He as [-> He]|done].
  apply after_bind. eapply after_mono; [apply resolveCommit_value|]. intros w2 [expected|e] [_ E1]; [subst expected|done].
  apply after_bind. eapply after_mono; [apply requireOid_value|]. intros ? [child|e] [-> Hd]; [destruct Hd as [-> Hd]|done].
  apply after_bind. eapply after_mono; [apply resolveCommit_value|]. intros w3 [child|e] [_ E2]; [subst child|done].
  do 2 (apply ensure_after; [intros _|done]). apply after_keeps with same_refs; [apply readRef_looks|intros w4 before _|done].
  apply ensure_after; [intros _|done]. apply run_after. intros w5 mergeTree _. apply ensure_after; [intros _|done].
  destruct (oid_of_text (trim _)) as [treeOid|] eqn:Ht; [|done]. apply oid_of_text_gitOid in Ht.
  apply run_after. intros w6 commit _. destruct (if gr_ok commit then _ else None) as [candidateOid|] eqn:Hcand; [|done].
  destruct (gr_ok commit); [|done]. apply oid_of_text_gitOid in Hcand.
  apply run_after. intros w7 parents Hp. apply ensure_after; [intros [Hok Hout]%andb_true_iff|done]. apply bool_decide_eq_true in Hout.
  pose proof (git_rev_list _ _ _ _ _ _ _ Hp Hok Hout) as Hne. apply run_after. intros w8 tree _. apply ensure_after; [intros _|done].
  apply after_bind. eapply after_mono; [apply readRef_value|]. intros w9 [oid|e] [H9 Ho]; [|done].
  apply ensure_after; [intros Hexp%bool_decide_eq_true|done]. split_and!; try done; cbn.
  - by rewrite He, Hd, Ht, Hcand.
  - by rewrite H9, Ho.
Qed.

(** * Compare and swap *)

(** Nothing but the ref of the entry moved, and that at most from one value to the other. *)
Definition moved_at_most (root name : text) (old new : string) (w w' : W) : Prop :=
  (forall root' name', other_ref apart root name root' name' -> refs w' root' name' = refs w root' name') /\
  (refs w' root name = refs w root name \/ refs w root name = Some old /\ refs w' root name = Some new).

Lemma same_moved_at_most root name old new w w' : same_refs w w' -> moved_at_most root name old new w w'.
Proof. intros Hw. split; [intros; apply Hw|left; apply Hw]. Qed.

Lemma moved_after root name old new w w1 w2 w3 :
  same_refs w w1 -> moved_at_most root name old new w1 w2 -> same_refs w2 w3 -> moved_at_most root name old new w w3.
Proof.
  intros H1 [H2 H3] H4. split; [intros root' name' Hne; by rewrite H4, H2, H1|]. destruct H3 as [H3|[H3 H5]]; [left|right]; by rewrite H4, ?H3, ?H5, <-?H1.
Qed.

Lemma verifyRepository_absolute repository w :
  after (verifyRepository repository) w (fun _ r => match r with
    | Ok _ => isAbsolute (ri_canonicalRoot repository) = true
    | Err e => isAbsolute (ri_canonicalRoot repository) = true -> ge_code e = GIT_REPOSITORY_IDENTITY_MISMATCH
    end).
Proof.
  unfold after, verifyRepository, mbind, effect_bind, git_ensure, eff_of, ensure, probe, run, mret, effect_ret. destruct (isAbsolute _); [|done].
  destruct (identity_of _ _ _ _); [|done]. cbn. destruct (bool_decide _); [|done]. destruct (git_run _ _ _) as [w1 r].
  destruct (_ && _); [|done]. by destruct (identity_of _ _ _ _).
Qed.

(** Looking at a ref never throws once the repository was looked at. *)
Lemma observeRepositoryRef_total repository name w :
  isAbsolute (ri_canonicalRoot repository) = true -> after (observeRepositoryRef repository name) w (fun _ r => exists seen, r = Ok seen).
Proof.
  intros Ha. unfold observeRepositoryRef. apply after_try. eapply after_mono; [apply verifyRepository_absolute|].
  intros w1 [cwd|e] Hr.
  - apply after_try. unfold after at 1. destruct ((ref ← requireRef name; readRef cwd ref) w1) as [w2 [oid|e]]; by eexists.
  - rewrite (bool_decide_eq_true_2 _ (Hr Ha)). by eexists.
Qed.

(** The common part of applying and compensating: swap the ref, look again. *)
Lemma after_swap repository name new old {R} (k : MultiRepoGitCommandResult -> RefObservation -> git R) w (Q : W -> result MultiRepoGitError R -> Prop) :
  isAbsolute (ri_canonicalRoot repository) = true ->
  (forall w' update seen,
    moved_at_most (ri_canonicalRoot repository) name old new w w' ->
    match seen with ref_observed oid => refs w' (ri_canonicalRoot repository) name = oid | _ => True end ->
    after (k update seen) w' Q) ->
  after (update ← run (ri_canonicalRoot repository) [str "update-ref"; name; str new; str old];
         reconciled ← observeRepositoryRef repository name; k update reconciled) w Q.
Proof.
  intros Ha Hk. apply after_bind. unfold after at 1, run, str. destruct (git_run _ _ _) as [w1 u] eqn:E. cbn.
  destruct (git_update_ref _ _ _ _ _ _ _ E) as [Hother Hmove]. apply after_bind.
  eapply after_mono; [apply (after_and _ _ _ _ (observeRepositoryRef_value repository name w1) (observeRepositoryRef_total repository name w1 Ha))|].
  intros w2 r [[Hw Hr] [seen ->]]. apply Hk.
  - apply (moved_after _ _ _ _ w w w1 w2); [done| |done]. split; [exact Hother|]. destruct Hmove as [[_ ?]|?]; auto.
  - destruct seen; [|done..]. by rewrite Hw.
Qed.

(** Nothing moved. *)
Definition unmoved (root name : text) (w w' : W) : Prop :=
  (forall root' name', other_ref apart root name root' name' -> refs w' root' name' = refs w root' name') /\
  refs w' root name = refs w root name.

Lemma same_unmoved root name w w' : same_refs w w' -> unmoved root name w w'.
Proof. intros Hw. split; [intros; apply Hw|apply Hw]. Qed.

Lemma moved_elsewhere root name old new w w' : moved_at_most root name old new w w' -> refs w' root name <> Some new -> unmoved root name w w'.
Proof. by intros [? [?|[_ ?]]]. Qed.

(** What an attempt to apply a candidate leaves behind. *)
Definition applied_result root (c : RepositoryCandidateV1) (w w' : W) (r : result MultiRepoGitError RepositoryCasResult) : Prop :=
  moved_at_most root (rc_targetRef c) (rc_expectedOid c) (rc_candidateOid c) w w' /\
  match r with
  | Ok (cas_applied oid) => oid = rc_candidateOid c /\ refs w' root (rc_targetRef c) = Some oid
  | Ok (cas_already_applied oid) => oid = rc_candidateOid c /\ refs w' root (rc_targetRef c) = Some oid /\ unmoved root (rc_targetRef c) w w'
  | Ok (cas_refused oid) => refs w' root (rc_targetRef c) = oid /\ oid <> Some (rc_candidateOid c) /\ unmoved root (rc_targetRef c) w w'
  | Ok (cas_recovery_required IDENTITY_MISMATCH _) | Err _ => unmoved root (rc_targetRef c) w w'
  | Ok (cas_recovery_required OUTCOME_UNKNOWN _) => refs w root (rc_targetRef c) = Some (rc_expectedOid c)
  end.

Lemma applied_unmoved root c w w' r :
  same_refs w w' ->
  match r with
  | Ok (cas_applied _) | Ok (cas_recovery_required OUTCOME_UNKNOWN _) => False
  | Ok (cas_already_applied oid) => oid = rc_candidateOid c /\ refs w' root (rc_targetRef c) = Some oid
  | Ok (cas_refused oid) => refs w' root (rc_targetRef c) = oid /\ oid <> Some (rc_candidateOid c)
  | _ => True
  end -> applied_result root c w w' r.
Proof.
  intros Hw Hr. split; [by apply same_moved_at_most|]. pose proof (same_unmoved root (rc_targetRef c) w w' Hw).
  destruct r as [[oid|oid|oid|[] oid]|e]; tauto.
Qed.

Lemma applyRepositoryCandidate_spec repository c w :
  after (applyRepositoryCandidate repository c) w (applied_result (ri_canonicalRoot repository) c w).
Proof.
  unfold applyRepositoryCandidate. apply after_try.
  eapply after_mono; [apply (after_and _ _ _ _ (verifyRepository_root repository w) (verifyRepository_absolute repository w))|].
  intros w1 [cwd|e] [[Hw Hc] Ha]; [subst cwd|by apply applied_unmoved].
  assert (forall w' e, same_refs w1 w' -> applied_result (ri_canonicalRoot repository) c w w' (Err e)) as He.
  { intros w' e Hw'. apply applied_unmoved; [by etransitivity|done]. }
  apply (after_keeps same_refs); [apply keeps_of, _|intros w2 [] H2|done]. apply (after_keeps same_refs); [apply requireRef_looks|intros w3 ? H3|intros; apply He; by etransitivity].
  apply (after_keeps same_refs); [apply requireOid_looks|intros w4 ? H4|intros; apply He; by do 2 (etransitivity; [eassumption|])].
  apply (after_keeps same_refs); [apply resolveCommit_looks|intros w5 ? H5|intros; apply He; by do 3 (etransitivity; [eassumption|])].
  assert (same_refs w w5) as Hw5 by by do 4 (etransitivity; [eassumption|]).
  apply after_bind. eapply after_mono; [apply readRef_value|]. intros w6 [oid|e] [H6 Ho].
  2: { apply applied_unmoved; [by etransitivity|done]. }
  assert (same_refs w w6) as Hw6 by by etransitivity.
  case_bool_decide as Hcase; [apply applied_unmoved; [done|]; split; [done|]; by rewrite H6, Ho|].
  case_bool_decide as Hcase'; cbn [negb]; [|apply applied_unmoved; [done|]; split; [by rewrite H6|done]].
  apply after_swap; [done|]. intros w7 update seen Hm Hseen.
  assert (moved_at_most (ri_canonicalRoot repository) (rc_targetRef c) (rc_expectedOid c) (rc_candidateOid c) w w7) as Hm'
    by (by apply (moved_after _ _ _ _ w w6 w7 w7)).
  assert (refs w (ri_canonicalRoot repository) (rc_targetRef c) = Some (rc_expectedOid c)) as Hexp by (rewrite <-Hw5; congruence).
  destruct seen as [oid'| |]; [|by split..]. case_bool_decide as Hd; [split; [done|]; cbn; split; [done|congruence]|].
  destruct (_ || _); (split; [done|]); cbn; [|done]. split; [done|]. split; [done|]. eapply moved_elsewhere; [done|congruence].
Qed.

(** What an attempt to compensate leaves behind. *)
Definition compensated_result root (c : RepositoryCandidateV1) (w w' : W) (r : result MultiRepoGitError RepositoryCompensationResult) : Prop :=
  moved_at_most root (rc_targetRef c) (rc_candidateOid c) (rc_expectedOid c) w w' /\
  match r with
  | Ok (undo_compensated oid) => oid = rc_expectedOid c /\ refs w' root (rc_targetRef c) = Some oid
  | Ok (undo_already_compensated oid) => oid = rc_expectedOid c /\ refs w' root (rc_targetRef c) = Some oid /\ unmoved root (rc_targetRef c) w w'
  | Ok (undo_refused oid) => refs w' root (rc_targetRef c) = oid /\ oid <> Some (rc_expectedOid c) /\ unmoved root (rc_targetRef c) w w'
  | Ok (undo_recovery_required IDENTITY_MISMATCH _) | Err _ => unmoved root (rc_targetRef c) w w'
  | Ok (undo_recovery_required OUTCOME_UNKNOWN _) => refs w root (rc_targetRef c) = Some (rc_candidateOid c)
  end.

Lemma compensated_unmoved root c w w' r :
  same_refs w w' ->
  match r with
  | Ok (undo_compensated _) | Ok (undo_recovery_required OUTCOME_UNKNOWN _) => False
  | Ok (undo_already_compensated oid) => oid = rc_expectedOid c /\ refs w' root (rc_targetRef c) = Some oid
  | Ok (undo_refused oid) => refs w' root (rc_targetRef c) = oid /\ oid <> Some (rc_expectedOid c)
  | _ => True
  end -> compensated_result root c w w' r.
Proof.
  intros Hw Hr. split; [by apply same_moved_at_most|]. pose proof (same_unmoved root (rc_targetRef c) w w' Hw).
  destruct r as [[oid|oid|oid|[] oid]|e]; tauto.
Qed.

Lemma compensateRepositoryCandidate_spec repository c w :
  after (compensateRepositoryCandidate repository c) w (compensated_result (ri_canonicalRoot repository) c w).
Proof.
  unfold compensateRepositoryCandidate. apply after_try.
  eapply after_mono; [apply (after_and _ _ _ _ (verifyRepository_root repository w) (verifyRepository_absolute repository w))|].
  intros w1 [cwd|e] [[Hw Hc] Ha]; [subst cwd|by apply compensated_unmoved].
  apply after_bind. eapply after_mono; [apply readRef_value|]. intros w6 [oid|e] [H6 Ho].
  2: { apply compensated_unmoved; [by etransitivity|done]. }
  assert (same_refs w w6) as Hw6 by by etransitivity.
  case_bool_decide as Hcase; [apply compensated_unmoved; [done|]; split; [done|]; by rewrite H6, Ho|].
  case_bool_decide as Hcase'; cbn [negb]; [|apply compensated_unmoved; [done|]; split; [by rewrite H6|done]].
  apply after_swap; [done|]. intros w7 update seen Hm Hseen.
  assert (moved_at_most (ri_canonicalRoot repository) (rc_targetRef c) (rc_candidateOid c) (rc_expectedOid c) w w7) as Hm'
    by (by apply (moved_after _ _ _ _ w w6 w7 w7)).
  assert (refs w (ri_canonicalRoot repository) (rc_targetRef c) = Some (rc_candidateOid c)) as Hexp by (rewrite <-Hw; congruence).
  destruct seen as [oid'| |]; [|by split..]. case_bool_decide as Hd; [split; [done|]; cbn; split; [done|congruence]|].
  destruct (_ || _); (split; [done|]); cbn; [|done]. split; [done|]. split; [done|]. eapply moved_elsewhere; [done|congruence].
Qed.
End facts.
