(* ===== verification/Verification.v ===== *)
(** Verification: the combined verification of a candidate vector and its
    receipt (src/multirepo/verification.ts, src/multirepo/receipt.ts). Then what an accepted verification plan, a verified outcome and
    a receipt stand for. *)
From S2P Require Import Prelude Text Json Ids ScmTypes Effects GitTransaction.

(** * Limits and data *)

Definition verification_maximumRepositories : Z := 32.
Definition maximumCommands : Z := 64.
Definition maximumCommandBytes : Z := 4096.
Definition maximumOutputBytesPerCommand : Z := 4 * 1024 * 1024.

Record CandidateVerificationEntryV1 := {
  ve_repositoryId : string;
  ve_canonicalWorkspacePath : text;
  ve_targetRef : text;
  ve_expectedOid : string;
  ve_childOid : string;
  ve_candidateOid : string;
  ve_treeOid : string
}.

(** A plain object of strings: its entries in enumeration order. *)
Definition Environment : Type := list (string * text).

Record CombinedVerificationPlanV1 := {
  vp_transactionId : string;
  vp_repositorySetId : string;
  vp_entries : list CandidateVerificationEntryV1;
  vp_commands : list text;
  vp_environmentDigest : string;
  vp_manifestDigest : string
}.

(** The argument of [materializeCombinedVerificationPlan]. *)
Record CombinedVerificationInput := {
  vi_transactionId : string;
  vi_repositorySetId : string;
  vi_entries : list CandidateVerificationEntryV1;
  vi_commands : list text;
  vi_environment : Environment
}.

Record CandidateVerificationObservation := {
  vo_candidateOid : text;
  vo_treeOid : text;
  vo_clean : bool;
  vo_identityExact : bool
}.

Record CombinedVerificationCommandRequest := {
  vq_transactionId : string;
  vq_commandIndex : Z;
  vq_command : text;
  vq_manifestDigest : string;
  vq_environment : Environment;
  vq_entries : list CandidateVerificationEntryV1
}.

Record CombinedVerificationCommandResult := {
  vr_ok : bool;
  vr_code : Z;
  vr_outputDigest : string;
  vr_outputBytes : Z;
  vr_fingerprint : string;
  vr_transportTrusted : bool;
  vr_scopeTrusted : bool
}.

Inductive VerificationState := vs_verified | vs_failed | vs_recovery_required.
Inductive VerificationReason := CANDIDATE_CHANGED | COMMAND_FAILED | TRANSPORT_UNTRUSTED | RESULT_INVALID.

Definition VerificationReason_name (r : VerificationReason) : string :=
  match r with
  | CANDIDATE_CHANGED => "CANDIDATE_CHANGED" | COMMAND_FAILED => "COMMAND_FAILED"
  | TRANSPORT_UNTRUSTED => "TRANSPORT_UNTRUSTED" | RESULT_INVALID => "RESULT_INVALID"
  end.

Record CombinedVerificationOutcome := {
  co_state : VerificationState;
  co_plan : CombinedVerificationPlanV1;
  co_results : list CombinedVerificationCommandResult;
  co_reasonCode : option VerificationReason
}.

Record CombinedVerificationReceiptV1 := {
  cr_transactionId : string;
  cr_repositorySetId : string;
  cr_manifestDigest : string;
  cr_verifiedAt : string;
  cr_resultDigests : list string;
  cr_receiptDigest : string
}.

(** * Errors *)

Inductive MultiRepoVerificationErrorCode := VERIFY_INVALID_PLAN | VERIFY_INVALID_ENVIRONMENT | VERIFY_INVALID_RESULT.

Definition VerificationErrorCode_name (c : MultiRepoVerificationErrorCode) : string :=
  match c with
  | VERIFY_INVALID_PLAN => "INVALID_PLAN" | VERIFY_INVALID_ENVIRONMENT => "INVALID_ENVIRONMENT" | VERIFY_INVALID_RESULT => "INVALID_RESULT"
  end.

Record MultiRepoVerificationError := { ver_code : MultiRepoVerificationErrorCode; ver_detail : string }.
Definition verify_error (code : MultiRepoVerificationErrorCode) (detail : string) : MultiRepoVerificationError := {| ver_code := code; ver_detail := detail |}.

(** What an interface supplied by the caller throws: the message of an [Error],
    or something else. *)
Definition Foreign : Type := option text.

Inductive VerificationThrow := vt_error (e : MultiRepoVerificationError) | vt_foreign (f : Foreign).

(** [error instanceof Error ? error.message : undefined] *)
Definition VerificationThrow_message (t : VerificationThrow) : option text :=
  match t with
  | vt_error e => Some (text_of_string (VerificationErrorCode_name e.(ver_code) +:+ ": " +:+ e.(ver_detail)))
  | vt_foreign f => f
  end.

(** * The executor and the observer *)

Class VerificationHost (W : Type) := {
  observe : CandidateVerificationEntryV1 -> effect W Foreign CandidateVerificationObservation;
  executor_run : CombinedVerificationCommandRequest -> effect W Foreign CombinedVerificationCommandResult
}.

(** * JSON of the values *)

Definition verification_entry_json (e : CandidateVerificationEntryV1) : json := jobj [
  ("repositoryId", jstr e.(ve_repositoryId)); ("canonicalWorkspacePath", JString e.(ve_canonicalWorkspacePath));
  ("targetRef", JString e.(ve_targetRef)); ("expectedOid", jstr e.(ve_expectedOid)); ("childOid", jstr e.(ve_childOid));
  ("candidateOid", jstr e.(ve_candidateOid)); ("treeOid", jstr e.(ve_treeOid))]%string.

Definition command_result_json (r : CombinedVerificationCommandResult) : json := jobj [
  ("ok", JBoolean r.(vr_ok)); ("code", jnum r.(vr_code)); ("outputDigest", jstr r.(vr_outputDigest)); ("outputBytes", jnum r.(vr_outputBytes));
  ("fingerprint", jstr r.(vr_fingerprint)); ("transportTrusted", JBoolean r.(vr_transportTrusted)); ("scopeTrusted", JBoolean r.(vr_scopeTrusted))]%string.

(** [/^[A-Za-z_][A-Za-z0-9_]{0,127}$/] *)
Definition variable_char (c : Ascii.ascii) : bool := is_alnum c || (code c =? 95).
Definition environmentKey (s : string) : bool :=
  starts_with (fun c => variable_char c && negb (is_decimal c)) s && all_chars variable_char s && (strlen s <=? 128).

Section verification.
Context {D : Digest} {C : Collation}.

(** [canonical]: like JSON.stringify, the keys of an object ordered by [localeCompare]. *)
Definition by_key {V} (l r : text * V) : Z := localeCompare (string_of_text l.1) (string_of_text r.1).

Fixpoint verification_canonical (v : json) : text :=
  match v with
  | JArray l => [91] ++ join [44] (List.map verification_canonical l) ++ [93]
  | JObject kvs =>
      [123] ++ join [44] (List.map (fun kv => json_quote kv.1 ++ [58] ++ kv.2)
        (js_sort by_key (List.map (fun kv => (kv.1, verification_canonical kv.2)) kvs))) ++ [125]
  | _ => render v
  end.

Definition domain_digest (domain : string) (value : text) : string := sha256Text (text_of_string domain ++ [0] ++ value).

Definition verification_digest (domain : string) (value : json) : string := domain_digest domain (verification_canonical value).

Definition environment_entry_valid (entry : string * text) : bool :=
  environmentKey entry.1 && (utf8_length entry.2 <=? 16 * 1024) && negb (bool_decide (0 ∈ entry.2)).

Definition environmentDigest (environment : Environment) : result MultiRepoVerificationError string :=
  let entries := js_sort (fun l r => localeCompare l.1 r.1) environment in
  ensure (at_most 128 entries && unique (List.map fst entries)) (verify_error VERIFY_INVALID_ENVIRONMENT "environment exceeds its bound") ;;
  ensure (forallb environment_entry_valid entries) (verify_error VERIFY_INVALID_ENVIRONMENT "environment contains an invalid entry") ;;
  Ok (verification_digest "relayforge-verifier-environment-v1" (jlist (fun entry => JArray [jstr entry.1; JString entry.2]) entries)).

(** The state of the loop over the entries: the ids and paths seen. *)
Definition check_entry (seen : list string * list text) (e : CandidateVerificationEntryV1) : result MultiRepoVerificationError (list string * list text) :=
  ensure (ID_PATTERN e.(ve_repositoryId) && negb (bool_decide (e.(ve_repositoryId) ∈ seen.1))
          && startsWith [47] e.(ve_canonicalWorkspacePath) && negb (bool_decide (e.(ve_canonicalWorkspacePath) ∈ seen.2))
          && gitOid e.(ve_expectedOid) && gitOid e.(ve_childOid) && gitOid e.(ve_candidateOid) && gitOid e.(ve_treeOid)
          && startsWith (text_of_string "refs/heads/") e.(ve_targetRef))
    (verify_error VERIFY_INVALID_PLAN ("candidate entry " +:+ e.(ve_repositoryId) +:+ " is invalid or duplicated")) ;;
  Ok (e.(ve_repositoryId) :: seen.1, e.(ve_canonicalWorkspacePath) :: seen.2).

(** One workspace lies in another; none lies in itself. *)
Definition workspace_within (left right : CandidateVerificationEntryV1) : bool :=
  startsWith (left.(ve_canonicalWorkspacePath) ++ [47]) right.(ve_canonicalWorkspacePath).

Definition overlapping (entries : list CandidateVerificationEntryV1) : bool :=
  existsb (fun left => existsb (workspace_within left) entries) entries.

Definition command_valid (command : text) : bool :=
  between 1 maximumCommandBytes (utf8_length command) && negb (bool_decide (0 ∈ command)).

Definition manifest_json (input : CombinedVerificationInput) (envDigest : string) : json := jobj [
  ("transactionId", jstr input.(vi_transactionId)); ("repositorySetId", jstr input.(vi_repositorySetId));
  ("entries", jlist verification_entry_json input.(vi_entries)); ("commands", jlist JString input.(vi_commands));
  ("environmentDigest", jstr envDigest)]%string.

Definition materializeCombinedVerificationPlan (input : CombinedVerificationInput) : result MultiRepoVerificationError CombinedVerificationPlanV1 :=
  ensure (ID_PATTERN input.(vi_transactionId) && digest input.(vi_repositorySetId)) (verify_error VERIFY_INVALID_PLAN "transaction or repository-set identity is invalid") ;;
  ensure (negb (bool_decide (input.(vi_entries) = [])) && at_most verification_maximumRepositories input.(vi_entries))
    (verify_error VERIFY_INVALID_PLAN "candidate vector is empty or over bound") ;;
  ensure (negb (bool_decide (input.(vi_commands) = [])) && at_most maximumCommands input.(vi_commands))
    (verify_error VERIFY_INVALID_PLAN "verification command list is empty or over bound") ;;
  _ ← fold_result check_entry ([], []) input.(vi_entries);
  ensure (negb (overlapping input.(vi_entries))) (verify_error VERIFY_INVALID_PLAN "candidate workspaces overlap") ;;
  ensure (forallb command_valid input.(vi_commands)) (verify_error VERIFY_INVALID_PLAN "verification command is outside its byte bound") ;;
  envDigest ← environmentDigest input.(vi_environment);
  Ok {| vp_transactionId := input.(vi_transactionId); vp_repositorySetId := input.(vi_repositorySetId); vp_entries := input.(vi_entries);
        vp_commands := input.(vi_commands); vp_environmentDigest := envDigest;
        vp_manifestDigest := verification_digest "relayforge-combined-verification-manifest-v1" (manifest_json input envDigest) |}.

(** * Execution *)

Definition exactObservation (entry : CandidateVerificationEntryV1) (value : CandidateVerificationObservation) : bool :=
  value.(vo_identityExact) && value.(vo_clean) && bool_decide (value.(vo_candidateOid) = text_of_string entry.(ve_candidateOid))
  && bool_decide (value.(vo_treeOid) = text_of_string entry.(ve_treeOid)).

Definition validResult (value : CombinedVerificationCommandResult) : bool :=
  isSafeInteger value.(vr_code) && between (-1) 255 value.(vr_code) && digest value.(vr_outputDigest) && digest value.(vr_fingerprint)
  && isSafeInteger value.(vr_outputBytes) && between 0 maximumOutputBytesPerCommand value.(vr_outputBytes).

Section execute.
Context {W : Type} `{VerificationHost W}.
Abbreviation verify := (effect W VerificationThrow).

(** The loop over the entries: whether every observation is exact; it ends at
    the first that is not. *)
Fixpoint observe_exact (entries : list CandidateVerificationEntryV1) : verify bool :=
  match entries with
  | [] => mret true
  | entry :: entries' =>
      value ← eff_under vt_foreign (observe entry);
      if exactObservation entry value then observe_exact entries' else mret false
  end.

(** How the loop over the commands ends: the results so far, and why it left. *)
Fixpoint run_commands (plan : CombinedVerificationPlanV1) (environment : Environment) (commandIndex : Z) (commands : list text)
    (results : list CombinedVerificationCommandResult) : verify (list CombinedVerificationCommandResult * option (VerificationState * VerificationReason)) :=
  match commands with
  | [] => mret (results, None)
  | command :: commands' =>
      value ← eff_under vt_foreign (executor_run {| vq_transactionId := plan.(vp_transactionId); vq_commandIndex := commandIndex; vq_command := command;
        vq_manifestDigest := plan.(vp_manifestDigest); vq_environment := environment; vq_entries := plan.(vp_entries) |});
      if negb (validResult value) then mret (results, Some (vs_recovery_required, RESULT_INVALID))
      else if negb value.(vr_transportTrusted) || negb value.(vr_scopeTrusted) then mret (results ++ [value], Some (vs_recovery_required, TRANSPORT_UNTRUSTED))
      else if negb value.(vr_ok) || negb (value.(vr_code) =? 0) then mret (results ++ [value], Some (vs_failed, COMMAND_FAILED))
      else run_commands plan environment (commandIndex + 1) commands' (results ++ [value])
  end.

Definition outcome (state : VerificationState) (plan : CombinedVerificationPlanV1) (results : list CombinedVerificationCommandResult)
    (reasonCode : option VerificationReason) : CombinedVerificationOutcome :=
  {| co_state := state; co_plan := plan; co_results := results; co_reasonCode := reasonCode |}.

Definition executeCombinedVerification (plan : CombinedVerificationPlanV1) (environment : Environment) : verify CombinedVerificationOutcome :=
  runtimeDigest ← eff_of (map_err vt_error (environmentDigest environment));
  eff_of (ensure (bool_decide (runtimeDigest = plan.(vp_environmentDigest)))
    (vt_error (verify_error VERIFY_INVALID_ENVIRONMENT "runtime verifier environment differs from the reviewed plan"))) ;;
  before ← observe_exact plan.(vp_entries);
  if negb before then mret (outcome vs_recovery_required plan [] (Some CANDIDATE_CHANGED))
  else
    run ← run_commands plan environment 0 plan.(vp_commands) [];
    match run.2 with
    | Some (state, reason) => mret (outcome state plan run.1 (Some reason))
    | None =>
        after ← observe_exact plan.(vp_entries);
        if negb after then mret (outcome vs_recovery_required plan run.1 (Some CANDIDATE_CHANGED))
        else mret (outcome vs_verified plan run.1 None)
    end.
End execute.

(** * Receipts *)

(** A timestamp that [toISOString] prints the same way. *)
Definition receipt_timestamp (value : string) : bool :=
  (strlen value =? 24) && match Date_parse value with Some time => bool_decide (toISOString time = value) | None => false end.

Definition receiptPayload (transactionId repositorySetId manifestDigest verifiedAt : string) (resultDigests : list string) : text :=
  render (JArray [jnum 1; jstr transactionId; jstr repositorySetId; jstr manifestDigest; jstr verifiedAt; jlist jstr resultDigests]).

Definition receipt_digest (transactionId repositorySetId manifestDigest verifiedAt : string) (resultDigests : list string) : string :=
  domain_digest "relayforge-combined-verification-receipt-v1" (receiptPayload transactionId repositorySetId manifestDigest verifiedAt resultDigests).

Definition result_digest (index : nat) (r : CombinedVerificationCommandResult) : string :=
  domain_digest "relayforge-combined-verification-result-v1"
    (text_of_string (num_to_string (Z.of_nat index)) ++ [0] ++ verification_canonical (command_result_json r)).

Inductive MultiRepoReceiptError := INVALID_RECEIPT.

Definition createCombinedVerificationReceipt (o : CombinedVerificationOutcome) (verifiedAt : string) : result MultiRepoReceiptError CombinedVerificationReceiptV1 :=
  ensure (match o.(co_state) with vs_verified => true | _ => false end && receipt_timestamp verifiedAt
          && (length o.(co_results) =? length o.(co_plan).(vp_commands))%nat) INVALID_RECEIPT ;;
  let resultDigests := imap result_digest o.(co_results) in
  Ok {| cr_transactionId := o.(co_plan).(vp_transactionId); cr_repositorySetId := o.(co_plan).(vp_repositorySetId);
        cr_manifestDigest := o.(co_plan).(vp_manifestDigest); cr_verifiedAt := verifiedAt; cr_resultDigests := resultDigests;
        cr_receiptDigest := receipt_digest o.(co_plan).(vp_transactionId) o.(co_plan).(vp_repositorySetId) o.(co_plan).(vp_manifestDigest) verifiedAt resultDigests |}.

Definition verifyCombinedVerificationReceipt (plan : CombinedVerificationPlanV1) (receipt : CombinedVerificationReceiptV1) : result MultiRepoReceiptError unit :=
  ensure (bool_decide (receipt.(cr_transactionId) = plan.(vp_transactionId)) && bool_decide (receipt.(cr_repositorySetId) = plan.(vp_repositorySetId))
          && bool_decide (receipt.(cr_manifestDigest) = plan.(vp_manifestDigest)) && receipt_timestamp receipt.(cr_verifiedAt)
          && (length receipt.(cr_resultDigests) =? length plan.(vp_commands))%nat && forallb digest receipt.(cr_resultDigests)) INVALID_RECEIPT ;;
  ensure (bool_decide (receipt_digest receipt.(cr_transactionId) receipt.(cr_repositorySetId) receipt.(cr_manifestDigest) receipt.(cr_verifiedAt)
            receipt.(cr_resultDigests) = receipt.(cr_receiptDigest))) INVALID_RECEIPT.
End verification.

(** * Facts *)

Section facts.
Context {D : Digest} {C : Collation}.

(** * Plans *)

Lemma materialize_Ok input plan :
  materializeCombinedVerificationPlan input = Ok plan ->
  vp_transactionId plan = vi_transactionId input /\ vp_repositorySetId plan = vi_repositorySetId input /\
  vp_entries plan = vi_entries input /\ vp_commands plan = vi_commands input /\
  environmentDigest (vi_environment input) = Ok (vp_environmentDigest plan).
Proof. unfold materializeCombinedVerificationPlan. intros H. run. subst plan. by cbn. Qed.

(** The entries of two vectors that differ in the candidates only. *)
Definition same_but_candidate (e e' : CandidateVerificationEntryV1) : Prop :=
  ve_repositoryId e' = ve_repositoryId e /\ ve_canonicalWorkspacePath e' = ve_canonicalWorkspacePath e /\ ve_targetRef e' = ve_targetRef e /\
  ve_expectedOid e' = ve_expectedOid e /\ ve_childOid e' = ve_childOid e /\ gitOid (ve_candidateOid e') = true /\ gitOid (ve_treeOid e') = true.

Lemma check_entry_same seen seen' e e' :
  same_but_candidate e e' -> check_entry seen e = Ok seen' -> check_entry seen e' = Ok seen'.
Proof.
  intros (H1 & H2 & H3 & H4 & H5 & H6 & H7). unfold check_entry. rewrite H1, H2, H3, H4, H5, H6, H7. intros H. run. guards.
  repeat match goal with Hb : _ = true |- _ => rewrite Hb; clear Hb end. rewrite !bool_decide_eq_false_2 by done. done.
Qed.

Lemma check_entries_same l l' seen seen' :
  Forall2 same_but_candidate l l' -> fold_result check_entry seen l = Ok seen' -> fold_result check_entry seen l' = Ok seen'.
Proof.
  intros Hl. revert seen. induction Hl as [|e e' l l' He Hl IH]; intros seen; cbn; [done|]. intros (s & Hs & H)%bind_Ok.
  rewrite (check_entry_same _ _ _ _ He Hs). cbn. by apply IH.
Qed.

Lemma existsb_map {A B} (f : B -> bool) (g : A -> B) l : existsb f (List.map g l) = existsb (fun a => f (g a)) l.
Proof. induction l as [|a l IH]; cbn; [done|]. by rewrite IH. Qed.

Lemma existsb_ext' {A} (f g : A -> bool) l : (forall a, f a = g a) -> existsb f l = existsb g l.
Proof. intros E. induction l as [|a l IH]; cbn; [done|]. by rewrite IH, E. Qed.

Lemma overlapping_paths l l' :
  List.map ve_canonicalWorkspacePath l = List.map ve_canonicalWorkspacePath l' -> overlapping l = overlapping l'.
Proof.
  set (within paths := existsb (fun a => existsb (startsWith (a ++ [47])) paths) paths).
  assert (forall l, overlapping l = within (List.map ve_canonicalWorkspacePath l)) as Hm; [|intros E; by rewrite !Hm, E].
  intros l0. unfold within. rewrite existsb_map. apply existsb_ext'. intros a. by rewrite existsb_map.
Qed.

(** A plan that was accepted stays acceptable when the candidates are put in. *)
Lemma materialize_candidates input entries plan :
  materializeCombinedVerificationPlan input = Ok plan -> Forall2 same_but_candidate (vi_entries input) entries ->
  exists plan', materializeCombinedVerificationPlan {| vi_transactionId := vi_transactionId input; vi_repositorySetId := vi_repositorySetId input;
    vi_entries := entries; vi_commands := vi_commands input; vi_environment := vi_environment input |} = Ok plan'.
Proof.
  unfold materializeCombinedVerificationPlan. intros H He. cbn [vi_transactionId vi_repositorySetId vi_entries vi_commands vi_environment].
  assert (overlapping entries = overlapping (vi_entries input)) as Ho.
  { apply overlapping_paths. clear -He. induction He as [|e e' l l' (_ & Hp & _) _ IH]; cbn; [done|]. by rewrite Hp, IH. }
  assert (at_most verification_maximumRepositories entries = at_most verification_maximumRepositories (vi_entries input)) as Hn
    by (unfold at_most; by rewrite (Forall2_length _ _ _ He)).
  assert (bool_decide (entries = []) = bool_decide (vi_entries input = [])) as Hnil by (apply bool_decide_ext; by destruct He).
  rewrite Ho, Hn, Hnil. run. rewrite (check_entries_same _ _ _ _ He Hrun2).
  repeat match goal with Hb : _ = true |- _ => rewrite Hb; clear Hb end. cbn. rewrite Hrun5. by eexists.
Qed.

(** * Outcomes *)

Section execution.
Context {W : Type} `{VerificationHost W}.

(** Each entry was observed, in order, and found exact. *)
Inductive observed : list CandidateVerificationEntryV1 -> W -> W -> Prop :=
| observed_nil w : observed [] w w
| observed_cons entry entries value w w1 w2 :
    observe entry w = (w1, Ok value) -> exactObservation entry value = true -> observed entries w1 w2 -> observed (entry :: entries) w w2.

(** A command's result that lets the next one run. *)
Definition passed (r : CombinedVerificationCommandResult) : bool :=
  validResult r && vr_transportTrusted r && vr_scopeTrusted r && vr_ok r && (vr_code r =? 0).

Definition command_request (plan : CombinedVerificationPlanV1) (environment : Environment) (index : Z) (command : text) : CombinedVerificationCommandRequest := {|
  vq_transactionId := vp_transactionId plan; vq_commandIndex := index; vq_command := command; vq_manifestDigest := vp_manifestDigest plan;
  vq_environment := environment; vq_entries := vp_entries plan |}.

(** Each command was run, in order, under the manifest, and passed. *)
Inductive ran (plan : CombinedVerificationPlanV1) (environment : Environment) : Z -> list text -> list CombinedVerificationCommandResult -> W -> W -> Prop :=
| ran_nil index w : ran plan environment index [] [] w w
| ran_cons index command commands r results w w1 w2 :
    executor_run (command_request plan environment index command) w = (w1, Ok r) -> passed r = true ->
    ran plan environment (index + 1) commands results w1 w2 -> ran plan environment index (command :: commands) (r :: results) w w2.

Lemma ran_length plan environment index commands results w w' : ran plan environment index commands results w w' -> length results = length commands.
Proof. induction 1; cbn; congruence. Qed.

Lemma observe_exact_spec entries w :
  after (observe_exact entries) w (fun w' r => match r with Ok true => observed entries w w' | _ => True end).
Proof.
  revert w. induction entries as [|entry entries IH]; intros w; cbn; [constructor|]. unfold after, eff_under, mbind, effect_bind.
  destruct (observe entry w) as [w1 [value|e]] eqn:E; cbn; [|done]. destruct (exactObservation entry value) eqn:Ev; [|done].
  specialize (IH w1). unfold after in IH. destruct (observe_exact entries w1) as [w2 [[]|]]; try done. cbn in *. by econstructor.
Qed.

Lemma run_commands_spec plan environment index commands results w :
  after (run_commands plan environment index commands results) w (fun w' r => match r with
    | Ok (all, None) => exists more, all = results ++ more /\ ran plan environment index commands more w w'
    | Ok (_, Some (state, _)) => state <> vs_verified
    | Err _ => True
    end).
Proof.
  revert index results w. induction commands as [|command commands IH]; intros index results w; cbn.
  - exists []. rewrite app_nil_r. split; [done|constructor].
  - unfold after, eff_under, mbind, effect_bind. destruct (executor_run _ w) as [w1 [r|e]] eqn:E; cbn; [|done].
    destruct (validResult r) eqn:E1; [|done]. destruct (vr_transportTrusted r) eqn:E2, (vr_scopeTrusted r) eqn:E3; try done.
    destruct (vr_ok r) eqn:E4, (vr_code r =? 0) eqn:E5; try done. cbn.
    specialize (IH (index + 1) (results ++ [r]) w1). unfold after in IH. destruct (run_commands _ _ _ _ _ w1) as [w2 [[all [[]|]]|e]]; try done.
    destruct IH as (more & -> & Hr). exists (r :: more). rewrite <-app_assoc. split; [done|]. econstructor; [done| |done].
    unfold passed. by rewrite E1, E2, E3, E4, E5.
Qed.

(** What an outcome says about the run. *)
Definition outcome_means (plan : CombinedVerificationPlanV1) (environment : Environment) (w w' : W) (o : CombinedVerificationOutcome) : Prop :=
  co_plan o = plan /\
  match co_reasonCode o with
  | None =>
    co_state o = vs_verified /\
    exists w1 w2, observed (vp_entries plan) w w1 /\ ran plan environment 0 (vp_commands plan) (co_results o) w1 w2 /\ observed (vp_entries plan) w2 w'
  | Some _ => co_state o <> vs_verified
  end.

Lemma executeCombinedVerification_spec plan environment w :
  after (executeCombinedVerification plan environment) w (fun w' r => match r with Ok o => outcome_means plan environment w w' o | Err _ => True end).
Proof.
  unfold executeCombinedVerification. apply after_bind, after_of. destruct (map_err _ _); [|done]. apply after_bind, after_of.
  destruct (ensure _ _); [|done]. apply after_bind. eapply after_mono; [apply observe_exact_spec|]. intros w1 [[]|] Hb; cbn; [|by split|done].
  apply after_bind. eapply after_mono; [apply run_commands_spec|]. intros w2 [[all [[state reason]|]]|] Hr; cbn; [by split| |done].
  apply after_bind. eapply after_mono; [apply observe_exact_spec|]. intros w3 [[]|] Ha; cbn; [|by split|done].
  destruct Hr as (more & -> & Hr). split; [done|]. cbn. eauto 10.
Qed.
End execution.

(** * Receipts *)

Lemma createCombinedVerificationReceipt_Ok o at_ receipt :
  createCombinedVerificationReceipt o at_ = Ok receipt ->
  co_state o = vs_verified /\ receipt_timestamp at_ = true /\ length (co_results o) = length (vp_commands (co_plan o)) /\
  cr_transactionId receipt = vp_transactionId (co_plan o) /\ cr_repositorySetId receipt = vp_repositorySetId (co_plan o) /\
  cr_manifestDigest receipt = vp_manifestDigest (co_plan o) /\ cr_verifiedAt receipt = at_ /\ cr_resultDigests receipt = imap result_digest (co_results o).
Proof.
  unfold createCombinedVerificationReceipt. intros H. run. subst receipt. guards. destruct (co_state o); try done. cbn.
  split_and!; try done. by apply Nat.eqb_eq.
Qed.

Lemma verifyCombinedVerificationReceipt_Ok plan receipt :
  verifyCombinedVerificationReceipt plan receipt = Ok tt <->
  cr_transactionId receipt = vp_transactionId plan /\ cr_repositorySetId receipt = vp_repositorySetId plan /\ cr_manifestDigest receipt = vp_manifestDigest plan /\
  receipt_timestamp (cr_verifiedAt receipt) = true /\ length (cr_resultDigests receipt) = length (vp_commands plan) /\
  forallb digest (cr_resultDigests receipt) = true /\
  cr_receiptDigest receipt = receipt_digest (cr_transactionId receipt) (cr_repositorySetId receipt) (cr_manifestDigest receipt) (cr_verifiedAt receipt) (cr_resultDigests receipt).
Proof.
  unfold verifyCombinedVerificationReceipt. split.
  - intros H. run. guards. split_and!; try done. by apply Nat.eqb_eq.
  - intros (E1 & E2 & E3 & E4 & E5 & E6 & E7). rewrite !bool_decide_eq_true_2 by done. rewrite E4, E6, (proj2 (Nat.eqb_eq _ _) E5). done.
Qed.

End facts.
