(* ===== verification/Integration.v ===== *)
(** Integration: the multi-repository integration transaction
    (src/multirepo/integration.ts): its plan, its events and their closed wire
    schema, the reducer, and the driver that makes one event at a time; the
    invariant of the reducer, and what every event of the switch does to it. *)
From S2P Require Import Prelude Text Json Ids ScmTypes Domain Effects Lists GitTransaction Verification.

(** * Data *)

Inductive MultiRepoIntegrationState :=
| mi_preparing | mi_prepared | mi_verifying | mi_verified | mi_applying | mi_applied | mi_compensating | mi_compensated | mi_recovery_required.
#[export] Instance MultiRepoIntegrationState_eq_dec : EqDecision MultiRepoIntegrationState. Proof. solve_decision. Defined.

Record MultiRepoIntegrationEntryPlanV1 := {
  ip_repository : RepositoryIdentityV1;
  ip_targetRef : text;
  ip_expectedOid : string;
  ip_childOid : string;
  ip_canonicalWorkspacePath : text;
  ip_message : text
}.

Record MultiRepoIntegrationPlanV1 := {
  il_transactionId : string;
  il_repositorySetId : string;
  il_entries : list MultiRepoIntegrationEntryPlanV1;
  il_verifyCommands : list text;
  il_verifyEnvironment : Environment
}.

(** The results an entry may record: those of [RepositoryCasResult] and
    [RepositoryCompensationResult] that say where the ref is. *)
Inductive AppliedState := st_applied | st_already_applied.
Inductive CompensatedState := st_compensated | st_already_compensated.
Record AppliedResult := { ar_state : AppliedState; ar_observedOid : string }.
Record CompensatedResult := { ur_state : CompensatedState; ur_observedOid : string }.

Record MultiRepoIntegrationEntryProjectionV1 := {
  ie_plan : MultiRepoIntegrationEntryPlanV1;
  ie_candidate : option RepositoryCandidateV1;
  ie_applyResult : option AppliedResult;
  ie_compensationResult : option CompensatedResult
}.

Record MultiRepoIntegrationProjectionV1 := {
  mi_transactionId : string;
  mi_repositorySetId : string;
  mi_version : Z;
  mi_state : MultiRepoIntegrationState;
  mi_plan : MultiRepoIntegrationPlanV1;
  mi_entries : list MultiRepoIntegrationEntryProjectionV1;
  mi_verification : option CombinedVerificationReceiptV1;
  mi_recoveryReason : option text;
  mi_eventIds : obj string
}.

(** What an event says beside its identity. *)
Inductive IntegrationBody :=
| integration_created (plan : MultiRepoIntegrationPlanV1)
| integration_candidate_prepared (repositoryId : string) (c : RepositoryCandidateV1)
| integration_prepared
| integration_verification_started
| integration_verified (receipt : CombinedVerificationReceiptV1)
| integration_applying_started
| integration_entry_applied (repositoryId : string) (r : AppliedResult)
| integration_compensation_started (reasonCode : text)
| integration_entry_compensated (repositoryId : string) (r : CompensatedResult)
| integration_applied
| integration_compensated
| integration_recovery_required (reasonCode : text) (repositoryId : option string) (observedOid : option (option string)).

Record MultiRepoIntegrationEventV1 := {
  iv_eventId : string;
  iv_transactionId : string;
  iv_expectedVersion : Z;
  iv_body : IntegrationBody
}.

(** * JSON of the events, in the order of their fields *)

Definition repository_identity_json (i : RepositoryIdentityV1) : json := jobj [
  ("schemaVersion", jnum 1); ("repositoryId", jstr i.(ri_repositoryId)); ("canonicalRoot", JString i.(ri_canonicalRoot));
  ("rootDevice", jnum i.(ri_rootDevice)); ("rootInode", jnum i.(ri_rootInode)); ("gitCommonDirDevice", jnum i.(ri_gitCommonDirDevice));
  ("gitCommonDirInode", jnum i.(ri_gitCommonDirInode)); ("defaultBranch", JString i.(ri_defaultBranch));
  ("protectedBranches", jlist JString i.(ri_protectedBranches))]%string.

Definition entry_plan_json (e : MultiRepoIntegrationEntryPlanV1) : json := jobj [
  ("repository", repository_identity_json e.(ip_repository)); ("targetRef", JString e.(ip_targetRef)); ("expectedOid", jstr e.(ip_expectedOid));
  ("childOid", jstr e.(ip_childOid)); ("canonicalWorkspacePath", JString e.(ip_canonicalWorkspacePath)); ("message", JString e.(ip_message))]%string.

Definition integration_plan_json (p : MultiRepoIntegrationPlanV1) : json := jobj [
  ("schemaVersion", jnum 1); ("transactionId", jstr p.(il_transactionId)); ("repositorySetId", jstr p.(il_repositorySetId));
  ("entries", jlist entry_plan_json p.(il_entries)); ("verifyCommands", jlist JString p.(il_verifyCommands));
  ("verifyEnvironment", JObject (List.map (fun kv => (text_of_string kv.1, JString kv.2)) p.(il_verifyEnvironment)))]%string.

Definition candidate_json (c : RepositoryCandidateV1) : json := jobj [
  ("schemaVersion", jnum 1); ("repositoryId", jstr c.(rc_repositoryId)); ("targetRef", JString c.(rc_targetRef)); ("expectedOid", jstr c.(rc_expectedOid));
  ("childOid", jstr c.(rc_childOid)); ("candidateOid", jstr c.(rc_candidateOid)); ("treeOid", jstr c.(rc_treeOid));
  ("parents", JArray [jstr c.(rc_parents).1; jstr c.(rc_parents).2])]%string.

Definition AppliedState_name (s : AppliedState) : string := match s with st_applied => "applied" | st_already_applied => "already_applied" end.
Definition CompensatedState_name (s : CompensatedState) : string :=
  match s with st_compensated => "compensated" | st_already_compensated => "already_compensated" end.

Definition applied_result_json (r : AppliedResult) : json :=
  jobj [("state", jstr (AppliedState_name r.(ar_state))); ("observedOid", jstr r.(ar_observedOid))]%string.
Definition compensated_result_json (r : CompensatedResult) : json :=
  jobj [("state", jstr (CompensatedState_name r.(ur_state))); ("observedOid", jstr r.(ur_observedOid))]%string.

Definition receipt_json (r : CombinedVerificationReceiptV1) : json := jobj [
  ("schemaVersion", jnum 1); ("transactionId", jstr r.(cr_transactionId)); ("repositorySetId", jstr r.(cr_repositorySetId));
  ("manifestDigest", jstr r.(cr_manifestDigest)); ("verifiedAt", jstr r.(cr_verifiedAt)); ("resultDigests", jlist jstr r.(cr_resultDigests));
  ("receiptDigest", jstr r.(cr_receiptDigest))]%string.

Definition integration_type (b : IntegrationBody) : string :=
  match b with
  | integration_created _ => "integration.created"
  | integration_candidate_prepared _ _ => "integration.candidate_prepared"
  | integration_prepared => "integration.prepared"
  | integration_verification_started => "integration.verification_started"
  | integration_verified _ => "integration.verified"
  | integration_applying_started => "integration.applying_started"
  | integration_entry_applied _ _ => "integration.entry_applied"
  | integration_compensation_started _ => "integration.compensation_started"
  | integration_entry_compensated _ _ => "integration.entry_compensated"
  | integration_applied => "integration.applied"
  | integration_compensated => "integration.compensated"
  | integration_recovery_required _ _ _ => "integration.recovery_required"
  end.

Definition body_fields (b : IntegrationBody) : list (string * json) :=
  match b with
  | integration_created plan => [("plan", integration_plan_json plan)]%string
  | integration_candidate_prepared id c => [("repositoryId", jstr id); ("candidate", candidate_json c)]%string
  | integration_verified receipt => [("receipt", receipt_json receipt)]%string
  | integration_entry_applied id r => [("repositoryId", jstr id); ("result", applied_result_json r)]%string
  | integration_compensation_started reason => [("reasonCode", JString reason)]%string
  | integration_entry_compensated id r => [("repositoryId", jstr id); ("result", compensated_result_json r)]%string
  | integration_recovery_required reason id oid =>
      [("reasonCode", JString reason)]%string
      ++ match id with Some id => [("repositoryId", jstr id)]%string | None => [] end
      ++ match oid with Some (Some oid) => [("observedOid", jstr oid)]%string | Some None => [("observedOid", JNull)]%string | None => [] end
  | _ => []
  end.

Definition integration_event_json (e : MultiRepoIntegrationEventV1) : json := jobj (
  [("schemaVersion", jnum 1); ("eventId", jstr e.(iv_eventId)); ("transactionId", jstr e.(iv_transactionId));
   ("expectedVersion", jnum e.(iv_expectedVersion)); ("type", jstr (integration_type e.(iv_body)))]%string ++ body_fields e.(iv_body)).

(** * The wire schema *)

Definition boundedText (t : text) : bool := textlen t <=? 16 * 1024.

Definition integrationEntryPlanSchema (e : MultiRepoIntegrationEntryPlanV1) : bool :=
  RepositoryIdentityV1Schema e.(ip_repository) && between 1 512 (textlen e.(ip_targetRef)) && gitOid e.(ip_expectedOid) && gitOid e.(ip_childOid)
  && between 1 4096 (textlen e.(ip_canonicalWorkspacePath)) && between 1 (8 * 1024) (textlen e.(ip_message)).

Definition integrationPlanSchema (p : MultiRepoIntegrationPlanV1) : bool :=
  ID_PATTERN p.(il_transactionId) && digest p.(il_repositorySetId)
  && negb (bool_decide (p.(il_entries) = [])) && at_most 32 p.(il_entries) && forallb integrationEntryPlanSchema p.(il_entries)
  && negb (bool_decide (p.(il_verifyCommands) = [])) && at_most 64 p.(il_verifyCommands)
  && forallb (fun c => between 1 4096 (textlen c)) p.(il_verifyCommands)
  && forallb (fun kv => environmentKey kv.1 && (textlen kv.2 <=? 16 * 1024)) p.(il_verifyEnvironment).

Definition candidateSchema (c : RepositoryCandidateV1) : bool :=
  ID_PATTERN c.(rc_repositoryId) && between 1 512 (textlen c.(rc_targetRef)) && gitOid c.(rc_expectedOid) && gitOid c.(rc_childOid)
  && gitOid c.(rc_candidateOid) && gitOid c.(rc_treeOid) && gitOid c.(rc_parents).1 && gitOid c.(rc_parents).2.

Definition verificationReceiptSchema (r : CombinedVerificationReceiptV1) : bool :=
  ID_PATTERN r.(cr_transactionId) && digest r.(cr_repositorySetId) && digest r.(cr_manifestDigest) && timestamp r.(cr_verifiedAt)
  && forallb digest r.(cr_resultDigests) && at_most 64 r.(cr_resultDigests) && digest r.(cr_receiptDigest).

Definition integration_body_schema (b : IntegrationBody) : bool :=
  match b with
  | integration_created plan => integrationPlanSchema plan
  | integration_candidate_prepared id c => ID_PATTERN id && candidateSchema c
  | integration_verified receipt => verificationReceiptSchema receipt
  | integration_entry_applied id r => ID_PATTERN id && gitOid r.(ar_observedOid)
  | integration_compensation_started reason => boundedText reason
  | integration_entry_compensated id r => ID_PATTERN id && gitOid r.(ur_observedOid)
  | integration_recovery_required reason id oid =>
      boundedText reason && optional ID_PATTERN id && optional (optional gitOid) oid
  | _ => true
  end.

Definition MultiRepoIntegrationEventV1Schema (e : MultiRepoIntegrationEventV1) : bool :=
  ID_PATTERN e.(iv_eventId) && ID_PATTERN e.(iv_transactionId) && nonNegative e.(iv_expectedVersion) && integration_body_schema e.(iv_body).

(** * Errors *)

Inductive MultiRepoIntegrationErrorCode := MI_INVALID_PLAN | MI_STALE_VERSION | MI_EVENT_ID_CONFLICT | MI_INVALID_TRANSITION | MI_AUTHORITY_MISSING.

Abbreviation reduction := (result MultiRepoIntegrationErrorCode).

(** Everything the driver can throw. *)
Inductive IntegrationThrow :=
| it_integration (code : MultiRepoIntegrationErrorCode)
| it_verification (e : MultiRepoVerificationError)
| it_git (e : MultiRepoGitError)
| it_receipt
| it_absent_candidate.

(** [assertHeld] of the authority, and [verifiedAt]. *)
Class IntegrationHost (W : Type) := {
  assertHeld : list string -> effect W Foreign unit;
  verifiedAt : W -> W * string
}.

Section integration.
Context {D : Digest} {C : Collation}.

(** [hash]: JSON.stringify, in the order of the fields. *)
Definition integration_hash (value : json) : string := sha256Text (render value).

Definition eventId (transactionId : string) (version : Z) (action : text) : string :=
  "mi-" +:+ String.substring 0 48 (sha256Text (text_of_string transactionId ++ [0] ++ text_of_string (num_to_string version) ++ [0] ++ action)).

Definition base (p : MultiRepoIntegrationProjectionV1) (action : text) (body : IntegrationBody) : MultiRepoIntegrationEventV1 := {|
  iv_eventId := eventId p.(mi_transactionId) p.(mi_version) action; iv_transactionId := p.(mi_transactionId);
  iv_expectedVersion := p.(mi_version); iv_body := body |}.

Definition by_repository (l r : MultiRepoIntegrationEntryPlanV1) : Z :=
  localeCompare l.(ip_repository).(ri_repositoryId) r.(ip_repository).(ri_repositoryId).

Definition plan_ids (entries : list MultiRepoIntegrationEntryPlanV1) : list string := List.map (fun e => e.(ip_repository).(ri_repositoryId)) entries.

(** The vector as the verifier checks it before there are candidates. *)
Definition planned_entry (e : MultiRepoIntegrationEntryPlanV1) : CandidateVerificationEntryV1 := {|
  ve_repositoryId := e.(ip_repository).(ri_repositoryId); ve_canonicalWorkspacePath := e.(ip_canonicalWorkspacePath); ve_targetRef := e.(ip_targetRef);
  ve_expectedOid := e.(ip_expectedOid); ve_childOid := e.(ip_childOid); ve_candidateOid := e.(ip_expectedOid); ve_treeOid := e.(ip_expectedOid) |}.

Definition planned_input (plan : MultiRepoIntegrationPlanV1) : CombinedVerificationInput := {|
  vi_transactionId := plan.(il_transactionId); vi_repositorySetId := plan.(il_repositorySetId); vi_entries := List.map planned_entry plan.(il_entries);
  vi_commands := plan.(il_verifyCommands); vi_environment := plan.(il_verifyEnvironment) |}.

(** The entries are unique and in the order the stable sort gives them. With
    unique ids the sorted entries are the given ones when their ids are. *)
Definition validatePlan (plan : MultiRepoIntegrationPlanV1) : result IntegrationThrow MultiRepoIntegrationPlanV1 :=
  ensure (ID_PATTERN plan.(il_transactionId) && digest plan.(il_repositorySetId) && negb (bool_decide (plan.(il_entries) = []))
          && at_most 32 plan.(il_entries)) (it_integration MI_INVALID_PLAN) ;;
  ensure (bool_decide (plan_ids (js_sort by_repository plan.(il_entries)) = plan_ids plan.(il_entries)) && unique (plan_ids plan.(il_entries)))
    (it_integration MI_INVALID_PLAN) ;;
  _ ← map_err it_verification (materializeCombinedVerificationPlan (planned_input plan));
  Ok plan.

Definition createMultiRepoIntegrationEvent (plan : MultiRepoIntegrationPlanV1) : result IntegrationThrow MultiRepoIntegrationEventV1 :=
  validated ← validatePlan plan;
  Ok {| iv_eventId := eventId plan.(il_transactionId) 0 (text_of_string "create"); iv_transactionId := plan.(il_transactionId);
        iv_expectedVersion := 0; iv_body := integration_created validated |}.

(** * The reducer *)

Definition integrationEventDigest (event : MultiRepoIntegrationEventV1) : string := integration_hash (integration_event_json event).

Definition entry_id (entry : MultiRepoIntegrationEntryProjectionV1) : string := entry.(ie_plan).(ip_repository).(ri_repositoryId).

Definition replaceEntry (entries : list MultiRepoIntegrationEntryProjectionV1) (repositoryId : string)
    (update : MultiRepoIntegrationEntryProjectionV1 -> reduction MultiRepoIntegrationEntryProjectionV1) : reduction (list MultiRepoIntegrationEntryProjectionV1) :=
  replace_keyed entry_id MI_INVALID_TRANSITION entries repositoryId update.

Definition entry_with (candidate : option RepositoryCandidateV1) (applyResult : option AppliedResult) (compensationResult : option CompensatedResult)
    (entry : MultiRepoIntegrationEntryProjectionV1) : MultiRepoIntegrationEntryProjectionV1 :=
  {| ie_plan := entry.(ie_plan); ie_candidate := candidate; ie_applyResult := applyResult; ie_compensationResult := compensationResult |}.

Definition record_candidate (c : RepositoryCandidateV1) (entry : MultiRepoIntegrationEntryProjectionV1) : reduction MultiRepoIntegrationEntryProjectionV1 :=
  ensure (match entry.(ie_candidate) with Some c' => bool_decide (integration_hash (candidate_json c') = integration_hash (candidate_json c)) | None => true end)
    MI_INVALID_TRANSITION ;;
  ensure (bool_decide (c.(rc_repositoryId) = entry_id entry) && bool_decide (c.(rc_targetRef) = entry.(ie_plan).(ip_targetRef))
          && bool_decide (c.(rc_expectedOid) = entry.(ie_plan).(ip_expectedOid)) && bool_decide (c.(rc_childOid) = entry.(ie_plan).(ip_childOid)))
    MI_INVALID_TRANSITION ;;
  Ok (entry_with (Some c) entry.(ie_applyResult) entry.(ie_compensationResult) entry).

Definition record_applied (r : AppliedResult) (entry : MultiRepoIntegrationEntryProjectionV1) : reduction MultiRepoIntegrationEntryProjectionV1 :=
  ensure (match entry.(ie_candidate) with Some c => bool_decide (r.(ar_observedOid) = c.(rc_candidateOid)) | None => false end) MI_INVALID_TRANSITION ;;
  Ok (entry_with entry.(ie_candidate) (Some r) entry.(ie_compensationResult) entry).

Definition record_compensated (r : CompensatedResult) (entry : MultiRepoIntegrationEntryProjectionV1) : reduction MultiRepoIntegrationEntryProjectionV1 :=
  Ok (entry_with entry.(ie_candidate) entry.(ie_applyResult) (Some r) entry).

(** What an event of the switch changes: state, entries, verification, reason. *)
Record IntegrationPart := {
  part_state : MultiRepoIntegrationState;
  part_entries : list MultiRepoIntegrationEntryProjectionV1;
  part_verification : option CombinedVerificationReceiptV1;
  part_recoveryReason : option text
}.

Definition part_of (p : MultiRepoIntegrationProjectionV1) : IntegrationPart := {|
  part_state := p.(mi_state); part_entries := p.(mi_entries); part_verification := p.(mi_verification); part_recoveryReason := p.(mi_recoveryReason) |}.

Definition to_state (s : MultiRepoIntegrationState) (x : IntegrationPart) : IntegrationPart := {|
  part_state := s; part_entries := x.(part_entries); part_verification := x.(part_verification); part_recoveryReason := x.(part_recoveryReason) |}.
Definition with_entries (entries : list MultiRepoIntegrationEntryProjectionV1) (x : IntegrationPart) : IntegrationPart := {|
  part_state := x.(part_state); part_entries := entries; part_verification := x.(part_verification); part_recoveryReason := x.(part_recoveryReason) |}.
Definition with_verification (r : CombinedVerificationReceiptV1) (x : IntegrationPart) : IntegrationPart := {|
  part_state := x.(part_state); part_entries := x.(part_entries); part_verification := Some r; part_recoveryReason := x.(part_recoveryReason) |}.
Definition with_reason (reason : text) (x : IntegrationPart) : IntegrationPart := {|
  part_state := x.(part_state); part_entries := x.(part_entries); part_verification := x.(part_verification); part_recoveryReason := Some reason |}.

Definition in_state (s : MultiRepoIntegrationState) (p : MultiRepoIntegrationProjectionV1) : bool := bool_decide (p.(mi_state) = s).

(** The switch on the type of the event. *)
Definition integration_switch (p : MultiRepoIntegrationProjectionV1) (body : IntegrationBody) : reduction IntegrationPart :=
  let part := part_of p in
  match body with
  | integration_created _ => Err MI_INVALID_TRANSITION
  | integration_candidate_prepared id c =>
      ensure (in_state mi_preparing p) MI_INVALID_TRANSITION ;;
      entries ← replaceEntry p.(mi_entries) id (record_candidate c);
      Ok (with_entries entries part)
  | integration_prepared =>
      ensure (in_state mi_preparing p && negb (existsb (fun entry => lacks entry.(ie_candidate)) p.(mi_entries))) MI_INVALID_TRANSITION ;;
      Ok (to_state mi_prepared part)
  | integration_verification_started =>
      ensure (in_state mi_prepared p) MI_INVALID_TRANSITION ;; Ok (to_state mi_verifying part)
  | integration_verified receipt =>
      ensure (in_state mi_verifying p && bool_decide (receipt.(cr_transactionId) = p.(mi_transactionId))
              && bool_decide (receipt.(cr_repositorySetId) = p.(mi_repositorySetId))) MI_INVALID_TRANSITION ;;
      Ok (with_verification receipt (to_state mi_verified part))
  | integration_applying_started =>
      ensure (in_state mi_verified p && has p.(mi_verification)) MI_INVALID_TRANSITION ;; Ok (to_state mi_applying part)
  | integration_entry_applied id r =>
      ensure (in_state mi_applying p) MI_INVALID_TRANSITION ;;
      entries ← replaceEntry p.(mi_entries) id (record_applied r);
      Ok (with_entries entries part)
  | integration_compensation_started reason =>
      ensure (in_state mi_applying p && existsb (fun entry => has entry.(ie_applyResult)) p.(mi_entries)) MI_INVALID_TRANSITION ;;
      Ok (with_reason reason (to_state mi_compensating part))
  | integration_entry_compensated id r =>
      ensure (in_state mi_compensating p) MI_INVALID_TRANSITION ;;
      entries ← replaceEntry p.(mi_entries) id (record_compensated r);
      Ok (with_entries entries part)
  | integration_applied =>
      ensure (in_state mi_applying p && negb (existsb (fun entry => lacks entry.(ie_applyResult)) p.(mi_entries))) MI_INVALID_TRANSITION ;;
      Ok (to_state mi_applied part)
  | integration_compensated =>
      ensure (in_state mi_compensating p && negb (existsb (fun entry => has entry.(ie_applyResult) && lacks entry.(ie_compensationResult)) p.(mi_entries)))
        MI_INVALID_TRANSITION ;;
      Ok (to_state mi_compensated part)
  | integration_recovery_required reason _ _ =>
      ensure (negb (in_state mi_applied p || in_state mi_compensated p)) MI_INVALID_TRANSITION ;;
      Ok (with_reason reason (to_state mi_recovery_required part))
  end.

Definition created_entry (plan : MultiRepoIntegrationEntryPlanV1) : MultiRepoIntegrationEntryProjectionV1 :=
  {| ie_plan := plan; ie_candidate := None; ie_applyResult := None; ie_compensationResult := None |}.

Definition created_projection (event : MultiRepoIntegrationEventV1) (plan : MultiRepoIntegrationPlanV1) : MultiRepoIntegrationProjectionV1 := {|
  mi_transactionId := event.(iv_transactionId); mi_repositorySetId := plan.(il_repositorySetId); mi_version := 1; mi_state := mi_preparing;
  mi_plan := plan; mi_entries := List.map created_entry plan.(il_entries); mi_verification := None; mi_recoveryReason := None;
  mi_eventIds := {[ event.(iv_eventId) := integrationEventDigest event ]} |}.

Definition advance_integration (p : MultiRepoIntegrationProjectionV1) (event : MultiRepoIntegrationEventV1) (part : IntegrationPart) : MultiRepoIntegrationProjectionV1 := {|
  mi_transactionId := p.(mi_transactionId); mi_repositorySetId := p.(mi_repositorySetId); mi_version := p.(mi_version) + 1;
  mi_state := part.(part_state); mi_plan := p.(mi_plan); mi_entries := part.(part_entries); mi_verification := part.(part_verification);
  mi_recoveryReason := part.(part_recoveryReason); mi_eventIds := <[ event.(iv_eventId) := integrationEventDigest event ]> p.(mi_eventIds) |}.

Definition applyMultiRepoIntegrationEvent (current : option MultiRepoIntegrationProjectionV1) (event : MultiRepoIntegrationEventV1)
    : reduction MultiRepoIntegrationProjectionV1 :=
  match current with
  | None =>
      match event.(iv_body) with
      | integration_created plan =>
          ensure (event.(iv_expectedVersion) =? 0) MI_INVALID_TRANSITION ;; Ok (created_projection event plan)
      | _ => Err MI_INVALID_TRANSITION
      end
  | Some p =>
      match obj_get p.(mi_eventIds) event.(iv_eventId) with
      | Own prior => ensure (bool_decide (prior = integrationEventDigest event)) MI_EVENT_ID_CONFLICT ;; Ok p
      | Inherited => Err MI_EVENT_ID_CONFLICT
      | Absent =>
          ensure (bool_decide (event.(iv_transactionId) = p.(mi_transactionId)) && (event.(iv_expectedVersion) =? p.(mi_version))) MI_STALE_VERSION ;;
          part ← integration_switch p event.(iv_body);
          Ok (advance_integration p event part)
      end
  end.

Definition reduceMultiRepoIntegrationEvents (events : list MultiRepoIntegrationEventV1) : reduction MultiRepoIntegrationProjectionV1 :=
  projection ← fold_result (fun current event => p ← applyMultiRepoIntegrationEvent current event; Ok (Some p)) None events;
  match projection with Some p => Ok p | None => Err MI_INVALID_TRANSITION end.

(** * The driver *)

Section driver.
Context {W : Type} `{GitHost W} `{VerificationHost W} `{IntegrationHost W}.
Abbreviation driver := (effect W IntegrationThrow).

Definition requireAuthority (p : MultiRepoIntegrationProjectionV1) : driver unit :=
  eff_under (fun _ => it_integration MI_AUTHORITY_MISSING) (assertHeld (List.map entry_id p.(mi_entries))).

Definition recoveryEvent (p : MultiRepoIntegrationProjectionV1) (reasonCode : text) (repositoryId : option string) (observedOid : option (option string))
    : MultiRepoIntegrationEventV1 :=
  base p (text_of_string "recovery:" ++ reasonCode ++ text_of_string ":" ++ text_of_string (default "vector" repositoryId))
    (integration_recovery_required reasonCode repositoryId observedOid).

Definition named_action (action : string) (repositoryId : string) : text := text_of_string (action +:+ repositoryId).

Definition candidate_request (e : MultiRepoIntegrationEntryPlanV1) : RepositoryCandidateRequest := {|
  rq_repository := e.(ip_repository); rq_targetRef := e.(ip_targetRef); rq_expectedOid := e.(ip_expectedOid); rq_childOid := e.(ip_childOid);
  rq_message := e.(ip_message) |}.

(** What [preparing] does. *)
Definition drive_preparing (p : MultiRepoIntegrationProjectionV1) : driver MultiRepoIntegrationEventV1 :=
  match List.find (fun entry => lacks entry.(ie_candidate)) p.(mi_entries) with
  | None => mret (base p (text_of_string "prepared") integration_prepared)
  | Some entry =>
      eff_try (prepareRepositoryCandidate (candidate_request entry.(ie_plan)))
        (fun c => mret (base p (named_action "candidate:" (entry_id entry)) (integration_candidate_prepared (entry_id entry) c)))
        (fun e => mret (recoveryEvent p (take 128 (git_error_message e)) (Some (entry_id entry)) None))
  end.

Definition candidate_entry (entry : MultiRepoIntegrationEntryProjectionV1) : result IntegrationThrow CandidateVerificationEntryV1 :=
  match entry.(ie_candidate) with
  | None => Err (it_integration MI_INVALID_TRANSITION)
  | Some c => Ok {| ve_repositoryId := entry_id entry; ve_canonicalWorkspacePath := entry.(ie_plan).(ip_canonicalWorkspacePath); ve_targetRef := c.(rc_targetRef);
      ve_expectedOid := c.(rc_expectedOid); ve_childOid := c.(rc_childOid); ve_candidateOid := c.(rc_candidateOid); ve_treeOid := c.(rc_treeOid) |}
  end.

Definition verification_input (p : MultiRepoIntegrationProjectionV1) (candidates : list CandidateVerificationEntryV1) : CombinedVerificationInput := {|
  vi_transactionId := p.(mi_transactionId); vi_repositorySetId := p.(mi_repositorySetId); vi_entries := candidates;
  vi_commands := p.(mi_plan).(il_verifyCommands); vi_environment := p.(mi_plan).(il_verifyEnvironment) |}.

(** What [verifying] does. *)
Definition drive_verifying (p : MultiRepoIntegrationProjectionV1) : driver MultiRepoIntegrationEventV1 :=
  candidates ← eff_of (map_result candidate_entry p.(mi_entries));
  plan ← eff_of (map_err it_verification (materializeCombinedVerificationPlan (verification_input p candidates)));
  eff_try (executeCombinedVerification plan p.(mi_plan).(il_verifyEnvironment))
    (fun outcome =>
      match outcome.(co_state) with
      | vs_verified =>
          at_ ← (fun w => let (w', at_) := verifiedAt w in (w', Ok at_));
          receipt ← eff_of (map_err (fun _ => it_receipt) (createCombinedVerificationReceipt outcome at_));
          mret (base p (text_of_string "verified") (integration_verified receipt))
      | _ => mret (recoveryEvent p (text_of_string (default "VERIFICATION_FAILED" (VerificationReason_name <$> outcome.(co_reasonCode)))) None None)
      end)
    (fun e => mret (recoveryEvent p (default (text_of_string "VERIFICATION_FAILED") (take 128 <$> VerificationThrow_message e)) None None)).

Definition RecoveryReason_name (r : RecoveryReason) : text :=
  text_of_string (match r with IDENTITY_MISMATCH => "IDENTITY_MISMATCH" | OUTCOME_UNKNOWN => "OUTCOME_UNKNOWN" end).

(** What [applying] does. The candidate of the entry is asserted to be there. *)
Definition drive_applying (p : MultiRepoIntegrationProjectionV1) : driver MultiRepoIntegrationEventV1 :=
  match List.find (fun entry => lacks entry.(ie_applyResult)) p.(mi_entries) with
  | None => mret (base p (text_of_string "applied") integration_applied)
  | Some entry =>
      candidate ← eff_of (match entry.(ie_candidate) with Some c => Ok c | None => Err it_absent_candidate end);
      result ← eff_under it_git (applyRepositoryCandidate entry.(ie_plan).(ip_repository) candidate);
      let applied st oid := mret (base p (named_action "applied:" (entry_id entry)) (integration_entry_applied (entry_id entry) {| ar_state := st; ar_observedOid := oid |})) in
      match result with
      | cas_applied oid => applied st_applied oid
      | cas_already_applied oid => applied st_already_applied oid
      | cas_refused oid =>
          if existsb (fun entry => has entry.(ie_applyResult)) p.(mi_entries)
          then mret (base p (named_action "compensate:" (entry_id entry)) (integration_compensation_started (text_of_string "REF_MOVED")))
          else mret (recoveryEvent p (text_of_string "REF_MOVED") (Some (entry_id entry)) (Some oid))
      | cas_recovery_required reason oid => mret (recoveryEvent p (RecoveryReason_name reason) (Some (entry_id entry)) oid)
      end
  end.

(** What [compensating] does, from the last entry to the first. *)
Definition drive_compensating (p : MultiRepoIntegrationProjectionV1) : driver MultiRepoIntegrationEventV1 :=
  match List.find (fun entry => has entry.(ie_applyResult) && lacks entry.(ie_compensationResult)) (rev p.(mi_entries)) with
  | None => mret (base p (text_of_string "compensated") integration_compensated)
  | Some entry =>
      candidate ← eff_of (match entry.(ie_candidate) with Some c => Ok c | None => Err it_absent_candidate end);
      result ← eff_under it_git (compensateRepositoryCandidate entry.(ie_plan).(ip_repository) candidate);
      let compensated st oid := mret (base p (named_action "compensated:" (entry_id entry)) (integration_entry_compensated (entry_id entry) {| ur_state := st; ur_observedOid := oid |})) in
      match result with
      | undo_compensated oid => compensated st_compensated oid
      | undo_already_compensated oid => compensated st_already_compensated oid
      | undo_refused oid => mret (recoveryEvent p (text_of_string "EXTERNAL_MOVE") (Some (entry_id entry)) (Some oid))
      | undo_recovery_required reason oid => mret (recoveryEvent p (RecoveryReason_name reason) (Some (entry_id entry)) oid)
      end
  end.

Definition terminal (s : MultiRepoIntegrationState) : bool := bool_decide (s = mi_applied) || bool_decide (s = mi_compensated) || bool_decide (s = mi_recovery_required).

Definition reconcileMultiRepoIntegrationOnce (p : MultiRepoIntegrationProjectionV1) : driver (option MultiRepoIntegrationEventV1) :=
  if terminal p.(mi_state) then mret None
  else
    requireAuthority p ;;
    match p.(mi_state) with
    | mi_preparing => e ← drive_preparing p; mret (Some e)
    | mi_prepared => mret (Some (base p (text_of_string "verification-start") integration_verification_started))
    | mi_verifying => e ← drive_verifying p; mret (Some e)
    | mi_verified => mret (Some (base p (text_of_string "applying-start") integration_applying_started))
    | mi_applying => e ← drive_applying p; mret (Some e)
    | mi_compensating => e ← drive_compensating p; mret (Some e)
    | _ => mret None
    end.
End driver.
End integration.

(** * Facts *)

Section facts.
Context {D : Digest} {C : Collation}.
Implicit Types p : MultiRepoIntegrationProjectionV1.

(** * Replacing an entry *)

Abbreviation replaced := (replaced entry_id).
Abbreviation replaces := (replaces entry_id).

Lemma replaceEntry_Ok entries id update entries' : replaceEntry entries id update = Ok entries' <-> replaces id update entries entries'.
Proof. apply replace_keyed_Ok. Qed.

Lemma record_candidate_Ok c a b :
  record_candidate c a = Ok b ->
  b = entry_with (Some c) (ie_applyResult a) (ie_compensationResult a) a /\
  rc_repositoryId c = entry_id a /\ rc_targetRef c = ip_targetRef (ie_plan a) /\
  rc_expectedOid c = ip_expectedOid (ie_plan a) /\ rc_childOid c = ip_childOid (ie_plan a).
Proof. unfold record_candidate. intros H. run. guards. done. Qed.

Lemma record_applied_Ok r a b :
  record_applied r a = Ok b ->
  b = entry_with (ie_candidate a) (Some r) (ie_compensationResult a) a /\ exists c, ie_candidate a = Some c /\ ar_observedOid r = rc_candidateOid c.
Proof. unfold record_applied. intros H. run. destruct (ie_candidate a) as [c|]; [|done]. guards. eauto. Qed.

Lemma record_compensated_Ok r a b : record_compensated r a = Ok b -> b = entry_with (ie_candidate a) (ie_applyResult a) (Some r) a.
Proof. by intros [= <-]. Qed.

(** * The transitions *)

(** What the switch accepts, and what it makes of it. *)
Inductive transition p : IntegrationBody -> IntegrationPart -> Prop :=
| tr_candidate id c l : mi_state p = mi_preparing -> replaces id (record_candidate c) (mi_entries p) l ->
    transition p (integration_candidate_prepared id c) (with_entries l (part_of p))
| tr_prepared : mi_state p = mi_preparing -> Forall (fun e => is_Some (ie_candidate e)) (mi_entries p) ->
    transition p integration_prepared (to_state mi_prepared (part_of p))
| tr_verification_started : mi_state p = mi_prepared ->
    transition p integration_verification_started (to_state mi_verifying (part_of p))
| tr_verified receipt : mi_state p = mi_verifying -> cr_transactionId receipt = mi_transactionId p -> cr_repositorySetId receipt = mi_repositorySetId p ->
    transition p (integration_verified receipt) (with_verification receipt (to_state mi_verified (part_of p)))
| tr_applying_started : mi_state p = mi_verified -> is_Some (mi_verification p) ->
    transition p integration_applying_started (to_state mi_applying (part_of p))
| tr_entry_applied id r l : mi_state p = mi_applying -> replaces id (record_applied r) (mi_entries p) l ->
    transition p (integration_entry_applied id r) (with_entries l (part_of p))
| tr_compensation_started reason : mi_state p = mi_applying -> (exists e, e ∈ mi_entries p /\ is_Some (ie_applyResult e)) ->
    transition p (integration_compensation_started reason) (with_reason reason (to_state mi_compensating (part_of p)))
| tr_entry_compensated id r l : mi_state p = mi_compensating -> replaces id (record_compensated r) (mi_entries p) l ->
    transition p (integration_entry_compensated id r) (with_entries l (part_of p))
| tr_applied : mi_state p = mi_applying -> Forall (fun e => is_Some (ie_applyResult e)) (mi_entries p) ->
    transition p integration_applied (to_state mi_applied (part_of p))
| tr_compensated : mi_state p = mi_compensating -> Forall (fun e => is_Some (ie_applyResult e) -> is_Some (ie_compensationResult e)) (mi_entries p) ->
    transition p integration_compensated (to_state mi_compensated (part_of p))
| tr_recovery reason id oid : mi_state p <> mi_applied -> mi_state p <> mi_compensated ->
    transition p (integration_recovery_required reason id oid) (with_reason reason (to_state mi_recovery_required (part_of p))).

Lemma integration_switch_transition p body part : integration_switch p body = Ok part <-> transition p body part.
Proof.
  split.
  - intros H. destruct body; cbn in H; [done|..]; run; rewrite ?andb_true_iff, ?negb_true_iff, ?orb_false_iff in *; unfold in_state in *;
      rewrite ?bool_decide_eq_true, ?bool_decide_eq_false in *; destruct_and?; subst; constructor; try done.
    all: try (apply replaceEntry_Ok; assumption).
    + by apply none_lack, negb_true_iff.
    + by apply has_is_Some.
    + by apply some_has.
    + by apply none_lack, negb_true_iff.
    + by apply (none_pending ie_applyResult ie_compensationResult), negb_true_iff.
  - intros [id c l Hs Hr|Hs Hf|Hs|receipt Hs H1 H2|Hs Hv|id r l Hs Hr|reason Hs He|id r l Hs Hr|Hs Hf|Hs Hf|reason id oid H1 H2]; cbn; unfold in_state;
      rewrite ?(bool_decide_eq_true_2 _ Hs).
    + by apply replaceEntry_Ok in Hr as ->.
    + by rewrite (proj2 (none_lack _ _) Hf).
    + done.
    + by rewrite !bool_decide_eq_true_2.
    + by rewrite (proj2 (has_is_Some _) Hv).
    + by apply replaceEntry_Ok in Hr as ->.
    + by rewrite (proj2 (some_has _ _) He).
    + by apply replaceEntry_Ok in Hr as ->.
    + by rewrite (proj2 (none_lack _ _) Hf).
    + by rewrite (proj2 (none_pending ie_applyResult ie_compensationResult _) Hf).
    + by rewrite !bool_decide_eq_false_2.
Qed.

(** An event changes nothing, or makes one transition under a fresh id. *)
Lemma apply_Some_Ok p e p' :
  applyMultiRepoIntegrationEvent (Some p) e = Ok p' <->
  (p' = p /\ mi_eventIds p !! iv_eventId e = Some (integrationEventDigest e)) \/
  (exists part, obj_get (mi_eventIds p) (iv_eventId e) = Absent /\ iv_transactionId e = mi_transactionId p /\ iv_expectedVersion e = mi_version p /\
     transition p (iv_body e) part /\ p' = advance_integration p e part).
Proof.
  cbn. pose proof (obj_get_Own (mi_eventIds p) (iv_eventId e)) as Ho. destruct (obj_get (mi_eventIds p) (iv_eventId e)) as [| |prior].
  - split.
    + intros (_ & [? ?%Z.eqb_eq]%ensure_Ok%andb_true_iff & (part & Ht%integration_switch_transition & [= <-])%bind_Ok)%bind_Ok.
      right. exists part. guards. done.
    + intros [[_ Hn]|(part & _ & -> & -> & ->%integration_switch_transition & ->)]; [by apply Ho in Hn|].
      by rewrite bool_decide_eq_true_2, Z.eqb_refl.
  - split; [done|]. intros [[_ Hn]|(part & [=] & _)]. by apply Ho in Hn.
  - specialize (Ho prior). split.
    + intros (_ & ->%ensure_Ok%bool_decide_eq_true & [= <-])%bind_Ok. left. split; [done|]. by apply Ho.
    + intros [[-> Hn]|(part & [=] & _)]. apply proj1 in Ho. specialize (Ho eq_refl). assert (prior = integrationEventDigest e) as -> by congruence.
      by rewrite bool_decide_eq_true_2.
Qed.

(** * The invariant *)

(** A candidate is for the entry it is recorded at. *)
Definition candidate_fits (plan : MultiRepoIntegrationEntryPlanV1) (c : RepositoryCandidateV1) : Prop :=
  rc_repositoryId c = ri_repositoryId (ip_repository plan) /\ rc_targetRef c = ip_targetRef plan /\
  rc_expectedOid c = ip_expectedOid plan /\ rc_childOid c = ip_childOid plan.

(** What an entry holds in a state of the transaction. *)
Definition entry_fits (s : MultiRepoIntegrationState) (e : MultiRepoIntegrationEntryProjectionV1) : Prop :=
  (forall c, ie_candidate e = Some c -> candidate_fits (ie_plan e) c) /\
  (forall r, ie_applyResult e = Some r -> exists c, ie_candidate e = Some c /\ ar_observedOid r = rc_candidateOid c) /\
  match s with
  | mi_preparing => ie_applyResult e = None /\ ie_compensationResult e = None
  | mi_prepared | mi_verifying | mi_verified => is_Some (ie_candidate e) /\ ie_applyResult e = None /\ ie_compensationResult e = None
  | mi_applying => is_Some (ie_candidate e) /\ ie_compensationResult e = None
  | mi_applied => is_Some (ie_candidate e) /\ is_Some (ie_applyResult e) /\ ie_compensationResult e = None
  | mi_compensating => is_Some (ie_candidate e)
  | mi_compensated => is_Some (ie_candidate e) /\ (is_Some (ie_applyResult e) -> is_Some (ie_compensationResult e))
  | mi_recovery_required => True
  end.

(** Verification is durable from [verified] on, and for this transaction. *)
Definition verification_fits p : Prop :=
  match mi_state p with
  | mi_preparing | mi_prepared | mi_verifying => mi_verification p = None
  | mi_recovery_required => True
  | _ => exists r, mi_verification p = Some r /\ cr_transactionId r = mi_transactionId p /\ cr_repositorySetId r = mi_repositorySetId p
  end.

Record integration_wf p : Prop := {
  wf_plan : List.map ie_plan (mi_entries p) = il_entries (mi_plan p);
  wf_set : mi_repositorySetId p = il_repositorySetId (mi_plan p);
  wf_entries : Forall (entry_fits (mi_state p)) (mi_entries p);
  wf_verification : verification_fits p;
  wf_partial : mi_state p = mi_compensating \/ mi_state p = mi_compensated -> exists e, e ∈ mi_entries p /\ is_Some (ie_applyResult e)
}.


(** * Every event keeps it *)

Lemma fits_to s s' l :
  Forall (entry_fits s) l -> (forall e, e ∈ l -> entry_fits s e -> entry_fits s' e) -> Forall (entry_fits s') l.
Proof. rewrite !Forall_forall. auto. Qed.

Lemma transition_plans p body part : transition p body part -> List.map ie_plan (part_entries part) = List.map ie_plan (mi_entries p).
Proof.
  destruct 1 as [id c l _ [Hr _]| | | | |id r l _ [Hr _]| |id r l _ [Hr _]| | |]; try done; cbn; (eapply replaced_map; [exact Hr|]).
  - by intros x y [-> _]%record_candidate_Ok.
  - by intros x y [-> _]%record_applied_Ok.
  - by intros x y ->%record_compensated_Ok.
Qed.

Lemma transition_entries p body part :
  Forall (entry_fits (mi_state p)) (mi_entries p) -> transition p body part -> Forall (entry_fits (part_state part)) (part_entries part).
Proof.
  intros Hp. destruct 1 as [id c l Hs [Hr _]|Hs Hf|Hs|receipt Hs _ _|Hs _|id r l Hs [Hr _]|reason Hs _|id r l Hs [Hr _]|Hs Hf|Hs Hf|reason id oid _ _];
    cbn; rewrite ?Hs in *.
  - eapply replaced_Forall; [exact Hr| |exact Hp]. intros x y (Hc & Ha & Hx & Hy) (-> & Hfit)%record_candidate_Ok.
    split; [by intros ? [= <-]|]. split; [|done]. cbn. rewrite Hx. done.
  - rewrite Forall_forall in Hf. eapply fits_to; [exact Hp|]. intros x Hx Hfits. specialize (Hf x Hx). unfold entry_fits in *. tauto.
  - done.
  - done.
  - eapply fits_to; [exact Hp|]. intros x Hx Hfits. unfold entry_fits in *. tauto.
  - eapply replaced_Forall; [exact Hr| |exact Hp]. intros x y (Hc & Ha & Hx & Hy) (-> & Hfit)%record_applied_Ok.
    split; [done|]. split; [|done]. by intros ? [= <-].
  - eapply fits_to; [exact Hp|]. intros x Hx Hfits. unfold entry_fits in *. tauto.
  - eapply replaced_Forall; [exact Hr| |exact Hp]. intros x y (Hc & Ha & Hx) ->%record_compensated_Ok. split; [done|]. split; done.
  - rewrite Forall_forall in Hf. eapply fits_to; [exact Hp|]. intros x Hx Hfits. specialize (Hf x Hx). unfold entry_fits in *. tauto.
  - rewrite Forall_forall in Hf. eapply fits_to; [exact Hp|]. intros x Hx Hfits. specialize (Hf x Hx). unfold entry_fits in *. tauto.
  - eapply fits_to; [exact Hp|]. intros x Hx Hfits. unfold entry_fits in *. tauto.
Qed.

Lemma mapped_partial (l l' : list MultiRepoIntegrationEntryProjectionV1) :
  List.map ie_applyResult l' = List.map ie_applyResult l -> (exists e, e ∈ l /\ is_Some (ie_applyResult e)) -> exists e, e ∈ l' /\ is_Some (ie_applyResult e).
Proof.
  intros E (e & He & Ha). apply list_elem_of_In, (in_map ie_applyResult) in He. rewrite <-E in He.
  apply in_map_iff in He as (e' & He' & Hin). exists e'. rewrite list_elem_of_In, He'. by split.
Qed.

Lemma transition_partial p body part :
  (mi_state p = mi_compensating \/ mi_state p = mi_compensated -> exists e, e ∈ mi_entries p /\ is_Some (ie_applyResult e)) ->
  transition p body part ->
  part_state part = mi_compensating \/ part_state part = mi_compensated -> exists e, e ∈ part_entries part /\ is_Some (ie_applyResult e).
Proof.
  intros Hp. destruct 1 as [id c l Hs _|Hs _|Hs|receipt Hs _ _|Hs _|id r l Hs _|reason Hs He|id r l Hs [Hr _]|Hs _|Hs _|reason id oid _ _];
    cbn; rewrite ?Hs in *; intros Hx; try (by destruct Hx); try done; try (apply Hp; by left).
  eapply mapped_partial; [|apply Hp; by left]. eapply replaced_map; [exact Hr|]. by intros x y ->%record_compensated_Ok.
Qed.

Lemma transition_verification p e part :
  verification_fits p -> transition p (iv_body e) part -> verification_fits (advance_integration p e part).
Proof.
  unfold verification_fits. intros Hp. destruct 1 as [id c l Hs _|Hs _|Hs|receipt Hs H1 H2|Hs _|id r l Hs _|reason Hs He|id r l Hs _|Hs _|Hs _|reason id oid _ _];
    cbn; rewrite ?Hs in *; try done. by exists receipt.
Qed.

Lemma transition_wf p e part : integration_wf p -> transition p (iv_body e) part -> integration_wf (advance_integration p e part).
Proof.
  intros [H1 H2 H3 H4 H5] Ht. split; cbn.
  - by rewrite (transition_plans _ _ _ Ht).
  - done.
  - by apply (transition_entries p (iv_body e)).
  - by apply transition_verification.
  - by apply (transition_partial p (iv_body e)).
Qed.

Lemma apply_integration_wf p e p' : integration_wf p -> applyMultiRepoIntegrationEvent (Some p) e = Ok p' -> integration_wf p'.
Proof. intros Hp [[-> _]|(part & _ & _ & _ & Ht & ->)]%apply_Some_Ok; [done|]. by apply transition_wf. Qed.

Lemma created_wf e plan : integration_wf (created_projection e plan).
Proof.
  split; cbn; try done.
  - rewrite map_map. apply map_id.
  - apply Forall_forall. intros x Hx. apply list_elem_of_In, in_map_iff in Hx as (y & <- & _). by repeat split.
  - by intros [[=]|[=]].
Qed.

Lemma apply_None_Ok e p : applyMultiRepoIntegrationEvent None e = Ok p <->
  exists plan, iv_body e = integration_created plan /\ iv_expectedVersion e = 0 /\ p = created_projection e plan.
Proof.
  cbn. split.
  - destruct (iv_body e) as [plan| | | | | | | | | | |]; try done. intros H. run. guards. by exists plan.
  - intros (plan & -> & -> & ->). done.
Qed.

(** An ended transaction does not change, but for the reason of a recovery. *)
Lemma ended_integration p e p' :
  terminal (mi_state p) = true -> applyMultiRepoIntegrationEvent (Some p) e = Ok p' ->
  p' = p \/ (mi_state p = mi_recovery_required /\ mi_state p' = mi_recovery_required /\ mi_entries p' = mi_entries p /\ mi_verification p' = mi_verification p).
Proof.
  intros Ht [[-> _]|(part & _ & _ & _ & Htr & ->)]%apply_Some_Ok; [by left|right].
  destruct Htr as [? ? ? Hs|Hs|Hs|? Hs|Hs|? ? ? Hs|? Hs|? ? ? Hs|Hs|Hs|? ? ? H1 H2]; try (by rewrite Hs in Ht).
  destruct (mi_state p); done.
Qed.

(** The histories the reducer accepts. *)
Definition integration_history (events : list MultiRepoIntegrationEventV1) p : Prop := reduceMultiRepoIntegrationEvents events = Ok p.

Lemma integration_history_wf events p : integration_history events p -> integration_wf p.
Proof.
  unfold integration_history, reduceMultiRepoIntegrationEvents. intros (o & Ho & Hp)%bind_Ok.
  assert (forall q, o = Some q -> integration_wf q) as Hw; [|destruct o as [q|]; [injection Hp as <-; by apply Hw|done]].
  clear Hp. revert Ho. apply (fold_result_ind _ (fun o => forall q, o = Some q -> integration_wf q)); [done|].
  intros x e x' _ Hx (q & Hq & [= <-])%bind_Ok q' [= <-]. destruct x as [x|].
  - by eapply apply_integration_wf; [apply Hx|].
  - apply apply_None_Ok in Hq as (plan & _ & _ & ->). apply created_wf.
Qed.
End facts.
