(* ===== verification/IntegrationDriver.v ===== *)
(** IntegrationDriver: what one call of the driver of an integration transaction
    does to the refs, and which event it returns. *)
From S2P Require Import Prelude Text Json Ids ScmTypes Domain Effects Lists GitTransaction Verification Integration.

(** The interfaces around the driver leave refs alone: the verifier runs
    contained, and observing, leases and the clock have no business with git. *)
Class Contained {W} `{VerificationHost W} `{IntegrationHost W} (refs : refs_of W) : Prop := {
  observe_contained entry : keeps (same_refs refs) (observe entry);
  executor_contained request : keeps (same_refs refs) (executor_run request);
  authority_contained ids : keeps (same_refs refs) (assertHeld ids);
  clock_contained w : same_refs refs w (verifiedAt w).1
}.

Section driver.
Context {D : Digest} {C : Collation}.
Context {W : Type} `{GitHost W} `{VerificationHost W} `{IntegrationHost W}.
Context (apart : text -> text -> Prop) (refs : refs_of W) `{!GitRefs apart refs} `{!Contained refs}.
Implicit Types (p : MultiRepoIntegrationProjectionV1) (e : MultiRepoIntegrationEntryProjectionV1) (w : W).
Abbreviation looks := (keeps (same_refs refs)).

Lemma executeCombinedVerification_looks plan environment : looks (executeCombinedVerification plan environment).
Proof.
  assert (forall entries, looks (observe_exact entries)) as Ho.
  { induction entries as [|x l IH]; cbn; [apply keeps_ret, _|]. apply keeps_bind; [apply _|apply keeps_under, observe_contained|].
    intros v. destruct (exactObservation x v); [done|apply keeps_ret, _]. }
  assert (forall commands index results, looks (run_commands plan environment index commands results)) as Hr.
  { induction commands as [|c l IH]; intros index results; cbn; [apply keeps_ret, _|]. apply keeps_bind; [apply _|apply keeps_under, executor_contained|].
    intros v. destruct (negb _); [apply keeps_ret, _|]. destruct (_ || _); [apply keeps_ret, _|]. destruct (_ || _); [apply keeps_ret, _|apply IH]. }
  unfold executeCombinedVerification. do 2 (apply keeps_bind; [apply _|apply keeps_of, _|intros ?]).
  apply keeps_bind; [apply _|apply Ho|intros [|]; cbn; [|apply keeps_ret, _]]. apply keeps_bind; [apply _|apply Hr|intros [all [[? ?]|]]; [apply keeps_ret, _|]].
  apply keeps_bind; [apply _|apply Ho|intros []; apply keeps_ret, _].
Qed.

(** * Entries and their refs *)

Definition entry_root e : text := ri_canonicalRoot (ip_repository (ie_plan e)).
Definition entry_ref e : text := ip_targetRef (ie_plan e).
Definition ref_of w e : option string := refs w (entry_root e) (entry_ref e).

(** Made by [prepareRepositoryCandidate]. *)
Definition candidate_made (c : RepositoryCandidateV1) : Prop :=
  gitOid (rc_candidateOid c) = true /\ gitOid (rc_treeOid c) = true /\ rc_candidateOid c <> rc_expectedOid c.

(** A projection the driver works on. *)
Record driven p : Prop := {
  driven_wf : integration_wf p;
  driven_plan : validatePlan (mi_plan p) = Ok (mi_plan p);
  driven_transaction : mi_transactionId p = il_transactionId (mi_plan p);
  driven_made : Forall (fun e => forall c, ie_candidate e = Some c -> candidate_made c) (mi_entries p)
}.

Lemma driven_ids p : driven p -> NoDup (List.map entry_id (mi_entries p)).
Proof.
  intros [Hwf Hp _ _]. unfold validatePlan in Hp. run. guards. unfold unique in *. guards.
  match goal with Hn : NoDup (plan_ids _) |- _ => revert Hn end. unfold plan_ids. rewrite <-(wf_plan _ Hwf), map_map. done.
Qed.

Lemma driven_entry p e : driven p -> e ∈ mi_entries p -> entry_fits (mi_state p) e /\ forall c, ie_candidate e = Some c -> candidate_made c.
Proof. intros [Hwf _ _ Hm] He. pose proof (wf_entries _ Hwf) as Hf. rewrite Forall_forall in Hf, Hm. split; [by apply Hf|by apply Hm]. Qed.

(** * What a call may move *)

(** The entry whose ref the driver acts on. *)
Definition focus p : option MultiRepoIntegrationEntryProjectionV1 :=
  match mi_state p with
  | mi_applying => List.find (fun e => lacks (ie_applyResult e)) (mi_entries p)
  | mi_compensating => List.find (fun e => has (ie_applyResult e) && lacks (ie_compensationResult e)) (rev (mi_entries p))
  | _ => None
  end.

(** Where the ref of the entry goes from and to. *)
Definition swing p (c : RepositoryCandidateV1) : string * string :=
  if in_state mi_applying p then (rc_expectedOid c, rc_candidateOid c) else (rc_candidateOid c, rc_expectedOid c).

Definition touches p w w' : Prop :=
  match focus p with
  | Some e => exists c, ie_candidate e = Some c /\ moved_at_most apart refs (entry_root e) (entry_ref e) (swing p c).1 (swing p c).2 w w'
  | None => same_refs refs w w'
  end.

Lemma same_touches p w w' : driven p -> same_refs refs w w' -> touches p w w'.
Proof.
  intros Hd Hw. unfold touches. destruct (focus p) as [e|] eqn:Ef; [|done].
  assert (is_Some (ie_candidate e)) as [c Hc]; [|exists c; split; [done|by apply same_moved_at_most]].
  unfold focus in Ef. destruct (mi_state p) eqn:Es; try done.
  - apply find_some in Ef as [Hin%list_elem_of_In _]. destruct (driven_entry _ _ Hd Hin) as [(_ & _ & Hs) _]. rewrite Es in Hs. apply Hs.
  - apply find_some in Ef as [Hin%in_rev%list_elem_of_In _]. destruct (driven_entry _ _ Hd Hin) as [(_ & _ & Hs) _]. by rewrite Es in Hs.
Qed.

(** * The event of a call *)

(** What the driver says of its event, given the worlds before and after. *)
Inductive drives p w w' : IntegrationBody -> Prop :=
| drives_candidate e c : mi_state p = mi_preparing -> e ∈ mi_entries p -> ie_candidate e = None -> candidate_fits (ie_plan e) c -> candidate_made c ->
    ref_of w' e = Some (rc_expectedOid c) -> drives p w w' (integration_candidate_prepared (entry_id e) c)
| drives_prepared : mi_state p = mi_preparing -> Forall (fun e => is_Some (ie_candidate e)) (mi_entries p) -> drives p w w' integration_prepared
| drives_verification_started : mi_state p = mi_prepared -> drives p w w' integration_verification_started
| drives_verified receipt : mi_state p = mi_verifying -> cr_transactionId receipt = mi_transactionId p -> cr_repositorySetId receipt = mi_repositorySetId p ->
    drives p w w' (integration_verified receipt)
| drives_applying_started : mi_state p = mi_verified -> drives p w w' integration_applying_started
| drives_entry_applied e c st : mi_state p = mi_applying -> focus p = Some e -> ie_candidate e = Some c -> ref_of w' e = Some (rc_candidateOid c) ->
    drives p w w' (integration_entry_applied (entry_id e) {| ar_state := st; ar_observedOid := rc_candidateOid c |})
| drives_compensation_started e c reason : mi_state p = mi_applying -> focus p = Some e -> ie_candidate e = Some c -> ref_of w' e <> Some (rc_candidateOid c) ->
    (exists x, x ∈ mi_entries p /\ is_Some (ie_applyResult x)) -> drives p w w' (integration_compensation_started reason)
| drives_applied : mi_state p = mi_applying -> focus p = None -> drives p w w' integration_applied
| drives_entry_compensated e c st : mi_state p = mi_compensating -> focus p = Some e -> ie_candidate e = Some c -> ref_of w' e = Some (rc_expectedOid c) ->
    drives p w w' (integration_entry_compensated (entry_id e) {| ur_state := st; ur_observedOid := rc_expectedOid c |})
| drives_compensated : mi_state p = mi_compensating -> focus p = None -> drives p w w' integration_compensated
| drives_recovery reason id oid : terminal (mi_state p) = false -> drives p w w' (integration_recovery_required reason id oid).

(** The event is [base] with this body. *)
Definition driven_event p w w' (event : MultiRepoIntegrationEventV1) : Prop := exists action body, event = base p action body /\ drives p w w' body.

(** What the driver throws: never a verification error, never for want of a candidate. *)
Definition driver_throws (t : IntegrationThrow) : Prop :=
  match t with it_integration MI_AUTHORITY_MISSING | it_git _ | it_receipt => True | _ => False end.

Definition drove p w w' (r : result IntegrationThrow MultiRepoIntegrationEventV1) : Prop :=
  touches p w w' /\ match r with Ok event => driven_event p w w' event | Err t => driver_throws t end.

Lemma drove_event p w w' action body : touches p w w' -> drives p w w' body -> drove p w w' (Ok (base p action body)).
Proof using. intros Ht Hd. split; [done|]. by exists action, body. Qed.

Lemma drove_recovery p w w' reason id oid : terminal (mi_state p) = false -> touches p w w' -> drove p w w' (Ok (recoveryEvent p reason id oid)).
Proof using. intros Hs Ht. apply drove_event; [done|]. by constructor. Qed.

Lemma drive_preparing_spec p w : driven p -> mi_state p = mi_preparing -> after (drive_preparing p) w (drove p w).
Proof using Type*.
  intros Hd Hs. unfold drive_preparing. destruct (List.find _ _) as [e|] eqn:Ef.
  - apply find_some in Ef as [Hin%list_elem_of_In Hn%lacks_None]. apply after_try.
    eapply after_mono; [apply (prepareRepositoryCandidate_spec apart refs)|]. intros w' [c|t] [Hw Hr].
    + destruct Hr as (E1 & E2 & E3 & E4 & _ & Ho & Hne & Href). apply drove_event; [by apply same_touches|].
      cbn in Ho. guards. constructor; try done. unfold ref_of, entry_ref. cbn in E2. by rewrite <-E2.
    + apply drove_recovery; [by rewrite Hs|by apply same_touches].
  - apply drove_event; [by apply same_touches|]. apply find_None in Ef. apply drives_prepared; [done|].
    eapply Forall_impl; [exact Ef|]. cbn. intros e. rewrite lacks_has, negb_false_iff. apply has_is_Some.
Qed.

Lemma candidate_entries_Ok p :
  driven p -> mi_state p = mi_verifying ->
  exists candidates plan, map_result candidate_entry (mi_entries p) = Ok candidates /\
    materializeCombinedVerificationPlan (verification_input p candidates) = Ok plan /\
    vp_transactionId plan = mi_transactionId p /\ vp_repositorySetId plan = mi_repositorySetId p.
Proof using Type*.
  intros Hd Hs. pose proof (driven_plan _ Hd) as Hv. unfold validatePlan in Hv. run.
  assert (exists candidates, map_result candidate_entry (mi_entries p) = Ok candidates /\
    Forall2 same_but_candidate (List.map planned_entry (List.map ie_plan (mi_entries p))) candidates) as (candidates & Hc & Hsame).
  { assert (Forall (fun e => entry_fits mi_verifying e /\ forall c, ie_candidate e = Some c -> candidate_made c) (mi_entries p)) as Hf
      by (rewrite Forall_forall; intros e He; rewrite <-Hs; by apply driven_entry).
    clear -Hf. induction Hf as [|e l [(Hfit & _ & [c Hc] & _) Hm] _ IH]; [by exists []|]. destruct IH as (cs & Hcs & Hsame).
    destruct (Hfit _ Hc) as (E1 & E2 & E3 & E4), (Hm _ Hc) as (O1 & O2 & _).
    assert (exists x, candidate_entry e = Ok x /\ same_but_candidate (planned_entry (ie_plan e)) x) as (x & Hx & Hsx)
      by (unfold candidate_entry; rewrite Hc; eexists; by repeat split).
    exists (x :: cs). split; [cbn; by rewrite Hx, Hcs|by constructor]. }
  rewrite (wf_plan _ (driven_wf _ Hd)) in Hsame. edestruct (materialize_candidates (planned_input (mi_plan p)) candidates) as [plan Hplan]; [exact Hrun1|exact Hsame|].
  exists candidates, plan. split; [done|]. 
  assert (verification_input p candidates = {| vi_transactionId := vi_transactionId (planned_input (mi_plan p)); vi_repositorySetId := vi_repositorySetId (planned_input (mi_plan p));
    vi_entries := candidates; vi_commands := vi_commands (planned_input (mi_plan p)); vi_environment := vi_environment (planned_input (mi_plan p)) |}) as ->.
  { unfold verification_input. cbn. by rewrite (driven_transaction _ Hd), (wf_set _ (driven_wf _ Hd)). }
  split; [done|]. apply materialize_Ok in Hplan as (E1 & E2 & _). rewrite E1, E2. cbn.
  by rewrite (driven_transaction _ Hd), (wf_set _ (driven_wf _ Hd)).
Qed.

Lemma drive_verifying_spec p w : driven p -> mi_state p = mi_verifying -> after (drive_verifying p) w (drove p w).
Proof using Type*.
  intros Hd Hs. destruct (candidate_entries_Ok _ Hd Hs) as (candidates & plan & Hc & Hp & E1 & E2). unfold drive_verifying.
  apply after_bind. rewrite Hc. apply after_of. apply after_bind. rewrite Hp. apply after_of. apply after_try.
  eapply after_mono; [apply (after_and _ _ _ _ (executeCombinedVerification_looks _ _ w) (executeCombinedVerification_spec plan _ w))|].
  intros w1 [o|t] [Hw Ho]; [|apply drove_recovery; [by rewrite Hs|by apply same_touches]].
  destruct (co_state o) eqn:Eo; [|apply drove_recovery; [by rewrite Hs|by apply same_touches]..].
  apply after_bind. unfold after at 1. pose proof (clock_contained (refs:=refs) w1) as Hclock. destruct (verifiedAt w1) as [w2 at_]. cbn.
  assert (same_refs refs w w2) as Hw2 by by etransitivity. apply after_bind, after_of.
  destruct (createCombinedVerificationReceipt o at_) as [receipt|t] eqn:Er; cbn; [|by split; [apply same_touches|]].
  apply drove_event; [by apply same_touches|]. apply createCombinedVerificationReceipt_Ok in Er as (_ & _ & _ & E3 & E4 & _).
  destruct Ho as [Ho _]. rewrite Ho in E3, E4. constructor; [done|congruence..].
Qed.

Lemma focus_entry p e : focus p = Some e -> e ∈ mi_entries p.
Proof using.
  unfold focus. destruct (mi_state p); try done.
  - by intros [Hin%list_elem_of_In _]%find_some.
  - by intros [Hin%in_rev%list_elem_of_In _]%find_some.
Qed.

Lemma entry_refs_candidate p e c : driven p -> e ∈ mi_entries p -> ie_candidate e = Some c -> rc_targetRef c = entry_ref e.
Proof using. intros Hd He Hc. destruct (driven_entry _ _ Hd He) as [[Hf _] _]. by destruct (Hf _ Hc) as (_ & ? & _). Qed.

Lemma drive_applying_spec p w : driven p -> mi_state p = mi_applying -> after (drive_applying p) w (drove p w).
Proof using Type*.
  intros Hd Hs. unfold drive_applying.
  assert (focus p = List.find (fun e => lacks (ie_applyResult e)) (mi_entries p)) as Ef by (unfold focus; by rewrite Hs). rewrite <-Ef. clear Ef.
  destruct (focus p) as [e|] eqn:Ef; [|apply drove_event; [by apply same_touches|by constructor]]. pose proof (focus_entry _ _ Ef) as Hin.
  assert (is_Some (ie_candidate e)) as [c Hc] by (destruct (driven_entry _ _ Hd Hin) as [(_ & _ & Hx) _]; rewrite Hs in Hx; apply Hx).
  pose proof (entry_refs_candidate _ _ _ Hd Hin Hc) as Eref.
  rewrite Hc. apply after_bind, after_of, after_bind, after_under. eapply after_mono; [apply (applyRepositoryCandidate_spec apart refs)|].
  intros w' r [Hm Hr]. rewrite Eref in Hm, Hr.
  assert (touches p w w') as Ht. { unfold touches. rewrite Ef. exists c. split; [done|]. unfold swing, in_state. by rewrite bool_decide_eq_true_2. }
  assert (terminal (mi_state p) = false) as Hterm by by rewrite Hs.
  destruct r as [[oid|oid|oid|reason oid]|t]; cbn; [..|done].
  - destruct Hr as [-> Hr]. apply drove_event; [done|]. by apply drives_entry_applied with (c := c).
  - destruct Hr as (-> & Hr & _). apply drove_event; [done|]. by apply drives_entry_applied with (c := c).
  - destruct Hr as (Hr & Hne & _). destruct (existsb _ _) eqn:Ex; [|by apply drove_recovery].
    apply drove_event; [done|]. apply (some_has ie_applyResult) in Ex. apply drives_compensation_started with (e := e) (c := c); try done.
    change (refs w' (ri_canonicalRoot (ip_repository (ie_plan e))) (entry_ref e) <> Some (rc_candidateOid c)). by rewrite Hr.
  - by apply drove_recovery.
Qed.

Lemma drive_compensating_spec p w : driven p -> mi_state p = mi_compensating -> after (drive_compensating p) w (drove p w).
Proof using Type*.
  intros Hd Hs. unfold drive_compensating.
  assert (focus p = List.find (fun e => has (ie_applyResult e) && lacks (ie_compensationResult e)) (rev (mi_entries p))) as Ef by (unfold focus; by rewrite Hs).
  rewrite <-Ef. clear Ef.
  destruct (focus p) as [e|] eqn:Ef; [|apply drove_event; [by apply same_touches|by constructor]]. pose proof (focus_entry _ _ Ef) as Hin.
  assert (is_Some (ie_candidate e)) as [c Hc] by (destruct (driven_entry _ _ Hd Hin) as [(_ & _ & Hx) _]; by rewrite Hs in Hx).
  pose proof (entry_refs_candidate _ _ _ Hd Hin Hc) as Eref.
  rewrite Hc. apply after_bind, after_of, after_bind, after_under. eapply after_mono; [apply (compensateRepositoryCandidate_spec apart refs)|].
  intros w' r [Hm Hr]. rewrite Eref in Hm, Hr.
  assert (touches p w w') as Ht. { unfold touches. rewrite Ef. exists c. split; [done|]. unfold swing, in_state. by rewrite bool_decide_eq_false_2 by (by rewrite Hs). }
  assert (terminal (mi_state p) = false) as Hterm by by rewrite Hs.
  destruct r as [[oid|oid|oid|reason oid]|t]; cbn; [..|done].
  - destruct Hr as [-> Hr]. apply drove_event; [done|]. by apply drives_entry_compensated with (c := c).
  - destruct Hr as (-> & Hr & _). apply drove_event; [done|]. by apply drives_entry_compensated with (c := c).
  - by apply drove_recovery.
  - by apply drove_recovery.
Qed.

Definition reconciled p w w' (r : result IntegrationThrow (option MultiRepoIntegrationEventV1)) : Prop :=
  touches p w w' /\
  match r with
  | Ok (Some event) => driven_event p w w' event
  | Ok None => terminal (mi_state p) = true
  | Err t => driver_throws t
  end.

(** Leases and events lead from [w1]; nothing moved before. *)
Lemma touches_from p w w1 w' : same_refs refs w w1 -> touches p w1 w' -> touches p w w'.
Proof using Type*.
  unfold touches. intros Hw. destruct (focus p) as [e|]; [|by etransitivity]. intros (c & Hc & Hm). exists c. split; [done|].
  by eapply moved_after.
Qed.

Lemma drives_from p w w1 w' body : drives p w1 w' body -> drives p w w' body.
Proof using. destruct 1; econstructor; eassumption. Qed.

Lemma reconcile_spec p w : driven p -> after (reconcileMultiRepoIntegrationOnce p) w (reconciled p w).
Proof using Type*.
  intros Hd. unfold reconcileMultiRepoIntegrationOnce. destruct (terminal (mi_state p)) eqn:Et; [by split; [apply same_touches|]|].
  apply after_bind, after_under. eapply after_mono; [apply authority_contained|]. intros w1 [[]|t] Hw1; cbn; [|by split; [apply same_touches|]].
  assert (forall (c : effect W IntegrationThrow MultiRepoIntegrationEventV1), after c w1 (drove p w1) ->
    after (e ← c; mret (Some e)) w1 (reconciled p w)) as Hdrove.
  { intros c Hc. apply after_bind. eapply after_mono; [exact Hc|]. intros w' [event|t] [Ht Hr].
    - split; [by eapply touches_from|]. destruct Hr as (action & body & -> & Hb). exists action, body. split; [done|by eapply drives_from].
    - split; [by eapply touches_from|done]. }
  assert (forall action body, drives p w w1 body -> after (mret (Some (base p action body))) w1 (reconciled p w)) as Hret.
  { intros action body Hb. split; [by apply same_touches|]. by exists action, body. }
  destruct (mi_state p) eqn:Hs; cbn in Et; try done.
  - by apply Hdrove, drive_preparing_spec.
  - by apply Hret, drives_verification_started.
  - by apply Hdrove, drive_verifying_spec.
  - by apply Hret, drives_applying_started.
  - by apply Hdrove, drive_applying_spec.
  - by apply Hdrove, drive_compensating_spec.
Qed.
End driver.
