(* ===== verification/IntegrationSaga.v ===== *)
(** IntegrationSaga: an integration as a machine of driver calls, durable events,
    lost calls and other writers, what it leaves in the repositories, and the
    measure by which its loop ends. *)
From S2P Require Import Prelude Text Json Ids ScmTypes Domain Effects Lists GitTransaction Verification Integration IntegrationDriver.

Section saga.
Context {D : Digest} {C : Collation}.
Context {W : Type} `{GitHost W} `{VerificationHost W} `{IntegrationHost W}.
Context (apart : text -> text -> Prop) (refs : refs_of W) `{!GitRefs apart refs} `{!Contained refs}.
Implicit Types (p : MultiRepoIntegrationProjectionV1) (e x : MultiRepoIntegrationEntryProjectionV1) (w : W).
Abbreviation ref_of := (ref_of refs).
Abbreviation drives := (drives refs).
Abbreviation touches := (touches apart refs).

(** * The driver's events are taken *)

Lemma drives_transition p w w' body : driven p -> drives p w w' body -> exists part, transition p body part.
Proof using.
  intros Hd. pose proof (driven_ids _ Hd) as Hn. destruct 1 as [e c Hs He Hnone Hfit _ _|Hs Hf|Hs|receipt Hs H1' H2'|Hs|e c st Hs Ef Hc _|e c reason Hs Ef Hc _ Hx|Hs Ef|e c st Hs Ef Hc _|Hs Ef|reason id oid Ht].
  - edestruct (replaces_one entry_id (mi_entries p) e (entry_with (Some c) (ie_applyResult e) (ie_compensationResult e) e) (record_candidate c)) as [l Hl]; [done..| |].
    + unfold record_candidate. rewrite Hnone. destruct Hfit as (-> & -> & -> & ->). by rewrite !bool_decide_eq_true_2.
    + eexists. by apply tr_candidate.
  - eexists. by apply tr_prepared.
  - eexists. by apply tr_verification_started.
  - eexists. by apply tr_verified.
  - eexists. apply tr_applying_started; [done|]. pose proof (wf_verification _ (driven_wf _ Hd)) as Hv. unfold verification_fits in Hv. rewrite Hs in Hv.
    destruct Hv as (r & -> & _). by eexists.
  - edestruct (replaces_one (E:=MultiRepoIntegrationErrorCode) entry_id (mi_entries p) e) with (update := record_applied {| ar_state := st; ar_observedOid := rc_candidateOid c |}) as [l Hl];
      [done|by eapply focus_entry| |eexists; by apply tr_entry_applied].
    unfold record_applied. rewrite Hc. cbn. by rewrite bool_decide_eq_true_2.
  - eexists. by apply tr_compensation_started.
  - eexists. apply tr_applied; [done|]. unfold focus in Ef. rewrite Hs in Ef. apply find_None in Ef. eapply Forall_impl; [exact Ef|]. cbn.
    intros x. rewrite lacks_has, negb_false_iff. apply has_is_Some.
  - edestruct (replaces_one (E:=MultiRepoIntegrationErrorCode) entry_id (mi_entries p) e) with (update := record_compensated {| ur_state := st; ur_observedOid := rc_expectedOid c |}) as [l Hl];
      [done|by eapply focus_entry|done|eexists; by apply tr_entry_compensated].
  - eexists. apply tr_compensated; [done|]. apply (none_pending ie_applyResult ie_compensationResult). unfold focus in Ef. rewrite Hs in Ef.
    apply negb_true_iff, existsb_false, Forall_forall. intros x Hx%list_elem_of_In%in_rev. by apply (find_none _ _ Ef).
  - eexists. apply tr_recovery; intros Hs; by rewrite Hs in Ht.
Qed.

(** An accepted event of the driver leaves a projection the driver works on. *)
Lemma drives_driven p w w' event part :
  driven p -> drives p w w' (iv_body event) -> transition p (iv_body event) part -> driven (advance_integration p event part).
Proof using.
  intros Hd Hdr Ht. split.
  - apply transition_wf; [by apply driven_wf|done].
  - by apply (driven_plan p).
  - by apply (driven_transaction p).
  - pose proof (driven_made _ Hd) as Hm. destruct Ht as [id c l _ [Hr _]| | | | |id r l _ [Hr _]| |id r l _ [Hr _]| | |]; try done; cbn;
      (eapply replaced_Forall; [exact Hr| |exact Hm]).
    + intros x y Hx [-> _]%record_candidate_Ok c' [= <-]. by inversion Hdr.
    + by intros x y Hx [-> _]%record_applied_Ok.
    + by intros x y Hx ->%record_compensated_Ok.
Qed.

(** * The invariant *)

Definition at_candidate w x : Prop := exists c, ie_candidate x = Some c /\ ref_of w x = Some (rc_candidateOid c).
Definition clear_of_candidate w x : Prop := forall c, ie_candidate x = Some c -> ref_of w x <> Some (rc_candidateOid c).

Definition entry_inv w p x : Prop :=
  match mi_state p with
  | mi_preparing | mi_prepared | mi_verifying | mi_verified => clear_of_candidate w x
  | mi_applying => (is_Some (ie_applyResult x) -> at_candidate w x) /\ (ie_applyResult x = None -> focus p = Some x \/ clear_of_candidate w x)
  | mi_applied => at_candidate w x
  | mi_compensating | mi_compensated =>
      (ie_applyResult x = None -> clear_of_candidate w x) /\
      (is_Some (ie_compensationResult x) -> is_Some (ie_applyResult x) /\ ref_of w x = Some (ip_expectedOid (ie_plan x)))
  | mi_recovery_required => True
  end.

Definition saga_inv w p : Prop := forall x, x ∈ mi_entries p -> entry_inv w p x.

(** Repositories of different entries share no refs. *)
Definition separate (plan : MultiRepoIntegrationPlanV1) : Prop :=
  forall a b, a ∈ il_entries plan -> b ∈ il_entries plan -> ri_repositoryId (ip_repository a) <> ri_repositoryId (ip_repository b) ->
    apart (ri_canonicalRoot (ip_repository a)) (ri_canonicalRoot (ip_repository b)).

(** Other writers never move a ref onto or off the candidate of its entry, and
    leave the ref of an entry alone once it was applied. *)
Definition others p w w' : Prop := forall x, x ∈ mi_entries p ->
  (forall c, ie_candidate x = Some c -> ref_of w' x = Some (rc_candidateOid c) <-> ref_of w x = Some (rc_candidateOid c)) /\
  (is_Some (ie_applyResult x) -> ref_of w' x = ref_of w x).

Lemma entry_inv_ref w w' p x :
  ref_of w' x = ref_of w x -> entry_inv w p x -> entry_inv w' p x.
Proof using. unfold entry_inv, at_candidate, clear_of_candidate. by intros ->. Qed.

Lemma same_inv w w' p : same_refs refs w w' -> saga_inv w p -> saga_inv w' p.
Proof using. intros Hw Hp x Hx. eapply entry_inv_ref; [apply Hw|by apply Hp]. Qed.

Lemma others_inv w w' p : others p w w' -> saga_inv w p -> saga_inv w' p.
Proof using.
  intros Ho Hp x Hx. specialize (Hp x Hx). destruct (Ho x Hx) as [Hc Ha]. unfold entry_inv in *.
  assert (at_candidate w x -> at_candidate w' x) as H1'. { intros (c & Ec & Er). exists c. split; [done|]. by apply Hc. }
  assert (clear_of_candidate w x -> clear_of_candidate w' x) as H2'. { intros Hf c Ec Er. apply (Hf c Ec). by apply Hc. }
  destruct (mi_state p); try tauto.
  - destruct Hp as [Hp1 Hp2]. split; [tauto|]. intros [Hx' Hr]%Hp2. split; [done|]. by rewrite Ha.
  - destruct Hp as [Hp1 Hp2]. split; [tauto|]. intros [Hx' Hr]%Hp2. split; [done|]. by rewrite Ha.
Qed.

(** A call moves the ref of the entry in focus only. *)
Lemma touches_elsewhere p w w' x :
  driven p -> separate (mi_plan p) -> touches p w w' -> x ∈ mi_entries p -> focus p <> Some x -> ref_of w' x = ref_of w x.
Proof using.
  intros Hd Hsep Ht Hx Hne. unfold IntegrationDriver.touches in Ht. destruct (focus p) as [e|] eqn:Ef; [|apply Ht].
  destruct Ht as (c & _ & Hm & _). apply Hm. left. pose proof (focus_entry _ _ Ef) as He. pose proof (wf_plan _ (driven_wf _ Hd)) as Hpl.
  apply Hsep.
  - rewrite <-Hpl. by apply list_elem_of_In, in_map, list_elem_of_In.
  - rewrite <-Hpl. by apply list_elem_of_In, in_map, list_elem_of_In.
  - intros E. apply Hne. f_equal. by apply (NoDup_map_inj entry_id (mi_entries p)); [by apply driven_ids|..].
Qed.

Lemma focus_dec p x : driven p -> x ∈ mi_entries p -> focus p = Some x \/ focus p <> Some x.
Proof using.
  intros Hd Hx. destruct (focus p) as [e|] eqn:Ef; [|by right]. destruct (decide (entry_id e = entry_id x)) as [E|E]; [left|right; congruence].
  f_equal. apply (NoDup_map_inj entry_id (mi_entries p)); [by apply driven_ids|by apply focus_entry|done|done].
Qed.

Lemma focus_state p e : focus p = Some e ->
  (mi_state p = mi_applying /\ ie_applyResult e = None) \/ (mi_state p = mi_compensating /\ is_Some (ie_applyResult e) /\ ie_compensationResult e = None).
Proof using.
  unfold focus. destruct (mi_state p); try done; intros [_ Hf]%find_some; [left|right; apply andb_true_iff in Hf as [Ha%has_is_Some Hf]].
  - split; [done|]. by apply lacks_None.
  - split; [done|]. split; [done|]. by apply lacks_None.
Qed.

(** Whatever a call did to the refs, the projection before it still fits. *)
Lemma touches_inv w w' p : driven p -> separate (mi_plan p) -> touches p w w' -> saga_inv w p -> saga_inv w' p.
Proof using.
  intros Hd Hsep Ht Hp x Hx. destruct (focus_dec p x Hd Hx) as [Ef|Ef]; [|eapply entry_inv_ref; [by apply (touches_elsewhere p)|by apply Hp]].
  unfold entry_inv. destruct (focus_state _ _ Ef) as [[-> Ea]|(-> & Ea & Ec)].
  - rewrite Ea. split; [by intros [? [=]]|]. by left.
  - rewrite Ec. split; [intros E; rewrite E in Ea; by destruct Ea|by intros [? [=]]].
Qed.

Lemma quiet_same p w w' : focus p = None -> touches p w w' -> same_refs refs w w'.
Proof using. unfold IntegrationDriver.touches. by intros ->. Qed.

Lemma focus_only_moving p : mi_state p <> mi_applying -> mi_state p <> mi_compensating -> focus p = None.
Proof using. unfold focus. by destruct (mi_state p). Qed.

(** A new event. *)
Lemma recorded_inv w w' p event part :
  driven p -> separate (mi_plan p) -> touches p w w' -> drives p w w' (iv_body event) -> transition p (iv_body event) part ->
  saga_inv w p -> saga_inv w' (advance_integration p event part).
Proof using.
  intros Hd Hsep Hto Hdr Ht Hp. pose proof (touches_inv _ _ _ Hd Hsep Hto Hp) as Hp'. pose proof (driven_ids _ Hd) as Hn.
  assert (forall x, x ∈ mi_entries p -> entry_fits (mi_state p) x) as Hfits by (intros x Hx; by apply driven_entry).
  intros y Hy. unfold entry_inv. destruct Ht as [id c l Hs [Hr _]|Hs Hf|Hs|receipt Hs E1 E2|Hs Hv|id r l Hs [Hr _]|reason Hs He|id r l Hs [Hr _]|Hs Hf|Hs Hf|reason id oid E1 E2];
    cbn in Hy |- *; rewrite ?Hs; try (specialize (Hp' y Hy); unfold entry_inv in Hp'; rewrite Hs in Hp').
  - destruct (Forall2_elem_r _ _ _ _ Hr Hy) as (x & Hx & [[Eid (-> & _ & Eref & _)%record_candidate_Ok]|[_ ->]]).
    + inversion Hdr as [e c' _ He Hnone Hfit Hm Href| | | | | | | | | |]; subst. assert (x = e) as -> by (by apply (NoDup_map_inj entry_id (mi_entries p))).
      intros c' [= <-]. change (ref_of w' e <> Some (rc_candidateOid c)). rewrite Href.
      destruct Hm as (_ & _ & Hne). congruence.
    + specialize (Hp' x Hx). unfold entry_inv in Hp'. by rewrite Hs in Hp'.
  - done.
  - done.
  - done.
  - destruct (Hfits y Hy) as (_ & _ & Hy'). rewrite Hs in Hy'. destruct Hy' as (_ & Ha & _). rewrite Ha. split; [by intros [? [=]]|]. by right.
  - inversion Hdr as [| | | | |e c st _ Ef Hc Href| | | | |]; subst. pose proof (focus_entry _ _ Ef) as He.
    destruct (Forall2_elem_r _ _ _ _ Hr Hy) as (x & Hx & [[Eid (-> & _)%record_applied_Ok]|[Eid ->]]).
    + assert (x = e) as -> by (by apply (NoDup_map_inj entry_id (mi_entries p))). split; [|done]. intros _. by exists c.
    + specialize (Hp' x Hx). unfold entry_inv in Hp'. rewrite Hs in Hp'. destruct Hp' as [H1' H2']. split; [done|]. intros Hnone.
      destruct (H2' Hnone) as [Ef'|?]; [congruence|by right].
  - inversion Hdr as [| | | | | |e c r' _ Ef Hc Href _| | | |]; subst. destruct Hp' as [H1' H2'].
    destruct (Hfits y Hy) as (_ & _ & Hy'). rewrite Hs in Hy'. destruct Hy' as [_ Ec]. rewrite Ec. split; [|by intros [? [=]]].
    intros Hnone. destruct (H2' Hnone) as [Ef'|?]; [|done]. rewrite Ef in Ef'. injection Ef' as <-. intros c' Hc'. congruence.
  - inversion Hdr as [| | | | | | | |e c st _ Ef Hc Href| |]; subst. pose proof (focus_entry _ _ Ef) as He.
    destruct (Forall2_elem_r _ _ _ _ Hr Hy) as (x & Hx & [[Eid ->%record_compensated_Ok]|[Eid ->]]).
    + assert (x = e) as -> by (by apply (NoDup_map_inj entry_id (mi_entries p))). destruct (focus_state _ _ Ef) as [[? _]|(_ & Ha & _)]; [congruence|].
      cbn. split; [intros E; rewrite E in Ha; by destruct Ha|]. intros _. split; [done|].
      destruct (Hfits e He) as [Hfit _]. destruct (Hfit _ Hc) as (_ & _ & <- & _). done.
    + specialize (Hp' x Hx). unfold entry_inv in Hp'. by rewrite Hs in Hp'.
  - rewrite Forall_forall in Hf. destruct Hp' as [H1' _]. by apply H1', Hf.
  - done.
  - done.
Qed.

(** * The machine *)

(** A call whose event is appended; a call whose event is lost, or that throws;
    and what other writers do. *)
Inductive saga_step : W * MultiRepoIntegrationProjectionV1 -> W * MultiRepoIntegrationProjectionV1 -> Prop :=
| saga_recorded w w' p p' event : reconcileMultiRepoIntegrationOnce p w = (w', Ok (Some event)) ->
    applyMultiRepoIntegrationEvent (Some p) event = Ok p' -> saga_step (w, p) (w', p')
| saga_lost w w' p r : reconcileMultiRepoIntegrationOnce p w = (w', r) -> saga_step (w, p) (w', p)
| saga_others w w' p : others p w w' -> saga_step (w, p) (w', p).

Record saga_wf (s : W * MultiRepoIntegrationProjectionV1) : Prop := {
  saga_driven : driven s.2;
  saga_separate : separate (mi_plan s.2);
  saga_refs : saga_inv s.1 s.2
}.

Lemma saga_step_wf s s' : saga_wf s -> saga_step s s' -> saga_wf s'.
Proof using Type*.
  intros [Hd Hsep Hi] Hs. destruct Hs as [w w' p p' event Hr Ha|w w' p r Hr|w w' p Ho]; cbn in *.
  - destruct (after_run _ _ _ _ _ (reconcile_spec apart refs p w Hd) Hr) as (Ht & action & body & -> & Hdr).
    apply apply_Some_Ok in Ha as [[-> _]|(part & _ & _ & _ & Htr & ->)].
    + split; [done..|]. by eapply touches_inv.
    + split; cbn; [by eapply drives_driven|done|]. by eapply recorded_inv.
  - destruct (after_run _ _ _ _ _ (reconcile_spec apart refs p w Hd) Hr) as [Ht _]. split; [done..|]. by eapply touches_inv.
  - split; [done..|]. by eapply others_inv.
Qed.

Lemma saga_steps_wf s s' : saga_wf s -> rtc saga_step s s' -> saga_wf s'.
Proof using Type*. intros Hs. induction 1 as [|s s1 s2 Hs1 _ IH]; [done|]. by apply IH, (saga_step_wf s). Qed.

Lemma created_driven plan event p :
  createMultiRepoIntegrationEvent plan = Ok event -> applyMultiRepoIntegrationEvent None event = Ok p -> driven p /\ mi_plan p = plan /\ mi_state p = mi_preparing.
Proof using.
  intros Hc Hp. assert (validatePlan plan = Ok plan /\ p = created_projection event plan /\ iv_transactionId event = il_transactionId plan) as (Hv & -> & Htx).
  { unfold createMultiRepoIntegrationEvent in Hc. apply bind_Ok in Hc as (v & Hv & [= <-]).
    assert (v = plan) as -> by (unfold validatePlan in Hv; by run). split; [done|]. cbn in Hp. by injection Hp as <-. }
  split; [|done]. split; cbn; [apply created_wf|done|done|]. apply Forall_forall. intros x Hx. apply list_elem_of_In, in_map_iff in Hx as (y & <- & _). done.
Qed.

Lemma created_saga w plan event p :
  createMultiRepoIntegrationEvent plan = Ok event -> applyMultiRepoIntegrationEvent None event = Ok p -> separate plan -> saga_wf (w, p).
Proof using.
  intros Hc Hp Hsep. destruct (created_driven _ _ _ Hc Hp) as (Hd & Epl & Hs). split; cbn; [done|by rewrite Epl|].
  intros x Hx. unfold entry_inv. rewrite Hs. intros c Ec. exfalso. unfold createMultiRepoIntegrationEvent in Hc. apply bind_Ok in Hc as (v & Hv & [= <-]).
  cbn in Hp. injection Hp as <-. cbn in Hx. apply list_elem_of_In, in_map_iff in Hx as (y & <- & _). done.
Qed.

(** What the invariant means where a transaction has ended well. *)
Definition all_or_nothing w p : Prop :=
  (mi_state p = mi_applied ->
     (exists receipt, mi_verification p = Some receipt /\ cr_transactionId receipt = mi_transactionId p /\ cr_repositorySetId receipt = mi_repositorySetId p) /\
     forall x, x ∈ mi_entries p -> exists c, ie_candidate x = Some c /\ candidate_fits (ie_plan x) c /\ ref_of w x = Some (rc_candidateOid c)) /\
  (mi_state p = mi_compensated ->
     forall x, x ∈ mi_entries p -> clear_of_candidate w x /\ (is_Some (ie_applyResult x) -> ref_of w x = Some (ip_expectedOid (ie_plan x)))).

Lemma saga_all_or_nothing w p : saga_wf (w, p) -> all_or_nothing w p.
Proof using.
  intros [Hd _ Hi]. cbn in Hd, Hi. split.
  - intros Hst. split; [pose proof (wf_verification _ (driven_wf _ Hd)) as Hv; unfold verification_fits in Hv; by rewrite Hst in Hv|].
    intros x Hx. specialize (Hi x Hx). unfold entry_inv in Hi. rewrite Hst in Hi. destruct Hi as (c & Hcand & Href). exists c. split_and!; try done.
    destruct (driven_entry _ _ Hd Hx) as [[Hfit _] _]. by apply Hfit.
  - intros Hst x Hx. specialize (Hi x Hx). unfold entry_inv in Hi. rewrite Hst in Hi. destruct Hi as [Hnone Hsome].
    destruct (driven_entry _ _ Hd Hx) as [(Hfit & _ & Hdone) Hmade]. rewrite Hst in Hdone. destruct Hdone as [_ Hdone].
    destruct (ie_applyResult x) as [r|] eqn:Ea; [|split; [by apply Hnone|by intros [? [=]]]].
    destruct Hsome as [_ Href]; [by apply Hdone|]. split; [|done]. intros c Hcand. rewrite Href. destruct (Hfit _ Hcand) as (_ & _ & <- & _).
    destruct (Hmade _ Hcand) as (_ & _ & Hne). congruence.
Qed.
End saga.

Section ends.
Context {D : Digest} {C : Collation}.
Context {W : Type} `{GitHost W} `{VerificationHost W} `{IntegrationHost W}.
Context (apart : text -> text -> Prop) (refs : refs_of W) `{!GitRefs apart refs} `{!Contained refs}.
Implicit Types (p : MultiRepoIntegrationProjectionV1) (e x : MultiRepoIntegrationEntryProjectionV1) (w : W).
Abbreviation drives := (drives refs).

(** * The measure *)

Definition unprepared e : bool := lacks (ie_candidate e).
Definition unapplied e : bool := lacks (ie_applyResult e).
Definition uncompensated e : bool := has (ie_applyResult e) && lacks (ie_compensationResult e).

(** How many events there can still be. *)
Definition events_left p : nat :=
  let n := length (mi_entries p) in
  match mi_state p with
  | mi_preparing => count_if unprepared (mi_entries p) + 2 * n + 5
  | mi_prepared => 2 * n + 4
  | mi_verifying => 2 * n + 3
  | mi_verified => 2 * n + 2
  | mi_applying => count_if unapplied (mi_entries p) + n + 1
  | mi_compensating => count_if uncompensated (mi_entries p) + 1
  | mi_applied | mi_compensated | mi_recovery_required => 0
  end.

Lemma transition_length p body part : transition p body part -> length (part_entries part) = length (mi_entries p).
Proof using. intros Ht%transition_plans. by rewrite <-(length_map ie_plan), Ht, length_map. Qed.

Lemma drives_nearer p w w' event part :
  driven p -> drives p w w' (iv_body event) -> transition p (iv_body event) part -> (events_left (advance_integration p event part) < events_left p)%nat.
Proof using.
  intros Hd Hdr Ht. pose proof (transition_length _ _ _ Ht) as Hlen. pose proof (driven_ids _ Hd) as Hn. unfold events_left.
  destruct Ht as [id c l Hs [Hr _]|Hs Hf|Hs|receipt Hs E1 E2|Hs Hv|id r l Hs [Hr _]|reason Hs He|id r l Hs [Hr _]|Hs Hf|Hs Hf|reason id oid E1 E2];
    cbn [advance_integration part_of with_entries to_state with_verification with_reason part_state part_entries mi_state mi_entries] in Hlen |- *; rewrite ?Hs, ?Hlen; try lia.
  - inversion Hdr as [e c' _ He Hnone _ _ _| | | | | | | | | |]; subst. enough (count_if unprepared l < count_if unprepared (mi_entries p))%nat by lia.
    refine (proj2 (count_fewer _ unprepared _ _ Hr _) e He _ _).
    + intros a b [[_ [-> _]%record_candidate_Ok]|[_ ->]]; [done|done].
    + unfold unprepared. by rewrite Hnone.
    + intros b [[_ [-> _]%record_candidate_Ok]|[Hne _]]; [done|done].
  - pose proof (count_le unapplied (mi_entries p)). lia.
  - inversion Hdr as [| | | | |e c st _ Ef Hc _| | | | |]; subst. pose proof (focus_entry _ _ Ef) as He.
    enough (count_if unapplied l < count_if unapplied (mi_entries p))%nat by lia.
    refine (proj2 (count_fewer _ unapplied _ _ Hr _) e He _ _).
    + intros a b [[_ [-> _]%record_applied_Ok]|[_ ->]]; [done|done].
    + destruct (focus_state _ _ Ef) as [[_ Ea]|[E _]]; [unfold unapplied; by rewrite Ea|congruence].
    + intros b [[_ [-> _]%record_applied_Ok]|[Hne _]]; [done|done].
  - inversion Hdr as [| | | | | |e c r' _ Ef Hc _ _| | | |]; subst. pose proof (focus_entry _ _ Ef) as Hin.
    destruct (focus_state _ _ Ef) as [[_ Ea]|[E _]]; [|congruence]. pose proof (count_le uncompensated (mi_entries p)).
    assert (1 <= count_if unapplied (mi_entries p))%nat; [|lia]. eapply count_pos; [exact Hin|]. unfold unapplied. by rewrite Ea.
  - inversion Hdr as [| | | | | | | |e c st _ Ef Hc _| |]; subst. pose proof (focus_entry _ _ Ef) as He.
    enough (count_if uncompensated l < count_if uncompensated (mi_entries p))%nat by lia.
    refine (proj2 (count_fewer _ uncompensated _ _ Hr _) e He _ _).
    + intros a b [[_ ->%record_compensated_Ok]|[_ ->]]; [|done]. unfold uncompensated. cbn. by rewrite andb_false_r.
    + destruct (focus_state _ _ Ef) as [[E _]|(_ & Ha & Ec)]; [congruence|]. unfold uncompensated. rewrite Ec. apply has_is_Some in Ha. by rewrite Ha.
    + intros b [[_ ->%record_compensated_Ok]|[Hne _]]; [|done]. unfold uncompensated. cbn. by rewrite andb_false_r.
  - inversion Hdr as [| | | | | | | | | |reason' id' oid' Hterm]; subst. destruct (mi_state p); try done; lia.
Qed.

(** * Event ids *)

Lemma eventId_not_inherited tx v action : eventId tx v action ∉ objectPrototypeKeys.
Proof using. unfold eventId, objectPrototypeKeys. rewrite !elem_of_cons, elem_of_nil. intros Hin. by repeat destruct Hin as [Hin|Hin]. Qed.

(** * The bound of the measure *)

Lemma validated_entries plan : validatePlan plan = Ok plan -> (length (il_entries plan) <= 32)%nat.
Proof using. intros Hv. unfold validatePlan in Hv. run. guards. unfold at_most in *. guards. lia. Qed.

Lemma events_left_bound p : driven p ->
  (events_left p <= 3 * length (il_entries (mi_plan p)) + 5)%nat /\ (length (il_entries (mi_plan p)) <= 32)%nat.
Proof using.
  intros Hd. split; [|by apply validated_entries, driven_plan]. rewrite <-(wf_plan _ (driven_wf _ Hd)), length_map. unfold events_left.
  pose proof (count_le unprepared (mi_entries p)). pose proof (count_le unapplied (mi_entries p)). pose proof (count_le uncompensated (mi_entries p)).
  destruct (mi_state p); lia.
Qed.
End ends.
