(* ===== verification/Publication.v ===== *)
(** Publication: the remote publication of an integrated repository vector
    (src/multirepo/publication.ts): its plan, its events and their closed wire
    schema, the reducer, and the driver that makes one remote step at a time; the
    invariant of the reducer, what the driver asks of the adapter and in which
    order. *)
From S2P Require Import Prelude Text Json Ids ScmTypes ScmSchema Domain Effects Lists Verification Integration.

(** * Data *)

Record MultiRepoPublicationEntryPlanV1 := {
  pbe_repositoryId : string;
  pbe_publicationId : string;
  pbe_candidateOid : string;
  pbe_localIntegrationRef : text;
  pbe_remoteName : string;
  pbe_expectedPushUrl : text;
  pbe_remoteRef : text;
  pbe_expectedRemoteOid : option string;
  pbe_baseRef : text;
  pbe_title : text;
  pbe_body : text
}.

Record MultiRepoPublicationPlanV1 := {
  pbl_transactionId : string;
  pbl_repositorySetId : string;
  pbl_localIntegrationReceiptDigest : string;
  pbl_policyApproved : bool;
  pbl_entries : list MultiRepoPublicationEntryPlanV1
}.

Inductive BranchBy := branch_existing | branch_push | branch_reconciled.
Inductive PullRequestBy := pr_existing | pr_create | pr_reconciled.
Inductive CrossLinkBy := link_existing | link_update | link_reconciled.

Record PublishedBranch := { pbb_remoteOid : string; pbb_completedBy : BranchBy }.
Record PublishedPullRequest := { pbr_artifactId : text; pbr_url : text; pbr_completedBy : PullRequestBy }.
Record PublishedCrossLink := { pbc_digest : string; pbc_completedBy : CrossLinkBy }.
Record PublicationFailure := { pbf_code : text; pbf_retryable : bool }.

Record MultiRepoPublicationEntryV1 := {
  pbn_plan : MultiRepoPublicationEntryPlanV1;
  pbn_branch : option PublishedBranch;
  pbn_pullRequest : option PublishedPullRequest;
  pbn_crossLink : option PublishedCrossLink;
  pbn_lastFailure : option PublicationFailure
}.

Inductive MultiRepoPublicationState := mp_publishing | mp_partial | mp_published | mp_recovery_required.
#[export] Instance MultiRepoPublicationState_eq_dec : EqDecision MultiRepoPublicationState. Proof. solve_decision. Defined.

Record MultiRepoPublicationProjectionV1 := {
  pbp_plan : MultiRepoPublicationPlanV1;
  pbp_version : Z;
  pbp_state : MultiRepoPublicationState;
  pbp_entries : list MultiRepoPublicationEntryV1;
  pbp_eventIds : obj string;
  pbp_recoveryReason : option text
}.

Inductive PublicationOperation := op_branch | op_pr | op_crosslink.

(** What an event says beside its identity. *)
Inductive PublicationBody :=
| publication_created (plan : MultiRepoPublicationPlanV1)
| publication_branch_recorded (repositoryId : string) (b : PublishedBranch)
| publication_pr_recorded (repositoryId : string) (r : PublishedPullRequest)
| publication_crosslink_recorded (repositoryId : string) (l : PublishedCrossLink)
| publication_retryable_failure (repositoryId : string) (operation : PublicationOperation) (code : text)
| publication_recovery_required (repositoryId : string) (operation : PublicationOperation) (code : text)
| publication_completed.

Record MultiRepoPublicationEventV1 := {
  pbv_eventId : string;
  pbv_transactionId : string;
  pbv_expectedVersion : Z;
  pbv_body : PublicationBody
}.

(** * JSON of the events, in the order of their fields *)

Definition BranchBy_name (b : BranchBy) : string :=
  match b with branch_existing => "existing" | branch_push => "push" | branch_reconciled => "reconciled" end.
Definition PullRequestBy_name (b : PullRequestBy) : string :=
  match b with pr_existing => "existing" | pr_create => "create" | pr_reconciled => "reconciled" end.
Definition CrossLinkBy_name (b : CrossLinkBy) : string :=
  match b with link_existing => "existing" | link_update => "update" | link_reconciled => "reconciled" end.
Definition PublicationOperation_name (o : PublicationOperation) : string :=
  match o with op_branch => "branch" | op_pr => "pr" | op_crosslink => "crosslink" end.

Definition publication_entry_json (e : MultiRepoPublicationEntryPlanV1) : json := jobj [
  ("repositoryId", jstr e.(pbe_repositoryId)); ("publicationId", jstr e.(pbe_publicationId)); ("candidateOid", jstr e.(pbe_candidateOid));
  ("localIntegrationRef", JString e.(pbe_localIntegrationRef)); ("remoteName", jstr e.(pbe_remoteName)); ("expectedPushUrl", JString e.(pbe_expectedPushUrl));
  ("remoteRef", JString e.(pbe_remoteRef)); ("expectedRemoteOid", match e.(pbe_expectedRemoteOid) with Some oid => jstr oid | None => JNull end);
  ("baseRef", JString e.(pbe_baseRef)); ("title", JString e.(pbe_title)); ("body", JString e.(pbe_body))]%string.

Definition publication_plan_json (p : MultiRepoPublicationPlanV1) : json := jobj [
  ("schemaVersion", jnum 1); ("transactionId", jstr p.(pbl_transactionId)); ("repositorySetId", jstr p.(pbl_repositorySetId));
  ("localIntegrationReceiptDigest", jstr p.(pbl_localIntegrationReceiptDigest)); ("policyApproved", JBoolean p.(pbl_policyApproved));
  ("entries", jlist publication_entry_json p.(pbl_entries))]%string.

Definition publication_type (b : PublicationBody) : string :=
  match b with
  | publication_created _ => "publication.created"
  | publication_branch_recorded _ _ => "publication.branch_recorded"
  | publication_pr_recorded _ _ => "publication.pr_recorded"
  | publication_crosslink_recorded _ _ => "publication.crosslink_recorded"
  | publication_retryable_failure _ _ _ => "publication.retryable_failure"
  | publication_recovery_required _ _ _ => "publication.recovery_required"
  | publication_completed => "publication.completed"
  end.

Definition publication_fields (b : PublicationBody) : list (string * json) :=
  match b with
  | publication_created plan => [("plan", publication_plan_json plan)]%string
  | publication_branch_recorded id b =>
      [("repositoryId", jstr id); ("remoteOid", jstr b.(pbb_remoteOid)); ("completedBy", jstr (BranchBy_name b.(pbb_completedBy)))]%string
  | publication_pr_recorded id r =>
      [("repositoryId", jstr id); ("artifactId", JString r.(pbr_artifactId)); ("url", JString r.(pbr_url));
       ("completedBy", jstr (PullRequestBy_name r.(pbr_completedBy)))]%string
  | publication_crosslink_recorded id l =>
      [("repositoryId", jstr id); ("digest", jstr l.(pbc_digest)); ("completedBy", jstr (CrossLinkBy_name l.(pbc_completedBy)))]%string
  | publication_retryable_failure id op code | publication_recovery_required id op code =>
      [("repositoryId", jstr id); ("operation", jstr (PublicationOperation_name op)); ("code", JString code)]%string
  | publication_completed => []
  end.

Definition publication_event_json (e : MultiRepoPublicationEventV1) : json := jobj (
  [("schemaVersion", jnum 1); ("eventId", jstr e.(pbv_eventId)); ("transactionId", jstr e.(pbv_transactionId));
   ("expectedVersion", jnum e.(pbv_expectedVersion)); ("type", jstr (publication_type e.(pbv_body)))]%string ++ publication_fields e.(pbv_body)).

(** * The wire schema *)

(** [z.string().url()] of zod: what it makes of a text it takes for a URL. *)
Class ZodUrl := zod_url : text -> option text.

Definition remote_name (s : string) : bool := (1 <=? strlen s) && all_chars is_id_char s.

Definition publicationEntryPlanSchema (e : MultiRepoPublicationEntryPlanV1) : bool :=
  ID_PATTERN e.(pbe_repositoryId) && ID_PATTERN e.(pbe_publicationId) && gitOid e.(pbe_candidateOid) && between 1 512 (textlen e.(pbe_localIntegrationRef))
  && remote_name e.(pbe_remoteName) && (strlen e.(pbe_remoteName) <=? 256) && (textlen e.(pbe_expectedPushUrl) <=? 4096)
  && between 1 512 (textlen e.(pbe_remoteRef)) && optional gitOid e.(pbe_expectedRemoteOid) && between 1 512 (textlen e.(pbe_baseRef))
  && (textlen e.(pbe_title) <=? 512) && (textlen e.(pbe_body) <=? 16 * 1024).

Definition publicationPlanSchema (p : MultiRepoPublicationPlanV1) : bool :=
  ID_PATTERN p.(pbl_transactionId) && digest p.(pbl_repositorySetId) && digest p.(pbl_localIntegrationReceiptDigest) && p.(pbl_policyApproved)
  && forallb publicationEntryPlanSchema p.(pbl_entries) && negb (bool_decide (p.(pbl_entries) = [])) && at_most 32 p.(pbl_entries).

Definition publication_body_schema (b : PublicationBody) : bool :=
  match b with
  | publication_created plan => publicationPlanSchema plan
  | publication_branch_recorded id b => ID_PATTERN id && gitOid b.(pbb_remoteOid)
  | publication_pr_recorded id r => ID_PATTERN id && between 1 512 (textlen r.(pbr_artifactId)) && (textlen r.(pbr_url) <=? 4096)
  | publication_crosslink_recorded id l => ID_PATTERN id && digest l.(pbc_digest)
  | publication_retryable_failure id _ code | publication_recovery_required id _ code => ID_PATTERN id && between 1 512 (textlen code)
  | publication_completed => true
  end.

(** The schema on an event whose URLs zod has taken. *)
Definition MultiRepoPublicationEventV1Schema (e : MultiRepoPublicationEventV1) : bool :=
  ID_PATTERN e.(pbv_eventId) && ID_PATTERN e.(pbv_transactionId) && nonNegative e.(pbv_expectedVersion) && publication_body_schema e.(pbv_body).

Section parse.
Context {Z0 : ZodUrl}.

Definition entry_with_url (e : MultiRepoPublicationEntryPlanV1) (url : text) : MultiRepoPublicationEntryPlanV1 := {|
  pbe_repositoryId := e.(pbe_repositoryId); pbe_publicationId := e.(pbe_publicationId); pbe_candidateOid := e.(pbe_candidateOid);
  pbe_localIntegrationRef := e.(pbe_localIntegrationRef); pbe_remoteName := e.(pbe_remoteName); pbe_expectedPushUrl := url;
  pbe_remoteRef := e.(pbe_remoteRef); pbe_expectedRemoteOid := e.(pbe_expectedRemoteOid); pbe_baseRef := e.(pbe_baseRef);
  pbe_title := e.(pbe_title); pbe_body := e.(pbe_body) |}.

Definition plan_with_entries (p : MultiRepoPublicationPlanV1) (entries : list MultiRepoPublicationEntryPlanV1) : MultiRepoPublicationPlanV1 := {|
  pbl_transactionId := p.(pbl_transactionId); pbl_repositorySetId := p.(pbl_repositorySetId);
  pbl_localIntegrationReceiptDigest := p.(pbl_localIntegrationReceiptDigest); pbl_policyApproved := p.(pbl_policyApproved); pbl_entries := entries |}.

Definition body_urls (b : PublicationBody) : option PublicationBody :=
  match b with
  | publication_created plan =>
      entries ← mapM (fun e => entry_with_url e <$> zod_url e.(pbe_expectedPushUrl)) plan.(pbl_entries);
      Some (publication_created (plan_with_entries plan entries))
  | publication_pr_recorded id r =>
      url ← zod_url r.(pbr_url);
      Some (publication_pr_recorded id {| pbr_artifactId := r.(pbr_artifactId); pbr_url := url; pbr_completedBy := r.(pbr_completedBy) |})
  | _ => Some b
  end.

(** [None] is the thrown ZodError. *)
Definition parseMultiRepoPublicationEvent (e : MultiRepoPublicationEventV1) : option MultiRepoPublicationEventV1 :=
  body ← body_urls e.(pbv_body);
  let parsed := {| pbv_eventId := e.(pbv_eventId); pbv_transactionId := e.(pbv_transactionId); pbv_expectedVersion := e.(pbv_expectedVersion); pbv_body := body |} in
  if MultiRepoPublicationEventV1Schema parsed then Some parsed else None.
End parse.

(** * Errors *)

Inductive MultiRepoPublicationErrorCode := PUB_INVALID_PLAN | PUB_STALE_VERSION | PUB_EVENT_ID_CONFLICT | PUB_INVALID_TRANSITION.

Abbreviation publishing := (result MultiRepoPublicationErrorCode).

(** [PublicationEffectResult], with the value of the effect. *)
Inductive EffectBy := by_existing | by_create | by_push | by_update | by_reconciled.
Inductive PublicationEffectResult (T : Type) :=
| effect_completed (value : T) (completedBy : EffectBy)
| effect_retry (code : text)
| effect_recovery_required (code : text).
Arguments effect_completed {T} value completedBy.
Arguments effect_retry {T} code.
Arguments effect_recovery_required {T} code.

Record PublicationArtifact := { pa_repositoryId : string; pa_artifactId : text; pa_url : text }.

(** [MultiRepoPublicationAdapter]. *)
Class PublicationAdapter (W : Type) := {
  publishBranch : MultiRepoPublicationEntryPlanV1 -> effect W Foreign (PublicationEffectResult string);
  ensurePullRequest : MultiRepoPublicationEntryPlanV1 -> effect W Foreign (PublicationEffectResult (text * text));
  ensureCrossLinks : MultiRepoPublicationEntryPlanV1 -> list PublicationArtifact -> effect W Foreign (PublicationEffectResult string)
}.

(** What the driver can throw. [pt_absent] is the read of a pull
    request that is asserted to be there. *)
Inductive PublicationThrow :=
| pt_publication (code : MultiRepoPublicationErrorCode)
| pt_adapter (f : Foreign)
| pt_absent.

Section publication.
Context {D : Digest} {C : Collation} {U : UrlApi}.

Definition publicationEventDigest (e : MultiRepoPublicationEventV1) : string := sha256Text (render (publication_event_json e)).

Definition publicationEventId (transactionId : string) (version : Z) (action : string) : string :=
  "mp-" +:+ String.substring 0 48
    (sha256Text (text_of_string transactionId ++ [0] ++ text_of_string (num_to_string version) ++ [0] ++ text_of_string action)).

(** [/^refs\/heads\/[A-Za-z0-9][A-Za-z0-9._/-]*$/] *)
Definition head_ref (value : text) : bool :=
  startsWith (text_of_string "refs/heads/") value
  && match drop 11 value with c :: name => GitTransaction.ref_alnum c && forallb GitTransaction.ref_unit name | [] => false end.

Definition by_entry (l r : MultiRepoPublicationEntryPlanV1) : Z := localeCompare l.(pbe_repositoryId) r.(pbe_repositoryId).

Definition publication_entry_valid (e : MultiRepoPublicationEntryPlanV1) : bool :=
  ID_PATTERN e.(pbe_repositoryId) && ID_PATTERN e.(pbe_publicationId) && gitOid e.(pbe_candidateOid) && head_ref e.(pbe_localIntegrationRef)
  && remote_name e.(pbe_remoteName) && has (new_URL e.(pbe_expectedPushUrl)) && head_ref e.(pbe_remoteRef) && optional gitOid e.(pbe_expectedRemoteOid)
  && (utf8_length e.(pbe_title) <=? 512) && (utf8_length e.(pbe_body) <=? 16 * 1024).

(** With unique ids the sorted entries are the given ones when their ids are. *)
Definition validatePublicationPlan (plan : MultiRepoPublicationPlanV1) : publishing MultiRepoPublicationPlanV1 :=
  ensure (ID_PATTERN plan.(pbl_transactionId) && digest plan.(pbl_repositorySetId) && digest plan.(pbl_localIntegrationReceiptDigest)
          && plan.(pbl_policyApproved) && negb (bool_decide (plan.(pbl_entries) = [])) && at_most 32 plan.(pbl_entries)) PUB_INVALID_PLAN ;;
  ensure (bool_decide (List.map pbe_repositoryId (js_sort by_entry plan.(pbl_entries)) = List.map pbe_repositoryId plan.(pbl_entries))
          && unique (List.map pbe_repositoryId plan.(pbl_entries)) && unique (List.map pbe_publicationId plan.(pbl_entries))) PUB_INVALID_PLAN ;;
  ensure (forallb publication_entry_valid plan.(pbl_entries)) PUB_INVALID_PLAN ;;
  Ok plan.

Definition createMultiRepoPublicationEvent (plan : MultiRepoPublicationPlanV1) : publishing MultiRepoPublicationEventV1 :=
  value ← validatePublicationPlan plan;
  Ok {| pbv_eventId := publicationEventId value.(pbl_transactionId) 0 "create"; pbv_transactionId := value.(pbl_transactionId);
        pbv_expectedVersion := 0; pbv_body := publication_created value |}.

(** * The reducer *)

Definition pub_id (entry : MultiRepoPublicationEntryV1) : string := entry.(pbn_plan).(pbe_repositoryId).

(** [replace] *)
Definition replace_published (entries : list MultiRepoPublicationEntryV1) (repositoryId : string)
    (update : MultiRepoPublicationEntryV1 -> publishing MultiRepoPublicationEntryV1) : publishing (list MultiRepoPublicationEntryV1) :=
  replace_keyed pub_id PUB_INVALID_TRANSITION entries repositoryId update.

(** What the effects record clears the last failure. *)
Definition published_with (branch : option PublishedBranch) (pullRequest : option PublishedPullRequest) (crossLink : option PublishedCrossLink)
    (entry : MultiRepoPublicationEntryV1) : MultiRepoPublicationEntryV1 :=
  {| pbn_plan := entry.(pbn_plan); pbn_branch := branch; pbn_pullRequest := pullRequest; pbn_crossLink := crossLink; pbn_lastFailure := None |}.

Definition record_branch (b : PublishedBranch) (entry : MultiRepoPublicationEntryV1) : publishing MultiRepoPublicationEntryV1 :=
  ensure (bool_decide (b.(pbb_remoteOid) = entry.(pbn_plan).(pbe_candidateOid))) PUB_INVALID_TRANSITION ;;
  Ok (published_with (Some b) entry.(pbn_pullRequest) entry.(pbn_crossLink) entry).

Definition record_pull_request (r : PublishedPullRequest) (entry : MultiRepoPublicationEntryV1) : publishing MultiRepoPublicationEntryV1 :=
  ensure (has entry.(pbn_branch)) PUB_INVALID_TRANSITION ;;
  Ok (published_with entry.(pbn_branch) (Some r) entry.(pbn_crossLink) entry).

Definition record_cross_link (l : PublishedCrossLink) (entry : MultiRepoPublicationEntryV1) : publishing MultiRepoPublicationEntryV1 :=
  ensure (has entry.(pbn_pullRequest)) PUB_INVALID_TRANSITION ;;
  Ok (published_with entry.(pbn_branch) entry.(pbn_pullRequest) (Some l) entry).

Definition record_failure (f : PublicationFailure) (entry : MultiRepoPublicationEntryV1) : publishing MultiRepoPublicationEntryV1 :=
  Ok {| pbn_plan := entry.(pbn_plan); pbn_branch := entry.(pbn_branch); pbn_pullRequest := entry.(pbn_pullRequest);
        pbn_crossLink := entry.(pbn_crossLink); pbn_lastFailure := Some f |}.

Definition incomplete (entry : MultiRepoPublicationEntryV1) : bool :=
  lacks entry.(pbn_branch) || lacks entry.(pbn_pullRequest) || lacks entry.(pbn_crossLink).

(** The [let] variables of the reducer: entries, state, recovery reason. *)
Definition PublicationPart : Type := list MultiRepoPublicationEntryV1 * MultiRepoPublicationState * option text.

Definition recovery_reason (repositoryId : string) (operation : PublicationOperation) (code : text) : text :=
  text_of_string (repositoryId +:+ ":" +:+ PublicationOperation_name operation +:+ ":") ++ code.

(** The switch on the type of the event. *)
Definition publication_switch (p : MultiRepoPublicationProjectionV1) (body : PublicationBody) : publishing PublicationPart :=
  match body with
  | publication_created _ => Err PUB_INVALID_TRANSITION
  | publication_branch_recorded id b =>
      entries ← replace_published p.(pbp_entries) id (record_branch b); Ok (entries, p.(pbp_state), p.(pbp_recoveryReason))
  | publication_pr_recorded id r =>
      entries ← replace_published p.(pbp_entries) id (record_pull_request r); Ok (entries, p.(pbp_state), p.(pbp_recoveryReason))
  | publication_crosslink_recorded id l =>
      entries ← replace_published p.(pbp_entries) id (record_cross_link l); Ok (entries, p.(pbp_state), p.(pbp_recoveryReason))
  | publication_retryable_failure id _ code =>
      entries ← replace_published p.(pbp_entries) id (record_failure {| pbf_code := code; pbf_retryable := true |});
      Ok (entries, mp_partial, p.(pbp_recoveryReason))
  | publication_recovery_required id op code =>
      entries ← replace_published p.(pbp_entries) id (record_failure {| pbf_code := code; pbf_retryable := false |});
      Ok (entries, mp_recovery_required, Some (recovery_reason id op code))
  | publication_completed =>
      ensure (negb (existsb incomplete p.(pbp_entries))) PUB_INVALID_TRANSITION ;;
      Ok (p.(pbp_entries), mp_published, p.(pbp_recoveryReason))
  end.

Definition published_terminal (s : MultiRepoPublicationState) : bool := bool_decide (s = mp_published) || bool_decide (s = mp_recovery_required).

Definition planned (plan : MultiRepoPublicationEntryPlanV1) : MultiRepoPublicationEntryV1 :=
  {| pbn_plan := plan; pbn_branch := None; pbn_pullRequest := None; pbn_crossLink := None; pbn_lastFailure := None |}.

Definition created_publication (e : MultiRepoPublicationEventV1) (plan : MultiRepoPublicationPlanV1) : MultiRepoPublicationProjectionV1 := {|
  pbp_plan := plan; pbp_version := 1; pbp_state := mp_publishing; pbp_entries := List.map planned plan.(pbl_entries);
  pbp_eventIds := {[ e.(pbv_eventId) := publicationEventDigest e ]}; pbp_recoveryReason := None |}.

Definition advance_publication (p : MultiRepoPublicationProjectionV1) (e : MultiRepoPublicationEventV1) (part : PublicationPart)
    : MultiRepoPublicationProjectionV1 := {|
  pbp_plan := p.(pbp_plan); pbp_version := p.(pbp_version) + 1; pbp_state := part.1.2; pbp_entries := part.1.1;
  pbp_eventIds := <[ e.(pbv_eventId) := publicationEventDigest e ]> p.(pbp_eventIds); pbp_recoveryReason := part.2 |}.

Definition applyMultiRepoPublicationEvent (current : option MultiRepoPublicationProjectionV1) (e : MultiRepoPublicationEventV1)
    : publishing MultiRepoPublicationProjectionV1 :=
  match current with
  | None =>
      match e.(pbv_body) with
      | publication_created plan => ensure (e.(pbv_expectedVersion) =? 0) PUB_INVALID_TRANSITION ;; Ok (created_publication e plan)
      | _ => Err PUB_INVALID_TRANSITION
      end
  | Some p =>
      match obj_get p.(pbp_eventIds) e.(pbv_eventId) with
      | Own previous => ensure (bool_decide (previous = publicationEventDigest e)) PUB_EVENT_ID_CONFLICT ;; Ok p
      | Inherited => Err PUB_EVENT_ID_CONFLICT
      | Absent =>
          ensure (bool_decide (e.(pbv_transactionId) = p.(pbp_plan).(pbl_transactionId)) && (e.(pbv_expectedVersion) =? p.(pbp_version))) PUB_STALE_VERSION ;;
          ensure (negb (published_terminal p.(pbp_state))) PUB_INVALID_TRANSITION ;;
          part ← publication_switch p e.(pbv_body);
          Ok (advance_publication p e part)
      end
  end.

(** * The driver *)

Definition publicationBase (p : MultiRepoPublicationProjectionV1) (action : string) (body : PublicationBody) : MultiRepoPublicationEventV1 := {|
  pbv_eventId := publicationEventId p.(pbp_plan).(pbl_transactionId) p.(pbp_version) action;
  pbv_transactionId := p.(pbp_plan).(pbl_transactionId); pbv_expectedVersion := p.(pbp_version); pbv_body := body |}.

(** [effectEvent], and what is made of a completed effect. *)
Definition effectEvent {T} (p : MultiRepoPublicationProjectionV1) (repositoryId : string) (operation : PublicationOperation)
    (r : PublicationEffectResult T) (completed : T -> EffectBy -> result PublicationThrow MultiRepoPublicationEventV1)
    : result PublicationThrow MultiRepoPublicationEventV1 :=
  match r with
  | effect_retry code =>
      Ok (publicationBase p (PublicationOperation_name operation +:+ ":retry:" +:+ repositoryId) (publication_retryable_failure repositoryId operation code))
  | effect_recovery_required code =>
      Ok (publicationBase p (PublicationOperation_name operation +:+ ":recovery:" +:+ repositoryId) (publication_recovery_required repositoryId operation code))
  | effect_completed value completedBy => completed value completedBy
  end.

Definition branch_by (b : EffectBy) : BranchBy := match b with by_existing => branch_existing | by_reconciled => branch_reconciled | _ => branch_push end.
Definition pull_request_by (b : EffectBy) : PullRequestBy := match b with by_existing => pr_existing | by_reconciled => pr_reconciled | _ => pr_create end.
Definition cross_link_by (b : EffectBy) : CrossLinkBy := match b with by_existing => link_existing | by_reconciled => link_reconciled | _ => link_update end.

Definition branch_event (p : MultiRepoPublicationProjectionV1) (id : string) (remoteOid : string) (b : EffectBy)
    : result PublicationThrow MultiRepoPublicationEventV1 :=
  Ok (publicationBase p ("branch:" +:+ id) (publication_branch_recorded id {| pbb_remoteOid := remoteOid; pbb_completedBy := branch_by b |})).

Definition pull_request_event (p : MultiRepoPublicationProjectionV1) (id : string) (value : text * text) (b : EffectBy)
    : result PublicationThrow MultiRepoPublicationEventV1 :=
  Ok (publicationBase p ("pr:" +:+ id)
    (publication_pr_recorded id {| pbr_artifactId := value.1; pbr_url := value.2; pbr_completedBy := pull_request_by b |})).

Definition cross_link_event (p : MultiRepoPublicationProjectionV1) (id : string) (value : string) (b : EffectBy)
    : result PublicationThrow MultiRepoPublicationEventV1 :=
  ensure (digest value) (pt_publication PUB_INVALID_TRANSITION) ;;
  Ok (publicationBase p ("crosslink:" +:+ id) (publication_crosslink_recorded id {| pbc_digest := value; pbc_completedBy := cross_link_by b |})).

Definition publication_artifact (entry : MultiRepoPublicationEntryV1) : result PublicationThrow PublicationArtifact :=
  match entry.(pbn_pullRequest) with
  | Some r => Ok {| pa_repositoryId := pub_id entry; pa_artifactId := r.(pbr_artifactId); pa_url := r.(pbr_url) |}
  | None => Err pt_absent
  end.

Section driver.
Context {W : Type} `{PublicationAdapter W}.
Abbreviation driver := (effect W PublicationThrow).

Definition reconcileMultiRepoPublicationOnce (p : MultiRepoPublicationProjectionV1) : driver (option MultiRepoPublicationEventV1) :=
  if published_terminal p.(pbp_state) then mret None
  else
    match List.find (fun entry => lacks entry.(pbn_branch)) p.(pbp_entries) with
    | Some branch =>
        r ← eff_under pt_adapter (publishBranch branch.(pbn_plan));
        event ← eff_of (effectEvent p (pub_id branch) op_branch r (branch_event p (pub_id branch)));
        mret (Some event)
    | None =>
        match List.find (fun entry => lacks entry.(pbn_pullRequest)) p.(pbp_entries) with
        | Some pullRequest =>
            r ← eff_under pt_adapter (ensurePullRequest pullRequest.(pbn_plan));
            event ← eff_of (effectEvent p (pub_id pullRequest) op_pr r (pull_request_event p (pub_id pullRequest)));
            mret (Some event)
        | None =>
            artifacts ← eff_of (map_result publication_artifact p.(pbp_entries));
            match List.find (fun entry => lacks entry.(pbn_crossLink)) p.(pbp_entries) with
            | Some crossLink =>
                r ← eff_under pt_adapter (ensureCrossLinks crossLink.(pbn_plan) artifacts);
                event ← eff_of (effectEvent p (pub_id crossLink) op_crosslink r (cross_link_event p (pub_id crossLink)));
                mret (Some event)
            | None => mret (Some (publicationBase p "complete" publication_completed))
            end
        end
    end.
End driver.
End publication.

(** * Facts *)

Section facts.
Context {D : Digest} {C : Collation} {U : UrlApi}.
Implicit Types (p : MultiRepoPublicationProjectionV1) (e x : MultiRepoPublicationEntryV1).
Abbreviation replaces := (replaces (E:=MultiRepoPublicationErrorCode) pub_id).

(** * The transitions *)

Definition complete e : Prop := is_Some (pbn_branch e) /\ is_Some (pbn_pullRequest e) /\ is_Some (pbn_crossLink e).

Lemma none_incomplete l : negb (existsb incomplete l) = true <-> Forall complete l.
Proof.
  rewrite negb_true_iff, existsb_false. split; intros H; eapply Forall_impl; try exact H; intros x; unfold incomplete, complete;
    rewrite !lacks_has, <-!has_is_Some; destruct (has _), (has _), (has _); cbn; intuition congruence.
Qed.

(** What the switch accepts, and what it makes of it. *)
Inductive publishes p : PublicationBody -> PublicationPart -> Prop :=
| pub_branch id b l : replaces id (record_branch b) (pbp_entries p) l ->
    publishes p (publication_branch_recorded id b) (l, pbp_state p, pbp_recoveryReason p)
| pub_pr id r l : replaces id (record_pull_request r) (pbp_entries p) l ->
    publishes p (publication_pr_recorded id r) (l, pbp_state p, pbp_recoveryReason p)
| pub_link id c l : replaces id (record_cross_link c) (pbp_entries p) l ->
    publishes p (publication_crosslink_recorded id c) (l, pbp_state p, pbp_recoveryReason p)
| pub_retry id op code l : replaces id (record_failure {| pbf_code := code; pbf_retryable := true |}) (pbp_entries p) l ->
    publishes p (publication_retryable_failure id op code) (l, mp_partial, pbp_recoveryReason p)
| pub_recovery id op code l : replaces id (record_failure {| pbf_code := code; pbf_retryable := false |}) (pbp_entries p) l ->
    publishes p (publication_recovery_required id op code) (l, mp_recovery_required, Some (recovery_reason id op code))
| pub_completed : Forall complete (pbp_entries p) ->
    publishes p publication_completed (pbp_entries p, mp_published, pbp_recoveryReason p).

Lemma publication_switch_publishes p body part : publication_switch p body = Ok part <-> publishes p body part.
Proof.
  split.
  - intros H. destruct body; cbn in H; [done|..]; run; subst.
    all: try (constructor; by eapply replace_keyed_Ok). by constructor; apply none_incomplete.
  - intros [id b l Hr|id r l Hr|id c l Hr|id op code l Hr|id op code l Hr|Hf]; cbn; unfold replace_published.
    all: try (by rewrite (proj2 (replace_keyed_Ok _ _ _ _ _ _) Hr)). by rewrite (proj2 (none_incomplete _) Hf).
Qed.

(** An event changes nothing, or makes one transition of a publication that has not ended. *)
Lemma apply_publication_Ok p v p' :
  applyMultiRepoPublicationEvent (Some p) v = Ok p' <->
  (p' = p /\ pbp_eventIds p !! pbv_eventId v = Some (publicationEventDigest v)) \/
  (exists part, obj_get (pbp_eventIds p) (pbv_eventId v) = Absent /\ pbv_transactionId v = pbl_transactionId (pbp_plan p) /\
     pbv_expectedVersion v = pbp_version p /\ published_terminal (pbp_state p) = false /\ publishes p (pbv_body v) part /\ p' = advance_publication p v part).
Proof.
  cbn. pose proof (obj_get_Own (pbp_eventIds p) (pbv_eventId v)) as Ho. destruct (obj_get (pbp_eventIds p) (pbv_eventId v)) as [| |prior].
  - split.
    + intros H. run. subst. right. exists a1. guards. split_and!; try done. by apply publication_switch_publishes.
    + intros [[_ Hn]|(part & _ & -> & -> & Ht & ->%publication_switch_publishes & ->)]; [by apply Ho in Hn|].
      by rewrite bool_decide_eq_true_2, Z.eqb_refl, Ht.
  - split; [done|]. intros [[_ Hn]|(part & [=] & _)]. by apply Ho in Hn.
  - specialize (Ho prior). split.
    + intros H. run. guards. left. split; [done|]. by apply Ho.
    + intros [[-> Hn]|(part & [=] & _)]. apply proj1 in Ho. specialize (Ho eq_refl). assert (prior = publicationEventDigest v) as -> by congruence.
      by rewrite bool_decide_eq_true_2.
Qed.

(** * The invariant *)

(** A recorded effect is the planned one and rests on those before it. *)
Record entry_backed e : Prop := {
  backed_branch b : pbn_branch e = Some b -> pbb_remoteOid b = pbe_candidateOid (pbn_plan e);
  backed_pr : is_Some (pbn_pullRequest e) -> is_Some (pbn_branch e);
  backed_link : is_Some (pbn_crossLink e) -> is_Some (pbn_pullRequest e)
}.

Record published_wf p : Prop := {
  pub_plans : List.map pbn_plan (pbp_entries p) = pbl_entries (pbp_plan p);
  pub_backed : Forall entry_backed (pbp_entries p);
  pub_published : pbp_state p = mp_published -> Forall complete (pbp_entries p);
  pub_reason : is_Some (pbp_recoveryReason p) <-> pbp_state p = mp_recovery_required;
  pub_failed : pbp_state p = mp_recovery_required -> exists e f, e ∈ pbp_entries p /\ pbn_lastFailure e = Some f /\ pbf_retryable f = false;
  pub_version : 1 <= pbp_version p
}.

Lemma record_branch_Ok b e x : record_branch b e = Ok x ->
  x = published_with (Some b) (pbn_pullRequest e) (pbn_crossLink e) e /\ pbb_remoteOid b = pbe_candidateOid (pbn_plan e).
Proof. unfold record_branch. intros H. run. by guards. Qed.

Lemma record_pull_request_Ok r e x : record_pull_request r e = Ok x ->
  x = published_with (pbn_branch e) (Some r) (pbn_crossLink e) e /\ is_Some (pbn_branch e).
Proof. unfold record_pull_request. intros H. run. split; [done|]. by apply has_is_Some. Qed.

Lemma record_cross_link_Ok c e x : record_cross_link c e = Ok x ->
  x = published_with (pbn_branch e) (pbn_pullRequest e) (Some c) e /\ is_Some (pbn_pullRequest e).
Proof. unfold record_cross_link. intros H. run. split; [done|]. by apply has_is_Some. Qed.

(** What a transition does to an entry. *)
Definition entry_advances e x : Prop :=
  pbn_plan x = pbn_plan e /\ (entry_backed e -> entry_backed x) /\
  (is_Some (pbn_branch e) -> is_Some (pbn_branch x)) /\ (is_Some (pbn_pullRequest e) -> is_Some (pbn_pullRequest x)) /\
  (is_Some (pbn_crossLink e) -> is_Some (pbn_crossLink x)).

Lemma entry_advances_refl e : entry_advances e e.
Proof. unfold entry_advances. tauto. Qed.

Lemma advances_refl l : Forall2 entry_advances l l.
Proof. induction l as [|x l IH]; constructor; [apply entry_advances_refl|done]. Qed.

Lemma recorded_advances e x :
  (exists b, record_branch b e = Ok x) \/ (exists r, record_pull_request r e = Ok x) \/ (exists c, record_cross_link c e = Ok x) \/
  (exists f, record_failure f e = Ok x) -> entry_advances e x.
Proof.
  intros [[b [-> Hb]%record_branch_Ok]|[[r [-> Hr]%record_pull_request_Ok]|[[c [-> Hc]%record_cross_link_Ok]|[f [= <-]]]]];
    (split; [done|]; split; [intros [B1 B2 B3]; split; cbn; eauto; intros ? [= <-]; done|split_and!; cbn; eauto]).
Qed.

Lemma replaces_advances id update l l' :
  (forall e x, update e = Ok x -> entry_advances e x) -> replaces id update l l' -> Forall2 entry_advances l l'.
Proof.
  intros Hu [Hl _]. eapply Forall2_impl; [exact Hl|]. intros e x [[_ Hx]|[_ ->]]; [by apply Hu|apply entry_advances_refl].
Qed.

Lemma publishes_advances p body part : publishes p body part -> Forall2 entry_advances (pbp_entries p) part.1.1.
Proof.
  destruct 1; cbn; try (eapply replaces_advances; [|eassumption]; intros e x Hx; apply recorded_advances; eauto).
  apply advances_refl.
Qed.

Lemma advances_map l l' : Forall2 entry_advances l l' -> List.map pbn_plan l' = List.map pbn_plan l.
Proof. induction 1 as [|e x l l' (He & _) _ IH]; [done|]. cbn. by f_equal. Qed.

Lemma advances_backed l l' : Forall2 entry_advances l l' -> Forall entry_backed l -> Forall entry_backed l'.
Proof. induction 1 as [|e x l l' (_ & He & _) _ IH]; [done|]. intros [H1 H2]%Forall_cons. constructor; auto. Qed.

Lemma publishes_wf p v part :
  published_wf p -> published_terminal (pbp_state p) = false -> publishes p (pbv_body v) part -> published_wf (advance_publication p v part).
Proof.
  intros [H1 H2 H3 H4 H5 H6] Ht Hp. pose proof (publishes_advances _ _ _ Hp) as Ha. unfold published_terminal in Ht. guards.
  split; cbn; [by rewrite (advances_map _ _ Ha)|by eapply advances_backed| | | |lia]; destruct Hp as [id b l Hr|id r l Hr|id c l Hr|id op code l Hr|id op code l Hr|Hf]; cbn; try done.
  - split; [by intros ?%H4|done].
  - split; [by intros ?%H4|done].
  - intros _. destruct Hr as [Hl (e & [i Hi]%list_elem_of_lookup & Hid)]. destruct (Forall2_lookup_l _ _ _ _ _ Hl Hi) as (x & Hx & Hex).
    destruct Hex as [[_ [= <-]]|[]]; [|done]. eexists _, _. split; [by eapply list_elem_of_lookup_2|done].
Qed.

Lemma apply_publication_wf p v p' : published_wf p -> applyMultiRepoPublicationEvent (Some p) v = Ok p' -> published_wf p'.
Proof. intros Hp [[-> _]|(part & _ & _ & _ & Ht & Hs & ->)]%apply_publication_Ok; [done|]. by apply publishes_wf. Qed.

Lemma created_publication_wf v plan : published_wf (created_publication v plan).
Proof.
  split; cbn; try done.
  - rewrite map_map. apply map_id.
  - apply Forall_forall. intros x Hx. apply list_elem_of_In, in_map_iff in Hx as (y & <- & _). split; cbn; [done|by intros [? [=]]..].
Qed.

Lemma apply_publication_None v p : applyMultiRepoPublicationEvent None v = Ok p <->
  exists plan, pbv_body v = publication_created plan /\ pbv_expectedVersion v = 0 /\ p = created_publication v plan.
Proof.
  cbn. split.
  - destruct (pbv_body v) as [plan| | | | | |]; try done. intros H. run. guards. by exists plan.
  - intros (plan & -> & -> & ->). done.
Qed.

(** The histories the reducer accepts. *)
Inductive publication_history : list MultiRepoPublicationEventV1 -> MultiRepoPublicationProjectionV1 -> Prop :=
| ph_created v p : applyMultiRepoPublicationEvent None v = Ok p -> publication_history [v] p
| ph_event l v p p' : publication_history l p -> applyMultiRepoPublicationEvent (Some p) v = Ok p' -> publication_history (l ++ [v]) p'.

Lemma publication_history_wf l p : publication_history l p -> published_wf p.
Proof.
  induction 1 as [v p (plan & _ & _ & ->)%apply_publication_None|l v p p' _ IH Hp]; [apply created_publication_wf|by eapply apply_publication_wf].
Qed.

(** An ended publication takes no event but one it already has. *)
Lemma ended_publication p v p' : published_terminal (pbp_state p) = true -> applyMultiRepoPublicationEvent (Some p) v = Ok p' -> p' = p.
Proof. intros Ht [[-> _]|(part & _ & _ & _ & Hf & _)]%apply_publication_Ok; [done|congruence]. Qed.

(** The entry an event names, and the failure it leaves there. *)
Definition body_entry (body : PublicationBody) : option string :=
  match body with
  | publication_branch_recorded id _ | publication_pr_recorded id _ | publication_crosslink_recorded id _
  | publication_retryable_failure id _ _ | publication_recovery_required id _ _ => Some id
  | _ => None
  end.

Definition failure_after (body : PublicationBody) : option PublicationFailure :=
  match body with
  | publication_retryable_failure _ _ code => Some {| pbf_code := code; pbf_retryable := true |}
  | publication_recovery_required _ _ code => Some {| pbf_code := code; pbf_retryable := false |}
  | _ => None
  end.

(** What an event may change of an entry: what it records there, and the last failure. *)
Record entry_moves (body : PublicationBody) e x : Prop := {
  moved_plan : pbn_plan x = pbn_plan e;
  moved_branch : pbn_branch x = pbn_branch e \/ exists b, body = publication_branch_recorded (pub_id e) b /\ pbn_branch x = Some b;
  moved_pr : pbn_pullRequest x = pbn_pullRequest e \/ exists r, body = publication_pr_recorded (pub_id e) r /\ pbn_pullRequest x = Some r;
  moved_link : pbn_crossLink x = pbn_crossLink e \/ exists c, body = publication_crosslink_recorded (pub_id e) c /\ pbn_crossLink x = Some c;
  moved_failure : pbn_lastFailure x = pbn_lastFailure e \/ (body_entry body = Some (pub_id e) /\ pbn_lastFailure x = failure_after body)
}.

Lemma entry_moves_refl body e : entry_moves body e e.
Proof. split; by try left. Qed.

Lemma publishes_moves p body part : publishes p body part -> Forall2 (entry_moves body) (pbp_entries p) part.1.1.
Proof.
  assert (forall l, Forall2 (entry_moves body) l l) as Hrefl by (induction l; constructor; [apply entry_moves_refl|done]).
  destruct 1 as [id b l [Hl _]|id r l [Hl _]|id c l [Hl _]|id op code l [Hl _]|id op code l [Hl _]|_]; cbn; try apply Hrefl;
    (eapply Forall2_impl; [exact Hl|]); intros e x [[<- Hx]|[_ ->]]; try apply entry_moves_refl.
  - apply record_branch_Ok in Hx as [-> _]. split; eauto.
  - apply record_pull_request_Ok in Hx as [-> _]. split; eauto.
  - apply record_cross_link_Ok in Hx as [-> _]. split; eauto.
  - injection Hx as <-. split; eauto.
  - injection Hx as <-. split; eauto.
Qed.

Lemma apply_publication_moves p v p' :
  applyMultiRepoPublicationEvent (Some p) v = Ok p' -> pbp_plan p' = pbp_plan p /\ Forall2 (entry_moves (pbv_body v)) (pbp_entries p) (pbp_entries p').
Proof.
  intros [[-> _]|(part & _ & _ & _ & _ & Hs & ->)]%apply_publication_Ok; split; try done.
  - induction (pbp_entries p); constructor; [apply entry_moves_refl|done].
  - by eapply publishes_moves.
Qed.

(** * The driver *)

(** What a call asks of the adapter. *)
Inductive ask :=
| ask_branch e
| ask_pull_request e
| ask_cross_link e (artifacts : list PublicationArtifact).

Definition shown_artifact e : PublicationArtifact := {|
  pa_repositoryId := pub_id e;
  pa_artifactId := match pbn_pullRequest e with Some r => pbr_artifactId r | None => [] end;
  pa_url := match pbn_pullRequest e with Some r => pbr_url r | None => [] end |}.

Definition next_ask p : option ask :=
  match List.find (fun e => lacks (pbn_branch e)) (pbp_entries p) with
  | Some e => Some (ask_branch e)
  | None =>
      match List.find (fun e => lacks (pbn_pullRequest e)) (pbp_entries p) with
      | Some e => Some (ask_pull_request e)
      | None =>
          match List.find (fun e => lacks (pbn_crossLink e)) (pbp_entries p) with
          | Some e => Some (ask_cross_link e (List.map shown_artifact (pbp_entries p)))
          | None => None
          end
      end
  end.

Definition asked (a : ask) : MultiRepoPublicationEntryV1 := match a with ask_branch e | ask_pull_request e | ask_cross_link e _ => e end.
Definition asked_operation (a : ask) : PublicationOperation :=
  match a with ask_branch _ => op_branch | ask_pull_request _ => op_pr | ask_cross_link _ _ => op_crosslink end.

(** In which states each effect is asked for. *)
Definition ask_in_order p (a : ask) : Prop :=
  asked a ∈ pbp_entries p /\
  match a with
  | ask_branch e => pbn_branch e = None
  | ask_pull_request e => pbn_pullRequest e = None /\ Forall (fun x => is_Some (pbn_branch x)) (pbp_entries p)
  | ask_cross_link e artifacts =>
      pbn_crossLink e = None /\ Forall (fun x => is_Some (pbn_branch x) /\ is_Some (pbn_pullRequest x)) (pbp_entries p) /\
      Forall2 (fun x a => exists r, pbn_pullRequest x = Some r /\
        a = {| pa_repositoryId := pub_id x; pa_artifactId := pbr_artifactId r; pa_url := pbr_url r |}) (pbp_entries p) artifacts
  end.

Lemma next_ask_in_order p a : next_ask p = Some a -> ask_in_order p a.
Proof.
  unfold next_ask. destruct (List.find _ (pbp_entries p)) as [e|] eqn:E1; [intros [= <-]; by apply find_lacks in E1|]. apply find_no_lacks in E1.
  destruct (List.find _ (pbp_entries p)) as [e|] eqn:E2; [intros [= <-]; apply find_lacks in E2 as [??]; by split|]. apply find_no_lacks in E2.
  destruct (List.find _ (pbp_entries p)) as [e|] eqn:E3; [|done]. intros [= <-]. apply find_lacks in E3 as [??].
  split; [done|]. split; [done|]. split; [by apply Forall_and|].
  clear - E2. induction E2 as [|x l [r Hr] _ IH]; cbn; constructor; [|done]. exists r. split; [done|]. unfold shown_artifact. by rewrite Hr.
Qed.

Lemma next_ask_none p : next_ask p = None -> Forall complete (pbp_entries p).
Proof.
  unfold next_ask. destruct (List.find _ (pbp_entries p)) as [e|] eqn:E1; [done|]. apply find_no_lacks in E1.
  destruct (List.find _ (pbp_entries p)) as [e|] eqn:E2; [done|]. apply find_no_lacks in E2.
  destruct (List.find _ (pbp_entries p)) as [e|] eqn:E3; [done|]. apply find_no_lacks in E3. intros _.
  rewrite Forall_forall in *. intros x Hx. by split_and!; auto.
Qed.

Lemma artifacts_shown p : Forall (fun x => is_Some (pbn_pullRequest x)) (pbp_entries p) ->
  map_result publication_artifact (pbp_entries p) = Ok (List.map shown_artifact (pbp_entries p)).
Proof.
  induction 1 as [|x l [r Hr] _ IH]; [done|]. cbn [map_result List.map]. rewrite IH.
  assert (publication_artifact x = Ok (shown_artifact x)) as -> by (unfold publication_artifact, shown_artifact; by rewrite Hr). done.
Qed.

(** What the driver makes of an answer. *)
Inductive answers p (a : ask) : PublicationBody -> Prop :=
| ans_retry code : answers p a (publication_retryable_failure (pub_id (asked a)) (asked_operation a) code)
| ans_recovery code : answers p a (publication_recovery_required (pub_id (asked a)) (asked_operation a) code)
| ans_branch e b : a = ask_branch e -> answers p a (publication_branch_recorded (pub_id e) b)
| ans_pull_request e r : a = ask_pull_request e -> answers p a (publication_pr_recorded (pub_id e) r)
| ans_cross_link e artifacts c : a = ask_cross_link e artifacts -> digest (pbc_digest c) = true -> answers p a (publication_crosslink_recorded (pub_id e) c).

Context {W : Type} `{PublicationAdapter W}.
Implicit Types w : W.

(** One call asks for the next effect, if there is one, and returns an event of the current version. *)
Definition call_result p (r : result PublicationThrow (option MultiRepoPublicationEventV1)) : Prop :=
  match r with
  | Ok None => published_terminal (pbp_state p) = true
  | Ok (Some v) => published_terminal (pbp_state p) = false /\ exists action body, v = publicationBase p action body /\
      match next_ask p with Some a => answers p a body | None => body = publication_completed end
  | Err (pt_adapter _) => True
  | Err (pt_publication c) => c = PUB_INVALID_TRANSITION /\ exists e artifacts, next_ask p = Some (ask_cross_link e artifacts)
  | Err _ => False
  end.

Lemma answered {T} p w a (c : effect W Foreign (PublicationEffectResult T)) completed :
  published_terminal (pbp_state p) = false -> next_ask p = Some a ->
  (forall value by_ v, completed value by_ = Ok v -> exists action body, v = publicationBase p action body /\ answers p a body) ->
  (forall value by_ t, completed value by_ = Err t -> t = pt_publication PUB_INVALID_TRANSITION /\ exists e artifacts, a = ask_cross_link e artifacts) ->
  after (r ← eff_under pt_adapter c; event ← eff_of (effectEvent p (pub_id (asked a)) (asked_operation a) r completed); mret (Some event)) w
    (fun _ r => call_result p r).
Proof.
  intros Ht Ha Hok Herr. apply after_bind, after_under. unfold after. destruct (c w) as [w' [r|f]]; cbn; [|done].
  assert (forall action body, answers p a body -> call_result p (Ok (Some (publicationBase p action body)))) as Hcall.
  { intros action body Hb. cbn. rewrite Ha. split; [done|]. by exists action, body. }
  destruct r as [value by_|code|code]; cbn.
  - specialize (Hok value by_). specialize (Herr value by_). destruct (completed value by_) as [v|t]; cbn.
    + destruct (Hok v eq_refl) as (action & body & -> & Hb). by apply Hcall.
    + destruct (Herr t eq_refl) as (-> & e & l & ->). split; [done|]. by exists e, l.
  - apply Hcall. constructor.
  - apply Hcall. constructor.
Qed.

Lemma reconcile_publication_spec p w : after (reconcileMultiRepoPublicationOnce p) w (fun _ r => call_result p r).
Proof.
  unfold reconcileMultiRepoPublicationOnce. destruct (published_terminal (pbp_state p)) eqn:Ht; [by unfold after|].
  assert (exists o, next_ask p = o /\ o = next_ask p) as (o & Hn & Ho) by eauto. unfold next_ask in Ho.
  destruct (List.find (fun e => lacks (pbn_branch e)) (pbp_entries p)) as [e|] eqn:E1; subst o.
  { apply (answered p w (ask_branch e)); [done..| |done]. intros value by_ v [= <-]. eexists _, _. split; [done|]. by eapply ans_branch. }
  destruct (List.find (fun e => lacks (pbn_pullRequest e)) (pbp_entries p)) as [e|] eqn:E2.
  { apply (answered p w (ask_pull_request e)); [done..| |done]. intros value by_ v [= <-]. eexists _, _. split; [done|]. by eapply ans_pull_request. }
  apply find_no_lacks in E2. rewrite (artifacts_shown p E2). cbn.
  destruct (List.find (fun e => lacks (pbn_crossLink e)) (pbp_entries p)) as [e|] eqn:E3.
  - apply (answered p w (ask_cross_link e (List.map shown_artifact (pbp_entries p)))); [done..| |].
    + intros value by_ v Hv. unfold cross_link_event in Hv. run. subst v. eexists _, _. split; [done|]. by eapply ans_cross_link.
    + intros value by_ t Hc. unfold cross_link_event in Hc. apply bind_Err in Hc as [[_ ->]%ensure_Err|(? & _ & [=])]. split; [done|]. eauto.
  - unfold after. cbn -[next_ask]. unfold call_result. cbn -[next_ask]. rewrite Ho. split; [done|]. by eexists _, _.
Qed.

(** The world after the adapter was asked. *)
Definition perform (a : ask) w : W :=
  match a with
  | ask_branch e => (publishBranch (pbn_plan e) w).1
  | ask_pull_request e => (ensurePullRequest (pbn_plan e) w).1
  | ask_cross_link e artifacts => (ensureCrossLinks (pbn_plan e) artifacts w).1
  end.

(** A call asks the adapter for the next effect and for nothing else. *)
Lemma reconcile_asks p w :
  (reconcileMultiRepoPublicationOnce p w).1 =
  if published_terminal (pbp_state p) then w else match next_ask p with Some a => perform a w | None => w end.
Proof.
  unfold reconcileMultiRepoPublicationOnce, next_ask. destruct (published_terminal (pbp_state p)); [done|].
  destruct (List.find (fun e => lacks (pbn_branch e)) (pbp_entries p)) as [e|].
  { unfold mbind, effect_bind, eff_under, eff_of. cbn. destruct (publishBranch (pbn_plan e) w) as [w' [r|f]]; cbn; [|done]. by destruct (effectEvent _ _ _ _ _). }
  destruct (List.find (fun e => lacks (pbn_pullRequest e)) (pbp_entries p)) as [e|] eqn:E2.
  { unfold mbind, effect_bind, eff_under, eff_of. cbn. destruct (ensurePullRequest (pbn_plan e) w) as [w' [r|f]]; cbn; [|done]. by destruct (effectEvent _ _ _ _ _). }
  apply find_no_lacks in E2. rewrite (artifacts_shown p E2).
  destruct (List.find (fun e => lacks (pbn_crossLink e)) (pbp_entries p)) as [e|]; [|done].
  unfold mbind, effect_bind, eff_under, eff_of. cbn.
  destruct (ensureCrossLinks (pbn_plan e) (List.map shown_artifact (pbp_entries p)) w) as [w' [r|f]]; cbn; [|done]. by destruct (effectEvent _ _ _ _ _).
Qed.
End facts.
