(* ===== verification/RunPlan.v ===== *)
(** RunPlan: the immutable plan of a multi-repository run
    (materializeMultiRepositoryRunPlan of src/multirepo/orchestration.ts, and
    validateProvisionSpecs of src/provision.ts), and what a plan has been checked
    for. *)
From S2P Require Import Prelude Text Json Ids ScmTypes ScmSchema Domain Dag Effects Lists GitTransaction Verification Integration Publication.

(** * Data *)

Record ProvisionSpec := { sp_path : text; sp_requiredExecutables : option (list text) }.

Record MultiRepositoryTaskEntryPlanV1 := {
  tep_repositoryId : string;
  tep_branch : text;
  tep_targetRef : text;
  tep_provision : option (list ProvisionSpec)
}.

Record MultiRepositoryPublicationEntryConfigV1 := {
  pcf_repositoryId : string;
  pcf_publicationId : string;
  pcf_remoteName : string;
  pcf_expectedPushUrl : text;
  pcf_remoteRef : text;
  pcf_expectedRemoteOid : option string;
  pcf_baseRef : text;
  pcf_title : text;
  pcf_body : text
}.

Record PublicationConfig := { pc_policyApproved : bool; pc_entries : list MultiRepositoryPublicationEntryConfigV1 }.

Record MultiRepositoryTaskExecutionV1 := {
  ex_taskId : string;
  ex_priority : Z;
  ex_entries : list MultiRepositoryTaskEntryPlanV1;
  ex_verifyCommands : list text;
  ex_verifyEnvironment : Environment;
  ex_commitMessage : text;
  ex_publication : option PublicationConfig
}.

(** An object whose own keys are role or provider ids, in their order. *)
Abbreviation CapabilityMap := (list (string * list string)).
Record MultiRepositoryCapabilityPlanV1 := { cap_roles : CapabilityMap; cap_providers : CapabilityMap }.

Record MultiRepositoryRunRequestV1 := {
  rr_runId : string;
  rr_runEpoch : text;
  rr_workspaceRoot : text;
  rr_execute : bool;
  rr_repositoryDefinitions : list RepositoryDefinitionV1;
  rr_tasks : list MultiRepositoryTaskV1;
  rr_executions : list MultiRepositoryTaskExecutionV1;
  rr_capabilities : MultiRepositoryCapabilityPlanV1
}.

Record MaterializedMultiRepositoryRunPlanV1 := {
  rpl_runId : string;
  rpl_runEpoch : text;
  rpl_workspaceRoot : text;
  rpl_registry : RepositoryRegistryV1;
  rpl_dag : MultiRepositoryDagV1;
  rpl_executions : list MultiRepositoryTaskExecutionV1;
  rpl_capabilities : MultiRepositoryCapabilityPlanV1;
  rpl_planDigest : string
}.

Inductive MultiRepositoryOrchestrationErrorCode :=
| MRO_INVALID_PLAN | MRO_CANONICAL_IDENTITY_MISMATCH | MRO_CANONICAL_HISTORY_CORRUPT | MRO_CANONICAL_APPEND_FAILED | MRO_CAPABILITY_REFUSED
| MRO_ADMISSION_REFUSED | MRO_WORKTREE_RECOVERY_REQUIRED | MRO_WORKER_RECOVERY_REQUIRED | MRO_INTEGRATION_RECOVERY_REQUIRED | MRO_PUBLICATION_RECOVERY_REQUIRED.

(** What materializing a plan throws: its own errors, those of the registry and
    of the graph, and the TypeError of a read of [undefined]. *)
Inductive RunPlanThrow :=
| rpt_error (code : MultiRepositoryOrchestrationErrorCode)
| rpt_domain (code : MultiRepositoryDomainErrorCode)
| rpt_dag (code : MultiRepositoryDagErrorCode)
| rpt_type_error.

Abbreviation planning := (result RunPlanThrow).

(** * Provisioning paths *)

(** [toLocaleLowerCase("en-US")] *)
Class LowerCase := toLocaleLowerCase : text -> text.

Inductive ProvisionIssue :=
| issue_path (index : nat)
| issue_overlap (index other : nat)
| issue_executable (index executable : nat)
| issue_executable_duplicated (index executable : nat).

Section provision.
Context {L : LowerCase}.

(** [part.replace(/[. ]+$/u, "")] *)
Fixpoint strip_leading (p : Z -> bool) (t : text) : text := match t with c :: t' => if p c then strip_leading p t' else t | [] => [] end.
Definition without_trailing_dots (t : text) : text := reverse (strip_leading (fun c => (c =? 46) || (c =? 32)) (reverse t)).

Definition CONTROL_ENTRY_NAMES : list text := [text_of_string ".git"; text_of_string ".loop"].

Definition drive_letter (t : text) : bool :=
  match t with c :: d :: _ => (between 65 90 c || between 97 122 c) && (d =? 58) | _ => false end.

(** [invalidPortablePath(value) !== undefined] *)
Definition invalidPortablePath (value : text) : bool :=
  bool_decide (value = []) || existsb (fun c => between 0 31 c || (c =? 127)) value || bool_decide (92 ∈ value)
  || isAbsolute value || drive_letter value
  || existsb (fun part => bool_decide (part ∈ [[]; [46]; [46; 46]])) (split 47 value)
  || existsb (fun part => bool_decide (toLocaleLowerCase (without_trailing_dots part) ∈ CONTROL_ENTRY_NAMES)) (split 47 value).

Definition folds_overlap (folded candidate : text) : bool :=
  bool_decide (candidate = folded) || startsWith (folded ++ [47]) candidate || startsWith (candidate ++ [47]) folded.

(** The inner loop: the executables already seen, and the issues. *)
Fixpoint executable_issues (index k : nat) (seen : list text) (executables : list text) : list ProvisionIssue :=
  match executables with
  | [] => []
  | executable :: rest =>
      if invalidPortablePath executable then issue_executable index k :: executable_issues index (S k) seen rest
      else
        let folded := toLocaleLowerCase executable in
        (if bool_decide (folded ∈ seen) then [issue_executable_duplicated index k] else []) ++ executable_issues index (S k) (folded :: seen) rest
  end.

(** The outer loop, over the paths of the specs before. *)
Fixpoint spec_issues (index : nat) (prior : list (text * nat)) (specs : list ProvisionSpec) : list ProvisionIssue :=
  match specs with
  | [] => []
  | spec :: rest =>
      let folded := toLocaleLowerCase spec.(sp_path) in
      let executables := executable_issues index 0 [] (default [] spec.(sp_requiredExecutables)) in
      if invalidPortablePath spec.(sp_path) then issue_path index :: executables ++ spec_issues (S index) prior rest
      else
        match List.find (fun candidate => folds_overlap folded candidate.1) prior with Some conflict => [issue_overlap index conflict.2] | None => [] end
        ++ executables ++ spec_issues (S index) (prior ++ [(folded, index)]) rest
  end.

Definition validateProvisionSpecs (specs : list ProvisionSpec) : list ProvisionIssue := spec_issues 0 [] specs.
End provision.

(** * Branches and paths *)

Definition forbiddenBranchUnits : list Z := [126; 94; 58; 63; 42; 91; 92; 93].

Definition validBranch (value : text) : bool :=
  negb (bool_decide (value = [])) && (utf8_length value <=? 512) && negb (startsWith [45] value) && negb (startsWith [47] value)
  && negb (endsWith [47] value) && negb (endsWith [46] value) && negb (includes [46; 46] value) && negb (includes [64; 123] value)
  && negb (includes [47; 47] value) && negb (existsb (fun c => bool_decide (c ∈ forbiddenBranchUnits) || between 0 32 c || (c =? 127)) value).

Definition pathsOverlap (left right : text) : bool :=
  let relation := relative left right in
  bool_decide (relation = [])
  || (negb (bool_decide (relation = [46; 46])) && negb (startsWith [46; 46; 47] relation) && negb (isAbsolute relation)).

Definition heads_prefix : text := text_of_string "refs/heads/".

(** [targetRef.startsWith("refs/heads/") ? targetRef.slice("refs/heads/".length) : ""] *)
Definition target_branch (targetRef : text) : text := if startsWith heads_prefix targetRef then drop (length heads_prefix) targetRef else [].

(** * JSON of a plan *)

Definition provision_json (s : ProvisionSpec) : json := jobj (
  ("path", JString s.(sp_path)) :: match s.(sp_requiredExecutables) with Some l => [("requiredExecutables", jlist JString l)] | None => [] end)%string.

Definition task_entry_json (e : MultiRepositoryTaskEntryPlanV1) : json := jobj (
  [("repositoryId", jstr e.(tep_repositoryId)); ("branch", JString e.(tep_branch)); ("targetRef", JString e.(tep_targetRef))]%string
  ++ match e.(tep_provision) with Some l => [("provision"%string, jlist provision_json l)] | None => [] end).

Definition publication_config_json (e : MultiRepositoryPublicationEntryConfigV1) : json := jobj [
  ("repositoryId", jstr e.(pcf_repositoryId)); ("publicationId", jstr e.(pcf_publicationId)); ("remoteName", jstr e.(pcf_remoteName));
  ("expectedPushUrl", JString e.(pcf_expectedPushUrl)); ("remoteRef", JString e.(pcf_remoteRef));
  ("expectedRemoteOid", match e.(pcf_expectedRemoteOid) with Some oid => jstr oid | None => JNull end);
  ("baseRef", JString e.(pcf_baseRef)); ("title", JString e.(pcf_title)); ("body", JString e.(pcf_body))]%string.

Definition execution_json (e : MultiRepositoryTaskExecutionV1) : json := jobj (
  [("taskId", jstr e.(ex_taskId)); ("priority", jnum e.(ex_priority)); ("entries", jlist task_entry_json e.(ex_entries));
   ("verifyCommands", jlist JString e.(ex_verifyCommands));
   ("verifyEnvironment", JObject (List.map (fun kv => (text_of_string kv.1, JString kv.2)) e.(ex_verifyEnvironment)));
   ("commitMessage", JString e.(ex_commitMessage))]%string
  ++ match e.(ex_publication) with
     | Some p => [("publication"%string, jobj [("policyApproved", JBoolean p.(pc_policyApproved)); ("entries", jlist publication_config_json p.(pc_entries))]%string)]
     | None => []
     end).

Definition repository_set_json (s : RepositorySetV1) : json := jobj [
  ("schemaVersion", jnum 1); ("repositoryIds", jlist jstr s.(rs_repositoryIds)); ("repositorySetId", jstr s.(rs_repositorySetId))]%string.

Definition materialized_task_json (t : MaterializedMultiRepositoryTaskV1) : json := jobj [
  ("schemaVersion", jnum 1); ("taskId", jstr (task_id t)); ("taskGeneration", jnum t.(mm_task).(mt_taskGeneration));
  ("roleId", jstr t.(mm_task).(mt_roleId)); ("providerId", jstr t.(mm_task).(mt_providerId));
  ("repositoryIds", jlist jstr t.(mm_task).(mt_repositoryIds)); ("dependencies", jlist jstr (task_dependencies t));
  ("repositorySet", repository_set_json t.(mm_repositorySet))]%string.

(** The keys of an object come in any order: [canonical] sorts them. *)
Definition record_json {V} (value : V -> json) (m : gmap string V) : json :=
  JObject (List.map (fun kv => (text_of_string kv.1, value kv.2)) (map_to_list m)).

Definition dag_json (g : MultiRepositoryDagV1) : json := jobj [
  ("schemaVersion", jnum 1); ("tasks", jlist materialized_task_json g.(dag_tasks)); ("order", jlist jstr g.(dag_order));
  ("layers", jlist (jlist jstr) g.(dag_layers)); ("dependents", record_json (jlist jstr) g.(dag_dependents));
  ("depthByTask", record_json jnum g.(dag_depthByTask)); ("edgeCount", jnum g.(dag_edgeCount))]%string.

Definition capability_json (m : CapabilityMap) : json := JObject (List.map (fun kv => (text_of_string kv.1, jlist jstr kv.2)) m).

(** [core], and the same fields of a plan. *)
Definition plan_core_json (p : MaterializedMultiRepositoryRunPlanV1) : json := jobj [
  ("schemaVersion", jnum 1); ("runId", jstr p.(rpl_runId)); ("runEpoch", JString p.(rpl_runEpoch)); ("workspaceRoot", JString p.(rpl_workspaceRoot));
  ("registry", jobj [("schemaVersion", jnum 1); ("repositories", jlist repository_identity_json p.(rpl_registry))]);
  ("dag", dag_json p.(rpl_dag)); ("executions", jlist execution_json p.(rpl_executions));
  ("capabilities", jobj [("roles", capability_json p.(rpl_capabilities).(cap_roles)); ("providers", capability_json p.(rpl_capabilities).(cap_providers))])]%string.

Section run_plan.
Context {D : Digest} {C : Collation} {L : LowerCase} {U : UrlApi}.

(** [digest(domain, value)]: [canonical] is that of verification.ts. *)
Definition orchestration_digest (domain : string) (value : json) : string := domain_digest domain (verification_canonical value).

Definition plan_digest_of (p : MaterializedMultiRepositoryRunPlanV1) : string := orchestration_digest "relayforge-multirepo-run-plan-v1" (plan_core_json p).

(** * Executions *)

(** [new Map(...).get(id)] over entries whose ids are unique. *)
Definition entry_plan_of (entries : list MultiRepositoryTaskEntryPlanV1) (id : string) : option MultiRepositoryTaskEntryPlanV1 :=
  List.find (fun e => bool_decide (e.(tep_repositoryId) = id)) entries.

Definition same_vector (expected given : list string) : bool :=
  bool_decide (length given = length expected) && unique given && forallb (fun id => bool_decide (id ∈ given)) expected.

(** The body of the loop over the repositories of the task. *)
Definition check_target (registry : RepositoryRegistryV1) (entries : list MultiRepositoryTaskEntryPlanV1) (repositoryId : string) : planning unit :=
  match entry_plan_of entries repositoryId with
  | None => Err rpt_type_error
  | Some entry =>
      let targetBranch := target_branch entry.(tep_targetRef) in
      ensure (validBranch entry.(tep_branch) && validBranch targetBranch) (rpt_error MRO_INVALID_PLAN) ;;
      match repository_of registry repositoryId with
      | None => Err rpt_type_error
      | Some repository =>
          ensure (negb (bool_decide (targetBranch = repository.(ri_defaultBranch)) || bool_decide (targetBranch ∈ repository.(ri_protectedBranches))
                        || bool_decide (entry.(tep_branch) = targetBranch))) (rpt_error MRO_INVALID_PLAN) ;;
          ensure (bool_decide (validateProvisionSpecs (default [] entry.(tep_provision)) = [])) (rpt_error MRO_INVALID_PLAN)
      end
  end.

Definition without_nul (t : text) : bool := negb (bool_decide (0 ∈ t)).

Definition publication_config_valid (e : MultiRepositoryPublicationEntryConfigV1) : bool :=
  isValidId e.(pcf_publicationId) && remote_name e.(pcf_remoteName) && has (new_URL e.(pcf_expectedPushUrl))
  && startsWith heads_prefix e.(pcf_remoteRef) && validBranch (drop (length heads_prefix) e.(pcf_remoteRef)) && optional gitOid e.(pcf_expectedRemoteOid)
  && (utf8_length e.(pcf_title) <=? 512) && (utf8_length e.(pcf_body) <=? 16 * 1024).

Definition execution_bounded (task : MaterializedMultiRepositoryTaskV1) (raw : MultiRepositoryTaskExecutionV1) : bool :=
  bool_decide (raw.(ex_taskId) = task_id task) && isSafeInteger raw.(ex_priority) && between (-1000) 1000 raw.(ex_priority)
  && bool_decide (length raw.(ex_entries) = length task.(mm_task).(mt_repositoryIds))
  && between 1 64 (Z.of_nat (length raw.(ex_verifyCommands))) && between 1 (8 * 1024) (utf8_length raw.(ex_commitMessage)) && without_nul raw.(ex_commitMessage).

Definition validateExecution (task : MaterializedMultiRepositoryTaskV1) (raw : MultiRepositoryTaskExecutionV1) (registry : RepositoryRegistryV1)
    : planning MultiRepositoryTaskExecutionV1 :=
  let invalid := rpt_error MRO_INVALID_PLAN in
  let repositoryIds := task.(mm_task).(mt_repositoryIds) in
  ensure (execution_bounded task raw) invalid ;;
  ensure (unique (List.map tep_repositoryId raw.(ex_entries))
          && forallb (fun id => bool_decide (id ∈ List.map tep_repositoryId raw.(ex_entries))) repositoryIds) invalid ;;
  fold_result (fun _ id => check_target registry raw.(ex_entries) id) tt repositoryIds ;;
  ensure (forallb (fun command => between 1 4096 (utf8_length command) && without_nul command) raw.(ex_verifyCommands)) invalid ;;
  ensure (at_most 128 raw.(ex_verifyEnvironment)
          && forallb (fun kv => environmentKey kv.1 && (utf8_length kv.2 <=? 16 * 1024) && without_nul kv.2) raw.(ex_verifyEnvironment)) invalid ;;
  match raw.(ex_publication) with
  | None => Ok raw
  | Some publication =>
      ensure (publication.(pc_policyApproved) && same_vector repositoryIds (List.map pcf_repositoryId publication.(pc_entries))) invalid ;;
      ensure (forallb publication_config_valid publication.(pc_entries)) invalid ;;
      Ok raw
  end.

(** * The plan *)

(** [capabilities.roles[task.roleId]]: a member inherited from [Object.prototype]
    has no [repositoryIds], which [assertRepositoryScope] refuses. *)
Definition capability_of (m : CapabilityMap) (id : string) : planning (list string) :=
  match List.find (fun kv => bool_decide (kv.1 = id)) m with
  | Some kv => Ok kv.2
  | None => Err (rpt_error MRO_CAPABILITY_REFUSED)
  end.

Definition execution_of (executions : list MultiRepositoryTaskExecutionV1) (taskId : string) : option MultiRepositoryTaskExecutionV1 :=
  List.find (fun e => bool_decide (e.(ex_taskId) = taskId)) executions.

(** The callback over the tasks of the graph. *)
Definition plan_execution (request : MultiRepositoryRunRequestV1) (registry : RepositoryRegistryV1) (task : MaterializedMultiRepositoryTaskV1)
    : planning MultiRepositoryTaskExecutionV1 :=
  match execution_of request.(rr_executions) (task_id task) with
  | None => Err (rpt_error MRO_INVALID_PLAN)
  | Some raw =>
      role ← capability_of request.(rr_capabilities).(cap_roles) task.(mm_task).(mt_roleId);
      provider ← capability_of request.(rr_capabilities).(cap_providers) task.(mm_task).(mt_providerId);
      map_err (fun _ => rpt_error MRO_CAPABILITY_REFUSED) (assertRepositoryScope task.(mm_repositorySet) role provider) ;;
      validateExecution task raw registry
  end.

Definition capability_entry_valid (registry : RepositoryRegistryV1) (kv : string * list string) : bool :=
  isValidId kv.1 && between 1 64 (Z.of_nat (length kv.2)) && unique kv.2
  && forallb (fun id => bool_decide (id ∈ List.map ri_repositoryId registry)) kv.2.

Definition validateCapabilities (registry : RepositoryRegistryV1) (input : CapabilityMap) : planning CapabilityMap :=
  ensure (forallb (capability_entry_valid registry) input) (rpt_error MRO_CAPABILITY_REFUSED) ;; Ok input.

(** The plan without its digest, and with it. *)
Definition plan_core (request : MultiRepositoryRunRequestV1) (workspaceRoot : text) (registry : RepositoryRegistryV1) (dag : MultiRepositoryDagV1)
    (executions : list MultiRepositoryTaskExecutionV1) (capabilities : MultiRepositoryCapabilityPlanV1) (planDigest : string)
    : MaterializedMultiRepositoryRunPlanV1 := {|
  rpl_runId := request.(rr_runId); rpl_runEpoch := request.(rr_runEpoch); rpl_workspaceRoot := workspaceRoot; rpl_registry := registry; rpl_dag := dag;
  rpl_executions := executions; rpl_capabilities := capabilities; rpl_planDigest := planDigest |}.

Definition materializeMultiRepositoryRunPlan (request : MultiRepositoryRunRequestV1) (resolveIdentity : RepositoryIdentityResolver)
    : planning MaterializedMultiRepositoryRunPlanV1 :=
  let invalid := rpt_error MRO_INVALID_PLAN in
  ensure (isValidId request.(rr_runId) && between 1 256 (utf8_length request.(rr_runEpoch)) && isAbsolute request.(rr_workspaceRoot)) invalid ;;
  let workspaceRoot := resolve request.(rr_workspaceRoot) in
  registry ← map_err rpt_domain (materializeRepositoryRegistry request.(rr_repositoryDefinitions) resolveIdentity);
  ensure (negb (existsb (fun repository => pathsOverlap repository.(ri_canonicalRoot) workspaceRoot || pathsOverlap workspaceRoot repository.(ri_canonicalRoot))
                        registry)) invalid ;;
  dag ← map_err rpt_dag (materializeMultiRepositoryDag registry request.(rr_tasks));
  ensure (bool_decide (length request.(rr_executions) = length dag.(dag_tasks)) && unique (List.map ex_taskId request.(rr_executions))) invalid ;;
  executions ← map_result (plan_execution request registry) dag.(dag_tasks);
  roles ← validateCapabilities registry request.(rr_capabilities).(cap_roles);
  providers ← validateCapabilities registry request.(rr_capabilities).(cap_providers);
  let core := plan_core request workspaceRoot registry dag executions {| cap_roles := roles; cap_providers := providers |} in
  Ok (core (plan_digest_of (core ""))).
End run_plan.

Section facts.
Context {D : Digest} {C : Collation} {L : LowerCase} {U : UrlApi}.
Implicit Types (plan : MaterializedMultiRepositoryRunPlanV1) (task : MaterializedMultiRepositoryTaskV1) (e : MultiRepositoryTaskExecutionV1).

(** The branches of a task in one of its repositories: it works on one of its
    own, and integrates into another that is neither the default nor protected. *)
Record target_authorized (repository : RepositoryIdentityV1) (entry : MultiRepositoryTaskEntryPlanV1) : Prop := {
  ta_work : validBranch (tep_branch entry) = true;
  ta_target : exists branch, tep_targetRef entry = (heads_prefix ++ branch) /\ validBranch branch = true /\
    branch <> ri_defaultBranch repository /\ (branch ∉ ri_protectedBranches repository) /\ branch <> tep_branch entry;
  ta_provision : validateProvisionSpecs (default [] (tep_provision entry)) = []
}.

Record execution_authorized plan task e : Prop := {
  ea_task : ex_taskId e = task_id task;
  ea_role : exists ids, capability_of (cap_roles (rpl_capabilities plan)) (mt_roleId (mm_task task)) = Ok ids /\ (forall id, id ∈ rs_repositoryIds (mm_repositorySet task) -> id ∈ ids);
  ea_provider : exists ids, capability_of (cap_providers (rpl_capabilities plan)) (mt_providerId (mm_task task)) = Ok ids /\ (forall id, id ∈ rs_repositoryIds (mm_repositorySet task) -> id ∈ ids);
  ea_targets id : id ∈ mt_repositoryIds (mm_task task) ->
    exists repository entry, repository_of (rpl_registry plan) id = Some repository /\ entry_plan_of (ex_entries e) id = Some entry /\ target_authorized repository entry;
  ea_entries : length (ex_entries e) = length (mt_repositoryIds (mm_task task));
  ea_verified : 1 <= Z.of_nat (length (ex_verifyCommands e)) <= 64;
  ea_published publication : ex_publication e = Some publication ->
    pc_policyApproved publication = true /\
    forall id, id ∈ List.map pcf_repositoryId (pc_entries publication) <-> id ∈ mt_repositoryIds (mm_task task)
}.

Lemma startsWith_split prefix t : startsWith prefix t = true -> t = (prefix ++ drop (length prefix) t).
Proof using.
  revert t. induction prefix as [|c prefix IH]; intros t; [done|]. destruct t as [|d t]; [done|]. cbn. intros [->%Z.eqb_eq Hp]%andb_true_iff.
  cbn. f_equal. by apply IH.
Qed.

Lemma check_target_Ok registry entries id u :
  check_target registry entries id = Ok u ->
  exists repository entry, repository_of registry id = Some repository /\ entry_plan_of entries id = Some entry /\ target_authorized repository entry.
Proof using.
  unfold check_target. destruct (entry_plan_of entries id) as [entry|] eqn:Ee; [|done]. intros (_ & Hv%ensure_Ok & H)%bind_Ok.
  destruct (repository_of registry id) as [repository|] eqn:Er; [|done]. apply bind_Ok in H as (_ & Ht%ensure_Ok & Hp%ensure_Ok).
  exists repository, entry. split; [done|]. split; [done|]. apply bool_decide_eq_true in Hp. apply andb_true_iff in Hv as [Hb Ht'].
  apply negb_true_iff, orb_false_iff in Ht as [[Hd%bool_decide_eq_false Hpr%bool_decide_eq_false]%orb_false_iff Hw%bool_decide_eq_false].
  split; [done| |done]. unfold target_branch in *. destruct (startsWith heads_prefix (tep_targetRef entry)) eqn:Es; [|done].
  eexists. split; [by apply startsWith_split|]. split; [done|]. split; [done|]. split; [done|congruence].
Qed.

Lemma targets_Ok registry entries ids u :
  fold_result (fun _ id => check_target registry entries id) tt ids = Ok u -> forall id, id ∈ ids ->
  exists repository entry, repository_of registry id = Some repository /\ entry_plan_of entries id = Some entry /\ target_authorized repository entry.
Proof using.
  induction ids as [|i ids IH]; [by intros _ id ?%not_elem_of_nil|]. cbn. intros ([] & Hi & H)%bind_Ok id [->|Hin]%elem_of_cons; [by eapply check_target_Ok|by apply IH].
Qed.

Lemma same_vector_spec expected given : same_vector expected given = true -> NoDup expected -> forall id, id ∈ given <-> id ∈ expected.
Proof using.
  unfold same_vector, unique. intros [[Hl%bool_decide_eq_true Hn%bool_decide_eq_true]%andb_true_iff Hall]%andb_true_iff Hnd id.
  assert (expected ⊆ given) as Hs. { intros x Hx%list_elem_of_In. rewrite forallb_forall in Hall. by apply Hall, bool_decide_eq_true in Hx. }
  split; [|apply Hs]. intros Hid. assert (expected ≡ₚ given) as Hp; [|by rewrite Hp].
  apply submseteq_length_Permutation; [by apply NoDup_submseteq|lia].
Qed.

Lemma validateExecution_Ok task raw registry e :
  validateExecution task raw registry = Ok e -> NoDup (mt_repositoryIds (mm_task task)) ->
  e = raw /\ ex_taskId e = task_id task /\ length (ex_entries e) = length (mt_repositoryIds (mm_task task)) /\
  1 <= Z.of_nat (length (ex_verifyCommands e)) <= 64 /\
  (forall id, id ∈ mt_repositoryIds (mm_task task) -> exists repository entry,
     repository_of registry id = Some repository /\ entry_plan_of (ex_entries e) id = Some entry /\ target_authorized repository entry) /\
  (forall publication, ex_publication e = Some publication ->
    pc_policyApproved publication = true /\ forall id, id ∈ List.map pcf_repositoryId (pc_entries publication) <-> id ∈ mt_repositoryIds (mm_task task)).
Proof using.
  unfold validateExecution. intros (_ & Hb%ensure_Ok & H)%bind_Ok Hnd. apply bind_Ok in H as (_ & _ & H). apply bind_Ok in H as (u & Ht & H).
  apply bind_Ok in H as (_ & _ & H). apply bind_Ok in H as (_ & _ & H). pose proof (targets_Ok _ _ _ _ Ht) as Htargets.
  assert (e = raw /\ forall publication, ex_publication raw = Some publication ->
    pc_policyApproved publication && same_vector (mt_repositoryIds (mm_task task)) (List.map pcf_repositoryId (pc_entries publication)) = true) as [-> Hp].
  { destruct (ex_publication raw) as [publication|]; [|by injection H as <-]. apply bind_Ok in H as (_ & Hp%ensure_Ok & H). apply bind_Ok in H as (_ & _ & [= <-]).
    split; [done|]. by intros p' [= <-]. }
  unfold execution_bounded, between in Hb. guards. split_and!; try done; try lia.
  intros publication [Ha Hv]%Hp%andb_true_iff. split; [done|]. by apply same_vector_spec.
Qed.

Lemma capability_entry_ids registry input m : validateCapabilities registry input = Ok m -> m = input.
Proof using. unfold validateCapabilities. by intros (_ & _ & [= <-])%bind_Ok. Qed.

(** The plan is its request's, checked. *)
Record plan_authorized (request : MultiRepositoryRunRequestV1) plan : Prop := {
  pa_request : rpl_runId plan = rr_runId request /\ rpl_runEpoch plan = rr_runEpoch request /\ rpl_capabilities plan = rr_capabilities request /\
    rpl_workspaceRoot plan = resolve (rr_workspaceRoot request);
  pa_workspace repository : repository ∈ rpl_registry plan ->
    pathsOverlap (ri_canonicalRoot repository) (rpl_workspaceRoot plan) = false /\ pathsOverlap (rpl_workspaceRoot plan) (ri_canonicalRoot repository) = false;
  pa_executions : Forall2 (fun task e => e ∈ rr_executions request /\ execution_authorized plan task e) (dag_tasks (rpl_dag plan)) (rpl_executions plan);
  pa_digest : rpl_planDigest plan = plan_digest_of plan
}.

Lemma dag_sets registry raws dag t :
  materializeMultiRepositoryDag registry raws = Ok dag -> t ∈ dag_tasks dag ->
  materializeRepositorySet registry (mt_repositoryIds (mm_task t)) = Ok (mm_repositorySet t).
Proof using.
  unfold materializeMultiRepositoryDag. intros (g & Hg & ([] & He & H)%bind_Ok)%bind_Ok. apply read_tasks_inv in Hg as (Hread & _ & _).
  pose proof (layered_graph_spec _ _ _ Hread He) as Hs. rewrite H in Hs. destruct Hs as (k & _ & _ & _ & ->). cbn.
  intros Ht%elem_of_js_sort. by apply (read_valid _ _ _ Hread).
Qed.

Lemma plan_execution_Ok request registry task e plan :
  plan_execution request registry task = Ok e -> materializeRepositorySet registry (mt_repositoryIds (mm_task task)) = Ok (mm_repositorySet task) ->
  rpl_registry plan = registry -> rpl_capabilities plan = rr_capabilities request ->
  e ∈ rr_executions request /\ execution_authorized plan task e.
Proof using.
  intros He Hs Er Ec. destruct (materializeRepositorySet_Ok _ _ _ Hs) as (_ & _ & _ & _ & Hnd & _). clear Hs.
  unfold plan_execution, execution_of in He. destruct (List.find _ (rr_executions request)) as [raw|] eqn:Ef; [|done]. apply find_elem in Ef as [Hin _].
  apply bind_Ok in He as (role & Hrole & He). apply bind_Ok in He as (provider & Hprovider & He). apply bind_Ok in He as ([] & Hscope & He).
  destruct (assertRepositoryScope _ role provider) as [[]|c] eqn:Es; [|done]. rewrite assertRepositoryScope_Ok in Es.
  apply validateExecution_Ok in He as (-> & Ht & Hl & Hv & Htargets & Hpub); [|done]. split; [done|].
  split; rewrite ?Er, ?Ec; try done; [exists role|exists provider]; (split; [done|]; by intros id []%Es).
Qed.

Lemma materialized_authorized request resolveIdentity plan :
  materializeMultiRepositoryRunPlan request resolveIdentity = Ok plan -> plan_authorized request plan.
Proof using.
  unfold materializeMultiRepositoryRunPlan. intros H. apply bind_Ok in H as (_ & _ & H). apply bind_Ok in H as (registry & _ & H).
  apply bind_Ok in H as (_ & Hw%ensure_Ok & H). apply bind_Ok in H as (dag & Hdag & H). apply bind_Ok in H as (_ & _ & H).
  apply bind_Ok in H as (executions & He%map_result_Ok & H). apply bind_Ok in H as (roles & ->%capability_entry_ids & H).
  apply bind_Ok in H as (providers & ->%capability_entry_ids & [= <-]). split; cbn.
  - split_and!; try done. by destruct (rr_capabilities request).
  - intros repository Hr. apply negb_true_iff, existsb_false in Hw. rewrite Forall_forall in Hw. specialize (Hw _ Hr). by apply orb_false_iff in Hw.
  - destruct (materializeMultiRepositoryDag _ _) as [dag'|] eqn:Ed; [|done]. injection Hdag as ->.
    assert (forall t, t ∈ dag_tasks dag -> materializeRepositorySet registry (mt_repositoryIds (mm_task t)) = Ok (mm_repositorySet t)) as Hsets.
    { intros t. by eapply dag_sets. }
    match goal with |- Forall2 (fun t e => _ /\ execution_authorized ?p t e) _ _ => set (made := p) end.
    assert (rpl_registry made = registry /\ rpl_capabilities made = rr_capabilities request) as [Er Ec] by (split; [done|cbn; by destruct (rr_capabilities request)]).
    clearbody made. clear Ed Hw. induction He as [|task e tasks es Ht _ IH]; constructor; [|by apply IH; intros t Hin; apply Hsets; right].
    eapply plan_execution_Ok; [done|apply Hsets; left|done..].
  - done.
Qed.
End facts.
