(* ===== verification/Canonical.v ===== *)
(** Canonical: the durable facts of a multi-repository run
    (src/multirepo/orchestration.ts): their data, their JSON and their closed
    schema. *)
From Stdlib Require Import Ascii.
From S2P Require Import Prelude Text Json Ids ScmTypes ScmSchema SchedulerEvents Domain Dag Effects Lists GitTransaction Verification Integration Publication RunPlan.

(** * Data *)

Inductive WorktreeGroupState := wg_creating | wg_ready | wg_rolling_back | wg_reclaiming | wg_recovery_required | wg_reclaimed.
#[export] Instance WorktreeGroupState_eq_dec : EqDecision WorktreeGroupState. Proof. solve_decision. Defined.

Record MultiRepositoryWorkerMemberV1 := { wm_repositoryId : string; wm_path : text; wm_branch : text; wm_anchorOid : string }.

Record MultiRepositoryWorkerSettlementV1 := {
  se_processIdentity : text;
  se_settlementCallId : text;
  se_outputDigest : string;
  se_summary : text;
  se_transportTrusted : bool;
  se_scopeTrusted : bool;
  se_scopeReaped : bool;
  se_settlementTrusted : bool
}.

Record MultiRepositoryCanonicalWorktreeFactV1 := {
  wt_factId : string;
  wt_taskId : string;
  wt_taskGeneration : Z;
  wt_leaseToken : string;
  wt_groupRoot : text;
  wt_groupId : string;
  wt_repositorySetId : string;
  wt_state : WorktreeGroupState;
  wt_receiptDigest : string;
  wt_members : list MultiRepositoryWorkerMemberV1;
  wt_issueCodes : list string
}.

Record MultiRepositoryCanonicalWorkerFactV1 := {
  wk_factId : string;
  wk_taskId : string;
  wk_taskGeneration : Z;
  wk_attemptId : string;
  wk_leaseToken : string;
  wk_settlement : MultiRepositoryWorkerSettlementV1
}.

Record MultiRepositoryCanonicalCommitIntentFactV1 := {
  in_factId : string;
  in_taskId : string;
  in_taskGeneration : Z;
  in_attemptId : string;
  in_leaseToken : string;
  in_repositoryId : string;
  in_branchRef : text;
  in_expectedOid : string;
  in_treeOid : string;
  in_message : text
}.

Record MultiRepositoryCanonicalHeadFactV1 := {
  hd_factId : string;
  hd_taskId : string;
  hd_taskGeneration : Z;
  hd_attemptId : string;
  hd_leaseToken : string;
  hd_repositoryId : string;
  hd_branchRef : text;
  hd_expectedOid : string;
  hd_childOid : string;
  hd_treeOid : string
}.

Record MultiRepositoryCanonicalLocalReceiptFactV1 := {
  lr_factId : string;
  lr_taskId : string;
  lr_taskGeneration : Z;
  lr_leaseToken : string;
  lr_transactionId : string;
  lr_repositorySetId : string;
  lr_verificationReceiptDigest : string;
  lr_appliedEntriesDigest : string;
  lr_receiptDigest : string
}.

Inductive MultiRepositoryCanonicalFactV1 :=
| multirepo_plan_registered (factId : string) (plan : MaterializedMultiRepositoryRunPlanV1)
| multirepo_scheduler_transitioned (factId : string) (event : MultiRepoSchedulerEventV1)
| multirepo_worktree_group_recorded (f : MultiRepositoryCanonicalWorktreeFactV1)
| multirepo_worker_settled (f : MultiRepositoryCanonicalWorkerFactV1)
| multirepo_worktree_commit_intended (f : MultiRepositoryCanonicalCommitIntentFactV1)
| multirepo_worktree_head_recorded (f : MultiRepositoryCanonicalHeadFactV1)
| multirepo_integration_transitioned (factId taskId : string) (taskGeneration : Z) (leaseToken : string) (event : MultiRepoIntegrationEventV1)
| multirepo_local_integration_receipted (f : MultiRepositoryCanonicalLocalReceiptFactV1)
| multirepo_publication_transitioned (factId taskId : string) (taskGeneration : Z) (event : MultiRepoPublicationEventV1).

Definition fact_id (f : MultiRepositoryCanonicalFactV1) : string :=
  match f with
  | multirepo_plan_registered id _ | multirepo_scheduler_transitioned id _ | multirepo_integration_transitioned id _ _ _ _
  | multirepo_publication_transitioned id _ _ _ => id
  | multirepo_worktree_group_recorded f => f.(wt_factId)
  | multirepo_worker_settled f => f.(wk_factId)
  | multirepo_worktree_commit_intended f => f.(in_factId)
  | multirepo_worktree_head_recorded f => f.(hd_factId)
  | multirepo_local_integration_receipted f => f.(lr_factId)
  end.

(** * JSON *)

Definition WorktreeGroupState_name (s : WorktreeGroupState) : string :=
  match s with
  | wg_creating => "creating" | wg_ready => "ready" | wg_rolling_back => "rolling_back"
  | wg_reclaiming => "reclaiming" | wg_recovery_required => "recovery_required" | wg_reclaimed => "reclaimed"
  end.

Definition member_json (m : MultiRepositoryWorkerMemberV1) : json := jobj [
  ("repositoryId", jstr m.(wm_repositoryId)); ("path", JString m.(wm_path)); ("branch", JString m.(wm_branch)); ("anchorOid", jstr m.(wm_anchorOid))]%string.

Definition settlement_json (s : MultiRepositoryWorkerSettlementV1) : json := jobj [
  ("schemaVersion", jnum 1); ("processIdentity", JString s.(se_processIdentity)); ("settlementCallId", JString s.(se_settlementCallId));
  ("outputDigest", jstr s.(se_outputDigest)); ("summary", JString s.(se_summary)); ("transportTrusted", JBoolean s.(se_transportTrusted));
  ("scopeTrusted", JBoolean s.(se_scopeTrusted)); ("scopeReaped", JBoolean s.(se_scopeReaped)); ("settlementTrusted", JBoolean s.(se_settlementTrusted))]%string.

Definition run_plan_json (p : MaterializedMultiRepositoryRunPlanV1) : json :=
  match plan_core_json p with
  | JObject fields => JObject (fields ++ [(text_of_string "planDigest", jstr p.(rpl_planDigest))])
  | other => other
  end.

Definition fact_kind (f : MultiRepositoryCanonicalFactV1) : string :=
  match f with
  | multirepo_plan_registered _ _ => "multirepo.plan_registered"
  | multirepo_scheduler_transitioned _ _ => "multirepo.scheduler_transitioned"
  | multirepo_worktree_group_recorded _ => "multirepo.worktree_group_recorded"
  | multirepo_worker_settled _ => "multirepo.worker_settled"
  | multirepo_worktree_commit_intended _ => "multirepo.worktree_commit_intended"
  | multirepo_worktree_head_recorded _ => "multirepo.worktree_head_recorded"
  | multirepo_integration_transitioned _ _ _ _ _ => "multirepo.integration_transitioned"
  | multirepo_local_integration_receipted _ => "multirepo.local_integration_receipted"
  | multirepo_publication_transitioned _ _ _ _ => "multirepo.publication_transitioned"
  end.

Definition task_fields (taskId : string) (taskGeneration : Z) : list (string * json) :=
  [("taskId", jstr taskId); ("taskGeneration", jnum taskGeneration)]%string.
Definition leased_fields (taskId : string) (taskGeneration : Z) (leaseToken : string) : list (string * json) :=
  task_fields taskId taskGeneration ++ [("leaseToken"%string, jstr leaseToken)].

Definition fact_fields (f : MultiRepositoryCanonicalFactV1) : list (string * json) :=
  match f with
  | multirepo_plan_registered _ plan => [("plan"%string, run_plan_json plan)]
  | multirepo_scheduler_transitioned _ event => [("event"%string, SchedulerEvent_json event)]
  | multirepo_worktree_group_recorded f =>
      leased_fields f.(wt_taskId) f.(wt_taskGeneration) f.(wt_leaseToken) ++
      [("groupRoot", JString f.(wt_groupRoot)); ("groupId", jstr f.(wt_groupId)); ("repositorySetId", jstr f.(wt_repositorySetId));
       ("state", jstr (WorktreeGroupState_name f.(wt_state))); ("receiptDigest", jstr f.(wt_receiptDigest));
       ("members", jlist member_json f.(wt_members)); ("issueCodes", jlist jstr f.(wt_issueCodes))]%string
  | multirepo_worker_settled f =>
      leased_fields f.(wk_taskId) f.(wk_taskGeneration) f.(wk_leaseToken) ++
      [("attemptId", jstr f.(wk_attemptId)); ("settlement", settlement_json f.(wk_settlement))]%string
  | multirepo_worktree_commit_intended f =>
      leased_fields f.(in_taskId) f.(in_taskGeneration) f.(in_leaseToken) ++
      [("attemptId", jstr f.(in_attemptId)); ("repositoryId", jstr f.(in_repositoryId)); ("branchRef", JString f.(in_branchRef));
       ("expectedOid", jstr f.(in_expectedOid)); ("treeOid", jstr f.(in_treeOid)); ("message", JString f.(in_message))]%string
  | multirepo_worktree_head_recorded f =>
      leased_fields f.(hd_taskId) f.(hd_taskGeneration) f.(hd_leaseToken) ++
      [("attemptId", jstr f.(hd_attemptId)); ("repositoryId", jstr f.(hd_repositoryId)); ("branchRef", JString f.(hd_branchRef));
       ("expectedOid", jstr f.(hd_expectedOid)); ("childOid", jstr f.(hd_childOid)); ("treeOid", jstr f.(hd_treeOid))]%string
  | multirepo_integration_transitioned _ taskId taskGeneration leaseToken event =>
      leased_fields taskId taskGeneration leaseToken ++ [("event"%string, integration_event_json event)]
  | multirepo_local_integration_receipted f =>
      leased_fields f.(lr_taskId) f.(lr_taskGeneration) f.(lr_leaseToken) ++
      [("transactionId", jstr f.(lr_transactionId)); ("repositorySetId", jstr f.(lr_repositorySetId));
       ("verificationReceiptDigest", jstr f.(lr_verificationReceiptDigest)); ("appliedEntriesDigest", jstr f.(lr_appliedEntriesDigest));
       ("receiptDigest", jstr f.(lr_receiptDigest))]%string
  | multirepo_publication_transitioned _ taskId taskGeneration event =>
      task_fields taskId taskGeneration ++ [("event"%string, publication_event_json event)]
  end.

Definition fact_json (f : MultiRepositoryCanonicalFactV1) : json := jobj (
  [("schemaVersion", jnum 1); ("kind", jstr (fact_kind f)); ("factId", jstr (fact_id f))]%string ++ fact_fields f).

(** * Schema *)

Definition canonicalLease (s : string) : bool :=
  between 16 128 (strlen s) && starts_with is_alnum s && all_chars is_bounded_char s.
Definition canonicalPath (t : text) : bool := between 1 4096 (textlen t).
Definition canonicalRef (t : text) : bool := between 1 512 (textlen t).
Definition nonempty_at_most {A} (n : Z) (l : list A) : bool := between 1 n (Z.of_nat (length l)).

Definition provisionSpecSchema (s : ProvisionSpec) : bool :=
  canonicalPath s.(sp_path) && optional (fun l => forallb canonicalPath l && at_most 64 l) s.(sp_requiredExecutables).

Definition repositorySetSchema (s : RepositorySetV1) : bool :=
  forallb isValidId s.(rs_repositoryIds) && nonempty_at_most 32 s.(rs_repositoryIds) && digest s.(rs_repositorySetId).

Definition materializedTaskSchema (t : MaterializedMultiRepositoryTaskV1) : bool :=
  MultiRepositoryTaskV1Schema t.(mm_task) && repositorySetSchema t.(mm_repositorySet).

Definition registrySchema (r : RepositoryRegistryV1) : bool := forallb RepositoryIdentityV1Schema r && nonempty_at_most 64 r.

(** [z.record(key, value)] *)
Definition record_schema {V} (value : V -> bool) (m : gmap string V) : bool :=
  forallb (fun kv => isValidId kv.1 && value kv.2) (map_to_list m).

Definition dagSchema (g : MultiRepositoryDagV1) : bool :=
  forallb materializedTaskSchema g.(dag_tasks) && nonempty_at_most 4096 g.(dag_tasks)
  && forallb isValidId g.(dag_order) && nonempty_at_most 4096 g.(dag_order)
  && forallb (fun layer => forallb isValidId layer && nonempty_at_most 4096 layer) g.(dag_layers) && nonempty_at_most 256 g.(dag_layers)
  && record_schema (fun l => forallb isValidId l && at_most 4096 l) g.(dag_dependents)
  && record_schema (between 0 256) g.(dag_depthByTask) && between 0 16384 g.(dag_edgeCount).

Definition taskEntryPlanSchema (e : MultiRepositoryTaskEntryPlanV1) : bool :=
  isValidId e.(tep_repositoryId) && canonicalRef e.(tep_branch) && canonicalRef e.(tep_targetRef)
  && optional (fun l => forallb provisionSpecSchema l && at_most 128 l) e.(tep_provision).

Definition publicationEntryConfigSchema (e : MultiRepositoryPublicationEntryConfigV1) : bool :=
  isValidId e.(pcf_repositoryId) && isValidId e.(pcf_publicationId) && between 1 256 (strlen e.(pcf_remoteName))
  && (textlen e.(pcf_expectedPushUrl) <=? 4096) && canonicalRef e.(pcf_remoteRef) && optional gitOid e.(pcf_expectedRemoteOid)
  && canonicalRef e.(pcf_baseRef) && (textlen e.(pcf_title) <=? 512) && (textlen e.(pcf_body) <=? 16 * 1024).

Definition executionSchema (e : MultiRepositoryTaskExecutionV1) : bool :=
  isValidId e.(ex_taskId) && between (-1000) 1000 e.(ex_priority) && forallb taskEntryPlanSchema e.(ex_entries) && nonempty_at_most 32 e.(ex_entries)
  && forallb (fun c => between 1 4096 (textlen c)) e.(ex_verifyCommands) && nonempty_at_most 64 e.(ex_verifyCommands)
  && forallb (fun kv => environmentKey kv.1 && (textlen kv.2 <=? 16 * 1024)) e.(ex_verifyEnvironment)
  && between 1 (8 * 1024) (textlen e.(ex_commitMessage))
  && optional (fun p => p.(pc_policyApproved) && forallb publicationEntryConfigSchema p.(pc_entries) && nonempty_at_most 32 p.(pc_entries)) e.(ex_publication).

Definition capabilitySchema (m : CapabilityMap) : bool :=
  forallb (fun kv => isValidId kv.1 && forallb isValidId kv.2 && nonempty_at_most 64 kv.2) m.

Definition materializedPlanSchema (p : MaterializedMultiRepositoryRunPlanV1) : bool :=
  isValidId p.(rpl_runId) && between 1 256 (textlen p.(rpl_runEpoch)) && canonicalPath p.(rpl_workspaceRoot) && registrySchema p.(rpl_registry)
  && dagSchema p.(rpl_dag) && forallb executionSchema p.(rpl_executions) && nonempty_at_most 4096 p.(rpl_executions)
  && capabilitySchema p.(rpl_capabilities).(cap_roles) && capabilitySchema p.(rpl_capabilities).(cap_providers) && digest p.(rpl_planDigest).

Definition workerMemberSchema (m : MultiRepositoryWorkerMemberV1) : bool :=
  isValidId m.(wm_repositoryId) && canonicalPath m.(wm_path) && canonicalRef m.(wm_branch) && gitOid m.(wm_anchorOid).

Definition settlementSchema (s : MultiRepositoryWorkerSettlementV1) : bool :=
  between 1 512 (textlen s.(se_processIdentity)) && between 1 512 (textlen s.(se_settlementCallId)) && digest s.(se_outputDigest)
  && (textlen s.(se_summary) <=? 8 * 1024).

Definition leased_schema (taskId : string) (taskGeneration : Z) (leaseToken : string) : bool :=
  isValidId taskId && positive taskGeneration && canonicalLease leaseToken.

(** The schema on a fact whose URLs zod has taken. *)
Definition MultiRepositoryCanonicalFactV1Schema (f : MultiRepositoryCanonicalFactV1) : bool :=
  isValidId (fact_id f) &&
  match f with
  | multirepo_plan_registered _ plan => materializedPlanSchema plan
  | multirepo_scheduler_transitioned _ event => MultiRepoSchedulerEventV1Schema event
  | multirepo_worktree_group_recorded f =>
      leased_schema f.(wt_taskId) f.(wt_taskGeneration) f.(wt_leaseToken) && canonicalPath f.(wt_groupRoot) && isValidId f.(wt_groupId)
      && digest f.(wt_repositorySetId) && digest f.(wt_receiptDigest) && forallb workerMemberSchema f.(wt_members) && at_most 32 f.(wt_members)
      && forallb isValidId f.(wt_issueCodes) && at_most 128 f.(wt_issueCodes)
  | multirepo_worker_settled f =>
      leased_schema f.(wk_taskId) f.(wk_taskGeneration) f.(wk_leaseToken) && isValidId f.(wk_attemptId) && settlementSchema f.(wk_settlement)
  | multirepo_worktree_commit_intended f =>
      leased_schema f.(in_taskId) f.(in_taskGeneration) f.(in_leaseToken) && isValidId f.(in_attemptId) && isValidId f.(in_repositoryId)
      && canonicalRef f.(in_branchRef) && gitOid f.(in_expectedOid) && gitOid f.(in_treeOid) && between 1 (8 * 1024) (textlen f.(in_message))
  | multirepo_worktree_head_recorded f =>
      leased_schema f.(hd_taskId) f.(hd_taskGeneration) f.(hd_leaseToken) && isValidId f.(hd_attemptId) && isValidId f.(hd_repositoryId)
      && canonicalRef f.(hd_branchRef) && gitOid f.(hd_expectedOid) && gitOid f.(hd_childOid) && gitOid f.(hd_treeOid)
  | multirepo_integration_transitioned _ taskId taskGeneration leaseToken event =>
      leased_schema taskId taskGeneration leaseToken && MultiRepoIntegrationEventV1Schema event
  | multirepo_local_integration_receipted f =>
      leased_schema f.(lr_taskId) f.(lr_taskGeneration) f.(lr_leaseToken) && isValidId f.(lr_transactionId) && digest f.(lr_repositorySetId)
      && digest f.(lr_verificationReceiptDigest) && digest f.(lr_appliedEntriesDigest) && digest f.(lr_receiptDigest)
  | multirepo_publication_transitioned _ taskId taskGeneration event =>
      isValidId taskId && positive taskGeneration && MultiRepoPublicationEventV1Schema event
  end.

Section parse.
Context {Z0 : ZodUrl}.

Definition config_with_url (e : MultiRepositoryPublicationEntryConfigV1) (url : text) : MultiRepositoryPublicationEntryConfigV1 := {|
  pcf_repositoryId := e.(pcf_repositoryId); pcf_publicationId := e.(pcf_publicationId); pcf_remoteName := e.(pcf_remoteName);
  pcf_expectedPushUrl := url; pcf_remoteRef := e.(pcf_remoteRef); pcf_expectedRemoteOid := e.(pcf_expectedRemoteOid);
  pcf_baseRef := e.(pcf_baseRef); pcf_title := e.(pcf_title); pcf_body := e.(pcf_body) |}.

Definition execution_urls (e : MultiRepositoryTaskExecutionV1) : option MultiRepositoryTaskExecutionV1 :=
  match e.(ex_publication) with
  | None => Some e
  | Some p =>
      entries ← mapM (fun c => config_with_url c <$> zod_url c.(pcf_expectedPushUrl)) p.(pc_entries);
      Some {| ex_taskId := e.(ex_taskId); ex_priority := e.(ex_priority); ex_entries := e.(ex_entries); ex_verifyCommands := e.(ex_verifyCommands);
              ex_verifyEnvironment := e.(ex_verifyEnvironment); ex_commitMessage := e.(ex_commitMessage);
              ex_publication := Some {| pc_policyApproved := p.(pc_policyApproved); pc_entries := entries |} |}
  end.

Definition plan_urls (p : MaterializedMultiRepositoryRunPlanV1) : option MaterializedMultiRepositoryRunPlanV1 :=
  executions ← mapM execution_urls p.(rpl_executions);
  Some {| rpl_runId := p.(rpl_runId); rpl_runEpoch := p.(rpl_runEpoch); rpl_workspaceRoot := p.(rpl_workspaceRoot); rpl_registry := p.(rpl_registry);
          rpl_dag := p.(rpl_dag); rpl_executions := executions; rpl_capabilities := p.(rpl_capabilities); rpl_planDigest := p.(rpl_planDigest) |}.

Definition fact_urls (f : MultiRepositoryCanonicalFactV1) : option MultiRepositoryCanonicalFactV1 :=
  match f with
  | multirepo_plan_registered id plan => multirepo_plan_registered id <$> plan_urls plan
  | multirepo_publication_transitioned id taskId generation event =>
      multirepo_publication_transitioned id taskId generation <$> parseMultiRepoPublicationEvent event
  | _ => Some f
  end.

(** [None] is the thrown ZodError. *)
Definition parseMultiRepositoryCanonicalFact (f : MultiRepositoryCanonicalFactV1) : option MultiRepositoryCanonicalFactV1 :=
  parsed ← fact_urls f;
  if MultiRepositoryCanonicalFactV1Schema parsed then Some parsed else None.
End parse.
