(* ===== verification/CanonicalProjection.v ===== *)
(** CanonicalProjection: the projection of the durable facts of a
    multi-repository run (projectMultiRepositoryCanonicalFacts of
    src/multirepo/orchestration.ts), composed of the folds of the scheduler, the
    integrations and the publications; the accepted facts of a run, the folds and
    registers they compose, and what a publication rests on. *)
From Stdlib Require Import Ascii.
From S2P Require Import Prelude Text Json Ids ScmTypes ScmSchema EventSchema SchedulerEvents Scheduler Domain Dag Effects Lists GitTransaction Verification Integration Publication RunPlan Canonical.

Definition maximumJournalFacts : Z := 200000.

Record MultiRepositoryCanonicalProjectionV1 := {
  cp_plan : option MaterializedMultiRepositoryRunPlanV1;
  cp_scheduler : MultiRepoSchedulerProjectionV1;
  cp_worktreeGroups : obj MultiRepositoryCanonicalWorktreeFactV1;
  cp_workers : obj MultiRepositoryCanonicalWorkerFactV1;
  cp_commitIntents : obj MultiRepositoryCanonicalCommitIntentFactV1;
  cp_heads : obj MultiRepositoryCanonicalHeadFactV1;
  cp_integrations : obj MultiRepoIntegrationProjectionV1;
  cp_localReceipts : obj MultiRepositoryCanonicalLocalReceiptFactV1;
  cp_publications : obj MultiRepoPublicationProjectionV1;
  cp_seenFactIds : obj string
}.

Definition emptyCanonicalProjection : MultiRepositoryCanonicalProjectionV1 := {|
  cp_plan := None; cp_scheduler := emptyMultiRepoSchedulerProjection; cp_worktreeGroups := ∅; cp_workers := ∅; cp_commitIntents := ∅;
  cp_heads := ∅; cp_integrations := ∅; cp_localReceipts := ∅; cp_publications := ∅; cp_seenFactIds := ∅ |}.

(** What the projection throws: its own errors, those of the folds, and the
    TypeError of a property of a member inherited from [Object.prototype]. *)
Inductive CanonicalThrow :=
| ct_error (code : MultiRepositoryOrchestrationErrorCode)
| ct_scheduler (code : MultiRepoSchedulerErrorCode)
| ct_integration (code : MultiRepoIntegrationErrorCode)
| ct_publication (code : MultiRepoPublicationErrorCode)
| ct_type_error.

Abbreviation projecting := (result CanonicalThrow).
Abbreviation corrupt := (ct_error MRO_CANONICAL_HISTORY_CORRUPT).

(** [`${taskId}\0${repositoryId}`] *)
Definition taskRepositoryKey (taskId repositoryId : string) : string := taskId +:+ String Ascii.zero repositoryId.

(** The task with this generation that holds a lease with this token. *)
Definition task_under_lease (s : MultiRepoSchedulerProjectionV1) (taskId : string) (taskGeneration : Z) (leaseToken : string)
    : option (SchedulerTaskProjectionV1 * SchedulerLeaseV1) :=
  match obj_get s.(mp_tasks) taskId with
  | Own task =>
      lease ← lease_of_token task leaseToken;
      if task.(st_taskGeneration) =? taskGeneration then Some (task, lease) else None
  | _ => None
  end.

(** The lease is also for this attempt. *)
Definition leased_attempt (s : MultiRepoSchedulerProjectionV1) (taskId : string) (taskGeneration : Z) (leaseToken attemptId : string) : bool :=
  match task_under_lease s taskId taskGeneration leaseToken with
  | Some (_, lease) => bool_decide (lease.(ls_fields).(lf_attemptId) = attemptId)
  | None => false
  end.

(** [o[k]] as the first argument of a fold: an inherited member is no projection. *)
Definition member_of {V} (o : obj V) (k : string) : projecting (option V) :=
  match obj_get o k with Own v => Ok (Some v) | Absent => Ok None | Inherited => Err ct_type_error end.

Section canonical.
Context {D : Digest} {C : Collation} {Z0 : ZodUrl}.

Definition factDigest (f : MultiRepositoryCanonicalFactV1) : string := orchestration_digest "relayforge-multirepo-canonical-fact-v1" (fact_json f).

Definition localIntegrationReceiptDigest (transactionId repositorySetId verificationReceiptDigest appliedEntriesDigest : string) : string :=
  orchestration_digest "relayforge-local-integration-receipt-v1"
    (JArray [jstr transactionId; jstr repositorySetId; jstr verificationReceiptDigest; jstr appliedEntriesDigest]).

(** The setters of the projection. *)
Definition put_plan (plan : MaterializedMultiRepositoryRunPlanV1) (p : MultiRepositoryCanonicalProjectionV1) : MultiRepositoryCanonicalProjectionV1 := {|
  cp_plan := Some plan; cp_scheduler := p.(cp_scheduler); cp_worktreeGroups := p.(cp_worktreeGroups); cp_workers := p.(cp_workers);
  cp_commitIntents := p.(cp_commitIntents); cp_heads := p.(cp_heads); cp_integrations := p.(cp_integrations); cp_localReceipts := p.(cp_localReceipts);
  cp_publications := p.(cp_publications); cp_seenFactIds := p.(cp_seenFactIds) |}.
Definition put_scheduler (s : MultiRepoSchedulerProjectionV1) (p : MultiRepositoryCanonicalProjectionV1) : MultiRepositoryCanonicalProjectionV1 := {|
  cp_plan := p.(cp_plan); cp_scheduler := s; cp_worktreeGroups := p.(cp_worktreeGroups); cp_workers := p.(cp_workers);
  cp_commitIntents := p.(cp_commitIntents); cp_heads := p.(cp_heads); cp_integrations := p.(cp_integrations); cp_localReceipts := p.(cp_localReceipts);
  cp_publications := p.(cp_publications); cp_seenFactIds := p.(cp_seenFactIds) |}.
Definition put_worktree (f : MultiRepositoryCanonicalWorktreeFactV1) (p : MultiRepositoryCanonicalProjectionV1) : MultiRepositoryCanonicalProjectionV1 := {|
  cp_plan := p.(cp_plan); cp_scheduler := p.(cp_scheduler); cp_worktreeGroups := <[f.(wt_taskId) := f]> p.(cp_worktreeGroups); cp_workers := p.(cp_workers);
  cp_commitIntents := p.(cp_commitIntents); cp_heads := p.(cp_heads); cp_integrations := p.(cp_integrations); cp_localReceipts := p.(cp_localReceipts);
  cp_publications := p.(cp_publications); cp_seenFactIds := p.(cp_seenFactIds) |}.
Definition put_worker (f : MultiRepositoryCanonicalWorkerFactV1) (p : MultiRepositoryCanonicalProjectionV1) : MultiRepositoryCanonicalProjectionV1 := {|
  cp_plan := p.(cp_plan); cp_scheduler := p.(cp_scheduler); cp_worktreeGroups := p.(cp_worktreeGroups); cp_workers := <[f.(wk_taskId) := f]> p.(cp_workers);
  cp_commitIntents := p.(cp_commitIntents); cp_heads := p.(cp_heads); cp_integrations := p.(cp_integrations); cp_localReceipts := p.(cp_localReceipts);
  cp_publications := p.(cp_publications); cp_seenFactIds := p.(cp_seenFactIds) |}.
Definition put_intent (key : string) (f : MultiRepositoryCanonicalCommitIntentFactV1) (p : MultiRepositoryCanonicalProjectionV1) : MultiRepositoryCanonicalProjectionV1 := {|
  cp_plan := p.(cp_plan); cp_scheduler := p.(cp_scheduler); cp_worktreeGroups := p.(cp_worktreeGroups); cp_workers := p.(cp_workers);
  cp_commitIntents := <[key := f]> p.(cp_commitIntents); cp_heads := p.(cp_heads); cp_integrations := p.(cp_integrations); cp_localReceipts := p.(cp_localReceipts);
  cp_publications := p.(cp_publications); cp_seenFactIds := p.(cp_seenFactIds) |}.
Definition put_head (key : string) (f : MultiRepositoryCanonicalHeadFactV1) (p : MultiRepositoryCanonicalProjectionV1) : MultiRepositoryCanonicalProjectionV1 := {|
  cp_plan := p.(cp_plan); cp_scheduler := p.(cp_scheduler); cp_worktreeGroups := p.(cp_worktreeGroups); cp_workers := p.(cp_workers);
  cp_commitIntents := p.(cp_commitIntents); cp_heads := <[key := f]> p.(cp_heads); cp_integrations := p.(cp_integrations); cp_localReceipts := p.(cp_localReceipts);
  cp_publications := p.(cp_publications); cp_seenFactIds := p.(cp_seenFactIds) |}.
Definition put_integration (tx : string) (i : MultiRepoIntegrationProjectionV1) (p : MultiRepositoryCanonicalProjectionV1) : MultiRepositoryCanonicalProjectionV1 := {|
  cp_plan := p.(cp_plan); cp_scheduler := p.(cp_scheduler); cp_worktreeGroups := p.(cp_worktreeGroups); cp_workers := p.(cp_workers);
  cp_commitIntents := p.(cp_commitIntents); cp_heads := p.(cp_heads); cp_integrations := <[tx := i]> p.(cp_integrations); cp_localReceipts := p.(cp_localReceipts);
  cp_publications := p.(cp_publications); cp_seenFactIds := p.(cp_seenFactIds) |}.
Definition put_receipt (f : MultiRepositoryCanonicalLocalReceiptFactV1) (p : MultiRepositoryCanonicalProjectionV1) : MultiRepositoryCanonicalProjectionV1 := {|
  cp_plan := p.(cp_plan); cp_scheduler := p.(cp_scheduler); cp_worktreeGroups := p.(cp_worktreeGroups); cp_workers := p.(cp_workers);
  cp_commitIntents := p.(cp_commitIntents); cp_heads := p.(cp_heads); cp_integrations := p.(cp_integrations); cp_localReceipts := <[f.(lr_taskId) := f]> p.(cp_localReceipts);
  cp_publications := p.(cp_publications); cp_seenFactIds := p.(cp_seenFactIds) |}.
Definition put_publication (tx : string) (b : MultiRepoPublicationProjectionV1) (p : MultiRepositoryCanonicalProjectionV1) : MultiRepositoryCanonicalProjectionV1 := {|
  cp_plan := p.(cp_plan); cp_scheduler := p.(cp_scheduler); cp_worktreeGroups := p.(cp_worktreeGroups); cp_workers := p.(cp_workers);
  cp_commitIntents := p.(cp_commitIntents); cp_heads := p.(cp_heads); cp_integrations := p.(cp_integrations); cp_localReceipts := p.(cp_localReceipts);
  cp_publications := <[tx := b]> p.(cp_publications); cp_seenFactIds := p.(cp_seenFactIds) |}.
Definition see_fact (id hash : string) (p : MultiRepositoryCanonicalProjectionV1) : MultiRepositoryCanonicalProjectionV1 := {|
  cp_plan := p.(cp_plan); cp_scheduler := p.(cp_scheduler); cp_worktreeGroups := p.(cp_worktreeGroups); cp_workers := p.(cp_workers);
  cp_commitIntents := p.(cp_commitIntents); cp_heads := p.(cp_heads); cp_integrations := p.(cp_integrations); cp_localReceipts := p.(cp_localReceipts);
  cp_publications := p.(cp_publications); cp_seenFactIds := <[id := hash]> p.(cp_seenFactIds) |}.

(** The receipt binds an applied verified vector. *)
Definition receipt_binds (i : slot MultiRepoIntegrationProjectionV1) (f : MultiRepositoryCanonicalLocalReceiptFactV1) : bool :=
  match i with
  | Own i =>
      bool_decide (i.(mi_state) = mi_applied) && bool_decide (i.(mi_repositorySetId) = f.(lr_repositorySetId))
      && match i.(mi_verification) with Some v => bool_decide (v.(cr_receiptDigest) = f.(lr_verificationReceiptDigest)) | None => false end
  | _ => false
  end.

(** The head is the one its durable commit intent names. *)
Definition head_intended (intent : option MultiRepositoryCanonicalCommitIntentFactV1) (f : MultiRepositoryCanonicalHeadFactV1) : bool :=
  match intent with
  | Some i =>
      (i.(in_taskGeneration) =? f.(hd_taskGeneration)) && bool_decide (i.(in_leaseToken) = f.(hd_leaseToken))
      && bool_decide (i.(in_expectedOid) = f.(hd_expectedOid)) && bool_decide (i.(in_treeOid) = f.(hd_treeOid)) && bool_decide (i.(in_branchRef) = f.(hd_branchRef))
  | None => false
  end.

(** The switch on the kind of the fact. A key with a NUL is no inherited one. *)
Definition apply_fact (p : MultiRepositoryCanonicalProjectionV1) (fact : MultiRepositoryCanonicalFactV1) : projecting MultiRepositoryCanonicalProjectionV1 :=
  match fact with
  | multirepo_plan_registered _ plan =>
      ensure (lacks p.(cp_plan) && bool_decide (plan.(rpl_planDigest) = plan_digest_of plan)) corrupt ;;
      Ok (put_plan plan p)
  | multirepo_scheduler_transitioned _ event =>
      ensure (has p.(cp_plan)) corrupt ;;
      s ← map_err ct_scheduler (applyMultiRepoSchedulerEvent p.(cp_scheduler) event);
      Ok (put_scheduler s p)
  | multirepo_worktree_group_recorded f =>
      ensure (match task_under_lease p.(cp_scheduler) f.(wt_taskId) f.(wt_taskGeneration) f.(wt_leaseToken) with
              | Some (task, _) => bool_decide (task.(st_repositorySetId) = f.(wt_repositorySetId))
              | None => false
              end) corrupt ;;
      Ok (put_worktree f p)
  | multirepo_worker_settled f =>
      ensure (leased_attempt p.(cp_scheduler) f.(wk_taskId) f.(wk_taskGeneration) f.(wk_leaseToken) f.(wk_attemptId)) corrupt ;;
      Ok (put_worker f p)
  | multirepo_worktree_commit_intended f =>
      ensure (leased_attempt p.(cp_scheduler) f.(in_taskId) f.(in_taskGeneration) f.(in_leaseToken) f.(in_attemptId)) corrupt ;;
      let key := taskRepositoryKey f.(in_taskId) f.(in_repositoryId) in
      ensure (match p.(cp_commitIntents) !! key with
              | Some existing => bool_decide (factDigest (multirepo_worktree_commit_intended existing) = factDigest fact)
              | None => true
              end) corrupt ;;
      Ok (put_intent key f p)
  | multirepo_worktree_head_recorded f =>
      let key := taskRepositoryKey f.(hd_taskId) f.(hd_repositoryId) in
      ensure (head_intended (p.(cp_commitIntents) !! key) f) corrupt ;;
      Ok (put_head key f p)
  | multirepo_integration_transitioned _ taskId taskGeneration leaseToken event =>
      ensure (has (task_under_lease p.(cp_scheduler) taskId taskGeneration leaseToken)) corrupt ;;
      current ← member_of p.(cp_integrations) event.(iv_transactionId);
      next ← map_err ct_integration (applyMultiRepoIntegrationEvent current event);
      Ok (put_integration event.(iv_transactionId) next p)
  | multirepo_local_integration_receipted f =>
      ensure (receipt_binds (obj_get p.(cp_integrations) f.(lr_transactionId)) f) corrupt ;;
      ensure (bool_decide (localIntegrationReceiptDigest f.(lr_transactionId) f.(lr_repositorySetId) f.(lr_verificationReceiptDigest) f.(lr_appliedEntriesDigest)
                           = f.(lr_receiptDigest))) corrupt ;;
      Ok (put_receipt f p)
  | multirepo_publication_transitioned _ taskId _ event =>
      current ← member_of p.(cp_publications) event.(pbv_transactionId);
      next ← map_err ct_publication (applyMultiRepoPublicationEvent current event);
      ensure (match obj_get p.(cp_localReceipts) taskId with
              | Own receipt => bool_decide (next.(pbp_plan).(pbl_localIntegrationReceiptDigest) = receipt.(lr_receiptDigest))
              | _ => false
              end) corrupt ;;
      Ok (put_publication event.(pbv_transactionId) next p)
  end.

(** The body of the loop. *)
Definition project_fact (p : MultiRepositoryCanonicalProjectionV1) (raw : MultiRepositoryCanonicalFactV1) : projecting MultiRepositoryCanonicalProjectionV1 :=
  match parseMultiRepositoryCanonicalFact raw with
  | None => Err corrupt
  | Some fact =>
      ensure (isValidId (fact_id fact)) corrupt ;;
      let factHash := factDigest fact in
      match obj_get p.(cp_seenFactIds) (fact_id fact) with
      | Own prior => ensure (bool_decide (prior = factHash)) corrupt ;; Ok p
      | Inherited => Err corrupt
      | Absent => next ← apply_fact p fact; Ok (see_fact (fact_id fact) factHash next)
      end
  end.

Definition projectMultiRepositoryCanonicalFacts (facts : list MultiRepositoryCanonicalFactV1) : projecting MultiRepositoryCanonicalProjectionV1 :=
  ensure (at_most maximumJournalFacts facts) corrupt ;;
  fold_result project_fact emptyCanonicalProjection facts.
End canonical.

(** * Facts *)

Section history.
Context {D : Digest} {C : Collation} {Z0 : ZodUrl}.
Implicit Types (p : MultiRepositoryCanonicalProjectionV1) (f : MultiRepositoryCanonicalFactV1) (l : list MultiRepositoryCanonicalFactV1).

(** * Histories *)

(** The facts that were new when they were projected, in their order. *)
Inductive canonical_history : list MultiRepositoryCanonicalFactV1 -> MultiRepositoryCanonicalProjectionV1 -> Prop :=
| ch_empty : canonical_history [] emptyCanonicalProjection
| ch_fact l p f next : canonical_history l p -> obj_get (cp_seenFactIds p) (fact_id f) = Absent -> apply_fact p f = Ok next ->
    canonical_history (l ++ [f]) (see_fact (fact_id f) (factDigest f) next).

Lemma project_fact_Ok p raw p' :
  project_fact p raw = Ok p' <->
  exists f, parseMultiRepositoryCanonicalFact raw = Some f /\ isValidId (fact_id f) = true /\
    ((p' = p /\ cp_seenFactIds p !! fact_id f = Some (factDigest f)) \/
     (obj_get (cp_seenFactIds p) (fact_id f) = Absent /\ exists next, apply_fact p f = Ok next /\ p' = see_fact (fact_id f) (factDigest f) next)).
Proof.
  unfold project_fact. destruct (parseMultiRepositoryCanonicalFact raw) as [f|] eqn:Ef; [|split; [done|by intros (? & [=] & _)]].
  pose proof (obj_get_Own (cp_seenFactIds p) (fact_id f)) as Ho. split.
  - intros (_ & Hid%ensure_Ok & H)%bind_Ok. exists f. split; [done|]. split; [done|]. destruct (obj_get _ _) as [| |prior]; [right|done|left].
    + apply bind_Ok in H as (next & Hn & [= <-]). split; [done|]. by exists next.
    + apply bind_Ok in H as (_ & ->%ensure_Ok%bool_decide_eq_true & [= <-]). split; [done|]. by apply Ho.
  - intros (f' & [= <-] & -> & [[-> Hs]|(Ha & next & Hn & ->)]); cbn.
    + apply Ho in Hs as ->. by rewrite bool_decide_eq_true_2.
    + rewrite Ha, Hn. done.
Qed.

(** The facts of a list whose id is not that of an earlier one, nor in [seen]. *)
Fixpoint distinct_facts (seen : list string) l : list MultiRepositoryCanonicalFactV1 :=
  match l with
  | [] => []
  | f :: l' => if bool_decide (fact_id f ∈ seen) then distinct_facts seen l' else f :: distinct_facts (fact_id f :: seen) l'
  end.

Lemma distinct_facts_sublist seen l : sublist (distinct_facts seen l) l.
Proof.
  revert seen. induction l as [|f l IH]; intros seen; cbn; [constructor|]. case_bool_decide; [by apply sublist_cons|by apply sublist_skip].
Qed.

Lemma distinct_facts_fresh seen l f : f ∈ distinct_facts seen l -> fact_id f ∉ seen.
Proof.
  revert seen. induction l as [|g l IH]; intros seen; cbn; [by intros ?%not_elem_of_nil|]. case_bool_decide as Hg; [apply IH|].
  intros [->|Hf%IH]%elem_of_cons; [done|]. intros Hin. apply Hf. by right.
Qed.

Lemma distinct_facts_ids seen l : NoDup (List.map fact_id (distinct_facts seen l)).
Proof.
  revert seen. induction l as [|g l IH]; intros seen; cbn; [constructor|]. case_bool_decide as Hg; [apply IH|]. cbn. constructor; [|apply IH].
  intros Hin. apply list_elem_of_In, in_map_iff in Hin as (f & E & Hf). apply list_elem_of_In, distinct_facts_fresh in Hf. rewrite E in Hf. apply Hf. by left.
Qed.

Lemma apply_fact_seen p f next : apply_fact p f = Ok next -> cp_seenFactIds next = cp_seenFactIds p.
Proof. intros Hn. destruct f; cbn in Hn; run; by subst. Qed.

(** What is seen are the ids of the facts that were taken, with their digests. *)
Lemma canonical_history_seen l p : canonical_history l p ->
  forall k d, cp_seenFactIds p !! k = Some d <-> exists f, f ∈ l /\ fact_id f = k /\ factDigest f = d.
Proof.
  induction 1 as [|l p f next Hh IH Ha Hn]; intros k d; [split; [done|by intros (f & ?%not_elem_of_nil & _)]|].
  pose proof (apply_fact_seen _ _ _ Hn) as Eseen. apply obj_get_Absent in Ha. cbn. rewrite Eseen. split.
  - destruct (decide (k = fact_id f)) as [->|Hne].
    + rewrite lookup_insert_eq. intros [= <-]. exists f. split; [apply elem_of_app; right; by apply list_elem_of_singleton|done].
    + rewrite lookup_insert_ne by done. intros (g & Hg & E)%IH. exists g. split; [apply elem_of_app; by left|done].
  - intros (g & Hin & <- & <-). apply elem_of_app in Hin as [Hg|Hg]; [|apply list_elem_of_singleton in Hg; subst g; by rewrite lookup_insert_eq].
    rewrite lookup_insert_ne; [apply IH; by exists g|]. intros E. assert (cp_seenFactIds p !! fact_id g = Some (factDigest g)) as Hs by (apply IH; by exists g).
    rewrite <-E in Hs. congruence.
Qed.

(** A history and the ids it has seen. *)
Definition seen_exactly (seen : list string) p : Prop := forall k, k ∈ seen <-> is_Some (cp_seenFactIds p !! k).

Lemma projected_from l0 p0 seen facts p :
  canonical_history l0 p0 -> seen_exactly seen p0 -> fold_result project_fact p0 facts = Ok p ->
  exists parsed, mapM parseMultiRepositoryCanonicalFact facts = Some parsed /\ canonical_history (l0 ++ distinct_facts seen parsed) p /\ Forall (fun f => cp_seenFactIds p !! fact_id f = Some (factDigest f)) parsed.
Proof.
  revert l0 p0 seen. induction facts as [|raw facts IH]; intros l0 p0 seen Hp Hs.
  { intros [= <-]. exists []. cbn. rewrite app_nil_r. by split_and!. }
  intros (p1 & (f & Ef & _ & Hf)%project_fact_Ok & H)%bind_Ok. cbn [mapM]. rewrite Ef. cbn.
  assert (exists parsed, mapM parseMultiRepositoryCanonicalFact facts = Some parsed /\ canonical_history (l0 ++ distinct_facts seen (f :: parsed)) p /\ Forall (fun f => cp_seenFactIds p !! fact_id f = Some (factDigest f)) (f :: parsed)) as (parsed & -> & Hh & Hall); [|by exists (f :: parsed)].
  assert (forall parsed, canonical_history (l0 ++ distinct_facts seen (f :: parsed)) p -> (exists g, g ∈ l0 ++ distinct_facts seen (f :: parsed) /\ fact_id g = fact_id f /\ factDigest g = factDigest f) -> cp_seenFactIds p !! fact_id f = Some (factDigest f)) as Hhead.
  { intros parsed Hh. by apply canonical_history_seen. }
  destruct Hf as [[-> Hd]|(Ha & next & Hn & ->)].
  - destruct (IH _ _ _ Hp Hs H) as (parsed & Hm & Hh & Hall). exists parsed. split; [done|].
    assert (distinct_facts seen (f :: parsed) = distinct_facts seen parsed) as E by (cbn; rewrite bool_decide_eq_true_2; [done|apply Hs; by eexists]).
    rewrite <-E in Hh. split; [done|]. constructor; [|done]. apply (Hhead parsed); [done|].
    apply (canonical_history_seen _ _ Hp) in Hd as (g & Hg & Eg & Dg). exists g. split; [apply elem_of_app; by left|done].
  - apply obj_get_Absent in Ha as Hnone. destruct (IH (l0 ++ [f]) _ (fact_id f :: seen) (ch_fact _ _ _ _ Hp Ha Hn)) as (parsed & Hm & Hh & Hall); [|done|].
    { intros k. pose proof (apply_fact_seen _ _ _ Hn) as Eseen. cbn. rewrite Eseen, elem_of_cons, (Hs k).
      destruct (decide (k = fact_id f)) as [->|Hne]; [rewrite lookup_insert_eq; split; [by eexists|by left]|rewrite lookup_insert_ne by done; tauto]. }
    exists parsed. split; [done|].
    assert (distinct_facts seen (f :: parsed) = f :: distinct_facts (fact_id f :: seen) parsed) as E
      by (cbn; rewrite bool_decide_eq_false_2; [done|intros Hin%Hs; rewrite Hnone in Hin; by destruct Hin]).
    assert (canonical_history (l0 ++ distinct_facts seen (f :: parsed)) p) as Hh' by (rewrite E; by rewrite <-app_assoc in Hh). split; [done|].
    constructor; [|done]. apply (Hhead parsed); [done|]. exists f. split; [|done]. rewrite E. apply elem_of_app. right. by left.
Qed.

(** Every fact of the journal is read; the first of each id is taken, and the
    others repeat it. *)
Lemma projected_history facts p :
  projectMultiRepositoryCanonicalFacts facts = Ok p ->
  exists parsed, mapM parseMultiRepositoryCanonicalFact facts = Some parsed /\ canonical_history (distinct_facts [] parsed) p /\ Forall (fun f => cp_seenFactIds p !! fact_id f = Some (factDigest f)) parsed.
Proof.
  unfold projectMultiRepositoryCanonicalFacts. intros (_ & _ & H)%bind_Ok. apply (projected_from [] emptyCanonicalProjection []); [constructor| |done].
  intros k. cbn. rewrite lookup_empty. split; [by intros ?%not_elem_of_nil|by intros [? [=]]].
Qed.

(** A fact that is already there changes nothing. *)
Lemma projected_again facts p raw f :
  projectMultiRepositoryCanonicalFacts facts = Ok p -> parseMultiRepositoryCanonicalFact raw = Some f -> isValidId (fact_id f) = true ->
  cp_seenFactIds p !! fact_id f = Some (factDigest f) -> at_most maximumJournalFacts (facts ++ [raw]) = true ->
  projectMultiRepositoryCanonicalFacts (facts ++ [raw]) = Ok p.
Proof.
  unfold projectMultiRepositoryCanonicalFacts. intros (_ & _ & H)%bind_Ok Ef Hid Hs Hl. rewrite Hl. cbn. rewrite fold_result_app, H. cbn.
  assert (project_fact p raw = Ok p) as ->; [|done]. apply project_fact_Ok. exists f. split; [done|]. split; [done|]. by left.
Qed.

(** Where a fact stands, it was new and was applied to what came before. *)
Lemma history_split l1 f l2 p :
  canonical_history (l1 ++ f :: l2) p ->
  exists p1 next, canonical_history l1 p1 /\ obj_get (cp_seenFactIds p1) (fact_id f) = Absent /\ apply_fact p1 f = Ok next.
Proof.
  revert p. induction l2 as [|g l2 IH] using rev_ind; intros p Hp; inversion Hp as [E|l0 p0 f0 next Hh Ha Hn E]; subst.
  - by destruct l1.
  - apply app_inj_2 in E as [-> [= ->]]; [|done]. by exists p0, next.
  - by destruct l1.
  - change (f :: l2 ++ [g]) with ((f :: l2) ++ [g]) in E. rewrite app_assoc in E. apply app_inj_2 in E as [-> _]; [|done]. by eapply IH.
Qed.

(** * The folds *)

Definition scheduler_events : list MultiRepositoryCanonicalFactV1 -> list MultiRepoSchedulerEventV1 :=
  omap (fun f => match f with multirepo_scheduler_transitioned _ event => Some event | _ => None end).

Definition integration_events (tx : string) : list MultiRepositoryCanonicalFactV1 -> list MultiRepoIntegrationEventV1 :=
  omap (fun f => match f with
    | multirepo_integration_transitioned _ _ _ _ event => if bool_decide (iv_transactionId event = tx) then Some event else None
    | _ => None end).

Definition publication_events (tx : string) : list MultiRepositoryCanonicalFactV1 -> list MultiRepoPublicationEventV1 :=
  omap (fun f => match f with
    | multirepo_publication_transitioned _ _ _ event => if bool_decide (pbv_transactionId event = tx) then Some event else None
    | _ => None end).

(** What a transaction's events make of a state that need not exist. *)
Definition folds_to {E P X} (step : option P -> E -> result X P) (events : list E) (o : option P) : Prop :=
  fold_result (fun current event => q ← step current event; Ok (Some q)) None events = Ok o.

Lemma folds_to_snoc {E P X} (step : option P -> E -> result X P) events o event q :
  folds_to step events o -> step o event = Ok q -> folds_to step (events ++ [event]) (Some q).
Proof. unfold folds_to. intros Ho Hq. rewrite fold_result_app, Ho. cbn. by rewrite Hq. Qed.

(** The projection is the composition of the folds of its parts. *)
Record composed l p : Prop := {
  composed_scheduler : reduceMultiRepoSchedulerEvents (scheduler_events l) = Ok (cp_scheduler p);
  composed_integrations tx : folds_to applyMultiRepoIntegrationEvent (integration_events tx l) (cp_integrations p !! tx);
  composed_publications tx : folds_to applyMultiRepoPublicationEvent (publication_events tx l) (cp_publications p !! tx)
}.

Lemma member_of_Ok {V} (o : obj V) k c : member_of o k = Ok c -> o !! k = c.
Proof.
  unfold member_of. pose proof (obj_get_Own o k) as Ho. pose proof (obj_get_Absent o k) as Ha. destruct (obj_get o k) as [| |v]; intros [= <-]; [by apply Ha|].
  by apply Ho.
Qed.

(** A fact of another kind leaves the folds alone. *)
Lemma composed_other l p f next :
  composed l p -> scheduler_events [f] = [] -> (forall tx, integration_events tx [f] = []) -> (forall tx, publication_events tx [f] = []) ->
  cp_scheduler next = cp_scheduler p -> cp_integrations next = cp_integrations p -> cp_publications next = cp_publications p ->
  composed (l ++ [f]) next.
Proof.
  intros [H1 H2 H3] E1 E2 E3 F1 F2 F3. unfold scheduler_events, integration_events, publication_events in *. split; unfold scheduler_events, integration_events, publication_events.
  - by rewrite omap_app, E1, app_nil_r, F1.
  - intros tx. rewrite omap_app, E2, app_nil_r, F2. apply H2.
  - intros tx. rewrite omap_app, E3, app_nil_r, F3. apply H3.
Qed.

(** One event more in the stream of its transaction. *)
Lemma folds_to_put {E P X} (step : option P -> E -> result X P) (stream : string -> list E) (o : obj P) tx event q :
  (forall k, folds_to step (stream k) (o !! k)) -> step (o !! tx) event = Ok q ->
  forall k, folds_to step (stream k ++ (if bool_decide (tx = k) then [event] else [])) (<[tx := q]> o !! k).
Proof.
  intros Hs Hq k. case_bool_decide as Ek.
  - subst k. rewrite lookup_insert_eq. by eapply folds_to_snoc.
  - rewrite app_nil_r, lookup_insert_ne by done. apply Hs.
Qed.

Lemma apply_fact_composed l p f next : composed l p -> apply_fact p f = Ok next -> composed (l ++ [f]) next.
Proof.
  intros Hc Hf. pose proof Hc as [H1 H2 H3].
  destruct f as [id plan|id event|g|g|g|g|id taskId generation token event|g|id taskId generation event]; cbn in Hf; run; subst;
    try (by eapply composed_other).
  - split; cbn.
    + unfold scheduler_events in *. rewrite omap_app. unfold reduceMultiRepoSchedulerEvents in *. rewrite fold_result_app, H1. cbn. by rewrite Hrun0.
    + intros tx. unfold integration_events. rewrite omap_app, app_nil_r. apply H2.
    + intros tx. unfold publication_events. rewrite omap_app, app_nil_r. apply H3.
  - apply member_of_Ok in Hrun0. split; cbn.
    + unfold scheduler_events. rewrite omap_app, app_nil_r. apply H1.
    + intros tx. unfold integration_events. rewrite omap_app. cbn. rewrite <-Hrun0 in Hrun1. pose proof (folds_to_put _ _ _ _ _ _ H2 Hrun1 tx) as Hp.
      by case_bool_decide.
    + intros tx. unfold publication_events. rewrite omap_app, app_nil_r. apply H3.
  - apply member_of_Ok in Hrun. split; cbn.
    + unfold scheduler_events. rewrite omap_app, app_nil_r. apply H1.
    + intros tx. unfold integration_events. rewrite omap_app, app_nil_r. apply H2.
    + intros tx. unfold publication_events. rewrite omap_app. cbn. rewrite <-Hrun in Hrun0. pose proof (folds_to_put _ _ _ _ _ _ H3 Hrun0 tx) as Hp.
      by case_bool_decide.
Qed.

Lemma history_composed l p : canonical_history l p -> composed l p.
Proof.
  induction 1 as [|l p f next Hh IH Ha Hn]; [by split|]. destruct (apply_fact_composed _ _ _ _ IH Hn) as [H1 H2 H3]. by split.
Qed.

(** * The registers *)

(** The value that the last fact with a key gives to it. *)
Definition latest {V} (sel : MultiRepositoryCanonicalFactV1 -> option (string * V)) l (k : string) : option V :=
  last (omap (fun f => '(k', v) ← sel f; if bool_decide (k' = k) then Some v else None) l).

Definition worktree_of f := match f with multirepo_worktree_group_recorded g => Some (wt_taskId g, g) | _ => None end.
Definition worker_of f := match f with multirepo_worker_settled g => Some (wk_taskId g, g) | _ => None end.
Definition intent_of f := match f with multirepo_worktree_commit_intended g => Some (taskRepositoryKey (in_taskId g) (in_repositoryId g), g) | _ => None end.
Definition head_of f := match f with multirepo_worktree_head_recorded g => Some (taskRepositoryKey (hd_taskId g) (hd_repositoryId g), g) | _ => None end.
Definition receipt_of f := match f with multirepo_local_integration_receipted g => Some (lr_taskId g, g) | _ => None end.
Definition plan_of f := match f with multirepo_plan_registered _ plan => Some plan | _ => None end.

(** The other members of the projection: the plan, and of each register the
    latest fact of its key. *)
Record registered l p : Prop := {
  registered_plan : cp_plan p = head (omap plan_of l);
  registered_worktrees k : cp_worktreeGroups p !! k = latest worktree_of l k;
  registered_workers k : cp_workers p !! k = latest worker_of l k;
  registered_intents k : cp_commitIntents p !! k = latest intent_of l k;
  registered_heads k : cp_heads p !! k = latest head_of l k;
  registered_receipts k : cp_localReceipts p !! k = latest receipt_of l k
}.

Lemma latest_snoc {V} (sel : MultiRepositoryCanonicalFactV1 -> option (string * V)) l f (m m' : obj V) :
  (forall k, m !! k = latest sel l k) -> m' = match sel f with Some (k, v) => <[k := v]> m | None => m end -> forall k, m' !! k = latest sel (l ++ [f]) k.
Proof.
  intros Hm -> k. unfold latest. rewrite omap_app. cbn. destruct (sel f) as [[k' v]|]; cbn; [|by rewrite app_nil_r].
  case_bool_decide as E; cbn; [subst k'; by rewrite lookup_insert_eq, last_snoc|]. rewrite app_nil_r, lookup_insert_ne by done. apply Hm.
Qed.

Lemma apply_fact_registered l p f next : registered l p -> apply_fact p f = Ok next -> registered (l ++ [f]) next.
Proof.
  intros [H1 H2 H3 H4 H5 H6] Hf. assert (cp_plan next = head (omap plan_of (l ++ [f]))) as Hplan.
  { rewrite omap_app. destruct f; cbn in Hf |- *; run; subst; cbn; try (by rewrite app_nil_r). guards. destruct (cp_plan p); [done|]. rewrite H1 in *.
    by destruct (omap plan_of l). }
  destruct f; cbn in Hf; run; subst; (split; [done|eapply latest_snoc; [eassumption|done]..]).
Qed.

Lemma history_registered l p : canonical_history l p -> registered l p.
Proof.
  induction 1 as [|l p f next Hh IH Ha Hn]; [by split|]. destruct (apply_fact_registered _ _ _ _ IH Hn) as [H1 H2 H3 H4 H5 H6]. by split.
Qed.

(** * Recorded event ids *)

(** Every event that was folded is recorded under its id, and every id was
    recorded for an event of an earlier version. *)
Record ids_recorded {E P} (id : E -> string) (hash : E -> string) (expected : E -> Z) (ids : P -> obj string) (version : P -> Z) (events : list E) (q : P) : Prop := {
  folded_recorded e : e ∈ events -> ids q !! id e = Some (hash e);
  recorded_folded k d : ids q !! k = Some d -> exists e, e ∈ events /\ id e = k /\ hash e = d /\ expected e < version q
}.

Definition integration_recorded := ids_recorded iv_eventId integrationEventDigest iv_expectedVersion mi_eventIds mi_version.
Definition publication_recorded := ids_recorded pbv_eventId publicationEventDigest pbv_expectedVersion pbp_eventIds pbp_version.

Lemma recorded_snoc {E P} id hash expected ids version (events : list E) (q q' : P) e :
  ids_recorded id hash expected ids version events q -> version q <= version q' ->
  (ids q' = ids q /\ ids q !! id e = Some (hash e)) \/ (ids q !! id e = None /\ ids q' = <[id e := hash e]> (ids q) /\ expected e < version q') ->
  ids_recorded id hash expected ids version (events ++ [e]) q'.
Proof.
  intros [H1 H2] Hv He. split.
  - intros e' [Hin| ->%list_elem_of_singleton]%elem_of_app; destruct He as [[Ei Hs]|(Hn & Ei & _)]; rewrite Ei; auto; [|by rewrite lookup_insert_eq].
    rewrite lookup_insert_ne; [auto|]. intros E'. apply H1 in Hin. rewrite <-E' in Hin. congruence.
  - intros k d Hk. assert (ids q !! k = Some d \/ (k = id e /\ d = hash e /\ expected e < version q')) as [Hk'|(-> & -> & Hlt)].
    { destruct He as [[Ei Hs]|(Hn & Ei & Hlt)]; rewrite Ei in Hk; [by left|]. apply lookup_insert_Some in Hk as [[-> ->]|[_ Hk]]; [by right|by left]. }
    + destruct (H2 _ _ Hk') as (e' & Hin & Ek & Ed & Hlt). exists e'. split; [apply elem_of_app; by left|]. split; [done|]. split; [done|lia].
    + exists e. split; [apply elem_of_app; right; by apply list_elem_of_singleton|done].
Qed.

Lemma recorded_first {E P} id hash expected ids version (q : P) (e : E) :
  ids q = {[id e := hash e]} -> expected e < version q -> ids_recorded id hash expected ids version [e] q.
Proof.
  intros Ei Hlt. split.
  - intros e' ->%list_elem_of_singleton. by rewrite Ei, lookup_singleton_eq.
  - intros k d Hk. rewrite Ei in Hk. apply lookup_singleton_Some in Hk as [<- <-]. exists e. split; [by apply list_elem_of_singleton|done].
Qed.

(** A property of the events folded so far and what they make. *)
Lemma folds_to_rec {E P X} (step : option P -> E -> result X P) (I : list E -> P -> Prop) events q :
  (forall e q', step None e = Ok q' -> I [e] q') -> (forall before q0 e q', I before q0 -> step (Some q0) e = Ok q' -> I (before ++ [e]) q') ->
  folds_to step events (Some q) -> I events q.
Proof.
  intros Hnone Hsome. unfold folds_to. revert q. induction events as [|e l IH] using rev_ind; intros q Hf; [done|].
  rewrite fold_result_app in Hf. apply bind_Ok in Hf as ([q0|] & H0 & Hf); cbn in Hf; apply bind_Ok in Hf as (x & Hx & [= ->]);
    apply bind_Ok in Hx as (q' & Hq & [= <-]); [by eapply Hsome; [apply IH|]|].
  destruct l as [|e' l]; [by apply Hnone|]. exfalso. cbn in H0. apply bind_Ok in H0 as (o & Ho & H0). apply bind_Ok in Ho as (q1 & _ & [= <-]).
  clear -H0. revert q1 H0. induction l as [|e l IH]; intros q1 H0; [done|]. cbn in H0. apply bind_Ok in H0 as (o & Ho & H0). apply bind_Ok in Ho as (q2 & _ & [= <-]). by eapply IH.
Qed.

Lemma integration_ids_recorded events i : folds_to applyMultiRepoIntegrationEvent events (Some i) -> integration_recorded events i.
Proof.
  apply folds_to_rec.
  - intros e q (plan & _ & E & ->)%apply_None_Ok. apply recorded_first; [done|cbn; lia].
  - intros l q e q' Hq [[-> Hs]|(part & Ha & _ & Ev & _ & ->)]%apply_Some_Ok; (eapply recorded_snoc; [exact Hq|cbn; lia|]); [by left|right].
    apply obj_get_Absent in Ha. split; [done|]. split; [done|cbn; lia].
Qed.

Lemma publication_ids_recorded events b : folds_to applyMultiRepoPublicationEvent events (Some b) -> publication_recorded events b.
Proof.
  apply folds_to_rec.
  - intros e q (plan & _ & E & ->)%apply_publication_None. apply recorded_first; [done|cbn; lia].
  - intros l q e q' Hq [[-> Hs]|(part & Ha & _ & Ev & _ & _ & ->)]%apply_publication_Ok; (eapply recorded_snoc; [exact Hq|cbn; lia|]); [by left|right].
    apply obj_get_Absent in Ha. split; [done|]. split; [done|cbn; lia].
Qed.

(** * What the folds promise *)

Lemma folds_to_inv {E P X} (step : option P -> E -> result X P) (I : P -> Prop) events q :
  (forall e q', step None e = Ok q' -> I q') -> (forall q0 e q', I q0 -> step (Some q0) e = Ok q' -> I q') -> folds_to step events (Some q) -> I q.
Proof.
  intros Hnone Hsome Hf. assert (forall o, folds_to step events o -> forall q, o = Some q -> I q) as Hw; [|by eapply Hw].
  clear Hf q. intros o. unfold folds_to. apply (fold_result_ind _ (fun o => forall q, o = Some q -> I q)); [done|].
  intros x e x' _ Hx (q & Hq & [= <-])%bind_Ok q' [= <-]. destruct x as [x|]; [eapply Hsome; [by apply Hx|done]|by eapply Hnone].
Qed.

Lemma history_integrations l p tx i : canonical_history l p -> cp_integrations p !! tx = Some i -> integration_wf i.
Proof.
  intros Hh Hi. pose proof (composed_integrations _ _ (history_composed _ _ Hh) tx) as Hf. rewrite Hi in Hf. revert Hf. apply folds_to_inv.
  - intros e q (plan & _ & _ & ->)%apply_None_Ok. apply created_wf.
  - intros q e q'. apply apply_integration_wf.
Qed.

Lemma history_publications l p tx b : canonical_history l p -> cp_publications p !! tx = Some b -> published_wf b.
Proof.
  intros Hh Hb. pose proof (composed_publications _ _ (history_composed _ _ Hh) tx) as Hf. rewrite Hb in Hf. revert Hf. apply folds_to_inv.
  - intros e q (plan & _ & _ & ->)%apply_publication_None. apply created_publication_wf.
  - intros q e q'. apply apply_publication_wf.
Qed.

(** * Receipts and publications *)

(** The receipt's transaction is applied, and verified as the receipt says. *)
Definition receipt_stands p (g : MultiRepositoryCanonicalLocalReceiptFactV1) : Prop :=
  exists i, cp_integrations p !! lr_transactionId g = Some i /\ mi_state i = mi_applied /\ mi_repositorySetId i = lr_repositorySetId g /\ exists v, mi_verification i = Some v /\ cr_receiptDigest v = lr_verificationReceiptDigest g.

Definition receipt_digested (g : MultiRepositoryCanonicalLocalReceiptFactV1) : Prop :=
  localIntegrationReceiptDigest (lr_transactionId g) (lr_repositorySetId g) (lr_verificationReceiptDigest g) (lr_appliedEntriesDigest g) = lr_receiptDigest g.

Record receipted l p : Prop := {
  receipted_facts g : multirepo_local_integration_receipted g ∈ l -> receipt_stands p g /\ receipt_digested g;
  receipted_latest k g : cp_localReceipts p !! k = Some g -> multirepo_local_integration_receipted g ∈ l;
  receipted_publications tx b : cp_publications p !! tx = Some b ->
    exists g, multirepo_local_integration_receipted g ∈ l /\ pbl_localIntegrationReceiptDigest (pbp_plan b) = lr_receiptDigest g
}.

(** An applied transaction stays as it is. *)
Lemma integration_put_stands p tx i' e g :
  applyMultiRepoIntegrationEvent (cp_integrations p !! tx) e = Ok i' -> receipt_stands p g -> receipt_stands (put_integration tx i' p) g.
Proof.
  intros Hi (i & Hg & Hs & Hrest). unfold receipt_stands. cbn. destruct (decide (tx = lr_transactionId g)) as [->|Hne].
  - rewrite Hg in Hi. destruct (ended_integration i e i') as [->|(Hr & _)]; [by rewrite Hs|done| |congruence].
    exists i. by rewrite lookup_insert_eq.
  - exists i. by rewrite lookup_insert_ne.
Qed.

Lemma receipt_binds_stands p g : receipt_binds (obj_get (cp_integrations p) (lr_transactionId g)) g = true -> receipt_stands p g.
Proof.
  pose proof (obj_get_Own (cp_integrations p) (lr_transactionId g)) as Ho. unfold receipt_binds. destruct (obj_get _ _) as [| |i]; [done..|].
  intros Hb. guards. destruct (mi_verification i) as [v|] eqn:Ev; [|done]. guards. exists i. split; [by apply Ho|]. split; [done|]. split; [done|]. by exists v.
Qed.

(** Facts that touch neither integrations, receipts nor publications. *)
Lemma receipted_other l p f next :
  receipted l p -> (forall g, f <> multirepo_local_integration_receipted g) ->
  cp_integrations next = cp_integrations p -> cp_localReceipts next = cp_localReceipts p -> cp_publications next = cp_publications p ->
  receipted (l ++ [f]) next.
Proof.
  intros [H1 H2 H3] Hf E1 E2 E3. split.
  - intros g [Hg|Hg%list_elem_of_singleton]%elem_of_app; [|by destruct (Hf g)]. destruct (H1 g Hg) as [Hs Hd]. split; [|done]. unfold receipt_stands. by rewrite E1.
  - intros k g Hg. rewrite E2 in Hg. apply elem_of_app. left. by eapply H2.
  - intros tx b Hb. rewrite E3 in Hb. destruct (H3 tx b Hb) as (g & Hg & Eg). exists g. split; [apply elem_of_app; by left|done].
Qed.

Lemma receipted_receipt l p g :
  receipted l p -> receipt_stands p g -> receipt_digested g -> receipted (l ++ [multirepo_local_integration_receipted g]) (put_receipt g p).
Proof.
  intros [H1 H2 H3] Hs Hd. split; cbn.
  - intros g' [Hg|[= ->]%list_elem_of_singleton]%elem_of_app; [by destruct (H1 _ Hg)|done].
  - intros k g' Hg. apply elem_of_app. destruct (decide (k = lr_taskId g)) as [->|Hne].
    + rewrite lookup_insert_eq in Hg. injection Hg as <-. right. by apply list_elem_of_singleton.
    + rewrite lookup_insert_ne in Hg by done. left. by eapply H2.
  - intros tx b Hb. destruct (H3 tx b Hb) as (g' & Hg & Eg). exists g'. split; [apply elem_of_app; by left|done].
Qed.

Lemma apply_fact_receipted l p f next : receipted l p -> apply_fact p f = Ok next -> receipted (l ++ [f]) next.
Proof.
  intros Hc Hf. pose proof Hc as [H1 H2 H3].
  destruct f as [id plan|id event|g|g|g|g|id taskId generation token event|g|id taskId generation event]; cbn in Hf; run; subst;
    try (by eapply receipted_other).
  - apply member_of_Ok in Hrun0. subst a0. split; cbn.
    + intros g [Hg|[=]%list_elem_of_singleton]%elem_of_app. destruct (H1 g Hg) as [Hs Hd]. split; [|done]. by eapply integration_put_stands.
    + intros k g Hg. apply elem_of_app. left. by eapply H2.
    + intros tx b Hb. destruct (H3 tx b Hb) as (g & Hg & Eg). exists g. split; [apply elem_of_app; by left|done].
  - guards. apply receipted_receipt; [done|by apply receipt_binds_stands|done].
  - split; cbn.
    + intros g [Hg|[=]%list_elem_of_singleton]%elem_of_app. by apply H1.
    + intros k g Hg. apply elem_of_app. left. by eapply H2.
    + intros tx b Hb. destruct (decide (pbv_transactionId event = tx)) as [Etx|Hne].
      * rewrite Etx, lookup_insert_eq in Hb. injection Hb as <-. destruct (obj_get (cp_localReceipts p) taskId) as [| |g] eqn:Eg; [done..|]. guards.
        exists g. split; [|done]. apply elem_of_app. left. eapply H2. by apply obj_get_Own.
      * rewrite lookup_insert_ne in Hb by done. destruct (H3 tx b Hb) as (g & Hg & Eg). exists g. split; [apply elem_of_app; by left|done].
Qed.

Lemma history_receipted l p : canonical_history l p -> receipted l p.
Proof.
  induction 1 as [|l p f next Hh IH Ha Hn]; [split; cbn; [by intros g ?%not_elem_of_nil|by intros k g Hg|by intros tx b Hb]|].
  destruct (apply_fact_receipted _ _ _ _ IH Hn) as [H1 H2 H3]. by split.
Qed.

(** * Fences *)

(** What a fact needs of the scheduler and of what is recorded, to be taken. *)
Definition fenced p f : Prop :=
  match f with
  | multirepo_plan_registered _ plan => cp_plan p = None /\ rpl_planDigest plan = plan_digest_of plan
  | multirepo_scheduler_transitioned _ _ => is_Some (cp_plan p)
  | multirepo_worktree_group_recorded g => exists task lease,
      task_under_lease (cp_scheduler p) (wt_taskId g) (wt_taskGeneration g) (wt_leaseToken g) = Some (task, lease) /\ st_repositorySetId task = wt_repositorySetId g
  | multirepo_worker_settled g => exists task lease,
      task_under_lease (cp_scheduler p) (wk_taskId g) (wk_taskGeneration g) (wk_leaseToken g) = Some (task, lease) /\ lf_attemptId (ls_fields lease) = wk_attemptId g
  | multirepo_worktree_commit_intended g => exists task lease,
      task_under_lease (cp_scheduler p) (in_taskId g) (in_taskGeneration g) (in_leaseToken g) = Some (task, lease) /\ lf_attemptId (ls_fields lease) = in_attemptId g
  | multirepo_worktree_head_recorded g => exists i,
      cp_commitIntents p !! taskRepositoryKey (hd_taskId g) (hd_repositoryId g) = Some i /\
      in_taskGeneration i = hd_taskGeneration g /\ in_leaseToken i = hd_leaseToken g /\ in_expectedOid i = hd_expectedOid g /\
      in_treeOid i = hd_treeOid g /\ in_branchRef i = hd_branchRef g
  | multirepo_integration_transitioned _ taskId generation token _ => is_Some (task_under_lease (cp_scheduler p) taskId generation token)
  | multirepo_local_integration_receipted g => receipt_stands p g /\ receipt_digested g
  | multirepo_publication_transitioned _ taskId _ event => exists g, cp_localReceipts p !! taskId = Some g
  end.

Lemma leased_attempt_Some s taskId generation token attempt :
  leased_attempt s taskId generation token attempt = true ->
  exists task lease, task_under_lease s taskId generation token = Some (task, lease) /\ lf_attemptId (ls_fields lease) = attempt.
Proof. unfold leased_attempt. destruct (task_under_lease _ _ _ _) as [[task lease]|]; [|done]. intros Ha. guards. by eexists _, _. Qed.

(** What a lease is held for. *)
Lemma leased_task_holds s taskId generation token task lease :
  task_under_lease s taskId generation token = Some (task, lease) ->
  mp_tasks s !! taskId = Some task /\ st_taskGeneration task = generation /\ st_lease task = Some lease /\ lf_leaseToken (ls_fields lease) = token.
Proof.
  unfold task_under_lease, lease_of_token. pose proof (obj_get_Own (mp_tasks s) taskId) as Ho. destruct (obj_get _ _) as [| |t]; [done..|].
  destruct (st_lease t) as [l|] eqn:El; [|done]. cbn. case_bool_decide as Et; [|done]. cbn. destruct (Z.eqb_spec (st_taskGeneration t) generation); [|done].
  intros [= -> ->]. split; [by apply Ho|done].
Qed.

Lemma apply_fact_fenced p f next : apply_fact p f = Ok next -> fenced p f.
Proof.
  intros Hf. destruct f as [id plan|id event|g|g|g|g|id taskId generation token event|g|id taskId generation event]; cbn in Hf; run; cbn.
  - guards. split; [by apply lacks_None|done].
  - by apply has_is_Some.
  - destruct (task_under_lease _ _ _ _) as [[task lease]|]; [|done]. guards. by exists task, lease.
  - by apply leased_attempt_Some.
  - by apply leased_attempt_Some.
  - unfold head_intended in Hrun. destruct (cp_commitIntents p !! _) as [i|]; [|done]. guards. by exists i.
  - by apply has_is_Some.
  - guards. split; [by apply receipt_binds_stands|done].
  - destruct (obj_get (cp_localReceipts p) taskId) as [| |g] eqn:Eg; [done..|]. exists g. by apply obj_get_Own.
Qed.

Lemma history_fenced l1 f l2 p : canonical_history (l1 ++ f :: l2) p -> exists p1, canonical_history l1 p1 /\ fenced p1 f.
Proof. intros (p1 & next & Hh & _ & Hf)%history_split. exists p1. split; [done|]. by eapply apply_fact_fenced. Qed.
End history.
