(* ===== verification/Journal.v ===== *)
(** Journal: reading and appending the durable facts of a multi-repository run
    through its journal (readCanonical and appendCanonical of
    src/multirepo/orchestration.ts). *)
From S2P Require Import Prelude Text Json Ids ScmTypes ScmSchema SchedulerEvents Scheduler Domain Dag Effects Lists GitTransaction Verification Integration Publication RunPlan Canonical CanonicalProjection.

Record MultiRepositoryCanonicalJournalSnapshotV1 := {
  js_runId : string;
  js_runEpoch : text;
  js_controlHeadSeq : Z;
  js_headVersion : Z;
  js_facts : list MultiRepositoryCanonicalFactV1
}.

(** What [append] throws: a MultiRepositoryCanonicalJournalConflictError, or something else. *)
Inductive JournalFailure := jf_conflict | jf_other (f : Foreign).

(** [MultiRepositoryCanonicalJournalV1]. *)
Class CanonicalJournal (W : Type) := {
  journal_read : effect W Foreign MultiRepositoryCanonicalJournalSnapshotV1;
  journal_append : Z -> Z -> MultiRepositoryCanonicalFactV1 -> effect W JournalFailure MultiRepositoryCanonicalJournalSnapshotV1
}.

(** What the orchestration throws: its own errors, with [authorityMustRemainHeld],
    and those of what it calls. *)
Inductive OrchestrationThrow :=
| ot_error (code : MultiRepositoryOrchestrationErrorCode) (authorityMustRemainHeld : bool)
| ot_plan (t : RunPlanThrow)
| ot_canonical (t : CanonicalThrow)
| ot_admission (e : AdmissionError)
| ot_integration (t : IntegrationThrow)
| ot_publication (t : PublicationThrow)
| ot_foreign (f : Foreign)
| ot_type_error.

(** A snapshot and its projection. *)
Definition Canonical : Type := MultiRepositoryCanonicalJournalSnapshotV1 * MultiRepositoryCanonicalProjectionV1.

Definition maximumAppendConflicts : nat := 16.

Section journal.
Context {D : Digest} {C : Collation} {Z0 : ZodUrl}.
Context {W : Type} `{CanonicalJournal W}.
Abbreviation command := (effect W OrchestrationThrow).

Definition throw_error {A} (code : MultiRepositoryOrchestrationErrorCode) (held : bool) : command A := eff_of (Err (ot_error code held)).

Definition snapshot_of_run (plan : MaterializedMultiRepositoryRunPlanV1) (s : MultiRepositoryCanonicalJournalSnapshotV1) : bool :=
  bool_decide (s.(js_runId) = plan.(rpl_runId)) && bool_decide (s.(js_runEpoch) = plan.(rpl_runEpoch))
  && isSafeInteger s.(js_controlHeadSeq) && (0 <=? s.(js_controlHeadSeq)) && isSafeInteger s.(js_headVersion) && (0 <=? s.(js_headVersion))
  && (s.(js_headVersion) =? Z.of_nat (length s.(js_facts))).

Definition plan_matches (plan : MaterializedMultiRepositoryRunPlanV1) (p : MultiRepositoryCanonicalProjectionV1) : bool :=
  match p.(cp_plan) with Some registered => bool_decide (registered.(rpl_planDigest) = plan.(rpl_planDigest)) | None => true end.

(** Everything after the read. *)
Definition open_snapshot (plan : MaterializedMultiRepositoryRunPlanV1) (s : MultiRepositoryCanonicalJournalSnapshotV1) : result OrchestrationThrow Canonical :=
  ensure (snapshot_of_run plan s) (ot_error MRO_CANONICAL_IDENTITY_MISMATCH true) ;;
  p ← map_err ot_canonical (projectMultiRepositoryCanonicalFacts s.(js_facts));
  ensure (plan_matches plan p) (ot_error MRO_CANONICAL_IDENTITY_MISMATCH true) ;;
  Ok (s, p).

Definition readCanonical (plan : MaterializedMultiRepositoryRunPlanV1) : command Canonical :=
  s ← eff_under (fun _ => ot_error MRO_CANONICAL_HISTORY_CORRUPT true) journal_read;
  eff_of (open_snapshot plan s).

(** [factDigest] of two lists of facts, pointwise. *)
Definition same_facts (l l' : list MultiRepositoryCanonicalFactV1) : bool :=
  bool_decide (List.map factDigest l = List.map factDigest l').

(** The receipt of an append proves the exact fact, versions, head and prefix. *)
Definition append_proved (plan : MaterializedMultiRepositoryRunPlanV1) (fact : MultiRepositoryCanonicalFactV1)
    (before after : MultiRepositoryCanonicalJournalSnapshotV1) : bool :=
  bool_decide (after.(js_runId) = plan.(rpl_runId)) && bool_decide (after.(js_runEpoch) = plan.(rpl_runEpoch))
  && (after.(js_controlHeadSeq) =? before.(js_controlHeadSeq) + 1) && (after.(js_headVersion) =? before.(js_headVersion) + 1)
  && (Z.of_nat (length after.(js_facts)) =? after.(js_headVersion))
  && same_facts after.(js_facts) (before.(js_facts) ++ [fact]).

(** The loop over the conflicts. *)
Fixpoint append_loop (conflicts : nat) (plan : MaterializedMultiRepositoryRunPlanV1) (fact : MultiRepositoryCanonicalFactV1) : command Canonical :=
  match conflicts with
  | O => throw_error MRO_CANONICAL_APPEND_FAILED true
  | S conflicts' =>
      before ← readCanonical plan;
      match obj_get before.2.(cp_seenFactIds) (fact_id fact) with
      | Own prior => eff_of (ensure (bool_decide (prior = factDigest fact)) (ot_error MRO_CANONICAL_HISTORY_CORRUPT true)) ;; mret before
      | Inherited => throw_error MRO_CANONICAL_HISTORY_CORRUPT true
      | Absent =>
          eff_try (journal_append before.1.(js_controlHeadSeq) before.1.(js_headVersion) fact)
            (fun after =>
              eff_of (ensure (append_proved plan fact before.1 after) (ot_error MRO_CANONICAL_APPEND_FAILED true)) ;;
              p ← eff_of (map_err ot_canonical (projectMultiRepositoryCanonicalFacts after.(js_facts)));
              mret (after, p))
            (fun failure =>
              match failure with
              | jf_conflict => append_loop conflicts' plan fact
              | jf_other _ => throw_error MRO_CANONICAL_APPEND_FAILED true
              end)
      end
  end.

Definition appendCanonical (plan : MaterializedMultiRepositoryRunPlanV1) (fact : MultiRepositoryCanonicalFactV1) : command Canonical :=
  append_loop maximumAppendConflicts plan fact.
End journal.

(** * A journal that keeps its contract *)

(** [journal_facts w] is the durable sequence of facts; [foreign] holds of the
    facts that other writers append between the calls. A successful append is a
    compare-and-swap of the whole sequence; a conflict appends nothing; whether a
    failed append took effect is not known. *)
Class JournalContract {W} `{CanonicalJournal W} (journal_facts : W -> list MultiRepositoryCanonicalFactV1) (foreign : MultiRepositoryCanonicalFactV1 -> Prop) : Prop := {
  read_contract w w' r : journal_read w = (w', r) ->
    (exists others, Forall foreign others /\ journal_facts w' = journal_facts w ++ others) /\
    match r with Ok s => js_facts s = journal_facts w' | Err _ => True end;
  append_contract head version fact w w' r : journal_append head version fact w = (w', r) ->
    match r with
    | Ok s => Z.of_nat (length (journal_facts w)) = version /\ journal_facts w' = journal_facts w ++ [fact] /\ js_facts s = journal_facts w'
    | Err jf_conflict => exists others, Forall foreign others /\ journal_facts w' = journal_facts w ++ others
    | Err (jf_other _) => journal_facts w' = journal_facts w \/ journal_facts w' = journal_facts w ++ [fact]
    end
}.

(** A journal that nobody else writes and that does not fail, as long as it is no
    longer than a journal may be: it reads as a snapshot of the run, and an append
    to what was just read returns the receipt the orchestration asks for. *)
Record journal_quiet {D : Digest} {C : Collation} {W} `{CanonicalJournal W} (journal_facts : W -> list MultiRepositoryCanonicalFactV1)
    (plan : MaterializedMultiRepositoryRunPlanV1) : Prop := {
  quiet_read w : at_most maximumJournalFacts (journal_facts w) = true ->
    exists s, journal_read w = (w, Ok s) /\ snapshot_of_run plan s = true /\ js_facts s = journal_facts w;
  quiet_append w s fact : journal_read w = (w, Ok s) -> js_headVersion s = Z.of_nat (length (journal_facts w)) ->
    exists w' s', journal_append (js_controlHeadSeq s) (js_headVersion s) fact w = (w', Ok s') /\ append_proved plan fact s s' = true
}.

(** What an append throws. *)
Definition journal_throws (t : OrchestrationThrow) : Prop :=
  match t with
  | ot_error MRO_CANONICAL_APPEND_FAILED true | ot_error MRO_CANONICAL_HISTORY_CORRUPT true | ot_error MRO_CANONICAL_IDENTITY_MISMATCH true
  | ot_canonical _ => True
  | _ => False
  end.

Section contract.
Context {D : Digest} {C : Collation} {Z0 : ZodUrl}.
Context {W : Type} `{CanonicalJournal W} (journal_facts : W -> list MultiRepositoryCanonicalFactV1) (foreign : MultiRepositoryCanonicalFactV1 -> Prop).
Context `{!JournalContract journal_facts foreign}.
Implicit Types (w : W) (plan : MaterializedMultiRepositoryRunPlanV1) (fact : MultiRepositoryCanonicalFactV1).

(** Only other writers have appended. *)
Definition only_others w w' : Prop := exists others, Forall foreign others /\ journal_facts w' = journal_facts w ++ others.

#[global] Instance only_others_preorder : PreOrder only_others.
Proof.
  split; [intros w; exists []; by rewrite app_nil_r|]. intros w1 w2 w3 (o1 & H1 & E1) (o2 & H2 & E2). exists (o1 ++ o2).
  split; [by apply Forall_app|]. by rewrite E2, E1, app_assoc.
Qed.

(** The journal has been opened: the projection is that of the durable facts. *)
Definition opened plan w (c : Canonical) : Prop :=
  js_facts c.1 = journal_facts w /\ projectMultiRepositoryCanonicalFacts (js_facts c.1) = Ok c.2.

Lemma readCanonical_spec plan w :
  after (readCanonical plan) w (fun w' r => only_others w w' /\
    match r with Ok c => opened plan w' c /\ js_headVersion c.1 = Z.of_nat (length (js_facts c.1)) /\ plan_matches plan c.2 = true | Err _ => True end).
Proof using JournalContract0.
  unfold readCanonical. apply after_bind, after_under. unfold after. destruct (journal_read w) as [w' r] eqn:Er.
  destruct (read_contract w w' r Er) as [Ho Hs]. cbn. destruct r as [s|f]; cbn; [|done]. split; [done|].
  destruct (open_snapshot plan s) as [c|t] eqn:Ec; [|done]. unfold open_snapshot in Ec. run. subst c. cbn. unfold snapshot_of_run in Hrun. guards.
  split; [by split|]. done.
Qed.

(** What an append may leave behind: at most one fact of its own, the last. *)
Definition appended_at_most fact w w' : Prop :=
  only_others w w' \/ exists w1, only_others w w1 /\ journal_facts w' = journal_facts w1 ++ [fact].

(** [appendCanonical] appended the fact, or found it there. *)
Definition append_result plan fact w w' (r : result OrchestrationThrow Canonical) : Prop :=
  match r with
  | Ok c => opened plan w' c /\
      ((only_others w w' /\ cp_seenFactIds c.2 !! fact_id fact = Some (factDigest fact)) \/
       exists w1 c1, only_others w w1 /\ opened plan w1 c1 /\ obj_get (cp_seenFactIds c1.2) (fact_id fact) = Absent /\
         journal_facts w' = journal_facts w1 ++ [fact])
  | Err _ => True
  end.

Lemma append_loop_spec conflicts plan fact w :
  after (append_loop conflicts plan fact) w (fun w' r => appended_at_most fact w w' /\ append_result plan fact w w' r).
Proof using JournalContract0.
  revert w. induction conflicts as [|conflicts IH]; intros w; cbn [append_loop]; [split; [by left|done]|].
  apply after_bind. eapply after_mono; [apply readCanonical_spec|]. intros w1 [c|t] [Ho Hc]; [|by split; [left|]].
  destruct Hc as (Hopen & Hv & _). destruct (obj_get (cp_seenFactIds c.2) (fact_id fact)) as [| |prior] eqn:Es.
  - apply after_try. unfold after at 1. destruct (journal_append _ _ fact w1) as [w2 r] eqn:Ea. pose proof (append_contract _ _ _ _ _ _ Ea) as Hr. cbn [fst snd].
    destruct r as [s|failure].
    + destruct Hr as (_ & Ef & Es'). assert (appended_at_most fact w w2) as Hat by (right; by exists w1).
      apply after_bind, after_of. destruct (ensure _ _) as [u|t]; [|by split].
      apply after_bind, after_of. destruct (projectMultiRepositoryCanonicalFacts (js_facts s)) as [p|t] eqn:Ep; [|by split]. split; [done|].
      split; [by split|]. right. by exists w1, c.
    + destruct failure as [|f].
      * eapply after_mono; [apply IH|]. assert (only_others w w2) as Ho2 by (by etransitivity; [|exact Hr]). intros w3 r' [Hat Hr']. split.
        -- destruct Hat as [Hat|(w4 & Hat & E)]; [left; by etransitivity|right; exists w4; split; [by etransitivity|done]].
        -- destruct r' as [c'|]; [|done]. destruct Hr' as [Hop [[H1 H2]|(w4 & c4 & H1 & H2)]]; (split; [done|]).
           ++ left. split; [by etransitivity|done].
           ++ right. exists w4, c4. split; [by etransitivity|done].
      * unfold after. cbn. split; [|done]. destruct Hr as [E|E]; [left|right; by exists w1]. etransitivity; [exact Ho|]. exists []. by rewrite app_nil_r.
  - unfold after. cbn. split; [by left|done].
  - apply after_bind, after_of. destruct (ensure _ _) as [u|t] eqn:Ee; [|by split; [left|]]. apply ensure_Ok, bool_decide_eq_true in Ee as ->.
    unfold after. cbn. split; [by left|]. split; [done|]. left. split; [done|]. by apply obj_get_Own.
Qed.

(** * What it throws *)

Lemma readCanonical_throws plan w : after (readCanonical plan) w (fun _ r => forall t, r = Err t -> journal_throws t).
Proof using.
  apply after_bind, after_under. unfold after. destruct (journal_read w) as [w' [s|f]]; cbn; [|by intros t [= <-]].
  unfold open_snapshot. intros t [[_ ->]%ensure_Err|(_ & _ & [Hp|(p & _ & [[_ ->]%ensure_Err|(_ & _ & [=])]%bind_Err)]%bind_Err)]%bind_Err; [done| |done].
  destruct (projectMultiRepositoryCanonicalFacts (js_facts s)); [done|]. by injection Hp as <-.
Qed.

Lemma append_loop_throws conflicts plan fact w :
  after (append_loop conflicts plan fact) w (fun _ r => forall t, r = Err t -> journal_throws t).
Proof using.
  revert w. induction conflicts as [|conflicts IH]; intros w; cbn [append_loop]; [by intros t [= <-]|].
  apply after_bind. eapply after_mono; [apply readCanonical_throws|]. intros w1 [c|t] Hc; [|by intros t' [= <-]; apply Hc].
  destruct (obj_get (cp_seenFactIds c.2) (fact_id fact)) as [| |prior].
  - apply after_try. unfold after at 1. destruct (journal_append _ _ fact w1) as [w2 [s|[|f]]]; cbn; [|apply IH|by intros t [= <-]].
    apply after_bind, after_of. destruct (ensure _ _) eqn:Ee; [|intros t [= <-]; by apply ensure_Err in Ee as [_ ->]].
    apply after_bind, after_of. destruct (projectMultiRepositoryCanonicalFacts (js_facts s)); cbn; [done|by intros t [= <-]].
  - by intros t [= <-].
  - apply after_bind, after_of. destruct (ensure _ _) eqn:Ee; [done|intros t [= <-]; by apply ensure_Err in Ee as [_ ->]].
Qed.

(** * An append to a quiet journal *)

(** The fact is there, or it is the last now, or the projection refuses it. *)
Definition quiet_result plan fact w p w' (r : result OrchestrationThrow Canonical) : Prop :=
  match cp_seenFactIds p !! fact_id fact with
  | Some prior => journal_facts w' = journal_facts w /\ if bool_decide (prior = factDigest fact) then exists s, r = Ok (s, p) else exists t, r = Err t
  | None => journal_facts w' = journal_facts w ++ [fact] /\
      if at_most maximumJournalFacts (journal_facts w ++ [fact])
      then match project_fact p fact with Ok p' => exists s, r = Ok (s, p') | Err t => r = Err (ot_canonical t) end
      else exists t, r = Err t
  end.

Lemma append_quiet plan fact w p :
  journal_quiet journal_facts plan -> projectMultiRepositoryCanonicalFacts (journal_facts w) = Ok p -> plan_matches plan p = true ->
  fact_id fact ∉ objectPrototypeKeys ->
  after (appendCanonical plan fact) w (quiet_result plan fact w p).
Proof using JournalContract0.
  intros Hq Hp Hm Hid. pose proof Hp as Hfold. unfold projectMultiRepositoryCanonicalFacts in Hfold. apply bind_Ok in Hfold as ([] & Hlen%ensure_Ok & Hfold).
  destruct (quiet_read _ _ Hq w Hlen) as (s & Hr & Hs & Ef). assert (js_headVersion s = Z.of_nat (length (journal_facts w))) as Hv by (rewrite <-Ef; unfold snapshot_of_run in Hs; by guards).
  assert (readCanonical plan w = (w, Ok (s, p))) as Hread.
  { unfold readCanonical, mbind, effect_bind, eff_under. rewrite Hr. cbn. unfold eff_of, open_snapshot. rewrite Hs, Ef. cbn. by rewrite Hp; cbn; rewrite Hm. }
  unfold appendCanonical, maximumAppendConflicts. cbn [append_loop]. apply after_bind. unfold after at 1. rewrite Hread. cbn [fst snd].
  unfold quiet_result, obj_get. destruct (cp_seenFactIds p !! fact_id fact) as [prior|].
  { apply after_bind, after_of. unfold ensure. case_bool_decide; unfold after; cbn; eauto. }
  rewrite bool_decide_eq_false_2 by done. destruct (quiet_append _ _ Hq w s fact Hr Hv) as (w' & s' & Ha & Hproved).
  destruct (append_contract _ _ _ _ _ _ Ha) as (_ & Ef' & Es'). apply after_try. unfold after at 1. rewrite Ha. cbn [fst snd].
  apply after_bind, after_of. rewrite Hproved. cbn. apply after_bind, after_of. rewrite Es', Ef'. unfold projectMultiRepositoryCanonicalFacts at 1.
  destruct (at_most maximumJournalFacts (journal_facts w ++ [fact])); cbn [ensure mbind result_bind]; [|split; [done|by eexists]].
  rewrite fold_result_app, Hfold. cbn. destruct (project_fact p fact) as [p'|t]; unfold after; cbn; (split; [done|]); [by eexists|done].
Qed.
End contract.
