(* ===== verification/Orchestration.v ===== *)
(** Orchestration: the facts and plans the orchestration of a multi-repository
    run builds, and its commands over the journal (src/multirepo/orchestration.ts). *)
From S2P Require Import Prelude Text Json Ids ScmTypes ScmSchema SchedulerEvents Scheduler Domain Dag Effects Lists GitTransaction Verification Integration Publication RunPlan Canonical CanonicalProjection Journal.

(** * Interfaces *)

(** [MULTIREPO_ORCHESTRATION_LIMITS.maximumTransitionsPerTask] *)
Definition maximumTransitionsPerTask : nat := 512.

(** [now().getTime()], where an invalid date has none; [randomToken()]. *)
Class OrchestrationHost (W : Type) := {
  clock : W -> W * option Z;
  randomToken : W -> W * string
}.

Record AuthorityFence := { af_runId : string; af_runEpoch : text; af_taskId : string; af_taskGeneration : Z; af_leaseToken : string }.

(** [MultiRepositoryIntegrationAuthorityManager.acquire]. *)
Class AuthorityManager (W : Type) := acquire : list string -> AuthorityFence -> effect W Foreign unit.

Record MultiRepositoryWorkerRequestV1 := {
  wr_runId : string;
  wr_runEpoch : text;
  wr_taskId : string;
  wr_taskGeneration : Z;
  wr_attemptId : string;
  wr_leaseToken : string;
  wr_repositorySetId : string;
  wr_members : list MultiRepositoryWorkerMemberV1
}.

(** What [run] throws: an error of its own, or the one its callback threw. *)
Inductive WorkerFailure := wf_foreign | wf_rethrows.

(** A running worker: it ends, or acknowledges the dispatch of a process and goes
    on, told whether the callback returned. *)
Inductive running (W : Type) : Type :=
| run_ends (w : W) (r : result WorkerFailure MultiRepositoryWorkerSettlementV1)
| run_acknowledges (w : W) (processIdentity : text) (continue : W -> bool -> running W).
Arguments run_ends {W} w r.
Arguments run_acknowledges {W} w processIdentity continue.

(** [ContainedMultiRepositoryWorker]. *)
Class ContainedWorker (W : Type) := {
  worker_run : MultiRepositoryWorkerRequestV1 -> W -> running W;
  worker_recover : MultiRepositoryWorkerRequestV1 -> text -> effect W Foreign (option MultiRepositoryWorkerSettlementV1)
}.

(** The dependencies that are data, and whether a publication adapter is attached. *)
Record OrchestrationDependencies := {
  od_concurrency : SchedulerConcurrencyLimits;
  od_ownerId : string;
  od_ownerIncarnation : string;
  od_hasPublicationAdapter : bool
}.

Section orchestration.
Context {D : Digest} {C : Collation} {Z0 : ZodUrl} {U : UrlApi}.

(** * Identifiers and look-ups *)

Definition factId (prefix : string) (values : list json) : string :=
  prefix +:+ "-" +:+ String.substring 0 48 (orchestration_digest ("relayforge-" +:+ prefix +:+ "-fact-id-v1") (JArray values)).

Definition task_generation (t : MaterializedMultiRepositoryTaskV1) : Z := t.(mm_task).(mt_taskGeneration).
Definition task_values (t : MaterializedMultiRepositoryTaskV1) : list json := [jstr (task_id t); jnum (task_generation t)].

Definition taskById (plan : MaterializedMultiRepositoryRunPlanV1) (taskId : string) : result OrchestrationThrow MaterializedMultiRepositoryTaskV1 :=
  match List.find (fun t => bool_decide (task_id t = taskId)) plan.(rpl_dag).(dag_tasks) with
  | Some t => Ok t
  | None => Err (ot_error MRO_INVALID_PLAN false)
  end.

Definition executionById (plan : MaterializedMultiRepositoryRunPlanV1) (taskId : string) : result OrchestrationThrow MultiRepositoryTaskExecutionV1 :=
  match execution_of plan.(rpl_executions) taskId with Some e => Ok e | None => Err (ot_error MRO_INVALID_PLAN false) end.

(** The comparator of [orderedTasks], on the priorities of the executions. *)
Definition task_priority (plan : MaterializedMultiRepositoryRunPlanV1) (taskId : string) : Z :=
  match execution_of plan.(rpl_executions) taskId with Some e => e.(ex_priority) | None => 0 end.

Definition by_priority (plan : MaterializedMultiRepositoryRunPlanV1) (left right : string) : Z :=
  let c := task_priority plan right - task_priority plan left in
  if negb (c =? 0) then c else localeCompare left right.

(** Layer by layer, and in a layer by priority and id; in a materialized plan
    every id of a layer has its task and its execution. *)
Definition orderedTasks (plan : MaterializedMultiRepositoryRunPlanV1) : list MaterializedMultiRepositoryTaskV1 :=
  omap (fun taskId => List.find (fun t => bool_decide (task_id t = taskId)) plan.(rpl_dag).(dag_tasks))
    (List.concat (List.map (js_sort (by_priority plan)) plan.(rpl_dag).(dag_layers))).

(** * Facts *)

Definition schedulerFact (event : MultiRepoSchedulerEventV1) : MultiRepositoryCanonicalFactV1 := multirepo_scheduler_transitioned event.(me_eventId) event.

(** [schedulerEventBase], with the member's fields. *)
Definition scheduler_event (p : MultiRepoSchedulerProjectionV1) (task : MaterializedMultiRepositoryTaskV1) (action occurredAt : string) (payload : SchedulerPayload)
    : MultiRepoSchedulerEventV1 := {|
  me_seq := p.(mp_headSeq) + 1; me_eventId := factId "mrs" (task_values task ++ [jnum (p.(mp_headSeq) + 1); jstr action]); me_occurredAt := occurredAt;
  me_taskId := task_id task; me_taskGeneration := task_generation task; me_payload := payload |}.

Definition lease_token_of (lease : SchedulerLeaseV1) : string := lease.(ls_fields).(lf_leaseToken).

Definition workerRequest (plan : MaterializedMultiRepositoryRunPlanV1) (task : MaterializedMultiRepositoryTaskV1) (lease : SchedulerLeaseV1)
    (members : list MultiRepositoryWorkerMemberV1) : MultiRepositoryWorkerRequestV1 := {|
  wr_runId := plan.(rpl_runId); wr_runEpoch := plan.(rpl_runEpoch); wr_taskId := task_id task; wr_taskGeneration := task_generation task;
  wr_attemptId := lease.(ls_fields).(lf_attemptId); wr_leaseToken := lease_token_of lease;
  wr_repositorySetId := task.(mm_repositorySet).(rs_repositorySetId); wr_members := members |}.

Definition settlementShapeValid (s : MultiRepositoryWorkerSettlementV1) (processIdentity : text) : bool :=
  bool_decide (s.(se_processIdentity) = processIdentity) && negb (bool_decide (s.(se_processIdentity) = []))
  && between 1 512 (utf8_length s.(se_settlementCallId)) && digest s.(se_outputDigest) && (utf8_length s.(se_summary) <=? 8 * 1024).

Definition settlement_trusted (s : MultiRepositoryWorkerSettlementV1) : bool :=
  s.(se_transportTrusted) && s.(se_scopeTrusted) && s.(se_scopeReaped) && s.(se_settlementTrusted).

Definition validateSettlement (s : MultiRepositoryWorkerSettlementV1) (processIdentity : text) : result OrchestrationThrow unit :=
  ensure (settlementShapeValid s processIdentity && settlement_trusted s) (ot_error MRO_WORKER_RECOVERY_REQUIRED true).

Definition workerFact (task : MaterializedMultiRepositoryTaskV1) (lease : SchedulerLeaseV1) (s : MultiRepositoryWorkerSettlementV1) : MultiRepositoryCanonicalFactV1 :=
  multirepo_worker_settled {|
    wk_factId := factId "mrworker" (task_values task ++ [jstr (lease_token_of lease); JString s.(se_processIdentity); JString s.(se_settlementCallId); jstr s.(se_outputDigest)]);
    wk_taskId := task_id task; wk_taskGeneration := task_generation task; wk_attemptId := lease.(ls_fields).(lf_attemptId);
    wk_leaseToken := lease_token_of lease; wk_settlement := s |}.

Definition commit_intent (task : MaterializedMultiRepositoryTaskV1) (lease : SchedulerLeaseV1) (member : MultiRepositoryWorkerMemberV1)
    (branchRef : text) (treeOid : string) (message : text) : MultiRepositoryCanonicalCommitIntentFactV1 := {|
  in_factId := factId "mrc" (task_values task ++ [jstr (lease_token_of lease); jstr member.(wm_repositoryId); jstr member.(wm_anchorOid); jstr treeOid; JString message]);
  in_taskId := task_id task; in_taskGeneration := task_generation task; in_attemptId := lease.(ls_fields).(lf_attemptId);
  in_leaseToken := lease_token_of lease; in_repositoryId := member.(wm_repositoryId); in_branchRef := branchRef;
  in_expectedOid := member.(wm_anchorOid); in_treeOid := treeOid; in_message := message |}.

Definition head_fact (task : MaterializedMultiRepositoryTaskV1) (lease : SchedulerLeaseV1) (member : MultiRepositoryWorkerMemberV1)
    (intent : MultiRepositoryCanonicalCommitIntentFactV1) (childOid treeOid : string) : MultiRepositoryCanonicalHeadFactV1 := {|
  hd_factId := factId "mrh" (task_values task ++ [jstr (lease_token_of lease); jstr member.(wm_repositoryId); jstr childOid]);
  hd_taskId := task_id task; hd_taskGeneration := task_generation task; hd_attemptId := lease.(ls_fields).(lf_attemptId);
  hd_leaseToken := lease_token_of lease; hd_repositoryId := member.(wm_repositoryId); hd_branchRef := intent.(in_branchRef);
  hd_expectedOid := intent.(in_expectedOid); hd_childOid := childOid; hd_treeOid := treeOid |}.

Definition integrationFact (task : MaterializedMultiRepositoryTaskV1) (lease : SchedulerLeaseV1) (event : MultiRepoIntegrationEventV1) : MultiRepositoryCanonicalFactV1 :=
  multirepo_integration_transitioned event.(iv_eventId) (task_id task) (task_generation task) (lease_token_of lease) event.

Definition publicationFact (task : MaterializedMultiRepositoryTaskV1) (event : MultiRepoPublicationEventV1) : MultiRepositoryCanonicalFactV1 :=
  multirepo_publication_transitioned event.(pbv_eventId) (task_id task) (task_generation task) event.

(** * Plans *)

Definition transaction_id (plan : MaterializedMultiRepositoryRunPlanV1) (task : MaterializedMultiRepositoryTaskV1) (lease : SchedulerLeaseV1) : string :=
  "txn-" +:+ String.substring 0 48 (orchestration_digest "relayforge-multirepo-transaction-id-v1"
    (JArray ([jstr plan.(rpl_runId); JString plan.(rpl_runEpoch)] ++ task_values task ++ [jstr (lease_token_of lease)]))).

Definition member_path (members : list MultiRepositoryWorkerMemberV1) (repositoryId : string) : option text :=
  wm_path <$> List.find (fun m => bool_decide (m.(wm_repositoryId) = repositoryId)) (rev members).

(** The callback over the sorted repositories of the task. *)
Definition integration_entry (plan : MaterializedMultiRepositoryRunPlanV1) (task : MaterializedMultiRepositoryTaskV1) (execution : MultiRepositoryTaskExecutionV1)
    (members : list MultiRepositoryWorkerMemberV1) (p : MultiRepositoryCanonicalProjectionV1) (repositoryId : string)
    : result OrchestrationThrow MultiRepoIntegrationEntryPlanV1 :=
  match p.(cp_heads) !! taskRepositoryKey (task_id task) repositoryId with
  | None => Err (ot_error MRO_CANONICAL_HISTORY_CORRUPT true)
  | Some head =>
      match entry_plan_of execution.(ex_entries) repositoryId, repository_of plan.(rpl_registry) repositoryId, member_path members repositoryId with
      | Some configured, Some repository, Some path => Ok {|
          ip_repository := repository; ip_targetRef := configured.(tep_targetRef); ip_expectedOid := head.(hd_expectedOid); ip_childOid := head.(hd_childOid);
          ip_canonicalWorkspacePath := path; ip_message := execution.(ex_commitMessage) |}
      | _, _, _ => Err ot_type_error
      end
  end.

Definition integrationPlan (plan : MaterializedMultiRepositoryRunPlanV1) (task : MaterializedMultiRepositoryTaskV1) (execution : MultiRepositoryTaskExecutionV1)
    (lease : SchedulerLeaseV1) (members : list MultiRepositoryWorkerMemberV1) (p : MultiRepositoryCanonicalProjectionV1)
    : result OrchestrationThrow MultiRepoIntegrationPlanV1 :=
  entries ← map_result (integration_entry plan task execution members p) (js_sort localeCompare task.(mm_task).(mt_repositoryIds));
  Ok {| il_transactionId := transaction_id plan task lease; il_repositorySetId := task.(mm_repositorySet).(rs_repositorySetId); il_entries := entries;
        il_verifyCommands := execution.(ex_verifyCommands); il_verifyEnvironment := execution.(ex_verifyEnvironment) |}.

Definition applied_entry_json (e : MultiRepoIntegrationEntryProjectionV1) : json := JArray [
  jstr (entry_id e);
  match e.(ie_candidate) with Some c => jstr c.(rc_candidateOid) | None => JUndefined end;
  match e.(ie_applyResult) with Some r => jstr (AppliedState_name r.(ar_state)) | None => JUndefined end;
  match e.(ie_applyResult) with Some r => jstr r.(ar_observedOid) | None => JUndefined end].

Definition applied_entries_digest (i : MultiRepoIntegrationProjectionV1) : string :=
  orchestration_digest "relayforge-local-integration-applied-entries-v1" (JArray (List.map applied_entry_json i.(mi_entries))).

Definition localReceiptFact (task : MaterializedMultiRepositoryTaskV1) (lease : SchedulerLeaseV1) (i : MultiRepoIntegrationProjectionV1)
    : result OrchestrationThrow MultiRepositoryCanonicalLocalReceiptFactV1 :=
  match i.(mi_verification) with
  | Some v =>
      ensure (in_state mi_applied i && negb (existsb (fun e => lacks e.(ie_applyResult)) i.(mi_entries))) (ot_error MRO_INTEGRATION_RECOVERY_REQUIRED true) ;;
      let applied := applied_entries_digest i in
      let receipt := localIntegrationReceiptDigest i.(mi_transactionId) i.(mi_repositorySetId) v.(cr_receiptDigest) applied in
      Ok {| lr_factId := factId "mrr" (task_values task ++ [jstr (lease_token_of lease); jstr receipt]);
            lr_taskId := task_id task; lr_taskGeneration := task_generation task; lr_leaseToken := lease_token_of lease;
            lr_transactionId := i.(mi_transactionId); lr_repositorySetId := i.(mi_repositorySetId); lr_verificationReceiptDigest := v.(cr_receiptDigest);
            lr_appliedEntriesDigest := applied; lr_receiptDigest := receipt |}
  | None => Err (ot_error MRO_INTEGRATION_RECOVERY_REQUIRED true)
  end.

Definition by_config (l r : MultiRepositoryPublicationEntryConfigV1) : Z := localeCompare l.(pcf_repositoryId) r.(pcf_repositoryId).

(** [new Map(integration.entries.map(...)).get(id)!]: the last entry of an id
    wins. An id that is not there, which the code asserts away, is an error. *)
Definition integrated_entry (i : MultiRepoIntegrationProjectionV1) (repositoryId : string) : option (string * text) :=
  e ← List.find (fun e => bool_decide (entry_id e = repositoryId)) (rev i.(mi_entries));
  c ← e.(ie_candidate);
  Some (c.(rc_candidateOid), e.(ie_plan).(ip_targetRef)).

Definition publication_entry (i : MultiRepoIntegrationProjectionV1) (e : MultiRepositoryPublicationEntryConfigV1) : result OrchestrationThrow MultiRepoPublicationEntryPlanV1 :=
  match integrated_entry i e.(pcf_repositoryId) with
  | None => Err ot_type_error
  | Some (candidateOid, localRef) => Ok {|
      pbe_repositoryId := e.(pcf_repositoryId); pbe_publicationId := e.(pcf_publicationId); pbe_candidateOid := candidateOid; pbe_localIntegrationRef := localRef;
      pbe_remoteName := e.(pcf_remoteName); pbe_expectedPushUrl := e.(pcf_expectedPushUrl); pbe_remoteRef := e.(pcf_remoteRef);
      pbe_expectedRemoteOid := e.(pcf_expectedRemoteOid); pbe_baseRef := e.(pcf_baseRef); pbe_title := e.(pcf_title); pbe_body := e.(pcf_body) |}
  end.

(** [Ok None] is [undefined]: nothing is to be published. *)
Definition publicationPlan (task : MaterializedMultiRepositoryTaskV1) (execution : MultiRepositoryTaskExecutionV1)
    (receipt : MultiRepositoryCanonicalLocalReceiptFactV1) (i : MultiRepoIntegrationProjectionV1) : result OrchestrationThrow (option MultiRepoPublicationPlanV1) :=
  match execution.(ex_publication) with
  | None => Ok None
  | Some publication =>
      ensure (forallb (fun e => has e.(ie_candidate)) i.(mi_entries)) ot_type_error ;;
      entries ← map_result (publication_entry i) (js_sort by_config publication.(pc_entries));
      Ok (Some {| pbl_transactionId := i.(mi_transactionId); pbl_repositorySetId := task.(mm_repositorySet).(rs_repositorySetId);
        pbl_localIntegrationReceiptDigest := receipt.(lr_receiptDigest); pbl_policyApproved := publication.(pc_policyApproved); pbl_entries := entries |})
  end.

Definition appliedIntegrationForReceipt (task : MaterializedMultiRepositoryTaskV1) (receipt : MultiRepositoryCanonicalLocalReceiptFactV1)
    (p : MultiRepositoryCanonicalProjectionV1) (lease : option SchedulerLeaseV1) : result OrchestrationThrow MultiRepoIntegrationProjectionV1 :=
  ensure (bool_decide (receipt.(lr_taskId) = task_id task) && (receipt.(lr_taskGeneration) =? task_generation task)
          && bool_decide (receipt.(lr_repositorySetId) = task.(mm_repositorySet).(rs_repositorySetId))
          && match lease with Some l => bool_decide (receipt.(lr_leaseToken) = lease_token_of l) | None => true end)
    (ot_error MRO_CANONICAL_HISTORY_CORRUPT true) ;;
  match obj_get p.(cp_integrations) receipt.(lr_transactionId) with
  | Own i => ensure (receipt_binds (Own i) receipt) (ot_error MRO_CANONICAL_HISTORY_CORRUPT true) ;; Ok i
  | _ => Err (ot_error MRO_CANONICAL_HISTORY_CORRUPT true)
  end.

(** * Commands *)

Section commands.
Context {W : Type} `{CanonicalJournal W} `{OrchestrationHost W}.
Context (deps : OrchestrationDependencies) (plan : MaterializedMultiRepositoryRunPlanV1).
Implicit Types (task : MaterializedMultiRepositoryTaskV1) (p : MultiRepositoryCanonicalProjectionV1).
Abbreviation command := (effect W OrchestrationThrow).

Definition append_fact (fact : MultiRepositoryCanonicalFactV1) : command MultiRepositoryCanonicalProjectionV1 :=
  c ← appendCanonical plan fact; mret c.2.

Definition appendScheduler (event : MultiRepoSchedulerEventV1) : command MultiRepositoryCanonicalProjectionV1 := append_fact (schedulerFact event).

(** The range of a Date. *)
Definition maximumTime : Z := 8640000000000000.

(** [boundedTimestamp(date)]: an invalid date is a RangeError of [toISOString]. *)
Definition boundedTimestamp (t : option Z) : result OrchestrationThrow string :=
  match t with
  | Some t => if Z.abs t <=? maximumTime then Ok (toISOString t) else Err (ot_foreign None)
  | None => Err (ot_foreign None)
  end.

Definition now : command (option Z) := fun w => let (w', t) := clock w in (w', Ok t).
Definition timestamp_now : command string := t ← now; eff_of (boundedTimestamp t).

Definition leaseToken : command string :=
  token ← (fun w => let (w', s) := randomToken w in (w', Ok s));
  eff_of (ensure (digest token) (ot_error MRO_INVALID_PLAN false)) ;; mret token.

(** The plan and its tasks are registered once. *)
Definition register_task p task : command MultiRepositoryCanonicalProjectionV1 :=
  if present (obj_get p.(cp_scheduler).(mp_tasks) (task_id task)) then mret p
  else
    execution ← eff_of (executionById plan (task_id task));
    occurredAt ← timestamp_now;
    appendScheduler (scheduler_event p.(cp_scheduler) task "register" occurredAt
      (scheduler_task_registered task.(mm_repositorySet).(rs_repositorySetId) task.(mm_task).(mt_repositoryIds) task.(mm_task).(mt_providerId)
        (task_dependencies task) execution.(ex_priority))).

Definition registerPlanAndTasks : command MultiRepositoryCanonicalProjectionV1 :=
  c ← readCanonical plan;
  p ← (if lacks c.2.(cp_plan)
       then append_fact (multirepo_plan_registered (factId "mrp" [jstr plan.(rpl_runId); JString plan.(rpl_runEpoch); jstr plan.(rpl_planDigest)]) plan)
       else mret c.2);
  eff_fold register_task p (orderedTasks plan).

(** The task of the projection. A member inherited from [Object.prototype] has no
    version, so that the event made of it is refused by the journal. *)
Definition scheduled_in p task (absent : OrchestrationThrow) : result OrchestrationThrow SchedulerTaskProjectionV1 :=
  match obj_get p.(cp_scheduler).(mp_tasks) (task_id task) with
  | Own t => Ok t
  | Absent => Err absent
  | Inherited => Err (ot_error MRO_CANONICAL_APPEND_FAILED true)
  end.

Definition markLeaseUncertain task p (lease : SchedulerLeaseV1) (reasonCode : UncertainReason) : command MultiRepositoryCanonicalProjectionV1 :=
  match obj_get p.(cp_scheduler).(mp_tasks) (task_id task) with
  | Own scheduled =>
      if match scheduled.(st_lease) with Some l => bool_decide (l.(ls_state) = lease_uncertain) | None => false end then mret p
      else
        eff_of (ensure (has (lease_of_token scheduled (lease_token_of lease))) (ot_error MRO_CANONICAL_HISTORY_CORRUPT true)) ;;
        occurredAt ← timestamp_now;
        appendScheduler (scheduler_event p.(cp_scheduler) task "uncertain" occurredAt
          (scheduler_lease_uncertain scheduled.(st_version) (lease_token_of lease) reasonCode))
  | _ => throw_error MRO_CANONICAL_HISTORY_CORRUPT true
  end.

(** * Admission *)

Definition attempt_id task (version : Z) (token : string) : string := factId "attempt" (task_values task ++ [jnum version; jstr token]).
Definition reconcile_id task (version : Z) : string := factId "reconcile" (task_values task ++ [jnum version]).

Definition admission_input task p (active : SchedulerTaskProjectionV1) (token issuedAt expiresAt : string) (role provider : list string) : AdmissionInput := {|
  ai_projection := p.(cp_scheduler); ai_taskId := task_id task; ai_expectedVersion := active.(st_version);
  ai_repositorySetId := task.(mm_repositorySet).(rs_repositorySetId); ai_roleRepositoryIds := role; ai_providerRepositoryIds := provider;
  ai_budgetAvailable := true; ai_limits := deps.(od_concurrency);
  ai_lease := {|
    al_eventId := factId "mrs" (task_values task ++ [jnum (p.(cp_scheduler).(mp_headSeq) + 1); jstr "lease"]); al_occurredAt := issuedAt;
    al_leaseToken := token; al_leaseVersion := 1; al_attemptId := attempt_id task active.(st_version) token;
    al_ownerId := deps.(od_ownerId); al_ownerIncarnation := deps.(od_ownerIncarnation); al_issuedAt := issuedAt; al_expiresAt := expiresAt |} |}.

(** [reconcile_started], before the decision. *)
Definition start_reconcile task p (existing : SchedulerTaskProjectionV1) : command MultiRepositoryCanonicalProjectionV1 :=
  startedAt ← timestamp_now;
  appendScheduler (scheduler_event p.(cp_scheduler) task "reconcile-start" startedAt
    (scheduler_reconcile_started (reconcile_id task existing.(st_version)) deps.(od_ownerId) existing.(st_version))).

(** The decision, and the lease and the end of the reconciliation when it admits. *)
Definition decide_lease task p (reconcileId : string) : command MultiRepositoryCanonicalProjectionV1 :=
  active ← eff_of (scheduled_in p task ot_type_error);
  issued ← now;
  token ← leaseToken;
  issuedAt ← eff_of (boundedTimestamp issued);
  expiresAt ← eff_of (boundedTimestamp ((fun t => t + 15 * 60000) <$> issued));
  role ← eff_of (map_err ot_plan (capability_of plan.(rpl_capabilities).(cap_roles) task.(mm_task).(mt_roleId)));
  provider ← eff_of (map_err ot_plan (capability_of plan.(rpl_capabilities).(cap_providers) task.(mm_task).(mt_providerId)));
  decision ← eff_of (map_err ot_admission (decideSchedulerAdmission (admission_input task p active token issuedAt expiresAt role provider)));
  match decision with
  | inl _ => throw_error MRO_ADMISSION_REFUSED false
  | inr event =>
      p' ← appendScheduler event;
      leased ← eff_of (scheduled_in p' task ot_type_error);
      finishedAt ← timestamp_now;
      appendScheduler (scheduler_event p'.(cp_scheduler) task "reconcile-finish" finishedAt
        (scheduler_reconcile_finished reconcileId deps.(od_ownerId) leased.(st_version)))
  end.

Definition admitTask task p : command MultiRepositoryCanonicalProjectionV1 :=
  existing ← eff_of (scheduled_in p task (ot_error MRO_CANONICAL_HISTORY_CORRUPT true));
  if bool_decide (existing.(st_state) = sched_completed) then mret p
  else if has existing.(st_lease) then mret p
  else
    p' ← start_reconcile task p existing;
    decide_lease task p' (reconcile_id task existing.(st_version)).

Definition releaseLeaseEvent p task (lease : SchedulerLeaseV1) (outcome : LeaseOutcome) (evidenceDigest occurredAt : string)
    : result OrchestrationThrow MultiRepoSchedulerEventV1 :=
  current ← scheduled_in p task ot_type_error;
  Ok (scheduler_event p.(cp_scheduler) task "release" occurredAt
    (scheduler_lease_released current.(st_version) (lease_token_of lease) outcome evidenceDigest)).

(** * The worker *)

Section worker.
Context `{ContainedWorker W}.

(** The callback: one acknowledgement, of a bounded identity. *)
Definition acknowledgeDispatch task (lease : SchedulerLeaseV1) p (acknowledged : option text) (identity : text) : command MultiRepositoryCanonicalProjectionV1 :=
  eff_of (ensure (negb (has acknowledged || bool_decide (identity = []) || (512 <? utf8_length identity))) (ot_error MRO_WORKER_RECOVERY_REQUIRED true)) ;;
  scheduled ← eff_of (scheduled_in p task ot_type_error);
  occurredAt ← timestamp_now;
  appendScheduler (scheduler_event p.(cp_scheduler) task "dispatch" occurredAt
    (scheduler_dispatch_acknowledged scheduled.(st_version) (lease_token_of lease) identity)).

(** The variables the callback shares with its caller: the projection, the
    identity and, for the worker to rethrow, what the callback threw last. *)
Fixpoint supervise task (lease : SchedulerLeaseV1) (r : running W) p (acknowledged : option text) (thrown : option OrchestrationThrow)
    : W * (MultiRepositoryCanonicalProjectionV1 * option text * result (option OrchestrationThrow) MultiRepositoryWorkerSettlementV1) :=
  match r with
  | run_ends w (Ok s) => (w, (p, acknowledged, Ok s))
  | run_ends w (Err wf_foreign) => (w, (p, acknowledged, Err None))
  | run_ends w (Err wf_rethrows) => (w, (p, acknowledged, Err thrown))
  | run_acknowledges w identity continue =>
      let (w', r') := acknowledgeDispatch task lease p acknowledged identity w in
      match r' with
      | Ok p' => supervise task lease (continue w' true) p' (Some identity) thrown
      | Err t => supervise task lease (continue w' false) p acknowledged (Some t)
      end
  end.

(** [error instanceof MultiRepositoryOrchestrationError] with one of the two codes. *)
Definition append_or_history (t : option OrchestrationThrow) : bool :=
  match t with
  | Some (ot_error MRO_CANONICAL_APPEND_FAILED _) | Some (ot_error MRO_CANONICAL_HISTORY_CORRUPT _)
  | Some (ot_canonical (ct_error MRO_CANONICAL_HISTORY_CORRUPT)) => true
  | _ => false
  end.

(** The lease is uncertain and the error goes on. *)
Definition uncertain_then {A} task p (lease : SchedulerLeaseV1) (reasonCode : UncertainReason) (t : OrchestrationThrow) : command A :=
  markLeaseUncertain task p lease reasonCode ;; eff_of (Err t).

Definition worker_recovery : OrchestrationThrow := ot_error MRO_WORKER_RECOVERY_REQUIRED true.

(** [worker.run] with its callback, and the catch. *)
Definition launch_worker task (lease : SchedulerLeaseV1) (request : MultiRepositoryWorkerRequestV1) p
    : command (MultiRepositoryCanonicalProjectionV1 * MultiRepositoryWorkerSettlementV1) := fun w =>
  let '(w', (p', acknowledged, r)) := supervise task lease (worker_run request w) p None None in
  match r with
  | Ok s =>
      match acknowledged with
      | Some _ => (w', Ok (p', s))
      | None => uncertain_then task p' lease PROCESS_IDENTITY_UNKNOWN worker_recovery w'
      end
  | Err t =>
      if append_or_history t then (w', Err (default worker_recovery t))
      else uncertain_then task p' lease (if has acknowledged then SETTLEMENT_UNKNOWN else PROCESS_IDENTITY_UNKNOWN) worker_recovery w'
  end.

(** Everything after there is a settlement. *)
Definition record_settlement task (lease : SchedulerLeaseV1) p (s : MultiRepositoryWorkerSettlementV1) (exactProcessIdentity : text)
    : command MultiRepositoryCanonicalProjectionV1 :=
  if negb (settlementShapeValid s exactProcessIdentity) then uncertain_then task p lease SETTLEMENT_UNKNOWN worker_recovery
  else
    p' ← append_fact (workerFact task lease s);
    match validateSettlement s exactProcessIdentity with
    | Ok _ => mret p'
    | Err t => uncertain_then task p' lease SETTLEMENT_UNKNOWN t
    end.

Definition ensureWorkerSettled task (lease : SchedulerLeaseV1) (members : list MultiRepositoryWorkerMemberV1) p : command MultiRepositoryCanonicalProjectionV1 :=
  let request := workerRequest plan task lease members in
  match obj_get p.(cp_workers) (task_id task) with
  | Own existing =>
      match validateSettlement existing.(wk_settlement) existing.(wk_settlement).(se_processIdentity) with
      | Ok _ => mret p
      | Err t => uncertain_then task p lease SETTLEMENT_UNKNOWN t
      end
  | Inherited => uncertain_then task p lease SETTLEMENT_UNKNOWN ot_type_error
  | Absent =>
      scheduled ← eff_of (scheduled_in p task ot_type_error);
      match scheduled.(st_lease) ≫= ls_processIdentity with
      | Some acknowledged =>
          recovered ← eff_under ot_foreign (worker_recover request acknowledged);
          match recovered with
          | None => uncertain_then task p lease SETTLEMENT_UNKNOWN worker_recovery
          | Some s => record_settlement task lease p s acknowledged
          end
      | None =>
          launched ← launch_worker task lease request p;
          record_settlement task lease launched.1 launched.2 launched.2.(se_processIdentity)
      end
  end.
End worker.

(** * Commits of the worktrees *)

Section commits.
Context `{GitHost W}.

Definition worktree_recovery : OrchestrationThrow := ot_error MRO_WORKTREE_RECOVERY_REQUIRED true.

Definition gitRequired (cwd : text) (args : list text) : command text := fun w =>
  let (w', r) := git_run w cwd args in (w', if r.(gr_ok) then Ok r.(gr_out) else Err worktree_recovery).

Definition worktree_head (member : MultiRepositoryWorkerMemberV1) : command text :=
  gitRequired member.(wm_path) [str "rev-parse"; str "--verify"; str "HEAD^{commit}"].
Definition worktree_branch (member : MultiRepositoryWorkerMemberV1) : command text :=
  gitRequired member.(wm_path) [str "symbolic-ref"; str "-q"; str "HEAD"].
Definition worktree_status (member : MultiRepositoryWorkerMemberV1) : command text :=
  gitRequired member.(wm_path) [str "status"; str "--porcelain"; str "--untracked-files=all"].

Definition verifyCommittedHead (member : MultiRepositoryWorkerMemberV1) (intent : MultiRepositoryCanonicalCommitIntentFactV1) (childOid : text) : command text :=
  head ← worktree_head member;
  branch ← worktree_branch member;
  tree ← gitRequired member.(wm_path) [str "rev-parse"; str "--verify"; childOid ++ str "^{tree}"];
  parentLine ← gitRequired member.(wm_path) [str "rev-list"; str "--parents"; str "-n"; str "1"; childOid];
  status ← worktree_status member;
  eff_of (ensure (bool_decide (head = childOid) && bool_decide (branch = intent.(in_branchRef)) && bool_decide (tree = str intent.(in_treeOid))
                  && bool_decide (parentLine = childOid ++ str " " ++ str intent.(in_expectedOid)) && bool_decide (status = [])) worktree_recovery) ;;
  mret tree.

Definition ensureCommitIntent task (execution : MultiRepositoryTaskExecutionV1) (lease : SchedulerLeaseV1) (member : MultiRepositoryWorkerMemberV1) p
    : command MultiRepositoryCanonicalProjectionV1 :=
  if has (p.(cp_commitIntents) !! taskRepositoryKey (task_id task) member.(wm_repositoryId)) then mret p
  else
    head ← worktree_head member;
    branchRef ← worktree_branch member;
    eff_of (ensure (bool_decide (head = str member.(wm_anchorOid))) worktree_recovery) ;;
    status ← worktree_status member;
    eff_of (ensure (negb (bool_decide (status = []))) (ot_error MRO_WORKER_RECOVERY_REQUIRED false)) ;;
    _ ← gitRequired member.(wm_path) [str "add"; str "--all"];
    tree ← gitRequired member.(wm_path) [str "write-tree"];
    match oid_of_text tree with
    | None => eff_of (Err worktree_recovery)
    | Some treeOid => append_fact (multirepo_worktree_commit_intended (commit_intent task lease member branchRef treeOid execution.(ex_commitMessage)))
    end.

(** The child commit: made and swapped in, or the one that is already there. *)
Definition committed_child (member : MultiRepositoryWorkerMemberV1) (intent : MultiRepositoryCanonicalCommitIntentFactV1) : command text :=
  observedHead ← worktree_head member;
  if bool_decide (observedHead = str intent.(in_expectedOid)) then
    child ← gitRequired member.(wm_path)
      [str "commit-tree"; str intent.(in_treeOid); str "-p"; str intent.(in_expectedOid); str "-m"; intent.(in_message)];
    eff_of (ensure (has (oid_of_text child)) worktree_recovery) ;;
    _ ← gitRequired member.(wm_path) [str "update-ref"; intent.(in_branchRef); child; str intent.(in_expectedOid)];
    mret child
  else mret observedHead.

(** A head that is no object id is refused by the schema of its fact. *)
Definition ensureHeadRecorded task (lease : SchedulerLeaseV1) (member : MultiRepositoryWorkerMemberV1) p : command MultiRepositoryCanonicalProjectionV1 :=
  let key := taskRepositoryKey (task_id task) member.(wm_repositoryId) in
  match p.(cp_commitIntents) !! key with
  | None => throw_error MRO_CANONICAL_HISTORY_CORRUPT true
  | Some intent =>
      match p.(cp_heads) !! key with
      | Some recorded => _ ← verifyCommittedHead member intent (str recorded.(hd_childOid)); mret p
      | None =>
          child ← committed_child member intent;
          _ ← verifyCommittedHead member intent child;
          match oid_of_text child with
          | None => throw_error MRO_CANONICAL_APPEND_FAILED true
          | Some childOid => append_fact (multirepo_worktree_head_recorded (head_fact task lease member intent childOid intent.(in_treeOid)))
          end
      end
  end.
End commits.

(** * Integration and publication *)

Definition integration_plan_digest (p : MultiRepoIntegrationPlanV1) : string := orchestration_digest "relayforge-multirepo-integration-plan-v1" (integration_plan_json p).
Definition publication_plan_digest (p : MultiRepoPublicationPlanV1) : string := orchestration_digest "relayforge-multirepo-publication-plan-v1" (publication_plan_json p).

(** [projection.integrations[transactionId]!], read again after an append. *)
Definition own_member {V} (o : obj V) (k : string) : result OrchestrationThrow V := match obj_get o k with Own v => Ok v | _ => Err ot_type_error end.

Section integration.
Context `{GitHost W} `{VerificationHost W} `{IntegrationHost W} `{AuthorityManager W}.

(** The loop of [runIntegration]. *)
Fixpoint drive_integration (transitions : nat) task (lease : SchedulerLeaseV1) (tx : string) p (integration : MultiRepoIntegrationProjectionV1)
    : command (MultiRepositoryCanonicalProjectionV1 * MultiRepoIntegrationProjectionV1) :=
  match transitions with
  | O => throw_error MRO_INTEGRATION_RECOVERY_REQUIRED true
  | S transitions' =>
      if terminal integration.(mi_state) then mret (p, integration)
      else
        event ← eff_under ot_integration (reconcileMultiRepoIntegrationOnce integration);
        match event with
        | None => mret (p, integration)
        | Some event =>
            p' ← append_fact (integrationFact task lease event);
            integration' ← eff_of (own_member p'.(cp_integrations) tx);
            drive_integration transitions' task lease tx p' integration'
        end
  end.

Definition authority_fence task (lease : SchedulerLeaseV1) : AuthorityFence := {|
  af_runId := plan.(rpl_runId); af_runEpoch := plan.(rpl_runEpoch); af_taskId := task_id task; af_taskGeneration := task_generation task;
  af_leaseToken := lease_token_of lease |}.

Definition runIntegration task (lease : SchedulerLeaseV1) (execution : MultiRepositoryTaskExecutionV1) (members : list MultiRepositoryWorkerMemberV1) p
    : command (MultiRepositoryCanonicalProjectionV1 * MultiRepoIntegrationProjectionV1) :=
  requested ← eff_of (integrationPlan plan task execution lease members p);
  eff_under ot_foreign (acquire (plan_ids requested.(il_entries)) (authority_fence task lease)) ;;
  let tx := requested.(il_transactionId) in
  match obj_get p.(cp_integrations) tx with
  | Absent =>
      created ← eff_of (map_err ot_integration (createMultiRepoIntegrationEvent requested));
      p' ← append_fact (integrationFact task lease created);
      integration ← eff_of (own_member p'.(cp_integrations) tx);
      drive_integration maximumTransitionsPerTask task lease tx p' integration
  | Own integration =>
      eff_of (ensure (bool_decide (integration_plan_digest integration.(mi_plan) = integration_plan_digest requested)) (ot_error MRO_CANONICAL_IDENTITY_MISMATCH true)) ;;
      drive_integration maximumTransitionsPerTask task lease tx p integration
  | Inherited => eff_of (Err ot_type_error)
  end.
End integration.

Section publication.
Context `{PublicationAdapter W}.

(** The loop of [runPublication]. *)
Fixpoint drive_publication (transitions : nat) task (tx : string) p (publication : MultiRepoPublicationProjectionV1)
    : command (MultiRepositoryCanonicalProjectionV1 * MultiRepoPublicationProjectionV1) :=
  match transitions with
  | O => throw_error MRO_PUBLICATION_RECOVERY_REQUIRED true
  | S transitions' =>
      if published_terminal publication.(pbp_state) then mret (p, publication)
      else
        event ← eff_under ot_publication (reconcileMultiRepoPublicationOnce publication);
        match event with
        | None => mret (p, publication)
        | Some event =>
            p' ← append_fact (publicationFact task event);
            publication' ← eff_of (own_member p'.(cp_publications) tx);
            match event.(pbv_body) with
            | publication_retryable_failure _ _ _ => mret (p', publication')
            | _ => drive_publication transitions' task tx p' publication'
            end
        end
  end.

Definition runPublication task (requested : MultiRepoPublicationPlanV1) p : command (MultiRepositoryCanonicalProjectionV1 * MultiRepoPublicationProjectionV1) :=
  eff_of (ensure deps.(od_hasPublicationAdapter) (ot_error MRO_PUBLICATION_RECOVERY_REQUIRED true)) ;;
  let tx := requested.(pbl_transactionId) in
  match obj_get p.(cp_publications) tx with
  | Absent =>
      created ← eff_of (map_err (fun c => ot_publication (pt_publication c)) (createMultiRepoPublicationEvent requested));
      p' ← append_fact (publicationFact task created);
      publication ← eff_of (own_member p'.(cp_publications) tx);
      drive_publication maximumTransitionsPerTask task tx p' publication
  | Own publication =>
      eff_of (ensure (bool_decide (publication_plan_digest publication.(pbp_plan) = publication_plan_digest requested)) (ot_error MRO_CANONICAL_IDENTITY_MISMATCH true)) ;;
      drive_publication maximumTransitionsPerTask task tx p publication
  | Inherited => eff_of (Err ot_type_error)
  end.
End publication.
End commands.
End orchestration.
