(* ===== verification/OrchestrationFacts.v ===== *)
(** OrchestrationFacts: what the commands of the orchestration leave in the
    journal and in the repositories, whatever they return or throw. *)
From S2P Require Import Prelude Text Json Ids ScmTypes SchedulerEvents Scheduler Domain Dag Effects Lists GitTransaction Verification Integration IntegrationDriver IntegrationSaga Publication RunPlan Canonical CanonicalProjection Journal Orchestration.

(** * What a call of the driver can change *)

(** One step through the syntax of a command, and all of them but those that [known] closes. *)
Ltac keeping_step := first [assumption | apply keeps_ret, _ | apply keeps_of, _ | apply keeps_under | apply keeps_bind; [apply _| |intros ?]
  | apply keeps_try; [apply _| |intros ?|intros ?] | case_match].
Tactic Notation "keeping" tactic3(known) := repeat first [known | keeping_step].

Section frame.
Context {D : Digest} {C : Collation}.
Context {W : Type} `{GitHost W} `{VerificationHost W} `{IntegrationHost W}.
Context (R : relation W) `{!PreOrder R}.

(** A relation that every interface of the driver keeps. *)
Record driver_keeps : Prop := {
  git_keeps w cwd args : R w (git_run w cwd args).1;
  observe_keeps entry : keeps R (observe entry);
  executor_keeps request : keeps R (executor_run request);
  authority_keeps ids : keeps R (assertHeld ids);
  clock_keeps w : R w (verifiedAt w).1
}.

Context (Hk : driver_keeps).

Lemma run_keeps cwd args : keeps R (run cwd args).
Proof using Type*. intros w. pose proof (git_keeps Hk w cwd args) as Hr. unfold after, run. by destruct (git_run w cwd args). Qed.

Lemma probe_keeps path dev ino : keeps R (probe path dev ino).
Proof using Type*. intros w. unfold after. cbn. reflexivity. Qed.

Ltac git_keeping := keeping (first [apply run_keeps | apply probe_keeps]).

Lemma verifyRepository_keeps r : keeps R (verifyRepository r).
Proof using Type*. unfold verifyRepository, git_ensure. git_keeping. Qed.
Lemma requireRef_keeps r : keeps R (requireRef r).
Proof using Type*. unfold requireRef, git_ensure. git_keeping. Qed.
Lemma requireOid_keeps v n : keeps R (requireOid v n).
Proof using Type*. unfold requireOid, git_ensure. git_keeping. Qed.
Lemma resolveCommit_keeps cwd oid : keeps R (resolveCommit cwd oid).
Proof using Type*. unfold resolveCommit, git_ensure. git_keeping. Qed.
Lemma readRef_keeps cwd r : keeps R (readRef cwd r).
Proof using Type*. unfold readRef, git_throw. git_keeping. Qed.

Ltac all_keeping := keeping (first [apply verifyRepository_keeps | apply requireRef_keeps | apply requireOid_keeps | apply resolveCommit_keeps | apply readRef_keeps
  | apply run_keeps | apply probe_keeps]).

Lemma observeRef_keeps r t : keeps R (observeRepositoryRef r t).
Proof using Type*. unfold observeRepositoryRef. all_keeping. Qed.
Lemma prepare_keeps r : keeps R (prepareRepositoryCandidate r).
Proof using Type*. unfold prepareRepositoryCandidate, git_ensure, git_throw. all_keeping. Qed.
Lemma apply_keeps r c : keeps R (applyRepositoryCandidate r c).
Proof using Type*. unfold applyRepositoryCandidate, git_ensure. keeping (first [apply observeRef_keeps|all_keeping]). Qed.
Lemma compensate_keeps r c : keeps R (compensateRepositoryCandidate r c).
Proof using Type*. unfold compensateRepositoryCandidate. keeping (first [apply observeRef_keeps|all_keeping]). Qed.

Lemma verification_keeps plan environment : keeps R (executeCombinedVerification plan environment).
Proof using Type*.
  assert (forall entries, keeps R (observe_exact entries)) as Ho.
  { induction entries as [|x l IH]; cbn; keeping (by apply (observe_keeps Hk)). }
  assert (forall commands index results, keeps R (run_commands plan environment index commands results)) as Hr.
  { induction commands as [|c l IH]; intros index results; cbn; keeping (first [by apply (executor_keeps Hk)|apply IH]). }
  unfold executeCombinedVerification. keeping (first [apply Ho|apply Hr]).
Qed.

(** The driver keeps what its interfaces keep. *)
Lemma reconcile_keeps p : keeps R (reconcileMultiRepoIntegrationOnce p).
Proof using Type*.
  unfold reconcileMultiRepoIntegrationOnce, requireAuthority, drive_preparing, drive_verifying, drive_applying, drive_compensating.
  keeping (first [by apply (authority_keeps Hk)|apply prepare_keeps|apply verification_keeps|apply apply_keeps|apply compensate_keeps]).
  intros w. pose proof (clock_keeps Hk w) as Hc. unfold after. by destruct (verifiedAt w).
Qed.
End frame.

(** * One transaction in the journal *)

Section stream.
Context {D : Digest} {C : Collation} {Z0 : ZodUrl}.
Context {W : Type} `{CanonicalJournal W} (journal_facts : W -> list MultiRepositoryCanonicalFactV1) (tx : string).
Implicit Types (w : W) (p : MultiRepositoryCanonicalProjectionV1) (f : MultiRepositoryCanonicalFactV1) (o : option MultiRepoIntegrationProjectionV1).

(** The transaction a fact writes, and the facts that other writers append: any
    but those of this transaction. *)
Definition fact_transaction f : option string :=
  match f with multirepo_integration_transitioned _ _ _ _ event => Some (iv_transactionId event) | _ => None end.

Definition elsewhere f : Prop := fact_transaction f <> Some tx.

Lemma parsed_transaction raw f : parseMultiRepositoryCanonicalFact raw = Some f -> fact_transaction f = fact_transaction raw.
Proof.
  unfold parseMultiRepositoryCanonicalFact. intros (parsed & Hp & Hf)%bind_Some. destruct (MultiRepositoryCanonicalFactV1Schema parsed); [|done].
  injection Hf as <-. destruct raw; cbn in Hp; try (by injection Hp as <-); by apply fmap_Some in Hp as (x & _ & ->).
Qed.

Lemma parsed_integration id taskId generation token event f :
  parseMultiRepositoryCanonicalFact (multirepo_integration_transitioned id taskId generation token event) = Some f ->
  f = multirepo_integration_transitioned id taskId generation token event.
Proof. unfold parseMultiRepositoryCanonicalFact. cbn -[MultiRepositoryCanonicalFactV1Schema]. by case_match; intros [= <-]. Qed.

(** What a fact does to the transaction. *)
Lemma apply_fact_elsewhere p f next : elsewhere f -> apply_fact p f = Ok next -> cp_integrations next !! tx = cp_integrations p !! tx.
Proof.
  intros He Hf. destruct f as [id plan|id event|g|g|g|g|id taskId generation token event|g|id taskId generation event]; cbn in Hf; run; subst; cbn; try done.
  rewrite lookup_insert_ne; [done|]. intros Et. apply He. cbn. by rewrite Et.
Qed.

Lemma project_fact_elsewhere p raw p' : elsewhere raw -> project_fact p raw = Ok p' -> cp_integrations p' !! tx = cp_integrations p !! tx.
Proof.
  intros He (f & Hf & _ & [[-> _]|(_ & next & Hn & ->)])%project_fact_Ok; [done|]. cbn. eapply apply_fact_elsewhere; [|exact Hn].
  unfold elsewhere. by rewrite (parsed_transaction _ _ Hf).
Qed.

Lemma project_integration p id taskId generation token event p' :
  iv_transactionId event = tx -> project_fact p (multirepo_integration_transitioned id taskId generation token event) = Ok p' ->
  p' = p \/ exists i, applyMultiRepoIntegrationEvent (cp_integrations p !! tx) event = Ok i /\ cp_integrations p' !! tx = Some i.
Proof.
  intros Et (f & ->%parsed_integration & _ & [[-> _]|(_ & next & Hn & ->)])%project_fact_Ok; [by left|right]. cbn in Hn. run. subst.
  apply member_of_Ok in Hrun0. subst. eexists. split; [exact Hrun1|]. cbn. apply lookup_insert_eq.
Qed.

Lemma project_prefix l l' p :
  projectMultiRepositoryCanonicalFacts (l ++ l') = Ok p ->
  exists p1, projectMultiRepositoryCanonicalFacts l = Ok p1 /\ fold_result project_fact p1 l' = Ok p.
Proof.
  unfold projectMultiRepositoryCanonicalFacts. intros (_ & Hl%ensure_Ok & Hf)%bind_Ok. rewrite fold_result_app in Hf. apply bind_Ok in Hf as (p1 & H1 & H2).
  exists p1. split; [|done]. assert (at_most maximumJournalFacts l = true) as ->; [|done]. unfold at_most in *. guards. apply Z.leb_le. rewrite length_app in *. lia.
Qed.

(** What the durable facts say of the transaction, where they can be projected. *)
Definition durable w o : Prop := forall p, projectMultiRepositoryCanonicalFacts (journal_facts w) = Ok p -> cp_integrations p !! tx = o.

Lemma durable_same w w' o : journal_facts w' = journal_facts w -> durable w o -> durable w' o.
Proof using. unfold durable. by intros ->. Qed.

Lemma durable_others w w' o : only_others journal_facts elsewhere w w' -> durable w o -> durable w' o.
Proof using.
  intros (others & Hall & E) Hd p Hp. rewrite E in Hp. apply project_prefix in Hp as (p1 & H1 & H2). rewrite <-(Hd _ H1). clear E Hd H1.
  revert p1 H2. induction Hall as [|f l Hf _ IH]; intros p1 H2; [by injection H2 as <-|].
  apply bind_Ok in H2 as (p2 & H2 & H3). rewrite (IH _ H3). by eapply project_fact_elsewhere.
Qed.

(** One event of the transaction is appended, or not. *)
Definition event_taken (event : MultiRepoIntegrationEventV1) o o' : Prop :=
  o' = o \/ exists i, applyMultiRepoIntegrationEvent o event = Ok i /\ o' = Some i.

Lemma durable_appended id taskId generation token event w w' o :
  iv_transactionId event = tx -> durable w o ->
  appended_at_most journal_facts elsewhere (multirepo_integration_transitioned id taskId generation token event) w w' ->
  exists o', durable w' o' /\ event_taken event o o'.
Proof using.
  intros Et Hd [Ho|(w1 & Ho & E)]; [exists o; split; [by eapply durable_others|by left]|]. apply (durable_others _ _ o) in Ho; [|done].
  destruct (projectMultiRepositoryCanonicalFacts (journal_facts w')) as [p|t] eqn:Hp; [|exists o; split; [intros p; congruence|by left]].
  exists (cp_integrations p !! tx). split; [intros p' Hp'; congruence|]. rewrite E in Hp. apply project_prefix in Hp as (p1 & H1 & H2).
  cbn [fold_result] in H2. apply bind_Ok in H2 as (p2 & H2 & [= ->]). pose proof (Ho _ H1) as E1.
  apply project_integration in H2 as [->|(i & Hi & Ei)]; [by left|right; exists i; by rewrite <-E1|done].
Qed.
End stream.

(** * The loop over the journal *)

Section run_integration.
Context {D : Digest} {C : Collation} {Z0 : ZodUrl}.
Context {W : Type} `{CanonicalJournal W} `{GitHost W} `{VerificationHost W} `{IntegrationHost W} `{AuthorityManager W}.
Context (apart : text -> text -> Prop) (refs : refs_of W) (journal_facts : W -> list MultiRepositoryCanonicalFactV1) (tx : string).
Implicit Types (w : W) (p : MultiRepositoryCanonicalProjectionV1) (i : MultiRepoIntegrationProjectionV1).
Implicit Types (plan : MaterializedMultiRepositoryRunPlanV1) (task : MaterializedMultiRepositoryTaskV1) (lease : SchedulerLeaseV1).
Abbreviation durable := (durable journal_facts tx).
Abbreviation saga_wf := (saga_wf apart refs).

Definition same_journal w w' : Prop := journal_facts w' = journal_facts w.

#[export] Instance same_journal_preorder : PreOrder same_journal.
Proof using. unfold same_journal. split; [done|]. intros w1 w2 w3 H1' H2'. by rewrite H2'. Qed.

(** The journal is not in the repositories: its operations move no ref, and
    those of the driver and of the leases append nothing. *)
Class JournalApart : Prop := {
  read_moves_nothing : keeps (same_refs refs) journal_read;
  append_moves_nothing head version fact : keeps (same_refs refs) (journal_append head version fact);
  acquire_moves_nothing ids fence : keeps (same_refs refs) (acquire ids fence);
  acquire_appends_nothing ids fence : keeps same_journal (acquire ids fence);
  driver_appends_nothing : driver_keeps same_journal
}.

Context `{!GitRefs apart refs} `{!Contained refs} `{!JournalContract journal_facts (elsewhere tx)} `{!JournalApart}.

Lemma append_keeps_refs plan conflicts fact : keeps (same_refs refs) (append_loop conflicts plan fact).
Proof using Type*.
  assert (keeps (same_refs refs) (readCanonical plan)) as Hr.
  { apply keeps_bind; [apply _|apply keeps_under, read_moves_nothing|intros s; apply keeps_of, _]. }
  induction conflicts as [|conflicts IH]; cbn [append_loop]; [apply keeps_of, _|].
  keeping (first [apply Hr|apply append_moves_nothing|apply IH]).
Qed.

(** An event of the transaction is in the journal afterwards, or it is not. *)
Lemma append_integration_spec plan id taskId generation token event w o :
  iv_transactionId event = tx -> durable w o ->
  after (append_fact plan (multirepo_integration_transitioned id taskId generation token event)) w (fun w' r =>
    same_refs refs w w' /\ exists o', durable w' o' /\ event_taken event o o' /\
    match r with Ok p' => projectMultiRepositoryCanonicalFacts (journal_facts w') = Ok p' | Err _ => True end).
Proof using Type*.
  intros Et Hd. unfold append_fact. apply after_bind. eapply after_mono.
  - apply after_and; [apply (append_loop_spec journal_facts (elsewhere tx))|apply append_keeps_refs].
  - intros w' r [[Hat Hr] Hrefs]. destruct (durable_appended _ _ _ _ _ _ _ _ _ _ Et Hd Hat) as (o' & Ho & Htk).
    destruct r as [c|t]; [|by eauto 6]. unfold after. cbn. split; [done|]. exists o'. split; [done|]. split; [done|].
    destruct Hr as [[Hf Hp] _]. by rewrite <-Hf.
Qed.

Lemma same_others i w w' : same_refs refs w w' -> others refs i w w'.
Proof using. intros Hs x Hx. unfold ref_of. by rewrite Hs. Qed.

(** A call and the append of its event are steps of the saga. *)
Lemma driven_step i w w1 w2 event o' :
  reconcileMultiRepoIntegrationOnce i w = (w1, Ok (Some event)) -> same_refs refs w1 w2 -> event_taken event (Some i) o' ->
  exists i', o' = Some i' /\ rtc (saga_step refs) (w, i) (w2, i').
Proof using.
  intros Hr Hs [->|(i' & Hi & ->)]; eexists; (split; [done|]); (eapply rtc_l; [|apply rtc_once, saga_others, same_others, Hs]).
  - by eapply saga_lost.
  - by eapply saga_recorded.
Qed.

(** Where the transaction stands in the journal after a run, and in the repositories. *)
Definition driven_to w i w' i' : Prop :=
  durable w' (Some i') /\ rtc (saga_step refs) (w, i) (w', i') /\ mi_transactionId i' = tx.

Definition drive_result w i w' (r : result OrchestrationThrow (MultiRepositoryCanonicalProjectionV1 * MultiRepoIntegrationProjectionV1)) : Prop :=
  exists i', driven_to w i w' i' /\
  match r with
  | Ok (p', j) => projectMultiRepositoryCanonicalFacts (journal_facts w') = Ok p' /\ j = i' /\ terminal (mi_state i') = true
  | Err _ => True
  end.

Lemma applied_transaction i event i' : applyMultiRepoIntegrationEvent (Some i) event = Ok i' -> mi_transactionId i' = mi_transactionId i.
Proof using. by intros [[-> _]|(part & _ & _ & _ & _ & ->)]%apply_Some_Ok. Qed.

Lemma saga_transaction s s' : rtc (saga_step refs) s s' -> mi_transactionId s'.2 = mi_transactionId s.2.
Proof using. induction 1 as [|s s1 s2 Hs _ IH]; [done|]. rewrite IH. destruct Hs; [by eapply applied_transaction|done|done]. Qed.

Lemma drive_integration_spec plan transitions task lease p i w :
  saga_wf (w, i) -> mi_transactionId i = tx -> durable w (Some i) -> projectMultiRepositoryCanonicalFacts (journal_facts w) = Ok p ->
  after (drive_integration plan transitions task lease tx p i) w (drive_result w i).
Proof using Type*.
  revert p i w. induction transitions as [|transitions IH]; intros p i w Hw Ht Hd Hp; cbn [drive_integration]; [by exists i|].
  destruct (terminal (mi_state i)) eqn:Et; [by exists i|]. apply after_bind, after_under. unfold after at 1.
  pose proof (reconcile_keeps same_journal driver_appends_nothing i w) as Hj.
  pose proof (reconcile_spec apart refs i w (saga_driven _ _ _ Hw)) as Hr. unfold after in Hj, Hr.
  destruct (reconcileMultiRepoIntegrationOnce i w) as [w1 r] eqn:Er. cbn [fst snd] in Hr, Hj |- *.
  assert (durable w1 (Some i)) as Hd1 by (by eapply durable_same).
  destruct Hr as [_ Hr]. destruct r as [[event|]|t]; cbn [map_err]; [|congruence|].
  - destruct Hr as (action & body & -> & _). apply after_bind. eapply after_mono; [by apply (append_integration_spec _ _ _ _ _ _ _ (Some i))|].
    intros w2 r (Hs & o' & Hd2 & Htk & Hr). destruct (driven_step _ _ _ _ _ _ Er Hs Htk) as (i' & -> & Hsteps).
    pose proof (saga_transaction _ _ Hsteps) as Et'. cbn in Et'. rewrite Ht in Et'.
    destruct r as [p'|t]; [|by exists i']. apply after_bind, after_of. unfold own_member.
    destruct (obj_get (cp_integrations p') tx) as [| |j] eqn:Ej; [by exists i'..|]. apply obj_get_Own in Ej. rewrite (Hd2 _ Hr) in Ej. injection Ej as <-.
    eapply after_mono; [apply IH; [by apply (saga_steps_wf apart refs _ _ Hw)|done..]|]. intros w' r (i'' & (Hd3 & Hsteps3 & Ht3) & Hres).
    exists i''. split; [|done]. split; [done|]. split; [by etransitivity|done].
  - exists i. split; [|done]. split; [done|]. split; [|done]. by eapply rtc_once, saga_lost.
Qed.

(** * The end of the loop *)

Abbreviation events_of := (fun facts => integration_events tx (omap parseMultiRepositoryCanonicalFact facts)).

(** The id of the event, or of its fact, is that of another in the journal. *)
Definition id_taken (facts : list MultiRepositoryCanonicalFactV1) (fact : MultiRepositoryCanonicalFactV1) (event : MultiRepoIntegrationEventV1) : Prop :=
  (exists f, f ∈ omap parseMultiRepositoryCanonicalFact facts /\ f <> fact /\ fact_id f = fact_id fact) \/
  (exists e, e ∈ events_of facts /\ e <> event /\ iv_eventId e = iv_eventId event).

(** The events of the transaction in a journal that can be projected. *)
Lemma projected_events facts p i :
  projectMultiRepositoryCanonicalFacts facts = Ok p -> cp_integrations p !! tx = Some i ->
  exists taken, sublist taken (omap parseMultiRepositoryCanonicalFact facts) /\ canonical_history taken p /\ integration_recorded (integration_events tx taken) i.
Proof using.
  intros (parsed & Hm & Hh & _)%projected_history Hi. exists (distinct_facts [] parsed). rewrite (mapM_omap _ _ _ Hm).
  split; [apply distinct_facts_sublist|]. split; [done|]. apply integration_ids_recorded.
  pose proof (composed_integrations _ _ (history_composed _ _ Hh) tx) as Hf. by rewrite Hi in Hf.
Qed.

Lemma sublist_events l l' e : sublist l l' -> e ∈ integration_events tx l -> e ∈ integration_events tx l'.
Proof using.
  unfold integration_events. rewrite !list_elem_of_omap. intros Hs (f & Hf & E). exists f. split; [|done]. by eapply elem_of_sublist.
Qed.

(** An id that is recorded is that of an event of an earlier version. *)
Lemma recorded_taken facts fact event p i :
  projectMultiRepositoryCanonicalFacts facts = Ok p -> cp_integrations p !! tx = Some i -> is_Some (mi_eventIds i !! iv_eventId event) ->
  iv_expectedVersion event = mi_version i -> id_taken facts fact event.
Proof using.
  intros Hp Hi [d Hd] Hv. destruct (projected_events _ _ _ Hp Hi) as (taken & Hs & _ & Hr). destruct (recorded_folded _ _ _ _ _ _ _ Hr _ _ Hd) as (e & He & Eid & _ & Hlt).
  right. exists e. split; [by eapply sublist_events|]. split; [intros ->; lia|done].
Qed.

(** A fact that was seen is another one, or its event is recorded. *)
Lemma seen_taken facts task lease event p i :
  projectMultiRepositoryCanonicalFacts facts = Ok p -> cp_integrations p !! tx = Some i -> iv_transactionId event = tx -> iv_expectedVersion event = mi_version i ->
  is_Some (cp_seenFactIds p !! iv_eventId event) -> id_taken facts (integrationFact task lease event) event.
Proof using.
  intros Hp Hi Et Hv [d Hd]. destruct (projected_events _ _ _ Hp Hi) as (taken & Hs & Hh & Hr). pose proof (proj1 (canonical_history_seen _ _ Hh _ _) Hd) as (f & Hf & Eid & _).
  assert (f = integrationFact task lease event -> is_Some (mi_eventIds i !! iv_eventId event)) as Hrec.
  { intros ->. eexists. eapply (folded_recorded _ _ _ _ _ _ _ Hr). unfold integration_events. rewrite list_elem_of_omap. eexists. split; [exact Hf|].
    cbn. by rewrite bool_decide_eq_true_2. }
  destruct (mi_eventIds i !! iv_eventId event) eqn:Ei; [by eapply (recorded_taken _ _ _ p i)|].
  left. exists f. split; [by eapply elem_of_sublist|]. split; [|done]. by intros [? [=]]%Hrec.
Qed.

(** What a fact that was not seen makes of the transaction. *)
Lemma project_new_integration p task lease event p' :
  iv_transactionId event = tx -> cp_seenFactIds p !! iv_eventId event = None -> project_fact p (integrationFact task lease event) = Ok p' ->
  exists i, applyMultiRepoIntegrationEvent (cp_integrations p !! tx) event = Ok i /\ cp_integrations p' !! tx = Some i.
Proof using Type*.
  intros Et Hn Hp. apply project_fact_Ok in Hp as (f & ->%parsed_integration & _ & [[_ Hs]|(_ & next & Ha & ->)]); [cbn in Hs; congruence|].
  cbn in Ha. run. subst. apply member_of_Ok in Hrun0. subst. eexists. split; [exact Hrun1|]. cbn. apply lookup_insert_eq.
Qed.

(** An event of the next version that was appended has moved the transaction. *)
Lemma appended_moves plan task lease event w i :
  iv_transactionId event = tx -> iv_expectedVersion event = mi_version i -> durable w (Some i) ->
  after (append_fact plan (integrationFact task lease event)) w (fun w' r => forall p', r = Ok p' ->
    id_taken (journal_facts w') (integrationFact task lease event) event \/
    exists part, transition i (iv_body event) part /\ cp_integrations p' !! tx = Some (advance_integration i event part)).
Proof using Type*.
  intros Et Hv Hd. unfold append_fact. apply after_bind. eapply after_mono; [apply (append_loop_spec journal_facts (elsewhere tx))|].
  intros w' [c|t] [_ Hr]; [|done]. unfold after. cbn. intros p' [= <-]. destruct Hr as [[Ef Hp] Hcase]. rewrite Ef in Hp. destruct Hcase as [[Ho Hs]|(w1 & c1 & Ho & [Ef1 Hp1] & Hnew & E)].
  - left. apply (durable_others _ _ _ _ _ Ho) in Hd. eapply (seen_taken _ _ _ _ c.2 i); [done|by apply Hd|done|done|by eexists].
  - apply (durable_others _ _ _ _ _ Ho) in Hd. rewrite Ef1 in Hp1. pose proof (Hd _ Hp1) as Hi. pose proof Hp as Hfold. rewrite E in Hfold.
    apply project_prefix in Hfold as (p1 & Hp1' & Hfold). assert (p1 = c1.2) as -> by congruence. cbn [fold_result] in Hfold. apply bind_Ok in Hfold as (p2 & Hfact & [= ->]).
    apply obj_get_Absent in Hnew. apply project_new_integration in Hfact as (i' & Hi' & Ei'); [|done..]. rewrite Hi in Hi'.
    apply apply_Some_Ok in Hi' as [[-> Hrec]|(part & _ & _ & _ & Htr & ->)]; [left|right; by exists part].
    eapply (recorded_taken _ _ _ c.2 i); [done|done|by eexists|done].
Qed.

Lemma append_fact_throws plan fact w : after (append_fact plan fact) w (fun _ r => forall t, r = Err t -> journal_throws t).
Proof using.
  apply after_bind. eapply after_mono; [apply append_loop_throws|]. intros w' [c|t] Hc; [done|]. intros t' [= <-]. by apply Hc.
Qed.

(** What the loop throws: what the lease, git or the receipt threw, or the journal. *)
Definition drive_throws (t : OrchestrationThrow) : Prop :=
  match t with ot_integration t => driver_throws t | _ => journal_throws t end.

(** A call of the driver somewhere in the loop, whose event could not be taken. *)
Inductive stuck plan task lease w i (why : MultiRepositoryCanonicalFactV1 -> MultiRepoIntegrationEventV1 -> W -> W -> Prop) : Prop :=
| stuck_at w1 i1 w2 event w3 r : rtc (saga_step refs) (w, i) (w1, i1) -> reconcileMultiRepoIntegrationOnce i1 w1 = (w2, Ok (Some event)) ->
    append_fact plan (integrationFact task lease event) w2 = (w3, r) -> why (integrationFact task lease event) event w2 w3 -> stuck plan task lease w i why.

Lemma stuck_later plan task lease w i w' i' why :
  rtc (saga_step refs) (w, i) (w', i') -> stuck plan task lease w' i' why -> stuck plan task lease w i why.
Proof using. intros Hs [w1 i1 w2 event w3 r H1' H2' H3' H4']. eapply stuck_at; [by etransitivity|done..]. Qed.

Definition clashes fact event (w2 w3 : W) : Prop := id_taken (journal_facts w3) fact event.

Lemma drive_integration_ends plan transitions task lease p i w :
  saga_wf (w, i) -> mi_transactionId i = tx -> durable w (Some i) -> projectMultiRepositoryCanonicalFacts (journal_facts w) = Ok p ->
  (events_left i < transitions)%nat ->
  after (drive_integration plan transitions task lease tx p i) w (fun _ r => forall t, r = Err t -> drive_throws t \/ stuck plan task lease w i clashes).
Proof using Type*.
  revert p i w. induction transitions as [|transitions IH]; intros p i w Hw Ht Hd Hp Hl; [lia|]; cbn [drive_integration].
  destruct (terminal (mi_state i)) eqn:Et; [done|]. apply after_bind, after_under. unfold after at 1.
  pose proof (reconcile_keeps same_journal driver_appends_nothing i w) as Hj.
  pose proof (reconcile_spec apart refs i w (saga_driven _ _ _ Hw)) as Hr. unfold after in Hj, Hr.
  destruct (reconcileMultiRepoIntegrationOnce i w) as [w1 r] eqn:Er. cbn [fst snd] in Hr, Hj |- *.
  assert (durable w1 (Some i)) as Hd1 by (by eapply durable_same).
  destruct Hr as [_ Hr]. destruct r as [[event|]|t]; cbn [map_err]; [|done|intros t' [= <-]; by left].
  destruct Hr as (action & body & Hev & Hdr). assert (iv_transactionId event = tx) as Etx by by subst event.
  assert (iv_expectedVersion event = mi_version i) as Hver by by subst event.
  apply after_bind. pose proof (append_integration_spec plan (iv_eventId event) (task_id task) (task_generation task) (lease_token_of lease) event w1 (Some i) Etx Hd1) as Happ.
  pose proof (appended_moves plan task lease event w1 i Etx Hver Hd1) as Hmove.
  pose proof (append_fact_throws plan (integrationFact task lease event) w1) as Hthrow. unfold after in Happ, Hmove, Hthrow |- *.
  change (multirepo_integration_transitioned _ _ _ _ event) with (integrationFact task lease event) in Happ.
  destruct (append_fact plan (integrationFact task lease event) w1) as [w2 r] eqn:Ea. cbn [fst snd] in Happ, Hmove, Hthrow |- *.
  destruct Happ as (Hs & o' & Hd2 & Htk & Hr). destruct r as [p'|t]; [|intros t' [= <-]; left; cbn; specialize (Hthrow _ eq_refl); by destruct t].
  destruct (driven_step _ _ _ _ _ _ Er Hs Htk) as (i' & -> & Hsteps). pose proof (saga_transaction _ _ Hsteps) as Et'. cbn in Et'. rewrite Ht in Et'.
  pose proof (Hd2 _ Hr) as Ei'. apply (proj2 (obj_get_Own _ _ _)) in Ei' as Eown. unfold own_member, mbind, effect_bind, eff_of. rewrite Eown.
  destruct (Hmove _ eq_refl) as [Hclash|(part & Htr & Epart)]; [intros t _; right; by eapply (stuck_at _ _ _ _ _ _ w i w1 event w2)|].
  rewrite Ei' in Epart. injection Epart as ->. intros t Hres.
  assert (events_left (advance_integration i event part) < events_left i)%nat as Hnear by (rewrite Hev in Htr |- *; eapply drives_nearer; [apply Hw|exact Hdr|exact Htr]).
  destruct (IH p' _ w2 (saga_steps_wf apart refs _ _ Hw Hsteps) Et' Hd2 Hr ltac:(lia) t Hres) as [?|Hstuck]; [by left|right].
  by eapply stuck_later.
Qed.
(** * The loop over a quiet journal *)

Lemma id_taken_app facts l fact event : id_taken facts fact event -> id_taken (facts ++ l) fact event.
Proof using.
  unfold id_taken. rewrite omap_app. intros [(f & Hf & Hne)|(e & He & Hne)]; [left; exists f|right; exists e]; (split; [|done]).
  - apply elem_of_app. by left.
  - unfold integration_events in *. rewrite omap_app. apply elem_of_app. by left.
Qed.

(** Why a journal that works does not take an event of the driver: its schema
    refuses the fact, it is full, or the id is taken. *)
Definition refused fact event (w2 w3 : W) : Prop :=
  parseMultiRepositoryCanonicalFact fact = None \/ maximumJournalFacts <= Z.of_nat (length (journal_facts w2)) \/ id_taken (journal_facts w3) fact event.

Definition leased task lease p : Prop := is_Some (task_under_lease (cp_scheduler p) (task_id task) (task_generation task) (lease_token_of lease)).

Lemma project_driven task lease event p i part :
  leased task lease p -> cp_integrations p !! tx = Some i -> mi_transactionId i = tx -> iv_transactionId event = tx -> iv_expectedVersion event = mi_version i ->
  iv_eventId event ∉ objectPrototypeKeys -> transition i (iv_body event) part -> cp_seenFactIds p !! iv_eventId event = None ->
  match project_fact p (integrationFact task lease event) with
  | Ok p' => cp_plan p' = cp_plan p /\ cp_scheduler p' = cp_scheduler p
  | Err _ => parseMultiRepositoryCanonicalFact (integrationFact task lease event) = None \/ is_Some (mi_eventIds i !! iv_eventId event)
  end.
Proof using Type*.
  intros Hlease Hi Ht Et Hv Hid Htr Hseen. unfold project_fact. destruct (parseMultiRepositoryCanonicalFact _) as [f|] eqn:Ef; [|by left].
  apply parsed_integration in Ef as Ef'. subst f. assert (isValidId (iv_eventId event) = true) as Hvalid.
  { unfold parseMultiRepositoryCanonicalFact in Ef. cbn [fact_urls mbind option_bind integrationFact] in Ef. case_match eqn:Es; [|done]. unfold MultiRepositoryCanonicalFactV1Schema in Es. by guards. }
  cbn [fact_id]. rewrite Hvalid. cbn [ensure mbind result_bind]. unfold obj_get at 1. rewrite Hseen, bool_decide_eq_false_2 by done.
  cbn [apply_fact]. apply has_is_Some in Hlease. unfold leased in Hlease. rewrite Hlease. cbn [ensure mbind result_bind].
  unfold member_of. rewrite Et, (proj2 (obj_get_Own _ _ _) Hi). cbn [mbind result_bind applyMultiRepoIntegrationEvent].
  destruct (mi_eventIds i !! iv_eventId event) eqn:Er.
  { rewrite (proj2 (obj_get_Own _ _ _) Er). unfold ensure. case_bool_decide; cbn; [done|]. right. by eexists. }
  unfold obj_get. rewrite Er, bool_decide_eq_false_2 by done. rewrite Et, Ht, bool_decide_eq_true_2, Hv, Z.eqb_refl by done.
  apply integration_switch_transition in Htr. cbn [andb ensure mbind result_bind]. by rewrite Htr.
Qed.

Lemma append_driven plan task lease event w p i part :
  journal_quiet journal_facts plan -> projectMultiRepositoryCanonicalFacts (journal_facts w) = Ok p -> plan_matches plan p = true -> leased task lease p ->
  cp_integrations p !! tx = Some i -> mi_transactionId i = tx -> iv_transactionId event = tx -> iv_expectedVersion event = mi_version i ->
  iv_eventId event ∉ objectPrototypeKeys -> transition i (iv_body event) part ->
  after (append_fact plan (integrationFact task lease event)) w (fun w' r => match r with
    | Ok p' => plan_matches plan p' = true /\ leased task lease p'
    | Err _ => refused (integrationFact task lease event) event w w'
    end).
Proof using Type*.
  intros Hq Hp Hm Hlease Hi Ht Et Hv Hid Htr. unfold append_fact. apply after_bind. eapply after_mono; [by apply (append_quiet journal_facts (elsewhere tx))|].
  intros w' r Hr. unfold quiet_result in Hr. cbn [fact_id integrationFact] in Hr. destruct (cp_seenFactIds p !! iv_eventId event) as [prior|] eqn:Es.
  - destruct Hr as [Ej Hr]. case_bool_decide; [destruct Hr as [s ->]; unfold after; cbn; done|]. destruct Hr as [t ->]. right. right. rewrite Ej.
    eapply (seen_taken _ _ _ _ p i); [done..|by eexists].
  - destruct Hr as [Ej Hr]. pose proof (project_driven task lease event p i part Hlease Hi Ht Et Hv Hid Htr Es) as Hproj. unfold integrationFact in Hproj.
    destruct (at_most maximumJournalFacts _) eqn:Elen.
    + destruct (project_fact p _) as [p'|t]; [destruct Hr as [s ->]; unfold after; cbn|subst r].
      * destruct Hproj as [E1 E2]. unfold plan_matches, leased. by rewrite E1, E2.
      * destruct Hproj as [?|Hrec]; [by left|right; right]. rewrite Ej. eapply id_taken_app, (recorded_taken _ _ _ p i); done.
    + destruct Hr as [t ->]. right. left. unfold at_most in Elen. apply Z.leb_gt in Elen. rewrite length_app in Elen. cbn in Elen. lia.
Qed.

Lemma drive_integration_quiet plan transitions task lease p i w :
  journal_quiet journal_facts plan -> plan_matches plan p = true -> leased task lease p ->
  saga_wf (w, i) -> mi_transactionId i = tx -> projectMultiRepositoryCanonicalFacts (journal_facts w) = Ok p -> cp_integrations p !! tx = Some i ->
  (events_left i < transitions)%nat ->
  after (drive_integration plan transitions task lease tx p i) w (fun _ r => forall t, r = Err t ->
    (exists t', t = ot_integration t' /\ driver_throws t') \/ stuck plan task lease w i refused).
Proof using Type*.
  intros Hq. revert p i w. induction transitions as [|transitions IH]; intros p i w Hm Hlease Hw Ht Hp Hi Hl; [lia|]; cbn [drive_integration].
  destruct (terminal (mi_state i)) eqn:Et; [done|]. apply after_bind, after_under. unfold after at 1.
  pose proof (reconcile_keeps same_journal driver_appends_nothing i w) as Hj.
  pose proof (reconcile_spec apart refs i w (saga_driven _ _ _ Hw)) as Hr. unfold after in Hj, Hr.
  destruct (reconcileMultiRepoIntegrationOnce i w) as [w1 r] eqn:Er. cbn [fst snd] in Hr, Hj |- *.
  destruct Hr as [_ Hr]. destruct r as [[event|]|t]; cbn [map_err]; [|done|intros t' [= <-]; left; by exists t].
  destruct Hr as (action & body & Hev & Hdr). destruct (drives_transition refs i w w1 body (saga_driven _ _ _ Hw) Hdr) as [part Htr].
  assert (iv_transactionId event = tx /\ iv_expectedVersion event = mi_version i /\ (iv_eventId event ∉ objectPrototypeKeys) /\ body = iv_body event) as (Etx & Hver & Hid & ->)
    by (subst event; cbn; split_and!; try done; apply eventId_not_inherited).
  rewrite <-Hj in Hp. assert (durable w1 (Some i)) as Hd1 by (intros p' Hp'; congruence).
  apply after_bind. pose proof (append_integration_spec plan (iv_eventId event) (task_id task) (task_generation task) (lease_token_of lease) event w1 (Some i) Etx Hd1) as Happ.
  pose proof (appended_moves plan task lease event w1 i Etx Hver Hd1) as Hmove.
  pose proof (append_driven plan task lease event w1 p i part Hq Hp Hm Hlease Hi Ht Etx Hver Hid Htr) as Hquiet. unfold after in Happ, Hmove, Hquiet |- *.
  change (multirepo_integration_transitioned _ _ _ _ event) with (integrationFact task lease event) in Happ.
  destruct (append_fact plan (integrationFact task lease event) w1) as [w2 r] eqn:Ea. cbn [fst snd] in Happ, Hmove, Hquiet |- *.
  destruct Happ as (Hs & o' & Hd2 & Htk & Hr). destruct r as [p'|t]; [|intros t' _; right; by eapply (stuck_at _ _ _ _ _ _ w i w1 event w2)].
  destruct (driven_step _ _ _ _ _ _ Er Hs Htk) as (i' & -> & Hsteps). pose proof (saga_transaction _ _ Hsteps) as Et'. cbn in Et'. rewrite Ht in Et'.
  pose proof (Hd2 _ Hr) as Ei'. apply (proj2 (obj_get_Own _ _ _)) in Ei' as Eown. unfold own_member, mbind, effect_bind, eff_of. rewrite Eown.
  destruct (Hmove _ eq_refl) as [Hclash|(part' & Htr' & Epart)]; [intros t _; right; eapply (stuck_at _ _ _ _ _ _ w i w1 event w2); [done..|by right; right]|].
  rewrite Ei' in Epart. injection Epart as ->. intros t Hres. destruct Hquiet as [Hm' Hlease'].
  assert (events_left (advance_integration i event part') < events_left i)%nat as Hnear by (rewrite Hev in Htr' |- *; eapply drives_nearer; [apply Hw|exact Hdr|exact Htr']).
  destruct (IH p' _ w2 Hm' Hlease' (saga_steps_wf apart refs _ _ Hw Hsteps) Et' Hr Ei' ltac:(lia) t Hres) as [?|Hstuck]; [by left|right].
  by eapply stuck_later.
Qed.

(** * A whole run, and the next *)

(** What every run may rely on and leaves behind: the durable facts show no
    transaction, or one that the repositories agree with. *)
Definition journal_safe w : Prop :=
  exists o, durable w o /\ forall i, o = Some i -> saga_wf (w, i) /\ mi_transactionId i = tx.

Lemma journal_safe_absent p w :
  projectMultiRepositoryCanonicalFacts (journal_facts w) = Ok p -> cp_integrations p !! tx = None -> journal_safe w.
Proof using. intros Hp Hn. exists None. split; [|done]. intros p' Hp'. congruence. Qed.

Lemma journal_safe_present p w i :
  projectMultiRepositoryCanonicalFacts (journal_facts w) = Ok p -> cp_integrations p !! tx = Some i -> saga_wf (w, i) -> mi_transactionId i = tx -> journal_safe w.
Proof using. intros Hp Hi Hw Ht. exists (Some i). split; [intros p' Hp'; congruence|]. by intros j [= <-]. Qed.

Lemma saga_same i w w' : same_refs refs w w' -> saga_wf (w, i) -> saga_wf (w', i).
Proof using Type*. intros Hs Hw. apply (saga_step_wf apart refs _ _ Hw). by apply saga_others, same_others. Qed.

Lemma journal_safe_same w w' : same_refs refs w w' -> same_journal w w' -> journal_safe w -> journal_safe w'.
Proof using Type*.
  intros Hs Hj (o & Hd & Ho). exists o. split; [by eapply durable_same|]. intros i [Hw Ht]%Ho. split; [by eapply saga_same|done].
Qed.

Definition run_result w' (r : result OrchestrationThrow (MultiRepositoryCanonicalProjectionV1 * MultiRepoIntegrationProjectionV1)) : Prop :=
  journal_safe w' /\
  match r with
  | Ok (p', i) => projectMultiRepositoryCanonicalFacts (journal_facts w') = Ok p' /\ cp_integrations p' !! tx = Some i /\ terminal (mi_state i) = true
  | Err _ => True
  end.

Lemma drive_run_result plan transitions task lease p i w :
  saga_wf (w, i) -> mi_transactionId i = tx -> durable w (Some i) -> projectMultiRepositoryCanonicalFacts (journal_facts w) = Ok p ->
  after (drive_integration plan transitions task lease tx p i) w run_result.
Proof using Type*.
  intros Hw Ht Hd Hp. eapply after_mono; [by apply drive_integration_spec|]. intros w' r (i' & (Hd' & Hs & Ht') & Hr). split.
  - exists (Some i'). split; [done|]. intros j [= <-]. split; [by apply (saga_steps_wf apart refs _ _ Hw)|done].
  - destruct r as [[p' j]|t]; [|done]. destruct Hr as (Hp' & -> & Hterm). split; [done|]. split; [by apply Hd'|done].
Qed.

Lemma create_run_result plan requested task lease p w :
  il_transactionId requested = tx -> separate apart requested -> durable w None -> projectMultiRepositoryCanonicalFacts (journal_facts w) = Ok p ->
  after (created ← eff_of (map_err ot_integration (createMultiRepoIntegrationEvent requested));
         p' ← append_fact plan (integrationFact task lease created);
         integration ← eff_of (own_member (cp_integrations p') tx);
         drive_integration plan maximumTransitionsPerTask task lease tx p' integration) w run_result.
Proof using Type*.
  intros Et Hsep Hd Hp. assert (journal_safe w) as Hsafe by (exists None; by split). apply after_bind, after_of.
  destruct (createMultiRepoIntegrationEvent requested) as [created|t] eqn:Ec; cbn [map_err]; [|by split].
  assert (iv_transactionId created = tx) as Ect.
  { unfold createMultiRepoIntegrationEvent in Ec. apply bind_Ok in Ec as (v & Hv & [= <-]). unfold validatePlan in Hv. run. by subst. }
  apply after_bind. eapply after_mono; [by apply (append_integration_spec _ _ _ _ _ _ _ None)|]. intros w2 r (Hs & o' & Hd2 & Htk & Hr).
  assert (forall i, o' = Some i -> saga_wf (w2, i) /\ mi_transactionId i = tx) as Ho.
  { intros i ->. destruct Htk as [[=]|(i' & Hi & [= <-])]. split; [by eapply created_saga|].
    destruct (created_driven _ _ _ Ec Hi) as (Hdr & Epl & _). by rewrite (driven_transaction _ Hdr), Epl. }
  assert (journal_safe w2) as Hsafe2 by (by exists o'). destruct r as [p'|t]; [|by split]. apply after_bind, after_of. unfold own_member.
  destruct (obj_get (cp_integrations p') tx) as [| |i] eqn:Ei; [by split..|]. apply obj_get_Own in Ei. rewrite (Hd2 _ Hr) in Ei.
  destruct (Ho i Ei) as [Hw Ht]. subst o'. by apply drive_run_result.
Qed.

Lemma integrationPlan_transaction plan task execution lease members p requested :
  integrationPlan plan task execution lease members p = Ok requested -> il_transactionId requested = transaction_id plan task lease.
Proof using. unfold integrationPlan. intros (entries & _ & [= <-])%bind_Ok. done. Qed.

Lemma runIntegration_safe plan task lease execution members p w :
  transaction_id plan task lease = tx ->
  (forall requested, integrationPlan plan task execution lease members p = Ok requested -> separate apart requested) ->
  journal_safe w -> projectMultiRepositoryCanonicalFacts (journal_facts w) = Ok p ->
  after (runIntegration plan task lease execution members p) w run_result.
Proof using Type*.
  intros Etx Hsep Hsafe Hp. unfold runIntegration. apply after_bind, after_of.
  destruct (integrationPlan plan task execution lease members p) as [requested|t] eqn:Er; [|by split].
  pose proof (integrationPlan_transaction _ _ _ _ _ _ _ Er) as Et. rewrite Etx in Et. specialize (Hsep _ eq_refl).
  apply after_bind, after_under. eapply after_mono.
  { apply after_and; [apply acquire_moves_nothing|apply acquire_appends_nothing]. }
  intros w1 r [Hs Hj]. pose proof (journal_safe_same _ _ Hs Hj Hsafe) as Hsafe1. destruct r as [[]|f]; cbn [map_err]; [|by split].
  rewrite <-Hj in Hp. destruct Hsafe1 as (o & Hd & Ho). pose proof (Hd _ Hp) as Eo. rewrite Et.
  destruct (obj_get (cp_integrations p) tx) as [| |i] eqn:Ei.
  - apply obj_get_Absent in Ei. rewrite Ei in Eo. subst o. by eapply create_run_result.
  - split; [by exists o|done].
  - apply obj_get_Own in Ei. rewrite Ei in Eo. subst o. destruct (Ho _ eq_refl) as [Hw Ht].
    apply after_bind, after_of. destruct (ensure _ _); [by apply drive_run_result|]. split; [by exists (Some i)|done].
Qed.
End run_integration.

(** * A reconciliation that was started and not finished *)

Section stall.
Context {D : Digest} {C : Collation} {Z0 : ZodUrl}.
Context {W : Type} `{CanonicalJournal W} `{OrchestrationHost W} (journal_facts : W -> list MultiRepositoryCanonicalFactV1).
Context `{!JournalContract journal_facts (fun _ => False)}.
Context (deps : OrchestrationDependencies) (plan : MaterializedMultiRepositoryRunPlanV1) (task : MaterializedMultiRepositoryTaskV1).
Implicit Types (w : W) (p : MultiRepositoryCanonicalProjectionV1).

(** An event that neither the journal nor the scheduler has seen. *)
Definition unseen p (event : MultiRepoSchedulerEventV1) : Prop :=
  cp_seenFactIds p !! me_eventId event = None /\ mp_seenEventIds (cp_scheduler p) !! me_eventId event = None.

Lemma quiet_journal w w' : only_others journal_facts (fun _ => False) w w' -> journal_facts w' = journal_facts w.
Proof using. intros ([|f l] & Hl & ->); [apply app_nil_r|]. by inversion Hl. Qed.

(** An event that the scheduler refuses is not appended with success. *)
Lemma refused_append p event w :
  projectMultiRepositoryCanonicalFacts (journal_facts w) = Ok p -> unseen p event ->
  (exists code, scheduled_task (cp_scheduler p) event = Err code) ->
  after (appendScheduler plan event) w (fun _ r => exists t, r = Err t).
Proof using Type*.
  intros Hp [Hf He] [code Hc]. unfold appendScheduler, append_fact. apply after_bind. eapply after_mono; [apply (append_loop_spec journal_facts (fun _ => False))|].
  intros w' [c|t] [_ Hr]; [|by exists t]. exfalso. destruct Hr as [[Ef Hp'] [[Ho Hs]|(w1 & c1 & Ho & [Ef1 Hp1] & _ & E)]].
  - apply quiet_journal in Ho. rewrite Ef, Ho, Hp in Hp'. assert (p = c.2) as -> by congruence. cbn in Hs. congruence.
  - apply quiet_journal in Ho. rewrite Ef, E, Ho in Hp'. apply project_prefix in Hp' as (p1 & Hp1' & Hfold). assert (p1 = p) as -> by congruence.
    cbn [fold_result] in Hfold. apply bind_Ok in Hfold as (p2 & Hfact & _). apply project_fact_Ok in Hfact as (f & Hparse & _ & Hf').
    assert (f = schedulerFact event) as ->. { unfold parseMultiRepositoryCanonicalFact in Hparse. cbn -[MultiRepositoryCanonicalFactV1Schema] in Hparse. by case_match; simplify_eq. }
    destruct Hf' as [[_ Hs]|(_ & next & Hn & _)]; [cbn in Hs; congruence|]. cbn in Hn. run. subst.
    unfold applyMultiRepoSchedulerEvent, parseMultiRepoSchedulerEvent in Hrun0. destruct (MultiRepoSchedulerEventV1Schema event); [|done].
    destruct (obj_get (mp_seenEventIds (cp_scheduler p)) (me_eventId event)) as [| |d] eqn:Eo; [|done|apply obj_get_Own in Eo; congruence].
    apply bind_Ok in Hrun0 as (_ & _ & Hrun0). apply bind_Ok in Hrun0 as (t & Ht & _). congruence.
Qed.

(** A task in this state is never admitted again: the first event of every
    admission is refused, and no command finishes the old reconciliation. *)
Lemma stalled_task_not_admitted p t w :
  projectMultiRepositoryCanonicalFacts (journal_facts w) = Ok p -> (forall w, journal_facts (clock w).1 = journal_facts w) ->
  mp_tasks (cp_scheduler p) !! task_id task = Some t -> is_Some (st_processing t) -> st_lease t = None -> st_state t <> sched_completed ->
  (forall occurredAt payload, unseen p (scheduler_event (cp_scheduler p) task "reconcile-start" occurredAt payload)) ->
  after (admitTask deps plan task p) w (fun _ r => exists e, r = Err e).
Proof using Type*.
  intros Hp Hclock Ht Hproc Hlease Hstate Hseen. unfold admitTask. apply after_bind, after_of. unfold scheduled_in. rewrite (proj2 (obj_get_Own _ _ _) Ht).
  rewrite bool_decide_eq_false_2, Hlease by done. cbn [has]. apply after_bind. unfold start_reconcile. apply after_bind.
  unfold timestamp_now, now. apply after_bind. unfold after at 1. pose proof (Hclock w) as Hc. destruct (clock w) as [w1 now]. cbn [fst snd] in Hc |- *.
  apply after_of. destruct (boundedTimestamp now) as [startedAt|e]; [|by exists e]. rewrite <-Hc in Hp.
  eapply after_mono; [eapply (refused_append p); [done|apply Hseen|]|by intros w' r [e ->]; exists e].
  unfold scheduled_task, requireTask, ensure. cbn. rewrite (proj2 (obj_get_Own _ _ _) Ht).
  destruct (st_taskGeneration t =? task_generation task); [|by eexists]. cbn. unfold scheduler_step, requireVersion, ensure. cbn.
  rewrite Z.eqb_refl. destruct Hproc as [pr ->]. cbn. rewrite andb_false_r. by eexists.
Qed.
End stall.
