(* ===== verification/Sample.v ===== *)
(** Sample: a concrete host (digest, URL parser and collation) and a concrete history, which
    the witnesses of the properties are evaluated on. *)
From Stdlib Require Import Ascii.
From S2P Require Import Prelude Text Json Ids ScmTypes ScmSchema ControlEvents EventSchema ControlState ControlReducer ScmReducer ControlApply.

(** * A host *)

(** A polynomial checksum modulo a Mersenne prime, written as 64 lower-case hexadecimal digits. *)
Fixpoint hex_digits (n : nat) (v : Z) (acc : string) : string :=
  match n with
  | O => acc
  | S n' => hex_digits n' (v / 16) (String (Ascii.ascii_of_N (Z.to_N (hex_digit (v mod 16)))) acc)
  end.

#[export] Instance sampleDigest : Digest :=
  fun t => hex_digits 64 (fold_left (fun h c => (h * 8191 + c + 1) mod 2305843009213693951) t 7) "".

(** URLs of the form [https://host/path]. *)
#[export] Instance sampleUrl : UrlApi := fun value =>
  if startsWith (text_of_string "https://") value then
    match split 47 (drop 8 value) with
    | host :: ((_ :: _) as path) => Some {|
        url_protocol := text_of_string "https:"; url_username := []; url_password := [];
        url_host := host; url_hostname := host; url_port := []; url_pathname := 47 :: unsplit 47 path;
        url_search := []; url_hash := [] |}
    | _ => None
    end
  else None.

(** Code-unit order is a consistent comparator. *)
#[export] Instance utf16_comparator : Comparator utf16_compare.
Proof.
  split; unfold utf16_compare.
  - intros x y. apply cmp_total.
  - intros x y z. apply cmp_trans.
Qed.

#[export] Instance sampleCollation : Collation := { localeCompare := utf16_compare }.

(** * Building histories *)

Definition sampleTime (seq : Z) : string := toISOString (1700000000000 + 1000 * seq).

Definition sampleControlEvent (s : ControlProjection) (actor : ControlActorKind) (scope : option (string * Z))
    (payload : ControlEventPayload) (version : Z) : ControlEvent := {|
  ev_eventId := "event-" +:+ num_to_string (c_headSeq s + 1);
  ev_runId := c_runId s; ev_runEpoch := c_runEpoch s;
  ev_taskId := option_map fst scope; ev_taskGeneration := option_map snd scope;
  ev_expectedVersion := version;
  ev_occurredAt := sampleTime (c_headSeq s + 1);
  ev_actorKind := actor; ev_actorId := "sample";
  ev_sourceKind := None; ev_sourceId := None; ev_sourceGeneration := None; ev_sourceEventId := None;
  ev_payload := payload |}.

(** The event as the store would persist it after [s]. *)
Definition sampleEvent (s : ControlProjection) (actor : ControlActorKind) (scope : option (string * Z))
    (payload : ControlEventPayload) : PersistedControlEvent :=
  let version :=
    match aggregateForEvent (sampleControlEvent s actor scope payload 0) with
    | Ok a => aggregate_version s (agg_key a)
    | Err _ => 0
    end in
  let e := sampleControlEvent s actor scope payload version in
  let recordedAt := sampleTime (c_headSeq s + 1) in
  {| pe_event := e; pe_seq := c_headSeq s + 1; pe_recordedAt := recordedAt;
     pe_intentDigest := match controlEventDigest e with Ok d => d | Err _ => "" end;
     pe_digest := match persistedControlEventDigest e recordedAt with Ok d => d | Err _ => "" end |}.

Definition sampleStep : Type := ControlActorKind * option (string * Z) * ControlEventPayload.

Fixpoint sampleEvents (s : ControlProjection) (steps : list sampleStep) : list PersistedControlEvent :=
  match steps with
  | [] => []
  | (actor, scope, payload) :: steps' =>
      let pe := sampleEvent s actor scope payload in
      pe :: match applyControlEvent s pe with Ok s' => sampleEvents s' steps' | Err _ => [] end
  end.

(** The projection of a history, for histories that are accepted. *)
Definition projection (events : list PersistedControlEvent) : ControlProjection :=
  match reduceControlEvents "run" "epoch" events None with
  | Ok s => s
  | Err _ => emptyControlProjection "run" "epoch"
  end.

Definition history (steps : list sampleStep) : list PersistedControlEvent :=
  sampleEvents (emptyControlProjection "run" "epoch") steps.

(** * A run *)

Module Run.

Definition t1 : option (string * Z) := Some ("t1"%string, 1).
Definition cp : ControlActorKind := actor_control_plane.
Definition op : ControlActorKind := actor_operator.
Definition txt (s : string) : text := text_of_string s.
Definition sha : string := hex_digits 64 12345 "".

Definition a_checkpoint (n : Z) (status : LoopStatus) (phase : LoopPhase) : LoopCheckpointFact := {|
  cp_project := "project"; cp_phase := phase; cp_status := status;
  cp_iteration := n; cp_dispatched := n; cp_accepted := n; cp_rejected := 0; cp_escalations := 0;
  cp_repeatFailures := 0; cp_unknownCostCalls := 0; cp_runBranch := None; cp_lastGreenCommit := None;
  cp_lastFailureSignature := None; cp_lastFailureSummary := None; cp_lastStopReason := None;
  cp_verifyFingerprint := None; cp_startedAt := sampleTime 1; cp_updatedAt := sampleTime (1 + n) |}.

Definition start_steps : list sampleStep := [
  (cp, None, run_started {| rsp_startedBy := "lead"; rsp_goal := None; rsp_configDigest := None |});
  (cp, None, run_checkpointed (a_checkpoint 1 loop_running phase_dispatch));
  (cp, t1, task_created {| tc_title := txt "task"; tc_assignee := "worker"; tc_createdBy := "lead"; tc_description := txt "d";
     tc_acceptanceCriteria := []; tc_dependsOn := []; tc_priority := 1; tc_createdAt := sampleTime 3; tc_files := None |});
  (cp, t1, runtime_observed {| rp_sessionId := "s1"; rp_sessionGeneration := 1; rp_observation := obs_waiting_input;
     rp_launchId := None; rp_reason := None |});
  (cp, t1, task_status_changed {| tsp_role := "worker"; tsp_status := ts_claimed; tsp_summary := None |})].

Definition c1 : string := "00000000-0000-7000-8000-000000000001".
Definition c2 : string := "00000000-0000-7000-8000-000000000002".

Definition admit_step (id : string) (supersedes : option string) : sampleStep :=
  (op, t1, steering_command_admitted {| sap_commandId := id; sap_sessionId := "s1"; sap_sessionGeneration := 1;
     sap_notBeforeAttemptGeneration := 1; sap_kind := kind_steer_next_boundary; sap_sourceKind := source_operator;
     sap_parentPrincipal := "lead"; sap_evidenceRefs := []; sap_body := txt "look at the tests";
     sap_bodySha256 := sha256Text (txt "look at the tests"); sap_createdAt := sampleTime 1; sap_expiresAt := None;
     sap_supersedesCommandId := supersedes |}).

Definition prepare_step (cutoff : Z) (ids : list string) : sampleStep :=
  (cp, t1, attempt_prompt_prepared {| app_attemptId := "a1"; app_attemptGeneration := 1; app_sessionId := "s1";
     app_sessionGeneration := 1; app_artifactLocator := "steering/prompts/a1.prompt"; app_promptSha256 := sha;
     app_promptBytes := 10; app_rendererVersion := 1; app_captureCutoffSeq := cutoff; app_steeringCommandIds := ids |}).

Definition include_step (id : string) : sampleStep :=
  (cp, t1, steering_command_included {| sip_commandId := id; sip_sessionId := "s1"; sip_sessionGeneration := 1;
     sip_attemptId := "a1"; sip_attemptGeneration := 1; sip_promptSha256 := sha |}).

Definition attempt_steps : list sampleStep := [
  admit_step c1 None;
  prepare_step 6 [c1];
  include_step c1;
  (cp, t1, attempt_launch_planned {| alp_attemptId := "a1"; alp_attemptGeneration := 1; alp_sessionId := "s1";
     alp_sessionGeneration := 1; alp_launchId := "l1" |});
  (cp, t1, attempt_started {| asp_attemptId := "a1"; asp_attemptGeneration := 1; asp_sessionId := "s1";
     asp_sessionGeneration := 1; asp_launchId := "l1"; asp_pid := 7; asp_processStartToken := "7" |});
  (cp, t1, attempt_exited {| aep_attemptId := "a1"; aep_attemptGeneration := 1; aep_sessionId := "s1";
     aep_sessionGeneration := 1; aep_outcome := outcome_succeeded; aep_exitCode := Some 0; aep_summary := None |})].

(** ** Publishing the branch of the task, polling it and reacting to a failure *)

Definition repository (owner : string) : ScmRepositoryIdV1 :=
  {| repo_provider := provider_github; repo_canonicalHost := "github.com"; repo_owner := owner; repo_name := "repo" |}.

Definition oid : string := hex_digits 40 99 "".

Definition intent : ScmPublicationIntentV1 := {|
  intent_publicationId := "p1"; intent_publicationGeneration := 1; intent_attempt := 1;
  intent_runId := "run"; intent_runEpoch := "epoch"; intent_repository := repository "head";
  intent_integrationRef := "refs/heads/integration"; intent_integrationOid := oid; intent_localExpectedOid := oid;
  intent_remoteName := "origin"; intent_remoteRef := "refs/heads/feature"; intent_expectedRemote := remote_absent;
  intent_baseRepository := repository "base"; intent_baseRef := "refs/heads/main";
  intent_titleSha256 := sha; intent_bodySha256 := sha; intent_draft := true; intent_createdAt := sampleTime 1 |}.

Definition pull : ScmPullRequestIdentityV1 := {|
  pull_providerId := "PR_1"; pull_number := 1; pull_url := "https://github.com/base/repo/pull/1";
  pull_repository := repository "base"; pull_headRepository := repository "head"; pull_headRef := "refs/heads/feature";
  pull_headSha := oid; pull_baseRepository := repository "base"; pull_baseRef := "refs/heads/main"; pull_baseSha := oid |}.

Definition publish_step (from to : ScmPublicationState) (remote : option (option string))
    (fact : option ScmPullRequestFactV1) : sampleStep :=
  (cp, t1, scm_publication_state_changed {| spc_publicationId := "p1"; spc_publicationGeneration := 1;
     spc_fromState := from; spc_toState := to; spc_observedRemoteOid := remote; spc_pullRequest := fact;
     spc_reasonCode := None |}).

Definition fingerprint : string := hex_digits 64 77 "".

Definition ci_facts : ScmCiFactV1 := {|
  ci_state := ci_failing; ci_checks := []; ci_requiredCheckCount := 0;
  ci_failureFingerprint := Some fingerprint; ci_conflicts := [] |}.

Definition ci_hash : string :=
  match scmSemanticDigest (ScmCiFactV1_json ci_facts) with Ok d => d | Err _ => "" end.

Definition ci_bucket : ScmFactBucketV1 ScmCiFactV1 := {|
  bucket_meta := {| meta_completeness := completeness_complete; meta_observedHeadSha := oid;
    meta_observedAt := sampleTime 1; meta_freshUntil := sampleTime 9; meta_semanticHash := ci_hash;
    meta_guard := None; meta_cursor := None |};
  bucket_facts := ci_facts |}.

Definition preserved (kind : ScmBucketKind) : ScmPollBucketOutcomeFact := {|
  outcome_kind := kind; outcome_decision := decide_preserve; outcome_semanticHash := None;
  outcome_reasonCode := Some "unchanged"%string; outcome_failure := None |}.

Definition publication_steps : list sampleStep := [
  (cp, t1, scm_publication_recorded {| spr_publication := intent |});
  publish_step pub_unpublished pub_push_intent None None;
  publish_step pub_push_intent pub_branch_published (Some (Some oid)) None;
  publish_step pub_branch_published pub_pr_intent None None;
  publish_step pub_pr_intent pub_published None
    (Some {| pull_identity := pull; pull_lifecycle := lifecycle_open; pull_draft := true; pull_resourceVersion := None |})].

Definition poll_steps : list sampleStep := [
  (cp, t1, scm_poll_started {| sps_pollId := "poll"; sps_pollAttempt := 1; sps_publicationId := "p1";
     sps_publicationGeneration := 1; sps_sessionId := "s1"; sps_sessionGeneration := 1; sps_expectedHeadSha := oid;
     sps_pullRequest := pull; sps_guards := {| guards_pullRequest := None; guards_checks := None; guards_reviews := None;
       guards_mergeability := None |}; sps_forceFullRefresh := true; sps_limits := SCM_PROVIDER_LIMITS |});
  (cp, t1, scm_poll_completed {| spcm_pollId := "poll"; spcm_pollAttempt := 1; spcm_publicationId := "p1";
     spcm_publicationGeneration := 1; spcm_expectedHeadSha := oid; spcm_requestCount := 3; spcm_decodedBytes := 100;
     spcm_bucketOutcomes := [preserved bucket_pull_request;
       {| outcome_kind := bucket_ci; outcome_decision := decide_accept_new;
          outcome_semanticHash := Some ci_hash; outcome_reasonCode := None; outcome_failure := None |};
       preserved bucket_review; preserved bucket_mergeability] |});
  (cp, t1, scm_bucket_accepted {| sba_pollId := "poll"; sba_publicationId := "p1"; sba_publicationGeneration := 1;
     sba_decision := decide_accept_new; sba_previousSemanticHash := None; sba_bucket := scmCiBucket ci_bucket |})].

(** The key the program derives for the reaction to the failing checks. *)
Definition reaction_key : string :=
  match canonicalJson (jobj
    [("schemaVersion", jnum 1); ("repositoryKey", jstr (scmRepositoryKey (repository "base"))); ("pullRequestNumber", jnum 1);
     ("headSha", jstr oid); ("factKind", jstr "ci"); ("evidenceIds", jlist jstr [fingerprint])]) with
  | Ok t => sha256Text t
  | Err _ => ""
  end.

Definition reaction_step (from to : ScmReactionState) (version : Z) (seq : option Z) : sampleStep :=
  (cp, t1, scm_reaction_transitioned {| srt_reactionKey := reaction_key; srt_reactionVersion := version;
     srt_fromState := from; srt_toState := to; srt_commandId := c2; srt_steeringSeq := seq; srt_reasonCode := None;
     srt_observationSemanticHash := None |}).

Definition reaction_steps : list sampleStep := [
  (cp, t1, scm_reaction_created {| src_reactionKey := reaction_key; src_publicationId := "p1";
     src_publicationGeneration := 1; src_headSha := oid; src_factKind := fact_ci; src_evidenceRefs := [fingerprint];
     src_commandId := c2; src_sessionId := "s1"; src_sessionGeneration := 1; src_notBeforeAttemptGeneration := 1;
     src_supersedesCommandId := None; src_previewSha256 := sha256Text (txt "preview"); src_preview := txt "preview" |});
  admit_step c2 None].

Definition full_steps : list sampleStep :=
  start_steps ++ attempt_steps ++ publication_steps ++ poll_steps ++ reaction_steps ++
  [reaction_step react_pending react_command_admitted 0 (Some 21)].

End Run.

(** The history, evaluated once, and its projections. *)
Definition sampleHistory : list PersistedControlEvent := Eval vm_compute in history Run.full_steps.
Definition sampleProjection (n : nat) : ControlProjection := projection (take n sampleHistory).

(** Every event is the persisted form of a valid event, and the history, with
    its prefixes, is accepted. *)
Example sample_history_valid :
  forallb (fun pe => is_ok (parsePersistedControlEvent pe)) sampleHistory = true.
Proof. vm_compute. reflexivity. Qed.

Example sample_history_accepted :
  length sampleHistory = 22%nat /\ is_ok (reduceControlEvents "run" "epoch" sampleHistory None) = true.
Proof. vm_compute. auto. Qed.

(** Discharge a witness's hypotheses by evaluation. *)
Ltac by_eval := vm_compute; reflexivity.

(** The [n]th event of the history. *)
Definition sampleAt (n : nat) : PersistedControlEvent :=
  match sampleHistory !! n with Some pe => pe | None => sampleEvent (sampleProjection n) Run.cp None (run_completed {| rcp_summary := None |}) end.
