(* ===== verification/IntegrationSample.v ===== *)
(** IntegrationSample: a small git whose refs are a map, contained interfaces
    around it, and a transaction over two repositories, on which the witnesses of
    the integration theorems are evaluated. *)
From Stdlib Require Import Ascii.
From S2P Require Import Prelude Text Json Ids ScmTypes Domain Effects Lists GitTransaction Verification Integration IntegrationDriver IntegrationSaga Sample.

(** * A git *)

Definition SampleWorld : Type := gmap (text * text) string.

Definition forty (c : Ascii.ascii) : string := String.string_of_list_ascii (repeat c 40).
Definition expectedCommit : string := forty "a"%char.
Definition childCommit : string := forty "b"%char.
Definition candidateCommit : string := forty "c"%char.
Definition sampleTree : string := forty "d"%char.

Definition git_says (out : text) : MultiRepoGitCommandResult := {| gr_ok := true; gr_out := out; gr_err := [] |}.
Definition git_fails : MultiRepoGitCommandResult := {| gr_ok := false; gr_out := []; gr_err := [] |}.

(** The commands that only look. *)
Definition sample_look (w : SampleWorld) (cwd : text) (args : list text) : MultiRepoGitCommandResult :=
  match args with
  | command :: rest =>
      if bool_decide (command = text_of_string "show-ref") then
        match rest with
        | [_; _; name] => match w !! (cwd, name) with Some oid => git_says (text_of_string oid) | None => git_fails end
        | _ => git_fails
        end
      else if bool_decide (command = text_of_string "rev-list") then
        match rest with
        | [_; _; _; oid] =>
            if bool_decide (oid = text_of_string candidateCommit)
            then git_says (text_of_string (candidateCommit +:+ " " +:+ expectedCommit +:+ " " +:+ childCommit)) else git_fails
        | _ => git_fails
        end
      else if bool_decide (command = text_of_string "merge-tree") then git_says (text_of_string sampleTree)
      else if bool_decide (command = text_of_string "commit-tree") then git_says (text_of_string candidateCommit)
      else match rest with
        | [_; _; object] => git_says (if endsWith (text_of_string "^{tree}") object then text_of_string sampleTree else take (length object - 9) object)
        | _ => git_says (cwd ++ text_of_string "/.git")
        end
  | [] => git_fails
  end.

Definition sample_update (w : SampleWorld) (cwd : text) (args : list text) : SampleWorld * MultiRepoGitCommandResult :=
  match args with
  | [_; name; new; old] =>
      if bool_decide (w !! (cwd, name) = Some (string_of_text old)) then (<[ (cwd, name) := string_of_text new ]> w, git_says []) else (w, git_fails)
  | _ => (w, git_fails)
  end.

Definition sample_run (w : SampleWorld) (cwd : text) (args : list text) : SampleWorld * MultiRepoGitCommandResult :=
  if bool_decide (head args = Some (text_of_string "update-ref")) then sample_update w cwd args else (w, sample_look w cwd args).

(** Every path is a directory of its own. *)
Definition sample_stat (path : text) : Stat := {| stat_isDirectory := true; stat_dev := 1; stat_ino := textlen path |}.

#[export] Instance sampleGit : GitHost SampleWorld := {|
  git_run := sample_run; realpathSync _ path := Some path; lstatSync _ path := Some (sample_stat path) |}.

Definition sample_refs : refs_of SampleWorld := fun w root name => w !! (root, name).

#[export] Instance sampleGitRefs : GitRefs (fun a b => a <> b) sample_refs.
Proof.
  split.
  - intros w cwd args w' r root name Hr Hne. cbn in Hr. unfold sample_run in Hr. rewrite bool_decide_eq_false_2 in Hr by done. by injection Hr as <- _.
  - intros w cwd name w' r Hr. cbn in Hr. unfold sample_run in Hr. rewrite bool_decide_eq_false_2 in Hr by done. injection Hr as <- <-. unfold sample_refs.
    cbn [sample_look]. destruct (w !! (cwd, name)) as [oid|]; cbn; [by exists oid|done].
  - intros w cwd name new old w' r Hr. cbn in Hr. unfold sample_run in Hr. rewrite bool_decide_eq_true_2 in Hr by done. cbn in Hr.
    rewrite !string_of_text_of_string in Hr. unfold sample_refs. case_bool_decide as Hw; injection Hr as <- <-; [|split; [done|by left]].
    split; [|right; split; [done|apply lookup_insert_eq]]. intros root other Hother. apply lookup_insert_ne.
    destruct Hother as [Hother|[-> Hother]]; congruence.
  - intros w cwd oid first second w' r Hr Hok Hout. cbn in Hr. unfold sample_run in Hr. rewrite bool_decide_eq_false_2 in Hr by done.
    injection Hr as _ <-. cbn [sample_look] in Hok, Hout.
    case_bool_decide as Ho; [|done]. change (text_of_string oid = text_of_string candidateCommit) in Ho. apply text_of_string_inj in Ho as ->.
    change (text_of_string (candidateCommit +:+ " " +:+ expectedCommit +:+ " " +:+ childCommit) = text_of_string (candidateCommit +:+ " " +:+ first +:+ " " +:+ second)) in Hout.
    apply text_of_string_inj in Hout. intros <-. by vm_compute in Hout.
Qed.

(** * Contained interfaces *)

Definition zeros : string := String.string_of_list_ascii (repeat "0"%char 64).

#[export] Instance sampleVerifier {W} : VerificationHost W := {|
  observe entry w := (w, Ok {| vo_candidateOid := text_of_string (ve_candidateOid entry); vo_treeOid := text_of_string (ve_treeOid entry);
    vo_clean := true; vo_identityExact := true |});
  executor_run _ w := (w, Ok {| vr_ok := true; vr_code := 0; vr_outputDigest := zeros; vr_outputBytes := 0; vr_fingerprint := zeros;
    vr_transportTrusted := true; vr_scopeTrusted := true |}) |}.

#[export] Instance sampleIntegration {W} : IntegrationHost W := {|
  assertHeld _ w := (w, Ok tt); verifiedAt w := (w, "2026-01-01T00:00:00.000Z"%string) |}.

#[export] Instance sampleContained : Contained sample_refs.
Proof. by split. Qed.

(** * A transaction *)

Definition sample_repository (id : string) : RepositoryIdentityV1 :=
  let root := text_of_string ("/repos/" +:+ id) in
  {| ri_repositoryId := id; ri_canonicalRoot := root; ri_rootDevice := 1; ri_rootInode := textlen root;
     ri_gitCommonDirDevice := 1; ri_gitCommonDirInode := textlen (root ++ text_of_string "/.git");
     ri_defaultBranch := text_of_string "main"; ri_protectedBranches := [] |}.

Definition integrationRef : text := text_of_string "refs/heads/relay".

Definition sample_entry (id : string) : MultiRepoIntegrationEntryPlanV1 := {|
  ip_repository := sample_repository id; ip_targetRef := integrationRef; ip_expectedOid := expectedCommit; ip_childOid := childCommit;
  ip_canonicalWorkspacePath := text_of_string ("/work/" +:+ id); ip_message := text_of_string "merge" |}.

Definition samplePlan : MultiRepoIntegrationPlanV1 := {|
  il_transactionId := "txn-1"; il_repositorySetId := zeros; il_entries := [sample_entry "lib"; sample_entry "service"];
  il_verifyCommands := [text_of_string "make test"]; il_verifyEnvironment := [("CI"%string, text_of_string "1")] |}.

Definition sampleStart : SampleWorld :=
  {[ (text_of_string "/repos/lib", integrationRef) := expectedCommit; (text_of_string "/repos/service", integrationRef) := expectedCommit ]}.

(** A digest that tells versions apart: the text between the NULs. *)
Fixpoint until_nul (t : text) : text := match t with c :: t' => if c =? 0 then [] else c :: until_nul t' | [] => [] end.
Fixpoint after_nul (t : text) : text := match t with c :: t' => if c =? 0 then t' else after_nul t' | [] => [] end.
Definition versionDigest : Digest := fun t => string_of_text (until_nul (after_nul t)).

(** The driver and the reducer by themselves, as if every event were appended:
    the events, and what they make of the transaction. *)
Section play.
Context {D : Digest} {C : Collation} {W : Type} `{GitHost W} `{VerificationHost W} `{IntegrationHost W}.

Fixpoint play (turns : nat) (p : MultiRepoIntegrationProjectionV1) (w : W) : W * list MultiRepoIntegrationEventV1 * MultiRepoIntegrationProjectionV1 :=
  match turns with
  | O => (w, [], p)
  | S turns' =>
      match reconcileMultiRepoIntegrationOnce p w with
      | (w1, Ok (Some event)) =>
          match applyMultiRepoIntegrationEvent (Some p) event with
          | Ok p1 => let '(w2, events, p2) := play turns' p1 w1 in (w2, event :: events, p2)
          | Err _ => (w1, [], p)
          end
      | (w1, _) => (w1, [], p)
      end
  end.

Lemma play_steps (refs : refs_of W) turns p w w' events p' : play turns p w = (w', events, p') ->
  rtc (saga_step refs) (w, p) (w', p') /\
  fold_result (fun current event => p ← applyMultiRepoIntegrationEvent current event; Ok (Some p)) (Some p) events = Ok (Some p').
Proof.
  revert p w events. induction turns as [|turns IH]; intros p w events; cbn [play]; [by intros [= <- <- <-]|].
  destruct (reconcileMultiRepoIntegrationOnce p w) as [w1 [[event|]|t]] eqn:Er;
    [|intros E; simplify_eq; split; [by eapply rtc_once, saga_lost|done]..].
  destruct (applyMultiRepoIntegrationEvent (Some p) event) as [p1|c] eqn:Ea; [|intros E; simplify_eq; split; [by eapply rtc_once, saga_lost|done]].
  destruct (play turns p1 w1) as [[w2 l] p2] eqn:Ep. intros [= <- <- <-]. destruct (IH _ _ _ Ep) as [Hs Hf].
  split; [eapply rtc_l; [by eapply saga_recorded|done]|]. cbn [fold_result]. by rewrite Ea.
Qed.
End play.

(** What a result holds, and a default for an error. *)
Definition ok_or {E A} (default : A) (r : result E A) : A := match r with Ok a => a | Err _ => default end.

Lemma ok_or_Ok {E A} (d : A) (r : result E A) : is_ok r = true -> r = Ok (ok_or d r).
Proof. by destruct r. Qed.

Definition created_event : MultiRepoIntegrationEventV1 :=
  ok_or {| iv_eventId := ""; iv_transactionId := ""; iv_expectedVersion := 0; iv_body := integration_prepared |}
    (createMultiRepoIntegrationEvent (D := versionDigest) samplePlan).
Definition created_state : MultiRepoIntegrationProjectionV1 := created_projection (D := versionDigest) created_event samplePlan.

Lemma sample_created :
  createMultiRepoIntegrationEvent (D := versionDigest) samplePlan = Ok created_event /\
  applyMultiRepoIntegrationEvent (D := versionDigest) None created_event = Ok created_state.
Proof. split; by_eval. Qed.

Lemma surjective_triple {A B C'} (x : A * B * C') : x = (x.1.1, x.1.2, x.2).
Proof. by destruct x as [[? ?] ?]. Qed.

(** The whole transaction. *)
Definition played : SampleWorld * list MultiRepoIntegrationEventV1 * MultiRepoIntegrationProjectionV1 := play (D := versionDigest) 20 created_state sampleStart.

Example integrates :
  let '(w, events, p) := played in
  (length events, mi_state p, mi_version p, sample_refs w (text_of_string "/repos/lib") integrationRef, sample_refs w (text_of_string "/repos/service") integrationRef)
  = (9%nat, mi_applied, 10, Some candidateCommit, Some candidateCommit).
Proof. by_eval. Qed.

(** * A read that fails *)

(** The same git, whose [show-ref] fails once, after [fw_fuse] calls of it. *)
Record FlakyWorld := { fw_refs : SampleWorld; fw_fuse : nat }.

#[export] Instance flakyGit : GitHost FlakyWorld := {|
  git_run fw cwd args :=
    let (w, r) := sample_run fw.(fw_refs) cwd args in
    if bool_decide (head args = Some (text_of_string "show-ref"))
    then ({| fw_refs := w; fw_fuse := pred fw.(fw_fuse) |}, if bool_decide (fw.(fw_fuse) = 1%nat) then git_fails else r)
    else ({| fw_refs := w; fw_fuse := fw.(fw_fuse) |}, r);
  realpathSync _ path := Some path; lstatSync _ path := Some (sample_stat path) |}.

(** When that is the read after the ref of the second repository was moved, the
    move is taken for a refusal: the transaction ends compensated, the first
    repository is restored, and the second stays at its candidate. *)
Example failing_read_is_not_compensated :
  let '(w, _, p) := play (D := versionDigest) 20 created_state {| fw_refs := sampleStart; fw_fuse := 8 |} in
  (mi_state p, sample_refs (fw_refs w) (text_of_string "/repos/lib") integrationRef, sample_refs (fw_refs w) (text_of_string "/repos/service") integrationRef)
  = (mi_compensated, Some expectedCommit, Some candidateCommit).
Proof. by_eval. Qed.
