(* ===== verification/OrchestrationSample.v ===== *)
(** OrchestrationSample: a world with the small git and a journal, and a run of
    one task in one repository up to its integration, on which the witnesses of
    the orchestration theorems are evaluated. *)
From S2P Require Import Prelude Text Json Ids ScmTypes ScmSchema SchedulerEvents Scheduler Domain Dag Effects Lists GitTransaction Verification Integration IntegrationDriver IntegrationSaga Publication RunPlan Canonical CanonicalProjection Journal Orchestration OrchestrationFacts Sample IntegrationSample.

(** * A world *)

Record RunWorld := { rw_git : SampleWorld; rw_facts : list MultiRepositoryCanonicalFactV1 }.

#[export] Instance runGit : GitHost RunWorld := {|
  git_run w cwd args := let (g, r) := sample_run w.(rw_git) cwd args in ({| rw_git := g; rw_facts := w.(rw_facts) |}, r);
  realpathSync _ path := Some path; lstatSync _ path := Some (sample_stat path) |}.

Definition run_refs : refs_of RunWorld := fun w => sample_refs w.(rw_git).

(** The journal swaps on its length; nobody else writes. *)
Definition run_snapshot (w : RunWorld) : MultiRepositoryCanonicalJournalSnapshotV1 :=
  let n := Z.of_nat (length w.(rw_facts)) in
  {| js_runId := "run"; js_runEpoch := text_of_string "epoch"; js_controlHeadSeq := n; js_headVersion := n; js_facts := w.(rw_facts) |}.

#[export] Instance runJournal : CanonicalJournal RunWorld := {|
  journal_read w := (w, Ok (run_snapshot w));
  journal_append head version fact w :=
    if Z.of_nat (length w.(rw_facts)) =? version
    then let w' := {| rw_git := w.(rw_git); rw_facts := w.(rw_facts) ++ [fact] |} in (w', Ok (run_snapshot w'))
    else (w, Err jf_conflict) |}.

#[export] Instance runHost : OrchestrationHost RunWorld := {| clock w := (w, Some 1800000000000); randomToken w := (w, Run.sha) |}.
#[export] Instance runAuthority : AuthorityManager RunWorld := fun _ _ w => (w, Ok tt).
#[export] Instance sampleLower : LowerCase := fun t => t.
#[export] Instance sampleZodUrl : ZodUrl := Some.

#[export] Instance runRefs : GitRefs (fun a b => a <> b) run_refs.
Proof.
  pose proof sampleGitRefs as [H1 H2 H3 H4]. cbn in H1, H2, H3, H4. unfold run_refs.
  split; intros w cwd; intros *; cbn; (destruct (sample_run (rw_git w) cwd _) as [g s] eqn:Eg); intros [= <- <-]; cbn.
  - intros Hne. by eapply H1.
  - by eapply H2.
  - by eapply H3.
  - by eapply H4.
Qed.

#[export] Instance runContained : Contained run_refs.
Proof. by split. Qed.

#[export] Instance runContract foreign : JournalContract rw_facts foreign.
Proof.
  split.
  - intros w w' r [= <- <-]. split; [|done]. exists []. by rewrite app_nil_r.
  - intros head version fact w w' r Ha. cbn in Ha. destruct (Z.eqb_spec (Z.of_nat (length (rw_facts w))) version) as [E|E]; injection Ha as <- <-; cbn.
    + done.
    + exists []. by rewrite app_nil_r.
Qed.

#[export] Instance runApart : JournalApart run_refs rw_facts.
Proof.
  split.
  - intros w. unfold after. cbn. reflexivity.
  - intros head version fact w. unfold after. cbn. by destruct (_ =? version).
  - intros ids fence w. unfold after. cbn. reflexivity.
  - intros ids fence w. unfold after. cbn. reflexivity.
  - split; [|by intros ? w..|done]. intros w cwd args. cbn. by destruct (sample_run (rw_git w) cwd args).
Qed.

(** It does not fail. *)
Lemma run_quiet {D : Digest} plan : rpl_runId plan = "run"%string -> rpl_runEpoch plan = text_of_string "epoch" -> journal_quiet rw_facts plan.
Proof.
  intros E1 E2. split.
  - intros w Hl. eexists. split; [reflexivity|]. split; [|done]. unfold snapshot_of_run. cbn. rewrite E1, E2, !bool_decide_eq_true_2 by done.
    unfold at_most, maximumJournalFacts in Hl. apply Z.leb_le in Hl. unfold isSafeInteger, MAX_SAFE_INTEGER. cbn -[Z.leb Z.eqb].
    repeat (apply andb_true_iff; split); try apply Z.leb_le; try apply Z.eqb_eq; lia.
  - intros w s fact [= <-] _. cbn. rewrite Z.eqb_refl. eexists _, _. split; [reflexivity|]. unfold append_proved. cbn.
    rewrite E1, E2, !bool_decide_eq_true_2 by done. cbn. rewrite length_app. cbn. unfold same_facts. rewrite bool_decide_eq_true_2 by done.
    repeat (apply andb_true_iff; split); try apply Z.eqb_eq; try done; lia.
Qed.

(** * A run *)

(** A digest that tells the texts of the sample apart. *)
Definition mixing : Digest := fun t =>
  let h := fold_left (fun h c => Z.land (h * 1000003 + c + 1) 2305843009213693951) t 7 in hex_digits 64 (h * (2 ^ 195 + 2 ^ 130 + 2 ^ 65 + 1)) "".

Definition run_request : MultiRepositoryRunRequestV1 := {|
  rr_runId := "run"; rr_runEpoch := text_of_string "epoch"; rr_workspaceRoot := text_of_string "/work"; rr_execute := true;
  rr_repositoryDefinitions := [{| rd_repositoryId := "lib"; rd_configuredPath := text_of_string "."; rd_defaultBranch := text_of_string "main"; rd_protectedBranches := [] |}];
  rr_tasks := [{| mt_taskId := "t1"; mt_taskGeneration := 1; mt_roleId := "role"; mt_providerId := "provider"; mt_repositoryIds := ["lib"%string]; mt_dependencies := [] |}];
  rr_executions := [{| ex_taskId := "t1"; ex_priority := 0;
    ex_entries := [{| tep_repositoryId := "lib"; tep_branch := text_of_string "work/t1"; tep_targetRef := integrationRef; tep_provision := None |}];
    ex_verifyCommands := [text_of_string "make test"]; ex_verifyEnvironment := [("CI"%string, text_of_string "1")];
    ex_commitMessage := text_of_string "merge"; ex_publication := None |}];
  rr_capabilities := {| cap_roles := [("role"%string, ["lib"%string])]; cap_providers := [("provider"%string, ["lib"%string])] |} |}.

Definition run_resolver : RepositoryIdentityResolver := fun d =>
  let i := sample_repository d.(rd_repositoryId) in
  Some {| rp_canonicalRoot := i.(ri_canonicalRoot); rp_rootDevice := i.(ri_rootDevice); rp_rootInode := i.(ri_rootInode);
          rp_gitCommonDirDevice := i.(ri_gitCommonDirDevice); rp_gitCommonDirInode := i.(ri_gitCommonDirInode) |}.

Definition run_deps : OrchestrationDependencies := {|
  od_concurrency := {| cl_global := 1; cl_perProvider := 1; cl_perRepository := 1; cl_perTask := 1 |}; od_ownerId := "owner"; od_ownerIncarnation := "i1"; od_hasPublicationAdapter := false |}.

Definition run_members : list MultiRepositoryWorkerMemberV1 := [
  {| wm_repositoryId := "lib"; wm_path := text_of_string "/work/lib"; wm_branch := text_of_string "work/t1"; wm_anchorOid := expectedCommit |}].

(** The intent and the head of the worktree's commit. *)
Definition run_intent (task : MaterializedMultiRepositoryTaskV1) (lease : SchedulerLeaseV1) (member : MultiRepositoryWorkerMemberV1) : MultiRepositoryCanonicalCommitIntentFactV1 :=
  commit_intent (D := mixing) task lease member (text_of_string "refs/heads/work/t1") sampleTree (text_of_string "merge").

Definition record_head (plan : MaterializedMultiRepositoryRunPlanV1) (task : MaterializedMultiRepositoryTaskV1) (lease : SchedulerLeaseV1) (member : MultiRepositoryWorkerMemberV1)
    : effect RunWorld OrchestrationThrow MultiRepositoryCanonicalProjectionV1 :=
  _ ← append_fact (D := mixing) plan (multirepo_worktree_commit_intended (run_intent task lease member));
  append_fact (D := mixing) plan (multirepo_worktree_head_recorded (head_fact (D := mixing) task lease member (run_intent task lease member) childCommit sampleTree)).

(** The commands before the integration: the plan, its task and the task's lease, and the head. *)
Definition to_integration (plan : MaterializedMultiRepositoryRunPlanV1)
    : effect RunWorld OrchestrationThrow (MaterializedMultiRepositoryTaskV1 * SchedulerLeaseV1 * MultiRepositoryCanonicalProjectionV1) :=
  p ← registerPlanAndTasks (D := mixing) plan;
  task ← eff_of (taskById plan "t1");
  p ← admitTask (D := mixing) run_deps plan task p;
  match (mp_tasks (cp_scheduler p) !! "t1"%string) ≫= st_lease, run_members with
  | Some lease, member :: _ => p ← record_head plan task lease member; mret (task, lease, p)
  | _, _ => eff_of (Err ot_type_error)
  end.

Definition run_start : RunWorld := {| rw_git := sampleStart; rw_facts := [] |}.

(** Where the run stands then. *)
Record RunState := { rs_plan : MaterializedMultiRepositoryRunPlanV1; rs_task : MaterializedMultiRepositoryTaskV1; rs_lease : SchedulerLeaseV1;
  rs_projection : MultiRepositoryCanonicalProjectionV1; rs_world : RunWorld }.

Definition run_state : option RunState :=
  match materializeMultiRepositoryRunPlan (D := mixing) run_request run_resolver with
  | Ok plan =>
      match to_integration plan run_start with
      | (w, Ok (task, lease, p)) => Some {| rs_plan := plan; rs_task := task; rs_lease := lease; rs_projection := p; rs_world := w |}
      | _ => None
      end
  | Err _ => None
  end.

(** Before the integration. *)
Definition ready_state : option RunState := Eval vm_compute in run_state.
Definition ready : RunState :=
  match ready_state as o return match o with Some _ => RunState | None => unit end with Some s => s | None => tt end.

Definition ready_projection : MultiRepositoryCanonicalProjectionV1 :=
  ok_or emptyCanonicalProjection (projectMultiRepositoryCanonicalFacts (D := mixing) (rw_facts (rs_world ready))).

Lemma ready_projected : projectMultiRepositoryCanonicalFacts (D := mixing) (rw_facts (rs_world ready)) = Ok ready_projection.
Proof. apply ok_or_Ok. by_eval. Qed.

Definition ready_execution : MultiRepositoryTaskExecutionV1 :=
  match rpl_executions (rs_plan ready) with e :: _ => e | [] =>
    {| ex_taskId := ""; ex_priority := 0; ex_entries := []; ex_verifyCommands := []; ex_verifyEnvironment := []; ex_commitMessage := []; ex_publication := None |} end.

(** The plan of the integration: one repository, with the head that was recorded. *)
Example ready_plan :
  match integrationPlan (D := mixing) (rs_plan ready) (rs_task ready) ready_execution (rs_lease ready) run_members ready_projection with
  | Ok requested => match il_entries requested with [e] => bool_decide (ip_childOid e = childCommit) && bool_decide (ip_expectedOid e = expectedCommit) | _ => false end
  | Err _ => false
  end = true.
Proof. by_eval. Qed.

Lemma ready_no_transaction : cp_integrations ready_projection !! transaction_id (D := mixing) (rs_plan ready) (rs_task ready) (rs_lease ready) = None.
Proof. by_eval. Qed.

(** * The transaction of the run, when it was just created *)

Definition begun_tx : string := transaction_id (D := mixing) (rs_plan ready) (rs_task ready) (rs_lease ready).

Definition begun_plan : MultiRepoIntegrationPlanV1 :=
  ok_or samplePlan (integrationPlan (D := mixing) (rs_plan ready) (rs_task ready) ready_execution (rs_lease ready) run_members ready_projection).
Definition begun_event : MultiRepoIntegrationEventV1 := ok_or created_event (createMultiRepoIntegrationEvent (D := mixing) begun_plan).
Definition begun_integration : MultiRepoIntegrationProjectionV1 := created_projection (D := mixing) begun_event begun_plan.

(** Its first fact is in the journal. *)
Definition begun_world : RunWorld := {|
  rw_git := rw_git (rs_world ready); rw_facts := rw_facts (rs_world ready) ++ [integrationFact (rs_task ready) (rs_lease ready) begun_event] |}.
Definition begun_projection : MultiRepositoryCanonicalProjectionV1 :=
  ok_or emptyCanonicalProjection (projectMultiRepositoryCanonicalFacts (D := mixing) (rw_facts begun_world)).

Lemma begun_created : createMultiRepoIntegrationEvent (D := mixing) begun_plan = Ok begun_event /\
  applyMultiRepoIntegrationEvent (D := mixing) None begun_event = Ok begun_integration.
Proof. split; by_eval. Qed.

Lemma begun_projected : projectMultiRepositoryCanonicalFacts (D := mixing) (rw_facts begun_world) = Ok begun_projection.
Proof. apply ok_or_Ok. by_eval. Qed.

Lemma begun_transaction : cp_integrations begun_projection !! begun_tx = Some begun_integration.
Proof. by_eval. Qed.
