(* ===== verification/ControlProperties.v ===== *)
(** ControlProperties: the properties of the control-event reducer
    (src/control/events.ts, src/control/reducer.ts) and of the derived activity of
    a session (src/control/reducer.ts [deriveActivity], src/steering/activity.ts),
    each with the witness that applies it to the sample history. *)
From S2P Require Import Prelude Text Json Ids ScmTypes ControlEvents EventSchema ControlState ControlReducer ScmReducer ControlApply ControlFrame AttemptLife TaskLife SessionLife CommandLife RunLife ScmLife ControlInvariant Activity Sample.

(** What an event may do to one attempt, and to one task. *)
Definition attempt_moves (seq : Z) (before after : option AttemptFact) : Prop :=
  match before, after with
  | None, None => True
  | None, Some a' => life_of a' = Some (Prepared seq)
  | Some a, Some a' =>
      a' = a \/
      attempt_identity a' = attempt_identity a /\
      exists l l', life_of a = Some l /\ life_of a' = Some l' /\ life_step seq l l'
  | Some _, None => False
  end.

Definition task_moves (before after : option TaskFact) : Prop :=
  match before, after with
  | None, None => True
  | None, Some t' => task_step None (task_state t')
  | Some t, Some t' =>
      t' = t \/ task_identity t' = task_identity t /\ task_step (Some (task_state t)) (task_state t')
  | Some _, None => False
  end.

(** The pull request a publication carries, against its intent. *)
Definition pull_as_intended (f : ScmPublicationFact) : Prop :=
  exists pull, pf_pullRequest f = Some pull /\
    pull_lifecycle pull = lifecycle_open /\ pull_draft pull = intent_draft (pf_intent f) /\
    pull_headSha (pull_identity pull) = intent_integrationOid (pf_intent f) /\
    pull_headRef (pull_identity pull) = intent_remoteRef (pf_intent f) /\
    pull_baseRef (pull_identity pull) = intent_baseRef (pf_intent f) /\
    scmRepositoryKey (pull_headRepository (pull_identity pull)) = scmRepositoryKey (intent_repository (pf_intent f)) /\
    scmRepositoryKey (pull_baseRepository (pull_identity pull)) = scmRepositoryKey (intent_baseRepository (pf_intent f)).

Section properties.
Context {D : Digest}.

(** C1: attempts implement the abstract life machine. In a history the reducer
    accepts, an event leaves the fact of an attempt as it is, creates it in the
    life [Prepared] at the event's sequence number, or keeps its identity and
    prompt and moves its life by exactly one step of [life_step]. *)
Theorem attempt_refines_life runId runEpoch events s pe s' id :
  reduceControlEvents runId runEpoch events None = Ok s ->
  applyControlEvent s pe = Ok s' ->
  attempt_moves (pe_seq pe) (c_attempts s !! id) (c_attempts s' !! id).
Proof.
  intros Hs%reachable_wf Ha. unfold attempt_moves. destruct (c_attempts s !! id) as [a|] eqn:E.
  - destruct (applied_attempt_life _ _ _ _ _ Hs Ha E) as (a' & -> & H). exact H.
  - destruct (c_attempts s' !! id) as [a'|] eqn:E'; [|done]. by eapply applied_attempt_new.
Qed.

(** C2: Attempts are well numbered and run in a session of their own task. In
    every reachable projection an attempt is filed under its own id, its data is
    exactly what its state calls for, the sequence numbers it records increase up
    to the head, and the attempts of a task generation are numbered 1, 2, 3, ...
    without gap and without repetition. The session generation an attempt names
    exists, and as long as the session stays in that generation it is assigned to
    the attempt's task generation; the same holds of every admitted steering
    command. *)
Theorem attempts_well_placed runId runEpoch events s :
  reduceControlEvents runId runEpoch events None = Ok s ->
  attempts_wf (c_headSeq s) (c_attempts s) /\
  (forall id a, c_attempts s !! id = Some a ->
     target_ok s (af_sessionId a) (af_sessionGeneration a) (af_taskId a) (af_taskGeneration a)) /\
  (forall id f, c_steering s !! id = Some f -> isSome (sf_admittedSeq f) = true ->
     target_ok s (sf_sessionId f) (sf_sessionGeneration f) (sf_taskId f) (sf_taskGeneration f)).
Proof.
  intros H. apply reachable_wf in H. split; [by apply wf_attempts in H|]. split; [by apply wf_attempt_targets|].
  apply commands_targets. by apply wf_commands.
Qed.

(** C3: tasks implement the abstract task machine. An accepted event leaves a
    task as it is, creates it by [step_create], or keeps its description and
    moves its generation, status and owner by exactly one [task_step]. *)
Theorem task_refines_machine s pe s' id :
  applyControlEvent s pe = Ok s' ->
  task_moves (c_tasks s !! id) (c_tasks s' !! id).
Proof.
  intros H. unfold task_moves. apply tasks_effect in H as [->|H]; [destruct (c_tasks s !! id); auto|].
  destruct H as [i t Hn|i t t' Hlk];
    (destruct (decide (id = i)) as [->|Hne];
      [rewrite lookup_insert_eq|rewrite lookup_insert_ne by done; destruct (c_tasks s !! id); by auto]).
  - by rewrite Hn.
  - rewrite Hlk. by right.
Qed.

(** Ownership is exclusive and terminal statuses are final. Over any number
    of further events a task is never lost and never redescribed; within one
    generation a task that has an owner keeps it and a task that is done or
    escalated stays so, and only a later generation undoes either. *)
Lemma task_history_forward runId runEpoch s events s' id t :
  reduceControlEvents runId runEpoch events (Some s) = Ok s' ->
  c_tasks s !! id = Some t ->
  exists t', c_tasks s' !! id = Some t' /\ task_identity t' = task_identity t /\
    (tf_generation t < tf_generation t' \/
     tf_generation t' = tf_generation t /\
     (truthy (tf_claimedBy t) = true -> tf_claimedBy t' = tf_claimedBy t) /\
     (terminal_status (tf_status t) = true -> tf_status t' = tf_status t)).
Proof.
  intros H Ht.
  assert (tasks_le (c_tasks s) (c_tasks s')) as Hle.
  { eapply (reduce_steps (fun x => tasks_le (c_tasks s) (c_tasks x))); [done| |exact H].
    intros x pe x' _ Hx Happ. etransitivity; [exact Hx|by eapply applied_tasks_le]. }
  destruct (Hle _ _ Ht) as (t' & Ht' & Hid & Hrel). exists t'. split; [done|]. split; [done|].
  destruct Hrel as [Hlt|(Hg & Ho & Hs)]; [by left|right]. split; [by symmetry|done].
Qed.

(** A session only moves forward. Over any number of further events it goes
    to a later generation or stays in its generation with the same task, and a
    session generation that has exited is never observed alive again. *)
Lemma session_history_forward runId runEpoch s events s' id r :
  reduceControlEvents runId runEpoch events (Some s) = Ok s' ->
  c_runtimes s !! id = Some r ->
  exists r', c_runtimes s' !! id = Some r' /\ session_le r r'.
Proof.
  intros H Hr.
  assert (sessions_le (c_runtimes s) (c_runtimes s')) as Hle; [|by apply Hle].
  eapply (reduce_steps (fun x => sessions_le (c_runtimes s) (c_runtimes x))); [done| |exact H].
  intros x pe x' _ Hx Happ. etransitivity; [exact Hx|by eapply applied_sessions_le].
Qed.

(** C4: A steering command has one outcome, and it is backed. In every reachable
    projection a command marked included names an attempt that exists, has the
    command's attempt generation and prompt digest, and lists the command; a
    command is pending exactly while it has no terminal sequence number, which
    comes after its admission and not after the head. Over any number of further
    events its identity, target and body never change, and once it is included,
    refused, withdrawn, superseded or expired its fact never changes at all. *)
Theorem command_outcome_final runId runEpoch events s more s' id f :
  reduceControlEvents runId runEpoch events None = Ok s -> c_steering s !! id = Some f ->
  reduceControlEvents runId runEpoch more (Some s) = Ok s' ->
  ((sf_status f = st_included -> included_in (c_attempts s) f) /\
   (sf_status f = st_pending <-> sf_terminalSeq f = None) /\
   (forall a t, sf_admittedSeq f = Some a -> sf_terminalSeq f = Some t -> 1 <= a < t /\ t <= c_headSeq s)) /\
  (exists f', c_steering s' !! id = Some f' /\ command_identity f' = command_identity f /\
    (sf_status f <> st_pending -> f' = f)).
Proof.
  intros H Hf Hmore. split.
  - apply reachable_wf, wf_commands in H. split; [by eapply commands_included|].
    destruct (commands_facts _ H _ _ Hf) as (_ & Hp & _ & Ha & Ht). split; [done|].
    intros a t Hadm Hterm. specialize (Ha _ Hadm). destruct (Ht _ Hterm) as [Hb Hlt]. specialize (Hlt _ Hadm). lia.
  - assert (commands_le (c_steering s) (c_steering s')) as Hle; [|by apply Hle].
    eapply (reduce_steps (fun x => commands_le (c_steering s) (c_steering x))); [done| |exact Hmore].
    intros x pe x' _ Hx Happ. etransitivity; [exact Hx|by eapply applied_commands_le].
Qed.

(** The run has one outcome and its checkpoints progress. Over any number of
    further events the run keeps its identity, a run that has ended is not
    touched again, no counter of its checkpoint goes back, and a checkpoint
    that is not running is never replaced. *)
Lemma run_history_forward runId runEpoch s events s' r :
  reduceControlEvents runId runEpoch events (Some s) = Ok s' ->
  c_run s = Some r -> exists r', c_run s' = Some r' /\ run_progress r r'.
Proof.
  intros H Hr.
  eapply (reduce_steps (fun x => exists r', c_run x = Some r' /\ run_progress r r')); [by exists r| |exact H].
  intros x pe x' _ (r1 & Hr1 & Hle) Happ. destruct (applied_run_le _ _ _ _ Hr1 Happ) as (r2 & Hr2 & Hle2).
  exists r2. split; [done|]. etransitivity; [exact Hle|by apply run_le_progress].
Qed.

(** C5: Histories only move forward. Over any number of further events a task is
    never lost and never redescribed; within one generation a task that has an
    owner keeps it and a task that is done or escalated stays so. A session goes
    to a later generation or stays in its generation with the same task, and a
    session generation that has exited is never observed alive again. The run
    keeps its identity, a run that has ended is not touched again, no counter of
    its checkpoint goes back, and a checkpoint that is not running is never
    replaced. *)
Theorem histories_forward runId runEpoch s events s' :
  reduceControlEvents runId runEpoch events (Some s) = Ok s' ->
  (forall id t, c_tasks s !! id = Some t ->
     exists t', c_tasks s' !! id = Some t' /\ task_identity t' = task_identity t /\
       (tf_generation t < tf_generation t' \/
        tf_generation t' = tf_generation t /\
        (truthy (tf_claimedBy t) = true -> tf_claimedBy t' = tf_claimedBy t) /\
        (terminal_status (tf_status t) = true -> tf_status t' = tf_status t))) /\
  (forall id r, c_runtimes s !! id = Some r -> exists r', c_runtimes s' !! id = Some r' /\ session_le r r') /\
  (forall r, c_run s = Some r -> exists r', c_run s' = Some r' /\ run_progress r r').
Proof.
  intros H. split; [|split].
  - intros id t. by apply (task_history_forward runId runEpoch s events).
  - intros id r. by apply (session_history_forward runId runEpoch s events).
  - intros r. by apply (run_history_forward runId runEpoch s events).
Qed.

(** C6: optimistic concurrency. Every event of an accepted history has the next
    sequence number and the identity of the run, the head is the number of
    events, and an event of the run or of a session is accepted only with the
    number of events its aggregate has had so far, so two events written
    against the same version are never both in the history. *)
Theorem version_fence runId runEpoch before pe after s :
  reduceControlEvents runId runEpoch (before ++ pe :: after) None = Ok s ->
  pe_seq pe = Z.of_nat (length before) + 1 /\
  ev_runId (pe_event pe) = runId /\ ev_runEpoch (pe_event pe) = runEpoch /\
  c_headSeq s = Z.of_nat (length before) + 1 + Z.of_nat (length after) /\
  forall key, (forall id g, key <> aggregate_key agg_task id g) -> event_key pe = Some key ->
    ev_expectedVersion (pe_event pe) = events_of key before.
Proof.
  intros H. pose proof (reachable_head _ _ _ _ H) as (Hh & _ & _). rewrite length_app in Hh. cbn in Hh.
  rewrite (app_assoc before [pe] after : before ++ pe :: after = _) in H.
  unfold reduceControlEvents in H. rewrite fold_result_app in H. apply bind_Ok in H as (s1 & H1 & _).
  change (reduceControlEvents runId runEpoch (before ++ [pe]) None = Ok s1) in H1.
  rewrite reduceControlEvents_snoc in H1. apply bind_Ok in H1 as (s0 & H0 & H1).
  pose proof (reachable_head _ _ _ _ H0) as (Hh0 & Hr0 & He0).
  pose proof (applyControlEvent_Ok _ _ _ H1) as (? & ? & ? & _ & _ & Hr & He & Hseq & _).
  split_and!; try congruence; try lia. intros key Hkind Hkey.
  apply applied_versions in H1 as (k & Hk & Hv & _); [|by eapply reachable_keyed].
  rewrite Hv. assert (k = key) as -> by congruence. by eapply version_counts.
Qed.

(** What is known of a pull request is the intended one, read within limits.
    In every reachable projection a publication in the state [published] carries
    an open pull request, with the draft flag of the recorded intent, from the
    intended branch of the intended repository at exactly the integrated commit,
    into the intended base branch; no state but [published] and [superseded]
    carries a pull request. A publication has at most one poll in flight, no poll
    accepts a kind of bucket twice, a completed poll stayed within the request and
    byte budget it was started with, and every bucket of an accepted observation
    was observed at the commit the observation is filed for. *)
Lemma publications_as_intended runId runEpoch events s :
  reduceControlEvents runId runEpoch events None = Ok s ->
  (forall id f, scm_publications (c_scm s) !! id = Some f ->
     (pf_state f = pub_published -> pull_as_intended f) /\
     (isSome (pf_pullRequest f) = true -> pf_state f = pub_published \/ pf_state f = pub_superseded)) /\
  polls_wf (scm_polls (c_scm s)) /\ observations_wf (scm_observations (c_scm s)).
Proof.
  intros H. apply reachable_wf, wf_scm in H. split; [|by destruct H].
  intros id f Hf. destruct (scm_wf_publications _ _ _ H _ _ Hf) as [_ _ Hp Hpull _].
  split; [|intros Hs; by apply Hpull].
  intros (pull & Hpr & Hm & Hl & Hd)%Hp. exists pull. unfold pull_matches in Hm. guards. split_and!; assumption.
Qed.

(** Reactions are exclusive and backed. In every reachable projection a
    publication has at most one unresolved reaction per kind of fact, no two
    reactions share a steering command, and a reaction that claims its command
    was admitted or included agrees with the command's own fact. *)
Lemma reactions_exclusive_and_backed runId runEpoch events s :
  reduceControlEvents runId runEpoch events None = Ok s ->
  reactions_wf (c_steering s) (scm_reactions (c_scm s)).
Proof. intros H. by apply reachable_wf, wf_scm, scm_wf_reactions in H. Qed.

(** C7: What is known of pull requests and of reactions is backed. In every
    reachable projection a publication in the state [published] carries an open
    pull request, with the draft flag of the recorded intent, from the intended
    branch of the intended repository at exactly the integrated commit, into the
    intended base branch; no state but [published] and [superseded] carries a pull
    request. A publication has at most one poll in flight, no poll accepts a kind
    of bucket twice, a completed poll stayed within the request and byte budget it
    was started with, and every bucket of an accepted observation was observed at
    the commit the observation is filed for. A publication has at most one
    unresolved reaction per kind of fact, no two reactions share a steering
    command, and a reaction that claims its command was admitted or included
    agrees with the command's own fact. *)
Theorem scm_facts_backed runId runEpoch events s :
  reduceControlEvents runId runEpoch events None = Ok s ->
  (forall id f, scm_publications (c_scm s) !! id = Some f ->
     (pf_state f = pub_published -> pull_as_intended f) /\
     (isSome (pf_pullRequest f) = true -> pf_state f = pub_published \/ pf_state f = pub_superseded)) /\
  polls_wf (scm_polls (c_scm s)) /\ observations_wf (scm_observations (c_scm s)) /\
  reactions_wf (c_steering s) (scm_reactions (c_scm s)).
Proof.
  intros H. destruct (publications_as_intended _ _ _ _ H) as (Hp & Hl & Ho). split_and!; [exact Hp|done|done|].
  by eapply reactions_exclusive_and_backed.
Qed.

(** The event that ends an attempt: its exit when it runs, else its abandonment. *)
Definition ending (s : ControlProjection) (a : AttemptFact) (occurredAt : string) : PersistedControlEvent :=
  let payload := match af_state a with
    | att_active => attempt_exited {| aep_attemptId := af_attemptId a; aep_attemptGeneration := af_attemptGeneration a;
        aep_sessionId := af_sessionId a; aep_sessionGeneration := af_sessionGeneration a;
        aep_outcome := outcome_uncertain; aep_exitCode := None; aep_summary := None |}
    | _ => attempt_abandoned {| aap_attemptId := af_attemptId a; aap_attemptGeneration := af_attemptGeneration a;
        aap_sessionId := af_sessionId a; aap_sessionGeneration := af_sessionGeneration a;
        aap_reasonCode := abandon_OPERATOR_ABANDONED; aap_summary := None |}
    end in
  {| pe_event := {| ev_eventId := "ending"; ev_runId := c_runId s; ev_runEpoch := c_runEpoch s;
       ev_taskId := Some (af_taskId a); ev_taskGeneration := Some (af_taskGeneration a);
       ev_expectedVersion := aggregate_version s (aggregate_key agg_task (af_taskId a) (af_taskGeneration a));
       ev_occurredAt := occurredAt; ev_actorKind := actor_control_plane; ev_actorId := "parent";
       ev_sourceKind := None; ev_sourceId := None; ev_sourceGeneration := None; ev_sourceEventId := None;
       ev_payload := payload |};
     pe_seq := c_headSeq s + 1; pe_recordedAt := occurredAt; pe_intentDigest := ""; pe_digest := "" |}.

Lemma ending_handled s id a occurredAt :
  c_attempts s !! id = Some a -> af_attemptId a = id -> af_state a = att_prepared \/ af_state a = att_active ->
  exists st, on_event (ending s a occurredAt) s = Ok st /\
    exists a', c_attempts st !! id = Some a' /\ (af_state a' = att_exited \/ af_state a' = att_abandoned).
Proof.
  intros Ha Hid Hst. rewrite <-Hid in Ha. pose proof (proj2 (obj_get_Own _ _ _) Ha) as Hget.
  unfold on_event, ending. cbn. destruct (af_state a) eqn:E; [| |destruct Hst; discriminate..].
  - unfold on_attempt_abandoned, prepared_attempt, same_attempt. cbn. rewrite Hget, E.
    rewrite (bool_decide_eq_true_2 (att_prepared = att_prepared)) by done. cbn.
    rewrite !Z.eqb_refl, bool_decide_eq_true_2 by done. cbn. eexists. split; [reflexivity|]. cbn.
    eexists. rewrite Hid, lookup_insert_eq. split; [reflexivity|]. auto.
  - unfold on_attempt_exited, active_attempt, same_attempt. cbn. rewrite Hget, E.
    rewrite (bool_decide_eq_true_2 (att_active = att_active)) by done. cbn.
    rewrite !Z.eqb_refl, bool_decide_eq_true_2 by done. cbn. eexists. split; [reflexivity|]. cbn.
    eexists. rewrite Hid, lookup_insert_eq. split; [reflexivity|]. auto.
Qed.

(** C8: no attempt is stuck. From every reachable projection, whatever happened
    to its task and session, an attempt that is not over can be ended by one
    event, which the reducer accepts and which leaves it exited or abandoned at
    the new head. *)
Theorem attempt_can_end runId runEpoch events s id a l occurredAt :
  reduceControlEvents runId runEpoch events None = Ok s ->
  c_attempts s !! id = Some a -> life_of a = Some l -> life_over l = false ->
  exists s' a' l', applyControlEvent s (ending s a occurredAt) = Ok s' /\
    c_attempts s' !! id = Some a' /\ life_of a' = Some l' /\ life_step (c_headSeq s + 1) l l' /\ life_over l' = true.
Proof.
  intros H Ha Hl Hover. apply reachable_wf in H.
  pose proof (attempts_keyed _ _ (wf_attempts _ H) _ _ Ha) as Hid.
  pose proof Hover as Hstate. rewrite (life_of_over _ _ Hl) in Hstate. apply bool_decide_eq_false in Hstate.
  destruct (ending_handled s id a occurredAt) as (st & Hon & a' & Ha' & Hend);
    [done|done|destruct (af_state a); tauto|].
  assert (exists s', applyControlEvent s (ending s a occurredAt) = Ok s' /\ c_attempts s' = c_attempts st) as (s' & Happ & E0).
  { eexists. split; [apply (applyControlEvent_intro _ _ {| aggregate_kind := agg_task; aggregate_id := af_taskId a;
      aggregate_generation := af_taskGeneration a |}); [..|exact Hon]; try reflexivity|reflexivity].
    - unfold ending. by destruct (af_state a).
    - unfold ending, aggregateForEvent. cbn. destruct (af_state a); reflexivity. }
  rewrite <-E0 in Ha'. clear E0.
  destruct (applied_attempt_life _ _ _ _ _ H Happ Ha) as (a2 & E & [->|(_ & l1 & l' & Hl1 & Hl' & Hstep)]).
  { exfalso. apply Hstate. assert (a' = a) as -> by congruence. done. }
  exists s', a', l'. assert (a2 = a') as -> by congruence. assert (l1 = l) as -> by congruence.
  rewrite (life_of_over _ _ Hl'). rewrite bool_decide_eq_true_2 by done. done.
Qed.
End properties.

(** * The activity of a session *)

Section activity.
Context {C : Collation}.

(** The stricter derivation refines the display one: whenever
    [deriveSteeringActivity] returns, the activity it reports (state, reason,
    ages, generations and staleness) is the one [deriveActivity] shows for the
    same session, clock and head, provided that no task has the empty id (the
    two tests of [runtime.taskId], by truthiness and against [undefined],
    differ there). *)
Lemma activities_agree p sid now authority a :
  no_empty_id p ->
  deriveSteeringActivity p sid now authority = Ok a -> sa_activity a = deriveActivity p sid now authority.
Proof. apply deriveSteeringActivity_agrees. Qed.

(** Steering is captured only at a proven prompt boundary: when
    [canCaptureSteering] accepts a derived activity, the run is not over, the
    session reports [waiting_input], its task is open and of the generation
    the session observes, every attempt of the session generation has ended,
    and the last one ended strictly before the boundary was observed. *)
Lemma capture_needs_boundary p sid now authority a :
  deriveSteeringActivity p sid now authority = Ok a -> canCaptureSteering a = true ->
  exists r, proven_boundary p sid r.
Proof. apply capture_at_boundary. Qed.

(** C39: The activity of a session is decided, agreed on and safe. In a
    reachable projection, whenever [deriveSteeringActivity] returns: if no task
    has the empty id, the activity it reports (state, reason, ages, generations
    and staleness) is the one [deriveActivity] shows for the same session, clock
    and head; the next attempt generation it announces is above every attempt
    that the session has in its current generation (of earlier generations of the
    session it knows nothing); and when [canCaptureSteering] accepts it, the
    admission is at the next boundary, the run is not over, the session reports
    [waiting_input], its task is open and of the generation the session observes,
    every attempt of the session generation has ended, and the last one ended
    strictly before the boundary was observed. And it does return, in spite of
    its fifteen ways to throw, for every observable session: one with a readable
    observation time, ordinary generations and no unfinished attempt below the
    latest. *)
Theorem activity_decided_and_safe {D : Digest} runId runEpoch events p sid now authority :
  reduceControlEvents runId runEpoch events None = Ok p ->
  (forall a, deriveSteeringActivity p sid now authority = Ok a ->
    (no_empty_id p -> sa_activity a = deriveActivity p sid now authority) /\
    (forall r x, runtime_of p sid = Own r -> x ∈ session_attempts p sid (Some (rf_sessionGeneration r)) ->
       af_attemptGeneration x < sa_nextAttemptGeneration a) /\
    (canCaptureSteering a = true -> sa_admission a = next_boundary /\ exists r, proven_boundary p sid r)) /\
  (observable p sid now authority -> exists a, deriveSteeringActivity p sid now authority = Ok a).
Proof.
  intros Hp. split.
  - intros a Ha. destruct (deriveSteeringActivity_shape p sid now authority a Ha) as [(act & n & c & Hfin) Hlt].
    split; [intros Hn; by apply activities_agree|]. split; [done|]. intros Hc.
    split; [subst a; by apply finish_capture|by eapply capture_needs_boundary].
  - intros Hobs. apply deriveSteeringActivity_total; [by eapply reachable_wf|by eapply reachable_scoped|done].
Qed.
End activity.

(** A session that exited after an attempt and was started again: capture is
    offered for attempt 1 of its new generation, while the reducer, which counts
    the attempts of the task, takes attempt 2 only. *)
Definition observed_step (generation : Z) (o : RuntimeObservation) : sampleStep :=
  (Run.cp, Run.t1, runtime_observed {| rp_sessionId := "s1"; rp_sessionGeneration := generation; rp_observation := o; rp_launchId := None; rp_reason := None |}).
Definition restartedProjection : ControlProjection :=
  projection (history (Run.start_steps ++ Run.attempt_steps ++ [observed_step 1 obs_exited; observed_step 2 obs_waiting_input])).

Example restarted_session_cannot_capture :
  match deriveSteeringActivity restartedProjection "s1" (Some 1800000000000) None with
  | Ok a => (canCaptureSteering a, sa_nextAttemptGeneration a, next_attempt_generation restartedProjection "t1" 1) = (true, 1, 2)
  | Err _ => False
  end.
Proof. by_eval. Qed.

(** * Witnesses *)

Lemma attempt_refines_life_witness :
  attempt_moves 10 (c_attempts (sampleProjection 9) !! "a1"%string) (c_attempts (sampleProjection 10) !! "a1"%string).
Proof. apply (attempt_refines_life "run" "epoch" (take 9 sampleHistory) (sampleProjection 9) (sampleAt 9)); by_eval. Defined.

Lemma attempts_well_placed_witness :
  attempts_wf (c_headSeq (sampleProjection 11)) (c_attempts (sampleProjection 11)) /\
  (forall id a, c_attempts (sampleProjection 11) !! id = Some a ->
     target_ok (sampleProjection 11) (af_sessionId a) (af_sessionGeneration a) (af_taskId a) (af_taskGeneration a)) /\
  (forall id f, c_steering (sampleProjection 11) !! id = Some f -> isSome (sf_admittedSeq f) = true ->
     target_ok (sampleProjection 11) (sf_sessionId f) (sf_sessionGeneration f) (sf_taskId f) (sf_taskGeneration f)).
Proof. apply (attempts_well_placed "run" "epoch" (take 11 sampleHistory) (sampleProjection 11)). by_eval. Defined.

Lemma task_refines_machine_witness :
  task_moves (c_tasks (sampleProjection 4) !! "t1"%string) (c_tasks (sampleProjection 5) !! "t1"%string).
Proof. apply (task_refines_machine (sampleProjection 4) (sampleAt 4)); by_eval. Defined.

Lemma histories_forward_witness :
  (exists t, c_tasks (sampleProjection 5) !! "t1"%string = Some t /\ exists t', c_tasks (sampleProjection 22) !! "t1"%string = Some t' /\
     task_identity t' = task_identity t) /\
  (exists r, c_runtimes (sampleProjection 5) !! "s1"%string = Some r /\ exists r', c_runtimes (sampleProjection 22) !! "s1"%string = Some r' /\ session_le r r') /\
  (exists r, c_run (sampleProjection 5) = Some r /\ exists r', c_run (sampleProjection 22) = Some r' /\ run_progress r r').
Proof.
  destruct (histories_forward "run" "epoch" (sampleProjection 5) (drop 5 sampleHistory) (sampleProjection 22)) as (Ht & Hs & Hr); [by_eval|].
  split; [|split].
  - assert (exists t, c_tasks (sampleProjection 5) !! "t1"%string = Some t) as [t Et] by (eexists; by_eval).
    exists t. split; [exact Et|]. destruct (Ht _ _ Et) as (t' & Et' & Eid & _). exists t'. split; [exact Et'|exact Eid].
  - assert (exists r, c_runtimes (sampleProjection 5) !! "s1"%string = Some r) as [r Er] by (eexists; by_eval).
    exists r. split; [exact Er|]. exact (Hs _ _ Er).
  - assert (exists r, c_run (sampleProjection 5) = Some r) as [r Er] by (eexists; by_eval).
    exists r. split; [exact Er|]. exact (Hr _ Er).
Defined.

Lemma command_outcome_final_witness :
  exists f, c_steering (sampleProjection 8) !! Run.c1 = Some f /\
  exists f', c_steering (sampleProjection 22) !! Run.c1 = Some f' /\ command_identity f' = command_identity f /\
    (sf_status f <> st_pending -> f' = f).
Proof.
  eexists. split; [by_eval|].
  apply (command_outcome_final "run" "epoch" (take 8 sampleHistory) (sampleProjection 8) (drop 8 sampleHistory)); by_eval.
Defined.

Lemma version_fence_witness :
  pe_seq (sampleAt 5) = Z.of_nat 5 + 1 /\ ev_expectedVersion (pe_event (sampleAt 5)) = events_of "session:s1:1" (take 5 sampleHistory).
Proof.
  destruct (version_fence "run" "epoch" (take 5 sampleHistory) (sampleAt 5) (drop 6 sampleHistory) (sampleProjection 22)) as (Hs & _ & _ & _ & Hv);
    [by_eval|].
  split; [exact Hs|]. apply Hv; [|by_eval]. intros id g. unfold aggregate_key. discriminate.
Defined.

Lemma scm_facts_backed_witness :
  (exists f, scm_publications (c_scm (sampleProjection 22)) !! "p1"%string = Some f /\ pf_state f = pub_published /\ pull_as_intended f) /\
  reactions_wf (c_steering (sampleProjection 22)) (scm_reactions (c_scm (sampleProjection 22))).
Proof.
  assert (reduceControlEvents "run" "epoch" (take 22 sampleHistory) None = Ok (sampleProjection 22)) as Hr by by_eval.
  destruct (scm_facts_backed _ _ _ _ Hr) as (Hp & _ & _ & Hw). split; [|exact Hw].
  assert (exists f, scm_publications (c_scm (sampleProjection 22)) !! "p1"%string = Some f /\ pf_state f = pub_published) as (f & Hf & Hs)
    by (eexists; split; by_eval).
  exists f. split; [exact Hf|]. split; [exact Hs|]. exact (proj1 (Hp _ _ Hf) Hs).
Defined.

Lemma attempt_can_end_witness :
  exists a l, c_attempts (sampleProjection 10) !! "a1"%string = Some a /\ life_of a = Some l /\
  exists s' a' l', applyControlEvent (sampleProjection 10) (ending (sampleProjection 10) a "2026-01-01T00:00:00Z") = Ok s' /\
    c_attempts s' !! "a1"%string = Some a' /\ life_of a' = Some l' /\ life_step (c_headSeq (sampleProjection 10) + 1) l l' /\ life_over l' = true.
Proof.
  eexists _, _. split; [by_eval|]. split; [by_eval|].
  apply (attempt_can_end "run" "epoch" (take 10 sampleHistory) (sampleProjection 10)); by_eval.
Defined.

Lemma sampleProjection_observable : observable (sampleProjection 5) "s1" (Some 1800000000000) None.
Proof.
  split.
  - done.
  - vm_compute. split; discriminate.
  - vm_compute. intros H. repeat (apply elem_of_cons in H as [H|H]; [discriminate|]). by apply not_elem_of_nil in H.
  - assert (session_attempts (sampleProjection 5) "s1" (Some 1) = []) as Hno by by_eval.
    intros r Hr. vm_compute in Hr. simplify_eq.
    cbn [rf_observedAt rf_sessionGeneration]. unfold latest_live. rewrite Hno.
    split; [by_eval|]. split; [vm_compute; split; discriminate|].
    split; intros *; [intros H|intros H]; by apply not_elem_of_nil in H.
Qed.

Lemma activity_decided_and_safe_witness :
  exists a, deriveSteeringActivity (sampleProjection 5) "s1" (Some 1800000000000) None = Ok a /\
  sa_activity a = deriveActivity (sampleProjection 5) "s1" (Some 1800000000000) None /\
  sa_admission a = next_boundary /\ exists r, proven_boundary (sampleProjection 5) "s1" r.
Proof.
  destruct (activity_decided_and_safe "run" "epoch" (take 5 sampleHistory) (sampleProjection 5) "s1" (Some 1800000000000) None)
    as [Hany Hret]; [by_eval|].
  destruct (Hret sampleProjection_observable) as [a Ha]. exists a. split; [exact Ha|].
  destruct (Hany a Ha) as (Hagree & _ & Hcap). split; [apply Hagree; by_eval|]. apply Hcap.
  revert Ha. vm_compute. by intros [= <-].
Defined.
