(* ===== verification/StoreProperties.v ===== *)
(** StoreProperties: the control store of src/control/store.ts keeps an
    append-only log whose replay its tables are: what its calls return and leave
    behind, on any host and after any failure. *)
From S2P Require Import Prelude Text Json Ids ScmTypes ScmSchema ControlEvents EventSchema ControlState EventRead ControlReducer ScmReducer ControlApply Effects Store StoreAppend Sample.

(** * A host and a store for the witnesses *)

(** A host that never fails, whose clock stands still. *)
#[export] Instance sampleHost : StoreHost unit := {
  host_now := mret "2024-01-01T00:00:00.000Z"%string;
  host_fault := fun _ _ => mret tt;
  host_begin := fun _ => mret tt;
  host_statement := mret tt;
  host_commit := mret tt;
  assertUnchangedFile := mret tt
}.

#[export] Instance sampleHost_quiet : QuietHost (fun _ : unit => True).
Proof. split; intros; repeat eexists; vm_compute; reflexivity. Qed.

Definition sampleStoreId : string := "00000000-0000-4000-8000-000000000000".

Definition sampleWorld : StoreWorld unit :=
  match bootstrap "run" "epoch" sampleStoreId "2024-01-01T00:00:00.000Z" with
  | Ok t => {| sw_tables := t; sw_closed := false; sw_host := tt |}
  | Err _ => {| sw_tables := Build_Tables None [] 0 None ∅ [] ∅ ∅ ∅ ∅ ∅; sw_closed := false; sw_host := tt |}
  end.

Definition sampleBatch (a n : nat) : list ControlEvent := List.map pe_event (take n (drop a sampleHistory)).

(** The tables with the first events of the history in them. *)
Definition sampleStore : StoreWorld unit := (run_write "run" "epoch" (write_batch (sampleBatch 0 4)) sampleWorld).1.

Lemma sampleWorld_holds : holds "run" "epoch" [] (sw_tables sampleWorld).
Proof. by eapply (bootstrap_holds "run" "epoch" sampleStoreId "2024-01-01T00:00:00.000Z"). Qed.

Lemma sampleStore_holds : exists log, holds "run" "epoch" log (sw_tables sampleStore).
Proof.
  destruct (step_holds "run" "epoch" sampleStoreId [] sampleWorld sampleStore) as (log & _ & H); [by eapply step_write|apply sampleWorld_holds|by exists log].
Qed.

(** * The store is a log *)

(** C9: The store refines an append-only log. Create a store and let anything
    happen to it: calls that append, compare and append, advance cursors or
    read, each on a host that may fail in every statement, at every fault point,
    in BEGIN and in COMMIT; closing, reopening and other handles in between.
    Then the tables hold a log: its entries are the rows of the event table, in
    order, with the texts and digests of their events; the projection tables,
    although each append rewrites the rows of its own fact only, are the replay
    of the log by the reducer; the head in the metadata is its length; and no
    cursor points past it. Whatever happens afterwards, the log only grows at
    its end. *)
Theorem store_keeps_log {D : Digest} {U : UrlApi} {W : Type} `{!StoreHost W} runId runEpoch storeId now t (w0 w : StoreWorld W) :
  uuid_v4_from 0 storeId = true -> bootstrap runId runEpoch storeId now = Ok t -> sw_tables w0 = t ->
  rtc (store_step runId runEpoch storeId) w0 w ->
  exists log, holds runId runEpoch log (sw_tables w) /\
    forall w', rtc (store_step runId runEpoch storeId) w w' -> exists new, holds runId runEpoch (log ++ new) (sw_tables w').
Proof.
  intros Hu Hb <- Hs. destruct (steps_hold _ _ _ [] _ _ Hs) as (log & _ & Hh); [by eapply bootstrap_holds|].
  exists log. split; [done|]. intros w' Hs'. destruct (steps_hold _ _ _ _ _ _ Hs' Hh) as (log' & [new ->] & Hh'). by exists new.
Qed.

Lemma store_keeps_log_witness : exists log, holds "run" "epoch" log (sw_tables sampleStore) /\
  forall w', rtc (store_step "run" "epoch" sampleStoreId) sampleStore w' -> exists new, holds "run" "epoch" (log ++ new) (sw_tables w').
Proof.
  apply (store_keeps_log "run" "epoch" sampleStoreId "2024-01-01T00:00:00.000Z" (sw_tables sampleWorld) sampleWorld sampleStore).
  - reflexivity.
  - vm_compute. reflexivity.
  - reflexivity.
  - apply rtc_once. apply (step_write _ _ _ _ _ (write_batch (sampleBatch 0 4))). reflexivity.
Defined.

(** C10: A call is one atomic append. A call that fails, wherever it fails,
    leaves every table as it was. A call that returns has run the log machine
    over its events in order: an event whose id the log has is the event of
    that entry, and is acknowledged with the entry's sequence number, digests
    and time; another one had a source identity no entry has, passed the fences,
    was taken by the reducer and is the next entry. Every receipt is of an
    entry for its event. [appendBatchIf] returns only if the head was the one
    expected, or nothing has changed; a cursor advances only from the position
    and generation it had, to a position within the head the transaction saw,
    and no other cursor moves. *)
Theorem store_calls_atomic {D : Digest} {U : UrlApi} {W : Type} `{!StoreHost W} runId runEpoch log c (w w' : StoreWorld W) r :
  holds runId runEpoch log (sw_tables w) -> run_write runId runEpoch c w = (w', r) ->
  match r with
  | Err _ => sw_tables w' = sw_tables w
  | Ok (rs, cursor) => exists log',
      log_batch runId runEpoch log (write_values c) log' rs /\ holds runId runEpoch log' (sw_tables w') /\
      log `prefix_of` log' /\ Forall2 (acknowledged log') (write_values c) rs /\
      (forall n, write_expected c = Some n -> n = Z.of_nat (length log) \/ sw_tables w' = sw_tables w) /\
      match cursor with
      | Some cur => exists a, write_advance c = Some a /\ advanced (Z.of_nat (length log)) a (sw_tables w) (sw_tables w') cur
      | None => t_cursors (sw_tables w') = t_cursors (sw_tables w)
      end
  end.
Proof.
  intros Hh Hr. pose proof (after_run_write runId runEpoch log c w Hh) as H. unfold after, appended in H. rewrite Hr in H. cbn in H.
  destruct r as [[rs cursor]|e]; [|done]. destruct H as (log' & [Hlog Hh' Hexp Hcur]). exists log'.
  split; [done|]. split; [done|]. split; [by eapply log_batch_prefix|]. split; [by eapply log_batch_acknowledged|]. split; [done|].
  destruct cursor; [done|]. by destruct Hcur.
Qed.

Lemma store_calls_atomic_witness :
  let c := write_if 0 (sampleBatch 0 3) in let wr := run_write "run" "epoch" c sampleWorld in
  is_ok wr.2 = true /\
  match wr.2 with
  | Err _ => sw_tables wr.1 = sw_tables sampleWorld
  | Ok (rs, cursor) => exists log',
      log_batch "run" "epoch" [] (write_values c) log' rs /\ holds "run" "epoch" log' (sw_tables wr.1) /\
      [] `prefix_of` log' /\ Forall2 (acknowledged log') (write_values c) rs /\
      (forall n, write_expected c = Some n -> n = 0 \/ sw_tables wr.1 = sw_tables sampleWorld) /\
      match cursor with
      | Some cur => exists a, write_advance c = Some a /\ advanced 0 a (sw_tables sampleWorld) (sw_tables wr.1) cur
      | None => t_cursors (sw_tables wr.1) = t_cursors (sw_tables sampleWorld)
      end
  end.
Proof.
  cbv zeta. split; [vm_compute; reflexivity|].
  apply (store_calls_atomic "run" "epoch" [] (write_if 0 (sampleBatch 0 3)) sampleWorld); [exact sampleWorld_holds|apply surjective_pairing].
Defined.

(** C11: Reading is exact, and a store that holds a log is never found
    broken. On a host where nothing fails, an open store returns the replay of
    its log as the projection, facts of every family included, and as the page
    after position [a] the next [n] entries, as they were appended, telling
    whether more follow; only a position past the head is refused. On any host,
    a projection that is returned is the replay. *)
Theorem store_reads_exact {D : Digest} {U : UrlApi} {W : Type} `{!StoreHost W} (quiet : W -> Prop) `{!QuietHost quiet}
    runId runEpoch log (w : StoreWorld W) :
  holds runId runEpoch log (sw_tables w) -> exists s, reduceControlEvents runId runEpoch log None = Ok s /\
  (forall s', (getProjection runId runEpoch w).2 = Ok s' -> s' = s) /\
  (sw_closed w = false -> quiet (sw_host w) ->
    (getProjection runId runEpoch w).2 = Ok s /\
    forall a n : nat, (1 <= n)%nat -> Z.of_nat n <= MAX_RANGE_LIMIT ->
      let r := (readRange runId runEpoch (Z.of_nat a) (Some (Z.of_nat n)) (Some runEpoch) w).2 in
      if (a <=? length log)%nat then r = Ok (page runEpoch log a n) else exists code, r = Err (ControlStoreError code)).
Proof.
  intros Hh. pose proof Hh as [[s Hst] Hmeta _]. exists s. split; [by eapply stores_replay|]. split.
  - intros s' Hs'. by eapply projection_is_replay.
  - intros Hcl Hq. split.
    + by eapply projection_returned.
    + intros a n Hn Hmax. pose proof (after_readRange runId runEpoch quiet log w a n Hh Hcl Hq Hn Hmax) as (_ & Hin & Hout).
      cbv zeta. destruct (Nat.leb_spec a (length log)) as [Ha|Ha]; [by apply Hin|by apply Hout].
Qed.

Lemma store_reads_exact_witness : exists log, holds "run" "epoch" log (sw_tables sampleStore) /\
  exists s, reduceControlEvents "run" "epoch" log None = Ok s /\
  (forall s', (getProjection "run" "epoch" sampleStore).2 = Ok s' -> s' = s) /\
  (sw_closed sampleStore = false -> True ->
    (getProjection "run" "epoch" sampleStore).2 = Ok s /\
    forall a n : nat, (1 <= n)%nat -> Z.of_nat n <= MAX_RANGE_LIMIT ->
      let r := (readRange "run" "epoch" (Z.of_nat a) (Some (Z.of_nat n)) (Some "epoch"%string) sampleStore).2 in
      if (a <=? length log)%nat then r = Ok (page "epoch" log a n) else exists code, r = Err (ControlStoreError code)).
Proof.
  destruct sampleStore_holds as [log Hlog]. exists log. split; [exact Hlog|].
  exact (store_reads_exact (fun _ => True) "run" "epoch" log sampleStore Hlog).
Defined.

(** A batch may be sent again. When a call has returned receipts for a
    batch, then at any later time, whatever has been appended since, sending the
    same batch to the open store on a host where nothing fails returns the same
    receipts, marked idempotent, with the sequence numbers, digests and times of
    the first time, and changes no table. *)
Lemma batch_resent {D : Digest} {U : UrlApi} {W : Type} `{!StoreHost W} (quiet : W -> Prop) `{!QuietHost quiet}
    runId runEpoch storeId log c (w w1 w2 : StoreWorld W) rs cursor :
  holds runId runEpoch log (sw_tables w) -> run_write runId runEpoch c w = (w1, Ok (rs, cursor)) ->
  parseEvents runId runEpoch (write_values c) = Ok (write_values c) ->
  rtc (store_step runId runEpoch storeId) w1 w2 -> sw_closed w2 = false -> quiet (sw_host w2) ->
  exists w3, appendBatch runId runEpoch (write_values c) w2 = (w3, Ok (List.map acknowledged_again rs)) /\ sw_tables w3 = sw_tables w2.
Proof.
  intros Hh Hr Hp Hs Hcl Hq. pose proof (after_run_write runId runEpoch log c w Hh) as H. unfold after, appended in H. rewrite Hr in H. cbn in H.
  destruct H as (log1 & [Hlog Hh1 _ _]). destruct (steps_hold _ _ _ _ _ _ Hs Hh1) as (log2 & Hpre & Hh2).
  apply log_batch_acknowledged in Hlog. eapply (resent runId runEpoch quiet); eauto using acknowledged_prefix.
Qed.

Lemma batch_resent_witness :
  let c := write_batch (sampleBatch 0 4) in
  exists rs, run_write "run" "epoch" c sampleWorld = (sampleStore, Ok (rs, None)) /\ length rs = 4%nat /\
  exists w3, appendBatch "run" "epoch" (write_values c) sampleStore = (w3, Ok (List.map acknowledged_again rs)) /\ sw_tables w3 = sw_tables sampleStore.
Proof.
  cbv zeta. destruct (run_write "run" "epoch" (write_batch (sampleBatch 0 4)) sampleWorld).2 as [[rs cursor]|e] eqn:E; [|exfalso; revert E; vm_compute; discriminate].
  assert (length rs = 4%nat /\ cursor = None) as [Hl ->] by (revert E; vm_compute; intros [= <- <-]; done).
  assert (run_write "run" "epoch" (write_batch (sampleBatch 0 4)) sampleWorld = (sampleStore, Ok (rs, None))) as Hr
    by (rewrite <-E; apply surjective_pairing).
  exists rs. split; [exact Hr|]. split; [exact Hl|].
  apply (batch_resent (fun _ => True) "run" "epoch" sampleStoreId [] (write_batch (sampleBatch 0 4)) sampleWorld sampleStore sampleStore rs None);
    [exact sampleWorld_holds|exact Hr|vm_compute; reflexivity|apply rtc_refl|reflexivity|exact I].
Defined.
