(* ===== verification/LedgerProperties.v ===== *)
(** LedgerProperties: what the money ledger of src/ledger.ts promises, on a host
    whose every step may fail and that may lose its power at any time. *)
From Stdlib Require Import QArith.
From S2P Require Import Prelude Text Json Ids ScmTypes ControlEvents EventSchema EventCode JsonText Money Stringify Attest LedgerRecords Ledger LedgerLog LedgerFacts LedgerAccounts LedgerQuiet LedgerSample.

#[local] Open Scope Z_scope.

Section properties.
Context {W : Type} `{LH : !LedgerHost W} `{HT : !HostTexts W} `{DG : Digest} `{HM : Hmac} `{GN : Generation}.

(** What a read returns is said of the journal that explains the history. *)
Lemma read_returned {A} (fn : Folded -> result LedgerError A) ls (w : LedgerWorld W) a : agrees ls (disk_of w) -> (read fn w).2 = Returned a ->
  exists f, fold_journal (unlines ls) = Ok f /\ fn f = Ok a /\ agrees ls (disk_of (read fn w).1).
Proof.
  intros Hag Ho. destruct (does_read fn ls (disk_of w) Hag w eq_refl) as (ls' & Hag' & _ & Ha).
  destruct (Ha a Ho) as [(rec & f & Hf & [-> Hfn] & ->)|[[] _]]. exists f. rewrite app_nil_r in Hag'. by split_and!.
Qed.

Lemma answered_returned {A} (g : A -> LedgerAnswer) (c : io W A) w w' a : answered g c w = (w', Returned a) -> exists b, c w = (w', Returned b) /\ a = g b.
Proof. unfold answered, mbind, io_bind, mret, io_ret. destruct (c w) as [w1 [b|e|]]; intros [= -> <-]. by exists b. Qed.
End properties.

(** C12: The ledger is a journal that calls extend one at a time. Take any
    history of calls that reserve, settle, mint or read (an operator's reconcile
    is not among them), with plain values as arguments, by any handles and
    processes, on a host that may fail or stop at every step and write anything
    less than it was asked to, with losses of power in between that leave of each
    file what was synced last or a prefix of what was written since. There is one
    list of journal lines that explains it: every call that returned has appended
    the record its decision gives on the lines before it and answered
    accordingly, a call that threw or whose process stopped has done just that or
    nothing. And what the files hold now is exactly these lines, or a write-ahead
    log that refuses every further use. *)
Theorem ledger_linearizes {W : Type} `{LH : !LedgerHost W} `{HT : !HostTexts W} `{DG : Digest} `{HM : Hmac} `{GN : Generation} calls d :
  generation_texts -> ledger_history (W := W) calls d ->
  exists ls, explains (W := W) calls ls /\ (d.(dk_leaf) = file_of (utf8_encode (unlines ls)) \/ refuses d.(dk_wal).(fl_content)).
Proof.
  intros Hg Hh. destruct (history_explained calls d Hg Hh) as (ls & He & _ & [[Hl _]|Hr]); exists ls; (split; [done|]); [by left|right].
  destruct Hr as (Hwf & _ & Hr). specialize (Hr (length d.(dk_wal).(fl_content)) Hwf). by rewrite take_ge in Hr.
Qed.

(** C13: Spending stays within the budget. In such a history, where every
    reservation was asked for under the same positive budget, the effective spend
    that is returned is at most the budget; unless a call has cost more than was
    reserved for it, and then the violation that is returned next names a call
    that was reserved, and for which a mint of the kernel was asked with a cost
    above its reserved worst case. *)
Theorem spend_within_budget {W : Type} `{LH : !LedgerHost W} `{HT : !HostTexts W} `{DG : Digest} `{HM : Hmac} `{GN : Generation}
    calls B (w w1 w2 : LedgerWorld W) n v :
  generation_texts -> 0 < B -> budgets_are B calls -> ledger_history calls (disk_of w) ->
  perform_call call_effectiveSpend w = (w1, Returned (answer_amount n)) ->
  perform_call call_budgetViolation w1 = (w2, Returned (answer_violation v)) ->
  n <= B \/ exists callId bind worst usd b bind' draft cost o o', v = Some callId /\
    (call_reserve bind usd b, o) ∈ calls /\ get "callId" bind = callId /\ usdToNano usd = Ok worst /\
    (call_attestAndSettle bind' draft cost, o') ∈ calls /\ get "callId" bind' = callId /\
    exists nano, parseNano (JString cost) = Ok nano /\ worst < nano.
Proof.
  intros Hg HB Hall Hh H1 H2. destruct (history_explained _ _ Hg Hh) as (ls & He & Hag).
  apply answered_returned in H1 as (x & H1 & [= <-]). unfold effectiveSpendNano in H1. apply answered_returned in H2 as (y & H2 & [= <-]). unfold budgetViolation in H2.
  destruct (read_returned spend_of ls w n Hag) as (f & Hf & Hn & Hag1); [by rewrite H1|]. rewrite H1 in Hag1.
  destruct (read_returned violation_of ls w1 v Hag1) as (f' & Hf' & Hv & _); [by rewrite H2|]. assert (f' = f) as -> by congruence.
  unfold spend_of, violation_of in *. destruct (fold_calls f) as [m|e] eqn:Hm; [|discriminate Hn]. injection Hn as <-. injection Hv as <-.
  destruct (within_history B calls ls Hg HB Hall He f m Hf Hm) as [_ [Hle|Hov]]; [by left|right].
  destruct (List.find _ m) as [[k r]|] eqn:E; cbn.
  2:{ exfalso. apply Exists_exists in Hov as (kr & Hin & Ho). apply list_elem_of_In in Hin. pose proof (List.find_none _ _ E kr Hin). cbn in *. congruence. }
  apply List.find_some in E as [Hin Ho]. apply list_elem_of_In in Hin. destruct (minted_history calls ls Hg He f m Hf Hm k r Hin) as [(b & wU & bU & o & Hb1 & Hb2 & _ & Hb3) Ht _ Hover].
  destruct (Hover Ho) as (_ & Hen & nano & Hn & Hlt). destruct (Ht nano Hn) as (bind' & d & usd & o' & Ha1 & Ha2 & Ha3 & _).
  exists k, b, r.(rv_worstCase), wU, bU, bind', d, usd, o, o'. split_and!; try done; [by apply Hb3|]. by exists nano.
Qed.

(** C14: Money and routes are authorized by the kernel's mints alone. When in
    such a history a settlement is reported, the call was reserved; when its cost
    is reported as trusted, or a fallback as authorized, the history holds the
    mint that did so: with a valid binding of this run for the same call, which
    agrees with the reserved one field by field, and with a scope of a positive
    process id, of the strong kind where the host has it, for which the host's
    probe has an answer that nothing is alive in it. So a history without such a
    mint reports neither, whatever its other calls were given. *)
Theorem authority_minted {W : Type} `{LH : !LedgerHost W} `{HT : !HostTexts W} `{DG : Digest} `{HM : Hmac} `{GN : Generation}
    calls (w w' : LedgerWorld W) callId s :
  generation_texts -> ledger_history calls (disk_of w) -> perform_call (call_settlementOf callId) w = (w', Returned (answer_status s)) ->
  (s.(st_settled) = true -> exists bind usd b o, (call_reserve bind usd b, o) ∈ calls /\ get "callId" bind = callId) /\
  (s.(st_costTrusted) = true -> exists reserved usd b o bind draft cost o', (call_reserve reserved usd b, o) ∈ calls /\
     (call_attestAndSettle bind draft cost, o') ∈ calls /\ get "callId" bind = callId /\ mintable (W := W) bind draft.(kd_scope) /\
     bindingMismatch (dropped reserved) (dropped bind) = Ok false) /\
  (s.(st_fallbackAuthorized) = true -> exists reserved usd b o bind draft limit o', (call_reserve reserved usd b, o) ∈ calls /\
     (call_attestFallback bind draft limit, o') ∈ calls /\ get "callId" bind = callId /\ mintable (W := W) bind draft.(kd_scope) /\
     bindingMismatch (dropped reserved) (dropped bind) = Ok false).
Proof.
  intros Hg Hh H. destruct (history_explained _ _ Hg Hh) as (ls & He & Hag). apply answered_returned in H as (x & H & [= <-]). unfold settlementOf in H.
  destruct (read_returned (status_of callId) ls w s Hag) as (f & Hf & Hs & _); [by rewrite H|].
  unfold status_of in Hs. destruct (fold_calls f) as [m|e] eqn:Hm; [|discriminate Hs]. injection Hs as <-.
  destruct (call_get callId m) as [r|] eqn:Hr; [|done]. destruct (rv_settled r) eqn:Hse; [|done]. cbn [st_settled st_costTrusted st_fallbackAuthorized].
  apply call_get_elem in Hr. destruct (minted_history calls ls Hg He f m Hf Hm callId r Hr) as [(b & wU & bU & o & Hb1 & Hb2 & Hb3 & _) Ht Hfa _].
  split; [intros _; eauto 10|]. rewrite Hb3 in Ht, Hfa. split.
  - destruct (rv_trustedUsd r) as [n|] eqn:En; [|done]. intros _. destruct (Ht n eq_refl) as (bind' & d & usd & o' & ? & ? & _ & ? & ?). exists b, wU, bU, o, bind', d, usd, o'. by split_and!.
  - intros (bind' & d & usd & o' & ? & ? & ? & ?)%Hfa. exists b, wU, bU, o, bind', d, usd, o'. by split_and!.
Qed.

(** What is spent, when a record has been added. *)
Lemma recorded_spend {W : Type} `{LH : !LedgerHost W} `{HT : !HostTexts W} (quiet : W -> Prop) `{HQ : !QuietLedger quiet} `{DG : Digest} `{HM : Hmac} `{GN : Generation}
    ls m (w : LedgerWorld W) : recorded quiet ls m w -> readable (disk_of w) -> (effectiveSpendNano w).2 = Returned (spendOf m).
Proof.
  intros (Hc & l & f & Hr & Hf & Hm) Hread. destruct (quietly_read quiet spend_of (ls ++ [l]) f (disk_of w) Hr Hread Hf w Hc eq_refl) as (_ & _ & Ho).
  unfold effectiveSpendNano. rewrite Ho. unfold spend_of. by rewrite Hm.
Qed.

(** C15: What the calls do when nothing fails. Take an idle handle and a valid
    binding of this run that carries no egress authority. A reservation is refused
    for a call id or nonce that was used, answered with false exactly when it
    would exceed a positive budget, and otherwise recorded: the journal, read back
    by the same fold, has one account more, and what is spent grows by its worst
    case. A settlement is refused unless there is an unsettled account whose
    binding is the same; an uncertain one leaves what is spent as it was, one with
    evidence that verifies replaces the worst case by the cost that was reported,
    to the nano-dollar. *)
Theorem ledger_calls_exact {W : Type} `{LH : !LedgerHost W} `{HT : !HostTexts W} (quiet : W -> Prop) `{HQ : !QuietLedger quiet} `{DG : Digest} `{HM : Hmac} `{GN : Generation}
    ls f m bind (w : LedgerWorld W) :
  generation_texts -> chain_texts -> idle quiet ls f m w ->
  js_value bind -> dropped bind = bind -> validateBinding bind = Ok tt -> get "runNonce" bind = JString runNonce -> get "egress" bind = JUndefined ->
  (forall usd budgetUsd worst budget w' o, usdToNano usd = Ok worst -> usdToNano budgetUsd = Ok budget -> reserve bind usd budgetUsd w = (w', o) ->
     if isSome (call_get (get "callId" bind) m) || nonce_spent bind f.(fd_datas) then disk_of w' = disk_of w /\ exists e, o = Thrown e
     else if (0 <? budget) && (budget <? spendOf m + worst) then disk_of w' = disk_of w /\ o = Returned false
     else o = Returned true /\ recorded quiet ls (m ++ [(get "callId" bind, new_call (if 0 <? budget then worst else 0) (0 <? budget) bind)]) w' /\
       (readable (disk_of w') -> (effectiveSpendNano w').2 = Returned (spendOf m + if 0 <? budget then worst else 0))) /\
  settles quiet uncertain ls m bind w (settleUncertain bind JUndefined w).1 (settleUncertain bind JUndefined w).2 /\
  (forall draft usd n, draft_ok draft -> parseNano (JString usd) = Ok n -> evidence bind draft n w ->
     settles quiet (credited n) ls m bind w (attestAndSettle bind draft usd w).1 (attestAndSettle bind draft usd w).2) /\
  (forall cur after (w' : LedgerWorld W), call_get (get "callId" bind) m = Some cur -> cur.(rv_settled) = false ->
     recorded quiet ls (call_set (get "callId" bind) (after cur) m) w' -> readable (disk_of w') ->
     (after = uncertain -> (effectiveSpendNano w').2 = Returned (spendOf m)) /\
     (forall n, after = credited n -> (effectiveSpendNano w').2 = Returned (spendOf m - cur.(rv_worstCase) + n))).
Proof.
  intros Hg Hc Hi Hj Hd Hv Hr He. split; [|split; [by eapply settleUncertain_quietly|split; [intros; by eapply attestAndSettle_quietly|]]].
  - intros usd budgetUsd worst budget w' o Hu Hb E. pose proof (reserve_quietly quiet ls f m bind usd budgetUsd worst budget w Hg Hc Hi Hj Hd Hv Hr Hu Hb) as H.
    rewrite E in H. destruct (_ || _); [tauto|]. destruct (_ && _); [tauto|]. destruct H as [-> H]. split; [done|]. split; [done|].
    intros Hread. rewrite (recorded_spend quiet _ _ _ H Hread), spend_app. cbn. by rewrite Z.add_0_r.
  - intros cur after w' Hcur Hset Hrec Hread. rewrite (recorded_spend quiet _ _ _ Hrec Hread), (spend_set _ cur) by done.
    assert (counted cur = rv_worstCase cur) as -> by (unfold counted; rewrite Hset; by destruct (rv_trustedUsd cur)).
    split; [intros ->|intros n ->]; cbn; f_equal; lia.
Qed.

(** C17: Money is exact. A decimal text is converted to nano-dollars
    exactly when its exponent is at most 40 in absolute value and the number it
    names is a whole number of nano-dollars up to the maximum, and then to that
    number; every amount that is accepted, from a number or from the journal,
    is between zero and the maximum; and an amount that is written to the
    journal is read back as it was. *)
Theorem money_exact :
  (forall s n, usdToNano (amount_finite false s) = Ok n <->
     exists d, DECIMAL s = Some d /\ Z.abs (dec_exp d) <= 40 /\ (decimal_value d * inject_Z 1000000000 == inject_Z n)%Q /\ n <= MAX_NANO) /\
  (forall v n, usdToNano v = Ok n -> 0 <= n <= MAX_NANO /\ parseNano (JString (formatNano n)) = Ok n) /\
  (forall v n, parseNano v = Ok n -> 0 <= n <= MAX_NANO /\ exists t, v = JString t /\ digits_value t = n).
Proof.
  split; [|split].
  - intros s n. cbn [usdToNano]. split.
    + intros H. apply bind_Ok in H as (k & Hk & H). apply bind_Ok in H as (_ & Hle%ensure_Ok & [= <-]). apply decimalToNano_spec in Hk as (d & ? & ? & ?). exists d. split_and!; try done. guards. lia.
    + intros (d & ? & ? & ? & Hle). assert (decimalToNano s = Ok n) as -> by (apply decimalToNano_spec; eauto). cbn [mbind result_bind]. by rewrite (proj2 (Z.ltb_ge _ _) Hle).
  - intros v n Hv. pose proof (usdToNano_bounds _ _ Hv). split; [done|]. by apply parseNano_formatNano.
  - intros v n Hv. split; [by eapply parseNano_bounds|]. destruct v as [| | | |t| |]; try discriminate Hv. exists t. split; [done|]. cbn in Hv.
    apply bind_Ok in Hv as (_ & _ & Hv). by apply bind_Ok in Hv as (_ & _ & [= <-]).
Qed.

(** C16: An attestation binds every field of its payload. Two attestations
    that verify under one key and have one tag agree on every member of
    [AttestPayload], whatever else their objects hold, as long as these members
    can be encoded (well-formed texts, numbers printed in full) and the two
    encodings are not a collision of the MAC; the reap proof of a verified one is
    that of a scope with the id and backend it names, and it names a limit frame
    exactly when it is a fallback. *)
Theorem attestation_binds {HM : Hmac} material a a' : let p := get "payload" a in let p' := get "payload" a' in
  verifyAttestation (Some material) a = Ok tt -> verifyAttestation (Some material) a' = Ok tt -> get "tag" a = get "tag" a' ->
  payload_encodable p -> payload_encodable p' ->
  (hmacSha256 material (canonicalPayload p) = hmacSha256 material (canonicalPayload p') -> canonicalPayload p = canonicalPayload p') ->
  Forall (fun k => get k p = get k p') AttestPayload /\
  (exists r, get "scopeId" p = JString (scopeIdOf r) /\ get "scopeBackend" p = JString (scope_backend r) /\ get "scopeReapProof" p = JString (reapProofOf r)) /\
  (get "kind" p = jtext "trusted-fallback" /\ (exists t, get "limitSha256" p = JString t /\ SHA256 t = true) \/
   get "kind" p = jtext "accounted-terminal" /\ get "limitSha256" p = JUndefined).
Proof.
  intros p p' Ha Ha' Ht Hp Hp' Hinj. unfold verifyAttestation in *. fold p in Ha. fold p' in Ha'.
  do 2 apply bind_Ok in Ha as (_ & _ & Ha). do 2 apply bind_Ok in Ha' as (_ & _ & Ha').
  apply bind_Ok in Ha as (u & Hs & Ha%ensure_Ok%same_value_spec). apply bind_Ok in Ha' as (u' & Hs' & Ha'%ensure_Ok%same_value_spec).
  split; [|split; [by eapply shape_scope|by eapply shape_limit]].
  assert (hmacSha256 material (canonicalPayload p) = hmacSha256 material (canonicalPayload p')) as E%Hinj by (apply text_of_string_inj; congruence).
  apply (canonicalPayload_inj p p' u u' Hs Hs' Hp Hp' E).
Qed.

(** * Witnesses *)

Lemma ledger_linearizes_witness : List.map (fun co => match co.2 with Returned (answer_bool true) => 0 | Died => 1 | Thrown e => 2 | _ => 3 end) resumed_calls.1 = [0; 1; 2] /\
  exists ls, explains (W := Script) resumed_calls.1 ls /\ (resumed_calls.2.(dk_leaf) = file_of (utf8_encode (unlines ls)) \/ refuses resumed_calls.2.(dk_wal).(fl_content)).
Proof. split; [vm_compute; reflexivity|]. exact (ledger_linearizes resumed_calls.1 resumed_calls.2 sample_texts resumed_history). Defined.

Lemma spend_within_budget_witness : 1000000000 < 1200000000 /\
  (1200000000 <= 1000000000 \/ exists callId bind worst usd b bind' draft cost o o', Some (jtext "lead-1") = Some callId /\
    (call_reserve bind usd b, o) ∈ overrun_calls.1 /\ get "callId" bind = callId /\ usdToNano usd = Ok worst /\
    (call_attestAndSettle bind' draft cost, o') ∈ overrun_calls.1 /\ get "callId" bind' = callId /\
    exists nano, parseNano (JString cost) = Ok nano /\ worst < nano).
Proof.
  split; [reflexivity|].
  apply (spend_within_budget overrun_calls.1 1000000000 (open_world [] overrun_calls.2) (open_world [] overrun_calls.2) (open_world [] overrun_calls.2)).
  - exact sample_texts.
  - reflexivity.
  - apply budgets_decided. vm_compute. reflexivity.
  - rewrite disk_of_open. exact overrun_history.
  - vm_compute. reflexivity.
  - vm_compute. reflexivity.
Defined.

Lemma authority_minted_witness : exists bind draft cost o, (call_attestAndSettle bind draft cost, o) ∈ settled_calls.1 /\ get "callId" bind = jtext "lead-1".
Proof.
  destruct (authority_minted settled_calls.1 (open_world [] settled_calls.2) (open_world [] settled_calls.2) (jtext "lead-1")
    {| st_settled := true; st_costTrusted := true; st_fallbackAuthorized := false |} sample_texts) as (_ & H & _).
  - rewrite disk_of_open. exact settled_history.
  - vm_compute. reflexivity.
  - destruct (H eq_refl) as (_ & _ & _ & _ & bind & d & cost & o & _ & Hin & Hid & _). exists bind, d, cost, o. by split.
Defined.

(** A reservation is granted and counted; another call, settled, counts its cost. *)
Lemma ledger_calls_exact_witness : let reserved := reserve first_call (usd "0.6") (usd "1") fresh_world in
  let settled := attestAndSettle first_call draft (text_of_string "400000000") reserved_world in
  reserved.2 = Returned true /\ (effectiveSpendNano reserved.1).2 = Returned 600000000 /\
  settled.2 = Returned tt /\ (effectiveSpendNano settled.1).2 = Returned 400000000.
Proof.
  cbv zeta. destruct (ledger_calls_exact no_trouble [] no_records [] first_call fresh_world sample_texts sample_chain fresh_idle (binding_js_value _ _)) as (Hres & _);
    try (vm_compute; reflexivity).
  specialize (Hres (usd "0.6") (usd "1") 600000000 1000000000 _ _ eq_refl eq_refl (surjective_pairing _)). destruct Hres as (Hret & _ & Hspend).
  destruct (ledger_calls_exact no_trouble [first_text] one_record [(get "callId" first_call, first_account)] first_call reserved_world sample_texts sample_chain reserved_idle
    (binding_js_value _ _)) as (_ & _ & Hs & Hspend'); try (vm_compute; reflexivity).
  specialize (Hs draft (text_of_string "400000000") 400000000 draft_sample eq_refl sample_evidence). destruct Hs as [Hret' Hrec].
  split; [exact Hret|]. split; [apply Hspend; split; vm_compute; discriminate|]. split; [exact Hret'|].
  refine (proj2 (Hspend' first_account (credited 400000000) _ _ _ Hrec _) 400000000 eq_refl); try (vm_compute; reflexivity).
  split; vm_compute; discriminate.
Defined.

Lemma attestation_binds_witness : let p := get "payload" (attested_first []) in let p' := get "payload" (attested_first [(text_of_string "note", JNull)]) in
  p <> p' /\ Forall (fun k => get k p = get k p') AttestPayload.
Proof.
  split; [vm_compute; discriminate|].
  destruct (attestation_binds (replicate 32 7) (attested_first []) (attested_first [(text_of_string "note", JNull)])) as [H _]; [..|exact H].
  - vm_compute. reflexivity.
  - vm_compute. reflexivity.
  - vm_compute. reflexivity.
  - apply payload_decided. vm_compute. reflexivity.
  - apply payload_decided. vm_compute. reflexivity.
  - intros _. vm_compute. reflexivity.
Defined.
