(* ===== verification/IntegrationProperties.v ===== *)
(** IntegrationProperties: the theorems about candidates, combined verification
    and the integration transaction. *)
From S2P Require Import Prelude Text Json Ids ScmTypes Domain Effects Lists GitTransaction Verification Integration IntegrationDriver IntegrationSaga Sample IntegrationSample.

(** * Theorems *)

(** C18: All or nothing. Take a transaction made from a plan whose repositories
    share no refs, and any sequence of driver calls whose event is appended, of
    calls whose event is lost or that throw, and of moves of other writers, who
    keep off the candidates and off the refs already applied. A further call
    moves at most one ref, of the entry in focus while applying or compensating,
    between its expected commit and its candidate. When the state is applied,
    verification of this transaction is durable and every ref is at the candidate
    of its entry, a merge of the planned commits; when it is compensated, no ref
    is at its candidate, and every ref that was applied is back at the expected
    commit. *)
Theorem integration_all_or_nothing {D : Digest} {C : Collation} {W} `{GitHost W} `{VerificationHost W} `{IntegrationHost W}
    (apart : text -> text -> Prop) (refs : refs_of W) `{!GitRefs apart refs} `{!Contained refs} plan event p0 w0 w p :
  createMultiRepoIntegrationEvent plan = Ok event -> applyMultiRepoIntegrationEvent None event = Ok p0 -> separate apart plan ->
  rtc (saga_step refs) (w0, p0) (w, p) ->
  (forall w' r, reconcileMultiRepoIntegrationOnce p w = (w', r) -> touches apart refs p w w') /\
  (mi_state p = mi_applied ->
     (exists receipt, mi_verification p = Some receipt /\ cr_transactionId receipt = mi_transactionId p /\ cr_repositorySetId receipt = mi_repositorySetId p) /\
     forall x, x ∈ mi_entries p -> exists c, ie_candidate x = Some c /\ candidate_fits (ie_plan x) c /\ ref_of refs w x = Some (rc_candidateOid c)) /\
  (mi_state p = mi_compensated ->
     forall x, x ∈ mi_entries p -> clear_of_candidate refs w x /\ (is_Some (ie_applyResult x) -> ref_of refs w x = Some (ip_expectedOid (ie_plan x)))).
Proof.
  intros Hc Hp Hsep Hs. pose proof (saga_steps_wf apart refs _ _ (created_saga apart refs w0 _ _ _ Hc Hp Hsep) Hs) as Hw.
  split; [|exact (saga_all_or_nothing apart refs w p Hw)].
  intros w' r Hr. by destruct (after_run _ _ _ _ _ (reconcile_spec apart refs p w (saga_driven _ _ _ Hw)) Hr).
Qed.

(** C20: The states of a transaction are backed, whoever wrote its history. In
    every history the reducer accepts the entries are those of the plan in their
    order; a recorded candidate is for its entry; an applied entry was seen at its
    candidate; from [prepared] on every entry has a candidate; from [verified] on
    there is a receipt of this transaction and repository set, and not before;
    nothing is applied before [applying]; a transaction that is compensating has
    applied something, and one that is compensated has undone all of it. And an
    ended transaction does not change: an event it takes leaves it as it is, or
    repeats that recovery is required. *)
Theorem integration_states_backed {D : Digest} {C : Collation} events p :
  reduceMultiRepoIntegrationEvents events = Ok p ->
  integration_wf p /\
  forall event p', terminal (mi_state p) = true -> applyMultiRepoIntegrationEvent (Some p) event = Ok p' ->
    p' = p \/ (mi_state p = mi_recovery_required /\ mi_state p' = mi_recovery_required /\ mi_entries p' = mi_entries p /\ mi_verification p' = mi_verification p).
Proof.
  intros Hh. split; [by eapply integration_history_wf|]. intros event p' Ht Hp. by eapply ended_integration.
Qed.

(** C21: Swapping a candidate in and out is compare-and-swap. Preparing moves no
    ref and returns a commit of its own for exactly the request, while the ref was
    at the expected commit. Applying moves at most the target ref, from the
    expected commit to the candidate: when it reports applied the ref is there,
    when it reports already applied it was there, when it refuses nothing moved
    and the ref is where it says, and it reports an unknown outcome only of a ref
    that was at the expected commit. Compensating is its mirror image. *)
Theorem candidate_swaps_exact {W} `{GitHost W} (apart : text -> text -> Prop) (refs : refs_of W) `{!GitRefs apart refs} :
  (forall request w, after (prepareRepositoryCandidate request) w (fun w' r => same_refs refs w w' /\ prepared_result refs request w' r)) /\
  (forall repository c w, after (applyRepositoryCandidate repository c) w (applied_result apart refs (ri_canonicalRoot repository) c w)) /\
  (forall repository c w, after (compensateRepositoryCandidate repository c) w (compensated_result apart refs (ri_canonicalRoot repository) c w)).
Proof.
  split; [|split].
  - intros request w. apply (prepareRepositoryCandidate_spec apart refs).
  - intros repository c w. by apply applyRepositoryCandidate_spec.
  - intros repository c w. by apply compensateRepositoryCandidate_spec.
Qed.

(** C22: A receipt certifies a whole verification. An outcome of the executor is
    verified exactly when it has no reason, and then every candidate was observed
    exact, every command was run once, in order, under the manifest of the plan,
    trusted and with exit code 0, and every candidate was observed exact again. A
    receipt is made only of a verified outcome; with hexadecimal digests it is
    valid for the plan that was run, and a plan it is valid for has the same
    transaction, repository set, manifest digest and number of commands. *)
Theorem receipt_certifies_verification {D : Digest} {C : Collation} {W} `{VerificationHost W} plan environment (w w' : W) o :
  executeCombinedVerification plan environment w = (w', Ok o) ->
  outcome_means plan environment w w' o /\
  forall at_ receipt, createCombinedVerificationReceipt o at_ = Ok receipt ->
    co_reasonCode o = None /\
    ((forall t, digest (sha256Text t) = true) -> verifyCombinedVerificationReceipt plan receipt = Ok tt) /\
    forall plan', verifyCombinedVerificationReceipt plan' receipt = Ok tt ->
      vp_transactionId plan' = vp_transactionId plan /\ vp_repositorySetId plan' = vp_repositorySetId plan /\
      vp_manifestDigest plan' = vp_manifestDigest plan /\ length (vp_commands plan') = length (vp_commands plan).
Proof.
  intros Hr. pose proof (after_run _ _ _ _ _ (executeCombinedVerification_spec plan environment w) Hr) as Ho. cbn in Ho. split; [done|].
  intros at_ receipt Hc. destruct Ho as [Epl Ho]. pose proof (createCombinedVerificationReceipt_Ok _ _ _ Hc) as (Hs & Ht & Hl & E1 & E2 & E3 & E4 & E5).
  rewrite Epl in *. split_and!.
  - destruct (co_reasonCode o); [done|done].
  - intros Hhex. apply verifyCombinedVerificationReceipt_Ok. rewrite E4, E5. split_and!; try done.
    + by rewrite length_imap.
    + apply forallb_forall. intros d [i Hi]%list_elem_of_In%list_elem_of_lookup. rewrite list_lookup_imap in Hi.
      apply fmap_Some in Hi as (r & _ & ->). apply Hhex.
    + unfold createCombinedVerificationReceipt in Hc. run. subst receipt. by rewrite Epl.
  - intros plan' (F1 & F2 & F3 & _ & F5 & _)%verifyCombinedVerificationReceipt_Ok. split_and!; try congruence.
    rewrite E5, length_imap in F5. congruence.
Qed.

(** * Witnesses *)

Lemma samplePlan_separate : separate (fun a b => a <> b) samplePlan.
Proof. intros a b Ha Hb Hne. cbn in Ha, Hb. rewrite !elem_of_cons, elem_of_nil in Ha, Hb. destruct Ha as [->|[->|[]]], Hb as [->|[->|[]]]; try done; by intros ?%(f_equal length). Qed.

Definition applied_world : SampleWorld := played.1.1.
Definition applied_events : list MultiRepoIntegrationEventV1 := created_event :: played.1.2.
Definition applied_state : MultiRepoIntegrationProjectionV1 := played.2.

Lemma applied_steps : rtc (saga_step (D := versionDigest) sample_refs) (sampleStart, created_state) (applied_world, applied_state).
Proof. exact (proj1 (play_steps (D := versionDigest) sample_refs _ _ _ _ _ _ (surjective_triple played))). Qed.

Lemma applied_history : reduceMultiRepoIntegrationEvents (D := versionDigest) applied_events = Ok applied_state.
Proof.
  pose proof (proj2 (play_steps (D := versionDigest) sample_refs _ _ _ _ _ _ (surjective_triple played))) as Hf. unfold reduceMultiRepoIntegrationEvents, applied_events.
  cbn [fold_result]. rewrite (proj2 sample_created). cbn [mbind result_bind]. by rewrite Hf.
Qed.

Lemma applied_ends : mi_state applied_state = mi_applied /\ length applied_events = 10%nat.
Proof. split; by_eval. Qed.

Lemma integration_all_or_nothing_witness :
  mi_state applied_state = mi_applied /\
  forall x, x ∈ mi_entries applied_state -> exists c, ie_candidate x = Some c /\ candidate_fits (ie_plan x) c /\ ref_of sample_refs applied_world x = Some (rc_candidateOid c).
Proof.
  split; [exact (proj1 applied_ends)|].
  destruct (integration_all_or_nothing (D := versionDigest) (fun a b => a <> b) sample_refs samplePlan created_event created_state sampleStart applied_world applied_state
    (proj1 sample_created) (proj2 sample_created) samplePlan_separate applied_steps) as (_ & Happlied & _).
  exact (proj2 (Happlied (proj1 applied_ends))).
Defined.

(** A whole history, up to an applied transaction. *)
Lemma integration_states_backed_witness :
  reduceMultiRepoIntegrationEvents (D := versionDigest) applied_events = Ok applied_state /\ length applied_events = 10%nat /\ integration_wf applied_state /\
  forall event p', applyMultiRepoIntegrationEvent (D := versionDigest) (Some applied_state) event = Ok p' -> mi_state p' = mi_applied.
Proof.
  split; [exact applied_history|]. split; [exact (proj2 applied_ends)|].
  destruct (integration_states_backed (D := versionDigest) _ _ applied_history) as [Hwf Hend]. split; [exact Hwf|]. intros event p' Ha.
  assert (terminal (mi_state applied_state) = true) as Ht by (rewrite (proj1 applied_ends); reflexivity).
  destruct (Hend event p' Ht Ha) as [->|(Hs & _)]; [exact (proj1 applied_ends)|]. pose proof (proj1 applied_ends). congruence.
Defined.

Definition sampleVerification : CombinedVerificationPlanV1 :=
  match materializeCombinedVerificationPlan (planned_input samplePlan) with
  | Ok plan => plan
  | Err _ => {| vp_transactionId := ""; vp_repositorySetId := ""; vp_entries := []; vp_commands := []; vp_environmentDigest := ""; vp_manifestDigest := "" |}
  end.

Definition sampleOutcome : CombinedVerificationOutcome :=
  match (executeCombinedVerification sampleVerification (il_verifyEnvironment samplePlan) tt).2 with
  | Ok o => o
  | Err _ => outcome vs_failed sampleVerification [] None
  end.

Lemma receipt_certifies_verification_witness :
  executeCombinedVerification sampleVerification (il_verifyEnvironment samplePlan) tt = (tt, Ok sampleOutcome) /\
  outcome_means sampleVerification (il_verifyEnvironment samplePlan) tt tt sampleOutcome /\
  is_ok (createCombinedVerificationReceipt sampleOutcome "2026-01-01T00:00:00.000Z") = true.
Proof.
  assert (executeCombinedVerification sampleVerification (il_verifyEnvironment samplePlan) tt = (tt, Ok sampleOutcome)) as Ho by by_eval.
  split; [exact Ho|]. split; [|by_eval]. exact (proj1 (receipt_certifies_verification _ _ _ _ _ Ho)).
Defined.

Definition sampleCandidate : RepositoryCandidateV1 := {|
  rc_repositoryId := "lib"; rc_targetRef := integrationRef; rc_expectedOid := expectedCommit; rc_childOid := childCommit;
  rc_candidateOid := candidateCommit; rc_treeOid := sampleTree; rc_parents := (expectedCommit, childCommit) |}.

Lemma candidate_swaps_exact_witness :
  applied_result (fun a b => a <> b) sample_refs (text_of_string "/repos/lib") sampleCandidate sampleStart
    (applyRepositoryCandidate (sample_repository "lib") sampleCandidate sampleStart).1 (Ok (cas_applied candidateCommit)).
Proof.
  pose proof (proj1 (proj2 (candidate_swaps_exact (fun a b => a <> b) sample_refs)) (sample_repository "lib") sampleCandidate sampleStart) as Ha.
  unfold after in Ha.
  assert ((applyRepositoryCandidate (sample_repository "lib") sampleCandidate sampleStart).2 = Ok (cas_applied candidateCommit)) as Hr by by_eval.
  rewrite Hr in Ha. exact Ha.
Defined.
