(* ===== verification/OrchestrationProperties.v ===== *)
(** OrchestrationProperties: the theorems about publications, about the durable
    facts of a multi-repository run, and about the run over its journal. *)
From S2P Require Import Prelude Text Json Ids ScmTypes ScmSchema SchedulerEvents Scheduler Domain Dag Effects Lists GitTransaction Verification Integration IntegrationDriver IntegrationSaga Publication RunPlan Canonical CanonicalProjection Journal Orchestration OrchestrationFacts Sample IntegrationSample OrchestrationSample.

(** * Theorems *)

(** C23: A run survives its restarts. Take a journal that keeps its contract and
    whose other writers append no event of this transaction, repositories that
    share no refs, and durable facts that show no transaction of the task's lease
    or one the repositories agree with. Then whatever [runIntegration] returns or
    throws, the durable facts it leaves show again no transaction or one the
    repositories agree with, so that the next run starts from the same
    assumption: where they can be projected and the transaction is applied, its
    verification is durable and every ref is at its candidate; where it is
    compensated, no ref is at its candidate and every ref that was applied is
    back. When it returns, the transaction it returns has ended and is the one in
    the journal. *)
Theorem integration_survives_restarts {D : Digest} {C : Collation} {Z0 : ZodUrl}
    {W} `{CanonicalJournal W} `{GitHost W} `{VerificationHost W} `{IntegrationHost W} `{AuthorityManager W}
    (apart : text -> text -> Prop) (refs : refs_of W) (journal_facts : W -> list MultiRepositoryCanonicalFactV1) (tx : string)
    `{!GitRefs apart refs} `{!Contained refs} `{!JournalContract journal_facts (elsewhere tx)} `{!JournalApart refs journal_facts}
    plan task lease execution members p w :
  transaction_id plan task lease = tx ->
  (forall requested, integrationPlan plan task execution lease members p = Ok requested -> separate apart requested) ->
  journal_safe apart refs journal_facts tx w -> projectMultiRepositoryCanonicalFacts (journal_facts w) = Ok p ->
  after (runIntegration plan task lease execution members p) w (fun w' r =>
    journal_safe apart refs journal_facts tx w' /\
    (forall p' i, projectMultiRepositoryCanonicalFacts (journal_facts w') = Ok p' -> cp_integrations p' !! tx = Some i -> all_or_nothing refs w' i) /\
    match r with
    | Ok (p', i) => projectMultiRepositoryCanonicalFacts (journal_facts w') = Ok p' /\ cp_integrations p' !! tx = Some i /\ terminal (mi_state i) = true
    | Err _ => True
    end).
Proof.
  intros Etx Hsep Hsafe Hp. eapply after_mono; [by apply (runIntegration_safe apart refs journal_facts tx)|].
  intros w' r [Hs Hr]. split; [done|]. split; [|done]. intros p' i Hp' Hi. destruct Hs as (o & Hd & Ho). specialize (Hd _ Hp').
  rewrite Hi in Hd. destruct (Ho i (eq_sym Hd)) as [Hw _]. by apply (saga_all_or_nothing apart refs).
Qed.

(** C19: The loop of an integration ends. Take a journal that keeps its contract
    and whose other writers append no event of this transaction, and a transaction
    that the durable facts show and the repositories agree with. It has at most
    3n + 5 events before it for n repositories, which is less than the loop's
    bound for every plan that is accepted. The loop over the journal returns an
    ended transaction, the one in the journal, reached from there by calls and
    appended events; or it throws what the lease, git, the receipt or the journal
    threw. It never runs out of transitions, unless the id of an event that a call
    in the loop returned is that of another event or fact in the journal. Over a
    journal that nobody else writes and that does not fail, while the task holds
    its lease, it throws only what the lease, git or the receipt threw, unless the
    journal's schema refuses the fact of a returned event, the journal is full, or
    the id is taken. *)
Theorem integration_loop_ends {D : Digest} {C : Collation} {Z0 : ZodUrl}
    {W} `{CanonicalJournal W} `{GitHost W} `{VerificationHost W} `{IntegrationHost W} `{AuthorityManager W}
    (apart : text -> text -> Prop) (refs : refs_of W) (journal_facts : W -> list MultiRepositoryCanonicalFactV1) (tx : string)
    `{!GitRefs apart refs} `{!Contained refs} `{!JournalContract journal_facts (elsewhere tx)} `{!JournalApart refs journal_facts}
    plan task lease p i w :
  journal_safe apart refs journal_facts tx w -> projectMultiRepositoryCanonicalFacts (journal_facts w) = Ok p -> cp_integrations p !! tx = Some i ->
  (events_left i <= 3 * length (il_entries (mi_plan i)) + 5)%nat /\ (events_left i < maximumTransitionsPerTask)%nat /\
  forall transitions, (events_left i < transitions)%nat ->
    after (drive_integration plan transitions task lease tx p i) w (fun w' r =>
      match r with
      | Ok (p', i') => projectMultiRepositoryCanonicalFacts (journal_facts w') = Ok p' /\ cp_integrations p' !! tx = Some i' /\
          terminal (mi_state i') = true /\ rtc (saga_step refs) (w, i) (w', i')
      | Err t => drive_throws t \/ stuck refs plan task lease w i (clashes journal_facts tx)
      end /\
      (journal_quiet journal_facts plan -> plan_matches plan p = true -> leased task lease p -> forall t, r = Err t ->
        (exists t', t = ot_integration t' /\ driver_throws t') \/ stuck refs plan task lease w i (refused journal_facts tx))).
Proof.
  intros (o & Hd & Ho) Hp Hi. pose proof (Hd _ Hp) as Eo. rewrite Hi in Eo. subst o. destruct (Ho _ eq_refl) as [Hw Ht].
  destruct (events_left_bound i (saga_driven _ _ _ Hw)) as [Hb Hn]. split; [done|]. split; [unfold maximumTransitionsPerTask; lia|]. intros transitions Hl.
  apply after_and.
  - eapply after_mono; [apply after_and; [by apply (drive_integration_spec apart refs journal_facts tx)|by apply (drive_integration_ends apart refs journal_facts tx)]|].
    intros w' [[p' i']|t] [(j & (Hd' & Hs & _) & Hr) Hends]; [|by apply Hends]. destruct Hr as (Hp' & -> & Hterm). split; [done|]. split; [by apply Hd'|done].
  - unfold after. intros Hq Hm Hlease. by apply (drive_integration_quiet apart refs journal_facts tx).
Qed.

(** C24: The projection of the durable facts is the composition of its parts, and
    leaves none of them out. When the facts of a journal can be projected, all of
    them are read; those taken are the first of each id, in their order, and every
    other fact has the id and the digest of one that was taken. The scheduler of
    the projection is the fold of the scheduler events among them, and each
    integration and publication the fold of the events of its transaction; the
    plan is the one they register; worktree groups, workers, commit intents, heads
    and receipts are the latest fact of their key; and the seen ids are those of
    the facts with their digests. So every integration and every publication in
    it has the invariants of its reducer. *)
Theorem canonical_facts_compose {D : Digest} {C : Collation} {Z0 : ZodUrl} facts p :
  projectMultiRepositoryCanonicalFacts facts = Ok p ->
  exists parsed, mapM parseMultiRepositoryCanonicalFact facts = Some parsed /\
    let taken := distinct_facts [] parsed in
    NoDup (List.map fact_id taken) /\ sublist taken parsed /\
    Forall (fun f => exists g, g ∈ taken /\ fact_id g = fact_id f /\ factDigest g = factDigest f) parsed /\
    composed taken p /\ registered taken p /\
    (forall k d, cp_seenFactIds p !! k = Some d <-> exists f, f ∈ taken /\ fact_id f = k /\ factDigest f = d) /\
    (forall tx i, cp_integrations p !! tx = Some i -> integration_wf i) /\
    (forall tx b, cp_publications p !! tx = Some b -> published_wf b).
Proof.
  intros (parsed & Hm & Hh & Hall)%projected_history. exists parsed. split; [done|]. cbn. split; [apply distinct_facts_ids|]. split; [apply distinct_facts_sublist|].
  split; [eapply Forall_impl; [exact Hall|]; intros f; by apply canonical_history_seen|]. split; [by apply history_composed|]. split; [by apply history_registered|].
  split; [by apply canonical_history_seen|]. split; intros tx x; [by eapply history_integrations|by eapply history_publications].
Qed.

(** C25: Every durable fact was fenced, and nothing is published that is not
    integrated. The facts that the projection takes are the first of each id in the
    journal. Each was new and, in what came before it, had what its kind needs: a plan comes first and with its own
    digest; worktrees, workers, commit intents and integration events come under a
    lease that the task of that generation holds, for its attempt or its
    repository set; a head is the one its commit intent names. And every
    publication was made for the receipt of a transaction that stands applied,
    verified as the receipt says, with the digest of the receipt. *)
Theorem durable_facts_fenced {D : Digest} {C : Collation} {Z0 : ZodUrl} facts p :
  projectMultiRepositoryCanonicalFacts facts = Ok p ->
  exists parsed, mapM parseMultiRepositoryCanonicalFact facts = Some parsed /\
    let taken := distinct_facts [] parsed in
    canonical_history taken p /\
    (forall before f later, taken = before ++ f :: later -> exists p1, canonical_history before p1 /\ fenced p1 f) /\
    (forall tx b, cp_publications p !! tx = Some b -> exists g, multirepo_local_integration_receipted g ∈ taken /\
       pbl_localIntegrationReceiptDigest (pbp_plan b) = lr_receiptDigest g /\ receipt_stands p g /\ receipt_digested g).
Proof.
  intros (parsed & Hm & Hh & _)%projected_history. exists parsed. split; [done|]. cbn. split; [done|]. split.
  - intros before f later E. rewrite E in Hh. by eapply history_fenced.
  - intros tx b Hb. destruct (history_receipted _ _ Hh) as [H1 _ H3]. destruct (H3 _ _ Hb) as (g & Hg & E). destruct (H1 _ Hg) as [Hst Hd].
    by exists g.
Qed.

(** C26: An append takes effect at most once. Whatever other writers append in
    between and however the journal fails, [appendCanonical] leaves behind what
    was there, what others appended, and at most one fact of its own, the last.
    When it returns, the projection is that of the durable facts, and either the
    very fact was there before and nothing was appended, or its id was not there
    and it is the last fact now. *)
Theorem append_at_most_once {D : Digest} {C : Collation} {Z0 : ZodUrl} {W} `{CanonicalJournal W}
    (journal_facts : W -> list MultiRepositoryCanonicalFactV1) (foreign : MultiRepositoryCanonicalFactV1 -> Prop)
    `{!JournalContract journal_facts foreign} plan fact w :
  after (appendCanonical plan fact) w (fun w' r =>
    appended_at_most journal_facts foreign fact w w' /\ append_result journal_facts foreign plan fact w w' r).
Proof. apply (append_loop_spec journal_facts foreign). Qed.

(** C27: A run plan is authorized. When it materializes, no repository overlaps the
    workspace, every task has the execution the request gives for it, its
    repositories are within the scope of its role and of its provider, and in each
    of them it works on a valid branch of its own and integrates into another
    valid branch that is neither the default nor protected; a publication is
    approved and covers exactly the repositories of the task; and the digest of
    the plan is that of its contents. *)
Theorem run_plan_authorized {D : Digest} {C : Collation} {L : LowerCase} {U : UrlApi} request resolveIdentity plan :
  materializeMultiRepositoryRunPlan request resolveIdentity = Ok plan -> plan_authorized request plan.
Proof. apply materialized_authorized. Qed.

(** C28: The states of a publication are backed and final. In every history the
    reducer accepts the entries are those of the plan in their order; a recorded
    branch is at the candidate of its entry, a pull request has its branch and a
    cross-link its pull request; a published publication has all of them, and one
    that requires recovery has its reason and a failure that is not retryable.
    An event changes at most the entry it names: what it records there, a branch,
    a pull request or a cross-link, takes the place of a record of the same kind,
    the other records keep their values, and the last failure becomes that of the
    event, if it has one, or is cleared. So nothing that is recorded is ever lost.
    And an ended publication is left as it is by every event it takes. *)
Theorem publication_states_backed {D : Digest} {C : Collation} {U : UrlApi} events p :
  publication_history events p ->
  published_wf p /\
  forall event p', applyMultiRepoPublicationEvent (Some p) event = Ok p' ->
    pbp_plan p' = pbp_plan p /\ Forall2 (entry_moves (pbv_body event)) (pbp_entries p) (pbp_entries p') /\
    (published_terminal (pbp_state p) = true -> p' = p).
Proof.
  intros Hh. split; [by eapply publication_history_wf|]. intros event p' Ha. destruct (apply_publication_moves _ _ _ Ha) as [Hp He].
  split; [done|]. split; [done|]. intros Ht. by eapply ended_publication.
Qed.

(** C29: Effects on the remotes come in order. A call of the publication's driver
    asks the adapter for the next effect and for nothing else, and for nothing
    when the publication has ended: for a branch of an entry that has none, for a
    pull request only when every entry has its branch, for a cross-link only when
    every entry has its branch and its pull request, with the artifacts of all
    of them. The event it returns is of the current version and answers what was
    asked. *)
Theorem publication_effects_ordered {D : Digest} {C : Collation} {U : UrlApi} {W} `{PublicationAdapter W} p (w : W) :
  (reconcileMultiRepoPublicationOnce p w).1 =
    (if published_terminal (pbp_state p) then w else match next_ask p with Some a => perform a w | None => w end) /\
  (forall a, next_ask p = Some a -> ask_in_order p a) /\
  after (reconcileMultiRepoPublicationOnce p) w (fun _ r => call_result p r).
Proof.
  split; [apply reconcile_asks|]. split; [intros a; apply next_ask_in_order|]. apply reconcile_publication_spec.
Qed.

(** * Witnesses *)

Lemma ready_transaction_safe :
  journal_safe (D := mixing) (fun a b => a <> b) run_refs rw_facts (transaction_id (D := mixing) (rs_plan ready) (rs_task ready) (rs_lease ready)) (rs_world ready).
Proof. exact (journal_safe_absent (D := mixing) _ _ _ _ _ _ ready_projected ready_no_transaction). Qed.

(** A plan with one repository has no two that could share refs. *)
Lemma single_separate (r : result OrchestrationThrow MultiRepoIntegrationPlanV1) requested :
  match r with Ok p => length (il_entries p) = 1%nat | Err _ => False end -> r = Ok requested -> separate (fun a b => a <> b) requested.
Proof.
  intros Hr ->. destruct (il_entries requested) as [|e [|e' l]] eqn:El; [done| |done].
  intros a b Ha Hb Hne. rewrite El in Ha, Hb. apply list_elem_of_singleton in Ha as ->, Hb as ->. done.
Qed.

Lemma ready_plan_separate requested :
  integrationPlan (D := mixing) (rs_plan ready) (rs_task ready) ready_execution (rs_lease ready) run_members ready_projection = Ok requested ->
  separate (fun a b => a <> b) requested.
Proof. apply single_separate. by_eval. Qed.

Lemma integration_survives_restarts_witness :
  after (runIntegration (D := mixing) (rs_plan ready) (rs_task ready) (rs_lease ready) ready_execution run_members ready_projection) (rs_world ready) (fun w' _ =>
    forall p' i, projectMultiRepositoryCanonicalFacts (D := mixing) (rw_facts w') = Ok p' ->
      cp_integrations p' !! transaction_id (D := mixing) (rs_plan ready) (rs_task ready) (rs_lease ready) = Some i -> all_or_nothing run_refs w' i).
Proof.
  eapply after_mono; [apply (integration_survives_restarts (D := mixing) (fun a b => a <> b) run_refs rw_facts _ (rs_plan ready) (rs_task ready) (rs_lease ready)
    ready_execution run_members ready_projection (rs_world ready) eq_refl ready_plan_separate ready_transaction_safe ready_projected)|].
  intros w' r (_ & Hall & _). exact Hall.
Defined.

Lemma begun_safe :
  journal_safe (D := mixing) (fun a b => a <> b) run_refs rw_facts begun_tx begun_world.
Proof.
  apply (journal_safe_present (D := mixing) _ _ _ _ begun_projection _ begun_integration begun_projected begun_transaction); [|by_eval].
  apply (created_saga (D := mixing) (fun a b => a <> b) run_refs begun_world begun_plan begun_event begun_integration (proj1 begun_created) (proj2 begun_created)).
  apply (single_separate (Ok begun_plan)); [by_eval|reflexivity].
Qed.

Lemma integration_loop_ends_witness :
  journal_quiet (D := mixing) rw_facts (rs_plan ready) /\
  after (drive_integration (D := mixing) (rs_plan ready) maximumTransitionsPerTask (rs_task ready) (rs_lease ready) begun_tx begun_projection begun_integration) begun_world (fun w' r =>
    match r with
    | Ok (p', i') => terminal (mi_state i') = true /\ rtc (saga_step (D := mixing) run_refs) (begun_world, begun_integration) (w', i')
    | Err t => (exists t', t = ot_integration t' /\ driver_throws t') \/
        stuck (D := mixing) run_refs (rs_plan ready) (rs_task ready) (rs_lease ready) begun_world begun_integration (refused rw_facts begun_tx)
    end).
Proof.
  assert (journal_quiet (D := mixing) rw_facts (rs_plan ready)) as Hq by (apply run_quiet; by_eval). split; [exact Hq|].
  destruct (integration_loop_ends (D := mixing) (fun a b => a <> b) run_refs rw_facts begun_tx (rs_plan ready) (rs_task ready) (rs_lease ready)
    begun_projection begun_integration begun_world begun_safe begun_projected begun_transaction) as (_ & Hl & Hloop).
  eapply after_mono; [exact (Hloop _ Hl)|]. intros w' [[p' i']|t] [Hr Hquiet]; [by destruct Hr as (_ & _ & Hr)|].
  apply Hquiet; [exact Hq|by_eval|apply has_is_Some; by_eval|reflexivity].
Defined.

Lemma canonical_facts_compose_witness : exists parsed,
  mapM parseMultiRepositoryCanonicalFact (rw_facts (rs_world ready)) = Some parsed /\
  reduceMultiRepoSchedulerEvents (D := mixing) (scheduler_events (distinct_facts [] parsed)) = Ok (cp_scheduler ready_projection) /\
  registered (distinct_facts [] parsed) ready_projection.
Proof.
  destruct (canonical_facts_compose (D := mixing) _ _ ready_projected) as (parsed & Hm & _ & _ & _ & Hc & Hr & _). exists parsed. split; [exact Hm|].
  split; [exact (composed_scheduler _ _ Hc)|exact Hr].
Defined.

Lemma durable_facts_fenced_witness : exists parsed, canonical_history (D := mixing) (distinct_facts [] parsed) ready_projection /\
  (forall before f later, distinct_facts [] parsed = before ++ f :: later -> exists p1, canonical_history (D := mixing) before p1 /\ fenced (D := mixing) p1 f).
Proof.
  destruct (durable_facts_fenced (D := mixing) _ _ ready_projected) as (parsed & _ & Hh & Hf & _). exists parsed. split; [exact Hh|exact Hf].
Defined.

Definition late_fact : MultiRepositoryCanonicalFactV1 := multirepo_scheduler_transitioned "late" {|
  me_seq := 6; me_eventId := "late"; me_occurredAt := sampleTime 6; me_taskId := "t1"; me_taskGeneration := 1; me_payload := scheduler_task_dirtied DIRTY_RETRY |}.

Lemma append_at_most_once_witness :
  after (appendCanonical (D := mixing) (rs_plan ready) late_fact) (rs_world ready)
    (fun w' _ => appended_at_most rw_facts (fun _ => False) late_fact (rs_world ready) w').
Proof. eapply after_mono; [apply (append_at_most_once (D := mixing) rw_facts (fun _ => False))|]. intros w' r [Ha _]. exact Ha. Defined.

Lemma run_plan_authorized_witness : exists plan,
  materializeMultiRepositoryRunPlan (D := mixing) run_request run_resolver = Ok plan /\ plan_authorized (D := mixing) run_request plan.
Proof.
  assert (is_ok (materializeMultiRepositoryRunPlan (D := mixing) run_request run_resolver) = true) as Hok by by_eval.
  destruct (materializeMultiRepositoryRunPlan (D := mixing) run_request run_resolver) as [plan|e] eqn:Hp; [|discriminate].
  exists plan. split; [reflexivity|]. exact (run_plan_authorized (D := mixing) _ _ _ Hp).
Defined.

(** A publication over two repositories. *)
Definition published_entry (id : string) : MultiRepoPublicationEntryPlanV1 := {|
  pbe_repositoryId := id; pbe_publicationId := "pub-" +:+ id; pbe_candidateOid := candidateCommit; pbe_localIntegrationRef := integrationRef; pbe_remoteName := "origin";
  pbe_expectedPushUrl := text_of_string ("https://github.com/base/" +:+ id); pbe_remoteRef := integrationRef; pbe_expectedRemoteOid := None;
  pbe_baseRef := text_of_string "refs/heads/main"; pbe_title := text_of_string "title"; pbe_body := text_of_string "body" |}.

Definition publicationSample : MultiRepoPublicationPlanV1 := {|
  pbl_transactionId := "txn-1"; pbl_repositorySetId := zeros; pbl_localIntegrationReceiptDigest := zeros; pbl_policyApproved := true;
  pbl_entries := [published_entry "lib"; published_entry "service"] |}.

Lemma publication_sample_created : exists event p,
  createMultiRepoPublicationEvent (D := versionDigest) publicationSample = Ok event /\ applyMultiRepoPublicationEvent (D := versionDigest) None event = Ok p.
Proof.
  assert (is_ok (createMultiRepoPublicationEvent (D := versionDigest) publicationSample) = true) as Hok by by_eval.
  destruct (createMultiRepoPublicationEvent publicationSample) as [event|c] eqn:Hc; [|discriminate]. exists event. unfold createMultiRepoPublicationEvent in Hc.
  apply bind_Ok in Hc as (plan & Hv & [= <-]). eexists. split; [done|]. cbn. reflexivity.
Qed.

Lemma publication_states_backed_witness : exists event p, publication_history (D := versionDigest) [event] p /\ published_wf p.
Proof.
  destruct publication_sample_created as (event & p & _ & Hp). exists event, p.
  assert (publication_history (D := versionDigest) [event] p) as Hh by (constructor; exact Hp). split; [exact Hh|].
  exact (proj1 (publication_states_backed (D := versionDigest) _ _ Hh)).
Defined.
