(* ===== verification/SteeringProperties.v ===== *)
(** SteeringProperties: the properties of the steering projection
    (src/steering/reducer.ts) and of the steering values of
    src/steering/schema.ts. *)
From S2P Require Import Prelude Text Json Ids ScmTypes ScmSchema ControlEvents EventSchema ControlState ControlReducer ScmReducer ControlApply AttemptLife SteeringSchema SteeringReducer SteeringSnapshot SteeringWf SteeringRestore SteeringStep SteeringApply SteeringHistory SteeringAgreement SteeringCompare CommandIds Sample.

Section properties.
Context {D : Digest} {U : UrlApi} {C : Collation}.

(** C30: replaying from a snapshot is replaying from the start. Reducing a
    history in two parts, the second from the projection the first returned,
    gives the result of reducing it at once, errors included; and every
    projection a reduction returns passes the snapshot check unchanged. *)
Theorem reduction_resumes runId runEpoch before after initial :
  reduceSteeringEvents runId runEpoch (before ++ after) initial
  = (p ← reduceSteeringEvents runId runEpoch before initial; reduceSteeringEvents runId runEpoch after (Some p)) /\
  (forall p, reduceSteeringEvents runId runEpoch before initial = Ok p ->
     restoreSteeringProjection p = Ok p /\ sp_runId p = runId /\ sp_runEpoch p = runEpoch).
Proof.
  assert (forall p, reduceSteeringEvents runId runEpoch before initial = Ok p ->
    steering_wf p /\ sp_runId p = runId /\ sp_runEpoch p = runEpoch) as Hp.
  { intros p H. split; [by eapply reduce_wf|by eapply reduce_run]. }
  split; [|intros p (Hwf & H)%Hp; split; [by apply wf_restore|done]].
  destruct (reduceSteeringEvents runId runEpoch before initial) as [p|err] eqn:E; cbn [mbind result_bind].
  - destruct (Hp p eq_refl) as (Hwf & Hr & He). rewrite (reduce_from _ _ _ _ Hwf Hr He).
    unfold reduceSteeringEvents in *. apply bind_Ok in E as (p0 & -> & E). cbn [mbind result_bind] in *.
    apply bind_Ok in E as ([] & -> & E). cbn [mbind result_bind]. by rewrite fold_result_app, E.
  - unfold reduceSteeringEvents in *. destruct (match initial with None => _ | Some v => _ end) as [p0|]; cbn [mbind result_bind] in *; [|done].
    destruct (ensure _ _); cbn [mbind result_bind] in *; [|done]. by rewrite fold_result_app, E.
Qed.

(** C31: outcomes are final. Over any further accepted history a manifest never
    changes, a command that was admitted is never forgotten, re-admitted or
    edited, and a command that was included, withdrawn, superseded, expired or
    refused keeps that very record. *)
Theorem steering_history_forward runId runEpoch before initial p after q :
  reduceSteeringEvents runId runEpoch before initial = Ok p ->
  reduceSteeringEvents runId runEpoch after (Some p) = Ok q ->
  (forall a m, sp_manifests p !! a = Some m -> sp_manifests q !! a = Some m) /\
  (forall id r, sp_commands p !! id = Some r -> exists r', sp_commands q !! id = Some r' /\
     (if is_pending r then r' = r \/ is_pending r' = false /\ commandOf r' = commandOf r /\ admittedSeqOf r' = admittedSeqOf r
      else r' = r)).
Proof.
  intros Hp Hq. pose proof (reduce_wf _ _ _ _ _ Hp) as Hwf. destruct (reduce_run _ _ _ _ _ Hp) as [Hr He].
  rewrite (reduce_from _ _ _ _ Hwf Hr He) in Hq. apply fold_applied in Hq as (_ & [Hm Hc _] & _); [|done].
  split; [done|]. intros id r (r' & Hr' & Hle)%Hc. exists r'. split; [done|].
  destruct Hle as [->|(-> & ? & ? & ? & _)]; [|by right]. destruct (is_pending r); [by left|done].
Qed.

(** An included command is part of one prompt. The prompt manifest it
    names is recorded and has the command's target, lists the command once and no
    other manifest lists it, the attempt is not below the command's first
    attempt generation, the command was admitted no later than the capture
    cutoff and the cutoff precedes the prompt, and the inclusion is the event
    the position in the manifest calls for. *)
Lemma inclusion_is_bound runId runEpoch events initial p id c a t attemptId attemptGeneration promptSha256 :
  reduceSteeringEvents runId runEpoch events initial = Ok p ->
  sp_commands p !! id = Some (rec_included c a t attemptId attemptGeneration promptSha256) ->
  exists m, sp_manifests p !! attemptId = Some m /\ mf_attemptId m = attemptId /\ NoDup (mf_steeringCommandIds m) /\
    mf_attemptGeneration m = attemptGeneration /\ mf_promptSha256 m = promptSha256 /\ mf_scope m = sc_scope c /\
    (exists i : nat, mf_steeringCommandIds m !! i = Some id /\ t = mf_preparedSeq m + Z.of_nat i + 1) /\
    a <= mf_captureCutoffSeq m < mf_preparedSeq m /\ sc_notBefore c <= attemptGeneration /\
    (forall k m', sp_manifests p !! k = Some m' -> id ∈ mf_steeringCommandIds m' -> k = attemptId).
Proof.
  intros Hp Hid. pose proof (reduce_wf _ _ _ _ _ Hp) as Hwf.
  destruct (included_manifest _ _ _ _ _ _ _ _ Hwf Hid) as (m & Hm & Hg & Hs & Hsc & (i & Hi & Ht) & Ha & Hc & Hn).
  destruct (manifest_ids_NoDup _ _ _ Hwf Hm) as [Hnd Hk]. exists m. split_and!; try done; [by exists i|].
  intros k m' Hkm Hin. eapply (wf_disjoint _ Hwf); [exact Hkm|exact Hm|exact Hin|]. by eapply list_elem_of_lookup_2.
Qed.

(** C32: a prompt and its inclusions are one transaction. After a prompt that
    binds commands is prepared, the only history the reducer accepts is the
    inclusion of those commands in this attempt, one event after the other and
    in the manifest's order; any other event before they are all included is
    refused. *)
Theorem prompt_binding_atomic runId runEpoch before initial p pe payload after q i pe' id :
  reduceSteeringEvents runId runEpoch before initial = Ok p ->
  ev_payload (pe_event pe) = attempt_prompt_prepared payload ->
  reduceSteeringEvents runId runEpoch (pe :: after) (Some p) = Ok q ->
  after !! i = Some pe' -> app_steeringCommandIds payload !! i = Some id ->
  pe_seq pe' = pe_seq pe + 1 + Z.of_nat i /\
  exists included, ev_payload (pe_event pe') = steering_command_included included /\
    sip_attemptId included = app_attemptId payload /\ sip_commandId included = id.
Proof.
  intros Hp Hpe Hq Hi Hid. pose proof (reduce_wf _ _ _ _ _ Hp) as Hwf. destruct (reduce_run _ _ _ _ _ Hp) as [Hr He].
  rewrite (reduce_from _ _ _ _ Hwf Hr He) in Hq. cbn [fold_result] in Hq. apply bind_Ok in Hq as (p1 & H1 & Hq).
  pose proof (apply_wf _ _ _ H1) as Hwf1. apply apply_applied in H1; [|done].
  destruct (prepared_binding _ _ _ _ H1 Hpe) as [m Hb].
  destruct (binding_runs _ _ _ _ _ _ _ Hwf1 Hb Hq _ _ _ Hi Hid) as [Hin Hs]. split; [|exact Hin].
  destruct (applied_scalars _ _ _ H1) as (_ & _ & Hobs). rewrite Hs, Hobs, (applied_seq _ _ _ H1). lia.
Qed.

(** C33: the two reducers agree. On every history both accept, each steering
    fact of the control projection is the view of the steering record of the
    same command, field for field, no command is known to one projection only,
    and the attempts of the control projection are exactly those the steering
    manifests describe, with the same identity and prompt. *)
Theorem projections_agree runId runEpoch events s p :
  reduceControlEvents runId runEpoch events None = Ok s ->
  reduceSteeringEvents runId runEpoch events None = Ok p ->
  c_steering s = steering_view <$> sp_commands p /\
  attempt_identity <$> c_attempts s = manifest_view <$> sp_manifests p /\
  c_headSeq s = sp_observedSeq p.
Proof.
  unfold reduceControlEvents, reduceSteeringEvents. intros Hs H. apply bind_Ok in H as (p0 & Hp0 & H).
  apply bind_Ok in H as ([] & _ & H). assert (steering_wf p0) as Hwf by (unfold emptySteeringProjection in Hp0; by eapply restore_wf).
  destruct (agree_fold _ _ _ _ _ Hwf (agree_empty _ _ _ Hp0) Hs H). done.
Qed.

(** The commands waiting for a prompt are listed in binding order.
    [pendingSteeringCommands] lists exactly the pending commands no manifest
    reserves, each once, and for any number of them a prompt that binds that
    many from the front passes the canonical-order check of
    [attempt.prompt_prepared]. *)
Lemma pending_prefix_bindable runId runEpoch events initial p :
  reduceSteeringEvents runId runEpoch events initial = Ok p ->
  (forall c, c ∈ pendingSteeringCommands p <->
     exists a, requirePending p (sc_commandId c) = Ok (c, a) /\ assertUnreserved p (sc_commandId c) = Ok tt) /\
  NoDup (List.map sc_commandId (pendingSteeringCommands p)) /\
  (forall n e payload scope selected,
     let ids := List.map sc_commandId (take n (pendingSteeringCommands p)) in
     map_result (select_command p e payload scope) ids = Ok selected ->
     differs_from (List.map snd (js_sort by_admission selected)) ids = false).
Proof.
  intros H. pose proof (reduce_wf _ _ _ _ _ H) as Hwf. split_and!.
  - intros c. rewrite pendingSteeringCommands_waiting, list_elem_of_In, in_map_iff. setoid_rewrite <-list_elem_of_In.
    setoid_rewrite elem_of_js_sort. split.
    + intros ([a c'] & <- & Hin). exists a. by apply elem_of_waiting in Hin.
    + intros (a & Hin). exists (a, c). split; [done|]. by apply elem_of_waiting.
  - by apply pending_ids_NoDup.
  - intros n e payload scope selected ids Hs. pose proof (selected_prefix _ _ _ _ _ _ Hwf Hs) as ->.
    rewrite pending_prefix_sorted. unfold ids. rewrite pendingSteeringCommands_waiting, firstn_map, !List.map_map.
    apply differs_from_refl.
Qed.

(** The semantic comparison compares field by field. For two valid
    commands whose canonical texts the digest does not confuse, the comparison
    answers exact only for the same normalised command, and otherwise a conflict
    that names precisely the fields that differ, at least one. *)
Lemma comparison_names_differences o c o' c' t t' r :
  parseSteeringCommand o = Some o' -> parseSteeringCommand c = Some c' ->
  semantic_text (semantic_fields o') = Ok t -> semantic_text (semantic_fields c') = Ok t' ->
  (sha256Text t = sha256Text t' -> t = t') ->
  compareSteeringCommandSemantics o c = Ok r ->
  match r with
  | compare_exact d => o' = c' /\ d = sha256Text t
  | compare_conflict d d' fields => fields = differing_fields o' c' /\ fields <> [] /\ o' <> c' /\ d <> d'
  end.
Proof.
  intros Ho Hc Ht Ht' Hcol H. destruct (compare_spec _ _ _ _ _ Ho Hc H) as (u & u' & Hu & Hu' & Hr).
  rewrite Ht in Hu. injection Hu as <-. rewrite Ht' in Hu'. injection Hu' as <-.
  pose proof (semantic_texts _ _ _ _ Ht Ht') as Heq. destruct r as [d|d d' fields].
  - destruct Hr as [-> Hd]. split; [|done]. by apply Heq, Hcol.
  - destruct Hr as (-> & -> & Hne & ->). assert (o' <> c') as Hdiff by (intros E; apply Hne; f_equal; by apply Heq).
    split_and!; [done| |done|done]. intros E. by apply Hdiff, differing_nil.
Qed.
End properties.

(** Generated command identifiers are canonical and sort by time. With ten
    bytes of entropy, generation succeeds exactly for the timestamps of 48 bits;
    its text is a canonical lower-case UUIDv7 the command schema accepts, and an
    identifier generated at a later millisecond is greater in code-unit order,
    whatever the entropy. *)
Lemma generated_ids_ordered nowMs random later random' :
  Forall is_byte random -> length random = 10%nat -> Forall is_byte random' -> length random' = 10%nat ->
  ((exists id, createSteeringCommandId nowMs random = Ok id) <-> 0 <= nowMs < 2 ^ 48) /\
  (forall id, createSteeringCommandId nowMs random = Ok id ->
     exists s, id = text_of_string s /\ SteeringCommandIdSchema s = true) /\
  (forall id id', createSteeringCommandId nowMs random = Ok id -> createSteeringCommandId later random' = Ok id' ->
     nowMs < later -> text_compare id id' < 0).
Proof.
  intros Hr Hl Hr' Hl'. split; [|split].
  - split.
    + intros [id (Hb & _)%create_layout]; [|done]. exact Hb.
    + intros Hb. unfold createSteeringCommandId.
      assert (isSafeInteger nowMs && (0 <=? nowMs) && (nowMs <=? 281474976710655) = true) as ->.
      { unfold isSafeInteger, MAX_SAFE_INTEGER. rewrite !andb_true_iff, !Z.leb_le. lia. }
      do 11 (destruct random as [|? random]; try discriminate Hl). eexists. reflexivity.
  - intros id (_ & Hu & _)%create_layout; [|done]. exists (string_of_text id). split.
    + symmetry. apply text_of_string_of_text. by eapply uuid_text_bytes.
    + by apply uuid_text_valid.
  - intros id id' H H' Hlt. by eapply create_ordered.
Qed.

(** Bodies stay within their bounds. A body the normaliser returns has no
    carriage return left, holds between 1 and 8192 code points and at most 16384
    bytes of UTF-8, is accepted by the schema of control events, is what the body
    schema makes of it, and is left alone when normalised again. *)
Lemma bodies_bounded value body :
  normalizeSteeringBody value = Ok body ->
  SteeringBodySchema value = Some body /\ normalizeSteeringBody body = Ok body /\ (13 ∉ body) /\
  1 <= Z.of_nat (length (code_points body)) <= STEERING_BODY_MAX_SCALARS /\
  utf8_length body <= STEERING_BODY_MAX_BYTES /\ steeringBodyText body = true.
Proof.
  intros H. apply SteeringBodySchema_normalize in H as Hs.
  assert (normalizeSteeringBody body = Ok body) as Hn by by eapply SteeringBodySchema_normalize, SteeringBodySchema_idemp.
  assert (body = normalize_newlines value) as Hb by by apply SteeringBodySchema_value.
  assert (1 <= Z.of_nat (length (code_points body)) <= STEERING_BODY_MAX_SCALARS /\ utf8_length body <= STEERING_BODY_MAX_BYTES) as [Hc Hu].
  { unfold normalizeSteeringBody in H. rewrite <-Hb in H. destruct (analyzeUnicode 0 body) as [valid scalars] eqn:E. cbn [fst snd] in H.
    run. subst valid. apply analyzeUnicode_count in E. guards. lia. }
  split_and!; try done; try lia; [by rewrite Hb; apply normalize_newlines_cr|].
  assert (length body <> 0)%nat as Hne by (intros E%length_zero_iff_nil; rewrite E in Hc; cbn in Hc; lia).
  unfold steeringBodyText, textlen, STEERING_BODY_MAX_SCALARS, STEERING_BODY_MAX_BYTES in *.
  rewrite !andb_true_iff, !Z.leb_le. lia.
Qed.

(** Steering values are canonical and bounded. With ten bytes of entropy,
    a command identifier is generated exactly for the timestamps of 48 bits; its
    text is a canonical lower-case UUIDv7 the command schema accepts, and an
    identifier generated at a later millisecond is greater in code-unit order,
    whatever the entropy. A body the normaliser returns has no carriage return
    left, holds between 1 and 8192 code points and at most 16384 bytes of UTF-8,
    is accepted by the schema of control events, and is left alone when
    normalised again. *)
Lemma steering_values_bounded :
  (forall nowMs random later random',
     Forall is_byte random -> length random = 10%nat -> Forall is_byte random' -> length random' = 10%nat ->
     ((exists id, createSteeringCommandId nowMs random = Ok id) <-> 0 <= nowMs < 2 ^ 48) /\
     (forall id, createSteeringCommandId nowMs random = Ok id -> exists s, id = text_of_string s /\ SteeringCommandIdSchema s = true) /\
     (forall id id', createSteeringCommandId nowMs random = Ok id -> createSteeringCommandId later random' = Ok id' ->
        nowMs < later -> text_compare id id' < 0)) /\
  (forall value body, normalizeSteeringBody value = Ok body ->
     SteeringBodySchema value = Some body /\ normalizeSteeringBody body = Ok body /\ (13 ∉ body) /\
     1 <= Z.of_nat (length (code_points body)) <= STEERING_BODY_MAX_SCALARS /\
     utf8_length body <= STEERING_BODY_MAX_BYTES /\ steeringBodyText body = true).
Proof. split; [apply generated_ids_ordered|apply bodies_bounded]. Qed.

(** * Witnesses *)

Definition sampleSteering (n : nat) : SteeringProjection :=
  match reduceSteeringEvents "run" "epoch" (take n sampleHistory) None with
  | Ok p => p
  | Err _ => {| sp_runId := ""; sp_runEpoch := ""; sp_observedSeq := 0; sp_commands := ∅; sp_manifests := ∅ |}
  end.

(** The projections before the prompt and after the inclusion, evaluated once. *)
Definition steering6 : SteeringProjection := Eval vm_compute in sampleSteering 6.
Definition steering8 : SteeringProjection := Eval vm_compute in sampleSteering 8.

Lemma steering6_reached : reduceSteeringEvents "run" "epoch" (take 6 sampleHistory) None = Ok steering6.
Proof. by_eval. Qed.

Lemma steering8_resumed : reduceSteeringEvents "run" "epoch" (drop 6 (take 8 sampleHistory)) (Some steering6) = Ok steering8.
Proof. by_eval. Qed.

Lemma steering8_reached : reduceSteeringEvents "run" "epoch" (take 8 sampleHistory) None = Ok steering8.
Proof. by_eval. Qed.

Lemma reduction_resumes_witness :
  reduceSteeringEvents "run" "epoch" (take 6 sampleHistory) None = Ok steering6 /\
  restoreSteeringProjection steering6 = Ok steering6.
Proof.
  split; [exact steering6_reached|].
  apply (proj2 (reduction_resumes "run" "epoch" (take 6 sampleHistory) [] None) steering6). exact steering6_reached.
Defined.

Lemma steering_history_forward_witness :
  reduceSteeringEvents "run" "epoch" (drop 6 (take 8 sampleHistory)) (Some steering6) = Ok steering8 /\
  forall id r, sp_commands steering6 !! id = Some r -> exists r', sp_commands steering8 !! id = Some r' /\
     (if is_pending r then r' = r \/ is_pending r' = false /\ commandOf r' = commandOf r /\ admittedSeqOf r' = admittedSeqOf r
      else r' = r).
Proof.
  split; [exact steering8_resumed|].
  apply (steering_history_forward "run" "epoch" (take 6 sampleHistory) None _ (drop 6 (take 8 sampleHistory)));
    [exact steering6_reached|exact steering8_resumed].
Defined.

Lemma inclusion_is_bound_witness :
  exists c a t n s m, sp_commands steering8 !! Run.c1 = Some (rec_included c a t "a1" n s) /\
  sp_manifests steering8 !! "a1" = Some m /\ mf_scope m = sc_scope c.
Proof.
  assert (exists c a t n s, sp_commands steering8 !! Run.c1 = Some (rec_included c a t "a1" n s)) as (c & a & t & n & s & Hid)
    by (do 5 eexists; by_eval).
  destruct (inclusion_is_bound "run" "epoch" (take 8 sampleHistory) None steering8 Run.c1 c a t "a1" n s) as (m & Hm & H);
    [exact steering8_reached|exact Hid|].
  exists c, a, t, n, s, m. split; [exact Hid|]. split; [exact Hm|]. apply H.
Defined.

Lemma prompt_binding_atomic_witness :
  exists payload, ev_payload (pe_event (sampleAt 6)) = attempt_prompt_prepared payload /\
  pe_seq (sampleAt 7) = pe_seq (sampleAt 6) + 1 + Z.of_nat 0.
Proof.
  eexists. split; [reflexivity|].
  eapply (prompt_binding_atomic "run" "epoch" (take 6 sampleHistory) None steering6 (sampleAt 6) _ (drop 7 (take 8 sampleHistory))
    steering8 0 (sampleAt 7) Run.c1); [exact steering6_reached|reflexivity|exact steering8_resumed|reflexivity|reflexivity].
Defined.

Lemma projections_agree_witness :
  c_steering (sampleProjection 8) = steering_view <$> sp_commands steering8 /\
  attempt_identity <$> c_attempts (sampleProjection 8) = manifest_view <$> sp_manifests steering8 /\
  c_headSeq (sampleProjection 8) = sp_observedSeq steering8.
Proof. apply (projections_agree "run" "epoch" (take 8 sampleHistory)); [by_eval|exact steering8_reached]. Defined.

Lemma pending_prefix_bindable_witness :
  List.map sc_commandId (pendingSteeringCommands steering6) = [Run.c1] /\
  NoDup (List.map sc_commandId (pendingSteeringCommands steering6)).
Proof.
  split; [by_eval|]. apply (pending_prefix_bindable "run" "epoch" (take 6 sampleHistory) None). exact steering6_reached.
Defined.

Definition sampleCommand (body : string) : SteeringCommandV1 := {|
  sc_draft := {|
    sd_target := {| target_scope := {| scope_runId := "run"; scope_runEpoch := "epoch"; scope_taskId := "t1";
      scope_taskGeneration := 1; scope_sessionId := "s1"; scope_sessionGeneration := 1 |};
      target_notBeforeAttemptGeneration := 1 |};
    sd_commandId := Run.c1; sd_kind := kind_steer_next_boundary; sd_sourceKind := source_operator; sd_parentPrincipal := "lead";
    sd_evidenceRefs := []; sd_body := text_of_string body; sd_createdAt := sampleTime 1; sd_expiresAt := None;
    sd_supersedesCommandId := None |};
  sc_bodySha256 := sha256Text (text_of_string body) |}.

Lemma comparison_names_differences_witness :
  exists d d' fields, compareSteeringCommandSemantics (sampleCommand "one") (sampleCommand "two") = Ok (compare_conflict d d' fields) /\
  fields = differing_fields (sampleCommand "one") (sampleCommand "two") /\ fields = ["body"; "bodySha256"].
Proof.
  do 3 eexists. split; [by_eval|]. split; [|reflexivity].
  refine (proj1 (comparison_names_differences (sampleCommand "one") (sampleCommand "two") _ _ _ _ (compare_conflict _ _ _) _ _ _ _ _ _));
    [by_eval|by_eval|by_eval|by_eval|intros H; vm_compute in H; discriminate H|by_eval].
Defined.

Lemma steering_values_bounded_witness :
  (exists id id', createSteeringCommandId 1700000000000 (repeat 255 10) = Ok id /\
     createSteeringCommandId 1700000000001 (repeat 0 10) = Ok id' /\ text_compare id id' < 0) /\
  normalizeSteeringBody [97; 13; 10; 98; 13] = Ok [97; 10; 98; 10] /\ steeringBodyText [97; 10; 98; 10] = true.
Proof.
  split; [|split; [by_eval|]].
  - do 2 eexists. split; [by_eval|]. split; [by_eval|].
    eapply (proj1 steering_values_bounded 1700000000000 (repeat 255 10) 1700000000001 (repeat 0 10)); [..|by_eval|by_eval|lia];
      first [reflexivity|repeat constructor; done].
  - apply (proj2 steering_values_bounded [97; 13; 10; 98; 13]). by_eval.
Defined.
