(* ===== verification/SchedulerProperties.v ===== *)
(** SchedulerProperties: the theorems about the multi-repository scheduler. *)
From S2P Require Import Prelude Text Json Ids ScmTypes ScmSchema ControlEvents EventSchema ControlState ControlReducer SchedulerEvents Scheduler SchedulerLife SchedulerDecisions SchedulerHistory Sample.

(** * A sample history: two tasks, the second depending on the first *)

Definition schedulerEvent (seq : Z) (task : string) (payload : SchedulerPayload) : MultiRepoSchedulerEventV1 := {|
  me_seq := seq; me_eventId := "e" +:+ num_to_string seq; me_occurredAt := sampleTime seq; me_taskId := task; me_taskGeneration := 1;
  me_payload := payload |}.

Definition registration (seq : Z) (task : string) (deps : list string) : MultiRepoSchedulerEventV1 :=
  schedulerEvent seq task (scheduler_task_registered Run.sha ["repo"%string] "provider" deps 0).

Definition sampleLimits : SchedulerConcurrencyLimits := {| cl_global := 1; cl_perProvider := 1; cl_perRepository := 1; cl_perTask := 1 |}.

Definition scheduler_of (events : list MultiRepoSchedulerEventV1) : MultiRepoSchedulerProjectionV1 :=
  match reduceMultiRepoSchedulerEvents events with Ok p => p | Err _ => emptyMultiRepoSchedulerProjection end.

Definition sampleAdmission (p : MultiRepoSchedulerProjectionV1) (task : string) (version seq : Z) : AdmissionInput := {|
  ai_projection := p; ai_taskId := task; ai_expectedVersion := version; ai_repositorySetId := Run.sha;
  ai_roleRepositoryIds := ["repo"%string]; ai_providerRepositoryIds := ["repo"%string]; ai_budgetAvailable := true; ai_limits := sampleLimits;
  ai_lease := {| al_eventId := "e" +:+ num_to_string seq; al_occurredAt := sampleTime seq; al_leaseToken := Run.sha; al_leaseVersion := 1;
    al_attemptId := "a1"; al_ownerId := "owner"; al_ownerIncarnation := "i1"; al_issuedAt := sampleTime seq; al_expiresAt := sampleTime 60 |} |}.

Definition granted (i : AdmissionInput) : MultiRepoSchedulerEventV1 :=
  match decideSchedulerAdmission i with Ok (inr e) => e | _ => registration 1 "t1" [] end.

Definition two_tasks : list MultiRepoSchedulerEventV1 := [registration 1 "t1" []; registration 2 "t2" ["t1"%string]].

Definition first_grant : AdmissionInput := sampleAdmission (scheduler_of two_tasks) "t1" 1 3.

Definition leased_history : list MultiRepoSchedulerEventV1 := two_tasks ++ [granted first_grant].

Definition done_history : list MultiRepoSchedulerEventV1 :=
  leased_history ++ [schedulerEvent 4 "t1" (scheduler_lease_released 2 Run.sha released_completed Run.sha)].

Definition second_grant : AdmissionInput := sampleAdmission (scheduler_of done_history) "t2" 1 5.

Definition full_history : list MultiRepoSchedulerEventV1 := done_history ++ [granted second_grant].

(** * Theorems *)

(** C34: The scheduler implements the lease machine. In a history the reducer
    accepts, a further accepted event is either one the projection has seen,
    and then nothing changes, or it takes the next sequence number and writes
    one task only: a new task in the phase [Waiting] at version 1, or the next
    version of the task of its id and generation, which keeps its registration
    and moves its phase exactly as [phase_next] says. *)
Theorem scheduler_refines_machine `{Digest} events p e p' :
  reduceMultiRepoSchedulerEvents events = Ok p -> applyMultiRepoSchedulerEvent p e = Ok p' ->
  p' = p \/
  (me_seq e = mp_headSeq p + 1 /\ mp_headSeq p' = me_seq e /\
   exists t', mp_tasks p' = <[me_taskId e := t']> (mp_tasks p) /\
     ((mp_tasks p !! me_taskId e = None /\ st_version t' = 1 /\ phase_of t' = Some Waiting) \/
      exists t x x', mp_tasks p !! me_taskId e = Some t /\ st_taskGeneration t = me_taskGeneration e /\
        task_registration t' = task_registration t /\ st_version t' = st_version t + 1 /\
        phase_of t = Some x /\ phase_of t' = Some x' /\ phase_next (me_payload e) x = Some x')).
Proof.
  intros Hr Ha. apply reachable_sched_wf in Hr. apply applyMultiRepoSchedulerEvent_scheduled in Ha.
  destruct (scheduled_write _ _ _ Hr Ha) as [->|(t' & -> & Hid & Hw & Hseq)]; [by left|]. right.
  split; [done|]. split; [done|]. exists t'. split; [cbn; by rewrite Hid|].
  destruct Hw as [|t x x']; [by left|right; by exists t, x, x'].
Qed.

(** C35: Histories governed by admission keep limits and dependencies. When every
    lease is granted by an admission decision on the projection it is applied to,
    the number of live leases stays within the global limit, and those of one
    provider, one repository and one attempt within theirs, whatever other events
    arrive; and a task that is leased, uncertain, completed or failed has only
    completed dependencies. *)
Theorem admission_governs `{Digest} limits events p :
  limits_valid limits = true -> governed limits events p ->
  (Z.of_nat (length (live_leases p)) <= cl_global limits /\
   (forall provider, count (fun l => bool_decide (lease_provider l = provider)) (live_leases p) <= cl_perProvider limits) /\
   (forall id, count (lease_covers id) (live_leases p) <= cl_perRepository limits) /\
   (forall attempt, count (fun l => bool_decide (lease_attempt l = attempt)) (live_leases p) <= cl_perTask limits)) /\
  (forall id t d, mp_tasks p !! id = Some t -> began t = true -> d ∈ st_dependencies t ->
     exists td, mp_tasks p !! d = Some td /\ st_state td = sched_completed).
Proof.
  intros Hl Hg. split; [by eapply governed_counts|]. intros id t d Ht Hb Hd.
  pose proof (governed_dependencies _ _ _ Hg _ _ _ Ht Hb Hd) as Hc. unfold dependency_completed in Hc.
  destruct (obj_get _ _) as [| |td] eqn:E; [done..|]. exists td. split; [by apply obj_get_Own|]. by apply bool_decide_eq_true in Hc.
Qed.

(** Decisions are events the reducer takes. In a history the reducer
    accepts, an admission with a fresh event id and a lease that expires after it
    was issued is accepted and leaves its task leased under the new token; and
    an expired lease is acted on with an accepted event that frees the task only
    if the owner is dead and nothing was dispatched, and otherwise leaves it
    uncertain. Nothing is decided for a lease that has not expired. *)
Lemma decisions_accepted `{Digest} events p :
  reduceMultiRepoSchedulerEvents events = Ok p ->
  (forall i e, ai_projection i = p -> decideSchedulerAdmission i = Ok (inr e) ->
     obj_get (mp_seenEventIds p) (al_eventId (ai_lease i)) = Absent ->
     time_lt (Date_parse (al_issuedAt (ai_lease i))) (Date_parse (al_expiresAt (ai_lease i))) = true ->
     exists p' t', applyMultiRepoSchedulerEvent p e = Ok p' /\ mp_tasks p' = <[ai_taskId i := t']> (mp_tasks p) /\
       phase_of t' = Some (Leased (al_leaseToken (ai_lease i)) false)) /\
  (forall id now status eventId occurredAt e,
     obj_get (mp_seenEventIds p) eventId = Absent -> decideExpiredLease p id now status eventId occurredAt = Ok (Some e) ->
     exists t l p' t', mp_tasks p !! id = Some t /\ st_lease t = Some l /\
       time_lt (Date_parse now) (Date_parse (lf_expiresAt (ls_fields l))) = false /\
       applyMultiRepoSchedulerEvent p e = Ok p' /\ mp_tasks p' = <[id := t']> (mp_tasks p) /\
       phase_of t' = Some (match status, ls_state l with
                           | owner_dead, lease_admitted => Waiting
                           | _, _ => Uncertain (lf_leaseToken (ls_fields l))
                           end)).
Proof.
  intros Hr%reachable_sched_wf. split.
  - intros i e <- (t & Hok)%decideSchedulerAdmission_Ok Hn Hw. destruct (admission_accepted _ _ _ Hr Hok Hn Hw) as (t' & Ha & <- & Hp).
    by exists (withTask (ai_projection i) e t'), t'.
  - intros id now status eventId occurredAt e Hn Hd.
    destruct (expired_accepted _ _ _ _ _ _ _ Hr Hn Hd) as (t & l & t' & Hl & Ha & <- & Hp).
    destruct (expired_lease_Some _ _ _ _ _ Hl) as (Ht & Hlt & Hle & _). by exists t, l, (withTask p e t'), t'.
Qed.

(** Reconciliation is fair. The choice is empty exactly when no task can be
    reconciled. The task it returns is registered and can be reconciled; it is
    passed in front of a task of the same or a higher priority only if it has
    been dirty at least as long, and in front of a task that has been dirty for
    65536 events, whatever the priorities, only if it has been dirty at least
    as long or for 1568 events. *)
Lemma reconciliation_fair `{Digest} `{Collation} events p :
  reduceMultiRepoSchedulerEvents events = Ok p ->
  (chooseNextReconciliation p = None <-> forall id t, mp_tasks p !! id = Some t -> reconcilable t = false) /\
  (forall c, chooseNextReconciliation p = Some c ->
     mp_tasks p !! st_taskId c = Some c /\ reconcilable c = true /\
     forall id t, mp_tasks p !! id = Some t -> reconcilable t = true ->
       exists since_c since_t, st_dirtySinceSeq c = Some since_c /\ st_dirtySinceSeq t = Some since_t /\
         (st_priority c <= st_priority t -> since_c <= since_t) /\
         (65536 <= mp_headSeq p - since_t -> since_c <= since_t \/ 1568 <= mp_headSeq p - since_c)).
Proof.
  intros Hr%reachable_sched_wf. split; [apply chooseNext_None|]. intros c ((idc & Hc) & Hrc & Hmax)%chooseNext_Some.
  split; [by rewrite (sched_keyed _ _ _ (sched_tasks _ Hr _ _ Hc))|]. split; [done|]. intros id t Ht Hrt.
  destruct (reconcilable_since _ _ _ Hr Hc Hrc) as (sc & Hsc & _ & Hpc), (reconcilable_since _ _ _ Hr Ht Hrt) as (s & Hs & _ & Hpt).
  exists sc, s. split; [done|]. split; [done|]. destruct (Hmax _ _ Ht Hrt) as [->|Hle].
  - assert (sc = s) by congruence. lia.
  - eapply urgency_waits; [done..|lia|lia].
Qed.

(** C36: Decisions are events the reducer takes, and the choice is fair. In a
    history the reducer accepts, an admission with a fresh event id and a lease
    that expires after it was issued is accepted and leaves its task leased under
    the new token; an expired lease is acted on with an accepted event that frees
    the task only if the owner is dead and nothing was dispatched, and otherwise
    leaves it uncertain; nothing is decided for a lease that has not expired. The
    next reconciliation is none exactly when no task can be reconciled; the task
    chosen can be reconciled, is passed in front of a task of the same or a higher
    priority only if it has been dirty at least as long, and in front of a task
    that has been dirty for 65536 events, whatever the priorities, only if it has
    been dirty at least as long or for 1568 events. *)
Theorem decisions_accepted_and_fair `{Digest} `{Collation} events p :
  reduceMultiRepoSchedulerEvents events = Ok p ->
  (forall i e, ai_projection i = p -> decideSchedulerAdmission i = Ok (inr e) ->
     obj_get (mp_seenEventIds p) (al_eventId (ai_lease i)) = Absent ->
     time_lt (Date_parse (al_issuedAt (ai_lease i))) (Date_parse (al_expiresAt (ai_lease i))) = true ->
     exists p' t', applyMultiRepoSchedulerEvent p e = Ok p' /\ mp_tasks p' = <[ai_taskId i := t']> (mp_tasks p) /\
       phase_of t' = Some (Leased (al_leaseToken (ai_lease i)) false)) /\
  (forall id now status eventId occurredAt e,
     obj_get (mp_seenEventIds p) eventId = Absent -> decideExpiredLease p id now status eventId occurredAt = Ok (Some e) ->
     exists t l p' t', mp_tasks p !! id = Some t /\ st_lease t = Some l /\
       time_lt (Date_parse now) (Date_parse (lf_expiresAt (ls_fields l))) = false /\
       applyMultiRepoSchedulerEvent p e = Ok p' /\ mp_tasks p' = <[id := t']> (mp_tasks p) /\
       phase_of t' = Some (match status, ls_state l with
                           | owner_dead, lease_admitted => Waiting
                           | _, _ => Uncertain (lf_leaseToken (ls_fields l))
                           end)) /\
  (chooseNextReconciliation p = None <-> forall id t, mp_tasks p !! id = Some t -> reconcilable t = false) /\
  (forall c, chooseNextReconciliation p = Some c ->
     mp_tasks p !! st_taskId c = Some c /\ reconcilable c = true /\
     forall id t, mp_tasks p !! id = Some t -> reconcilable t = true ->
       exists since_c since_t, st_dirtySinceSeq c = Some since_c /\ st_dirtySinceSeq t = Some since_t /\
         (st_priority c <= st_priority t -> since_c <= since_t) /\
         (65536 <= mp_headSeq p - since_t -> since_c <= since_t \/ 1568 <= mp_headSeq p - since_c)).
Proof.
  intros Hr. destruct (decisions_accepted _ _ Hr) as [Ha He]. destruct (reconciliation_fair _ _ Hr) as [Hn Hc]. by split_and!.
Qed.

(** Every event counts once. The events a projection has seen are those of
    its history, its head is the number of their distinct ids and also the sum
    of the versions of its tasks; replaying events of the history, in any order
    and as often as they are delivered, changes nothing; and an event that comes
    with the id of one of them is refused unless its text has the same digest. *)
Lemma events_counted_once `{Digest} events p :
  reduceMultiRepoSchedulerEvents events = Ok p ->
  mp_headSeq p = Z.of_nat (size (list_to_set (List.map me_eventId events) : gset string)) /\
  mp_headSeq p = versions_total (mp_tasks p) /\
  (forall again, (forall e, e ∈ again -> e ∈ events) -> fold_result applyMultiRepoSchedulerEvent p again = Ok p) /\
  (forall e e', e ∈ events -> me_eventId e' = me_eventId e -> MultiRepoSchedulerEventV1Schema e' = true ->
     applyMultiRepoSchedulerEvent p e' = if bool_decide (eventDigest e = eventDigest e') then Ok p else Err SCHED_EVENT_ID_CONFLICT).
Proof.
  intros Hr. pose proof (reachable_sched_wf _ _ Hr) as Hwf. destruct (fold_seen _ _ _ Hr) as [_ Hs]. split_and!.
  - rewrite <-(history_seen _ _ Hr), size_dom. symmetry. apply Hwf.
  - symmetry. apply Hwf.
  - intros again. by apply (replay events).
  - intros e e' He Hid Hv. destruct (Hs e He) as [Hd _]. unfold applyMultiRepoSchedulerEvent, parseMultiRepoSchedulerEvent.
    rewrite Hv, Hid, (proj2 (obj_get_Own _ _ _) Hd). by case_bool_decide.
Qed.

(** * Witnesses *)

Lemma governed_ungranted limits events e p p' :
  governed limits events p -> is_grant e = false -> applyMultiRepoSchedulerEvent p e = Ok p' -> governed limits (events ++ [e]) p'.
Proof. intros Hg He Ha. eapply governed_step; [exact Hg|exact Ha|]. by rewrite He. Qed.

Lemma governed_granted limits events i p p' :
  governed limits events p -> ai_projection i = p -> ai_limits i = limits -> decideSchedulerAdmission i = Ok (inr (granted i)) ->
  applyMultiRepoSchedulerEvent p (granted i) = Ok p' -> governed limits (events ++ [granted i]) p'.
Proof. intros Hg Hp Hl Hd Ha. eapply governed_step; [exact Hg|exact Ha|]. by exists i. Qed.

Lemma leased_history_governed : governed sampleLimits leased_history (scheduler_of leased_history).
Proof.
  apply (governed_granted _ _ first_grant (scheduler_of two_tasks)); [|by_eval..].
  apply (governed_ungranted _ [registration 1 "t1" []] _ (scheduler_of [registration 1 "t1" []])); [|by_eval..].
  apply (governed_ungranted _ [] _ emptyMultiRepoSchedulerProjection); [constructor|by_eval..].
Qed.

Lemma full_history_governed : governed sampleLimits full_history (scheduler_of full_history).
Proof.
  apply (governed_granted _ _ second_grant (scheduler_of done_history)); [|by_eval..].
  apply (governed_ungranted _ leased_history _ (scheduler_of leased_history)); [apply leased_history_governed|by_eval..].
Qed.

Lemma leased_history_reduces : reduceMultiRepoSchedulerEvents leased_history = Ok (scheduler_of leased_history).
Proof. by_eval. Qed.

Lemma full_history_reduces : reduceMultiRepoSchedulerEvents full_history = Ok (scheduler_of full_history).
Proof. by_eval. Qed.

Lemma scheduler_refines_machine_witness :
  reduceMultiRepoSchedulerEvents two_tasks = Ok (scheduler_of two_tasks) /\
  exists p', applyMultiRepoSchedulerEvent (scheduler_of two_tasks) (granted first_grant) = Ok p' /\ (p' = scheduler_of two_tasks \/ mp_headSeq p' = 3).
Proof.
  split; [by_eval|]. eexists. split; [by_eval|].
  destruct (scheduler_refines_machine two_tasks (scheduler_of two_tasks) (granted first_grant) (scheduler_of leased_history)) as [H|(_ & H & _)];
    [by_eval|by_eval|left; exact H|right; exact H].
Defined.

Lemma admission_governs_witness :
  Z.of_nat (length (live_leases (scheduler_of full_history))) <= cl_global sampleLimits /\
  exists t td, mp_tasks (scheduler_of full_history) !! "t2"%string = Some t /\ began t = true /\
    mp_tasks (scheduler_of full_history) !! "t1"%string = Some td /\ st_state td = sched_completed.
Proof.
  destruct (admission_governs sampleLimits full_history (scheduler_of full_history) ltac:(by_eval) full_history_governed) as [[Hlimit _] Hdeps].
  split; [exact Hlimit|].
  assert (exists t, mp_tasks (scheduler_of full_history) !! "t2"%string = Some t /\ began t = true /\ st_dependencies t = ["t1"%string])
    as (t & Ht & Hb & Hd) by (eexists; split_and!; by_eval).
  destruct (Hdeps "t2"%string t "t1"%string) as (td & Htd); [exact Ht|exact Hb|rewrite Hd; apply list_elem_of_here|].
  exists t, td. split; [exact Ht|]. split; [exact Hb|exact Htd].
Defined.

Lemma decisions_accepted_and_fair_witness :
  (exists e p' t', decideExpiredLease (scheduler_of leased_history) "t1" (sampleTime 90) owner_dead "expired" (sampleTime 90) = Ok (Some e) /\
     applyMultiRepoSchedulerEvent (scheduler_of leased_history) e = Ok p' /\
     mp_tasks p' = <["t1"%string := t']> (mp_tasks (scheduler_of leased_history)) /\ isSome (phase_of t') = true) /\
  (exists c, chooseNextReconciliation (scheduler_of full_history) = Some c /\ st_taskId c = "t2"%string /\ reconcilable c = true).
Proof.
  split.
  - assert (exists e, decideExpiredLease (scheduler_of leased_history) "t1" (sampleTime 90) owner_dead "expired" (sampleTime 90) = Ok (Some e))
      as (e & Hd) by (eexists; by_eval).
    destruct (decisions_accepted_and_fair leased_history (scheduler_of leased_history) leased_history_reduces) as (_ & Hx & _).
    destruct (Hx "t1"%string (sampleTime 90) owner_dead "expired"%string (sampleTime 90) e eq_refl Hd) as (t & l & p' & t' & _ & _ & _ & Ha & Hp & Hph).
    exists e, p', t'. split; [exact Hd|]. split; [exact Ha|]. split; [exact Hp|]. rewrite Hph. reflexivity.
  - assert (exists c, chooseNextReconciliation (scheduler_of full_history) = Some c /\ st_taskId c = "t2"%string) as (c & Hc & Hid)
      by (eexists; split; by_eval).
    exists c. split; [exact Hc|]. split; [exact Hid|].
    destruct (decisions_accepted_and_fair full_history (scheduler_of full_history) full_history_reduces) as (_ & _ & _ & Hf). apply (Hf c Hc).
Defined.

Lemma events_counted_once_witness :
  mp_headSeq (scheduler_of full_history) = 5 /\
  fold_result applyMultiRepoSchedulerEvent (scheduler_of full_history) (rev full_history) = Ok (scheduler_of full_history).
Proof.
  split; [by_eval|].
  destruct (events_counted_once full_history (scheduler_of full_history) full_history_reduces) as (_ & _ & H & _).
  apply H. intros e He. apply list_elem_of_In, in_rev, list_elem_of_In, He.
Defined.

(** An identifier the schema accepts but the reducer never does: [tasks] inherits
    [constructor] from [Object.prototype]. *)
Lemma inherited_task_refused :
  MultiRepoSchedulerEventV1Schema (registration 1 "constructor" []) = true /\
  applyMultiRepoSchedulerEvent emptyMultiRepoSchedulerProjection (registration 1 "constructor" []) = Err SCHED_STALE_GENERATION.
Proof. split; by_eval. Qed.
