(* ===== verification/GraphProperties.v ===== *)
(** GraphProperties: the theorems about repository registries, repository sets
    and task graphs. *)
From S2P Require Import Prelude Text Json Ids ScmTypes ScmSchema ControlEvents EventSchema ControlState ControlReducer Domain Dag Sample.

(** * A sample registry and graph *)

Definition sampleDefinition (id : string) : RepositoryDefinitionV1 := {|
  rd_repositoryId := id; rd_configuredPath := text_of_string "."; rd_defaultBranch := text_of_string "main"; rd_protectedBranches := [] |}.

Definition sampleResolver : RepositoryIdentityResolver := fun d =>
  let n := strlen d.(rd_repositoryId) in
  Some {| rp_canonicalRoot := text_of_string ("/repos/" +:+ d.(rd_repositoryId)); rp_rootDevice := 1; rp_rootInode := n;
          rp_gitCommonDirDevice := 1; rp_gitCommonDirInode := 100 + n |}.

Definition sampleRegistry : RepositoryRegistryV1 :=
  match materializeRepositoryRegistry [sampleDefinition "lib"; sampleDefinition "service"] sampleResolver with Ok r => r | Err _ => [] end.

Definition sampleTask (id : string) (deps : list string) : MultiRepositoryTaskV1 := {|
  mt_taskId := id; mt_taskGeneration := 1; mt_roleId := "role"; mt_providerId := "provider"; mt_repositoryIds := ["lib"%string]; mt_dependencies := deps |}.

Definition sampleTasks : list MultiRepositoryTaskV1 :=
  [sampleTask "d" ["b"%string; "c"%string]; sampleTask "b" ["a"%string]; sampleTask "c" ["a"%string]; sampleTask "a" []].

(** * Theorems *)

(** C37: Repositories are separate and sets bind their policy. In a registry
    that was accepted there is one entry per definition, with the physical
    identity its probe found, and two entries share neither id, root inode,
    common git directory nor root path, and the root of neither is below the
    other's except where the next path segment starts with two dots. And sets
    whose digests agree, of whatever registries, list the same repositories in
    the same order with the same default and protected branches, as long as the
    digest tells their two texts apart. *)
Theorem repositories_separate {D : Digest} {C : Collation} :
  (forall definitions resolveIdentity registry,
     materializeRepositoryRegistry definitions resolveIdentity = Ok registry ->
     (exists identities, registry ≡ₚ identities /\
        Forall2 (fun d i => exists probe, resolveIdentity d = Some probe /\ i = candidate d probe) definitions identities) /\
     NoDup (List.map ri_repositoryId registry) /\
     forall i j, i ∈ registry -> j ∈ registry -> i <> j ->
       (ri_rootDevice i, ri_rootInode i) <> (ri_rootDevice j, ri_rootInode j) /\
       (ri_gitCommonDirDevice i, ri_gitCommonDirInode i) <> (ri_gitCommonDirDevice j, ri_gitCommonDirInode j) /\
       ri_canonicalRoot i <> ri_canonicalRoot j /\
       forall segment rest, normal_segments (ri_canonicalRoot j) = normal_segments (ri_canonicalRoot i) ++ segment :: rest ->
         startsWith [46; 46] segment = true) /\
  (forall registry registry' ids ids' set set',
     materializeRepositorySet registry ids = Ok set -> materializeRepositorySet registry' ids' = Ok set' ->
     rs_repositorySetId set = rs_repositorySetId set' ->
     exists selected selected',
       Forall2 (fun id i => i ∈ registry /\ ri_repositoryId i = id) ids selected /\
       Forall2 (fun id i => i ∈ registry' /\ ri_repositoryId i = id) ids' selected' /\
       ((sha256Text (repository_set_text selected) = sha256Text (repository_set_text selected') ->
         repository_set_text selected = repository_set_text selected') ->
        ids = ids' /\ List.map repository_policy selected = List.map repository_policy selected')).
Proof.
  split.
  - intros definitions resolveIdentity registry Hr. destruct (registry_Ok _ _ _ Hr) as (s & [_ _ _ Hitems Hdis] & -> & _ & _).
    assert (js_sort by_repositoryId (rg_identities s) ≡ₚ rg_identities s) as Hp by apply js_sort_Permutation. split_and!.
    + exists (rg_identities s). split; [done|]. eapply Forall2_impl; [exact Hitems|]. intros d i (probe & ? & ? & _). by exists probe.
    + rewrite Hp. clear Hp Hitems Hr. induction Hdis as [|i l Hi _ IH]; cbn; constructor; [|done].
      intros (j & Hj & Hin)%list_elem_of_In%in_map_iff. rewrite Forall_forall in Hi.
      destruct (Hi j) as [Hne _]; [by apply list_elem_of_In|congruence].
    + intros i j Hi%elem_of_js_sort Hj%elem_of_js_sort Hne.
      destruct (ForallOrdPairs_distinct _ _ i j _ Hdis Hi Hj) as [?|(_ & H1 & H2 & H3 & H4 & _)]; [done|].
      split_and!; try done. intros segment rest Hs. apply not_false_iff_true. intros Hd. apply not_true_iff_false in H4. apply H4, isNested_spec. eauto.
  - intros registry registry' ids ids' set set' Hs Hs' E.
    apply materializeRepositorySet_Ok in Hs as (sel & Hsel & _ & E1 & _), Hs' as (sel' & Hsel' & _ & E1' & _).
    exists sel, sel'. split; [eapply Forall2_impl; [exact Hsel|]; by intros ?? (? & ? & _)|].
    split; [eapply Forall2_impl; [exact Hsel'|]; by intros ?? (? & ? & _)|]. intros Hinj.
    assert (List.map repository_policy sel = List.map repository_policy sel') as Hpol by (apply repository_set_text_inj, Hinj; congruence).
    split; [|done]. apply (f_equal (List.map (fun x => x.1.1))) in Hpol. rewrite !map_map in Hpol. cbn in Hpol.
    rewrite (selected_ids _ _ _ Hsel), (selected_ids _ _ _ Hsel') in Hpol. done.
Qed.

(** The order of a task graph is topological and its layers are the depths.
    A graph that is accepted holds the given tasks with the sets of their
    repositories; its order lists every task once, after all tasks it depends
    on; the layers are the order cut up; the depth of a task is 0 or one more
    than the largest depth of its dependencies, is the number of its layer and at
    most 256; and [dependents] lists exactly the tasks that depend on a task. *)
Lemma graph_order_topological {D : Digest} {C : Collation} registry raws dag :
  materializeMultiRepositoryDag registry raws = Ok dag ->
  List.map mm_task (dag_tasks dag) ≡ₚ raws /\
  (forall t, t ∈ dag_tasks dag -> materializeRepositorySet registry (mt_repositoryIds (mm_task t)) = Ok (mm_repositorySet t)) /\
  NoDup (dag_order dag) /\ dag_order dag ≡ₚ List.map mt_taskId raws /\
  (forall pre t post d, dag_order dag = pre ++ t :: post -> depends raws t d -> d ∈ pre) /\
  List.concat (dag_layers dag) = dag_order dag /\
  (forall t, t ∈ raws -> depth_at (dag_depthByTask dag) (mt_taskId t) = task_depth (dag_depthByTask dag) (mt_dependencies t) /\
     depth_at (dag_depthByTask dag) (mt_taskId t) <= maximumGraphDepth) /\
  (forall i layer t, dag_layers dag !! i = Some layer -> t ∈ layer -> dag_depthByTask dag !! t = Some (Z.of_nat i)) /\
  (forall d t, d ∈ List.map mt_taskId raws -> t ∈ default [] (dag_dependents dag !! d) <-> depends raws t d) /\
  dag_edgeCount dag <= maximumDependencies.
Proof.
  unfold materializeMultiRepositoryDag. intros (g & Hg & ([] & He & H)%bind_Ok)%bind_Ok. apply read_tasks_inv in Hg as (Hread & _ & _).
  pose proof (layered_graph_spec _ _ _ Hread He) as Hs. rewrite H in Hs. destruct Hs as (k & Hk & Hr & Hlen & ->).
  pose proof (read_tasks_of _ _ _ Hread) as Hraws. pose proof (layers_order _ _ _ Hk) as Ho. pose proof (layers_depth _ _ _ Hk) as Hd.
  rewrite Hr in Ho. cbn [dag_tasks dag_order dag_layers dag_depthByTask dag_dependents dag_edgeCount].
  assert (js_sort by_taskId (gi_tasks g) ≡ₚ gi_tasks g) as Hp by apply js_sort_Permutation.
  pose proof (inv_nodup _ _ _ _ _ Ho) as Hnd. rewrite app_nil_r in Hnd.
  pose proof (ordered_all _ _ _ Hk Hr Hlen (read_unique _ _ _ Hread)) as Hall.
  assert (List.map task_id (gi_tasks g) = List.map mt_taskId raws) as Hids by (by rewrite <-Hraws, map_map).
  split_and!; try done.
  - rewrite <-Hraws. by rewrite Hp.
  - intros t Ht%elem_of_js_sort. by apply (read_valid _ _ _ Hread).
  - by rewrite Hall, Hids.
  - intros pre t post d E Hdep. eapply (inv_topological _ _ _ _ _ Ho); [exact E|]. by apply (checked_edge _ _ _ Hread).
  - apply (layers_concat _ _ _ Hk).
  - intros t Ht. rewrite <-Hraws in Ht. apply list_elem_of_In, in_map_iff in Ht as (x & <- & Hx%list_elem_of_In).
    assert (task_id x ∈ k_order k) as Hin by (rewrite Hall; by apply list_elem_of_In, in_map, list_elem_of_In).
    change (mt_taskId (mm_task x)) with (task_id x). split.
    + rewrite (depth_value _ _ _ _ _ _ Hd (task_id x) Hin). f_equal. by apply (checked_dependencies _ _ _ Hread).
    + by apply (depth_bound _ _ _ _ _ _ Hd).
  - intros i layer t Hi Ht. pose proof (layers_level _ _ _ Hk i layer t Hi Ht) as E. unfold depth_at in E.
    assert (is_Some (k_depth k !! t)) as [n Hn].
    { apply (depth_dom _ _ _ _ _ _ Hd). rewrite <-(layers_concat _ _ _ Hk). apply list_elem_of_In, in_concat. exists layer.
      rewrite <-!list_elem_of_In. split; [|done]. by eapply list_elem_of_lookup_2. }
    rewrite Hn in *. cbn in E. by subst n.
  - intros d t Hin. rewrite <-Hids in Hin. rewrite (proj2 (checked_dependents _ _ _ Hread d Hin)), <-(checked_edge _ _ _ Hread). split; [tauto|].
    intros Hdep. split; [|done]. apply (checked_edge _ _ _ Hread) in Hdep as (x & Hx & <- & _). rewrite Hids. by apply list_elem_of_In, in_map, list_elem_of_In.
  - apply (read_limit _ _ _ Hread).
Qed.

(** Exactly the graphs without cycles are ordered. Of tasks that can be read
    and whose edges are checked, the graph is made if and only if no set of tasks
    waits for itself (each having a dependency in the set) and no chain of
    dependencies is longer than 256; otherwise the error is the cycle error or
    the limit error, never a graph with tasks left out. *)
Lemma graph_accepts_acyclic {D : Digest} {C : Collation} registry raws g :
  read_tasks registry raws = Ok g -> check_edges g = Ok tt ->
  (is_ok (materializeMultiRepositoryDag registry raws) = true <->
   (forall waiting, ~ waiting_set (depends raws) waiting) /\ (forall t, ~ dependency_chain (depends raws) (maximumGraphDepth + 1) t)) /\
  (forall e, materializeMultiRepositoryDag registry raws = Err e ->
     e = DAG_CYCLE /\ (exists waiting, waiting_set (depends raws) waiting) \/
     e = DAG_GRAPH_LIMIT /\ exists t, dependency_chain (depends raws) (maximumGraphDepth + 1) t).
Proof.
  intros Hg He. pose proof (proj1 (read_tasks_inv _ _ _ Hg)) as Hread.
  assert (materializeMultiRepositoryDag registry raws = layered_graph g) as -> by (unfold materializeMultiRepositoryDag; by rewrite Hg; cbn; rewrite He).
  pose proof (layered_graph_spec _ _ _ Hread He) as Hs. destruct (layered_graph g) as [dag|e].
  - destruct Hs as (k & Hk & Hr & Hlen & ->). split; [|done]. split; [|done]. intros _.
    pose proof (ordered_all _ _ _ Hk Hr Hlen (read_unique _ _ _ Hread)) as Hall.
    pose proof (layers_depth _ _ _ Hk) as Hd. pose proof (layers_order _ _ _ Hk) as Ho.
    assert (forall t d, depends raws t d -> t ∈ k_order k) as Hin.
    { intros t d (x & Hx & <- & _). rewrite Hall, <-(map_map mm_task mt_taskId), (read_tasks_of _ _ _ Hread). by apply list_elem_of_In, in_map, list_elem_of_In. }
    split.
    + intros waiting Hw. eapply (topological_no_waiting (gi_byId g) (k_order k)); [|apply (inv_topological _ _ _ _ _ Ho)|].
      * intros t d Hdep%(checked_edge _ _ _ Hread). by eapply Hin.
      * eapply waiting_mono; [|exact Hw]. intros t d. apply (checked_edge _ _ _ Hread).
    + intros t Hc. assert (t ∈ k_order k) as Ht. { inversion Hc as [|n t' d Hdep _]. by eapply Hin. }
      enough (maximumGraphDepth + 1 <= depth_at (k_depth k) t) by (pose proof (depth_bound _ _ _ _ _ _ Hd t Ht); lia).
      eapply (chain_bounded (gi_byId g) (k_order k)); [apply (depth_value _ _ _ _ _ _ Hd)| | | |done].
      * intros t0 d Ht0 Hdep. by apply (proj1 (unmet_zero _ _ _) (inv_met _ _ _ _ _ Ho t0 ltac:(rewrite elem_of_app; by left))).
      * intros t0 Ht0. by apply (depth_bound _ _ _ _ _ _ Hd).
      * eapply chain_mono; [|exact Hc]. intros t0 d. apply (checked_edge _ _ _ Hread).
  - assert (e = DAG_CYCLE /\ (exists waiting, waiting_set (depends raws) waiting) \/
      e = DAG_GRAPH_LIMIT /\ exists t, dependency_chain (depends raws) (maximumGraphDepth + 1) t) as Hcase.
    { destruct Hs as [(-> & t & _ & Hc)|[-> Hw]]; [right|by left]. split; [done|]. exists t. eapply chain_mono; [|exact Hc].
      intros t0 d. apply (checked_edge _ _ _ Hread). }
    split; [|by intros ? [= <-]]. split; [done|]. intros [H1 H2]. destruct Hcase as [[_ [w Hw]]|[_ [t Ht]]]; [by apply H1 in Hw|by apply H2 in Ht].
Qed.

(** C38: Exactly the graphs without cycles are made, and their order is
    topological. A graph that is accepted holds the given tasks with the sets of
    their repositories; its order lists every task once, after all tasks it
    depends on; the layers are the order cut up; the depth of a task is 0 or one
    more than the largest depth of its dependencies, is the number of its layer and
    at most 256; and [dependents] lists exactly the tasks that depend on a task. Of
    tasks that can be read and whose edges are checked, the graph is made if and
    only if no set of tasks waits for itself (each having a dependency in the set)
    and no chain of dependencies is longer than 256; otherwise the error is the
    cycle error or the limit error, never a graph with tasks left out. *)
Theorem graphs_ordered {D : Digest} {C : Collation} registry raws :
  (forall dag,
     materializeMultiRepositoryDag registry raws = Ok dag ->
     List.map mm_task (dag_tasks dag) ≡ₚ raws /\
     (forall t, t ∈ dag_tasks dag -> materializeRepositorySet registry (mt_repositoryIds (mm_task t)) = Ok (mm_repositorySet t)) /\
     NoDup (dag_order dag) /\ dag_order dag ≡ₚ List.map mt_taskId raws /\
     (forall pre t post d, dag_order dag = pre ++ t :: post -> depends raws t d -> d ∈ pre) /\
     List.concat (dag_layers dag) = dag_order dag /\
     (forall t, t ∈ raws -> depth_at (dag_depthByTask dag) (mt_taskId t) = task_depth (dag_depthByTask dag) (mt_dependencies t) /\
        depth_at (dag_depthByTask dag) (mt_taskId t) <= maximumGraphDepth) /\
     (forall i layer t, dag_layers dag !! i = Some layer -> t ∈ layer -> dag_depthByTask dag !! t = Some (Z.of_nat i)) /\
     (forall d t, d ∈ List.map mt_taskId raws -> t ∈ default [] (dag_dependents dag !! d) <-> depends raws t d) /\
     dag_edgeCount dag <= maximumDependencies) /\
  (forall g,
     read_tasks registry raws = Ok g -> check_edges g = Ok tt ->
     (is_ok (materializeMultiRepositoryDag registry raws) = true <->
      (forall waiting, ~ waiting_set (depends raws) waiting) /\ (forall t, ~ dependency_chain (depends raws) (maximumGraphDepth + 1) t)) /\
     (forall e, materializeMultiRepositoryDag registry raws = Err e ->
        e = DAG_CYCLE /\ (exists waiting, waiting_set (depends raws) waiting) \/
        e = DAG_GRAPH_LIMIT /\ exists t, dependency_chain (depends raws) (maximumGraphDepth + 1) t)).
Proof. split; [apply graph_order_topological|apply graph_accepts_acyclic]. Qed.

(** * Witnesses *)

Lemma repositories_separate_witness :
  exists i j, sampleRegistry = [i; j] /\ i <> j /\ ri_canonicalRoot i <> ri_canonicalRoot j.
Proof.
  assert (materializeRepositoryRegistry [sampleDefinition "lib"; sampleDefinition "service"] sampleResolver = Ok sampleRegistry) as Hr by by_eval.
  assert (exists i j, sampleRegistry = [i; j]) as (i & j & E) by (do 2 eexists; by_eval).
  exists i, j. split; [exact E|]. destruct (proj1 repositories_separate _ _ _ Hr) as (_ & Hnd & Hdis). rewrite E in Hnd, Hdis.
  assert (i <> j) as Hne. { intros ->. cbn in Hnd. apply NoDup_cons in Hnd as [Hnd _]. apply Hnd, list_elem_of_here. }
  split; [exact Hne|]. apply (Hdis i j); [apply list_elem_of_here|apply list_elem_of_further, list_elem_of_here|exact Hne].
Defined.

Definition sampleGraph : MultiRepositoryDagV1 :=
  match materializeMultiRepositoryDag sampleRegistry sampleTasks with
  | Ok dag => dag
  | Err _ => {| dag_tasks := []; dag_order := []; dag_layers := []; dag_dependents := ∅; dag_depthByTask := ∅; dag_edgeCount := 0 |}
  end.

Lemma graphs_ordered_witness :
  (dag_layers sampleGraph = [["a"]; ["b"; "c"]; ["d"]]%string /\ NoDup (dag_order sampleGraph)) /\
  (forall waiting, ~ waiting_set (depends sampleTasks) waiting).
Proof.
  split.
  - split; [by_eval|]. assert (materializeMultiRepositoryDag sampleRegistry sampleTasks = Ok sampleGraph) as Hg by by_eval.
    destruct (proj1 (graphs_ordered sampleRegistry sampleTasks) sampleGraph Hg) as (_ & _ & Hnd & _). exact Hnd.
  - assert (exists g, read_tasks sampleRegistry sampleTasks = Ok g /\ check_edges g = Ok tt) as (g & Hg & He)
      by (eexists; split; by_eval).
    destruct (proj2 (graphs_ordered sampleRegistry sampleTasks) g Hg He) as [[H _] _]. destruct H as [H _]; [by_eval|exact H].
Defined.
