(* ===== verification/EventProperties.v ===== *)
(** EventProperties: what the canonical JSON text, the event texts and the
    aggregate keys of src/control/events.ts determine, and what the canonical
    forms of src/scm/schema.ts guarantee. *)
From S2P Require Import Prelude Text Json Ids ScmTypes ScmSchema ControlEvents EventSchema EventCode JsonText ControlState EventRead Sample.

(** The canonical JSON text identifies a value. Two values that
    [canonicalJson] prints alike are equal up to the order of their fields and
    the fields that are undefined, the text is the rendering of that canonical
    value, and reordering the fields of an object with distinct keys never
    changes the text. The digests of events, receipts and reactions are
    computed on this text. *)
Lemma canonical_text_identifies v w t :
  canonicalJson v = Ok t -> canonicalJson w = Ok t ->
  canonical v = canonical w /\ t = render (canonical v) /\
  (forall kvs kvs', v = JObject kvs -> NoDup kvs.*1 -> kvs ≡ₚ kvs' -> canonicalJson (JObject kvs') = Ok t).
Proof.
  intros Hv Hw. split; [by eapply canonicalJson_inj|]. split; [by apply canonicalJson_render in Hv as [-> _]|].
  intros kvs kvs' -> Hnd Hp. by rewrite <-(canonicalJson_object_order kvs kvs').
Qed.

(** Keys are unambiguous although they are built by plain concatenation.
    Two events whose aggregates have the same key have the same aggregate, so
    that no event can advance the version of another kind of aggregate, another
    identifier or another generation; and [sameScmRepository] returns [true]
    exactly for two accepted values with the same provider, host, owner and
    name. *)
Lemma aggregate_keys_unambiguous {U : UrlApi} :
  (forall e e' a a', aggregateForEvent e = Ok a -> aggregateForEvent e' = Ok a' -> agg_key a = agg_key a' ->
     a = a' /\ (aggregate_kind a = agg_session -> session_of (ev_payload e) = session_of (ev_payload e')) /\
     (aggregate_kind a = agg_task -> ev_taskId e = ev_taskId e' /\ ev_taskGeneration e = ev_taskGeneration e')) /\
  (forall l r, ScmRepositoryIdV1Schema l = true -> ScmRepositoryIdV1Schema r = true -> (sameScmRepository l r = Ok true <-> l = r)).
Proof.
  split.
  - intros e e' a a' Ha Ha' Heq%agg_key_inj. subst a'. unfold aggregateForEvent in *.
    split; [done|]. split; intros Hk; repeat case_match; simplify_eq/=; done.
  - intros l r Hl Hr. unfold sameScmRepository, parsedRepositoryKey. rewrite Hl, Hr. cbn. split.
    + intros [= H%bool_decide_eq_true]. by apply schemaRepositoryKey_inj.
    + intros ->. by rewrite bool_decide_eq_true_2.
Qed.

(** The text a digest is taken of binds the whole event. For valid events,
    the retry-stable intent texts are equal exactly when the events are equal,
    field for field and whatever the payload type, and the texts of the
    persisted forms are equal exactly when the events and their recording times
    are: no two different events share a digest unless SHA-256 collides. *)
Lemma event_text_binds {D : Digest} {U : UrlApi} e e' r r' t t' p p' :
  canonicalControlEvent e = Ok t -> canonicalControlEvent e' = Ok t' ->
  canonicalPersistedControlEvent e r = Ok p -> canonicalPersistedControlEvent e' r' = Ok p' ->
  (t = t' <-> e = e') /\ (p = p' <-> e = e' /\ r = r').
Proof.
  unfold canonicalControlEvent, canonicalPersistedControlEvent, parseControlEvent. intros H1 H2 H3 H4. run. subst.
  split; (split; [|intros; destruct_and?; subst; congruence]); intros ->.
  - by eapply ControlEvent_json_inj, canonicalJson_inj.
  - by eapply PersistedControlEvent_json_inj, canonicalJson_inj.
Qed.

(** C40: A text a digest is taken of determines its value, and is read back.
    Two values that [canonicalJson] prints alike are equal up to the order of
    their fields and the fields that are undefined, and the text is the rendering
    of that canonical value; reordering the fields of an object with distinct
    keys never changes the text; and a value whose objects have distinct keys
    comes back from [JSON.parse] of its text in canonical form. For valid events,
    the retry-stable intent texts are equal exactly when the events are equal,
    field for field and whatever the payload type, and the texts of the persisted
    forms are equal exactly when the events and their recording times are: no two
    different events share a digest unless SHA-256 collides. A persisted text,
    parsed and read through the closed schemas, is the event and the recording
    time it was printed from. *)
Theorem canonical_texts_bind {D : Digest} {U : UrlApi} :
  (forall v w t, canonicalJson v = Ok t -> canonicalJson w = Ok t ->
     canonical v = canonical w /\ t = render (canonical v) /\ (distinct v -> JSON_parse t = Some (canonical v)) /\
     (forall kvs kvs', v = JObject kvs -> NoDup kvs.*1 -> kvs ≡ₚ kvs' -> canonicalJson (JObject kvs') = Ok t)) /\
  (forall e e' r r' t t' p p',
     canonicalControlEvent e = Ok t -> canonicalControlEvent e' = Ok t' ->
     canonicalPersistedControlEvent e r = Ok p -> canonicalPersistedControlEvent e' r' = Ok p' ->
     (t = t' <-> e = e') /\ (p = p' <-> e = e' /\ r = r') /\
     JSON_parse p ≫= PersistedControlEvent_read = Some (e, r)).
Proof.
  split.
  - intros v w t Hv Hw. destruct (canonical_text_identifies v w t Hv Hw) as (? & ? & ?).
    split; [done|]. split; [done|]. split; [intros Hd; by apply JSON_parse_canonicalJson|done].
  - intros e e' r r' t t' p p' H1 H2 H3 H4. destruct (event_text_binds _ _ _ _ _ _ _ _ H1 H2 H3 H4).
    split; [done|]. split; [done|]. by apply stored_event_read.
Qed.

(** Branch refs and provider URLs cannot hide anything. A value passes
    [isValidScmBranchRef] if and only if it is [refs/heads/] followed by a
    non-empty list of components joined by slashes, at most 512 units long, each
    component non-empty, with no dot at either end, no double dot and no control,
    space or glob unit, the branch neither ending in [.lock] nor containing the
    reflog marker. An accepted provider URL is literally [https://], the
    configured host and an absolute path: whatever the host's URL parser does, no
    credentials, port, query, fragment, other host or control unit can be hidden
    in it, and it is returned unchanged. *)
Lemma refs_and_urls_canonical {U : UrlApi} :
  (forall value, isValidScmBranchRef value = true <-> exists parts, branch_ref value parts) /\
  (forall value canonicalHost url, parseScmHttpsUrl value canonicalHost = Ok url ->
     url = value /\ hostPattern canonicalHost = true /\
     exists path, value = text_of_string "https://" ++ canonicalHost ++ 47 :: path /\
       includes [47; 47] (47 :: path) = false /\ (forall c, c ∈ path -> 31 < c \/ c < 0)).
Proof.
  split; [|intros value canonicalHost url; apply parseScmHttpsUrl_Ok].
  intros value. split; [apply branch_sound|]. intros [parts H]. by apply (branch_complete _ parts).
Qed.

(** * Witnesses *)

Definition a_value : json :=
  jobj [("b"%string, jnum 1); ("a"%string, jstr "x"); ("c"%string, JUndefined)].
Definition the_value_reordered : json := jobj [("a"%string, jstr "x"); ("b"%string, jnum 1)].

Lemma aggregate_keys_unambiguous_witness :
  exists a, aggregateForEvent (pe_event (sampleAt 5)) = Ok a /\
  (aggregate_kind a = agg_session -> session_of (ev_payload (pe_event (sampleAt 5))) = session_of (ev_payload (pe_event (sampleAt 3)))) /\
  (sameScmRepository (Run.repository "base") (Run.repository "head") = Ok true <-> Run.repository "base" = Run.repository "head").
Proof.
  eexists. split; [by_eval|]. split.
  - apply (proj1 aggregate_keys_unambiguous (pe_event (sampleAt 5)) (pe_event (sampleAt 3)) _ _ eq_refl eq_refl). by_eval.
  - apply (proj2 aggregate_keys_unambiguous); by_eval.
Defined.

Definition the_event : ControlEvent := pe_event (sampleAt 5).

Lemma canonical_texts_bind_witness :
  (exists t, canonicalJson a_value = Ok t /\ canonical a_value = canonical the_value_reordered) /\
  exists t t' p p', canonicalControlEvent the_event = Ok t /\ canonicalControlEvent (pe_event (sampleAt 18)) = Ok t' /\
  canonicalPersistedControlEvent the_event (sampleTime 1) = Ok p /\
  canonicalPersistedControlEvent (pe_event (sampleAt 18)) (sampleTime 2) = Ok p' /\
  (t = t' <-> the_event = pe_event (sampleAt 18)) /\
  (p = p' <-> the_event = pe_event (sampleAt 18) /\ sampleTime 1 = sampleTime 2) /\
  JSON_parse p ≫= PersistedControlEvent_read = Some (the_event, sampleTime 1).
Proof.
  split.
  - eexists. split; [by_eval|]. eapply (proj1 canonical_texts_bind); by_eval.
  - eexists _, _, _, _. split; [by_eval|]. split; [by_eval|]. split; [by_eval|]. split; [by_eval|].
    eapply (proj2 canonical_texts_bind); by_eval.
Defined.

Definition a_url : text := text_of_string "https://github.com/base/repo/pull/1".

Lemma refs_and_urls_canonical_witness :
  parseScmHttpsUrl a_url (text_of_string "github.com") = Ok a_url /\
  exists path, a_url = text_of_string "https://" ++ text_of_string "github.com" ++ 47 :: path.
Proof.
  split; [by_eval|].
  destruct (proj2 refs_and_urls_canonical a_url (text_of_string "github.com") a_url) as (_ & _ & path & Hp & _); [by_eval|].
  exists path. exact Hp.
Defined.
